(* ===== verification/_CoqProject ===== *)
-Q . S2P
Prelude.v
Errors.v
Constants.v
Messages.v
TaskPlans.v
Words.v
Frame.v
Resync.v
FrameReader.v
Models.v
Firmware.v
Packets.v
TiMap.v
ServiceImage.v
Simulator.v
Journal.v
SimulatorProofs.v
SimulatorTransact.v
SimulatorProperties.v
Client.v
ClientSimulator.v
Workflow.v
Dfu.v
WorkflowProperties.v
Sci8.v
Targets.v
BootClient.v
OperationResults.v
OperationProtocol.v
FlashOps.v
StatusOps.v
StatusModels.v
RamOps.v
RuntimeValues.v
RuntimeModels.v
CommandExecutor.v
ImageRequests.v
OperationRequests.v
TaskModels.v
Controller.v
ControllerInvariant.v
ControllerProofs.v
ControllerProperties.v
Worker.v
RuntimeStore.v
RuntimeDispatch.v
RuntimeTable.v
RuntimeInvariant.v
RuntimeRefinement.v
RuntimeProperties.v
TransferProperties.v
FlashOpsProperties.v
OperationInvariants.v
OperationProperties.v
SerialTransport.v
Cli.v
CliRuntime.v
CliCommands.v
CliMain.v
CliProperties.v
CliLifecycle.v
Json.v
Persistence.v
SessionService.v
Backend.v
BackendConnection.v
BackendSelection.v
BackendImages.v
BackendStatus.v
BackendRam.v
BackendFlash.v
BackendExecute.v
BackendInvariant.v
BackendKeeps.v
BackendWrites.v
BackendLifecycle.v
BackendCalls.v
BackendReachable.v
BackendReads.v
BackendProperties.v
