(* ===== verification/Prelude.v ===== *)
(** * Verification of the DSP28377D bootloader upgrade tool

    The program (src/pc/src/bootloader_upgrade_tool, Python) upgrades the
    application of a TMS320F28377D over a serial line.  This development
    models its logic as executable Rocq definitions, keeps the names of the
    source, and proves what the parts promise to one another.

    ** The parts and how they interact

    A request is a frame of 16-bit words.  The host sends it through a byte
    transport, a device answers with one response frame, and a reader finds the
    response in the byte stream.  Two host stacks use this protocol:
    - the _workflow_ ([UpgradeWorkflow] above [ProtocolClient] above a
      [PcIoDevice]), which also runs against the device simulator of the
      repository;
    - the _operations_ (operations/ above [BootProtocolClient] above a
      [ByteTransport], in practice the serial transport); they load a RAM
      service into the device before they touch the Flash, and can be cancelled.
    Both take firmware images, which are checked, merged and cut into packets.
    Two front ends use the operations:
    - the _command line_: commands that prepare images, ask for a confirmation
      and run operations on a connection that lasts for one command or for the
      session of a shell;
    - the _GUI_: a controller runs one task at a time on a worker, a task calls
      the runtime backend, which owns the connection, and what is known of the
      device is kept in a store that changes only by domain events
      (_Runtime V2_).

    ** Files and sources (paths below src/pc/src/bootloader_upgrade_tool)

    Base.  Prelude: Python values, lists, integers, the tactics and hints.
    Errors: exception classes, the result monad [Res], the state and exception
    monad [ST] with its rules [wp].  Messages: text and the texts of messages.

    Protocol.  Constants (protocol/constants.py, command_timeouts.py), Words
    (crc.py, sequence.py, alignment.py, firmware/crc32.py), Frame (frame.py),
    Resync (resync.py), FrameReader (frame_reader.py), Models (models.py).

    Firmware.  Firmware (word memories; firmware/models.py, app_validation.py,
    ram_validation.py, flash_layout.py), Packets (core/workflow.py, lines
    63-135), TiMap (ti_map.py, the linker map), ServiceImage (SHA-256;
    service_image.py), Sci8 (the parser of hex2000.py), Targets (targets/ and
    images/).

    Simulator.  Simulator (simulator/core.py: 23 command handlers on the record
    [SimulatorCore]), Journal (its metadata area as a list of records),
    SimulatorProofs (the contract: the invariant [Sim_ok], the [effect] of each
    accepted command, [rejected] for the others; and the first handlers),
    SimulatorTransact (the Flash and metadata handlers, the dispatcher),
    SimulatorProperties (sequences of requests; what is accepted).

    Workflow.  Client (the type class [PcIoDevice]; core/client.py for every
    instance of it), ClientSimulator (io/simulator_device.py, an instance; a
    transaction over it is one step of the simulator), Workflow (class
    UpgradeWorkflow; the upgrade above the simulator), Dfu (it installs the
    image), WorkflowProperties (the workflow on any device; starting the
    application).

    Operations (operations/).  BootClient (protocol/boot_protocol_client.py for
    every [ByteTransport]), SerialTransport (transport/serial_transport.py, an
    instance over the class [PySerial]), OperationResults (results.py,
    context.py), OperationProtocol (_flash_protocol.py, _ram_protocol.py,
    _service_runtime.py), FlashOps, StatusOps (with metadata_ops.py), RamOps
    (with memory_ops.py and discovery.py), StatusModels
    (operation_result_to_dict).  TransferProperties relates an operation to the
    log of the commands it issues and gives the transfers and the service their
    contracts; FlashOpsProperties those of the erase, upload, metadata and memory
    operations; OperationInvariants carries invariants of the client through
    every operation; OperationProperties has the properties and a small
    answering device on which they run.

    Command line (cli/).  Cli (output.py, confirmation.py, the checks of
    parser.py), CliRuntime (runtime.py), CliCommands (commands.py), CliMain
    (main.py, shell.py).  CliProperties follows the commands call by call,
    CliLifecycle the connection from [main] to its return.

    GUI models (gui/).  TaskPlans and TaskModels (runtime_models.py,
    operation_task_adapter.py), StatusModels (status_models.py), ImageRequests
    (image_preparation_models.py, advanced_ram_models.py,
    flash_service_models.py), OperationRequests (connection_models.py,
    memory_models.py and the advanced_*_models.py).

    GUI tasks.  Controller (controller.py as an event handler on the record
    [Controller]), ControllerInvariant, ControllerProofs, ControllerProperties;
    Worker (workers.py); CommandExecutor (connection_command_executor.py, threads
    as a step relation).

    Runtime V2 (gui/).  RuntimeValues ([_freeze_runtime_value]), RuntimeModels
    and RuntimeStore (runtime_v2_models.py, runtime_v2_events.py),
    RuntimeDispatch (runtime_v2_policies.py, runtime_v2_transition.py),
    RuntimeTable (the abstract specification: one row per event),
    RuntimeInvariant, RuntimeRefinement (the fourteen policies in their order
    implement the table), RuntimeProperties.

    Runtime backend (gui/runtime_backend.py).  Backend (the state, and the class
    [Ports] of the callables that are injected), BackendConnection,
    BackendSelection, BackendImages, BackendStatus, BackendRam, BackendFlash,
    BackendExecute (metadata operations and the tasks); BackendInvariant,
    BackendKeeps and BackendWrites (what the operations leave alone and may
    ask for), BackendLifecycle and BackendCalls (the connection through the
    calls), BackendReachable (the states between calls, with an example),
    BackendReads (requests that are refused), BackendProperties.

    GUI documents (gui/).  Json (the values, json.dumps, json.loads and UTF-8 of
    the Python library, with its floating point numbers), Persistence
    (persistence_models.py, persistence_stores.py: the documents, their encoding
    and parsing, and writes over a disk whose calls may fail), SessionService
    (session_application_service.py: the open session, its file and the recent
    sessions).

    ** What the theorems show

    - Wire: decoding inverts encoding and accepts only well-formed frames; a
      stream of frames with noise between them is delivered exactly, however it
      is cut; the readers terminate.
    - Firmware: the parsers of boot tables and linker maps accept exactly the
      declarative reading of their texts; validation accepts exactly the
      admissible images; patching a service succeeds exactly on consistent
      addresses; packets write exactly the padded image.
    - Simulator: every request is answered as its command promises, without an
      exception, keeping the invariant; programmed words stay until their sector
      is erased; IMAGE_VALID follows a verification and RUN an attempt.
    - Workflow: over the simulator an upgrade installs the image and then
      starts it; over any device a failed upgrade leaves the Flash marked as
      not verified, and RUN is guarded.
    - Operations: uploads send BEGIN, DATA in order and END and report success
      only when all were acknowledged; erases use allowed masks after the
      service is attached; metadata records are written once and when
      admitted; memory reads stay in range; the identity of the device never
      changes within a session; the serial transport holds a port exactly while
      it knows of it.
    - Command line: the upgrade runs its stages in order, each after the one
      before has succeeded, and exits with success exactly when all did;
      without consent a command only reads; [main] and the shell let go of every
      transport they make; the shell reads its input to the end.
    - GUI tasks: the controller keeps its invariant under any events and
      announces starts and ends in turn, so a task ends at most once (that it
      ends is not claimed: it waits for its worker and for the user); a call
      from a wrong thread about another task leaves the active one, if it has
      no fatal error yet, without an end, unless it was asking whether to keep
      the connection and the user keeps it; handlers raise only in the cases named; a worker reports
      exactly once; the executor excludes.
    - Runtime V2: dispatch is equivalent to the table and atomic; in every
      execution the state is well formed and evidence comes from the event that
      reports it.
    - Documents: what was saved is loaded again; a save replaces the file as a
      whole, whatever fails; a session shown as unchanged is on the disk, and
      the recent sessions stay in order.
    - Backend: between calls it has a whole connection or none; connect and
      disconnect end as they report; a task asks of the target only what its
      request names; evidence is earned by a clean answer; requests for another
      connection, or without their evidence, change nothing.

    ** Conventions, bounds and fuel

    Machine words are [Z] with the checks and masks of the source written out.
    A Python exception is a value of [Err]; state changes made before it are
    kept.  Loops that consume a list run on its length: chunking on the number
    of words, the inner loops of the readers on the length of the buffer plus
    one, the shell on the number of lines plus one, the JSON reader on twice the
    length of its text plus one; these are proved sufficient.
    A loop with a deadline runs for a number of polls, which is the model of the
    clock ([iterations timeout_ms], [polls ms]); the theorems hold for every
    such function (the end-to-end ones ask for at least one poll).  Locks make a
    method one step.  The cancellation token is a function of how often it was
    asked, a progress callback the log of its calls, standard input a list of
    lines and the outputs lists of what was written.

    ** Not modelled

    Qt widgets, pages and bindings (layout and signals); the argparse grammar (parsers are parameters of CliMain) and
    the text of progress lines; the older scripts of tools/ and
    io/serial_device.py that only they use; pyserial itself and the
    file system (the classes [PySerial], [Paths], [ImageFiles], [Ports],
    [Machine] and [System] stand for them);
    locating and running hex2000; cmd_memory.py; the recursion limit and the error
    texts of the JSON reader, and timestamps in other forms than the tool writes
    (a parameter of Persistence); the C code of the device.  The
    methods of the backend are run one after the other: a maintenance ping
    between the steps of a task is not (the executor that excludes it is).
    Left out of modelled functions: sleeps, tracing hooks, tracebacks and
    timestamps of messages, which do not influence the results. *)

From stdpp Require Export base tactics list option gmap strings sorting.
From Stdlib Require Export ZArith Lia Bool.

#[global] Open Scope Z_scope.
#[global] Set Default Goal Selector "!".

(** ** Notations and hint databases of the development *)

Declare Scope py_scope.
Delimit Scope py_scope with py.
Create HintDb py.
Create Rewrite HintDb zlen.
Create Rewrite HintDb words.

(** ** Python values that appear in messages, summaries and detail dicts *)

Inductive PyVal : Type :=
| VNone
| VBool (b : bool)
| VInt (z : Z)
| VStr (s : string)
| VSeq (l : list PyVal)
| VDict (l : list (string * PyVal)).

(** A message: a string literal, an f-string kept as its template and its
    arguments, or a message with a prefix. *)
Inductive Msg : Type :=
| Lit (s : string)
| Fmt (template : string) (args : list PyVal)
| Prefixed (prefix : string) (m : Msg).

(** ** 16-bit and 32-bit words *)

Definition U16_MAX : Z := 0xFFFF.
Definition U32_MAX : Z := 0xFFFFFFFF.

(** [fits_u16 w] is the Python test [not (w < 0 or w > 0xFFFF)]. *)
Definition fits_u16 (w : Z) : bool := negb ((w <? 0) || (w >? 0xFFFF)).
Definition fits_u32 (w : Z) : bool := negb ((w <? 0) || (w >? 0xFFFFFFFF)).
Definition fits_u8 (w : Z) : bool := negb ((w <? 0) || (w >? 0xFF)).

Definition u8 (w : Z) : Prop := 0 <= w < 256.
Definition u16 (w : Z) : Prop := 0 <= w < 65536.
Definition u32 (w : Z) : Prop := 0 <= w < 4294967296.

#[export] Instance u8_dec w : Decision (u8 w).
Proof. unfold u8. apply _. Defined.
#[export] Instance u16_dec w : Decision (u16 w).
Proof. unfold u16. apply _. Defined.
#[export] Instance u32_dec w : Decision (u32 w).
Proof. unfold u32. apply _. Defined.

Lemma fits_u16_spec w : fits_u16 w = true ↔ u16 w.
Proof. unfold fits_u16, u16. lia. Qed.
Lemma fits_u32_spec w : fits_u32 w = true ↔ u32 w.
Proof. unfold fits_u32, u32. lia. Qed.
Lemma fits_u16_false w : fits_u16 w = false ↔ ¬ u16 w.
Proof. unfold fits_u16, u16. lia. Qed.
Lemma fits_u32_false w : fits_u32 w = false ↔ ¬ u32 w.
Proof. unfold fits_u32, u32. lia. Qed.

Lemma forallb_fits_u16 ws : forallb fits_u16 ws = true ↔ Forall u16 ws.
Proof.
  rewrite forallb_forall, List.Forall_forall.
  split; intros H x Hx; apply fits_u16_spec; auto.
Qed.

(** ** Python sequences *)

(** [len l] *)
Definition zlen {A} (l : list A) : Z := Z.of_nat (length l).

(** [l[a:b]] for non-negative bounds. *)
Definition slice {A} (l : list A) (a b : Z) : list A :=
  take (Z.to_nat b - Z.to_nat a) (drop (Z.to_nat a) l).

(** [l[a:]] for a non-negative bound. *)
Definition slice_from {A} (l : list A) (a : Z) : list A := drop (Z.to_nat a) l.

(** [l[i]] where the source has already established [0 <= i < len l]. *)
Definition at_ (l : list Z) (i : Z) : Z := nth (Z.to_nat i) l 0.

(** [range(a, b)] *)
Definition zrange (a b : Z) : list Z :=
  map (λ i, a + Z.of_nat i) (seq 0 (Z.to_nat (b - a))).

(** [sum(l)] *)
Definition zsum (l : list Z) : Z := foldr Z.add 0 l.

Lemma zlen_nonneg {A} (l : list A) : 0 <= zlen l.
Proof. unfold zlen. lia. Qed.
Lemma zlen_app {A} (l k : list A) : zlen (l ++ k) = zlen l + zlen k.
Proof. unfold zlen. rewrite length_app. lia. Qed.
Lemma zlen_cons {A} (x : A) l : zlen (x :: l) = 1 + zlen l.
Proof. unfold zlen. simpl. lia. Qed.
Lemma zlen_nil {A} : zlen (@nil A) = 0.
Proof. reflexivity. Qed.
Lemma zlen_0_inv {A} (l : list A) : zlen l = 0 → l = [].
Proof. destruct l; [done|]. rewrite zlen_cons. pose proof (zlen_nonneg l). lia. Qed.
Lemma zlen_map {A B} (f : A → B) l : zlen (map f l) = zlen l.
Proof. unfold zlen. by rewrite length_map. Qed.
Lemma zlen_take {A} (l : list A) n : zlen (take n l) = Z.min (Z.of_nat n) (zlen l).
Proof. unfold zlen. rewrite length_take. lia. Qed.
Lemma zlen_drop {A} (l : list A) n : zlen (drop n l) = Z.max 0 (zlen l - Z.of_nat n).
Proof. unfold zlen. rewrite length_drop. lia. Qed.
Lemma zlen_replicate {A} (x : A) n : zlen (replicate n x) = Z.of_nat n.
Proof. unfold zlen. by rewrite length_replicate. Qed.

#[export] Hint Rewrite @zlen_app @zlen_cons @zlen_nil @zlen_map @zlen_take
  @zlen_drop @zlen_replicate : zlen.
#[export] Hint Resolve zlen_nonneg : py.

(** Bring every [zlen] of the context to a linear form and call [lia]. *)
Ltac zlen_lia :=
  autorewrite with zlen in *;
  repeat match goal with
  | |- context [zlen ?l] => lazymatch goal with
      | _ : 0 <= zlen l |- _ => fail
      | _ => pose proof (zlen_nonneg l) end
  | _ : context [zlen ?l] |- _ => lazymatch goal with
      | _ : 0 <= zlen l |- _ => fail
      | _ => pose proof (zlen_nonneg l) end
  end; lia.

Lemma in_zrange a b x : In x (zrange a b) ↔ a <= x < b.
Proof.
  unfold zrange. rewrite in_map_iff. split.
  - intros (i & <- & Hi). apply in_seq in Hi. lia.
  - intros Hx. exists (Z.to_nat (x - a)). split; [lia|]. apply in_seq. lia.
Qed.

Lemma zsum_app l k : zsum (l ++ k) = zsum l + zsum k.
Proof. unfold zsum. induction l; simpl; lia. Qed.

Lemma zsum_nonneg l : Forall (λ x, 0 <= x) l → 0 <= zsum l.
Proof. unfold zsum. induction 1; simpl; lia. Qed.

Lemma Forall_take_Z {A} (P : A → Prop) n l : Forall P l → Forall P (take n l).
Proof. apply Forall_take. Qed.

Lemma Forall_slice {A} (P : A → Prop) (l : list A) a b :
  Forall P l → Forall P (slice l a b).
Proof. intros H. by apply Forall_take, Forall_drop. Qed.

Lemma Forall_slice_from {A} (P : A → Prop) (l : list A) a :
  Forall P l → Forall P (slice_from l a).
Proof. intros H. by apply Forall_drop. Qed.

Lemma at_u16 l i : Forall u16 l → u16 (at_ l i).
Proof.
  intros H. unfold at_. destruct (nth_in_or_default (Z.to_nat i) l 0) as [Hin| ->].
  - by eapply List.Forall_forall in Hin.
  - unfold u16; lia.
Qed.
#[export] Hint Resolve Forall_slice Forall_slice_from at_u16 : py.

Lemma at_app_l l k i : 0 <= i < zlen l → at_ (l ++ k) i = at_ l i.
Proof. unfold at_, zlen. intros H. apply app_nth1. lia. Qed.

Lemma at_app_r l k i : zlen l <= i → at_ (l ++ k) i = at_ k (i - zlen l).
Proof.
  unfold at_, zlen. intros H. rewrite app_nth2 by lia. f_equal. lia.
Qed.

Lemma slice_0_app {A} (l k : list A) n : n = zlen l → slice (l ++ k) 0 n = l.
Proof.
  intros ->. unfold slice, zlen. rewrite Nat2Z.id, drop_0, Nat.sub_0_r. apply take_app_length.
Qed.

Lemma slice_app_middle {A} (l m k : list A) a b :
  a = zlen l → b = zlen l + zlen m → slice (l ++ m ++ k) a b = m.
Proof.
  intros -> ->. unfold slice, zlen. rewrite Nat2Z.id, drop_app_length.
  replace (Z.to_nat _ - length l)%nat with (length m) by lia. apply take_app_length.
Qed.

(** ** Bit-level lemmas on words *)

Lemma testbit_small w n k : 0 <= w < 2 ^ n → 0 <= n <= k → Z.testbit w k = false.
Proof.
  intros Hw Hk. destruct (Z.eq_dec w 0) as [->|Hz]; [apply Z.bits_0|].
  apply Z.bits_above_log2; [lia|].
  apply Z.log2_lt_pow2; [lia|].
  eapply Z.lt_le_trans; [apply Hw|]. apply Z.pow_le_mono_r; lia.
Qed.

Lemma land_shiftl_disjoint lo hi n :
  0 <= n → 0 <= lo < 2 ^ n → Z.land lo (Z.shiftl hi n) = 0.
Proof.
  intros Hn Hlo. apply Z.bits_inj'. intros k Hk.
  rewrite Z.land_spec, Z.bits_0.
  destruct (decide (k < n)).
  - rewrite Z.shiftl_spec_low by lia. apply andb_false_r.
  - rewrite (testbit_small lo n) by lia. done.
Qed.

Lemma lor_shiftl_add lo hi n :
  0 <= n → 0 <= lo < 2 ^ n → Z.lor lo (Z.shiftl hi n) = lo + hi * 2 ^ n.
Proof.
  intros Hn Hlo. rewrite <-(Z.shiftl_mul_pow2 hi n) by lia.
  rewrite <-Z.lxor_lor by (by apply land_shiftl_disjoint).
  symmetry. apply Z.add_nocarry_lxor. by apply land_shiftl_disjoint.
Qed.

Lemma bounded_by_bits x n :
  0 <= n → (∀ k, n <= k → Z.testbit x k = false) → 0 <= x < 2 ^ n.
Proof.
  intros Hn Hk. assert (x = Z.land x (Z.ones n)) as ->.
  - apply Z.bits_inj'. intros k Hk0. rewrite Z.land_spec, Z.testbit_ones_nonneg by lia.
    destruct (Z.ltb_spec k n); [by rewrite andb_true_r|].
    rewrite Hk by lia. done.
  - rewrite Z.land_ones by lia. apply Z.mod_pos_bound. apply Z.pow_pos_nonneg; lia.
Qed.

Lemma lxor_bound a b n :
  0 <= n → 0 <= a < 2 ^ n → 0 <= b < 2 ^ n → 0 <= Z.lxor a b < 2 ^ n.
Proof.
  intros Hn Ha Hb. apply bounded_by_bits; [done|]. intros k Hk.
  rewrite Z.lxor_spec, (testbit_small a n), (testbit_small b n) by lia. done.
Qed.

Lemma lor_bound a b n :
  0 <= n → 0 <= a < 2 ^ n → 0 <= b < 2 ^ n → 0 <= Z.lor a b < 2 ^ n.
Proof.
  intros Hn Ha Hb. apply bounded_by_bits; [done|]. intros k Hk.
  rewrite Z.lor_spec, (testbit_small a n), (testbit_small b n) by lia. done.
Qed.

Lemma land_bound_r a b n : 0 <= n → 0 <= b < 2 ^ n → 0 <= Z.land a b < 2 ^ n.
Proof.
  intros Hn Hb. apply bounded_by_bits; [done|]. intros k Hk.
  rewrite Z.land_spec, (testbit_small b n) by lia. apply andb_false_r.
Qed.

(** Masking with [2 ^ n - 1] and shifting by [n] are the two halves of a
    Euclidean division. *)
Lemma land_ff w : Z.land w 0xFF = w mod 256.
Proof. change 0xFF with (Z.ones 8). by rewrite Z.land_ones by lia. Qed.
Lemma land_ffff w : Z.land w 0xFFFF = w mod 65536.
Proof. change 0xFFFF with (Z.ones 16). by rewrite Z.land_ones by lia. Qed.
Lemma land_ffffffff w : Z.land w 0xFFFFFFFF = w mod 4294967296.
Proof. change 0xFFFFFFFF with (Z.ones 32). by rewrite Z.land_ones by lia. Qed.
Lemma shiftr_8 w : Z.shiftr w 8 = w / 256.
Proof. by rewrite Z.shiftr_div_pow2 by lia. Qed.
Lemma shiftr_16 w : Z.shiftr w 16 = w / 65536.
Proof. by rewrite Z.shiftr_div_pow2 by lia. Qed.
#[export] Hint Rewrite land_ff land_ffff land_ffffffff shiftr_8 shiftr_16 : words.

Lemma lor_shiftl_8 lo hi : u8 lo → Z.lor lo (Z.shiftl hi 8) = lo + hi * 256.
Proof. intros H. apply (lor_shiftl_add lo hi 8); [lia|]. exact H. Qed.
Lemma lor_shiftl_16 lo hi : u16 lo → Z.lor lo (Z.shiftl hi 16) = lo + hi * 65536.
Proof. intros H. apply (lor_shiftl_add lo hi 16); [lia|]. exact H. Qed.

(** Decide an equation between boolean combinations of bits. *)
Ltac bool_bits :=
  repeat match goal with
  | |- context [Z.testbit ?a ?b] => let t := fresh "bit" in generalize (Z.testbit a b); intros t
  end;
  repeat match goal with b : bool |- _ => destruct b end; done.

(** Evaluate [at_ l i] on literal indices. *)
Ltac at_simpl :=
  unfold at_ in *;
  repeat match goal with
  | |- context [Z.to_nat (Zpos ?p)] =>
      let n := eval vm_compute in (Z.to_nat (Zpos p)) in change (Z.to_nat (Zpos p)) with n
  | |- context [Z.to_nat (Zpos ?p + Zpos ?q)] =>
      let n := eval vm_compute in (Z.to_nat (Zpos p + Zpos q)) in
      change (Z.to_nat (Zpos p + Zpos q)) with n
  | |- context [Z.to_nat (Z0 + Zpos ?q)] =>
      let n := eval vm_compute in (Z.to_nat (Zpos q)) in change (Z.to_nat (Z0 + Zpos q)) with n
  | |- context [Z.to_nat Z0] => change (Z.to_nat Z0) with O
  | H : context [Z.to_nat (Zpos ?p)] |- _ =>
      let n := eval vm_compute in (Z.to_nat (Zpos p)) in change (Z.to_nat (Zpos p)) with n in H
  | H : context [Z.to_nat Z0] |- _ => change (Z.to_nat Z0) with O in H
  end;
  cbn [nth] in *.
