(* ===== verification/Errors.v ===== *)
(** * Exceptions and effects

    The exception hierarchy of the Python sources (one class name per
    constructor of [ExnClass], with the method resolution order that
    [isinstance] consults), the result monad [Res] of functions that may
    raise, and the state-and-exception monad [ST] of methods that mutate an
    object: an exception keeps the mutations made before it, as in Python. *)

From S2P Require Import Prelude.

(** ** Exception classes *)

Inductive ExnClass : Set :=
| Exception
| ValueError
| TypeError
| RuntimeError
| AttributeError
| AssertionError
| OSError
| FileNotFoundError
| TimeoutError
| NotImplementedError
| LookupError
| KeyError
| DataAlignmentError          (* protocol/alignment.py *)
| FrameError                  (* protocol/frame.py *)
| FrameLengthError
| HeaderCrcError
| PayloadCrcError
| SequenceMismatchError       (* protocol/sequence.py *)
| TransportError              (* transport/base.py *)
| TransportTimeoutError
| TransportClosedError
| IoDeviceError               (* io/base.py *)
| IoTimeoutError
| IoDeviceNotOpenError
| IoCancelledError
| ProtocolClientError         (* core/client.py *)
| ProtocolDecodeError
| ProtocolStatusError
| ProtocolPayloadLimitError   (* protocol/boot_protocol_client.py *)
| WorkflowError               (* core/workflow.py *)
| Hex2000Error                (* firmware/hex2000.py *)
| Hex2000NotFoundError
| Hex2000ConfigurationError
| Sci8ParseError
| MemoryParseError            (* firmware/cmd_memory.py *)
| UnsupportedOperationError   (* targets/command_sets.py *)
| OperationFailure            (* operations/results.py *)
| StaleConnectionEventError   (* gui/runtime_v2_policies.py *)
| SessionChangeBlockedError
| DomainTransitionError       (* gui/runtime_v2_transition.py *)
| StaleConnectionGenerationError (* gui/connection_command_executor.py *)
| ConnectionExecutorClosedError
| AppResourceError            (* app_resources.py *)
| AppResourceConfigurationError
| AppResourceNotFoundError
| ProviderResourceFailure     (* gui/runtime_backend.py *)
| ImagePreparationFailure
| CliConfigurationError       (* cli/runtime.py *)
| RuntimeCommunicationError
| PersistenceError            (* gui/persistence_stores.py *)
| PersistenceFileNotFoundError
| PersistenceFormatError
| UnsupportedSchemaVersionError
| PersistenceWriteError
| SessionPathRequiredError.   (* gui/session_application_service.py *)

#[export] Instance ExnClass_eq_dec : EqDecision ExnClass.
Proof. solve_decision. Defined.

(** The proper superclasses of a class, nearest first. *)
Definition supers (c : ExnClass) : list ExnClass :=
  match c with
  | Exception => []
  | ValueError | TypeError | RuntimeError | AttributeError | AssertionError | OSError
  | LookupError | ImagePreparationFailure | PersistenceError => [Exception]
  | TimeoutError | FileNotFoundError => [OSError; Exception]
  | NotImplementedError => [RuntimeError; Exception]
  | KeyError => [LookupError; Exception]
  | DataAlignmentError | FrameError | SequenceMismatchError | MemoryParseError
  | CliConfigurationError => [ValueError; Exception]
  | PersistenceFileNotFoundError | PersistenceFormatError | PersistenceWriteError
  | SessionPathRequiredError => [PersistenceError; Exception]
  | UnsupportedSchemaVersionError => [PersistenceFormatError; PersistenceError; Exception]
  | FrameLengthError | HeaderCrcError | PayloadCrcError => [FrameError; ValueError; Exception]
  | TransportError | IoDeviceError | ProtocolClientError | WorkflowError | Hex2000Error
  | UnsupportedOperationError | OperationFailure | StaleConnectionEventError
  | SessionChangeBlockedError | DomainTransitionError | StaleConnectionGenerationError
  | ConnectionExecutorClosedError | AppResourceError | RuntimeCommunicationError =>
      [RuntimeError; Exception]
  | ProviderResourceFailure | AppResourceConfigurationError | AppResourceNotFoundError =>
      [AppResourceError; RuntimeError; Exception]
  | Hex2000NotFoundError | Hex2000ConfigurationError => [Hex2000Error; RuntimeError; Exception]
  | TransportTimeoutError | TransportClosedError => [TransportError; RuntimeError; Exception]
  | IoTimeoutError => [IoDeviceError; RuntimeError; TimeoutError; OSError; Exception]
  | IoDeviceNotOpenError | IoCancelledError => [IoDeviceError; RuntimeError; Exception]
  | ProtocolDecodeError | ProtocolStatusError | ProtocolPayloadLimitError =>
      [ProtocolClientError; RuntimeError; Exception]
  | Sci8ParseError => [Hex2000Error; ValueError; RuntimeError; Exception]
  end.

(** [issubclass(c, d)] *)
Definition is_subclass (c d : ExnClass) : bool :=
  bool_decide (c = d) || bool_decide (d ∈ supers c).

(** ** Exception values *)

(** [ErrorDomain] and [OperationErrorInfo] of operations/results.py; they
    are declared here because an [OperationFailure] carries one. *)
Inductive ErrorDomain : Set := OPERATION | COMMUNICATION.

#[export] Instance ErrorDomain_eq_dec : EqDecision ErrorDomain.
Proof. solve_decision. Defined.

Record OperationErrorInfo : Type := mkErrorInfo {
  ei_code : string;
  ei_message : Msg;
  ei_stage : string;
  ei_recoverable : bool;
  ei_details : list (string * PyVal);
  ei_domain : ErrorDomain;
}.

Inductive Exn : Type :=
| Err (c : ExnClass) (m : Msg)
| StatusErr (command status : Z)
| PayloadLimitErr (command actual_payload_words effective_max_payload_words : Z)
    (device_max_payload_words protocol_max_payload_words : option Z)
| OpFailure (info : OperationErrorInfo)
| TransitionErr (policy_name : string) (cause : Exn)
| ProviderFailure (code : string) (m : Msg) (image_path map_path : option string)
| PreparationFailure (code : string) (m : Msg) (image_path map_path : option string)
    (commit_service_state : bool) (cause : option ExnClass).   (* of [__cause__] *)

(** [type(exc)] *)
Definition class_of (e : Exn) : ExnClass :=
  match e with
  | Err c _ => c
  | StatusErr _ _ => ProtocolStatusError
  | PayloadLimitErr _ _ _ _ _ => ProtocolPayloadLimitError
  | OpFailure _ => OperationFailure
  | TransitionErr _ _ => DomainTransitionError
  | ProviderFailure _ _ _ _ => ProviderResourceFailure
  | PreparationFailure _ _ _ _ _ _ => ImagePreparationFailure
  end.

Definition isinstance (e : Exn) (c : ExnClass) : bool := is_subclass (class_of e) c.

(** [str(exc)] *)
Fixpoint exn_str (e : Exn) : Msg :=
  match e with
  | Err _ m => m
  | StatusErr c s => Fmt "command 0x{:04X} failed: {status name}" [VInt c; VInt s]
  | PayloadLimitErr c a m _ _ =>
      Fmt "command 0x{:04X} payload has {} words; maximum is {}" [VInt c; VInt a; VInt m]
  | OpFailure i => ei_message i
  | ProviderFailure _ m _ _ | PreparationFailure _ m _ _ _ _ => m
  | TransitionErr p c => Prefixed (p ++ " failed: ") (exn_str c)
  end.

Lemma isinstance_refl e : isinstance e (class_of e) = true.
Proof. unfold isinstance, is_subclass. by rewrite bool_decide_eq_true_2. Qed.

(** ** Functions that may raise *)

Inductive Res (A : Type) : Type :=
| Ok (a : A)
| Raise (e : Exn).
Arguments Ok {A} _.
Arguments Raise {A} _.

Definition is_ok {A} (r : Res A) : bool := match r with Ok _ => true | Raise _ => false end.

(** [raises r c]: the call raises an exception that an [except c] clause catches. *)
Definition raises {A} (r : Res A) (c : ExnClass) : Prop :=
  match r with Ok _ => False | Raise e => isinstance e c = true end.

Notation "'let?' x := m 'in' k" :=
  (match m with Ok x => k | Raise e_ => Raise e_ end)
  (at level 10, x pattern, m at level 100, k at level 200) : py_scope.
Notation "'fail' e 'when' b ';;' k" :=
  (if b then Raise e else k)
  (at level 10, e at level 99, b at level 99, k at level 200) : py_scope.
#[global] Open Scope py_scope.

(** [for x in l: f(x)], each call possibly raising. *)
Fixpoint mapR {A B} (f : A → Res B) (l : list A) : Res (list B) :=
  match l with
  | [] => Ok []
  | x :: l => let? y := f x in let? ys := mapR f l in Ok (y :: ys)
  end.

Lemma mapR_Forall2 {A B} (f : A → Res B) l ys :
  mapR f l = Ok ys ↔ Forall2 (λ x y, f x = Ok y) l ys.
Proof.
  revert ys. induction l as [|x l IH]; intros ys; simpl.
  - split; [intros [= <-]; constructor|]. by inversion 1.
  - split.
    + intros H. destruct (f x) as [y|] eqn:E; [|done].
      destruct (mapR f l) as [ys'|] eqn:E'; [|done]. injection H as <-.
      constructor; [done|]. by apply IH.
    + inversion 1 as [|? y ? ys' E E']; subst. rewrite E.
      by apply IH in E' as ->.
Qed.

(** ** Methods that mutate an object and may raise *)

Definition ST (S A : Type) : Type := S → Res A * S.

Definition ret {S A} (a : A) : ST S A := λ s, (Ok a, s).
Definition raise {S A} (e : Exn) : ST S A := λ s, (Raise e, s).
Definition bind {S A B} (m : ST S A) (k : A → ST S B) : ST S B :=
  λ s, match m s with (Ok a, s') => k a s' | (Raise e, s') => (Raise e, s') end.
Definition get {S} : ST S S := λ s, (Ok s, s).
Definition gets {S A} (f : S → A) : ST S A := λ s, (Ok (f s), s).
Definition modify {S} (f : S → S) : ST S unit := λ s, (Ok tt, f s).
Definition lift {S A} (r : Res A) : ST S A := λ s, (r, s).

(** [try: m except Exception as exc: h(exc)] *)
Definition catch {S A} (m : ST S A) (h : Exn → ST S A) : ST S A :=
  λ s, match m s with (Ok a, s') => (Ok a, s') | (Raise e, s') => h e s' end.

Notation "x <- m ;; k" := (bind m (λ x, k))
  (at level 100, m at next level, right associativity) : py_scope.
Notation "m ;;; k" := (bind m (λ _, k))
  (at level 100, right associativity) : py_scope.

(** [for x in l: m(x)] *)
Fixpoint for_each {S A} (l : list A) (m : A → ST S unit) : ST S unit :=
  match l with
  | [] => ret tt
  | x :: l => m x ;;; for_each l m
  end.

(** ** Postconditions of [ST] computations *)

(** [wp m Q E s]: started in [s], [m] either returns a value and a state that
    satisfy [Q], or raises an exception and leaves a state that satisfy [E]. *)
Definition wp {S A} (m : ST S A) (Q : A → S → Prop) (E : Exn → S → Prop) (s : S) : Prop :=
  match m s with (Ok a, s') => Q a s' | (Raise e, s') => E e s' end.

Section wp_rules.
  Context {S : Type}.
  Implicit Types s : S.

Lemma wp_ret {A} (a : A) Q E s : Q a s → wp (ret a) Q E s.
  Proof. done. Qed.
Lemma wp_raise {A} e (Q : A → S → Prop) E s : E e s → wp (raise e) Q E s.
  Proof. done. Qed.
Lemma wp_bind {A B} (m : ST S A) (k : A → ST S B) Q E s :
    wp m (λ a s', wp (k a) Q E s') E s → wp (bind m k) Q E s.
  Proof. unfold wp, bind. by destruct (m s) as [[a|e] s']. Qed.
Lemma wp_gets {A} (f : S → A) Q E s : Q (f s) s → wp (gets f) Q E s.
  Proof. done. Qed.
Lemma wp_get Q E s : Q s s → wp get Q E s.
  Proof. done. Qed.
Lemma wp_modify (f : S → S) Q E s : Q tt (f s) → wp (modify f) Q E s.
  Proof. done. Qed.
Lemma wp_lift {A} (r : Res A) Q E s :
    (∀ a, r = Ok a → Q a s) → (∀ e, r = Raise e → E e s) → wp (lift r) Q E s.
  Proof. unfold wp, lift. destruct r; auto. Qed.
Lemma wp_if {A} (b : bool) (m1 m2 : ST S A) Q E s :
    (b = true → wp m1 Q E s) → (b = false → wp m2 Q E s) →
    wp (if b then m1 else m2) Q E s.
  Proof. destruct b; auto. Qed.
Lemma wp_conseq {A} (m : ST S A) (Q Q' : A → S → Prop) (E E' : Exn → S → Prop) s :
    wp m Q E s → (∀ a s', Q a s' → Q' a s') → (∀ e s', E e s' → E' e s') → wp m Q' E' s.
  Proof. unfold wp. destruct (m s) as [[a|e] s']; auto. Qed.
Lemma wp_catch {A} (m : ST S A) h Q E s :
    wp m Q (λ e s', wp (h e) Q E s') s → wp (catch m h) Q E s.
  Proof. unfold wp, catch. by destruct (m s) as [[a|e] s']. Qed.
Lemma wp_run {A} (m : ST S A) Q E s r s' :
    wp m Q E s → m s = (r, s') → match r with Ok a => Q a s' | Raise e => E e s' end.
  Proof. unfold wp. intros H Hm. rewrite Hm in H. by destruct r. Qed.
End wp_rules.

(** Symbolic execution of one [ST] computation under [wp]. *)
Ltac wp_step :=
  lazymatch goal with
  | |- wp (bind _ _) _ _ _ => apply wp_bind
  | |- wp (ret _) _ _ _ => apply wp_ret
  | |- wp (raise _) _ _ _ => apply wp_raise
  | |- wp (gets _) _ _ _ => apply wp_gets
  | |- wp get _ _ _ => apply wp_get
  | |- wp (modify _) _ _ _ => apply wp_modify
  | |- wp (lift _) _ _ _ => apply wp_lift; intros
  | |- wp (if _ then _ else _) _ _ _ => apply wp_if; intros
  | |- wp (match ?x with _ => _ end) _ _ _ => let E := fresh "E" in destruct x eqn:E
  end.
Ltac wp_steps := repeat (wp_step; try (cbn beta)).
