(* ===== verification/Constants.v ===== *)
(** * Protocol constants (protocol/constants.py, protocol/command_timeouts.py)

    Every [IntEnum] is an inductive type in a module of its own, so that its
    members read as in the source ([Command.PING]); [X_value] is the member's
    integer, declared as a coercion because the sources use members as
    integers.  The class [IntEnum] states what [X(value)] does. *)

From S2P Require Import Prelude.
From S2P Require Import Errors.

(** ** The [IntEnum] interface *)

Class IntEnum (A : Type) := {
  value : A → Z;
  members : list A;
}.

Class IntEnumOk (A : Type) `{IntEnum A} : Prop := {
  members_complete : ∀ a : A, a ∈ members;
  value_inj : ∀ a b : A, value a = value b → a = b;
}.

(** [A(z)]: the member with value [z], [None] standing for [ValueError]. *)
Definition enum_of {A} `{IntEnum A} (z : Z) : option A :=
  List.find (λ a, value a =? z) members.

Section enum_laws.
  Context {A : Type} `{IntEnumOk A}.

Lemma enum_of_value (a : A) : enum_of (value a) = Some a.
  Proof.
    unfold enum_of. destruct (List.find _ _) as [b|] eqn:E.
    - apply List.find_some in E as [_ E]. f_equal. apply value_inj. lia.
    - exfalso. pose proof (members_complete a) as Ha. apply list_elem_of_In in Ha.
      pose proof (List.find_none _ _ E a Ha) as Hf. cbn in Hf. lia.
  Qed.

Lemma enum_of_Some z (a : A) : enum_of z = Some a → z = value a.
  Proof. unfold enum_of. intros E. apply List.find_some in E as [_ E]. lia. Qed.
End enum_laws.

Ltac solve_enum :=
  split; [intros []; cbn; set_solver | intros [] []; cbn; intros; first [reflexivity | discriminate]].

(** ** Constants *)

Definition MAGIC0 : Z := 0xA55A.
Definition MAGIC1 : Z := 0x5AA5.
Definition PROTOCOL_VERSION : Z := 0x0001.
Definition HEADER_WORDS : Z := 10.
Definition FLAG_NONE : Z := 0x0000.
Definition CRC_TYPE_CCITT_FALSE : Z := 0x0001.
Definition ENDIAN_LITTLE : Z := 0x0001.
Definition DEVICE_INFO_WORDS : Z := 16.
Definition PROTOCOL_INFO_WORDS : Z := 8.
Definition ERROR_DETAIL_WORDS : Z := 11.
Definition METADATA_SUMMARY_WORDS : Z := 25.
Definition SERVICE_STATUS_WORDS : Z := 12.
Definition SERVICE_HEADER_WORDS : Z := 28.
Definition SERVICE_HEADER_MAGIC : Z := 0x46534832.
Definition SERVICE_HEADER_VERSION : Z := 1.
Definition SERVICE_IMAGE_CRC32_IEEE : Z := 1.
Definition SERVICE_PUBLISH_INVALID : Z := 0x0000.
Definition SERVICE_ABI_MAJOR : Z := 2.
Definition SERVICE_ABI_MINOR : Z := 0.
Definition WRITE_DATA_ALIGNMENT_WORDS : Z := 8.
Definition WRITE_DATA_PAD_WORD : Z := 0xFFFF.

(** ** Enumerations *)

Module PacketType.
Inductive PacketType_t : Set :=
| REQUEST
| RESPONSE
| ERROR_RESPONSE.

Definition PacketType_value (m : PacketType_t) : Z :=
  match m with
  | REQUEST => 0x0001
  | RESPONSE => 0x0002
  | ERROR_RESPONSE => 0x0003
  end.
Definition PacketType_members : list PacketType_t :=
  [REQUEST; RESPONSE; ERROR_RESPONSE].
#[global] Instance PacketType_enum : IntEnum PacketType_t := { value := PacketType_value; members := PacketType_members }.
#[global] Instance PacketType_enum_ok : IntEnumOk PacketType_t.
Proof. solve_enum. Qed.
#[global] Instance PacketType_eq_dec : EqDecision PacketType_t.
Proof. solve_decision. Defined.
End PacketType.
Coercion PacketType.PacketType_value : PacketType.PacketType_t >-> Z.

Module Command.
Inductive Command_t : Set :=
| PING
| GET_DEVICE_INFO
| GET_PROTOCOL_INFO
| GET_LAST_ERROR
| GET_SERVICE_STATUS
| SERVICE_ATTACH
| RAM_LOAD_BEGIN
| RAM_LOAD_DATA
| RAM_LOAD_END
| RAM_CHECK_CRC
| RUN_RAM
| ERASE
| PROGRAM_BEGIN
| PROGRAM_DATA
| PROGRAM_END
| VERIFY_BEGIN
| VERIFY_DATA
| VERIFY_END
| MEMORY_READ
| GET_METADATA_SUMMARY
| METADATA_APPEND_RECORD
| RUN
| RESET.

Definition Command_value (m : Command_t) : Z :=
  match m with
  | PING => 0x0001
  | GET_DEVICE_INFO => 0x0002
  | GET_PROTOCOL_INFO => 0x0003
  | GET_LAST_ERROR => 0x0004
  | GET_SERVICE_STATUS => 0x0007
  | SERVICE_ATTACH => 0x0008
  | RAM_LOAD_BEGIN => 0x0101
  | RAM_LOAD_DATA => 0x0102
  | RAM_LOAD_END => 0x0103
  | RAM_CHECK_CRC => 0x0104
  | RUN_RAM => 0x0105
  | ERASE => 0x0201
  | PROGRAM_BEGIN => 0x0210
  | PROGRAM_DATA => 0x0211
  | PROGRAM_END => 0x0212
  | VERIFY_BEGIN => 0x0220
  | VERIFY_DATA => 0x0221
  | VERIFY_END => 0x0222
  | MEMORY_READ => 0x0230
  | GET_METADATA_SUMMARY => 0x0401
  | METADATA_APPEND_RECORD => 0x0402
  | RUN => 0x0301
  | RESET => 0x0302
  end.
Definition Command_members : list Command_t :=
  [PING; GET_DEVICE_INFO; GET_PROTOCOL_INFO; GET_LAST_ERROR; GET_SERVICE_STATUS; SERVICE_ATTACH; RAM_LOAD_BEGIN; RAM_LOAD_DATA; RAM_LOAD_END; RAM_CHECK_CRC; RUN_RAM; ERASE; PROGRAM_BEGIN; PROGRAM_DATA; PROGRAM_END; VERIFY_BEGIN; VERIFY_DATA; VERIFY_END; MEMORY_READ; GET_METADATA_SUMMARY; METADATA_APPEND_RECORD; RUN; RESET].
#[global] Instance Command_enum : IntEnum Command_t := { value := Command_value; members := Command_members }.
#[global] Instance Command_enum_ok : IntEnumOk Command_t.
Proof. solve_enum. Qed.
#[global] Instance Command_eq_dec : EqDecision Command_t.
Proof. solve_decision. Defined.
End Command.
Coercion Command.Command_value : Command.Command_t >-> Z.

Module Status.
Inductive Status_t : Set :=
| OK
| BAD_PAYLOAD_CRC
| UNSUPPORTED_PROTOCOL
| BAD_PACKET_TYPE
| BAD_PAYLOAD_LENGTH
| BAD_FLAGS
| UNKNOWN_COMMAND
| UNSUPPORTED_COMMAND
| INVALID_STATE
| BUSY
| MISSING_BEGIN
| UNEXPECTED_END
| BLOCK_INDEX_ERROR
| TOTAL_COUNT_MISMATCH
| BAD_ADDRESS
| ADDRESS_OUT_OF_RANGE
| BAD_ALIGNMENT
| BAD_WORD_COUNT
| PROTECTED_REGION
| ERASE_FAILED
| ERASE_FSM_ERROR
| BLANK_CHECK_FAILED
| PROGRAM_FAILED
| PROGRAM_FSM_ERROR
| PROGRAM_VERIFY_FAILED
| REPROGRAM_FORBIDDEN
| VERIFY_FAILED
| VERIFY_MISMATCH
| RAM_ADDRESS_ERROR
| RAM_WRITE_FAILED
| RAM_REGION_ERROR
| UNSUPPORTED_FEATURE
| DEVICE_INFO_UNAVAILABLE
| TARGET_MISMATCH
| METADATA_INVALID
| METADATA_FULL
| METADATA_WRITE_FAILED
| ATTEMPT_LIMIT_REACHED
| SECURITY_LOCKED
| UNLOCK_FAILED
| USER_ERROR_BASE.

Definition Status_value (m : Status_t) : Z :=
  match m with
  | OK => 0x0000
  | BAD_PAYLOAD_CRC => 0x0103
  | UNSUPPORTED_PROTOCOL => 0x0104
  | BAD_PACKET_TYPE => 0x0105
  | BAD_PAYLOAD_LENGTH => 0x0106
  | BAD_FLAGS => 0x0109
  | UNKNOWN_COMMAND => 0x0201
  | UNSUPPORTED_COMMAND => 0x0202
  | INVALID_STATE => 0x0203
  | BUSY => 0x0204
  | MISSING_BEGIN => 0x0205
  | UNEXPECTED_END => 0x0206
  | BLOCK_INDEX_ERROR => 0x0207
  | TOTAL_COUNT_MISMATCH => 0x0208
  | BAD_ADDRESS => 0x0301
  | ADDRESS_OUT_OF_RANGE => 0x0302
  | BAD_ALIGNMENT => 0x0303
  | BAD_WORD_COUNT => 0x0304
  | PROTECTED_REGION => 0x0305
  | ERASE_FAILED => 0x0401
  | ERASE_FSM_ERROR => 0x0402
  | BLANK_CHECK_FAILED => 0x0403
  | PROGRAM_FAILED => 0x0501
  | PROGRAM_FSM_ERROR => 0x0502
  | PROGRAM_VERIFY_FAILED => 0x0503
  | REPROGRAM_FORBIDDEN => 0x0504
  | VERIFY_FAILED => 0x0601
  | VERIFY_MISMATCH => 0x0602
  | RAM_ADDRESS_ERROR => 0x0701
  | RAM_WRITE_FAILED => 0x0702
  | RAM_REGION_ERROR => 0x0703
  | UNSUPPORTED_FEATURE => 0x0801
  | DEVICE_INFO_UNAVAILABLE => 0x0802
  | TARGET_MISMATCH => 0x0803
  | METADATA_INVALID => 0x0804
  | METADATA_FULL => 0x0805
  | METADATA_WRITE_FAILED => 0x0806
  | ATTEMPT_LIMIT_REACHED => 0x0807
  | SECURITY_LOCKED => 0x0901
  | UNLOCK_FAILED => 0x0902
  | USER_ERROR_BASE => 0x7F00
  end.
Definition Status_members : list Status_t :=
  [OK; BAD_PAYLOAD_CRC; UNSUPPORTED_PROTOCOL; BAD_PACKET_TYPE; BAD_PAYLOAD_LENGTH; BAD_FLAGS; UNKNOWN_COMMAND; UNSUPPORTED_COMMAND; INVALID_STATE; BUSY; MISSING_BEGIN; UNEXPECTED_END; BLOCK_INDEX_ERROR; TOTAL_COUNT_MISMATCH; BAD_ADDRESS; ADDRESS_OUT_OF_RANGE; BAD_ALIGNMENT; BAD_WORD_COUNT; PROTECTED_REGION; ERASE_FAILED; ERASE_FSM_ERROR; BLANK_CHECK_FAILED; PROGRAM_FAILED; PROGRAM_FSM_ERROR; PROGRAM_VERIFY_FAILED; REPROGRAM_FORBIDDEN; VERIFY_FAILED; VERIFY_MISMATCH; RAM_ADDRESS_ERROR; RAM_WRITE_FAILED; RAM_REGION_ERROR; UNSUPPORTED_FEATURE; DEVICE_INFO_UNAVAILABLE; TARGET_MISMATCH; METADATA_INVALID; METADATA_FULL; METADATA_WRITE_FAILED; ATTEMPT_LIMIT_REACHED; SECURITY_LOCKED; UNLOCK_FAILED; USER_ERROR_BASE].
#[global] Instance Status_enum : IntEnum Status_t := { value := Status_value; members := Status_members }.
#[global] Instance Status_enum_ok : IntEnumOk Status_t.
Proof. solve_enum. Qed.
#[global] Instance Status_eq_dec : EqDecision Status_t.
Proof. solve_decision. Defined.
End Status.
Coercion Status.Status_value : Status.Status_t >-> Z.

Module Feature.
Definition Feature_ERASE : Z := Z.shiftl 1 0.
Definition Feature_PROGRAM : Z := Z.shiftl 1 1.
Definition Feature_VERIFY : Z := Z.shiftl 1 2.
Definition Feature_RUN : Z := Z.shiftl 1 3.
Definition Feature_RESET : Z := Z.shiftl 1 4.
Definition Feature_RAM_LOAD : Z := Z.shiftl 1 5.
Definition Feature_APP_UPLOAD : Z := Z.shiftl 1 6.
Definition Feature_METADATA : Z := Z.shiftl 1 7.
Definition Feature_UNLOCK_Z1 : Z := Z.shiftl 1 8.
Definition Feature_UNLOCK_Z2 : Z := Z.shiftl 1 9.
Definition Feature_MEMORY_READ : Z := Z.shiftl 1 10.
End Feature.

Module ServiceState.
Inductive ServiceState_t : Set :=
| DETACHED
| RAM_LOADED
| ATTACHED
| ERROR.

Definition ServiceState_value (m : ServiceState_t) : Z :=
  match m with
  | DETACHED => 0x0000
  | RAM_LOADED => 0x0001
  | ATTACHED => 0x0002
  | ERROR => 0x0003
  end.
Definition ServiceState_members : list ServiceState_t :=
  [DETACHED; RAM_LOADED; ATTACHED; ERROR].
#[global] Instance ServiceState_enum : IntEnum ServiceState_t := { value := ServiceState_value; members := ServiceState_members }.
#[global] Instance ServiceState_enum_ok : IntEnumOk ServiceState_t.
Proof. solve_enum. Qed.
#[global] Instance ServiceState_eq_dec : EqDecision ServiceState_t.
Proof. solve_decision. Defined.
End ServiceState.
Coercion ServiceState.ServiceState_value : ServiceState.ServiceState_t >-> Z.

Module ServiceCapability.
Definition ServiceCapability_ERASE : Z := Z.shiftl 1 0.
Definition ServiceCapability_PROGRAM : Z := Z.shiftl 1 1.
Definition ServiceCapability_VERIFY : Z := Z.shiftl 1 2.
Definition ServiceCapability_METADATA_WRITE : Z := Z.shiftl 1 3.
End ServiceCapability.

(** [SERVICE_REQUIRED_CAPABILITIES] *)
Definition SERVICE_REQUIRED_CAPABILITIES : Z :=
  Z.lor (Z.lor (Z.lor ServiceCapability.ServiceCapability_ERASE
                      ServiceCapability.ServiceCapability_PROGRAM)
               ServiceCapability.ServiceCapability_VERIFY)
        ServiceCapability.ServiceCapability_METADATA_WRITE.

Module DeviceId.
Inductive DeviceId_t : Set :=
| UNKNOWN
| F28377D.

Definition DeviceId_value (m : DeviceId_t) : Z :=
  match m with
  | UNKNOWN => 0x0000
  | F28377D => 0x377D
  end.
Definition DeviceId_members : list DeviceId_t :=
  [UNKNOWN; F28377D].
#[global] Instance DeviceId_enum : IntEnum DeviceId_t := { value := DeviceId_value; members := DeviceId_members }.
#[global] Instance DeviceId_enum_ok : IntEnumOk DeviceId_t.
Proof. solve_enum. Qed.
#[global] Instance DeviceId_eq_dec : EqDecision DeviceId_t.
Proof. solve_decision. Defined.
End DeviceId.
Coercion DeviceId.DeviceId_value : DeviceId.DeviceId_t >-> Z.

Module CpuId.
Inductive CpuId_t : Set :=
| UNKNOWN
| CPU1
| CPU2.

Definition CpuId_value (m : CpuId_t) : Z :=
  match m with
  | UNKNOWN => 0x0000
  | CPU1 => 0x0001
  | CPU2 => 0x0002
  end.
Definition CpuId_members : list CpuId_t :=
  [UNKNOWN; CPU1; CPU2].
#[global] Instance CpuId_enum : IntEnum CpuId_t := { value := CpuId_value; members := CpuId_members }.
#[global] Instance CpuId_enum_ok : IntEnumOk CpuId_t.
Proof. solve_enum. Qed.
#[global] Instance CpuId_eq_dec : EqDecision CpuId_t.
Proof. solve_decision. Defined.
End CpuId.
Coercion CpuId.CpuId_value : CpuId.CpuId_t >-> Z.

Module BootMode.
Inductive BootMode_t : Set :=
| UNKNOWN
| RAM_KERNEL
| FLASH_KERNEL.

Definition BootMode_value (m : BootMode_t) : Z :=
  match m with
  | UNKNOWN => 0x0000
  | RAM_KERNEL => 0x0001
  | FLASH_KERNEL => 0x0002
  end.
Definition BootMode_members : list BootMode_t :=
  [UNKNOWN; RAM_KERNEL; FLASH_KERNEL].
#[global] Instance BootMode_enum : IntEnum BootMode_t := { value := BootMode_value; members := BootMode_members }.
#[global] Instance BootMode_enum_ok : IntEnumOk BootMode_t.
Proof. solve_enum. Qed.
#[global] Instance BootMode_eq_dec : EqDecision BootMode_t.
Proof. solve_decision. Defined.
End BootMode.
Coercion BootMode.BootMode_value : BootMode.BootMode_t >-> Z.

Module KernelLayout.
Inductive KernelLayout_t : Set :=
| UNKNOWN
| MONOLITHIC
| CORE_RAM_LIB.

Definition KernelLayout_value (m : KernelLayout_t) : Z :=
  match m with
  | UNKNOWN => 0x0000
  | MONOLITHIC => 0x0001
  | CORE_RAM_LIB => 0x0002
  end.
Definition KernelLayout_members : list KernelLayout_t :=
  [UNKNOWN; MONOLITHIC; CORE_RAM_LIB].
#[global] Instance KernelLayout_enum : IntEnum KernelLayout_t := { value := KernelLayout_value; members := KernelLayout_members }.
#[global] Instance KernelLayout_enum_ok : IntEnumOk KernelLayout_t.
Proof. solve_enum. Qed.
#[global] Instance KernelLayout_eq_dec : EqDecision KernelLayout_t.
Proof. solve_decision. Defined.
End KernelLayout.
Coercion KernelLayout.KernelLayout_value : KernelLayout.KernelLayout_t >-> Z.

Module Target.
Inductive Target_t : Set :=
| FLASH_APP
| RAM_APP.

Definition Target_value (m : Target_t) : Z :=
  match m with
  | FLASH_APP => 0x0001
  | RAM_APP => 0x0002
  end.
Definition Target_members : list Target_t :=
  [FLASH_APP; RAM_APP].
#[global] Instance Target_enum : IntEnum Target_t := { value := Target_value; members := Target_members }.
#[global] Instance Target_enum_ok : IntEnumOk Target_t.
Proof. solve_enum. Qed.
#[global] Instance Target_eq_dec : EqDecision Target_t.
Proof. solve_decision. Defined.
End Target.
Coercion Target.Target_value : Target.Target_t >-> Z.

Module MetadataRecordType.
Inductive MetadataRecordType_t : Set :=
| IMAGE_VALID
| BOOT_ATTEMPT
| APP_CONFIRMED.

Definition MetadataRecordType_value (m : MetadataRecordType_t) : Z :=
  match m with
  | IMAGE_VALID => 0x0001
  | BOOT_ATTEMPT => 0x0002
  | APP_CONFIRMED => 0x0003
  end.
Definition MetadataRecordType_members : list MetadataRecordType_t :=
  [IMAGE_VALID; BOOT_ATTEMPT; APP_CONFIRMED].
#[global] Instance MetadataRecordType_enum : IntEnum MetadataRecordType_t := { value := MetadataRecordType_value; members := MetadataRecordType_members }.
#[global] Instance MetadataRecordType_enum_ok : IntEnumOk MetadataRecordType_t.
Proof. solve_enum. Qed.
#[global] Instance MetadataRecordType_eq_dec : EqDecision MetadataRecordType_t.
Proof. solve_decision. Defined.
End MetadataRecordType.
Coercion MetadataRecordType.MetadataRecordType_value : MetadataRecordType.MetadataRecordType_t >-> Z.

Module BootSlot.
Inductive BootSlot_t : Set :=
| AUTO
| SLOT_A
| SLOT_B.

Definition BootSlot_value (m : BootSlot_t) : Z :=
  match m with
  | AUTO => 0x0000
  | SLOT_A => 0x0001
  | SLOT_B => 0x0002
  end.
Definition BootSlot_members : list BootSlot_t :=
  [AUTO; SLOT_A; SLOT_B].
#[global] Instance BootSlot_enum : IntEnum BootSlot_t := { value := BootSlot_value; members := BootSlot_members }.
#[global] Instance BootSlot_enum_ok : IntEnumOk BootSlot_t.
Proof. solve_enum. Qed.
#[global] Instance BootSlot_eq_dec : EqDecision BootSlot_t.
Proof. solve_decision. Defined.
End BootSlot.
Coercion BootSlot.BootSlot_value : BootSlot.BootSlot_t >-> Z.

Module ErrorOperation.
Inductive ErrorOperation_t : Set :=
| NONE
| FRAME
| ERASE
| PROGRAM
| VERIFY
| RAM_LOAD
| RUN
| RESET.

Definition ErrorOperation_value (m : ErrorOperation_t) : Z :=
  match m with
  | NONE => 0x0000
  | FRAME => 0x0001
  | ERASE => 0x0002
  | PROGRAM => 0x0003
  | VERIFY => 0x0004
  | RAM_LOAD => 0x0005
  | RUN => 0x0006
  | RESET => 0x0007
  end.
Definition ErrorOperation_members : list ErrorOperation_t :=
  [NONE; FRAME; ERASE; PROGRAM; VERIFY; RAM_LOAD; RUN; RESET].
#[global] Instance ErrorOperation_enum : IntEnum ErrorOperation_t := { value := ErrorOperation_value; members := ErrorOperation_members }.
#[global] Instance ErrorOperation_enum_ok : IntEnumOk ErrorOperation_t.
Proof. solve_enum. Qed.
#[global] Instance ErrorOperation_eq_dec : EqDecision ErrorOperation_t.
Proof. solve_decision. Defined.
End ErrorOperation.
Coercion ErrorOperation.ErrorOperation_value : ErrorOperation.ErrorOperation_t >-> Z.

Module ErrorStage.
Inductive ErrorStage_t : Set :=
| NONE
| HEADER
| PAYLOAD
| ADDRESS_CHECK
| API_CALL
| FSM
| VERIFY
| STATE.

Definition ErrorStage_value (m : ErrorStage_t) : Z :=
  match m with
  | NONE => 0x0000
  | HEADER => 0x0001
  | PAYLOAD => 0x0002
  | ADDRESS_CHECK => 0x0003
  | API_CALL => 0x0004
  | FSM => 0x0005
  | VERIFY => 0x0006
  | STATE => 0x0007
  end.
Definition ErrorStage_members : list ErrorStage_t :=
  [NONE; HEADER; PAYLOAD; ADDRESS_CHECK; API_CALL; FSM; VERIFY; STATE].
#[global] Instance ErrorStage_enum : IntEnum ErrorStage_t := { value := ErrorStage_value; members := ErrorStage_members }.
#[global] Instance ErrorStage_enum_ok : IntEnumOk ErrorStage_t.
Proof. solve_enum. Qed.
#[global] Instance ErrorStage_eq_dec : EqDecision ErrorStage_t.
Proof. solve_decision. Defined.
End ErrorStage.
Coercion ErrorStage.ErrorStage_value : ErrorStage.ErrorStage_t >-> Z.

(** ** Command timeouts

    [DEFAULT_COMMAND_TIMEOUT_MS.get(command)] of command_timeouts.py. *)
Definition DEFAULT_COMMAND_TIMEOUT_MS : list (Z * Z) :=
  [(Command.Command_value Command.ERASE, 60000);
   (Command.Command_value Command.PROGRAM_BEGIN, 10000);
   (Command.Command_value Command.PROGRAM_DATA, 10000);
   (Command.Command_value Command.PROGRAM_END, 10000);
   (Command.Command_value Command.VERIFY_BEGIN, 10000);
   (Command.Command_value Command.VERIFY_DATA, 10000);
   (Command.Command_value Command.VERIFY_END, 10000);
   (Command.Command_value Command.METADATA_APPEND_RECORD, 10000);
   (Command.Command_value Command.RUN, 5000);
   (Command.Command_value Command.RESET, 5000);
   (Command.Command_value Command.RAM_LOAD_BEGIN, 10000);
   (Command.Command_value Command.RAM_LOAD_DATA, 10000);
   (Command.Command_value Command.RAM_LOAD_END, 10000);
   (Command.Command_value Command.RAM_CHECK_CRC, 10000);
   (Command.Command_value Command.RUN_RAM, 5000);
   (Command.Command_value Command.SERVICE_ATTACH, 10000);
   (Command.Command_value Command.GET_SERVICE_STATUS, 5000);
   (Command.Command_value Command.MEMORY_READ, 5000)].

Definition timeout_of (command : Z) : option Z :=
  snd <$> List.find (λ p, fst p =? command) DEFAULT_COMMAND_TIMEOUT_MS.
