(* ===== verification/Messages.v ===== *)
(** Text and messages: Python strings as code points with the functions that
    the parsers use, then how the messages of exceptions are printed. *)

(** * Text

    Python strings as sequences of code points, with what the parsers of the
    tool use of [str] and [re]: character classes, prefixes, [splitlines],
    [split] and [int(text, 16)]. *)

From stdpp Require Import pretty.
From Stdlib Require Import Ascii.
From S2P Require Import Prelude.
From S2P Require Import Errors.
From S2P Require Import Constants.

Abbreviation text := (list Z).

(** The code points of a literal *)
Definition chars (s : string) : text :=
  map (λ c, Z.of_nat (Ascii.nat_of_ascii c)) (String.list_ascii_of_string s).

(** Evaluate the literals *)
Ltac eval_chars :=
  repeat match goal with
  | |- context [chars ?s] => let v := eval vm_compute in (chars s) in change (chars s) with v
  | H : context [chars ?s] |- _ => let v := eval vm_compute in (chars s) in change (chars s) with v in H
  end.

(** A text in a message *)
Definition VText (s : text) : PyVal := VSeq (map VInt s).

(** ** Character classes *)

Definition between (lo hi c : Z) : bool := (lo <=? c) && (c <=? hi).

(** [[0-9]], [[0-9A-Fa-f]], [[0-9A-Za-z]] *)
Definition is_digit (c : Z) : bool := between 48 57 c.
Definition is_hex (c : Z) : bool := is_digit c || between 65 70 c || between 97 102 c.
Definition is_alnum (c : Z) : bool := is_digit c || between 65 90 c || between 97 122 c.

(** [[\r\n]] *)
Definition is_newline (c : Z) : bool := (c =? 10) || (c =? 13).

(** The line boundaries of [str.splitlines] *)
Definition is_line_break (c : Z) : bool :=
  between 10 13 c || between 28 30 c || (c =? 0x85) || (c =? 0x2028) || (c =? 0x2029).

(** [str.isspace], the separators of [str.split] *)
Definition is_space (c : Z) : bool :=
  between 9 13 c || between 28 32 c || (c =? 0x85) || (c =? 0xA0) || (c =? 0x1680) ||
  between 0x2000 0x200A c || (c =? 0x2028) || (c =? 0x2029) || (c =? 0x202F) || (c =? 0x205F) ||
  (c =? 0x3000).

Definition text_eqb (s t : text) : bool := bool_decide (s = t).

(** ** Numbers *)

Definition hex_value (c : Z) : Z :=
  if is_digit c then c - 48 else if between 65 70 c then c - 55 else c - 87.

(** [int(digits, 16)] for hexadecimal digits *)
Definition hex_int (digits : text) : Z := foldl (λ n c, 16 * n + hex_value c) 0 digits.

(** ** Prefixes *)

(** What follows [prefix] at the head of [s] *)
Fixpoint after_prefix (prefix s : text) : option text :=
  match prefix, s with
  | [], _ => Some s
  | p :: prefix, c :: s => if p =? c then after_prefix prefix s else None
  | _ :: _, [] => None
  end.

(** [0[xX]], when it is there *)
Definition after_0x (s : text) : option text :=
  match s with
  | zero :: x :: rest => if (zero =? 48) && ((x =? 120) || (x =? 88)) then Some rest else None
  | _ => None
  end.

Fixpoint drop_while (p : Z → bool) (s : text) : text :=
  match s with c :: r => if p c then drop_while p r else s | [] => [] end.

Fixpoint take_while (p : Z → bool) (s : text) : text :=
  match s with c :: r => if p c then c :: take_while p r else [] | [] => [] end.

Definition starts_with (p : Z → bool) (s : text) : bool :=
  match s with c :: _ => p c | [] => false end.

(** The maximal runs of characters of a class *)
Fixpoint runs (p : Z → bool) (current : text) (s : text) : list text :=
  let flush := match current with [] => [] | _ => [rev current] end in
  match s with
  | [] => flush
  | c :: r => if p c then runs p (c :: current) r else flush ++ runs p [] r
  end.

(** [s.split()] *)
Definition split_fields (s : text) : list text := runs (λ c, negb (is_space c)) [] s.

(** [s.splitlines()]: [\r\n] is one boundary, and a final boundary starts no
    further line. *)
Fixpoint split_lines (current : text) (s : text) : list text :=
  match s with
  | [] => match current with [] => [] | _ => [rev current] end
  | c :: r =>
      if is_line_break c then
        rev current ::
          match r with
          | lf :: r' => if (c =? 13) && (lf =? 10) then split_lines [] r' else split_lines [] r
          | [] => []
          end
      else split_lines (c :: current) r
  end.

Definition splitlines (s : text) : list text := split_lines [] s.

(** ** Lemmas *)

Lemma is_hex_alnum c : is_hex c = true → is_alnum c = true.
Proof. unfold is_hex, is_alnum, is_digit, between. lia. Qed.

Lemma hex_value_bound c : is_hex c = true → 0 <= hex_value c < 16.
Proof.
  unfold is_hex, hex_value. destruct (is_digit c) eqn:E1; unfold is_digit, between in *; [lia|].
  destruct ((65 <=? c) && (c <=? 70)) eqn:E2; lia.
Qed.

Lemma hex_int_snoc s c : hex_int (s ++ [c]) = 16 * hex_int s + hex_value c.
Proof. unfold hex_int. by rewrite foldl_app. Qed.

Lemma hex_int_bound s :
  forallb is_hex s = true → 0 <= hex_int s < 16 ^ zlen s.
Proof.
  induction s as [|c s IH] using rev_ind; [done|].
  rewrite forallb_app, andb_true_iff, hex_int_snoc. cbn [forallb].
  intros [H Hc]. rewrite andb_true_r in Hc. specialize (IH H). pose proof (hex_value_bound c Hc).
  replace (zlen (s ++ [c])) with (zlen s + 1) by (by autorewrite with zlen).
  rewrite Z.pow_add_r by zlen_lia. lia.
Qed.

Lemma after_prefix_spec p s r : after_prefix p s = Some r ↔ s = p ++ r.
Proof.
  revert s. induction p as [|a p IH]; intros s; cbn; [split; congruence|].
  destruct s as [|c s]; [split; congruence|]. destruct (Z.eqb_spec a c) as [->|].
  - rewrite IH. split; congruence.
  - split; congruence.
Qed.

Lemma drop_while_length p s : (length (drop_while p s) <= length s)%nat.
Proof. induction s as [|c s IH]; cbn; [lia|]. destruct (p c); cbn; lia. Qed.

Lemma drop_while_app p s r :
  Forall (λ c, p c = true) s → starts_with p r = false → drop_while p (s ++ r) = r.
Proof.
  induction 1 as [|c s Hc _ IH]; cbn.
  - destruct r as [|c r]; cbn; [done|]. by intros ->.
  - intros Hr. rewrite Hc. auto.
Qed.

Lemma runs_behind p current s c r :
  Forall (λ c, p c = true) s → p c = false →
  runs p current (s ++ c :: r) = (match rev current ++ s with [] => [] | w => [w] end) ++ runs p [] r.
Proof.
  intros Hs Hc. revert current. induction Hs as [|d s Hd _ IH]; intros current; cbn.
  - rewrite Hc, app_nil_r. destruct current as [|a current]; [done|]. cbn.
    by destruct (rev current ++ [a]) eqn:E; [apply app_eq_nil in E as [_ [=]]|].
  - rewrite Hd, IH. cbn. by rewrite <-app_assoc.
Qed.

Lemma runs_end p current s :
  Forall (λ c, p c = true) s →
  runs p current s = match rev current ++ s with [] => [] | w => [w] end.
Proof.
  intros Hs. revert current. induction Hs as [|d s Hd _ IH]; intros current; cbn.
  - rewrite app_nil_r. destruct current as [|a current]; [done|]. cbn.
    by destruct (rev current ++ [a]) eqn:E; [apply app_eq_nil in E as [_ [=]]|].
  - rewrite Hd, IH. cbn. by rewrite <-app_assoc.
Qed.

(** A maximal run is determined by the text. *)
Lemma run_unique p (a b r1 r2 : text) :
  Forall (λ c, p c = true) a → Forall (λ c, p c = true) b →
  starts_with p r1 = false → starts_with p r2 = false → a ++ r1 = b ++ r2 → a = b ∧ r1 = r2.
Proof.
  intros Ha. revert b. induction Ha as [|x a Hx _ IH]; intros b Hb H1 H2 E.
  - destruct b as [|y b]; [done|]. apply Forall_cons in Hb as [Hy _]. cbn in E.
    rewrite E in H1. cbn in H1. congruence.
  - destruct b as [|y b].
    + cbn in E. rewrite <-E in H2. cbn in H2. congruence.
    + apply Forall_cons in Hb as [_ Hb]. injection E as -> E.
      by destruct (IH b Hb H1 H2 E) as [-> ->].
Qed.

Lemma take_while_all p s : Forall (λ c, p c = true) (take_while p s).
Proof. induction s as [|c s IH]; cbn; [constructor|]. destruct (p c) eqn:E; by constructor. Qed.

Lemma take_drop_while p s : take_while p s ++ drop_while p s = s.
Proof. induction s as [|c s IH]; cbn; [done|]. destruct (p c); [cbn; by f_equal|done]. Qed.

Lemma starts_drop_while p s : starts_with p (drop_while p s) = false.
Proof. induction s as [|c s IH]; cbn; [done|]. destruct (p c) eqn:E; [done|]. cbn. done. Qed.

Lemma take_while_app p s r :
  Forall (λ c, p c = true) s → starts_with p r = false → take_while p (s ++ r) = s.
Proof.
  induction 1 as [|c s Hc _ IH]; intros Hr; cbn.
  - destruct r as [|c r]; [done|]. cbn in *. by rewrite Hr.
  - rewrite Hc. f_equal. auto.
Qed.

(** Induction along the runs of a class: a text ends with a run, or goes on
    behind a run with a character outside the class. *)
Lemma runs_ind p (P : text → Prop) :
  (∀ w, Forall (λ c, p c = true) w → P w) →
  (∀ w c r, Forall (λ c, p c = true) w → p c = false → P r → P (w ++ c :: r)) →
  ∀ s, P s.
Proof.
  intros Hend Hstep s. remember (length s) as n eqn:Hn. revert s Hn.
  induction (lt_wf n) as [n _ IH]. intros s ->.
  pose proof (take_while_all p s) as Hw. pose proof (starts_drop_while p s) as Hd.
  rewrite <-(take_drop_while p s) in IH |- *. destruct (drop_while p s) as [|c r].
  - rewrite app_nil_r. by apply Hend.
  - apply Hstep; [done|done|]. apply (IH (length r)); [|done].
    rewrite length_app. cbn. lia.
Qed.

(** * The text of messages

    Messages are kept as templates with their arguments; here they are turned
    into strings, as [str(exc)] and f-strings do. *)

(** ** Numbers *)

Definition hex_digit (d : Z) : Ascii.ascii :=
  Ascii.ascii_of_N (Z.to_N (if d <? 10 then 48 + d else 55 + d)).

(** The [width] lowest hexadecimal digits of [n]. *)
Fixpoint hex_digits (width : nat) (n : Z) (rest : string) : string :=
  match width with
  | O => rest
  | S width => hex_digits width (n / 16) (String (hex_digit (n mod 16)) rest)
  end.

(** The number of hexadecimal digits of a number below 2^64. *)
Definition hex_length (n : Z) : nat := Z.to_nat (Z.log2 n / 4 + 1).

(** [f'{n:0<width>X}'] of a non-negative number. *)
Definition hex_padded (width : nat) (n : Z) : string :=
  hex_digits (Nat.max width (hex_length n)) n EmptyString.

(** ** Values *)

(** [Status(status).name], or the number of an unknown status. *)
Definition Status_name (m : Status.Status_t) : string :=
  match m with
  | Status.OK => "OK"
  | Status.BAD_PAYLOAD_CRC => "BAD_PAYLOAD_CRC"
  | Status.UNSUPPORTED_PROTOCOL => "UNSUPPORTED_PROTOCOL"
  | Status.BAD_PACKET_TYPE => "BAD_PACKET_TYPE"
  | Status.BAD_PAYLOAD_LENGTH => "BAD_PAYLOAD_LENGTH"
  | Status.BAD_FLAGS => "BAD_FLAGS"
  | Status.UNKNOWN_COMMAND => "UNKNOWN_COMMAND"
  | Status.UNSUPPORTED_COMMAND => "UNSUPPORTED_COMMAND"
  | Status.INVALID_STATE => "INVALID_STATE"
  | Status.BUSY => "BUSY"
  | Status.MISSING_BEGIN => "MISSING_BEGIN"
  | Status.UNEXPECTED_END => "UNEXPECTED_END"
  | Status.BLOCK_INDEX_ERROR => "BLOCK_INDEX_ERROR"
  | Status.TOTAL_COUNT_MISMATCH => "TOTAL_COUNT_MISMATCH"
  | Status.BAD_ADDRESS => "BAD_ADDRESS"
  | Status.ADDRESS_OUT_OF_RANGE => "ADDRESS_OUT_OF_RANGE"
  | Status.BAD_ALIGNMENT => "BAD_ALIGNMENT"
  | Status.BAD_WORD_COUNT => "BAD_WORD_COUNT"
  | Status.PROTECTED_REGION => "PROTECTED_REGION"
  | Status.ERASE_FAILED => "ERASE_FAILED"
  | Status.ERASE_FSM_ERROR => "ERASE_FSM_ERROR"
  | Status.BLANK_CHECK_FAILED => "BLANK_CHECK_FAILED"
  | Status.PROGRAM_FAILED => "PROGRAM_FAILED"
  | Status.PROGRAM_FSM_ERROR => "PROGRAM_FSM_ERROR"
  | Status.PROGRAM_VERIFY_FAILED => "PROGRAM_VERIFY_FAILED"
  | Status.REPROGRAM_FORBIDDEN => "REPROGRAM_FORBIDDEN"
  | Status.VERIFY_FAILED => "VERIFY_FAILED"
  | Status.VERIFY_MISMATCH => "VERIFY_MISMATCH"
  | Status.RAM_ADDRESS_ERROR => "RAM_ADDRESS_ERROR"
  | Status.RAM_WRITE_FAILED => "RAM_WRITE_FAILED"
  | Status.RAM_REGION_ERROR => "RAM_REGION_ERROR"
  | Status.UNSUPPORTED_FEATURE => "UNSUPPORTED_FEATURE"
  | Status.DEVICE_INFO_UNAVAILABLE => "DEVICE_INFO_UNAVAILABLE"
  | Status.TARGET_MISMATCH => "TARGET_MISMATCH"
  | Status.METADATA_INVALID => "METADATA_INVALID"
  | Status.METADATA_FULL => "METADATA_FULL"
  | Status.METADATA_WRITE_FAILED => "METADATA_WRITE_FAILED"
  | Status.ATTEMPT_LIMIT_REACHED => "ATTEMPT_LIMIT_REACHED"
  | Status.SECURITY_LOCKED => "SECURITY_LOCKED"
  | Status.UNLOCK_FAILED => "UNLOCK_FAILED"
  | Status.USER_ERROR_BASE => "USER_ERROR_BASE"
  end.

Definition Statuses : list Status.Status_t :=
  [Status.OK; Status.BAD_PAYLOAD_CRC; Status.UNSUPPORTED_PROTOCOL; Status.BAD_PACKET_TYPE;
   Status.BAD_PAYLOAD_LENGTH; Status.BAD_FLAGS; Status.UNKNOWN_COMMAND;
   Status.UNSUPPORTED_COMMAND; Status.INVALID_STATE; Status.BUSY; Status.MISSING_BEGIN;
   Status.UNEXPECTED_END; Status.BLOCK_INDEX_ERROR; Status.TOTAL_COUNT_MISMATCH;
   Status.BAD_ADDRESS; Status.ADDRESS_OUT_OF_RANGE; Status.BAD_ALIGNMENT; Status.BAD_WORD_COUNT;
   Status.PROTECTED_REGION; Status.ERASE_FAILED; Status.ERASE_FSM_ERROR;
   Status.BLANK_CHECK_FAILED; Status.PROGRAM_FAILED; Status.PROGRAM_FSM_ERROR;
   Status.PROGRAM_VERIFY_FAILED; Status.REPROGRAM_FORBIDDEN; Status.VERIFY_FAILED;
   Status.VERIFY_MISMATCH; Status.RAM_ADDRESS_ERROR; Status.RAM_WRITE_FAILED;
   Status.RAM_REGION_ERROR; Status.UNSUPPORTED_FEATURE; Status.DEVICE_INFO_UNAVAILABLE;
   Status.TARGET_MISMATCH; Status.METADATA_INVALID; Status.METADATA_FULL;
   Status.METADATA_WRITE_FAILED; Status.ATTEMPT_LIMIT_REACHED; Status.SECURITY_LOCKED;
   Status.UNLOCK_FAILED; Status.USER_ERROR_BASE].

Definition status_text (status : Z) : string :=
  match find (λ m, Status.Status_value m =? status) Statuses with
  | Some m => Status_name m
  | None => ("0x" ++ hex_padded 4 status)%string
  end.

Definition comma_separated (l : list string) : string := String.concat ", " l.

(** [repr(value)]; a string without quotes or escapes. *)
Fixpoint repr_text (v : PyVal) : string :=
  match v with
  | VNone => "None"
  | VBool b => if b then "True" else "False"
  | VInt z => pretty z
  | VStr s => ("'" ++ s ++ "'")%string
  | VSeq l => ("[" ++ comma_separated (map repr_text l) ++ "]")%string
  | VDict l => 
      ("{" ++ comma_separated (map (λ kv, ("'" ++ kv.1 ++ "': " ++ repr_text kv.2)%string) l)
       ++ "}")%string
  end.

(** [str(value)] *)
Definition str_text (v : PyVal) : string :=
  match v with VStr s => s | _ => repr_text v end.

(** An argument under the format specification of its placeholder. *)
Definition format_value (spec : string) (v : PyVal) : string :=
  match v with
  | VInt z =>
      if bool_decide (spec = ":08X") then hex_padded 8 z
      else if bool_decide (spec = ":04X") then hex_padded 4 z
      else if bool_decide (spec = "status name") then status_text z
      else pretty z
  | _ => if bool_decide (spec = "!r") then repr_text v else str_text v
  end.

(** ** Templates *)

(** [spec] is the text of the placeholder being read. *)
Fixpoint format_template (template : string) (spec : option string) (args : list PyVal) : string :=
  match template with
  | EmptyString => EmptyString
  | String c t =>
      match spec with
      | None => if Ascii.eqb c "{"%char then format_template t (Some EmptyString) args
                else String c (format_template t None args)
      | Some s =>
          if Ascii.eqb c "}"%char then
            match args with
            | [] => format_template t None []
            | v :: args => (format_value s v ++ format_template t None args)%string
            end
          else format_template t (Some (s ++ String c EmptyString)%string) args
      end
  end.

(** The string of a message. *)
Fixpoint text_of (m : Msg) : string :=
  match m with
  | Lit s => s
  | Fmt template args => format_template template None args
  | Prefixed prefix m => (prefix ++ text_of m)%string
  end.

Example status_message :
  text_of (exn_str (StatusErr 0x0108 0x0301)) = "command 0x0108 failed: BAD_ADDRESS"%string.
Proof. vm_compute. reflexivity. Qed.

Example unknown_status_message :
  text_of (exn_str (TransitionErr "P" (StatusErr 0x0108 0x0999))) =
  "P failed: command 0x0108 failed: 0x0999"%string.
Proof. vm_compute. reflexivity. Qed.
