(* ===== verification/TaskPlans.v ===== *)
(** * Plans of GUI tasks

    The enumerations of gui/runtime_models.py and the plan of a task, the
    steps it announces before it runs.  [strip] and [upper] are the string
    methods that the request models use. *)

From S2P Require Import Prelude.
From S2P Require Import Errors.
From S2P Require Import Messages.

(** ** Enumerations *)

Module RuntimeState.
Inductive RuntimeState_t : Set :=
| DISCONNECTED | CONNECTING | CONNECTED | BUSY | DISCONNECTING | ERROR.
End RuntimeState.

Module TaskPhase.
Inductive TaskPhase_t : Set := PENDING | RUNNING | CANCELLING | FINISHED.
End TaskPhase.

Module TaskDispositionState.
Inductive TaskDispositionState_t : Set :=
| NONE | AWAITING_DISCONNECT_DECISION | DISCONNECTING | COMPLETE.
End TaskDispositionState.

Module TaskFinalStatus.
Inductive TaskFinalStatus_t : Set :=
| SUCCEEDED | FAILED | CANCELLED | COMPLETED_AFTER_CANCEL_REQUEST.
End TaskFinalStatus.

Module TaskStepState.
Inductive TaskStepState_t : Set := STARTED | PROGRESS | COMPLETED.
End TaskStepState.

Module ProgressMode.
Inductive ProgressMode_t : Set := INDETERMINATE | DETERMINATE.
End ProgressMode.

Module CompletionPolicy.
Inductive CompletionPolicy_t : Set := AUTO_CLOSE_ON_CLEAN_SUCCESS | REQUIRE_ACKNOWLEDGEMENT.
End CompletionPolicy.

Module TaskConnectionRequirement.
Inductive TaskConnectionRequirement_t : Set := NONE | CONNECTED.
End TaskConnectionRequirement.

Module TaskCompletionAction.
Inductive TaskCompletionAction_t : Set := NONE | RELEASE_CONNECTION.
End TaskCompletionAction.

Module TaskDialogAction.
Inductive TaskDialogAction_t : Set := DISCONNECT | KEEP_CONNECTION | RETRY_CLEANUP | FORCE_EXIT.
End TaskDialogAction.

Module ErrorDisposition.
Inductive ErrorDisposition_t : Set :=
| SHOW_ONLY | ASK_DISCONNECT | FORCE_DISCONNECTED | RUNTIME_FATAL.
End ErrorDisposition.

Module RequestRejectionCode.
Inductive RequestRejectionCode_t : Set :=
| INVALID_RUNTIME_STATE | TASK_ALREADY_ACTIVE | DECISION_PENDING | SHUTDOWN_IN_PROGRESS
| UNKNOWN_TASK | TASK_NOT_CANCELLABLE | ACTION_NOT_AVAILABLE | ACTION_ALREADY_APPLIED
| CLOSE_NOT_ALLOWED.
End RequestRejectionCode.

Module ApplicationCloseDecision.
Inductive ApplicationCloseDecision_t : Set := ALLOW_IMMEDIATE | SHUTDOWN_STARTED | REJECTED | ERROR.
End ApplicationCloseDecision.

Abbreviation RuntimeState := RuntimeState.RuntimeState_t.
Abbreviation TaskPhase := TaskPhase.TaskPhase_t.
Abbreviation TaskDispositionState := TaskDispositionState.TaskDispositionState_t.
Abbreviation TaskFinalStatus := TaskFinalStatus.TaskFinalStatus_t.
Abbreviation TaskStepState := TaskStepState.TaskStepState_t.
Abbreviation ProgressMode := ProgressMode.ProgressMode_t.
Abbreviation CompletionPolicy := CompletionPolicy.CompletionPolicy_t.
Abbreviation TaskConnectionRequirement := TaskConnectionRequirement.TaskConnectionRequirement_t.
Abbreviation TaskCompletionAction := TaskCompletionAction.TaskCompletionAction_t.
Abbreviation TaskDialogAction := TaskDialogAction.TaskDialogAction_t.
Abbreviation ErrorDisposition := ErrorDisposition.ErrorDisposition_t.
Abbreviation RequestRejectionCode := RequestRejectionCode.RequestRejectionCode_t.
Abbreviation ApplicationCloseDecision := ApplicationCloseDecision.ApplicationCloseDecision_t.

#[export] Instance RuntimeState_eq_dec : EqDecision RuntimeState.
Proof. solve_decision. Defined.
#[export] Instance TaskPhase_eq_dec : EqDecision TaskPhase.
Proof. solve_decision. Defined.
#[export] Instance TaskDispositionState_eq_dec : EqDecision TaskDispositionState.
Proof. solve_decision. Defined.
#[export] Instance TaskFinalStatus_eq_dec : EqDecision TaskFinalStatus.
Proof. solve_decision. Defined.
#[export] Instance TaskStepState_eq_dec : EqDecision TaskStepState.
Proof. solve_decision. Defined.
#[export] Instance ProgressMode_eq_dec : EqDecision ProgressMode.
Proof. solve_decision. Defined.
#[export] Instance CompletionPolicy_eq_dec : EqDecision CompletionPolicy.
Proof. solve_decision. Defined.
#[export] Instance TaskConnectionRequirement_eq_dec : EqDecision TaskConnectionRequirement.
Proof. solve_decision. Defined.
#[export] Instance TaskCompletionAction_eq_dec : EqDecision TaskCompletionAction.
Proof. solve_decision. Defined.
#[export] Instance TaskDialogAction_eq_dec : EqDecision TaskDialogAction.
Proof. solve_decision. Defined.
#[export] Instance ErrorDisposition_eq_dec : EqDecision ErrorDisposition.
Proof. solve_decision. Defined.

(** ** Strings *)

(** The strings are sequences of characters below 256. *)
Definition ascii_is_space (c : Ascii.ascii) : bool := is_space (Z.of_N (Ascii.N_of_ascii c)).

Fixpoint lstrip (s : string) : string :=
  match s with
  | EmptyString => EmptyString
  | String c t => if ascii_is_space c then lstrip t else s
  end.

Fixpoint rstrip (s : string) : string :=
  match s with
  | EmptyString => EmptyString
  | String c t =>
      match rstrip t with
      | EmptyString => if ascii_is_space c then EmptyString else String c EmptyString
      | t => String c t
      end
  end.

(** [s.strip()] *)
Definition strip (s : string) : string := rstrip (lstrip s).

(** [not s.strip()] *)
Definition blank (s : string) : bool := bool_decide (strip s = EmptyString).

(** [s.upper()] of an ASCII string. *)
Definition upper_ascii (c : Ascii.ascii) : Ascii.ascii :=
  let n := Ascii.N_of_ascii c in
  if ((97 <=? n) && (n <=? 122))%N then Ascii.ascii_of_N (n - 32) else c.

Fixpoint upper (s : string) : string :=
  match s with
  | EmptyString => EmptyString
  | String c t => String (upper_ascii c) (upper t)
  end.

(** ** Plans *)

Record TaskStepPlan : Set := mkStepPlan {
  sp_step_id : string;
  sp_title : string;
  sp_initial_progress_mode : ProgressMode;
  sp_weight : Z;
}.

Definition TaskStepPlan_post_init (s : TaskStepPlan) : Res TaskStepPlan :=
  fail (Err ValueError (Lit "invalid task step"))
    when bool_decide (sp_step_id s = EmptyString) || bool_decide (sp_title s = EmptyString)
         || (sp_weight s <=? 0) ;;
  Ok s.

Record TaskPlan : Set := mkPlan {
  pl_task_id : string;
  pl_title : string;
  pl_steps : list TaskStepPlan;
  pl_connection_requirement : TaskConnectionRequirement;
  pl_cancellable : bool;
  pl_completion_policy : CompletionPolicy;
  pl_show_task_dialog : bool;
}.

Definition TaskPlan_post_init (p : TaskPlan) : Res TaskPlan :=
  fail (Err ValueError (Lit "invalid task plan"))
    when bool_decide (pl_task_id p = EmptyString) || bool_decide (pl_title p = EmptyString)
         || bool_decide (pl_steps p = []) ;;
  fail (Err ValueError (Lit "step ids must be unique"))
    when negb (bool_decide (NoDup (map sp_step_id (pl_steps p)))) ;;
  Ok p.

(** A plan of indeterminate steps of weight one, as the requests make them. *)
Definition task_plan (task_id title : string) (steps : list (string * string))
    (mode : ProgressMode) (requirement : TaskConnectionRequirement) (cancellable : bool)
    (policy : CompletionPolicy) (show_task_dialog : bool) : Res TaskPlan :=
  let? steps := mapR (λ s, TaskStepPlan_post_init (mkStepPlan s.1 s.2 mode 1)) steps in
  TaskPlan_post_init
    (mkPlan task_id title steps requirement cancellable policy show_task_dialog).

(** The step ids of a plan are pairwise different and its weights positive. *)
Definition plan_ok (p : TaskPlan) : Prop :=
  TaskPlan_post_init p = Ok p ∧
  Forall (λ s, TaskStepPlan_post_init s = Ok s) (pl_steps p).
