(* ===== verification/Words.v ===== *)
(** * Words, bytes and checksums

    protocol/crc.py, firmware/crc32.py, protocol/sequence.py,
    protocol/alignment.py and the uint32 helpers of protocol/models.py.
    A 16-bit word and a byte are [Z] values; the bounds the code checks are
    written out.  [zlib.crc32] is modelled by the bitwise reflected CRC-32
    (polynomial 0xEDB88320, initial value and final xor 0xFFFFFFFF). *)

From S2P Require Import Prelude.
From S2P Require Import Errors.
From S2P Require Import Constants.

(** ** protocol/crc.py *)

(** One iteration of the inner loop. *)
Definition crc16_bit (crc : Z) : Z :=
  if negb (Z.land crc 0x8000 =? 0)
  then Z.land (Z.lxor (Z.shiftl crc 1) 0x1021) 0xFFFF
  else Z.land (Z.shiftl crc 1) 0xFFFF.

Definition crc16_byte (crc byte : Z) : Z :=
  Nat.iter 8 crc16_bit (Z.lxor crc (Z.shiftl byte 8)).

Definition crc16_ccitt_false (data : list Z) : Z := foldl crc16_byte 0xFFFF data.

Fixpoint words_to_little_endian_bytes (words : list Z) : Res (list Z) :=
  match words with
  | [] => Ok []
  | word :: words =>
      fail (Err ValueError (Fmt "word does not fit uint16: {}" [VInt word]))
        when (word <? 0) || (word >? 0xFFFF) ;;
      let? result := words_to_little_endian_bytes words in
      Ok (Z.land word 0xFF :: Z.shiftr word 8 :: result)
  end.

Definition crc16_words (words : list Z) : Res Z :=
  let? data := words_to_little_endian_bytes words in Ok (crc16_ccitt_false data).

(** The word reader of the stream decoders:
    [tuple(b[i] | (b[i + 1] << 8) for i in range(0, n, 2))]. *)
Fixpoint bytes_to_words (data : list Z) : list Z :=
  match data with
  | lo :: hi :: data => Z.lor lo (Z.shiftl hi 8) :: bytes_to_words data
  | _ => []
  end.

(** ** zlib.crc32 and firmware/crc32.py *)

Definition crc32_bit (crc : Z) : Z :=
  if negb (Z.land crc 1 =? 0)
  then Z.lxor (Z.shiftr crc 1) 0xEDB88320
  else Z.shiftr crc 1.

Definition crc32_byte (crc byte : Z) : Z := Nat.iter 8 crc32_bit (Z.lxor crc byte).

Definition zlib_crc32 (data : list Z) : Z :=
  Z.lxor (foldl crc32_byte 0xFFFFFFFF data) 0xFFFFFFFF.

Definition crc32_bytes (data : list Z) : Z := Z.land (zlib_crc32 data) 0xFFFFFFFF.

(** The byte string [crc32_words] builds before it calls [crc32_bytes]. *)
Fixpoint crc32_word_bytes (words : list Z) : Res (list Z) :=
  match words with
  | [] => Ok []
  | word :: words =>
      fail (Err ValueError (Lit "CRC32 word input must fit uint16"))
        when (word <? 0) || (word >? 0xFFFF) ;;
      let? data := crc32_word_bytes words in
      Ok (Z.land word 0xFF :: Z.land (Z.shiftr word 8) 0xFF :: data)
  end.

Definition crc32_words (words : list Z) : Res Z :=
  let? data := crc32_word_bytes words in Ok (crc32_bytes data).

(** ** protocol/models.py: uint32 halves *)

Definition join_u32 (low high : Z) : Z := Z.lor low (Z.shiftl high 16).

Definition split_u32 (value : Z) : Res (Z * Z) :=
  fail (Err ValueError (Lit "value must fit uint32"))
    when (value <? 0) || (value >? 0xFFFFFFFF) ;;
  Ok (Z.land value 0xFFFF, Z.shiftr value 16).

(** ** protocol/sequence.py *)

Definition next_sequence (previous : Z) : Res Z :=
  fail (Err ValueError (Lit "previous sequence must fit uint16"))
    when (previous <? 0) || (previous >? 0xFFFF) ;;
  Ok (if (previous =? 0) || (previous =? 0xFFFF) then 1 else previous + 1).

Definition validate_response_sequence (request_sequence response_sequence : Z) : Res unit :=
  fail (Err ValueError (Lit "request sequence must be in range 1..65535"))
    when (request_sequence =? 0) || (request_sequence >? 0xFFFF) ;;
  fail (Err SequenceMismatchError (Fmt "response sequence {} does not match request {}"
          [VInt response_sequence; VInt request_sequence]))
    when negb (response_sequence =? request_sequence) ;;
  Ok tt.

(** ** protocol/alignment.py *)

Definition validate_write_data (words : list Z) (max_data_words : option Z) : Res unit :=
  let count := zlen words in
  fail (Err DataAlignmentError (Lit "write data must not be empty")) when count =? 0 ;;
  fail (Err DataAlignmentError (Lit "write data word count must be a multiple of 8"))
    when negb (count mod WRITE_DATA_ALIGNMENT_WORDS =? 0) ;;
  let? _ :=
    match max_data_words with
    | None => Ok tt
    | Some max =>
        fail (Err ValueError (Lit "max_data_words must be a positive multiple of 8"))
          when (max <=? 0) || negb (max mod WRITE_DATA_ALIGNMENT_WORDS =? 0) ;;
        fail (Err DataAlignmentError (Lit "write data exceeds max_data_words"))
          when count >? max ;;
        Ok tt
    end in
  fail (Err ValueError (Lit "write data values must fit uint16"))
    when existsb (λ word, (word <? 0) || (word >? 0xFFFF)) words ;;
  Ok tt.

Definition pad_write_data (words : list Z) (max_data_words : option Z) : Res (list Z) :=
  fail (Err DataAlignmentError (Lit "write data must not be empty")) when zlen words =? 0 ;;
  fail (Err ValueError (Lit "write data values must fit uint16"))
    when existsb (λ word, (word <? 0) || (word >? 0xFFFF)) words ;;
  let missing := (- zlen words) mod WRITE_DATA_ALIGNMENT_WORDS in
  let result := words ++ replicate (Z.to_nat missing) WRITE_DATA_PAD_WORD in
  let? _ := validate_write_data result max_data_words in
  Ok result.

Example crc16_check_value :
  crc16_ccitt_false [49; 50; 51; 52; 53; 54; 55; 56; 57] = 0x29B1.
Proof. reflexivity. Qed.
Example crc32_check_value :
  crc32_bytes [49; 50; 51; 52; 53; 54; 55; 56; 57] = 0xCBF43926.
Proof. reflexivity. Qed.

(** ** Byte and word conversions *)

Lemma words_to_bytes_ok ws :
  Forall u16 ws → ∃ bs, words_to_little_endian_bytes ws = Ok bs ∧ Forall u8 bs ∧
    zlen bs = 2 * zlen ws ∧ bytes_to_words bs = ws.
Proof.
  induction 1 as [|w ws Hw _ (bs & Hbs & Hu8 & Hlen & Hback)]; simpl.
  - by exists [].
  - unfold u16 in Hw. replace ((w <? 0) || (w >? 65535)) with false by lia.
    rewrite Hbs. eexists; split; [reflexivity|].
    rewrite land_ff, shiftr_8. split; [|split].
    + constructor; [|constructor; [|done]]; unfold u8; Z.to_euclidean_division_equations; lia.
    + rewrite !zlen_cons. lia.
    + simpl. rewrite Hback, lor_shiftl_8; [|unfold u8; Z.to_euclidean_division_equations; lia].
      f_equal. Z.to_euclidean_division_equations; lia.
Qed.

Lemma words_to_bytes_inv ws bs :
  words_to_little_endian_bytes ws = Ok bs → Forall u16 ws.
Proof.
  revert bs. induction ws as [|w ws IH]; intros bs; simpl; [constructor|].
  destruct ((w <? 0) || (w >? 65535)) eqn:E; [done|].
  destruct (words_to_little_endian_bytes ws); [|done].
  intros _. constructor; [unfold u16; lia|eauto].
Qed.

Lemma words_to_bytes_app ws vs bs cs :
  words_to_little_endian_bytes ws = Ok bs → words_to_little_endian_bytes vs = Ok cs →
  words_to_little_endian_bytes (ws ++ vs) = Ok (bs ++ cs).
Proof.
  revert bs. induction ws as [|w ws IH]; intros bs; simpl; [by intros [= <-]|].
  destruct ((w <? 0) || (w >? 65535)); [done|].
  destruct (words_to_little_endian_bytes ws) as [bs'|]; [|done].
  intros [= <-] Hcs. by rewrite (IH _ eq_refl Hcs).
Qed.

Lemma crc16_words_ok ws : Forall u16 ws → ∃ c, crc16_words ws = Ok c.
Proof.
  intros H. destruct (words_to_bytes_ok ws H) as (bs & Hbs & _).
  unfold crc16_words. rewrite Hbs. eauto.
Qed.

Lemma crc32_word_bytes_ok ws :
  Forall u16 ws → crc32_word_bytes ws = words_to_little_endian_bytes ws.
Proof.
  induction 1 as [|w ws Hw _ IH]; simpl; [done|].
  rewrite IH. case_match; [unfold u16 in *; lia|].
  destruct (words_to_little_endian_bytes ws); [|done].
  rewrite shiftr_8, (land_ff (w / 256)). do 3 f_equal.
  apply Z.mod_small. unfold u16 in Hw. Z.to_euclidean_division_equations; lia.
Qed.

(** ** Checksums as linear maps over GF(2)

    A step of either checksum is linear for [lxor] and has a trivial kernel,
    so it is injective; this is all that error detection needs. *)

Class LinearStep (n : Z) (f : Z → Z) : Prop := {
  step_bound : ∀ x, 0 <= x < 2 ^ n → 0 <= f x < 2 ^ n;
  step_lxor : ∀ x y, 0 <= x < 2 ^ n → 0 <= y < 2 ^ n → f (Z.lxor x y) = Z.lxor (f x) (f y);
  step_kernel : ∀ x, 0 <= x < 2 ^ n → f x = 0 → x = 0;
}.

Section linear_steps.
  Context (n : Z) (f : Z → Z) (Hn : 0 <= n) `{!LinearStep n f}.

Lemma step_inj x y : 0 <= x < 2 ^ n → 0 <= y < 2 ^ n → f x = f y → x = y.
  Proof.
    intros Hx Hy E. apply Z.lxor_eq. apply step_kernel; [by apply lxor_bound|].
    rewrite step_lxor, E, Z.lxor_nilpotent; done.
  Qed.

#[export] Instance iter_linear k : LinearStep n (Nat.iter k f).
  Proof.
    induction k as [|k IH]; split; intros; simpl in *; try done.
    - by apply step_bound, step_bound.
    - rewrite step_lxor by done. apply step_lxor; by apply step_bound.
    - apply (step_kernel (f:=Nat.iter k f)); [done|]. apply (step_kernel (f:=f)); [by apply step_bound|done].
  Qed.
End linear_steps.

Lemma crc16_bit_testbit x k :
  0 <= x < 2 ^ 16 → 0 <= k →
  Z.testbit (crc16_bit x) k =
    (k <? 16) && xorb ((0 <? k) && Z.testbit x (k - 1)) (Z.testbit x 15 && Z.testbit 0x1021 k).
Proof.
  intros Hx Hk. unfold crc16_bit.
  assert (Hb : (Z.land x 0x8000 =? 0) = negb (Z.testbit x 15)).
  { destruct (Z.testbit x 15) eqn:E15; simpl.
    - apply Z.eqb_neq. intros H0.
      assert (Z.testbit (Z.land x 0x8000) 15 = true) as Ht.
      { rewrite Z.land_spec, E15. reflexivity. }
      by rewrite H0, Z.bits_0 in Ht.
    - apply Z.eqb_eq, Z.bits_inj'. intros j Hj. rewrite Z.land_spec, Z.bits_0.
      change 0x8000 with (2 ^ 15). rewrite Z.pow2_bits_eqb by lia.
      destruct (Z.eqb_spec 15 j) as [<-|]; [by rewrite E15|apply andb_false_r]. }
  rewrite Hb, negb_involutive.
  assert (Hsh : Z.testbit (Z.shiftl x 1) k = (0 <? k) && Z.testbit x (k - 1)).
  { rewrite Z.shiftl_spec by lia. destruct (Z.ltb_spec 0 k); [done|].
    by rewrite Z.testbit_neg_r by lia. }
  change 0xFFFF with (Z.ones 16).
  destruct (Z.testbit x 15); rewrite Z.land_spec, Z.testbit_ones_nonneg by lia;
    rewrite ?Z.lxor_spec, Hsh, andb_comm; f_equal.
  by rewrite xorb_false_r.
Qed.

#[export] Instance crc16_bit_linear : LinearStep 16 crc16_bit.
Proof.
  split.
  - intros x Hx. apply bounded_by_bits; [lia|]. intros k Hk.
    rewrite crc16_bit_testbit by (lia || apply Hx). by replace (k <? 16) with false by lia.
  - intros x y Hx Hy. apply Z.bits_inj'. intros k Hk.
    rewrite Z.lxor_spec, !crc16_bit_testbit by (first [lia | apply lxor_bound; lia]).
    rewrite !Z.lxor_spec. destruct (k <? 16), (0 <? k); bool_bits.
  - intros x Hx H0. apply Z.bits_inj'. intros k Hk. rewrite Z.bits_0.
    assert (Hall : ∀ j, 0 <= j → Z.testbit (crc16_bit x) j = false)
      by (intros; by rewrite H0, Z.bits_0).
    assert (H15 : Z.testbit x 15 = false).
    { specialize (Hall 0 ltac:(lia)). rewrite crc16_bit_testbit in Hall by lia.
      change (Z.testbit 0x1021 0) with true in Hall. simpl in Hall.
      by rewrite andb_true_r in Hall. }
    destruct (decide (16 <= k)); [by apply (testbit_small x 16)|].
    destruct (decide (k = 15)) as [->|]; [done|].
    specialize (Hall (k + 1) ltac:(lia)). rewrite crc16_bit_testbit in Hall by lia.
    rewrite H15 in Hall. replace (k + 1 - 1) with k in Hall by lia.
    replace (k + 1 <? 16) with true in Hall by lia.
    replace (0 <? k + 1) with true in Hall by lia. simpl in Hall.
    by rewrite xorb_false_r in Hall.
Qed.

Lemma crc32_bit_testbit x k :
  0 <= x < 2 ^ 32 → 0 <= k →
  Z.testbit (crc32_bit x) k =
    xorb (Z.testbit x (k + 1)) (Z.testbit x 0 && Z.testbit 0xEDB88320 k).
Proof.
  intros Hx Hk. unfold crc32_bit. change (Z.land x 1) with (Z.land x (Z.ones 1)).
  rewrite Z.land_ones by lia. change (2 ^ 1) with 2. rewrite <-Z.bit0_mod.
  destruct (Z.testbit x 0); simpl.
  - by rewrite Z.lxor_spec, Z.shiftr_spec by lia.
  - by rewrite Z.shiftr_spec, xorb_false_r by lia.
Qed.

#[export] Instance crc32_bit_linear : LinearStep 32 crc32_bit.
Proof.
  split.
  - intros x Hx. apply bounded_by_bits; [lia|]. intros k Hk.
    rewrite crc32_bit_testbit by (lia || apply Hx). rewrite (testbit_small x 32) by lia.
    rewrite (testbit_small 0xEDB88320 32) by lia. by rewrite andb_false_r.
  - intros x y Hx Hy. apply Z.bits_inj'. intros k Hk.
    rewrite Z.lxor_spec, !crc32_bit_testbit by (first [lia | apply lxor_bound; lia]).
    rewrite !Z.lxor_spec. bool_bits.
  - intros x Hx H0. apply Z.bits_inj'. intros k Hk. rewrite Z.bits_0.
    assert (Hall : ∀ j, 0 <= j → Z.testbit (crc32_bit x) j = false)
      by (intros; by rewrite H0, Z.bits_0).
    assert (Hb0 : Z.testbit x 0 = false).
    { specialize (Hall 31 ltac:(lia)). rewrite crc32_bit_testbit in Hall by lia.
      rewrite (testbit_small x 32) in Hall by lia.
      change (Z.testbit 0xEDB88320 31) with true in Hall. simpl in Hall.
      by rewrite andb_true_r in Hall. }
    destruct (decide (k = 0)) as [->|]; [done|].
    specialize (Hall (k - 1) ltac:(lia)). rewrite crc32_bit_testbit in Hall by lia.
    rewrite Hb0 in Hall. replace (k - 1 + 1) with k in Hall by lia. simpl in Hall.
    by rewrite xorb_false_r in Hall.
Qed.

(** *** Word steps: absorbing the two bytes of one word *)

Definition crc16_word (crc w : Z) : Z := crc16_byte (crc16_byte crc (w mod 256)) (w / 256).
Definition crc32_word (crc w : Z) : Z := crc32_byte (crc32_byte crc (w mod 256)) (w / 256).

(** A byte shifted through the high half of the CRC-16 register comes out
    unchanged, so two byte steps are sixteen bit steps on the whole word. *)
Lemma crc16_bit_small x : 0 <= x < 32768 → crc16_bit x = 2 * x.
Proof.
  intros Hx. apply Z.bits_inj'. intros k Hk.
  rewrite crc16_bit_testbit by lia. rewrite (testbit_small x 15 15) by lia.
  simpl. rewrite xorb_false_r. destruct (decide (k = 0)) as [->|].
  - by rewrite Z.testbit_even_0.
  - replace k with (Z.succ (k - 1)) at 4 by lia. rewrite Z.testbit_even_succ by lia.
    replace (0 <? k) with true by lia. simpl.
    destruct (Z.ltb_spec k 16); [done|]. by rewrite (testbit_small x 15) by lia.
Qed.

Lemma crc16_iter_small k b :
  0 <= b → b * 2 ^ Z.of_nat k < 65536 → Nat.iter k crc16_bit b = b * 2 ^ Z.of_nat k.
Proof.
  intros Hb. induction k as [|k IH]; intros Hk; simpl Nat.iter; [lia|].
  rewrite Nat2Z.inj_succ, Z.pow_succ_r in * by lia.
  pose proof (Z.pow_pos_nonneg 2 (Z.of_nat k)).
  rewrite IH by nia. rewrite crc16_bit_small by nia. lia.
Qed.

Lemma crc16_iter_byte b : u8 b → Nat.iter 8 crc16_bit b = Z.shiftl b 8.
Proof.
  unfold u8. intros Hb. rewrite Z.shiftl_mul_pow2 by lia.
  rewrite crc16_iter_small; simpl; lia.
Qed.

Lemma crc32_bit_even x : crc32_bit (2 * x) = x.
Proof.
  unfold crc32_bit. change (Z.land (2 * x) 1) with (Z.land (2 * x) (Z.ones 1)).
  rewrite Z.land_ones by lia. change (2 ^ 1) with 2.
  replace ((2 * x) mod 2) with 0 by (rewrite Z.mul_comm, Z_mod_mult; done).
  simpl. rewrite Z.shiftr_div_pow2 by lia. change (2 ^ 1) with 2.
  rewrite Z.mul_comm. by apply Z.div_mul.
Qed.

Lemma crc32_iter_even k b : Nat.iter k crc32_bit (b * 2 ^ Z.of_nat k) = b.
Proof.
  induction k as [|k IH]; [simpl Nat.iter; lia|].
  rewrite Nat.iter_succ_r, Nat2Z.inj_succ, Z.pow_succ_r by lia.
  replace (b * (2 * 2 ^ Z.of_nat k)) with (2 * (b * 2 ^ Z.of_nat k)) by lia.
  by rewrite crc32_bit_even.
Qed.

Lemma crc32_iter_byte b : Nat.iter 8 crc32_bit (Z.shiftl b 8) = b.
Proof. rewrite Z.shiftl_mul_pow2 by lia. apply (crc32_iter_even 8). Qed.

Lemma iter_add_steps {A} (f : A → A) m n x :
  Nat.iter m f (Nat.iter n f x) = Nat.iter (m + n) f x.
Proof. symmetry. apply Nat.iter_add. Qed.

Lemma shiftl_8_bound b : u8 b → 0 <= Z.shiftl b 8 < 2 ^ 16.
Proof. unfold u8. rewrite Z.shiftl_mul_pow2 by lia. lia. Qed.

Lemma word_bytes_u8 w : u16 w → u8 (w mod 256) ∧ u8 (w / 256).
Proof. unfold u16, u8. intros. split; Z.to_euclidean_division_equations; lia. Qed.

Lemma crc16_word_eq crc w :
  u16 crc → u16 w →
  crc16_word crc w =
    Nat.iter 16 crc16_bit (Z.lxor crc (Z.lxor (Z.shiftl (w mod 256) 8) (w / 256))).
Proof.
  intros Hc Hw. destruct (word_bytes_u8 w Hw) as [Hlo Hhi].
  pose proof (shiftl_8_bound _ Hlo). change (0 <= crc < 2 ^ 16) in Hc.
  unfold crc16_word, crc16_byte. rewrite <-(crc16_iter_byte (w / 256)) by done.
  rewrite <-(step_lxor (n:=16) (f:=Nat.iter 8 crc16_bit));
    [|by apply lxor_bound|unfold u8 in *; lia].
  rewrite iter_add_steps. by rewrite Z.lxor_assoc.
Qed.

Lemma crc32_word_eq crc w :
  u32 crc → u16 w → crc32_word crc w = Nat.iter 16 crc32_bit (Z.lxor crc w).
Proof.
  intros Hc Hw. destruct (word_bytes_u8 w Hw) as [Hlo Hhi].
  pose proof (shiftl_8_bound _ Hhi). change (0 <= crc < 2 ^ 32) in Hc.
  unfold crc32_word, crc32_byte. rewrite <-(crc32_iter_byte (w / 256)) at 1.
  rewrite <-(step_lxor (n:=32) (f:=Nat.iter 8 crc32_bit));
    [|apply lxor_bound; unfold u8 in *; lia|lia].
  rewrite iter_add_steps, Z.lxor_assoc. do 2 f_equal.
  rewrite Z.lxor_lor by (apply (land_shiftl_disjoint _ _ 8); [lia|exact Hlo]).
  rewrite lor_shiftl_8 by done. unfold u16 in Hw. Z.to_euclidean_division_equations; lia.
Qed.

Lemma crc16_byte_u16 crc b : u16 crc → u8 b → u16 (crc16_byte crc b).
Proof.
  intros Hc Hb. apply (step_bound (n:=16) (f:=Nat.iter 8 crc16_bit)).
  apply lxor_bound; [lia|exact Hc|]. by apply shiftl_8_bound.
Qed.

Lemma crc32_byte_u32 crc b : u32 crc → u8 b → u32 (crc32_byte crc b).
Proof.
  intros Hc Hb. apply (step_bound (n:=32) (f:=Nat.iter 8 crc32_bit)).
  apply lxor_bound; [lia|exact Hc|]. unfold u8 in Hb; lia.
Qed.

Lemma crc16_word_u16 crc w : u16 crc → u16 w → u16 (crc16_word crc w).
Proof.
  intros Hc Hw. destruct (word_bytes_u8 w Hw). unfold crc16_word.
  auto using crc16_byte_u16.
Qed.

Lemma crc32_word_u32 crc w : u32 crc → u16 w → u32 (crc32_word crc w).
Proof.
  intros Hc Hw. destruct (word_bytes_u8 w Hw). unfold crc32_word.
  auto using crc32_byte_u32.
Qed.

Lemma swap_inj w w' :
  u16 w → u16 w' →
  Z.lxor (Z.shiftl (w mod 256) 8) (w / 256) = Z.lxor (Z.shiftl (w' mod 256) 8) (w' / 256) →
  w = w'.
Proof.
  intros Hw Hw'. destruct (word_bytes_u8 w Hw), (word_bytes_u8 w' Hw').
  rewrite !(Z.lxor_comm (Z.shiftl _ _)).
  rewrite !Z.lxor_lor by (by apply (land_shiftl_disjoint _ _ 8); [lia|]).
  rewrite !lor_shiftl_8 by done. unfold u8 in *. Z.to_euclidean_division_equations; lia.
Qed.

Lemma lxor_cancel_l a b c : Z.lxor a b = Z.lxor a c → b = c.
Proof.
  intros E. apply (f_equal (Z.lxor a)) in E.
  by rewrite <-!Z.lxor_assoc, Z.lxor_nilpotent, !Z.lxor_0_l in E.
Qed.

Lemma lxor_cancel_r a b c : Z.lxor b a = Z.lxor c a → b = c.
Proof. rewrite !(Z.lxor_comm _ a). apply lxor_cancel_l. Qed.

Lemma swap_bound w : u16 w → 0 <= Z.lxor (Z.shiftl (w mod 256) 8) (w / 256) < 2 ^ 16.
Proof.
  intros Hw. destruct (word_bytes_u8 w Hw). apply lxor_bound; [lia|by apply shiftl_8_bound|].
  unfold u8 in *; lia.
Qed.

Lemma iter_lxor_inj n f `{!LinearStep n f} k a b c d :
  0 <= n → 0 <= a < 2 ^ n → 0 <= b < 2 ^ n → 0 <= c < 2 ^ n → 0 <= d < 2 ^ n →
  Nat.iter k f (Z.lxor a b) = Nat.iter k f (Z.lxor c d) → Z.lxor a b = Z.lxor c d.
Proof.
  intros Hn Ha Hb Hc Hd. apply (step_inj n (Nat.iter k f) Hn); by apply lxor_bound.
Qed.

Lemma crc16_word_inj_word crc w w' :
  u16 crc → u16 w → u16 w' → crc16_word crc w = crc16_word crc w' → w = w'.
Proof.
  intros Hc Hw Hw'. rewrite !crc16_word_eq by done. intros E.
  apply (iter_lxor_inj 16) in E; [|apply _|lia|exact Hc|by apply swap_bound|exact Hc|by apply swap_bound].
  apply lxor_cancel_l in E. by apply swap_inj.
Qed.

Lemma crc16_word_inj_crc crc crc' w :
  u16 crc → u16 crc' → u16 w → crc16_word crc w = crc16_word crc' w → crc = crc'.
Proof.
  intros Hc Hc' Hw. rewrite !crc16_word_eq by done. intros E.
  apply (iter_lxor_inj 16) in E; [|apply _|lia|exact Hc|by apply swap_bound|exact Hc'|by apply swap_bound].
  by apply lxor_cancel_r in E.
Qed.

Lemma u16_u32_pow w : u16 w → 0 <= w < 2 ^ 32.
Proof. unfold u16. lia. Qed.

Lemma crc32_word_inj_word crc w w' :
  u32 crc → u16 w → u16 w' → crc32_word crc w = crc32_word crc w' → w = w'.
Proof.
  intros Hc Hw Hw'. rewrite !crc32_word_eq by done. intros E.
  apply (iter_lxor_inj 32) in E;
    [|apply _|lia|exact Hc|by apply u16_u32_pow|exact Hc|by apply u16_u32_pow].
  by apply lxor_cancel_l in E.
Qed.

Lemma crc32_word_inj_crc crc crc' w :
  u32 crc → u32 crc' → u16 w → crc32_word crc w = crc32_word crc' w → crc = crc'.
Proof.
  intros Hc Hc' Hw. rewrite !crc32_word_eq by done. intros E.
  apply (iter_lxor_inj 32) in E;
    [|apply _|lia|exact Hc|by apply u16_u32_pow|exact Hc'|by apply u16_u32_pow].
  by apply lxor_cancel_r in E.
Qed.

(** *** Whole word sequences *)

#[global] Arguments crc16_byte _ _ : simpl never.
#[global] Arguments crc32_byte _ _ : simpl never.
#[global] Arguments crc16_word _ _ : simpl never.
#[global] Arguments crc32_word _ _ : simpl never.
#[global] Opaque crc16_byte crc32_byte.

Lemma crc16_words_fold ws :
  Forall u16 ws → crc16_words ws = Ok (foldl crc16_word 0xFFFF ws).
Proof.
  unfold crc16_words, crc16_ccitt_false. intros H.
  cut (∀ crc, ∃ bs, words_to_little_endian_bytes ws = Ok bs ∧
    foldl crc16_byte crc bs = foldl crc16_word crc ws).
  { intros Hc. destruct (Hc 0xFFFF) as (bs & -> & ->). done. }
  induction H as [|w ws Hw _ IH]; intros crc; simpl; [by exists []|].
  destruct (IH (crc16_word crc w)) as (bs & -> & <-).
  unfold u16 in Hw. replace ((w <? 0) || (w >? 65535)) with false by lia.
  eexists; split; [reflexivity|]. rewrite land_ff, shiftr_8.
  cbn [foldl]. unfold crc16_word. reflexivity.
Qed.

Lemma crc32_words_fold ws :
  Forall u16 ws →
  crc32_words ws = Ok (Z.lxor (foldl crc32_word 0xFFFFFFFF ws) 0xFFFFFFFF).
Proof.
  unfold crc32_words, crc32_bytes, zlib_crc32. intros H.
  rewrite crc32_word_bytes_ok by done.
  cut (∀ crc, u32 crc → ∃ bs, words_to_little_endian_bytes ws = Ok bs ∧
    foldl crc32_byte crc bs = foldl crc32_word crc ws ∧ u32 (foldl crc32_word crc ws)).
  { intros Hc. destruct (Hc 0xFFFFFFFF) as (bs & -> & -> & Hu); [unfold u32; lia|].
    f_equal. rewrite land_ffffffff. apply Z.mod_small.
    apply (lxor_bound _ _ 32); [lia|exact Hu|lia]. }
  induction H as [|w ws Hw _ IH]; intros crc Hc; simpl; [by exists []|].
  destruct (IH (crc32_word crc w)) as (bs & -> & <- & Hu); [by apply crc32_word_u32|].
  unfold u16 in Hw. replace ((w <? 0) || (w >? 65535)) with false by lia.
  eexists; split; [reflexivity|]. rewrite land_ff, shiftr_8.
  cbn [foldl]. unfold crc32_word at 1. split; [reflexivity|exact Hu].
Qed.

Section fold_words.
  Context (P : Z → Prop) (f : Z → Z → Z).
  Context (f_P : ∀ c w, P c → u16 w → P (f c w)).
  Context (f_inj_crc : ∀ c c' w, P c → P c' → u16 w → f c w = f c' w → c = c').
  Context (f_inj_word : ∀ c w w', P c → u16 w → u16 w' → f c w = f c w' → w = w').

Lemma fold_words_P c ws : P c → Forall u16 ws → P (foldl f c ws).
  Proof. intros Hc H. revert c Hc. induction H; simpl; auto. Qed.

Lemma fold_words_inj c c' ws :
    P c → P c' → Forall u16 ws → foldl f c ws = foldl f c' ws → c = c'.
  Proof using f_P f_inj_crc.
    intros Hc Hc' H. revert c c' Hc Hc'.
    induction H as [|w ws Hw _ IH]; simpl; intros c c' Hc Hc' E; [done|].
    eapply f_inj_crc; eauto.
  Qed.

Lemma fold_words_detect c ws1 w w' ws2 :
    P c → Forall u16 ws1 → Forall u16 ws2 → u16 w → u16 w' → w ≠ w' →
    foldl f c (ws1 ++ w :: ws2) ≠ foldl f c (ws1 ++ w' :: ws2).
  Proof using All.
    intros Hc H1 H2 Hw Hw' Hne. rewrite !foldl_app. simpl. intros E.
    pose proof (fold_words_P c ws1 Hc H1) as Hm.
    apply Hne. eapply f_inj_word; [exact Hm|done|done|].
    eapply fold_words_inj; eauto.
  Qed.
End fold_words.

Lemma crc16_fold_detect c ws1 w w' ws2 :
  u16 c → Forall u16 ws1 → Forall u16 ws2 → u16 w → u16 w' → w ≠ w' →
  foldl crc16_word c (ws1 ++ w :: ws2) ≠ foldl crc16_word c (ws1 ++ w' :: ws2).
Proof.
  exact (fold_words_detect u16 crc16_word crc16_word_u16 crc16_word_inj_crc
    crc16_word_inj_word c ws1 w w' ws2).
Qed.

Lemma crc16_fold_u16 c ws : u16 c → Forall u16 ws → u16 (foldl crc16_word c ws).
Proof. apply (fold_words_P u16). apply crc16_word_u16. Qed.

Lemma crc32_fold_detect c ws1 w w' ws2 :
  u32 c → Forall u16 ws1 → Forall u16 ws2 → u16 w → u16 w' → w ≠ w' →
  foldl crc32_word c (ws1 ++ w :: ws2) ≠ foldl crc32_word c (ws1 ++ w' :: ws2).
Proof.
  exact (fold_words_detect u32 crc32_word crc32_word_u32 crc32_word_inj_crc
    crc32_word_inj_word c ws1 w w' ws2).
Qed.

Lemma crc16_words_u16 ws c : crc16_words ws = Ok c → u16 c.
Proof.
  intros E. assert (Forall u16 ws) as H.
  { unfold crc16_words in E. destruct (words_to_little_endian_bytes ws) eqn:E'; [|done].
    by eapply words_to_bytes_inv. }
  rewrite crc16_words_fold in E by done. injection E as <-.
  apply crc16_fold_u16; [unfold u16; lia|done].
Qed.

Lemma crc32_words_u32 ws : Forall u16 ws → ∃ c, crc32_words ws = Ok c ∧ u32 c.
Proof.
  intros H. rewrite crc32_words_fold by done. eexists; split; [done|].
  apply (lxor_bound _ _ 32); [lia| |lia].
  apply (fold_words_P u32 crc32_word crc32_word_u32); [unfold u32; lia|done].
Qed.

(** ** uint32 halves *)

Lemma split_u32_ok v : u32 v → split_u32 v = Ok (v mod 65536, v / 65536).
Proof.
  unfold split_u32, u32. intros H. case_match; [lia|].
  by rewrite land_ffff, shiftr_16.
Qed.

Lemma join_u32_eq lo hi : u16 lo → join_u32 lo hi = lo + hi * 65536.
Proof. apply lor_shiftl_16. Qed.

Lemma join_u32_u32 lo hi : u16 lo → u16 hi → u32 (join_u32 lo hi).
Proof. intros. rewrite join_u32_eq by done. unfold u16, u32 in *. lia. Qed.

Lemma split_join_u32 lo hi : u16 lo → u16 hi → split_u32 (join_u32 lo hi) = Ok (lo, hi).
Proof.
  intros Hl Hh. rewrite split_u32_ok by by apply join_u32_u32.
  rewrite join_u32_eq by done. unfold u16 in *. do 2 f_equal;
    Z.to_euclidean_division_equations; lia.
Qed.

Lemma join_split_u32 v :
  u32 v → ∃ lo hi, split_u32 v = Ok (lo, hi) ∧ u16 lo ∧ u16 hi ∧ join_u32 lo hi = v.
Proof.
  intros H. rewrite split_u32_ok by done. do 2 eexists; split; [done|].
  unfold u32 in H. assert (u16 (v mod 65536)) as Hlo.
  { unfold u16. Z.to_euclidean_division_equations; lia. }
  rewrite join_u32_eq by done. repeat split; try done;
    unfold u16 in *; Z.to_euclidean_division_equations; lia.
Qed.

Lemma split_u32_raises v : raises (split_u32 v) ValueError ↔ ¬ u32 v.
Proof.
  unfold split_u32, u32. case_match; simpl; [|lia]. split; [lia|done].
Qed.

(** ** Sequence numbers *)

Lemma next_sequence_range p q : next_sequence p = Ok q → 1 <= q <= 0xFFFF.
Proof. unfold next_sequence. repeat case_match; intros [= <-]; lia. Qed.

(** The sequence numbers a client uses, starting from [p]. *)
Fixpoint sequence_run (n : nat) (p : Z) : Res Z :=
  match n with O => Ok p | S n => let? q := next_sequence p in sequence_run n q end.

Lemma sequence_run_from n s :
  1 <= s <= 65535 → sequence_run n s = Ok ((s - 1 + Z.of_nat n) mod 65535 + 1).
Proof.
  revert s. induction n as [|n IH]; intros s Hs; cbn [sequence_run].
  - f_equal. rewrite Z.mod_small; lia.
  - unfold next_sequence. replace ((s <? 0) || (s >? 65535)) with false by lia.
    destruct ((s =? 0) || (s =? 65535)) eqn:E.
    + rewrite IH by lia. do 2 f_equal.
      replace (s - 1 + Z.of_nat (S n)) with (1 - 1 + Z.of_nat n + 1 * 65535) by lia.
      by rewrite Z_mod_plus_full.
    + rewrite IH by lia. do 3 f_equal. lia.
Qed.

(** *** Alignment *)

Lemma existsb_unfit ws :
  existsb (λ word, (word <? 0) || (word >? 0xFFFF)) ws = negb (forallb fits_u16 ws).
Proof.
  induction ws as [|w ws IH]; simpl; [done|]. rewrite IH, negb_andb. unfold fits_u16.
  by rewrite negb_involutive.
Qed.

Lemma existsb_unfit_false ws :
  existsb (λ word, (word <? 0) || (word >? 0xFFFF)) ws = false ↔ Forall u16 ws.
Proof.
  rewrite existsb_unfit, negb_false_iff. apply forallb_fits_u16.
Qed.

Lemma validate_write_data_ok ws max :
  validate_write_data ws max = Ok tt ↔
    0 < zlen ws ∧ zlen ws mod 8 = 0 ∧ Forall u16 ws ∧
    match max with None => True | Some m => 0 < m ∧ m mod 8 = 0 ∧ zlen ws <= m end.
Proof.
  unfold validate_write_data, WRITE_DATA_ALIGNMENT_WORDS.
  rewrite <-existsb_unfit_false. pose proof (zlen_nonneg ws).
  destruct (zlen ws =? 0) eqn:E0; [split; [done|lia]|].
  destruct (zlen ws mod 8 =? 0) eqn:E8; simpl; [|split; [done|lia]].
  destruct max as [m|].
  - destruct ((m <=? 0) || negb (m mod 8 =? 0)) eqn:Em; [split; [done|lia]|].
    destruct (zlen ws >? m) eqn:El; [split; [done|lia]|].
    destruct (existsb _ ws); split; try done; [intros [_ [_ [? _]]]; done|]. intros _. lia.
  - destruct (existsb _ ws); split; try done; [intros [_ [_ [? _]]]; done|].
    intros _. repeat split; lia.
Qed.

(** The words [pad_write_data] appends, in closed form. *)
Definition padding (ws : list Z) : list Z :=
  replicate (Z.to_nat ((- zlen ws) mod WRITE_DATA_ALIGNMENT_WORDS)) WRITE_DATA_PAD_WORD.

Lemma padding_length ws : zlen (padding ws) = (- zlen ws) mod 8.
Proof.
  unfold padding, WRITE_DATA_ALIGNMENT_WORDS. rewrite zlen_replicate.
  apply Z2Nat.id, Z.mod_pos_bound. lia.
Qed.

Lemma padded_length ws : zlen (ws ++ padding ws) mod 8 = 0.
Proof.
  rewrite zlen_app, padding_length. pose proof (zlen_nonneg ws).
  Z.to_euclidean_division_equations; lia.
Qed.

Lemma padding_u16 ws : Forall u16 (padding ws).
Proof. apply Forall_replicate. unfold u16, WRITE_DATA_PAD_WORD. lia. Qed.

Lemma pad_write_data_ok_inv ws max out :
  pad_write_data ws max = Ok out →
  0 < zlen ws ∧ Forall u16 ws ∧ out = ws ++ padding ws ∧ validate_write_data out max = Ok tt.
Proof.
  unfold pad_write_data. fold (padding ws). pose proof (zlen_nonneg ws).
  destruct (zlen ws =? 0) eqn:E0; [done|].
  destruct (existsb _ ws) eqn:E; [done|]. apply existsb_unfit_false in E.
  destruct (validate_write_data _ max) as [[]|] eqn:Ev; [|done].
  intros [= <-]. repeat split; try done; lia.
Qed.

Lemma pad_write_data_ok ws max :
  0 < zlen ws → Forall u16 ws →
  match max with None => True | Some m => 0 < m ∧ m mod 8 = 0 ∧ zlen ws <= m end →
  pad_write_data ws max = Ok (ws ++ padding ws).
Proof.
  intros Hlen Hu Hm. unfold pad_write_data. fold (padding ws).
  replace (zlen ws =? 0) with false by lia.
  destruct (existsb _ ws) eqn:E.
  { rewrite existsb_unfit in E. apply forallb_fits_u16 in Hu. by rewrite Hu in E. }
  assert (validate_write_data (ws ++ padding ws) max = Ok tt) as ->; [|done].
  apply validate_write_data_ok. split; [zlen_lia|]. split; [apply padded_length|].
  split; [apply Forall_app; auto using padding_u16|].
  destruct max as [m|]; [|done]. destruct Hm as (? & ? & ?). split; [done|]. split; [done|].
  rewrite zlen_app, padding_length. pose proof (zlen_nonneg ws).
  Z.to_euclidean_division_equations; lia.
Qed.

(** ** Properties *)

(** CRC-32 detects any single corrupted word: two word sequences that
    differ in exactly one position, whatever their length, have different
    [crc32_words] values, and both values are uint32. *)
Theorem crc32_words_detects_word ws1 w w' ws2 :
  Forall u16 (ws1 ++ w :: ws2) → u16 w' → w ≠ w' →
  ∃ c c', crc32_words (ws1 ++ w :: ws2) = Ok c ∧ crc32_words (ws1 ++ w' :: ws2) = Ok c' ∧
    u32 c ∧ u32 c' ∧ c ≠ c'.
Proof.
  intros H Hw' Hne. assert (Forall u16 (ws1 ++ w' :: ws2)) as H'.
  { apply Forall_app in H as [? H]. apply Forall_cons in H as [_ ?].
    apply Forall_app; auto. }
  destruct (crc32_words_u32 _ H) as (c & Ec & Hc), (crc32_words_u32 _ H') as (c' & Ec' & Hc').
  exists c, c'. do 4 (split; [done|]). rewrite crc32_words_fold in Ec, Ec' by done.
  injection Ec as <-. injection Ec' as <-. intros E. apply lxor_cancel_r in E.
  apply Forall_app in H as [? H]. apply Forall_cons in H as [? ?].
  by apply crc32_fold_detect in E.
Qed.

Lemma crc32_words_detects_word_witness :
  ∃ c c', crc32_words [0x1234; 0xFFFF; 7] = Ok c ∧ crc32_words [0x1234; 0xFFFE; 7] = Ok c' ∧
    u32 c ∧ u32 c' ∧ c ≠ c'.
Proof.
  apply (crc32_words_detects_word [0x1234] 0xFFFF 0xFFFE [7]).
  - repeat constructor; unfold u16; lia.
  - unfold u16; lia.
  - lia.
Defined.

(** Sequence numbers are never zero and do not repeat within 65534 consecutive
    requests: from any uint16 start, [next_sequence] always succeeds, yields
    values in 1..65535, and the values after [i] and after [j] requests
    are different when [i < j < i + 65535]; the sequence then wraps, so that
    the value after [i + 65535] requests is again the one after [i]. *)
Theorem next_sequence_fresh p i j :
  u16 p → (0 < i < j)%nat → Z.of_nat j - Z.of_nat i < 65535 →
  ∃ a b, sequence_run i p = Ok a ∧ sequence_run j p = Ok b ∧ a ≠ b ∧
    1 <= a <= 0xFFFF ∧ 1 <= b <= 0xFFFF ∧ sequence_run (i + Z.to_nat 65535) p = Ok a.
Proof.
  intros Hp Hij Hd. destruct (next_sequence p) as [q|] eqn:E.
  2: { unfold next_sequence in E. case_match; [unfold u16 in *; lia|done]. }
  pose proof (next_sequence_range _ _ E) as Hq.
  assert (Hrun : ∀ n, (0 < n)%nat →
    sequence_run n p = Ok ((q - 1 + Z.of_nat (n - 1)) mod 65535 + 1)).
  { intros [|n] Hn; [lia|]. cbn [sequence_run]. rewrite E, sequence_run_from by lia.
    by rewrite Nat.sub_1_r. }
  rewrite !Hrun by lia. do 2 eexists. do 2 (split; [reflexivity|]).
  rewrite !Nat2Z.inj_sub, Nat2Z.inj_add by lia.
  replace (q - 1 + (Z.of_nat i + Z.of_nat (Z.to_nat 65535) - Z.of_nat 1))
    with (q - 1 + (Z.of_nat i - Z.of_nat 1) + 1 * 65535) by (rewrite Z2Nat.id; lia).
  rewrite Z_mod_plus_full. split; [|repeat split; Z.to_euclidean_division_equations; lia].
  Z.to_euclidean_division_equations; lia.
Qed.

Lemma next_sequence_fresh_witness :
  ∃ a b, sequence_run 2 0xFFFF = Ok a ∧ sequence_run 5 0xFFFF = Ok b ∧ a ≠ b ∧
    1 <= a <= 0xFFFF ∧ 1 <= b <= 0xFFFF ∧ sequence_run (2 + Z.to_nat 65535) 0xFFFF = Ok a.
Proof. apply (next_sequence_fresh 0xFFFF 2 5); [unfold u16; lia|lia|lia]. Defined.

(** [pad_write_data] succeeds exactly on non-empty uint16 data whose length
    does not exceed a valid maximum (when one is given), and then returns the
    data followed by fewer than 8 words 0xFFFF, as many as make the length a
    multiple of 8; [validate_write_data] accepts the result. *)
Theorem pad_write_data_spec ws max out :
  pad_write_data ws max = Ok out ↔
    0 < zlen ws ∧ Forall u16 ws ∧
    match max with None => True | Some m => 0 < m ∧ m mod 8 = 0 ∧ zlen ws <= m end ∧
    validate_write_data out max = Ok tt ∧
    ∃ n, 0 <= n < 8 ∧ out = ws ++ replicate (Z.to_nat n) 0xFFFF ∧ zlen out mod 8 = 0.
Proof.
  split.
  - intros H. destruct (pad_write_data_ok_inv _ _ _ H) as (Hl & Hu & -> & Hv).
    split; [done|]. split; [done|]. split; [|split; [done|]].
    + apply validate_write_data_ok in Hv as (_ & _ & _ & Hm). destruct max as [m|]; [|done].
      rewrite zlen_app, padding_length in Hm. pose proof (Z.mod_pos_bound (- zlen ws) 8).
      repeat split; lia.
    + exists ((- zlen ws) mod 8). split; [apply Z.mod_pos_bound; lia|]. split; [done|].
      apply padded_length.
  - intros (Hl & Hu & Hm & _ & n & Hn & -> & H8). rewrite (pad_write_data_ok ws max) by done.
    do 3 f_equal. unfold padding, WRITE_DATA_ALIGNMENT_WORDS. do 2 f_equal.
    rewrite zlen_app, zlen_replicate in H8. Z.to_euclidean_division_equations; lia.
Qed.

(** uint32 values cross the wire unchanged: splitting the join of two uint16
    words gives the words back, joining the halves of a uint32 gives the
    value back, and [split_u32] raises [ValueError] on exactly the other
    integers. *)
Theorem u32_halves_roundtrip lo hi v :
  u16 lo → u16 hi →
  split_u32 (join_u32 lo hi) = Ok (lo, hi) ∧
  (u32 v → ∃ l h, split_u32 v = Ok (l, h) ∧ u16 l ∧ u16 h ∧ join_u32 l h = v) ∧
  (raises (split_u32 v) ValueError ↔ ¬ u32 v).
Proof.
  intros Hl Hh. split; [by apply split_join_u32|]. split; [apply join_split_u32|].
  apply split_u32_raises.
Qed.

Lemma u32_halves_roundtrip_witness : split_u32 (join_u32 0xBEEF 0xDEAD) = Ok (0xBEEF, 0xDEAD).
Proof. apply (u32_halves_roundtrip 0xBEEF 0xDEAD 0); unfold u16; lia. Defined.
