(* ===== verification/Frame.v ===== *)
(** * Frames (protocol/frame.py)

    The frame record with its validating constructor, [encode_words],
    [encode_bytes] and [decode_frame].  [Frame_ok] is the invariant the
    constructor establishes; [decode_frame] accepts exactly the encodings of
    well-formed frames, and therefore rejects every single-word corruption. *)

From S2P Require Import Prelude.
From S2P Require Import Errors.
From S2P Require Import Constants.
From S2P Require Import Words.

Definition word_ (value : Z) (field : string) : Res Z :=
  fail (Err ValueError (Fmt "{} must fit uint16" [VStr field]))
    when (value <? 0) || (value >? 0xFFFF) ;;
  Ok value.

Record Frame : Type := mkFrame {
  fr_packet_type : Z;
  fr_command : Z;
  fr_sequence : Z;
  fr_payload : list Z;
  fr_flags : Z;
  fr_status : Z;
  fr_protocol_version : Z;
}.

(** [Frame.__init__] *)
Definition Frame_init (packet_type command sequence : Z) (payload : list Z)
    (flags status protocol_version : Z) : Res Frame :=
  let? _ := mapR (λ '(name, value), word_ value name)
    [("packet_type"%string, packet_type); ("command"%string, command);
     ("sequence"%string, sequence); ("flags"%string, flags);
     ("status"%string, status); ("protocol_version"%string, protocol_version)] in
  fail (Err ValueError (Lit "sequence 0 is reserved")) when sequence =? 0 ;;
  fail (Err ValueError (Lit "payload is too large for frame header"))
    when zlen payload >? 0xFFFF ;;
  let? _ := mapR (λ value, word_ value "payload word") payload in
  Ok (mkFrame packet_type command sequence payload flags status protocol_version).

Definition header_without_crc (f : Frame) : list Z :=
  [MAGIC0; MAGIC1; fr_protocol_version f; fr_packet_type f; fr_command f;
   fr_sequence f; fr_flags f; fr_status f; zlen (fr_payload f)].

Definition encode_words (f : Frame) : Res (list Z) :=
  let header := header_without_crc f in
  let? header_crc := crc16_words header in
  let? payload_crc := crc16_words (fr_payload f) in
  Ok (header ++ [header_crc] ++ fr_payload f ++ [payload_crc]).

Definition encode_bytes (f : Frame) : Res (list Z) :=
  let? words := encode_words f in words_to_little_endian_bytes words.

Definition decode_frame (values : list Z) (max_payload_words : Z) : Res Frame :=
  fail (Err FrameLengthError (Lit "frame is shorter than header plus payload CRC"))
    when zlen values <? HEADER_WORDS + 1 ;;
  fail (Err FrameError (Lit "bad frame magic"))
    when negb (bool_decide (slice values 0 2 = [MAGIC0; MAGIC1])) ;;
  let? header_crc := crc16_words (slice values 0 9) in
  fail (Err HeaderCrcError (Lit "header CRC mismatch"))
    when negb (header_crc =? at_ values 9) ;;
  let payload_words := at_ values 8 in
  fail (Err FrameLengthError (Lit "payload exceeds configured maximum"))
    when payload_words >? max_payload_words ;;
  let expected_words := HEADER_WORDS + payload_words + 1 in
  fail (Err FrameLengthError (Fmt "frame has {} words; expected {}"
          [VInt (zlen values); VInt expected_words]))
    when negb (zlen values =? expected_words) ;;
  let payload := slice values HEADER_WORDS (zlen values - 1) in
  let? payload_crc := crc16_words payload in
  fail (Err PayloadCrcError (Lit "payload CRC mismatch"))
    when negb (payload_crc =? at_ values (zlen values - 1)) ;;
  match Frame_init (at_ values 3) (at_ values 4) (at_ values 5) payload
          (at_ values 6) (at_ values 7) (at_ values 2) with
  | Ok f => Ok f
  | Raise e => if isinstance e ValueError then Raise (Err FrameError (exn_str e)) else Raise e
  end.

(** ** The invariant of frames *)

Record Frame_ok (f : Frame) : Prop := {
  ok_packet_type : u16 (fr_packet_type f);
  ok_command : u16 (fr_command f);
  ok_sequence : u16 (fr_sequence f);
  ok_sequence_nonzero : fr_sequence f ≠ 0;
  ok_payload : Forall u16 (fr_payload f);
  ok_payload_length : zlen (fr_payload f) <= 0xFFFF;
  ok_flags : u16 (fr_flags f);
  ok_status : u16 (fr_status f);
  ok_protocol_version : u16 (fr_protocol_version f);
}.

Lemma word_ok v s x : word_ v s = Ok x ↔ x = v ∧ u16 v.
Proof.
  unfold word_, u16. destruct (_ || _) eqn:E; split.
  - done.
  - lia.
  - intros [= <-]. lia.
  - intros [-> _]. done.
Qed.

Lemma word_u16 v s : u16 v → word_ v s = Ok v.
Proof. intros. by apply word_ok. Qed.

Lemma mapR_word_ok (g : Z → string) l ys :
  mapR (λ v, word_ v (g v)) l = Ok ys ↔ ys = l ∧ Forall u16 l.
Proof.
  rewrite mapR_Forall2. split.
  - induction 1 as [|x y l ys H _ [-> ?]]; [done|]. apply word_ok in H as [-> ?]. auto.
  - intros [-> H]. induction H; constructor; auto. by apply word_ok.
Qed.

Lemma Frame_init_ok pt c s p fl st pv f :
  Frame_init pt c s p fl st pv = Ok f ↔ f = mkFrame pt c s p fl st pv ∧ Frame_ok f.
Proof.
  unfold Frame_init. split.
  - destruct (mapR _ [_; _; _; _; _; _]) as [l|] eqn:E; [|done].
    apply mapR_Forall2 in E.
    repeat match goal with
    | H : Forall2 _ (_ :: _) _ |- _ =>
        apply Forall2_cons_inv_l in H as (? & ? & ?%word_ok & ? & ->); simplify_eq/=
    end.
    destruct (s =? 0) eqn:Es; [done|]. destruct (zlen p >? 65535) eqn:El; [done|].
    destruct (mapR _ p) as [l'|] eqn:E'; [|done]. apply (mapR_word_ok (λ _, _)) in E'.
    intros [= <-]. split; [done|]. destruct_and?. split; simpl; try done; lia.
  - intros [-> []]; simpl in *.
    cbn [mapR]. rewrite !word_u16 by done.
    replace (s =? 0) with false by lia. replace (zlen p >? 65535) with false by lia.
    by rewrite (proj2 (mapR_word_ok (λ _, "payload word"%string) p p)).
Qed.

Lemma header_u16 f : Frame_ok f → Forall u16 (header_without_crc f).
Proof.
  intros []. pose proof (zlen_nonneg (fr_payload f)).
  unfold header_without_crc. rewrite !Forall_cons.
  repeat split; try assumption; unfold u16, MAGIC0, MAGIC1 in *; lia || constructor.
Qed.

(** The encoding in terms of its four parts. *)
Lemma encode_words_inv f ws :
  encode_words f = Ok ws ↔ ∃ c d, crc16_words (header_without_crc f) = Ok c ∧
    crc16_words (fr_payload f) = Ok d ∧
    ws = header_without_crc f ++ [c] ++ fr_payload f ++ [d].
Proof.
  unfold encode_words.
  destruct (crc16_words (header_without_crc f)) as [c|]; [|split; [done|by intros (? & ? & [=] & _)]].
  destruct (crc16_words (fr_payload f)) as [d|]; [|split; [done|by intros (? & ? & _ & [=] & _)]].
  split; [intros [= <-]; eauto|]. intros (? & ? & [= <-] & [= <-] & ->). done.
Qed.

Lemma encode_words_ok f :
  Frame_ok f → ∃ ws, encode_words f = Ok ws ∧ Forall u16 ws ∧ zlen ws = 11 + zlen (fr_payload f).
Proof.
  intros Hf. destruct (crc16_words_ok _ (header_u16 f Hf)) as [c Hc].
  destruct (crc16_words_ok _ (ok_payload f Hf)) as [d Hd].
  eexists. split; [apply encode_words_inv; eauto|]. split.
  - pose proof (crc16_words_u16 _ _ Hc). pose proof (crc16_words_u16 _ _ Hd).
    apply Forall_app. split; [by apply header_u16|]. constructor; [done|].
    apply Forall_app. split; [apply Hf|]. by constructor.
  - rewrite !zlen_app. unfold header_without_crc. zlen_lia.
Qed.

(** Ten explicit words followed by a payload and one word. *)
Lemma split_frame_words (values : list Z) :
  11 <= zlen values →
  ∃ a0 a1 a2 a3 a4 a5 a6 a7 a8 c p d,
    values = [a0; a1; a2; a3; a4; a5; a6; a7; a8] ++ [c] ++ p ++ [d].
Proof.
  unfold zlen. intros H.
  do 10 (destruct values as [|? values]; simpl in H; [lia|]).
  destruct values as [|d values _] using rev_ind; simpl in H; [lia|].
  do 12 eexists. simpl. done.
Qed.

Lemma slice_middle {A} (h p : list A) d :
  slice (h ++ p ++ [d]) (zlen h) (zlen (h ++ p ++ [d]) - 1) = p.
Proof.
  unfold slice, zlen. rewrite !length_app. simpl.
  rewrite Nat2Z.id, drop_app_length.
  replace (Z.to_nat _ - length h)%nat with (length p) by lia. apply take_app_length.
Qed.

Lemma at_last h d : at_ (h ++ [d]) (zlen (h ++ [d]) - 1) = d.
Proof.
  unfold at_, zlen. rewrite length_app. simpl length.
  replace (Z.to_nat (Z.of_nat (length h + 1) - 1)) with (length h) by lia.
  by rewrite nth_middle.
Qed.

(** [decode_frame] accepts exactly the encodings of well-formed frames. *)
Lemma decode_frame_ok values max f :
  decode_frame values max = Ok f ↔
    Frame_ok f ∧ zlen (fr_payload f) <= max ∧ encode_words f = Ok values.
Proof.
  destruct (decide (zlen values < 11)) as [Hs|Hs].
  { split.
    - unfold decode_frame, HEADER_WORDS. by replace (zlen values <? 10 + 1) with true by lia.
    - intros (Hf & _ & E). destruct (encode_words_ok f Hf) as (ws & E' & _ & Hl).
      pose proof (zlen_nonneg (fr_payload f)).
      rewrite E in E'. injection E' as ->. lia. }
  destruct (split_frame_words values ltac:(lia))
    as (a0 & a1 & a2 & a3 & a4 & a5 & a6 & a7 & a8 & c & p & d & ->).
  set (h := [a0; a1; a2; a3; a4; a5; a6; a7; a8]).
  set (ws := h ++ [c] ++ p ++ [d]) in *.
  assert (slice ws 10 (zlen ws - 1) = p) as Hp
    by exact (slice_middle [a0; a1; a2; a3; a4; a5; a6; a7; a8; c] p d).
  assert (at_ ws (zlen ws - 1) = d) as Hd
    by exact (at_last ([a0; a1; a2; a3; a4; a5; a6; a7; a8; c] ++ p) d).
  assert (zlen ws = 11 + zlen p) as Hl by (unfold ws, h; zlen_lia).
  pose proof (zlen_nonneg p).
  unfold decode_frame, HEADER_WORDS. rewrite Hp, Hd, Hl.
  change (slice ws 0 9) with h. change (slice ws 0 2) with [a0; a1].
  change (at_ ws 9) with c. change (at_ ws 8) with a8. change (at_ ws 7) with a7.
  change (at_ ws 6) with a6. change (at_ ws 5) with a5. change (at_ ws 4) with a4.
  change (at_ ws 3) with a3. change (at_ ws 2) with a2.
  rewrite encode_words_inv. replace (11 + zlen p <? 10 + 1) with false by lia.
  split.
  - case_bool_decide as Em; [|done]. simpl.
    destruct (crc16_words h) as [c'|] eqn:Ec; [|done].
    destruct (c' =? c) eqn:Ecc; [|done]. simpl.
    destruct (a8 >? max) eqn:E8; [done|]. simpl.
    destruct (11 + zlen p =? 10 + a8 + 1) eqn:El; [|done]. simpl.
    destruct (crc16_words p) as [d'|] eqn:Ed; [|done].
    destruct (d' =? d) eqn:Edd; [|done]. simpl.
    destruct (Frame_init a3 a4 a5 p a6 a7 a2) as [f'|] eqn:Ef; [|by case_match].
    intros [= ->]. apply Frame_init_ok in Ef as [-> Hok]. simpl.
    split; [done|]. split; [lia|]. exists c', d'.
    injection Em as -> ->.
    assert (zlen p = a8) as Ha8 by (clear - El; lia).
    apply Z.eqb_eq in Ecc, Edd. unfold header_without_crc. simpl. rewrite Ha8.
    split; [done|]. split; [done|]. unfold ws, h. by rewrite Ecc, Edd.
  - intros (Hok & Hmax & c' & d' & Ec & Ed & E). destruct f as [pt co se pa fl st pv].
    unfold header_without_crc in *. cbn in Hmax, Ec, Ed, E.
    injection E as -> -> -> -> -> -> -> -> -> -> E. apply app_inj_tail in E as [-> ->].
    unfold h. rewrite Ec, Ed, !Z.eqb_refl, bool_decide_true by done. cbn [negb].
    replace (zlen pa >? max) with false by (clear - Hmax; lia).
    replace (11 + zlen pa =? 10 + zlen pa + 1) with true by (clear; lia). cbn [negb].
    by rewrite (proj2 (Frame_init_ok _ _ _ _ _ _ _ _) (conj eq_refl Hok)).
Qed.

(** Two lists that differ in one word, cut at the same place. *)
Lemma differ_split {A} (a b a' b' ws1 ws2 : list A) w w' :
  length a = length a' →
  a ++ b = ws1 ++ w :: ws2 → a' ++ b' = ws1 ++ w' :: ws2 →
  (∃ k, a = ws1 ++ w :: k ∧ a' = ws1 ++ w' :: k) ∨
  (a = a' ∧ ∃ k, b = k ++ w :: ws2 ∧ b' = k ++ w' :: ws2).
Proof.
  revert a a'. induction ws1 as [|v ws1 IH]; intros a a' Hl E E'.
  - destruct a as [|x a], a' as [|x' a']; try done; simpl in *.
    + right. split; [done|]. by exists [].
    + left. exists a. injection E as -> E. injection E' as -> E'. injection Hl as Hl.
      rewrite <-E in E'. split; [done|]. f_equal. by apply app_inj_1 in E' as [-> _].
  - destruct a as [|x a], a' as [|x' a']; try done; simpl in *.
    + right. split; [done|]. by exists (v :: ws1).
    + injection Hl as Hl. injection E as -> E. injection E' as -> E'.
      destruct (IH a a' Hl E E') as [(k & -> & ->)|(-> & k & -> & ->)]; [left|right]; eauto.
Qed.

(** A block of words followed by its CRC-16 does not survive the corruption of one word. *)
Lemma crc_block_detect l d l' d' ws1 ws2 w w' :
  Forall u16 l → Forall u16 l' → crc16_words l = Ok d → crc16_words l' = Ok d' →
  length l = length l' →
  l ++ [d] = ws1 ++ w :: ws2 → l' ++ [d'] = ws1 ++ w' :: ws2 → w = w'.
Proof.
  intros Hl Hl' Hd Hd' Hlen E E'.
  rewrite crc16_words_fold in Hd, Hd' by done. injection Hd as <-. injection Hd' as <-.
  destruct (differ_split _ _ _ _ _ _ _ _ Hlen E E') as [(k & -> & ->)|(-> & k & Ek & Ek')].
  - destruct (decide (w = w')) as [|Hne]; [done|]. exfalso.
    rewrite <-!(assoc_L (++)) in E, E'. apply app_inv_head in E, E'.
    injection E as E. injection E' as E'. rewrite <-E in E'. apply app_inv_head in E'.
    injection E' as E'. symmetry in E'. revert E'.
    apply Forall_app in Hl as [H1 [Hw H2]%Forall_cons], Hl' as [_ [Hw' _]%Forall_cons].
    by apply crc16_fold_detect.
  - assert (length ([foldl crc16_word 65535 l'] : list Z) = length (k ++ w :: ws2)) as Hk
      by by rewrite <-Ek.
    destruct k; [|rewrite length_app in Hk; simpl in Hk; lia]. simplify_eq/=. congruence.
Qed.

(** ** Properties *)

(** C13: Decoding inverts encoding and accepts nothing else: [decode_frame] returns
    [f] exactly when [f] is a frame its constructor admits, its payload is within
    the maximum, and the words are [f]'s own encoding. *)
Theorem decode_encode_frame pt c s p fl st pv values max f :
  Frame_init pt c s p fl st pv = Ok f →
  (∃ ws, encode_words f = Ok ws ∧ Forall u16 ws ∧ zlen ws = HEADER_WORDS + zlen p + 1) ∧
  (decode_frame values max = Ok f ↔ encode_words f = Ok values ∧ zlen p <= max) ∧
  (∀ g, decode_frame values max = Ok g → Frame_ok g ∧ encode_words g = Ok values).
Proof.
  intros [-> Hf]%Frame_init_ok. split; [|split].
  - destruct (encode_words_ok _ Hf) as (ws & E & Hu & Hl). exists ws. simpl in Hl.
    split; [done|]. split; [done|]. unfold HEADER_WORDS. lia.
  - rewrite decode_frame_ok. simpl. tauto.
  - intros g (Hg & _ & E)%decode_frame_ok. done.
Qed.

Definition frame_example : Frame := mkFrame 1 0x0011 7 [0x1234; 0xFFFF] 0 0 1.

Lemma decode_encode_frame_witness :
  Frame_init 1 0x0011 7 [0x1234; 0xFFFF] 0 0 1 = Ok frame_example ∧
  ∃ ws, encode_words frame_example = Ok ws ∧ decode_frame ws 256 = Ok frame_example.
Proof.
  split; [reflexivity|]. eexists. split; [vm_compute; reflexivity|].
  eapply (decode_encode_frame 1 0x0011 7 [0x1234; 0xFFFF] 0 0 1); [reflexivity|].
  split; [vm_compute; reflexivity|done].
Defined.

(** Every single-word corruption of a frame is rejected: changing any one word
    of an encoded frame, header, payload or checksum, makes [decode_frame] raise. *)
Theorem corrupted_frame_rejected f ws1 w w' ws2 max g :
  Frame_ok f → encode_words f = Ok (ws1 ++ w :: ws2) → w ≠ w' →
  decode_frame (ws1 ++ w' :: ws2) max ≠ Ok g.
Proof.
  intros Hf E Hne (Hg & _ & E')%decode_frame_ok. apply Hne.
  apply encode_words_inv in E as (c & d & Ec & Ed & E).
  apply encode_words_inv in E' as (c' & d' & Ec' & Ed' & E').
  assert (length (fr_payload f) = length (fr_payload g)) as Hp.
  { apply (f_equal length) in E, E'. rewrite !length_app in E, E'. simpl in E, E'. lia. }
  rewrite (assoc_L (++)) in E, E'. symmetry in E, E'.
  destruct (differ_split (header_without_crc f ++ [c]) _ (header_without_crc g ++ [c']) _
    _ _ _ _ eq_refl E E') as [(k & Ek & Ek')|(_ & k & Ek & Ek')].
  - eapply crc_block_detect; [| |exact Ec|exact Ec'|..]; eauto using header_u16.
  - eapply crc_block_detect; [| |exact Ed|exact Ed'|..]; eauto using ok_payload.
Qed.

Lemma corrupted_frame_rejected_witness :
  ∃ ws, encode_words frame_example = Ok ([MAGIC0; MAGIC1] ++ 1 :: ws) ∧
    ∀ g, decode_frame ([MAGIC0; MAGIC1] ++ 3 :: ws) 0xFFFF ≠ Ok g.
Proof.
  eexists. split; [vm_compute; reflexivity|]. intros g.
  apply (corrupted_frame_rejected frame_example [MAGIC0; MAGIC1] 1 3).
  - by apply (proj1 (Frame_init_ok 1 0x0011 7 [0x1234; 0xFFFF] 0 0 1 frame_example)).
  - vm_compute; reflexivity.
  - done.
Defined.
