(* ===== verification/Resync.v ===== *)
(** * The resynchronising word reader (protocol/resync.py)

    [ResyncReader] keeps a buffer of words and a list of errors; [feed]
    appends words and extracts frames, discarding malformed candidates.
    The [while] loop of [_extract] runs on fuel; one unit more than the
    length of the buffer is always enough, because every iteration that does
    not leave the loop removes a word. *)

From S2P Require Import Prelude.
From S2P Require Import Errors.
From S2P Require Import Constants.
From S2P Require Import Words.
From S2P Require Import Frame.

Record ResyncReader : Type := mkReader {
  rs_max_payload_words : Z;
  rs_buffer : list Z;
  rs_errors : list Exn;
}.

(** [ResyncReader.__init__] *)
Definition ResyncReader_init (max_payload_words : Z) : Res ResyncReader :=
  fail (Err ValueError (Lit "max_payload_words must fit uint16"))
    when (max_payload_words <? 0) || (max_payload_words >? 0xFFFF) ;;
  Ok (mkReader max_payload_words [] []).

Definition rs_set_buffer (buf : list Z) (r : ResyncReader) : ResyncReader :=
  mkReader (rs_max_payload_words r) buf (rs_errors r).
Definition rs_add_error (e : Exn) (r : ResyncReader) : ResyncReader :=
  mkReader (rs_max_payload_words r) (rs_buffer r) (rs_errors r ++ [e]).

(** The first [index] with [buffer[index : index + 2] == [MAGIC0, MAGIC1]]. *)
Fixpoint find_magic (buf : list Z) : option nat :=
  match buf with
  | a :: (b :: _) as rest =>
      if (a =? MAGIC0) && (b =? MAGIC1) then Some O else S <$> find_magic rest
  | _ => None
  end.

(** [_seek_magic]: the answer and the buffer it leaves. *)
Definition seek_magic (buf : list Z) : bool * list Z :=
  match find_magic buf with
  | Some index => (true, drop index buf)
  | None =>
      match last buf with
      | Some w => if w =? MAGIC0 then (false, [MAGIC0]) else (false, [])
      | None => (false, [])
      end
  end.

(** How one iteration of the [while] loop of [_extract] ends. *)
Inductive Iteration : Type :=
| Break (r : ResyncReader)
| Continue (r : ResyncReader) (frames : list Frame)
| Propagate (e : Exn) (r : ResyncReader).

Definition extract_step (r : ResyncReader) : Iteration :=
  let '(found, buf) := seek_magic (rs_buffer r) in
  let r := rs_set_buffer buf r in
  if negb found then Break r else
  if zlen buf <? HEADER_WORDS then Break r else
  match crc16_words (slice buf 0 9) with
  | Raise e => Propagate e r
  | Ok crc =>
      if negb (crc =? at_ buf 9) then
        Continue (rs_set_buffer (drop 1 buf)
          (rs_add_error (Err FrameError (Lit "header CRC mismatch during resync")) r)) []
      else
      let payload_words := at_ buf 8 in
      if payload_words >? rs_max_payload_words r then
        Continue (rs_set_buffer (drop 1 buf)
          (rs_add_error (Err FrameError
             (Lit "payload exceeds configured maximum during resync")) r)) []
      else
      let total_words := HEADER_WORDS + payload_words + 1 in
      if zlen buf <? total_words then Break r else
      let candidate := slice buf 0 total_words in
      let r := rs_set_buffer (slice_from buf total_words) r in
      match decode_frame candidate (rs_max_payload_words r) with
      | Ok frame => Continue r [frame]
      | Raise e =>
          if isinstance e PayloadCrcError then Continue (rs_add_error e r) []
          else if isinstance e FrameError then Continue (rs_add_error e r) []
          else Propagate e r
      end
  end.

(** [_extract]; [None] when the fuel does not suffice. *)
Fixpoint extract (fuel : nat) (r : ResyncReader) : option (Res (list Frame) * ResyncReader) :=
  match fuel with
  | O => None
  | S fuel =>
      match extract_step r with
      | Break r => Some (Ok [], r)
      | Propagate e r => Some (Raise e, r)
      | Continue r frames =>
          match extract fuel r with
          | Some (Ok more, r) => Some (Ok (frames ++ more), r)
          | other => other
          end
      end
  end.

(** The [for] loop of [feed]: words before a bad one stay in the buffer. *)
Fixpoint append_words (words : list Z) (r : ResyncReader) : Res unit * ResyncReader :=
  match words with
  | [] => (Ok tt, r)
  | word :: words =>
      if (word <? 0) || (word >? 0xFFFF)
      then (Raise (Err ValueError (Lit "stream words must fit uint16")), r)
      else append_words words (rs_set_buffer (rs_buffer r ++ [word]) r)
  end.

Definition feed (words : list Z) (r : ResyncReader)
    : option (Res (list Frame) * ResyncReader) :=
  match append_words words r with
  | (Raise e, r) => Some (Raise e, r)
  | (Ok _, r) => extract (S (length (rs_buffer r))) r
  end.

(** ** Seeking the magic pair *)

Lemma find_magic_cons a b buf :
  find_magic (a :: b :: buf) =
    if (a =? MAGIC0) && (b =? MAGIC1) then Some O else S <$> find_magic (b :: buf).
Proof. done. Qed.

(** Case analysis along [find_magic buf = Some i]. *)
Lemma find_magic_ind (P : list Z → nat → Prop) :
  (∀ rest, P (MAGIC0 :: MAGIC1 :: rest) O) →
  (∀ a b buf j, (a =? MAGIC0) && (b =? MAGIC1) = false →
    find_magic (b :: buf) = Some j → P (b :: buf) j → P (a :: b :: buf) (S j)) →
  ∀ buf i, find_magic buf = Some i → P buf i.
Proof.
  intros H0 HS buf. induction buf as [|a [|b buf] IH]; intros i; [discriminate..|].
  rewrite find_magic_cons. destruct ((a =? MAGIC0) && (b =? MAGIC1)) eqn:Em.
  - intros [= <-]. apply andb_prop in Em as [->%Z.eqb_eq ->%Z.eqb_eq]. apply H0.
  - destruct (find_magic (b :: buf)) as [j|] eqn:E; [|discriminate].
    intros [= <-]. apply HS; auto.
Qed.

Lemma find_magic_lt buf i : find_magic buf = Some i → (S i < length buf)%nat.
Proof.
  revert buf i. apply find_magic_ind; [intros; simpl; lia|].
  intros a b buf j _ _ H. simpl in *. lia.
Qed.

Lemma find_magic_Some buf i :
  find_magic buf = Some i → ∃ rest, drop i buf = MAGIC0 :: MAGIC1 :: rest.
Proof.
  revert buf i. apply find_magic_ind; [eauto|]. intros a b buf j _ _ H. exact H.
Qed.

Lemma find_magic_app buf i b : find_magic buf = Some i → find_magic (buf ++ b) = Some i.
Proof.
  revert buf i. apply find_magic_ind; [done|]. intros a c buf j Em _ IH.
  cbn [app] in *. by rewrite find_magic_cons, Em, IH.
Qed.

Lemma find_magic_here rest : find_magic (MAGIC0 :: MAGIC1 :: rest) = Some O.
Proof. done. Qed.

Lemma seek_magic_true buf buf' :
  seek_magic buf = (true, buf') →
  ∃ rest, buf' = MAGIC0 :: MAGIC1 :: rest ∧ buf' `suffix_of` buf ∧ (length buf' <= length buf)%nat.
Proof.
  unfold seek_magic. destruct (find_magic buf) as [i|] eqn:E; [|by repeat case_match].
  intros [= <-]. apply find_magic_Some in E as [rest E']. exists rest.
  split; [done|]. split; [|rewrite length_drop; lia].
  exists (take i buf). by rewrite take_drop.
Qed.

Lemma seek_magic_true_app buf buf' b :
  seek_magic buf = (true, buf') → seek_magic (buf ++ b) = (true, buf' ++ b).
Proof.
  unfold seek_magic. destruct (find_magic buf) as [i|] eqn:E; [|by repeat case_match].
  intros [= <-]. rewrite (find_magic_app _ _ _ E).
  apply find_magic_lt in E. by rewrite drop_app_le by lia.
Qed.

Lemma seek_magic_skip a c l :
  (a =? MAGIC0) && (c =? MAGIC1) = false → seek_magic (a :: c :: l) = seek_magic (c :: l).
Proof.
  intros Ha. unfold seek_magic. rewrite find_magic_cons, Ha. cbn [last].
  by destruct (find_magic (c :: l)).
Qed.

Lemma seek_magic_false_app buf buf' b :
  seek_magic buf = (false, buf') → seek_magic (buf ++ b) = seek_magic (buf' ++ b).
Proof.
  induction buf as [|a [|c l] IH]; intros E.
  - by injection E as <-.
  - unfold seek_magic in E. cbn in E. destruct (a =? MAGIC0) eqn:Ea; injection E as <-.
    + by apply Z.eqb_eq in Ea as ->.
    + destruct b as [|c b]; [unfold seek_magic; cbn; by rewrite Ea|].
      apply seek_magic_skip. by rewrite Ea.
  - assert ((a =? MAGIC0) && (c =? MAGIC1) = false) as Ha.
    { unfold seek_magic in E. rewrite find_magic_cons in E.
      by destruct ((a =? MAGIC0) && (c =? MAGIC1)). }
    rewrite seek_magic_skip in E by done. rewrite <-IH by done.
    by apply seek_magic_skip.
Qed.

Lemma seek_magic_false buf buf' :
  seek_magic buf = (false, buf') → buf' = [] ∨ (buf' = [MAGIC0] ∧ MAGIC0 ∈ buf).
Proof.
  unfold seek_magic. destruct (find_magic buf); [done|].
  destruct (last buf) as [w|] eqn:E; [|intros [= <-]; auto].
  destruct (w =? MAGIC0) eqn:Ew; intros [= <-]; [right|auto].
  apply Z.eqb_eq in Ew as ->. split; [done|]. apply last_Some in E as [l ->]. set_solver.
Qed.

(** ** One iteration *)

Definition rs_app (r : ResyncReader) (b : list Z) : ResyncReader :=
  rs_set_buffer (rs_buffer r ++ b) r.

Record Reader_ok (r : ResyncReader) : Prop := {
  reader_max : 0 <= rs_max_payload_words r <= 0xFFFF;
  reader_words : Forall u16 (rs_buffer r);
}.

(** What is left once the loop has stopped: less than one maximal frame. *)
Definition residual_ok (r : ResyncReader) : Prop :=
  zlen (rs_buffer r) < HEADER_WORDS + rs_max_payload_words r + 1.

Lemma slice_app_le {A} (l b : list A) x y :
  0 <= y <= zlen l → slice (l ++ b) x y = slice l x y.
Proof.
  unfold slice, zlen. intros H. destruct (decide (Z.to_nat x <= Z.to_nat y)%nat).
  - rewrite drop_app_le by lia. rewrite take_app_le; [done|]. rewrite length_drop. lia.
  - replace (Z.to_nat y - Z.to_nat x)%nat with 0%nat by lia. by rewrite !take_0.
Qed.

Lemma slice_from_app_le {A} (l b : list A) x :
  0 <= x <= zlen l → slice_from (l ++ b) x = slice_from l x ++ b.
Proof. unfold slice_from, zlen. intros H. apply drop_app_le. lia. Qed.

Lemma mapR_raises {A B} (f : A → Res B) l e :
  mapR f l = Raise e → ∃ x, x ∈ l ∧ f x = Raise e.
Proof.
  induction l as [|x l IH]; simpl; [done|]. destruct (f x) as [y|e'] eqn:E.
  - destruct (mapR f l); [done|]. intros [= ->]. destruct IH as (z & ? & ?); [done|].
    exists z. by split; [right|].
  - intros [= ->]. exists x. by split; [left|].
Qed.

Lemma word_raises v s e : word_ v s = Raise e → isinstance e ValueError = true.
Proof. unfold word_. case_match; [|done]. by intros [= <-]. Qed.

Lemma Frame_init_raises pt c s p fl st pv e :
  Frame_init pt c s p fl st pv = Raise e → isinstance e ValueError = true.
Proof.
  unfold Frame_init. destruct (mapR _ [_; _; _; _; _; _]) as [l|e'] eqn:E.
  - case_match; [by intros [= <-]|]. case_match; [by intros [= <-]|].
    destruct (mapR _ p) eqn:E'; [done|]. intros [= ->].
    apply mapR_raises in E' as (x & _ & E'). by eapply word_raises.
  - intros [= ->]. apply mapR_raises in E as ([n v] & _ & E). by eapply word_raises.
Qed.

(** A decoded candidate raises only [FrameError]s. *)
Lemma decode_frame_raises values max e :
  Forall u16 values → decode_frame values max = Raise e → isinstance e FrameError = true.
Proof.
  intros Hu. unfold decode_frame.
  destruct (crc16_words_ok (slice values 0 9) ltac:(auto with py)) as [c ->].
  destruct (crc16_words_ok (slice values HEADER_WORDS (zlen values - 1)) ltac:(auto with py))
    as [d ->].
  do 6 (case_match; [intros [= <-]; reflexivity|]).
  destruct (Frame_init _ _ _ _ _ _ _) eqn:E; [done|].
  apply Frame_init_raises in E as ->. by intros [= <-].
Qed.

Lemma rs_set_app buf b r : rs_app (rs_set_buffer buf r) b = rs_set_buffer (buf ++ b) r.
Proof. done. Qed.

Lemma Reader_ok_set buf r : Reader_ok r → Forall u16 buf → Reader_ok (rs_set_buffer buf r).
Proof. intros [] ?. by split. Qed.

Lemma seek_magic_u16 buf : Forall u16 buf → Forall u16 (seek_magic buf).2.
Proof.
  intros H. unfold seek_magic. repeat case_match; simpl; auto; [by apply Forall_drop|].
  repeat constructor; unfold MAGIC0; lia.
Qed.

(** What an iteration does to a well-formed reader: it never lets an
    exception escape; when it leaves the loop less than one maximal frame is
    buffered; when it goes on the buffer has become shorter. *)
Lemma extract_step_spec r :
  Reader_ok r →
  match extract_step r with
  | Break r' => Reader_ok r' ∧ residual_ok r' ∧ rs_max_payload_words r' = rs_max_payload_words r
  | Continue r' fs => Reader_ok r' ∧ rs_max_payload_words r' = rs_max_payload_words r ∧
      (length (rs_buffer r') < length (rs_buffer r))%nat ∧
      Forall (λ f, Frame_ok f ∧ zlen (fr_payload f) <= rs_max_payload_words r) fs
  | Propagate _ _ => False
  end.
Proof.
  intros Hok. pose proof Hok as [Hmax Hw]. unfold extract_step, HEADER_WORDS.
  pose proof (seek_magic_u16 _ Hw) as Hb. destruct (seek_magic (rs_buffer r)) as [found buf] eqn:Es.
  simpl in Hb. destruct found; simpl.
  2: { apply seek_magic_false in Es as Hcases. split; [by apply Reader_ok_set|]. split; [|done].
       unfold residual_ok, HEADER_WORDS. simpl. destruct Hcases as [->|[-> _]]; unfold zlen; simpl; lia. }
  apply seek_magic_true in Es as (rest & Ebuf & _ & Hlen).
  assert (0 < length buf)%nat as Hpos by (subst; simpl; lia).
  destruct (zlen buf <? 10) eqn:E10.
  { split; [by apply Reader_ok_set|]. split; [|done]. unfold residual_ok, HEADER_WORDS. simpl. lia. }
  destruct (crc16_words_ok (slice buf 0 9) ltac:(auto with py)) as [c ->].
  assert (Hdrop : Reader_ok (rs_set_buffer (drop 1 buf) r) ∧ (length (drop 1 buf) < length (rs_buffer r))%nat).
  { split; [apply Reader_ok_set; auto using Forall_drop|]. rewrite length_drop. lia. }
  destruct Hdrop as [Hd1 Hd2].
  destruct (negb (c =? at_ buf 9)); [split; [split; apply Hd1|]; split; [done|]; split; [exact Hd2|by constructor]|].
  destruct (at_ buf 8 >? rs_max_payload_words r) eqn:E8; [split; [split; apply Hd1|]; split; [done|]; split; [exact Hd2|by constructor]|].
  pose proof (at_u16 buf 8 Hb) as H8. unfold u16 in H8.
  destruct (zlen buf <? 10 + at_ buf 8 + 1) eqn:Et.
  { split; [by apply Reader_ok_set|]. split; [|done].
    unfold residual_ok, HEADER_WORDS. simpl in *. lia. }
  set (tot := 10 + at_ buf 8 + 1) in *.
  assert (Hs : Reader_ok (rs_set_buffer (slice_from buf tot) r)) by (apply Reader_ok_set; auto with py).
  assert (Hs2 : (length (slice_from buf tot) < length (rs_buffer r))%nat).
  { unfold slice_from. rewrite length_drop. lia. }
  destruct (decode_frame (slice buf 0 tot) _) as [f|e] eqn:Ed.
  - apply decode_frame_ok in Ed as (Hf & Hfl & _). do 3 (split; [done|]). constructor; [|done]. done.
  - apply decode_frame_raises in Ed as He; [|auto with py]. rewrite He.
    destruct (isinstance e PayloadCrcError); (split; [split; apply Hs|]; split; [done|]; split; [exact Hs2|by constructor]).
Qed.

(** An iteration that goes on, or that propagates an exception, does the same
    when more words are already in the buffer. *)
Lemma extract_step_app r b r' fs :
  Reader_ok r → extract_step r = Continue r' fs →
  extract_step (rs_app r b) = Continue (rs_app r' b) fs.
Proof.
  intros [Hmax Hw]. unfold extract_step, HEADER_WORDS. simpl.
  pose proof (seek_magic_u16 _ Hw) as Hb.
  destruct (seek_magic (rs_buffer r)) as [[] buf] eqn:Es; simpl; [|done].
  rewrite (seek_magic_true_app _ _ b Es). simpl in *.
  apply seek_magic_true in Es as (rest & Ebuf & _ & _).
  assert (0 < length buf)%nat as Hpos by (subst; simpl; lia).
  destruct (zlen buf <? 10) eqn:E10; [done|].
  pose proof (at_u16 buf 8 Hb) as H8. unfold u16 in H8.
  rewrite zlen_app. pose proof (zlen_nonneg b).
  replace (zlen buf + zlen b <? 10) with false by lia.
  rewrite slice_app_le, !at_app_l by lia. rewrite drop_app_le by lia.
  destruct (crc16_words _) as [c|]; [|done].
  case_match; [by intros [= <- <-]|]. case_match; [by intros [= <- <-]|].
  destruct (zlen buf <? 10 + at_ buf 8 + 1) eqn:Et; [done|].
  replace (zlen buf + zlen b <? 10 + at_ buf 8 + 1) with false by lia.
  rewrite slice_app_le, slice_from_app_le by lia.
  repeat case_match; intros; simplify_eq; done.
Qed.

(** An iteration that leaves the loop has no effect on later ones: they find
    the same buffer once more words have arrived. *)
Lemma extract_step_break_app r b r' :
  Reader_ok r → extract_step r = Break r' → extract_step (rs_app r b) = extract_step (rs_app r' b).
Proof.
  intros [Hmax Hw]. unfold extract_step, HEADER_WORDS. simpl.
  destruct (seek_magic (rs_buffer r)) as [found buf] eqn:Es; simpl. destruct found; simpl.
  2: { intros [= <-]. simpl. by rewrite (seek_magic_false_app _ _ b Es). }
  assert (seek_magic buf = (true, buf)) as Es'.
  { apply seek_magic_true in Es as (rest & -> & _). done. }
  intros E. assert (r' = rs_set_buffer buf r) as ->.
  { revert E. repeat case_match; intros; simplify_eq; done. }
  simpl. by rewrite (seek_magic_true_app _ _ b Es), (seek_magic_true_app _ _ b Es').
Qed.

(** ** The loop *)

Lemma extract_mono r x fuel fuel' :
  (fuel <= fuel')%nat → extract fuel r = Some x → extract fuel' r = Some x.
Proof.
  revert r x fuel'. induction fuel as [|fuel IH]; intros r x [|fuel'] Hle; try done; [lia|].
  cbn [extract]. destruct (extract_step r) as [r'|r' fs|e r']; try done.
  destruct (extract fuel r') as [y|] eqn:E; [|done].
  by rewrite (IH _ _ fuel' ltac:(lia) E).
Qed.

Lemma extract_total fuel r :
  Reader_ok r → (length (rs_buffer r) < fuel)%nat →
  ∃ fs r', extract fuel r = Some (Ok fs, r') ∧ Reader_ok r' ∧ residual_ok r' ∧
    rs_max_payload_words r' = rs_max_payload_words r ∧
    Forall (λ f, Frame_ok f ∧ zlen (fr_payload f) <= rs_max_payload_words r) fs.
Proof.
  revert r. induction fuel as [|fuel IH]; intros r Hr Hl; [lia|]. cbn [extract].
  pose proof (extract_step_spec r Hr) as Hs. destruct (extract_step r) as [r'|r' fs|e r'].
  - destruct Hs as (? & ? & ?). exists [], r'. auto.
  - destruct Hs as (Hr' & Hm & Hl' & Hfs).
    destruct (IH r' Hr' ltac:(lia)) as (gs & r'' & -> & ? & ? & Hm' & Hgs).
    exists (fs ++ gs), r''. rewrite Hm in Hgs, Hm'. do 4 (split; [done|]). by apply Forall_app.
  - done.
Qed.

Lemma extract_app fuel fuel2 r b fs r1 gs r2 :
  Reader_ok r → extract fuel r = Some (Ok fs, r1) →
  extract fuel2 (rs_app r1 b) = Some (Ok gs, r2) →
  extract (fuel + fuel2) (rs_app r b) = Some (Ok (fs ++ gs), r2).
Proof.
  revert r fs. induction fuel as [|fuel IH]; intros r fs Hr; [done|].
  cbn [extract plus]. pose proof (extract_step_spec r Hr) as Hs.
  destruct (extract_step r) as [r'|r' fs'|e r'] eqn:Es.
  - intros [= <- <-] E2. rewrite (extract_step_break_app _ b _ Hr Es).
    apply (extract_mono _ _ _ (S (fuel + fuel2))) in E2; [exact E2|lia].
  - destruct Hs as (Hr' & _). destruct (extract fuel r') as [[[fs''|] r'']|] eqn:E; try done.
    intros [= <- ->] E2. rewrite (extract_step_app _ b _ _ Hr Es).
    by rewrite (IH _ _ Hr' E E2), (assoc_L (++)).
  - done.
Qed.

Lemma append_words_ok ws r : Forall u16 ws → append_words ws r = (Ok tt, rs_app r ws).
Proof.
  intros H. revert r. induction H as [|w ws Hw _ IH]; intros r; cbn [append_words].
  - destruct r. unfold rs_app, rs_set_buffer. simpl. by rewrite app_nil_r.
  - unfold u16 in Hw. replace ((w <? 0) || (w >? 65535)) with false by lia.
    rewrite IH. unfold rs_app. simpl. by rewrite <-(assoc_L (++)).
Qed.

Lemma rs_app_ok r ws : Reader_ok r → Forall u16 ws → Reader_ok (rs_app r ws).
Proof. intros Hr Hw. apply Reader_ok_set; [done|]. apply Forall_app. split; [apply Hr|done]. Qed.

Lemma feed_ok ws r :
  Reader_ok r → Forall u16 ws →
  ∃ fs r', feed ws r = Some (Ok fs, r') ∧ Reader_ok r' ∧ residual_ok r' ∧
    rs_max_payload_words r' = rs_max_payload_words r ∧
    Forall (λ f, Frame_ok f ∧ zlen (fr_payload f) <= rs_max_payload_words r) fs.
Proof.
  intros Hr Hw. unfold feed. rewrite append_words_ok by done.
  destruct (extract_total (S (length (rs_buffer (rs_app r ws)))) (rs_app r ws))
    as (fs & r' & E & H); [by apply rs_app_ok|lia|]. by exists fs, r'.
Qed.

Lemma rs_app_app r a b : rs_app (rs_app r a) b = rs_app r (a ++ b).
Proof. unfold rs_app. simpl. by rewrite (assoc_L (++)). Qed.

Lemma feed_app a b r :
  Reader_ok r → Forall u16 a → Forall u16 b →
  ∃ fs gs r1 r2, feed a r = Some (Ok fs, r1) ∧ feed b r1 = Some (Ok gs, r2) ∧
    feed (a ++ b) r = Some (Ok (fs ++ gs), r2).
Proof.
  intros Hr Ha Hb. destruct (feed_ok a r Hr Ha) as (fs & r1 & E1 & Hr1 & _).
  destruct (feed_ok b r1 Hr1 Hb) as (gs & r2 & E2 & _).
  exists fs, gs, r1, r2. split; [done|]. split; [done|].
  destruct (feed_ok (a ++ b) r Hr) as (hs & r3 & E3 & _); [by apply Forall_app|].
  rewrite E3. unfold feed in E1, E2, E3.
  rewrite append_words_ok in E1, E2, E3 by (done || by apply Forall_app).
  eapply (extract_app _ _ _ b) in E1; [|by apply rs_app_ok|exact E2].
  rewrite rs_app_app in E1.
  match type of E1 with extract ?n _ = _ => match type of E3 with extract ?m _ = _ =>
    apply (extract_mono _ _ _ (n + m)%nat) in E1; [|lia];
    apply (extract_mono _ _ _ (n + m)%nat) in E3; [|lia] end end.
  congruence.
Qed.

(** ** Clean streams *)

Lemma find_magic_after g rest :
  MAGIC0 ∉ g → find_magic (g ++ MAGIC0 :: MAGIC1 :: rest) = Some (length g).
Proof.
  induction g as [|a g IH]; [done|]. intros Ha. apply not_elem_of_cons in Ha as [Ha Hg].
  specialize (IH Hg). cbn [app length]. revert IH.
  destruct (g ++ MAGIC0 :: MAGIC1 :: rest) as [|b l]; [done|].
  intros IH. rewrite find_magic_cons, IH. by replace (a =? MAGIC0) with false by lia.
Qed.

Lemma encode_words_shape f ws :
  Frame_ok f → encode_words f = Ok ws →
  ∃ c rest, crc16_words (header_without_crc f) = Ok c ∧
    ws = header_without_crc f ++ [c] ++ rest ∧ zlen ws = 11 + zlen (fr_payload f) ∧ Forall u16 ws.
Proof.
  intros Hf E. destruct (encode_words_ok f Hf) as (ws' & E' & Hu & Hl).
  rewrite E in E'. injection E' as <-.
  apply encode_words_inv in E as (c & d & Ec & Ed & ->). eauto 10.
Qed.

Lemma feed_one g f ws max errs :
  0 <= max <= 0xFFFF → Forall u16 g → MAGIC0 ∉ g → Frame_ok f → zlen (fr_payload f) <= max →
  encode_words f = Ok ws →
  feed (g ++ ws) (mkReader max [] errs) = Some (Ok [f], mkReader max [] errs).
Proof.
  intros Hmax Hg Hng Hf Hfl E.
  destruct (encode_words_shape f ws Hf E) as (c & rest & Ec & Ews & Hl & Hu).
  unfold feed. rewrite append_words_ok by by apply Forall_app.
  unfold rs_app. cbn [rs_set_buffer rs_buffer rs_max_payload_words rs_errors app].
  destruct (length (g ++ ws)) as [|n] eqn:En.
  { rewrite length_app in En. unfold zlen in Hl. lia. }
  cbn [extract]. unfold extract_step at 1, HEADER_WORDS.
  cbn [rs_buffer rs_set_buffer rs_max_payload_words rs_errors].
  assert (seek_magic (g ++ ws) = (true, ws)) as ->.
  { unfold seek_magic. rewrite Ews. unfold header_without_crc. cbn [app].
    rewrite find_magic_after by done. by rewrite drop_app_length. }
  cbn [negb]. pose proof (zlen_nonneg (fr_payload f)).
  replace (zlen ws <? 10) with false by lia.
  assert (slice ws 0 9 = header_without_crc f) as -> by by rewrite Ews.
  assert (at_ ws 9 = c) as -> by by rewrite Ews.
  assert (at_ ws 8 = zlen (fr_payload f)) as -> by by rewrite Ews.
  rewrite Ec, Z.eqb_refl. cbn [negb rs_max_payload_words rs_set_buffer].
  replace (zlen (fr_payload f) >? max) with false by lia.
  replace (10 + zlen (fr_payload f) + 1) with (zlen ws) by lia. rewrite Z.ltb_irrefl.
  assert (slice ws 0 (zlen ws) = ws) as ->.
  { unfold slice, zlen. rewrite Nat2Z.id. simpl. rewrite Nat.sub_0_r, drop_0. by apply take_ge. }
  assert (slice_from ws (zlen ws) = []) as ->.
  { unfold slice_from, zlen. rewrite Nat2Z.id. by apply drop_ge. }
  rewrite (proj2 (decode_frame_ok ws max f)) by done. by cbn.
Qed.

(** Successive calls of [feed], the frames of all of them in order. *)
Fixpoint feeds (chunks : list (list Z)) (r : ResyncReader)
    : option (Res (list Frame) * ResyncReader) :=
  match chunks with
  | [] => Some (Ok [], r)
  | chunk :: chunks =>
      match feed chunk r with
      | Some (Ok fs, r) =>
          match feeds chunks r with
          | Some (Ok gs, r) => Some (Ok (fs ++ gs), r)
          | other => other
          end
      | other => other
      end
  end.

Lemma feeds_concat c cs r :
  Reader_ok r → Forall (Forall u16) (c :: cs) →
  feeds (c :: cs) r = feed (concat (c :: cs)) r.
Proof.
  revert c r. induction cs as [|c' cs IH]; intros c r Hr [Hc Hcs]%Forall_cons.
  - simpl. rewrite app_nil_r. destruct (feed c r) as [[[fs|] r']|]; try done.
    by rewrite app_nil_r.
  - assert (Forall u16 (concat (c' :: cs))) as Hcc by by apply Forall_concat.
    destruct (feed_ok c r Hr Hc) as (fs & r1 & E1 & Hr1 & _).
    destruct (feed_app c (concat (c' :: cs)) r Hr Hc Hcc) as (fs' & gs & r1' & r2 & E1' & E2 & E3).
    simplify_eq. cbn [concat] in *. rewrite E3.
    change (feeds (c :: c' :: cs) r) with
      (match feed c r with
       | Some (Ok fs, r) =>
          match feeds (c' :: cs) r with
          | Some (Ok gs, r) => Some (Ok (fs ++ gs), r)
          | other => other
          end
       | other => other end).
    by rewrite E1, (IH c' r1 Hr1 Hcs), E2.
Qed.

(** What the device may send between frames: words that cannot start one. *)
Definition noise (g : list Z) : Prop := Forall u16 g ∧ MAGIC0 ∉ g.

(** [stream gfs ws]: [ws] is the encodings of the frames of [gfs], each after its noise. *)
Inductive stream : list (list Z * Frame) → list Z → Prop :=
| stream_nil : stream [] []
| stream_cons g f ws gfs rest :
    noise g → Frame_ok f → encode_words f = Ok ws → stream gfs rest →
    stream ((g, f) :: gfs) (g ++ ws ++ rest).

Lemma stream_u16 gfs ws : stream gfs ws → Forall u16 ws.
Proof.
  induction 1 as [|g f ws gfs rest [Hg _] Hf E _ IH]; [constructor|].
  destruct (encode_words_ok f Hf) as (ws' & E' & Hu & _). rewrite E in E'. injection E' as <-.
  rewrite !Forall_app. auto.
Qed.

Lemma feed_nil max errs : feed [] (mkReader max [] errs) = Some (Ok [], mkReader max [] errs).
Proof. done. Qed.

Lemma feed_stream max gfs ws :
  0 <= max <= 0xFFFF → stream gfs ws → Forall (λ gf, zlen (fr_payload gf.2) <= max) gfs →
  feed ws (mkReader max [] []) = Some (Ok (gfs.*2), mkReader max [] []).
Proof.
  intros Hmax. induction 1 as [|g f ws gfs rest [Hg Hng] Hf E Hs IH]; intros Hl; [done|].
  apply Forall_cons in Hl as [Hfl Hl]. simpl in Hfl.
  destruct (encode_words_ok f Hf) as (ws' & E' & Hu & _). rewrite E in E'. injection E' as <-.
  destruct (feed_app (g ++ ws) rest (mkReader max [] [])) as (fs & gs & r1 & r2 & E1 & E2 & E3).
  { split; [done|constructor]. }
  { by apply Forall_app. }
  { by eapply stream_u16. }
  rewrite (feed_one g f ws) in E1 by done. injection E1 as <- <-. rewrite IH in E2 by done.
  injection E2 as <- <-. by rewrite (assoc_L (++)), E3.
Qed.

(** ** Properties *)

(** [feed] always terminates and never raises on uint16 words, whatever
    garbage they are: it returns well-formed frames within the configured
    maximum and leaves less than one maximal frame in the buffer. *)
Theorem feed_total_bounded ws r :
  Reader_ok r → Forall u16 ws →
  ∃ fs r', feed ws r = Some (Ok fs, r') ∧ Reader_ok r' ∧
    zlen (rs_buffer r') < HEADER_WORDS + rs_max_payload_words r + 1 ∧
    Forall (λ f, Frame_ok f ∧ zlen (fr_payload f) <= rs_max_payload_words r) fs.
Proof.
  intros Hr Hw. destruct (feed_ok ws r Hr Hw) as (fs & r' & E & ? & Hres & Hm & ?).
  exists fs, r'. unfold residual_ok in Hres. rewrite Hm in Hres. auto.
Qed.

Lemma feed_total_bounded_witness :
  ∃ fs r', feed [7; MAGIC0; MAGIC1; 3; MAGIC0] (mkReader 4 [] []) = Some (Ok fs, r') ∧
    Reader_ok r' ∧ zlen (rs_buffer r') < 10 + 4 + 1 ∧
    Forall (λ f, Frame_ok f ∧ zlen (fr_payload f) <= 4) fs.
Proof.
  apply (feed_total_bounded [7; MAGIC0; MAGIC1; 3; MAGIC0] (mkReader 4 [] [])).
  - split; [simpl; lia|constructor].
  - repeat (constructor; [unfold u16, MAGIC0, MAGIC1; lia|]). constructor.
Defined.

(** C12: A stream of encoded frames, each preceded by noise without the first
    magic word, is delivered exactly: however the words are cut into the chunks
    passed to [feed], a fresh reader returns the frames in order, records no
    error and ends with an empty buffer. *)
Theorem chunked_stream_delivered max gfs c cs ws r :
  ResyncReader_init max = Ok r → stream gfs ws →
  Forall (λ gf, zlen (fr_payload gf.2) <= max) gfs → concat (c :: cs) = ws →
  feeds (c :: cs) r = Some (Ok (gfs.*2), r) ∧ rs_errors r = [] ∧ rs_buffer r = [].
Proof.
  unfold ResyncReader_init. destruct (_ || _) eqn:Em; [done|].
  intros [= <-] Hs Hl Hc. split; [|done]. assert (0 <= max <= 0xFFFF) as Hmax by lia.
  pose proof (stream_u16 _ _ Hs) as Hu. rewrite <-Hc in Hu.
  rewrite feeds_concat.
  - rewrite Hc. by apply feed_stream.
  - by split.
  - by apply Forall_concat.
Qed.

Lemma chunked_stream_delivered_witness :
  ∃ ws, encode_words frame_example = Ok ws ∧
    feeds [[1; 2]; take 5 ws; drop 5 ws] (mkReader 8 [] []) =
      Some (Ok [frame_example], mkReader 8 [] []).
Proof.
  eexists. split; [vm_compute; reflexivity|].
  eapply (chunked_stream_delivered 8 [([1; 2], frame_example)]).
  - reflexivity.
  - apply stream_cons with (rest := []).
    + split; [repeat (constructor; [unfold u16; lia|]); constructor|].
      unfold MAGIC0. rewrite !not_elem_of_cons. repeat split; try lia. apply not_elem_of_nil.
    + by apply (proj1 (Frame_init_ok 1 0x0011 7 [0x1234; 0xFFFF] 0 0 1 frame_example)).
    + vm_compute; reflexivity.
    + constructor.
  - repeat constructor. vm_compute. discriminate.
  - reflexivity.
Defined.
