(* ===== verification/FrameReader.v ===== *)
(** * The response frame reader (protocol/frame_reader.py)

    [FrameReader.read_frame] polls the transport until its deadline and
    extracts one frame from a byte buffer that lives across calls.  The
    transport and the clock are outside the model: a call is run on the list
    of what its successive iterations observe ([Poll]).  The inner loop
    runs on fuel, one more than the number of buffered bytes. *)

From S2P Require Import Prelude.
From S2P Require Import Errors.
From S2P Require Import Constants.
From S2P Require Import Words.
From S2P Require Import Frame.
From S2P Require Import Resync.

(** What one iteration of the outer loop observes: the deadline has passed,
    [read_some] returned these bytes (none: nothing has arrived), or it raised. *)
Inductive Poll : Type :=
| Expired
| Chunk (data : list Z)
| ReadRaises (e : Exn).

Definition frame_magic : list Z := [0x5A; 0xA5; 0xA5; 0x5A].

(** [buffer.find(pat)] *)
Fixpoint bytes_find (pat buf : list Z) : option nat :=
  if bool_decide (take (length pat) buf = pat) then Some O
  else match buf with
       | [] => None
       | _ :: buf => S <$> bytes_find pat buf
       end.

(** How one iteration of the inner loop ends. *)
Inductive Inner : Type :=
| More (buf : list Z)                  (* break: wait for more bytes *)
| Again (buf : list Z)                 (* continue *)
| Got (frame : Frame) (buf : list Z)   (* return *)
| Throw (e : Exn) (buf : list Z).      (* raise *)

Definition inner_step (max_payload_words : Z) (buf : list Z) : Inner :=
  match bytes_find frame_magic buf with
  | None =>
      if zlen buf >? 3 then More (slice_from buf (zlen buf - 3)) else More buf
  | Some start =>
      let buf := drop start buf in
      if zlen buf <? 20 then More buf else
      let header := bytes_to_words (slice buf 0 20) in
      match crc16_words (slice header 0 9) with
      | Raise e => Throw e buf
      | Ok crc =>
          if negb (crc =? at_ header 9) then Again (drop 1 buf) else
          if at_ header 8 >? max_payload_words then
            Throw (Err FrameError (Lit "response payload exceeds configured maximum")) buf
          else
          let frame_size := (10 + at_ header 8 + 1) * 2 in
          if zlen buf <? frame_size then More buf else
          let words := bytes_to_words (slice buf 0 frame_size) in
          let buf := slice_from buf frame_size in
          match decode_frame words max_payload_words with
          | Ok frame => Got frame buf
          | Raise e => Throw e buf
          end
      end
  end.

(** The inner loop; [Again] as the answer means that the fuel did not suffice. *)
Fixpoint inner_loop (fuel : nat) (max_payload_words : Z) (buf : list Z) : Inner :=
  match fuel with
  | O => Again buf
  | S fuel =>
      match inner_step max_payload_words buf with
      | Again buf => inner_loop fuel max_payload_words buf
      | stop => stop
      end
  end.

Definition extract_one (max_payload_words : Z) (buf : list Z) : Inner :=
  inner_loop (S (length buf)) max_payload_words buf.

(** [read_frame]: the outcome ([None]: still polling when the observations
    end), the buffer, and the observations not used. *)
Fixpoint poll_loop (max_payload_words : Z) (polls : list Poll) (buf : list Z)
    : option (Res Frame) * list Z * list Poll :=
  match polls with
  | [] => (None, buf, [])
  | Expired :: polls =>
      (Some (Raise (Err TransportTimeoutError (Lit "response byte read timed out"))), buf, polls)
  | ReadRaises e :: polls => (Some (Raise e), buf, polls)
  | Chunk [] :: polls => poll_loop max_payload_words polls buf
  | Chunk chunk :: polls =>
      match extract_one max_payload_words (buf ++ chunk) with
      | More buf | Again buf => poll_loop max_payload_words polls buf
      | Got frame buf => (Some (Ok frame), buf, polls)
      | Throw e buf => (Some (Raise e), buf, polls)
      end
  end.

Definition read_frame (timeout_ms max_payload_words : Z) (polls : list Poll) (buf : list Z)
    : option (Res Frame) * list Z * list Poll :=
  if timeout_ms <=? 0
  then (Some (Raise (Err ValueError (Lit "timeout_ms must be positive"))), buf, polls)
  else poll_loop max_payload_words polls buf.

(** ** Finding the magic bytes *)

Lemma bytes_find_cons pat a buf :
  bytes_find pat (a :: buf) =
    if bool_decide (take (length pat) (a :: buf) = pat) then Some O
    else S <$> bytes_find pat buf.
Proof. done. Qed.

Lemma bytes_find_Some pat buf i :
  bytes_find pat buf = Some i → ∃ rest, drop i buf = pat ++ rest ∧ (i <= length buf)%nat.
Proof.
  revert i. induction buf as [|a buf IH]; intros i.
  - simpl. case_bool_decide as E; [|done]. intros [= <-]. exists [].
    rewrite take_nil in E. rewrite <-E. simpl. split; [done|lia].
  - rewrite bytes_find_cons. case_bool_decide as E.
    + intros [= <-]. exists (drop (length pat) (a :: buf)). rewrite <-E at 1.
      rewrite take_drop. split; [done|lia].
    + destruct (bytes_find pat buf) as [j|] eqn:Ej; [|done]. intros [= <-].
      destruct (IH j eq_refl) as (rest & ? & ?). exists rest. simpl. split; [done|lia].
Qed.

Lemma bytes_find_here pat rest : bytes_find pat (pat ++ rest) = Some O.
Proof.
  destruct (pat ++ rest) as [|a l] eqn:E.
  - apply app_eq_nil in E as [-> _]. done.
  - rewrite bytes_find_cons, <-E, take_app_length. by rewrite bool_decide_true.
Qed.

Lemma take_app_eq {A} n (l b p : list A) : length p = n → take n l = p → take n (l ++ b) = p.
Proof.
  intros Hn E. rewrite take_app_le; [done|]. rewrite <-Hn, <-E, length_take. lia.
Qed.

Lemma bytes_find_app pat buf b i :
  bytes_find pat buf = Some i → bytes_find pat (buf ++ b) = Some i.
Proof.
  revert i. induction buf as [|a buf IH]; intros i.
  - simpl. case_bool_decide as E; [|done]. intros [= <-]. rewrite take_nil in E.
    rewrite <-E. destruct b; done.
  - cbn [app]. rewrite !bytes_find_cons. case_bool_decide as E.
    + intros [= <-]. rewrite bool_decide_true; [done|].
      by apply (take_app_eq _ (a :: buf)).
    + destruct (bytes_find pat buf) as [j|] eqn:Ej; [|done]. intros [= <-].
      rewrite (IH j eq_refl). rewrite bool_decide_false; [done|]. intros E'. apply E.
      apply bytes_find_Some in Ej as (rest & Ej & Hj).
      rewrite <-E' at 2. symmetry. rewrite app_comm_cons. apply take_app_le.
      apply (f_equal length) in Ej. rewrite length_drop, length_app in Ej. simpl. lia.
Qed.

Lemma fmap_add_0 (o : option nat) : Nat.add 0 <$> o = o.
Proof. by destruct o. Qed.

(** Bytes that hold no match can be dropped as long as fewer than
    [length pat] of them are kept. *)
Lemma bytes_find_drop pat buf b k :
  bytes_find pat buf = None → (k + length pat <= S (length buf))%nat →
  bytes_find pat (buf ++ b) = Nat.add k <$> bytes_find pat (drop k buf ++ b).
Proof.
  revert k. induction buf as [|a buf IH]; intros k E Hk.
  - destruct k as [|k]; [by rewrite fmap_add_0|]. simpl in E, Hk. case_bool_decide as E'; [done|]. exfalso. apply E'. rewrite take_nil.
    destruct pat; [done|simpl in Hk; lia].
  - destruct k as [|k]; [by rewrite fmap_add_0|]. simpl drop.
    rewrite bytes_find_cons in E. case_bool_decide as E'; [done|].
    destruct (bytes_find pat buf) eqn:Ej; [done|]. cbn [app].
    rewrite bytes_find_cons, bool_decide_false.
    + rewrite (IH k eq_refl) by (simpl in Hk; lia). by destruct (bytes_find pat (drop k buf ++ b)).
    + intros E''. apply E'. rewrite <-E'' at 2. symmetry. rewrite app_comm_cons.
      apply take_app_le. simpl in *. lia.
Qed.

(** Noise bytes cannot start a frame. *)
Lemma bytes_find_after g rest :
  0x5A ∉ g → bytes_find frame_magic (g ++ frame_magic ++ rest) = Some (length g).
Proof.
  induction g as [|a g IH]; intros Hg; [exact (bytes_find_here frame_magic rest)|].
  apply not_elem_of_cons in Hg as [Ha Hg]. cbn [app]. rewrite bytes_find_cons.
  rewrite bool_decide_false; [by rewrite IH|]. unfold frame_magic. simpl. congruence.
Qed.

(** ** Bytes and words *)

Lemma bytes_to_words_u16 bs : Forall u8 bs → Forall u16 (bytes_to_words bs).
Proof.
  revert bs. refine (fix IH bs := _). intros H.
  destruct bs as [|lo [|hi bs]]; [constructor..|]. cbn [bytes_to_words].
  apply Forall_cons in H as [Hlo [Hhi H]%Forall_cons]. constructor; [|by apply IH].
  rewrite lor_shiftl_8 by done. unfold u8, u16 in *. lia.
Qed.

Lemma bytes_to_words_app ws bs rest :
  words_to_little_endian_bytes ws = Ok bs →
  bytes_to_words (bs ++ rest) = ws ++ bytes_to_words rest.
Proof.
  intros E. pose proof (words_to_bytes_inv _ _ E) as H. revert bs E.
  induction H as [|w ws Hw _ IH]; intros bs; cbn [words_to_little_endian_bytes].
  - by intros [= <-].
  - unfold u16 in Hw. replace ((w <? 0) || (w >? 65535)) with false by lia.
    destruct (words_to_little_endian_bytes ws) as [bs'|] eqn:E'; [|done].
    intros [= <-]. cbn [app bytes_to_words]. rewrite (IH bs' eq_refl).
    rewrite land_ff, shiftr_8, lor_shiftl_8;
      [|unfold u8; Z.to_euclidean_division_equations; lia].
    f_equal. Z.to_euclidean_division_equations; lia.
Qed.

Lemma words_to_bytes_take ws bs n :
  words_to_little_endian_bytes ws = Ok bs →
  bytes_to_words (take (2 * n) bs) = take n ws.
Proof.
  intros E. pose proof (words_to_bytes_inv _ _ E) as H.
  assert (∃ cs, words_to_little_endian_bytes (take n ws) = Ok cs) as [cs Ecs].
  { destruct (words_to_bytes_ok (take n ws)) as (cs & ? & _); [by apply Forall_take|eauto]. }
  assert (∃ ds, words_to_little_endian_bytes (drop n ws) = Ok ds) as [ds Eds].
  { destruct (words_to_bytes_ok (drop n ws)) as (ds & ? & _); [by apply Forall_drop|eauto]. }
  pose proof (words_to_bytes_app _ _ _ _ Ecs Eds) as E'. rewrite take_drop in E'.
  rewrite E in E'. injection E' as ->.
  destruct (words_to_bytes_ok (take n ws)) as (cs' & E1 & _ & Hl & Hb); [by apply Forall_take|].
  rewrite Ecs in E1. injection E1 as <-.
  destruct (decide (n <= length ws)%nat).
  - rewrite zlen_take in Hl. unfold zlen in Hl. rewrite take_app_le by lia.
    rewrite take_ge by lia. done.
  - rewrite (take_ge ws) in * by lia. rewrite drop_ge in Eds by lia. injection Eds as <-.
    rewrite app_nil_r. rewrite take_ge; [done|]. unfold zlen in *. lia.
Qed.

(** ** One iteration of the inner loop *)

Lemma inner_step_spec max buf :
  0 <= max → Forall u8 buf →
  match inner_step max buf with
  | More buf' => Forall u8 buf' ∧ zlen buf' < 2 * (HEADER_WORDS + max + 1)
  | Again buf' => Forall u8 buf' ∧ (length buf' < length buf)%nat
  | Got f buf' => Forall u8 buf' ∧ Frame_ok f ∧ zlen (fr_payload f) <= max
  | Throw e buf' => Forall u8 buf' ∧ isinstance e FrameError = true
  end.
Proof.
  intros Hmax Hb. unfold inner_step, HEADER_WORDS.
  destruct (bytes_find frame_magic buf) as [start|] eqn:Ef.
  2: { destruct (zlen buf >? 3) eqn:E3; (split; [auto with py|]); [|lia].
       unfold slice_from. rewrite zlen_drop. pose proof (zlen_nonneg buf). lia. }
  apply bytes_find_Some in Ef as (rest & Ebuf & Hstart).
  assert (0 < length (drop start buf) <= length buf)%nat as Hl.
  { split; [rewrite Ebuf; simpl; lia|]. rewrite length_drop. lia. }
  assert (Forall u8 (drop start buf)) as Hd by by apply Forall_drop.
  revert Hl Hd. generalize (drop start buf). clear Ebuf Hb. intros b Hl Hb.
  destruct (zlen b <? 20) eqn:E20; [split; [done|lia]|].
  set (header := bytes_to_words (slice b 0 20)).
  assert (Forall u16 header) as Hh by (apply bytes_to_words_u16; auto with py).
  destruct (crc16_words_ok (slice header 0 9) ltac:(auto with py)) as [c ->].
  destruct (negb (c =? at_ header 9)); [split; [by apply Forall_drop|rewrite length_drop; lia]|].
  pose proof (at_u16 header 8 Hh) as H8. unfold u16 in H8.
  destruct (at_ header 8 >? max) eqn:E8; [done|].
  destruct (zlen b <? (10 + at_ header 8 + 1) * 2) eqn:Et; [split; [done|lia]|].
  assert (Forall u8 (slice_from b ((10 + at_ header 8 + 1) * 2))) by auto with py.
  destruct (decode_frame _ max) as [f|e] eqn:Ed.
  - apply decode_frame_ok in Ed as (? & ? & _). done.
  - apply decode_frame_raises in Ed; [done|]. apply bytes_to_words_u16. auto with py.
Qed.

Lemma inner_step_app max buf b :
  0 <= max → Forall u8 buf →
  match inner_step max buf with
  | More buf' => inner_step max (buf ++ b) = inner_step max (buf' ++ b)
  | Again buf' => inner_step max (buf ++ b) = Again (buf' ++ b)
  | Got f buf' => inner_step max (buf ++ b) = Got f (buf' ++ b)
  | Throw e buf' => inner_step max (buf ++ b) = Throw e (buf' ++ b)
  end.
Proof.
  intros Hmax Hb. unfold inner_step, HEADER_WORDS.
  destruct (bytes_find frame_magic buf) as [start|] eqn:Ef.
  2: { destruct (zlen buf >? 3) eqn:E3; [|done]. unfold slice_from.
       rewrite (bytes_find_drop frame_magic buf b (Z.to_nat (zlen buf - 3)) Ef)
         by (unfold zlen in *; simpl; lia).
       destruct (bytes_find frame_magic (drop _ buf ++ b)) as [j|] eqn:Ej.
       - cbn [fmap option_fmap option_map].
         assert (drop (Z.to_nat (zlen buf - 3) + j) (buf ++ b)
                 = drop j (drop (Z.to_nat (zlen buf - 3)) buf ++ b)) as ->; [|done].
         rewrite <-drop_drop. f_equal. apply drop_app_le. unfold zlen in *. lia.
       - cbn [fmap option_fmap option_map]. rewrite !zlen_app, zlen_drop.
         pose proof (zlen_nonneg b).
         replace (zlen buf + zlen b >? 3) with true by lia.
         replace (Z.max 0 (zlen buf - Z.of_nat (Z.to_nat (zlen buf - 3)))) with 3 by lia.
         destruct (3 + zlen b >? 3) eqn:Eb; f_equal.
         + replace (Z.to_nat (zlen buf + zlen b - 3))
             with (Z.to_nat (zlen buf - 3) + Z.to_nat (3 + zlen b - 3))%nat by lia.
           rewrite <-drop_drop. f_equal. apply drop_app_le. unfold zlen in *. lia.
         + replace (zlen buf + zlen b - 3) with (zlen buf - 3) by lia.
           apply drop_app_le. unfold zlen in *. lia. }
  rewrite (bytes_find_app _ _ b _ Ef).
  pose proof Ef as Ef'. apply bytes_find_Some in Ef' as (rest & Ebuf & Hstart).
  rewrite (drop_app_le buf b start Hstart).
  assert (Hagain : bytes_find frame_magic (drop start buf ++ b) = Some O).
  { rewrite Ebuf, <-(assoc_L (++)). apply bytes_find_here. }
  assert (Hpos : (0 < length (drop start buf))%nat) by (rewrite Ebuf; simpl; lia).
  assert (Hd : Forall u8 (drop start buf)) by by apply Forall_drop.
  revert Hagain Hpos Hd. generalize (drop start buf). clear Ebuf Hb Ef Hstart. intros d Hagain Hpos Hd.
  pose proof (zlen_nonneg b). rewrite zlen_app.
  destruct (zlen d <? 20) eqn:E20.
  { by rewrite Hagain, drop_0, zlen_app. }
  replace (zlen d + zlen b <? 20) with false by lia.
  rewrite (slice_app_le d b 0 20) by lia.
  set (header := bytes_to_words (slice d 0 20)).
  assert (Forall u16 header) as Hh by (apply bytes_to_words_u16; auto with py).
  destruct (crc16_words_ok (slice header 0 9) ltac:(auto with py)) as [c Ec]. rewrite Ec.
  destruct (negb (c =? at_ header 9)) eqn:E9; [by rewrite drop_app_le by lia|].
  pose proof (at_u16 header 8 Hh) as H8. unfold u16 in H8.
  destruct (at_ header 8 >? max) eqn:E8; [done|].
  destruct (zlen d <? (10 + at_ header 8 + 1) * 2) eqn:Et.
  { rewrite Hagain, drop_0. rewrite zlen_app.
    replace (zlen d + zlen b <? 20) with false by lia. rewrite (slice_app_le d b 0 20) by lia.
    fold header. by rewrite Ec, E9, E8. }
  replace (zlen d + zlen b <? (10 + at_ header 8 + 1) * 2) with false by lia.
  rewrite slice_app_le, slice_from_app_le by lia. by destruct (decode_frame _ max).
Qed.

(** ** The inner loop *)

Lemma inner_loop_spec fuel max buf :
  0 <= max → Forall u8 buf → (length buf < fuel)%nat →
  match inner_loop fuel max buf with
  | More buf' => Forall u8 buf' ∧ zlen buf' < 2 * (HEADER_WORDS + max + 1)
  | Again _ => False
  | Got f buf' => Forall u8 buf' ∧ Frame_ok f ∧ zlen (fr_payload f) <= max
  | Throw e buf' => Forall u8 buf' ∧ isinstance e FrameError = true
  end.
Proof.
  intros Hmax. revert buf. induction fuel as [|fuel IH]; intros buf Hb Hl; [lia|]. cbn [inner_loop].
  pose proof (inner_step_spec max buf Hmax Hb) as Hs.
  destruct (inner_step max buf) as [|buf'| |]; try done.
  destruct Hs as [Hb' Hl']. apply IH; [done|lia].
Qed.

(** Running [inner_step] to its end, as a relation. *)
Inductive runs (max : Z) : list Z → Inner → Prop :=
| runs_stop buf out :
    inner_step max buf = out → (∀ b, out ≠ Again b) → runs max buf out
| runs_again buf buf' out :
    inner_step max buf = Again buf' → runs max buf' out → runs max buf out.

Lemma inner_loop_runs fuel max buf out :
  inner_loop fuel max buf = out → (∀ b, out ≠ Again b) → runs max buf out.
Proof.
  revert buf. induction fuel as [|fuel IH]; intros buf; cbn [inner_loop].
  - intros <- Hne. by destruct (Hne buf).
  - intros E Hne. destruct (inner_step max buf) eqn:Es; try (subst; by apply runs_stop).
    eapply runs_again; eauto.
Qed.

Lemma runs_step_eq max buf buf' out :
  inner_step max buf = inner_step max buf' → runs max buf out → runs max buf' out.
Proof.
  intros E H. destruct H as [buf out E' Hne|buf b out E' H].
  - apply runs_stop; [congruence|done].
  - eapply runs_again; [|exact H]. congruence.
Qed.

Lemma runs_det max buf out out' : runs max buf out → runs max buf out' → out = out'.
Proof.
  intros H. revert out'. induction H as [buf out E Hne|buf buf' out E H IH]; intros out' H'.
  - destruct H' as [buf out' E' _|buf buf'' out' E' _]; [congruence|].
    destruct (Hne buf''). congruence.
  - destruct H' as [buf out' E' Hne'|buf buf'' out' E' H']; [destruct (Hne' buf'); congruence|].
    apply IH. congruence.
Qed.

Lemma extract_one_runs max buf :
  0 <= max → Forall u8 buf → runs max buf (extract_one max buf).
Proof.
  intros Hmax Hb. eapply inner_loop_runs; [done|]. intros b E.
  pose proof (inner_loop_spec (S (length buf)) max buf Hmax Hb ltac:(lia)) as Hs.
  unfold extract_one in E. by rewrite E in Hs.
Qed.

Lemma runs_app max buf out b :
  0 <= max → Forall u8 buf → runs max buf out →
  match out with
  | More buf' => ∀ out', runs max (buf' ++ b) out' → runs max (buf ++ b) out'
  | Again _ => False
  | Got f buf' => runs max (buf ++ b) (Got f (buf' ++ b))
  | Throw e buf' => runs max (buf ++ b) (Throw e (buf' ++ b))
  end.
Proof.
  intros Hmax Hb H. revert Hb. induction H as [buf out E Hne|buf buf' out E H IH]; intros Hb;
    pose proof (inner_step_app max buf b Hmax Hb) as Ha.
  - rewrite E in Ha. destruct out as [buf'|buf'|f buf'|e buf']; [..|by apply runs_stop].
    + intros out' H'. symmetry in Ha. by eapply runs_step_eq.
    + by destruct (Hne buf').
    + by apply runs_stop.
  - rewrite E in Ha. pose proof (inner_step_spec max buf Hmax Hb) as Hs. rewrite E in Hs.
    specialize (IH (proj1 Hs)). destruct out; eauto using runs_again.
Qed.

(** An encoded frame after noise is found. *)
Lemma encode_bytes_inv f bs :
  encode_bytes f = Ok bs → ∃ ws, encode_words f = Ok ws ∧ words_to_little_endian_bytes ws = Ok bs.
Proof. unfold encode_bytes. destruct (encode_words f) as [ws|]; [|done]. eauto. Qed.

Lemma runs_frame max g f bs extra :
  0 <= max → 0x5A ∉ g → Frame_ok f → zlen (fr_payload f) <= max → encode_bytes f = Ok bs →
  runs max (g ++ bs ++ extra) (Got f extra).
Proof.
  intros Hmax Hg Hf Hfl E. apply encode_bytes_inv in E as (ws & Ews & Ebs).
  destruct (encode_words_shape f ws Hf Ews) as (c & rest & Ec & Hws & Hl & Hu).
  destruct (words_to_bytes_ok ws Hu) as (bs' & Ebs' & Hub & Hlb & _).
  rewrite Ebs in Ebs'. injection Ebs' as <-. pose proof (zlen_nonneg (fr_payload f)).
  apply runs_stop; [|done]. unfold inner_step.
  assert (bytes_find frame_magic (g ++ bs ++ extra) = Some (length g)) as ->.
  { assert (∃ bs', bs = frame_magic ++ bs') as [bs' ->].
    { destruct (words_to_bytes_ok (drop 2 ws)) as (cs & Ecs & _); [by apply Forall_drop|].
      pose proof (words_to_bytes_app [MAGIC0; MAGIC1] _ _ _ eq_refl Ecs) as Ebs'.
      replace ([MAGIC0; MAGIC1] ++ drop 2 ws) with ws in Ebs' by by rewrite Hws.
      rewrite Ebs in Ebs'. injection Ebs' as ->. by exists cs. }
    rewrite <-(assoc_L (++)). by apply bytes_find_after. }
  rewrite drop_app_length, zlen_app. pose proof (zlen_nonneg extra).
  replace (zlen bs + zlen extra <? 20) with false by lia.
  rewrite (slice_app_le bs extra 0 20) by lia.
  assert (bytes_to_words (slice bs 0 20) = take 10 ws) as ->
    by (apply (words_to_bytes_take ws bs 10); done).
  assert (slice (take 10 ws) 0 9 = header_without_crc f) as -> by by rewrite Hws.
  assert (at_ (take 10 ws) 9 = c) as -> by by rewrite Hws.
  assert (at_ (take 10 ws) 8 = zlen (fr_payload f)) as -> by by rewrite Hws.
  rewrite Ec, Z.eqb_refl. cbn [negb].
  replace (zlen (fr_payload f) >? max) with false by lia.
  replace ((10 + zlen (fr_payload f) + 1) * 2) with (zlen bs) by lia.
  replace (zlen bs + zlen extra <? zlen bs) with false by lia.
  rewrite slice_app_le, slice_from_app_le by lia.
  assert (slice bs 0 (zlen bs) = take (2 * length ws) bs) as ->.
  { unfold slice, zlen. rewrite Nat2Z.id. simpl drop. rewrite drop_0. f_equal. unfold zlen in *. lia. }
  rewrite (words_to_bytes_take ws bs (length ws) Ebs), firstn_all.
  rewrite (proj2 (decode_frame_ok ws max f)) by done. f_equal.
  unfold slice_from, zlen. rewrite Nat2Z.id. by rewrite drop_all.
Qed.

(** ** The polling loop *)

Definition Poll_ok (p : Poll) : Prop :=
  match p with Chunk data => Forall u8 data | _ => True end.

Definition poll_data (p : Poll) : list Z := match p with Chunk data => data | _ => [] end.

(** A prefix of the bytes in which the frame is not complete asks for more,
    and drops nothing that matters. *)
Lemma extract_one_incomplete max buf b f extra :
  0 <= max → Forall u8 buf → Forall u8 b →
  runs max (buf ++ b) (Got f extra) → (length extra < length b)%nat →
  ∃ buf', extract_one max buf = More buf' ∧ Forall u8 buf' ∧ runs max (buf' ++ b) (Got f extra).
Proof.
  intros Hmax Hb Hb' H Hlt. pose proof (extract_one_runs max buf Hmax Hb) as Hr.
  pose proof (runs_app max buf _ b Hmax Hb Hr) as Ha.
  pose proof (inner_loop_spec (S (length buf)) max buf Hmax Hb ltac:(lia)) as Hs.
  unfold extract_one in *. destruct (inner_loop _ max buf) as [buf'|buf'|g r|e r]; [|done|..].
  - destruct Hs as [Hs _]. exists buf'. split; [done|]. split; [done|].
    assert (Forall u8 (buf' ++ b)) as Hbb by by apply Forall_app.
    pose proof (extract_one_runs max _ Hmax Hbb) as Hr'. specialize (Ha _ Hr').
    by rewrite (runs_det _ _ _ _ H Ha).
  - pose proof (runs_det _ _ _ _ H Ha) as E. injection E as _ ->.
    rewrite length_app in Hlt. lia.
  - pose proof (runs_det _ _ _ _ H Ha) as E. done.
Qed.

Lemma poll_loop_delivers max before c after buf f extra :
  0 <= max → Forall u8 buf → Forall Poll_ok before → Forall (λ p, ∃ d, p = Chunk d) before →
  Forall u8 c → (length extra < length c)%nat →
  runs max (buf ++ concat (map poll_data before) ++ c) (Got f extra) →
  poll_loop max (before ++ Chunk c :: after) buf = (Some (Ok f), extra, after).
Proof.
  intros Hmax Hb Hok Hch Hc Hlt. revert buf Hb.
  induction before as [|p before IH]; intros buf Hb Hr.
  - cbn [app map concat] in *. destruct c as [|c0 c]; [simpl in Hlt; lia|].
    cbn [poll_loop]. assert (Forall u8 (buf ++ c0 :: c)) as Hbc by by apply Forall_app.
    pose proof (extract_one_runs max _ Hmax Hbc) as Hr'.
    by rewrite <-(runs_det _ _ _ _ Hr Hr').
  - apply Forall_cons in Hok as [Hp Hok], Hch as [[d ->] Hch]. specialize (IH Hok Hch).
    cbn [app map concat poll_data] in *. destruct d as [|d0 d]; [by apply IH|].
    cbn [poll_loop]. rewrite <-(assoc_L (++)), (assoc_L (++)) in Hr.
    assert (Forall u8 (concat (map poll_data before))) as Hcc.
    { apply Forall_concat, Forall_map. eapply Forall_impl; [exact Hok|].
      intros [] ?; simpl; auto. }
    destruct (extract_one_incomplete max (buf ++ d0 :: d) (concat (map poll_data before) ++ c)
      f extra Hmax) as (buf' & -> & Hb' & Hr').
    + by apply Forall_app.
    + by apply Forall_app.
    + done.
    + rewrite length_app. lia.
    + by apply IH.
Qed.

(** ** Properties *)

(** A response is delivered however the transport cuts it: if the bytes
    that arrive are noise without the first magic byte, one encoded frame and
    possibly more, [read_frame] returns that frame on the poll that completes it,
    and keeps exactly the bytes after the frame for the next call. *)
Theorem read_frame_delivers timeout max before c after buf g f bs extra :
  0 < timeout → 0 <= max → Frame_ok f → zlen (fr_payload f) <= max → encode_bytes f = Ok bs →
  0x5A ∉ g → Forall u8 buf → Forall u8 c → Forall Poll_ok before →
  Forall (λ p, ∃ d, p = Chunk d) before → (length extra < length c)%nat →
  buf ++ concat (map poll_data before) ++ c = g ++ bs ++ extra →
  read_frame timeout max (before ++ Chunk c :: after) buf = (Some (Ok f), extra, after).
Proof.
  intros Ht Hmax Hf Hfl E Hg Hb Hc Hok Hch Hlt Heq. unfold read_frame.
  replace (timeout <=? 0) with false by lia. apply poll_loop_delivers; try done.
  rewrite Heq. by apply runs_frame.
Qed.

Lemma read_frame_delivers_witness :
  ∃ bs, encode_bytes frame_example = Ok bs ∧
    read_frame 1000 256 [Chunk [1; 2]; Chunk []; Chunk (take 9 bs); Chunk (drop 9 bs ++ [3]); Expired] []
      = (Some (Ok frame_example), [3], [Expired]).
Proof.
  eexists. split; [vm_compute; reflexivity|].
  eapply (read_frame_delivers 1000 256 [Chunk [1; 2]; Chunk []; Chunk _] _ [Expired] [] [1; 2]).
  - lia.
  - lia.
  - by apply (proj1 (Frame_init_ok 1 0x0011 7 [0x1234; 0xFFFF] 0 0 1 frame_example)).
  - vm_compute. discriminate.
  - vm_compute. reflexivity.
  - by rewrite !not_elem_of_cons; repeat split; try lia; apply not_elem_of_nil.
  - constructor.
  - simpl. repeat (constructor; [unfold u8; lia|]). constructor.
  - simpl. repeat (constructor; simpl); unfold u8; lia.
  - repeat constructor; eauto.
  - simpl. lia.
  - reflexivity.
Defined.

(** [read_frame] always comes back: once its deadline expires it has
    returned a well-formed frame within the maximum, raised a [FrameError] for
    a bad candidate, passed on an exception of the transport, or raised
    [TransportTimeoutError]; the buffer holds bytes only. *)
Theorem read_frame_returns timeout max polls buf :
  0 < timeout → 0 <= max → Forall u8 buf → Forall Poll_ok polls → Expired ∈ polls →
  ∃ r buf' rest, read_frame timeout max polls buf = (Some r, buf', rest) ∧ Forall u8 buf' ∧
    match r with
    | Ok f => Frame_ok f ∧ zlen (fr_payload f) <= max
    | Raise e => isinstance e FrameError = true ∨ isinstance e TransportTimeoutError = true ∨
        ReadRaises e ∈ polls
    end.
Proof.
  intros Ht Hmax Hb Hok Hin. unfold read_frame. replace (timeout <=? 0) with false by lia.
  revert buf Hb. induction polls as [|p polls IH]; intros buf Hb; [by apply elem_of_nil in Hin|].
  apply Forall_cons in Hok as [Hp Hok]. specialize (IH Hok).
  assert (Hrec : p ≠ Expired → ∀ buf, Forall u8 buf → ∃ r buf' rest,
    poll_loop max polls buf = (Some r, buf', rest) ∧ Forall u8 buf' ∧
    match r with
    | Ok f => Frame_ok f ∧ zlen (fr_payload f) <= max
    | Raise e => isinstance e FrameError = true ∨ isinstance e TransportTimeoutError = true ∨
        ReadRaises e ∈ p :: polls
    end).
  { intros Hne b' Hb'. apply elem_of_cons in Hin as [Hin|Hin]; [by destruct Hne|].
    destruct (IH Hin b' Hb') as (r & b'' & rest & ? & ? & Hr). exists r, b'', rest.
    split; [done|]. split; [done|]. destruct r; [done|].
    destruct Hr as [?|[?|?]]; auto. do 2 right. by apply elem_of_cons; right. }
  destruct p as [|data|e]; cbn [poll_loop].
  - do 3 eexists. split; [reflexivity|]. split; [done|]. auto.
  - destruct data as [|d0 d]; [by apply Hrec|].
    assert (Forall u8 (buf ++ d0 :: d)) as Hbd by by apply Forall_app.
    pose proof (inner_loop_spec (S (length (buf ++ d0 :: d))) max _ Hmax Hbd ltac:(lia)) as Hs.
    unfold extract_one. destruct (inner_loop _ max _) as [b'|b'|g b'|e b'].
    + apply Hrec; [done|apply Hs].
    + done.
    + destruct Hs as (? & ? & ?). do 3 eexists. split; [reflexivity|]. done.
    + destruct Hs as (? & ?). do 3 eexists. split; [reflexivity|]. auto.
  - do 3 eexists. split; [reflexivity|]. split; [done|]. right. right. by left.
Qed.

Lemma read_frame_returns_witness :
  ∃ r buf' rest, read_frame 1000 256 [Chunk [0x5A]; Expired] [] = (Some r, buf', rest) ∧
    Forall u8 buf' ∧
    match r with
    | Ok f => Frame_ok f ∧ zlen (fr_payload f) <= 256
    | Raise e => isinstance e FrameError = true ∨ isinstance e TransportTimeoutError = true ∨
        ReadRaises e ∈ [Chunk [0x5A]; Expired]
    end.
Proof.
  apply (read_frame_returns 1000 256 [Chunk [0x5A]; Expired] []); [lia|lia|constructor| |].
  - repeat (constructor; simpl); unfold u8; lia.
  - right. left.
Defined.

(** The bytes of a header with a valid checksum that announces a payload above [max]. *)
Definition oversize_header (max : Z) (hb : list Z) : Prop :=
  zlen hb = 20 ∧ take 4 hb = frame_magic ∧
  crc16_words (slice (bytes_to_words hb) 0 9) = Ok (at_ (bytes_to_words hb) 9) ∧
  at_ (bytes_to_words hb) 8 > max.

Lemma inner_step_oversize max hb tail :
  oversize_header max hb →
  inner_step max (hb ++ tail) =
    Throw (Err FrameError (Lit "response payload exceeds configured maximum")) (hb ++ tail).
Proof.
  intros (Hl & Hm & Hc & H8). unfold inner_step.
  assert (hb = frame_magic ++ drop 4 hb) as Ehb by by rewrite <-Hm, take_drop.
  assert (bytes_find frame_magic (hb ++ tail) = Some O) as ->.
  { rewrite Ehb, <-(assoc_L (++)). apply bytes_find_here. }
  rewrite drop_0, zlen_app. pose proof (zlen_nonneg tail).
  replace (zlen hb + zlen tail <? 20) with false by lia.
  rewrite (slice_app_le hb tail 0 20) by lia.
  assert (slice hb 0 20 = hb) as ->.
  { unfold slice. rewrite drop_0. apply take_ge. unfold zlen in Hl. lia. }
  rewrite Hc, Z.eqb_refl. cbn [negb].
  by replace (at_ (bytes_to_words hb) 8 >? max) with true by lia.
Qed.

(** An oversize response header is never discarded: once the buffer starts
    with a header whose checksum is right but whose payload length exceeds the maximum,
    every later [read_frame] call that receives any bytes, a complete valid
    response included, raises the same [FrameError], and leaves a buffer that
    again starts with that header. *)
Theorem oversize_header_sticks timeout max hb tail c polls :
  0 < timeout → oversize_header max hb → c ≠ [] →
  read_frame timeout max (Chunk c :: polls) (hb ++ tail) =
    (Some (Raise (Err FrameError (Lit "response payload exceeds configured maximum"))),
     hb ++ (tail ++ c), polls).
Proof.
  intros Ht Ho Hc. unfold read_frame. replace (timeout <=? 0) with false by lia.
  cbn [poll_loop]. destruct c as [|c0 c]; [done|]. unfold extract_one. cbn [inner_loop].
  rewrite <-(assoc_L (++)). by rewrite inner_step_oversize.
Qed.

Definition oversize_example : list Z :=
  [0x5A; 0xA5; 0xA5; 0x5A; 1; 0; 2; 0; 1; 0; 7; 0; 0; 0; 0; 0; 0xFF; 0xFF; 0xD2; 0x72].

(** The valid response that arrives second is not delivered. *)
Lemma oversize_header_sticks_witness :
  ∃ bs, encode_bytes frame_example = Ok bs ∧
    read_frame 1000 256 [Chunk bs] (oversize_example ++ []) =
      (Some (Raise (Err FrameError (Lit "response payload exceeds configured maximum"))),
       oversize_example ++ ([] ++ bs), []).
Proof.
  eexists. split; [vm_compute; reflexivity|].
  apply (oversize_header_sticks 1000 256 oversize_example []).
  - lia.
  - repeat split; vm_compute; reflexivity.
  - discriminate.
Defined.
