(* ===== verification/Models.v ===== *)
(** * Payload models (protocol/models.py; [ProtocolInfo] of boot_protocol_client.py)

    The frozen dataclasses that responses are decoded into.  The fields of
    each record carry a short prefix, otherwise the names are the source's.
    [X_ok] is what [__post_init__] enforces. *)

From S2P Require Import Prelude.
From S2P Require Import Errors.
From S2P Require Import Constants.
From S2P Require Import Words.

Definition check_words (words : list Z) (expected : Z) (name : string) : Res (list Z) :=
  fail (Err ValueError (Fmt "{} requires exactly {} words" [VStr name; VInt expected]))
    when negb (zlen words =? expected) ;;
  fail (Err ValueError (Fmt "{} values must fit uint16" [VStr name]))
    when existsb (λ word, (word <? 0) || (word >? 0xFFFF)) words ;;
  Ok words.

(** The loops of the [__post_init__] methods over the field names. *)
Definition check_uint16 (field : string * Z) : Res unit :=
  fail (Err ValueError (Fmt "{} must fit uint16" [VStr field.1]))
    when (field.2 <? 0) || (field.2 >? 0xFFFF) ;; Ok tt.
Definition check_uint32 (field : string * Z) : Res unit :=
  fail (Err ValueError (Fmt "{} must fit uint32" [VStr field.1]))
    when (field.2 <? 0) || (field.2 >? 0xFFFFFFFF) ;; Ok tt.

(** ** DeviceInfo *)

Record DeviceInfo : Type := mkDeviceInfo {
  di_device_id : Z;
  di_cpu_id : Z;
  di_kernel_ver_major : Z;
  di_kernel_ver_minor : Z;
  di_kernel_ver_patch : Z;
  di_protocol_ver : Z;
  di_feature_flags : Z;
  di_max_payload_words : Z;
  di_max_data_words : Z;
  di_boot_mode : Z;
  di_kernel_layout : Z;
  di_revision_id : Z;
  di_uid_unique : Z;
}.

Definition DeviceInfo_fields32 (d : DeviceInfo) : list (string * Z) :=
  [("feature_flags"%string, di_feature_flags d); ("revision_id"%string, di_revision_id d);
   ("uid_unique"%string, di_uid_unique d)].
Definition DeviceInfo_fields16 (d : DeviceInfo) : list (string * Z) :=
  [("device_id"%string, di_device_id d); ("cpu_id"%string, di_cpu_id d);
   ("kernel_ver_major"%string, di_kernel_ver_major d);
   ("kernel_ver_minor"%string, di_kernel_ver_minor d);
   ("kernel_ver_patch"%string, di_kernel_ver_patch d);
   ("protocol_ver"%string, di_protocol_ver d);
   ("max_payload_words"%string, di_max_payload_words d);
   ("max_data_words"%string, di_max_data_words d);
   ("boot_mode"%string, di_boot_mode d); ("kernel_layout"%string, di_kernel_layout d)].

(** [__post_init__] *)
Definition DeviceInfo_post_init (d : DeviceInfo) : Res DeviceInfo :=
  let? _ := mapR check_uint32 (DeviceInfo_fields32 d) in
  let? _ := mapR check_uint16 (DeviceInfo_fields16 d) in
  fail (Err ValueError (Lit "max_data_words must be a positive multiple of 8"))
    when (di_max_data_words d =? 0)
         || negb (di_max_data_words d mod WRITE_DATA_ALIGNMENT_WORDS =? 0) ;;
  fail (Err ValueError (Lit "max_data_words plus 5 metadata words must fit max_payload_words"))
    when di_max_data_words d + 5 >? di_max_payload_words d ;;
  Ok d.

Definition DeviceInfo_from_words (words : list Z) : Res DeviceInfo :=
  let? values := check_words words 16 "DeviceInfo" in
  DeviceInfo_post_init
    (mkDeviceInfo (at_ values 0) (at_ values 1) (at_ values 2) (at_ values 3) (at_ values 4)
       (at_ values 5) (join_u32 (at_ values 6) (at_ values 7))
       (at_ values 8) (at_ values 9) (at_ values 10) (at_ values 11)
       (join_u32 (at_ values 12) (at_ values 13)) (join_u32 (at_ values 14) (at_ values 15))).

Definition DeviceInfo_to_words (d : DeviceInfo) : Res (list Z) :=
  let? (feature_low, feature_high) := split_u32 (di_feature_flags d) in
  let? (revision_low, revision_high) := split_u32 (di_revision_id d) in
  let? (uid_low, uid_high) := split_u32 (di_uid_unique d) in
  Ok [di_device_id d; di_cpu_id d; di_kernel_ver_major d; di_kernel_ver_minor d;
      di_kernel_ver_patch d; di_protocol_ver d; feature_low; feature_high;
      di_max_payload_words d; di_max_data_words d; di_boot_mode d; di_kernel_layout d;
      revision_low; revision_high; uid_low; uid_high].

(** ** ErrorDetail *)

Record ErrorDetail : Type := mkErrorDetail {
  ed_operation : Z;
  ed_stage : Z;
  ed_address : Z;
  ed_length_words : Z;
  ed_api_status : Z;
  ed_fsm_status : Z;
  ed_extra0 : Z;
  ed_extra1 : Z;
}.

Definition ErrorDetail_fields16 (e : ErrorDetail) : list (string * Z) :=
  [("operation"%string, ed_operation e); ("stage"%string, ed_stage e);
   ("api_status"%string, ed_api_status e); ("extra0"%string, ed_extra0 e);
   ("extra1"%string, ed_extra1 e)].
Definition ErrorDetail_fields32 (e : ErrorDetail) : list (string * Z) :=
  [("address"%string, ed_address e); ("length_words"%string, ed_length_words e);
   ("fsm_status"%string, ed_fsm_status e)].

Definition ErrorDetail_post_init (e : ErrorDetail) : Res ErrorDetail :=
  let? _ := mapR check_uint16 (ErrorDetail_fields16 e) in
  let? _ := mapR check_uint32 (ErrorDetail_fields32 e) in
  Ok e.

Definition ErrorDetail_from_words (words : list Z) : Res ErrorDetail :=
  let? values := check_words words 11 "ErrorDetail" in
  ErrorDetail_post_init
    (mkErrorDetail (at_ values 0) (at_ values 1) (join_u32 (at_ values 2) (at_ values 3))
       (join_u32 (at_ values 4) (at_ values 5)) (at_ values 6)
       (join_u32 (at_ values 7) (at_ values 8)) (at_ values 9) (at_ values 10)).

Definition ErrorDetail_to_words (e : ErrorDetail) : Res (list Z) :=
  let? (address_low, address_high) := split_u32 (ed_address e) in
  let? (length_low, length_high) := split_u32 (ed_length_words e) in
  let? (fsm_low, fsm_high) := split_u32 (ed_fsm_status e) in
  Ok [ed_operation e; ed_stage e; address_low; address_high; length_low; length_high;
      ed_api_status e; fsm_low; fsm_high; ed_extra0 e; ed_extra1 e].

(** ** MetadataSummary and ServiceStatus *)

Record MetadataSummary : Type := mkMetadataSummary {
  ms_metadata_valid : Z;
  ms_active_slot : Z;
  ms_latest_record_type : Z;
  ms_boot_attempt_count : Z;
  ms_app_confirmed : Z;
  ms_boot_attempt_limit : Z;
  ms_app_version_major : Z;
  ms_app_version_minor : Z;
  ms_app_version_patch : Z;
  ms_app_version_build : Z;
  ms_entry_point : Z;
  ms_image_crc32 : Z;
  ms_state : Z;
  ms_valid_record_count : Z;
  ms_invalid_record_count : Z;
  ms_erased_record_count : Z;
  ms_free_record_count : Z;
  ms_next_record_index : Z;
  ms_image_size_words : Z;
  ms_target_device_id : Z;
  ms_target_cpu_id : Z;
}.

Definition MetadataSummary_from_words (words : list Z) : Res MetadataSummary :=
  let? values := check_words words METADATA_SUMMARY_WORDS "MetadataSummary" in
  Ok (mkMetadataSummary (at_ values 0) (at_ values 1) (at_ values 2) (at_ values 3)
        (at_ values 4) (at_ values 5) (at_ values 6) (at_ values 7) (at_ values 8)
        (join_u32 (at_ values 9) (at_ values 10)) (join_u32 (at_ values 11) (at_ values 12))
        (join_u32 (at_ values 13) (at_ values 14))
        (at_ values 15) (at_ values 16) (at_ values 17) (at_ values 18) (at_ values 19)
        (at_ values 20) (join_u32 (at_ values 21) (at_ values 22)) (at_ values 23)
        (at_ values 24)).

Record ServiceStatus : Type := mkServiceStatus {
  ss_service_state : Z;
  ss_abi_major : Z;
  ss_abi_minor : Z;
  ss_reserved0 : Z;
  ss_reserved1 : Z;
  ss_capabilities : Z;
  ss_last_attach_status : Z;
  ss_loaded_image_crc32 : Z;
  ss_loaded_image_words : Z;
}.

Definition ServiceStatus_from_words (words : list Z) : Res ServiceStatus :=
  let? values := check_words words SERVICE_STATUS_WORDS "ServiceStatus" in
  Ok (mkServiceStatus (at_ values 0) (at_ values 1) (at_ values 2) (at_ values 3)
        (at_ values 4) (join_u32 (at_ values 5) (at_ values 6)) (at_ values 7)
        (join_u32 (at_ values 8) (at_ values 9)) (join_u32 (at_ values 10) (at_ values 11))).

(** ** ProtocolInfo *)

Record ProtocolInfo : Type := mkProtocolInfo {
  pi_protocol_ver : Z;
  pi_min_supported_ver : Z;
  pi_max_supported_ver : Z;
  pi_header_words : Z;
  pi_crc_type : Z;
  pi_endian : Z;
  pi_max_payload_words : Z;
  pi_flags : Z;
}.

Definition ProtocolInfo_from_words (values : list Z) : Res ProtocolInfo :=
  fail (Err ProtocolDecodeError (Lit "ProtocolInfo requires exactly 8 words"))
    when negb (zlen values =? 8) ;;
  fail (Err ProtocolDecodeError (Lit "ProtocolInfo values must fit uint16"))
    when existsb (λ word, (word <? 0) || (word >? 0xFFFF)) values ;;
  let result := mkProtocolInfo (at_ values 0) (at_ values 1) (at_ values 2) (at_ values 3)
    (at_ values 4) (at_ values 5) (at_ values 6) (at_ values 7) in
  fail (Err ProtocolDecodeError (Lit "ProtocolInfo max_payload_words must be positive"))
    when pi_max_payload_words result <=? 0 ;;
  fail (Err ProtocolDecodeError (Lit "unsupported ProtocolInfo protocol_ver"))
    when negb (pi_protocol_ver result =? PROTOCOL_VERSION) ;;
  fail (Err ProtocolDecodeError (Lit "host protocol version is outside the supported range"))
    when (pi_min_supported_ver result >? PROTOCOL_VERSION)
         || (pi_max_supported_ver result <? PROTOCOL_VERSION) ;;
  fail (Err ProtocolDecodeError (Lit "unsupported ProtocolInfo header_words"))
    when negb (pi_header_words result =? HEADER_WORDS) ;;
  fail (Err ProtocolDecodeError (Lit "unsupported ProtocolInfo crc_type"))
    when negb (pi_crc_type result =? CRC_TYPE_CCITT_FALSE) ;;
  fail (Err ProtocolDecodeError (Lit "unsupported ProtocolInfo endian"))
    when negb (pi_endian result =? ENDIAN_LITTLE) ;;
  Ok result.

(** ** What the constructors enforce *)

Record DeviceInfo_ok (d : DeviceInfo) : Prop := {
  di_ok32 : Forall (λ f, u32 f.2) (DeviceInfo_fields32 d);
  di_ok16 : Forall (λ f, u16 f.2) (DeviceInfo_fields16 d);
  di_data_positive : 0 < di_max_data_words d;
  di_data_aligned : di_max_data_words d mod 8 = 0;
  di_data_fits : di_max_data_words d + 5 <= di_max_payload_words d;
}.

Record ErrorDetail_ok (e : ErrorDetail) : Prop := {
  ed_ok16 : Forall (λ f, u16 f.2) (ErrorDetail_fields16 e);
  ed_ok32 : Forall (λ f, u32 f.2) (ErrorDetail_fields32 e);
}.

Lemma check_words_ok ws n name r :
  check_words ws n name = Ok r ↔ r = ws ∧ zlen ws = n ∧ Forall u16 ws.
Proof.
  unfold check_words. rewrite <-existsb_unfit_false.
  destruct (zlen ws =? n) eqn:El; simpl; [|split; [done|lia]].
  destruct (existsb _ ws); split; try done.
  - by intros (_ & _ & ?).
  - intros [= <-]. repeat split. lia.
  - by intros (-> & _).
Qed.

Lemma check_words_u16 ws n name : zlen ws = n → Forall u16 ws → check_words ws n name = Ok ws.
Proof. intros. by apply check_words_ok. Qed.

Lemma check_uint16_ok f u : check_uint16 f = Ok u ↔ u16 f.2.
Proof.
  unfold check_uint16, u16. destruct u. destruct (_ || _) eqn:E; split; try done; lia.
Qed.

Lemma check_uint32_ok f u : check_uint32 f = Ok u ↔ u32 f.2.
Proof.
  unfold check_uint32, u32. destruct u. destruct (_ || _) eqn:E; split; try done; lia.
Qed.

Lemma mapR_check_ok (P : string * Z → Prop) (check : string * Z → Res unit) l :
  (∀ f u, check f = Ok u ↔ P f) →
  match mapR check l with Ok _ => Forall P l | Raise _ => ¬ Forall P l end.
Proof.
  intros Hc. induction l as [|f l IH]; simpl; [constructor|].
  destruct (check f) as [u|] eqn:E.
  - apply Hc in E. destruct (mapR check l); [by constructor|].
    by intros [_ ?]%Forall_cons.
  - intros [Hf _]%Forall_cons. apply (Hc f tt) in Hf. congruence.
Qed.

Lemma DeviceInfo_post_init_ok d r : DeviceInfo_post_init d = Ok r ↔ r = d ∧ DeviceInfo_ok d.
Proof.
  unfold DeviceInfo_post_init, WRITE_DATA_ALIGNMENT_WORDS.
  pose proof (mapR_check_ok _ _ (DeviceInfo_fields32 d) check_uint32_ok) as H32.
  pose proof (mapR_check_ok _ _ (DeviceInfo_fields16 d) check_uint16_ok) as H16.
  destruct (mapR check_uint32 _); [|split; [done|by intros [_ []]]].
  destruct (mapR check_uint16 _); [|split; [done|by intros [_ []]]].
  assert (u16 (di_max_data_words d)) as Hu.
  { unfold DeviceInfo_fields16 in H16. rewrite !Forall_cons in H16. simpl in H16. tauto. }
  unfold u16 in Hu.
  destruct ((di_max_data_words d =? 0) || _) eqn:E1; [split; [done|intros [_ []]; lia]|].
  destruct (di_max_data_words d + 5 >? _) eqn:E2; [split; [done|intros [_ []]; lia]|].
  split; [intros [= <-]|by intros [-> _]]. split; [done|]. split; try done; lia.
Qed.

Lemma ErrorDetail_post_init_ok e r : ErrorDetail_post_init e = Ok r ↔ r = e ∧ ErrorDetail_ok e.
Proof.
  unfold ErrorDetail_post_init.
  pose proof (mapR_check_ok _ _ (ErrorDetail_fields32 e) check_uint32_ok) as H32.
  pose proof (mapR_check_ok _ _ (ErrorDetail_fields16 e) check_uint16_ok) as H16.
  destruct (mapR check_uint16 _); [|split; [done|by intros [_ []]]].
  destruct (mapR check_uint32 _); [|split; [done|by intros [_ []]]].
  split; [by intros [= <-]|by intros [-> _]].
Qed.

(** ** Round trips *)

(** Name the [n] elements of a list of known length. *)
Ltac explode ws H :=
  unfold zlen in H; apply (f_equal Z.to_nat) in H; rewrite Nat2Z.id in H;
  cbv [Z.to_nat Pos.to_nat Pos.iter_op Nat.add] in H;
  repeat match type of H with
  | length ws = S _ => destruct ws as [|? ws]; [discriminate H|simpl in H; apply Nat.succ_inj in H]
  | length ws = O => destruct ws; [clear H|discriminate H]
  end.

Ltac split_halves :=
  repeat match goal with
  | H : u32 ?v |- context [split_u32 ?v] =>
      let lo := fresh "lo" in let hi := fresh "hi" in
      destruct (join_split_u32 v H) as (lo & hi & -> & ? & ? & <-); clear H
  end.

Lemma DeviceInfo_roundtrip ws d :
  DeviceInfo_from_words ws = Ok d ↔ DeviceInfo_ok d ∧ DeviceInfo_to_words d = Ok ws.
Proof.
  unfold DeviceInfo_from_words. split.
  - destruct (check_words ws 16 _) as [v|] eqn:E; [|done].
    apply check_words_ok in E as (-> & Hl & Hu).
    intros (-> & Hd)%DeviceInfo_post_init_ok. split; [done|]. explode ws Hl.
    rewrite !Forall_cons in Hu. destruct_and?. unfold DeviceInfo_to_words. cbn.
    by rewrite !split_join_u32 by done.
  - intros [Hd E]. pose proof Hd as [H32 H16 _ _ _].
    unfold DeviceInfo_fields32, DeviceInfo_fields16 in *. rewrite !Forall_cons in *.
    destruct d as [a0 a1 a2 a3 a4 a5 ff a8 a9 a10 a11 rv uid]. cbn in *. destruct_and?.
    unfold DeviceInfo_to_words in E. cbn in E. revert E. split_halves. intros [= <-].
    rewrite check_words_u16 by (done || (rewrite !Forall_cons; auto 20)).
    cbn. by apply DeviceInfo_post_init_ok.
Qed.

Lemma ErrorDetail_roundtrip ws e :
  ErrorDetail_from_words ws = Ok e ↔ ErrorDetail_ok e ∧ ErrorDetail_to_words e = Ok ws.
Proof.
  unfold ErrorDetail_from_words. split.
  - destruct (check_words ws 11 _) as [v|] eqn:E; [|done].
    apply check_words_ok in E as (-> & Hl & Hu).
    intros (-> & He)%ErrorDetail_post_init_ok. split; [done|]. explode ws Hl.
    rewrite !Forall_cons in Hu. destruct_and?. unfold ErrorDetail_to_words. cbn.
    by rewrite !split_join_u32 by done.
  - intros [He E]. pose proof He as [H16 H32].
    unfold ErrorDetail_fields32, ErrorDetail_fields16 in *. rewrite !Forall_cons in *.
    destruct e as [a0 a1 ad ln a4 fs a6 a7]. cbn in *. destruct_and?.
    unfold ErrorDetail_to_words in E. cbn in E. revert E. split_halves. intros [= <-].
    rewrite check_words_u16 by (done || (rewrite !Forall_cons; auto 20)).
    cbn. by apply ErrorDetail_post_init_ok.
Qed.

Lemma DeviceInfo_to_words_ok d :
  DeviceInfo_ok d → ∃ ws, DeviceInfo_to_words d = Ok ws ∧ Forall u16 ws ∧ zlen ws = 16.
Proof.
  intros Hd. assert (∃ ws, DeviceInfo_to_words d = Ok ws) as [ws E].
  { destruct Hd as [H32 _ _ _ _]. unfold DeviceInfo_fields32 in H32. rewrite !Forall_cons in H32.
    cbn in H32. destruct_and?. unfold DeviceInfo_to_words. rewrite !split_u32_ok by done. eauto. }
  exists ws. split; [done|].
  assert (DeviceInfo_from_words ws = Ok d) as E' by by apply DeviceInfo_roundtrip.
  unfold DeviceInfo_from_words in E'.
  destruct (check_words ws 16 _) eqn:Ec; [|done]. by apply check_words_ok in Ec as (_ & ? & ?).
Qed.

Lemma ErrorDetail_to_words_ok e :
  ErrorDetail_ok e → ∃ ws, ErrorDetail_to_words e = Ok ws ∧ Forall u16 ws ∧ zlen ws = 11.
Proof.
  intros He. assert (∃ ws, ErrorDetail_to_words e = Ok ws) as [ws E].
  { destruct He as [_ H32]. unfold ErrorDetail_fields32 in H32. rewrite !Forall_cons in H32.
    cbn in H32. destruct_and?. unfold ErrorDetail_to_words. rewrite !split_u32_ok by done. eauto. }
  exists ws. split; [done|].
  assert (ErrorDetail_from_words ws = Ok e) as E' by by apply ErrorDetail_roundtrip.
  unfold ErrorDetail_from_words in E'.
  destruct (check_words ws 11 _) eqn:Ec; [|done]. by apply check_words_ok in Ec as (_ & ? & ?).
Qed.

(** ** Properties *)

(** [DeviceInfo] and [ErrorDetail] cross the wire unchanged, and nothing
    else is accepted: [from_words] returns a record exactly when the record satisfies
    its constructor's checks and the words are what its [to_words] gives. *)
Theorem models_roundtrip ws d e :
  (DeviceInfo_from_words ws = Ok d ↔ DeviceInfo_ok d ∧ DeviceInfo_to_words d = Ok ws) ∧
  (ErrorDetail_from_words ws = Ok e ↔ ErrorDetail_ok e ∧ ErrorDetail_to_words e = Ok ws).
Proof. split; [apply DeviceInfo_roundtrip|apply ErrorDetail_roundtrip]. Qed.

(** A [ProtocolInfo] that decodes describes exactly the protocol the host speaks:
    decoding succeeds only on eight uint16 words whose version, header size,
    checksum and byte order are the host's, whose supported range contains the
    host's version, and whose payload maximum is positive. *)
Theorem ProtocolInfo_compatible ws p :
  ProtocolInfo_from_words ws = Ok p ↔
    zlen ws = PROTOCOL_INFO_WORDS ∧ Forall u16 ws ∧
    p = mkProtocolInfo PROTOCOL_VERSION (pi_min_supported_ver p) (pi_max_supported_ver p)
          HEADER_WORDS CRC_TYPE_CCITT_FALSE ENDIAN_LITTLE (pi_max_payload_words p) (pi_flags p) ∧
    pi_min_supported_ver p <= PROTOCOL_VERSION <= pi_max_supported_ver p ∧
    0 < pi_max_payload_words p ∧
    ws = [pi_protocol_ver p; pi_min_supported_ver p; pi_max_supported_ver p; pi_header_words p;
          pi_crc_type p; pi_endian p; pi_max_payload_words p; pi_flags p].
Proof.
  unfold ProtocolInfo_from_words, PROTOCOL_INFO_WORDS, PROTOCOL_VERSION, HEADER_WORDS,
    CRC_TYPE_CCITT_FALSE, ENDIAN_LITTLE. rewrite <-existsb_unfit_false.
  destruct (zlen ws =? 8) eqn:El; simpl; [|split; [done|lia]]. apply Z.eqb_eq in El.
  destruct (existsb _ ws); [split; [done|by intros (_ & ? & _)]|].
  split.
  - repeat (case_match; [done|]). intros [= <-]. simpl in *.
    explode ws El. cbn in *. split; [done|]. split; [done|].
    repeat split; try lia. f_equal; lia.
  - intros (_ & _ & Hp & Hr & Hpos & ->). destruct p. cbn [pi_protocol_ver pi_min_supported_ver
      pi_max_supported_ver pi_header_words pi_crc_type pi_endian pi_max_payload_words pi_flags] in *.
    injection Hp as -> -> -> ->. at_simpl. cbn [negb orb].
    replace (pi_max_payload_words0 <=? 0) with false by lia.
    replace (pi_min_supported_ver0 >? 1) with false by lia.
    by replace (pi_max_supported_ver0 <? 1) with false by lia.
Qed.
