(* ===== verification/Firmware.v ===== *)
(** Firmware images: word memories and stable sorting, then the image models of
    firmware/ with their validation, the Flash layout and the erase masks. *)

(** * Word memories and stable sorting

    The sparse memories of the simulator and the contents of firmware images
    are [gmap Z Z], one word per address.  [write_words] is
    [memory.update({base + i: word for i, word in enumerate(words)})];
    [sorted_by] is Python's stable [sorted(items, key=...)]. *)

From S2P Require Import Prelude.
From S2P Require Import Errors.
From S2P Require Import Constants.
From S2P Require Import Words.

Abbreviation memory := (gmap Z Z).

Fixpoint write_words (base : Z) (words : list Z) (m : memory) : memory :=
  match words with
  | [] => m
  | word :: words => write_words (base + 1) words (<[base := word]> m)
  end.

(** [m.get(address, 0xFFFF)] *)
Definition read_word (m : memory) (address : Z) : Z := default 0xFFFF (m !! address).

Definition read_words (m : memory) (base count : Z) : list Z :=
  map (λ i, read_word m (base + i)) (zrange 0 count).

Lemma write_words_app base ws vs m :
  write_words base (ws ++ vs) m = write_words (base + zlen ws) vs (write_words base ws m).
Proof.
  revert base m. induction ws as [|w ws IH]; intros base m; simpl.
  - rewrite zlen_nil. by rewrite Z.add_0_r.
  - rewrite IH, zlen_cons. f_equal. lia.
Qed.

Lemma write_words_outside base ws m a :
  ¬ (base <= a < base + zlen ws) → write_words base ws m !! a = m !! a.
Proof.
  revert base m. induction ws as [|w ws IH]; intros base m Ha; simpl; [done|].
  rewrite zlen_cons in Ha. pose proof (zlen_nonneg ws).
  rewrite IH by lia. apply lookup_insert_ne. lia.
Qed.

Lemma at_cons w ws i : 0 < i → at_ (w :: ws) i = at_ ws (i - 1).
Proof.
  intros Hi. unfold at_. replace (Z.to_nat i) with (S (Z.to_nat (i - 1))) by lia. done.
Qed.

Lemma write_words_inside base ws m a :
  base <= a < base + zlen ws → write_words base ws m !! a = Some (at_ ws (a - base)).
Proof.
  revert base m. induction ws as [|w ws IH]; intros base m Ha; simpl.
  - rewrite zlen_nil in Ha. lia.
  - rewrite zlen_cons in Ha. destruct (decide (a = base)) as [->|].
    + rewrite write_words_outside by lia. rewrite lookup_insert_eq.
      by rewrite Z.sub_diag.
    + rewrite IH by lia. rewrite at_cons by lia. do 2 f_equal. lia.
Qed.

Lemma write_words_lookup base ws m a :
  write_words base ws m !! a =
    if bool_decide (base <= a < base + zlen ws) then Some (at_ ws (a - base)) else m !! a.
Proof.
  case_bool_decide; [by apply write_words_inside|by apply write_words_outside].
Qed.

Lemma at_Forall (P : Z → Prop) ws i : Forall P ws → 0 <= i < zlen ws → P (at_ ws i).
Proof.
  unfold at_, zlen. intros H Hi. eapply List.Forall_forall; [exact H|]. apply nth_In. lia.
Qed.

Lemma write_words_Forall (P : Z → Prop) base ws m :
  Forall P ws → map_Forall (λ _ w, P w) m → map_Forall (λ _ w, P w) (write_words base ws m).
Proof.
  intros Hws Hm a w. rewrite write_words_lookup. case_bool_decide; [|by apply Hm].
  intros [= <-]. apply at_Forall; [done|lia].
Qed.

Lemma write_words_dom base ws m a :
  a ∈ dom (write_words base ws m) ↔ base <= a < base + zlen ws ∨ a ∈ dom m.
Proof.
  rewrite !elem_of_dom, write_words_lookup. case_bool_decide.
  - split; [by left|by eexists].
  - split; [by right|]. by intros [|].
Qed.

Lemma nth_at ws i : (i < length ws)%nat → nth i ws 0 = at_ ws (Z.of_nat i).
Proof. intros _. unfold at_. by rewrite Nat2Z.id. Qed.

Lemma zrange_length a b : zlen (zrange a b) = Z.max 0 (b - a).
Proof. unfold zlen, zrange. rewrite length_map, length_seq. lia. Qed.

Lemma list_eq_at (l k : list Z) :
  zlen l = zlen k → (∀ i, 0 <= i < zlen l → at_ l i = at_ k i) → l = k.
Proof.
  unfold zlen, at_. intros Hl H. apply (nth_ext l k 0 0); [lia|].
  intros n Hn. specialize (H (Z.of_nat n)). rewrite Nat2Z.id in H. apply H. lia.
Qed.

Lemma at_map_zrange (f : Z → Z) n i : 0 <= i < n → at_ (map f (zrange 0 n)) i = f i.
Proof.
  intros Hi. unfold at_, zrange. rewrite map_map.
  rewrite (nth_indep _ 0 (f (0 + Z.of_nat 0)))
    by (rewrite length_map, length_seq; lia).
  rewrite (map_nth (λ x : nat, f (0 + Z.of_nat x))). rewrite seq_nth by lia. f_equal. lia.
Qed.

Lemma read_words_length m base n : 0 <= n → zlen (read_words m base n) = n.
Proof. intros. unfold read_words. rewrite zlen_map, zrange_length. lia. Qed.

Lemma at_read_words m base n i :
  0 <= i < n → at_ (read_words m base n) i = read_word m (base + i).
Proof. intros. unfold read_words. by rewrite at_map_zrange. Qed.

Lemma read_words_u16 m base n :
  map_Forall (λ _ w, u16 w) m → Forall u16 (read_words m base n).
Proof.
  intros Hm. unfold read_words. apply Forall_map, List.Forall_forall. intros i _.
  unfold read_word. destruct (m !! (base + i)) as [w|] eqn:E; simpl.
  - by apply (Hm _ _ E).
  - unfold u16; lia.
Qed.

Lemma read_words_ext m m' base n :
  (∀ a, base <= a < base + n → m !! a = m' !! a) → read_words m base n = read_words m' base n.
Proof.
  intros H. unfold read_words. apply map_ext_in. intros i Hi%in_zrange.
  unfold read_word. by rewrite H by lia.
Qed.

(** What was written is read back. *)
Lemma read_write_words base ws m : read_words (write_words base ws m) base (zlen ws) = ws.
Proof.
  pose proof (zlen_nonneg ws). apply list_eq_at; [by rewrite read_words_length|].
  rewrite read_words_length by done. intros i Hi. rewrite at_read_words by done.
  unfold read_word. rewrite write_words_inside by lia. simpl. f_equal. lia.
Qed.

Lemma read_write_words_other base ws m base' n :
  base' + n <= base ∨ base + zlen ws <= base' →
  read_words (write_words base ws m) base' n = read_words m base' n.
Proof. intros H. apply read_words_ext. intros a Ha. apply write_words_outside. lia. Qed.

(** ** Stable sorting by an integer key *)

Section sorted_by.
Context {A : Type} (key : A → Z).

(** Insert after every element whose key is not greater. *)
Fixpoint insert_by (x : A) (l : list A) : list A :=
  match l with
  | [] => [x]
  | y :: l => if key x <? key y then x :: y :: l else y :: insert_by x l
  end.

Definition sorted_by (l : list A) : list A := foldl (λ acc x, insert_by x acc) [] l.

Definition key_le (x y : A) : Prop := key x <= key y.

Lemma insert_by_perm x l : insert_by x l ≡ₚ x :: l.
Proof.
  induction l as [|y l IH]; simpl; [done|]. destruct (key x <? key y); [done|].
  rewrite IH. apply Permutation_swap.
Qed.

Lemma sorted_by_perm l : sorted_by l ≡ₚ l.
Proof.
  unfold sorted_by. cut (∀ acc, foldl (λ acc x, insert_by x acc) acc l ≡ₚ acc ++ l).
  { intros H. apply (H []). }
  induction l as [|x l IH]; intros acc; simpl; [by rewrite app_nil_r|].
  rewrite IH, insert_by_perm. apply (Permutation_middle acc l x).
Qed.

Lemma insert_by_sorted x l : StronglySorted key_le l → StronglySorted key_le (insert_by x l).
Proof.
  induction 1 as [|y l Hl IH Hy]; simpl; [repeat constructor|].
  destruct (key x <? key y) eqn:E.
  - constructor; [by constructor|]. constructor; [unfold key_le; lia|].
    eapply Forall_impl; [exact Hy|]. unfold key_le. intros z Hz. simpl in Hz. lia.
  - constructor; [done|]. rewrite insert_by_perm. constructor; [unfold key_le; lia|done].
Qed.

Lemma sorted_by_sorted l : StronglySorted key_le (sorted_by l).
Proof.
  unfold sorted_by. cut (∀ acc, StronglySorted key_le acc →
    StronglySorted key_le (foldl (λ acc x, insert_by x acc) acc l)).
  { intros H. apply H. constructor. }
  induction l as [|x l IH]; intros acc Hacc; simpl; [done|]. apply IH. by apply insert_by_sorted.
Qed.

Lemma sorted_by_nil l : sorted_by l = [] ↔ l = [].
Proof.
  split; [|by intros ->]. intros E. pose proof (sorted_by_perm l) as H. rewrite E in H.
  by apply Permutation_nil.
Qed.

(** Inserting at the end of a sorted list. *)
Lemma insert_by_last x l : Forall (λ y, key y <= key x) l → insert_by x l = l ++ [x].
Proof.
  induction 1 as [|y l Hy _ IH]; simpl; [done|].
  replace (key x <? key y) with false by lia. by rewrite IH.
Qed.

Lemma sorted_by_id l : StronglySorted key_le l → sorted_by l = l.
Proof.
  unfold sorted_by. cut (∀ acc, StronglySorted key_le (acc ++ l) →
    foldl (λ acc x, insert_by x acc) acc l = acc ++ l).
  { intros H. apply (H []). }
  induction l as [|x l IH]; intros acc Hs; simpl; [by rewrite app_nil_r|].
  rewrite insert_by_last.
  - rewrite IH; rewrite <-(assoc_L (++)); done.
  - clear IH. induction acc as [|y acc IH]; [constructor|].
    apply StronglySorted_inv in Hs as [Hs Hy]. constructor; [|by apply IH].
    apply Forall_app in Hy as [_ [Hx _]%Forall_cons]. done.
Qed.

End sorted_by.

(** * Firmware images and their validation

    firmware/models.py, firmware/app_validation.py, firmware/ram_validation.py
    and firmware/flash_layout.py.  The constructors' checks are the
    [_init] functions; [FirmwareImage_ok] is what they establish. *)

(** ** firmware/models.py *)

Record AddressRange : Type := mkRange { ar_start : Z; ar_end_exclusive : Z }.

Definition AddressRange_init (start end_exclusive : Z) : Res AddressRange :=
  fail (Err ValueError (Lit "invalid address range"))
    when (start <? 0) || (end_exclusive <=? start) ;;
  Ok (mkRange start end_exclusive).

Record FirmwareBlock : Type := mkBlock { fb_address : Z; fb_words : list Z }.

Definition FirmwareBlock_init (address : Z) (words : list Z) : Res FirmwareBlock :=
  fail (Err ValueError (Lit "block address must fit uint32"))
    when (address <? 0) || (address >? 0xFFFFFFFF) ;;
  fail (Err ValueError (Lit "firmware block must contain data")) when zlen words =? 0 ;;
  fail (Err ValueError (Lit "firmware data words must fit uint16"))
    when existsb (λ word, (word <? 0) || (word >? 0xFFFF)) words ;;
  Ok (mkBlock address words).

Definition fb_end_exclusive (b : FirmwareBlock) : Z := fb_address b + zlen (fb_words b).

Record FirmwareImage : Type := mkImage {
  fi_source_out_file : string;
  fi_generated_hex_file : string;
  fi_entry_point : Z;
  fi_blocks : list FirmwareBlock;
  fi_total_words : Z;
  fi_address_ranges : list AddressRange;
  fi_file_checksum : string;
  fi_format_info : list (string * PyVal);
}.

(** [any(this.end_exclusive > next.start for this, next in zip(l, l[1:]))] *)
Fixpoint ranges_overlap (l : list AddressRange) : bool :=
  match l with
  | this :: (next :: _) as rest =>
      (ar_end_exclusive this >? ar_start next) || ranges_overlap rest
  | _ => false
  end.

Definition FirmwareImage_init (source_out_file generated_hex_file : string) (entry_point : Z)
    (blocks : list FirmwareBlock) (file_checksum : string) (format_info : list (string * PyVal))
    : Res FirmwareImage :=
  fail (Err ValueError (Lit "entry point must fit uint32"))
    when (entry_point <? 0) || (entry_point >? 0xFFFFFFFF) ;;
  fail (Err ValueError (Lit "firmware image must contain at least one block"))
    when zlen blocks =? 0 ;;
  let? ranges := mapR (λ b, AddressRange_init (fb_address b) (fb_end_exclusive b)) blocks in
  let sorted_ranges := sorted_by ar_start ranges in
  fail (Err ValueError (Lit "firmware blocks overlap")) when ranges_overlap sorted_ranges ;;
  Ok (mkImage source_out_file generated_hex_file entry_point blocks
        (zsum (map (λ b, zlen (fb_words b)) blocks)) ranges file_checksum format_info).

(** ** firmware/app_validation.py *)

Definition SLOT_A_REGION_START : Z := 0x082000.
Definition SLOT_A_METADATA_START : Z := 0x082000.
Definition SLOT_A_METADATA_WORDS : Z := 1024.
Definition SLOT_A_METADATA_END : Z := 0x082400.
Definition SLOT_A_APP_START : Z := 0x082400.
Definition SLOT_A_APP_END_EXCLUSIVE : Z := 0x0C0000.
Definition APP_FLASH_START : Z := SLOT_A_APP_START.
Definition APP_FLASH_END_EXCLUSIVE : Z := SLOT_A_APP_END_EXCLUSIVE.

Definition metadata_message (start end_exclusive : Z) : Msg :=
  Fmt "firmware block 0x{:08X}-0x{:08X} overlaps Slot A metadata area 0x{:08X}-0x{:08X}; relink the App to start at 0x{:08X} or later"
    [VInt start; VInt (end_exclusive - 1); VInt SLOT_A_METADATA_START;
     VInt (SLOT_A_METADATA_END - 1); VInt SLOT_A_APP_START].

(** A [for] loop whose body may raise. *)
Fixpoint forR {A} (f : A → Res unit) (l : list A) : Res unit :=
  match l with [] => Ok tt | x :: l => let? _ := f x in forR f l end.

Definition validate_app_firmware_image (image : FirmwareImage) : Res unit :=
  let? _ := forR (λ block,
      fail (Err ValueError (metadata_message (fb_address block) (fb_end_exclusive block)))
        when (fb_address block <? SLOT_A_METADATA_END)
             && (fb_end_exclusive block >? SLOT_A_METADATA_START) ;; Ok tt)
    (fi_blocks image) in
  let entry := fi_entry_point image in
  fail (Err ValueError (Fmt "entry point 0x{:08X} is outside Slot A App range 0x{:08X}-0x{:08X}; 0x{:08X}-0x{:08X} is reserved for Slot A metadata"
          [VInt entry; VInt APP_FLASH_START; VInt (APP_FLASH_END_EXCLUSIVE - 1);
           VInt SLOT_A_METADATA_START; VInt (SLOT_A_METADATA_END - 1)]))
    when negb ((APP_FLASH_START <=? entry) && (entry <? APP_FLASH_END_EXCLUSIVE)) ;;
  fail (Err ValueError (Fmt "entry point 0x{:08X} is not 8-word aligned" [VInt entry]))
    when negb (entry mod 8 =? 0) ;;
  forR (λ block,
      fail (Err ValueError (Fmt "firmware block 0x{:08X}-0x{:08X} is outside Slot A App range 0x{:08X}-0x{:08X}"
              [VInt (fb_address block); VInt (fb_end_exclusive block - 1); VInt APP_FLASH_START;
               VInt (APP_FLASH_END_EXCLUSIVE - 1)]))
        when (fb_address block <? APP_FLASH_START)
             || (fb_end_exclusive block >? APP_FLASH_END_EXCLUSIVE) ;; Ok tt)
    (fi_blocks image).

(** ** firmware/ram_validation.py *)

Definition RAM_WRITE_RANGES : list AddressRange :=
  [mkRange 0x000000 0x000002; mkRange 0x000123 0x000400; mkRange 0x008000 0x00C000;
   mkRange 0x010000 0x01BFF8; mkRange 0x03F800 0x040000; mkRange 0x049000 0x049800;
   mkRange 0x04B000 0x04B800].

Definition inside_any (start end_exclusive : Z) (ranges : list AddressRange) : bool :=
  existsb (λ item, (ar_start item <=? start) && (end_exclusive <=? ar_end_exclusive item)) ranges.

Definition validate_ram_firmware_image (image : FirmwareImage) : Res unit :=
  fail (Err ValueError (Lit "RAM image must contain data")) when fi_total_words image <=? 0 ;;
  fail (Err ValueError (Lit "RAM entry point is outside allowed RAM write ranges"))
    when negb (inside_any (fi_entry_point image) (fi_entry_point image + 1) RAM_WRITE_RANGES) ;;
  forR (λ block,
      fail (Err ValueError (Lit "RAM image block address wraps uint32"))
        when fb_end_exclusive block >? 0xFFFFFFFF ;;
      fail (Err ValueError (Fmt "RAM image block 0x{:08X}-0x{:08X} is outside allowed RAM write ranges"
              [VInt (fb_address block); VInt (fb_end_exclusive block - 1)]))
        when negb (inside_any (fb_address block) (fb_end_exclusive block) RAM_WRITE_RANGES) ;;
      Ok tt) (fi_blocks image).

(** ** firmware/flash_layout.py *)

Definition ALLOWED_ERASE_MASK : Z := 0x00003FFE.
Definition METADATA_SECTOR_MASK : Z := 0x00000002.

Definition SECTORS : list (Z * Z * Z) :=
  [(0x080000, 0x082000, 0); (0x082000, 0x084000, 1); (0x084000, 0x086000, 2);
   (0x086000, 0x088000, 3); (0x088000, 0x090000, 4); (0x090000, 0x098000, 5);
   (0x098000, 0x0A0000, 6); (0x0A0000, 0x0A8000, 7); (0x0A8000, 0x0B0000, 8);
   (0x0B0000, 0x0B8000, 9); (0x0B8000, 0x0BA000, 10); (0x0BA000, 0x0BC000, 11);
   (0x0BC000, 0x0BE000, 12); (0x0BE000, 0x0C0000, 13)].

Definition block_sector_mask (block : FirmwareBlock) (mask : Z) : Z :=
  foldl (λ mask '(start, stop, bit),
      if (fb_address block <? stop) && (fb_end_exclusive block >? start)
      then Z.lor mask (Z.shiftl 1 bit) else mask) mask SECTORS.

Definition image_sector_mask (image : FirmwareImage) : Z :=
  foldl (λ mask block, block_sector_mask block mask) 0 (fi_blocks image).

Definition validate_manual_erase_mask (sector_mask : Z) : Res unit :=
  fail (Err ValueError (Lit "sector-mask must be nonzero")) when sector_mask =? 0 ;;
  fail (Err ValueError (Lit "sector-mask must not erase Sector A / bootloader"))
    when negb (Z.land sector_mask 0x1 =? 0) ;;
  fail (Err ValueError (Lit "sector-mask contains sectors outside Slot A App erase mask"))
    when negb (Z.land sector_mask (Z.lnot ALLOWED_ERASE_MASK) =? 0) ;;
  Ok tt.

Definition validate_sector_mask_for_image (sector_mask : Z) (image : FirmwareImage) : Res unit :=
  let? _ := validate_app_firmware_image image in
  let? _ := validate_manual_erase_mask sector_mask in
  let needed := image_sector_mask image in
  fail (Err ValueError (Fmt "sector-mask 0x{:08X} does not cover image sectors 0x{:08X}"
          [VInt sector_mask; VInt needed]))
    when (needed =? 0) || negb (Z.land needed (Z.lnot sector_mask) =? 0) ;;
  Ok tt.

Definition calculate_app_sector_mask (image : FirmwareImage) : Res Z :=
  let? _ := validate_app_firmware_image image in
  let mask := image_sector_mask image in
  fail (Err ValueError (Lit "image does not touch any known Flash sector")) when mask =? 0 ;;
  let? _ := validate_manual_erase_mask mask in
  Ok mask.

(** The dict with keys [requested_mask] and [erased_masks]. *)
Record ManualEraseMasks : Type := mkManualMasks {
  mm_requested_mask : Z;
  mm_erased_masks : list Z;
}.

Definition resolve_manual_erase_masks (sector_mask : Z) : Res ManualEraseMasks :=
  let? _ := validate_manual_erase_mask sector_mask in
  let metadata := if negb (Z.land sector_mask METADATA_SECTOR_MASK =? 0)
                  then [METADATA_SECTOR_MASK] else [] in
  let rest := Z.land sector_mask (Z.lnot METADATA_SECTOR_MASK) in
  Ok (mkManualMasks sector_mask (metadata ++ (if negb (rest =? 0) then [rest] else []))).

(** The dict with keys [app_image_mask], [requested_mask], [effective_mask],
    [first_erase_mask] and [second_erase_mask]. *)
Record DfuEraseMasks : Type := mkDfuMasks {
  dm_app_image_mask : Z;
  dm_requested_mask : Z;
  dm_effective_mask : Z;
  dm_first_erase_mask : Z;
  dm_second_erase_mask : Z;
}.

Definition resolve_dfu_erase_masks (image : FirmwareImage) (requested_mask : option Z)
    : Res DfuEraseMasks :=
  let? app_mask := calculate_app_sector_mask image in
  let mask := match requested_mask with None => app_mask | Some m => m end in
  let? _ := validate_sector_mask_for_image mask image in
  let effective := Z.lor mask METADATA_SECTOR_MASK in
  let? _ := validate_manual_erase_mask effective in
  Ok (mkDfuMasks app_mask mask effective METADATA_SECTOR_MASK
        (Z.land effective (Z.lnot METADATA_SECTOR_MASK))).

(** ** What the constructors establish *)

Definition block_ok (b : FirmwareBlock) : Prop :=
  u32 (fb_address b) ∧ fb_words b ≠ [] ∧ Forall u16 (fb_words b).

Definition apart (b c : FirmwareBlock) : Prop :=
  fb_end_exclusive b <= fb_address c ∨ fb_end_exclusive c <= fb_address b.

Record FirmwareImage_ok (image : FirmwareImage) : Prop := {
  fi_entry_ok : u32 (fi_entry_point image);
  fi_nonempty : fi_blocks image ≠ [];
  fi_apart : ForallOrdPairs apart (fi_blocks image);
  fi_total : fi_total_words image = zsum (map (λ b, zlen (fb_words b)) (fi_blocks image));
  fi_ranges : fi_address_ranges image =
    map (λ b, mkRange (fb_address b) (fb_end_exclusive b)) (fi_blocks image);
}.

Lemma FirmwareBlock_init_ok address words b :
  FirmwareBlock_init address words = Ok b ↔ b = mkBlock address words ∧ block_ok b.
Proof.
  unfold FirmwareBlock_init, block_ok, u32. split.
  - destruct (_ || _) eqn:E1; [done|]. destruct (zlen words =? 0) eqn:E2; [done|].
    destruct (existsb _ words) eqn:E3; [done|]. apply existsb_unfit_false in E3.
    intros [= <-]. simpl. split; [done|]. split; [lia|]. split; [|done].
    intros ->. done.
  - intros (-> & Ha & Hne & Hu). simpl in *.
    replace ((address <? 0) || (address >? 4294967295)) with false by lia.
    replace (zlen words =? 0) with false.
    + apply existsb_unfit_false in Hu. by rewrite Hu.
    + symmetry. apply Z.eqb_neq. intros E. by apply zlen_0_inv in E.
Qed.

Lemma ForallOrdPairs_perm {A} (R : A → A → Prop) l k :
  (∀ x y, R x y → R y x) → l ≡ₚ k → ForallOrdPairs R l → ForallOrdPairs R k.
Proof.
  intros Hsym Hp. induction Hp as [|x l k Hp IH|x y l|l k m _ IH1 _ IH2]; intros H; auto.
  - inversion H; subst. constructor; [by rewrite <-Hp|auto].
  - inversion H as [|? ? Hx Hl]; subst. inversion Hl as [|? ? Hy Hl']; subst.
    apply Forall_cons in Hx as [Hxy Hx]. repeat constructor; auto.
Qed.

Lemma ForallOrdPairs_map {A B} (R : B → B → Prop) (f : A → B) l :
  ForallOrdPairs R (map f l) ↔ ForallOrdPairs (λ x y, R (f x) (f y)) l.
Proof.
  induction l as [|x l IH]; simpl; [split; constructor|].
  split; inversion 1 as [|? ? Hx Hl]; subst; constructor.
  - by rewrite List.Forall_map in Hx.
  - by apply IH.
  - by rewrite List.Forall_map.
  - by apply IH.
Qed.

(** Two disjoint ranges of addresses. *)
Definition ranges_apart (r s : AddressRange) : Prop :=
  ar_end_exclusive r <= ar_start s ∨ ar_end_exclusive s <= ar_start r.

Lemma ranges_overlap_false l :
  StronglySorted (key_le ar_start) l → Forall (λ r, ar_start r < ar_end_exclusive r) l →
  ranges_overlap l = false → ForallOrdPairs ranges_apart l.
Proof.
  induction 1 as [|r l Hs IH Hr]; intros Hne Ho; [constructor|].
  apply Forall_cons in Hne as [Hr0 Hne]. destruct l as [|r' l].
  { repeat constructor. }
  cbn [ranges_overlap] in Ho. apply orb_false_elim in Ho as [Ho1 Ho].
  constructor; [|by apply IH]. apply Forall_cons. split; [left; lia|].
  apply StronglySorted_inv in Hs as [_ Hs]. eapply Forall_impl; [exact Hs|].
  intros s Hs'. left. unfold key_le in Hs'. lia.
Qed.

Lemma AddressRange_mapR_ok blocks ranges :
  mapR (λ b, AddressRange_init (fb_address b) (fb_end_exclusive b)) blocks = Ok ranges →
  ranges = map (λ b, mkRange (fb_address b) (fb_end_exclusive b)) blocks ∧
  Forall (λ r, ar_start r < ar_end_exclusive r) ranges.
Proof.
  intros H%mapR_Forall2. induction H as [|b r blocks ranges H _ [-> IH]]; [done|].
  unfold AddressRange_init in H. destruct (_ || _) eqn:E; [done|]. injection H as <-.
  split; [done|]. constructor; [simpl; lia|done].
Qed.

Lemma FirmwareImage_init_ok src hex entry blocks sum info image :
  FirmwareImage_init src hex entry blocks sum info = Ok image →
  FirmwareImage_ok image ∧ fi_blocks image = blocks ∧ fi_entry_point image = entry.
Proof.
  unfold FirmwareImage_init. destruct (_ || _) eqn:E1; [done|].
  destruct (zlen blocks =? 0) eqn:E2; [done|].
  destruct (mapR _ blocks) as [ranges|] eqn:E3; [|done].
  apply AddressRange_mapR_ok in E3 as [Er Hne].
  destruct (ranges_overlap _) eqn:E4; [done|]. intros [= <-]. simpl. split; [|done].
  split; simpl; [unfold u32; lia| | |done|done].
  - intros ->. done.
  - apply ranges_overlap_false in E4.
    + eapply ForallOrdPairs_perm in E4; [|unfold ranges_apart; tauto|apply sorted_by_perm].
      rewrite Er in E4. by rewrite ForallOrdPairs_map in E4.
    + apply sorted_by_sorted.
    + by rewrite sorted_by_perm.
Qed.

Lemma fold_left_false {A} (P : A → Prop) (f : A → Res unit) l :
  (∀ x, f x = Ok tt ↔ P x) → forR f l = Ok tt ↔ Forall P l.
Proof.
  intros Hf. induction l as [|x l IH]; simpl; [split; [constructor|done]|].
  rewrite Forall_cons, <-Hf, <-IH. destruct (f x) as [[]|]; [tauto|]. split; [done|].
  by intros [? _].
Qed.

Lemma fail_unless (b : bool) e : (fail e when b ;; Ok tt) = Ok tt ↔ b = false.
Proof. by destruct b. Qed.

Lemma validate_app_ok image :
  validate_app_firmware_image image = Ok tt ↔
    APP_FLASH_START <= fi_entry_point image < APP_FLASH_END_EXCLUSIVE ∧
    fi_entry_point image mod 8 = 0 ∧
    Forall (λ b, ¬ (fb_address b < SLOT_A_METADATA_END ∧ SLOT_A_METADATA_START < fb_end_exclusive b) ∧
      APP_FLASH_START <= fb_address b ∧ fb_end_exclusive b <= APP_FLASH_END_EXCLUSIVE)
      (fi_blocks image).
Proof.
  unfold validate_app_firmware_image. rewrite Forall_and.
  match goal with |- context [forR ?f ?l] => destruct (forR f l) as [[]|e] eqn:E1 end.
  - rewrite (fold_left_false (λ b, ¬ (fb_address b < SLOT_A_METADATA_END ∧
      SLOT_A_METADATA_START < fb_end_exclusive b))) in E1
      by (intros b; rewrite fail_unless; lia).
    destruct (negb (_ && _)) eqn:E2; [split; [done|lia]|].
    destruct (negb (_ =? 0)) eqn:E3; [split; [done|lia]|].
    rewrite (fold_left_false (λ b, APP_FLASH_START <= fb_address b ∧
      fb_end_exclusive b <= APP_FLASH_END_EXCLUSIVE)) by (intros b; rewrite fail_unless; lia).
    split; [|tauto]. intros ?. repeat split; try done; lia.
  - split; [done|]. intros (_ & _ & H & _). exfalso. revert E1.
    assert (∀ P f l, (∀ b : FirmwareBlock, P b → f b = Ok tt) → Forall P l → forR f l = Raise e → False)
      as Hx.
    { clear. intros P f l Hf. induction 1 as [|b l Hb _ IH]; simpl; [done|].
      by rewrite (Hf b Hb). }
    eapply Hx; [|exact H]. intros b Hb. cbn beta in *. apply fail_unless. lia.
Qed.

(** ** Erase masks as sets of bits *)

Lemma land_lnot_0 a b :
  Z.land a (Z.lnot b) = 0 ↔ ∀ k, 0 <= k → Z.testbit a k = true → Z.testbit b k = true.
Proof.
  split.
  - intros E k Hk Ha. apply (f_equal (λ z, Z.testbit z k)) in E.
    rewrite Z.land_spec, Z.lnot_spec, Z.bits_0, Ha in E by done.
    by destruct (Z.testbit b k).
  - intros H. apply Z.bits_inj'. intros k Hk. rewrite Z.land_spec, Z.lnot_spec, Z.bits_0 by done.
    specialize (H k Hk). destruct (Z.testbit a k); [by rewrite H|done].
Qed.

Lemma shiftl_1_testbit i k : 0 <= i → Z.testbit (Z.shiftl 1 i) k = (i =? k).
Proof. intros. by rewrite Z.shiftl_1_l, Z.pow2_bits_eqb. Qed.

Definition block_in_sector (b : FirmwareBlock) (s : Z * Z * Z) : bool :=
  (fb_address b <? s.1.2) && (fb_end_exclusive b >? s.1.1).

Lemma block_sector_mask_testbit b mask k :
  Z.testbit (block_sector_mask b mask) k =
    Z.testbit mask k || existsb (λ s, block_in_sector b s && (s.2 =? k)) SECTORS.
Proof.
  unfold block_sector_mask. assert (Forall (λ s, 0 <= s.2) SECTORS) as H.
  { unfold SECTORS. repeat (constructor; [simpl; lia|]). constructor. }
  revert mask. induction H as [|[[s e] bit] l Hs _ IH]; intros mask; simpl; [by rewrite orb_false_r|].
  rewrite IH. unfold block_in_sector at 2. simpl.
  destruct ((fb_address b <? e) && (fb_end_exclusive b >? s)); simpl; [|done].
  simpl in Hs. rewrite Z.lor_spec, shiftl_1_testbit by done. by rewrite <-orb_assoc.
Qed.

Lemma image_sector_mask_testbit image k :
  Z.testbit (image_sector_mask image) k =
    existsb (λ b, existsb (λ s, block_in_sector b s && (s.2 =? k)) SECTORS) (fi_blocks image).
Proof.
  unfold image_sector_mask.
  cut (∀ mask, Z.testbit (foldl (λ mask block, block_sector_mask block mask) mask (fi_blocks image)) k =
    Z.testbit mask k ||
    existsb (λ b, existsb (λ s, block_in_sector b s && (s.2 =? k)) SECTORS) (fi_blocks image)).
  { intros H. rewrite H. by rewrite Z.bits_0. }
  induction (fi_blocks image) as [|b l IH]; intros mask; simpl existsb; simpl foldl;
    [by rewrite orb_false_r|].
  rewrite IH, block_sector_mask_testbit. by rewrite <-orb_assoc.
Qed.

(** The sectors tile the Flash. *)
Lemma sector_of a :
  0x080000 <= a < 0x0C0000 → ∃ s e bit, (s, e, bit) ∈ SECTORS ∧ s <= a < e ∧ 0 <= bit < 14.
Proof.
  intros Ha.
  assert (Exists (λ s, s.1.1 <= a < s.1.2 ∧ 0 <= s.2 < 14) SECTORS) as H.
  { unfold SECTORS. rewrite !Exists_cons. simpl. lia. }
  apply Exists_exists in H as ([[s e] bit] & Hin & Hb & Hr). by exists s, e, bit.
Qed.

Lemma validate_manual_ok mask :
  validate_manual_erase_mask mask = Ok tt ↔
    mask ≠ 0 ∧ Z.testbit mask 0 = false ∧
    ∀ k, 0 <= k → Z.testbit mask k = true → Z.testbit ALLOWED_ERASE_MASK k = true.
Proof.
  unfold validate_manual_erase_mask.
  assert ((Z.land mask 1 =? 0) = negb (Z.testbit mask 0)) as ->.
  { change 1 with (Z.ones 1). rewrite Z.land_ones by lia. change (2 ^ 1) with 2.
    rewrite <-Z.bit0_mod. by destruct (Z.testbit mask 0). }
  rewrite <-land_lnot_0. rewrite negb_involutive.
  destruct (Z.eqb_spec mask 0); [split; [done|tauto]|].
  destruct (Z.testbit mask 0); [split; [done|by intros (_ & ? & _)]|].
  destruct (Z.eqb_spec (Z.land mask (Z.lnot ALLOWED_ERASE_MASK)) 0); split; try done; tauto.
Qed.

Lemma metadata_sector_testbit k : Z.testbit METADATA_SECTOR_MASK k = (k =? 1).
Proof.
  unfold METADATA_SECTOR_MASK. change 2 with (2 ^ 1).
  destruct (Z.ltb_spec k 0); [rewrite Z.testbit_neg_r by done; lia|].
  rewrite Z.pow2_bits_eqb by lia. lia.
Qed.

(** Removing the metadata sector from a mask and adding it back. *)
Lemma split_metadata_mask mask :
  Z.land METADATA_SECTOR_MASK (Z.land mask (Z.lnot METADATA_SECTOR_MASK)) = 0 ∧
  Z.lor METADATA_SECTOR_MASK (Z.land mask (Z.lnot METADATA_SECTOR_MASK)) =
    Z.lor mask METADATA_SECTOR_MASK.
Proof.
  split; apply Z.bits_inj'; intros k Hk;
    rewrite ?Z.bits_0, ?Z.lor_spec, ?Z.land_spec, ?Z.lor_spec, ?Z.land_spec, Z.lnot_spec by done;
    bool_bits.
Qed.

(** What a successful resolution has checked. *)
Lemma resolve_dfu_ok image requested m :
  resolve_dfu_erase_masks image requested = Ok m →
  validate_app_firmware_image image = Ok tt ∧
  ∃ mask, m = mkDfuMasks (image_sector_mask image) mask (Z.lor mask METADATA_SECTOR_MASK)
      METADATA_SECTOR_MASK (Z.land (Z.lor mask METADATA_SECTOR_MASK) (Z.lnot METADATA_SECTOR_MASK)) ∧
    Z.land (image_sector_mask image) (Z.lnot mask) = 0 ∧
    validate_manual_erase_mask (Z.lor mask METADATA_SECTOR_MASK) = Ok tt.
Proof.
  unfold resolve_dfu_erase_masks, calculate_app_sector_mask, validate_sector_mask_for_image.
  destruct (validate_app_firmware_image image) as [[]|] eqn:Ev; [|done].
  destruct (image_sector_mask image =? 0) eqn:Ei; [done|].
  destruct (validate_manual_erase_mask (image_sector_mask image)) as [[]|]; [|done].
  set (mask := match requested with None => _ | Some m => m end).
  destruct (validate_manual_erase_mask mask) as [[]|] eqn:Em; [|done].
  destruct (Z.land (image_sector_mask image) (Z.lnot mask) =? 0) eqn:El; [|done]. simpl orb.
  destruct (validate_manual_erase_mask (Z.lor mask METADATA_SECTOR_MASK)) as [[]|] eqn:Ee; [|done].
  intros [= <-]. split; [done|]. exists mask. apply Z.eqb_eq in El. done.
Qed.

Lemma effective_covers image mask b a :
  validate_app_firmware_image image = Ok tt → Z.land (image_sector_mask image) (Z.lnot mask) = 0 →
  b ∈ fi_blocks image → fb_address b <= a < fb_end_exclusive b →
  ∃ s e bit, (s, e, bit) ∈ SECTORS ∧ s <= a < e ∧
    Z.testbit (Z.lor mask METADATA_SECTOR_MASK) bit = true.
Proof.
  intros Hv%validate_app_ok El Hin Ha. destruct Hv as (_ & _ & Hb).
  eapply (proj1 (List.Forall_forall _ _)) in Hb; [|by apply list_elem_of_In].
  destruct Hb as (_ & Hs & He). unfold APP_FLASH_START, SLOT_A_APP_START, APP_FLASH_END_EXCLUSIVE,
    SLOT_A_APP_END_EXCLUSIVE in *.
  destruct (sector_of a ltac:(lia)) as (s & e & bit & Hsec & Hr & Hbit).
  exists s, e, bit. split; [done|]. split; [done|]. rewrite Z.lor_spec.
  apply orb_true_intro. left. apply (proj1 (land_lnot_0 _ _) El); [lia|].
  rewrite image_sector_mask_testbit. apply existsb_exists. exists b.
  split; [by apply list_elem_of_In|]. apply existsb_exists. exists (s, e, bit).
  split; [by apply list_elem_of_In|]. unfold block_in_sector. simpl. lia.
Qed.

(** ** Properties *)

(** [validate_app_firmware_image] accepts exactly the images whose entry point is an
    8-word aligned address of the Slot A application range and whose blocks all lie in
    that range; in particular no accepted block touches the metadata area. *)
Theorem validate_app_exact image :
  (validate_app_firmware_image image = Ok tt ↔
    APP_FLASH_START <= fi_entry_point image < APP_FLASH_END_EXCLUSIVE ∧
    fi_entry_point image mod 8 = 0 ∧
    Forall (λ b, APP_FLASH_START <= fb_address b ∧ fb_end_exclusive b <= APP_FLASH_END_EXCLUSIVE)
      (fi_blocks image)) ∧
  (validate_app_firmware_image image = Ok tt →
    Forall (λ b, SLOT_A_METADATA_END <= fb_address b) (fi_blocks image)).
Proof.
  rewrite validate_app_ok. unfold APP_FLASH_START, SLOT_A_APP_START, SLOT_A_METADATA_END.
  split.
  - split; intros (H1 & H2 & H3); do 2 (split; [done|]);
      (eapply Forall_impl; [exact H3|]); simpl; intros b Hb; [tauto|lia].
  - intros (_ & _ & H3). eapply Forall_impl; [exact H3|]. simpl. tauto.
Qed.

Definition image_example : FirmwareImage :=
  mkImage "app.out" "app.txt" 0x082400
    [mkBlock 0x082400 [1; 2; 3; 4; 5; 6; 7; 8]; mkBlock 0x088000 [9; 10]] 10
    [mkRange 0x082400 0x082408; mkRange 0x088000 0x088002] EmptyString [].

Lemma image_example_ok :
  FirmwareImage_ok image_example ∧ Forall block_ok (fi_blocks image_example).
Proof.
  split.
  - eapply (FirmwareImage_init_ok "app.out" "app.txt" 0x082400 (fi_blocks image_example) EmptyString []).
    reflexivity.
  - repeat constructor; simpl; unfold u32, u16; try lia; discriminate.
Qed.

Lemma validate_app_exact_witness :
  validate_app_firmware_image image_example = Ok tt ∧
  Forall (λ b, SLOT_A_METADATA_END <= fb_address b) (fi_blocks image_example).
Proof.
  split; [reflexivity|]. apply (validate_app_exact image_example). reflexivity.
Defined.

(** The DFU erase plan covers the image and spares the bootloader: when
    [resolve_dfu_erase_masks] succeeds, every address of every block lies in a
    sector of the effective mask, the metadata sector is erased first and on
    its own, the two masks are disjoint and together are the effective mask,
    and sector A is in neither. *)
Theorem dfu_erase_covers_image image requested m b a :
  resolve_dfu_erase_masks image requested = Ok m →
  b ∈ fi_blocks image → fb_address b <= a < fb_end_exclusive b →
  (∃ s e bit, (s, e, bit) ∈ SECTORS ∧ s <= a < e ∧ Z.testbit (dm_effective_mask m) bit = true) ∧
  dm_first_erase_mask m = METADATA_SECTOR_MASK ∧
  Z.land (dm_first_erase_mask m) (dm_second_erase_mask m) = 0 ∧
  Z.lor (dm_first_erase_mask m) (dm_second_erase_mask m) = dm_effective_mask m ∧
  Z.testbit (dm_effective_mask m) 0 = false.
Proof.
  intros Hm Hb Ha. destruct (resolve_dfu_ok _ _ _ Hm) as (Hv & mask & -> & Hl & Hman).
  cbn [dm_effective_mask dm_first_erase_mask dm_second_erase_mask].
  destruct (split_metadata_mask (Z.lor mask METADATA_SECTOR_MASK)) as [Hd Hu].
  split; [|split; [done|split; [exact Hd|split]]].
  - by apply (effective_covers image mask b).
  - rewrite Hu. apply Z.bits_inj'. intros k Hk. rewrite !Z.lor_spec. bool_bits.
  - by apply validate_manual_ok in Hman as (_ & ? & _).
Qed.

Lemma dfu_erase_covers_image_witness :
  resolve_dfu_erase_masks image_example None = Ok (mkDfuMasks 0x12 0x12 0x12 0x2 0x10) ∧
  ∃ s e bit, (s, e, bit) ∈ SECTORS ∧ s <= 0x088001 < e ∧ Z.testbit 0x12 bit = true.
Proof.
  split; [reflexivity|].
  apply (dfu_erase_covers_image image_example None (mkDfuMasks 0x12 0x12 0x12 0x2 0x10)
    (mkBlock 0x088000 [9; 10]) 0x088001).
  - reflexivity.
  - right. left.
  - vm_compute. split; [discriminate|reflexivity].
Defined.
