(* ===== verification/Packets.v ===== *)
(** * Download packets (core/workflow.py, lines 63-135)

    How a firmware image becomes the data packets of PROGRAM, VERIFY and
    RAM_LOAD: contiguous blocks are merged, each merged block is cut into
    chunks of at most [max_data_words] words, and Flash chunks are padded.
    The [while offset < len(block.words)] loops are [chunks]; every iteration
    consumes at least one word when [max_data_words] is positive, so the
    number of words is enough fuel. *)

From S2P Require Import Prelude.
From S2P Require Import Errors.
From S2P Require Import Constants.
From S2P Require Import Words.
From S2P Require Import Firmware.

Record DataPacket : Type := mkPacket {
  dp_address : Z;
  dp_words : list Z;
  dp_index : Z;
}.

Fixpoint merge_loop (address : Z) (words : list Z) (rest : list FirmwareBlock)
    : Res (list FirmwareBlock) :=
  match rest with
  | [] => let? b := FirmwareBlock_init address words in Ok [b]
  | block :: rest =>
      if address + zlen words =? fb_address block
      then merge_loop address (words ++ fb_words block) rest
      else
        let? b := FirmwareBlock_init address words in
        let? merged := merge_loop (fb_address block) (fb_words block) rest in
        Ok (b :: merged)
  end.

Definition merge_contiguous (blocks : list FirmwareBlock) : Res (list FirmwareBlock) :=
  match sorted_by fb_address blocks with
  | [] => Ok []
  | first :: rest => merge_loop (fb_address first) (fb_words first) rest
  end.

(** The slices [words[offset : offset + max]] of the chunk loops, in order. *)
Fixpoint chunks (fuel : nat) (max : nat) (words : list Z) : list (list Z) :=
  match fuel, words with
  | S fuel, _ :: _ => take max words :: chunks fuel max (drop max words)
  | _, _ => []
  end.

Definition chunks_of (max : Z) (words : list Z) : list (list Z) :=
  chunks (length words) (Z.to_nat max) words.

(** The body of the [while] loop of [_prepare_packets] for one block. *)
Fixpoint flash_packets (address index max : Z) (raws : list (list Z)) : Res (list DataPacket) :=
  match raws with
  | [] => Ok []
  | raw :: raws =>
      let? data := pad_write_data raw (Some max) in
      let? packets := flash_packets (address + zlen raw) (index + 1) max raws in
      Ok (mkPacket address data index :: packets)
  end.

Fixpoint flash_packets_blocks (index max : Z) (blocks : list FirmwareBlock)
    : Res (list DataPacket) :=
  match blocks with
  | [] => Ok []
  | block :: blocks =>
      let? packets := flash_packets (fb_address block) index max (chunks_of max (fb_words block)) in
      let? more := flash_packets_blocks (index + zlen packets) max blocks in
      Ok (packets ++ more)
  end.

Definition prepare_packets (image : FirmwareImage) (max_data_words : Z) : Res (list DataPacket) :=
  let? blocks := merge_contiguous (fi_blocks image) in
  let? packets := flash_packets_blocks 0 max_data_words blocks in
  fail (Err WorkflowError (Lit "firmware requires more than 65535 protocol packets"))
    when zlen packets >? 0xFFFF ;;
  Ok packets.

Definition packet_words (packets : list DataPacket) : list Z := concat (map dp_words packets).

Definition calculate_programmed_image_crc32 (image : FirmwareImage) (max_data_words : Z) : Res Z :=
  let? packets := prepare_packets image max_data_words in crc32_words (packet_words packets).

Fixpoint ram_packets (address index : Z) (raws : list (list Z)) : list DataPacket :=
  match raws with
  | [] => []
  | raw :: raws => mkPacket address raw index :: ram_packets (address + zlen raw) (index + 1) raws
  end.

Fixpoint ram_packets_blocks (index max : Z) (blocks : list FirmwareBlock) : list DataPacket :=
  match blocks with
  | [] => []
  | block :: blocks =>
      let packets := ram_packets (fb_address block) index (chunks_of max (fb_words block)) in
      packets ++ ram_packets_blocks (index + zlen packets) max blocks
  end.

Definition prepare_ram_packets (image : FirmwareImage) (max_data_words : Z)
    : Res (list DataPacket) :=
  let? blocks := merge_contiguous (fi_blocks image) in
  let packets := ram_packets_blocks 0 max_data_words blocks in
  fail (Err WorkflowError (Lit "RAM image requires more than 65535 protocol packets"))
    when zlen packets >? 0xFFFF ;;
  Ok packets.

Definition calculate_ram_image_crc32 (image : FirmwareImage) (max_data_words : Z) : Res Z :=
  let? packets := prepare_ram_packets image max_data_words in crc32_words (packet_words packets).

(** [max] of a non-empty list of addresses. *)
Definition zmax_list (l : list Z) : Z :=
  match l with [] => 0 | x :: l => foldl Z.max x l end.

Definition programmed_image_size_and_end (image : FirmwareImage) (max_data_words : Z)
    : Res (Z * Z) :=
  let? packets := prepare_packets image max_data_words in
  fail (Err WorkflowError (Lit "firmware image has no programmable data"))
    when zlen packets =? 0 ;;
  Ok (zsum (map (λ p, zlen (dp_words p)) packets),
      zmax_list (map (λ p, dp_address p + zlen (dp_words p)) packets)).

(** ** The contents of blocks and packets *)

(** Writing pieces of words, first to last. *)
Definition write_pieces (pieces : list (Z * list Z)) (m : memory) : memory :=
  foldl (λ m '(base, words), write_words base words m) m pieces.

Definition block_piece (b : FirmwareBlock) : Z * list Z := (fb_address b, fb_words b).
Definition packet_piece (p : DataPacket) : Z * list Z := (dp_address p, dp_words p).

Definition image_memory (image : FirmwareImage) : memory :=
  write_pieces (map block_piece (fi_blocks image)) ∅.

(** The memory after the device has stored every packet. *)
Definition store_packets (packets : list DataPacket) (m : memory) : memory :=
  write_pieces (map packet_piece packets) m.

Definition piece_end (p : Z * list Z) : Z := p.1 + zlen p.2.
Definition pieces_apart (p q : Z * list Z) : Prop := piece_end p <= q.1 ∨ piece_end q <= p.1.

Lemma ForallOrdPairs_cons_inv {A} (R : A → A → Prop) x l :
  ForallOrdPairs R (x :: l) → Forall (R x) l ∧ ForallOrdPairs R l.
Proof. by inversion 1. Qed.

Lemma write_pieces_app ps qs m : write_pieces (ps ++ qs) m = write_pieces qs (write_pieces ps m).
Proof. apply foldl_app. Qed.

Lemma write_pieces_outside ps m a :
  Forall (λ p, ¬ (p.1 <= a < piece_end p)) ps → write_pieces ps m !! a = m !! a.
Proof.
  unfold write_pieces. intros H. revert m.
  induction H as [|[b ws] ps Hp _ IH]; intros m; simpl; [done|].
  rewrite IH. by apply write_words_outside.
Qed.

(** With disjoint pieces the order does not matter: the word at an address is
    the word of the piece that contains it. *)
Lemma write_pieces_inside ps m p a :
  ForallOrdPairs pieces_apart ps → p ∈ ps → p.1 <= a < piece_end p →
  write_pieces ps m !! a = Some (at_ p.2 (a - p.1)).
Proof.
  intros H. revert m. induction H as [|q ps Hq Hps IH]; intros m Hin Ha; [by apply elem_of_nil in Hin|].
  apply elem_of_cons in Hin as [->|Hin].
  - destruct q as [b ws]. unfold write_pieces. simpl.
    change (write_pieces ps (write_words b ws m) !! a = Some (at_ ws (a - b))).
    rewrite write_pieces_outside; [by apply write_words_inside|].
    eapply Forall_impl; [exact Hq|]. intros q. unfold pieces_apart, piece_end in *. simpl in *. lia.
  - destruct q as [b ws]. by apply IH.
Qed.

Lemma write_pieces_lookup ps m a w :
  ForallOrdPairs pieces_apart ps →
  write_pieces ps m !! a = Some w ↔
    (∃ p, p ∈ ps ∧ p.1 <= a < piece_end p ∧ w = at_ p.2 (a - p.1)) ∨
    (Forall (λ p, ¬ (p.1 <= a < piece_end p)) ps ∧ m !! a = Some w).
Proof.
  intros Hap. destruct (decide (Exists (λ p, p.1 <= a < piece_end p) ps)) as [He|Hn].
  - apply Exists_exists in He as (p & Hin & Ha).
    rewrite (write_pieces_inside ps m p a) by done. split.
    + intros [= <-]. left. eauto.
    + intros [(q & Hq & Hqa & ->)|[Hf _]].
      * rewrite <-(write_pieces_inside ps m p a), <-(write_pieces_inside ps m q a) by done. done.
      * eapply (proj1 (List.Forall_forall _ _)) in Hf; [|by apply list_elem_of_In]. done.
  - assert (Forall (λ p, ¬ (p.1 <= a < piece_end p)) ps) as Hf by by apply Forall_Exists_neg.
    rewrite write_pieces_outside by done. split; [by right|].
    intros [(p & Hp & Ha & _)|[_ ?]]; [|done]. exfalso. apply Hn, Exists_exists. eauto.
Qed.

Lemma write_pieces_perm ps qs m :
  ForallOrdPairs pieces_apart ps → ps ≡ₚ qs → write_pieces ps m = write_pieces qs m.
Proof.
  intros Hap Hp. assert (ForallOrdPairs pieces_apart qs) as Hap'.
  { eapply ForallOrdPairs_perm; [|exact Hp|exact Hap]. unfold pieces_apart. tauto. }
  apply map_eq. intros a. apply option_eq. intros w.
  rewrite !write_pieces_lookup by done. setoid_rewrite Hp. done.
Qed.

Lemma block_pieces_apart blocks :
  ForallOrdPairs apart blocks → ForallOrdPairs pieces_apart (map block_piece blocks).
Proof. by rewrite ForallOrdPairs_map. Qed.

(** ** Merging *)

Definition before (b c : FirmwareBlock) : Prop := fb_end_exclusive b <= fb_address c.
Definition gap (b c : FirmwareBlock) : Prop := fb_end_exclusive b < fb_address c.

Lemma block_ok_length b : block_ok b → 0 < zlen (fb_words b).
Proof.
  intros (_ & Hne & _). destruct (fb_words b); [done|]. rewrite zlen_cons.
  pose proof (zlen_nonneg l). lia.
Qed.

Lemma StronglySorted_before blocks :
  StronglySorted (key_le fb_address) blocks → ForallOrdPairs apart blocks →
  Forall block_ok blocks → StronglySorted before blocks.
Proof.
  induction 1 as [|b l Hs IH Hb]; intros Ha Hok; [constructor|].
  inversion Ha as [|? ? Hab Hal]; subst. apply Forall_cons in Hok as [Hbok Hok].
  constructor; [by apply IH|]. apply List.Forall_forall. intros c Hc.
  rewrite List.Forall_forall in Hb, Hab, Hok. specialize (Hb c Hc). specialize (Hab c Hc).
  specialize (Hok c Hc). apply block_ok_length in Hok, Hbok.
  unfold apart, before, key_le, fb_end_exclusive in *. lia.
Qed.

Lemma merge_loop_spec rest address words :
  StronglySorted before (mkBlock address words :: rest) →
  Forall block_ok (mkBlock address words :: rest) →
  ∃ merged, merge_loop address words rest = Ok merged ∧
    Forall block_ok merged ∧ StronglySorted gap merged ∧
    (∀ m, write_pieces (map block_piece merged) m =
          write_pieces ((address, words) :: map block_piece rest) m) ∧
    Forall (λ b, address <= fb_address b) merged ∧
    (∀ P : Z → Prop, P address → Forall (λ b, P (fb_address b)) rest →
      Forall (λ b, P (fb_address b)) merged).
Proof.
  revert address words. induction rest as [|block rest IH]; intros address words Hs Hok.
  - exists [mkBlock address words]. apply Forall_cons in Hok as [Hb _]. cbn [merge_loop].
    rewrite (proj2 (FirmwareBlock_init_ok address words _) (conj eq_refl Hb)).
    split; [done|]. split; [by constructor|]. split; [by repeat constructor|].
    split; [done|]. split; [constructor; [simpl; lia|constructor]|]. intros P HP _. by constructor.
  - apply StronglySorted_inv in Hs as [Hs Hbefore].
    apply Forall_cons in Hbefore as [Hb1 Hb2], Hok as [Hbok [Hblok Hok]%Forall_cons].
    unfold before, fb_end_exclusive in Hb1. simpl in Hb1.
    apply StronglySorted_inv in Hs as [Hs Hblock]. cbn [merge_loop].
    destruct (address + zlen words =? fb_address block) eqn:E.
    + apply Z.eqb_eq in E. destruct (IH address (words ++ fb_words block)) as (merged & Em & H1 & H2 & H3 & H4 & H5).
      * constructor; [done|]. eapply Forall_impl; [exact Hblock|].
        unfold before, fb_end_exclusive. simpl. intros c Hc. rewrite zlen_app. lia.
      * constructor; [|done]. destruct Hbok as (Hu & Hne & ?), Hblok as (_ & _ & ?).
        split; [exact Hu|]. simpl in *. split; [by intros [? ?]%app_eq_nil|]. by apply Forall_app.
      * exists merged. do 3 (split; [done|]). split; [|split; [done|]].
        -- intros m. rewrite H3. unfold write_pieces. simpl. f_equal.
           by rewrite write_words_app, E.
        -- intros P HP [_ HPr]%Forall_cons. by apply H5.
    + rewrite (proj2 (FirmwareBlock_init_ok address words _) (conj eq_refl Hbok)).
      destruct (IH (fb_address block) (fb_words block)) as (merged & Em & H1 & H2 & H3 & H4 & H5).
      * by destruct block; constructor.
      * by destruct block; constructor.
      * rewrite Em. exists (mkBlock address words :: merged). split; [done|].
        assert (address + zlen words < fb_address block) as Hlt by lia.
        pose proof (zlen_nonneg words). split; [by constructor|]. split; [|split; [|split]].
        -- constructor; [done|]. eapply Forall_impl; [exact H4|].
           unfold gap, fb_end_exclusive. simpl. lia.
        -- intros m. unfold write_pieces in *. simpl. apply H3.
        -- constructor; [simpl; lia|]. eapply Forall_impl; [exact H4|]. simpl. lia.
        -- intros P HP [HPb HPr]%Forall_cons. constructor; [done|]. by apply H5.
Qed.

Lemma merge_loop_nonempty rest address words merged :
  merge_loop address words rest = Ok merged → merged ≠ [].
Proof.
  revert address words. induction rest as [|b rest IH]; intros address words; cbn [merge_loop].
  - destruct (FirmwareBlock_init address words); [|done]. by intros [= <-].
  - destruct (_ =? _); [apply IH|]. destruct (FirmwareBlock_init address words); [|done].
    destruct (merge_loop _ _ rest); [|done]. by intros [= <-].
Qed.

Lemma merge_contiguous_spec image :
  FirmwareImage_ok image → Forall block_ok (fi_blocks image) →
  ∃ merged, merge_contiguous (fi_blocks image) = Ok merged ∧ merged ≠ [] ∧
    Forall block_ok merged ∧ StronglySorted gap merged ∧
    write_pieces (map block_piece merged) ∅ = image_memory image ∧
    (∀ P : Z → Prop, Forall (λ b, P (fb_address b)) (fi_blocks image) →
      Forall (λ b, P (fb_address b)) merged).
Proof.
  intros [_ Hne Hap _ _] Hok. unfold merge_contiguous, image_memory.
  pose proof (sorted_by_perm fb_address (fi_blocks image)) as Hp.
  pose proof (sorted_by_sorted fb_address (fi_blocks image)) as Hs.
  assert (Forall block_ok (sorted_by fb_address (fi_blocks image))) as Hok' by by rewrite Hp.
  assert (ForallOrdPairs apart (sorted_by fb_address (fi_blocks image))) as Hap'.
  { eapply ForallOrdPairs_perm; [|by symmetry|exact Hap]. unfold apart. tauto. }
  pose proof (StronglySorted_before _ Hs Hap' Hok') as Hb.
  destruct (sorted_by fb_address (fi_blocks image)) as [|[address words] rest] eqn:Es.
  { by apply sorted_by_nil in Es. }
  destruct (merge_loop_spec rest address words Hb Hok') as (merged & Em & H1 & H2 & H3 & H4 & H5).
  exists merged. split; [exact Em|]. split.
  { by eapply merge_loop_nonempty. }
  split; [done|]. split; [done|]. split.
  - rewrite H3. symmetry. apply write_pieces_perm; [by apply block_pieces_apart|].
    change ((address, words) :: map block_piece rest)
      with (map block_piece (mkBlock address words :: rest)). by rewrite <-Hp.
  - intros P HP. rewrite <-Hp in HP. apply Forall_cons in HP as [HP0 HP]. by apply H5.
Qed.

(** ** Cutting into chunks *)

Lemma chunks_ind (P : list Z → list (list Z) → Prop) max :
  (0 < max)%nat → P [] [] →
  (∀ ws cs, ws ≠ [] → P (drop max ws) cs → P ws (take max ws :: cs)) →
  ∀ fuel ws, (length ws <= fuel)%nat → P ws (chunks fuel max ws).
Proof.
  intros Hmax H0 HS fuel. induction fuel as [|fuel IH]; intros ws Hl.
  - destruct ws; [done|simpl in Hl; lia].
  - destruct ws as [|w ws]; [done|]. cbn [chunks]. apply HS; [done|].
    apply IH. rewrite length_drop. simpl in *. lia.
Qed.

Lemma chunks_concat fuel max ws :
  (0 < max)%nat → (length ws <= fuel)%nat → concat (chunks fuel max ws) = ws.
Proof.
  intros Hmax. revert fuel ws. apply (chunks_ind (λ ws cs, concat cs = ws) max Hmax); [done|].
  intros ws cs _ IH. simpl. rewrite IH. apply take_drop.
Qed.

Lemma padding_nil ws : zlen ws mod 8 = 0 → padding ws = [].
Proof.
  intros H. unfold padding, WRITE_DATA_ALIGNMENT_WORDS.
  replace ((- zlen ws) mod 8) with 0 by (symmetry; apply Z_mod_zero_opp_full; done). done.
Qed.

Lemma padding_app ws vs : zlen ws mod 8 = 0 → padding (ws ++ vs) = padding vs.
Proof.
  intros H. unfold padding, WRITE_DATA_ALIGNMENT_WORDS. do 2 f_equal. rewrite zlen_app.
  replace (- (zlen ws + zlen vs)) with (- zlen ws + - zlen vs) by lia.
  rewrite Z.add_mod, (Z_mod_zero_opp_full (zlen ws)), Z.add_0_l, Z.mod_mod by done. done.
Qed.

Lemma zlen_take_drop {A} n (ws : list A) : zlen (take n ws) + zlen (drop n ws) = zlen ws.
Proof. rewrite <-zlen_app. by rewrite take_drop. Qed.

(** What [_prepare_packets] appends for a block: packets that store the block
    and its padding, numbered from [index]. *)
Record packets_for (address index max : Z) (ws : list Z) (ps : list DataPacket) : Prop := {
  pf_store : ∀ m, store_packets ps m = write_words address ws m;
  pf_words : packet_words ps = ws;
  pf_index : map dp_index ps = zrange index (index + zlen ps);
  pf_sizes : Forall (λ p, 0 < zlen (dp_words p) <= max) ps;
  pf_u16 : Forall (λ p, Forall u16 (dp_words p)) ps;
  pf_within : Forall (λ p, address <= dp_address p ∧
    piece_end (packet_piece p) <= address + zlen ws) ps;
  pf_apart : ForallOrdPairs pieces_apart (map packet_piece ps);
}.

Lemma zrange_cons a b : a < b → zrange a b = a :: zrange (a + 1) b.
Proof.
  intros H. unfold zrange. replace (Z.to_nat (b - a)) with (S (Z.to_nat (b - (a + 1)))) by lia.
  cbn [seq map]. f_equal; [lia|]. rewrite <-seq_shift, map_map. apply map_ext. intros. lia.
Qed.

Lemma packets_for_nil address index max : packets_for address index max [] [].
Proof.
  split; try done; try constructor. rewrite zlen_nil, Z.add_0_r. unfold zrange.
  by rewrite Z.sub_diag.
Qed.

Lemma packets_for_cons address index max raw ws ps :
  0 < zlen raw <= max → Forall u16 raw →
  packets_for (address + zlen raw) (index + 1) max ws ps →
  packets_for address index max (raw ++ ws) (mkPacket address raw index :: ps).
Proof.
  intros Hl Hu [Hs Hw Hi Hz H16 Hin Hap]. split.
  - intros m. unfold store_packets, write_pieces in *. simpl. rewrite Hs.
    by rewrite write_words_app.
  - unfold packet_words in *. simpl. by rewrite Hw.
  - simpl. rewrite Hi, zlen_cons. pose proof (zlen_nonneg ps).
    rewrite (zrange_cons index) by lia. do 2 f_equal. lia.
  - by constructor.
  - by constructor.
  - rewrite zlen_app. pose proof (zlen_nonneg ws). constructor; [unfold piece_end; simpl; lia|].
    eapply Forall_impl; [exact Hin|]. unfold piece_end. simpl. intros p Hp. lia.
  - simpl. constructor; [|done]. apply List.Forall_map. eapply Forall_impl; [exact Hin|].
    unfold pieces_apart, piece_end. simpl. intros p Hp. lia.
Qed.

Lemma flash_packets_spec max fuel ws address index :
  0 < max → max mod 8 = 0 → Forall u16 ws → (length ws <= fuel)%nat →
  ∃ ps, flash_packets address index max (chunks fuel (Z.to_nat max) ws) = Ok ps ∧
    packets_for address index max (ws ++ padding ws) ps ∧
    Forall (λ p, zlen (dp_words p) mod 8 = 0 ∧ (dp_address p - address) mod 8 = 0) ps.
Proof.
  intros Hmax Hm8 Hu Hf. revert address index Hu.
  refine (chunks_ind (λ ws cs, ∀ address index, Forall u16 ws →
    ∃ ps, flash_packets address index max cs = Ok ps ∧
    packets_for address index max (ws ++ padding ws) ps ∧
    Forall (λ p, zlen (dp_words p) mod 8 = 0 ∧ (dp_address p - address) mod 8 = 0) ps)
    (Z.to_nat max) ltac:(lia) _ _ fuel ws Hf); clear ws fuel Hf.
  - intros address index _. exists []. split; [done|]. split; [|constructor].
    apply packets_for_nil.
  - intros ws cs Hne IH address index Hu. cbn [flash_packets].
    pose proof (zlen_take ws (Z.to_nat max)) as Htk.
    assert (0 < zlen ws) as Hpos.
    { destruct ws; [done|]. rewrite zlen_cons. pose proof (zlen_nonneg ws). lia. }
    rewrite (pad_write_data_ok (take (Z.to_nat max) ws) (Some max));
      [|lia|by apply Forall_take|lia].
    set (raw := take (Z.to_nat max) ws) in *.
    destruct (IH (address + zlen raw) (index + 1)) as (ps & E & Hps & Hal);
      [by apply Forall_drop|].
    rewrite E. eexists. split; [done|].
    assert (zlen (raw ++ padding raw) mod 8 = 0) as H8 by apply padded_length.
    destruct (decide (zlen ws <= max)) as [Hlast|Hmore].
    + assert (raw = ws) as Hraw by (apply take_ge; unfold zlen in *; lia).
      assert (drop (Z.to_nat max) ws = []) as Hd by (apply drop_ge; unfold zlen in *; lia).
      rewrite Hd in Hps. assert (ps = []) as ->.
      { pose proof (pf_words _ _ _ _ _ Hps) as Hw. rewrite padding_nil in Hw by done.
        pose proof (pf_sizes _ _ _ _ _ Hps) as Hz. destruct ps as [|p ps]; [done|].
        apply Forall_cons in Hz as [Hz _]. unfold packet_words in Hw. simpl in Hw.
        apply app_eq_nil in Hw as [Hw _]. rewrite Hw in Hz. unfold zlen in Hz. simpl in Hz. lia. }
      rewrite Hraw in *. split; [|constructor; [|constructor]; simpl; by rewrite Z.sub_diag].
      pose proof (packets_for_cons address index max (ws ++ padding ws) [] []) as Hc.
      rewrite app_nil_r in Hc. apply Hc.
      * rewrite zlen_app, padding_length in *. Z.to_euclidean_division_equations; lia.
      * apply Forall_app. split; [done|apply padding_u16].
      * apply packets_for_nil.
    + assert (zlen raw = max) as Hraw by lia.
      assert (padding raw = []) as Hpr by (apply padding_nil; by rewrite Hraw).
      rewrite Hpr, app_nil_r in *. split.
      * assert (ws ++ padding ws = raw ++ (drop (Z.to_nat max) ws ++ padding (drop (Z.to_nat max) ws)))
          as ->.
        { rewrite (assoc_L (++)). unfold raw at 1. rewrite take_drop. f_equal.
          rewrite <-(take_drop (Z.to_nat max) ws) at 1. apply padding_app. exact H8. }
        apply packets_for_cons; [lia|by apply Forall_take|done].
      * constructor; [simpl; by rewrite Z.sub_diag|]. eapply Forall_impl; [exact Hal|].
        intros p [Hp1 Hp2]. split; [done|]. Z.to_euclidean_division_equations; lia.
Qed.

(** ** All the blocks of an image *)

Definition padded_piece (b : FirmwareBlock) : Z * list Z :=
  (fb_address b, fb_words b ++ padding (fb_words b)).

Definition aligned (b : FirmwareBlock) : Prop := fb_address b mod 8 = 0.

(** What holds of the packets of any sequence of blocks. *)
Record packets_ok (index max : Z) (pieces : list (Z * list Z)) (ps : list DataPacket) : Prop := {
  po_store : ∀ m, store_packets ps m = write_pieces pieces m;
  po_words : packet_words ps = concat (map snd pieces);
  po_index : map dp_index ps = zrange index (index + zlen ps);
  po_sizes : Forall (λ p, 0 < zlen (dp_words p) <= max) ps;
  po_u16 : Forall (λ p, Forall u16 (dp_words p)) ps;
  po_within : Forall (λ p, Exists (λ q, q.1 <= dp_address p ∧
    piece_end (packet_piece p) <= piece_end q) pieces) ps;
  po_apart : StronglySorted (λ p q, piece_end p <= q.1) pieces →
    ForallOrdPairs pieces_apart (map packet_piece ps);
}.

Lemma ForallOrdPairs_app {A} (R : A → A → Prop) l k :
  ForallOrdPairs R l → ForallOrdPairs R k → Forall (λ x, Forall (R x) k) l →
  ForallOrdPairs R (l ++ k).
Proof.
  induction 1 as [|x l Hx Hl IH]; intros Hk Hlk; simpl; [done|].
  apply Forall_cons in Hlk as [Hxk Hlk]. constructor; [by apply Forall_app|auto].
Qed.

Lemma zrange_app a b c : a <= b <= c → zrange a c = zrange a b ++ zrange b c.
Proof.
  intros H. unfold zrange.
  replace (Z.to_nat (c - a)) with (Z.to_nat (b - a) + Z.to_nat (c - b))%nat by lia.
  rewrite seq_app, map_app. f_equal. rewrite Nat.add_0_l.
  pose proof (fmap_add_seq (Z.to_nat (b - a)) 0 (Z.to_nat (c - b))) as Hs.
  rewrite Nat.add_0_r in Hs. rewrite <-Hs. change (list_fmap nat nat) with (@map nat nat).
  rewrite map_map. apply map_ext. intros. lia.
Qed.

Lemma packets_ok_nil index max : packets_ok index max [] [].
Proof.
  split; try done; try constructor. rewrite zlen_nil, Z.add_0_r. unfold zrange. by rewrite Z.sub_diag.
Qed.

Lemma packets_ok_cons address ws index max ps pieces qs :
  packets_for address index max ws ps → packets_ok (index + zlen ps) max pieces qs →
  packets_ok index max ((address, ws) :: pieces) (ps ++ qs).
Proof.
  intros [Hs Hw Hi Hz H16 Hin Hap] [Hs' Hw' Hi' Hz' H16' Hin' Hap'].
  pose proof (zlen_nonneg ps). pose proof (zlen_nonneg qs). split.
  - intros m. unfold store_packets in *. rewrite map_app, write_pieces_app, Hs, Hs'. done.
  - unfold packet_words in *. rewrite map_app, concat_app, Hw, Hw'. done.
  - rewrite map_app, Hi, Hi', zlen_app, Z.add_assoc. symmetry. apply zrange_app. lia.
  - by apply Forall_app.
  - by apply Forall_app.
  - apply Forall_app. split.
    + eapply Forall_impl; [exact Hin|]. intros p Hp. left. exact Hp.
    + eapply Forall_impl; [exact Hin'|]. intros p Hp. by right.
  - intros [Hso Hb]%StronglySorted_inv. rewrite map_app.
    apply ForallOrdPairs_app; [done|by apply Hap'|]. apply List.Forall_map.
    eapply Forall_impl; [exact Hin|]. intros p [_ Hp]. apply List.Forall_map.
    eapply Forall_impl; [exact Hin'|]. intros q (r & Hr & Hq & _)%Exists_exists. left.
    eapply (proj1 (List.Forall_forall _ _)) in Hb; [|by apply list_elem_of_In].
    unfold piece_end in *. simpl in *. lia.
Qed.

Lemma flash_packets_blocks_spec max blocks index :
  0 < max → max mod 8 = 0 → Forall block_ok blocks →
  ∃ ps, flash_packets_blocks index max blocks = Ok ps ∧
    packets_ok index max (map padded_piece blocks) ps ∧
    Forall (λ p, zlen (dp_words p) mod 8 = 0) ps ∧
    (Forall aligned blocks → Forall (λ p, dp_address p mod 8 = 0) ps).
Proof.
  intros Hmax Hm8 Hok. revert index. induction Hok as [|b blocks (_ & _ & Hu) Hok IH]; intros index.
  - exists []. split; [done|]. split; [apply packets_ok_nil|by repeat constructor].
  - cbn [flash_packets_blocks]. unfold chunks_of.
    destruct (flash_packets_spec max (length (fb_words b)) (fb_words b) (fb_address b) index)
      as (ps & E & Hps & Hal); [done..|]. rewrite E.
    destruct (IH (index + zlen ps)) as (qs & E' & Hqs & Hal' & Hal2').
    rewrite E'. exists (ps ++ qs). split; [done|]. split; [by apply packets_ok_cons|]. split.
    + apply Forall_app. split; [|done]. eapply Forall_impl; [exact Hal|]. simpl. tauto.
    + intros [Hb Hbs]%Forall_cons. apply Forall_app. split; [|auto].
      eapply Forall_impl; [exact Hal|]. intros p [_ Hp]. unfold aligned in Hb. simpl in *.
      Z.to_euclidean_division_equations; lia.
Qed.

(** Padding of aligned, separated blocks reaches no other block. *)
Lemma padded_pieces_sorted blocks :
  StronglySorted gap blocks → Forall aligned blocks →
  StronglySorted (λ p q, piece_end p <= q.1) (map padded_piece blocks).
Proof.
  induction 1 as [|b l Hs IH Hb]; intros Hal; simpl; [constructor|].
  apply Forall_cons in Hal as [Hab Hal]. constructor; [by apply IH|]. apply List.Forall_map.
  apply List.Forall_forall. intros c Hc. rewrite List.Forall_forall in Hb, Hal.
  specialize (Hb c Hc). specialize (Hal c Hc).
  unfold gap, aligned, piece_end, fb_end_exclusive in *. simpl. rewrite zlen_app, padding_length.
  Z.to_euclidean_division_equations; lia.
Qed.

Lemma sorted_pieces_apart pieces :
  StronglySorted (λ p q, piece_end p <= q.1) pieces → ForallOrdPairs pieces_apart pieces.
Proof.
  induction 1 as [|p l Hs IH Hp]; constructor; [|done].
  eapply Forall_impl; [exact Hp|]. intros q Hq. by left.
Qed.

Lemma at_padding ws i : zlen ws <= i < zlen ws + zlen (padding ws) → at_ (ws ++ padding ws) i = 0xFFFF.
Proof.
  intros H. unfold at_. rewrite app_nth2 by (unfold zlen in *; lia).
  apply nth_lookup_Some, lookup_replicate_2.
  rewrite padding_length in H. unfold zlen, WRITE_DATA_ALIGNMENT_WORDS in *. lia.
Qed.

Lemma padded_lookup blocks a :
  StronglySorted gap blocks → Forall aligned blocks → Forall block_ok blocks →
  let plain := write_pieces (map block_piece blocks) ∅ in
  let padded := write_pieces (map padded_piece blocks) ∅ in
  (∀ w, plain !! a = Some w → padded !! a = Some w) ∧
  (∀ w, padded !! a = Some w → plain !! a = None →
    w = 0xFFFF ∧ ∃ a', a' / 8 = a / 8 ∧ is_Some (plain !! a')).
Proof.
  intros Hg Hal Hok plain padded.
  assert (Happ : ForallOrdPairs pieces_apart (map padded_piece blocks))
    by by apply sorted_pieces_apart, padded_pieces_sorted.
  assert (Hap : ForallOrdPairs pieces_apart (map block_piece blocks)).
  { apply sorted_pieces_apart. clear -Hg. induction Hg as [|b l Hs IH Hb]; simpl; constructor; [done|].
    apply List.Forall_map. eapply Forall_impl; [exact Hb|]. unfold gap, piece_end, fb_end_exclusive.
    simpl. intros. lia. }
  split.
  - intros w. unfold plain, padded. rewrite !write_pieces_lookup by done.
    intros [(p & Hp & Ha & ->)|[_ Hm]]; [|by rewrite lookup_empty in Hm]. left.
    apply list_elem_of_In, in_map_iff in Hp as (b & <- & Hb). exists (padded_piece b).
    split; [by apply list_elem_of_In, in_map|]. unfold piece_end in *. simpl in *.
    rewrite zlen_app. pose proof (zlen_nonneg (padding (fb_words b))).
    split; [lia|]. by rewrite at_app_l by lia.
  - intros w. unfold padded. rewrite write_pieces_lookup by done.
    intros [(p & Hp & Ha & ->)|[_ Hm]]; [|by rewrite lookup_empty in Hm]. intros Hn.
    apply list_elem_of_In, in_map_iff in Hp as (b & <- & Hb).
    assert (Hplain : ∀ c, fb_address b <= c < fb_end_exclusive b → is_Some (plain !! c)).
    { intros c Hc. exists (at_ (fb_words b) (c - fb_address b)). unfold plain.
      apply (write_pieces_inside _ _ (block_piece b)); [done|by apply list_elem_of_In, in_map|exact Hc]. }
    assert (¬ a < fb_end_exclusive b) as Hge.
    { intros Hlt. destruct (Hplain a) as [x Hx]; [|by rewrite Hx in Hn].
      unfold padded_piece in Ha. simpl in Ha. lia. }
    rewrite List.Forall_forall in Hal, Hok. specialize (Hal b Hb).
    pose proof (block_ok_length b (Hok b Hb)) as Hpos.
    unfold padded_piece, piece_end, fb_end_exclusive, aligned in *. simpl in *.
    rewrite zlen_app in Ha. split; [apply at_padding; lia|].
    exists (fb_address b + zlen (fb_words b) - 1). split; [|apply Hplain; lia].
    rewrite padding_length in Ha. Z.to_euclidean_division_equations; lia.
Qed.

(** *** RAM packets *)

Lemma ram_packets_spec max fuel ws address index :
  0 < max → Forall u16 ws → (length ws <= fuel)%nat →
  packets_for address index max ws (ram_packets address index (chunks fuel (Z.to_nat max) ws)).
Proof.
  intros Hmax Hu Hf. revert address index Hu.
  refine (chunks_ind (λ ws cs, ∀ address index, Forall u16 ws →
    packets_for address index max ws (ram_packets address index cs))
    (Z.to_nat max) ltac:(lia) _ _ fuel ws Hf); clear ws fuel Hf.
  - intros address index _. apply packets_for_nil.
  - intros ws cs Hne IH address index Hu. cbn [ram_packets].
    assert (0 < zlen ws) as Hpos.
    { destruct ws; [done|]. rewrite zlen_cons. pose proof (zlen_nonneg ws). lia. }
    pose proof (packets_for_cons address index max (take (Z.to_nat max) ws)
      (drop (Z.to_nat max) ws) (ram_packets (address + zlen (take (Z.to_nat max) ws)) (index + 1) cs)) as H.
    rewrite take_drop in H. apply H.
    + rewrite zlen_take. lia.
    + by apply Forall_take.
    + apply IH. by apply Forall_drop.
Qed.

Lemma ram_packets_blocks_spec max blocks index :
  0 < max → Forall block_ok blocks →
  packets_ok index max (map block_piece blocks) (ram_packets_blocks index max blocks).
Proof.
  intros Hmax Hok. revert index. induction Hok as [|b blocks (_ & _ & Hu) Hok IH]; intros index.
  - apply packets_ok_nil.
  - cbn [ram_packets_blocks map]. apply packets_ok_cons; [|apply IH].
    by apply ram_packets_spec.
Qed.

(** An image with blocks has packets, whatever the packet size. *)
Lemma flash_packets_length address index max raws ps :
  flash_packets address index max raws = Ok ps → length ps = length raws.
Proof.
  revert address index ps. induction raws as [|raw raws IH]; intros address index ps; cbn [flash_packets].
  - by intros [= <-].
  - destruct (pad_write_data raw (Some max)); [|done].
    destruct (flash_packets _ _ _ raws) as [qs|] eqn:E; [|done]. intros [= <-]. cbn. f_equal. by eapply IH.
Qed.

Lemma merge_loop_first address words rest merged :
  merge_loop address words rest = Ok merged → words <> [] → ∃ b bs, merged = b :: bs ∧ fb_words b <> [].
Proof.
  revert address words merged. induction rest as [|block rest IH]; intros address words merged;
    cbn [merge_loop].
  - destruct (FirmwareBlock_init address words) as [b|] eqn:E; [|done].
    apply FirmwareBlock_init_ok in E as [-> _]. intros [= <-] Hw. by eexists _, _.
  - destruct (_ =? _).
    + intros H Hw. eapply IH; [exact H|]. by intros [? _]%app_eq_nil.
    + destruct (FirmwareBlock_init address words) as [b|] eqn:E; [|done].
      apply FirmwareBlock_init_ok in E as [-> _]. destruct (merge_loop _ _ rest); [|done].
      intros [= <-] Hw. by eexists _, _.
Qed.

Lemma prepare_packets_nonempty image max ps :
  Forall (λ b, fb_words b <> []) (fi_blocks image) → fi_blocks image <> [] →
  prepare_packets image max = Ok ps → ps <> [].
Proof.
  intros Hw Hne. unfold prepare_packets, merge_contiguous.
  pose proof (sorted_by_perm fb_address (fi_blocks image)) as Hp. rewrite <-Hp in Hw.
  destruct (sorted_by fb_address (fi_blocks image)) as [|first rest] eqn:Es.
  { by apply sorted_by_nil in Es. }
  apply Forall_cons in Hw as [Hw _].
  destruct (merge_loop _ _ rest) as [merged|] eqn:Em; [|done].
  destruct (merge_loop_first _ _ _ _ Em Hw) as (b & bs & -> & Hb). cbn [flash_packets_blocks].
  destruct (flash_packets _ _ _ _) as [qs|] eqn:Eq; [|done].
  destruct (flash_packets_blocks _ _ bs) as [more|]; [|done].
  destruct (zlen (qs ++ more) >? 0xFFFF); [done|]. intros [= <-] [-> _]%app_eq_nil.
  apply flash_packets_length in Eq. unfold chunks_of in Eq. by destruct (fb_words b).
Qed.

(** What the Flash packets [ps] of an image are. *)
Record prepared (image : FirmwareImage) (max : Z) (ps : list DataPacket) : Prop := {
  pp_index : map dp_index ps = zrange 0 (zlen ps);
  pp_count : 0 < zlen ps <= 0xFFFF;
  pp_words : Forall (λ p, 0 < zlen (dp_words p) <= max ∧ zlen (dp_words p) mod 8 = 0 ∧
    dp_address p mod 8 = 0 ∧ Forall u16 (dp_words p)) ps;
  pp_apart : ForallOrdPairs pieces_apart (map packet_piece ps);
  pp_image : ∀ a w, image_memory image !! a = Some w → store_packets ps ∅ !! a = Some w;
  pp_padding : ∀ a w, store_packets ps ∅ !! a = Some w → image_memory image !! a = None →
    w = 0xFFFF ∧ ∃ a', a' / 8 = a / 8 ∧ is_Some (image_memory image !! a');
}.

Lemma prepare_packets_spec image max :
  FirmwareImage_ok image → Forall block_ok (fi_blocks image) →
  Forall aligned (fi_blocks image) → 0 < max → max mod 8 = 0 →
  match prepare_packets image max with
  | Raise e => isinstance e WorkflowError = true
  | Ok ps => prepared image max ps
  end.
Proof.
  intros Himg Hok Hal Hmax Hm8. unfold prepare_packets.
  destruct (merge_contiguous_spec image Himg Hok) as (merged & -> & Hne & Hmok & Hgap & Hmem & HP).
  assert (Forall aligned merged) as Hmal by by apply (HP (λ a, a mod 8 = 0)).
  destruct (flash_packets_blocks_spec max merged 0 Hmax Hm8 Hmok)
    as (ps & -> & [Hs Hw Hi Hz H16 Hin Hap] & Hl8 & Ha8).
  destruct (zlen ps >? 0xFFFF) eqn:E; [done|].
  assert (ps ≠ []) as Hpne.
  { intros ->. unfold packet_words in Hw. simpl in Hw. destruct merged as [|b merged]; [done|].
    apply Forall_cons in Hmok as [(_ & Hb & _) _]. simpl in Hw.
    symmetry in Hw. apply app_eq_nil in Hw as [Hw _]. by apply app_eq_nil in Hw as [? _]. }
  specialize (Ha8 Hmal). split; [done| | |by apply Hap, padded_pieces_sorted| |].
  - destruct ps as [|p ps]; [done|]. rewrite zlen_cons in *. pose proof (zlen_nonneg ps). lia.
  - rewrite List.Forall_forall in *. intros p Hp. repeat split; auto; by apply Hz.
  - intros a w Ha. rewrite Hs. rewrite <-Hmem in Ha.
    by apply (padded_lookup merged a Hgap Hmal Hmok).
  - intros a w Ha Hn. rewrite Hs in Ha. rewrite <-Hmem in *.
    by apply (padded_lookup merged a Hgap Hmal Hmok).
Qed.

(** ** Properties *)

(** The Flash packets of an 8-word aligned image are exactly the image,
    padded: they are numbered 0, 1, 2, ..., each is a non-empty 8-word
    aligned group of at most [max_data_words] uint16 words, no two overlap (so no
    word is programmed twice), storing them puts every image word at its address,
    and every other word stored is 0xFFFF, next to an image word in the same
    group of eight. *)
Theorem prepare_packets_correct image max :
  FirmwareImage_ok image → Forall block_ok (fi_blocks image) →
  Forall aligned (fi_blocks image) → 0 < max → max mod 8 = 0 →
  match prepare_packets image max with
  | Raise e => isinstance e WorkflowError = true
  | Ok ps =>
      map dp_index ps = zrange 0 (zlen ps) ∧ 0 < zlen ps <= 0xFFFF ∧
      Forall (λ p, 0 < zlen (dp_words p) <= max ∧ zlen (dp_words p) mod 8 = 0 ∧
        dp_address p mod 8 = 0 ∧ Forall u16 (dp_words p)) ps ∧
      ForallOrdPairs pieces_apart (map packet_piece ps) ∧
      (∀ a w, image_memory image !! a = Some w → store_packets ps ∅ !! a = Some w) ∧
      (∀ a w, store_packets ps ∅ !! a = Some w → image_memory image !! a = None →
        w = 0xFFFF ∧ ∃ a', a' / 8 = a / 8 ∧ is_Some (image_memory image !! a'))
  end.
Proof.
  intros Himg Hok Hal Hmax Hm8. pose proof (prepare_packets_spec image max Himg Hok Hal Hmax Hm8) as H.
  destruct (prepare_packets image max); [|done]. by destruct H.
Qed.

Lemma prepare_packets_correct_witness :
  match prepare_packets image_example 248 with
  | Raise e => isinstance e WorkflowError = true
  | Ok ps =>
      map dp_index ps = zrange 0 (zlen ps) ∧ 0 < zlen ps <= 0xFFFF ∧
      Forall (λ p, 0 < zlen (dp_words p) <= 248 ∧ zlen (dp_words p) mod 8 = 0 ∧
        dp_address p mod 8 = 0 ∧ Forall u16 (dp_words p)) ps ∧
      ForallOrdPairs pieces_apart (map packet_piece ps) ∧
      (∀ a w, image_memory image_example !! a = Some w → store_packets ps ∅ !! a = Some w) ∧
      (∀ a w, store_packets ps ∅ !! a = Some w → image_memory image_example !! a = None →
        w = 0xFFFF ∧ ∃ a', a' / 8 = a / 8 ∧ is_Some (image_memory image_example !! a'))
  end.
Proof.
  apply (prepare_packets_correct image_example 248).
  - apply image_example_ok.
  - apply image_example_ok.
  - repeat constructor.
  - lia.
  - reflexivity.
Defined.

(** The RAM packets of an image are exactly the image: they are numbered in
    order, hold at most [max_data_words] words each, do not overlap, and storing
    them yields the memory contents of the image, no more and no less. *)
Theorem prepare_ram_packets_correct image max :
  FirmwareImage_ok image → Forall block_ok (fi_blocks image) → 0 < max →
  match prepare_ram_packets image max with
  | Raise e => isinstance e WorkflowError = true
  | Ok ps =>
      map dp_index ps = zrange 0 (zlen ps) ∧ zlen ps <= 0xFFFF ∧
      Forall (λ p, 0 < zlen (dp_words p) <= max ∧ Forall u16 (dp_words p)) ps ∧
      ForallOrdPairs pieces_apart (map packet_piece ps) ∧
      store_packets ps ∅ = image_memory image ∧
      calculate_ram_image_crc32 image max = crc32_words (packet_words ps)
  end.
Proof.
  intros Himg Hok Hmax. unfold calculate_ram_image_crc32, prepare_ram_packets.
  destruct (merge_contiguous_spec image Himg Hok) as (merged & -> & Hne & Hmok & Hgap & Hmem & HP).
  destruct (ram_packets_blocks_spec max merged 0 Hmax Hmok) as [Hs Hw Hi Hz H16 Hin Hap].
  destruct (zlen (ram_packets_blocks 0 max merged) >? 0xFFFF) eqn:E; [done|].
  split; [done|]. split; [lia|]. split; [|split; [|split]].
  - rewrite List.Forall_forall in *. intros p Hp. split; [by apply Hz|by apply H16].
  - apply Hap. clear -Hgap. induction Hgap as [|b l Hs IH Hb]; simpl; constructor; [done|].
    apply List.Forall_map. eapply Forall_impl; [exact Hb|]. unfold gap, piece_end, fb_end_exclusive.
    simpl. intros. lia.
  - by rewrite Hs.
  - done.
Qed.

Lemma prepare_ram_packets_correct_witness :
  match prepare_ram_packets image_example 3 with
  | Raise e => isinstance e WorkflowError = true
  | Ok ps =>
      map dp_index ps = zrange 0 (zlen ps) ∧ zlen ps <= 0xFFFF ∧
      Forall (λ p, 0 < zlen (dp_words p) <= 3 ∧ Forall u16 (dp_words p)) ps ∧
      ForallOrdPairs pieces_apart (map packet_piece ps) ∧
      store_packets ps ∅ = image_memory image_example ∧
      calculate_ram_image_crc32 image_example 3 = crc32_words (packet_words ps)
  end.
Proof.
  apply (prepare_ram_packets_correct image_example 3).
  - apply image_example_ok.
  - apply image_example_ok.
  - lia.
Defined.

(** The alignment hypothesis matters: two blocks that pass every check but
    lie less than eight words apart give packets that overlap. *)
Definition unaligned_image : FirmwareImage :=
  mkImage "app.out" "app.txt" 0x082400
    [mkBlock 0x082400 [1; 2; 3]; mkBlock 0x082404 [5; 6; 7]] 6
    [mkRange 0x082400 0x082403; mkRange 0x082404 0x082407] EmptyString [].

Lemma padding_overlaps_next_block :
  FirmwareImage_init "app.out" "app.txt" 0x082400 (fi_blocks unaligned_image) EmptyString [] =
    Ok unaligned_image ∧
  validate_app_firmware_image unaligned_image = Ok tt ∧
  ∃ p q, prepare_packets unaligned_image 248 = Ok [p; q] ∧
    dp_address p = 0x082400 ∧ dp_address q = 0x082404 ∧
    zlen (dp_words p) = 8 ∧ at_ (dp_words p) 4 = 0xFFFF ∧ at_ (dp_words q) 0 = 5.
Proof.
  split; [reflexivity|]. split; [reflexivity|]. do 2 eexists.
  split; [vm_compute; reflexivity|]. repeat split.
Qed.
