(* ===== verification/TiMap.v ===== *)
(** The linker map: the parser of firmware/ti_map.py, then a declarative reading
    of the file and the proof that the parser finds exactly that. *)

(** * Linker map symbols (firmware/ti_map.py)

    The addresses of the RAM service in the map file of the TI linker.  The
    text of the file is an argument; the two regular expressions are written as
    the left-to-right searches [re] performs.  Every step of a search consumes
    a character, so the length of the line is enough fuel. *)

From S2P Require Import Prelude.
From S2P Require Import Errors.
From S2P Require Import Messages.

(** The addresses [TiMapSymbols] holds. *)
Record TiMapSymbols : Type := mkSymbols {
  ts_header_address : Z;
  ts_publish_state_address : Z;
  ts_runtime_state_address : Z;
  ts_app_export_address : Z;
  ts_immutable_start : Z;
  ts_immutable_end_exclusive : Z;
  ts_boot_init_address : Z;
  ts_boot_handle_command_address : Z;
  ts_confirm_current_image_address : Z;
}.

(** [self.__dataclass_fields__] with the values *)
Definition TiMapSymbols_fields (s : TiMapSymbols) : list (string * Z) :=
  [("header_address", ts_header_address s); ("publish_state_address", ts_publish_state_address s);
   ("runtime_state_address", ts_runtime_state_address s);
   ("app_export_address", ts_app_export_address s); ("immutable_start", ts_immutable_start s);
   ("immutable_end_exclusive", ts_immutable_end_exclusive s);
   ("boot_init_address", ts_boot_init_address s);
   ("boot_handle_command_address", ts_boot_handle_command_address s);
   ("confirm_current_image_address", ts_confirm_current_image_address s)]%string.

(** The [for] loop over the fields *)
Fixpoint check_fields (fields : list (string * Z)) : Res unit :=
  match fields with
  | [] => Ok tt
  | (name, value) :: fields =>
      fail (Err ValueError (Fmt "{} must fit uint32" [VStr name])) when negb (fits_u32 value) ;;
      check_fields fields
  end.

(** [TiMapSymbols.__post_init__] *)
Definition TiMapSymbols_post_init (s : TiMapSymbols) : Res TiMapSymbols :=
  let? _ := check_fields (TiMapSymbols_fields s) in
  fail (Err ValueError (Lit "immutable memory region must be non-empty"))
    when ts_immutable_end_exclusive s <=? ts_immutable_start s ;;
  Ok s.

(** [_SYMBOLS] *)
Definition SYMBOL_header_address : text := chars "g_boot_flash_service_header".
Definition SYMBOL_publish_state_address : text := chars "g_boot_flash_service_publish_state".
Definition SYMBOL_runtime_state_address : text := chars "g_service".
Definition SYMBOL_app_export_address : text := chars "g_boot_flash_service_app_export".
Definition SYMBOL_boot_init_address : text := chars "BootFlashService_BootInit".
Definition SYMBOL_boot_handle_command_address : text := chars "BootFlashService_BootHandleCommand".
Definition SYMBOL_confirm_current_image_address : text :=
  chars "BootFlashService_ConfirmCurrentImage".

(** [[A-Za-z0-9_]] *)
Definition is_word (c : Z) : bool := is_alnum c || (c =? 95).

(** A match of [(?:0x)?[0-9a-fA-F]{6,8}] at the head of [s]: the digits and
    what follows.  The repetition takes as many digits as it can. *)
Definition hex_digits_at (s : text) : option (text * text) :=
  let digits := take_while is_hex (take 8 s) in
  if (6 <=? length digits)%nat then Some (digits, drop (length digits) s) else None.

Definition hex_at (s : text) : option (text * text) :=
  match after_prefix (chars "0x") s ≫= hex_digits_at with
  | Some m => Some m
  | None => hex_digits_at s
  end.

(** [int(match.group(0), 16)] for the matches of [_HEX.finditer(line)] *)
Fixpoint hex_values_loop (fuel : nat) (s : text) : list Z :=
  match fuel with
  | O => []
  | S fuel =>
      match hex_at s, s with
      | Some (digits, rest), _ => hex_int digits :: hex_values_loop fuel rest
      | None, _ :: r => hex_values_loop fuel r
      | None, [] => []
      end
  end.

Definition hex_values (s : text) : list Z := hex_values_loop (S (length s)) s.

(** One of the alternatives of [(?:names)(?![A-Za-z0-9_])] at the head of [s] *)
Definition name_at (names : list text) (s : text) : bool :=
  existsb (λ name, match after_prefix name s with
                   | Some rest => negb (starts_with is_word rest)
                   | None => false
                   end) names.

(** [pattern.search(line) is not None]; [after_word] is the look-behind. *)
Fixpoint mentions (names : list text) (after_word : bool) (s : text) : bool :=
  (negb after_word && name_at names s) ||
  match s with c :: r => mentions names (is_word c) r | [] => false end.

Definition symbol_names (symbol : text) : list text :=
  if starts_with (λ c, c =? 95) symbol then [symbol] else [symbol; 95 :: symbol].

(** The [for] loop of [_symbol_address] *)
Fixpoint symbol_address_in (lines : list text) (symbol : text) : Res Z :=
  match lines with
  | [] => Raise (Err ValueError (Fmt "missing TI map symbol: {}" [VText symbol]))
  | line :: lines =>
      if negb (mentions (symbol_names symbol) false line) then symbol_address_in lines symbol else
      match hex_values line with
      | value :: _ => Ok value
      | [] => symbol_address_in lines symbol
      end
  end.

Definition symbol_address (s symbol : text) : Res Z := symbol_address_in (splitlines s) symbol.

(** The [for] loop of [_memory_region] *)
Fixpoint memory_region_in (lines : list text) (name : text) : Res (Z * Z) :=
  match lines with
  | [] => Raise (Err ValueError (Fmt "missing TI map memory region: {}" [VText name]))
  | line :: lines =>
      match split_fields line with
      | field :: _ =>
          if negb (text_eqb field name) then memory_region_in lines name else
          match hex_values line with
          | first :: second :: _ => Ok (first, second)
          | _ => memory_region_in lines name
          end
      | [] => memory_region_in lines name
      end
  end.

Definition memory_region (s name : text) : Res (Z * Z) := memory_region_in (splitlines s) name.

(** [header_symbol or default] *)
Definition header_name (header_symbol : option text) : text :=
  match header_symbol with
  | Some ((_ :: _) as name) => name
  | _ => SYMBOL_header_address
  end.

(** [parse_flash_service_symbols_from_map], on the text of the file *)
Definition parse_flash_service_symbols (s : text) (header_symbol : option text) : Res TiMapSymbols :=
  let? immutable := memory_region s (chars "SERVICE_IMMUTABLE") in
  let '(immutable_code_start, immutable_length) := immutable in
  let? app_export_address := symbol_address s SYMBOL_app_export_address in
  let? runtime_state_address :=
    match symbol_address s SYMBOL_runtime_state_address with
    | Ok address => Ok address
    | Raise e =>
        if isinstance e ValueError then
          let? region := memory_region s (chars "SERVICE_RUNTIME_STATE") in Ok (fst region)
        else Raise e
    end in
  fail (Err ValueError (Lit "invalid TI map memory region: SERVICE_IMMUTABLE"))
    when (immutable_length =? 0) || (immutable_code_start + immutable_length >? 0xFFFFFFFF) ;;
  let? header_address := symbol_address s (header_name header_symbol) in
  let? publish_state_address := symbol_address s SYMBOL_publish_state_address in
  let? boot_init_address := symbol_address s SYMBOL_boot_init_address in
  let? boot_handle_command_address := symbol_address s SYMBOL_boot_handle_command_address in
  let? confirm_current_image_address := symbol_address s SYMBOL_confirm_current_image_address in
  TiMapSymbols_post_init
    (mkSymbols header_address publish_state_address runtime_state_address app_export_address
       app_export_address (immutable_code_start + immutable_length) boot_init_address
       boot_handle_command_address confirm_current_image_address).

(** * What the map parser finds

    A declarative reading of the map file, without regular expressions: a line
    is a list of words ([words_of]) and of numbers ([numbers_of], the runs of
    hexadecimal digits cut after every eighth digit).  A symbol is at the first
    number of the first line that has its name among its words and a number. *)

(** ** Specification *)

Definition words_of (line : text) : list text := runs is_word [] line.

Fixpoint pieces (fuel : nat) (digits : text) : list Z :=
  match fuel with
  | O => []
  | S fuel =>
      if (length digits <? 6)%nat then [] else
      hex_int (take 8 digits) :: pieces fuel (drop 8 digits)
  end.

Definition numbers_of_run (digits : text) : list Z := pieces (length digits) digits.

Definition numbers_of (line : text) : list Z := concat (map numbers_of_run (runs is_hex [] line)).

(** The first line on which [f] finds something *)
Definition first_found {A} (f : text → option A) (s : text) : option A :=
  head (omap f (splitlines s)).

Definition symbol_on (symbol line : text) : option Z :=
  if existsb (λ w, bool_decide (w ∈ symbol_names symbol)) (words_of line)
  then head (numbers_of line) else None.

Definition region_on (name line : text) : option (Z * Z) :=
  match split_fields line, numbers_of line with
  | field :: _, first :: second :: _ => if text_eqb field name then Some (first, second) else None
  | _, _ => None
  end.

Definition symbol_at (s symbol : text) : option Z := first_found (symbol_on symbol) s.
Definition region_at (s name : text) : option (Z * Z) := first_found (region_on name) s.

Definition plain_name (name : text) : Prop := name ≠ [] ∧ Forall (λ c, is_word c = true) name.

(** ** The search for numbers *)

Lemma pieces_fuel n m digits :
  (length digits <= n)%nat → (length digits <= m)%nat → pieces n digits = pieces m digits.
Proof.
  revert m digits. induction n as [|n IH]; intros m digits Hn Hm.
  - destruct digits as [|c digits]; [|cbn in Hn; lia]. by destruct m.
  - destruct m as [|m]; [destruct digits as [|c digits]; [done|cbn in Hm; lia]|]. cbn [pieces].
    destruct (_ <? 6)%nat eqn:E; [done|]. apply Nat.ltb_ge in E. f_equal.
    apply IH; rewrite length_drop; lia.
Qed.

Lemma hex_digits_at_run w r :
  Forall (λ c, is_hex c = true) w → starts_with is_hex r = false →
  hex_digits_at (w ++ r) =
    if (length w <? 6)%nat then None else Some (take 8 w, drop 8 w ++ r).
Proof.
  intros Hw Hr. unfold hex_digits_at.
  assert (take_while is_hex (take 8 (w ++ r)) = take 8 w) as ->.
  { rewrite take_app. destruct (decide (8 <= length w)%nat).
    - replace (8 - length w)%nat with 0%nat by lia. rewrite take_0.
      apply take_while_app; [by apply Forall_take|done].
    - rewrite take_ge by lia. apply take_while_app; [done|].
      destruct r as [|c r]; [by rewrite take_nil|].
      destruct (8 - length w)%nat; [done|exact Hr]. }
  rewrite length_take. destruct (Nat.ltb_spec (length w) 6).
  - by rewrite (proj2 (Nat.leb_gt _ _)) by lia.
  - rewrite (proj2 (Nat.leb_le _ _)) by lia. do 2 f_equal. rewrite drop_app.
    destruct (decide (8 <= length w)%nat).
    + rewrite Nat.min_l by lia. replace (8 - length w)%nat with 0%nat by lia.
      by rewrite drop_0.
    + rewrite Nat.min_r, Nat.sub_diag by lia. by rewrite drop_0, !(drop_ge w) by lia.
Qed.

Lemma hex_digits_at_inv s d r :
  hex_digits_at s = Some (d, r) → (length r < length s)%nat ∧ starts_with is_hex s = true.
Proof.
  unfold hex_digits_at. destruct (6 <=? _)%nat eqn:E; [|done]. intros [= <- <-].
  apply Nat.leb_le in E. destruct s as [|c s]; [cbn in E; lia|]. split.
  - rewrite length_drop. cbn [length]. lia.
  - cbn in *. destruct (is_hex c); [done|cbn in E; lia].
Qed.

Lemma hex_at_spec s :
  hex_at s = match after_prefix (chars "0x") s ≫= hex_digits_at with
             | Some m => Some m
             | None => hex_digits_at s
             end.
Proof. done. Qed.

Lemma hex_at_length s d r : hex_at s = Some (d, r) → (length r < length s)%nat.
Proof.
  unfold hex_at. destruct (after_prefix (chars "0x") s ≫= hex_digits_at) as [m|] eqn:E.
  - intros [= ->]. apply bind_Some in E as (s' & ->%after_prefix_spec & [H _]%hex_digits_at_inv).
    cbn. lia.
  - by intros [? _]%hex_digits_at_inv.
Qed.

Lemma hex_values_fuel n s : (length s < n)%nat → hex_values_loop n s = hex_values s.
Proof.
  unfold hex_values. intros Hn. assert (length s < S (length s))%nat as Hm by lia.
  revert Hm. generalize (S (length s)). intros m Hm. revert m s Hn Hm.
  induction n as [|n IH]; intros m s Hn Hm; [lia|]. destruct m as [|m]; [lia|]. cbn.
  destruct (hex_at s) as [[d r]|] eqn:E.
  - apply hex_at_length in E. f_equal. apply IH; lia.
  - destruct s as [|c s]; [done|]. cbn in *. apply IH; lia.
Qed.

Lemma hex_values_found s d r :
  hex_at s = Some (d, r) → hex_values s = hex_int d :: hex_values r.
Proof.
  intros E. pose proof (hex_at_length _ _ _ E). unfold hex_values at 1. cbn. rewrite E. f_equal.
  apply hex_values_fuel. lia.
Qed.

Lemma hex_values_skip c s : hex_at (c :: s) = None → hex_values (c :: s) = hex_values s.
Proof. intros E. unfold hex_values at 1. cbn [hex_values_loop]. by rewrite E. Qed.

(** Without a prefix the search looks at digits only. *)
Lemma hex_at_digits s : after_prefix (chars "0x") s = None → hex_at s = hex_digits_at s.
Proof. unfold hex_at. by intros ->. Qed.

Lemma hex_values_other c s : is_hex c = false → hex_values (c :: s) = hex_values s.
Proof.
  intros Hc. apply hex_values_skip. rewrite hex_at_digits.
  - destruct (hex_digits_at (c :: s)) as [[d r]|] eqn:E; [|done].
    apply hex_digits_at_inv in E as [_ E]. cbn in E. congruence.
  - destruct (after_prefix _ _) as [r|] eqn:E; [|done]. apply after_prefix_spec in E.
    injection E as -> _. done.
Qed.

(** A prefix that is followed by digits does not change what is found. *)
Lemma hex_values_prefix s : hex_values (chars "0x" ++ s) = hex_values s.
Proof.
  assert (hex_values (120 :: s) = hex_values s) as Hx by by apply hex_values_other.
  destruct (hex_digits_at s) as [[d r]|] eqn:E.
  - rewrite (hex_values_found _ d r), (hex_values_found s d r); [done| |].
    + apply hex_digits_at_inv in E as E'. rewrite hex_at_digits; [done|].
      destruct (after_prefix (chars "0x") s) as [t|] eqn:Et; [|done].
      apply after_prefix_spec in Et as ->. unfold hex_digits_at in E. cbn in E. done.
    + unfold hex_at. rewrite (proj2 (after_prefix_spec _ _ _) eq_refl). cbn [mbind option_bind].
      by rewrite E.
  - change (chars "0x" ++ s) with (48 :: 120 :: s). rewrite hex_values_skip, Hx; [done|].
    unfold hex_at. change (after_prefix (chars "0x") (48 :: 120 :: s)) with (Some s).
    cbn [mbind option_bind]. rewrite E. done.
Qed.

Lemma hex_values_run n w r :
  length w = n → Forall (λ c, is_hex c = true) w → starts_with is_hex r = false →
  hex_values (w ++ r) = numbers_of_run w ++ hex_values r.
Proof.
  revert w. induction (lt_wf n) as [n _ IH]. intros w <- Hw Hr.
  destruct w as [|c w']; [done|]. set (w := c :: w') in *.
  destruct (after_prefix (chars "0x") (w ++ r)) as [s|] eqn:Ep.
  - apply after_prefix_spec in Ep as Es. destruct w' as [|x w''].
    + destruct r as [|x r]; [done|]. injection Es as -> -> ->.
      transitivity (hex_values (chars "0x" ++ s)); [done|]. rewrite hex_values_prefix.
      by rewrite hex_values_other.
    + injection Es as -> -> _. unfold w in Hw. rewrite !Forall_cons in Hw.
      by destruct Hw as (_ & ? & _).
  - pose proof (hex_at_digits _ Ep) as Ed. rewrite hex_digits_at_run in Ed by done.
    assert (numbers_of_run w = if (length w <? 6)%nat then [] else
      hex_int (take 8 w) :: numbers_of_run (drop 8 w)) as ->.
    { unfold numbers_of_run at 1. change (length w) with (S (length w')) at 1. cbn [pieces].
      destruct (_ <? 6)%nat; [done|]. f_equal. apply pieces_fuel; rewrite length_drop; cbn; lia. }
    destruct (_ <? 6)%nat eqn:E.
    + unfold w. cbn [app]. rewrite hex_values_skip by done. apply Nat.ltb_lt in E.
      rewrite (IH (length w')); [|cbn; lia|done|by apply Forall_cons in Hw as [_ ?]|done].
      unfold numbers_of_run. destruct w' as [|d w']; [done|]. cbn [length pieces].
      rewrite (proj2 (Nat.ltb_lt _ _)) by (cbn in *; lia). done.
    + rewrite (hex_values_found _ _ _ Ed). cbn [app]. f_equal. apply Nat.ltb_ge in E.
      apply (IH (length (drop 8 w))); [rewrite length_drop; lia|done|by apply Forall_drop|done].
Qed.

(** The search finds the numbers of the line. *)
Lemma hex_values_numbers s : hex_values s = numbers_of s.
Proof.
  unfold numbers_of. induction s as [w Hw|w c r Hw Hc IH] using (runs_ind is_hex).
  - rewrite runs_end by done. rewrite <-(app_nil_r w) at 1.
    rewrite (hex_values_run _ w [] eq_refl Hw eq_refl). cbn [rev app].
    change (hex_values []) with (@nil Z). by destruct w; cbn; rewrite ?app_nil_r.
  - rewrite (runs_behind is_hex [] w c r Hw Hc), map_app, concat_app, <-IH.
    rewrite (hex_values_run _ w (c :: r) eq_refl Hw Hc), hex_values_other by done. f_equal.
    cbn [rev app]. by destruct w; cbn; rewrite ?app_nil_r.
Qed.

Lemma numbers_u32 s : Forall u32 (numbers_of s).
Proof.
  apply Forall_concat, List.Forall_map, List.Forall_forall. intros w Hin.
  assert (Forall (λ c, is_hex c = true) w) as Hw.
  { revert Hin. induction s as [v Hv|v c r Hv Hc IH] using (runs_ind is_hex).
    - rewrite runs_end by done. cbn [rev app]. destruct v; [done|]. by intros [<-|[]].
    - rewrite (runs_behind is_hex [] v c r Hv Hc). intros [H|H]%in_app_iff; [|by apply IH].
      cbn [rev app] in H. destruct v; [done|]. by destruct H as [<-|[]]. }
  unfold numbers_of_run. generalize (length w). intros n. clear Hin. revert w Hw.
  induction n as [|n IH]; intros w Hw; cbn [pieces]; [constructor|].
  destruct (_ <? 6)%nat; constructor; [|by apply IH, Forall_drop].
  pose proof (hex_int_bound (take 8 w)) as H. unfold u32.
  assert (16 ^ zlen (take 8 w) <= 16 ^ 8) by (apply Z.pow_le_mono_r; [lia|]; zlen_lia).
  change 4294967296 with (16 ^ 8). cut (0 <= hex_int (take 8 w) < 16 ^ zlen (take 8 w)); [lia|].
  apply H, forallb_forall. intros c Hc. apply List.Forall_forall with (x := c) in Hw; [done|].
  apply list_elem_of_In. eapply subseteq_take. by apply list_elem_of_In.
Qed.

(** ** The search for names *)

Lemma name_at_run names w r :
  Forall plain_name names → Forall (λ c, is_word c = true) w → starts_with is_word r = false →
  name_at names (w ++ r) = bool_decide (w ∈ names).
Proof.
  intros Hn Hw Hr. apply eq_bool_prop_intro. rewrite bool_decide_spec.
  unfold name_at. split.
  - intros (name & Hin & Hm)%Is_true_true%existsb_exists.
    destruct (after_prefix name (w ++ r)) as [rest|] eqn:E; [|done].
    apply after_prefix_spec in E. apply negb_true_iff in Hm.
    rewrite List.Forall_forall in Hn. destruct (Hn name Hin) as [_ Hname].
    destruct (run_unique is_word w name r rest Hw Hname Hr Hm E) as [-> _].
    by apply list_elem_of_In.
  - intros Hin. apply Is_true_true, existsb_exists. exists w.
    split; [by apply list_elem_of_In|]. rewrite (proj2 (after_prefix_spec _ _ _) eq_refl).
    by rewrite Hr.
Qed.

Lemma mentions_inside names w r :
  Forall (λ c, is_word c = true) w → starts_with is_word r = false →
  mentions names true (w ++ r) = mentions names true r.
Proof. induction 1 as [|c w Hc _ IH]; intros Hr; [done|]. cbn. rewrite Hc. auto. Qed.

(** The pattern finds whole words. *)
Lemma mentions_words names s :
  Forall plain_name names →
  mentions names false s = existsb (λ w, bool_decide (w ∈ names)) (words_of s).
Proof.
  intros Hn. assert (¬ [] ∈ names) as Hnil.
  { intros Hin. rewrite Forall_forall in Hn. by destruct (Hn _ Hin). }
  assert (∀ w r, Forall (λ c, is_word c = true) w → starts_with is_word r = false →
    mentions names false (w ++ r) = bool_decide (w ∈ names) || mentions names true r) as Hrun.
  { intros w r Hw Hr. pose proof (name_at_run names w r Hn Hw Hr) as E.
    destruct w as [|c w]; cbn [app] in *.
    - rewrite bool_decide_eq_false_2 in E |- * by done. destruct r; cbn in *; by rewrite E.
    - cbn [mentions]. rewrite E. cbn [negb andb]. f_equal. apply Forall_cons in Hw as [Hc Hw].
      rewrite Hc. by apply mentions_inside. }
  unfold words_of. induction s as [w Hw|w c r Hw Hc IH] using (runs_ind is_word).
  - rewrite runs_end by done. rewrite <-(app_nil_r w) at 1. rewrite Hrun by done. cbn.
    destruct w; cbn; [by rewrite bool_decide_eq_false_2|done].
  - rewrite (runs_behind is_word [] w c r Hw Hc), existsb_app, Hrun by done. cbn [mentions].
    rewrite Hc, IH. cbn. destruct w; cbn; [by rewrite bool_decide_eq_false_2|].
    by rewrite orb_false_r.
Qed.

(** ** The parser *)

(** The symbols of a map file *)
Record symbols_of (s : text) (header : text) (y : TiMapSymbols) : Prop := {
  so_header : symbol_at s header = Some (ts_header_address y);
  so_publish : symbol_at s SYMBOL_publish_state_address = Some (ts_publish_state_address y);
  so_runtime : match symbol_at s SYMBOL_runtime_state_address with
               | Some address => ts_runtime_state_address y = address
               | None => fst <$> region_at s (chars "SERVICE_RUNTIME_STATE") =
                         Some (ts_runtime_state_address y)
               end;
  so_export : symbol_at s SYMBOL_app_export_address = Some (ts_app_export_address y);
  so_start : ts_immutable_start y = ts_app_export_address y;
  so_end : ∃ start length, region_at s (chars "SERVICE_IMMUTABLE") = Some (start, length) ∧
    length ≠ 0 ∧ start + length <= U32_MAX ∧ ts_immutable_end_exclusive y = start + length;
  so_nonempty : ts_immutable_start y < ts_immutable_end_exclusive y;
  so_boot_init : symbol_at s SYMBOL_boot_init_address = Some (ts_boot_init_address y);
  so_boot_handle : symbol_at s SYMBOL_boot_handle_command_address =
    Some (ts_boot_handle_command_address y);
  so_confirm : symbol_at s SYMBOL_confirm_current_image_address =
    Some (ts_confirm_current_image_address y);
}.

Lemma symbol_names_plain symbol : plain_name symbol → Forall plain_name (symbol_names symbol).
Proof.
  intros [Hne Hw]. unfold symbol_names. destruct (starts_with _ symbol); [by repeat constructor|].
  constructor; [done|]. apply Forall_singleton. split; [done|]. by constructor.
Qed.

Lemma symbol_address_spec s symbol :
  plain_name symbol →
  symbol_address s symbol = match symbol_at s symbol with
    | Some value => Ok value
    | None => Raise (Err ValueError (Fmt "missing TI map symbol: {}" [VText symbol]))
    end.
Proof.
  intros Hp. unfold symbol_address, symbol_at, first_found. generalize (splitlines s). intros lines.
  induction lines as [|line lines IH]; [done|]. cbn [symbol_address_in omap list_omap]. unfold symbol_on at 1.
  rewrite mentions_words by by apply symbol_names_plain.
  rewrite hex_values_numbers. destruct (existsb _ _); cbn [negb]; [|exact IH].
  by destruct (numbers_of line).
Qed.

Lemma memory_region_spec s name :
  memory_region s name = match region_at s name with
    | Some region => Ok region
    | None => Raise (Err ValueError (Fmt "missing TI map memory region: {}" [VText name]))
    end.
Proof.
  unfold memory_region, region_at, first_found. generalize (splitlines s). intros lines.
  induction lines as [|line lines IH]; [done|]. cbn [memory_region_in omap list_omap].
  unfold region_on at 1. rewrite hex_values_numbers.
  destruct (split_fields line) as [|field fields]; [exact IH|].
  destruct (text_eqb field name); cbn [negb];
    by destruct (numbers_of line) as [|first [|second numbers]].
Qed.

Lemma first_found_u32 f s v :
  (∀ line v, f line = Some v → u32 v) → first_found f s = Some v → u32 v.
Proof.
  intros Hf. unfold first_found. induction (splitlines s) as [|line lines IH]; [done|].
  cbn. destruct (f line) eqn:E; [|done]. intros [= <-]. by eapply Hf.
Qed.

Lemma head_numbers_u32 line v : head (numbers_of line) = Some v → u32 v.
Proof.
  pose proof (numbers_u32 line) as Hu. destruct (numbers_of line) as [|w ws]; [done|].
  intros [= <-]. by apply Forall_cons in Hu as [? _].
Qed.

Lemma symbol_at_u32 s symbol v : symbol_at s symbol = Some v → u32 v.
Proof.
  apply first_found_u32. intros line w. unfold symbol_on. destruct (existsb _ _); [|done].
  apply head_numbers_u32.
Qed.

Lemma region_at_u32 s name a b : region_at s name = Some (a, b) → u32 a ∧ u32 b.
Proof.
  unfold region_at, first_found. induction (splitlines s) as [|line lines IH]; [done|].
  cbn. destruct (region_on name line) as [m|] eqn:E; [|done]. intros [= ->]. unfold region_on in E.
  pose proof (numbers_u32 line) as Hu. repeat case_match; simplify_eq.
  by rewrite !Forall_cons in Hu; destruct Hu as (? & ? & _).
Qed.

Lemma check_fields_ok fields :
  Forall (λ f, u32 f.2) fields → check_fields fields = Ok tt.
Proof.
  induction 1 as [|[name v] fields Hv _ IH]; [done|]. cbn in *.
  by rewrite (proj2 (fits_u32_spec v) Hv).
Qed.

Ltac plain_literal := split; [done|by apply (bool_decide_unpack _)].

(** Replace the calls of the parser by what they return. *)
Ltac map_lookups :=
  repeat match goal with
  | |- context [memory_region ?s ?n] => rewrite (memory_region_spec s n)
  | |- context [symbol_address ?s ?n] => rewrite (symbol_address_spec s n) by (done || plain_literal)
  end.

Lemma parse_symbols_complete s header_symbol y :
  plain_name (header_name header_symbol) → symbols_of s (header_name header_symbol) y →
  parse_flash_service_symbols s header_symbol = Ok y.
Proof.
  intros Hh [H1 H2 H3 H4 H5 (start & len & Hr & Hl & Hu & H6) H7 H8 H9 H10].
  apply region_at_u32 in Hr as Hru. destruct Hru as [Hs Hl'].
  assert (u32 (ts_runtime_state_address y)) as Hrt.
  { destruct (symbol_at s SYMBOL_runtime_state_address) eqn:E; [rewrite H3; by eapply symbol_at_u32|].
    apply fmap_Some in H3 as ([a b] & [Ha _]%region_at_u32 & ->). done. }
  unfold parse_flash_service_symbols. map_lookups. rewrite Hr, H4.
  rewrite H1, H2, H8, H9, H10.
  apply symbol_at_u32 in H1, H2, H4, H8, H9, H10. unfold U32_MAX, u32 in *.
  replace ((len =? 0) || (start + len >? 0xFFFFFFFF)) with false by lia.
  assert (∀ rt, rt = ts_runtime_state_address y → TiMapSymbols_post_init
    (mkSymbols (ts_header_address y) (ts_publish_state_address y) rt (ts_app_export_address y)
       (ts_app_export_address y) (start + len) (ts_boot_init_address y)
       (ts_boot_handle_command_address y) (ts_confirm_current_image_address y)) = Ok y) as Hpost.
  { intros rt ->. unfold TiMapSymbols_post_init. rewrite check_fields_ok.
    - cbn. rewrite <-H6, <-H5. replace (_ <=? _) with false by lia. f_equal.
      destruct y; cbn in *; congruence.
    - repeat constructor; unfold u32; cbn; lia. }
  destruct (symbol_at s SYMBOL_runtime_state_address) as [rt|]; [by apply Hpost|].
  destruct (region_at s (chars "SERVICE_RUNTIME_STATE")) as [[rt n]|]; [|done].
  injection H3 as H3. exact (Hpost rt H3).
Qed.

Lemma parse_symbols_sound s header_symbol :
  plain_name (header_name header_symbol) →
  match parse_flash_service_symbols s header_symbol with
  | Ok y => symbols_of s (header_name header_symbol) y
  | Raise e => class_of e = ValueError
  end.
Proof.
  intros Hh. unfold parse_flash_service_symbols. map_lookups.
  destruct (region_at s (chars "SERVICE_IMMUTABLE")) as [[start len]|] eqn:Er; [|done].
  destruct (symbol_at s SYMBOL_app_export_address) as [app|] eqn:E1; [|done].
  set (runtime := match match symbol_at s SYMBOL_runtime_state_address with
                        | Some _ => _ | None => _ end with Ok _ => _ | Raise _ => _ end).
  assert (∃ r : Res Z, runtime = r ∧ match r with
    | Ok v => match symbol_at s SYMBOL_runtime_state_address with
              | Some address => v = address
              | None => fst <$> region_at s (chars "SERVICE_RUNTIME_STATE") = Some v
              end
    | Raise e => class_of e = ValueError end) as (r & -> & Hrt).
  { eexists; split; [reflexivity|]. unfold runtime.
    destruct (symbol_at s SYMBOL_runtime_state_address) as [a|]; [done|].
    by destruct (region_at s (chars "SERVICE_RUNTIME_STATE")) as [[a b]|]. }
  destruct r as [rt|e]; [|done].
  destruct ((len =? 0) || _) eqn:Eb; [done|].
  destruct (symbol_at s (header_name _)) as [hd|] eqn:E2; [|done].
  destruct (symbol_at s SYMBOL_publish_state_address) as [pub|] eqn:E3; [|done].
  destruct (symbol_at s SYMBOL_boot_init_address) as [ini|] eqn:E4; [|done].
  destruct (symbol_at s SYMBOL_boot_handle_command_address) as [hc|] eqn:E5; [|done].
  destruct (symbol_at s SYMBOL_confirm_current_image_address) as [cf|] eqn:E6; [|done].
  unfold TiMapSymbols_post_init. destruct (check_fields _) as [[]|e] eqn:Ec.
  - cbn [ts_immutable_end_exclusive ts_immutable_start].
    destruct (_ <=? app) eqn:Ee; [done|]. split; cbn; try done; [|lia].
    exists start, len. unfold U32_MAX. split_and!; [done|lia|lia|done].
  - clear -Ec. revert Ec. unfold TiMapSymbols_fields. cbn. repeat case_match; by intros [= <-].
Qed.

(** C23: The map parser is exact.  [parse_flash_service_symbols] returns [y]
    exactly when [y] are the symbols of the map file in the declarative sense:
    every address is the first number of the first line that names the symbol
    (with or without a leading underscore, as a whole word) and has a number,
    the runtime state falls back to its memory region, and the immutable range
    is the non-empty range from the application exports to the end of
    SERVICE_IMMUTABLE.  It raises nothing but ValueError. *)
Theorem map_symbols_exact s header_symbol (Hh : plain_name (header_name header_symbol)) :
  (∀ y, parse_flash_service_symbols s header_symbol = Ok y ↔ symbols_of s (header_name header_symbol) y) ∧
  (∀ e, parse_flash_service_symbols s header_symbol = Raise e → class_of e = ValueError).
Proof.
  pose proof (parse_symbols_sound s header_symbol Hh) as Hs. split.
  - intros y. split; [intros E; by rewrite E in Hs|by apply parse_symbols_complete].
  - intros e E. by rewrite E in Hs.
Qed.

(** ** An example *)

Definition lf : text := [10].

Definition example_map : text :=
  chars "  SERVICE_IMMUTABLE     00010000   00000400  000003f2  0000000e  RWIX" ++ lf ++
  chars "SERVICE_IMMUTABLE     00010000   00000400  000003f2  0000000e  RWIX" ++ lf ++
  chars "0   0001beef   _g_boot_flash_service_header_copy" ++ lf ++
  chars "0   00010800   _g_boot_flash_service_header" ++ lf ++
  chars "0   0x00010820   g_boot_flash_service_publish_state" ++ lf ++
  chars "0   00010010   g_boot_flash_service_app_export" ++ lf ++
  chars "0   00010100   BootFlashService_BootInit" ++ [13; 10] ++
  chars "0   00010120   BootFlashService_BootHandleCommand" ++ lf ++
  chars "0   00010140   BootFlashService_ConfirmCurrentImage" ++ lf ++
  chars "SERVICE_RUNTIME_STATE 00010900   00000040" ++ lf.

Definition example_symbols : TiMapSymbols :=
  mkSymbols 0x10800 0x10820 0x10900 0x10010 0x10010 0x10400 0x10100 0x10120 0x10140.

Lemma map_symbols_exact_witness :
  plain_name (header_name None) ∧ symbols_of example_map (header_name None) example_symbols.
Proof.
  assert (plain_name (header_name None)) as H by plain_literal.
  split; [exact H|]. apply (proj1 (map_symbols_exact example_map None H)).
  vm_compute. reflexivity.
Defined.
