(* ===== verification/ServiceImage.v ===== *)
(** RAM service images: SHA-256, the patching of firmware/service_image.py, then
    what patching does to the contents of the image. *)

(** * SHA-256

    [hashlib.sha256(data).hexdigest()] of the Python standard library (FIPS
    180-4), which the tool uses for the checksums and the identities of image
    files.  Bytes and 32-bit words are [Z] values. *)

From S2P Require Import Prelude.
From S2P Require Import Errors.
From S2P Require Import Constants.
From S2P Require Import Messages.
From S2P Require Import Words.
From S2P Require Import Firmware.
From S2P Require Import Packets.
From S2P Require Import TiMap.

Definition add32 (x y : Z) : Z := (x + y) mod 0x100000000.
Definition rotr (n x : Z) : Z :=
  Z.lor (Z.shiftr x n) (Z.land (Z.shiftl x (32 - n)) 0xFFFFFFFF).
Definition lxor3 (x y z : Z) : Z := Z.lxor x (Z.lxor y z).

(** The largest [r] below [2 ^ bits] with [r ^ 3 <= n], bit by bit *)
Fixpoint cube_root (bits : nat) (n r : Z) : Z :=
  match bits with
  | O => r
  | S bits =>
      let r' := r + 2 ^ Z.of_nat bits in
      cube_root bits n (if r' * r' * r' <=? n then r' else r)
  end.

(** The primes below 312: there are 64 of them. *)
Definition primes : list Z :=
  List.filter (λ n, forallb (λ d, negb (n mod d =? 0)) (zrange 2 n)) (zrange 2 312).

(** The first 32 bits of the fractional parts of the cube roots of the primes,
    and of the square roots of the first eight *)
Definition round_constants : list Z :=
  map (λ p, cube_root 36 (Z.shiftl p 96) 0 mod 0x100000000) primes.
Definition initial_hash : list Z :=
  map (λ p, Z.sqrt (Z.shiftl p 64) mod 0x100000000) (take 8 primes).

(** The big-endian bytes of [x], [n] of them *)
Fixpoint big_endian (n : nat) (x : Z) : list Z :=
  match n with O => [] | S n => Z.land (Z.shiftr x (8 * Z.of_nat n)) 0xFF :: big_endian n x end.

Definition word_of_bytes (bytes : list Z) : Z := foldl (λ w b, 256 * w + b) 0 bytes.

(** The data, a one bit, zeros up to 56 bytes modulo 64 and the length in bits *)
Definition padded (data : list Z) : list Z :=
  data ++ 0x80 :: replicate (Z.to_nat ((55 - zlen data) mod 64)) 0 ++ big_endian 8 (8 * zlen data).

(** Consecutive groups of [n] elements *)
Fixpoint groups {A} (fuel n : nat) (l : list A) : list (list A) :=
  match fuel, l with
  | S fuel, _ :: _ => take n l :: groups fuel n (drop n l)
  | _, _ => []
  end.

(** The 64 words of the message schedule; the last sixteen words are kept in
    front, newest first. *)
Fixpoint schedule (n : nat) (recent : list Z) : list Z :=
  match n with
  | O => []
  | S n =>
      let w i := at_ recent (i - 1) in
      let s0 := lxor3 (rotr 7 (w 15)) (rotr 18 (w 15)) (Z.shiftr (w 15) 3) in
      let s1 := lxor3 (rotr 17 (w 2)) (rotr 19 (w 2)) (Z.shiftr (w 2) 10) in
      let next := add32 (add32 (w 16) s0) (add32 (w 7) s1) in
      next :: schedule n (next :: take 15 recent)
  end.

Definition compress_round (h : list Z) (kw : Z * Z) : list Z :=
  match h with
  | [a; b; c; d; e; f; g; h] =>
      let s1 := lxor3 (rotr 6 e) (rotr 11 e) (rotr 25 e) in
      let ch := Z.lxor (Z.land e f) (Z.land (Z.lxor e 0xFFFFFFFF) g) in
      let temp1 := add32 (add32 (add32 h s1) ch) (add32 (fst kw) (snd kw)) in
      let s0 := lxor3 (rotr 2 a) (rotr 13 a) (rotr 22 a) in
      let maj := lxor3 (Z.land a b) (Z.land a c) (Z.land b c) in
      let temp2 := add32 s0 maj in
      [add32 temp1 temp2; a; b; c; add32 d temp1; e; f; g]
  | _ => h
  end.

Definition compress (hash block : list Z) : list Z :=
  let words := map word_of_bytes (groups 16 4 block) in
  let all := words ++ schedule 48 (rev words) in
  zip_with add32 hash (foldl compress_round hash (zip round_constants all)).

Definition hex_digit (x : Z) : Ascii.ascii :=
  Ascii.ascii_of_nat (Z.to_nat (if x <? 10 then 48 + x else 87 + x)).

Definition hex_bytes (bytes : list Z) : string :=
  String.string_of_list_ascii
    (concat (map (λ b, [hex_digit (Z.shiftr b 4); hex_digit (Z.land b 15)]) bytes)).

Definition sha256_hexdigest (data : list Z) : string :=
  let blocks := groups (length (padded data)) 64 (padded data) in
  hex_bytes (concat (map (big_endian 4) (foldl compress initial_hash blocks))).

(** The digests of the empty string and of [b"abc"] of FIPS 180-4, and of 120
    zero bytes, whose padding takes a block of its own *)
Example sha256_empty : sha256_hexdigest [] =
  "e3b0c44298fc1c149afbf4c8996fb92427ae41e4649b934ca495991b7852b855"%string.
Proof. vm_compute. reflexivity. Qed.

Example sha256_abc : sha256_hexdigest [97; 98; 99] =
  "ba7816bf8f01cfea414140de5dae2223b00361a396177a9cb410ff61f20015ad"%string.
Proof. vm_compute. reflexivity. Qed.

Example sha256_two_blocks : sha256_hexdigest (replicate 120 0) =
  "6edd9f6f9cc92cded36e6c4a580933f9c9f1b90562b46903b806f21902a1a54f"%string.
Proof. vm_compute. reflexivity. Qed.

(** * RAM service images (firmware/service_image.py)

    Patching an externally built service image: the immutable range is made
    dense, the publish words are invalidated and the header with its checksums
    is written.  The symbols come from the linker map (TiMap.v).  The packets
    of a service image are cut from the sorted blocks without merging. *)

Record ServiceRamPacket : Type := mkServicePacket {
  sp_address : Z;
  sp_words : list Z;
  sp_index : Z;
}.

(** [_copy_image] *)
Definition copy_image (image : FirmwareImage) (blocks : list FirmwareBlock) : Res FirmwareImage :=
  FirmwareImage_init (fi_source_out_file image) (fi_generated_hex_file image) (fi_entry_point image)
    (sorted_by fb_address blocks) (fi_file_checksum image) (fi_format_info image).

(** What one block leaves outside [[address, end)]. *)
Definition block_remains (address stop : Z) (block : FirmwareBlock) : Res (list FirmwareBlock) :=
  if (fb_end_exclusive block <=? address) || (fb_address block >=? stop) then Ok [block] else
  let? before :=
    if fb_address block <? address
    then let? b := FirmwareBlock_init (fb_address block)
                     (slice (fb_words block) 0 (address - fb_address block)) in Ok [b]
    else Ok [] in
  let? behind :=
    if fb_end_exclusive block >? stop
    then let? b := FirmwareBlock_init stop (slice_from (fb_words block) (stop - fb_address block)) in
         Ok [b]
    else Ok [] in
  Ok (before ++ behind).

Definition replace_words (image : FirmwareImage) (address : Z) (words : list Z)
    : Res FirmwareImage :=
  fail (Err ValueError (Lit "patch words must be non-empty uint16 values"))
    when (zlen words =? 0) || existsb (λ word, (word <? 0) || (word >? 0xFFFF)) words ;;
  let stop := address + zlen words in
  let? remains := mapR (block_remains address stop) (fi_blocks image) in
  let? patch := FirmwareBlock_init address words in
  copy_image image (concat remains ++ [patch]).

Definition patch_words (image : FirmwareImage) (address : Z) (words : list Z) : Res FirmwareImage :=
  fail (Err ValueError (Lit "patch range must be inside one FirmwareBlock"))
    when negb (existsb (λ block, (fb_address block <=? address)
                                 && (address + zlen words <=? fb_end_exclusive block))
                 (fi_blocks image)) ;;
  replace_words image address words.

(** [words[a:b] = replacement], for a replacement of the same length. *)
Definition slice_assign (words : list Z) (a : Z) (replacement : list Z) : list Z :=
  take (Z.to_nat a) words ++ replacement ++ drop (Z.to_nat a + length replacement) words.

Definition dense_step (start stop : Z) (words : list Z) (block : FirmwareBlock) : list Z :=
  let copy_start := Z.max start (fb_address block) in
  let copy_end := Z.min stop (fb_end_exclusive block) in
  if copy_start <? copy_end
  then slice_assign words (copy_start - start)
         (slice (fb_words block) (copy_start - fb_address block) (copy_end - fb_address block))
  else words.

Definition dense_immutable (image : FirmwareImage) (start end_exclusive : Z) : Res FirmwareBlock :=
  fail (Err ValueError (Lit "invalid immutable range"))
    when (start <? 0) || (end_exclusive <=? start) || (end_exclusive >? 0x100000000) ;;
  FirmwareBlock_init start
    (foldl (dense_step start end_exclusive)
       (replicate (Z.to_nat (end_exclusive - start)) 0xFFFF) (fi_blocks image)).

(** [range(0, len(words), max)] cuts the words into [chunks_of]. *)
Fixpoint service_packets (address index : Z) (raws : list (list Z)) : list ServiceRamPacket :=
  match raws with
  | [] => []
  | raw :: raws =>
      mkServicePacket address raw index :: service_packets (address + zlen raw) (index + 1) raws
  end.

Fixpoint service_packets_blocks (index max : Z) (blocks : list FirmwareBlock)
    : list ServiceRamPacket :=
  match blocks with
  | [] => []
  | block :: blocks =>
      let packets := service_packets (fb_address block) index (chunks_of max (fb_words block)) in
      packets ++ service_packets_blocks (index + zlen packets) max blocks
  end.

Definition prepare_service_ram_packets (image : FirmwareImage) (max_data_words : Z)
    : Res (list ServiceRamPacket) :=
  fail (Err ValueError (Lit "max_data_words must be positive")) when max_data_words <=? 0 ;;
  let packets := service_packets_blocks 0 max_data_words (sorted_by fb_address (fi_blocks image)) in
  fail (Err ValueError (Lit "service image requires more than 65535 protocol packets"))
    when zlen packets >? 0xFFFF ;;
  Ok packets.

Definition calculate_service_ram_load_crc32 (image : FirmwareImage) (max_data_words : Z) : Res Z :=
  let? packets := prepare_service_ram_packets image max_data_words in
  crc32_words (concat (map sp_words packets)).

(** The header words 0-25. *)
Definition service_header (symbols : TiMapSymbols) (capabilities immutable_crc : Z)
    : Res (list Z) :=
  let? magic := split_u32 SERVICE_HEADER_MAGIC in
  let? start := split_u32 (ts_immutable_start symbols) in
  let? stop := split_u32 (ts_immutable_end_exclusive symbols) in
  let? publish := split_u32 (ts_publish_state_address symbols) in
  let? runtime := split_u32 (ts_runtime_state_address symbols) in
  let? export := split_u32 (ts_app_export_address symbols) in
  let? init := split_u32 (ts_boot_init_address symbols) in
  let? handle := split_u32 (ts_boot_handle_command_address symbols) in
  let? cap := split_u32 capabilities in
  let? crc := split_u32 immutable_crc in
  Ok [magic.1; magic.2; SERVICE_HEADER_VERSION; SERVICE_HEADER_WORDS; SERVICE_ABI_MAJOR;
      SERVICE_ABI_MINOR; start.1; start.2; stop.1; stop.2; publish.1; publish.2; runtime.1;
      runtime.2; export.1; export.2; init.1; init.2; handle.1; handle.2; cap.1; cap.2;
      SERVICE_IMAGE_CRC32_IEEE; 0; crc.1; crc.2].

Definition patch_flash_service_image (image : FirmwareImage) (symbols : TiMapSymbols)
    (capabilities : Z) : Res FirmwareImage :=
  fail (Err ValueError (Lit "header_address must point to 28 words inside one FirmwareBlock"))
    when negb (existsb (λ block,
                 (fb_address block <=? ts_header_address symbols)
                 && (ts_header_address symbols + SERVICE_HEADER_WORDS <=? fb_end_exclusive block))
               (fi_blocks image)) ;;
  fail (Err ValueError (Lit "service entry points must be inside the immutable range"))
    when negb (forallb (λ address, (ts_immutable_start symbols <=? address)
                                   && (address <? ts_immutable_end_exclusive symbols))
                 [ts_boot_init_address symbols; ts_boot_handle_command_address symbols;
                  ts_confirm_current_image_address symbols]) ;;
  (* two ranges with the same start overlap, in whichever order they are sorted *)
  let mutable_ranges := sorted_by fst
    [(ts_header_address symbols, ts_header_address symbols + SERVICE_HEADER_WORDS);
     (ts_publish_state_address symbols, ts_publish_state_address symbols + 2);
     (ts_runtime_state_address symbols, ts_runtime_state_address symbols + 1)] in
  fail (Err ValueError (Lit "mutable service ranges must be disjoint from each other and immutable data"))
    when existsb (λ '(lower, upper), lower.2 >? upper.1) (zip mutable_ranges (tail mutable_ranges))
         || existsb (λ '(start, stop), (start <? ts_immutable_end_exclusive symbols)
                                      && (stop >? ts_immutable_start symbols)) mutable_ranges ;;
  let? immutable := dense_immutable image (ts_immutable_start symbols)
                      (ts_immutable_end_exclusive symbols) in
  let? patched := replace_words image (fb_address immutable) (fb_words immutable) in
  let? patched := replace_words patched (ts_publish_state_address symbols)
                    [SERVICE_PUBLISH_INVALID; SERVICE_PUBLISH_INVALID] in
  let? immutable_crc := crc32_words (fb_words immutable) in
  let? head := service_header symbols capabilities immutable_crc in
  let? header_crc := crc32_words head in
  let? crc := split_u32 header_crc in
  patch_words patched (ts_header_address symbols) (head ++ [crc.1; crc.2]).

(** * What patching a service image does

    The patched image, as a word memory: the old contents with the immutable
    range made dense, the publish words invalidated and a header written whose
    fields are the symbols and whose checksums are those of the words in
    memory.  Patching succeeds exactly when the addresses are consistent. *)

(** ** Specification *)

Definition covers (b : FirmwareBlock) (a : Z) : Prop := fb_address b <= a < fb_end_exclusive b.
Definition holds (b : FirmwareBlock) (start stop : Z) : Prop :=
  fb_address b <= start ∧ stop <= fb_end_exclusive b.

(** What the constructors establish, inside the 32-bit address space *)
Record image_ok (image : FirmwareImage) : Prop := {
  io_image : FirmwareImage_ok image;
  io_blocks : Forall block_ok (fi_blocks image);
  io_space : Forall (λ b, fb_end_exclusive b <= 0x100000000) (fi_blocks image);
}.

Record symbols_ok (y : TiMapSymbols) : Prop := {
  sy_fields : Forall (λ f, u32 f.2) (TiMapSymbols_fields y);
  sy_nonempty : ts_immutable_start y < ts_immutable_end_exclusive y;
  sy_space : ts_publish_state_address y + 2 <= 0x100000000;
}.

(** What the patch writes *)
Definition written_ranges (y : TiMapSymbols) : list (Z * Z) :=
  [(ts_header_address y, ts_header_address y + SERVICE_HEADER_WORDS);
   (ts_publish_state_address y, ts_publish_state_address y + 2);
   (ts_immutable_start y, ts_immutable_end_exclusive y)].

(** The ranges that must not meet: these and the runtime state *)
Definition service_ranges (y : TiMapSymbols) : list (Z * Z) :=
  (ts_runtime_state_address y, ts_runtime_state_address y + 1) :: written_ranges y.

Record patch_admitted (image : FirmwareImage) (y : TiMapSymbols) : Prop := {
  pa_header : ∃ b, b ∈ fi_blocks image ∧
    holds b (ts_header_address y) (ts_header_address y + SERVICE_HEADER_WORDS);
  pa_entries : Forall (λ a, ts_immutable_start y <= a < ts_immutable_end_exclusive y)
    [ts_boot_init_address y; ts_boot_handle_command_address y; ts_confirm_current_image_address y];
  pa_disjoint : ForallOrdPairs (λ r s, r.2 <= s.1 ∨ s.2 <= r.1) (service_ranges y);
}.

(** [join_u32] of the two words at [i] *)
Definition word32 (h : list Z) (i : Z) : Z := join_u32 (at_ h i) (at_ h (i + 1)).

(** The header [h] describes the symbols and the immutable words. *)
Record header_of (y : TiMapSymbols) (capabilities : Z) (immutable h : list Z) : Prop := {
  ho_length : zlen h = SERVICE_HEADER_WORDS;
  ho_magic : word32 h 0 = SERVICE_HEADER_MAGIC;
  ho_fixed : slice h 2 6 =
    [SERVICE_HEADER_VERSION; SERVICE_HEADER_WORDS; SERVICE_ABI_MAJOR; SERVICE_ABI_MINOR];
  ho_symbols : map (word32 h) [6; 8; 10; 12; 14; 16; 18; 20] =
    [ts_immutable_start y; ts_immutable_end_exclusive y; ts_publish_state_address y;
     ts_runtime_state_address y; ts_app_export_address y; ts_boot_init_address y;
     ts_boot_handle_command_address y; capabilities];
  ho_checksum : slice h 22 24 = [SERVICE_IMAGE_CRC32_IEEE; 0];
  ho_immutable_crc : crc32_words immutable = Ok (word32 h 24);
  ho_header_crc : crc32_words (slice h 0 26) = Ok (word32 h 26);
}.

Record patched_as (image : FirmwareImage) (y : TiMapSymbols) (capabilities : Z)
    (patched : FirmwareImage) : Prop := {
  ps_image : image_ok patched;
  ps_entry : fi_entry_point patched = fi_entry_point image;
  ps_immutable :
    let size := ts_immutable_end_exclusive y - ts_immutable_start y in
    read_words (image_memory patched) (ts_immutable_start y) size =
    read_words (image_memory image) (ts_immutable_start y) size;
  ps_header : header_of y capabilities
    (read_words (image_memory patched) (ts_immutable_start y)
       (ts_immutable_end_exclusive y - ts_immutable_start y))
    (read_words (image_memory patched) (ts_header_address y) SERVICE_HEADER_WORDS);
  ps_publish : read_words (image_memory patched) (ts_publish_state_address y) 2 =
    [SERVICE_PUBLISH_INVALID; SERVICE_PUBLISH_INVALID];
  ps_dense : ∀ a, ts_immutable_start y <= a < ts_immutable_end_exclusive y →
    is_Some (image_memory patched !! a);
  ps_rest : ∀ a, Forall (λ r, ¬ (r.1 <= a < r.2)) (written_ranges y) →
    image_memory patched !! a = image_memory image !! a;
}.

(** ** Images as memories *)

Definition word_at (b : FirmwareBlock) (a : Z) : Z := at_ (fb_words b) (a - fb_address b).

Lemma image_lookup image a w :
  FirmwareImage_ok image →
  image_memory image !! a = Some w ↔ ∃ b, b ∈ fi_blocks image ∧ covers b a ∧ w = word_at b a.
Proof.
  intros Hi. unfold image_memory.
  rewrite write_pieces_lookup by by apply block_pieces_apart, fi_apart.
  split.
  - intros [(p & Hp & Ha & ->)|[_ He]]; [|done].
    apply list_elem_of_In, in_map_iff in Hp as (b & <- & Hb). exists b.
    split; [by apply list_elem_of_In|done].
  - intros (b & Hb & Ha & ->). left. exists (block_piece b).
    split; [|done]. apply list_elem_of_In, in_map_iff. exists b. by rewrite <-list_elem_of_In.
Qed.

Lemma ranges_overlap_sorted l :
  StronglySorted (key_le ar_start) l → Forall (λ r, ar_start r < ar_end_exclusive r) l →
  ForallOrdPairs ranges_apart l → ranges_overlap l = false.
Proof.
  induction 1 as [|r l Hs IH Hr]; intros Hne Ha; [done|].
  apply Forall_cons in Hne as [Hr0 Hne]. apply ForallOrdPairs_cons_inv in Ha as [Hra Ha].
  destruct l as [|s l]; [done|]. specialize (IH Hne Ha).
  change (ranges_overlap (r :: s :: l)) with
    ((ar_end_exclusive r >? ar_start s) || ranges_overlap (s :: l)). rewrite IH, orb_false_r.
  apply Forall_cons in Hra as [Hra _]. apply Forall_cons in Hr as [Hrs _].
  apply Forall_cons in Hne as [Hs0 _]. unfold ranges_apart, key_le in *. lia.
Qed.

Lemma block_nonempty b : block_ok b → 0 <= fb_address b < fb_end_exclusive b.
Proof.
  intros (Ha & Hne & _). unfold fb_end_exclusive, u32 in *. pose proof (zlen_nonneg (fb_words b)).
  destruct (Z.eq_dec (zlen (fb_words b)) 0) as [E|]; [by apply zlen_0_inv in E|lia].
Qed.

(** The constructor accepts blocks that are apart. *)
Lemma FirmwareImage_init_complete source generated entry blocks sum info :
  u32 entry → blocks ≠ [] → Forall block_ok blocks → ForallOrdPairs apart blocks →
  ∃ image, FirmwareImage_init source generated entry blocks sum info = Ok image.
Proof.
  intros He Hne Hok Hap. unfold FirmwareImage_init.
  replace (_ || _) with false by (unfold u32 in He; lia).
  destruct (zlen blocks =? 0) eqn:E; [by apply Z.eqb_eq, zlen_0_inv in E|].
  destruct (mapR _ blocks) as [ranges|e] eqn:Em.
  - apply AddressRange_mapR_ok in Em as [Er Hr]. rewrite ranges_overlap_sorted; [eauto| | |].
    + apply sorted_by_sorted.
    + by rewrite sorted_by_perm.
    + eapply ForallOrdPairs_perm; [unfold ranges_apart; tauto|symmetry; apply sorted_by_perm|].
      by rewrite Er, ForallOrdPairs_map.
  - exfalso. assert (mapR (λ b, AddressRange_init (fb_address b) (fb_end_exclusive b)) blocks =
      Ok (map (λ b, mkRange (fb_address b) (fb_end_exclusive b)) blocks)) as H; [|congruence].
    apply mapR_Forall2. clear -Hok. induction Hok as [|b blocks Hb _ IH]; [constructor|].
    constructor; [|done]. apply block_nonempty in Hb. unfold AddressRange_init.
    by replace (_ || _) with false by lia.
Qed.

(** ** Cutting blocks *)

(** [bs] is what is left of [b] outside [[address, stop)]. *)
Record remains_of (address stop : Z) (b : FirmwareBlock) (bs : list FirmwareBlock) : Prop := {
  ro_blocks : Forall block_ok bs;
  ro_within : Forall (λ c, fb_address b <= fb_address c ∧ fb_end_exclusive c <= fb_end_exclusive b ∧
                          (fb_end_exclusive c <= address ∨ stop <= fb_address c)) bs;
  ro_apart : ForallOrdPairs apart bs;
  ro_words : ∀ a, covers b a → ¬ (address <= a < stop) →
    ∃ c, c ∈ bs ∧ covers c a ∧ word_at c a = word_at b a;
  ro_same : ∀ c a, c ∈ bs → covers c a → word_at c a = word_at b a;
  ro_holds : ∀ x y, x < y → holds b x y → y <= address ∨ stop <= x →
    ∃ c, c ∈ bs ∧ holds c x y;
}.

Lemma block_words_ok a ws : u32 a → ws ≠ [] → Forall u16 ws → FirmwareBlock_init a ws = Ok (mkBlock a ws).
Proof. intros. by apply FirmwareBlock_init_ok. Qed.

(** The piece in front of the patch and the piece behind it *)
Definition front (address : Z) (b : FirmwareBlock) : FirmwareBlock :=
  mkBlock (fb_address b) (slice (fb_words b) 0 (address - fb_address b)).
Definition behind (stop : Z) (b : FirmwareBlock) : FirmwareBlock :=
  mkBlock stop (slice_from (fb_words b) (stop - fb_address b)).

Lemma slice_0 {A} (l : list A) n : slice l 0 n = take (Z.to_nat n) l.
Proof. unfold slice. by rewrite drop_0, Nat.sub_0_r. Qed.

Lemma word_at_front address b a :
  covers (front address b) a → word_at (front address b) a = word_at b a.
Proof.
  unfold covers, fb_end_exclusive, word_at, front. cbn. rewrite slice_0. set (n := Z.to_nat _). intros H.
  rewrite <-(take_drop n (fb_words b)) at 2. rewrite at_app_l; [done|]. lia.
Qed.

Lemma word_at_behind stop b a :
  fb_address b <= stop <= fb_end_exclusive b →
  covers (behind stop b) a → word_at (behind stop b) a = word_at b a.
Proof.
  unfold covers, fb_end_exclusive, word_at, behind, slice_from. cbn. intros Hs H.
  set (n := stop - fb_address b) in *. rewrite <-(take_drop (Z.to_nat n) (fb_words b)) at 2.
  assert (zlen (take (Z.to_nat n) (fb_words b)) = n) as E by (rewrite zlen_take; lia).
  rewrite at_app_r; [|lia]. rewrite E. by replace (a - fb_address b - n) with (a - stop) by (unfold n; lia).
Qed.

Lemma front_spec address b :
  block_ok b → fb_address b < address <= fb_end_exclusive b →
  block_ok (front address b) ∧ fb_end_exclusive (front address b) = address ∧
  ∀ a, covers (front address b) a → word_at (front address b) a = word_at b a.
Proof.
  intros (Ha & Hne & Hu) Hr. unfold fb_end_exclusive in *.
  assert (zlen (fb_words (front address b)) = address - fb_address b) as Hl
    by (cbn; rewrite slice_0, zlen_take; lia).
  split_and!.
  - split; [done|]. split; [|by apply Forall_slice]. intros E.
    apply (f_equal zlen) in E. rewrite Hl in E. change (zlen []) with 0 in E. lia.
  - rewrite Hl. cbn. lia.
  - apply word_at_front.
Qed.

Lemma behind_spec stop b :
  block_ok b → fb_end_exclusive b <= 0x100000000 → fb_address b <= stop < fb_end_exclusive b →
  block_ok (behind stop b) ∧ fb_end_exclusive (behind stop b) = fb_end_exclusive b ∧
  ∀ a, covers (behind stop b) a → word_at (behind stop b) a = word_at b a.
Proof.
  intros (Ha & Hne & Hu) Hs Hr. unfold fb_end_exclusive, u32 in *.
  assert (zlen (fb_words (behind stop b)) = fb_address b + zlen (fb_words b) - stop) as Hl
    by (cbn; unfold slice_from; rewrite zlen_drop; lia).
  split_and!.
  - split; [cbn; unfold u32; lia|]. split; [|by apply Forall_drop]. intros E.
    apply (f_equal zlen) in E. rewrite Hl in E. change (zlen []) with 0 in E. lia.
  - rewrite Hl. cbn. lia.
  - intros a. apply word_at_behind. unfold fb_end_exclusive. lia.
Qed.

Lemma block_remains_spec address stop b :
  address < stop → block_ok b → fb_end_exclusive b <= 0x100000000 →
  ∃ bs, block_remains address stop b = Ok bs ∧ remains_of address stop b bs.
Proof.
  intros Has Hb Hs. pose proof (block_nonempty b Hb) as Hne. unfold block_remains.
  destruct (_ || _) eqn:E.
  { exists [b]. split; [done|]. split; [by apply Forall_singleton| |by repeat constructor|..].
    - apply Forall_singleton. cbv beta. lia.
    - intros a Ha _. exists b. split; [by apply list_elem_of_singleton|done].
    - by intros c a ->%list_elem_of_singleton.
    - intros x y _ Hh _. exists b. split; [by apply list_elem_of_singleton|done]. }
  set (fs := if fb_address b <? address then [front address b] else []).
  set (bs := if fb_end_exclusive b >? stop then [behind stop b] else []).
  exists (fs ++ bs). split.
  - transitivity (let? f := Ok fs in let? k := Ok bs in Ok (f ++ k)); [|done].
    unfold fs, bs. destruct (_ <? _) eqn:Ef; destruct (_ >? _) eqn:Ek; try done.
    all: rewrite ?(proj2 (FirmwareBlock_init_ok _ _ _) (conj eq_refl (proj1 (front_spec address b Hb ltac:(lia))))).
    all: rewrite ?(proj2 (FirmwareBlock_init_ok _ _ _) (conj eq_refl (proj1 (behind_spec stop b Hb Hs ltac:(lia))))).
    all: done.
  - assert (∀ c, c ∈ fs ↔ fb_address b < address ∧ c = front address b) as Hfs.
    { intros c. unfold fs. destruct (_ <? _) eqn:Ef; [rewrite list_elem_of_singleton; split; [|tauto]
        |rewrite elem_of_nil]; intuition lia. }
    assert (∀ c, c ∈ bs ↔ stop < fb_end_exclusive b ∧ c = behind stop b) as Hbs.
    { intros c. unfold bs. destruct (_ >? _) eqn:Ef; [rewrite list_elem_of_singleton; split; [|tauto]
        |rewrite elem_of_nil]; intuition lia. }
    assert (∀ c, c ∈ fs ++ bs → block_ok c ∧ (∀ a, covers c a → word_at c a = word_at b a) ∧
      fb_address b <= fb_address c ∧ fb_end_exclusive c <= fb_end_exclusive b ∧
      (fb_end_exclusive c <= address ∨ stop <= fb_address c)) as Hall.
    { intros c [[? ->]%Hfs|[? ->]%Hbs]%elem_of_app.
      - destruct (front_spec address b Hb) as (? & He & ?); [lia|]. split_and!; try done; cbn; lia.
      - destruct (behind_spec stop b Hb Hs) as (? & He & ?); [lia|]. split_and!; try done; cbn; lia. }
    split.
    + apply Forall_forall. intros c Hc. by apply Hall.
    + apply Forall_forall. intros c Hc. by apply Hall.
    + unfold fs, bs. destruct (_ <? _) eqn:Ef; destruct (_ >? _); [|by repeat constructor..].
      constructor; [|by repeat constructor]. apply Forall_singleton. left.
      destruct (front_spec address b Hb) as (_ & He & _); [lia|]. cbn. lia.
    + intros a Ha Hn. unfold covers in Ha. destruct (decide (a < address)).
      * exists (front address b). destruct (front_spec address b Hb) as (_ & He & Hw); [lia|].
        assert (covers (front address b) a) as Hc by (unfold covers; cbn in *; lia).
        split; [apply elem_of_app; left; apply Hfs; split; [lia|done]|auto].
      * exists (behind stop b). destruct (behind_spec stop b Hb Hs) as (_ & He & Hw); [lia|].
        assert (covers (behind stop b) a) as Hc by (unfold covers; cbn in *; lia).
        split; [apply elem_of_app; right; apply Hbs; split; [lia|done]|auto].
    + intros c a Hc. by apply Hall.
    + intros x y Hxy [Hx Hy] [Hd|Hd].
      * exists (front address b). destruct (front_spec address b Hb) as (_ & He & _); [lia|].
        split; [apply elem_of_app; left; apply Hfs; split; [lia|done]|split; cbn; lia].
      * exists (behind stop b). destruct (behind_spec stop b Hb Hs) as (_ & He & _); [lia|].
        split; [apply elem_of_app; right; apply Hbs; split; [lia|done]|split; cbn; lia].
Qed.

(** All blocks cut *)
Lemma remains_concat address stop blocks remains :
  Forall2 (remains_of address stop) blocks remains → ForallOrdPairs apart blocks →
  ForallOrdPairs apart (concat remains) ∧
  (∀ c, c ∈ concat remains → ∃ b bs, b ∈ blocks ∧ remains_of address stop b bs ∧ c ∈ bs) ∧
  (∀ b, b ∈ blocks → ∃ bs, remains_of address stop b bs ∧ ∀ c, c ∈ bs → c ∈ concat remains).
Proof.
  intros H Hap. induction H as [|b bs blocks remains Hb H IH]; cbn [concat].
  { split_and!; [constructor| |]; by intros ? ?%elem_of_nil. }
  apply ForallOrdPairs_cons_inv in Hap as [Hba Hap]. destruct (IH Hap) as (IH1 & IH2 & IH3).
  split_and!.
  - apply ForallOrdPairs_app; [apply Hb|done|]. apply Forall_forall. intros c Hc.
    apply Forall_forall. intros d (b' & bs' & Hb' & Hr & Hd)%IH2.
    pose proof (proj1 (Forall_forall _ _) Hba b' Hb') as Ha.
    pose proof (proj1 (Forall_forall _ _) (ro_within _ _ _ _ Hb) c Hc).
    pose proof (proj1 (Forall_forall _ _) (ro_within _ _ _ _ Hr) d Hd).
    unfold apart in *. cbv beta in *. lia.
  - intros c [Hc|(b' & bs' & ? & ? & ?)%IH2]%elem_of_app.
    + exists b, bs. split_and!; [left|done|done].
    + exists b', bs'. split_and!; [by right|done|done].
  - intros b' [->|Hb']%elem_of_cons.
    + exists bs. split; [done|]. intros c Hc. apply elem_of_app. by left.
    + destruct (IH3 b' Hb') as (bs' & Hr & Hi). exists bs'. split; [done|].
      intros c Hc. apply elem_of_app. right. by apply Hi.
Qed.

(** [cuts] is what is left of all blocks outside [[address, stop)]. *)
Record cut_of (address stop : Z) (blocks cuts : list FirmwareBlock) : Prop := {
  co_blocks : Forall block_ok cuts;
  co_apart : ForallOrdPairs apart cuts;
  co_within : ∀ c, c ∈ cuts → ∃ b, b ∈ blocks ∧ fb_address b <= fb_address c ∧
    fb_end_exclusive c <= fb_end_exclusive b ∧
    (fb_end_exclusive c <= address ∨ stop <= fb_address c) ∧
    ∀ a, covers c a → word_at c a = word_at b a;
  co_words : ∀ b a, b ∈ blocks → covers b a → ¬ (address <= a < stop) →
    ∃ c, c ∈ cuts ∧ covers c a ∧ word_at c a = word_at b a;
  co_holds : ∀ b x y, b ∈ blocks → x < y → holds b x y → y <= address ∨ stop <= x →
    ∃ c, c ∈ cuts ∧ holds c x y;
}.

Lemma blocks_remain address stop blocks :
  address < stop → Forall block_ok blocks → Forall (λ b, fb_end_exclusive b <= 0x100000000) blocks →
  ∃ remains, mapR (block_remains address stop) blocks = Ok remains ∧
    Forall2 (remains_of address stop) blocks remains.
Proof.
  intros Has Hok Hsp.
  assert (∃ remains, Forall2 (λ b bs, block_remains address stop b = Ok bs ∧
    remains_of address stop b bs) blocks remains) as [remains H].
  { induction Hok as [|b blocks Hb _ IH]; [by exists []|].
    apply Forall_cons in Hsp as [Hs Hsp]. destruct (IH Hsp) as [remains H].
    destruct (block_remains_spec address stop b Has Hb Hs) as (bs & H1 & H2).
    exists (bs :: remains). constructor; [split; done|done]. }
  exists remains. rewrite mapR_Forall2. split; (eapply Forall2_impl; [exact H|by intros b bs [? ?]]).
Qed.

Lemma cut_blocks address stop image :
  address < stop → image_ok image →
  ∃ remains, mapR (block_remains address stop) (fi_blocks image) = Ok remains ∧
    cut_of address stop (fi_blocks image) (concat remains).
Proof.
  intros Has [Himg Hok Hsp]. destruct (blocks_remain address stop _ Has Hok Hsp) as (remains & Em & Hr).
  exists remains. split; [done|].
  destruct (remains_concat address stop _ _ Hr (fi_apart _ Himg)) as (Hap & Hin & Hout).
  split; [|done|..].
  - apply Forall_forall. intros c (b & bs & _ & Hb & Hc)%Hin.
    exact (proj1 (Forall_forall _ _) (ro_blocks _ _ _ _ Hb) c Hc).
  - intros c (b & bs & Hb & Hro & Hc)%Hin. exists b.
    pose proof (proj1 (Forall_forall _ _) (ro_within _ _ _ _ Hro) c Hc) as (? & ? & ?).
    split_and!; try done. intros a. by apply (ro_same _ _ _ _ Hro).
  - intros b a Hb Hba Hn. destruct (Hout b Hb) as (bs & Hro & Hsub).
    destruct (ro_words _ _ _ _ Hro a Hba Hn) as (c & Hc & ? & ?). exists c. auto.
  - intros b x y Hb Hxy Hh Hd. destruct (Hout b Hb) as (bs & Hro & Hsub).
    destruct (ro_holds _ _ _ _ Hro x y Hxy Hh Hd) as (c & Hc & ?). exists c. auto.
Qed.

(** Replacing words overwrites the memory of the image and keeps every range
    it does not meet inside one block. *)
Record replaced (image : FirmwareImage) (address : Z) (ws : list Z) (image' : FirmwareImage) : Prop := {
  rp_image : image_ok image';
  rp_entry : fi_entry_point image' = fi_entry_point image;
  rp_memory : image_memory image' = write_words address ws (image_memory image);
  rp_holds : ∀ x y, x < y → (∃ b, b ∈ fi_blocks image ∧ holds b x y) →
    y <= address ∨ address + zlen ws <= x → ∃ b, b ∈ fi_blocks image' ∧ holds b x y;
}.

(** An image whose blocks are the cut ones and the patch *)
Lemma cut_replaced image address ws cuts image' :
  image_ok image → block_ok (mkBlock address ws) → address + zlen ws <= 0x100000000 →
  cut_of address (address + zlen ws) (fi_blocks image) cuts →
  FirmwareImage_ok image' → fi_entry_point image' = fi_entry_point image →
  fi_blocks image' ≡ₚ cuts ++ [mkBlock address ws] → replaced image address ws image'.
Proof.
  intros [Himg Hok Hsp] Hp Hstop Hcut Hi' He Hperm. set (patch := mkBlock address ws) in *.
  assert (∀ c, c ∈ fi_blocks image' ↔ c ∈ cuts ∨ c = patch) as Hmem.
  { intros c. by rewrite Hperm, elem_of_app, list_elem_of_singleton. }
  split; [split; [done| |]|done| |].
  - rewrite Hperm. apply Forall_app. split; [apply Hcut|by apply Forall_singleton].
  - apply Forall_forall. intros c [Hc| ->]%Hmem; [|done].
    destruct (co_within _ _ _ _ Hcut c Hc) as (b & Hb & _ & Hle & _).
    pose proof (proj1 (Forall_forall _ _) Hsp b Hb). cbv beta in *. lia.
  - apply map_eq. intros a. apply option_eq. intros w.
    rewrite image_lookup, write_words_lookup by done. case_bool_decide as Hin.
    + split.
      * intros (c & [Hc| ->]%Hmem & Hca & ->); [|done]. exfalso.
        destruct (co_within _ _ _ _ Hcut c Hc) as (b & _ & _ & _ & Hd & _). unfold covers in Hca. lia.
      * intros [= <-]. exists patch. split; [apply Hmem; by right|done].
    + rewrite image_lookup by done. split.
      * intros (c & [Hc| ->]%Hmem & Hca & ->); [|by destruct Hin].
        destruct (co_within _ _ _ _ Hcut c Hc) as (b & Hb & H1 & H2 & _ & H3).
        exists b. split; [done|]. split; [unfold covers in *; lia|auto].
      * intros (b & Hb & Hba & ->). destruct (co_words _ _ _ _ Hcut b a Hb Hba Hin) as (c & Hc & Hca & <-).
        exists c. split; [apply Hmem; by left|done].
  - intros x y Hxy (b & Hb & Hh) Hd. destruct (co_holds _ _ _ _ Hcut b x y Hb Hxy Hh Hd) as (c & Hc & ?).
    exists c. split; [apply Hmem; by left|done].
Qed.

Lemma replace_words_spec image address ws :
  image_ok image → u32 address → ws ≠ [] → Forall u16 ws → address + zlen ws <= 0x100000000 →
  ∃ image', replace_words image address ws = Ok image' ∧ replaced image address ws image'.
Proof.
  intros Hi Ha Hne Hu Hstop. set (patch := mkBlock address ws).
  assert (block_ok patch) as Hp by (by split_and!). pose proof (block_nonempty patch Hp) as Has.
  destruct (cut_blocks address (address + zlen ws) image) as (remains & Em & Hcut); [apply Has|done|].
  unfold replace_words. rewrite (proj2 (existsb_unfit_false ws) Hu), orb_false_r.
  destruct (zlen ws =? 0) eqn:E0; [by apply Z.eqb_eq, zlen_0_inv in E0|]. rewrite Em.
  rewrite (block_words_ok address ws Ha Hne Hu). fold patch. set (cut := concat remains ++ [patch]).
  unfold copy_image. pose proof (sorted_by_perm fb_address cut) as Hperm.
  destruct (FirmwareImage_init_complete (fi_source_out_file image) (fi_generated_hex_file image)
    (fi_entry_point image) (sorted_by fb_address cut) (fi_file_checksum image) (fi_format_info image))
    as [image' Ei].
  { apply Hi. }
  { rewrite sorted_by_nil. unfold cut. by destruct (concat remains). }
  { rewrite Hperm. apply Forall_app. split; [apply Hcut|by apply Forall_singleton]. }
  { eapply ForallOrdPairs_perm; [unfold apart; tauto|by symmetry|].
    apply ForallOrdPairs_app; [apply Hcut|by repeat constructor|]. apply Forall_forall.
    intros c (b & _ & _ & _ & Hd & _)%(co_within _ _ _ _ Hcut). by apply Forall_singleton. }
  exists image'. split; [done|]. apply FirmwareImage_init_ok in Ei as (Hi' & Eb & Ee).
  eapply cut_replaced; try done. by rewrite Eb, Hperm.
Qed.

(** ** The immutable range *)

Lemma at_take n l i : 0 <= i < Z.of_nat n → at_ (take n l) i = at_ l i.
Proof.
  intros Hi. unfold at_. rewrite nth_firstn. by rewrite (proj2 (Nat.ltb_lt _ _)) by lia.
Qed.

Lemma at_drop n l i : 0 <= i → at_ (drop n l) i = at_ l (Z.of_nat n + i).
Proof. intros Hi. unfold at_. rewrite nth_skipn. f_equal. lia. Qed.

Lemma at_slice l a b i : 0 <= a → 0 <= i < b - a → at_ (slice l a b) i = at_ l (a + i).
Proof.
  intros Ha Hi. unfold slice. rewrite at_take, at_drop by lia. f_equal. lia.
Qed.

Lemma slice_assign_at words a rep i :
  0 <= a → a + zlen rep <= zlen words → 0 <= i →
  zlen (slice_assign words a rep) = zlen words ∧
  at_ (slice_assign words a rep) i =
    if bool_decide (a <= i < a + zlen rep) then at_ rep (i - a) else at_ words i.
Proof.
  intros Ha Hl Hn. unfold slice_assign.
  assert (zlen (take (Z.to_nat a) words) = a) as Ht by (rewrite zlen_take; pose proof (zlen_nonneg rep); lia).
  split; [rewrite !zlen_app, Ht, zlen_drop; unfold zlen in *; lia|].
  case_bool_decide as Hi.
  - by rewrite at_app_r, Ht, at_app_l by lia.
  - destruct (decide (i < a)); [rewrite at_app_l, at_take by lia; done|].
    rewrite at_app_r, Ht, at_app_r, at_drop by lia. f_equal. unfold zlen in *. lia.
Qed.

Lemma dense_step_spec start stop words b m :
  0 <= start < stop → zlen words = stop - start →
  (∀ i, 0 <= i < stop - start → at_ words i = read_word m (start + i)) →
  zlen (dense_step start stop words b) = stop - start ∧
  ∀ i, 0 <= i < stop - start → at_ (dense_step start stop words b) i =
    read_word (write_words (fb_address b) (fb_words b) m) (start + i).
Proof.
  intros Hs Hl Hw. unfold dense_step. set (cs := Z.max _ _). set (ce := Z.min _ _).
  pose proof (zlen_nonneg (fb_words b)) as Hb.
  assert (∀ i, read_word (write_words (fb_address b) (fb_words b) m) (start + i) =
    if bool_decide (fb_address b <= start + i < fb_end_exclusive b)
    then at_ (fb_words b) (start + i - fb_address b) else read_word m (start + i)) as Hr.
  { intros i. unfold read_word. rewrite write_words_lookup. unfold fb_end_exclusive. by case_bool_decide. }
  destruct (cs <? ce) eqn:E.
  - set (rep := slice _ _ _).
    assert (zlen rep = ce - cs) as Hrep.
    { unfold rep, slice, cs, ce, fb_end_exclusive in *. rewrite zlen_take, zlen_drop. lia. }
    split.
    + destruct (slice_assign_at words (cs - start) rep 0) as [-> _]; [lia|lia|done|done].
    + intros i Hi. destruct (slice_assign_at words (cs - start) rep i) as [_ ->]; [lia|lia|lia|].
      rewrite Hr, Hrep. unfold cs, ce in *. repeat case_bool_decide; try lia; [|by apply Hw].
      unfold rep. rewrite at_slice by lia. f_equal. lia.
  - split; [done|]. intros i Hi. rewrite Hr, Hw by done. unfold cs, ce in *. case_bool_decide; [lia|done].
Qed.

Lemma dense_steps start stop blocks words m :
  0 <= start < stop → zlen words = stop - start →
  (∀ i, 0 <= i < stop - start → at_ words i = read_word m (start + i)) →
  foldl (dense_step start stop) words blocks =
  read_words (write_pieces (map block_piece blocks) m) start (stop - start).
Proof.
  intros Hs. revert words m. induction blocks as [|b blocks IH]; intros words m Hl Hw.
  - cbn. apply list_eq_at; [by rewrite read_words_length by lia|]. intros i Hi.
    rewrite at_read_words by lia. apply Hw. lia.
  - cbn [foldl map write_pieces]. destruct (dense_step_spec start stop words b m Hs Hl Hw) as [H1 H2].
    by apply IH.
Qed.

Lemma at_replicate n x i : 0 <= i < Z.of_nat n → at_ (replicate n x) i = x.
Proof. intros Hi. apply nth_lookup_Some, lookup_replicate_2. lia. Qed.

Lemma image_words_u16 image : image_ok image → map_Forall (λ _ w, u16 w) (image_memory image).
Proof.
  intros [Hi Hb _] a w (b & Hin & Ha & ->)%image_lookup; [|done].
  destruct (proj1 (Forall_forall _ _) Hb b Hin) as (_ & _ & Hu). by apply at_u16.
Qed.

Lemma dense_immutable_spec image start stop :
  image_ok image → 0 <= start < stop → stop <= 0x100000000 →
  dense_immutable image start stop =
  Ok (mkBlock start (read_words (image_memory image) start (stop - start))).
Proof.
  intros Hi Hs Hm. unfold dense_immutable.
  replace ((start <? 0) || _ || _) with false by lia.
  rewrite (dense_steps start stop (fi_blocks image) _ ∅ Hs).
  - apply block_words_ok; [unfold u32; lia| |by apply read_words_u16, image_words_u16].
    intros E. apply (f_equal zlen) in E. rewrite read_words_length in E by lia.
    change (zlen []) with 0 in E. lia.
  - rewrite zlen_replicate. lia.
  - intros i Hi'. rewrite at_replicate by lia. done.
Qed.

(** ** The header *)

Lemma service_header_spec y capabilities immutable crc :
  symbols_ok y → u32 capabilities → u32 crc → crc32_words immutable = Ok crc →
  ∃ head hcrc lo hi, service_header y capabilities crc = Ok head ∧ crc32_words head = Ok hcrc ∧
    split_u32 hcrc = Ok (lo, hi) ∧ Forall u16 (head ++ [lo; hi]) ∧
    header_of y capabilities immutable (head ++ [lo; hi]).
Proof.
  intros [Hy _ _] Hcap Hcrc Eimm. unfold TiMapSymbols_fields in Hy. rewrite !Forall_cons in Hy.
  destruct Hy as (_ & Hpub & Hrt & Hex & Hst & Hen & Hin & Hha & _ & _). cbn [snd] in *.
  unfold service_header.
  destruct (join_split_u32 SERVICE_HEADER_MAGIC ltac:(done)) as (? & ? & -> & ? & ? & Jm).
  destruct (join_split_u32 _ Hst) as (? & ? & -> & ? & ? & J1).
  destruct (join_split_u32 _ Hen) as (? & ? & -> & ? & ? & J2).
  destruct (join_split_u32 _ Hpub) as (? & ? & -> & ? & ? & J3).
  destruct (join_split_u32 _ Hrt) as (? & ? & -> & ? & ? & J4).
  destruct (join_split_u32 _ Hex) as (? & ? & -> & ? & ? & J5).
  destruct (join_split_u32 _ Hin) as (? & ? & -> & ? & ? & J6).
  destruct (join_split_u32 _ Hha) as (? & ? & -> & ? & ? & J7).
  destruct (join_split_u32 _ Hcap) as (? & ? & -> & ? & ? & J8).
  destruct (join_split_u32 _ Hcrc) as (? & ? & -> & ? & ? & J9).
  cbn [fst snd].
  match goal with |- ∃ _ _ _ _, Ok ?h = _ ∧ _ => set (head := h) end.
  assert (Forall u16 head) as Hu by (unfold head; repeat (apply Forall_cons; split; [done|]); done).
  destruct (crc32_words_u32 head Hu) as (hcrc & Eh & Hh).
  destruct (join_split_u32 _ Hh) as (lo & hi & Es & Hlo & Hhi & J10).
  exists head, hcrc, lo, hi. split_and!; try done.
  - apply Forall_app. split; [done|]. apply Forall_cons. split; [done|]. by apply Forall_singleton.
  - split; try done.
    + by rewrite <-J1, <-J2, <-J3, <-J4, <-J5, <-J6, <-J7, <-J8.
    + by rewrite Eimm, <-J9.
    + by rewrite <-J10 in Eh.
Qed.


(** ** Patching *)

(** The check of the sorted ranges *)
Lemma sorted_ranges_apart (l : list (Z * Z)) :
  Forall (λ r, r.1 < r.2) l →
  let sorted := sorted_by fst l in
  existsb (λ '(lower, upper), lower.2 >? upper.1) (zip sorted (tail sorted)) = false ↔
  ForallOrdPairs (λ r s, r.2 <= s.1 ∨ s.2 <= r.1) l.
Proof.
  intros Hne sorted. set (range := λ r : Z * Z, mkRange r.1 r.2).
  assert (∀ k, existsb (λ '(lower, upper), lower.2 >? upper.1) (zip k (tail k)) =
    ranges_overlap (map range k)) as ->.
  { induction k as [|r [|s k] IH]; [done..|].
    transitivity ((r.2 >? s.1) || existsb (λ '(lower, upper), lower.2 >? upper.1)
      (zip (s :: k) (tail (s :: k)))); [done|]. by rewrite IH. }
  assert (Forall (λ r, ar_start r < ar_end_exclusive r) (map range sorted)) as Hne'.
  { apply List.Forall_map. unfold sorted. by rewrite sorted_by_perm. }
  assert (StronglySorted (key_le ar_start) (map range sorted)) as Hss.
  { pose proof (sorted_by_sorted fst l) as Hs. fold sorted in Hs. clear -Hs.
    induction Hs as [|r k Hk IH Hr]; [constructor|]. constructor; [done|]. by apply List.Forall_map. }
  transitivity (ForallOrdPairs ranges_apart (map range sorted)).
  - split; [by apply ranges_overlap_false|by apply ranges_overlap_sorted].
  - rewrite ForallOrdPairs_map. split; intros H; (eapply ForallOrdPairs_perm; [|
      |exact H]); unfold ranges_apart; cbn; try lia; [|symmetry]; apply sorted_by_perm.
Qed.

Lemma existsb_apart (l : list (Z * Z)) (r : Z * Z) :
  existsb (λ '(start, stop), (start <? r.2) && (stop >? r.1)) l = false ↔
  Forall (λ s, r.2 <= s.1 ∨ s.2 <= r.1) l.
Proof.
  induction l as [|[a b] l IH]; cbn; [by split|]. rewrite orb_false_iff, Forall_cons, IH. cbn. split.
  - intros [H ?]. split; [lia|done].
  - intros [H ?]. split; [lia|done].
Qed.

Lemma header_inside image y :
  existsb (λ block, (fb_address block <=? ts_header_address y)
     && (ts_header_address y + SERVICE_HEADER_WORDS <=? fb_end_exclusive block)) (fi_blocks image) = true ↔
  ∃ b, b ∈ fi_blocks image ∧ holds b (ts_header_address y) (ts_header_address y + SERVICE_HEADER_WORDS).
Proof.
  rewrite existsb_exists. split; intros (b & Hb & H); exists b.
  - split; [by apply list_elem_of_In|]. unfold holds. lia.
  - split; [by apply list_elem_of_In|]. unfold holds in H. lia.
Qed.

Ltac solve_pairwise :=
  repeat match goal with
  | |- ForallOrdPairs _ [] => constructor
  | |- ForallOrdPairs _ (_ :: _) => constructor
  | |- Forall _ [] => constructor
  | |- Forall _ (_ :: _) => apply Forall_cons; split
  | |- _ => cbn in *; lia
  end.

(** The four checks in front of the patch accept exactly the admitted symbols. *)
Lemma patch_checks image y :
  symbols_ok y →
  let mutable := [(ts_header_address y, ts_header_address y + SERVICE_HEADER_WORDS);
     (ts_publish_state_address y, ts_publish_state_address y + 2);
     (ts_runtime_state_address y, ts_runtime_state_address y + 1)] in
  patch_admitted image y ↔
  existsb (λ block, (fb_address block <=? ts_header_address y)
     && (ts_header_address y + SERVICE_HEADER_WORDS <=? fb_end_exclusive block)) (fi_blocks image) = true ∧
  forallb (λ a, (ts_immutable_start y <=? a) && (a <? ts_immutable_end_exclusive y))
    [ts_boot_init_address y; ts_boot_handle_command_address y; ts_confirm_current_image_address y] = true ∧
  existsb (λ '(lower, upper), lower.2 >? upper.1)
    (zip (sorted_by fst mutable) (tail (sorted_by fst mutable))) = false ∧
  existsb (λ '(start, stop), (start <? ts_immutable_end_exclusive y) && (stop >? ts_immutable_start y))
    (sorted_by fst mutable) = false.
Proof.
  intros Hy mutable. rewrite header_inside.
  rewrite (sorted_ranges_apart mutable)
    by (unfold mutable, SERVICE_HEADER_WORDS; repeat (apply Forall_cons; split; [cbn; lia|]); done).
  rewrite (existsb_apart _ (ts_immutable_start y, ts_immutable_end_exclusive y)), sorted_by_perm.
  rewrite forallb_forall. split.
  - intros [Hh He Hd]. split; [done|]. split.
    + intros a Ha. rewrite List.Forall_forall in He. specialize (He a Ha). lia.
    + unfold service_ranges, written_ranges in Hd.
      repeat (apply ForallOrdPairs_cons_inv in Hd as [? Hd]). rewrite !Forall_cons in *. cbn in *.
      unfold mutable. split; solve_pairwise.
  - intros (Hh & He & Hm & Hi). split; [done| |].
    + apply List.Forall_forall. intros a Ha. specialize (He a Ha). lia.
    + unfold mutable in Hm, Hi. repeat (apply ForallOrdPairs_cons_inv in Hm as [? Hm]).
      rewrite !Forall_cons in *. cbn in *. unfold service_ranges, written_ranges.
      solve_pairwise.
Qed.

Lemma patch_words_spec image address ws :
  image_ok image → u32 address → ws ≠ [] → Forall u16 ws →
  (∃ b, b ∈ fi_blocks image ∧ holds b address (address + zlen ws)) →
  ∃ image', patch_words image address ws = Ok image' ∧ replaced image address ws image'.
Proof.
  intros Hi Ha Hne Hu (b & Hb & Hh). unfold patch_words.
  rewrite (proj2 (existsb_exists _ _)).
  - apply replace_words_spec; try done.
    pose proof (proj1 (Forall_forall _ _) (io_space _ Hi) b Hb) as Hs. cbv beta in Hs.
    unfold holds in Hh. lia.
  - exists b. split; [by apply list_elem_of_In|]. unfold holds in Hh. lia.
Qed.

(** The three replacements of the patch, one after the other *)
Lemma patched_memory image y h p1 p2 p3 capabilities :
  image_ok image → symbols_ok y → patch_admitted image y →
  let size := ts_immutable_end_exclusive y - ts_immutable_start y in
  let immutable := read_words (image_memory image) (ts_immutable_start y) size in
  header_of y capabilities immutable h →
  replaced image (ts_immutable_start y) immutable p1 →
  replaced p1 (ts_publish_state_address y) [SERVICE_PUBLISH_INVALID; SERVICE_PUBLISH_INVALID] p2 →
  replaced p2 (ts_header_address y) h p3 →
  patched_as image y capabilities p3.
Proof.
  intros Hi Hy [_ _ Hd] size immutable Hh H1 H2 H3.
  pose proof (sy_nonempty _ Hy) as Hn. pose proof (ho_length _ _ _ _ Hh) as Hl.
  assert (zlen immutable = size) as Hli by (apply read_words_length; unfold size; lia).
  unfold service_ranges, written_ranges in Hd. apply ForallOrdPairs_cons_inv in Hd as [_ Hd].
  repeat (apply ForallOrdPairs_cons_inv in Hd as [? Hd]). rewrite !Forall_cons in *. cbn [fst snd] in *.
  assert (image_memory p3 = write_words (ts_header_address y) h
    (write_words (ts_publish_state_address y) [SERVICE_PUBLISH_INVALID; SERVICE_PUBLISH_INVALID]
      (write_words (ts_immutable_start y) immutable (image_memory image)))) as Em.
  { by rewrite (rp_memory _ _ _ _ H3), (rp_memory _ _ _ _ H2), (rp_memory _ _ _ _ H1). }
  assert (read_words (image_memory p3) (ts_immutable_start y) size = immutable) as Er.
  { rewrite Em, !read_write_words_other by (rewrite ?Hl; change (zlen [_; _]) with 2; unfold size; lia).
    rewrite <-Hli. apply read_write_words. }
  split.
  - apply H3.
  - by rewrite (rp_entry _ _ _ _ H3), (rp_entry _ _ _ _ H2), (rp_entry _ _ _ _ H1).
  - exact Er.
  - fold size. rewrite Er. rewrite Em, <-Hl, read_write_words. exact Hh.
  - rewrite Em, read_write_words_other by (rewrite Hl; lia). apply read_write_words.
  - intros a Ha. rewrite Em, !write_words_outside
      by (rewrite ?Hl; change (zlen [_; _]) with 2; lia).
    rewrite write_words_inside by (rewrite Hli; unfold size; lia). done.
  - intros a Ha. unfold written_ranges in Ha. rewrite !Forall_cons in Ha. cbn [fst snd] in Ha.
    rewrite Em, !write_words_outside; [done|..]; rewrite ?Hl, ?Hli; change (zlen [_; _]) with 2;
      unfold size; lia.
Qed.

Lemma patch_admitted_ok image y capabilities :
  image_ok image → symbols_ok y → u32 capabilities → patch_admitted image y →
  ∃ patched, patch_flash_service_image image y capabilities = Ok patched ∧
    patched_as image y capabilities patched.
Proof.
  intros Hi Hy Hc Hpa. pose proof (proj1 (patch_checks image y Hy) Hpa) as (E1 & E2 & E3 & E4).
  unfold patch_flash_service_image. cbv zeta in *. rewrite E1, E2, E3, E4. cbn [negb orb].
  clear E1 E2 E3 E4.
  pose proof Hy as [Hf Hn Hp]. unfold TiMapSymbols_fields in Hf. rewrite !Forall_cons in Hf.
  destruct Hf as (Hhd & Hpub & _ & _ & Hst & Hen & _). cbn [snd] in *.
  rewrite dense_immutable_spec by (unfold u32 in *; done || lia). cbn [fb_address fb_words].
  set (immutable := read_words _ _ _).
  assert (zlen immutable = ts_immutable_end_exclusive y - ts_immutable_start y) as Hl
    by (apply read_words_length; lia).
  assert (Forall u16 immutable) as Hu by by apply read_words_u16, image_words_u16.
  destruct (replace_words_spec image (ts_immutable_start y) immutable) as (p1 & -> & H1);
    [done|done| |done|unfold u32 in *; lia|].
  { intros E. rewrite E in Hl. change (zlen []) with 0 in Hl. lia. }
  destruct (replace_words_spec p1 (ts_publish_state_address y)
    [SERVICE_PUBLISH_INVALID; SERVICE_PUBLISH_INVALID]) as (p2 & -> & H2);
    [apply H1|done|done|by apply (bool_decide_unpack _)|done|].
  destruct (crc32_words_u32 immutable Hu) as (crc & Ecrc & Hcrc). rewrite Ecrc.
  destruct (service_header_spec y capabilities immutable crc Hy Hc Hcrc Ecrc)
    as (head & hcrc & lo & hi & -> & -> & -> & Huh & Hho). cbn [fst snd].
  pose proof (ho_length _ _ _ _ Hho) as Hlh.
  destruct (patch_words_spec p2 (ts_header_address y) (head ++ [lo; hi])) as (p3 & -> & H3);
    [apply H2|done|by destruct head|done| |].
  - rewrite Hlh. pose proof (pa_disjoint _ _ Hpa) as Hd. unfold service_ranges, written_ranges in Hd.
    repeat (apply ForallOrdPairs_cons_inv in Hd as [? Hd]). rewrite !Forall_cons in *. cbn [fst snd] in *.
    apply H2; [unfold SERVICE_HEADER_WORDS; lia| |change (zlen [_; _]) with 2; lia].
    apply H1; [unfold SERVICE_HEADER_WORDS; lia|apply Hpa|rewrite Hl; lia].
  - exists p3. split; [done|]. by eapply (patched_memory image y _ p1 p2 p3).
Qed.

Lemma patch_refused image y capabilities :
  symbols_ok y → patch_admitted image y ∨
  ¬ patch_admitted image y ∧
  ∃ e, patch_flash_service_image image y capabilities = Raise e ∧ class_of e = ValueError.
Proof.
  intros Hy. pose proof (patch_checks image y Hy) as Hchecks. unfold patch_flash_service_image.
  cbv zeta in *.
  destruct (existsb _ (fi_blocks image)) eqn:E1; cbn [negb];
    [|right; split; [by intros (? & _)%Hchecks|by eexists]].
  destruct (forallb _ _) eqn:E2; cbn [negb]; 
    [|right; split; [by intros (_ & ? & _)%Hchecks|by eexists]].
  destruct (existsb _ (zip _ _)) eqn:E3; cbn [orb];
    [right; split; [by intros (_ & _ & ? & _)%Hchecks|by eexists]|].
  destruct (existsb _ (sorted_by _ _)) eqn:E4;
    [right; split; [by intros (_ & _ & _ & ?)%Hchecks|by eexists]|].
  left. by apply Hchecks.
Qed.

(** C21: Patching a service image is exact.  For an image and symbols as their
    constructors make them, [patch_flash_service_image] succeeds exactly when
    the header lies in one block, the entry points in the immutable range and
    the four ranges are disjoint; otherwise it raises ValueError.  The patched
    image keeps the entry point and every word outside the immutable, publish
    and header ranges, holds the immutable range without gaps and with its old
    words (0xFFFF in the gaps), an invalid publish state, and a header whose
    fields are the symbols and capabilities and whose two checksums are those
    of the immutable words and of the header itself as they stand in memory. *)
Theorem service_image_patched image y capabilities
    (Hi : image_ok image) (Hy : symbols_ok y) (Hc : u32 capabilities) :
  match patch_flash_service_image image y capabilities with
  | Ok patched => patch_admitted image y ∧ patched_as image y capabilities patched
  | Raise e => class_of e = ValueError ∧ ¬ patch_admitted image y
  end.
Proof.
  destruct (patch_refused image y capabilities Hy) as [Ha|(Hn & e & -> & He)]; [|done].
  by destruct (patch_admitted_ok image y capabilities Hi Hy Hc Ha) as (patched & -> & Hp).
Qed.

(** ** An example *)

Definition example_service : FirmwareImage :=
  mkImage "service.out" "service.txt" 0x100
    [mkBlock 0x100 [1; 2; 3; 4; 5; 6; 7; 8]; mkBlock 0x120 (replicate 36 0xFFFF)] 44
    [mkRange 0x100 0x108; mkRange 0x120 0x144] "0" [].

Definition example_service_symbols : TiMapSymbols :=
  mkSymbols 0x120 0x140 0x142 0x100 0x100 0x110 0x102 0x104 0x106.

Lemma example_service_ok : image_ok example_service.
Proof.
  split; [split; try done|..].
  - cbn. constructor; [apply Forall_singleton; left; done|by repeat constructor].
  - repeat (apply Forall_cons; split); [split_and!; try done; by apply (bool_decide_unpack _)..|done].
  - repeat (apply Forall_cons; split); [done..|done].
Qed.

Lemma example_service_symbols_ok : symbols_ok example_service_symbols.
Proof. split; [by apply (bool_decide_unpack _)|done|done]. Qed.

Lemma service_image_patched_witness :
  ∃ patched, patch_flash_service_image example_service example_service_symbols 7 = Ok patched ∧
    patched_as example_service example_service_symbols 7 patched.
Proof.
  pose proof (service_image_patched example_service example_service_symbols 7 example_service_ok
    example_service_symbols_ok ltac:(done)) as H.
  destruct (patch_flash_service_image _ _ _) as [patched|e] eqn:E.
  - exists patched. split; [reflexivity|apply H].
  - exfalso. vm_compute in E. discriminate E.
Defined.
