(* ===== verification/Simulator.v ===== *)
(** * The device simulator (simulator/core.py)

    [SimulatorCore] keeps a sparse Flash and RAM, the state of the download
    and service protocols and the metadata journal, and answers one request
    frame with one response frame.  A handler is an [ST SimulatorCore Frame]
    computation: it reads and updates the state step by step as the method
    does, and an exception would keep the updates made before it.  The
    attributes have the prefix [sim_], otherwise the names are the source's;
    [set_x v] is the assignment [self.x = v].

    [self.programmed_addresses] is a [gset]; removing the addresses of the
    erased sectors one by one is written as a filter. *)

From S2P Require Import Prelude.
From S2P Require Import Errors.
From S2P Require Import Constants.
From S2P Require Import Words.
From S2P Require Import Frame.
From S2P Require Import Models.
From S2P Require Import Firmware.
From S2P Require Import Packets.

(** ** Data *)

Definition METADATA_MAGIC0 : Z := 0x4D42.
Definition METADATA_MAGIC1 : Z := 0x4453.
Definition METADATA_RECORD_VERSION : Z := 1.
Definition METADATA_RECORD_WORDS : Z := 64.
Definition METADATA_RECORD_COUNT : Z := 16.
Definition METADATA_BOOT_ATTEMPT_LIMIT : Z := 3.
Definition FLASH_SERVICE_START : Z := 0x013000.
Definition FLASH_SERVICE_PUBLISH : Z := 0x013020.
Definition FLASH_SERVICE_END_EXCLUSIVE : Z := 0x016000.

Record FlashSector : Type := mkSector {
  fs_name : string;
  fs_start : Z;
  fs_length_words : Z;
}.

Definition FlashSector_init (name : string) (start length_words : Z) : Res FlashSector :=
  fail (Err ValueError (Lit "invalid Flash sector"))
    when String.eqb name EmptyString || (start <? 0) || (length_words <=? 0) ;;
  Ok (mkSector name start length_words).

Definition fs_end_exclusive (s : FlashSector) : Z := fs_start s + fs_length_words s.
Definition fs_contains (s : FlashSector) (address : Z) : bool :=
  (fs_start s <=? address) && (address <? fs_end_exclusive s).

Record SimulatorFaults : Type := mkFaults {
  erase_fail : bool;
  program_fail_at_address : option Z;
  verify_fail_at_address : option Z;
  bad_payload_crc : bool;
  no_response : bool;
  illegal_address : bool;
  sequence_mismatch : bool;
  bad_block_index : bool;
}.

Definition no_faults : SimulatorFaults := mkFaults false None None false false false false false.

Inductive SimulatorAction : Set := ACTION_NONE | RUN_APP | RUN_RAM | RESET_DEVICE.

#[export] Instance SimulatorAction_eq_dec : EqDecision SimulatorAction.
Proof. solve_decision. Defined.

Record Session : Type := mkSession {
  se_block_count : Z;
  se_total_words : Z;
  se_entry_point : Z;
  se_crc_words : list Z;
  se_expected_index : Z;
  se_packet_count : Z;
  se_received_words : Z;
  se_start : option Z;
  se_end_exclusive : option Z;
}.

(** [_Session(block_count, total_words, entry_point, [])] *)
Definition Session_init (block_count total_words entry_point : Z) : Session :=
  mkSession block_count total_words entry_point [] 0 0 0 None None.

Record SimulatorCore : Type := mkSim {
  sim_sectors : list FlashSector;
  sim_device_info : DeviceInfo;
  sim_faults : SimulatorFaults;
  sim_require_service : bool;
  sim_flash : memory;
  sim_programmed : gset Z;
  sim_last_error : ErrorDetail;
  sim_program_session : option Session;
  sim_verify_session : option Session;
  sim_ram_load_session : option Session;
  sim_ram_loaded : option Session;
  sim_ram_crc_ok : bool;
  sim_ram : memory;
  sim_service_state : ServiceState.ServiceState_t;
  sim_service_last_attach_status : Status.Status_t;
  sim_service_capabilities : Z;
  sim_service_header_address : Z;
  sim_service_loaded_crc32 : Z;
  sim_service_loaded_words : Z;
  sim_pending_action : SimulatorAction;
  sim_verify_succeeded : bool;
}.

Definition set_flash (v : memory) (s : SimulatorCore) : SimulatorCore :=
    mkSim (sim_sectors s) (sim_device_info s) (sim_faults s) (sim_require_service s) v
    (sim_programmed s) (sim_last_error s) (sim_program_session s) (sim_verify_session s)
    (sim_ram_load_session s) (sim_ram_loaded s) (sim_ram_crc_ok s) (sim_ram s)
    (sim_service_state s) (sim_service_last_attach_status s) (sim_service_capabilities s)
    (sim_service_header_address s) (sim_service_loaded_crc32 s) (sim_service_loaded_words s)
    (sim_pending_action s) (sim_verify_succeeded s).
Definition set_programmed (v : gset Z) (s : SimulatorCore) : SimulatorCore :=
    mkSim (sim_sectors s) (sim_device_info s) (sim_faults s) (sim_require_service s)
    (sim_flash s) v (sim_last_error s) (sim_program_session s) (sim_verify_session s)
    (sim_ram_load_session s) (sim_ram_loaded s) (sim_ram_crc_ok s) (sim_ram s)
    (sim_service_state s) (sim_service_last_attach_status s) (sim_service_capabilities s)
    (sim_service_header_address s) (sim_service_loaded_crc32 s) (sim_service_loaded_words s)
    (sim_pending_action s) (sim_verify_succeeded s).
Definition set_last_error (v : ErrorDetail) (s : SimulatorCore) : SimulatorCore :=
    mkSim (sim_sectors s) (sim_device_info s) (sim_faults s) (sim_require_service s)
    (sim_flash s) (sim_programmed s) v (sim_program_session s) (sim_verify_session s)
    (sim_ram_load_session s) (sim_ram_loaded s) (sim_ram_crc_ok s) (sim_ram s)
    (sim_service_state s) (sim_service_last_attach_status s) (sim_service_capabilities s)
    (sim_service_header_address s) (sim_service_loaded_crc32 s) (sim_service_loaded_words s)
    (sim_pending_action s) (sim_verify_succeeded s).
Definition set_program_session (v : option Session) (s : SimulatorCore) : SimulatorCore :=
    mkSim (sim_sectors s) (sim_device_info s) (sim_faults s) (sim_require_service s)
    (sim_flash s) (sim_programmed s) (sim_last_error s) v (sim_verify_session s)
    (sim_ram_load_session s) (sim_ram_loaded s) (sim_ram_crc_ok s) (sim_ram s)
    (sim_service_state s) (sim_service_last_attach_status s) (sim_service_capabilities s)
    (sim_service_header_address s) (sim_service_loaded_crc32 s) (sim_service_loaded_words s)
    (sim_pending_action s) (sim_verify_succeeded s).
Definition set_verify_session (v : option Session) (s : SimulatorCore) : SimulatorCore :=
    mkSim (sim_sectors s) (sim_device_info s) (sim_faults s) (sim_require_service s)
    (sim_flash s) (sim_programmed s) (sim_last_error s) (sim_program_session s) v
    (sim_ram_load_session s) (sim_ram_loaded s) (sim_ram_crc_ok s) (sim_ram s)
    (sim_service_state s) (sim_service_last_attach_status s) (sim_service_capabilities s)
    (sim_service_header_address s) (sim_service_loaded_crc32 s) (sim_service_loaded_words s)
    (sim_pending_action s) (sim_verify_succeeded s).
Definition set_ram_load_session (v : option Session) (s : SimulatorCore) : SimulatorCore :=
    mkSim (sim_sectors s) (sim_device_info s) (sim_faults s) (sim_require_service s)
    (sim_flash s) (sim_programmed s) (sim_last_error s) (sim_program_session s)
    (sim_verify_session s) v (sim_ram_loaded s) (sim_ram_crc_ok s) (sim_ram s)
    (sim_service_state s) (sim_service_last_attach_status s) (sim_service_capabilities s)
    (sim_service_header_address s) (sim_service_loaded_crc32 s) (sim_service_loaded_words s)
    (sim_pending_action s) (sim_verify_succeeded s).
Definition set_ram_loaded (v : option Session) (s : SimulatorCore) : SimulatorCore :=
    mkSim (sim_sectors s) (sim_device_info s) (sim_faults s) (sim_require_service s)
    (sim_flash s) (sim_programmed s) (sim_last_error s) (sim_program_session s)
    (sim_verify_session s) (sim_ram_load_session s) v (sim_ram_crc_ok s) (sim_ram s)
    (sim_service_state s) (sim_service_last_attach_status s) (sim_service_capabilities s)
    (sim_service_header_address s) (sim_service_loaded_crc32 s) (sim_service_loaded_words s)
    (sim_pending_action s) (sim_verify_succeeded s).
Definition set_ram_crc_ok (v : bool) (s : SimulatorCore) : SimulatorCore :=
    mkSim (sim_sectors s) (sim_device_info s) (sim_faults s) (sim_require_service s)
    (sim_flash s) (sim_programmed s) (sim_last_error s) (sim_program_session s)
    (sim_verify_session s) (sim_ram_load_session s) (sim_ram_loaded s) v (sim_ram s)
    (sim_service_state s) (sim_service_last_attach_status s) (sim_service_capabilities s)
    (sim_service_header_address s) (sim_service_loaded_crc32 s) (sim_service_loaded_words s)
    (sim_pending_action s) (sim_verify_succeeded s).
Definition set_ram (v : memory) (s : SimulatorCore) : SimulatorCore :=
    mkSim (sim_sectors s) (sim_device_info s) (sim_faults s) (sim_require_service s)
    (sim_flash s) (sim_programmed s) (sim_last_error s) (sim_program_session s)
    (sim_verify_session s) (sim_ram_load_session s) (sim_ram_loaded s) (sim_ram_crc_ok s) v
    (sim_service_state s) (sim_service_last_attach_status s) (sim_service_capabilities s)
    (sim_service_header_address s) (sim_service_loaded_crc32 s) (sim_service_loaded_words s)
    (sim_pending_action s) (sim_verify_succeeded s).
Definition set_service_state (v : ServiceState.ServiceState_t) (s : SimulatorCore) : SimulatorCore :=
    mkSim (sim_sectors s) (sim_device_info s) (sim_faults s) (sim_require_service s)
    (sim_flash s) (sim_programmed s) (sim_last_error s) (sim_program_session s)
    (sim_verify_session s) (sim_ram_load_session s) (sim_ram_loaded s) (sim_ram_crc_ok s)
    (sim_ram s) v (sim_service_last_attach_status s) (sim_service_capabilities s)
    (sim_service_header_address s) (sim_service_loaded_crc32 s) (sim_service_loaded_words s)
    (sim_pending_action s) (sim_verify_succeeded s).
Definition set_service_last_attach_status (v : Status.Status_t) (s : SimulatorCore) : SimulatorCore :=
    mkSim (sim_sectors s) (sim_device_info s) (sim_faults s) (sim_require_service s)
    (sim_flash s) (sim_programmed s) (sim_last_error s) (sim_program_session s)
    (sim_verify_session s) (sim_ram_load_session s) (sim_ram_loaded s) (sim_ram_crc_ok s)
    (sim_ram s) (sim_service_state s) v (sim_service_capabilities s)
    (sim_service_header_address s) (sim_service_loaded_crc32 s) (sim_service_loaded_words s)
    (sim_pending_action s) (sim_verify_succeeded s).
Definition set_service_capabilities (v : Z) (s : SimulatorCore) : SimulatorCore :=
    mkSim (sim_sectors s) (sim_device_info s) (sim_faults s) (sim_require_service s)
    (sim_flash s) (sim_programmed s) (sim_last_error s) (sim_program_session s)
    (sim_verify_session s) (sim_ram_load_session s) (sim_ram_loaded s) (sim_ram_crc_ok s)
    (sim_ram s) (sim_service_state s) (sim_service_last_attach_status s) v
    (sim_service_header_address s) (sim_service_loaded_crc32 s) (sim_service_loaded_words s)
    (sim_pending_action s) (sim_verify_succeeded s).
Definition set_service_header_address (v : Z) (s : SimulatorCore) : SimulatorCore :=
    mkSim (sim_sectors s) (sim_device_info s) (sim_faults s) (sim_require_service s)
    (sim_flash s) (sim_programmed s) (sim_last_error s) (sim_program_session s)
    (sim_verify_session s) (sim_ram_load_session s) (sim_ram_loaded s) (sim_ram_crc_ok s)
    (sim_ram s) (sim_service_state s) (sim_service_last_attach_status s)
    (sim_service_capabilities s) v (sim_service_loaded_crc32 s) (sim_service_loaded_words s)
    (sim_pending_action s) (sim_verify_succeeded s).
Definition set_service_loaded_crc32 (v : Z) (s : SimulatorCore) : SimulatorCore :=
    mkSim (sim_sectors s) (sim_device_info s) (sim_faults s) (sim_require_service s)
    (sim_flash s) (sim_programmed s) (sim_last_error s) (sim_program_session s)
    (sim_verify_session s) (sim_ram_load_session s) (sim_ram_loaded s) (sim_ram_crc_ok s)
    (sim_ram s) (sim_service_state s) (sim_service_last_attach_status s)
    (sim_service_capabilities s) (sim_service_header_address s) v (sim_service_loaded_words
    s) (sim_pending_action s) (sim_verify_succeeded s).
Definition set_service_loaded_words (v : Z) (s : SimulatorCore) : SimulatorCore :=
    mkSim (sim_sectors s) (sim_device_info s) (sim_faults s) (sim_require_service s)
    (sim_flash s) (sim_programmed s) (sim_last_error s) (sim_program_session s)
    (sim_verify_session s) (sim_ram_load_session s) (sim_ram_loaded s) (sim_ram_crc_ok s)
    (sim_ram s) (sim_service_state s) (sim_service_last_attach_status s)
    (sim_service_capabilities s) (sim_service_header_address s) (sim_service_loaded_crc32 s)
    v (sim_pending_action s) (sim_verify_succeeded s).
Definition set_pending_action (v : SimulatorAction) (s : SimulatorCore) : SimulatorCore :=
    mkSim (sim_sectors s) (sim_device_info s) (sim_faults s) (sim_require_service s)
    (sim_flash s) (sim_programmed s) (sim_last_error s) (sim_program_session s)
    (sim_verify_session s) (sim_ram_load_session s) (sim_ram_loaded s) (sim_ram_crc_ok s)
    (sim_ram s) (sim_service_state s) (sim_service_last_attach_status s)
    (sim_service_capabilities s) (sim_service_header_address s) (sim_service_loaded_crc32 s)
    (sim_service_loaded_words s) v (sim_verify_succeeded s).
Definition set_verify_succeeded (v : bool) (s : SimulatorCore) : SimulatorCore :=
    mkSim (sim_sectors s) (sim_device_info s) (sim_faults s) (sim_require_service s)
    (sim_flash s) (sim_programmed s) (sim_last_error s) (sim_program_session s)
    (sim_verify_session s) (sim_ram_load_session s) (sim_ram_loaded s) (sim_ram_crc_ok s)
    (sim_ram s) (sim_service_state s) (sim_service_last_attach_status s)
    (sim_service_capabilities s) (sim_service_header_address s) (sim_service_loaded_crc32 s)
    (sim_service_loaded_words s) (sim_pending_action s) v.

Abbreviation Sim := (ST SimulatorCore).

(** ** Construction *)

Definition default_sectors : list FlashSector :=
  [mkSector "FLASHA" 0x080000 0x002000; mkSector "FLASHB" 0x082000 0x002000;
   mkSector "FLASHC" 0x084000 0x002000; mkSector "FLASHD" 0x086000 0x002000;
   mkSector "FLASHE" 0x088000 0x008000; mkSector "FLASHF" 0x090000 0x008000;
   mkSector "FLASHG" 0x098000 0x008000; mkSector "FLASHH" 0x0A0000 0x008000;
   mkSector "FLASHI" 0x0A8000 0x008000; mkSector "FLASHJ" 0x0B0000 0x008000;
   mkSector "FLASHK" 0x0B8000 0x002000; mkSector "FLASHL" 0x0BA000 0x002000;
   mkSector "FLASHM" 0x0BC000 0x002000; mkSector "FLASHN" 0x0BE000 0x002000].

Definition default_device_info : DeviceInfo :=
  mkDeviceInfo DeviceId.F28377D CpuId.CPU1 0 1 0 PROTOCOL_VERSION
    (foldl Z.lor 0 [Feature.Feature_ERASE; Feature.Feature_PROGRAM; Feature.Feature_VERIFY;
       Feature.Feature_RUN; Feature.Feature_RESET; Feature.Feature_RAM_LOAD;
       Feature.Feature_MEMORY_READ])
    256 248 BootMode.FLASH_KERNEL KernelLayout.MONOLITHIC 0 0.

(** [SimulatorCore.__init__]; [None] is the absent keyword argument. *)
Definition SimulatorCore_init (sectors : option (list FlashSector))
    (device_info : option DeviceInfo) (faults : option SimulatorFaults)
    (require_service_for_flash_commands : bool) : Res SimulatorCore :=
  let secs := match sectors with
              | None | Some [] => default_sectors
              | Some l => l end in
  fail (Err ValueError (Lit "MVP sector mask supports at most 32 sectors"))
    when zlen secs >? 32 ;;
  let? info := match device_info with
               | None => DeviceInfo_post_init default_device_info
               | Some d => Ok d end in
  let? error := ErrorDetail_post_init (mkErrorDetail 0 0 0 0 0 0 0 0) in
  Ok (mkSim secs info (default no_faults faults) require_service_for_flash_commands
        ∅ ∅ error None None None None false ∅
        ServiceState.DETACHED Status.OK 0 0 0 0 ACTION_NONE false).

(** ** Responses *)

Definition sim_response (request : Frame) (status : Status.Status_t) (payload : list Z)
    : Sim Frame :=
  let packet_type := if Status.Status_value status =? Status.OK
                     then PacketType.RESPONSE else PacketType.ERROR_RESPONSE in
  lift (Frame_init (PacketType.PacketType_value packet_type) (fr_command request)
          (fr_sequence request) payload 0 (Status.Status_value status) PROTOCOL_VERSION).

(** [_fail]; the keyword arguments default to 0. *)
Definition sim_fail_at (request : Frame) (status : Status.Status_t)
    (operation : ErrorOperation.ErrorOperation_t) (stage : ErrorStage.ErrorStage_t)
    (address length_words extra0 : Z) : Sim Frame :=
  (if bool_decide (operation = ErrorOperation.FRAME) then ret tt
   else
     error <- lift (ErrorDetail_post_init
       (mkErrorDetail (ErrorOperation.ErrorOperation_value operation)
          (ErrorStage.ErrorStage_value stage) address length_words 0 0 extra0 0)) ;;
     modify (set_last_error error)) ;;;
  sim_response request status [].

Definition sim_fail request status operation stage : Sim Frame :=
  sim_fail_at request status operation stage 0 0 0.

Definition pay (request : Frame) (i : Z) : Z := at_ (fr_payload request) i.
(** [join_u32(request.payload[i], request.payload[i + 1])] *)
Definition pay32 (request : Frame) (i : Z) : Z := join_u32 (pay request i) (pay request (i + 1)).

Definition payload_len (request : Frame) : Z := zlen (fr_payload request).

(** ** Address checks *)

Definition addresses_allowed (s : SimulatorCore) (address count : Z) : bool :=
  if illegal_address (sim_faults s) || (count <=? 0) then false else
  let stop := address + count in
  (APP_FLASH_START <=? address) && (stop <=? APP_FLASH_END_EXCLUSIVE)
  && negb ((address <? SLOT_A_METADATA_END) && (stop >? SLOT_A_METADATA_START))
  && forallb (λ item, existsb (λ sector, fs_contains sector item) (sim_sectors s))
       (zrange address stop).

Definition ram_ranges : list (Z * Z) :=
  [(0x000000, 0x000002); (0x000123, 0x000400); (0x008000, 0x00C000); (0x010000, 0x01BFF8);
   (0x03F800, 0x040000); (0x049000, 0x049800); (0x04B000, 0x04B800)].

Definition ram_allowed (address count : Z) : bool :=
  if count <=? 0 then false else
  let stop := address + count in
  if stop <? address then false else
  existsb (λ '(start, limit), (start <=? address) && (stop <=? limit)) ram_ranges.

Definition protocol_info (s : SimulatorCore) : list Z :=
  [PROTOCOL_VERSION; PROTOCOL_VERSION; PROTOCOL_VERSION; 10; 1; 1;
   di_max_payload_words (sim_device_info s); 0].

(** ** Simple commands *)

Definition require_empty (request : Frame) (operation : ErrorOperation.ErrorOperation_t)
    : Sim (option Frame) :=
  if negb (payload_len request =? 0) then
    f <- sim_fail request Status.BAD_PAYLOAD_LENGTH operation ErrorStage.PAYLOAD ;;
    ret (Some f)
  else ret None.

Definition sim_ping (request : Frame) : Sim Frame :=
  error <- require_empty request ErrorOperation.FRAME ;;
  match error with
  | Some f => ret f
  | None => sim_response request Status.OK []
  end.

Definition sim_get_device_info (request : Frame) : Sim Frame :=
  error <- require_empty request ErrorOperation.FRAME ;;
  match error with
  | Some f => ret f
  | None =>
      info <- gets sim_device_info ;;
      words <- lift (DeviceInfo_to_words info) ;;
      sim_response request Status.OK words
  end.

Definition sim_get_protocol_info (request : Frame) : Sim Frame :=
  error <- require_empty request ErrorOperation.FRAME ;;
  match error with
  | Some f => ret f
  | None =>
      words <- gets protocol_info ;;
      sim_response request Status.OK words
  end.

Definition sim_get_last_error (request : Frame) : Sim Frame :=
  error <- require_empty request ErrorOperation.FRAME ;;
  match error with
  | Some f => ret f
  | None =>
      detail <- gets sim_last_error ;;
      words <- lift (ErrorDetail_to_words detail) ;;
      sim_response request Status.OK words
  end.

Definition sim_get_service_status (request : Frame) : Sim Frame :=
  error <- require_empty request ErrorOperation.FRAME ;;
  match error with
  | Some f => ret f
  | None =>
      s <- get ;;
      cap <- lift (split_u32 (sim_service_capabilities s)) ;;
      crc <- lift (split_u32 (sim_service_loaded_crc32 s)) ;;
      words <- lift (split_u32 (sim_service_loaded_words s)) ;;
      sim_response request Status.OK
        [ServiceState.ServiceState_value (sim_service_state s); SERVICE_ABI_MAJOR; SERVICE_ABI_MINOR;
         0; 0; cap.1; cap.2; Status.Status_value (sim_service_last_attach_status s);
         crc.1; crc.2; words.1; words.2]
  end.

(** ** The RAM-resident Flash service *)

Definition service_fail (request : Frame) (status : Status.Status_t) (address : Z) : Sim Frame :=
  state <- gets sim_service_state ;;
  (if negb (bool_decide (state = ServiceState.ATTACHED))
   then modify (set_service_state ServiceState.ERROR) else ret tt) ;;;
  modify (set_service_last_attach_status status) ;;;
  sim_fail_at request status ErrorOperation.RAM_LOAD ErrorStage.STATE address 0 0.

(** [tuple(self.ram[address + i] for i in range(count))], [None] for a [KeyError]. *)
Definition ram_tuple (ram : memory) (address count : Z) : option (list Z) :=
  mapM (λ i, ram !! (address + i)) (zrange 0 count).

Definition read_ram_words (s : SimulatorCore) (address count : Z) : option (list Z) :=
  match sim_ram_loaded s with
  | Some session =>
      match se_start session, se_end_exclusive session with
      | Some start, Some stop =>
          if (count <=? 0) || (address <? start) || (address + count >? stop) then None
          else ram_tuple (sim_ram s) address count
      | _, _ => None
      end
  | None => None
  end.

Definition sim_service_attach (request : Frame) : Sim Frame :=
  if negb (payload_len request =? 7) then service_fail request Status.BAD_PAYLOAD_LENGTH 0 else
  if negb (pay request 6 =? 0) then service_fail request Status.BAD_FLAGS 0 else
  s <- get ;;
  let header_address := pay32 request 0 in
  let expected_crc := pay32 request 2 in
  let expected_words := pay32 request 4 in
  match sim_ram_loaded s with
  | Some session =>
    if negb (sim_ram_crc_ok s) then service_fail request Status.INVALID_STATE header_address else
    actual_crc <- lift (crc32_words (se_crc_words session)) ;;
    if negb (expected_crc =? actual_crc) || negb (expected_words =? se_total_words session)
    then service_fail request Status.VERIFY_MISMATCH header_address else
    match read_ram_words s header_address SERVICE_HEADER_WORDS with
    | None => service_fail request Status.RAM_REGION_ERROR header_address
    | Some header =>
      if negb (join_u32 (at_ header 0) (at_ header 1) =? SERVICE_HEADER_MAGIC)
         || negb (at_ header 2 =? SERVICE_HEADER_VERSION)
         || negb (at_ header 3 =? SERVICE_HEADER_WORDS)
      then service_fail request Status.METADATA_INVALID header_address else
      header_crc <- lift (crc32_words (slice header 0 26)) ;;
      if negb (header_crc =? join_u32 (at_ header 26) (at_ header 27))
      then service_fail request Status.METADATA_INVALID header_address else
      if negb (at_ header 4 =? SERVICE_ABI_MAJOR) || (at_ header 5 >? SERVICE_ABI_MINOR)
         || negb (at_ header 22 =? SERVICE_IMAGE_CRC32_IEEE)
      then service_fail request Status.UNSUPPORTED_PROTOCOL header_address else
      let immutable_start := join_u32 (at_ header 6) (at_ header 7) in
      let immutable_end := join_u32 (at_ header 8) (at_ header 9) in
      let boot_init := join_u32 (at_ header 16) (at_ header 17) in
      let command_handler := join_u32 (at_ header 18) (at_ header 19) in
      let capabilities := join_u32 (at_ header 20) (at_ header 21) in
      let immutable_crc := join_u32 (at_ header 24) (at_ header 25) in
      match read_ram_words s immutable_start (immutable_end - immutable_start) with
      | None => service_fail request Status.RAM_REGION_ERROR header_address
      | Some immutable =>
        if (immutable_end <=? immutable_start)
           || negb ((immutable_start <=? boot_init) && (boot_init <? immutable_end))
           || negb ((immutable_start <=? command_handler) && (command_handler <? immutable_end))
        then service_fail request Status.RAM_REGION_ERROR header_address else
        if negb (Z.land capabilities SERVICE_REQUIRED_CAPABILITIES =? SERVICE_REQUIRED_CAPABILITIES)
        then service_fail request Status.UNSUPPORTED_FEATURE header_address else
        crc <- lift (crc32_words immutable) ;;
        if negb (crc =? immutable_crc)
        then service_fail request Status.VERIFY_MISMATCH header_address else
        modify (set_service_state ServiceState.ATTACHED) ;;;
        modify (set_service_last_attach_status Status.OK) ;;;
        modify (set_service_capabilities capabilities) ;;;
        modify (set_service_header_address header_address) ;;;
        modify (set_service_loaded_crc32 actual_crc) ;;;
        modify (set_service_loaded_words (se_total_words session)) ;;;
        sim_response request Status.OK []
      end
    end
  | None => service_fail request Status.INVALID_STATE header_address
  end.

(** ** The metadata journal *)

Definition metadata_record (s : SimulatorCore) (index : Z) : list Z :=
  read_words (sim_flash s) (SLOT_A_METADATA_START + index * METADATA_RECORD_WORDS)
    METADATA_RECORD_WORDS.

Definition metadata_erased (record : list Z) : bool := forallb (λ word, word =? 0xFFFF) record.

(** [join_u32(record[5], record[6])], and the same for other pairs. *)
Definition rec32 (record : list Z) (i : Z) : Z := join_u32 (at_ record i) (at_ record (i + 1)).

(** The local variables of the loop of [_metadata_summary_payload]. *)
Record Scan : Type := mkScan {
  sc_erased : Z;
  sc_invalid : Z;
  sc_first_free : Z;
  sc_latest : option (list Z);
  sc_latest_image : option (list Z);
  sc_valid_records : list (list Z);
}.

Definition newer (record : list Z) (best : option (list Z)) : bool :=
  match best with None => true | Some b => rec32 record 5 >? rec32 b 5 end.

(** One iteration for a record that is not erased. *)
Definition scan_record (record : list Z) (acc : Scan) : Res Scan :=
  let invalid := mkScan (sc_erased acc) (sc_invalid acc + 1) (sc_first_free acc)
    (sc_latest acc) (sc_latest_image acc) (sc_valid_records acc) in
  if negb (at_ record 0 =? METADATA_MAGIC0) || negb (at_ record 1 =? METADATA_MAGIC1)
     || negb (at_ record 2 =? METADATA_RECORD_VERSION)
     || negb (at_ record 3 =? METADATA_RECORD_WORDS)
     || negb ((at_ record 4 =? MetadataRecordType.IMAGE_VALID)
              || (at_ record 4 =? MetadataRecordType.BOOT_ATTEMPT)
              || (at_ record 4 =? MetadataRecordType.APP_CONFIRMED))
  then Ok invalid
  else
    let? crc := crc32_words (slice record 0 62) in
    if negb (crc =? rec32 record 62) then Ok invalid
    else Ok (mkScan (sc_erased acc) (sc_invalid acc) (sc_first_free acc)
               (if newer record (sc_latest acc) then Some record else sc_latest acc)
               (if (at_ record 4 =? MetadataRecordType.IMAGE_VALID)
                   && newer record (sc_latest_image acc)
                then Some record else sc_latest_image acc)
               (sc_valid_records acc ++ [record])).

Fixpoint metadata_scan (s : SimulatorCore) (indices : list Z) (acc : Scan) : Res Scan :=
  match indices with
  | [] => Ok acc
  | index :: indices =>
      let record := metadata_record s index in
      if metadata_erased record then
        metadata_scan s indices
          (mkScan (sc_erased acc + 1) (sc_invalid acc)
             (if sc_first_free acc =? 0xFFFF then index else sc_first_free acc)
             (sc_latest acc) (sc_latest_image acc) (sc_valid_records acc))
      else
        let? acc := scan_record record acc in metadata_scan s indices acc
  end.

Definition matches_image (latest_image record : list Z) : bool :=
  (at_ record 7 =? at_ latest_image 7) && (at_ record 14 =? at_ latest_image 14)
  && (at_ record 15 =? at_ latest_image 15) && (at_ record 16 =? at_ latest_image 16)
  && (at_ record 17 =? at_ latest_image 17) && (at_ record 18 =? at_ latest_image 18)
  && (at_ record 19 =? at_ latest_image 19).

(** A record of type [kind] about the latest image, written after it. *)
Definition about_image (latest_image : list Z) (kind : MetadataRecordType.MetadataRecordType_t)
    (record : list Z) : bool :=
  (at_ record 4 =? MetadataRecordType.MetadataRecordType_value kind)
  && (rec32 record 5 >? rec32 latest_image 5) && matches_image latest_image record.

Definition metadata_summary_payload (s : SimulatorCore) : Res (list Z) :=
  let? scan := metadata_scan s (zrange 0 METADATA_RECORD_COUNT) (mkScan 0 0 0xFFFF None None []) in
  let tail := [sc_invalid scan; sc_erased scan; sc_erased scan; sc_first_free scan] in
  match sc_latest_image scan with
  | None =>
      let state := if sc_invalid scan =? 0 then 0 else 2 in
      Ok ([0; 0; 0; 0; 0; 3; 0; 0; 0; 0; 0; 0; 0; 0; 0; state; 0] ++ tail ++ [0; 0; 0; 0])
  | Some image =>
      match sc_latest scan with
      | None => Raise (Err AssertionError (Lit EmptyString))
      | Some latest =>
          let attempt_count :=
            zlen (List.filter (about_image image MetadataRecordType.BOOT_ATTEMPT)
                    (sc_valid_records scan)) in
          let app_confirmed :=
            existsb (about_image image MetadataRecordType.APP_CONFIRMED) (sc_valid_records scan) in
          Ok ([1; BootSlot.BootSlot_value BootSlot.SLOT_A; at_ latest 4; attempt_count;
               if app_confirmed then 1 else 0; 3;
               at_ image 20; at_ image 21; at_ image 22; at_ image 23; at_ image 24;
               at_ image 14; at_ image 15; at_ image 18; at_ image 19; 1;
               zlen (sc_valid_records scan)] ++ tail ++
              [at_ image 16; at_ image 17; at_ image 25; at_ image 26])
      end
  end.

Definition sim_summary (s : SimulatorCore) : Res MetadataSummary :=
  let? payload := metadata_summary_payload s in MetadataSummary_from_words payload.

Definition sim_get_metadata_summary (request : Frame) : Sim Frame :=
  error <- require_empty request ErrorOperation.FRAME ;;
  match error with
  | Some f => ret f
  | None =>
      s <- get ;;
      payload <- lift (metadata_summary_payload s) ;;
      sim_response request Status.OK payload
  end.

(** A journal record from its words 0-28; words 29-61 stay erased and the
    last two are the CRC-32 of the first 62. *)
Definition close_record (head : list Z) : Res (list Z) :=
  let body := head ++ replicate 33 0xFFFF in
  let? crc := crc32_words body in
  let? (crc_low, crc_high) := split_u32 crc in
  Ok (body ++ [crc_low; crc_high]).

Definition build_image_valid_record (payload : list Z) (sequence : Z) (device : DeviceInfo)
    : Res (list Z) :=
  let? (seq_low, seq_high) := split_u32 sequence in
  let? (start_low, start_high) := split_u32 APP_FLASH_START in
  let p := at_ payload in
  close_record
    [METADATA_MAGIC0; METADATA_MAGIC1; METADATA_RECORD_VERSION; METADATA_RECORD_WORDS;
     MetadataRecordType.MetadataRecordType_value MetadataRecordType.IMAGE_VALID; seq_low; seq_high;
     BootSlot.BootSlot_value BootSlot.SLOT_A; BootSlot.BootSlot_value BootSlot.SLOT_A; 0;
     start_low; start_high; p 13; p 14; p 2; p 3; p 4; p 5; p 6; p 7; p 8; p 9; p 10; p 11; p 12;
     di_device_id device; di_cpu_id device; METADATA_BOOT_ATTEMPT_LIMIT; 0].

(** The common part of the BOOT_ATTEMPT and APP_CONFIRMED records, with word
    4 and word 28 left open. *)
Definition summary_record (record_type : MetadataRecordType.MetadataRecordType_t)
    (count : Z) (summary : MetadataSummary) (sequence : Z) : Res (list Z) :=
  let? (seq_low, seq_high) := split_u32 sequence in
  let? (start_low, start_high) := split_u32 APP_FLASH_START in
  let? (end_low, end_high) := split_u32 APP_FLASH_END_EXCLUSIVE in
  let? (entry_low, entry_high) := split_u32 (ms_entry_point summary) in
  let? (size_low, size_high) := split_u32 (ms_image_size_words summary) in
  let? (crc_low, crc_high) := split_u32 (ms_image_crc32 summary) in
  let? (build_low, build_high) := split_u32 (ms_app_version_build summary) in
  close_record
    [METADATA_MAGIC0; METADATA_MAGIC1; METADATA_RECORD_VERSION; METADATA_RECORD_WORDS;
     MetadataRecordType.MetadataRecordType_value record_type; seq_low; seq_high;
     BootSlot.BootSlot_value BootSlot.SLOT_A; BootSlot.BootSlot_value BootSlot.SLOT_A; 0;
     start_low; start_high; end_low; end_high; entry_low; entry_high; size_low; size_high;
     crc_low; crc_high; ms_app_version_major summary; ms_app_version_minor summary;
     ms_app_version_patch summary; build_low; build_high; ms_target_device_id summary;
     ms_target_cpu_id summary; ms_boot_attempt_limit summary; count].

Definition build_boot_attempt_record (summary : MetadataSummary) (sequence : Z) : Res (list Z) :=
  summary_record MetadataRecordType.BOOT_ATTEMPT (ms_boot_attempt_count summary + 1) summary sequence.

(** The source builds the BOOT_ATTEMPT record first, overwrites words 4 and
    28 and recomputes the checksum. *)
Definition build_app_confirmed_record (summary : MetadataSummary) (sequence : Z) : Res (list Z) :=
  let? _ := build_boot_attempt_record summary sequence in
  summary_record MetadataRecordType.APP_CONFIRMED (ms_boot_attempt_count summary) summary sequence.

(** [next((index for ... if erased), None)] *)
Definition first_free_record (s : SimulatorCore) : option Z :=
  List.find (λ index, metadata_erased (metadata_record s index)) (zrange 0 METADATA_RECORD_COUNT).

(** [1 + max((sequence of the records that are not erased), default=0)] *)
Definition next_record_sequence (s : SimulatorCore) : Z :=
  1 + zmax_list
    (map (λ index, rec32 (metadata_record s index) 5)
       (List.filter (λ index, negb (metadata_erased (metadata_record s index)))
          (zrange 0 METADATA_RECORD_COUNT))).

(** [self.flash.update(...)] of the record at index [first_free]. *)
Definition store_record (first_free : Z) (record : list Z) : Sim unit :=
  modify (λ s, set_flash
    (write_words (SLOT_A_METADATA_START + first_free * METADATA_RECORD_WORDS) record (sim_flash s)) s).

(** The BOOT_ATTEMPT and APP_CONFIRMED branch. *)
Definition append_about_image (request : Frame) : Sim Frame :=
  let kind := pay request 0 in
  if existsb (λ index, negb (pay request index =? 0)) (zrange 8 15)
  then sim_fail request Status.BAD_PAYLOAD_LENGTH ErrorOperation.PROGRAM ErrorStage.PAYLOAD else
  s <- get ;;
  summary <- lift (sim_summary s) ;;
  if ms_metadata_valid summary =? 0
  then sim_fail request Status.METADATA_INVALID ErrorOperation.PROGRAM ErrorStage.STATE else
  if (kind =? MetadataRecordType.APP_CONFIRMED) && (ms_boot_attempt_count summary =? 0)
  then sim_fail request Status.INVALID_STATE ErrorOperation.PROGRAM ErrorStage.STATE else
  if negb (ms_app_confirmed summary =? 0) then sim_response request Status.OK [] else
  if (kind =? MetadataRecordType.BOOT_ATTEMPT)
     && (ms_boot_attempt_count summary >=? ms_boot_attempt_limit summary)
  then sim_fail request Status.ATTEMPT_LIMIT_REACHED ErrorOperation.PROGRAM ErrorStage.STATE else
  if negb (pay32 request 2 =? ms_entry_point summary)
     || negb (pay32 request 4 =? ms_image_size_words summary)
     || negb (pay32 request 6 =? ms_image_crc32 summary)
  then sim_fail request Status.METADATA_INVALID ErrorOperation.PROGRAM ErrorStage.STATE else
  match first_free_record s with
  | None => sim_fail request Status.METADATA_FULL ErrorOperation.PROGRAM ErrorStage.STATE
  | Some first_free =>
      let sequence := next_record_sequence s in
      record <- lift (if kind =? MetadataRecordType.BOOT_ATTEMPT
                      then build_boot_attempt_record summary sequence
                      else build_app_confirmed_record summary sequence) ;;
      store_record first_free record ;;;
      sim_response request Status.OK []
  end.

(** The IMAGE_VALID branch. *)
Definition append_image_valid (request : Frame) : Sim Frame :=
  let entry_point := pay32 request 2 in
  let image_size_words := pay32 request 4 in
  let app_end := pay32 request 13 in
  if image_size_words =? 0
  then sim_fail request Status.BAD_WORD_COUNT ErrorOperation.PROGRAM ErrorStage.PAYLOAD else
  if (entry_point <? APP_FLASH_START) || (entry_point >=? APP_FLASH_END_EXCLUSIVE)
     || negb (entry_point mod 8 =? 0)
  then sim_fail request Status.BAD_ADDRESS ErrorOperation.PROGRAM ErrorStage.ADDRESS_CHECK else
  if (app_end <=? APP_FLASH_START) || (app_end >? APP_FLASH_END_EXCLUSIVE)
  then sim_fail request Status.BAD_ADDRESS ErrorOperation.PROGRAM ErrorStage.ADDRESS_CHECK else
  s <- get ;;
  if negb (sim_verify_succeeded s)
  then sim_fail request Status.INVALID_STATE ErrorOperation.PROGRAM ErrorStage.STATE else
  match first_free_record s with
  | None => sim_fail request Status.METADATA_FULL ErrorOperation.PROGRAM ErrorStage.STATE
  | Some first_free =>
      record <- lift (build_image_valid_record (fr_payload request) (next_record_sequence s)
                        (sim_device_info s)) ;;
      store_record first_free record ;;;
      modify (set_verify_succeeded false) ;;;
      sim_response request Status.OK []
  end.

Definition sim_metadata_append_record (request : Frame) : Sim Frame :=
  let kind := pay request 0 in
  if negb (payload_len request =? 16)
  then sim_fail request Status.BAD_PAYLOAD_LENGTH ErrorOperation.PROGRAM ErrorStage.PAYLOAD else
  if negb ((kind =? MetadataRecordType.IMAGE_VALID) || (kind =? MetadataRecordType.BOOT_ATTEMPT)
           || (kind =? MetadataRecordType.APP_CONFIRMED))
  then sim_fail request Status.UNSUPPORTED_FEATURE ErrorOperation.PROGRAM ErrorStage.PAYLOAD else
  if negb (pay request 1 =? BootSlot.SLOT_A)
  then sim_fail request Status.UNSUPPORTED_FEATURE ErrorOperation.PROGRAM ErrorStage.PAYLOAD else
  if negb (pay request 15 =? 0)
  then sim_fail request Status.BAD_FLAGS ErrorOperation.PROGRAM ErrorStage.PAYLOAD else
  if (kind =? MetadataRecordType.BOOT_ATTEMPT) || (kind =? MetadataRecordType.APP_CONFIRMED)
  then append_about_image request
  else append_image_valid request.

(** ** RAM download *)

Definition sim_ram_load_begin (request : Frame) : Sim Frame :=
  if negb (payload_len request =? 9)
  then sim_fail request Status.BAD_PAYLOAD_LENGTH ErrorOperation.RAM_LOAD ErrorStage.PAYLOAD else
  let target := pay request 0 in
  let block_count := pay request 1 in
  let total_words := pay32 request 2 in
  let entry_point := pay32 request 4 in
  if negb (pay request 8 =? 0)
  then sim_fail request Status.BAD_FLAGS ErrorOperation.RAM_LOAD ErrorStage.PAYLOAD else
  session <- gets sim_ram_load_session ;;
  if bool_decide (is_Some session)
  then sim_fail request Status.BUSY ErrorOperation.RAM_LOAD ErrorStage.STATE else
  if negb (target =? Target.RAM_APP)
  then sim_fail request Status.TARGET_MISMATCH ErrorOperation.RAM_LOAD ErrorStage.STATE else
  if (block_count =? 0) || (total_words =? 0)
  then sim_fail request Status.BAD_WORD_COUNT ErrorOperation.RAM_LOAD ErrorStage.PAYLOAD else
  if negb (ram_allowed entry_point 1)
  then sim_fail_at request Status.RAM_REGION_ERROR ErrorOperation.RAM_LOAD
         ErrorStage.ADDRESS_CHECK entry_point 0 0 else
  modify (set_ram_load_session (Some (Session_init block_count total_words entry_point))) ;;;
  modify (set_ram_loaded None) ;;;
  modify (set_ram_crc_ok false) ;;;
  sim_response request Status.OK [].

(** The session after a data packet has been accepted; a RAM session also
    collects the words and the address bounds. *)
Definition session_advance (data_words : Z) (se : Session) : Session :=
  mkSession (se_block_count se) (se_total_words se) (se_entry_point se) (se_crc_words se)
    (se_expected_index se + 1) (se_packet_count se + 1) (se_received_words se + data_words)
    (se_start se) (se_end_exclusive se).

Definition session_extend (address : Z) (data : list Z) (se : Session) : Session :=
  let stop := address + zlen data in
  mkSession (se_block_count se) (se_total_words se) (se_entry_point se) (se_crc_words se ++ data)
    (se_expected_index se) (se_packet_count se) (se_received_words se)
    (Some (match se_start se with None => address | Some a => Z.min a address end))
    (Some (match se_end_exclusive se with None => stop | Some e => Z.max e stop end)).

(** [self.ram_load_session = None; return self._fail(...)] *)
Definition ram_load_abort (request : Frame) (status : Status.Status_t)
    (stage : ErrorStage.ErrorStage_t) (address length_words extra0 : Z) : Sim Frame :=
  modify (set_ram_load_session None) ;;;
  sim_fail_at request status ErrorOperation.RAM_LOAD stage address length_words extra0.

Definition clear_publish (ram : memory) : memory :=
  <[FLASH_SERVICE_PUBLISH + 1 := 0]> (<[FLASH_SERVICE_PUBLISH := 0]> ram).

Definition sim_ram_load_data (request : Frame) : Sim Frame :=
  session <- gets sim_ram_load_session ;;
  match session with
  | None => sim_fail request Status.MISSING_BEGIN ErrorOperation.RAM_LOAD ErrorStage.STATE
  | Some session =>
    if payload_len request <? 5
    then ram_load_abort request Status.BAD_PAYLOAD_LENGTH ErrorStage.PAYLOAD 0 0 0 else
    let address := pay32 request 0 in
    let word_count := pay request 2 in
    let block_index := pay32 request 3 in
    let data := slice_from (fr_payload request) 5 in
    if negb (zlen data =? word_count)
    then ram_load_abort request Status.BAD_PAYLOAD_LENGTH ErrorStage.PAYLOAD address word_count 0 else
    if word_count =? 0
    then ram_load_abort request Status.BAD_WORD_COUNT ErrorStage.PAYLOAD address 0 0 else
    if negb (block_index =? se_expected_index session)
    then ram_load_abort request Status.BLOCK_INDEX_ERROR ErrorStage.STATE address word_count
           (se_expected_index session) else
    if (se_packet_count session >=? se_block_count session)
       || (se_received_words session + word_count >? se_total_words session)
    then ram_load_abort request Status.TOTAL_COUNT_MISMATCH ErrorStage.STATE address word_count 0 else
    if negb (ram_allowed address word_count)
    then ram_load_abort request Status.RAM_REGION_ERROR ErrorStage.ADDRESS_CHECK address word_count 0 else
    let overlaps_service :=
      (address <? FLASH_SERVICE_END_EXCLUSIVE) && (address + word_count >? FLASH_SERVICE_START) in
    (if overlaps_service then
       modify (set_service_state ServiceState.DETACHED) ;;;
       modify (set_service_capabilities 0) ;;;
       modify (set_service_header_address 0) ;;;
       modify (λ s, set_ram (clear_publish (sim_ram s)) s)
     else ret tt) ;;;
    modify (λ s, set_ram (write_words address data (sim_ram s)) s) ;;;
    (if overlaps_service then modify (λ s, set_ram (clear_publish (sim_ram s)) s) else ret tt) ;;;
    modify (set_ram_load_session (Some (session_extend address data (session_advance word_count session)))) ;;;
    sim_response request Status.OK []
  end.

Definition sim_ram_load_end (request : Frame) : Sim Frame :=
  session <- gets sim_ram_load_session ;;
  match session with
  | None => sim_fail request Status.MISSING_BEGIN ErrorOperation.RAM_LOAD ErrorStage.STATE
  | Some session =>
    if negb (payload_len request =? 6)
    then ram_load_abort request Status.BAD_PAYLOAD_LENGTH ErrorStage.PAYLOAD 0 0 0 else
    let packets := pay32 request 0 in
    let words := pay32 request 2 in
    let inside := match se_start session, se_end_exclusive session with
                  | Some start, Some stop =>
                      (start <=? se_entry_point session) && (se_entry_point session <? stop)
                  | _, _ => false
                  end in
    if negb (packets =? se_block_count session) || negb (packets =? se_packet_count session)
       || negb (words =? se_total_words session) || negb (words =? se_received_words session)
       || negb inside
    then ram_load_abort request Status.TOTAL_COUNT_MISMATCH ErrorStage.STATE 0 0 0 else
    modify (set_ram_loaded (Some session)) ;;;
    modify (set_ram_load_session None) ;;;
    modify (set_ram_crc_ok false) ;;;
    sim_response request Status.OK []
  end.

Definition sim_ram_check_crc (request : Frame) : Sim Frame :=
  if negb (payload_len request =? 5)
  then sim_fail request Status.BAD_PAYLOAD_LENGTH ErrorOperation.RAM_LOAD ErrorStage.PAYLOAD else
  if negb (pay request 4 =? 0)
  then sim_fail request Status.BAD_FLAGS ErrorOperation.RAM_LOAD ErrorStage.PAYLOAD else
  session <- gets sim_ram_loaded ;;
  match session with
  | None => sim_fail request Status.INVALID_STATE ErrorOperation.RAM_LOAD ErrorStage.STATE
  | Some session =>
    let expected_crc := pay32 request 0 in
    let expected_words := pay32 request 2 in
    actual_crc <- lift (crc32_words (se_crc_words session)) ;;
    if negb (expected_words =? se_total_words session) || negb (expected_crc =? actual_crc)
    then
      modify (set_ram_crc_ok false) ;;;
      sim_fail_at request Status.VERIFY_MISMATCH ErrorOperation.RAM_LOAD ErrorStage.VERIFY
        0 (se_total_words session) (Z.land actual_crc 0xFFFF)
    else
      modify (set_ram_crc_ok true) ;;;
      sim_response request Status.OK []
  end.

Definition sim_run_ram (request : Frame) : Sim Frame :=
  if negb (payload_len request =? 3)
  then sim_fail request Status.BAD_PAYLOAD_LENGTH ErrorOperation.RUN ErrorStage.PAYLOAD else
  if negb (pay request 2 =? 0)
  then sim_fail request Status.BAD_FLAGS ErrorOperation.RUN ErrorStage.PAYLOAD else
  s <- get ;;
  match sim_ram_loaded s with
  | Some session =>
    if negb (sim_ram_crc_ok s)
    then sim_fail request Status.INVALID_STATE ErrorOperation.RUN ErrorStage.STATE else
    let requested := pay32 request 0 in
    let entry_point := if requested =? 0 then se_entry_point session else requested in
    let inside := match se_start session, se_end_exclusive session with
                  | Some start, Some stop => (start <=? entry_point) && (entry_point <? stop)
                  | _, _ => false
                  end in
    if negb inside || negb (ram_allowed entry_point 1)
    then sim_fail_at request Status.RAM_REGION_ERROR ErrorOperation.RUN ErrorStage.ADDRESS_CHECK
           entry_point 0 0 else
    modify (set_pending_action RUN_RAM) ;;;
    sim_response request Status.OK []
  | None => sim_fail request Status.INVALID_STATE ErrorOperation.RUN ErrorStage.STATE
  end.

(** ** Flash erase, program and verify *)

(** [[sector for index, sector in enumerate(self.sectors) if mask & (1 << index)]] *)
Definition selected_sectors (s : SimulatorCore) (mask : Z) : list FlashSector :=
  map snd (List.filter (λ '(index, _), negb (Z.land mask (Z.shiftl 1 index) =? 0))
             (zip (zrange 0 (zlen (sim_sectors s))) (sim_sectors s))).

Definition in_sectors (sectors : list FlashSector) (address : Z) : bool :=
  existsb (λ sector, fs_contains sector address) sectors.

Definition sim_erase (request : Frame) : Sim Frame :=
  if negb (payload_len request =? 3)
  then sim_fail request Status.BAD_PAYLOAD_LENGTH ErrorOperation.ERASE ErrorStage.PAYLOAD else
  let mask := pay32 request 0 in
  if negb (pay request 2 =? 0)
  then sim_fail request Status.BAD_FLAGS ErrorOperation.ERASE ErrorStage.PAYLOAD else
  s <- get ;;
  let valid_mask := Z.shiftl 1 (zlen (sim_sectors s)) - 1 in
  if (mask =? 0) || negb (Z.land mask (Z.lnot valid_mask) =? 0)
  then sim_fail request Status.BAD_ADDRESS ErrorOperation.ERASE ErrorStage.ADDRESS_CHECK else
  if erase_fail (sim_faults s)
  then sim_fail request Status.ERASE_FAILED ErrorOperation.ERASE ErrorStage.API_CALL else
  let selected := selected_sectors s mask in
  modify (λ s, set_flash (filter (λ kv, in_sectors selected kv.1 = false) (sim_flash s)) s) ;;;
  modify (λ s, set_programmed
    (filter (λ address, in_sectors selected address = false) (sim_programmed s)) s) ;;;
  modify (set_program_session None) ;;;
  modify (set_verify_session None) ;;;
  modify (set_verify_succeeded false) ;;;
  sim_response request Status.OK [].

(** [_begin]: a new session, or the error response. *)
Definition sim_begin (request : Frame) (operation : ErrorOperation.ErrorOperation_t)
    : Sim (Session + Frame) :=
  if negb (payload_len request =? 9)
  then f <- sim_fail request Status.BAD_PAYLOAD_LENGTH operation ErrorStage.PAYLOAD ;; ret (inr f) else
  let target := pay request 0 in
  let block_count := pay request 1 in
  let total_words := pay32 request 2 in
  let entry_point := pay32 request 4 in
  let flags := pay request 8 in
  if negb (flags =? 0)
  then f <- sim_fail request Status.BAD_FLAGS operation ErrorStage.PAYLOAD ;; ret (inr f) else
  if negb (target =? Target.FLASH_APP)
  then f <- sim_fail request Status.TARGET_MISMATCH operation ErrorStage.STATE ;; ret (inr f) else
  if (block_count =? 0) || (total_words =? 0)
  then f <- sim_fail request Status.BAD_WORD_COUNT operation ErrorStage.PAYLOAD ;; ret (inr f) else
  s <- get ;;
  if negb (addresses_allowed s entry_point 1)
  then f <- sim_fail_at request Status.ADDRESS_OUT_OF_RANGE operation ErrorStage.ADDRESS_CHECK
              entry_point 0 0 ;; ret (inr f) else
  ret (inl (Session_init block_count total_words entry_point)).

Definition sim_program_begin (request : Frame) : Sim Frame :=
  session <- gets sim_program_session ;;
  if bool_decide (is_Some session)
  then sim_fail request Status.BUSY ErrorOperation.PROGRAM ErrorStage.STATE else
  result <- sim_begin request ErrorOperation.PROGRAM ;;
  match result with
  | inr f => ret f
  | inl se =>
      modify (set_program_session (Some se)) ;;;
      sim_response request Status.OK []
  end.

(** [_data]: session, address and data of an acceptable packet, or the error response. *)
Definition sim_data (request : Frame) (session : option Session)
    (operation : ErrorOperation.ErrorOperation_t) : Sim (Session * Z * list Z + Frame) :=
  match session with
  | None => f <- sim_fail request Status.MISSING_BEGIN operation ErrorStage.STATE ;; ret (inr f)
  | Some session =>
    if payload_len request <? 5
    then f <- sim_fail request Status.BAD_PAYLOAD_LENGTH operation ErrorStage.PAYLOAD ;; ret (inr f) else
    let address := pay32 request 0 in
    let data_words := pay request 2 in
    let block_index := pay32 request 3 in
    let data := slice_from (fr_payload request) 5 in
    if negb (payload_len request =? 5 + data_words)
    then f <- sim_fail_at request Status.BAD_PAYLOAD_LENGTH operation ErrorStage.PAYLOAD
                address data_words 0 ;; ret (inr f) else
    s <- get ;;
    match validate_write_data data (Some (di_max_data_words (sim_device_info s))) with
    | Raise e =>
        if isinstance e DataAlignmentError
        then f <- sim_fail_at request Status.BAD_WORD_COUNT operation ErrorStage.PAYLOAD
                    address data_words 0 ;; ret (inr f)
        else raise e
    | Ok _ =>
      if bad_block_index (sim_faults s) || negb (block_index =? se_expected_index session)
      then f <- sim_fail_at request Status.BLOCK_INDEX_ERROR operation ErrorStage.STATE
                  address data_words (Z.land (se_expected_index session) 0xFFFF) ;; ret (inr f) else
      if negb (addresses_allowed s address data_words)
      then f <- sim_fail_at request Status.ADDRESS_OUT_OF_RANGE operation ErrorStage.ADDRESS_CHECK
                  address data_words 0 ;; ret (inr f) else
      ret (inl (session, address, data))
    end
  end.

Definition sim_program_data (request : Frame) : Sim Frame :=
  current <- gets sim_program_session ;;
  result <- sim_data request current ErrorOperation.PROGRAM ;;
  match result with
  | inr f => modify (set_program_session None) ;;; ret f
  | inl (session, address, data) =>
      s <- get ;;
      let stop := address + zlen data in
      let bad := default (-1) (program_fail_at_address (sim_faults s)) in
      if bool_decide (is_Some (program_fail_at_address (sim_faults s)))
         && ((address <=? bad) && (bad <? stop))
      then
        modify (set_program_session None) ;;;
        sim_fail_at request Status.PROGRAM_FAILED ErrorOperation.PROGRAM ErrorStage.API_CALL
          bad (zlen data) 0
      else
      if existsb (λ a, bool_decide (a ∈ sim_programmed s)) (zrange address stop)
      then
        modify (set_program_session None) ;;;
        sim_fail_at request Status.REPROGRAM_FORBIDDEN ErrorOperation.PROGRAM
          ErrorStage.ADDRESS_CHECK address (zlen data) 0
      else
      modify (λ s, set_flash (write_words address data (sim_flash s)) s) ;;;
      modify (λ s, set_programmed (list_to_set (zrange address stop) ∪ sim_programmed s) s) ;;;
      modify (set_program_session (Some (session_advance (zlen data) session))) ;;;
      modify (set_verify_succeeded false) ;;;
      sim_response request Status.OK []
  end.

Definition sim_end (request : Frame) (session : option Session)
    (operation : ErrorOperation.ErrorOperation_t) : Sim Frame :=
  match session with
  | None => sim_fail request Status.MISSING_BEGIN operation ErrorStage.STATE
  | Some session =>
    if negb (payload_len request =? 6)
    then sim_fail request Status.BAD_PAYLOAD_LENGTH operation ErrorStage.PAYLOAD else
    let packets := pay32 request 0 in
    let words := pay32 request 2 in
    if negb (packets =? se_block_count session) || negb (packets =? se_packet_count session)
       || negb (words =? se_total_words session) || negb (words =? se_received_words session)
    then sim_fail request Status.TOTAL_COUNT_MISMATCH operation ErrorStage.STATE
    else sim_response request Status.OK []
  end.

Definition sim_program_end (request : Frame) : Sim Frame :=
  session <- gets sim_program_session ;;
  response <- sim_end request session ErrorOperation.PROGRAM ;;
  modify (set_program_session None) ;;;
  (if fr_status response =? Status.OK then modify (set_verify_succeeded false) else ret tt) ;;;
  ret response.

Definition sim_verify_begin (request : Frame) : Sim Frame :=
  session <- gets sim_verify_session ;;
  if bool_decide (is_Some session)
  then sim_fail request Status.BUSY ErrorOperation.VERIFY ErrorStage.STATE else
  result <- sim_begin request ErrorOperation.VERIFY ;;
  match result with
  | inr f => ret f
  | inl se =>
      modify (set_verify_session (Some se)) ;;;
      sim_response request Status.OK []
  end.

(** The first address at which the comparison of [_verify_data] fails. *)
Fixpoint verify_mismatch (s : SimulatorCore) (current : Z) (data : list Z) : option Z :=
  match data with
  | [] => None
  | expected :: data =>
      if bool_decide (verify_fail_at_address (sim_faults s) = Some current)
         || negb (read_word (sim_flash s) current =? expected)
      then Some current else verify_mismatch s (current + 1) data
  end.

Definition sim_verify_data (request : Frame) : Sim Frame :=
  current <- gets sim_verify_session ;;
  result <- sim_data request current ErrorOperation.VERIFY ;;
  match result with
  | inr f =>
      modify (set_verify_session None) ;;; modify (set_verify_succeeded false) ;;; ret f
  | inl (session, address, data) =>
      s <- get ;;
      match verify_mismatch s address data with
      | Some bad =>
          modify (set_verify_session None) ;;;
          modify (set_verify_succeeded false) ;;;
          sim_fail_at request Status.VERIFY_MISMATCH ErrorOperation.VERIFY ErrorStage.VERIFY
            bad 1 (read_word (sim_flash s) bad)
      | None =>
          modify (set_verify_session (Some (session_advance (zlen data) session))) ;;;
          sim_response request Status.OK []
      end
  end.

Definition sim_verify_end (request : Frame) : Sim Frame :=
  session <- gets sim_verify_session ;;
  response <- sim_end request session ErrorOperation.VERIFY ;;
  modify (set_verify_session None) ;;;
  modify (set_verify_succeeded (fr_status response =? Status.OK)) ;;;
  ret response.

(** ** Memory read, run and reset *)

Definition sim_memory_read (request : Frame) : Sim Frame :=
  if negb (payload_len request =? 4)
  then sim_fail request Status.BAD_PAYLOAD_LENGTH ErrorOperation.FRAME ErrorStage.PAYLOAD else
  let address := pay32 request 0 in
  let word_count := pay request 2 in
  if negb (pay request 3 =? 0)
  then sim_fail request Status.BAD_FLAGS ErrorOperation.FRAME ErrorStage.PAYLOAD else
  s <- get ;;
  if (word_count =? 0) || (word_count >? di_max_payload_words (sim_device_info s) - 3)
  then sim_fail request Status.BAD_WORD_COUNT ErrorOperation.FRAME ErrorStage.PAYLOAD else
  sim_response request Status.OK
    ([pay request 0; pay request 1; word_count] ++
     map (λ index, default (read_word (sim_flash s) (address + index)) (sim_ram s !! (address + index)))
       (zrange 0 word_count)).

Definition sim_run (request : Frame) : Sim Frame :=
  if negb (payload_len request =? 4)
  then sim_fail request Status.BAD_PAYLOAD_LENGTH ErrorOperation.RUN ErrorStage.PAYLOAD else
  let target := pay request 0 in
  let entry_point := pay32 request 1 in
  if negb (pay request 3 =? 0)
  then sim_fail request Status.BAD_FLAGS ErrorOperation.RUN ErrorStage.PAYLOAD else
  if negb (target =? Target.FLASH_APP)
  then sim_fail request Status.TARGET_MISMATCH ErrorOperation.RUN ErrorStage.STATE else
  if negb (entry_point mod 8 =? 0)
  then sim_fail_at request Status.BAD_ALIGNMENT ErrorOperation.RUN ErrorStage.ADDRESS_CHECK
         entry_point 0 0 else
  s <- get ;;
  if negb (addresses_allowed s entry_point 1)
  then sim_fail_at request Status.ADDRESS_OUT_OF_RANGE ErrorOperation.RUN ErrorStage.ADDRESS_CHECK
         entry_point 0 0 else
  summary <- lift (sim_summary s) ;;
  if (ms_metadata_valid summary =? 0) || negb (ms_entry_point summary =? entry_point)
  then sim_fail request Status.METADATA_INVALID ErrorOperation.RUN ErrorStage.STATE else
  if (ms_app_confirmed summary =? 0) && (ms_boot_attempt_count summary =? 0)
  then sim_fail request Status.INVALID_STATE ErrorOperation.RUN ErrorStage.STATE else
  if (ms_app_confirmed summary =? 0)
     && (ms_boot_attempt_count summary >? ms_boot_attempt_limit summary)
  then sim_fail request Status.ATTEMPT_LIMIT_REACHED ErrorOperation.RUN ErrorStage.STATE else
  modify (set_pending_action RUN_APP) ;;;
  sim_response request Status.OK [].

Definition sim_reset (request : Frame) : Sim Frame :=
  error <- require_empty request ErrorOperation.RESET ;;
  match error with
  | Some f => ret f
  | None =>
      modify (set_pending_action RESET_DEVICE) ;;;
      sim_response request Status.OK []
  end.

(** ** Dispatch *)

(** The set tested against the service requirement. *)
Definition requires_service (command : Command.Command_t) : bool :=
  match command with
  | Command.ERASE | Command.PROGRAM_BEGIN | Command.PROGRAM_DATA | Command.PROGRAM_END
  | Command.VERIFY_BEGIN | Command.VERIFY_DATA | Command.VERIFY_END
  | Command.METADATA_APPEND_RECORD => true
  | _ => false
  end.

(** The [handlers] dictionary: it has an entry for every command. *)
Definition handler (command : Command.Command_t) : Frame → Sim Frame :=
  match command with
  | Command.PING => sim_ping
  | Command.GET_DEVICE_INFO => sim_get_device_info
  | Command.GET_PROTOCOL_INFO => sim_get_protocol_info
  | Command.GET_LAST_ERROR => sim_get_last_error
  | Command.GET_SERVICE_STATUS => sim_get_service_status
  | Command.SERVICE_ATTACH => sim_service_attach
  | Command.RAM_LOAD_BEGIN => sim_ram_load_begin
  | Command.RAM_LOAD_DATA => sim_ram_load_data
  | Command.RAM_LOAD_END => sim_ram_load_end
  | Command.RAM_CHECK_CRC => sim_ram_check_crc
  | Command.RUN_RAM => sim_run_ram
  | Command.GET_METADATA_SUMMARY => sim_get_metadata_summary
  | Command.METADATA_APPEND_RECORD => sim_metadata_append_record
  | Command.ERASE => sim_erase
  | Command.PROGRAM_BEGIN => sim_program_begin
  | Command.PROGRAM_DATA => sim_program_data
  | Command.PROGRAM_END => sim_program_end
  | Command.VERIFY_BEGIN => sim_verify_begin
  | Command.VERIFY_DATA => sim_verify_data
  | Command.VERIFY_END => sim_verify_end
  | Command.MEMORY_READ => sim_memory_read
  | Command.RUN => sim_run
  | Command.RESET => sim_reset
  end.

Definition sim_transact (request : Frame) : Sim Frame :=
  if negb (fr_packet_type request =? PacketType.REQUEST)
  then sim_fail request Status.BAD_PACKET_TYPE ErrorOperation.FRAME ErrorStage.HEADER else
  if negb (fr_protocol_version request =? PROTOCOL_VERSION)
  then sim_fail request Status.UNSUPPORTED_PROTOCOL ErrorOperation.FRAME ErrorStage.HEADER else
  if negb (fr_flags request =? 0)
  then sim_fail request Status.BAD_FLAGS ErrorOperation.FRAME ErrorStage.HEADER else
  match enum_of (A:=Command.Command_t) (fr_command request) with
  | None => sim_fail request Status.UNKNOWN_COMMAND ErrorOperation.FRAME ErrorStage.STATE
  | Some command =>
      s <- get ;;
      if sim_require_service s && requires_service command
         && negb (bool_decide (sim_service_state s = ServiceState.ATTACHED))
      then sim_fail request Status.UNSUPPORTED_FEATURE ErrorOperation.FRAME ErrorStage.STATE
      else handler command request
  end.
