(* ===== verification/Journal.v ===== *)
(** * The metadata journal of the simulator

    The abstract view of the metadata area: a list of records in the order
    they were appended, [journal], with the state it stands for
    ([journal_state]: the latest image, how many boot attempts it has had and
    whether it is confirmed).  [flash_journal] relates a Flash contents to a
    journal; under it the scan of [_metadata_summary_payload] computes exactly
    the abstract state. *)

From S2P Require Import Prelude.
From S2P Require Import Errors.
From S2P Require Import Constants.
From S2P Require Import Words.
From S2P Require Import Models.
From S2P Require Import Firmware.
From S2P Require Import Packets.
From S2P Require Import Simulator.

Lemma elem_of_snoc {A} (l : list A) x : x ∈ l ++ [x].
Proof. apply elem_of_app. right. by apply list_elem_of_singleton. Qed.

(** ** Abstract journals *)

Definition kind_of (r : list Z) : Z := at_ r 4.
Definition sequence_of (r : list Z) : Z := rec32 r 5.

(** A record the device wrote with sequence number [n]. *)
Record record_ok (kind : MetadataRecordType.MetadataRecordType_t) (n : Z) (r : list Z) : Prop := {
  rk_length : zlen r = METADATA_RECORD_WORDS;
  rk_words : Forall u16 r;
  rk_magic0 : at_ r 0 = METADATA_MAGIC0;
  rk_magic1 : at_ r 1 = METADATA_MAGIC1;
  rk_version : at_ r 2 = METADATA_RECORD_VERSION;
  rk_size : at_ r 3 = METADATA_RECORD_WORDS;
  rk_kind : kind_of r = MetadataRecordType.MetadataRecordType_value kind;
  rk_sequence : sequence_of r = n;
  rk_crc : crc32_words (slice r 0 62) = Ok (rec32 r 62);
  rk_slot : at_ r 7 = BootSlot.BootSlot_value BootSlot.SLOT_A;
}.

(** What a journal stands for. *)
Record JournalState : Type := mkJournalState {
  js_image : option (list Z);
  js_attempts : Z;
  js_confirmed : bool;
}.

Definition journal_step (st : JournalState) (r : list Z) : JournalState :=
  if kind_of r =? MetadataRecordType.IMAGE_VALID then mkJournalState (Some r) 0 false
  else if kind_of r =? MetadataRecordType.BOOT_ATTEMPT
  then mkJournalState (js_image st) (js_attempts st + 1) (js_confirmed st)
  else mkJournalState (js_image st) (js_attempts st) true.

Definition journal_state (rs : list (list Z)) : JournalState :=
  foldl journal_step (mkJournalState None 0 false) rs.

(** The journals that can be written: attempts and confirmations are about
    the latest image, an unconfirmed image gets at most
    [METADATA_BOOT_ATTEMPT_LIMIT] attempts, and only an attempted image is
    confirmed. *)
Inductive journal : list (list Z) → Prop :=
| journal_nil : journal []
| journal_image rs r :
    journal rs → record_ok MetadataRecordType.IMAGE_VALID (zlen rs + 1) r → journal (rs ++ [r])
| journal_attempt rs image r :
    journal rs → js_image (journal_state rs) = Some image →
    js_attempts (journal_state rs) < METADATA_BOOT_ATTEMPT_LIMIT →
    js_confirmed (journal_state rs) = false →
    record_ok MetadataRecordType.BOOT_ATTEMPT (zlen rs + 1) r → matches_image image r = true →
    journal (rs ++ [r])
| journal_confirm rs image r :
    journal rs → js_image (journal_state rs) = Some image →
    0 < js_attempts (journal_state rs) → js_confirmed (journal_state rs) = false →
    record_ok MetadataRecordType.APP_CONFIRMED (zlen rs + 1) r → matches_image image r = true →
    journal (rs ++ [r]).

Lemma journal_state_snoc rs r :
  journal_state (rs ++ [r]) = journal_step (journal_state rs) r.
Proof. unfold journal_state. by rewrite foldl_app. Qed.

(** The bounds on attempts and confirmations are invariants of journals. *)
Lemma journal_bounds rs :
  journal rs →
  0 <= js_attempts (journal_state rs) <= METADATA_BOOT_ATTEMPT_LIMIT ∧
  (js_confirmed (journal_state rs) = true → 0 < js_attempts (journal_state rs)) ∧
  (js_image (journal_state rs) = None →
    js_attempts (journal_state rs) = 0 ∧ js_confirmed (journal_state rs) = false).
Proof.
  unfold METADATA_BOOT_ATTEMPT_LIMIT.
  induction 1 as [|rs r _ _ Hr|rs image r _ (IH1 & IH2 & IH3) Hi Hlt Hc Hr Hm
    |rs image r _ (IH1 & IH2 & IH3) Hi Hlt Hc Hr Hm]; [done|..];
    rewrite journal_state_snoc; unfold journal_step; rewrite (rk_kind _ _ _ Hr); cbn.
  - done.
  - unfold METADATA_BOOT_ATTEMPT_LIMIT in *. rewrite Hi, Hc. split; [lia|]. split; [done|].
    discriminate.
  - rewrite Hi. split; [done|]. split; [done|]. discriminate.
Qed.

(** Every record of a journal was written by the device, numbered by its position. *)
Lemma journal_record rs i r :
  journal rs → rs !! i = Some r → ∃ kind, record_ok kind (Z.of_nat i + 1) r.
Proof.
  induction 1 as [|rs r' _ IH Hr|rs image r' _ IH _ _ _ Hr _|rs image r' _ IH _ _ _ Hr _];
    [done|..]; (intros [[_ E]|[-> <-]]%lookup_snoc_Some; [by apply IH|eexists; exact Hr]).
Qed.

Lemma journal_sequences rs r :
  journal rs → r ∈ rs → 1 <= sequence_of r <= zlen rs.
Proof.
  intros Hj [i Hi]%list_elem_of_lookup. destruct (journal_record rs i r Hj Hi) as [kind Hr].
  rewrite (rk_sequence _ _ _ Hr). apply lookup_lt_Some in Hi. unfold zlen. lia.
Qed.

Lemma journal_words rs r : journal rs → r ∈ rs → Forall u16 r ∧ zlen r = METADATA_RECORD_WORDS.
Proof.
  intros Hj [i Hi]%list_elem_of_lookup. destruct (journal_record rs i r Hj Hi) as [kind Hr].
  split; apply Hr.
Qed.

Lemma js_image_in rs image :
  js_image (journal_state rs) = Some image →
  image ∈ rs ∧ kind_of image = MetadataRecordType.MetadataRecordType_value MetadataRecordType.IMAGE_VALID.
Proof.
  induction rs as [|r rs IH] using rev_ind; [done|]. rewrite journal_state_snoc. unfold journal_step.
  destruct (kind_of r =? MetadataRecordType.IMAGE_VALID) eqn:E.
  - cbn. intros [= ->]. split; [|by apply Z.eqb_eq in E].
    apply elem_of_snoc.
  - assert (∀ st, js_image st = Some image → js_image st = js_image (journal_state rs) →
      image ∈ rs ++ [r] ∧ kind_of image =
        MetadataRecordType.MetadataRecordType_value MetadataRecordType.IMAGE_VALID) as H.
    { intros st Hst Heq. rewrite Heq in Hst. destruct (IH Hst). split; [|done].
      apply elem_of_app. by left. }
    destruct (kind_of r =? MetadataRecordType.BOOT_ATTEMPT); intros Hst; by eapply H.
Qed.

(** ** Counting what is about the latest image *)

Definition attempts_about (image : list Z) (rs : list (list Z)) : Z :=
  zlen (List.filter (about_image image MetadataRecordType.BOOT_ATTEMPT) rs).
Definition confirmed_about (image : list Z) (rs : list (list Z)) : bool :=
  existsb (about_image image MetadataRecordType.APP_CONFIRMED) rs.

Lemma filter_snoc {A} (f : A → bool) l x :
  List.filter f (l ++ [x]) = List.filter f l ++ (if f x then [x] else []).
Proof. by rewrite List.filter_app. Qed.

Lemma existsb_snoc {A} (f : A → bool) l x : existsb f (l ++ [x]) = existsb f l || f x.
Proof. rewrite existsb_app. simpl. by rewrite orb_false_r. Qed.

Lemma filter_none {A} (f : A → bool) l : (∀ x, x ∈ l → f x = false) → List.filter f l = [].
Proof.
  induction l as [|x l IH]; intros H; simpl; [done|]. rewrite H by set_solver.
  apply IH. intros y Hy. apply H. set_solver.
Qed.

Lemma existsb_none {A} (f : A → bool) l : (∀ x, x ∈ l → f x = false) → existsb f l = false.
Proof.
  induction l as [|x l IH]; intros H; simpl; [done|]. rewrite H by set_solver.
  apply IH. intros y Hy. apply H. set_solver.
Qed.

(** A record is never counted for an image at least as recent. *)
Lemma about_older image kind r : sequence_of r <= sequence_of image → about_image image kind r = false.
Proof.
  unfold about_image, sequence_of. intros H.
  replace (rec32 r 5 >? rec32 image 5) with false by lia. by rewrite andb_false_r.
Qed.

Lemma about_newer image kind kind' n r :
  record_ok kind' n r → sequence_of image < n → matches_image image r = true →
  about_image image kind r = bool_decide (kind = kind').
Proof.
  intros Hr Hn Hm. unfold about_image. rewrite Hm, andb_true_r.
  pose proof (rk_kind _ _ _ Hr) as Hk. pose proof (rk_sequence _ _ _ Hr) as Hs.
  unfold kind_of, sequence_of in *. rewrite Hk, Hs.
  replace (n >? rec32 image 5) with true by lia. rewrite andb_true_r.
  destruct kind, kind'; reflexivity.
Qed.

Lemma journal_counts rs image :
  journal rs → js_image (journal_state rs) = Some image →
  attempts_about image rs = js_attempts (journal_state rs) ∧
  confirmed_about image rs = js_confirmed (journal_state rs).
Proof.
  unfold attempts_about, confirmed_about. intros Hj. revert image.
  induction Hj as [|rs r Hj IH Hr|rs image' r Hj IH Hi _ _ Hr Hm|rs image' r Hj IH Hi _ _ Hr Hm];
    intros image; [done|..]; rewrite journal_state_snoc; unfold journal_step;
    rewrite (rk_kind _ _ _ Hr); cbn.
  - intros [= <-]. assert (Hold : ∀ kind x, x ∈ rs ++ [r] → about_image r kind x = false).
    { intros kind x Hx. apply about_older. rewrite (rk_sequence _ _ _ Hr).
      apply elem_of_app in Hx as [Hx|Hx%list_elem_of_singleton].
      - pose proof (journal_sequences rs x Hj Hx). lia.
      - subst. rewrite (rk_sequence _ _ _ Hr). lia. }
    by rewrite filter_none, existsb_none by auto.
  - intros Himg. rewrite Hi in Himg. injection Himg as <-. destruct (IH _ Hi) as [IH1 IH2].
    destruct (js_image_in _ _ Hi) as [Hin _]. pose proof (journal_sequences rs image' Hj Hin).
    rewrite filter_snoc, existsb_snoc, !(about_newer image' _ _ _ r Hr) by (done || lia).
    rewrite zlen_app, IH1, IH2. cbn. by rewrite orb_false_r.
  - intros Himg. rewrite Hi in Himg. injection Himg as <-. destruct (IH _ Hi) as [IH1 IH2].
    destruct (js_image_in _ _ Hi) as [Hin _]. pose proof (journal_sequences rs image' Hj Hin).
    rewrite filter_snoc, existsb_snoc, !(about_newer image' _ _ _ r Hr) by (done || lia).
    cbn. rewrite app_nil_r, orb_true_r. done.
Qed.

(** ** Journals in Flash *)

Definition erased_record : list Z := replicate 64 0xFFFF.

Definition record_base (i : Z) : Z := SLOT_A_METADATA_START + i * METADATA_RECORD_WORDS.

Record flash_journal (m : memory) (rs : list (list Z)) : Prop := {
  fj_journal : journal rs;
  fj_length : zlen rs <= METADATA_RECORD_COUNT;
  fj_records : ∀ i, 0 <= i < METADATA_RECORD_COUNT →
    read_words m (record_base i) METADATA_RECORD_WORDS = default erased_record (rs !! Z.to_nat i);
}.

Lemma metadata_record_eq s i : metadata_record s i = read_words (sim_flash s) (record_base i) METADATA_RECORD_WORDS.
Proof. done. Qed.

Lemma erased_record_erased : metadata_erased erased_record = true.
Proof. done. Qed.

Lemma record_not_erased kind n r : record_ok kind n r → metadata_erased r = false.
Proof.
  intros Hr. unfold metadata_erased. pose proof (rk_magic0 _ _ _ Hr) as Hm.
  pose proof (rk_length _ _ _ Hr) as Hl. destruct r as [|w r]; [done|].
  unfold at_ in Hm. simpl in Hm. simpl. by rewrite Hm.
Qed.

Lemma metadata_scan_app s l k acc :
  metadata_scan s (l ++ k) acc = let? acc' := metadata_scan s l acc in metadata_scan s k acc'.
Proof.
  revert acc. induction l as [|i l IH]; intros acc; cbn [app metadata_scan]; [done|].
  destruct (metadata_erased _); [apply IH|]. destruct (scan_record _ acc); [apply IH|done].
Qed.

Lemma scan_record_ok kind n r acc :
  record_ok kind n r →
  scan_record r acc =
    Ok (mkScan (sc_erased acc) (sc_invalid acc) (sc_first_free acc)
          (if newer r (sc_latest acc) then Some r else sc_latest acc)
          (if (kind_of r =? MetadataRecordType.IMAGE_VALID) && newer r (sc_latest_image acc)
           then Some r else sc_latest_image acc)
          (sc_valid_records acc ++ [r])).
Proof.
  intros Hr. unfold scan_record.
  rewrite (rk_magic0 _ _ _ Hr), (rk_magic1 _ _ _ Hr), (rk_version _ _ _ Hr), (rk_size _ _ _ Hr).
  pose proof (rk_kind _ _ _ Hr) as Hk. unfold kind_of in *. rewrite Hk.
  rewrite (rk_crc _ _ _ Hr), !Z.eqb_refl.
  by destruct kind.
Qed.

Definition scan_start : Scan := mkScan 0 0 0xFFFF None None [].

(** Induction on journals that does not look at why a record was written. *)
Lemma journal_snoc_ind (P : list (list Z) → Prop) :
  P [] →
  (∀ rs kind r, journal rs → P rs → record_ok kind (zlen rs + 1) r → P (rs ++ [r])) →
  ∀ rs, journal rs → P rs.
Proof. intros H0 HS rs. induction 1; eauto. Qed.

Lemma newer_than rs kind r best :
  journal rs → record_ok kind (zlen rs + 1) r → (∀ b, best = Some b → b ∈ rs) → newer r best = true.
Proof.
  intros Hj Hr Hb. destruct best as [b|]; [|done]. cbn.
  pose proof (journal_sequences rs b Hj (Hb b eq_refl)). pose proof (rk_sequence _ _ _ Hr).
  unfold sequence_of in *. lia.
Qed.

Lemma zrange_snoc n : 0 <= n → zrange 0 (n + 1) = zrange 0 n ++ [n].
Proof.
  intros Hn. rewrite (zrange_app 0 n) by lia. f_equal. rewrite zrange_cons by lia.
  unfold zrange. by rewrite Z.sub_diag.
Qed.

Lemma journal_state_image rs kind r :
  record_ok kind (zlen rs + 1) r →
  js_image (journal_state (rs ++ [r])) =
    if kind_of r =? MetadataRecordType.IMAGE_VALID then Some r else js_image (journal_state rs).
Proof.
  intros Hr. rewrite journal_state_snoc. unfold journal_step. rewrite (rk_kind _ _ _ Hr).
  by destruct kind.
Qed.

(** Scanning the written part of a journal. *)
Lemma scan_written s rs :
  journal rs →
  (∀ i, 0 <= i < zlen rs → metadata_record s i = default erased_record (rs !! Z.to_nat i)) →
  metadata_scan s (zrange 0 (zlen rs)) scan_start =
    Ok (mkScan 0 0 0xFFFF (last rs) (js_image (journal_state rs)) rs).
Proof.
  revert rs. refine (journal_snoc_ind _ _ _); [done|]. intros rs kind r Hj IH Hr Hrec.
  pose proof (zlen_nonneg rs). assert (zlen (rs ++ [r]) = zlen rs + 1) as Hl by by rewrite zlen_app.
  rewrite Hl in *. rewrite zrange_snoc, metadata_scan_app by done. rewrite IH.
  2: { intros i Hi. rewrite Hrec by lia. f_equal. apply lookup_app_l. unfold zlen in *. lia. }
  cbn [metadata_scan]. assert (metadata_record s (zlen rs) = r) as ->.
  { rewrite Hrec by lia. unfold zlen. by rewrite Nat2Z.id, list_lookup_middle. }
  rewrite (record_not_erased _ _ _ Hr), (scan_record_ok _ _ _ _ Hr).
  cbn [sc_erased sc_invalid sc_first_free sc_latest sc_latest_image sc_valid_records].
  rewrite last_snoc, (journal_state_image rs kind r Hr).
  rewrite !(newer_than rs kind r _ Hj Hr), andb_true_r; [done| |].
  - intros b Hb. by apply js_image_in in Hb as [? _].
  - intros b [rs' ->]%last_Some. apply elem_of_snoc.
Qed.

(** Scanning erased records only counts them and notes the first. *)
Lemma scan_erased s l acc :
  Forall (λ i, metadata_erased (metadata_record s i) = true ∧ i <> 0xFFFF) l →
  metadata_scan s l acc =
    Ok (mkScan (sc_erased acc + zlen l) (sc_invalid acc)
          (if sc_first_free acc =? 0xFFFF then hd 0xFFFF l else sc_first_free acc)
          (sc_latest acc) (sc_latest_image acc) (sc_valid_records acc)).
Proof.
  intros H. revert acc. induction H as [|i l [Hi Hne] _ IH]; intros acc; cbn [metadata_scan].
  - destruct acc as [er inv ff la li vr]. cbn. rewrite zlen_nil, Z.add_0_r.
    by destruct (Z.eqb_spec ff 0xFFFF) as [->|].
  - rewrite Hi, IH. cbn [sc_erased sc_invalid sc_first_free sc_latest sc_latest_image sc_valid_records].
    rewrite zlen_cons. do 2 f_equal; [lia|]. cbn [hd].
    destruct (Z.eqb_spec (sc_first_free acc) 0xFFFF) as [Hf|Hf].
    + by replace (i =? 0xFFFF) with false by lia.
    + by replace (sc_first_free acc =? 0xFFFF) with false by lia.
Qed.

(** *** The summary of a journal *)

Definition free_index (rs : list (list Z)) : Z :=
  if zlen rs =? METADATA_RECORD_COUNT then 0xFFFF else zlen rs.

Definition journal_payload (rs : list (list Z)) : list Z :=
  let st := journal_state rs in
  let tail := [0; 16 - zlen rs; 16 - zlen rs; free_index rs] in
  match js_image st with
  | None => [0; 0; 0; 0; 0; 3; 0; 0; 0; 0; 0; 0; 0; 0; 0; 0; 0] ++ tail ++ [0; 0; 0; 0]
  | Some image =>
      [1; 1; kind_of (List.last rs []); js_attempts st; if js_confirmed st then 1 else 0; 3;
       at_ image 20; at_ image 21; at_ image 22; at_ image 23; at_ image 24;
       at_ image 14; at_ image 15; at_ image 18; at_ image 19; 1; zlen rs] ++ tail ++
      [at_ image 16; at_ image 17; at_ image 25; at_ image 26]
  end.

Lemma last_default (rs : list (list Z)) r : last rs = Some r → List.last rs [] = r.
Proof. intros [rs' ->]%last_Some. apply List.last_last. Qed.

Lemma flash_journal_scan s rs :
  flash_journal (sim_flash s) rs →
  metadata_scan s (zrange 0 METADATA_RECORD_COUNT) scan_start =
    Ok (mkScan (16 - zlen rs) 0 (free_index rs) (last rs) (js_image (journal_state rs)) rs).
Proof.
  intros [Hj Hl Hrec]. unfold METADATA_RECORD_COUNT in *. pose proof (zlen_nonneg rs).
  rewrite (zrange_app 0 (zlen rs)), metadata_scan_app by lia.
  rewrite scan_written; [|done|intros i Hi; apply Hrec; lia].
  rewrite scan_erased.
  - cbn. rewrite zrange_length. do 2 f_equal; [lia|]. unfold free_index, METADATA_RECORD_COUNT.
    destruct (Z.eqb_spec (zlen rs) 16) as [->|]; [done|]. by rewrite zrange_cons by lia.
  - apply List.Forall_forall. intros i Hi%in_zrange. split; [|lia].
    rewrite metadata_record_eq, Hrec by lia.
    rewrite lookup_ge_None_2 by (unfold zlen in *; lia). apply erased_record_erased.
Qed.

Lemma summary_payload_journal s rs :
  flash_journal (sim_flash s) rs → metadata_summary_payload s = Ok (journal_payload rs).
Proof.
  intros Hf. unfold metadata_summary_payload, journal_payload.
  change (mkScan 0 0 0xFFFF None None []) with scan_start. rewrite (flash_journal_scan s rs Hf).
  cbn [sc_erased sc_invalid sc_first_free sc_latest sc_latest_image sc_valid_records].
  destruct (js_image (journal_state rs)) as [image|] eqn:Ei; [|done].
  destruct (journal_counts rs image (fj_journal _ _ Hf) Ei) as [Ha Hc].
  unfold attempts_about, confirmed_about in *. rewrite Ha, Hc.
  destruct (last rs) as [r|] eqn:El; [by rewrite (last_default rs r El)|].
  apply last_None in El as ->. done.
Qed.

Definition summary_of (rs : list (list Z)) : MetadataSummary :=
  let st := journal_state rs in
  let image := default (replicate 64 0) (js_image st) in
  let present := bool_decide (is_Some (js_image st)) in
  mkMetadataSummary
    (if present then 1 else 0) (if present then 1 else 0)
    (if present then kind_of (List.last rs []) else 0) (js_attempts st)
    (if js_confirmed st then 1 else 0) 3
    (at_ image 20) (at_ image 21) (at_ image 22) (rec32 image 23)
    (rec32 image 14) (rec32 image 18) (if present then 1 else 0)
    (if present then zlen rs else 0) 0 (16 - zlen rs) (16 - zlen rs) (free_index rs)
    (rec32 image 16) (at_ image 25) (at_ image 26).

Lemma journal_payload_words rs :
  journal rs → zlen rs <= METADATA_RECORD_COUNT →
  Forall u16 (journal_payload rs) ∧ zlen (journal_payload rs) = METADATA_SUMMARY_WORDS.
Proof.
  intros Hj Hl. unfold METADATA_RECORD_COUNT in Hl. pose proof (zlen_nonneg rs).
  assert (u16 (free_index rs)) as Hf.
  { unfold free_index, METADATA_RECORD_COUNT, u16. case_match; lia. }
  assert (u16 (16 - zlen rs) ∧ u16 (zlen rs)) as [Hn Hn'] by (unfold u16; lia).
  pose proof (journal_bounds rs Hj) as (Ha & _). unfold METADATA_BOOT_ATTEMPT_LIMIT in Ha.
  unfold journal_payload. destruct (js_image (journal_state rs)) as [image|] eqn:Ei.
  - destruct (js_image_in _ _ Ei) as [Hin _]. destruct (journal_words rs image Hj Hin) as [Hw _].
    assert (∀ i, u16 (at_ image i)) as Hat by (intros; by apply at_u16).
    assert (u16 (kind_of (List.last rs []))) as Hk.
    { unfold kind_of. apply at_u16. destruct (last rs) as [r|] eqn:El.
      - rewrite (last_default rs r El). apply last_Some in El as [rs' ->].
        apply (journal_words _ r Hj), elem_of_snoc.
      - apply last_None in El as ->. constructor. }
    assert (u16 (js_attempts (journal_state rs))) as Hat' by (unfold u16; lia).
    split; [|done]. cbn [app]. rewrite !Forall_cons.
    split_and!; try apply Hat; try done; destruct (js_confirmed (journal_state rs)); done.
  - split; [|done]. cbn [app]. rewrite !Forall_cons. split_and!; done.
Qed.

Lemma from_words_journal rs :
  journal rs → zlen rs <= METADATA_RECORD_COUNT →
  MetadataSummary_from_words (journal_payload rs) = Ok (summary_of rs).
Proof.
  intros Hj Hlen. destruct (journal_payload_words rs Hj Hlen) as [Hu Hl].
  unfold MetadataSummary_from_words. rewrite check_words_u16 by done.
  pose proof (journal_bounds rs Hj) as (_ & _ & Hnone).
  unfold journal_payload, summary_of. destruct (js_image (journal_state rs)) as [image|] eqn:Ei.
  - rewrite bool_decide_true by done. at_simpl. done.
  - destruct (Hnone eq_refl) as [-> ->]. rewrite bool_decide_false by by intros [].
    at_simpl. done.
Qed.

Lemma summary_journal s rs :
  flash_journal (sim_flash s) rs → sim_summary s = Ok (summary_of rs).
Proof.
  intros Hf. unfold sim_summary. rewrite (summary_payload_journal s rs Hf).
  rewrite <-(from_words_journal rs (fj_journal _ _ Hf) (fj_length _ _ Hf)). reflexivity.
Qed.

(** ** Writing records *)

Lemma close_record_ok head :
  zlen head = 29 → Forall u16 head →
  ∃ r, close_record head = Ok r ∧ zlen r = METADATA_RECORD_WORDS ∧ Forall u16 r ∧
    crc32_words (slice r 0 62) = Ok (rec32 r 62) ∧ (∀ i, 0 <= i < 29 → at_ r i = at_ head i).
Proof.
  intros Hl Hu. unfold close_record, METADATA_RECORD_WORDS.
  set (body := head ++ replicate 33 0xFFFF).
  assert (zlen body = 62) as Hbl by (unfold body; rewrite zlen_app, zlen_replicate; lia).
  assert (Forall u16 body) as Hbu.
  { apply Forall_app. split; [done|]. apply Forall_replicate. done. }
  destruct (crc32_words_u32 body Hbu) as (c & Ec & Hc). rewrite Ec.
  destruct (join_split_u32 c Hc) as (lo & hi & -> & Hlo & Hhi & Hj).
  eexists. split; [reflexivity|]. split; [by rewrite zlen_app, Hbl|]. split.
  { apply Forall_app. auto. }
  split.
  - rewrite slice_0_app by done. rewrite Ec. f_equal. unfold rec32.
    rewrite !at_app_r by lia. rewrite Hbl. rewrite <-Hj. done.
  - intros i Hi. rewrite at_app_l by lia. unfold body. by rewrite at_app_l by lia.
Qed.

(** A record closed over a head with the fixed words in place. *)
Lemma head_record_ok kind n head r :
  close_record head = Ok r → zlen head = 29 → Forall u16 head →
  at_ head 0 = METADATA_MAGIC0 → at_ head 1 = METADATA_MAGIC1 →
  at_ head 2 = METADATA_RECORD_VERSION → at_ head 3 = METADATA_RECORD_WORDS →
  at_ head 4 = MetadataRecordType.MetadataRecordType_value kind →
  rec32 head 5 = n → at_ head 7 = BootSlot.BootSlot_value BootSlot.SLOT_A →
  record_ok kind n r ∧ (∀ i, 0 <= i < 29 → at_ r i = at_ head i).
Proof.
  intros E Hl Hu H0 H1 H2 H3 H4 H5 H7.
  destruct (close_record_ok head Hl Hu) as (r' & E' & Hrl & Hru & Hcrc & Hat).
  rewrite E in E'. injection E' as <-. split; [|done].
  split; try done; unfold kind_of, sequence_of, rec32 in *; rewrite !Hat by lia; done.
Qed.

Lemma build_image_valid_record_ok payload n device :
  Forall u16 payload → u32 n → DeviceInfo_ok device →
  ∃ r, build_image_valid_record payload n device = Ok r ∧
    record_ok MetadataRecordType.IMAGE_VALID n r ∧
    (∀ i, 14 <= i <= 19 → at_ r i = at_ payload (i - 12)).
Proof.
  intros Hp Hn Hd. unfold build_image_valid_record.
  destruct (join_split_u32 n Hn) as (lo & hi & -> & Hlo & Hhi & Hj).
  rewrite split_u32_ok by (unfold u32, APP_FLASH_START, SLOT_A_APP_START; lia).
  assert (∀ i, u16 (at_ payload i)) as Hat by (intros; by apply at_u16).
  pose proof (di_ok16 _ Hd) as H16. unfold DeviceInfo_fields16 in H16. rewrite !Forall_cons in H16.
  cbn in H16. destruct_and?.
  match goal with |- context [close_record ?h] => set (head := h) end.
  assert (Forall u16 head) as Hu.
  { unfold head. rewrite !Forall_cons. split_and!; try done; try apply Hat;
      unfold u16, APP_FLASH_START, SLOT_A_APP_START; vm_compute; intuition discriminate. }
  destruct (close_record_ok head eq_refl Hu) as (r & E & _).
  destruct (head_record_ok MetadataRecordType.IMAGE_VALID n head r E eq_refl Hu) as [Hr Hri]; try done.
  exists r. split; [done|]. split; [done|]. intros i Hi. rewrite Hri by lia.
  assert (i = 14 ∨ i = 15 ∨ i = 16 ∨ i = 17 ∨ i = 18 ∨ i = 19) as Hc by lia.
  by destruct Hc as [->|[->|[->|[->|[->| ->]]]]].
Qed.

Lemma rec32_split image i :
  Forall u16 image → split_u32 (rec32 image i) = Ok (at_ image i, at_ image (i + 1)).
Proof. intros H. apply split_join_u32; by apply at_u16. Qed.

Lemma rk_slot_image rs image :
  journal rs → image ∈ rs → at_ image 7 = BootSlot.BootSlot_value BootSlot.SLOT_A.
Proof.
  intros Hj [i Hi]%list_elem_of_lookup. destruct (journal_record rs i image Hj Hi) as [kind Hr].
  apply Hr.
Qed.

(** The records built from the summary of a journal are about its latest image. *)
Lemma summary_record_ok kind rs image count n :
  journal rs → zlen rs <= METADATA_RECORD_COUNT →
  js_image (journal_state rs) = Some image → u16 count → u32 n →
  ∃ r, summary_record kind count (summary_of rs) n = Ok r ∧ record_ok kind n r ∧
    matches_image image r = true ∧ at_ r 28 = count.
Proof.
  intros Hj Hl Hi Hc Hn. destruct (js_image_in _ _ Hi) as [Hin _].
  destruct (journal_words rs image Hj Hin) as [Hw _].
  assert (∀ i, u16 (at_ image i)) as Hat by (intros; by apply at_u16).
  unfold summary_record, summary_of. rewrite Hi. cbn -[split_u32 close_record].
  destruct (join_split_u32 n Hn) as (lo & hi & -> & Hlo & Hhi & Hjn).
  rewrite !(split_u32_ok APP_FLASH_START), !(split_u32_ok APP_FLASH_END_EXCLUSIVE)
    by (unfold u32, APP_FLASH_START, SLOT_A_APP_START, APP_FLASH_END_EXCLUSIVE,
          SLOT_A_APP_END_EXCLUSIVE; lia).
  rewrite !rec32_split by done.
  match goal with |- context [close_record ?h] => set (head := h) end.
  assert (Forall u16 head) as Hu.
  { unfold head. rewrite !Forall_cons. split_and!; try done; try apply Hat;
      try (unfold u16; vm_compute; intuition discriminate). by destruct kind. }
  destruct (close_record_ok head eq_refl Hu) as (r & E & _).
  destruct (head_record_ok kind n head r E eq_refl Hu) as [Hr Hri]; try done.
  exists r. split; [done|]. split; [done|]. split; [|by rewrite Hri by lia].
  unfold matches_image. rewrite !Hri by lia. rewrite (rk_slot_image rs image Hj Hin).
  by rewrite !Z.eqb_refl.
Qed.

(** ** Where the next record goes *)

Lemma find_after {A} (f : A → bool) l x k :
  Forall (λ y, f y = false) l → f x = true → List.find f (l ++ x :: k) = Some x.
Proof. intros H Hx. induction H as [|y l Hy _ IH]; simpl; [by rewrite Hx|by rewrite Hy]. Qed.

Lemma find_none {A} (f : A → bool) l : Forall (λ y, f y = false) l → List.find f l = None.
Proof. induction 1 as [|y l Hy _ IH]; simpl; [done|by rewrite Hy]. Qed.

Lemma record_erased_iff s rs i :
  flash_journal (sim_flash s) rs → 0 <= i < METADATA_RECORD_COUNT →
  metadata_erased (metadata_record s i) = bool_decide (zlen rs <= i).
Proof.
  intros [Hj Hl Hrec] Hi. rewrite metadata_record_eq, Hrec by done.
  case_bool_decide.
  - rewrite lookup_ge_None_2 by (unfold zlen in *; lia). apply erased_record_erased.
  - destruct (lookup_lt_is_Some_2 rs (Z.to_nat i)) as [r Hr]; [unfold zlen in *; lia|].
    rewrite Hr. destruct (journal_record rs _ r Hj Hr) as [kind Hok].
    by eapply record_not_erased.
Qed.

Lemma written_not_erased s rs :
  flash_journal (sim_flash s) rs →
  Forall (λ i, metadata_erased (metadata_record s i) = false) (zrange 0 (zlen rs)).
Proof.
  intros Hf. pose proof (fj_length _ _ Hf). apply List.Forall_forall. intros i Hi%in_zrange.
  rewrite (record_erased_iff s rs) by (done || lia). rewrite bool_decide_false by lia. done.
Qed.

Lemma first_free_journal s rs :
  flash_journal (sim_flash s) rs →
  first_free_record s = if zlen rs <? METADATA_RECORD_COUNT then Some (zlen rs) else None.
Proof.
  intros Hf. unfold first_free_record. pose proof (written_not_erased s rs Hf) as Hw.
  pose proof (fj_length _ _ Hf) as Hl. pose proof (zlen_nonneg rs).
  unfold METADATA_RECORD_COUNT in *. destruct (Z.ltb_spec (zlen rs) 16).
  - rewrite (zrange_app 0 (zlen rs)), (zrange_cons (zlen rs)) by lia. apply find_after; [done|].
    rewrite (record_erased_iff s rs) by (done || unfold METADATA_RECORD_COUNT; lia).
    by rewrite bool_decide_true by lia.
  - replace 16 with (zlen rs) by lia. by apply find_none.
Qed.

Lemma zmax_list_snoc l x : 0 <= x → Forall (λ y, 0 <= y) l → zmax_list (l ++ [x]) = Z.max (zmax_list l) x.
Proof.
  intros Hx Hl. destruct l as [|y l]; simpl; [lia|]. by rewrite foldl_app.
Qed.

Lemma zmax_count n : zmax_list (map (λ i, i + 1) (zrange 0 (Z.of_nat n))) = Z.of_nat n.
Proof.
  induction n as [|n IH]; [done|]. rewrite Nat2Z.inj_succ, <-Z.add_1_r, zrange_snoc, map_app by lia.
  simpl map. rewrite zmax_list_snoc; [|lia|].
  - rewrite IH. lia.
  - apply List.Forall_forall. intros x (i & <- & Hi%in_zrange)%in_map_iff. lia.
Qed.

Lemma filter_split {A} (f : A → bool) l k :
  Forall (λ x, f x = true) l → Forall (λ x, f x = false) k → List.filter f (l ++ k) = l.
Proof.
  intros Hl Hk. rewrite List.filter_app. rewrite (filter_none f k), app_nil_r.
  - induction Hl as [|x l Hx _ IH]; simpl; [done|]. by rewrite Hx, IH.
  - intros x Hx. by eapply (proj1 (List.Forall_forall _ _) Hk), list_elem_of_In.
Qed.

Lemma next_sequence_journal s rs :
  flash_journal (sim_flash s) rs → next_record_sequence s = zlen rs + 1.
Proof.
  intros Hf. unfold next_record_sequence. pose proof (fj_length _ _ Hf). pose proof (zlen_nonneg rs).
  unfold METADATA_RECORD_COUNT in *. rewrite (zrange_app 0 (zlen rs)) by lia.
  rewrite filter_split.
  - rewrite (map_ext_in _ (λ i, i + 1)).
    + unfold zlen. rewrite zmax_count. lia.
    + intros i Hi%in_zrange. destruct Hf as [Hj Hl Hrec]. rewrite metadata_record_eq, Hrec
        by (unfold METADATA_RECORD_COUNT; lia).
      destruct (lookup_lt_is_Some_2 rs (Z.to_nat i)) as [r Hr]; [unfold zlen in *; lia|].
      rewrite Hr. destruct (journal_record rs _ r Hj Hr) as [kind Hok].
      change (rec32 (default erased_record (Some r)) 5) with (sequence_of r).
      rewrite (rk_sequence _ _ _ Hok). lia.
  - eapply Forall_impl; [by apply (written_not_erased s rs)|]. by intros i ->.
  - apply List.Forall_forall. intros i Hi%in_zrange.
    rewrite (record_erased_iff s rs) by (done || unfold METADATA_RECORD_COUNT; lia).
    by rewrite bool_decide_true by lia.
Qed.

(** ** Effects on the journal *)

Lemma flash_journal_append m rs r :
  flash_journal m rs → zlen rs < METADATA_RECORD_COUNT → journal (rs ++ [r]) →
  zlen r = METADATA_RECORD_WORDS →
  flash_journal (write_words (record_base (zlen rs)) r m) (rs ++ [r]).
Proof.
  intros [Hj Hl Hrec] Hlt Hjr Hr. split; [done|rewrite zlen_app; unfold zlen in *; simpl; lia|].
  intros i Hi. unfold record_base, METADATA_RECORD_WORDS in *. destruct (decide (i = zlen rs)) as [->|].
  - pose proof (read_write_words (SLOT_A_METADATA_START + zlen rs * 64) r m) as Hrw.
    rewrite Hr in Hrw. rewrite Hrw. unfold zlen. by rewrite Nat2Z.id, list_lookup_middle.
  - rewrite read_write_words_other by lia. rewrite Hrec by done. f_equal. symmetry.
    destruct (decide (i < zlen rs)).
    + apply lookup_app_l. unfold zlen in *. lia.
    + rewrite !lookup_ge_None_2; [done|unfold zlen in *; lia|].
      rewrite length_app. unfold zlen in *. simpl. lia.
Qed.

(** Changes outside the metadata area leave the journal alone. *)
Lemma flash_journal_outside m m' rs :
  flash_journal m rs → (∀ a, SLOT_A_METADATA_START <= a < SLOT_A_METADATA_END → m' !! a = m !! a) →
  flash_journal m' rs.
Proof.
  intros [Hj Hl Hrec] Hm. split; [done|done|]. intros i Hi. rewrite <-Hrec by done.
  apply read_words_ext. intros a Ha. apply Hm.
  unfold record_base, METADATA_RECORD_WORDS, METADATA_RECORD_COUNT, SLOT_A_METADATA_START,
    SLOT_A_METADATA_END in *. lia.
Qed.

(** An empty metadata area is the empty journal. *)
Lemma flash_journal_erased m :
  (∀ a, SLOT_A_METADATA_START <= a < SLOT_A_METADATA_END → m !! a = None) → flash_journal m [].
Proof.
  intros Hm. split; [constructor|done|]. intros i Hi.
  transitivity (read_words ∅ (record_base i) METADATA_RECORD_WORDS); [|done].
  apply read_words_ext. intros a Ha. rewrite lookup_empty. apply Hm.
  unfold record_base, METADATA_RECORD_WORDS, METADATA_RECORD_COUNT, SLOT_A_METADATA_START,
    SLOT_A_METADATA_END in *. lia.
Qed.

(** A Flash contents has one journal. *)
Lemma flash_journal_shorter m rs rs' :
  flash_journal m rs → flash_journal m rs' → zlen rs <= zlen rs' → rs = rs'.
Proof.
  intros [Hj Hl Hr] [Hj' Hl' Hr'] Hle. pose proof (zlen_nonneg rs).
  assert (zlen rs = zlen rs') as Heq.
  { destruct (decide (zlen rs < zlen rs')) as [Hlt|]; [exfalso|lia].
    assert (0 <= zlen rs < METADATA_RECORD_COUNT) as Hi by lia.
    pose proof (Hr _ Hi) as H1. rewrite (Hr' _ Hi) in H1.
    rewrite (lookup_ge_None_2 rs) in H1 by (unfold zlen; lia).
    destruct (lookup_lt_is_Some_2 rs' (Z.to_nat (zlen rs))) as [r Hr2]; [unfold zlen in *; lia|].
    rewrite Hr2 in H1. destruct (journal_record rs' _ r Hj' Hr2) as [kind Hk].
    pose proof (record_not_erased _ _ _ Hk) as Hne. cbn in H1. subst r. discriminate. }
  apply list_eq. intros i. destruct (decide (i < length rs)%nat) as [Hi|Hi].
  - assert (0 <= Z.of_nat i < METADATA_RECORD_COUNT) as Hi' by (unfold zlen in *; lia).
    pose proof (Hr _ Hi') as H1. rewrite (Hr' _ Hi'), Nat2Z.id in H1.
    destruct (lookup_lt_is_Some_2 rs i) as [r Er]; [done|].
    destruct (lookup_lt_is_Some_2 rs' i) as [r' Er']; [unfold zlen in *; lia|].
    rewrite Er, Er' in *. cbn in H1. congruence.
  - rewrite !lookup_ge_None_2; [done|unfold zlen in *; lia..].
Qed.

Lemma flash_journal_unique m rs rs' : flash_journal m rs → flash_journal m rs' → rs = rs'.
Proof.
  intros H H'. destruct (decide (zlen rs <= zlen rs')).
  - by eapply flash_journal_shorter.
  - symmetry. eapply flash_journal_shorter; eauto. lia.
Qed.
