(* ===== verification/SimulatorProofs.v ===== *)
(** The contract of the simulator and the proofs for its first handlers. *)

(** * What the simulator promises

    [Sim_ok] is the invariant of the simulator, [answers] the contract
    of every response, [rejected] what an error response leaves unchanged, and
    [effect] what a request answered with [OK] has done, command by command.
    SimulatorProofs.v shows that [sim_transact] implements this specification. *)

From S2P Require Import Prelude.
From S2P Require Import Errors.
From S2P Require Import Constants.
From S2P Require Import Words.
From S2P Require Import Frame.
From S2P Require Import Resync.
From S2P Require Import Models.
From S2P Require Import Firmware.
From S2P Require Import Packets.
From S2P Require Import Simulator.
From S2P Require Import Journal.

(** ** The invariant *)

Record ram_session_ok (se : Session) : Prop := {
  rs_crc_words : Forall u16 (se_crc_words se);
  rs_blocks : u16 (se_block_count se);
  rs_total : u32 (se_total_words se);
  rs_entry : u32 (se_entry_point se);
  rs_index : se_expected_index se = se_packet_count se;
  rs_count : 0 <= se_packet_count se <= se_block_count se;
  rs_received : se_received_words se = zlen (se_crc_words se);
  rs_fits : se_received_words se <= se_total_words se;
}.

(** The metadata area is not cut by a sector boundary. *)
Definition sector_whole (s : FlashSector) : Prop :=
  fs_end_exclusive s <= SLOT_A_METADATA_START ∨ SLOT_A_METADATA_END <= fs_start s ∨
  (fs_start s <= SLOT_A_METADATA_START ∧ SLOT_A_METADATA_END <= fs_end_exclusive s).

Record Sim_ok (s : SimulatorCore) : Prop := {
  so_info : DeviceInfo_ok (sim_device_info s);
  so_packet : 0 < di_max_data_words (sim_device_info s) ∧
    di_max_data_words (sim_device_info s) mod 8 = 0;
  so_sectors : Forall sector_whole (sim_sectors s);
  so_error : ErrorDetail_ok (sim_last_error s);
  so_flash : map_Forall (λ _ w, u16 w) (sim_flash s);
  so_ram : map_Forall (λ _ w, u16 w) (sim_ram s);
  so_programmed : ∀ a, a ∈ sim_programmed s →
    is_Some (sim_flash s !! a) ∧ APP_FLASH_START <= a < APP_FLASH_END_EXCLUSIVE;
  so_ram_session : ∀ se, sim_ram_load_session s = Some se → ram_session_ok se;
  so_ram_loaded : ∀ se, sim_ram_loaded s = Some se → ram_session_ok se;
  so_caps : u32 (sim_service_capabilities s);
  so_service_crc : u32 (sim_service_loaded_crc32 s);
  so_service_words : u32 (sim_service_loaded_words s);
  so_attached : sim_service_state s = ServiceState.ATTACHED →
    Z.land (sim_service_capabilities s) SERVICE_REQUIRED_CAPABILITIES = SERVICE_REQUIRED_CAPABILITIES;
  so_detached : sim_service_state s <> ServiceState.ATTACHED → sim_service_capabilities s = 0;
  so_journal : ∃ rs, flash_journal (sim_flash s) rs;
}.

(** ** Responses *)

Record answers (request f : Frame) : Prop := {
  an_ok : Frame_ok f;
  an_command : fr_command f = fr_command request;
  an_sequence : fr_sequence f = fr_sequence request;
  an_flags : fr_flags f = 0;
  an_version : fr_protocol_version f = PROTOCOL_VERSION;
  an_type : fr_packet_type f =
    (if fr_status f =? Status.OK then PacketType.PacketType_value PacketType.RESPONSE
     else PacketType.PacketType_value PacketType.ERROR_RESPONSE);
  an_payload : fr_status f <> Status.Status_value Status.OK → fr_payload f = [];
}.

(** ** Frame conditions *)

Definition same_config (s s' : SimulatorCore) : Prop :=
  sim_sectors s' = sim_sectors s ∧ sim_device_info s' = sim_device_info s ∧
  sim_faults s' = sim_faults s ∧ sim_require_service s' = sim_require_service s.
Definition keeps_flash (s s' : SimulatorCore) : Prop :=
  sim_flash s' = sim_flash s ∧ sim_programmed s' = sim_programmed s.
Definition keeps_ram (s s' : SimulatorCore) : Prop := sim_ram s' = sim_ram s.
Definition keeps_verified (s s' : SimulatorCore) : Prop :=
  sim_verify_succeeded s' = sim_verify_succeeded s.
Definition keeps_action (s s' : SimulatorCore) : Prop :=
  sim_pending_action s' = sim_pending_action s.

(** An error response: no memory changed, no action pending that was not, no
    verification gained, no service attached. *)
Definition rejected (s s' : SimulatorCore) : Prop :=
  keeps_flash s s' ∧ keeps_ram s s' ∧ keeps_action s s' ∧
  (sim_verify_succeeded s' = true → sim_verify_succeeded s = true) ∧
  (sim_service_state s' = ServiceState.ATTACHED ↔ sim_service_state s = ServiceState.ATTACHED).

(** ** Effects *)

(** The journal conditions under which the application may be started. *)
Definition runnable (m : memory) (entry_point : Z) : Prop :=
  ∃ rs image, flash_journal m rs ∧ js_image (journal_state rs) = Some image ∧
    rec32 image 14 = entry_point ∧
    (js_confirmed (journal_state rs) = true ∨
     1 <= js_attempts (journal_state rs) <= METADATA_BOOT_ATTEMPT_LIMIT).

(** What METADATA_APPEND_RECORD does to the journal. *)
Definition appended (request : Frame) (s s' : SimulatorCore) : Prop :=
  ∃ rs rs', flash_journal (sim_flash s) rs ∧ flash_journal (sim_flash s') rs' ∧
    (∀ a, ¬ (SLOT_A_METADATA_START <= a < SLOT_A_METADATA_END) →
      sim_flash s' !! a = sim_flash s !! a) ∧
    if (pay request 0 =? MetadataRecordType.IMAGE_VALID) then
      sim_verify_succeeded s = true ∧ sim_verify_succeeded s' = false ∧
      ∃ r, rs' = rs ++ [r] ∧ journal_state rs' = mkJournalState (Some r) 0 false ∧
        rec32 r 14 = pay32 request 2 ∧ rec32 r 16 = pay32 request 4 ∧ rec32 r 18 = pay32 request 6
    else
      keeps_verified s s' ∧
      if js_confirmed (journal_state rs) then rs' = rs
      else journal_state rs' =
        mkJournalState (js_image (journal_state rs))
          (if (pay request 0 =? MetadataRecordType.BOOT_ATTEMPT)
           then js_attempts (journal_state rs) + 1 else js_attempts (journal_state rs))
          (pay request 0 =? MetadataRecordType.APP_CONFIRMED).

Definition effect (command : Command.Command_t) (request : Frame) (s : SimulatorCore)
    (f : Frame) (s' : SimulatorCore) : Prop :=
  match command with
  | Command.PING | Command.GET_DEVICE_INFO | Command.GET_PROTOCOL_INFO | Command.GET_LAST_ERROR
  | Command.GET_SERVICE_STATUS | Command.GET_METADATA_SUMMARY => s' = s
  | Command.MEMORY_READ =>
      s' = s ∧ fr_payload f = [pay request 0; pay request 1; pay request 2] ++
        map (λ i, default (read_word (sim_flash s) (pay32 request 0 + i))
                    (sim_ram s !! (pay32 request 0 + i))) (zrange 0 (pay request 2))
  | Command.SERVICE_ATTACH =>
      keeps_flash s s' ∧ keeps_ram s s' ∧ keeps_verified s s' ∧ keeps_action s s'
  | Command.RAM_LOAD_BEGIN | Command.RAM_LOAD_END | Command.RAM_CHECK_CRC =>
      keeps_flash s s' ∧ keeps_ram s s' ∧ keeps_verified s s' ∧ keeps_action s s'
  | Command.RAM_LOAD_DATA =>
      keeps_flash s s' ∧ keeps_verified s s' ∧ keeps_action s s'
  | Command.RUN_RAM =>
      keeps_flash s s' ∧ keeps_ram s s' ∧ keeps_verified s s' ∧ sim_pending_action s' = RUN_RAM ∧
      sim_ram_crc_ok s = true
  | Command.ERASE =>
      let selected := selected_sectors s (pay32 request 0) in
      (∀ a, sim_flash s' !! a = if in_sectors selected a then None else sim_flash s !! a) ∧
      (∀ a, a ∈ sim_programmed s' ↔ a ∈ sim_programmed s ∧ in_sectors selected a = false) ∧
      keeps_ram s s' ∧ keeps_action s s' ∧ sim_verify_succeeded s' = false ∧
      sim_program_session s' = None ∧ sim_verify_session s' = None
  | Command.PROGRAM_BEGIN | Command.VERIFY_BEGIN =>
      keeps_flash s s' ∧ keeps_ram s s' ∧ keeps_verified s s' ∧ keeps_action s s'
  | Command.PROGRAM_DATA =>
      let address := pay32 request 0 in
      let data := slice_from (fr_payload request) 5 in
      let range a := address <= a < address + zlen data in
      sim_flash s' = write_words address data (sim_flash s) ∧
      (∀ a, a ∈ sim_programmed s' ↔ range a ∨ a ∈ sim_programmed s) ∧
      (∀ a, range a → (a ∉ sim_programmed s) ∧ SLOT_A_APP_START <= a < SLOT_A_APP_END_EXCLUSIVE ∧
        ¬ (SLOT_A_METADATA_START <= a < SLOT_A_METADATA_END)) ∧
      keeps_ram s s' ∧ keeps_action s s' ∧ sim_verify_succeeded s' = false
  | Command.PROGRAM_END =>
      keeps_flash s s' ∧ keeps_ram s s' ∧ keeps_action s s' ∧ sim_verify_succeeded s' = false
  | Command.VERIFY_DATA =>
      keeps_flash s s' ∧ keeps_ram s s' ∧ keeps_verified s s' ∧ keeps_action s s' ∧
      ∀ i, 0 <= i < payload_len request - 5 →
        read_word (sim_flash s) (pay32 request 0 + i) = pay request (5 + i)
  | Command.VERIFY_END =>
      keeps_flash s s' ∧ keeps_ram s s' ∧ keeps_action s s' ∧ sim_verify_succeeded s' = true
  | Command.METADATA_APPEND_RECORD =>
      appended request s s' ∧ sim_programmed s' = sim_programmed s ∧ keeps_ram s s' ∧
      keeps_action s s'
  | Command.RUN =>
      keeps_flash s s' ∧ keeps_ram s s' ∧ keeps_verified s s' ∧ sim_pending_action s' = RUN_APP ∧
      runnable (sim_flash s) (pay32 request 1)
  | Command.RESET =>
      keeps_flash s s' ∧ keeps_ram s s' ∧ keeps_verified s s' ∧
      sim_pending_action s' = RESET_DEVICE
  end.

(** Whether a RAM_LOAD_DATA packet touches the area of the Flash service. *)
Definition overlaps_service (request : Frame) : bool :=
  (pay32 request 0 <? FLASH_SERVICE_END_EXCLUSIVE)
  && (pay32 request 0 + pay request 2 >? FLASH_SERVICE_START).

(** What becomes of the service attachment. *)
Definition service_effect (command : Command.Command_t) (request : Frame) (s s' : SimulatorCore)
    : Prop :=
  match command with
  | Command.SERVICE_ATTACH => sim_ram_crc_ok s = true ∧ sim_service_state s' = ServiceState.ATTACHED
  | Command.RAM_LOAD_DATA =>
      sim_service_state s' =
        (if overlaps_service request then ServiceState.DETACHED else sim_service_state s)
  | _ => sim_service_state s' = sim_service_state s
  end.

(** The outcome of a request whose command is [command]. *)
Definition outcome (command : Command.Command_t) (request : Frame) (s : SimulatorCore)
    (f : Frame) (s' : SimulatorCore) : Prop :=
  Sim_ok s' ∧ same_config s s' ∧ answers request f ∧
  if (fr_status f =? Status.OK)
  then effect command request s f s' ∧ service_effect command request s s' else rejected s s'.

(** No exception escapes. *)
Definition never : Exn → SimulatorCore → Prop := λ _ _, False.

(** * The simulator implements its specification

    One lemma per handler, each by symbolic execution under [wp]: accepted
    requests have the command's [effect], refused ones are [rejected], the
    invariant survives, and no exception escapes. *)

(** ** Responses *)

Definition response (request : Frame) (status : Status.Status_t) (payload : list Z) : Frame :=
  mkFrame (if Status.Status_value status =? Status.OK
           then PacketType.PacketType_value PacketType.RESPONSE
           else PacketType.PacketType_value PacketType.ERROR_RESPONSE)
    (fr_command request) (fr_sequence request) payload 0 (Status.Status_value status)
    PROTOCOL_VERSION.

Lemma status_u16 (st : Status.Status_t) : u16 (Status.Status_value st).
Proof. by destruct st. Qed.

Lemma response_frame_ok request st payload :
  Frame_ok request → Forall u16 payload → zlen payload <= 0xFFFF →
  Frame_ok (response request st payload).
Proof.
  intros [] Hp Hl. split; cbn; try done; [|apply status_u16].
  by destruct (Status.Status_value st =? _).
Qed.

Lemma response_answers request st payload :
  Frame_ok request → Forall u16 payload → zlen payload <= 0xFFFF →
  (st = Status.OK ∨ payload = []) → answers request (response request st payload).
Proof.
  intros Hr Hp Hl Hst. split; try done; [by apply response_frame_ok|].
  cbn. intros Hne. destruct Hst as [->|]; done.
Qed.

Lemma wp_response request st payload (Q : Frame → SimulatorCore → Prop) s :
  Frame_ok request → Forall u16 payload → zlen payload <= 0xFFFF →
  Q (response request st payload) s → wp (sim_response request st payload) Q never s.
Proof.
  intros Hr Hp Hl HQ. unfold sim_response. apply wp_lift; intros x E.
  - apply Frame_init_ok in E as [-> _]. unfold response in HQ.
    destruct (Status.Status_value st =? Status.OK); exact HQ.
  - exfalso. pose proof (response_frame_ok request st payload Hr Hp Hl) as Hok.
    unfold response in Hok. destruct (Status.Status_value st =? Status.OK);
      rewrite (proj2 (Frame_init_ok _ _ _ _ _ _ _ _) (conj eq_refl Hok)) in E; done.
Qed.

Lemma Sim_ok_error e s : Sim_ok s → ErrorDetail_ok e → Sim_ok (set_last_error e s).
Proof. intros [] He. by split. Qed.

Lemma response_status_ok st request payload :
  fr_status (response request st payload) = Status.Status_value Status.OK → st = Status.OK.
Proof. by destruct st. Qed.

Lemma wp_refuse request st operation stage address length_words extra0 s0 s :
  Sim_ok s → same_config s0 s → rejected s0 s → Frame_ok request →
  u32 address → u32 length_words → u16 extra0 →
  wp (sim_fail_at request st operation stage address length_words extra0)
    (λ f s', f = response request st [] ∧ Sim_ok s' ∧ same_config s0 s' ∧ rejected s0 s') never s.
Proof.
  intros Hok Hcfg Hrej Hr Ha Hl He. unfold sim_fail_at. apply wp_bind, wp_if; intros _.
  - by apply wp_ret, wp_response.
  - apply wp_bind, wp_lift; intros x E.
    + apply ErrorDetail_post_init_ok in E as [-> Hx]. apply wp_modify, wp_response; try done.
      split; [done|]. split; [by apply Sim_ok_error|done].
    + exfalso. assert (ErrorDetail_ok (mkErrorDetail (ErrorOperation.ErrorOperation_value operation)
        (ErrorStage.ErrorStage_value stage) address length_words 0 0 extra0 0)) as Hx.
      { split; unfold ErrorDetail_fields16, ErrorDetail_fields32; rewrite !Forall_cons; cbn;
          split_and!; try done; [by destruct operation|by destruct stage]. }
      by rewrite (proj2 (ErrorDetail_post_init_ok _ _) (conj eq_refl Hx)) in E.
Qed.

(** The outcome of a refused request, whatever its command. *)
Definition refused (request : Frame) (s0 : SimulatorCore) (f : Frame) (s : SimulatorCore) : Prop :=
  fr_status f <> Status.Status_value Status.OK ∧ answers request f ∧ Sim_ok s ∧
  same_config s0 s ∧ rejected s0 s.

Lemma refused_outcome command request s0 f s :
  refused request s0 f s → outcome command request s0 f s.
Proof.
  intros (Hst & Ha & Hok & Hcfg & Hrej). split; [done|]. split; [done|]. split; [done|].
  by replace (fr_status f =? Status.OK) with false by (symmetry; by apply Z.eqb_neq).
Qed.

Lemma wp_refused request st operation stage address length_words extra0 s0 s :
  Sim_ok s → same_config s0 s → rejected s0 s → Frame_ok request → st <> Status.OK →
  u32 address → u32 length_words → u16 extra0 →
  wp (sim_fail_at request st operation stage address length_words extra0)
    (refused request s0) never s.
Proof.
  intros Hok Hcfg Hrej Hr Hst Ha Hl He.
  eapply wp_conseq; [by apply (wp_refuse request st operation stage _ _ _ s0 s)| |done].
  intros f s' (-> & H1 & H2 & H3). split; [by intros ?%response_status_ok|].
  split; [apply response_answers; [done|constructor|done|by right]|done].
Qed.

Lemma wp_reject command request st operation stage address length_words extra0 s0 s :
  Sim_ok s → same_config s0 s → rejected s0 s → Frame_ok request → st <> Status.OK →
  u32 address → u32 length_words → u16 extra0 →
  wp (sim_fail_at request st operation stage address length_words extra0)
    (outcome command request s0) never s.
Proof.
  intros. eapply wp_conseq; [by apply (wp_refused request st operation stage _ _ _ s0 s)| |done].
  intros f s'. apply refused_outcome.
Qed.

Lemma wp_accept command request payload s0 s :
  Sim_ok s → same_config s0 s → Frame_ok request → Forall u16 payload → zlen payload <= 0xFFFF →
  effect command request s0 (response request Status.OK payload) s →
  service_effect command request s0 s →
  wp (sim_response request Status.OK payload) (outcome command request s0) never s.
Proof.
  intros Hok Hcfg Hr Hp Hl He Hs. apply wp_response; try done.
  split; [done|]. split; [done|]. split; [apply response_answers; try done; by left|]. by split.
Qed.

(** ** Automation *)

Lemma same_config_refl s : same_config s s.
Proof. done. Qed.
Lemma rejected_refl s : rejected s s.
Proof. done. Qed.
#[export] Hint Resolve same_config_refl rejected_refl : py.

Lemma pay_u16 request i : Frame_ok request → u16 (pay request i).
Proof. intros []. by apply at_u16. Qed.
Lemma pay32_u32 request i : Frame_ok request → u32 (pay32 request i).
Proof. intros H. apply join_u32_u32; by apply pay_u16. Qed.
#[export] Hint Resolve pay_u16 pay32_u32 : py.
#[export] Hint Extern 1 (u32 0) => exact (conj (Z.le_refl 0) eq_refl) : py.
#[export] Hint Extern 1 (u16 0) => exact (conj (Z.le_refl 0) eq_refl) : py.

Lemma u16_is_u32 z : u16 z → u32 z.
Proof. unfold u16, u32. lia. Qed.
#[export] Hint Resolve u16_is_u32 : py.

(** Close a goal [Sim_ok s'] where [s'] differs from a well-formed [s] in
    fields whose condition is easy. *)
Ltac sim_ok H := destruct H; split; simpl; try done.

(** A refusal without any change since the state [s0] of the invariant. *)
Ltac refuse :=
  unfold sim_fail; first [apply wp_reject|apply wp_refused]; [try done|try done|try done|done|discriminate|..];
  auto with py.

Ltac sim_step := first [ wp_step | progress cbn beta ].

Section handlers.
Context (request : Frame) (s : SimulatorCore).
Context (Hreq : Frame_ok request) (Hok : Sim_ok s).

Lemma wp_require_empty command operation :
  wp (require_empty request operation)
    (λ e s', match e with
             | Some f => outcome command request s f s'
             | None => s' = s
             end) never s.
Proof using Hreq Hok.
  unfold require_empty. apply wp_if; intros _; [|done]. apply wp_bind.
  eapply wp_conseq; [|intros f s' H; apply wp_ret; exact H|done].
  by refuse.
Qed.

(** The shape of the handlers that take no payload. *)
Lemma wp_after_empty command operation (k : Sim Frame) :
  wp k (outcome command request s) never s →
  wp (error <- require_empty request operation ;;
      match error with Some f => ret f | None => k end)
    (outcome command request s) never s.
Proof using Hreq Hok.
  intros Hk. apply wp_bind.
  eapply wp_conseq; [apply (wp_require_empty command)| |done].
  intros [f|] s'; [by intros ?|by intros ->].
Qed.

Lemma sim_ping_ok : wp (sim_ping request) (outcome Command.PING request s) never s.
Proof using Hreq Hok.
  apply wp_after_empty. by apply wp_accept.
Qed.

Lemma sim_get_device_info_ok :
  wp (sim_get_device_info request) (outcome Command.GET_DEVICE_INFO request s) never s.
Proof using Hreq Hok.
  apply wp_after_empty. apply wp_bind, wp_gets, wp_bind.
  destruct (DeviceInfo_to_words_ok _ (so_info s Hok)) as (ws & E & Hu & Hl).
  apply wp_lift; rewrite E; [|done]. intros ws' [= <-].
  apply wp_accept; try done. lia.
Qed.

Lemma sim_get_protocol_info_ok :
  wp (sim_get_protocol_info request) (outcome Command.GET_PROTOCOL_INFO request s) never s.
Proof using Hreq Hok.
  apply wp_after_empty. apply wp_bind, wp_gets.
  apply wp_accept; try done. unfold protocol_info. pose proof (di_ok16 _ (so_info s Hok)) as H.
  unfold DeviceInfo_fields16 in H. rewrite !Forall_cons in *. cbn in H. split_and!; try done; tauto.
Qed.

Lemma sim_get_last_error_ok :
  wp (sim_get_last_error request) (outcome Command.GET_LAST_ERROR request s) never s.
Proof using Hreq Hok.
  apply wp_after_empty. apply wp_bind, wp_gets, wp_bind.
  destruct (ErrorDetail_to_words_ok _ (so_error s Hok)) as (ws & E & Hu & Hl).
  apply wp_lift; rewrite E; [|done]. intros ws' [= <-].
  apply wp_accept; try done. lia.
Qed.

Lemma wp_split_u32 v (k : Z * Z → Sim Frame) Q :
  u32 v → (∀ lo hi, u16 lo → u16 hi → wp (k (lo, hi)) Q never s) →
  wp (p <- lift (split_u32 v) ;; k p) Q never s.
Proof using.
  intros Hv Hk. destruct (join_split_u32 v Hv) as (lo & hi & E & Hlo & Hhi & _).
  apply wp_bind, wp_lift; rewrite E; [|done]. intros p [= <-]. by apply Hk.
Qed.

Lemma sim_get_service_status_ok :
  wp (sim_get_service_status request) (outcome Command.GET_SERVICE_STATUS request s) never s.
Proof using Hreq Hok.
  apply wp_after_empty. apply wp_bind, wp_get.
  apply wp_split_u32; [apply Hok|]. intros. apply wp_split_u32; [apply Hok|]. intros.
  apply wp_split_u32; [apply Hok|]. intros. apply wp_accept; try done. cbn.
  rewrite !Forall_cons. split_and!; try done.
  - by destruct (sim_service_state s).
  - apply status_u16.
Qed.

Lemma sim_get_metadata_summary_ok :
  wp (sim_get_metadata_summary request) (outcome Command.GET_METADATA_SUMMARY request s) never s.
Proof using Hreq Hok.
  apply wp_after_empty. apply wp_bind, wp_get, wp_bind.
  destruct (so_journal s Hok) as [rs Hrs]. rewrite (summary_payload_journal s rs Hrs).
  destruct (journal_payload_words rs (fj_journal _ _ Hrs) (fj_length _ _ Hrs)) as [Hu Hl].
  apply wp_lift; [|done]. intros ws' [= <-]. apply wp_accept; try done.
  rewrite Hl. done.
Qed.

Lemma sim_reset_ok : wp (sim_reset request) (outcome Command.RESET request s) never s.
Proof using Hreq Hok.
  apply wp_after_empty. apply wp_bind, wp_modify. apply wp_accept; try done.
  sim_ok Hok.
Qed.

(** *** The Flash service *)

Lemma wp_service_fail st address :
  st <> Status.OK → u32 address →
  wp (service_fail request st address) (outcome Command.SERVICE_ATTACH request s) never s.
Proof using Hreq Hok.
  intros Hst Ha. unfold service_fail. apply wp_bind, wp_gets, wp_bind, wp_if; intros Hs.
  - apply negb_true_iff, bool_decide_eq_false in Hs.
    apply wp_modify, wp_bind, wp_modify, wp_reject; auto with py; try done.
    sim_ok Hok. auto.
  - apply wp_ret, wp_bind, wp_modify, wp_reject; auto with py; try done. sim_ok Hok.
Qed.

Lemma wp_crc32 ws (k : Z → Sim Frame) Q E s' :
  Forall u16 ws → (∀ c, u32 c → crc32_words ws = Ok c → wp (k c) Q E s') →
  wp (c <- lift (crc32_words ws) ;; k c) Q E s'.
Proof using.
  intros Hw Hk. destruct (crc32_words_u32 ws Hw) as (c & Ec & Hc).
  apply wp_bind, wp_lift; rewrite Ec; [|done]. intros c' [= <-]. auto.
Qed.

Lemma read_ram_words_u16 address count ws :
  read_ram_words s address count = Some ws → Forall u16 ws.
Proof using Hok.
  unfold read_ram_words, ram_tuple. intros H.
  destruct (sim_ram_loaded s) as [se|]; [|done].
  destruct (se_start se), (se_end_exclusive se); try done.
  destruct (_ || _); [done|]. apply mapM_Some in H.
  induction H as [|i w l ws Hw _ IH]; constructor; [|done]. by apply (so_ram s Hok) in Hw.
Qed.

Lemma sim_service_attach_ok :
  wp (sim_service_attach request) (outcome Command.SERVICE_ATTACH request s) never s.
Proof using Hreq Hok.
  assert (Hf : ∀ st a, st <> Status.OK → u32 a →
    wp (service_fail request st a) (outcome Command.SERVICE_ATTACH request s) never s)
    by exact wp_service_fail.
  unfold sim_service_attach. do 2 (apply wp_if; intros _; [by apply Hf; auto with py|]).
  apply wp_bind, wp_get. destruct (sim_ram_loaded s) as [se|] eqn:El; [|by apply Hf; auto with py].
  pose proof (so_ram_loaded s Hok se El) as Hse.
  apply wp_if; intros Hram; [by apply Hf; auto with py|]. apply wp_crc32; [apply Hse|]. intros crc Hcrc _.
  apply wp_if; intros _; [by apply Hf; auto with py|].
  destruct (read_ram_words s _ SERVICE_HEADER_WORDS) as [header|] eqn:Eh; [|by apply Hf; auto with py].
  pose proof (read_ram_words_u16 _ _ _ Eh) as Hh.
  apply wp_if; intros _; [by apply Hf; auto with py|]. apply wp_crc32; [by apply Forall_slice|].
  intros hcrc _ _. do 2 (apply wp_if; intros _; [by apply Hf; auto with py|]).
  lazymatch goal with
  | |- wp (match ?x with _ => _ end) _ _ _ => destruct x as [immutable|] eqn:Ei
  end; [|by apply Hf; auto with py].
  pose proof (read_ram_words_u16 _ _ _ Ei) as Hi.
  apply wp_if; intros _; [by apply Hf; auto with py|]. apply wp_if; intros Hc; [by apply Hf; auto with py|].
  apply wp_crc32; [done|]. intros icrc _ _. apply wp_if; intros _; [by apply Hf; auto with py|].
  repeat (apply wp_bind, wp_modify). apply negb_false_iff in Hram. apply wp_accept; try done.
  sim_ok Hok.
  - apply join_u32_u32; by apply at_u16.
  - apply Hse.
  - intros _. apply negb_false_iff, Z.eqb_eq in Hc. exact Hc.
Qed.

(** *** RAM download *)

Lemma wp_ram_load_abort command st stage address length_words extra0 :
  st <> Status.OK → u32 address → u32 length_words → u16 extra0 →
  wp (ram_load_abort request st stage address length_words extra0)
    (outcome command request s) never s.
Proof using Hreq Hok.
  intros. apply wp_bind, wp_modify, wp_reject; try done. sim_ok Hok.
Qed.

Lemma sim_ram_load_begin_ok :
  wp (sim_ram_load_begin request) (outcome Command.RAM_LOAD_BEGIN request s) never s.
Proof using Hreq Hok.
  unfold sim_ram_load_begin. do 2 (apply wp_if; intros _; [by refuse|]).
  apply wp_bind, wp_gets. do 4 (apply wp_if; intros ?; [by refuse|]).
  repeat (apply wp_bind, wp_modify). apply wp_accept; try done. sim_ok Hok.
  intros se [= <-]. pose proof (pay_u16 request 1 Hreq).
  split; cbn; auto with py; unfold zlen; cbn; try done; [|apply pay32_u32; done].
  unfold u16 in *. lia.
Qed.

Lemma clear_publish_u16 ram : map_Forall (λ _ w, u16 w) ram → map_Forall (λ _ w, u16 w) (clear_publish ram).
Proof using.
  intros H. unfold clear_publish. by apply map_Forall_insert_2, map_Forall_insert_2.
Qed.

(** The session after an accepted packet. *)
Lemma session_extend_ok address data word_count se :
  ram_session_ok se → Forall u16 data → zlen data = word_count →
  se_packet_count se < se_block_count se →
  se_received_words se + word_count <= se_total_words se →
  ram_session_ok (session_extend address data (session_advance word_count se)).
Proof using.
  intros [] Hd Hl Hp Hr. split; cbn; try done; [by apply Forall_app|lia|lia|].
  rewrite zlen_app. lia.
Qed.

Lemma sim_ram_load_data_ok :
  wp (sim_ram_load_data request) (outcome Command.RAM_LOAD_DATA request s) never s.
Proof using Hreq Hok.
  unfold sim_ram_load_data. apply wp_bind, wp_gets.
  destruct (sim_ram_load_session s) as [se|] eqn:Es; [|by refuse].
  pose proof (so_ram_session s Hok se Es) as Hse.
  assert (Forall u16 (slice_from (fr_payload request) 5)) as Hdata
    by (apply Forall_slice_from, Hreq).
  assert (u16 (se_expected_index se)) as Hindex.
  { pose proof (rs_count _ Hse). pose proof (rs_blocks _ Hse). rewrite (rs_index _ Hse).
    unfold u16 in *. lia. }
  apply wp_if; intros _; [by apply wp_ram_load_abort|].
  apply wp_if; intros Hl; [by apply wp_ram_load_abort; auto with py|].
  do 2 (apply wp_if; intros _; [by apply wp_ram_load_abort; auto with py|]).
  apply wp_if; intros Hc; [by apply wp_ram_load_abort; auto with py|].
  apply wp_if; intros _; [by apply wp_ram_load_abort; auto with py|].
  assert (ram_session_ok (session_extend (pay32 request 0) (slice_from (fr_payload request) 5)
    (session_advance (pay request 2) se))) as Hse' by (apply session_extend_ok; try done; lia).
  set (data := slice_from (fr_payload request) 5) in *.
  assert (∀ ram, map_Forall (λ _ w, u16 w) ram →
    map_Forall (λ _ w, u16 w) (write_words (pay32 request 0) data ram)) as Hw
    by (intros; by apply write_words_Forall).
  pose proof (so_ram s Hok). apply wp_bind, wp_if; intros Hs.
  - do 3 (apply wp_bind, wp_modify). apply wp_modify, wp_bind, wp_modify, wp_bind.
    rewrite Hs. apply wp_modify, wp_bind, wp_modify, wp_accept; try done; [sim_ok Hok|].
    + by apply clear_publish_u16, Hw, clear_publish_u16.
    + by intros ? [= <-].
    + cbn. unfold overlaps_service. by rewrite Hs.
  - apply wp_ret, wp_bind, wp_modify, wp_bind. rewrite Hs.
    apply wp_ret, wp_bind, wp_modify, wp_accept; try done; [sim_ok Hok|].
    + by apply Hw.
    + by intros ? [= <-].
    + cbn. unfold overlaps_service. by rewrite Hs.
Qed.

Lemma sim_ram_load_end_ok :
  wp (sim_ram_load_end request) (outcome Command.RAM_LOAD_END request s) never s.
Proof using Hreq Hok.
  unfold sim_ram_load_end. apply wp_bind, wp_gets.
  destruct (sim_ram_load_session s) as [se|] eqn:Es; [|by refuse].
  pose proof (so_ram_session s Hok se Es) as Hse.
  do 2 (apply wp_if; intros _; [by apply wp_ram_load_abort|]).
  repeat (apply wp_bind, wp_modify). apply wp_accept; try done. sim_ok Hok. by intros ? [= <-].
Qed.

Lemma land_u16 z : u16 (Z.land z 0xFFFF).
Proof using. change 0xFFFF with (Z.ones 16). rewrite Z.land_ones by done. apply Z.mod_pos_bound. done. Qed.

Lemma sim_ram_check_crc_ok :
  wp (sim_ram_check_crc request) (outcome Command.RAM_CHECK_CRC request s) never s.
Proof using Hreq Hok.
  unfold sim_ram_check_crc. do 2 (apply wp_if; intros _; [by refuse|]). apply wp_bind, wp_gets.
  destruct (sim_ram_loaded s) as [se|] eqn:Es; [|by refuse].
  pose proof (so_ram_loaded s Hok se Es) as Hse. apply wp_crc32; [apply Hse|]. intros crc Hcrc _.
  apply wp_if; intros _.
  - apply wp_bind, wp_modify, wp_reject; try done; [sim_ok Hok|apply Hse|apply land_u16].
  - apply wp_bind, wp_modify, wp_accept; try done. sim_ok Hok.
Qed.

Lemma sim_run_ram_ok : wp (sim_run_ram request) (outcome Command.RUN_RAM request s) never s.
Proof using Hreq Hok.
  unfold sim_run_ram. do 2 (apply wp_if; intros _; [by refuse|]). apply wp_bind, wp_get.
  destruct (sim_ram_loaded s) as [se|] eqn:Es; [|by refuse].
  pose proof (so_ram_loaded s Hok se Es) as Hse. apply wp_if; intros Hcrc; [by refuse|].
  apply wp_if; intros _.
  - refuse. destruct (_ =? 0); [apply Hse|auto with py].
  - apply wp_bind, wp_modify, wp_accept; try done; [sim_ok Hok|].
    split_and!; try done. by apply negb_false_iff in Hcrc.
Qed.

End handlers.
