(* ===== verification/SimulatorTransact.v ===== *)
(** The Flash, metadata and run handlers of the simulator implement the contract,
    and so does the dispatcher. *)

(** * The Flash and metadata commands implement their specification

    Erase, program and verify with their packet sessions, the metadata journal
    commands, memory read and run; then [sim_transact_spec], which puts the
    handlers together: every well-formed request gets a well-formed answer
    that echoes it, with the effect its command promises or none. *)

From S2P Require Import Prelude.
From S2P Require Import Errors.
From S2P Require Import Constants.
From S2P Require Import Words.
From S2P Require Import Frame.
From S2P Require Import Resync.
From S2P Require Import Models.
From S2P Require Import Firmware.
From S2P Require Import Packets.
From S2P Require Import Simulator.
From S2P Require Import Journal.
From S2P Require Import SimulatorProofs.

(** ** Erasing sectors *)

Definition outside (sectors : list FlashSector) (m : memory) : memory :=
  filter (λ kv, in_sectors sectors kv.1 = false) m.

Lemma outside_lookup sectors m a :
  outside sectors m !! a = if in_sectors sectors a then None else m !! a.
Proof.
  unfold outside. destruct (in_sectors sectors a) eqn:E.
  - apply map_lookup_filter_None. right. intros w _. cbn. by rewrite E.
  - destruct (m !! a) as [w|] eqn:Em.
    + by apply map_lookup_filter_Some.
    + apply map_lookup_filter_None. by left.
Qed.

Lemma outside_u16 sectors m : map_Forall (λ _ w, u16 w) m → map_Forall (λ _ w, u16 w) (outside sectors m).
Proof. intros H a w [Hw _]%map_lookup_filter_Some. by apply (H a). Qed.

Lemma selected_sectors_in s mask sector :
  In sector (selected_sectors s mask) → In sector (sim_sectors s).
Proof.
  unfold selected_sectors. intros ([i x] & <- & [Hin _]%filter_In)%in_map_iff.
  by apply list_elem_of_In, elem_of_zip_r in Hin; apply list_elem_of_In in Hin.
Qed.

(** Sectors that do not cut the metadata area erase all of it or none. *)
Lemma erase_journal sectors m rs :
  (∀ sector, In sector sectors → sector_whole sector) → flash_journal m rs →
  ∃ rs', flash_journal (outside sectors m) rs' ∧ (rs' = [] ∨ rs' = rs).
Proof.
  intros Hs Hf. destruct (in_sectors sectors SLOT_A_METADATA_START) eqn:E.
  - exists []. split; [|by left]. apply flash_journal_erased. intros a Ha. rewrite outside_lookup.
    replace (in_sectors sectors a) with true; [done|]. symmetry.
    apply existsb_exists in E as (sector & Hin & Hc). apply existsb_exists.
    exists sector. split; [done|]. unfold fs_contains in *.
    destruct (Hs sector Hin) as [|[|[]]]; unfold SLOT_A_METADATA_START, SLOT_A_METADATA_END in *; lia.
  - exists rs. split; [|by right]. apply (flash_journal_outside m); [done|]. intros a Ha. rewrite outside_lookup.
    replace (in_sectors sectors a) with false; [done|]. symmetry. apply not_true_iff_false.
    intros (sector & Hin & Hc)%existsb_exists. apply not_true_iff_false in E. apply E.
    apply existsb_exists. exists sector. split; [done|]. unfold fs_contains in *.
    destruct (Hs sector Hin) as [|[|[]]]; unfold SLOT_A_METADATA_START, SLOT_A_METADATA_END in *; lia.
Qed.

Lemma selected_whole s mask :
  Forall sector_whole (sim_sectors s) → ∀ sector, In sector (selected_sectors s mask) → sector_whole sector.
Proof. intros H sector Hin%selected_sectors_in. by eapply List.Forall_forall in Hin. Qed.

(** ** Addresses *)

Lemma addresses_allowed_range s address count :
  addresses_allowed s address count = true →
  0 < count ∧ SLOT_A_APP_START <= address ∧ address + count <= SLOT_A_APP_END_EXCLUSIVE ∧
  (address + count <= SLOT_A_METADATA_START ∨ SLOT_A_METADATA_END <= address).
Proof.
  unfold addresses_allowed. destruct (_ || _) eqn:E; [done|]. intros H.
  apply orb_false_iff in E as [_ E]. rewrite !andb_true_iff in H.
  unfold APP_FLASH_START, APP_FLASH_END_EXCLUSIVE in *. lia.
Qed.

Lemma flash_journal_write m rs address data :
  flash_journal m rs →
  (address + zlen data <= SLOT_A_METADATA_START ∨ SLOT_A_METADATA_END <= address) →
  flash_journal (write_words address data m) rs.
Proof.
  intros Hf Ha. apply (flash_journal_outside m); [done|]. intros a Hin.
  apply write_words_outside. lia.
Qed.

(** A packet size that is a positive multiple of 8 leaves only alignment
    errors, the ones the simulator catches. *)
Lemma validate_write_data_raises ws m e :
  0 < m ∧ m mod 8 = 0 → Forall u16 ws → validate_write_data ws (Some m) = Raise e →
  isinstance e DataAlignmentError = true.
Proof.
  intros [Hm Hm8] Hw. unfold validate_write_data, WRITE_DATA_ALIGNMENT_WORDS.
  rewrite Hm8. replace (m <=? 0) with false by lia. apply existsb_unfit_false in Hw. rewrite Hw.
  destruct (zlen ws =? 0); [by intros [= <-]|].
  destruct (negb (zlen ws mod 8 =? 0)); [by intros [= <-]|].
  cbn. destruct (zlen ws >? m); by intros [= <-].
Qed.

Section handlers.
Context (request : Frame) (s : SimulatorCore).
Context (Hreq : Frame_ok request) (Hok : Sim_ok s).

Lemma payload_u16 i : u16 (pay request i).
Proof using Hreq. by apply pay_u16. Qed.

Lemma sim_erase_ok : wp (sim_erase request) (outcome Command.ERASE request s) never s.
Proof using Hreq Hok.
  unfold sim_erase. do 2 (apply wp_if; intros _; [by refuse|]). apply wp_bind, wp_get.
  do 2 (apply wp_if; intros _; [by refuse|]).
  set (selected := selected_sectors s (pay32 request 0)). do 5 apply wp_bind, wp_modify.
  assert (∀ a, a ∈ filter (λ a, in_sectors selected a = false) (sim_programmed s) ↔
    a ∈ sim_programmed s ∧ in_sectors selected a = false) as Hp
    by (intros a; rewrite elem_of_filter; tauto).
  apply wp_accept; try done.
  - destruct (so_journal s Hok) as [rs Hrs]. pose proof (outside_u16 selected _ (so_flash s Hok)).
    pose proof (so_programmed s Hok) as Hprog. sim_ok Hok.
    + intros a [Ha Hn]%Hp. destruct (Hprog a Ha) as [Hf Hr]. split; [|done].
      change (is_Some (outside selected (sim_flash s) !! a)). by rewrite outside_lookup, Hn.
    + destruct (erase_journal selected (sim_flash s) rs) as (rs' & Hrs' & _); [|done|by exists rs'].
      by apply selected_whole.
  - cbn. split_and!; try done. apply outside_lookup.
Qed.

(** ** Packet sessions *)

(** What [sim_begin] returns is either a new session, in an unchanged state,
    or the error response. *)
Lemma wp_begin operation :
  wp (sim_begin request operation)
    (λ r s', match r with
             | inl se => s' = s
             | inr f => refused request s f s'
             end) never s.
Proof using Hreq Hok.
  assert (Hret : ∀ (m : Sim Frame), wp m (refused request s) never s →
    wp (f <- m ;; ret (inr f)) (λ (r : Session + Frame) s',
      match r with inl se => s' = s | inr f => refused request s f s' end) never s).
  { intros m Hm. apply wp_bind. eapply wp_conseq; [exact Hm| |done].
    intros f s' Hf. by apply wp_ret. }
  unfold sim_begin. do 4 (apply wp_if; intros _; [apply Hret; by refuse|]).
  apply wp_bind, wp_get, wp_if; intros _; [apply Hret; by refuse|]. by apply wp_ret.
Qed.

Lemma sim_program_begin_ok :
  wp (sim_program_begin request) (outcome Command.PROGRAM_BEGIN request s) never s.
Proof using Hreq Hok.
  unfold sim_program_begin. apply wp_bind, wp_gets, wp_if; intros _; [by refuse|].
  apply wp_bind. eapply wp_conseq; [apply wp_begin| |done].
  intros [se|f] s'; [intros ->|by apply refused_outcome].
  apply wp_bind, wp_modify, wp_accept; try done. sim_ok Hok.
Qed.

Lemma sim_verify_begin_ok :
  wp (sim_verify_begin request) (outcome Command.VERIFY_BEGIN request s) never s.
Proof using Hreq Hok.
  unfold sim_verify_begin. apply wp_bind, wp_gets, wp_if; intros _; [by refuse|].
  apply wp_bind. eapply wp_conseq; [apply wp_begin| |done].
  intros [se|f] s'; [intros ->|by apply refused_outcome].
  apply wp_bind, wp_modify, wp_accept; try done. sim_ok Hok.
Qed.

(** An acceptable data packet: its words are all there and its addresses
    lie in the application area, away from the metadata. *)
Record packet_ok (address : Z) (data : list Z) : Prop := {
  po_address : address = pay32 request 0;
  po_data : data = slice_from (fr_payload request) 5;
  po_length : zlen data = payload_len request - 5;
  po_words : Forall u16 data;
  po_low : SLOT_A_APP_START <= address;
  po_high : address + zlen data <= SLOT_A_APP_END_EXCLUSIVE;
  po_journal : address + zlen data <= SLOT_A_METADATA_START ∨ SLOT_A_METADATA_END <= address;
}.

Lemma wp_data session operation :
  wp (sim_data request session operation)
    (λ r s', match r with
             | inl (_, address, data) => s' = s ∧ packet_ok address data
             | inr f => refused request s f s'
             end) never s.
Proof using Hreq Hok.
  assert (Hret : ∀ (m : Sim Frame), wp m (refused request s) never s →
    wp (f <- m ;; ret (inr f)) (λ (r : Session * Z * list Z + Frame) s',
      match r with
      | inl (_, address, data) => s' = s ∧ packet_ok address data
      | inr f => refused request s f s' end) never s).
  { intros m Hm. apply wp_bind. eapply wp_conseq; [exact Hm| |done].
    intros f s' Hf. by apply wp_ret. }
  unfold sim_data. destruct session as [se|]; [|apply Hret; by refuse].
  apply wp_if; intros H5; [apply Hret; by refuse|].
  apply wp_if; intros Hlen; [apply Hret; by refuse|]. apply wp_bind, wp_get.
  assert (Forall u16 (slice_from (fr_payload request) 5)) as Hd by apply Forall_slice_from, Hreq.
  destruct (validate_write_data _ _) as [n|e] eqn:Ev.
  2: { apply wp_if; intros Hi; [apply Hret; by refuse|]. exfalso.
       apply not_true_iff_false in Hi. apply Hi.
       by apply (validate_write_data_raises _ _ _ (so_packet s Hok) Hd Ev). }
  apply wp_if; intros _; [apply Hret; refuse; apply land_u16|].
  apply wp_if; intros Ha; [apply Hret; by refuse|]. apply wp_ret. split; [done|].
  apply negb_false_iff, addresses_allowed_range in Ha.
  assert (zlen (slice_from (fr_payload request) 5) = pay request 2) as Hl.
  { unfold slice_from. rewrite zlen_drop. unfold payload_len in *. lia. }
  split; try done; unfold payload_len in *; lia.
Qed.

(** Writing an acceptable packet keeps the invariant. *)
Lemma Sim_ok_write address data programmed session :
  packet_ok address data →
  (∀ a, a ∈ programmed → address <= a < address + zlen data ∨ a ∈ sim_programmed s) →
  Sim_ok (set_verify_succeeded false (set_program_session session (set_programmed programmed
    (set_flash (write_words address data (sim_flash s)) s)))).
Proof using Hok.
  intros Hp Hprog. pose proof (so_programmed s Hok) as Hold. pose proof (so_flash s Hok) as Hflash.
  destruct (so_journal s Hok) as [rs Hrs]. sim_ok Hok.
  - apply write_words_Forall; [apply Hp|done].
  - intros a Ha. rewrite <-elem_of_dom, write_words_dom, elem_of_dom.
    pose proof (po_low _ _ Hp). pose proof (po_high _ _ Hp).
    destruct (Hprog a Ha) as [Hr|[Hin Hr]%Hold].
    + split; [by left|]. unfold APP_FLASH_START, APP_FLASH_END_EXCLUSIVE. lia.
    + split; [by right|done].
  - exists rs. apply flash_journal_write; [done|apply Hp].
Qed.

Lemma elem_of_zrange a lo hi : a ∈ zrange lo hi ↔ lo <= a < hi.
Proof using. rewrite list_elem_of_In. apply in_zrange. Qed.

Lemma existsb_programmed l :
  existsb (λ a, bool_decide (a ∈ sim_programmed s)) l = false ↔ ∀ a, a ∈ l → a ∉ sim_programmed s.
Proof using.
  rewrite <-not_true_iff_false, existsb_exists. split.
  - intros H a Ha Hin. apply H. exists a. split; [by apply list_elem_of_In|]. by apply bool_decide_eq_true.
  - intros H (a & Ha%list_elem_of_In & Hin%bool_decide_eq_true). by apply (H a Ha).
Qed.

Lemma sim_program_data_ok :
  wp (sim_program_data request) (outcome Command.PROGRAM_DATA request s) never s.
Proof using Hreq Hok.
  unfold sim_program_data. apply wp_bind, wp_gets, wp_bind.
  eapply wp_conseq; [apply wp_data| |done].
  intros [[[se address] data]|f] s'.
  2: { intros (Hst & Hf & Hok' & Hcfg & Hrej). apply wp_bind, wp_modify, wp_ret, refused_outcome.
       split_and!; try done. sim_ok Hok'. }
  intros [-> Hp]. apply wp_bind, wp_get.
  pose proof (po_low _ _ Hp). pose proof (po_high _ _ Hp).
  unfold SLOT_A_APP_START, SLOT_A_APP_END_EXCLUSIVE in *. pose proof (zlen_nonneg data).
  assert (u32 (zlen data)) by (unfold u32; lia). assert (u32 address) by (unfold u32; lia).
  apply wp_if; intros Hbad.
  { apply wp_bind, wp_modify, wp_reject; auto with py; try done; [sim_ok Hok|unfold u32; lia]. }
  apply wp_if; intros Hre.
  { apply wp_bind, wp_modify, wp_reject; auto with py; try done; sim_ok Hok. }
  rewrite existsb_programmed in Hre. do 4 apply wp_bind, wp_modify.
  assert (∀ a, a ∈ (list_to_set (zrange address (address + zlen data)) ∪ sim_programmed s : gset Z) ↔
    address <= a < address + zlen data ∨ a ∈ sim_programmed s) as Hset
    by (intros a; rewrite elem_of_union, elem_of_list_to_set, elem_of_zrange; done).
  apply wp_accept; try done.
  - apply Sim_ok_write; [done|]. intros a Ha. by apply Hset.
  - cbn. rewrite <-(po_address _ _ Hp), <-(po_data _ _ Hp). split_and!; try done.
    intros a Ha. split; [apply Hre, elem_of_zrange; done|]. pose proof (po_journal _ _ Hp).
    unfold SLOT_A_APP_START, SLOT_A_APP_END_EXCLUSIVE. lia.
Qed.

(** [sim_end] changes at most the last error, and answers [OK] or refuses. *)
Definition ended (f : Frame) (s' : SimulatorCore) : Prop :=
  (s' = s ∧ f = response request Status.OK []) ∨ refused request s f s'.

Lemma wp_end session operation : wp (sim_end request session operation) ended never s.
Proof using Hreq Hok.
  assert (Hrefuse : ∀ status stage, status <> Status.OK →
    wp (sim_fail request status operation stage) ended never s).
  { intros status stage Hst.
    eapply wp_conseq; [by apply (wp_refused request status operation stage 0 0 0 s s)| |done].
    intros f s' Hf. by right. }
  unfold sim_end. destruct session as [se|]; [|by apply Hrefuse].
  do 2 (apply wp_if; intros _; [by apply Hrefuse|]).
  apply wp_response; try done. by left.
Qed.

Lemma sim_program_end_ok :
  wp (sim_program_end request) (outcome Command.PROGRAM_END request s) never s.
Proof using Hreq Hok.
  unfold sim_program_end. apply wp_bind, wp_gets, wp_bind.
  eapply wp_conseq; [apply wp_end| |done]. intros f s' [[-> ->]|(Hst & Ha & Hok' & Hcfg & Hrej)].
  - apply wp_bind, wp_modify, wp_bind, wp_modify, wp_ret. split; [sim_ok Hok|].
    split; [done|]. split; [by apply response_answers; try done; left|]. done.
  - apply wp_bind, wp_modify, wp_bind.
    replace (fr_status f =? Status.OK) with false by (symmetry; by apply Z.eqb_neq).
    apply wp_ret, wp_ret, refused_outcome. split_and!; try done. sim_ok Hok'.
Qed.

Lemma sim_verify_end_ok :
  wp (sim_verify_end request) (outcome Command.VERIFY_END request s) never s.
Proof using Hreq Hok.
  unfold sim_verify_end. apply wp_bind, wp_gets, wp_bind.
  eapply wp_conseq; [apply wp_end| |done]. intros f s' [[-> ->]|(Hst & Ha & Hok' & Hcfg & Hrej)].
  - apply wp_bind, wp_modify, wp_bind, wp_modify, wp_ret. split; [sim_ok Hok|].
    split; [done|]. split; [by apply response_answers; try done; left|]. done.
  - apply wp_bind, wp_modify, wp_bind.
    replace (fr_status f =? Status.OK) with false by (symmetry; by apply Z.eqb_neq).
    apply wp_modify, wp_ret, refused_outcome. destruct Hrej as (H1 & H2 & H3 & _ & H5).
    unfold refused, rejected. split_and!; try done. sim_ok Hok'.
Qed.

(** ** Verification *)

Lemma verify_mismatch_Some current data bad :
  verify_mismatch s current data = Some bad → current <= bad < current + zlen data.
Proof using.
  revert current. induction data as [|w data IH]; intros current; cbn [verify_mismatch]; [done|].
  rewrite zlen_cons. pose proof (zlen_nonneg data). destruct (_ || _).
  - intros [= <-]. lia.
  - intros Hb%IH. lia.
Qed.

Lemma verify_mismatch_None current data :
  verify_mismatch s current data = None →
  ∀ i, 0 <= i < zlen data → read_word (sim_flash s) (current + i) = at_ data i.
Proof using.
  revert current. induction data as [|w data IH]; intros current; cbn [verify_mismatch].
  - intros _ i Hi. unfold zlen in Hi. simpl in Hi. lia.
  - destruct (_ || _) eqn:E; [done|]. apply orb_false_iff in E as [_ E%negb_false_iff%Z.eqb_eq].
    intros H i Hi. rewrite zlen_cons in Hi. destruct (decide (i = 0)) as [->|].
    + by rewrite Z.add_0_r.
    + rewrite at_cons by lia. rewrite <-(IH (current + 1)) by (done || lia). f_equal. lia.
Qed.

Lemma sim_verify_data_ok :
  wp (sim_verify_data request) (outcome Command.VERIFY_DATA request s) never s.
Proof using Hreq Hok.
  unfold sim_verify_data. apply wp_bind, wp_gets, wp_bind.
  eapply wp_conseq; [apply wp_data| |done].
  intros [[[se address] data]|f] s'.
  2: { intros (Hst & Hf & Hok' & Hcfg & H1 & H2 & H3 & _ & H5).
       apply wp_bind, wp_modify, wp_bind, wp_modify, wp_ret.
       apply refused_outcome. unfold refused, rejected. split_and!; try done. sim_ok Hok'. }
  intros [-> Hp]. apply wp_bind, wp_get.
  pose proof (po_low _ _ Hp). pose proof (po_high _ _ Hp).
  unfold SLOT_A_APP_START, SLOT_A_APP_END_EXCLUSIVE in *. pose proof (zlen_nonneg data).
  destruct (verify_mismatch s address data) as [bad|] eqn:Ev.
  - apply verify_mismatch_Some in Ev.
    apply wp_bind, wp_modify, wp_bind, wp_modify, wp_reject; auto with py; try done.
    + sim_ok Hok.
    + unfold u32. lia.
    + unfold read_word. destruct (sim_flash s !! bad) as [w|] eqn:E; [|done].
      by apply (so_flash s Hok) in E.
  - apply wp_bind, wp_modify, wp_accept; try done; [sim_ok Hok|]. split_and!; try done.
    intros i Hi. rewrite <-(po_address _ _ Hp).
    pose proof (po_length _ _ Hp). rewrite (verify_mismatch_None _ _ Ev) by lia.
    rewrite (po_data _ _ Hp). unfold pay, at_, slice_from.
    rewrite List.nth_skipn. f_equal. lia.
Qed.

End handlers.

(** * The journal commands and the dispatcher

    METADATA_APPEND_RECORD, MEMORY_READ and RUN, then [sim_transact_spec]:
    whatever well-formed frame arrives, [sim_transact] answers it with an
    outcome of SimulatorProofs.v and no exception escapes. *)

Section handlers.
Context (request : Frame) (s : SimulatorCore).
Context (Hreq : Frame_ok request) (Hok : Sim_ok s).

(** ** Appending to the journal *)

Definition stored (rs : list (list Z)) (r : list Z) : memory :=
  write_words (SLOT_A_METADATA_START + zlen rs * METADATA_RECORD_WORDS) r (sim_flash s).

Lemma stored_ok rs kind r :
  flash_journal (sim_flash s) rs → zlen rs < METADATA_RECORD_COUNT → journal (rs ++ [r]) →
  record_ok kind (zlen rs + 1) r →
  Sim_ok (set_flash (stored rs r) s) ∧ flash_journal (stored rs r) (rs ++ [r]) ∧
  (∀ a, ¬ (SLOT_A_METADATA_START <= a < SLOT_A_METADATA_END) → stored rs r !! a = sim_flash s !! a).
Proof using Hok.
  intros Hrs Hl Hj Hr. pose proof (rk_length _ _ _ Hr) as Hrl. pose proof (zlen_nonneg rs).
  assert (flash_journal (stored rs r) (rs ++ [r])) as Hs by by apply flash_journal_append.
  pose proof (so_programmed s Hok) as Hprog. split_and!; [|done|].
  - sim_ok Hok.
    + by apply write_words_Forall; [apply Hr|].
    + intros a [Ha ?]%Hprog. split; [|done]. unfold stored.
      rewrite <-elem_of_dom, write_words_dom, elem_of_dom. by right.
    + by exists (rs ++ [r]).
  - intros a Ha. apply write_words_outside. rewrite Hrl.
    unfold METADATA_RECORD_WORDS, METADATA_RECORD_COUNT, SLOT_A_METADATA_START,
      SLOT_A_METADATA_END in *. lia.
Qed.

Lemma first_free_Some rs i :
  flash_journal (sim_flash s) rs → first_free_record s = Some i →
  i = zlen rs ∧ zlen rs < METADATA_RECORD_COUNT.
Proof using.
  intros Hrs. rewrite (first_free_journal s rs Hrs).
  destruct (Z.ltb_spec (zlen rs) METADATA_RECORD_COUNT); [|done]. by intros [= <-].
Qed.

Lemma next_sequence_u32 (rs : list (list Z)) : zlen rs < METADATA_RECORD_COUNT → u32 (zlen rs + 1).
Proof using. pose proof (zlen_nonneg rs). unfold METADATA_RECORD_COUNT, u32. lia. Qed.

Lemma append_image_valid_ok :
  pay request 0 = MetadataRecordType.MetadataRecordType_value MetadataRecordType.IMAGE_VALID →
  wp (append_image_valid request) (outcome Command.METADATA_APPEND_RECORD request s) never s.
Proof using Hreq Hok.
  intros Hkind. unfold append_image_valid. do 3 (apply wp_if; intros _; [by refuse|]).
  apply wp_bind, wp_get, wp_if; intros Hv; [by refuse|]. apply negb_false_iff in Hv.
  destruct (so_journal s Hok) as [rs Hrs].
  destruct (first_free_record s) as [i|] eqn:Ei; [|by refuse].
  destruct (first_free_Some rs i Hrs Ei) as [-> Hl].
  rewrite (next_sequence_journal s rs Hrs).
  destruct (build_image_valid_record_ok (fr_payload request) (zlen rs + 1) (sim_device_info s))
    as (r & -> & Hr & Hat); [apply Hreq|by apply next_sequence_u32|apply Hok|].
  pose proof (fj_journal _ _ Hrs) as Hj. assert (journal (rs ++ [r])) as Hjr by by apply journal_image.
  destruct (stored_ok rs _ r Hrs Hl Hjr Hr) as (Hok' & Hrs' & Hout).
  apply wp_bind, wp_lift; [|done]. intros r' [= <-].
  apply wp_bind, wp_modify, wp_bind, wp_modify, wp_accept; try done; [sim_ok Hok'|].
  split; [|done]. exists rs, (rs ++ [r]). split_and!; try done.
  rewrite Hkind. split_and!; try done. exists r. split; [done|]. split.
  { rewrite journal_state_snoc. unfold journal_step. by rewrite (rk_kind _ _ _ Hr). }
  unfold rec32, pay32, pay. rewrite !Hat by lia. done.
Qed.

Lemma wp_about_record rs image :
  flash_journal (sim_flash s) rs → zlen rs < METADATA_RECORD_COUNT →
  js_image (journal_state rs) = Some image → js_confirmed (journal_state rs) = false →
  pay request 0 = MetadataRecordType.MetadataRecordType_value MetadataRecordType.BOOT_ATTEMPT ∨
  pay request 0 = MetadataRecordType.MetadataRecordType_value MetadataRecordType.APP_CONFIRMED →
  (pay request 0 = MetadataRecordType.MetadataRecordType_value MetadataRecordType.BOOT_ATTEMPT →
   js_attempts (journal_state rs) < METADATA_BOOT_ATTEMPT_LIMIT) →
  (pay request 0 = MetadataRecordType.MetadataRecordType_value MetadataRecordType.APP_CONFIRMED →
   0 < js_attempts (journal_state rs)) →
  ∃ r, (if pay request 0 =? MetadataRecordType.BOOT_ATTEMPT
        then build_boot_attempt_record (summary_of rs) (zlen rs + 1)
        else build_app_confirmed_record (summary_of rs) (zlen rs + 1)) = Ok r ∧
    ∃ kind, record_ok kind (zlen rs + 1) r ∧ journal (rs ++ [r]) ∧
      journal_state (rs ++ [r]) =
        mkJournalState (Some image)
          ((if pay request 0 =? MetadataRecordType.BOOT_ATTEMPT
            then js_attempts (journal_state rs) + 1 else js_attempts (journal_state rs)))
          (pay request 0 =? MetadataRecordType.APP_CONFIRMED).
Proof using.
  intros Hrs Hl Ei Hcf Hkind Hlt Hgt. pose proof (fj_journal _ _ Hrs) as Hj.
  pose proof (fj_length _ _ Hrs) as Hlen. pose proof (next_sequence_u32 rs Hl) as Hseq.
  destruct (journal_bounds rs Hj) as (Hb & _). unfold METADATA_BOOT_ATTEMPT_LIMIT in Hb.
  assert (ms_boot_attempt_count (summary_of rs) = js_attempts (journal_state rs)) as Hcount by done.
  unfold build_app_confirmed_record, build_boot_attempt_record. rewrite Hcount.
  destruct (summary_record_ok MetadataRecordType.BOOT_ATTEMPT rs image
    (js_attempts (journal_state rs) + 1) (zlen rs + 1)) as (r1 & E1 & Hr1 & Hm1 & _);
    [done..|unfold u16; lia|done|].
  destruct (summary_record_ok MetadataRecordType.APP_CONFIRMED rs image
    (js_attempts (journal_state rs)) (zlen rs + 1)) as (r2 & E2 & Hr2 & Hm2 & _);
    [done..|unfold u16; lia|done|].
  rewrite E1, E2. destruct Hkind as [Hk|Hk]; rewrite Hk.
  - exists r1. split; [done|]. exists MetadataRecordType.BOOT_ATTEMPT. split; [done|].
    split; [by eapply journal_attempt; eauto|]. rewrite journal_state_snoc. unfold journal_step.
    by rewrite (rk_kind _ _ _ Hr1), Ei, Hcf.
  - exists r2. split; [done|]. exists MetadataRecordType.APP_CONFIRMED. split; [done|].
    split; [by eapply journal_confirm; eauto|]. rewrite journal_state_snoc. unfold journal_step.
    by rewrite (rk_kind _ _ _ Hr2), Ei.
Qed.

Lemma append_about_image_ok :
  pay request 0 = MetadataRecordType.MetadataRecordType_value MetadataRecordType.BOOT_ATTEMPT ∨
  pay request 0 = MetadataRecordType.MetadataRecordType_value MetadataRecordType.APP_CONFIRMED →
  wp (append_about_image request) (outcome Command.METADATA_APPEND_RECORD request s) never s.
Proof using Hreq Hok.
  intros Hkind. unfold append_about_image. apply wp_if; intros _; [by refuse|]. apply wp_bind, wp_get.
  destruct (so_journal s Hok) as [rs Hrs]. rewrite (summary_journal s rs Hrs).
  apply wp_bind, wp_lift; [|done]. intros summary [= <-].
  pose proof (fj_journal _ _ Hrs) as Hj. pose proof (fj_length _ _ Hrs) as Hlen.
  destruct (journal_bounds rs Hj) as (Hb & _).
  assert ((pay request 0 =? MetadataRecordType.IMAGE_VALID) = false) as Hkiv by by destruct Hkind as [-> | ->].
  destruct (js_image (journal_state rs)) as [image|] eqn:Ei.
  2: { unfold summary_of at 1. rewrite Ei. apply wp_if; intros Hz; [by refuse|done]. }
  assert (ms_metadata_valid (summary_of rs) = 1) as -> by by (unfold summary_of; rewrite Ei).
  apply wp_if; intros _; [by refuse|].
  assert (ms_boot_attempt_count (summary_of rs) = js_attempts (journal_state rs)) as Hcount by done.
  assert (ms_app_confirmed (summary_of rs) = if js_confirmed (journal_state rs) then 1 else 0) as Hconf by done.
  rewrite Hcount, Hconf. apply wp_if; intros Hatt; [by refuse|]. apply wp_if; intros Hc.
  { apply wp_accept; try done. split; [|done]. exists rs, rs. split_and!; try done.
    rewrite Hkiv. split; [done|]. by destruct (js_confirmed (journal_state rs)). }
  assert (js_confirmed (journal_state rs) = false) as Hcf by by destruct (js_confirmed (journal_state rs)).
  apply wp_if; intros Hlim; [by refuse|]. apply wp_if; intros _; [by refuse|].
  destruct (first_free_record s) as [i|] eqn:Ef; [|by refuse].
  destruct (first_free_Some rs i Hrs Ef) as [-> Hl]. rewrite (next_sequence_journal s rs Hrs).
  destruct (wp_about_record rs image Hrs Hl Ei Hcf Hkind) as (r & -> & kind & Hr & Hjr & Hst).
  - intros E. rewrite E in Hlim. unfold summary_of in Hlim. cbn -[journal_state] in Hlim.
    unfold METADATA_BOOT_ATTEMPT_LIMIT. lia.
  - intros E. rewrite E in Hatt. cbn -[journal_state] in Hatt. lia.
  - destruct (stored_ok rs kind r Hrs Hl Hjr Hr) as (Hok' & Hrs' & Hout).
    apply wp_bind, wp_lift; [|done]. intros r' [= <-].
    apply wp_bind, wp_modify, wp_accept; try done. split; [|done].
    exists rs, (rs ++ [r]). split_and!; try done. rewrite Hkiv, Hcf. split; [done|]. by rewrite Hst, Ei.
Qed.

Lemma sim_metadata_append_record_ok :
  wp (sim_metadata_append_record request) (outcome Command.METADATA_APPEND_RECORD request s) never s.
Proof using Hreq Hok.
  unfold sim_metadata_append_record. apply wp_if; intros _; [by refuse|].
  apply wp_if; intros Hk; [by refuse|]. do 2 (apply wp_if; intros _; [by refuse|]).
  apply wp_if; intros Hb; [apply append_about_image_ok|apply append_image_valid_ok].
  - apply orb_true_iff in Hb as [H%Z.eqb_eq|H%Z.eqb_eq]; auto.
  - apply negb_false_iff in Hk. rewrite <-orb_assoc, Hb, orb_false_r in Hk. by apply Z.eqb_eq.
Qed.

(** ** Memory read and run *)

Lemma sim_memory_read_ok :
  wp (sim_memory_read request) (outcome Command.MEMORY_READ request s) never s.
Proof using Hreq Hok.
  unfold sim_memory_read. do 2 (apply wp_if; intros _; [by refuse|]).
  apply wp_bind, wp_get, wp_if; intros Hc; [by refuse|].
  pose proof (di_ok16 _ (so_info s Hok)) as Hd. unfold DeviceInfo_fields16 in Hd.
  rewrite !Forall_cons in Hd. assert (u16 (di_max_payload_words (sim_device_info s))) as Hm by tauto.
  unfold u16 in Hm. apply wp_accept; try done.
  - cbn [app]. rewrite !Forall_cons. split_and!; try by apply pay_u16.
    apply Forall_map, List.Forall_forall. intros i _. unfold compose, read_word.
    destruct (sim_ram s !! _) as [w|] eqn:E; [by apply (so_ram s Hok) in E|]. cbn.
    destruct (sim_flash s !! _) as [w|] eqn:E'; [by apply (so_flash s Hok) in E'|done].
  - rewrite zlen_app, zlen_map, zrange_length. unfold zlen. cbn [length]. lia.
Qed.

Lemma sim_run_ok : wp (sim_run request) (outcome Command.RUN request s) never s.
Proof using Hreq Hok.
  unfold sim_run. do 4 (apply wp_if; intros _; [by refuse|]).
  apply wp_bind, wp_get, wp_if; intros _; [by refuse|].
  destruct (so_journal s Hok) as [rs Hrs]. rewrite (summary_journal s rs Hrs).
  apply wp_bind, wp_lift; [|done]. intros summary [= <-].
  destruct (journal_bounds rs (fj_journal _ _ Hrs)) as (Hb & _).
  apply wp_if; intros Hv; [by refuse|]. apply wp_if; intros H0; [by refuse|].
  apply wp_if; intros Hlim; [by refuse|].
  apply wp_bind, wp_modify, wp_accept; try done; [sim_ok Hok|]. split_and!; try done.
  unfold summary_of in Hv, H0, Hlim.
  destruct (js_image (journal_state rs)) as [image|] eqn:Ei; [|done].
  cbn -[journal_state rec32] in Hv, H0, Hlim. exists rs, image. split; [done|]. split; [done|].
  split; [apply negb_false_iff in Hv; by apply Z.eqb_eq|].
  destruct (js_confirmed (journal_state rs)); [by left|right]. cbn in H0. lia.
Qed.

End handlers.

(** ** The dispatcher *)

Lemma handler_ok command request s :
  Frame_ok request → Sim_ok s → wp (handler command request) (outcome command request s) never s.
Proof.
  intros Hreq Hok. destruct command; cbn [handler].
  all: eauto using sim_ping_ok, sim_get_device_info_ok, sim_get_protocol_info_ok,
    sim_get_last_error_ok, sim_get_service_status_ok, sim_service_attach_ok, sim_ram_load_begin_ok,
    sim_ram_load_data_ok, sim_ram_load_end_ok, sim_ram_check_crc_ok, sim_run_ram_ok,
    sim_get_metadata_summary_ok, sim_metadata_append_record_ok, sim_erase_ok, sim_program_begin_ok,
    sim_program_data_ok, sim_program_end_ok, sim_verify_begin_ok, sim_verify_data_ok,
    sim_verify_end_ok, sim_memory_read_ok, sim_run_ok, sim_reset_ok.
Qed.

(** What a request was accepted for. *)
Definition accepted (request : Frame) (s : SimulatorCore) (f : Frame) (s' : SimulatorCore) : Prop :=
  ∃ command, fr_command request = Command.Command_value command ∧
    (sim_require_service s = true → requires_service command = true →
     sim_service_state s = ServiceState.ATTACHED) ∧
    effect command request s f s' ∧ service_effect command request s s'.

Definition transact_outcome (request : Frame) (s : SimulatorCore) (f : Frame) (s' : SimulatorCore)
    : Prop :=
  Sim_ok s' ∧ same_config s s' ∧ answers request f ∧
  if (fr_status f =? Status.OK) then accepted request s f s' else rejected s s'.

Lemma refused_transact request s f s' : refused request s f s' → transact_outcome request s f s'.
Proof.
  intros (Hst & Ha & Hok & Hcfg & Hrej). split; [done|]. split; [done|]. split; [done|].
  by replace (fr_status f =? Status.OK) with false by (symmetry; by apply Z.eqb_neq).
Qed.

Lemma sim_transact_spec request s :
  Frame_ok request → Sim_ok s → wp (sim_transact request) (transact_outcome request s) never s.
Proof.
  intros Hreq Hok.
  assert (Hfail : ∀ status stage, status <> Status.OK →
    wp (sim_fail request status ErrorOperation.FRAME stage) (transact_outcome request s) never s).
  { intros status stage Hst.
    eapply wp_conseq; [by apply (wp_refused request status _ stage 0 0 0 s s)| |done].
    intros f s' Hf. by apply refused_transact. }
  unfold sim_transact. do 3 (apply wp_if; intros _; [by apply Hfail|]).
  destruct (enum_of (fr_command request)) as [command|] eqn:Ec; [|by apply Hfail].
  apply wp_bind, wp_get, wp_if; intros Hs; [by apply Hfail|].
  eapply wp_conseq; [by apply (handler_ok command request s)| |done].
  intros f s' (H1 & H2 & H3 & H4). split; [done|]. split; [done|]. split; [done|].
  destruct (fr_status f =? Status.OK); [|done]. exists command. split; [|split; [|done]].
  - exact (enum_of_Some _ _ Ec).
  - intros Hr Hc. rewrite Hr, Hc in Hs. by apply negb_false_iff, bool_decide_eq_true in Hs.
Qed.
