(* ===== verification/SimulatorProperties.v ===== *)
(** What the contract implies for sequences of requests, and exactly when the
    simulator accepts a command. *)

(** * Properties of the simulator

    The refinement theorem of [sim_transact], and what it implies for
    sequences of requests ([run]): the journal invariant and the boot attempt
    limit, the order verify - IMAGE_VALID - boot attempt - run, and the gate
    of the RAM-resident service. *)

From S2P Require Import Prelude.
From S2P Require Import Errors.
From S2P Require Import Constants.
From S2P Require Import Words.
From S2P Require Import Frame.
From S2P Require Import Resync.
From S2P Require Import Models.
From S2P Require Import Firmware.
From S2P Require Import Packets.
From S2P Require Import Simulator.
From S2P Require Import Journal.
From S2P Require Import SimulatorProofs.
From S2P Require Import SimulatorTransact.

(** ** Initial states *)

(** A configuration the simulator can be built with. *)
Record config_ok (sectors : option (list FlashSector)) (info : option DeviceInfo) : Prop := {
  co_sectors : ∀ l, sectors = Some l → Forall sector_whole l ∧ zlen l <= 32;
  co_info : ∀ d, info = Some d →
    DeviceInfo_ok d ∧ 0 < di_max_data_words d ∧ di_max_data_words d mod 8 = 0;
}.

Lemma default_sectors_whole : Forall sector_whole default_sectors.
Proof.
  unfold default_sectors. rewrite !Forall_cons. unfold sector_whole, fs_end_exclusive,
    SLOT_A_METADATA_START, SLOT_A_METADATA_END. cbn. split_and!; try done; lia.
Qed.

Lemma default_device_info_ok :
  DeviceInfo_post_init default_device_info = Ok default_device_info ∧ DeviceInfo_ok default_device_info.
Proof.
  assert (DeviceInfo_post_init default_device_info = Ok default_device_info) as E by done.
  split; [done|]. by apply DeviceInfo_post_init_ok in E as [_ ?].
Qed.

Lemma SimulatorCore_init_ok sectors info faults gate :
  config_ok sectors info →
  ∃ s, SimulatorCore_init sectors info faults gate = Ok s ∧ Sim_ok s ∧
    sim_require_service s = gate ∧ sim_verify_succeeded s = false ∧
    sim_service_state s = ServiceState.DETACHED ∧ sim_pending_action s = ACTION_NONE ∧
    sim_flash s = ∅ ∧ sim_programmed s = ∅ ∧ sim_faults s = default no_faults faults.
Proof.
  intros [Hs Hi]. unfold SimulatorCore_init.
  set (secs := match sectors with None | Some [] => default_sectors | Some l => l end).
  assert (Forall sector_whole secs ∧ zlen secs <= 32) as [Hw Hl].
  { unfold secs. destruct sectors as [[|x l]|].
    - split; [apply default_sectors_whole|done].
    - by apply Hs.
    - split; [apply default_sectors_whole|done]. }
  replace (zlen secs >? 32) with false by lia.
  destruct default_device_info_ok as [Ed Hd].
  assert (∃ d, match info with None => DeviceInfo_post_init default_device_info | Some d => Ok d end = Ok d ∧
    DeviceInfo_ok d ∧ 0 < di_max_data_words d ∧ di_max_data_words d mod 8 = 0)
    as (d & -> & Hdok & Hmax).
  { destruct info as [d|]; [by exists d; split; [|apply Hi]|]. by exists default_device_info. }
  change (ErrorDetail_post_init (mkErrorDetail 0 0 0 0 0 0 0 0)) with (Ok (mkErrorDetail 0 0 0 0 0 0 0 0)).
  eexists. split; [reflexivity|]. split; [|by cbn]. split; cbn; try done.
  - split; unfold ErrorDetail_fields16, ErrorDetail_fields32; cbn; rewrite !Forall_cons; by split_and!.
  - exists []. by apply flash_journal_erased.
Qed.

(** ** The refinement theorem *)

Lemma transact_answers request s :
  Frame_ok request → Sim_ok s →
  ∃ f s', sim_transact request s = (Ok f, s') ∧ Sim_ok s' ∧ same_config s s' ∧ answers request f ∧
    (fr_status f = Status.Status_value Status.OK → accepted request s f s') ∧
    (fr_status f <> Status.Status_value Status.OK → rejected s s').
Proof.
  intros Hreq Hok. pose proof (sim_transact_spec request s Hreq Hok) as H. unfold wp in H.
  destruct (sim_transact request s) as [[f|e] s']; [|done].
  destruct H as (H1 & H2 & H3 & H4). exists f, s'. split_and!; try done.
  - intros E. rewrite E in H4. exact H4.
  - intros E. by replace (fr_status f =? Status.OK) with false in H4 by (symmetry; by apply Z.eqb_neq).
Qed.

(** C6: The simulator implements its specification.  From every state that
    satisfies the invariant, every well-formed request frame is answered with
    a well-formed frame that echoes command and sequence number; no exception
    escapes and the invariant is kept.  An answer with status OK means that
    the command's effect of SimulatorProofs.v has happened and, where the Flash
    commands require the RAM service, that it was attached; any other status
    means that Flash, RAM and the pending action are as before, that no
    verification was gained and no service attached or detached. *)
Theorem transact_refines_spec request s :
  Frame_ok request → Sim_ok s →
  ∃ f s', sim_transact request s = (Ok f, s') ∧ Sim_ok s' ∧ same_config s s' ∧ answers request f ∧
    (fr_status f = Status.Status_value Status.OK → accepted request s f s') ∧
    (fr_status f <> Status.Status_value Status.OK → rejected s s').
Proof. apply transact_answers. Qed.

Definition example_simulator : SimulatorCore :=
  match SimulatorCore_init None None None false with
  | Ok s => s
  | Raise _ => mkSim [] default_device_info no_faults false ∅ ∅ (mkErrorDetail 0 0 0 0 0 0 0 0)
      None None None None false ∅ ServiceState.DETACHED Status.OK 0 0 0 0 ACTION_NONE false
  end.

Lemma config_default_ok : config_ok None None.
Proof. by split. Qed.

Lemma example_simulator_ok : Sim_ok example_simulator.
Proof.
  destruct (SimulatorCore_init_ok None None None false config_default_ok) as (s & E & H & _).
  unfold example_simulator. by rewrite E.
Qed.

(** A request frame of the client. *)
Definition request_frame (command : Command.Command_t) (sequence : Z) (payload : list Z) : Frame :=
  mkFrame PacketType.REQUEST (Command.Command_value command) sequence payload 0 0 PROTOCOL_VERSION.

Lemma request_frame_ok command sequence payload :
  u16 sequence → sequence <> 0 → Forall u16 payload → zlen payload <= 0xFFFF →
  Frame_ok (request_frame command sequence payload).
Proof. intros. split; try done; by destruct command. Qed.

Lemma transact_refines_spec_witness :
  let request := request_frame Command.ERASE 7 [1; 0; 0] in
  Frame_ok request ∧ Sim_ok example_simulator ∧
  ∃ f s', sim_transact request example_simulator = (Ok f, s') ∧ Sim_ok s' ∧
    same_config example_simulator s' ∧ answers request f ∧
    (fr_status f = Status.Status_value Status.OK → accepted request example_simulator f s') ∧
    (fr_status f <> Status.Status_value Status.OK → rejected example_simulator s').
Proof.
  intros request.
  assert (Frame_ok request) as Hr by (apply request_frame_ok; [done|done|by repeat constructor|done]).
  split; [exact Hr|]. split; [exact example_simulator_ok|].
  exact (transact_refines_spec request example_simulator Hr example_simulator_ok).
Defined.

(** ** Sequences of requests *)

Abbreviation trace := (list (Frame * Frame)).

(** Requests with their answers, oldest first, from one state to another. *)
Inductive run : SimulatorCore → trace → SimulatorCore → Prop :=
| run_nil s : run s [] s
| run_snoc s tr s1 request f s2 :
    run s tr s1 → Frame_ok request → sim_transact request s1 = (Ok f, s2) →
    run s (tr ++ [(request, f)]) s2.

(** The entry was answered with [OK]. *)
Definition accepted_entry (command : Command.Command_t) (e : Frame * Frame) : Prop :=
  fr_command e.1 = Command.Command_value command ∧ fr_status e.2 = Status.Status_value Status.OK.

Lemma Command_value_inj c d : Command.Command_value c = Command.Command_value d → c = d.
Proof. destruct c, d; cbn; done. Qed.

Lemma run_ok s tr s' : run s tr s' → Sim_ok s → Sim_ok s' ∧ same_config s s'.
Proof.
  induction 1 as [|s tr s1 request f s2 _ IH Hreq E]; [done|]. intros Hok.
  destruct (IH Hok) as [Hok1 Hc1].
  destruct (transact_answers request s1 Hreq Hok1) as (f' & s2' & E' & Hok2 & Hc2 & _).
  rewrite E in E'. injection E' as <- <-. split; [done|].
  destruct Hc1 as (? & ? & ? & ?), Hc2 as (? & ? & ? & ?). unfold same_config. split_and!; congruence.
Qed.

(** One answered request, by its kind. *)
Lemma step_cases request s f s' :
  Sim_ok s → Frame_ok request → sim_transact request s = (Ok f, s') →
  Sim_ok s' ∧ same_config s s' ∧
  ((fr_status f <> Status.Status_value Status.OK ∧ rejected s s') ∨
   (∃ command, accepted_entry command (request, f) ∧
      (sim_require_service s = true → requires_service command = true →
       sim_service_state s = ServiceState.ATTACHED) ∧
      effect command request s f s' ∧ service_effect command request s s')).
Proof.
  intros Hok Hreq E.
  destruct (transact_answers request s Hreq Hok) as (f' & s'' & E' & H1 & H2 & _ & H3 & H4).
  rewrite E in E'. injection E' as <- <-. split; [done|]. split; [done|].
  destruct (decide (fr_status f = Status.Status_value Status.OK)) as [Hs|Hs]; [right|left; auto].
  destruct (H3 Hs) as (command & Hc & Hg & Heff & Hser). by exists command.
Qed.

(** The command of an accepted request whose code is known. *)
Lemma step_accepted command request s f s' :
  Sim_ok s → Frame_ok request → sim_transact request s = (Ok f, s') →
  accepted_entry command (request, f) →
  Sim_ok s' ∧ same_config s s' ∧
  (sim_require_service s = true → requires_service command = true →
   sim_service_state s = ServiceState.ATTACHED) ∧
  effect command request s f s' ∧ service_effect command request s s'.
Proof.
  intros Hok Hreq E [Hc Hs].
  destruct (step_cases request s f s' Hok Hreq E) as (H1 & H2 & [[Hn _]|(c & [Hc' _] & H)]); [done|].
  cbn in Hc, Hc'. rewrite Hc in Hc'. apply Command_value_inj in Hc' as <-. split_and!; try done; apply H.
Qed.

(** ** What happened since an event *)

(** A [gain] entry, and no [kill] entry after it. *)
Definition since (gain kill : Frame * Frame → Prop) (tr : trace) : Prop :=
  ∃ before v after, tr = before ++ v :: after ∧ gain v ∧ Forall (λ e, ¬ kill e) after.

Lemma since_here (gain kill : Frame * Frame → Prop) tr v : gain v → since gain kill (tr ++ [v]).
Proof. intros Hv. by exists tr, v, []. Qed.

Lemma since_later (gain kill : Frame * Frame → Prop) tr e :
  since gain kill tr → ¬ kill e → since gain kill (tr ++ [e]).
Proof.
  intros (before & v & after & -> & Hv & Ha) He. exists before, v, (after ++ [e]).
  rewrite <-app_assoc. split; [done|]. split; [done|]. apply Forall_app. split; [done|]. by repeat constructor.
Qed.

Lemma run_since (P : SimulatorCore → Prop) (gain kill : Frame * Frame → Prop) s tr s' :
  (∀ request s f s', Sim_ok s → Frame_ok request → sim_transact request s = (Ok f, s') → P s' →
    gain (request, f) ∨ (P s ∧ ¬ kill (request, f))) →
  run s tr s' → Sim_ok s → ¬ P s → P s' → since gain kill tr.
Proof.
  intros Hstep Hrun Hok Hn. induction Hrun as [|s tr s1 request f s2 Hrun IH Hreq E]; [done|].
  intros HP. destruct (run_ok s tr s1 Hrun Hok) as [Hok1 _].
  destruct (Hstep request s1 f s2 Hok1 Hreq E HP) as [Hg|[HP1 Hk]].
  - by apply since_here.
  - apply since_later; [|done]. by apply IH.
Qed.

(** ** Verification before IMAGE_VALID *)

Definition image_valid_entry (e : Frame * Frame) : Prop :=
  accepted_entry Command.METADATA_APPEND_RECORD e ∧
  pay e.1 0 = MetadataRecordType.MetadataRecordType_value MetadataRecordType.IMAGE_VALID.

Definition invalidates (e : Frame * Frame) : Prop :=
  accepted_entry Command.ERASE e ∨ accepted_entry Command.PROGRAM_DATA e ∨
  accepted_entry Command.PROGRAM_END e ∨ image_valid_entry e.

Lemma accepted_entry_is c d e : accepted_entry c e → accepted_entry d e → c = d.
Proof. intros [Hc _] [Hd _]. apply Command_value_inj. congruence. Qed.

Lemma rejected_entry c request f :
  fr_status f <> Status.Status_value Status.OK → ¬ accepted_entry c (request, f).
Proof. by intros H [_ ?]. Qed.

Lemma verified_step request s f s' :
  Sim_ok s → Frame_ok request → sim_transact request s = (Ok f, s') → sim_verify_succeeded s' = true →
  accepted_entry Command.VERIFY_END (request, f) ∨
  (sim_verify_succeeded s = true ∧ ¬ invalidates (request, f)).
Proof.
  intros Hok Hreq E Hv.
  destruct (step_cases request s f s' Hok Hreq E) as (_ & _ & [[Hn Hr]|(c & Hc & _ & He & _)]).
  - right. split; [by apply Hr|]. intros H.
    repeat destruct H as [H|H]; try by eapply rejected_entry. by destruct H; eapply rejected_entry.
  - assert (Hi : ¬ invalidates (request, f) ∨
      c = Command.ERASE ∨ c = Command.PROGRAM_DATA ∨ c = Command.PROGRAM_END ∨
      (c = Command.METADATA_APPEND_RECORD ∧
       pay request 0 = MetadataRecordType.MetadataRecordType_value MetadataRecordType.IMAGE_VALID)).
    { destruct (decide (c = Command.ERASE)); [tauto|]. destruct (decide (c = Command.PROGRAM_DATA)); [tauto|].
      destruct (decide (c = Command.PROGRAM_END)); [tauto|].
      destruct (decide (c = Command.METADATA_APPEND_RECORD ∧
        pay request 0 = MetadataRecordType.MetadataRecordType_value MetadataRecordType.IMAGE_VALID)) as [|Hne]; [tauto|].
      left. intros [H|[H|[H|[H Hk]]]]; pose proof (accepted_entry_is _ _ _ Hc H); [done..|]. by apply Hne. }
    assert (Hkeep : keeps_verified s s' ∨ c = Command.VERIFY_END ∨ sim_verify_succeeded s' = false ∨ s' = s ∨
      c = Command.METADATA_APPEND_RECORD) by (destruct c; cbn in He; tauto).
    destruct Hi as [Hi|[->|[->|[->|[-> Hk]]]]].
    + assert (sim_verify_succeeded s = true ∨ c = Command.VERIFY_END) as [?|Hce].
      { destruct Hkeep as [Hk|[Hk|[Hk|[Hk|Hk]]]]; [left; by rewrite <-Hk|by right|congruence|left; congruence|].
        left. subst c. destruct He as [(rs & rs' & _ & _ & _ & Ha) _].
        destruct (pay request 0 =? MetadataRecordType.IMAGE_VALID); [by apply Ha|].
        destruct Ha as [Ha _]. unfold keeps_verified in Ha. congruence. }
      * by right.
      * left. by subst c.
    + cbn in He. destruct_and!. congruence.
    + cbn in He. destruct_and!. congruence.
    + cbn in He. destruct_and!. congruence.
    + destruct He as [(rs & rs' & _ & _ & _ & Ha) _]. rewrite Hk in Ha. cbn in Ha.
      destruct_and!. congruence.
Qed.

(** C10: IMAGE_VALID only after verification.  When the simulator accepts a
    METADATA_APPEND_RECORD of kind IMAGE_VALID, an earlier VERIFY_END was
    accepted, and between the two no erase, no program packet, no PROGRAM_END
    and no other IMAGE_VALID record was: one verification pays for one
    record, and the Flash has not changed under it. *)
Theorem image_valid_after_verify s tr s1 request f s2 :
  Sim_ok s → sim_verify_succeeded s = false → run s tr s1 → Frame_ok request →
  sim_transact request s1 = (Ok f, s2) → image_valid_entry (request, f) →
  since (accepted_entry Command.VERIFY_END) invalidates tr.
Proof.
  intros Hok Hv Hrun Hreq E [Hacc Hkind]. destruct (run_ok s tr s1 Hrun Hok) as [Hok1 _].
  destruct (step_accepted _ _ _ _ _ Hok1 Hreq E Hacc) as (_ & _ & _ & [(rs & rs' & _ & _ & _ & Ha) _] & _).
  cbn in Hkind. rewrite Hkind in Ha. cbn in Ha. destruct Ha as (Hv1 & _).
  refine (run_since (λ s, sim_verify_succeeded s = true) _ _ s tr s1 _ Hrun Hok _ Hv1); [|congruence].
  apply verified_step.
Qed.

(** ** The service gate *)

Definition detaches (e : Frame * Frame) : Prop :=
  accepted_entry Command.RAM_LOAD_DATA e ∧ overlaps_service e.1 = true.

Lemma attached_step request s f s' :
  Sim_ok s → Frame_ok request → sim_transact request s = (Ok f, s') →
  sim_service_state s' = ServiceState.ATTACHED →
  accepted_entry Command.SERVICE_ATTACH (request, f) ∨
  (sim_service_state s = ServiceState.ATTACHED ∧ ¬ detaches (request, f)).
Proof.
  intros Hok Hreq E Ha.
  destruct (step_cases request s f s' Hok Hreq E) as (_ & _ & [[Hn Hr]|(c & Hc & _ & _ & Hs)]).
  - right. split; [by apply Hr|]. intros [H _]. by eapply rejected_entry.
  - destruct (decide (c = Command.SERVICE_ATTACH)) as [->|Hne]; [by left|right].
    destruct (decide (c = Command.RAM_LOAD_DATA)) as [->|Hne'].
    + cbn in Hs. destruct (overlaps_service request) eqn:Eo; [congruence|].
      split; [congruence|]. intros [_ H]. cbn in H. congruence.
    + split; [destruct c; cbn in Hs; congruence|].
      intros [H _]. by pose proof (accepted_entry_is _ _ _ Hc H).
Qed.

(** The service gate.  With [require_service_for_flash_commands], a Flash
    or metadata command is accepted only if a SERVICE_ATTACH was accepted
    before, and no RAM download has touched the service area since. *)
Theorem flash_commands_need_service s tr s1 request f s2 command :
  Sim_ok s → sim_require_service s = true → sim_service_state s <> ServiceState.ATTACHED →
  run s tr s1 → Frame_ok request → sim_transact request s1 = (Ok f, s2) →
  accepted_entry command (request, f) → requires_service command = true →
  since (accepted_entry Command.SERVICE_ATTACH) detaches tr.
Proof.
  intros Hok Hgate Hs Hrun Hreq E Hacc Hcmd. destruct (run_ok s tr s1 Hrun Hok) as [Hok1 Hcfg].
  destruct (step_accepted _ _ _ _ _ Hok1 Hreq E Hacc) as (_ & _ & Hg & _).
  assert (sim_service_state s1 = ServiceState.ATTACHED) as Ha.
  { apply Hg; [|done]. destruct Hcfg as (_ & _ & _ & ->). done. }
  refine (run_since (λ s, sim_service_state s = ServiceState.ATTACHED) _ _ s tr s1 _ Hrun Hok Hs Ha).
  apply attached_step.
Qed.

(** ** The journal and the history *)

Definition is_append (kind : MetadataRecordType.MetadataRecordType_t) (e : Frame * Frame) : bool :=
  (fr_command e.1 =? Command.Command_value Command.METADATA_APPEND_RECORD)
  && (fr_status e.2 =? Status.Status_value Status.OK)
  && (pay e.1 0 =? MetadataRecordType.MetadataRecordType_value kind).

Definition count_appends (kind : MetadataRecordType.MetadataRecordType_t) (tr : trace) : Z :=
  zlen (List.filter (is_append kind) tr).

Lemma is_append_true kind e :
  is_append kind e = true ↔
  accepted_entry Command.METADATA_APPEND_RECORD e ∧
  pay e.1 0 = MetadataRecordType.MetadataRecordType_value kind.
Proof. unfold is_append, accepted_entry. rewrite !andb_true_iff, !Z.eqb_eq. done. Qed.

(** What the journal says about its latest image is what happened since the
    IMAGE_VALID record of that image was accepted. *)
Definition history (tr : trace) (rs : list (list Z)) : Prop :=
  match js_image (journal_state rs) with
  | None => True
  | Some image =>
      ∃ before v after, tr = before ++ v :: after ∧
        is_append MetadataRecordType.IMAGE_VALID v = true ∧
        rec32 image 14 = pay32 v.1 2 ∧ rec32 image 16 = pay32 v.1 4 ∧ rec32 image 18 = pay32 v.1 6 ∧
        Forall (λ e, is_append MetadataRecordType.IMAGE_VALID e = false) after ∧
        (js_attempts (journal_state rs) <= count_appends MetadataRecordType.BOOT_ATTEMPT after) ∧
        (js_confirmed (journal_state rs) = false →
         js_attempts (journal_state rs) = count_appends MetadataRecordType.BOOT_ATTEMPT after) ∧
        (js_confirmed (journal_state rs) = true →
         0 < count_appends MetadataRecordType.APP_CONFIRMED after)
  end.

Lemma count_appends_app kind tr tr' :
  count_appends kind (tr ++ tr') = count_appends kind tr + count_appends kind tr'.
Proof. unfold count_appends. by rewrite List.filter_app, zlen_app. Qed.

Lemma count_appends_one kind e : count_appends kind [e] = if is_append kind e then 1 else 0.
Proof. unfold count_appends. simpl. by destruct (is_append kind e). Qed.

(** An entry that appends nothing leaves the history as it is. *)
Lemma history_skip tr e rs :
  history tr rs → (∀ kind, is_append kind e = false) → history (tr ++ [e]) rs.
Proof.
  unfold history. intros H He. destruct (js_image (journal_state rs)) as [image|]; [|done].
  destruct H as (before & v & after & -> & Hv & H1 & H2 & H3 & H4 & H5 & H6 & H7).
  exists before, v, (after ++ [e]). rewrite !count_appends_app, !count_appends_one, !He, !Z.add_0_r.
  split; [by rewrite <-app_assoc|]. split_and!; try done. apply Forall_app. split; [done|].
  by repeat constructor.
Qed.

Lemma not_append c request f kind :
  accepted_entry c (request, f) → c <> Command.METADATA_APPEND_RECORD → is_append kind (request, f) = false.
Proof.
  intros Hc Hne. apply not_true_iff_false. rewrite is_append_true. intros [H _].
  apply Hne. by eapply accepted_entry_is.
Qed.

(** The journal after an accepted command that is not an append. *)
Lemma journal_after command request s f s' rs :
  effect command request s f s' → command <> Command.METADATA_APPEND_RECORD →
  Forall sector_whole (sim_sectors s) → flash_journal (sim_flash s) rs →
  ∃ rs', flash_journal (sim_flash s') rs' ∧ (rs' = [] ∨ rs' = rs).
Proof.
  intros He Hne Hw Hrs.
  assert (Hcase : keeps_flash s s' ∨ s' = s ∨ command = Command.ERASE ∨ command = Command.PROGRAM_DATA)
    by (destruct command; cbn in He; tauto).
  destruct Hcase as [[Hf _]|[->|[->| ->]]].
  - exists rs. rewrite Hf. auto.
  - eauto.
  - destruct He as [Hf _].
    replace (sim_flash s') with (outside (selected_sectors s (pay32 request 0)) (sim_flash s)).
    + apply erase_journal; [by apply selected_whole|done].
    + apply map_eq. intros a. by rewrite outside_lookup, Hf.
  - destruct He as (Hf & _ & Hr & _). exists rs. split; [|by right].
    apply (flash_journal_outside (sim_flash s)); [done|]. intros a Ha. rewrite Hf.
    apply write_words_outside. intros Hin. by apply (Hr a Hin).
Qed.

Lemma history_append tr request s f s' :
  accepted_entry Command.METADATA_APPEND_RECORD (request, f) → appended request s s' →
  (∀ rs, flash_journal (sim_flash s) rs → history tr rs) →
  ∀ rs', flash_journal (sim_flash s') rs' → history (tr ++ [(request, f)]) rs'.
Proof.
  intros Hacc (rs & rs' & Hrs & Hrs' & _ & Ha) Hh rs'' Hrs''.
  rewrite (flash_journal_unique _ _ _ Hrs'' Hrs'). specialize (Hh rs Hrs).
  assert (Hkind : ∀ kind, is_append kind (request, f) =
    (pay request 0 =? MetadataRecordType.MetadataRecordType_value kind)).
  { intros kind. unfold is_append. destruct Hacc as [H1 H2]. by rewrite H1, H2, !Z.eqb_refl. }
  destruct (pay request 0 =? MetadataRecordType.IMAGE_VALID) eqn:Ek.
  - destruct Ha as (_ & _ & r & -> & Hst & H1 & H2 & H3). unfold history. rewrite Hst.
    exists tr, (request, f), []. split_and!; try done. by rewrite Hkind.
  - destruct Ha as [_ Ha]. destruct (js_confirmed (journal_state rs)) eqn:Ec.
    + subst rs'. unfold history in *. destruct (js_image (journal_state rs)) as [image|]; [|done].
      destruct Hh as (before & v & after & -> & Hv & H1 & H2 & H3 & H4 & H5 & H6 & H7).
      exists before, v, (after ++ [(request, f)]). rewrite !count_appends_app, !count_appends_one, !Hkind.
      split; [by rewrite <-app_assoc|]. split_and!; try done.
      * apply Forall_app. split; [done|]. repeat constructor. by rewrite Hkind.
      * case_match; lia.
      * congruence.
      * intros _. specialize (H7 Ec). case_match; lia.
    + unfold history in *. rewrite Ha. cbn [js_image js_attempts js_confirmed].
      destruct (js_image (journal_state rs)) as [image|]; [|done].
      destruct Hh as (before & v & after & -> & Hv & H1 & H2 & H3 & H4 & H5 & H6 & H7).
      specialize (H6 Ec). exists before, v, (after ++ [(request, f)]).
      rewrite !count_appends_app, !count_appends_one, !Hkind.
      change (pay request 0 =? MetadataRecordType.BOOT_ATTEMPT)
        with (pay request 0 =? MetadataRecordType.MetadataRecordType_value MetadataRecordType.BOOT_ATTEMPT).
      split; [by rewrite <-app_assoc|]. split_and!; try done.
      * apply Forall_app. split; [done|]. repeat constructor. by rewrite Hkind.
      * case_match; lia.
      * intros _. case_match; lia.
      * intros Hk. change (pay request 0 =? MetadataRecordType.APP_CONFIRMED)
          with (pay request 0 =? MetadataRecordType.MetadataRecordType_value MetadataRecordType.APP_CONFIRMED) in Hk.
        rewrite Hk. pose proof (zlen_nonneg (List.filter (is_append MetadataRecordType.APP_CONFIRMED) after)).
        unfold count_appends. lia.
Qed.

Lemma run_history s tr s' :
  run s tr s' → Sim_ok s → flash_journal (sim_flash s) [] →
  ∀ rs, flash_journal (sim_flash s') rs → history tr rs.
Proof.
  intros Hrun Hok H0. induction Hrun as [|s tr s1 request f s2 Hrun IH Hreq E]; intros rs Hrs.
  { by rewrite (flash_journal_unique _ _ _ Hrs H0). }
  destruct (run_ok s tr s1 Hrun Hok) as [Hok1 _]. specialize (IH Hok H0).
  destruct (step_cases request s1 f s2 Hok1 Hreq E) as (_ & _ & [[Hn [[Hf _] _]]|(c & Hc & _ & He & _)]).
  - rewrite Hf in Hrs. apply history_skip; [by apply IH|]. intros kind. apply not_true_iff_false.
    rewrite is_append_true. intros [H _]. by eapply rejected_entry.
  - destruct (decide (c = Command.METADATA_APPEND_RECORD)) as [->|Hne].
    + destruct He as [Ha _]. by eapply history_append.
    + destruct (so_journal s1 Hok1) as [rs1 Hrs1].
      destruct (journal_after c request s1 f s2 rs1 He Hne (so_sectors s1 Hok1) Hrs1) as (rs2 & Hrs2 & Hor).
      rewrite (flash_journal_unique _ _ _ Hrs Hrs2). destruct Hor as [->| ->]; [done|].
      apply history_skip; [by apply IH|]. intros kind. by eapply not_append.
Qed.

(** C9: Running the application.  When RUN is accepted (the metadata area was
    empty at the start), an IMAGE_VALID record with the requested entry point
    was accepted before, no other IMAGE_VALID record has been accepted since,
    and since then either APP_CONFIRMED was accepted, or exactly n
    BOOT_ATTEMPT records were, with 1 <= n <= 3. *)
Theorem run_needs_attempt s tr s1 request f s2 :
  Sim_ok s → flash_journal (sim_flash s) [] → run s tr s1 → Frame_ok request →
  sim_transact request s1 = (Ok f, s2) → accepted_entry Command.RUN (request, f) →
  ∃ before v after, tr = before ++ v :: after ∧
    is_append MetadataRecordType.IMAGE_VALID v = true ∧ pay32 v.1 2 = pay32 request 1 ∧
    Forall (λ e, is_append MetadataRecordType.IMAGE_VALID e = false) after ∧
    1 <= count_appends MetadataRecordType.BOOT_ATTEMPT after ∧
    (0 < count_appends MetadataRecordType.APP_CONFIRMED after ∨
     count_appends MetadataRecordType.BOOT_ATTEMPT after <= METADATA_BOOT_ATTEMPT_LIMIT).
Proof.
  intros Hok H0 Hrun Hreq E Hacc. destruct (run_ok s tr s1 Hrun Hok) as [Hok1 _].
  destruct (step_accepted _ _ _ _ _ Hok1 Hreq E Hacc) as (_ & _ & _ & He & _).
  destruct He as (_ & _ & _ & _ & rs & image & Hrs & Hi & Hentry & Hor).
  pose proof (run_history s tr s1 Hrun Hok H0 rs Hrs) as Hh. unfold history in Hh. rewrite Hi in Hh.
  destruct Hh as (before & v & after & -> & Hv & H1 & H2 & H3 & H4 & H5 & H6 & H7).
  destruct (journal_bounds rs (fj_journal _ _ Hrs)) as (Hb & Hconf & _).
  exists before, v, after. split_and!; try done; [congruence| |].
  - destruct Hor as [Hc|?]; [specialize (Hconf Hc); lia|lia].
  - destruct (js_confirmed (journal_state rs)); [left; auto|right]. rewrite <-H6 by done. lia.
Qed.

(** ** Programmed words *)

(** The entry is an accepted erase of a sector that contains [a]. *)
Definition erases (s : SimulatorCore) (a : Z) (e : Frame * Frame) : Prop :=
  accepted_entry Command.ERASE e ∧ in_sectors (selected_sectors s (pay32 e.1 0)) a = true.

Lemma selected_sectors_config s s' mask :
  same_config s s' → selected_sectors s' mask = selected_sectors s mask.
Proof. unfold selected_sectors. by intros (-> & _). Qed.

(** A programmed word survives every request that does not erase it. *)
Lemma programmed_step s0 request s f s' a w :
  Sim_ok s → same_config s0 s → Frame_ok request → sim_transact request s = (Ok f, s') →
  ¬ erases s0 a (request, f) → ¬ (SLOT_A_METADATA_START <= a < SLOT_A_METADATA_END) →
  a ∈ sim_programmed s → sim_flash s !! a = Some w →
  a ∈ sim_programmed s' ∧ sim_flash s' !! a = Some w.
Proof.
  intros Hok Hcfg Hreq E Hn Hm Hp Hw.
  destruct (step_cases request s f s' Hok Hreq E) as (_ & _ & [[_ [[-> ->] _]]|(c & Hc & _ & He & _)]); [done|].
  assert (Hcase : keeps_flash s s' ∨ s' = s ∨ c = Command.ERASE ∨ c = Command.PROGRAM_DATA ∨
    c = Command.METADATA_APPEND_RECORD) by (destruct c; cbn in He; tauto).
  destruct Hcase as [[-> ->]|[->|[->|[->| ->]]]]; [done..| | |].
  - destruct He as (Hf & Hpr & _). rewrite Hf, Hpr.
    assert (in_sectors (selected_sectors s (pay32 request 0)) a = false) as ->; [|done].
    apply not_true_iff_false. intros Hin. apply Hn. split; [done|].
    by rewrite (selected_sectors_config s0 s _ Hcfg) in Hin.
  - destruct He as (Hf & Hpr & Hr & _). rewrite Hpr. split; [by right|]. rewrite Hf.
    rewrite write_words_outside; [done|]. intros Hin. by destruct (Hr a Hin) as [? _].
  - destruct He as ((rs & rs' & _ & _ & Hout & _) & -> & _). split; [done|]. by rewrite Hout.
Qed.

Lemma run_programmed s0 s tr s' a w :
  run s tr s' → Sim_ok s → same_config s0 s → Forall (λ e, ¬ erases s0 a e) tr →
  ¬ (SLOT_A_METADATA_START <= a < SLOT_A_METADATA_END) →
  a ∈ sim_programmed s → sim_flash s !! a = Some w →
  a ∈ sim_programmed s' ∧ sim_flash s' !! a = Some w.
Proof.
  intros Hrun Hok Hcfg Htr Hm Hp Hw. induction Hrun as [|s tr s1 request f s2 Hrun IH Hreq E]; [done|].
  apply Forall_app in Htr as [Htr [Hlast _]%Forall_cons]. destruct (run_ok s tr s1 Hrun Hok) as [Hok1 Hc1].
  destruct IH as [Hp1 Hw1]; try done.
  eapply (programmed_step s0 request s1); eauto. destruct Hcfg as (? & ? & ? & ?), Hc1 as (? & ? & ? & ?).
  unfold same_config. split_and!; congruence.
Qed.

(** C11: Programmed words stay.  After an accepted PROGRAM_DATA, and until a
    sector that holds one of its addresses is erased, the Flash holds there
    exactly the word of the packet, and every further PROGRAM_DATA that would
    touch the address is refused. *)
Theorem programmed_words_stay s request f s1 tr s2 i :
  Sim_ok s → Frame_ok request → sim_transact request s = (Ok f, s1) →
  accepted_entry Command.PROGRAM_DATA (request, f) → run s1 tr s2 →
  0 <= i < payload_len request - 5 → Forall (λ e, ¬ erases s (pay32 request 0 + i) e) tr →
  sim_flash s2 !! (pay32 request 0 + i) = Some (pay request (5 + i)) ∧
  (∀ request' f' s3, Frame_ok request' → sim_transact request' s2 = (Ok f', s3) →
     pay32 request' 0 <= pay32 request 0 + i < pay32 request' 0 + (payload_len request' - 5) →
     ¬ accepted_entry Command.PROGRAM_DATA (request', f')).
Proof.
  intros Hok Hreq E Hacc Hrun Hi Htr.
  destruct (step_accepted _ _ _ _ _ Hok Hreq E Hacc) as (Hok1 & Hc1 & _ & He & _).
  destruct He as (Hf & Hp & Hr & _). set (a := pay32 request 0 + i) in *.
  assert (∀ r, zlen (slice_from (fr_payload r) 5) = Z.max 0 (payload_len r - 5)) as Hlen.
  { intros r. unfold slice_from, payload_len. rewrite zlen_drop. lia. }
  assert (pay32 request 0 <= a < pay32 request 0 + zlen (slice_from (fr_payload request) 5)) as Ha
    by (rewrite Hlen; unfold a; lia).
  destruct (run_programmed s s1 tr s2 a (pay request (5 + i)) Hrun) as [Hp2 Hw2]; try done.
  - by apply Hr.
  - apply Hp. by left.
  - rewrite Hf, write_words_inside by done. f_equal. unfold pay, at_, slice_from, a.
    rewrite List.nth_skipn. f_equal. lia.
  - split; [done|]. intros request' f' s3 Hreq' E' Hin Hacc'.
    destruct (run_ok s1 tr s2 Hrun Hok1) as [Hok2 _].
    destruct (step_accepted _ _ _ _ _ Hok2 Hreq' E' Hacc') as (_ & _ & _ & He' & _).
    destruct He' as (_ & _ & Hr' & _). destruct (Hr' a) as [Hn _]; [rewrite Hlen; lia|]. done.
Qed.

(** ** What GET_METADATA_SUMMARY reports *)

(** The metadata summary is the abstract journal.  With an empty payload
    GET_METADATA_SUMMARY is answered OK with words from which the client's
    [MetadataSummary.from_words] reads exactly the abstract state of the
    journal in Flash: the latest image, the attempts and confirmation since,
    the number of records and the first free one. *)
Theorem metadata_summary_reports_journal request s rs :
  Frame_ok request → Sim_ok s → flash_journal (sim_flash s) rs → payload_len request = 0 →
  ∃ f, sim_get_metadata_summary request s = (Ok f, s) ∧
    fr_status f = Status.Status_value Status.OK ∧
    MetadataSummary_from_words (fr_payload f) = Ok (summary_of rs).
Proof.
  intros Hreq Hok Hrs Hl.
  destruct (journal_payload_words rs (fj_journal _ _ Hrs) (fj_length _ _ Hrs)) as [Hu Hpl].
  assert (wp (sim_get_metadata_summary request)
    (λ f s', f = response request Status.OK (journal_payload rs) ∧ s' = s) never s) as Hw.
  { apply wp_bind. unfold require_empty. rewrite Hl. apply wp_ret, wp_bind, wp_get, wp_bind.
    rewrite (summary_payload_journal s rs Hrs). apply wp_lift; [|done]. intros ws [= <-].
    apply wp_response; try done. by rewrite Hpl. }
  unfold wp in Hw. destruct (sim_get_metadata_summary request s) as [[f|e] s']; [|done].
  destruct Hw as [-> ->]. exists (response request Status.OK (journal_payload rs)).
  split; [done|]. split; [done|].
  exact (from_words_journal rs (fj_journal _ _ Hrs) (fj_length _ _ Hrs)).
Qed.

(** ** A complete session, for the witnesses *)

(** The answer of an accepted request and the state after it. *)
Definition answer (request : Frame) (s : SimulatorCore) : Frame :=
  match (sim_transact request s).1 with Ok f => f | Raise _ => request end.
Definition after (request : Frame) (s : SimulatorCore) : SimulatorCore := (sim_transact request s).2.

Lemma transact_answer request s :
  Frame_ok request → Sim_ok s → sim_transact request s = (Ok (answer request s), after request s).
Proof.
  intros Hreq Hok. destruct (transact_answers request s Hreq Hok) as (f & s' & E & _).
  unfold answer, after. by rewrite E.
Qed.

Fixpoint session (requests : list Frame) (tr : trace) (s : SimulatorCore) : trace * SimulatorCore :=
  match requests with
  | [] => (tr, s)
  | request :: requests => session requests (tr ++ [(request, answer request s)]) (after request s)
  end.

Lemma session_run s0 requests tr s :
  Sim_ok s0 → Forall Frame_ok requests → run s0 tr s →
  run s0 (session requests tr s).1 (session requests tr s).2.
Proof.
  intros H0 H. revert tr s. induction H as [|request requests Hreq _ IH]; intros tr s Hrun; [done|].
  cbn. apply IH. econstructor; [done|done|]. apply transact_answer; [done|].
  by destruct (run_ok s0 tr s Hrun H0).
Qed.

(** One packet programmed, verified, recorded, attempted and run, all with
    sequence number 7. *)
Definition demo_words : list Z := [0x11; 0x22; 0x33; 0x44; 0x55; 0x66; 0x77; 0x88].
Definition demo_data (command : Command.Command_t) : Frame :=
  request_frame command 7 ([0x2400; 0x0008; 8; 0; 0] ++ demo_words).
Definition demo_begin (command : Command.Command_t) : Frame :=
  request_frame command 7
    [Target.Target_value Target.FLASH_APP; 1; 8; 0; 0x2400; 0x0008; 0; 0; 0].
Definition demo_end (command : Command.Command_t) : Frame := request_frame command 7 [1; 0; 8; 0; 0; 0].
Definition demo_append (kind : MetadataRecordType.MetadataRecordType_t) : Frame :=
  request_frame Command.METADATA_APPEND_RECORD 7
    [MetadataRecordType.MetadataRecordType_value kind; 1; 0x2400; 0x0008; 8; 0; 5; 6;
     0; 0; 0; 0; 0; (if bool_decide (kind = MetadataRecordType.IMAGE_VALID) then 0x2408 else 0);
     (if bool_decide (kind = MetadataRecordType.IMAGE_VALID) then 0x0008 else 0); 0].
Definition demo_run : Frame := request_frame Command.RUN 7
  [Target.Target_value Target.FLASH_APP; 0x2400; 0x0008; 0].

Definition demo_verified : list Frame :=
  [request_frame Command.ERASE 7 [2; 0; 0]; demo_begin Command.PROGRAM_BEGIN;
   demo_data Command.PROGRAM_DATA; demo_end Command.PROGRAM_END;
   demo_begin Command.VERIFY_BEGIN; demo_data Command.VERIFY_DATA; demo_end Command.VERIFY_END].

Definition demo_requests : list Frame :=
  demo_verified ++ [demo_append MetadataRecordType.IMAGE_VALID;
                    demo_append MetadataRecordType.BOOT_ATTEMPT].

(** [Frame_ok] as a test, for concrete frames. *)
Definition frame_okb (f : Frame) : bool :=
  fits_u16 (fr_packet_type f) && fits_u16 (fr_command f) && fits_u16 (fr_sequence f)
  && negb (fr_sequence f =? 0) && forallb fits_u16 (fr_payload f)
  && (zlen (fr_payload f) <=? 0xFFFF) && fits_u16 (fr_flags f) && fits_u16 (fr_status f)
  && fits_u16 (fr_protocol_version f).

Lemma frames_checked l : forallb frame_okb l = true → Forall Frame_ok l.
Proof.
  induction l as [|f l IH]; intros H; constructor; cbn [forallb] in H;
    apply andb_true_iff in H as [Hf Hl]; [|by apply IH].
  unfold frame_okb in Hf. rewrite !andb_true_iff, !fits_u16_spec, forallb_fits_u16 in Hf.
  destruct_and!. split; try done; lia.
Qed.

Lemma demo_frames_ok : Forall Frame_ok (demo_requests ++ [demo_run]).
Proof. apply frames_checked. by vm_compute. Qed.

(** The session up to a request, and the request. *)
Lemma demo_step l request k :
  demo_requests ++ [demo_run] = l ++ request :: k →
  run example_simulator (session l [] example_simulator).1 (session l [] example_simulator).2 ∧
  Frame_ok request ∧ Sim_ok (session l [] example_simulator).2.
Proof.
  intros E. pose proof demo_frames_ok as H. rewrite E in H. apply Forall_app in H as [H1 [H2 _]%Forall_cons].
  pose proof (session_run example_simulator l [] example_simulator example_simulator_ok H1 (run_nil _)) as Hrun.
  split; [done|]. split; [done|]. by apply (run_ok _ _ _ Hrun example_simulator_ok).
Qed.

Lemma image_valid_after_verify_witness :
  since (accepted_entry Command.VERIFY_END) invalidates (session demo_verified [] example_simulator).1.
Proof.
  destruct (demo_step demo_verified (demo_append MetadataRecordType.IMAGE_VALID) _ eq_refl) as (Hrun & Hr & Hok).
  apply (image_valid_after_verify _ _ _ _ _ _ example_simulator_ok eq_refl Hrun Hr (transact_answer _ _ Hr Hok)).
  by vm_compute.
Defined.

Lemma run_needs_attempt_witness :
  1 <= count_appends MetadataRecordType.BOOT_ATTEMPT
         (session demo_requests [] example_simulator).1.
Proof.
  destruct (demo_step demo_requests demo_run [] eq_refl) as (Hrun & Hr & Hok).
  destruct (run_needs_attempt _ _ _ _ _ _ example_simulator_ok (flash_journal_erased ∅ (λ a _, lookup_empty a))
    Hrun Hr (transact_answer _ _ Hr Hok)) as (before & v & aft & E & _ & _ & _ & H & _).
  { by vm_compute. }
  rewrite E. change (before ++ v :: aft) with (before ++ [v] ++ aft).
  rewrite !count_appends_app. pose proof (zlen_nonneg (List.filter (is_append MetadataRecordType.BOOT_ATTEMPT) before)).
  pose proof (zlen_nonneg (List.filter (is_append MetadataRecordType.BOOT_ATTEMPT) [v])).
  unfold count_appends in *. lia.
Defined.

Lemma programmed_words_stay_witness :
  let s := (session (take 2 demo_verified) [] example_simulator).2 in
  sim_flash (after (demo_data Command.PROGRAM_DATA) s) !! (0x082403) = Some 0x44.
Proof.
  destruct (demo_step (take 2 demo_verified) (demo_data Command.PROGRAM_DATA) _ eq_refl) as (Hrun & Hr & Hok).
  destruct (programmed_words_stay _ _ _ _ [] (after (demo_data Command.PROGRAM_DATA)
    (session (take 2 demo_verified) [] example_simulator).2) 3 Hok Hr (transact_answer _ _ Hr Hok)) as [H _];
    [by vm_compute|apply run_nil|by vm_compute|constructor|].
  exact H.
Defined.

Lemma metadata_summary_reports_journal_witness :
  ∃ f, sim_get_metadata_summary (request_frame Command.GET_METADATA_SUMMARY 7 []) example_simulator
         = (Ok f, example_simulator) ∧
    fr_status f = Status.Status_value Status.OK ∧
    MetadataSummary_from_words (fr_payload f) = Ok (summary_of []).
Proof.
  apply metadata_summary_reports_journal; [|exact example_simulator_ok| |reflexivity].
  - by apply request_frame_ok.
  - exact (flash_journal_erased ∅ (λ a _, lookup_empty a)).
Defined.

(** A service image of 28 header words and 8 code words, downloaded and
    attached on a simulator that requires the service. *)
Definition gated_simulator : SimulatorCore :=
  match SimulatorCore_init None None None true with Ok s => s | Raise _ => example_simulator end.

Lemma gated_simulator_ok : Sim_ok gated_simulator.
Proof.
  destruct (SimulatorCore_init_ok None None None true config_default_ok) as (s & E & H & _).
  unfold gated_simulator. by rewrite E.
Qed.

Definition crc_pair (ws : list Z) : list Z :=
  match crc32_words ws with Ok c => [Z.land c 0xFFFF; Z.shiftr c 16] | Raise _ => [] end.

Definition demo_code : list Z := [1; 2; 3; 4; 5; 6; 7; 8].
Definition demo_header : list Z :=
  let head := [Z.land SERVICE_HEADER_MAGIC 0xFFFF; Z.shiftr SERVICE_HEADER_MAGIC 16;
     SERVICE_HEADER_VERSION; SERVICE_HEADER_WORDS; SERVICE_ABI_MAJOR; SERVICE_ABI_MINOR;
     0x8020; 0; 0x8028; 0; 0; 0; 0; 0; 0; 0; 0x8020; 0; 0x8022; 0;
     Z.land SERVICE_REQUIRED_CAPABILITIES 0xFFFF; 0; SERVICE_IMAGE_CRC32_IEEE; 0] ++ crc_pair demo_code in
  head ++ crc_pair head.
Definition demo_image : list Z := demo_header ++ [0; 0; 0; 0] ++ demo_code.

Definition demo_attach : list Frame :=
  [request_frame Command.RAM_LOAD_BEGIN 7 [Target.Target_value Target.RAM_APP; 1; 40; 0; 0x8020; 0; 0; 0; 0];
   request_frame Command.RAM_LOAD_DATA 7 ([0x8000; 0; 40; 0; 0] ++ demo_image);
   request_frame Command.RAM_LOAD_END 7 [1; 0; 40; 0; 0; 0];
   request_frame Command.RAM_CHECK_CRC 7 (crc_pair demo_image ++ [40; 0; 0]);
   request_frame Command.SERVICE_ATTACH 7 ([0x8000; 0] ++ crc_pair demo_image ++ [40; 0; 0])].

Lemma demo_attach_ok : Forall Frame_ok demo_attach.
Proof. apply frames_checked. by vm_compute. Qed.

Lemma flash_commands_need_service_witness :
  since (accepted_entry Command.SERVICE_ATTACH) detaches (session demo_attach [] gated_simulator).1.
Proof.
  pose proof (session_run gated_simulator demo_attach [] gated_simulator gated_simulator_ok
    demo_attach_ok (run_nil _)) as Hrun.
  pose proof (proj1 (run_ok _ _ _ Hrun gated_simulator_ok)) as Hok.
  assert (Frame_ok (request_frame Command.ERASE 7 [2; 0; 0])) as Hr
    by (apply request_frame_ok; [done|done|by repeat constructor|done]).
  apply (flash_commands_need_service _ _ _ _ _ _ Command.ERASE gated_simulator_ok eq_refl
    ltac:(discriminate) Hrun Hr (transact_answer _ _ Hr Hok)); by vm_compute.
Defined.

(** * When the simulator accepts

    The other half of the specification: under which conditions the commands
    of an upgrade are answered with OK, and the exact state they leave.  Each
    lemma is the accepting path of one handler. *)

(** [m] returns [f] and leaves [s']. *)
Definition gives (m : Sim Frame) (s : SimulatorCore) (f : Frame) (s' : SimulatorCore) : Prop :=
  wp m (λ g t, g = f ∧ t = s') never s.

Lemma gives_eq m s f s' : gives m s f s' → m s = (Ok f, s').
Proof. unfold gives, wp. destruct (m s) as [[g|e] t]; [by intros [-> ->]|done]. Qed.

Lemma gives_response request s payload :
  Frame_ok request → Forall u16 payload → zlen payload <= 0xFFFF →
  gives (sim_response request Status.OK payload) s (response request Status.OK payload) s.
Proof. intros. by apply wp_response. Qed.

Lemma gives_ok request s :
  Frame_ok request → gives (sim_response request Status.OK []) s (response request Status.OK []) s.
Proof. intros. by apply gives_response. Qed.


Lemma wp_guard {A} (b : bool) (m1 m2 : Sim A) Q E s :
  b = false → wp m2 Q E s → wp (if b then m1 else m2) Q E s.
Proof. by intros ->. Qed.

(** ** Dispatch *)

Definition gate_open (command : Command.Command_t) (s : SimulatorCore) : Prop :=
  sim_require_service s = true → requires_service command = true →
  sim_service_state s = ServiceState.ATTACHED.

Record request_for (command : Command.Command_t) (request : Frame) : Prop := {
  rf_ok : Frame_ok request;
  rf_type : fr_packet_type request = PacketType.PacketType_value PacketType.REQUEST;
  rf_version : fr_protocol_version request = PROTOCOL_VERSION;
  rf_flags : fr_flags request = 0;
  rf_command : fr_command request = Command.Command_value command;
}.

Lemma transact_dispatch command request s f s' :
  request_for command request → gate_open command s →
  gives (handler command request) s f s' → gives (sim_transact request) s f s'.
Proof.
  intros [_ Ht Hv Hf Hc] Hg Hh. unfold gives, sim_transact.
  rewrite Ht, Hv, Hf, Hc. do 3 (apply wp_guard; [done|]).
  change (Command.Command_value command) with (value command). rewrite enum_of_value.
  apply wp_bind, wp_get, wp_guard; [|exact Hh].
  destruct (sim_require_service s) eqn:E1; [|done]. destruct (requires_service command) eqn:E2; [|done].
  by rewrite (Hg E1 E2), bool_decide_true.
Qed.

Section accepts.
Context (request : Frame) (s : SimulatorCore).
Context (Hreq : Frame_ok request).

(** ** Erase *)

Definition erased (mask : Z) : SimulatorCore :=
  let selected := selected_sectors s mask in
  set_verify_succeeded false (set_verify_session None (set_program_session None
    (set_programmed (filter (λ a, in_sectors selected a = false) (sim_programmed s))
       (set_flash (outside selected (sim_flash s)) s)))).

Lemma erase_accepts lo hi :
  fr_payload request = [lo; hi; 0] → let mask := join_u32 lo hi in
  mask <> 0 → Z.land mask (Z.lnot (Z.shiftl 1 (zlen (sim_sectors s)) - 1)) = 0 →
  erase_fail (sim_faults s) = false →
  gives (sim_erase request) s (response request Status.OK []) (erased mask).
Proof using Hreq.
  intros Hp mask Hm Hv Hf. unfold gives, sim_erase, pay32, pay, payload_len. rewrite Hp.
  do 2 (apply wp_guard; [done|]). apply wp_bind, wp_get.
  change (join_u32 (at_ [lo; hi; 0] 0) (at_ [lo; hi; 0] (0 + 1))) with mask.
  apply wp_guard; [by rewrite Hv, orb_false_r; apply Z.eqb_neq|]. apply wp_guard; [exact Hf|].
  do 5 apply wp_bind, wp_modify. by apply gives_ok.
Qed.

(** ** Program and verify sessions *)

Lemma begin_accepts operation count tlo thi elo ehi c1 c2 :
  fr_payload request = [Target.Target_value Target.FLASH_APP; count; tlo; thi; elo; ehi; c1; c2; 0] →
  count <> 0 → join_u32 tlo thi <> 0 → addresses_allowed s (join_u32 elo ehi) 1 = true →
  wp (sim_begin request operation)
    (λ r t, r = inl (Session_init count (join_u32 tlo thi) (join_u32 elo ehi)) ∧ t = s) never s.
Proof using.
  intros Hp Hc Ht Ha. unfold sim_begin, pay32, pay, payload_len. rewrite Hp.
  do 3 (apply wp_guard; [done|]). at_simpl.
  apply wp_guard; [apply orb_false_iff; split; by apply Z.eqb_neq|].
  apply wp_bind, wp_get, wp_guard; [by rewrite Ha|]. by apply wp_ret.
Qed.

Lemma program_begin_accepts count tlo thi elo ehi c1 c2 :
  fr_payload request = [Target.Target_value Target.FLASH_APP; count; tlo; thi; elo; ehi; c1; c2; 0] →
  count <> 0 → join_u32 tlo thi <> 0 → addresses_allowed s (join_u32 elo ehi) 1 = true →
  sim_program_session s = None →
  gives (sim_program_begin request) s (response request Status.OK [])
    (set_program_session (Some (Session_init count (join_u32 tlo thi) (join_u32 elo ehi))) s).
Proof using Hreq.
  intros Hp Hc Ht Ha Hs. unfold gives, sim_program_begin. apply wp_bind, wp_gets, wp_guard; [by rewrite Hs|].
  apply wp_bind. eapply wp_conseq; [by eapply begin_accepts| |done].
  intros r t [-> ->]. apply wp_bind, wp_modify. by apply gives_ok.
Qed.

Lemma verify_begin_accepts count tlo thi elo ehi c1 c2 :
  fr_payload request = [Target.Target_value Target.FLASH_APP; count; tlo; thi; elo; ehi; c1; c2; 0] →
  count <> 0 → join_u32 tlo thi <> 0 → addresses_allowed s (join_u32 elo ehi) 1 = true →
  sim_verify_session s = None →
  gives (sim_verify_begin request) s (response request Status.OK [])
    (set_verify_session (Some (Session_init count (join_u32 tlo thi) (join_u32 elo ehi))) s).
Proof using Hreq.
  intros Hp Hc Ht Ha Hs. unfold gives, sim_verify_begin. apply wp_bind, wp_gets, wp_guard; [by rewrite Hs|].
  apply wp_bind. eapply wp_conseq; [by eapply begin_accepts| |done].
  intros r t [-> ->]. apply wp_bind, wp_modify. by apply gives_ok.
Qed.

Lemma data_accepts operation se alo ahi ilo ihi data :
  fr_payload request = [alo; ahi; zlen data; ilo; ihi] ++ data →
  validate_write_data data (Some (di_max_data_words (sim_device_info s))) = Ok tt →
  bad_block_index (sim_faults s) = false → join_u32 ilo ihi = se_expected_index se →
  addresses_allowed s (join_u32 alo ahi) (zlen data) = true →
  wp (sim_data request (Some se) operation)
    (λ r t, r = inl (se, join_u32 alo ahi, data) ∧ t = s) never s.
Proof using.
  intros Hp Hv Hf Hi Ha. unfold sim_data, pay32, pay, payload_len. rewrite Hp.
  assert (slice_from ([alo; ahi; zlen data; ilo; ihi] ++ data) 5 = data) as Hd by done.
  rewrite Hd. rewrite zlen_app. pose proof (zlen_nonneg data).
  change (zlen [alo; ahi; zlen data; ilo; ihi]) with 5.
  change (at_ ([alo; ahi; zlen data; ilo; ihi] ++ data) 0) with alo.
  change (at_ ([alo; ahi; zlen data; ilo; ihi] ++ data) (0 + 1)) with ahi.
  change (at_ ([alo; ahi; zlen data; ilo; ihi] ++ data) 2) with (zlen data).
  change (at_ ([alo; ahi; zlen data; ilo; ihi] ++ data) 3) with ilo.
  change (at_ ([alo; ahi; zlen data; ilo; ihi] ++ data) (3 + 1)) with ihi.
  apply wp_guard; [lia|]. apply wp_guard; [lia|]. apply wp_bind, wp_get. rewrite Hv.
  apply wp_guard; [by rewrite Hf, Hi, Z.eqb_refl|]. apply wp_guard; [by rewrite Ha|]. by apply wp_ret.
Qed.

(** The state after an accepted PROGRAM_DATA. *)
Definition programmed (se : Session) (address : Z) (data : list Z) : SimulatorCore :=
  set_verify_succeeded false (set_program_session (Some (session_advance (zlen data) se))
    (set_programmed (list_to_set (zrange address (address + zlen data)) ∪ sim_programmed s)
       (set_flash (write_words address data (sim_flash s)) s))).

Lemma program_data_accepts se alo ahi ilo ihi data :
  sim_program_session s = Some se →
  fr_payload request = [alo; ahi; zlen data; ilo; ihi] ++ data →
  validate_write_data data (Some (di_max_data_words (sim_device_info s))) = Ok tt →
  bad_block_index (sim_faults s) = false → program_fail_at_address (sim_faults s) = None →
  join_u32 ilo ihi = se_expected_index se →
  let address := join_u32 alo ahi in
  addresses_allowed s address (zlen data) = true →
  (∀ a, address <= a < address + zlen data → a ∉ sim_programmed s) →
  gives (sim_program_data request) s (response request Status.OK []) (programmed se address data).
Proof using Hreq.
  intros Hse Hp Hv Hf Hpf Hi address Ha Hn. unfold gives, sim_program_data.
  apply wp_bind, wp_gets, wp_bind. rewrite Hse.
  eapply wp_conseq; [by eapply data_accepts| |done]. intros r t [-> ->].
  apply wp_bind, wp_get, wp_guard; [by rewrite Hpf|]. apply wp_guard.
  { apply existsb_programmed. intros a Hin%elem_of_zrange. by apply Hn. }
  do 4 apply wp_bind, wp_modify. by apply gives_ok.
Qed.

Lemma verify_data_accepts se alo ahi ilo ihi data :
  sim_verify_session s = Some se →
  fr_payload request = [alo; ahi; zlen data; ilo; ihi] ++ data →
  validate_write_data data (Some (di_max_data_words (sim_device_info s))) = Ok tt →
  bad_block_index (sim_faults s) = false → verify_fail_at_address (sim_faults s) = None →
  join_u32 ilo ihi = se_expected_index se →
  let address := join_u32 alo ahi in
  addresses_allowed s address (zlen data) = true →
  (∀ i, 0 <= i < zlen data → read_word (sim_flash s) (address + i) = at_ data i) →
  gives (sim_verify_data request) s (response request Status.OK [])
    (set_verify_session (Some (session_advance (zlen data) se)) s).
Proof using Hreq.
  intros Hse Hp Hv Hf Hvf Hi address Ha Hm. unfold gives, sim_verify_data.
  apply wp_bind, wp_gets, wp_bind. rewrite Hse.
  eapply wp_conseq; [by eapply data_accepts| |done]. intros r t [-> ->]. apply wp_bind, wp_get.
  fold address. assert (verify_mismatch s address data = None) as ->.
  { clear -Hvf Hm. revert Hm. generalize address as current. induction data as [|w data IH]; intros current Hm;
      cbn [verify_mismatch]; [done|]. rewrite zlen_cons in Hm. pose proof (zlen_nonneg data).
    rewrite Hvf. rewrite bool_decide_false by done. specialize (Hm 0) as H0.
    rewrite Z.add_0_r in H0. rewrite H0 by lia. cbn [at_ nth Z.to_nat]. rewrite Z.eqb_refl. cbn [negb orb].
    apply IH. intros i Hi. replace (current + 1 + i) with (current + (i + 1)) by lia.
    rewrite Hm by lia. rewrite at_cons by lia. f_equal. lia. }
  apply wp_bind, wp_modify. by apply gives_ok.
Qed.

Lemma end_accepts operation se plo phi wlo whi c1 c2 :
  fr_payload request = [plo; phi; wlo; whi; c1; c2] →
  join_u32 plo phi = se_block_count se → join_u32 plo phi = se_packet_count se →
  join_u32 wlo whi = se_total_words se → join_u32 wlo whi = se_received_words se →
  gives (sim_end request (Some se) operation) s (response request Status.OK []) s.
Proof using Hreq.
  intros Hp H1 H2 H3 H4. unfold gives, sim_end, pay32, pay, payload_len. rewrite Hp.
  apply wp_guard; [done|]. at_simpl. rewrite <-H1, <-H2, <-H3, <-H4, !Z.eqb_refl.
  apply wp_guard; [done|]. by apply gives_ok.
Qed.

Lemma program_end_accepts se plo phi wlo whi c1 c2 :
  sim_program_session s = Some se → fr_payload request = [plo; phi; wlo; whi; c1; c2] →
  join_u32 plo phi = se_block_count se → join_u32 plo phi = se_packet_count se →
  join_u32 wlo whi = se_total_words se → join_u32 wlo whi = se_received_words se →
  gives (sim_program_end request) s (response request Status.OK [])
    (set_verify_succeeded false (set_program_session None s)).
Proof using Hreq.
  intros Hse Hp H1 H2 H3 H4. unfold gives, sim_program_end. apply wp_bind, wp_gets, wp_bind. rewrite Hse.
  eapply wp_conseq; [by eapply end_accepts| |done]. intros f t [-> ->].
  apply wp_bind, wp_modify, wp_bind, wp_modify. by apply wp_ret.
Qed.

Lemma verify_end_accepts se plo phi wlo whi c1 c2 :
  sim_verify_session s = Some se → fr_payload request = [plo; phi; wlo; whi; c1; c2] →
  join_u32 plo phi = se_block_count se → join_u32 plo phi = se_packet_count se →
  join_u32 wlo whi = se_total_words se → join_u32 wlo whi = se_received_words se →
  gives (sim_verify_end request) s (response request Status.OK [])
    (set_verify_succeeded true (set_verify_session None s)).
Proof using Hreq.
  intros Hse Hp H1 H2 H3 H4. unfold gives, sim_verify_end. apply wp_bind, wp_gets, wp_bind. rewrite Hse.
  eapply wp_conseq; [by eapply end_accepts| |done]. intros f t [-> ->].
  apply wp_bind, wp_modify, wp_bind, wp_modify. by apply wp_ret.
Qed.

End accepts.

(** ** Recording a valid image *)

Lemma image_valid_accepts payload s rs elo ehi slo shi clo chi dlo dhi :
  Forall u16 payload → Sim_ok s → flash_journal (sim_flash s) rs → zlen rs < METADATA_RECORD_COUNT →
  payload = [MetadataRecordType.MetadataRecordType_value MetadataRecordType.IMAGE_VALID;
    BootSlot.BootSlot_value BootSlot.SLOT_A; elo; ehi; slo; shi; clo; chi; 0; 0; 0; 0; 0; dlo; dhi; 0] →
  join_u32 slo shi <> 0 →
  APP_FLASH_START <= join_u32 elo ehi < APP_FLASH_END_EXCLUSIVE → join_u32 elo ehi mod 8 = 0 →
  APP_FLASH_START < join_u32 dlo dhi <= APP_FLASH_END_EXCLUSIVE →
  sim_verify_succeeded s = true →
  ∃ r, (∀ request, Frame_ok request → fr_payload request = payload →
      gives (sim_metadata_append_record request) s (response request Status.OK [])
         (set_verify_succeeded false (set_flash (stored s rs r) s))) ∧
    flash_journal (stored s rs r) (rs ++ [r]) ∧
    journal_state (rs ++ [r]) = mkJournalState (Some r) 0 false ∧
    rec32 r 14 = join_u32 elo ehi ∧ rec32 r 16 = join_u32 slo shi ∧ rec32 r 18 = join_u32 clo chi ∧
    (∀ a, ¬ (SLOT_A_METADATA_START <= a < SLOT_A_METADATA_END) → stored s rs r !! a = sim_flash s !! a).
Proof.
  intros Hu Hok Hrs Hl Hp Hsize Hentry He8 Hend Hv.
  destruct (build_image_valid_record_ok payload (zlen rs + 1) (sim_device_info s))
    as (r & Er & Hr & Hat); [done|by apply next_sequence_u32|apply Hok|].
  pose proof (fj_journal _ _ Hrs) as Hj. assert (journal (rs ++ [r])) as Hjr by by apply journal_image.
  destruct (stored_ok s Hok rs _ r Hrs Hl Hjr Hr) as (_ & Hrs' & Hout).
  exists r. split_and!; try done.
  - intros request Hreq Hpay. rewrite <-Hpay in Er, Hp.
    unfold gives, sim_metadata_append_record, pay, payload_len. rewrite Hp.
    do 4 (apply wp_guard; [done|]). apply wp_guard; [done|].
    unfold append_image_valid, pay32, pay. rewrite Hp. at_simpl.
    apply wp_guard; [by apply Z.eqb_neq|]. apply wp_guard.
    { rewrite He8. cbn [negb Z.eqb]. lia. }
    apply wp_guard; [lia|]. apply wp_bind, wp_get, wp_guard; [by rewrite Hv|].
    rewrite (first_free_journal s rs Hrs).
    replace (zlen rs <? METADATA_RECORD_COUNT) with true by lia.
    rewrite (next_sequence_journal s rs Hrs). apply wp_bind, wp_lift; rewrite <-Hp, Er; [|done].
    intros r' [= <-]. apply wp_bind, wp_modify, wp_bind, wp_modify. by apply gives_ok.
  - rewrite journal_state_snoc. unfold journal_step. by rewrite (rk_kind _ _ _ Hr).
  - unfold rec32. rewrite !Hat by lia. rewrite Hp. by at_simpl.
  - unfold rec32. rewrite !Hat by lia. rewrite Hp. by at_simpl.
  - unfold rec32. rewrite !Hat by lia. rewrite Hp. by at_simpl.
Qed.
