(* ===== verification/Client.v ===== *)
(** The protocol client: the I/O device it talks to as a type class, then
    core/client.py over every instance of it. *)

(** * The I/O device boundary (io/base.py)

    [PcIoDevice] is the abstract base class: an implementation provides the
    operations on its own state type.  The base class' default methods are
    definitions over the abstract ones ([write_bytes_default],
    [read_byte_default], ...), for an instance to use when it does not
    override them.  A [cancel_event] is passed on as the identity of the
    event object. *)

From S2P Require Import Prelude.
From S2P Require Import Errors.
From S2P Require Import Constants.
From S2P Require Import Words.
From S2P Require Import Frame.
From S2P Require Import Resync.
From S2P Require Import FrameReader.
From S2P Require Import Models.

(** [PcIoDevice]: the operations of a device with state [D]. *)
Class PcIoDevice (D : Type) : Type := {
  dev_open : ST D unit;
  dev_wait_slave : option Z → option nat → ST D unit;
  dev_clear_input : ST D unit;
  dev_read_word : Z → ST D Z;
  dev_write_word : Z → ST D unit;
  dev_read_byte : Z → ST D Z;
  dev_read_available : ST D (list Z);
  dev_write_bytes : list Z → ST D Z;
  dev_input_bytes_pending : ST D (option Z);
  dev_close : ST D unit;
}.

(** [validate_timeout]; the seconds are kept in thousandths. *)
Definition validate_timeout (timeout_ms : Z) : Res Z :=
  fail (Err ValueError (Lit "timeout_ms must be positive")) when timeout_ms <=? 0 ;;
  Ok timeout_ms.

Definition validate_word (word : Z) : Res Z :=
  fail (Err ValueError (Lit "word must fit uint16")) when (word <? 0) || (word >? 0xFFFF) ;;
  Ok word.

Section defaults.
Context {D : Type}.

Definition read_byte_default (timeout_ms : Z) : ST D Z :=
  raise (Err IoDeviceError (Lit "byte reads are not supported by this IO Device")).

Definition read_available_default : ST D (list Z) := ret [].

Definition input_bytes_pending_default : ST D (option Z) := ret None.

(** The loop of [write_bytes] over the byte pairs. *)
Fixpoint write_words_of (write_word : Z → ST D unit) (data : list Z) : ST D unit :=
  match data with
  | lo :: hi :: data => write_word (Z.lor lo (Z.shiftl hi 8)) ;;; write_words_of write_word data
  | _ => ret tt
  end.

Definition write_bytes_default (write_word : Z → ST D unit) (data : list Z) : ST D Z :=
  if negb (zlen data mod 2 =? 0)
  then raise (Err ValueError (Lit "word-stream byte writes must contain complete words")) else
  write_words_of write_word data ;;;
  ret (zlen data).

End defaults.

(** [with device: body] *)
Definition with_device {D A} `{PcIoDevice D} (body : ST D A) : ST D A :=
  dev_open ;;;
  (λ s, match body s with
        | (r, s') => match dev_close s' with
                     | (Ok _, s'') => (r, s'')
                     | (Raise e, s'') => (Raise e, s'')
                     end
        end).

(** * The protocol client (core/client.py)

    [ProtocolClient] over any [PcIoDevice]; the device is part of the client's
    state and [dev m] calls one of its methods.  The clock is outside the
    model: [iterations timeout_ms] is how often the loop of
    [_read_response_frame] runs before a deadline that far away has passed.
    The response bytes are scanned exactly as in FrameReader.v ([extract_one]),
    but in a buffer that does not outlive the call.  The tracing hook
    [trace_bytes] only observes and is left out. *)

Section client.
Context {D : Type} `{PcIoDevice D}.
Context (iterations : Z → nat).

Record ProtocolClient : Type := mkClient {
  pc_device : D;
  pc_default_timeout_ms : Z;
  pc_post_write_delay_ms : Z;
  pc_clear_input_before_request : bool;
  pc_sequence : Z;
  pc_device_info : option DeviceInfo;
}.

Abbreviation PC := (ST ProtocolClient).

Definition pc_set_device (v : D) (c : ProtocolClient) : ProtocolClient :=
  mkClient v (pc_default_timeout_ms c) (pc_post_write_delay_ms c)
    (pc_clear_input_before_request c) (pc_sequence c) (pc_device_info c).
Definition pc_set_sequence (v : Z) (c : ProtocolClient) : ProtocolClient :=
  mkClient (pc_device c) (pc_default_timeout_ms c) (pc_post_write_delay_ms c)
    (pc_clear_input_before_request c) v (pc_device_info c).
Definition pc_set_device_info (v : option DeviceInfo) (c : ProtocolClient) : ProtocolClient :=
  mkClient (pc_device c) (pc_default_timeout_ms c) (pc_post_write_delay_ms c)
    (pc_clear_input_before_request c) (pc_sequence c) v.

(** A method call on [self.device]. *)
Definition dev {A} (m : ST D A) : PC A :=
  λ c, let '(r, d) := m (pc_device c) in (r, pc_set_device d c).

(** The outcome of [m] as a value, for the [try] statements. *)
Definition attempt {A} (m : PC A) : PC (Res A) :=
  λ c, let '(r, c) := m c in (Ok r, c).

Definition ProtocolClient_init (device : D) (default_timeout_ms post_write_delay_ms : Z)
    (clear_input_before_request : bool) : Res ProtocolClient :=
  fail (Err ValueError (Lit "default_timeout_ms must be positive")) when default_timeout_ms <=? 0 ;;
  fail (Err ValueError (Lit "post_write_delay_ms must be non-negative"))
    when post_write_delay_ms <? 0 ;;
  Ok (mkClient device default_timeout_ms post_write_delay_ms clear_input_before_request 0 None).

(** ** Request and response *)

Definition command_name (command : Z) : PyVal :=
  match enum_of (A:=Command.Command_t) command with
  | Some c => VSeq [VStr "Command"; VInt (Command.Command_value c)]
  | None => VInt command
  end.

Definition format_bytes (data : list Z) : PyVal :=
  match data with [] => VStr "<empty>" | _ => VSeq (map VInt data) end.

(** The loop of [_read_response_frame]: its outcome and the bytes received. *)
Fixpoint read_loop (fuel : nat) (max_payload : Z) (buffer raw : list Z) : PC (Res Frame * list Z) :=
  match fuel with
  | O => ret (Raise (Err IoTimeoutError (Lit "response byte read timed out")), raw)
  | S fuel =>
      r <- attempt (dev dev_read_available) ;;
      match r with
      | Raise e => ret (Raise e, raw)
      | Ok [] => read_loop fuel max_payload buffer raw
      | Ok chunk =>
          match extract_one max_payload (buffer ++ chunk) with
          | More buffer | Again buffer => read_loop fuel max_payload buffer (raw ++ chunk)
          | Got frame _ => ret (Ok frame, raw ++ chunk)
          | Throw e _ => ret (Raise e, raw ++ chunk)
          end
      end
  end.

Definition read_response_frame (timeout_ms : Z) : PC (Res Frame * list Z) :=
  if timeout_ms <=? 0
  then ret (Raise (Err ValueError (Lit "timeout_ms must be positive")), []) else
  info <- gets pc_device_info ;;
  let max_payload := match info with Some i => di_max_payload_words i | None => 0xFFFF end in
  read_loop (iterations timeout_ms) max_payload [] [].

Definition response_payload (request response : Frame) : Res (list Z) :=
  let? _ := match validate_response_sequence (fr_sequence request) (fr_sequence response) with
            | Raise e => if isinstance e SequenceMismatchError
                         then Raise (Err ProtocolDecodeError (exn_str e)) else Raise e
            | ok => ok
            end in
  fail (Err ProtocolDecodeError (Lit "response command does not match request"))
    when negb (fr_command response =? fr_command request) ;;
  fail (Err ProtocolDecodeError (Lit "unexpected response packet type"))
    when negb ((fr_packet_type response =? PacketType.RESPONSE)
               || (fr_packet_type response =? PacketType.ERROR_RESPONSE)) ;;
  fail (StatusErr (fr_command response) (fr_status response))
    when negb (fr_status response =? Status.OK) ;;
  fail (Err ProtocolDecodeError (Lit "OK status requires a normal response packet"))
    when negb (fr_packet_type response =? PacketType.RESPONSE) ;;
  Ok (fr_payload response).

Definition pc_transact (command : Z) (payload : list Z) (timeout_ms : option Z) : PC (list Z) :=
  clear <- gets pc_clear_input_before_request ;;
  (if clear then dev dev_clear_input else ret tt) ;;;
  old <- gets pc_sequence ;;
  sequence <- lift (next_sequence old) ;;
  modify (pc_set_sequence sequence) ;;;
  request <- lift (Frame_init PacketType.REQUEST command sequence payload 0 0 PROTOCOL_VERSION) ;;
  request_bytes <- lift (encode_bytes request) ;;
  _ <- dev (dev_write_bytes request_bytes) ;;
  default_timeout <- gets pc_default_timeout_ms ;;
  let timeout := default default_timeout timeout_ms in
  outcome <- read_response_frame timeout ;;
  match outcome with
  | (Ok response, raw) => lift (response_payload request response)
  | (Raise e, raw) =>
      if isinstance e FrameError then raise (Err ProtocolDecodeError (exn_str e)) else
      if isinstance e IoTimeoutError then
        raise (Err IoTimeoutError
          (Fmt "{command} response timed out after {timeout} ms; TX bytes: {}; RX bytes: {}"
             [command_name command; VInt timeout; format_bytes request_bytes; format_bytes raw]))
      else raise e
  end.

(** ** Commands *)

Definition pc_ping (timeout_ms : option Z) : PC unit :=
  _ <- pc_transact Command.PING [] (Some (default 5000 timeout_ms)) ;; ret tt.

Definition pc_get_device_info (timeout_ms : option Z) : PC DeviceInfo :=
  words <- pc_transact Command.GET_DEVICE_INFO [] (Some (default 5000 timeout_ms)) ;;
  info <- lift (DeviceInfo_from_words words) ;;
  modify (pc_set_device_info (Some info)) ;;;
  ret info.

Definition pc_get_last_error : PC ErrorDetail :=
  words <- pc_transact Command.GET_LAST_ERROR [] (Some 5000) ;;
  lift (ErrorDetail_from_words words).

Definition pc_get_metadata_summary (timeout_ms : option Z) : PC MetadataSummary :=
  catch
    (words <- pc_transact Command.GET_METADATA_SUMMARY [] (Some (default 5000 timeout_ms)) ;;
     lift (MetadataSummary_from_words words))
    (λ e, if isinstance e ValueError then raise (Err ProtocolDecodeError (exn_str e)) else raise e).

Definition image_valid_payload (entry_point image_size_words image_crc32 app_end
    app_version_major app_version_minor app_version_patch app_version_build : Z) : Res (list Z) :=
  let? (entry_low, entry_high) := split_u32 entry_point in
  let? (size_low, size_high) := split_u32 image_size_words in
  let? (crc_low, crc_high) := split_u32 image_crc32 in
  let? (build_low, build_high) := split_u32 app_version_build in
  let? (end_low, end_high) := split_u32 app_end in
  Ok [MetadataRecordType.MetadataRecordType_value MetadataRecordType.IMAGE_VALID;
      BootSlot.BootSlot_value BootSlot.SLOT_A; entry_low; entry_high; size_low; size_high;
      crc_low; crc_high; app_version_major; app_version_minor; app_version_patch; build_low;
      build_high; end_low; end_high; 0].

(** The version arguments have the default 0 and no caller passes them. *)
Definition pc_metadata_append_image_valid (entry_point image_size_words image_crc32 app_end : Z)
    (timeout_ms : option Z) : PC unit :=
  payload <- lift (image_valid_payload entry_point image_size_words image_crc32 app_end 0 0 0 0) ;;
  _ <- pc_transact Command.METADATA_APPEND_RECORD payload timeout_ms ;; ret tt.

(** The payload of the BOOT_ATTEMPT and APP_CONFIRMED records. *)
Definition about_image_payload (kind : MetadataRecordType.MetadataRecordType_t)
    (entry_point image_size_words image_crc32 : Z) : Res (list Z) :=
  let? (entry_low, entry_high) := split_u32 entry_point in
  let? (size_low, size_high) := split_u32 image_size_words in
  let? (crc_low, crc_high) := split_u32 image_crc32 in
  Ok [MetadataRecordType.MetadataRecordType_value kind; BootSlot.BootSlot_value BootSlot.SLOT_A;
      entry_low; entry_high; size_low; size_high; crc_low; crc_high; 0; 0; 0; 0; 0; 0; 0; 0].

Definition pc_metadata_append_boot_attempt (entry_point image_size_words image_crc32 : Z)
    (timeout_ms : option Z) : PC unit :=
  payload <- lift (about_image_payload MetadataRecordType.BOOT_ATTEMPT
                     entry_point image_size_words image_crc32) ;;
  _ <- pc_transact Command.METADATA_APPEND_RECORD payload timeout_ms ;; ret tt.

Definition pc_metadata_append_app_confirmed (entry_point image_size_words image_crc32 : Z)
    (timeout_ms : option Z) : PC unit :=
  payload <- lift (about_image_payload MetadataRecordType.APP_CONFIRMED
                     entry_point image_size_words image_crc32) ;;
  _ <- pc_transact Command.METADATA_APPEND_RECORD payload timeout_ms ;; ret tt.

Definition pc_ram_load_begin (packet_count total_words entry_point image_crc32 : Z)
    (timeout_ms : option Z) : PC unit :=
  total <- lift (split_u32 total_words) ;;
  entry <- lift (split_u32 entry_point) ;;
  crc <- lift (split_u32 image_crc32) ;;
  _ <- pc_transact Command.RAM_LOAD_BEGIN
         [Target.Target_value Target.RAM_APP; packet_count; total.1; total.2; entry.1; entry.2;
          crc.1; crc.2; 0] timeout_ms ;; ret tt.

Definition pc_ram_load_data (address : Z) (words : list Z) (packet_index : Z)
    (timeout_ms : option Z) : PC unit :=
  addr <- lift (split_u32 address) ;;
  index <- lift (split_u32 packet_index) ;;
  _ <- pc_transact Command.RAM_LOAD_DATA
         ([addr.1; addr.2; zlen words; index.1; index.2] ++ words) timeout_ms ;; ret tt.

Definition pc_ram_load_end (packet_count total_words image_crc32 : Z) (timeout_ms : option Z)
    : PC unit :=
  packets <- lift (split_u32 packet_count) ;;
  total <- lift (split_u32 total_words) ;;
  crc <- lift (split_u32 image_crc32) ;;
  _ <- pc_transact Command.RAM_LOAD_END
         [packets.1; packets.2; total.1; total.2; crc.1; crc.2] timeout_ms ;; ret tt.

Definition pc_ram_check_crc (expected_crc32 expected_total_words : Z) (timeout_ms : option Z)
    : PC unit :=
  crc <- lift (split_u32 expected_crc32) ;;
  words <- lift (split_u32 expected_total_words) ;;
  _ <- pc_transact Command.RAM_CHECK_CRC [crc.1; crc.2; words.1; words.2; 0] timeout_ms ;; ret tt.

Definition pc_run_ram (entry_point : Z) (timeout_ms : option Z) : PC unit :=
  entry <- lift (split_u32 entry_point) ;;
  _ <- pc_transact Command.RUN_RAM [entry.1; entry.2; 0] timeout_ms ;; ret tt.

Definition pc_get_service_status (timeout_ms : option Z) : PC ServiceStatus :=
  payload <- pc_transact Command.GET_SERVICE_STATUS [] timeout_ms ;;
  lift (ServiceStatus_from_words payload).

Definition pc_service_attach (header_address expected_crc32 expected_total_words : Z)
    (timeout_ms : option Z) : PC unit :=
  header <- lift (split_u32 header_address) ;;
  crc <- lift (split_u32 expected_crc32) ;;
  words <- lift (split_u32 expected_total_words) ;;
  _ <- pc_transact Command.SERVICE_ATTACH
         [header.1; header.2; crc.1; crc.2; words.1; words.2; 0] timeout_ms ;; ret tt.

(** ** Connecting *)

Definition pc_connect (wait_slave_timeout_ms : option Z) (cancel_event : option nat) : PC unit :=
  dev dev_open ;;;
  catch (dev (dev_wait_slave wait_slave_timeout_ms cancel_event))
    (λ e, dev dev_close ;;; raise e) ;;;
  modify (pc_set_sequence 0) ;;;
  modify (pc_set_device_info None).

Definition pc_open (wait_slave_timeout_ms : option Z) (device_info_timeout_ms : Z)
    (cancel_event : option nat) : PC DeviceInfo :=
  pc_connect wait_slave_timeout_ms cancel_event ;;;
  catch (pc_get_device_info (Some device_info_timeout_ms))
    (λ e, if isinstance e IoTimeoutError then
            dev dev_close ;;;
            raise (Err IoTimeoutError (Fmt "GetDeviceInfo response timed out after {} ms"
                                         [VInt device_info_timeout_ms]))
          else raise e).

Definition pc_close : PC unit := dev dev_close.

(** ** Debugging *)

Record DeviceInfoDebugResult : Type := mkDebugResult {
  dr_request_words : list Z;
  dr_request_bytes : list Z;
  dr_bytes_written : Z;
  dr_flush_done : bool;
  dr_rx_bytes : list Z;
  dr_input_bytes_pending_before_clear : option Z;
  dr_device_info : option DeviceInfo;
  dr_error_stage : option string;
  dr_error_message : option Msg;
}.

Definition pc_get_device_info_debug (timeout_ms : Z) : PC DeviceInfoDebugResult :=
  if timeout_ms <=? 0 then raise (Err ValueError (Lit "timeout_ms must be positive")) else
  pending <- dev dev_input_bytes_pending ;;
  dev dev_clear_input ;;;
  old <- gets pc_sequence ;;
  sequence <- lift (next_sequence old) ;;
  modify (pc_set_sequence sequence) ;;;
  request <- lift (Frame_init PacketType.REQUEST Command.GET_DEVICE_INFO sequence [] 0 0
                     PROTOCOL_VERSION) ;;
  request_words <- lift (encode_words request) ;;
  request_bytes <- lift (encode_bytes request) ;;
  written <- attempt (dev (dev_write_bytes request_bytes)) ;;
  match written with
  | Raise e =>
      ret (mkDebugResult request_words request_bytes 0 false [] pending None
             (Some "writing_request") (Some (exn_str e)))
  | Ok bytes_written =>
      outcome <- read_response_frame timeout_ms ;;
      match outcome with
      | (Raise e, raw) =>
          ret (mkDebugResult request_words request_bytes bytes_written true raw pending None
                 (Some (if bool_decide (raw = []) then "waiting_for_response"
                        else "receiving_response"))
                 (Some (if bool_decide (raw = [])
                        then Lit "No response bytes received after writing and flushing request."
                        else exn_str e)))
      | (Ok response, raw) =>
          match (let? payload := response_payload request response in
                 DeviceInfo_from_words payload) with
          | Raise e =>
              ret (mkDebugResult request_words request_bytes bytes_written true raw pending None
                     (Some "decoding_response") (Some (exn_str e)))
          | Ok info =>
              modify (pc_set_device_info (Some info)) ;;;
              ret (mkDebugResult request_words request_bytes bytes_written true raw pending
                     (Some info) None None)
          end
      end
  end.

End client.
Arguments ProtocolClient : clear implicits.
Abbreviation PC D := (ST (ProtocolClient D)).
