(* ===== verification/ClientSimulator.v ===== *)
(** The simulator as an instance of the I/O device, then the refinement: a
    transaction of the client is one step of the simulator. *)

(** * The simulator as an I/O device (io/simulator_device.py)

    [SimulatorIoDevice] decodes the words written to it with a
    [ResyncReader], lets the simulator answer every frame and queues the words
    of the answers; [self.core] is part of the state.  Nothing but the caller
    itself fills the queue, so a [read_word] on an empty one ends with the
    timeout.

    [write_request] is the round trip: the bytes of a request become exactly
    the words of the simulator's answer. *)

From S2P Require Import Prelude.
From S2P Require Import Errors.
From S2P Require Import Constants.
From S2P Require Import Words.
From S2P Require Import Frame.
From S2P Require Import Resync.
From S2P Require Import FrameReader.
From S2P Require Import Models.
From S2P Require Import Firmware.
From S2P Require Import Simulator.
From S2P Require Import SimulatorProofs.
From S2P Require Import SimulatorTransact.
From S2P Require Import SimulatorProperties.
From S2P Require Import Client.

Record SimulatorIoDevice : Type := mkSimDevice {
  sd_core : SimulatorCore;
  sd_open : bool;
  sd_reader : ResyncReader;
  sd_response_words : list Z;
  sd_pending_high_byte : option Z;
}.

Abbreviation SD := (ST SimulatorIoDevice).

Definition sd_set_core (v : SimulatorCore) (d : SimulatorIoDevice) : SimulatorIoDevice :=
  mkSimDevice v (sd_open d) (sd_reader d) (sd_response_words d) (sd_pending_high_byte d).
Definition sd_set_open (v : bool) (d : SimulatorIoDevice) : SimulatorIoDevice :=
  mkSimDevice (sd_core d) v (sd_reader d) (sd_response_words d) (sd_pending_high_byte d).
Definition sd_set_reader (v : ResyncReader) (d : SimulatorIoDevice) : SimulatorIoDevice :=
  mkSimDevice (sd_core d) (sd_open d) v (sd_response_words d) (sd_pending_high_byte d).
Definition sd_set_words (v : list Z) (d : SimulatorIoDevice) : SimulatorIoDevice :=
  mkSimDevice (sd_core d) (sd_open d) (sd_reader d) v (sd_pending_high_byte d).
Definition sd_set_pending (v : option Z) (d : SimulatorIoDevice) : SimulatorIoDevice :=
  mkSimDevice (sd_core d) (sd_open d) (sd_reader d) (sd_response_words d) v.

(** [SimulatorIoDevice.__init__] on a given core. *)
Definition SimulatorIoDevice_init (core : SimulatorCore) : Res SimulatorIoDevice :=
  let? reader := ResyncReader_init (di_max_payload_words (sim_device_info core)) in
  Ok (mkSimDevice core false reader [] None).

Definition simdev_open : SD unit :=
  d <- get ;;
  (if negb (sd_open d) then
     reader <- lift (ResyncReader_init (di_max_payload_words (sim_device_info (sd_core d)))) ;;
     modify (sd_set_reader reader) ;;;
     modify (sd_set_words []) ;;;
     modify (sd_set_pending None)
   else ret tt) ;;;
  modify (sd_set_open true).

Definition require_open : SD unit :=
  opened <- gets sd_open ;;
  if negb opened
  then raise (Err IoDeviceNotOpenError (Lit "simulator device is not open")) else ret tt.

Definition simdev_wait_slave (timeout_ms : option Z) (cancel_event : option nat) : SD unit :=
  require_open ;;;
  match timeout_ms with
  | None => ret tt
  | Some ms => _ <- lift (validate_timeout ms) ;; ret tt
  end.

Definition simdev_read_word (timeout_ms : Z) : SD Z :=
  require_open ;;;
  _ <- lift (validate_timeout timeout_ms) ;;
  words <- gets sd_response_words ;;
  match words with
  | [] => raise (Err IoTimeoutError (Lit "simulator response timed out"))
  | word :: words => modify (sd_set_words words) ;;; ret word
  end.

Definition simdev_clear_input : SD unit :=
  require_open ;;;
  modify (sd_set_words []) ;;;
  modify (sd_set_pending None).

Definition simdev_read_byte (timeout_ms : Z) : SD Z :=
  pending <- gets sd_pending_high_byte ;;
  match pending with
  | Some value => modify (sd_set_pending None) ;;; ret value
  | None =>
      word <- simdev_read_word timeout_ms ;;
      modify (sd_set_pending (Some (Z.shiftr word 8))) ;;;
      ret (Z.land word 0xFF)
  end.

Definition bytes_of_word (word : Z) : list Z := [Z.land word 0xFF; Z.shiftr word 8].

Definition simdev_read_available : SD (list Z) :=
  require_open ;;;
  d <- get ;;
  modify (sd_set_pending None) ;;;
  modify (sd_set_words []) ;;;
  ret ((match sd_pending_high_byte d with Some b => [b] | None => [] end)
       ++ concat (map bytes_of_word (sd_response_words d))).

Definition simdev_input_bytes_pending : SD (option Z) :=
  d <- get ;;
  ret (Some (zlen (sd_response_words d) * 2
             + (if bool_decide (is_Some (sd_pending_high_byte d)) then 1 else 0))).

(** A call of a method of [self.core]. *)
Definition with_core {A} (m : Sim A) : SD A :=
  λ d, let '(r, s) := m (sd_core d) in (r, sd_set_core s d).

(** [self._reader.feed(...)]; the extraction never runs out of fuel
    ([feed_total_bounded]). *)
Definition feed_reader (words : list Z) : SD (list Frame) :=
  λ d, match feed words (sd_reader d) with
       | Some (r, reader) => (r, sd_set_reader reader d)
       | None => (Raise (Err AssertionError (Lit "fuel")), d)
       end.

(** [encoded[-1] ^= 1] *)
Definition flip_last (words : list Z) : list Z :=
  match last words with
  | None => []
  | Some w => take (length words - 1) words ++ [Z.lxor w 1]
  end.

(** The loop of [write_word] over the frames. *)
Fixpoint answer_frames (frames : list Frame) : SD unit :=
  match frames with
  | [] => ret tt
  | request :: frames =>
      response <- with_core (sim_transact request) ;;
      d <- get ;;
      let faults := sim_faults (sd_core d) in
      (if no_response faults then ret tt else
       response <- (if sequence_mismatch faults then
                      sequence <- lift (next_sequence (fr_sequence response)) ;;
                      lift (Frame_init (fr_packet_type response) (fr_command response)
                              sequence (fr_payload response)
                              (fr_flags response) (fr_status response) (fr_protocol_version response))
                    else ret response) ;;
       encoded <- lift (encode_words response) ;;
       let encoded := if bad_payload_crc faults then flip_last encoded else encoded in
       modify (λ d, sd_set_words (sd_response_words d ++ encoded) d)) ;;;
      answer_frames frames
  end.

Definition simdev_write_word (word : Z) : SD unit :=
  require_open ;;;
  word <- lift (validate_word word) ;;
  frames <- feed_reader [word] ;;
  answer_frames frames.

Definition simdev_close : SD unit :=
  modify (sd_set_open false) ;;;
  modify (sd_set_words []) ;;;
  modify (sd_set_pending None).

#[export] Instance simulator_device : PcIoDevice SimulatorIoDevice := {|
  dev_open := simdev_open;
  dev_wait_slave := simdev_wait_slave;
  dev_clear_input := simdev_clear_input;
  dev_read_word := simdev_read_word;
  dev_write_word := simdev_write_word;
  dev_read_byte := simdev_read_byte;
  dev_read_available := simdev_read_available;
  dev_write_bytes := write_bytes_default simdev_write_word;
  dev_input_bytes_pending := simdev_input_bytes_pending;
  dev_close := simdev_close;
|}.

(** ** The round trip *)

(** An open device whose simulator answers every request as the core does. *)
Record device_clean (d : SimulatorIoDevice) : Prop := {
  dc_open : sd_open d = true;
  dc_no_response : no_response (sim_faults (sd_core d)) = false;
  dc_sequence : sequence_mismatch (sim_faults (sd_core d)) = false;
  dc_payload : bad_payload_crc (sim_faults (sd_core d)) = false;
  dc_core : Sim_ok (sd_core d);
}.

(** The words of the simulator's answer. *)
Definition answer_words (request : Frame) (s : SimulatorCore) : list Z :=
  match encode_words (answer request s) with Ok ws => ws | Raise _ => [] end.

Lemma answer_ok request s :
  Frame_ok request → Sim_ok s → Frame_ok (answer request s) ∧ answers request (answer request s) ∧
  Sim_ok (after request s) ∧ same_config s (after request s).
Proof.
  intros Hreq Hok. destruct (transact_answers request s Hreq Hok) as (f & s' & E & H1 & H2 & H3 & _).
  unfold answer, after. rewrite E. split; [apply H3|done].
Qed.

Lemma answer_words_ok request s :
  Frame_ok request → Sim_ok s → encode_words (answer request s) = Ok (answer_words request s).
Proof.
  intros Hreq Hok. destruct (answer_ok request s Hreq Hok) as [Hf _].
  destruct (encode_words_ok _ Hf) as (ws & E & _). unfold answer_words. by rewrite E.
Qed.

Definition answered (request : Frame) (d : SimulatorIoDevice) : SimulatorIoDevice :=
  sd_set_words (sd_response_words d ++ answer_words request (sd_core d))
    (sd_set_core (after request (sd_core d)) d).

Lemma answer_one request d :
  Frame_ok request → device_clean d → answer_frames [request] d = (Ok tt, answered request d).
Proof.
  intros Hreq [Ho Hn Hs Hb Hok]. destruct (answer_ok request _ Hreq Hok) as (_ & _ & _ & _ & _ & Hf & _).
  cbn [answer_frames]. unfold bind at 1. unfold with_core. rewrite (transact_answer _ _ Hreq Hok).
  unfold bind, get, ret, lift, modify. cbn [sd_core sd_set_core]. rewrite Hf, Hn, Hs.
  rewrite (answer_words_ok _ _ Hreq Hok), Hb. done.
Qed.

(** Words that feed no frame or one frame to the reader. *)
Lemma write_words_feeds request ws : ∀ bs d fs r',
  words_to_little_endian_bytes ws = Ok bs → Forall u16 ws → Frame_ok request → device_clean d →
  feeds (map (λ w, [w]) ws) (sd_reader d) = Some (Ok fs, r') → fs = [] ∨ fs = [request] →
  write_words_of simdev_write_word bs d =
    (Ok tt, sd_set_reader r' (match fs with [] => d | _ => answered request d end)).
Proof.
  induction ws as [|w ws IH]; intros bs d fs r' Eb Hu Hreq Hd Ef Hfs.
  - injection Eb as <-. injection Ef as <- <-. cbn. unfold ret. do 2 f_equal. by destruct d.
  - apply Forall_cons in Hu as [Hw Hu]. cbn [words_to_little_endian_bytes] in Eb.
    destruct ((w <? 0) || (w >? 65535)) eqn:Ew; [done|].
    destruct (words_to_little_endian_bytes ws) as [bs'|] eqn:Eb'; [|done]. injection Eb as <-.
    cbn [map feeds] in Ef. destruct (feed [w] (sd_reader d)) as [[[fs1|] r1]|] eqn:E1; try done.
    destruct (feeds _ r1) as [[[fs2|] r2]|] eqn:E2; try done. injection Ef as <- <-.
    assert (Z.lor (Z.land w 255) (Z.shiftl (Z.shiftr w 8) 8) = w) as Ejoin.
    { destruct (words_to_bytes_ok [w]) as (b & Eb1 & _ & _ & Hb); [by apply Forall_singleton|].
      cbn in Eb1. rewrite Ew in Eb1. injection Eb1 as <-. cbn in Hb. by injection Hb. }
    assert (Hstep : simdev_write_word w d =
      answer_frames fs1 (sd_set_reader r1 d)).
    { unfold simdev_write_word, require_open, bind, gets, ret, lift, feed_reader. rewrite (dc_open _ Hd).
      cbn [negb]. unfold validate_word. rewrite Ew. by rewrite E1. }
    cbn [write_words_of]. rewrite Ejoin. unfold bind. rewrite Hstep.
    assert (device_clean (sd_set_reader r1 d)) as Hd1 by by destruct Hd.
    assert (Hcase : (fs1 = [] ∧ (fs2 = [] ∨ fs2 = [request])) ∨ (fs1 = [request] ∧ fs2 = [])).
    { destruct Hfs as [Hfs|Hfs].
      - apply app_eq_nil in Hfs as [-> ->]. auto.
      - apply app_eq_unit in Hfs as [[-> ->]|[-> ->]]; auto. }
    destruct Hcase as [[-> Hfs2]|[-> ->]].
    + cbn [answer_frames]. unfold ret.
      rewrite (IH bs' (sd_set_reader r1 d) fs2 r2 eq_refl Hu Hreq Hd1 E2 Hfs2). cbn [app]. by destruct fs2.
    + rewrite (answer_one request _ Hreq Hd1).
      rewrite (IH bs' (answered request (sd_set_reader r1 d)) [] r2 eq_refl Hu Hreq); [done| |done|by left].
      destruct Hd as [H1 H2 H3 H4 H5].
      destruct (answer_ok request _ Hreq H5) as (_ & _ & Hok' & (_ & _ & Hf & _)).
      split; try done; cbn; by rewrite Hf.
Qed.

(** The bytes of a request become the words of the answer, and nothing else
    of the device changes but its simulator. *)
Lemma write_request request bs d errs :
  Frame_ok request → device_clean d → encode_bytes request = Ok bs →
  zlen (fr_payload request) <= rs_max_payload_words (sd_reader d) <= 0xFFFF →
  sd_reader d = mkReader (rs_max_payload_words (sd_reader d)) [] errs →
  dev_write_bytes bs d = (Ok (zlen bs), answered request d).
Proof.
  intros Hreq Hd Eb Hl Hr. unfold encode_bytes in Eb.
  destruct (encode_words request) as [ws|] eqn:Ew; [|done].
  pose proof (zlen_nonneg (fr_payload request)).
  destruct (encode_words_ok _ Hreq) as (ws' & Ew' & Hu & _). rewrite Ew in Ew'. injection Ew' as <-.
  destruct (words_to_bytes_ok ws Hu) as (bs' & Eb' & _ & Hbl & _). rewrite Eb in Eb'. injection Eb' as <-.
  set (max := rs_max_payload_words (sd_reader d)) in *.
  assert (feeds (map (λ w, [w]) ws) (sd_reader d) = Some (Ok [request], sd_reader d)) as Hfeeds.
  { destruct ws as [|w ws]; [by destruct (encode_words_shape request [] Hreq Ew) as (? & ? & ? & ? & ?)|].
    assert (concat (map (λ w, [w]) (w :: ws)) = w :: ws) as Hc
      by (clear; cbn; f_equal; induction ws; cbn; congruence).
    rewrite Hr. cbn [map]. rewrite feeds_concat.
    - change ([w] :: map (λ w, [w]) ws) with (map (λ w, [w]) (w :: ws)). rewrite Hc.
      apply (feed_one [] request (w :: ws)); try done; first [lia | apply not_elem_of_nil].
    - split; cbn; [lia|constructor].
    - change ([w] :: map (λ w, [w]) ws) with (map (λ w, [w]) (w :: ws)).
      apply Forall_map. eapply Forall_impl; [exact Hu|]. intros x Hx. by apply Forall_singleton. }
  cbn. unfold write_bytes_default. rewrite Hbl.
  replace (2 * zlen ws mod 2) with 0 by (symmetry; rewrite Z.mul_comm; apply Z.mod_mul; lia).
  cbn [negb Z.eqb]. unfold bind, ret.
  rewrite (write_words_feeds request ws bs d [request] _ Eb Hu Hreq Hd Hfeeds) by by right.
  by destruct d.
Qed.

(** * The client talking to the simulator

    [linked] is the state of a client connected to an open, fault-free
    simulator device with nothing in flight.  In it, a transaction of the
    client is exactly one [sim_transact] step: the bytes travel through
    encoding, resynchronisation, answer, response scanning and the checks on
    the response without loss ([transact_link]). *)

Abbreviation SimClient := (ProtocolClient SimulatorIoDevice).

(** The simulator at the other end. *)
Definition core_of (c : SimClient) : SimulatorCore := sd_core (pc_device c).
Definition max_payload (c : SimClient) : Z := di_max_payload_words (sim_device_info (core_of c)).

Record linked (c : SimClient) : Prop := {
  lk_clean : device_clean (pc_device c);
  lk_reader : ∃ errs, sd_reader (pc_device c) = mkReader (max_payload c) [] errs;
  lk_words : sd_response_words (pc_device c) = [];
  lk_pending : sd_pending_high_byte (pc_device c) = None;
  lk_sequence : 0 <= pc_sequence c <= 0xFFFF;
  lk_info : pc_device_info c = None ∨ pc_device_info c = Some (sim_device_info (core_of c));
  lk_timeout : 0 < pc_default_timeout_ms c;
}.

(** The sequence number of the next request, and that request. *)
Definition next_seq (c : SimClient) : Z := if pc_sequence c =? 0xFFFF then 1 else pc_sequence c + 1.

Definition request_of (c : SimClient) (command : Z) (payload : list Z) : Frame :=
  mkFrame PacketType.REQUEST command (next_seq c) payload 0 0 PROTOCOL_VERSION.

(** The client after the transaction. *)
Definition moved (c : SimClient) (s : SimulatorCore) : SimClient :=
  pc_set_sequence (next_seq c) (pc_set_device (sd_set_core s (pc_device c)) c).

Lemma next_seq_ok c : linked c → next_sequence (pc_sequence c) = Ok (next_seq c) ∧ 1 <= next_seq c <= 0xFFFF.
Proof.
  intros Hl. pose proof (lk_sequence _ Hl). unfold next_sequence, next_seq.
  destruct (Z.eqb_spec (pc_sequence c) 0xFFFF) as [->|Hne]; [done|].
  replace (pc_sequence c <? 0) with false by lia. replace (pc_sequence c >? 65535) with false by lia.
  cbn. split; [|lia]. f_equal.
  replace (pc_sequence c =? 65535) with false by lia.
  destruct (Z.eqb_spec (pc_sequence c) 0) as [->|]; [done|]. by cbn.
Qed.

Lemma request_of_ok c command payload :
  linked c → u16 command → Forall u16 payload → zlen payload <= max_payload c →
  Frame_ok (request_of c command payload).
Proof.
  intros Hl Hc Hp Hlen. destruct (next_seq_ok c Hl) as [_ Hs].
  pose proof (di_ok16 _ (so_info _ (dc_core _ (lk_clean _ Hl)))) as H16.
  unfold DeviceInfo_fields16 in H16. rewrite !Forall_cons in H16.
  assert (u16 (di_max_payload_words (sim_device_info (core_of c)))) as Hm by apply H16.
  unfold max_payload, u16 in *. split; cbn; try done; unfold u16; lia.
Qed.

Lemma moved_linked c request :
  linked c → Frame_ok request → linked (moved c (after request (core_of c))).
Proof.
  intros Hl Hreq. destruct (next_seq_ok c Hl) as [_ Hs]. destruct Hl as [Hcl Hr Hw Hp Hq Hi Ht].
  destruct Hcl as [H1 H2 H3 H4 H5].
  destruct (answer_ok request _ Hreq H5) as (_ & _ & Hok' & (Hsec & Hinfo & Hf & _)).
  unfold core_of in *. split; cbn; try done; try lia.
  - split; cbn; try done; by rewrite Hf.
  - unfold max_payload, core_of. cbn. rewrite Hinfo. exact Hr.
  - unfold core_of. cbn. by rewrite Hinfo.
Qed.

(** The bytes the client reads. *)
Lemma bytes_of_words ws bs :
  words_to_little_endian_bytes ws = Ok bs → concat (map bytes_of_word ws) = bs.
Proof.
  revert bs. induction ws as [|w ws IH]; intros bs; cbn; [by intros [= <-]|].
  destruct (_ || _); [done|]. destruct (words_to_little_endian_bytes ws) as [b|]; [|done].
  intros [= <-]. by rewrite (IH b eq_refl).
Qed.

Lemma extract_answer max f bs :
  0 <= max → Frame_ok f → zlen (fr_payload f) <= max → encode_bytes f = Ok bs →
  bs <> [] ∧ extract_one max bs = Got f [].
Proof.
  intros Hmax Hf Hl E. pose proof (encode_bytes_inv _ _ E) as (ws & Ew & Eb).
  destruct (encode_words_ok f Hf) as (ws' & Ew' & Hu & Hlen). rewrite Ew in Ew'. injection Ew' as <-.
  destruct (words_to_bytes_ok ws Hu) as (bs' & Eb' & Hu8 & Hbl & _). rewrite Eb in Eb'. injection Eb' as <-.
  pose proof (runs_frame max [] f bs [] Hmax (not_elem_of_nil _) Hf Hl E) as Hr.
  cbn [app] in Hr. rewrite app_nil_r in Hr.
  pose proof (extract_one_runs max bs Hmax Hu8) as He. split; [|by eapply runs_det].
  intros ->. destruct (encode_words_shape f ws Hf Ew) as (? & ? & _ & _ & Hl' & _).
  unfold zlen in *. simpl in Hbl. lia.
Qed.

Section link.
Context (iterations : Z → nat) (Hiter : ∀ t, 0 < t → (0 < iterations t)%nat).

Lemma wp_dev {A} (m : ST SimulatorIoDevice A) (c : SimClient) Q E a d :
  m (pc_device c) = (Ok a, d) → Q a (pc_set_device d c) → wp (dev m) Q E c.
Proof using. unfold wp, dev. by intros ->. Qed.

Lemma wp_attempt_dev {A} (m : ST SimulatorIoDevice A) (c : SimClient) Q E r d :
  m (pc_device c) = (r, d) → Q r (pc_set_device d c) → wp (attempt (dev m)) Q E c.
Proof using. unfold wp, attempt, dev. by intros ->. Qed.

(** Reading the queued answer. *)
Lemma read_loop_answer n max f ws (c : SimClient) :
  0 <= max → Frame_ok f → zlen (fr_payload f) <= max → encode_words f = Ok ws →
  sd_open (pc_device c) = true → sd_response_words (pc_device c) = ws →
  sd_pending_high_byte (pc_device c) = None →
  ∃ raw, read_loop (S n) max [] [] c =
    (Ok (Ok f, raw), pc_set_device (sd_set_words [] (sd_set_pending None (pc_device c))) c).
Proof using.
  intros Hmax Hf Hl Ew Ho Hw Hp. destruct (encode_words_ok f Hf) as (ws' & Ew' & Hu & _).
  rewrite Ew in Ew'. injection Ew' as <-. destruct (words_to_bytes_ok ws Hu) as (bs & Eb & _).
  assert (encode_bytes f = Ok bs) as Ef by by (unfold encode_bytes; rewrite Ew).
  destruct (extract_answer max f bs Hmax Hf Hl Ef) as [Hne Hx].
  cbn [read_loop]. unfold bind at 1. unfold attempt, dev. cbn [dev_read_available simulator_device].
  unfold simdev_read_available, require_open, bind, gets, get, modify, ret. rewrite Ho. cbn [negb].
  rewrite Hp, Hw, (bytes_of_words ws bs Eb). cbn [app]. destruct bs as [|b bs]; [done|].
  rewrite Hx. eexists. reflexivity.
Qed.

(** What a transaction returns, and the state it leaves. *)
Definition transacted (c : SimClient) (command : Z) (payload : list Z) (ws : list Z) (c' : SimClient)
    : Prop :=
  let request := request_of c command payload in
  c' = moved c (after request (core_of c)) ∧
  fr_status (answer request (core_of c)) = Status.Status_value Status.OK ∧
  ws = fr_payload (answer request (core_of c)).

Definition refused_by (c : SimClient) (command : Z) (payload : list Z) (e : Exn) (c' : SimClient)
    : Prop :=
  let request := request_of c command payload in
  c' = moved c (after request (core_of c)) ∧
  fr_status (answer request (core_of c)) <> Status.Status_value Status.OK ∧
  e = StatusErr command (fr_status (answer request (core_of c))).

Lemma linked_max c : linked c → 0 <= max_payload c <= 0xFFFF.
Proof using.
  intros Hl. pose proof (di_ok16 _ (so_info _ (dc_core _ (lk_clean _ Hl)))) as H16.
  unfold DeviceInfo_fields16 in H16. rewrite !Forall_cons in H16.
  assert (u16 (di_max_payload_words (sim_device_info (core_of c)))) as Hm by apply H16.
  unfold max_payload, u16 in *. lia.
Qed.

Lemma response_payload_answers request f :
  Frame_ok request → answers request f →
  response_payload request f =
    if (fr_status f =? Status.OK) then Ok (fr_payload f) else Raise (StatusErr (fr_command request) (fr_status f)).
Proof using.
  intros [] [Hf Hc Hs Hfl Hv Ht Hp]. unfold response_payload, validate_response_sequence.
  rewrite Hs, Hc, Ht, !Z.eqb_refl. unfold u16 in ok_sequence.
  replace (fr_sequence request =? 0) with false by lia.
  replace (fr_sequence request >? 0xFFFF) with false by lia. cbn [orb negb].
  by destruct (fr_status f =? Status.OK).
Qed.

Lemma wp_pc_transact c command payload timeout :
  linked c → u16 command → Forall u16 payload → zlen payload <= max_payload c →
  0 < default (pc_default_timeout_ms c) timeout →
  zlen (fr_payload (answer (request_of c command payload) (core_of c))) <= max_payload c →
  wp (pc_transact iterations command payload timeout)
    (transacted c command payload) (refused_by c command payload) c.
Proof using Hiter.
  intros Hl Hc Hp Hlen Ht Hans. pose proof (request_of_ok c command payload Hl Hc Hp Hlen) as Hreq.
  destruct (next_seq_ok c Hl) as [Eseq Hseq]. pose proof (linked_max c Hl) as Hmax.
  pose proof Hl as [Hcl (errs & Hr) Hw Hpend _ Hinfo _].
  set (request := request_of c command payload) in *.
  destruct (answer_ok request _ Hreq (dc_core _ Hcl)) as (Hf & Hansw & _ & _).
  destruct (encode_words_ok _ Hreq) as (rws & Erw & Hru & _).
  destruct (words_to_bytes_ok rws Hru) as (bs & Ebs & _).
  assert (encode_bytes request = Ok bs) as Eb by by (unfold encode_bytes; rewrite Erw).
  unfold pc_transact. apply wp_bind, wp_gets, wp_bind.
  assert (Hclear : wp (if pc_clear_input_before_request c then dev dev_clear_input else ret tt)
    (λ _ c', c' = c) (refused_by c command payload) c).
  { apply wp_if; intros _; [|by apply wp_ret].
    eapply wp_dev with (a := tt) (d := sd_set_pending None (sd_set_words [] (pc_device c))).
    - cbn. unfold simdev_clear_input, require_open, bind, gets, ret, modify. by rewrite (dc_open _ Hcl).
    - destruct c as [d]; destruct d; cbn in *. by rewrite Hw, Hpend. }
  eapply wp_conseq; [exact Hclear| |done]. intros _ ? ->. clear Hclear.
  apply wp_bind, wp_gets, wp_bind, wp_lift; rewrite Eseq; [|done]. intros seq [= <-].
  apply wp_bind, wp_modify, wp_bind, wp_lift.
  2: { intros e E. by rewrite (proj2 (Frame_init_ok _ _ _ _ _ _ _ request) (conj eq_refl Hreq)) in E. }
  intros request' [-> _]%Frame_init_ok. change (mkFrame _ _ _ _ _ _ _) with request.
  apply wp_bind, wp_lift; rewrite Eb; [|done]. intros bs' [= <-].
  apply wp_bind. eapply wp_dev.
  { apply (write_request request bs (pc_device c) errs Hreq Hcl Eb); rewrite Hr; [|done].
    cbn. split; [exact Hlen|lia]. }
  apply wp_bind, wp_gets, wp_bind. cbn [pc_default_timeout_ms pc_set_device pc_set_sequence].
  set (t := default (pc_default_timeout_ms c) timeout) in *. set (ans := answer request (core_of c)) in *.
  unfold read_response_frame. replace (t <=? 0) with false by lia. apply wp_bind, wp_gets.
  cbn [pc_device_info pc_set_device pc_set_sequence].
  set (max := match pc_device_info c with Some i => di_max_payload_words i | None => 0xFFFF end).
  assert (0 <= max ∧ zlen (fr_payload ans) <= max) as [Hmax0 Hansmax].
  { unfold max, max_payload in *. destruct Hinfo as [-> | ->]; [|lia].
    split; [lia|]. pose proof (ok_payload_length _ Hf). unfold ans. done. }
  specialize (Hiter t Ht). destruct (iterations t) as [|n]; [lia|].
  destruct (read_loop_answer n max ans (answer_words request (core_of c))
    (pc_set_device (answered request (pc_device c)) (pc_set_sequence (next_seq c) c)))
    as (raw & Eread); try done.
  { apply answer_words_ok; [done|apply Hcl]. }
  { by destruct Hcl. }
  { cbn. by rewrite Hw. }
  unfold wp at 1. rewrite Eread. apply wp_lift.
  - intros ws. rewrite (response_payload_answers request ans Hreq Hansw).
    destruct (fr_status ans =? Status.OK) eqn:Est; [|done]. intros [= <-]. split; [|split; [|done]].
    + destruct c as [d]; destruct d; cbn in *. by rewrite Hw, Hpend.
    + by apply Z.eqb_eq in Est.
  - intros e. rewrite (response_payload_answers request ans Hreq Hansw).
    destruct (fr_status ans =? Status.OK) eqn:Est; [done|]. intros [= <-]. split; [|split; [|done]].
    + destruct c as [d]; destruct d; cbn in *. by rewrite Hw, Hpend.
    + by apply Z.eqb_neq in Est.
Qed.

End link.

(** C5: A client transaction is one simulator step.  On a connected client,
    [transact] with uint16 words that fit the device's payload (and an answer that
    fits) returns the payload of the simulator's answer when its status is
    OK and raises ProtocolStatusError with that status otherwise; nothing is
    lost, repeated or misread on the way, the simulator has made exactly that
    one step, and the client is connected again with the next sequence number. *)
Theorem client_transact_refines iterations c command payload timeout :
  (∀ t, 0 < t → (0 < iterations t)%nat) →
  linked c → u16 command → Forall u16 payload → zlen payload <= max_payload c →
  0 < default (pc_default_timeout_ms c) timeout →
  let request := request_of c command payload in
  let '(f, s') := (answer request (core_of c), after request (core_of c)) in
  zlen (fr_payload f) <= max_payload c →
  sim_transact request (core_of c) = (Ok f, s') ∧ linked (moved c s') ∧
  core_of (moved c s') = s' ∧ pc_sequence (moved c s') = next_seq c ∧
  pc_transact iterations command payload timeout c =
    ((if fr_status f =? Status.OK then Ok (fr_payload f)
      else Raise (StatusErr command (fr_status f))), moved c s').
Proof.
  intros Hiter Hl Hc Hp Hlen Ht request Hans.
  pose proof (request_of_ok c command payload Hl Hc Hp Hlen) as Hreq.
  split_and!; try done.
  - apply transact_answer; [done|]. apply (dc_core _ (lk_clean _ Hl)).
  - by apply moved_linked.
  - pose proof (wp_pc_transact iterations Hiter c command payload timeout Hl Hc Hp Hlen Ht Hans) as Hw.
    unfold wp in Hw. destruct (pc_transact iterations command payload timeout c) as [[ws|e] c'].
    + destruct Hw as (-> & Hst & ->). fold request in Hst |- *. by rewrite Hst.
    + destruct Hw as (-> & Hst & ->). fold request in Hst |- *. by apply Z.eqb_neq in Hst as ->.
Qed.

Lemma client_transact_refines_witness :
  let c := mkClient (mkSimDevice example_simulator true (mkReader 256 [] []) [] None) 1000 0 true 0
             (Some (sim_device_info example_simulator)) in
  linked c ∧
  (pc_transact Z.to_nat Command.ERASE [2; 0; 0] None c).1 = Ok [] ∧
  (pc_transact Z.to_nat Command.ERASE [0; 0; 0] None c).1 =
    Raise (StatusErr Command.ERASE Status.BAD_ADDRESS).
Proof.
  intros c. assert (linked c) as Hl.
  { split; [|by exists []|reflexivity|reflexivity|simpl; lia|by right|simpl; lia].
    split; try reflexivity. apply example_simulator_ok. }
  assert (∀ t, 0 < t → (0 < Z.to_nat t)%nat) as Hiter by (intros; lia).
  split; [exact Hl|split].
  - destruct (client_transact_refines Z.to_nat c Command.ERASE [2; 0; 0] None Hiter Hl)
      as (_ & _ & _ & _ & ->); try (vm_compute; intuition discriminate).
    repeat (apply Forall_cons_2; [vm_compute; intuition discriminate|]). constructor.
  - destruct (client_transact_refines Z.to_nat c Command.ERASE [0; 0; 0] None Hiter Hl)
      as (_ & _ & _ & _ & ->); try (vm_compute; intuition discriminate).
    repeat (apply Forall_cons_2; [vm_compute; intuition discriminate|]). constructor.
Defined.
