(* ===== verification/Workflow.v ===== *)
(** The upgrade workflow, then its steps over the simulator. *)

(** * The upgrade workflow (core/workflow.py, class UpgradeWorkflow)

    Erase, program, verify, DFU, run, reset and the RAM flows above a
    [ProtocolClient] on any [PcIoDevice].  The client (with its device) is
    part of the state and [cl m] calls one of its methods.  The progress
    callback is the log [uw_progress] of its calls; what a callback does is
    outside the model. *)

From S2P Require Import Prelude.
From S2P Require Import Errors.
From S2P Require Import Constants.
From S2P Require Import Words.
From S2P Require Import Frame.
From S2P Require Import Models.
From S2P Require Import Firmware.
From S2P Require Import Packets.
From S2P Require Import ServiceImage.
From S2P Require Import Simulator.
From S2P Require Import Journal.
From S2P Require Import SimulatorProofs.
From S2P Require Import SimulatorTransact.
From S2P Require Import SimulatorProperties.
From S2P Require Import Client.
From S2P Require Import ClientSimulator.

Inductive DeviceState : Set := READY | UNKNOWN.

(** [_COMMAND_TIMEOUT_MS] *)
Definition COMMAND_TIMEOUT_MS (command : Command.Command_t) : Z :=
  match command with
  | Command.ERASE => 60000
  | Command.RUN | Command.RESET | Command.RUN_RAM | Command.GET_SERVICE_STATUS => 5000
  | _ => 10000
  end.

Section workflow.
Context {D : Type} `{PcIoDevice D}.
Context (iterations : Z → nat).

Record UpgradeWorkflow : Type := mkWorkflow {
  uw_client : ProtocolClient D;
  uw_allowed_flash_ranges : list AddressRange;
  uw_state : DeviceState;
  uw_flash_modified : bool;
  uw_verify_succeeded : bool;
  uw_last_probe_succeeded : option bool;
  uw_last_error_detail : option ErrorDetail;
  uw_progress : list (string * Z * Z);
}.

Abbreviation UW := (ST UpgradeWorkflow).

Definition uw_set_client (v : ProtocolClient D) (w : UpgradeWorkflow) : UpgradeWorkflow :=
  mkWorkflow v (uw_allowed_flash_ranges w) (uw_state w) (uw_flash_modified w)
    (uw_verify_succeeded w) (uw_last_probe_succeeded w) (uw_last_error_detail w) (uw_progress w).
Definition uw_set_state (v : DeviceState) (w : UpgradeWorkflow) : UpgradeWorkflow :=
  mkWorkflow (uw_client w) (uw_allowed_flash_ranges w) v (uw_flash_modified w)
    (uw_verify_succeeded w) (uw_last_probe_succeeded w) (uw_last_error_detail w) (uw_progress w).
Definition uw_set_flash_modified (v : bool) (w : UpgradeWorkflow) : UpgradeWorkflow :=
  mkWorkflow (uw_client w) (uw_allowed_flash_ranges w) (uw_state w) v
    (uw_verify_succeeded w) (uw_last_probe_succeeded w) (uw_last_error_detail w) (uw_progress w).
Definition uw_set_verify_succeeded (v : bool) (w : UpgradeWorkflow) : UpgradeWorkflow :=
  mkWorkflow (uw_client w) (uw_allowed_flash_ranges w) (uw_state w) (uw_flash_modified w)
    v (uw_last_probe_succeeded w) (uw_last_error_detail w) (uw_progress w).
Definition uw_set_last_probe (v : option bool) (w : UpgradeWorkflow) : UpgradeWorkflow :=
  mkWorkflow (uw_client w) (uw_allowed_flash_ranges w) (uw_state w) (uw_flash_modified w)
    (uw_verify_succeeded w) v (uw_last_error_detail w) (uw_progress w).
Definition uw_set_last_error (v : option ErrorDetail) (w : UpgradeWorkflow) : UpgradeWorkflow :=
  mkWorkflow (uw_client w) (uw_allowed_flash_ranges w) (uw_state w) (uw_flash_modified w)
    (uw_verify_succeeded w) (uw_last_probe_succeeded w) v (uw_progress w).
Definition uw_add_progress (v : string * Z * Z) (w : UpgradeWorkflow) : UpgradeWorkflow :=
  mkWorkflow (uw_client w) (uw_allowed_flash_ranges w) (uw_state w) (uw_flash_modified w)
    (uw_verify_succeeded w) (uw_last_probe_succeeded w) (uw_last_error_detail w) (uw_progress w ++ [v]).

Definition UpgradeWorkflow_init (client : ProtocolClient D) (allowed : list AddressRange)
    : UpgradeWorkflow :=
  mkWorkflow client allowed READY false false None None [].

(** A method call on [self.client]. *)
Definition cl {A} (m : PC D A) : UW A :=
  λ w, let '(r, c) := m (uw_client w) in (r, uw_set_client c w).

(** [try: m except Exception: None], with the outcome as a value. *)
Definition try_cl {A} (m : PC D A) : UW (option A) :=
  λ w, match cl m w with (Ok a, w) => (Ok (Some a), w) | (Raise _, w) => (Ok None, w) end.

Definition progress (operation : string) (current total : Z) : UW unit :=
  modify (uw_add_progress (operation, current, total)).

(** ** Transactions *)

Definition uw_transact (command : Command.Command_t) (payload : list Z) (modifying : bool)
    : UW (list Z) :=
  catch
    (cl (pc_transact iterations (Command.Command_value command) payload
           (Some (COMMAND_TIMEOUT_MS command))))
    (λ e,
      if isinstance e ProtocolStatusError then
        detail <- try_cl (pc_get_last_error iterations) ;;
        modify (uw_set_last_error detail) ;;;
        raise e
      else if isinstance e IoTimeoutError then
        modify (uw_set_state UNKNOWN) ;;;
        (if modifying
         then modify (uw_set_flash_modified true) ;;; modify (uw_set_verify_succeeded false)
         else ret tt) ;;;
        probe <- try_cl (pc_ping iterations (Some 5000)) ;;
        modify (uw_set_last_probe (Some (bool_decide (is_Some probe)))) ;;;
        raise e
      else raise e).

Definition uw_erase (sector_mask : Z) : UW unit :=
  if (sector_mask <=? 0) || (sector_mask >? 0xFFFFFFFF)
  then raise (Err ValueError (Lit "sector_mask must be a nonzero uint32")) else
  modify (uw_set_flash_modified true) ;;;
  modify (uw_set_verify_succeeded false) ;;;
  mask <- lift (split_u32 sector_mask) ;;
  _ <- uw_transact Command.ERASE [mask.1; mask.2; 0] true ;;
  ret tt.

(** ** Program and verify *)

Definition no_device_info : Exn :=
  Err WorkflowError (Lit "device information is not available; connect first").

(** [info = self.client.device_info], or the error. *)
Definition require_info : UW DeviceInfo :=
  w <- get ;;
  match pc_device_info (uw_client w) with
  | None => raise no_device_info
  | Some info => ret info
  end.

Definition begin_payload (count total entry_point : Z) : Res (list Z) :=
  let? total_words := split_u32 total in
  let? entry := split_u32 entry_point in
  Ok [Target.Target_value Target.FLASH_APP; count; total_words.1; total_words.2; entry.1; entry.2;
      0; 0; 0].

Definition data_payload (packet : DataPacket) : Res (list Z) :=
  let? address := split_u32 (dp_address packet) in
  let? index := split_u32 (dp_index packet) in
  Ok ([address.1; address.2; zlen (dp_words packet); index.1; index.2] ++ dp_words packet).

Definition end_payload (count total : Z) : Res (list Z) :=
  let? packets := split_u32 count in
  let? total_words := split_u32 total in
  Ok [packets.1; packets.2; total_words.1; total_words.2; 0; 0].

Fixpoint transfer_packets (data_command : Command.Command_t) (operation : string)
    (modifying : bool) (count : Z) (packets : list DataPacket) : UW unit :=
  match packets with
  | [] => ret tt
  | packet :: packets =>
      payload <- lift (data_payload packet) ;;
      _ <- uw_transact data_command payload modifying ;;
      progress operation (dp_index packet + 1) count ;;;
      transfer_packets data_command operation modifying count packets
  end.

Definition uw_transfer (image : FirmwareImage)
    (begin_command data_command end_command : Command.Command_t) (operation : string)
    (modifying : bool) : UW unit :=
  info <- require_info ;;
  packets <- lift (prepare_packets image (di_max_data_words info)) ;;
  let total_words := zsum (map (λ p, zlen (dp_words p)) packets) in
  payload <- lift (begin_payload (zlen packets) total_words (fi_entry_point image)) ;;
  _ <- uw_transact begin_command payload modifying ;;
  transfer_packets data_command operation modifying (zlen packets) packets ;;;
  payload <- lift (end_payload (zlen packets) total_words) ;;
  _ <- uw_transact end_command payload modifying ;;
  ret tt.

Definition uw_program (image : FirmwareImage) : UW unit :=
  lift (validate_app_firmware_image image) ;;;
  modify (uw_set_flash_modified true) ;;;
  modify (uw_set_verify_succeeded false) ;;;
  uw_transfer image Command.PROGRAM_BEGIN Command.PROGRAM_DATA Command.PROGRAM_END "Program" true.

Definition uw_verify (image : FirmwareImage) : UW unit :=
  lift (validate_app_firmware_image image) ;;;
  modify (uw_set_verify_succeeded false) ;;;
  uw_transfer image Command.VERIFY_BEGIN Command.VERIFY_DATA Command.VERIFY_END "Verify" false ;;;
  modify (uw_set_verify_succeeded true) ;;;
  modify (uw_set_state READY).

Definition uw_dfu (sector_mask : Z) (image : FirmwareImage) : UW unit :=
  lift (validate_app_firmware_image image) ;;;
  uw_erase sector_mask ;;;
  uw_program image ;;;
  uw_verify image ;;;
  info <- require_info ;;
  size_end <- lift (programmed_image_size_and_end image (di_max_data_words info)) ;;
  catch
    (crc <- lift (calculate_programmed_image_crc32 image (di_max_data_words info)) ;;
     cl (pc_metadata_append_image_valid iterations (fi_entry_point image) size_end.1 crc size_end.2
           (Some (COMMAND_TIMEOUT_MS Command.METADATA_APPEND_RECORD))))
    (λ e, modify (uw_set_verify_succeeded false) ;;; raise e) ;;;
  progress "Metadata" 1 1.

(** ** Run and reset *)

Definition entry_allowed (allowed : list AddressRange) (image : FirmwareImage) : bool :=
  let ranges := match allowed with [] => fi_address_ranges image | _ => allowed end in
  existsb (λ item, (ar_start item <=? fi_entry_point image)
                   && (fi_entry_point image <? ar_end_exclusive item)) ranges.

Definition uw_run (image : FirmwareImage) : UW unit :=
  lift (validate_app_firmware_image image) ;;;
  if negb (fi_entry_point image mod 8 =? 0)
  then raise (Err WorkflowError (Lit "FLASH_APP entry point must be 8-word aligned")) else
  w <- get ;;
  if negb (entry_allowed (uw_allowed_flash_ranges w) image)
  then raise (Err WorkflowError (Lit "FLASH_APP entry point is outside the allowed Flash range")) else
  if uw_flash_modified w && negb (uw_verify_succeeded w)
  then raise (Err WorkflowError (Lit "Verify must succeed after Erase/Program/DFU before Run")) else
  summary <- cl (pc_get_metadata_summary iterations None) ;;
  if ms_metadata_valid summary =? 0
  then raise (Err WorkflowError (Lit "valid IMAGE_VALID metadata is required before Run")) else
  if negb (ms_entry_point summary =? fi_entry_point image)
  then raise (Err WorkflowError (Lit "metadata entry point does not match firmware image")) else
  (if ms_app_confirmed summary =? 0 then
     if ms_boot_attempt_count summary >=? ms_boot_attempt_limit summary
     then raise (Err WorkflowError (Lit "boot attempt limit reached")) else
     cl (pc_metadata_append_boot_attempt iterations (ms_entry_point summary)
           (ms_image_size_words summary) (ms_image_crc32 summary)
           (Some (COMMAND_TIMEOUT_MS Command.METADATA_APPEND_RECORD))) ;;;
     progress "BootAttempt" 1 1
   else ret tt) ;;;
  entry <- lift (split_u32 (fi_entry_point image)) ;;
  _ <- uw_transact Command.RUN [Target.Target_value Target.FLASH_APP; entry.1; entry.2; 0] false ;;
  ret tt.

Definition uw_reset : UW unit := _ <- uw_transact Command.RESET [] false ;; ret tt.

(** ** RAM images *)

Fixpoint ram_load_packets (count : Z) (packets : list DataPacket) : UW unit :=
  match packets with
  | [] => ret tt
  | packet :: packets =>
      cl (pc_ram_load_data iterations (dp_address packet) (dp_words packet) (dp_index packet)
            (Some (COMMAND_TIMEOUT_MS Command.RAM_LOAD_DATA))) ;;;
      progress "RamLoad" (dp_index packet + 1) count ;;;
      ram_load_packets count packets
  end.

Definition uw_ram_load (image : FirmwareImage) : UW Z :=
  lift (validate_ram_firmware_image image) ;;;
  info <- require_info ;;
  packets <- lift (prepare_ram_packets image (di_max_data_words info)) ;;
  let total_words := zsum (map (λ p, zlen (dp_words p)) packets) in
  image_crc32 <- lift (calculate_ram_image_crc32 image (di_max_data_words info)) ;;
  cl (pc_ram_load_begin iterations (zlen packets) total_words (fi_entry_point image) image_crc32
        (Some (COMMAND_TIMEOUT_MS Command.RAM_LOAD_BEGIN))) ;;;
  ram_load_packets (zlen packets) packets ;;;
  cl (pc_ram_load_end iterations (zlen packets) total_words image_crc32
        (Some (COMMAND_TIMEOUT_MS Command.RAM_LOAD_END))) ;;;
  ret image_crc32.

Definition uw_ram_check_crc (image : FirmwareImage) : UW Z :=
  lift (validate_ram_firmware_image image) ;;;
  info <- require_info ;;
  image_crc32 <- lift (calculate_ram_image_crc32 image (di_max_data_words info)) ;;
  cl (pc_ram_check_crc iterations image_crc32 (fi_total_words image)
        (Some (COMMAND_TIMEOUT_MS Command.RAM_CHECK_CRC))) ;;;
  progress "RamCheckCrc" 1 1 ;;;
  ret image_crc32.

Definition uw_run_ram (image : FirmwareImage) (entry_point : option Z) : UW unit :=
  lift (validate_ram_firmware_image image) ;;;
  cl (pc_run_ram iterations (default (fi_entry_point image) entry_point)
        (Some (COMMAND_TIMEOUT_MS Command.RUN_RAM))).

Definition uw_run_ram_image (image : FirmwareImage) : UW Z :=
  image_crc32 <- uw_ram_load image ;;
  _ <- uw_ram_check_crc image ;;
  uw_run_ram image None ;;;
  ret image_crc32.

(** ** The RAM-resident Flash service *)

Fixpoint service_load_packets (count : Z) (packets : list ServiceRamPacket) : UW unit :=
  match packets with
  | [] => ret tt
  | packet :: packets =>
      cl (pc_ram_load_data iterations (sp_address packet) (sp_words packet) (sp_index packet)
            (Some (COMMAND_TIMEOUT_MS Command.RAM_LOAD_DATA))) ;;;
      progress "RamLoad" (sp_index packet + 1) count ;;;
      service_load_packets count packets
  end.

Definition service_matches (status : ServiceStatus) (image_crc32 total_words : Z) : bool :=
  (ss_service_state status =? ServiceState.ATTACHED)
  && (ss_abi_major status =? SERVICE_ABI_MAJOR)
  && (ss_abi_minor status =? SERVICE_ABI_MINOR)
  && (Z.land (ss_capabilities status) SERVICE_REQUIRED_CAPABILITIES =? SERVICE_REQUIRED_CAPABILITIES)
  && (ss_loaded_image_crc32 status =? image_crc32)
  && (ss_loaded_image_words status =? total_words).

Definition uw_load_and_attach_service (service_image : FirmwareImage) (header_address : Z)
    : UW ServiceStatus :=
  lift (validate_ram_firmware_image service_image) ;;;
  info <- require_info ;;
  packets <- lift (prepare_service_ram_packets service_image (di_max_data_words info)) ;;
  let total_words := zsum (map (λ p, zlen (sp_words p)) packets) in
  image_crc32 <- lift (calculate_service_ram_load_crc32 service_image (di_max_data_words info)) ;;
  cl (pc_ram_load_begin iterations (zlen packets) total_words (fi_entry_point service_image)
        image_crc32 (Some (COMMAND_TIMEOUT_MS Command.RAM_LOAD_BEGIN))) ;;;
  service_load_packets (zlen packets) packets ;;;
  cl (pc_ram_load_end iterations (zlen packets) total_words image_crc32
        (Some (COMMAND_TIMEOUT_MS Command.RAM_LOAD_END))) ;;;
  cl (pc_ram_check_crc iterations image_crc32 total_words
        (Some (COMMAND_TIMEOUT_MS Command.RAM_CHECK_CRC))) ;;;
  progress "RamCheckCrc" 1 1 ;;;
  cl (pc_service_attach iterations header_address image_crc32 total_words
        (Some (COMMAND_TIMEOUT_MS Command.SERVICE_ATTACH))) ;;;
  status <- cl (pc_get_service_status iterations
                  (Some (COMMAND_TIMEOUT_MS Command.GET_SERVICE_STATUS))) ;;
  if negb (service_matches status image_crc32 total_words)
  then raise (Err WorkflowError (Fmt "attached service status does not match loaded image: {!r}" []))
  else
    progress "ServiceAttach" 1 1 ;;;
    ret status.

End workflow.
Arguments UpgradeWorkflow : clear implicits.

(** * An upgrade from end to end

    The workflow on a client linked to the simulator.  [on info s w] says that
    the workflow [w] is connected to a simulator in state [s] whose device
    information [info] it has read; a transaction whose request the simulator
    accepts moves exactly the simulator ([wp_transact_ok]).  The data packets
    of a transfer are followed by induction, and [dfu_installs_image] puts
    erase, program, verify and the IMAGE_VALID record together. *)

Abbreviation SimWorkflow := (UpgradeWorkflow SimulatorIoDevice).

Record on (info : DeviceInfo) (s : SimulatorCore) (w : SimWorkflow) : Prop := {
  on_linked : linked (uw_client w);
  on_core : core_of (uw_client w) = s;
  on_info : pc_device_info (uw_client w) = Some info;
}.

(** The flags of the workflow that [_transact] leaves alone when it succeeds. *)
Definition same_flags (w w' : SimWorkflow) : Prop :=
  uw_flash_modified w' = uw_flash_modified w ∧ uw_verify_succeeded w' = uw_verify_succeeded w ∧
  uw_state w' = uw_state w ∧ uw_allowed_flash_ranges w' = uw_allowed_flash_ranges w.

Definition impossible : Exn → SimWorkflow → Prop := λ _ _, False.

Lemma on_ok info s w : on info s w → Sim_ok s ∧ info = sim_device_info s.
Proof.
  intros [Hl <- Hi]. split; [apply Hl|]. destruct (lk_info _ Hl) as [E|E]; rewrite E in Hi; congruence.
Qed.

Lemma wp_cl {A} (m : PC SimulatorIoDevice A) (w : SimWorkflow) Q E :
  wp m (λ a c, Q a (uw_set_client c w)) (λ e c, E e (uw_set_client c w)) (uw_client w) →
  wp (cl m) Q E w.
Proof. unfold wp, cl. by destruct (m (uw_client w)) as [[a|e] c]. Qed.

Section upgrade.
Context (iterations : Z → nat) (Hiter : ∀ t, 0 < t → (0 < iterations t)%nat).

(** One accepted request, through the client. *)
Lemma wp_client_accepts command payload timeout s s' reply (c : SimClient) :
  linked c → core_of c = s → Forall u16 payload → zlen payload <= max_payload c →
  zlen reply <= max_payload c →
  0 < default (pc_default_timeout_ms c) timeout → gate_open command s →
  (∀ request, Frame_ok request → fr_payload request = payload →
     gives (handler command request) s (response request Status.OK reply) s') →
  wp (pc_transact iterations (Command.Command_value command) payload timeout)
    (λ ws c', ws = reply ∧ linked c' ∧ c' = moved c s') (λ _ _, False) c.
Proof using Hiter.
  intros Hl Hc Hp Hlen Hrep Ht Hg Hh.
  assert (u16 (Command.Command_value command)) as Hcmd by by destruct command.
  set (request := request_of c (Command.Command_value command) payload).
  assert (Frame_ok request) as Hreq by (apply request_of_ok; done).
  assert (sim_transact request s = (Ok (response request Status.OK reply), s')) as E.
  { apply gives_eq, (transact_dispatch command); [by split|done|by apply Hh]. }
  assert (answer request s = response request Status.OK reply ∧ after request s = s') as [Ea Es]
    by (unfold answer, after; rewrite E; done).
  eapply wp_conseq.
  - apply wp_pc_transact; try done. fold request. by rewrite Hc, Ea.
  - intros ws c' (-> & Hst & ->). fold request. rewrite Hc, Ea, Es. split; [done|].
    pose proof (moved_linked c request Hl Hreq) as Hm. rewrite Hc, Es in Hm. by split.
  - intros e c' (_ & Hst & _). fold request in Hst. rewrite Hc, Ea in Hst. by apply Hst.
Qed.

Lemma wp_client_ok command payload timeout info s s' reply w :
  on info s w → Forall u16 payload → zlen payload <= di_max_payload_words info →
  zlen reply <= di_max_payload_words info →
  0 < default (pc_default_timeout_ms (uw_client w)) timeout → gate_open command s →
  (∀ request, Frame_ok request → fr_payload request = payload →
     gives (handler command request) s (response request Status.OK reply) s') →
  wp (pc_transact iterations (Command.Command_value command) payload timeout)
    (λ ws c, ws = reply ∧ on info s' (uw_set_client c w)) (λ _ _, False) (uw_client w).
Proof using Hiter.
  intros Hon Hp Hlen Hrep Ht Hg Hh. destruct (on_ok info s w Hon) as [_ ->].
  destruct Hon as [Hl Hc Hi].
  assert (max_payload (uw_client w) = di_max_payload_words (sim_device_info s)) as Hmax
    by by unfold max_payload; rewrite Hc.
  eapply wp_conseq; [eapply wp_client_accepts; try done; by rewrite Hmax| |done].
  intros ws c (-> & Hl' & ->). split; [done|]. by split.
Qed.

Lemma on_flags info s w c :
  on info s (uw_set_client c w) → same_flags w (uw_set_client c w).
Proof using. done. Qed.

Lemma wp_transact_ok command payload modifying info s s' w :
  on info s w → Forall u16 payload → zlen payload <= di_max_payload_words info → gate_open command s →
  (∀ request, Frame_ok request → fr_payload request = payload →
     gives (handler command request) s (response request Status.OK []) s') →
  wp (uw_transact iterations command payload modifying)
    (λ _ w', on info s' w' ∧ same_flags w w') impossible w.
Proof using Hiter.
  intros Hon Hp Hlen Hg Hh. apply wp_catch, wp_cl.
  eapply wp_conseq; [eapply (wp_client_ok command payload _ info s s' [] w)| |]; try done.
  - pose proof (zlen_nonneg payload). unfold zlen at 1. simpl. lia.
  - by destruct command.
  - intros ws c [_ Hon']. by split.
Qed.

(** ** Transfers *)

(** The simulator takes the command with this payload from [s] to [s']. *)
Definition accepts (command : Command.Command_t) (payload : list Z) (s s' : SimulatorCore) : Prop :=
  ∀ request, Frame_ok request → fr_payload request = payload →
    gives (handler command request) s (response request Status.OK []) s'.

(** The encoded payload can be sent and takes the simulator from [s] to [s']. *)
Definition sends (info : DeviceInfo) (command : Command.Command_t) (payload : Res (list Z))
    (s s' : SimulatorCore) : Prop :=
  ∃ ws, payload = Ok ws ∧ Forall u16 ws ∧ zlen ws <= di_max_payload_words info ∧
    gate_open command s ∧ accepts command ws s s'.

Lemma same_flags_trans w1 w2 w3 : same_flags w1 w2 → same_flags w2 w3 → same_flags w1 w3.
Proof using. unfold same_flags. intros. destruct_and!. split_and!; congruence. Qed.

Lemma wp_sends {A} info command payload modifying s s' w (m : list Z → ST SimWorkflow A) Q :
  on info s w → sends info command payload s s' →
  (∀ ws w', on info s' w' → same_flags w w' → wp (m ws) Q impossible w') →
  wp (payload <- lift payload ;; ws <- uw_transact iterations command payload modifying ;; m ws)
    Q impossible w.
Proof using Hiter.
  intros Hon (ws & -> & Hu & Hl & Hg & Ha) Hm. apply wp_bind, wp_lift; [|done]. intros ? [= <-].
  apply wp_bind. eapply wp_conseq; [by eapply wp_transact_ok| |done].
  intros reply w' [Hon' Hf]. by apply Hm.
Qed.

Lemma wp_transfer_packets info command operation modifying count
    (I : list DataPacket → SimulatorCore → Prop) :
  (∀ p ps s, Sim_ok s → info = sim_device_info s → I (p :: ps) s →
    ∃ s', sends info command (data_payload p) s s' ∧ I ps s') →
  ∀ ps s w, on info s w → I ps s →
  wp (transfer_packets iterations command operation modifying count ps)
    (λ _ w', ∃ s', on info s' w' ∧ I [] s' ∧ same_flags w w') impossible w.
Proof using Hiter.
  intros Hstep ps. induction ps as [|p ps IH]; intros s w Hon HI; cbn [transfer_packets].
  { apply wp_ret. by exists s. }
  destruct (on_ok info s w Hon) as [Hok Hinfo].
  destruct (Hstep p ps s Hok Hinfo HI) as (s' & Hs & HI').
  eapply wp_sends; [done..|]. intros _ w1 Hon1 Hf1. apply wp_bind, wp_modify.
  eapply wp_conseq; [apply (IH s'); [by destruct Hon1|done]| |done].
  intros _ w2 (s2 & Hon2 & HI2 & Hf2). exists s2. split_and!; try done. by eapply same_flags_trans.
Qed.

(** The three phases of a transfer, with a state property for each. *)
Lemma wp_transfer image ps b d e operation modifying info
    (I : list DataPacket → SimulatorCore → Prop) (J : SimulatorCore → Prop) s w :
  let total := zsum (map (λ p, zlen (dp_words p)) ps) in
  on info s w → prepare_packets image (di_max_data_words info) = Ok ps →
  (Sim_ok s → ∃ s', sends info b (begin_payload (zlen ps) total (fi_entry_point image)) s s' ∧ I ps s') →
  (∀ p ps s, Sim_ok s → info = sim_device_info s → I (p :: ps) s →
    ∃ s', sends info d (data_payload p) s s' ∧ I ps s') →
  (∀ s, Sim_ok s → I [] s → ∃ s', sends info e (end_payload (zlen ps) total) s s' ∧ J s') →
  wp (uw_transfer iterations image b d e operation modifying)
    (λ _ w', ∃ s', on info s' w' ∧ J s' ∧ same_flags w w') impossible w.
Proof using Hiter.
  intros total Hon Hps Hb Hd He. unfold uw_transfer, require_info.
  apply wp_bind, wp_bind, wp_get. rewrite (on_info _ _ _ Hon). apply wp_ret.
  apply wp_bind, wp_lift; rewrite Hps; [|done]. intros ? [= <-].
  destruct (Hb (proj1 (on_ok _ _ _ Hon))) as (s1 & Hs1 & HI).
  eapply wp_sends; [done..|]. intros _ w1 Hon1 Hf1.
  apply wp_bind. eapply wp_conseq; [by eapply (wp_transfer_packets info d operation modifying _ I Hd ps)| |done].
  intros _ w2 (s2 & Hon2 & HI2 & Hf2).
  destruct (He s2 (proj1 (on_ok _ _ _ Hon2)) HI2) as (s3 & Hs3 & HJ).
  eapply wp_sends; [done..|]. intros _ w3 Hon3 Hf3. apply wp_ret. exists s3.
  split_and!; try done. by do 2 (eapply same_flags_trans; [done|]).
Qed.

End upgrade.

(** ** Payloads *)

Lemma begin_payload_ok count total entry :
  u16 count → u32 total → u32 entry →
  ∃ tlo thi elo ehi, begin_payload count total entry =
      Ok [Target.Target_value Target.FLASH_APP; count; tlo; thi; elo; ehi; 0; 0; 0] ∧
    join_u32 tlo thi = total ∧ join_u32 elo ehi = entry ∧
    Forall u16 [Target.Target_value Target.FLASH_APP; count; tlo; thi; elo; ehi; 0; 0; 0].
Proof.
  intros Hc Ht He. destruct (join_split_u32 _ Ht) as (tlo & thi & Et & ? & ? & Jt).
  destruct (join_split_u32 _ He) as (elo & ehi & Ee & ? & ? & Je).
  exists tlo, thi, elo, ehi. unfold begin_payload. rewrite Et, Ee. split_and!; try done.
  rewrite !Forall_cons. by split_and!.
Qed.

Lemma end_payload_ok count total :
  u32 count → u32 total →
  ∃ clo chi tlo thi, end_payload count total = Ok [clo; chi; tlo; thi; 0; 0] ∧
    join_u32 clo chi = count ∧ join_u32 tlo thi = total ∧ Forall u16 [clo; chi; tlo; thi; 0; 0].
Proof.
  intros Hc Ht. destruct (join_split_u32 _ Hc) as (clo & chi & Ec & ? & ? & Jc).
  destruct (join_split_u32 _ Ht) as (tlo & thi & Et & ? & ? & Jt).
  exists clo, chi, tlo, thi. unfold end_payload. rewrite Ec, Et. split_and!; try done.
  rewrite !Forall_cons. by split_and!.
Qed.

(** The packet can be sent and lies where the simulator allows writes. *)
Record packet_fits (info : DeviceInfo) (s : SimulatorCore) (p : DataPacket) : Prop := {
  pf_words : validate_write_data (dp_words p) (Some (di_max_data_words info)) = Ok tt;
  pf_allowed : addresses_allowed s (dp_address p) (zlen (dp_words p)) = true;
  pf_index : u32 (dp_index p);
}.

Lemma data_payload_ok info s p :
  Sim_ok s → info = sim_device_info s → di_max_data_words info + 5 <= di_max_payload_words info →
  packet_fits info s p →
  ∃ alo ahi ilo ihi, data_payload p = Ok ([alo; ahi; zlen (dp_words p); ilo; ihi] ++ dp_words p) ∧
    join_u32 alo ahi = dp_address p ∧ join_u32 ilo ihi = dp_index p ∧
    Forall u16 ([alo; ahi; zlen (dp_words p); ilo; ihi] ++ dp_words p) ∧
    zlen ([alo; ahi; zlen (dp_words p); ilo; ihi] ++ dp_words p) <= di_max_payload_words info.
Proof.
  intros Hok -> Hsize [Hw Ha Hi]. apply validate_write_data_ok in Hw as (Hpos & _ & Hu & Hm & _ & Hle).
  apply addresses_allowed_range in Ha as (_ & Hlo & Hhi & _).
  unfold SLOT_A_APP_START, SLOT_A_APP_END_EXCLUSIVE in *.
  assert (u32 (dp_address p)) as Ha by (unfold u32; lia).
  destruct (join_split_u32 _ Ha) as (alo & ahi & Ea & Halo & Hahi & Ja).
  destruct (join_split_u32 _ Hi) as (ilo & ihi & Ei & Hilo & Hihi & Ji).
  exists alo, ahi, ilo, ihi. unfold data_payload. rewrite Ea, Ei. split_and!; try done.
  - pose proof (di_ok16 _ (so_info s Hok)) as H16. unfold DeviceInfo_fields16 in H16.
    rewrite !Forall_cons in H16. assert (u16 (di_max_data_words (sim_device_info s))) as Hm16 by tauto.
    cbn [app]. rewrite !Forall_cons. split_and!; try done. unfold u16 in *. lia.
  - rewrite zlen_app. change (zlen [alo; ahi; zlen (dp_words p); ilo; ihi]) with 5. lia.
Qed.
