(* ===== verification/Dfu.v ===== *)
(** * DFU installs the image

    Erase, program, verify and the IMAGE_VALID record, run by the workflow on
    a client linked to the simulator: [wp_program_transfer] and
    [wp_verify_transfer] follow the two sessions packet by packet,
    [prepared_fits] shows that the packets of a validated image are packets
    the simulator takes, and [dfu_installs_image] puts them together. *)

From S2P Require Import Prelude.
From S2P Require Import Errors.
From S2P Require Import Constants.
From S2P Require Import Words.
From S2P Require Import Frame.
From S2P Require Import Resync.
From S2P Require Import Models.
From S2P Require Import Firmware.
From S2P Require Import Packets.
From S2P Require Import Simulator.
From S2P Require Import Journal.
From S2P Require Import SimulatorProofs.
From S2P Require Import SimulatorTransact.
From S2P Require Import SimulatorProperties.
From S2P Require Import Client.
From S2P Require Import ClientSimulator.
From S2P Require Import Workflow.

(** ** What an upgrade needs of the device, and what it leaves alone *)

Definition flash_gate (s : SimulatorCore) : Prop :=
  sim_require_service s = true → sim_service_state s = ServiceState.ATTACHED.

Record device_ready (s : SimulatorCore) : Prop := {
  dr_faults : sim_faults s = no_faults;
  dr_sectors : sim_sectors s = default_sectors;
  dr_gate : flash_gate s;
  dr_data : di_max_data_words (sim_device_info s) + 5 <= di_max_payload_words (sim_device_info s);
  dr_payload : 16 <= di_max_payload_words (sim_device_info s);
}.

(** Everything but the Flash and the sessions. *)
Definition same_setting (s s' : SimulatorCore) : Prop :=
  same_config s s' ∧ sim_service_state s' = sim_service_state s ∧ sim_ram s' = sim_ram s ∧
  sim_pending_action s' = sim_pending_action s.

Lemma same_setting_trans s1 s2 s3 : same_setting s1 s2 → same_setting s2 s3 → same_setting s1 s3.
Proof. unfold same_setting, same_config. intros. destruct_and!. split_and!; congruence. Qed.

Lemma device_ready_setting s s' : device_ready s → same_setting s s' → device_ready s'.
Proof.
  intros [] ((H1 & H2 & H3 & H4) & H5 & _). split; unfold flash_gate in *; by rewrite ?H1, ?H2, ?H3, ?H4, ?H5.
Qed.

Lemma device_ready_gate command s : device_ready s → gate_open command s.
Proof. intros Hs Hr _. by apply Hs. Qed.

Lemma allowed_setting s s' address count :
  same_setting s s' → addresses_allowed s' address count = addresses_allowed s address count.
Proof. intros ((H1 & _ & H3 & _) & _). unfold addresses_allowed. by rewrite H1, H3. Qed.

(** ** Sessions *)

Definition packets_total (ps : list DataPacket) : Z := zsum (map (λ p, zlen (dp_words p)) ps).

(** The session waits for exactly the packets [ps]. *)
Record awaits (count total : Z) (ps : list DataPacket) (se : Session) : Prop := {
  aw_count : se_block_count se = count;
  aw_total : se_total_words se = total;
  aw_index : map dp_index ps = zrange (se_expected_index se) (se_expected_index se + zlen ps);
  aw_packets : se_packet_count se + zlen ps = count;
  aw_words : se_received_words se + packets_total ps = total;
}.

Lemma awaits_init ps entry :
  map dp_index ps = zrange 0 (zlen ps) →
  awaits (zlen ps) (packets_total ps) ps (Session_init (zlen ps) (packets_total ps) entry).
Proof. intros H. by split. Qed.

Lemma awaits_step count total p ps se :
  awaits count total (p :: ps) se →
  dp_index p = se_expected_index se ∧ awaits count total ps (session_advance (zlen (dp_words p)) se).
Proof.
  intros [H1 H2 H3 H4 H5]. pose proof (zlen_nonneg ps).
  rewrite zlen_cons in H3, H4. rewrite zrange_cons in H3 by lia. cbn [map] in H3.
  injection H3 as Hp H3. unfold packets_total, zsum in *. cbn in H5. split; [done|].
  split; unfold packets_total, zsum; cbn; try done; [|lia..]. rewrite H3. f_equal; lia.
Qed.

Lemma awaits_done count total se :
  awaits count total [] se → se_packet_count se = count ∧ se_received_words se = total.
Proof. intros [_ _ _ H4 H5]. unfold packets_total, zlen, zsum in *. cbn in *. lia. Qed.

(** Nothing of [ps] is programmed yet. *)
Definition unprogrammed (ps : list DataPacket) (s : SimulatorCore) : Prop :=
  ∀ p a, p ∈ ps → dp_address p <= a < dp_address p + zlen (dp_words p) → a ∉ sim_programmed s.

Section session.
Context (info : DeviceInfo) (s0 : SimulatorCore) (all : list DataPacket) (target : memory).
Context (Hready : device_ready s0).
Context (Hinfo0 : info = sim_device_info s0).
Let count := zlen all.
Let total := packets_total all.

Record programming (ps : list DataPacket) (s : SimulatorCore) : Prop := {
  pg_setting : same_setting s0 s;
  pg_session : ∃ se, sim_program_session s = Some se ∧ awaits count total ps se;
  pg_verify : sim_verify_session s = sim_verify_session s0;
  pg_fits : Forall (packet_fits info s0) ps;
  pg_apart : ForallOrdPairs pieces_apart (map packet_piece ps);
  pg_flash : store_packets ps (sim_flash s) = target;
  pg_unprogrammed : unprogrammed ps s;
}.

Lemma sends_data command p s s' :
  same_setting s0 s → Sim_ok s → packet_fits info s0 p →
  (∀ alo ahi ilo ihi, join_u32 alo ahi = dp_address p → join_u32 ilo ihi = dp_index p →
    accepts command ([alo; ahi; zlen (dp_words p); ilo; ihi] ++ dp_words p) s s') →
  sends info command (data_payload p) s s'.
Proof using Hready Hinfo0.
  intros Hs Hok Hp Ha. pose proof (device_ready_setting _ _ Hready Hs) as Hr.
  assert (info = sim_device_info s) as Hinfo by (subst info; destruct Hs as ((_ & -> & _) & _); done).
  assert (packet_fits info s p) as Hp'.
  { destruct Hp as [H1 H2 H3]. split; [done| |done]. by rewrite (allowed_setting s0 s). }
  assert (di_max_data_words info + 5 <= di_max_payload_words info) as Hsize by (rewrite Hinfo; apply Hr).
  destruct (data_payload_ok info s p Hok Hinfo Hsize Hp') as (alo & ahi & ilo & ihi & E & Ja & Ji & Hu & Hl).
  eexists. split_and!; [exact E|exact Hu|exact Hl| |by apply Ha]. by apply device_ready_gate.
Qed.

Lemma programming_step p ps s :
  Sim_ok s → programming (p :: ps) s →
  ∃ s', sends info Command.PROGRAM_DATA (data_payload p) s s' ∧ programming ps s'.
Proof using Hready Hinfo0.
  intros Hok [Hs (se & Hse & Haw) Hv Hf Hap Hfl Hn].
  apply Forall_cons in Hf as [Hp Hf]. apply awaits_step in Haw as [Hi Haw].
  cbn [map] in Hap. apply ForallOrdPairs_cons_inv in Hap as [Hap1 Hap2].
  exists (programmed s se (dp_address p) (dp_words p)). split.
  - apply sends_data; [done..|]. intros alo ahi ilo ihi Ja Ji request Hreq Hpay. rewrite <-Ja.
    pose proof (device_ready_setting _ _ Hready Hs) as Hr. destruct Hp as [Hw Hal Hu].
    assert (info = sim_device_info s) as -> by (subst info; destruct Hs as ((_ & -> & _) & _); done).
    apply (program_data_accepts request s Hreq se alo ahi ilo ihi); try done;
      rewrite ?(dr_faults _ Hr); try done; try congruence.
    + rewrite Ja, (allowed_setting s0 s); done.
    + rewrite Ja. intros a Ha. apply (Hn p a); [left|exact Ha].
  - split; try done.
    + by eexists.
    + intros q a Hq Ha. cbn. rewrite elem_of_union, elem_of_list_to_set, elem_of_zrange. intros [Hin|Hin].
      * assert (In (packet_piece q) (map packet_piece ps)) as Hq' by by apply in_map, list_elem_of_In.
        pose proof (proj1 (List.Forall_forall _ _) Hap1 _ Hq') as Hpq.
        unfold pieces_apart, piece_end, packet_piece in Hpq. cbn in Hpq. lia.
      * by eapply (Hn q a); [right| |].
Qed.

Record verifying (ps : list DataPacket) (s : SimulatorCore) : Prop := {
  vf_setting : same_setting s0 s;
  vf_session : ∃ se, sim_verify_session s = Some se ∧ awaits count total ps se;
  vf_fits : Forall (packet_fits info s0) ps;
  vf_flash : sim_flash s = sim_flash s0;
  vf_match : ∀ p i, p ∈ ps → 0 <= i < zlen (dp_words p) →
    read_word (sim_flash s0) (dp_address p + i) = at_ (dp_words p) i;
}.

Lemma verifying_step p ps s :
  Sim_ok s → verifying (p :: ps) s →
  ∃ s', sends info Command.VERIFY_DATA (data_payload p) s s' ∧ verifying ps s'.
Proof using Hready Hinfo0.
  intros Hok [Hs (se & Hse & Haw) Hf Hfl Hm].
  apply Forall_cons in Hf as [Hp Hf]. apply awaits_step in Haw as [Hi Haw].
  exists (set_verify_session (Some (session_advance (zlen (dp_words p)) se)) s). split.
  - apply sends_data; [done..|]. intros alo ahi ilo ihi Ja Ji request Hreq Hpay.
    pose proof (device_ready_setting _ _ Hready Hs) as Hr. destruct Hp as [Hw Hal Hu].
    assert (info = sim_device_info s) as -> by (subst info; destruct Hs as ((_ & -> & _) & _); done).
    apply (verify_data_accepts request s Hreq se alo ahi ilo ihi); try done;
      rewrite ?(dr_faults _ Hr); try done; try congruence.
    + rewrite Ja, (allowed_setting s0 s); done.
    + rewrite Ja, Hfl. intros i Hi'. apply (Hm p i); [left|exact Hi'].
  - split; try done; [by eexists|]. intros q i Hq. apply Hm. by right.
Qed.

End session.

(** ** Whole transfers *)

(** The packets of the image, ready to be sent to [s]. *)
Record transferable (info : DeviceInfo) (image : FirmwareImage) (s : SimulatorCore)
    (ps : list DataPacket) : Prop := {
  tf_packets : prepare_packets image (di_max_data_words info) = Ok ps;
  tf_index : map dp_index ps = zrange 0 (zlen ps);
  tf_count : 0 < zlen ps <= 0xFFFF;
  tf_total : 0 < packets_total ps ∧ u32 (packets_total ps);
  tf_apart : ForallOrdPairs pieces_apart (map packet_piece ps);
  tf_fits : Forall (packet_fits info s) ps;
  tf_entry : u32 (fi_entry_point image) ∧ addresses_allowed s (fi_entry_point image) 1 = true;
}.

Lemma packet_fits_setting info s s' p :
  same_setting s s' → packet_fits info s p → packet_fits info s' p.
Proof. intros Hs [H1 H2 H3]. split; [done| |done]. by rewrite (allowed_setting s). Qed.

Lemma transferable_setting info image s s' ps :
  same_setting s s' → transferable info image s ps → transferable info image s' ps.
Proof.
  intros Hs [H1 H2 H3 H4 H5 H6 H7]. split; try done.
  - eapply Forall_impl; [exact H6|]. intros p. by apply packet_fits_setting.
  - by rewrite (allowed_setting s).
Qed.

Section transfer.
Context (iterations : Z → nat) (Hiter : ∀ t, 0 < t → (0 < iterations t)%nat).

Lemma sends_begin info image s s' ps command :
  device_ready s → info = sim_device_info s → transferable info image s ps →
  (∀ tlo thi elo ehi, join_u32 tlo thi = packets_total ps → join_u32 elo ehi = fi_entry_point image →
    accepts command [Target.Target_value Target.FLASH_APP; zlen ps; tlo; thi; elo; ehi; 0; 0; 0] s s') →
  sends info command (begin_payload (zlen ps) (packets_total ps) (fi_entry_point image)) s s'.
Proof using.
  intros Hr -> Ht Ha. destruct (tf_entry _ _ _ _ Ht) as [Hent _].
  pose proof (tf_count _ _ _ _ Ht) as Hcount.
  destruct (begin_payload_ok (zlen ps) (packets_total ps) (fi_entry_point image))
    as (tlo & thi & elo & ehi & E & Jt & Je & Hu); [unfold u16; lia|apply Ht|done|].
  eexists. split_and!; [exact E|exact Hu| |by apply device_ready_gate|by apply Ha].
  pose proof (dr_payload _ Hr). change (zlen _) with 9. lia.
Qed.

Lemma sends_end info image s s' ps command :
  device_ready s → info = sim_device_info s → transferable info image s ps →
  (∀ clo chi tlo thi, join_u32 clo chi = zlen ps → join_u32 tlo thi = packets_total ps →
    accepts command [clo; chi; tlo; thi; 0; 0] s s') →
  sends info command (end_payload (zlen ps) (packets_total ps)) s s'.
Proof using.
  intros Hr -> Ht Ha. pose proof (tf_count _ _ _ _ Ht) as Hcount.
  destruct (end_payload_ok (zlen ps) (packets_total ps))
    as (clo & chi & tlo & thi & E & Jc & Jt & Hu); [unfold u32; lia|apply Ht|].
  eexists. split_and!; [exact E|exact Hu| |by apply device_ready_gate|by apply Ha].
  pose proof (dr_payload _ Hr). change (zlen _) with 6. lia.
Qed.

(** PROGRAM_BEGIN, PROGRAM_DATA for every packet, PROGRAM_END. *)
Lemma wp_program_transfer info image s0 ps w :
  on info s0 w → device_ready s0 → transferable info image s0 ps →
  sim_program_session s0 = None → unprogrammed ps s0 →
  wp (uw_transfer iterations image Command.PROGRAM_BEGIN Command.PROGRAM_DATA Command.PROGRAM_END
        "Program" true)
    (λ _ w', ∃ s', on info s' w' ∧ (same_setting s0 s' ∧
       sim_flash s' = store_packets ps (sim_flash s0) ∧
       sim_verify_session s' = sim_verify_session s0) ∧ same_flags w w') impossible w.
Proof using Hiter.
  intros Hon Hr Ht Hs Hn. destruct (on_ok _ _ _ Hon) as [_ Hinfo].
  pose proof Ht as [Eps Hidx Hcount [Htot Htot32] Hap Hfit [Hent Hal]].
  eapply (wp_transfer iterations Hiter image ps _ _ _ _ _ info
    (programming info s0 ps (store_packets ps (sim_flash s0)))); [done..| | |].
  - intros _. exists (set_program_session (Some (Session_init (zlen ps) (packets_total ps)
      (fi_entry_point image))) s0). split.
    { apply sends_begin; [done..|]. intros tlo thi elo ehi Jt Je request Hreq Hpay. rewrite <-Jt, <-Je.
      apply (program_begin_accepts request s0 Hreq (zlen ps) tlo thi elo ehi 0 0); try done.
      - lia.
      - rewrite Jt. lia.
      - by rewrite Je. }
    split; try done. eexists. split; [done|exact (awaits_init ps _ Hidx)].
  - intros p qs s Hok _. by apply programming_step.
  - intros s Hok [Hset (se & Hse & Haw) Hv _ _ Hfl _].
    exists (set_verify_succeeded false (set_program_session None s)).
    assert (info = sim_device_info s) as Hi by (rewrite Hinfo; destruct Hset as ((_ & -> & _) & _); done).
    split; [|split_and!; [exact Hset|exact Hfl|exact Hv]].
    apply (sends_end info image);
      [by eapply device_ready_setting|done|by eapply transferable_setting|].
    intros clo chi tlo thi Jc Jt request Hreq Hpay. destruct (awaits_done _ _ _ Haw) as [E1 E2].
    destruct Haw as [E3 E4 _ _ _].
    apply (program_end_accepts request s Hreq se clo chi tlo thi 0 0); congruence.
Qed.

(** VERIFY_BEGIN, VERIFY_DATA for every packet, VERIFY_END, when the Flash
    holds the packets. *)
Lemma wp_verify_transfer info image s0 ps w m :
  on info s0 w → device_ready s0 → transferable info image s0 ps →
  sim_verify_session s0 = None → sim_flash s0 = store_packets ps m →
  wp (uw_transfer iterations image Command.VERIFY_BEGIN Command.VERIFY_DATA Command.VERIFY_END
        "Verify" false)
    (λ _ w', ∃ s', on info s' w' ∧ (same_setting s0 s' ∧ sim_flash s' = sim_flash s0 ∧
       sim_verify_succeeded s' = true) ∧ same_flags w w') impossible w.
Proof using Hiter.
  intros Hon Hr Ht Hs Hfl0. destruct (on_ok _ _ _ Hon) as [_ Hinfo].
  pose proof Ht as [Eps Hidx Hcount [Htot Htot32] Hap Hfit [Hent Hal]].
  eapply (wp_transfer iterations Hiter image ps _ _ _ _ _ info (verifying info s0 ps)); [done..| | |].
  - intros _. exists (set_verify_session (Some (Session_init (zlen ps) (packets_total ps)
      (fi_entry_point image))) s0). split.
    { apply sends_begin; [done..|]. intros tlo thi elo ehi Jt Je request Hreq Hpay. rewrite <-Jt, <-Je.
      apply (verify_begin_accepts request s0 Hreq (zlen ps) tlo thi elo ehi 0 0); try done.
      - lia.
      - rewrite Jt. lia.
      - by rewrite Je. }
    split; try done.
    + eexists. split; [done|exact (awaits_init ps _ Hidx)].
    + intros p i Hp Hi. unfold read_word. rewrite Hfl0. unfold store_packets.
      rewrite (write_pieces_inside _ _ (packet_piece p)); [|done| |].
      * change (at_ (dp_words p) (dp_address p + i - dp_address p) = at_ (dp_words p) i). f_equal. lia.
      * by apply list_elem_of_In, in_map, list_elem_of_In.
      * unfold piece_end, packet_piece. cbn [fst snd]. lia.
  - intros p qs s Hok _. by apply verifying_step.
  - intros s Hok [Hset (se & Hse & Haw) _ Hfl _].
    exists (set_verify_succeeded true (set_verify_session None s)).
    assert (info = sim_device_info s) as Hi by (rewrite Hinfo; destruct Hset as ((_ & -> & _) & _); done).
    split; [|split_and!; [exact Hset|exact Hfl|done]].
    apply (sends_end info image);
      [by eapply device_ready_setting|done|by eapply transferable_setting|].
    intros clo chi tlo thi Jc Jt request Hreq Hpay. destruct (awaits_done _ _ _ Haw) as [E1 E2].
    destruct Haw as [E3 E4 _ _ _].
    apply (verify_end_accepts request s Hreq se clo chi tlo thi 0 0); congruence.
Qed.

End transfer.

(** ** The packets of a validated image *)

Lemma image_memory_block image a :
  FirmwareImage_ok image → is_Some (image_memory image !! a) →
  ∃ b, b ∈ fi_blocks image ∧ fb_address b <= a < fb_end_exclusive b.
Proof.
  intros Himg [w Hw]. unfold image_memory in Hw.
  apply write_pieces_lookup in Hw; [|by apply block_pieces_apart, fi_apart].
  destruct Hw as [(p & Hp & Ha & _)|[_ He]]; [|done].
  apply list_elem_of_In, in_map_iff in Hp as (b & <- & Hb). exists b.
  split; [by apply list_elem_of_In|]. exact Ha.
Qed.

(** Every word of a packet lies in the same group of eight as an image word. *)
Lemma prepared_near image max ps p a :
  prepared image max ps → p ∈ ps → dp_address p <= a < dp_address p + zlen (dp_words p) →
  ∃ a', a' / 8 = a / 8 ∧ is_Some (image_memory image !! a').
Proof.
  intros Hps Hp Ha. destruct (image_memory image !! a) as [w|] eqn:E; [by exists a|].
  eapply (pp_padding _ _ _ Hps a); [|exact E]. unfold store_packets.
  apply (write_pieces_inside _ _ (packet_piece p)); [apply Hps| |exact Ha].
  by apply list_elem_of_In, in_map, list_elem_of_In.
Qed.

Lemma prepared_block image max ps p a :
  FirmwareImage_ok image → prepared image max ps → p ∈ ps →
  dp_address p <= a < dp_address p + zlen (dp_words p) →
  ∃ a' b, a' / 8 = a / 8 ∧ b ∈ fi_blocks image ∧ fb_address b <= a' < fb_end_exclusive b.
Proof.
  intros Himg Hps Hp Ha. destruct (prepared_near _ _ _ _ _ Hps Hp Ha) as (a' & H8 & Hs).
  apply image_memory_block in Hs as (b & Hb & Hr); [|done]. by exists a', b.
Qed.

Lemma same_group a a' lo hi :
  a' / 8 = a / 8 → lo mod 8 = 0 → hi mod 8 = 0 → lo <= a' < hi → lo <= a < hi.
Proof. intros. Z.to_euclidean_division_equations. lia. Qed.

Lemma prepared_range image max ps p a :
  FirmwareImage_ok image → validate_app_firmware_image image = Ok tt → prepared image max ps → p ∈ ps →
  dp_address p <= a < dp_address p + zlen (dp_words p) →
  APP_FLASH_START <= a < APP_FLASH_END_EXCLUSIVE.
Proof.
  intros Himg Hv Hps Hp Ha. apply validate_app_ok in Hv as (_ & _ & Hb).
  destruct (prepared_block _ _ _ _ _ Himg Hps Hp Ha) as (a' & b & H8 & Hin & Hr).
  eapply (proj1 (List.Forall_forall _ _)) in Hb; [|by apply list_elem_of_In].
  apply (same_group a a'); [done|done|done|]. lia.
Qed.

(** The sectors of the simulator tile the Flash. *)
Lemma default_contains a :
  0x080000 <= a < 0x0C0000 → existsb (λ sector, fs_contains sector a) default_sectors = true.
Proof.
  intros Ha. unfold default_sectors. cbn [existsb]. unfold fs_contains, fs_end_exclusive.
  cbn [fs_start fs_length_words]. lia.
Qed.

Lemma default_allowed s address count :
  sim_sectors s = default_sectors → sim_faults s = no_faults → 0 < count →
  APP_FLASH_START <= address → address + count <= APP_FLASH_END_EXCLUSIVE →
  addresses_allowed s address count = true.
Proof.
  intros Hs Hf Hc Hlo Hhi. unfold addresses_allowed. rewrite Hs, Hf.
  replace (count <=? 0) with false by lia. cbn [no_faults illegal_address orb].
  unfold APP_FLASH_START, APP_FLASH_END_EXCLUSIVE, SLOT_A_APP_START, SLOT_A_APP_END_EXCLUSIVE,
    SLOT_A_METADATA_END, SLOT_A_METADATA_START in *.
  apply andb_true_intro. split; [lia|]. apply forallb_forall. intros a Ha%in_zrange.
  apply default_contains. lia.
Qed.

Lemma packets_total_bounds ps max :
  Forall (λ p, 0 < zlen (dp_words p) <= max) ps → zlen ps <= packets_total ps <= zlen ps * max.
Proof.
  induction 1 as [|p ps Hp _ IH]; [done|]. unfold packets_total, zsum in *. cbn [map foldr].
  rewrite zlen_cons. lia.
Qed.

Lemma prepared_transferable info image s ps :
  Sim_ok s → info = sim_device_info s → sim_sectors s = default_sectors → sim_faults s = no_faults →
  FirmwareImage_ok image → validate_app_firmware_image image = Ok tt →
  prepare_packets image (di_max_data_words info) = Ok ps →
  prepared image (di_max_data_words info) ps → transferable info image s ps.
Proof.
  intros Hok -> Hs Hf Himg Hv Eps Hps. pose proof (so_packet s Hok) as [Hmax Hm8].
  pose proof (di_ok16 _ (so_info s Hok)) as H16. unfold DeviceInfo_fields16 in H16.
  rewrite !Forall_cons in H16. assert (u16 (di_max_data_words (sim_device_info s))) as Hm16 by tauto.
  clear H16. pose proof Hps as [Hidx Hcount Hwords Hap _ _].
  assert (Forall (λ p, 0 < zlen (dp_words p) <= di_max_data_words (sim_device_info s)) ps) as Hlen
    by (eapply Forall_impl; [exact Hwords|]; by intros p []).
  pose proof (packets_total_bounds _ _ Hlen) as Htot. unfold u16 in Hm16.
  pose proof Hv as (Hent & _ & _)%validate_app_ok. split; try done.
  - split; [lia|]. unfold u32. nia.
  - apply List.Forall_forall. intros p Hin. rewrite List.Forall_forall in Hwords.
    destruct (Hwords p Hin) as (Hl & H8 & Ha8 & Hu). apply list_elem_of_In in Hin. split.
    + apply validate_write_data_ok. split_and!; done || lia.
    + pose proof (prepared_range _ _ _ _ (dp_address p) Himg Hv Hps Hin ltac:(lia)).
      pose proof (prepared_range _ _ _ _ (dp_address p + zlen (dp_words p) - 1) Himg Hv Hps Hin ltac:(lia)).
      apply default_allowed; try done; lia.
    + assert (In (dp_index p) (zrange 0 (zlen ps))) as Hi%in_zrange.
      { rewrite <-Hidx. by apply in_map, list_elem_of_In. }
      unfold u32. lia.
  - split; [apply Himg|]. apply default_allowed; try done; lia.
Qed.

(** ** Erasing *)

(** Whether the sector of [a] is in the mask. *)
Definition mask_erases (mask a : Z) : bool :=
  existsb (λ '(start, stop, bit), (start <=? a) && (a <? stop) && Z.testbit mask bit) SECTORS.

Lemma land_shiftl_testbit mask k : 0 <= k → negb (Z.land mask (Z.shiftl 1 k) =? 0) = Z.testbit mask k.
Proof.
  intros Hk. destruct (Z.testbit mask k) eqn:E.
  - apply negb_true_iff, Z.eqb_neq. intros H. apply (f_equal (λ z, Z.testbit z k)) in H.
    rewrite Z.land_spec, shiftl_1_testbit, Z.bits_0, E, Z.eqb_refl in H by done. done.
  - apply negb_false_iff, Z.eqb_eq, Z.bits_inj'. intros n _.
    rewrite Z.land_spec, shiftl_1_testbit, Z.bits_0 by done.
    destruct (Z.eqb_spec k n) as [<-|]; [by rewrite E|by rewrite andb_false_r].
Qed.

Lemma existsb_map_filter {A B} (f : B → bool) (g : A → bool) (h : A → B) l :
  existsb f (map h (List.filter g l)) = existsb (λ x, g x && f (h x)) l.
Proof. induction l as [|x l IH]; cbn; [done|]. destruct (g x); cbn; by rewrite IH. Qed.

Lemma selected_default s mask a :
  sim_sectors s = default_sectors → in_sectors (selected_sectors s mask) a = mask_erases mask a.
Proof.
  intros Hs. unfold in_sectors, selected_sectors, mask_erases. rewrite Hs, existsb_map_filter.
  change (zip (zrange 0 (zlen default_sectors)) default_sectors)
    with (zip [0; 1; 2; 3; 4; 5; 6; 7; 8; 9; 10; 11; 12; 13] default_sectors).
  unfold default_sectors, SECTORS. cbn [zip zip_with existsb snd].
  unfold fs_contains, fs_end_exclusive. cbn [fs_start fs_length_words].
  rewrite !land_shiftl_testbit by done. by rewrite !(andb_comm (Z.testbit mask _)).
Qed.

Lemma mask_erases_spec mask a :
  mask_erases mask a = true ↔ ∃ s e bit, (s, e, bit) ∈ SECTORS ∧ s <= a < e ∧ Z.testbit mask bit = true.
Proof.
  unfold mask_erases. rewrite existsb_exists. split.
  - intros ([[s e] bit] & Hin & [H Hb]%andb_true_iff). exists s, e, bit.
    split; [by apply list_elem_of_In|]. split; [lia|done].
  - intros (s & e & bit & Hin & Hr & Hb). exists (s, e, bit). split; [by apply list_elem_of_In|].
    rewrite Hb, andb_true_r. lia.
Qed.

Lemma sectors_aligned s e bit : (s, e, bit) ∈ SECTORS → s mod 8 = 0 ∧ e mod 8 = 0.
Proof.
  intros H. assert (Forall (λ '(s, e, bit), s mod 8 = 0 ∧ e mod 8 = 0) SECTORS) as Hall.
  { unfold SECTORS. repeat (constructor; [done|]). constructor. }
  eapply (proj1 (List.Forall_forall _ _)) in Hall; [|by apply list_elem_of_In]. done.
Qed.

Lemma mask_erases_group mask a a' : a' / 8 = a / 8 → mask_erases mask a' = true → mask_erases mask a = true.
Proof.
  intros H8. rewrite !mask_erases_spec. intros (s & e & bit & Hin & Hr & Hb).
  exists s, e, bit. split; [done|]. split; [|done].
  destruct (sectors_aligned _ _ _ Hin). by apply (same_group a a').
Qed.

(** A mask that passes the manual check fits the ERASE command. *)
Lemma manual_mask_fits mask :
  validate_manual_erase_mask mask = Ok tt →
  0 < mask <= 0xFFFF ∧ Z.land mask (Z.lnot (Z.shiftl 1 14 - 1)) = 0.
Proof.
  intros (Hne & _ & Hb)%validate_manual_ok. split.
  - assert (mask = Z.land mask ALLOWED_ERASE_MASK) as E.
    { apply Z.bits_inj'. intros k Hk. rewrite Z.land_spec. specialize (Hb k Hk).
      destruct (Z.testbit mask k); [by rewrite Hb|done]. }
    pose proof (land_bound_r mask ALLOWED_ERASE_MASK 14 ltac:(lia) ltac:(unfold ALLOWED_ERASE_MASK; lia)).
    lia.
  - apply land_lnot_0. intros k Hk Hm. specialize (Hb k Hk Hm). revert Hb.
    by apply (proj1 (land_lnot_0 ALLOWED_ERASE_MASK (Z.shiftl 1 14 - 1))).
Qed.

Section dfu.
Context (iterations : Z → nat) (Hiter : ∀ t, 0 < t → (0 < iterations t)%nat).

Lemma wp_uw_erase info s w mask :
  on info s w → device_ready s → validate_manual_erase_mask mask = Ok tt →
  wp (uw_erase iterations mask) (λ _ w', on info (erased s mask) w') impossible w.
Proof using Hiter.
  intros Hon Hr Hv. destruct (manual_mask_fits mask Hv) as [Hm Hfit]. unfold uw_erase.
  replace (mask <=? 0) with false by lia. replace (mask >? 0xFFFFFFFF) with false by lia.
  cbn [orb]. do 2 apply wp_bind, wp_modify.
  destruct (join_split_u32 mask) as (lo & hi & E & Hlo & Hhi & J); [unfold u32; lia|].
  apply wp_bind, wp_lift; rewrite E; [|done]. intros ? [= <-]. apply wp_bind.
  destruct (on_ok _ _ _ Hon) as [Hok Hinfo].
  eapply wp_conseq; [eapply (wp_transact_ok iterations Hiter _ _ _ info s (erased s mask))| |].
  - by destruct Hon.
  - cbn [fst snd]. rewrite !Forall_cons. by split_and!.
  - rewrite Hinfo. pose proof (dr_payload _ Hr). change (zlen _) with 3. lia.
  - by apply device_ready_gate.
  - intros request Hreq Hpay. rewrite <-J. apply (erase_accepts request s Hreq lo hi); try done.
    + rewrite J. lia.
    + rewrite J, (dr_sectors _ Hr). exact Hfit.
    + by rewrite (dr_faults _ Hr).
  - intros reply w' [Hon' _]. by apply wp_ret.
  - done.
Qed.

Lemma wp_uw_program info image s ps w :
  on info s w → device_ready s → transferable info image s ps →
  validate_app_firmware_image image = Ok tt →
  sim_program_session s = None → unprogrammed ps s →
  wp (uw_program iterations image)
    (λ _ w', ∃ s', on info s' w' ∧ same_setting s s' ∧
       sim_flash s' = store_packets ps (sim_flash s) ∧
       sim_verify_session s' = sim_verify_session s) impossible w.
Proof using Hiter.
  intros Hon Hr Ht Hv Hs Hn. unfold uw_program. apply wp_bind, wp_lift; rewrite Hv; [|done].
  intros _ _. do 2 apply wp_bind, wp_modify.
  eapply wp_conseq; [eapply (wp_program_transfer iterations Hiter info image s ps); try done; by destruct Hon| |done].
  intros _ w' (s' & Hon' & (H1 & H2 & H3) & _). by exists s'.
Qed.

Lemma wp_uw_verify info image s ps w m :
  on info s w → device_ready s → transferable info image s ps →
  validate_app_firmware_image image = Ok tt →
  sim_verify_session s = None → sim_flash s = store_packets ps m →
  wp (uw_verify iterations image)
    (λ _ w', ∃ s', on info s' w' ∧ same_setting s s' ∧ sim_flash s' = sim_flash s ∧
       sim_verify_succeeded s' = true ∧ uw_verify_succeeded w' = true ∧ uw_state w' = READY) impossible w.
Proof using Hiter.
  intros Hon Hr Ht Hv Hs Hfl. unfold uw_verify. apply wp_bind, wp_lift; rewrite Hv; [|done].
  intros _ _. apply wp_bind, wp_modify, wp_bind.
  eapply wp_conseq; [eapply (wp_verify_transfer iterations Hiter info image s ps _ m); try done; by destruct Hon| |done].
  intros _ w' (s' & Hon' & (H1 & H2 & H3) & _). apply wp_bind, wp_modify, wp_modify. exists s'.
  split_and!; try done. by destruct Hon'.
Qed.

Lemma wp_append_image_valid info s w rs entry size crc stop :
  on info s w → device_ready s → flash_journal (sim_flash s) rs → zlen rs < METADATA_RECORD_COUNT →
  APP_FLASH_START <= entry < APP_FLASH_END_EXCLUSIVE → entry mod 8 = 0 →
  0 < size → u32 size → u32 crc → APP_FLASH_START < stop <= APP_FLASH_END_EXCLUSIVE →
  sim_verify_succeeded s = true →
  wp (cl (pc_metadata_append_image_valid iterations entry size crc stop
            (Some (COMMAND_TIMEOUT_MS Command.METADATA_APPEND_RECORD))))
    (λ _ w', ∃ r s', on info s' w' ∧ same_flags w w' ∧ same_setting s s' ∧
       flash_journal (sim_flash s') (rs ++ [r]) ∧
       journal_state (rs ++ [r]) = mkJournalState (Some r) 0 false ∧
       rec32 r 14 = entry ∧ rec32 r 16 = size ∧ rec32 r 18 = crc ∧
       (∀ a, ¬ (SLOT_A_METADATA_START <= a < SLOT_A_METADATA_END) →
          sim_flash s' !! a = sim_flash s !! a)) impossible w.
Proof using Hiter.
  intros Hon Hr Hrs Hl Hent H8 Hsize Hs32 Hc32 Hstop Hv. destruct (on_ok _ _ _ Hon) as [Hok Hinfo].
  destruct (join_split_u32 entry) as (elo & ehi & Ee & ? & ? & Je).
  { unfold u32, APP_FLASH_START, APP_FLASH_END_EXCLUSIVE, SLOT_A_APP_START, SLOT_A_APP_END_EXCLUSIVE in *. lia. }
  destruct (join_split_u32 size Hs32) as (slo & shi & Es & ? & ? & Js).
  destruct (join_split_u32 crc Hc32) as (clo & chi & Ec & ? & ? & Jc).
  destruct (join_split_u32 stop) as (dlo & dhi & Ed & ? & ? & Jd).
  { unfold u32, APP_FLASH_START, APP_FLASH_END_EXCLUSIVE, SLOT_A_APP_START, SLOT_A_APP_END_EXCLUSIVE in *. lia. }
  set (payload := [MetadataRecordType.MetadataRecordType_value MetadataRecordType.IMAGE_VALID;
    BootSlot.BootSlot_value BootSlot.SLOT_A; elo; ehi; slo; shi; clo; chi; 0; 0; 0; 0; 0; dlo; dhi; 0]).
  assert (image_valid_payload entry size crc stop 0 0 0 0 = Ok payload) as Ep.
  { unfold image_valid_payload. by rewrite Ee, Es, Ec, Ed, split_u32_ok by done. }
  assert (Forall u16 payload) as Hu by (unfold payload; rewrite !Forall_cons; by split_and!).
  destruct (image_valid_accepts payload s rs elo ehi slo shi clo chi dlo dhi)
    as (r & Hgives & Hj & Hst & H14 & H16 & H18 & Hout); try done.
  { rewrite Js. lia. } { by rewrite Je. } { by rewrite Je. } { by rewrite Jd. }
  apply wp_cl. unfold pc_metadata_append_image_valid. apply wp_bind, wp_lift; rewrite Ep; [|done].
  intros ? [= <-]. apply wp_bind. eapply wp_conseq; [eapply (wp_client_ok iterations Hiter
    Command.METADATA_APPEND_RECORD payload _ info s _ [] w Hon); try done| |done].
  - rewrite Hinfo. pose proof (dr_payload _ Hr). change (zlen payload) with 16. lia.
  - rewrite Hinfo. pose proof (dr_payload _ Hr). change (zlen []) with 0. lia.
  - by apply device_ready_gate.
  - intros ws c [_ Hon']. apply wp_ret. eexists r, _. split_and!; try done; congruence.
Qed.

Lemma zmax_list_in l : l <> [] → In (zmax_list l) l.
Proof using.
  destruct l as [|x l]; [done|]. intros _. cbn [zmax_list]. revert x.
  induction l as [|y l IH]; intros x; [by left|]. cbn [foldl].
  destruct (IH (Z.max x y)) as [<-|Hin]; [|by right; right].
  destruct (Z.max_spec x y) as [[_ ->]|[_ ->]]; [right; by left|by left].
Qed.

Lemma size_and_end_ok info image s ps :
  FirmwareImage_ok image → validate_app_firmware_image image = Ok tt →
  prepared image (di_max_data_words info) ps → transferable info image s ps →
  ∃ stop, programmed_image_size_and_end image (di_max_data_words info) = Ok (packets_total ps, stop) ∧
    APP_FLASH_START < stop <= APP_FLASH_END_EXCLUSIVE.
Proof using.
  intros Himg Hv Hps Ht. unfold programmed_image_size_and_end. rewrite (tf_packets _ _ _ _ Ht).
  pose proof (tf_count _ _ _ _ Ht). replace (zlen ps =? 0) with false by lia.
  eexists. split; [done|].
  set (ends := map (λ p, dp_address p + zlen (dp_words p)) ps).
  assert (In (zmax_list ends) ends) as (p & <- & Hp)%in_map_iff.
  { apply zmax_list_in. unfold ends. destruct ps; [|done]. unfold zlen in *; cbn in *; lia. }
  pose proof (proj1 (List.Forall_forall _ _) (pp_words _ _ _ Hps) p Hp) as [Hl _].
  apply list_elem_of_In in Hp.
  pose proof (prepared_range _ _ _ _ (dp_address p + zlen (dp_words p) - 1) Himg Hv Hps Hp ltac:(lia)).
  lia.
Qed.

(** ** The contents of the Flash *)

Lemma store_over ps m a w :
  ForallOrdPairs pieces_apart (map packet_piece ps) →
  store_packets ps ∅ !! a = Some w → store_packets ps m !! a = Some w.
Proof using.
  intros Hap. unfold store_packets. rewrite !write_pieces_lookup by done.
  intros [?|[_ H]]; [by left|done].
Qed.

Lemma store_untouched ps m a :
  store_packets ps ∅ !! a = None → ForallOrdPairs pieces_apart (map packet_piece ps) →
  store_packets ps m !! a = m !! a.
Proof using.
  intros Hn Hap. apply write_pieces_outside. apply List.Forall_forall. intros p Hp Ha.
  apply list_elem_of_In in Hp. unfold store_packets in Hn.
  by rewrite (write_pieces_inside _ _ p) in Hn.
Qed.

(** What a finished upgrade has done to the device: the Flash outside the
    metadata area holds the image, erased words in the rest of the erased sectors and the
    old words everywhere else, and the metadata area the one IMAGE_VALID record. *)
Record installed (mask : Z) (image : FirmwareImage) (ps : list DataPacket) (s s' : SimulatorCore)
    : Prop := {
  in_setting : same_setting s s';
  in_words : ∀ a, ¬ (SLOT_A_METADATA_START <= a < SLOT_A_METADATA_END) →
    read_word (sim_flash s') a =
      match image_memory image !! a with
      | Some word => word
      | None => if mask_erases mask a then 0xFFFF else read_word (sim_flash s) a
      end;
  in_record : ∃ r, flash_journal (sim_flash s') [r] ∧
    journal_state [r] = mkJournalState (Some r) 0 false ∧
    rec32 r 14 = fi_entry_point image ∧ rec32 r 16 = packets_total ps ∧
    crc32_words (packet_words ps) = Ok (rec32 r 18);
}.

Lemma erased_flash s mask a :
  sim_sectors s = default_sectors →
  sim_flash (erased s mask) !! a = if mask_erases mask a then None else sim_flash s !! a.
Proof using. intros Hs. cbn. by rewrite outside_lookup, selected_default. Qed.

Lemma erased_unprogrammed s mask ps :
  sim_sectors s = default_sectors →
  (∀ p a, p ∈ ps → dp_address p <= a < dp_address p + zlen (dp_words p) → mask_erases mask a = true) →
  unprogrammed ps (erased s mask).
Proof using.
  intros Hs Hc p a Hp Ha Hin. cbn in Hin. apply elem_of_filter in Hin as [Hn _].
  rewrite selected_default in Hn by done. by rewrite (Hc p a) in Hn.
Qed.

Lemma prepared_covered image requested m max ps p a :
  FirmwareImage_ok image → resolve_dfu_erase_masks image requested = Ok m → prepared image max ps →
  p ∈ ps → dp_address p <= a < dp_address p + zlen (dp_words p) →
  mask_erases (dm_effective_mask m) a = true.
Proof using.
  intros Himg Hm Hps Hp Ha. destruct (resolve_dfu_ok _ _ _ Hm) as (Hv & mask & -> & Hl & _). cbn.
  destruct (prepared_block _ _ _ _ _ Himg Hps Hp Ha) as (a' & b & H8 & Hin & Hr).
  eapply mask_erases_group; [exact H8|]. apply mask_erases_spec.
  by apply (effective_covers image mask b).
Qed.

Lemma installed_words mask image max ps s a :
  sim_sectors s = default_sectors → prepared image max ps →
  (∀ p a, p ∈ ps → dp_address p <= a < dp_address p + zlen (dp_words p) → mask_erases mask a = true) →
  read_word (store_packets ps (sim_flash (erased s mask))) a =
    match image_memory image !! a with
    | Some word => word
    | None => if mask_erases mask a then 0xFFFF else read_word (sim_flash s) a
    end.
Proof using.
  intros Hs Hps Hc. pose proof (pp_apart _ _ _ Hps) as Hap. unfold read_word.
  destruct (image_memory image !! a) as [w|] eqn:E.
  { by rewrite (store_over ps _ a w Hap (pp_image _ _ _ Hps a w E)). }
  destruct (store_packets ps ∅ !! a) as [w|] eqn:Es.
  - rewrite (store_over ps _ a w Hap Es). destruct (pp_padding _ _ _ Hps a w Es E) as [-> _].
    apply write_pieces_lookup in Es as [(p & Hp & Ha & _)|[_ He]]; [|done|done].
    apply list_elem_of_In, in_map_iff in Hp as (q & <- & Hq). apply list_elem_of_In in Hq.
    by rewrite (Hc q a Hq Ha).
  - rewrite store_untouched by done. rewrite erased_flash by done. by destruct (mask_erases mask a).
Qed.

Lemma effective_erases_metadata image requested m a :
  resolve_dfu_erase_masks image requested = Ok m → SLOT_A_METADATA_START <= a < SLOT_A_METADATA_END →
  mask_erases (dm_effective_mask m) a = true.
Proof using.
  intros Hm Ha. destruct (resolve_dfu_ok _ _ _ Hm) as (_ & mask & -> & _ & _). cbn.
  apply mask_erases_spec. exists 0x082000, 0x084000, 1. split; [right; left|].
  unfold SLOT_A_METADATA_START, SLOT_A_METADATA_END in *. split; [lia|].
  rewrite Z.lor_spec, metadata_sector_testbit. apply orb_true_r.
Qed.

Lemma stored_journal_empty image requested m max ps s :
  sim_sectors s = default_sectors → FirmwareImage_ok image →
  validate_app_firmware_image image = Ok tt →
  resolve_dfu_erase_masks image requested = Ok m → prepared image max ps →
  flash_journal (store_packets ps (sim_flash (erased s (dm_effective_mask m)))) [].
Proof using.
  intros Hs Himg Hv Hm Hps. apply flash_journal_erased. intros c Ha. unfold store_packets.
  rewrite write_pieces_outside.
  - rewrite erased_flash by done. by rewrite (effective_erases_metadata image requested m).
  - apply List.Forall_forall. intros p (q & <- & Hq)%in_map_iff Hpa. apply list_elem_of_In in Hq.
    pose proof (prepared_range _ _ _ _ c Himg Hv Hps Hq Hpa).
    unfold APP_FLASH_START, SLOT_A_APP_START, SLOT_A_METADATA_END in *. lia.
Qed.

(** C1: An upgrade installs the image.  On a client connected to a simulator
    with the default sectors, no injected faults and an open service gate,
    [uw_dfu] with an effective erase mask of [resolve_dfu_erase_masks] returns
    without error: afterwards the Flash outside the metadata area holds the
    image at its addresses, 0xFFFF in the rest of the erased sectors and the
    old words everywhere else (so the bootloader is untouched), the metadata
    area holds exactly one IMAGE_VALID record with the entry point, size and
    CRC-32 of what was programmed, and the workflow is verified and ready. *)
Theorem dfu_installs_image image requested m ps info s w :
  on info s w → device_ready s →
  FirmwareImage_ok image → Forall block_ok (fi_blocks image) → Forall aligned (fi_blocks image) →
  resolve_dfu_erase_masks image requested = Ok m →
  prepare_packets image (di_max_data_words info) = Ok ps →
  wp (uw_dfu iterations (dm_effective_mask m) image)
    (λ _ w', ∃ s', on info s' w' ∧ installed (dm_effective_mask m) image ps s s' ∧
       uw_verify_succeeded w' = true ∧ uw_state w' = READY) impossible w.
Proof using Hiter.
  intros Hon Hr Himg Hblocks Hal Hm Eps. destruct (on_ok _ _ _ Hon) as [Hok Hinfo].
  destruct (resolve_dfu_ok _ _ _ Hm) as (Hv & mask & Em & _ & Hman).
  assert (validate_manual_erase_mask (dm_effective_mask m) = Ok tt) as Hman' by by rewrite Em.
  pose proof (so_packet s Hok) as [Hmax Hm8]. rewrite <-Hinfo in Hmax, Hm8.
  pose proof (prepare_packets_spec image _ Himg Hblocks Hal Hmax Hm8) as Hps. rewrite Eps in Hps.
  pose proof (prepared_transferable info image s ps Hok Hinfo (dr_sectors _ Hr) (dr_faults _ Hr)
    Himg Hv Eps Hps) as Ht.
  pose proof (λ p a, prepared_covered image requested m _ ps p a Himg Hm Hps) as Hcov.
  set (eff := dm_effective_mask m) in *. set (s1 := erased s eff).
  assert (same_setting s s1) as Hs1 by done.
  unfold uw_dfu. apply wp_bind, wp_lift; rewrite Hv; [|done]. intros _ _.
  apply wp_bind. eapply wp_conseq; [by apply (wp_uw_erase info s w eff)| |done].
  intros ? w1 Hon1. apply wp_bind. eapply wp_conseq;
    [eapply (wp_uw_program info image s1 ps w1 Hon1); try done| |done].
  { by eapply device_ready_setting. } { by eapply transferable_setting. }
  { apply erased_unprogrammed; [apply Hr|exact Hcov]. }
  intros ? w2 (s2 & Hon2 & Hs2 & Hf2 & Hv2). pose proof (same_setting_trans _ _ _ Hs1 Hs2) as Hs02.
  apply wp_bind. eapply wp_conseq;
    [eapply (wp_uw_verify info image s2 ps w2 (sim_flash s1) Hon2); try done| |done].
  { by eapply device_ready_setting. } { by eapply transferable_setting. }
  intros ? w3 (s3 & Hon3 & Hs3 & Hf3 & Hv3 & Hok3 & Hst3).
  pose proof (same_setting_trans _ _ _ Hs02 Hs3) as Hs03.
  unfold require_info. apply wp_bind, wp_bind, wp_get. rewrite (on_info _ _ _ Hon3). apply wp_ret.
  destruct (size_and_end_ok info image s ps Himg Hv Hps Ht) as (stop & Estop & Hstop).
  apply wp_bind, wp_lift; rewrite Estop; [|done]. intros ? [= <-]. cbn [fst snd].
  destruct (crc32_words_u32 (packet_words ps)) as (crc & Ecrc & Hcrc).
  { unfold packet_words. apply Forall_concat, List.Forall_map. eapply Forall_impl; [apply Hps|].
    by intros p (_ & _ & _ & Hu). }
  pose proof Hv as (Hent & H8 & _)%validate_app_ok. destruct (tf_total _ _ _ _ Ht) as [Htot Htot32].
  apply wp_bind, wp_catch, wp_bind, wp_lift; unfold calculate_programmed_image_crc32; rewrite Eps, Ecrc; [|done].
  intros ? [= <-]. eapply wp_conseq; [eapply (wp_append_image_valid info s3 w3 []); try done| |done].
  { by eapply device_ready_setting. }
  { rewrite Hf3, Hf2. by eapply stored_journal_empty; try apply Hr. }
  intros ? w4 (r & s4 & Hon4 & (Hfl1 & Hfl2 & Hfl3 & Hfl4) & Hs4 & Hj & Hst & H14 & H16 & H18 & Hout).
  apply wp_modify. exists s4. split_and!; [by destruct Hon4| |cbn; congruence|cbn; congruence].
  split.
  - by eapply same_setting_trans.
  - intros c Ha. rewrite <-(installed_words eff image _ ps s c (dr_sectors _ Hr) Hps Hcov).
    unfold read_word. by rewrite Hout, Hf3, Hf2 by done.
  - exists r. cbn [app] in *. split_and!; try done; congruence.
Qed.

End dfu.

(** A workflow connected to the example simulator. *)
Definition example_workflow : SimWorkflow :=
  UpgradeWorkflow_init
    (mkClient (mkSimDevice example_simulator true (mkReader 256 [] []) [] None) 1000 0 true 0
       (Some (sim_device_info example_simulator))) [].

Lemma example_on : on (sim_device_info example_simulator) example_simulator example_workflow.
Proof.
  split; [|reflexivity..]. split; [|by exists []|reflexivity|reflexivity|simpl; lia|by right|simpl; lia].
  split; try reflexivity. apply example_simulator_ok.
Qed.

Lemma example_ready : device_ready example_simulator.
Proof. split; try reflexivity; vm_compute; discriminate. Qed.

Lemma dfu_installs_image_witness :
  let m := mkDfuMasks 0x12 0x12 0x12 0x2 0x10 in
  let ps := match prepare_packets image_example 248 with Ok ps => ps | Raise _ => [] end in
  zlen ps = 2 ∧
  wp (uw_dfu Z.to_nat 0x12 image_example)
    (λ _ w', ∃ s', on (sim_device_info example_simulator) s' w' ∧
       installed 0x12 image_example ps example_simulator s' ∧
       uw_verify_succeeded w' = true ∧ uw_state w' = READY) impossible example_workflow.
Proof.
  split; [vm_compute; reflexivity|].
  apply (dfu_installs_image Z.to_nat ltac:(lia) image_example None
    (mkDfuMasks 0x12 0x12 0x12 0x2 0x10) _ (sim_device_info example_simulator) example_simulator).
  - apply example_on.
  - apply example_ready.
  - apply image_example_ok.
  - apply image_example_ok.
  - repeat constructor.
  - vm_compute; reflexivity.
  - vm_compute; reflexivity.
Defined.
