(* ===== verification/WorkflowProperties.v ===== *)
(** The workflow on every device, then connecting to the simulator and starting
    the application. *)

(** * The workflow on any device

    What the flags of [UpgradeWorkflow] mean, whatever the device does:
    [steps_in R m] says that every run of [m], successful or not, moves the
    state along [R], and [flags_step] is the relation all transactions
    respect. *)

From Stdlib Require Import RelationClasses.
From S2P Require Import Prelude.
From S2P Require Import Errors.
From S2P Require Import Constants.
From S2P Require Import Words.
From S2P Require Import Frame.
From S2P Require Import Resync.
From S2P Require Import Models.
From S2P Require Import Firmware.
From S2P Require Import Packets.
From S2P Require Import Simulator.
From S2P Require Import Journal.
From S2P Require Import SimulatorProofs.
From S2P Require Import SimulatorTransact.
From S2P Require Import SimulatorProperties.
From S2P Require Import Client.
From S2P Require Import ClientSimulator.
From S2P Require Import Workflow.
From S2P Require Import Dfu.

(** ** Runs that follow a relation *)

Section steps.
Context {S : Type} (R : S → S → Prop) `{!PreOrder R}.

Definition steps_in {A} (m : ST S A) : Prop := ∀ s, R s (m s).2.

Lemma steps_ret {A} (a : A) : steps_in (ret a).
Proof. intros s. reflexivity. Qed.
Lemma steps_raise {A} e : steps_in (raise e : ST S A).
Proof. intros s. reflexivity. Qed.
Lemma steps_lift {A} (r : Res A) : steps_in (lift r).
Proof. intros s. unfold lift. destruct r; reflexivity. Qed.
Lemma steps_gets {A} (f : S → A) : steps_in (gets f).
Proof. intros s. reflexivity. Qed.
Lemma steps_get : steps_in get.
Proof. intros s. reflexivity. Qed.
Lemma steps_modify f : (∀ s, R s (f s)) → steps_in (modify f).
Proof. intros H s. apply H. Qed.
Lemma steps_bind {A B} (m : ST S A) (k : A → ST S B) :
  steps_in m → (∀ a, steps_in (k a)) → steps_in (bind m k).
Proof.
  intros Hm Hk s. unfold bind. specialize (Hm s). destruct (m s) as [[a|e] s']; [|done].
  etransitivity; [exact Hm|apply Hk].
Qed.
Lemma steps_catch {A} (m : ST S A) h : steps_in m → (∀ e, steps_in (h e)) → steps_in (catch m h).
Proof.
  intros Hm Hh s. unfold catch. specialize (Hm s). destruct (m s) as [[a|e] s']; [done|].
  etransitivity; [exact Hm|apply Hh].
Qed.

Lemma wp_catch_steps {A} (m : ST S A) h s Q E :
  steps_in m → (∀ a s', R s s' → Q a s') → (∀ e s', R s s' → wp (h e) Q E s') → wp (catch m h) Q E s.
Proof using.
  intros Hm HQ HE. unfold wp, catch. specialize (Hm s). destruct (m s) as [[a|e] s']; [by apply HQ|].
  by apply HE.
Qed.

Lemma wp_steps {A} (m : ST S A) s : steps_in m → wp m (λ _ s', R s s') (λ _ s', R s s') s.
Proof. intros H. specialize (H s). unfold wp. by destruct (m s) as [[a|e] s']. Qed.
End steps.

(** One structural step of a [steps_in] goal, chosen by its head. *)
Ltac step :=
  lazymatch goal with
  | |- steps_in _ (ret _) => apply steps_ret; exact _
  | |- steps_in _ (raise _) => apply steps_raise; exact _
  | |- steps_in _ (lift _) => apply steps_lift; exact _
  | |- steps_in _ (gets _) => apply steps_gets; exact _
  | |- steps_in _ get => apply steps_get; exact _
  | |- steps_in _ (bind _ _) => apply (steps_bind _); [|intros ?]
  | |- steps_in _ (catch _ _) => apply (steps_catch _); [|intros ?]
  | |- steps_in _ (modify _) => apply steps_modify; intros ?
  | |- steps_in _ (if ?b then _ else _) => destruct b
  | |- steps_in _ (match ?x with _ => _ end) => destruct x
  end.
Ltac steps := repeat step.

Section any_device.
Context {D : Type} `{PcIoDevice D}.
Context (iterations : Z → nat).
Implicit Types (c : ProtocolClient D) (w : UpgradeWorkflow D).

(** ** The client keeps what it knows of the device *)

Definition same_info c c' : Prop := pc_device_info c' = pc_device_info c.

#[local] Instance same_info_preorder : PreOrder same_info.
Proof. split; unfold same_info; [done|]. intros c1 c2 c3 E1 E2. by rewrite E2. Qed.

Lemma info_dev {A} (m : ST D A) : steps_in same_info (dev m).
Proof. intros c. unfold dev. by destruct (m (pc_device c)). Qed.

Lemma info_attempt {A} (m : ST (ProtocolClient D) A) :
  steps_in same_info m → steps_in same_info (attempt m).
Proof. intros Hm c. unfold attempt. specialize (Hm c). by destruct (m c). Qed.

Lemma info_read_loop n max buffer raw : steps_in same_info (read_loop n max buffer raw).
Proof.
  revert buffer raw. induction n as [|n IH]; intros buffer raw; cbn [read_loop]; steps.
  all: first [apply info_attempt, info_dev | apply IH].
Qed.

Lemma info_transact command payload timeout :
  steps_in same_info (pc_transact iterations command payload timeout).
Proof.
  unfold pc_transact, read_response_frame. steps; try done; try apply info_dev. apply info_read_loop.
Qed.

(** ** The flags of the workflow *)

(** A verification is not gained and a modification not forgotten. *)
Definition flags_step w w' : Prop :=
  same_info (uw_client w) (uw_client w') ∧
  (uw_verify_succeeded w' = true → uw_verify_succeeded w = true) ∧
  (uw_flash_modified w = true → uw_flash_modified w' = true).

#[local] Instance flags_step_preorder : PreOrder flags_step.
Proof.
  split; unfold flags_step, same_info; [by intros w|].
  intros w1 w2 w3 (H1 & H2 & H3) (H4 & H5 & H6). split; [congruence|]. auto.
Qed.

Lemma flags_cl {A} (m : PC D A) : steps_in same_info m → steps_in flags_step (cl m).
Proof.
  intros Hm w. unfold cl. specialize (Hm (uw_client w)). destruct (m (uw_client w)) as [r c].
  by split.
Qed.

Lemma flags_try_cl {A} (m : PC D A) : steps_in same_info m → steps_in flags_step (try_cl m).
Proof.
  intros Hm w. unfold try_cl. pose proof (flags_cl m Hm w) as Hw. by destruct (cl m w) as [[a|e] w'].
Qed.

Lemma flags_transact command payload modifying :
  steps_in flags_step (uw_transact iterations command payload modifying).
Proof.
  unfold uw_transact. steps; try done.
  - apply flags_cl, info_transact.
  - apply flags_try_cl. unfold pc_get_last_error. steps. apply info_transact.
  - apply flags_try_cl. unfold pc_ping. steps. apply info_transact.
Qed.

Lemma flags_transfer_packets command operation modifying count ps :
  steps_in flags_step (transfer_packets iterations command operation modifying count ps).
Proof.
  induction ps as [|p ps IH]; cbn [transfer_packets]; unfold progress; steps; try done.
  apply flags_transact.
Qed.

(** A modifying command has started: whatever happens, the workflow counts
    the Flash as modified and not verified. *)
Definition unverified w : Prop := uw_flash_modified w = true ∧ uw_verify_succeeded w = false.

Lemma unverified_step w w' : unverified w → flags_step w w' → unverified w'.
Proof.
  intros [H1 H2] (_ & H3 & H4). split; [auto|]. destruct (uw_verify_succeeded w'); [|done].
  by rewrite H3 in H2.
Qed.

(** The outcome of a transfer: on success the packets were prepared for the
    device information of the client. *)
Definition transferred image w w' : Prop :=
  ∃ info ps, pc_device_info (uw_client w') = Some info ∧
    prepare_packets image (di_max_data_words info) = Ok ps.

Lemma wp_transfer_flags image b d e operation modifying w :
  wp (uw_transfer iterations image b d e operation modifying)
    (λ _ w', flags_step w w' ∧ transferred image w w') (λ _ w', flags_step w w') w.
Proof.
  unfold uw_transfer, require_info. apply wp_bind, wp_bind, wp_get.
  destruct (pc_device_info (uw_client w)) as [info|] eqn:Ei; [|by apply wp_raise].
  apply wp_ret, wp_bind, wp_lift; [intros ps Eps|by intros].
  match goal with |- wp ?m _ _ _ => assert (steps_in flags_step m) as Hm end.
  { steps; first [apply flags_transact | apply flags_transfer_packets]. }
  eapply wp_conseq; [apply wp_steps, Hm| |done]. intros ? w' Hw. split; [done|].
  exists info, ps. split; [|done]. destruct Hw as (Hi & _). unfold same_info in Hi. congruence.
Qed.

Lemma wp_erase_flags mask w :
  0 < mask <= 0xFFFFFFFF →
  wp (uw_erase iterations mask) (λ _ w', unverified w') (λ _ w', unverified w') w.
Proof.
  intros Hm. unfold uw_erase. replace ((mask <=? 0) || (mask >? 0xFFFFFFFF)) with false by lia.
  do 2 apply wp_bind, wp_modify.
  match goal with |- wp ?m _ _ _ => assert (steps_in flags_step m) as Hs end.
  { steps. apply flags_transact. }
  eapply wp_conseq; [apply wp_steps, Hs| |]; intros ? w'; by apply unverified_step.
Qed.

Lemma wp_program_flags image w :
  unverified w →
  wp (uw_program iterations image) (λ _ w', unverified w') (λ _ w', unverified w') w.
Proof.
  intros Hw. unfold uw_program. apply wp_bind, wp_lift; [|done]. intros _ _.
  do 2 apply wp_bind, wp_modify. eapply wp_conseq; [apply wp_transfer_flags| |].
  - intros ? w' [Hs _]. by eapply unverified_step; [|exact Hs].
  - intros ? w' Hs. by eapply unverified_step; [|exact Hs].
Qed.

Lemma wp_verify_flags image w :
  unverified w →
  wp (uw_verify iterations image)
    (λ _ w', uw_flash_modified w' = true ∧ uw_verify_succeeded w' = true ∧ uw_state w' = READY ∧
       transferred image w w')
    (λ _ w', unverified w') w.
Proof.
  intros Hw. unfold uw_verify. apply wp_bind, wp_lift; [|done]. intros _ _.
  apply wp_bind, wp_modify, wp_bind. eapply wp_conseq; [apply wp_transfer_flags| |].
  - intros ? w' [(_ & _ & Hs) Ht]. apply wp_bind, wp_modify, wp_modify. split_and!; try done.
    cbn in *. apply Hs, Hw.
  - intros ? w' Hs. eapply unverified_step; [|exact Hs]. split; [apply Hw|done].
Qed.

(** Calls of the client change only the client. *)
Definition only_client w w' : Prop := w' = uw_set_client (uw_client w') w.

#[local] Instance only_client_preorder : PreOrder only_client.
Proof.
  split; unfold only_client; [by intros []|]. intros w1 w2 w3 -> ->. done.
Qed.

Lemma only_cl {A} (m : PC D A) : steps_in only_client (cl m).
Proof. intros w. unfold cl. by destruct (m (uw_client w)). Qed.

(** ** Properties *)

(** C3: A failed upgrade never counts as verified.  On every device, whatever
    it answers: once [uw_dfu] has a valid image and a uint32 mask, it either
    returns, with the Flash marked as modified, verified and the workflow
    READY, or it raises, with the Flash marked as modified and not verified
    (so that [uw_run] refuses to start the application). *)
Theorem dfu_fails_unverified image mask w :
  validate_app_firmware_image image = Ok tt → fi_blocks image <> [] →
  Forall block_ok (fi_blocks image) → 0 < mask <= 0xFFFFFFFF →
  wp (uw_dfu iterations mask image)
    (λ _ w', uw_flash_modified w' = true ∧ uw_verify_succeeded w' = true ∧ uw_state w' = READY)
    (λ _ w', uw_flash_modified w' = true ∧ uw_verify_succeeded w' = false) w.
Proof.
  intros Hv Hne Hok Hm. unfold uw_dfu. apply wp_bind, wp_lift; rewrite Hv; [|done]. intros _ _.
  apply wp_bind. eapply wp_conseq; [by apply wp_erase_flags| |done]. intros ? w1 H1.
  apply wp_bind. eapply wp_conseq; [by apply wp_program_flags| |done]. intros ? w2 H2.
  apply wp_bind. eapply wp_conseq; [by apply wp_verify_flags| |done].
  intros ? w3 (Hf & Hs & Hst & info & ps & Ei & Eps).
  unfold require_info. apply wp_bind, wp_bind, wp_get. rewrite Ei. apply wp_ret, wp_bind.
  unfold programmed_image_size_and_end. rewrite Eps.
  assert ((zlen ps =? 0) = false) as ->.
  { apply Z.eqb_neq. intros E%zlen_0_inv. eapply (prepare_packets_nonempty image); [|exact Hne|exact Eps|exact E].
    eapply Forall_impl; [exact Hok|]. by intros b (_ & ? & _). }
  apply wp_lift; [|done]. intros size _. apply wp_bind.
  match goal with |- wp (catch ?m _) _ _ _ => assert (steps_in only_client m) as Hsteps end.
  { steps. apply only_cl. }
  eapply (wp_catch_steps only_client); [exact Hsteps|..].
  - intros ? w4 ->. by apply wp_modify.
  - intros e w4 ->. by apply wp_bind, wp_modify, wp_raise.
Qed.

(** Every failure of a transaction is reported and remembered.  On every
    device [_transact] returns what the client's transaction returns or
    re-raises its exception; after an error status the device's last error is kept (None
    when it cannot be read) and the flags are as before; after a timeout the
    state is UNKNOWN, the outcome of a ping is kept, and a modifying command
    counts as a modification that is not verified; any other outcome changes
    nothing but the client. *)
Theorem transact_error_paths command payload modifying w :
  let '(r, c) := pc_transact iterations (Command.Command_value command) payload
                   (Some (COMMAND_TIMEOUT_MS command)) (uw_client w) in
  let '(r', w') := uw_transact iterations command payload modifying w in
  r' = r ∧
  match r with
  | Ok _ => w' = uw_set_client c w
  | Raise e =>
      if isinstance e ProtocolStatusError then
        uw_last_error_detail w' =
          match (pc_get_last_error iterations c).1 with Ok d => Some d | Raise _ => None end ∧
        uw_state w' = uw_state w ∧ uw_flash_modified w' = uw_flash_modified w ∧
        uw_verify_succeeded w' = uw_verify_succeeded w
      else if isinstance e IoTimeoutError then
        uw_state w' = UNKNOWN ∧
        uw_flash_modified w' = modifying || uw_flash_modified w ∧
        uw_verify_succeeded w' = negb modifying && uw_verify_succeeded w ∧
        uw_last_probe_succeeded w' =
          Some (match (pc_ping iterations (Some 5000) c).1 with Ok _ => true | Raise _ => false end)
      else w' = uw_set_client c w
  end.
Proof.
  unfold uw_transact, catch, cl at 1.
  destruct (pc_transact iterations _ payload _ (uw_client w)) as [[ws|e] c]; [done|].
  destruct (isinstance e ProtocolStatusError); [|destruct (isinstance e IoTimeoutError); [|done]].
  - unfold bind at 1, try_cl, cl. cbn [uw_client uw_set_client].
    by destruct (pc_get_last_error iterations c) as [[d|e'] c'].
  - destruct modifying; unfold bind, modify, ret, try_cl, cl; cbn [uw_client uw_set_client
      uw_set_state uw_set_flash_modified uw_set_verify_succeeded];
      by destruct (pc_ping iterations (Some 5000) c) as [[d|e'] c'].
Qed.

(** C4: The application is started only when the workflow may.  On every
    device, [uw_run] returns without error only if the image is valid for
    the application area, its entry point is allowed, the Flash was not
    modified after its last verification, and the device's metadata summary
    shows a valid image with this entry point that is confirmed or has boot
    attempts left. *)
Theorem run_is_guarded image w :
  wp (uw_run iterations image)
    (λ _ _, validate_app_firmware_image image = Ok tt ∧
       entry_allowed (uw_allowed_flash_ranges w) image = true ∧
       (uw_flash_modified w = true → uw_verify_succeeded w = true) ∧
       ∃ summary, (pc_get_metadata_summary iterations None (uw_client w)).1 = Ok summary ∧
         ms_metadata_valid summary <> 0 ∧ ms_entry_point summary = fi_entry_point image ∧
         (ms_app_confirmed summary <> 0 ∨
          ms_boot_attempt_count summary < ms_boot_attempt_limit summary))
    (λ _ _, True) w.
Proof.
  unfold wp. destruct (uw_run iterations image w) as [[[]|e] w'] eqn:Hrun; [|done]. revert Hrun.
  unfold uw_run, bind at 1, lift at 1. destruct (validate_app_firmware_image image) as [[]|]; [|done].
  destruct (negb (_ =? 0)); [done|]. unfold bind at 1, get.
  destruct (entry_allowed _ image); [|done]. cbn [negb].
  destruct (uw_flash_modified w && _) eqn:Ef; [done|]. unfold bind at 1, cl at 1.
  destruct (pc_get_metadata_summary iterations None (uw_client w)) as [[summary|] c]; [|done].
  destruct (Z.eqb_spec (ms_metadata_valid summary) 0); [done|].
  destruct (Z.eqb_spec (ms_entry_point summary) (fi_entry_point image)); [|done]. cbn [negb].
  intros Hrun. split; [done|]. split; [done|]. split.
  { intros Hm. rewrite Hm in Ef. by destruct (uw_verify_succeeded w). }
  exists summary. split_and!; try done. unfold bind at 1 in Hrun.
  destruct (Z.eqb_spec (ms_app_confirmed summary) 0); [|by left]. right.
  destruct (Z.geb_spec (ms_boot_attempt_count summary) (ms_boot_attempt_limit summary)); [done|lia].
Qed.

End any_device.

Lemma dfu_fails_unverified_witness :
  wp (uw_dfu Z.to_nat 0x12 image_example)
    (λ _ w', uw_flash_modified w' = true ∧ uw_verify_succeeded w' = true ∧ uw_state w' = READY)
    (λ _ w', uw_flash_modified w' = true ∧ uw_verify_succeeded w' = false) example_workflow ∧
  wp (uw_dfu Z.to_nat 0x01 image_example)
    (λ _ w', uw_flash_modified w' = true ∧ uw_verify_succeeded w' = true ∧ uw_state w' = READY)
    (λ _ w', uw_flash_modified w' = true ∧ uw_verify_succeeded w' = false) example_workflow.
Proof.
  split; (apply (dfu_fails_unverified Z.to_nat image_example);
    [reflexivity|discriminate|apply image_example_ok|lia]).
Defined.

(** * Connecting and starting the application

    The two ends of a session with the simulator: [pc_open] on a closed
    device leads to a connected client ([connect_learns_device]), and
    [uw_run] on a device whose journal allows it records the attempt and
    starts the application ([run_starts_application]). *)

(** ** Requests that are answered with data *)

Lemma empty_accepts request operation s Q :
  payload_len request = 0 → Q None s → wp (require_empty request operation) Q never s.
Proof. intros Hl HQ. unfold require_empty. rewrite Hl. by apply wp_ret. Qed.

Lemma device_info_accepts request s :
  Frame_ok request → Sim_ok s → payload_len request = 0 →
  ∃ ws, DeviceInfo_to_words (sim_device_info s) = Ok ws ∧ Forall u16 ws ∧ zlen ws = 16 ∧
    gives (sim_get_device_info request) s (response request Status.OK ws) s.
Proof.
  intros Hreq Hok Hl. destruct (DeviceInfo_to_words_ok _ (so_info s Hok)) as (ws & E & Hu & Hlen).
  exists ws. split_and!; try done. unfold gives, sim_get_device_info. apply wp_bind.
  apply empty_accepts; [done|]. apply wp_bind, wp_gets, wp_bind, wp_lift; rewrite E; [|done].
  intros ? [= <-]. apply gives_response; [done..|lia].
Qed.

Lemma summary_accepts request s rs :
  Frame_ok request → flash_journal (sim_flash s) rs → payload_len request = 0 →
  gives (sim_get_metadata_summary request) s (response request Status.OK (journal_payload rs)) s.
Proof.
  intros Hreq Hrs Hl. destruct (journal_payload_words rs (fj_journal _ _ Hrs) (fj_length _ _ Hrs)) as [Hu Hlen].
  unfold gives, sim_get_metadata_summary. apply wp_bind, empty_accepts; [done|].
  apply wp_bind, wp_get, wp_bind, wp_lift; rewrite (summary_payload_journal s rs Hrs); [|done].
  intros ? [= <-]. apply gives_response; [done..|]. by rewrite Hlen.
Qed.

(** ** Boot attempts and the start of the application *)

Lemma summary_of_image rs image :
  js_image (journal_state rs) = Some image →
  ms_metadata_valid (summary_of rs) = 1 ∧
  ms_app_confirmed (summary_of rs) = (if js_confirmed (journal_state rs) then 1 else 0) ∧
  ms_boot_attempt_count (summary_of rs) = js_attempts (journal_state rs) ∧
  ms_boot_attempt_limit (summary_of rs) = 3 ∧ ms_entry_point (summary_of rs) = rec32 image 14 ∧
  ms_image_size_words (summary_of rs) = rec32 image 16 ∧
  ms_image_crc32 (summary_of rs) = rec32 image 18.
Proof. intros Hi. unfold summary_of. by rewrite Hi. Qed.

Lemma boot_attempt_accepts payload s rs image elo ehi slo shi clo chi :
  Forall u16 payload → Sim_ok s → flash_journal (sim_flash s) rs → zlen rs < METADATA_RECORD_COUNT →
  js_image (journal_state rs) = Some image → js_confirmed (journal_state rs) = false →
  js_attempts (journal_state rs) < METADATA_BOOT_ATTEMPT_LIMIT →
  payload = [MetadataRecordType.MetadataRecordType_value MetadataRecordType.BOOT_ATTEMPT;
    BootSlot.BootSlot_value BootSlot.SLOT_A; elo; ehi; slo; shi; clo; chi; 0; 0; 0; 0; 0; 0; 0; 0] →
  join_u32 elo ehi = rec32 image 14 → join_u32 slo shi = rec32 image 16 → join_u32 clo chi = rec32 image 18 →
  ∃ r, (∀ request, Frame_ok request → fr_payload request = payload →
      gives (sim_metadata_append_record request) s (response request Status.OK [])
        (set_flash (stored s rs r) s)) ∧
    flash_journal (stored s rs r) (rs ++ [r]) ∧
    journal_state (rs ++ [r]) =
      mkJournalState (Some image) (js_attempts (journal_state rs) + 1) false ∧
    (∀ a, ¬ (SLOT_A_METADATA_START <= a < SLOT_A_METADATA_END) → stored s rs r !! a = sim_flash s !! a).
Proof.
  intros Hu Hok Hrs Hl Hi Hc Hlt Hp He Hs Hcrc.
  pose proof (fj_journal _ _ Hrs) as Hj. pose proof (fj_length _ _ Hrs) as Hlen.
  destruct (journal_bounds rs Hj) as (Hb & _). unfold METADATA_BOOT_ATTEMPT_LIMIT in Hb, Hlt.
  destruct (summary_record_ok MetadataRecordType.BOOT_ATTEMPT rs image
    (js_attempts (journal_state rs) + 1) (zlen rs + 1)) as (r & Er & Hr & Hm & _);
    [done..|unfold u16; lia|by apply next_sequence_u32|].
  assert (journal (rs ++ [r])) as Hjr by by eapply journal_attempt.
  destruct (stored_ok s Hok rs _ r Hrs Hl Hjr Hr) as (_ & Hrs' & Hout).
  exists r. split_and!; try done.
  2: { rewrite journal_state_snoc. unfold journal_step. by rewrite (rk_kind _ _ _ Hr), Hi, Hc. }
  intros request Hreq Hpay. rewrite <-Hpay in Hp.
  unfold gives, sim_metadata_append_record, pay, payload_len. rewrite Hp.
  do 4 (apply wp_guard; [done|]). apply wp_if; [intros _|done].
  unfold append_about_image, pay32, pay. rewrite Hp. at_simpl. apply wp_guard; [done|].
  apply wp_bind, wp_get, wp_bind, wp_lift; rewrite (summary_journal s rs Hrs); [|done]. intros ? [= <-].
  destruct (summary_of_image rs image Hi) as (Ev & Ec & Ea & El & Ee & Es & Ecrc).
  rewrite Hc in Ec. apply wp_guard; [by rewrite Ev|]. apply wp_guard; [done|].
  apply wp_guard; [by rewrite Ec|]. apply wp_guard; [rewrite Ea, El; cbn [andb]; lia|].
  apply wp_guard; [by rewrite Ee, Es, Ecrc, He, Hs, Hcrc, !Z.eqb_refl|].
  rewrite (first_free_journal s rs Hrs).
  replace (zlen rs <? METADATA_RECORD_COUNT) with true by lia.
  rewrite (next_sequence_journal s rs Hrs). 
  apply wp_bind, wp_lift; change (if _ =? _ then ?x else _) with x; unfold build_boot_attempt_record;
    rewrite Ea, Er; [|done].
  intros ? [= <-]. apply wp_bind, wp_modify. by apply gives_ok.
Qed.

(** An image can be started when it is confirmed or was attempted and has
    attempts left. *)
Lemma run_accepts request s rs image elo ehi :
  Frame_ok request → flash_journal (sim_flash s) rs →
  js_image (journal_state rs) = Some image → journal rs →
  js_confirmed (journal_state rs) = true ∨ 0 < js_attempts (journal_state rs) →
  fr_payload request = [Target.Target_value Target.FLASH_APP; elo; ehi; 0] →
  join_u32 elo ehi = rec32 image 14 → join_u32 elo ehi mod 8 = 0 →
  addresses_allowed s (join_u32 elo ehi) 1 = true →
  gives (sim_run request) s (response request Status.OK []) (set_pending_action RUN_APP s).
Proof.
  intros Hreq Hrs Hi Hj Hrun Hp He H8 Ha. destruct (journal_bounds rs Hj) as (Hb & _).
  unfold METADATA_BOOT_ATTEMPT_LIMIT in Hb.
  destruct (summary_of_image rs image Hi) as (Ev & Ec & Ea & El & Ee & _).
  unfold gives, sim_run, pay32, pay, payload_len. rewrite Hp. do 3 (apply wp_guard; [done|]). at_simpl.
  apply wp_guard; [by rewrite H8|]. apply wp_bind, wp_get, wp_guard; [by rewrite Ha|].
  apply wp_bind, wp_lift; rewrite (summary_journal s rs Hrs); [|done]. intros ? [= <-].
  apply wp_guard; [by rewrite Ev, Ee, He, Z.eqb_refl|]. rewrite Ec, Ea, El.
  apply wp_guard; [destruct (js_confirmed _), Hrun; try done; cbn; lia|].
  apply wp_guard; [destruct (js_confirmed _); [done|]; cbn; lia|].
  apply wp_bind, wp_modify. by apply gives_ok.
Qed.

Section launch.
Context (iterations : Z → nat) (Hiter : ∀ t, 0 < t → (0 < iterations t)%nat).

(** ** Connecting *)

(** The client after a successful [connect]. *)
Definition connected (c : SimClient) : SimClient :=
  pc_set_device_info None (pc_set_sequence 0 (pc_set_device
    (mkSimDevice (core_of c) true (mkReader (max_payload c) [] []) [] None) c)).

Lemma wp_pc_connect (c : SimClient) wait cancel :
  sd_open (pc_device c) = false → 0 <= max_payload c <= 0xFFFF →
  (∀ ms, wait = Some ms → 0 < ms) →
  wp (pc_connect wait cancel) (λ _ c', c' = connected c) (λ _ _, False) c.
Proof using.
  intros Hcl Hmax Hw. unfold pc_connect. apply wp_bind.
  eapply (wp_dev _ _ _ _ tt (mkSimDevice (core_of c) true (mkReader (max_payload c) [] []) [] None)).
  { cbn. unfold simdev_open, bind, get, lift, modify, ret. rewrite Hcl. cbn [negb].
    unfold ResyncReader_init. fold (core_of c) (max_payload c).
    replace ((max_payload c <? 0) || (max_payload c >? 65535)) with false by lia. done. }
  apply wp_bind, wp_catch.
  eapply (wp_dev _ _ _ _ tt (mkSimDevice (core_of c) true (mkReader (max_payload c) [] []) [] None)).
  { cbn [dev_wait_slave simulator_device]. unfold simdev_wait_slave, require_open, bind, gets, ret, lift.
    cbn [sd_open pc_device pc_set_device negb]. destruct wait as [ms|]; [|done].
    unfold validate_timeout. specialize (Hw ms eq_refl). by replace (ms <=? 0) with false by lia. }
  apply wp_bind, wp_modify, wp_modify. done.
Qed.

Lemma connected_linked c :
  Sim_ok (core_of c) → no_response (sim_faults (core_of c)) = false →
  sequence_mismatch (sim_faults (core_of c)) = false → bad_payload_crc (sim_faults (core_of c)) = false →
  0 < pc_default_timeout_ms c → linked (connected c).
Proof using. intros. split; cbn; try done; [by exists []|by left]. Qed.

(** Opening a session learns the device.  On a closed simulator device
    without transport faults, [ProtocolClient.open] (with positive timeouts)
    returns the device information of the simulator, which is otherwise
    unchanged, and leaves the client connected: the invariant under which
    every further transaction is one step of the simulator. *)
Theorem connect_learns_device (c : SimClient) wait timeout cancel :
  sd_open (pc_device c) = false → Sim_ok (core_of c) →
  no_response (sim_faults (core_of c)) = false →
  sequence_mismatch (sim_faults (core_of c)) = false → bad_payload_crc (sim_faults (core_of c)) = false →
  16 <= max_payload c → 0 < pc_default_timeout_ms c → 0 < timeout →
  (∀ ms, wait = Some ms → 0 < ms) →
  wp (pc_open iterations wait timeout cancel)
    (λ info c', info = sim_device_info (core_of c) ∧ pc_device_info c' = Some info ∧
       linked c' ∧ core_of c' = core_of c) (λ _ _, False) c.
Proof using Hiter.
  intros Hcl Hok Hn Hs Hb Hmax Hdt Ht Hw.
  assert (0 <= max_payload c <= 0xFFFF) as Hmax'.
  { pose proof (di_ok16 _ (so_info _ Hok)) as H16. unfold DeviceInfo_fields16 in H16.
    rewrite !Forall_cons in H16. assert (u16 (max_payload c)) as Hm by apply H16. unfold u16 in Hm. lia. }
  pose proof (connected_linked c Hok Hn Hs Hb Hdt) as Hl.
  unfold pc_open. apply wp_bind. eapply wp_conseq; [by apply wp_pc_connect| |done].
  intros ? c1 ->. apply wp_catch. unfold pc_get_device_info.
  destruct (DeviceInfo_to_words_ok _ (so_info _ Hok)) as (ws & Ews & Hu & Hlen).
  assert (zlen (@nil Z) <= max_payload (connected c)) as Hnil by (change (0 <= max_payload c); lia).
  apply wp_bind. eapply wp_conseq; [apply (wp_client_accepts iterations Hiter
    Command.GET_DEVICE_INFO [] (Some timeout) (core_of c) (core_of c) ws (connected c))| |done]; try done.
  - rewrite Hlen. exact Hmax.
  - intros request Hreq Hpay.
    destruct (device_info_accepts request (core_of c)) as (ws' & E' & _ & _ & Hg); try done.
    { unfold payload_len. by rewrite Hpay. }
    rewrite Ews in E'. by injection E' as <-.
  - intros ? c2 (-> & Hl2 & ->).
    assert (DeviceInfo_from_words ws = Ok (sim_device_info (core_of c))) as E
      by (apply DeviceInfo_roundtrip; split; [apply Hok|done]).
    apply wp_bind, wp_lift; rewrite E; [|done]. intros ? [= <-]. apply wp_bind, wp_modify, wp_ret.
    split_and!; try done. destruct Hl2. split; try done. by right.
Qed.

(** ** Starting the application *)

Lemma wp_summary info s w rs :
  on info s w → device_ready s → METADATA_SUMMARY_WORDS <= di_max_payload_words info →
  flash_journal (sim_flash s) rs →
  wp (cl (pc_get_metadata_summary iterations None))
    (λ summary w', summary = summary_of rs ∧ on info s w' ∧ same_flags w w') impossible w.
Proof using Hiter.
  intros Hon Hr Hm Hrs. destruct (on_ok _ _ _ Hon) as [Hok Hinfo].
  destruct (journal_payload_words rs (fj_journal _ _ Hrs) (fj_length _ _ Hrs)) as [_ Hlen].
  assert (zlen (@nil Z) <= di_max_payload_words info) as Hnil
    by (rewrite Hinfo; pose proof (dr_payload _ Hr); change (0 <= di_max_payload_words (sim_device_info s)); lia).
  apply wp_cl, wp_catch, wp_bind. eapply wp_conseq; [eapply (wp_client_ok iterations Hiter
    Command.GET_METADATA_SUMMARY [] _ info s s (journal_payload rs) w); try done| |done].
  - by rewrite Hlen.
  - intros request Hreq Hpay. apply summary_accepts; try done. unfold payload_len. by rewrite Hpay.
  - intros ? c [-> Hon']. pose proof (from_words_journal rs (fj_journal _ _ Hrs) (fj_length _ _ Hrs)) as E.
    apply wp_lift; rewrite E; [|done]. by intros ? [= <-].
Qed.

Lemma wp_boot_attempt info s w rs image :
  on info s w → device_ready s → flash_journal (sim_flash s) rs → zlen rs < METADATA_RECORD_COUNT →
  js_image (journal_state rs) = Some image → js_confirmed (journal_state rs) = false →
  js_attempts (journal_state rs) < METADATA_BOOT_ATTEMPT_LIMIT →
  wp (cl (pc_metadata_append_boot_attempt iterations (rec32 image 14) (rec32 image 16) (rec32 image 18)
            (Some (COMMAND_TIMEOUT_MS Command.METADATA_APPEND_RECORD))))
    (λ _ w', ∃ r s', on info s' w' ∧ same_flags w w' ∧ same_setting s s' ∧
       flash_journal (sim_flash s') (rs ++ [r]) ∧
       journal_state (rs ++ [r]) =
         mkJournalState (Some image) (js_attempts (journal_state rs) + 1) false ∧
       (∀ a, ¬ (SLOT_A_METADATA_START <= a < SLOT_A_METADATA_END) →
          sim_flash s' !! a = sim_flash s !! a)) impossible w.
Proof using Hiter.
  intros Hon Hr Hrs Hl Hi Hc Hlt. destruct (on_ok _ _ _ Hon) as [Hok Hinfo].
  pose proof (fj_journal _ _ Hrs) as Hj. destruct (js_image_in _ _ Hi) as [Hin _].
  destruct (journal_words rs image Hj Hin) as [Hw _].
  assert (∀ i, u16 (at_ image i)) as Hat by (intros; by apply at_u16).
  set (payload := [MetadataRecordType.MetadataRecordType_value MetadataRecordType.BOOT_ATTEMPT;
    BootSlot.BootSlot_value BootSlot.SLOT_A; at_ image 14; at_ image 15; at_ image 16; at_ image 17;
    at_ image 18; at_ image 19; 0; 0; 0; 0; 0; 0; 0; 0]).
  assert (Forall u16 payload) as Hu
    by (unfold payload; rewrite !Forall_cons; split_and!; try done; apply Hat).
  destruct (boot_attempt_accepts payload s rs image (at_ image 14) (at_ image 15) (at_ image 16)
    (at_ image 17) (at_ image 18) (at_ image 19)) as (r & Hg & Hj' & Hst & Hout); try done.
  apply wp_cl. unfold pc_metadata_append_boot_attempt, about_image_payload.
  rewrite !rec32_split by done. apply wp_bind, wp_lift; [|done]. intros ? [= <-]. apply wp_bind.
  eapply wp_conseq; [eapply (wp_client_ok iterations Hiter
    Command.METADATA_APPEND_RECORD payload _ info s _ [] w Hon); try done| |done].
  - rewrite Hinfo. pose proof (dr_payload _ Hr). change (zlen payload) with 16. lia.
  - rewrite Hinfo. pose proof (dr_payload _ Hr). change (zlen []) with 0. lia.
  - by apply device_ready_gate.
  - intros ws c [_ Hon']. apply wp_ret. by eexists r, _.
Qed.

Lemma wp_run_command info s w rs image :
  on info s w → device_ready s → flash_journal (sim_flash s) rs →
  js_image (journal_state rs) = Some image →
  js_confirmed (journal_state rs) = true ∨ 0 < js_attempts (journal_state rs) →
  APP_FLASH_START <= rec32 image 14 < APP_FLASH_END_EXCLUSIVE → rec32 image 14 mod 8 = 0 →
  wp (entry <- lift (split_u32 (rec32 image 14)) ;;
      _ <- uw_transact iterations Command.RUN [Target.Target_value Target.FLASH_APP; entry.1; entry.2; 0] false ;;
      ret tt)
    (λ _ w', on info (set_pending_action RUN_APP s) w' ∧ same_flags w w') impossible w.
Proof using Hiter.
  intros Hon Hr Hrs Hi Hrun Hent H8. destruct (on_ok _ _ _ Hon) as [Hok Hinfo].
  destruct (join_split_u32 (rec32 image 14)) as (lo & hi & E & Hlo & Hhi & J).
  { unfold u32, APP_FLASH_START, APP_FLASH_END_EXCLUSIVE, SLOT_A_APP_START, SLOT_A_APP_END_EXCLUSIVE in *. lia. }
  apply wp_bind, wp_lift; rewrite E; [|done]. intros ? [= <-]. apply wp_bind.
  eapply wp_conseq; [eapply (wp_transact_ok iterations Hiter Command.RUN _ false info s
    (set_pending_action RUN_APP s)); try done| |done].
  - cbn [fst snd]. rewrite !Forall_cons. by split_and!.
  - rewrite Hinfo. pose proof (dr_payload _ Hr). change (zlen _) with 4. lia.
  - intros request Hreq Hpay. apply (run_accepts request s rs image lo hi); try done.
    + apply Hrs.
    + by rewrite J.
    + rewrite J. apply default_allowed; try apply Hr; lia.
  - intros ws w' [Hon' Hf]. by apply wp_ret.
Qed.

(** C2: The workflow starts the application.  On a connected simulator whose
    journal's latest image has the entry point of the given image and is
    confirmed, or has attempts and a free record left, [uw_run] returns
    without error (given that the Flash was not modified since its last
    verification): an unconfirmed image has one more BOOT_ATTEMPT record, the rest of the
    Flash is unchanged, and the device is about to run the application. *)
Theorem run_starts_application image info s w rs r :
  on info s w → device_ready s → METADATA_SUMMARY_WORDS <= di_max_payload_words info →
  validate_app_firmware_image image = Ok tt → entry_allowed (uw_allowed_flash_ranges w) image = true →
  uw_flash_modified w && negb (uw_verify_succeeded w) = false →
  flash_journal (sim_flash s) rs → js_image (journal_state rs) = Some r →
  rec32 r 14 = fi_entry_point image →
  js_confirmed (journal_state rs) = true ∨
    js_attempts (journal_state rs) < METADATA_BOOT_ATTEMPT_LIMIT ∧ zlen rs < METADATA_RECORD_COUNT →
  wp (uw_run iterations image)
    (λ _ w', ∃ s' rs', on info s' w' ∧ sim_pending_action s' = RUN_APP ∧
       flash_journal (sim_flash s') rs' ∧
       journal_state rs' = (if js_confirmed (journal_state rs) then journal_state rs
         else mkJournalState (Some r) (js_attempts (journal_state rs) + 1) false) ∧
       (∀ a, ¬ (SLOT_A_METADATA_START <= a < SLOT_A_METADATA_END) →
          sim_flash s' !! a = sim_flash s !! a)) impossible w.
Proof using Hiter.
  intros Hon Hr Hm Hv Hallow Hflags Hrs Hi Hent Hcase.
  pose proof Hv as (Hrange & H8 & _)%validate_app_ok.
  destruct (journal_bounds rs (fj_journal _ _ Hrs)) as (Hb & _).
  destruct (summary_of_image rs r Hi) as (Ev & Ec & Ea & El & Ee & Es & Ecrc).
  unfold uw_run. apply wp_bind, wp_lift; rewrite Hv; [|done]. intros _ _.
  rewrite H8. cbn [negb Z.eqb]. apply wp_bind, wp_get. rewrite Hallow, Hflags. cbn [negb].
  apply wp_bind. eapply wp_conseq; [by apply (wp_summary info s w rs)| |done].
  intros ? w1 (-> & Hon1 & _). rewrite Ev, Ee, Es, Ecrc, Ec, Ea, El, Hent, Z.eqb_refl. cbn [negb Z.eqb].
  apply wp_bind. destruct (js_confirmed (journal_state rs)) eqn:Ecf.
  - apply wp_ret. rewrite <-Hent.
    eapply wp_conseq; [eapply (wp_run_command info s w1 rs r); try done| |done].
    + by left.
    + by rewrite Hent.
    + by rewrite Hent.
    + intros ? w2 [Hon2 _]. by exists (set_pending_action RUN_APP s), rs.
  - destruct Hcase as [|[Hlt Hfree]]; [done|]. unfold METADATA_BOOT_ATTEMPT_LIMIT in Hlt.
    replace (js_attempts (journal_state rs) >=? 3) with false by lia. rewrite <-Hent.
    apply wp_bind. eapply wp_conseq; [by apply (wp_boot_attempt info s w1 rs r)| |done].
    intros ? w2 (r' & s2 & Hon2 & _ & Hs2 & Hj2 & Hst2 & Hout2). apply wp_modify.
    eapply wp_conseq; [eapply (wp_run_command info s2 _ (rs ++ [r']) r); try done| |done].
    + by destruct Hon2.
    + by eapply device_ready_setting.
    + by rewrite Hst2.
    + right. rewrite Hst2. cbn. lia.
    + by rewrite Hent.
    + by rewrite Hent.
    + intros ? w3 [Hon3 _]. exists (set_pending_action RUN_APP s2), (rs ++ [r']). by split_and!.
Qed.

End launch.

Definition closed_client : SimClient :=
  mkClient (mkSimDevice example_simulator false (mkReader 256 [] []) [] None) 1000 0 true 7 None.

Lemma connect_learns_device_witness :
  16 <= max_payload closed_client ∧
  wp (pc_open Z.to_nat (Some 100) 5000 None)
    (λ info c', info = sim_device_info (core_of closed_client) ∧ pc_device_info c' = Some info ∧
       linked c' ∧ core_of c' = core_of closed_client) (λ _ _, False) closed_client.
Proof.
  split; [vm_compute; discriminate|].
  apply (connect_learns_device Z.to_nat ltac:(lia) closed_client (Some 100) 5000 None); try reflexivity.
  - apply example_simulator_ok.
  - vm_compute. discriminate.
  - intros ms [= <-]. lia.
Defined.

(** A simulator with one image recorded. *)
Definition example_record : list Z :=
  match build_image_valid_record
          [MetadataRecordType.MetadataRecordType_value MetadataRecordType.IMAGE_VALID; 1; 0x2400; 0x0008;
           16; 0; 5; 6; 0; 0; 0; 0; 0; 0x8008; 0x0008; 0] 1 default_device_info with
  | Ok r => r
  | Raise _ => []
  end.

Definition recorded_simulator : SimulatorCore :=
  set_flash (stored example_simulator [] example_record) example_simulator.

Lemma example_record_ok : record_ok MetadataRecordType.IMAGE_VALID 1 example_record.
Proof.
  unfold example_record. destruct (build_image_valid_record_ok
    [MetadataRecordType.MetadataRecordType_value MetadataRecordType.IMAGE_VALID; 1; 0x2400; 0x0008;
     16; 0; 5; 6; 0; 0; 0; 0; 0; 0x8008; 0x0008; 0] 1 default_device_info) as (r & -> & Hr & _).
  - repeat (apply Forall_cons_2; [vm_compute; intuition discriminate|]). constructor.
  - unfold u32. lia.
  - apply (so_info _ example_simulator_ok).
  - exact Hr.
Qed.

Lemma recorded_ok :
  Sim_ok recorded_simulator ∧ flash_journal (sim_flash recorded_simulator) [example_record].
Proof.
  assert (flash_journal (sim_flash example_simulator) []) as Hj
    by (apply flash_journal_erased; intros a _; reflexivity).
  destruct (stored_ok example_simulator example_simulator_ok []
    MetadataRecordType.IMAGE_VALID example_record Hj) as (H1 & H2 & _).
  - reflexivity.
  - apply journal_image; [constructor|]. apply example_record_ok.
  - apply example_record_ok.
  - by split.
Qed.

Definition recorded_workflow : SimWorkflow :=
  UpgradeWorkflow_init
    (mkClient (mkSimDevice recorded_simulator true (mkReader 256 [] []) [] None) 1000 0 true 0
       (Some (sim_device_info recorded_simulator))) [].

Lemma recorded_on : on (sim_device_info recorded_simulator) recorded_simulator recorded_workflow.
Proof.
  split; [|reflexivity..]. split; [|by exists []|reflexivity|reflexivity|simpl; lia|by right|simpl; lia].
  split; try reflexivity. apply recorded_ok.
Qed.

Lemma run_starts_application_witness :
  js_attempts (journal_state [example_record]) = 0 ∧
  wp (uw_run Z.to_nat image_example)
    (λ _ w', ∃ s' rs', on (sim_device_info recorded_simulator) s' w' ∧ sim_pending_action s' = RUN_APP ∧
       flash_journal (sim_flash s') rs' ∧
       journal_state rs' = mkJournalState (Some example_record) 1 false ∧
       (∀ a, ¬ (SLOT_A_METADATA_START <= a < SLOT_A_METADATA_END) →
          sim_flash s' !! a = sim_flash recorded_simulator !! a)) impossible recorded_workflow.
Proof.
  split; [vm_compute; reflexivity|].
  apply (run_starts_application Z.to_nat ltac:(lia) image_example
    (sim_device_info recorded_simulator) recorded_simulator recorded_workflow [example_record] example_record).
  - apply recorded_on.
  - split; try reflexivity; vm_compute; discriminate.
  - vm_compute. discriminate.
  - reflexivity.
  - reflexivity.
  - reflexivity.
  - apply recorded_ok.
  - vm_compute. reflexivity.
  - vm_compute. reflexivity.
  - right. split; vm_compute; reflexivity.
Defined.
