(* ===== verification/Sci8.v ===== *)
(** SCI8 boot tables: the parser, then the exact set of texts it accepts. *)

(** * SCI8 boot tables (firmware/hex2000.py)

    The parser of the ASCII output of hex2000 and the construction of the
    firmware image from it.  The text is scanned with two regular expressions:
    one drops comments, the other finds the hexadecimal tokens; both are
    written as the left-to-right search with backtracking that [re] performs.
    Every step of a search consumes a character, so the length of the text is
    enough fuel.  Locating and running the hex2000 program and reading its
    output file are outside the model. *)

From S2P Require Import Prelude.
From S2P Require Import Errors.
From S2P Require Import Messages.
From S2P Require Import Words.
From S2P Require Import Firmware.
From S2P Require Import ServiceImage.

Definition SCI8_KEY : Z := 0x08AA.
Definition SCI8_RESERVED_WORDS : Z := 8.

Record Sci8BootTable : Type := mkBootTable {
  bt_key : Z;
  bt_reserved_words : list Z;
  bt_entry_point : Z;
  bt_blocks : list FirmwareBlock;
}.

Definition sci8_error {A} (m : Msg) : Res A := Raise (Err Sci8ParseError m).

(** ** Comments *)

(** What follows the first [*/] *)
Fixpoint find_close (s : text) : option text :=
  match after_prefix (chars "*/") s, s with
  | Some rest, _ => Some rest
  | None, _ :: r => find_close r
  | None, [] => None
  end.

(** A match of [/\*.*?\*/|//[^\r\n]*|#[^\r\n]*] at the head of [s]: what
    follows it *)
Definition comment_at (s : text) : option text :=
  match after_prefix (chars "/*") s ≫= find_close with
  | Some rest => Some rest
  | None =>
      match after_prefix (chars "//") s with
      | Some body => Some (drop_while (λ c, negb (is_newline c)) body)
      | None => drop_while (λ c, negb (is_newline c)) <$> after_prefix (chars "#") s
      end
  end.

(** [re.sub(comments, " ", text)] *)
Fixpoint strip_comments_loop (fuel : nat) (s : text) : text :=
  match fuel with
  | O => []
  | S fuel =>
      match comment_at s, s with
      | Some rest, _ => 32 :: strip_comments_loop fuel rest
      | None, c :: r => c :: strip_comments_loop fuel r
      | None, [] => []
      end
  end.

Definition strip_comments (s : text) : text := strip_comments_loop (S (length s)) s.

(** ** Tokens *)

(** [n] hexadecimal digits with no further alphanumeric character *)
Definition digits_at (n : nat) (s : text) : option (text * text) :=
  let digits := take n s in
  let rest := drop n s in
  if (length digits =? n)%nat && forallb is_hex digits && negb (starts_with is_alnum rest)
  then Some (digits, rest) else None.

(** [([0-9A-Fa-f]{2}|[0-9A-Fa-f]{4})(?![0-9A-Za-z])] *)
Definition token_body (s : text) : option (text * text) :=
  match digits_at 2 s with Some m => Some m | None => digits_at 4 s end.

(** [(?:0[xX])?] and the body: the prefix is tried first. *)
Definition token_at (s : text) : option (text * text) :=
  match after_0x s ≫= token_body with Some m => Some m | None => token_body s end.

(** [_TOKEN_RE.finditer(s)]; [after_alnum] is the look-behind. *)
Fixpoint find_tokens (fuel : nat) (after_alnum : bool) (s : text) : list text :=
  match fuel with
  | O => []
  | S fuel =>
      match (if after_alnum then None else token_at s), s with
      | Some (token, rest), _ => token :: find_tokens fuel true rest
      | None, c :: r => find_tokens fuel (is_alnum c) r
      | None, [] => []
      end
  end.

(** [_tokens] *)
Definition tokens (s : text) : list text :=
  let cleaned := strip_comments s in find_tokens (S (length cleaned)) false cleaned.

(** [byte_values[i] | (byte_values[i + 1] << 8)] for the even [i] *)
Fixpoint byte_pairs (byte_values : list Z) : list Z :=
  match byte_values with
  | lo :: hi :: rest => Z.lor lo (Z.shiftl hi 8) :: byte_pairs rest
  | _ => []
  end.

(** [_parse_ascii_words] *)
Definition parse_ascii_words (s : text) : Res (list Z) :=
  match tokens s with
  | [] => sci8_error (Lit "SCI8 output contains no hexadecimal data")
  | ts =>
      if forallb (λ t, zlen t =? 4) ts then Ok (map hex_int ts) else
      if negb (forallb (λ t, zlen t =? 2) ts)
      then sci8_error (Lit "SCI8 output mixes byte and word tokens") else
      let byte_values := map hex_int ts in
      if negb (zlen byte_values mod 2 =? 0)
      then sci8_error (Lit "SCI8 byte stream has an odd byte count") else
      Ok (byte_pairs byte_values)
  end.

(** ** The boot table *)

(** The [while True] loop: every iteration reads at least the size word. *)
Fixpoint parse_blocks (fuel : nat) (words : list Z) (index : Z) (blocks : list FirmwareBlock)
    : Res (Z * list FirmwareBlock) :=
  if index >=? zlen words
  then sci8_error (Lit "SCI8 boot table has no zero-length terminator") else
  match fuel with
  | O => Raise (Err Exception (Lit "out of fuel"))
  | S fuel =>
      let size := at_ words index in
      let index := index + 1 in
      if size =? 0 then Ok (index, blocks) else
      if index + 2 + size >? zlen words
      then sci8_error (Lit "SCI8 block extends beyond the available data") else
      let address := Z.lor (Z.shiftl (at_ words index) 16) (at_ words (index + 1)) in
      let index := index + 2 in
      let? block := FirmwareBlock_init address (slice words index (index + size)) in
      parse_blocks fuel words (index + size) (blocks ++ [block])
  end.

Definition parse_sci8_text (s : text) : Res Sci8BootTable :=
  let? words := parse_ascii_words s in
  let fixed_words := 1 + SCI8_RESERVED_WORDS + 2 in
  if zlen words <? fixed_words + 1 then sci8_error (Lit "SCI8 boot table is truncated") else
  if negb (at_ words 0 =? SCI8_KEY)
  then sci8_error (Fmt "unexpected SCI8 key 0x{:04X}" [VInt (at_ words 0)]) else
  let entry_point := Z.lor (Z.shiftl (at_ words 9) 16) (at_ words 10) in
  let? parsed := parse_blocks (length words) words fixed_words [] in
  let '(index, blocks) := parsed in
  if negb (index =? zlen words)
  then sci8_error (Lit "SCI8 boot table contains trailing data after terminator") else
  if zlen blocks =? 0 then sci8_error (Lit "SCI8 boot table contains no data blocks") else
  Ok (mkBootTable (at_ words 0) (slice words 1 9) entry_point blocks).

(** [_decode_ascii] *)
Definition decode_ascii (raw : list Z) : Res text :=
  if forallb (λ b, b <? 128) raw then Ok raw
  else sci8_error (Lit "SCI8 output is not ASCII").

(** [build_firmware_image]; [raw] is what [generated.read_bytes()] returned and
    the two paths are already [str(Path(...))]. *)
Definition build_firmware_image (source_out_file generated_hex_file : string) (raw : list Z)
    : Res FirmwareImage :=
  let? s := decode_ascii raw in
  let? table := parse_sci8_text s in
  FirmwareImage_init source_out_file generated_hex_file (bt_entry_point table) (bt_blocks table)
    (sha256_hexdigest raw)
    [("format"%string, VStr "TI C2000 SCI8 ASCII boot table"); ("key"%string, VInt (bt_key table));
     ("reserved_words"%string, VSeq (map VInt (bt_reserved_words table)));
     ("checksum"%string, VStr "sha256")].

(** * What the SCI8 parser accepts

    [renders s ts] says that the text [s] spells the tokens [ts] with any
    separators and comments between them; the two regular expressions find
    exactly these tokens.  [boot_words] writes a boot table as words, and
    [parse_sci8_text] accepts a text exactly when its tokens spell the words of
    a well-formed table. *)

(** ** Specification *)

Definition is_separator (c : Z) : bool :=
  negb (is_alnum c) && negb (c =? 47) && negb (c =? 35).

Definition is_token (t : text) : Prop :=
  Forall (λ c, is_hex c = true) t ∧ (length t = 2 ∨ length t = 4)%nat.

(** [renders glued s ts]: when [glued], a token has just ended and [s] must not
    go on with an alphanumeric character. *)
Inductive renders : bool → text → list text → Prop :=
| R_end glued : renders glued [] []
| R_separator glued c s ts :
    is_separator c = true → renders false s ts → renders glued (c :: s) ts
| R_line glued start body nl s ts :
    start = chars "//" ∨ start = chars "#" → Forall (λ c, is_newline c = false) body →
    is_newline nl = true → renders false s ts → renders glued (start ++ body ++ nl :: s) ts
| R_block glued body s ts :
    find_close body = None → renders false s ts →
    renders glued (chars "/*" ++ body ++ chars "*/" ++ s) ts
| R_token prefix token s ts :
    prefix = [] ∨ prefix = chars "0x" ∨ prefix = chars "0X" → is_token token →
    renders true s ts → renders false (prefix ++ token ++ s) (token :: ts).

(** The tokens are the words, or their bytes with the low byte first. *)
Definition spells (ts : list text) (words : list Z) : Prop :=
  (Forall (λ t, length t = 4%nat) ts ∧ map hex_int ts = words) ∨
  (Forall (λ t, length t = 2%nat) ts ∧ words_to_little_endian_bytes words = Ok (map hex_int ts)).

Definition block_words (b : FirmwareBlock) : list Z :=
  zlen (fb_words b) :: fb_address b / 65536 :: fb_address b mod 65536 :: fb_words b.

Definition boot_words (t : Sci8BootTable) : list Z :=
  bt_key t :: bt_reserved_words t ++ bt_entry_point t / 65536 :: bt_entry_point t mod 65536 ::
    concat (map block_words (bt_blocks t)) ++ [0].

Definition sized_block (b : FirmwareBlock) : Prop := block_ok b ∧ u16 (zlen (fb_words b)).

Record table_ok (t : Sci8BootTable) : Prop := {
  to_key : bt_key t = SCI8_KEY;
  to_reserved : zlen (bt_reserved_words t) = SCI8_RESERVED_WORDS;
  to_reserved_words : Forall u16 (bt_reserved_words t);
  to_entry : u32 (bt_entry_point t);
  to_nonempty : bt_blocks t ≠ [];
  to_blocks : Forall sized_block (bt_blocks t);
}.

(** ** Comments *)

Lemma find_close_unfold s :
  find_close s = match after_prefix (chars "*/") s with
                 | Some rest => Some rest
                 | None => match s with _ :: r => find_close r | [] => None end
                 end.
Proof. destruct s; cbn; repeat case_match; congruence. Qed.

Lemma find_close_length s r : find_close s = Some r → (length r < length s)%nat.
Proof.
  induction s as [|c s IH]; rewrite find_close_unfold; [done|].
  destruct (after_prefix _ _) as [x|] eqn:E.
  - intros [= <-]. apply after_prefix_spec in E. rewrite E. cbn. lia.
  - intros ?%IH. cbn. lia.
Qed.

Lemma find_close_app body s :
  find_close body = None → find_close (body ++ chars "*/" ++ s) = Some s.
Proof.
  induction body as [|c body IH]; [done|]. rewrite find_close_unfold.
  destruct (after_prefix _ _) eqn:E; [done|]. intros H. rewrite find_close_unfold.
  assert (after_prefix (chars "*/") ((c :: body) ++ chars "*/" ++ s) = None) as ->; [|by apply IH].
  cbn in *. destruct body; cbn in *; by repeat case_match.
Qed.

Lemma comment_at_line start body :
  start = chars "//" ∨ start = chars "#" →
  comment_at (start ++ body) = Some (drop_while (λ c, negb (is_newline c)) body).
Proof. by intros [-> | ->]. Qed.

Lemma comment_at_block body s :
  find_close body = None → comment_at (chars "/*" ++ body ++ chars "*/" ++ s) = Some s.
Proof.
  intros H. unfold comment_at. rewrite (proj2 (after_prefix_spec _ _ _) eq_refl).
  cbn [mbind option_bind]. by rewrite find_close_app.
Qed.

Lemma comment_at_length s r : comment_at s = Some r → (length r < length s)%nat.
Proof.
  unfold comment_at. destruct (after_prefix (chars "/*") s ≫= find_close) eqn:E.
  - intros [= <-]. apply bind_Some in E as (body & ->%after_prefix_spec & H%find_close_length).
    cbn. lia.
  - destruct (after_prefix (chars "//") s) as [body|] eqn:E2.
    + intros [= <-]. apply after_prefix_spec in E2 as ->.
      apply (Nat.le_lt_trans _ (length body)); [apply drop_while_length|cbn; lia].
    + intros (body & ->%after_prefix_spec & ->)%fmap_Some.
      apply (Nat.le_lt_trans _ (length body)); [apply drop_while_length|cbn; lia].
Qed.

Lemma strip_comments_fuel n s :
  (length s < n)%nat → strip_comments_loop n s = strip_comments s.
Proof.
  unfold strip_comments. intros Hn. assert (length s < S (length s))%nat as Hm by lia.
  revert Hm. generalize (S (length s)). intros m Hm. revert m s Hn Hm.
  induction n as [|n IH]; intros m s Hn Hm; [lia|]. destruct m as [|m]; [lia|]. cbn.
  destruct (comment_at s) as [r|] eqn:E.
  - apply comment_at_length in E. f_equal. apply IH; lia.
  - destruct s as [|c s]; [done|]. cbn in *. f_equal. apply IH; lia.
Qed.

Lemma strip_comment s r :
  comment_at s = Some r → strip_comments s = 32 :: strip_comments r.
Proof.
  intros E. pose proof (comment_at_length _ _ E). unfold strip_comments at 1. cbn.
  rewrite E. f_equal. apply strip_comments_fuel. lia.
Qed.

Lemma strip_plain c s :
  comment_at (c :: s) = None → strip_comments (c :: s) = c :: strip_comments s.
Proof.
  intros E. unfold strip_comments at 1. cbn [strip_comments_loop]. by rewrite E.
Qed.

Lemma no_comment c s : c ≠ 47 → c ≠ 35 → comment_at (c :: s) = None.
Proof.
  intros H1 H2. unfold comment_at. eval_chars. cbn [after_prefix].
  rewrite (proj2 (Z.eqb_neq 47 c)), (proj2 (Z.eqb_neq 35 c)) by done. done.
Qed.

Lemma strip_alnum p s :
  Forall (λ c, is_alnum c = true) p → strip_comments (p ++ s) = p ++ strip_comments s.
Proof.
  induction 1 as [|c p Hc _ IH]; [done|]. cbn [app]. rewrite strip_plain, IH; [done|].
  apply no_comment; intros ->; done.
Qed.

(** ** Tokens *)

Lemma digits_at_spec n t s :
  length t = n → Forall (λ c, is_hex c = true) t → starts_with is_alnum s = false →
  digits_at n (t ++ s) = Some (t, s).
Proof.
  intros <- Ht Hs. unfold digits_at. rewrite take_app_length, drop_app_length, Nat.eqb_refl, Hs.
  by rewrite (proj2 (forallb_forall _ _)) by (by apply List.Forall_forall).
Qed.

Lemma digits_at_inv n s t r :
  digits_at n s = Some (t, r) → s = t ++ r ∧ length t = n ∧ Forall (λ c, is_hex c = true) t ∧
    starts_with is_alnum r = false.
Proof.
  unfold digits_at. destruct (_ && _) eqn:E; [|done].
  apply andb_true_iff in E as [[E1 E2]%andb_true_iff E3%negb_true_iff]. intros [= <- <-].
  apply Nat.eqb_eq in E1. rewrite take_drop. split_and!; [done|done| |done].
  apply List.Forall_forall. by apply forallb_forall.
Qed.

Lemma token_body_spec t s :
  is_token t → starts_with is_alnum s = false → token_body (t ++ s) = Some (t, s).
Proof.
  intros [Hh [Hl|Hl]] Hs; unfold token_body.
  { by rewrite digits_at_spec. }
  rewrite (digits_at_spec 4) by done. destruct (digits_at 2 (t ++ s)) as [[u r]|] eqn:E; [|done].
  apply digits_at_inv in E as (E & Hu & _ & Hr). exfalso.
  destruct t as [|a [|b [|c t]]], u as [|? [|? [|]]]; cbn in Hl, Hu; try lia.
  cbn in E. injection E as <- <- <-. cbn in Hr. rewrite !Forall_cons in Hh.
  rewrite is_hex_alnum in Hr by apply Hh. done.
Qed.

Lemma token_body_inv s t r :
  token_body s = Some (t, r) → s = t ++ r ∧ is_token t ∧ starts_with is_alnum r = false.
Proof.
  unfold token_body, is_token. destruct (digits_at 2 s) as [m|] eqn:E; intros H; simplify_eq.
  - apply digits_at_inv in E as (? & ? & ? & ?). auto.
  - apply digits_at_inv in H as (? & ? & ? & ?). auto.
Qed.

Lemma after_0x_inv s r :
  after_0x s = Some r → s = chars "0x" ++ r ∨ s = chars "0X" ++ r.
Proof.
  unfold after_0x. destruct s as [|a [|b s]]; try done. destruct (_ && _) eqn:E; [|done].
  intros [= <-]. cbn. assert (a = 48) as -> by lia. assert (b = 120 ∨ b = 88) as [-> | ->] by lia; auto.
Qed.

Lemma token_at_spec p t s :
  p = [] ∨ p = chars "0x" ∨ p = chars "0X" → is_token t → starts_with is_alnum s = false →
  token_at (p ++ t ++ s) = Some (t, s).
Proof.
  intros Hp Ht Hs. pose proof (token_body_spec t s Ht Hs) as Hb. unfold token_at.
  destruct Hp as [-> | [-> | ->]].
  2: change (after_0x (chars "0x" ++ t ++ s)) with (Some (t ++ s)).
  3: change (after_0x (chars "0X" ++ t ++ s)) with (Some (t ++ s)).
  2,3: cbn [mbind option_bind]; by rewrite Hb.
  cbn [app].
  destruct (after_0x (t ++ s)) as [r|] eqn:E; [|by rewrite <-Hb].
  exfalso. destruct Ht as [Hh Hl]. destruct t as [|a [|b t]]; cbn in Hl; try lia.
  rewrite !Forall_cons in Hh. apply after_0x_inv in E as [E|E]; cbn in E; injection E as -> -> _;
    by destruct Hh as (_ & ? & _).
Qed.

Lemma token_at_inv s t r :
  token_at s = Some (t, r) → (length r < length s)%nat ∧ is_token t.
Proof.
  assert (∀ s, token_body s = Some (t, r) → (length r < length s)%nat ∧ is_token t) as Hb.
  { intros s' (-> & Ht & _)%token_body_inv. split; [|done]. rewrite length_app.
    destruct Ht as [_ [-> | ->]]; lia. }
  unfold token_at. destruct (after_0x s ≫= token_body) as [m|] eqn:E; [|by apply Hb].
  intros [= ->]. apply bind_Some in E as (s' & E & [H1 H2]%Hb). split; [|done].
  apply after_0x_inv in E as [-> | ->]; cbn; lia.
Qed.

(** The search with enough fuel *)
Definition scan (after_alnum : bool) (s : text) : list text :=
  find_tokens (S (length s)) after_alnum s.

Lemma find_tokens_fuel n b s : (length s < n)%nat → find_tokens n b s = scan b s.
Proof.
  unfold scan. intros Hn. assert (length s < S (length s))%nat as Hm by lia.
  revert Hm. generalize (S (length s)). intros m Hm. revert m b s Hn Hm.
  induction n as [|n IH]; intros m b s Hn Hm; [lia|]. destruct m as [|m]; [lia|]. cbn.
  destruct (if b then None else token_at s) as [[t r]|] eqn:E.
  - destruct b; [done|]. apply token_at_inv in E as [? _]. f_equal. apply IH; lia.
  - destruct s as [|c s]; [done|]. cbn in *. apply IH; lia.
Qed.

Lemma scan_token s t r : token_at s = Some (t, r) → scan false s = t :: scan true r.
Proof.
  intros E. pose proof (token_at_inv _ _ _ E) as [? _]. unfold scan at 1. cbn. rewrite E.
  f_equal. apply find_tokens_fuel. lia.
Qed.

Lemma scan_skip b c s :
  (b = false → token_at (c :: s) = None) → scan b (c :: s) = scan (is_alnum c) s.
Proof.
  intros E. unfold scan at 1. cbn [find_tokens].
  replace (if b then None else token_at (c :: s)) with (@None (text * text)).
  - apply find_tokens_fuel. cbn. lia.
  - destruct b; [done|]. by rewrite E.
Qed.

Lemma scan_separator b c s : is_alnum c = false → scan b (c :: s) = scan false s.
Proof.
  intros Hc. rewrite scan_skip, Hc; [done|]. intros _.
  assert (is_hex c = false) as Hh.
  { destruct (is_hex c) eqn:E; [|done]. by rewrite is_hex_alnum in Hc. }
  assert (token_body (c :: s) = None) as Hb.
  { unfold token_body, digits_at. cbn [take drop forallb]. by rewrite Hh, !andb_false_r. }
  unfold token_at. rewrite Hb. destruct (after_0x (c :: s)) as [r|] eqn:E; [|done].
  apply after_0x_inv in E as [E|E]; injection E as -> _; done.
Qed.

Lemma scan_tokens_ok b s : Forall is_token (scan b s).
Proof.
  unfold scan. generalize (S (length s)). intros n. revert b s.
  induction n as [|n IH]; intros b s; cbn; [constructor|].
  destruct (if b then None else token_at s) as [[t r]|] eqn:E.
  - destruct b; [done|]. apply token_at_inv in E as [_ ?]. by constructor.
  - destruct s; [constructor|apply IH].
Qed.

Lemma tokens_scan s : tokens s = scan false (strip_comments s).
Proof. done. Qed.

Lemma renders_starts s ts b :
  renders b s ts → b = true → starts_with is_alnum (strip_comments s) = false.
Proof.
  destruct 1 as [| ? c s ts Hc _|? start body nl s ts Hs Hb Hn _|? body s ts Hb _|]; intros Eb.
  - done.
  - unfold is_separator in Hc. rewrite strip_plain; cbn; [|apply no_comment; lia].
    destruct (is_alnum c); [done|done].
  - by erewrite strip_comment by by apply comment_at_line.
  - by erewrite strip_comment by by apply comment_at_block.
  - done.
Qed.

Lemma renders_scan b s ts : renders b s ts → scan b (strip_comments s) = ts.
Proof.
  induction 1 as [b|b c s ts Hc _ IH|b start body nl s ts Hs Hb Hn _ IH|b body s ts Hb _ IH
    |p t s ts Hp Ht Hr IH].
  - by destruct b.
  - unfold is_separator in Hc. rewrite strip_plain by (apply no_comment; lia).
    rewrite scan_separator; [done|]. by destruct (is_alnum c).
  - assert (comment_at (start ++ body ++ nl :: s) = Some (nl :: s)) as E.
    { rewrite comment_at_line by done. f_equal. apply drop_while_app; [|by cbn; rewrite Hn].
      eapply Forall_impl; [exact Hb|]. by intros c ->. }
    rewrite (strip_comment _ _ E), scan_separator by done.
    assert (is_alnum nl = false) by (unfold is_newline, is_alnum, is_digit, between in *; lia).
    rewrite strip_plain, scan_separator; [done|done|]. unfold is_newline in Hn. apply no_comment; lia.
  - by erewrite strip_comment, scan_separator by (done || by apply comment_at_block).
  - rewrite app_assoc, strip_alnum, <-app_assoc.
    + erewrite scan_token; [by f_equal|]. apply token_at_spec; [done..|].
      by eapply renders_starts.
    + apply Forall_app. split; [by destruct Hp as [-> | [-> | ->]]; repeat constructor|].
      eapply Forall_impl; [apply Ht|]. cbn. intros. by apply is_hex_alnum.
Qed.

Lemma renders_tokens s ts : renders false s ts → tokens s = ts.
Proof. apply renders_scan. Qed.

(** ** Words *)

Lemma byte_pairs_spec bs : byte_pairs bs = bytes_to_words bs.
Proof.
  enough (byte_pairs bs = bytes_to_words bs ∧ ∀ b, byte_pairs (b :: bs) = bytes_to_words (b :: bs))
    as [? _] by done.
  induction bs as [|b bs [IH1 IH2]]; [done|]. split; [done|]. intros a. cbn. by rewrite IH1.
Qed.

Lemma hex_bytes_words bs :
  Forall u8 bs → zlen bs mod 2 = 0 →
  words_to_little_endian_bytes (bytes_to_words bs) = Ok bs ∧ Forall u16 (bytes_to_words bs).
Proof.
  remember (length bs) as n eqn:Hn. revert bs Hn. induction (lt_wf n) as [n _ IH].
  intros [|lo [|hi bs]] -> Hu Hm; [done|by rewrite zlen_cons in Hm|].
  rewrite !Forall_cons in Hu. destruct Hu as (Hlo & Hhi & Hu).
  destruct (IH (length bs)) with (bs := bs) as [H1 H2]; [cbn; lia|done|done| |].
  { rewrite !zlen_cons in Hm. rewrite <-Hm. replace (1 + (1 + zlen bs)) with (zlen bs + 1 * 2) by lia.
    by rewrite Z.mod_add. }
  cbn. rewrite lor_shiftl_8 by done. unfold u8 in *.
  replace ((lo + hi * 256 <? 0) || (lo + hi * 256 >? 65535)) with false by lia. rewrite H1.
  split.
  - rewrite land_ff, shiftr_8. repeat f_equal; Z.to_euclidean_division_equations; lia.
  - constructor; [unfold u16; lia|done].
Qed.

Lemma hex_ints_bound n ts :
  Forall is_token ts → Forall (λ t : text, length t = n) ts →
  Forall (λ x, 0 <= x < 16 ^ Z.of_nat n) (map hex_int ts).
Proof.
  intros Ht Hn. apply List.Forall_map. rewrite List.Forall_forall in *. intros t Hin.
  rewrite <-(Hn t Hin). apply hex_int_bound, forallb_forall. intros c Hc.
  destruct (Ht t Hin) as [Hh _]. by apply List.Forall_forall with (x := c) in Hh.
Qed.

Lemma lengths_spec n ts :
  forallb (λ t : text, zlen t =? n) ts = true ↔ Forall (λ t : text, zlen t = n) ts.
Proof.
  rewrite forallb_forall, List.Forall_forall. by split; intros H t Ht%H; apply Z.eqb_eq.
Qed.

Lemma lengths_nat n m ts :
  n = Z.of_nat m → Forall (λ t : text, zlen t = n) ts ↔ Forall (λ t : text, length t = m) ts.
Proof. intros ->. split; intros H; (eapply Forall_impl; [exact H|]); unfold zlen; cbn; lia. Qed.

(** The words of a text: it has tokens and they spell the words. *)
Lemma parse_ascii_words_spec s words :
  parse_ascii_words s = Ok words ↔ tokens s ≠ [] ∧ spells (tokens s) words.
Proof.
  pose proof (scan_tokens_ok false (strip_comments s)) as Ht. rewrite <-tokens_scan in Ht.
  unfold parse_ascii_words, spells. set (ts := tokens s) in *.
  assert (ts ≠ [] → ¬ (Forall (λ t : text, zlen t = 4) ts ∧ Forall (λ t : text, zlen t = 2) ts))
    as Hd.
  { destruct ts as [|t ts']; [done|]. intros _. rewrite !Forall_cons. lia. }
  rewrite <-(lengths_nat 4 4 ts), <-(lengths_nat 2 2 ts) by done.
  destruct (decide (ts = [])) as [->|Hne]; [by split; [|intros [? _]]|].
  transitivity ((if forallb (λ t, zlen t =? 4) ts then Ok (map hex_int ts) else
      if negb (forallb (λ t, zlen t =? 2) ts)
      then sci8_error (Lit "SCI8 output mixes byte and word tokens") else
      if negb (zlen (map hex_int ts) mod 2 =? 0)
      then sci8_error (Lit "SCI8 byte stream has an odd byte count") else
      Ok (byte_pairs (map hex_int ts))) = Ok words); [by destruct ts|].
  specialize (Hd Hne). destruct (forallb _ ts) eqn:E4; [|destruct (forallb (λ t, _ =? 2) ts) eqn:E2].
  - apply lengths_spec in E4. split; [intros [= <-]; auto|].
    intros [_ [[_ ->]|[? _]]]; [done|tauto].
  - apply lengths_spec in E2. cbn [negb].
    pose proof (hex_ints_bound 2 ts Ht (proj1 (lengths_nat 2 2 ts eq_refl) E2)) as Hu.
    destruct (zlen _ mod 2 =? 0) eqn:Em; cbn [negb].
    + destruct (hex_bytes_words (map hex_int ts)) as [Hb _]; [done|lia|].
      rewrite byte_pairs_spec. split.
      * intros [= <-]. auto.
      * intros [_ [[? _]|[_ Hw]]]; [tauto|]. f_equal.
        destruct (words_to_bytes_ok words) as (bs & Hbs & _ & _ & <-); [by eapply words_to_bytes_inv|].
        by rewrite Hw in Hbs; injection Hbs as <-.
    + split; [done|]. intros [_ [[? _]|[_ Hw]]]; [tauto|].
      destruct (words_to_bytes_ok words) as (bs & Hbs & _ & Hl & _); [by eapply words_to_bytes_inv|].
      rewrite Hw in Hbs. injection Hbs as <-. rewrite Hl, Z.mul_comm, Z_mod_mult in Em. done.
  - assert (¬ Forall (λ t : text, zlen t = 2) ts) by (by rewrite <-lengths_spec, E2).
    assert (¬ Forall (λ t : text, zlen t = 4) ts) by (by rewrite <-lengths_spec, E4).
    split; [done|tauto].
Qed.

Lemma parse_ascii_words_u16 s words : parse_ascii_words s = Ok words → Forall u16 words.
Proof.
  intros [_ [[Hl <-]|[_ H]]]%parse_ascii_words_spec; [|by eapply words_to_bytes_inv].
  change (λ w, u16 w) with (λ w, 0 <= w < 16 ^ Z.of_nat 4).
  apply (hex_ints_bound 4); [|done]. rewrite tokens_scan. apply scan_tokens_ok.
Qed.

(** ** The boot table *)

Lemma word_pair x : Z.lor (Z.shiftl (x / 65536) 16) (x mod 65536) = x.
Proof.
  rewrite Z.lor_comm, lor_shiftl_16 by (apply Z.mod_pos_bound; lia).
  pose proof (Z.div_mod x 65536). lia.
Qed.

Lemma pair_word hi lo :
  u16 lo → let x := Z.lor (Z.shiftl hi 16) lo in x / 65536 = hi ∧ x mod 65536 = lo.
Proof.
  intros Hlo. cbn. rewrite Z.lor_comm, lor_shiftl_16 by done. unfold u16 in Hlo.
  Z.to_euclidean_division_equations; lia.
Qed.

(** One block of the table, at the index of its size *)
Lemma parse_blocks_step fuel pre b rest acc :
  sized_block b →
  parse_blocks (S fuel) (pre ++ block_words b ++ rest) (zlen pre) acc =
  parse_blocks fuel ((pre ++ block_words b) ++ rest) (zlen (pre ++ block_words b)) (acc ++ [b]).
Proof.
  intros [Hb Hs]. destruct b as [a ws]. unfold block_words. cbn [fb_address fb_words] in *.
  cbn [parse_blocks]. pose proof (zlen_nonneg ws). pose proof (zlen_nonneg rest).
  replace (zlen pre >=? _) with false by (autorewrite with zlen; lia).
  rewrite !(at_app_r pre) by lia. cbn [app].
  replace (zlen pre - zlen pre) with 0 by lia. replace (zlen pre + 1 - zlen pre) with 1 by lia.
  replace (zlen pre + 1 + 1 - zlen pre) with 2 by lia. at_simpl. rewrite word_pair.
  assert (zlen ws ≠ 0) by (intros E%zlen_0_inv; by destruct Hb as (_ & ? & _)).
  replace (zlen ws =? 0) with false by lia.
  replace (_ >? _) with false by (autorewrite with zlen; lia).
  change (_ :: _ :: _ :: ws ++ rest) with ([zlen ws; a / 65536; a mod 65536] ++ ws ++ rest).
  rewrite app_assoc, slice_app_middle by (autorewrite with zlen; lia).
  rewrite (proj2 (FirmwareBlock_init_ok a ws _)) by (split; [reflexivity|done]).
  rewrite <-!app_assoc. cbn [app]. f_equal. autorewrite with zlen. lia.
Qed.

Lemma parse_blocks_complete bs fuel pre tail acc :
  Forall sized_block bs → (length bs < fuel)%nat →
  parse_blocks fuel (pre ++ concat (map block_words bs) ++ 0 :: tail) (zlen pre) acc =
  Ok (zlen pre + zlen (concat (map block_words bs)) + 1, acc ++ bs).
Proof.
  intros Hbs. revert fuel pre acc. induction Hbs as [|b bs Hb _ IH]; intros fuel pre acc Hf.
  - destruct fuel as [|fuel]; [cbn in Hf; lia|]. cbn [map concat app parse_blocks].
    replace (_ >=? _) with false by (pose proof (zlen_nonneg tail); autorewrite with zlen; lia).
    rewrite at_app_r, Z.sub_diag by lia. at_simpl. rewrite app_nil_r. do 2 f_equal.
    unfold zlen. cbn. lia.
  - destruct fuel as [|fuel]; [cbn in Hf; lia|]. cbn [map concat]. rewrite <-app_assoc.
    rewrite parse_blocks_step by done. rewrite IH by (cbn in Hf; lia). rewrite <-app_assoc.
    f_equal. f_equal. autorewrite with zlen. lia.
Qed.

Lemma parse_blocks_sound fuel pre rest acc :
  Forall u16 rest → (length rest <= fuel)%nat →
  match parse_blocks fuel (pre ++ rest) (zlen pre) acc with
  | Ok (index, blocks) => ∃ bs tail, rest = concat (map block_words bs) ++ 0 :: tail ∧
      index = zlen pre + zlen (concat (map block_words bs)) + 1 ∧
      blocks = acc ++ bs ∧ Forall sized_block bs
  | Raise e => class_of e = Sci8ParseError
  end.
Proof.
  revert pre rest acc. induction fuel as [|fuel IH]; intros pre rest acc Hu Hf;
    (destruct rest as [|size rest]; [cbn [parse_blocks]; by rewrite app_nil_r, Z.geb_leb, Z.leb_refl|]);
    [cbn in Hf; lia|].
  apply Forall_cons in Hu as [Hs Hu]. destruct (Z.eq_dec size 0) as [->|Hz].
  { pose proof (parse_blocks_complete [] (S fuel) pre rest acc) as E. cbn [map concat app] in E.
    rewrite E by (done || cbn; lia). by exists [], rest. }
  destruct (decide (size + 2 <= zlen rest)) as [Hl|Hl].
  - destruct rest as [|hi [|lo rest]]; [unfold u16 in Hs; zlen_lia..|].
    rewrite !Forall_cons in Hu. destruct Hu as (Hhi & Hlo & Hu).
    set (ws := take (Z.to_nat size) rest). set (b := mkBlock (Z.lor (Z.shiftl hi 16) lo) ws).
    destruct (pair_word hi lo Hlo) as [E1 E2].
    assert (zlen ws = size) as Hws by (unfold ws; rewrite zlen_take, !zlen_cons in *; unfold u16 in Hs; lia).
    assert (size :: hi :: lo :: rest = block_words b ++ drop (Z.to_nat size) rest) as Er.
    { unfold block_words, b. cbn [fb_address fb_words]. rewrite E1, E2, Hws. cbn [app].
      unfold ws. by rewrite take_drop. }
    assert (sized_block b) as Hb.
    { split; [split|]; cbn [b fb_address fb_words].
      - unfold u32, u16 in *. rewrite Z.lor_comm, lor_shiftl_16 by done. lia.
      - split; [|by apply Forall_take]. intros E. rewrite E, zlen_nil in Hws. lia.
      - by rewrite Hws. }
    rewrite Er, parse_blocks_step by done.
    specialize (IH (pre ++ block_words b) (drop (Z.to_nat size) rest) (acc ++ [b])).
    destruct (parse_blocks _ _ _ _) as [[index blocks]|e].
    + destruct IH as (bs & tail & Et & -> & -> & Hbs);
        [by apply Forall_drop|rewrite length_drop; cbn in Hf; lia|].
      exists (b :: bs), tail. cbn [map concat]. rewrite Et, <-!app_assoc. split_and!; try done.
      * autorewrite with zlen. lia.
      * by constructor.
    + apply IH; [by apply Forall_drop|rewrite length_drop; cbn in Hf; lia].
  - cbn [parse_blocks]. replace (zlen pre >=? _) with false
      by (pose proof (zlen_nonneg rest); autorewrite with zlen; lia).
    rewrite at_app_r, Z.sub_diag by lia. at_simpl. replace (size =? 0) with false by lia.
    by replace (_ >? _) with true by (autorewrite with zlen; lia).
Qed.

Lemma parse_ascii_words_raises s e : parse_ascii_words s = Raise e → class_of e = Sci8ParseError.
Proof. unfold parse_ascii_words. by repeat case_match; intros [= <-]. Qed.

(** The fixed part of a table in front of its blocks *)
Lemma table_words (words : list Z) :
  12 <= zlen words → ∃ key reserved hi lo rest,
    words = (key :: reserved ++ [hi; lo]) ++ rest ∧ zlen reserved = 8.
Proof.
  intros Hl. destruct words as [|key words]; [by zlen_lia|].
  assert (zlen (take 8 words) = 8) as Ht by zlen_lia.
  destruct (drop 8 words) as [|hi [|lo rest]] eqn:E.
  1,2: apply (f_equal length) in E; rewrite length_drop in E; unfold zlen in *; cbn in *; lia.
  exists key, (take 8 words), hi, lo, rest. split; [|done].
  rewrite <-(take_drop 8 words) at 1. rewrite E. cbn [app]. by rewrite <-app_assoc.
Qed.

(** What [parse_sci8_text] reads in the fixed part *)
Lemma table_fields key reserved hi lo rest :
  zlen reserved = 8 → let words := (key :: reserved ++ [hi; lo]) ++ rest in
  at_ words 0 = key ∧ slice words 1 9 = reserved ∧ at_ words 9 = hi ∧ at_ words 10 = lo ∧
  zlen (key :: reserved ++ [hi; lo]) = 11.
Proof.
  intros Hr words. split_and!.
  - done.
  - unfold words. change (key :: ?l) with ([key] ++ l). rewrite <-!app_assoc.
    apply slice_app_middle; [done|by rewrite Hr].
  - unfold words. cbn [app]. rewrite at_cons by done. rewrite <-app_assoc, at_app_r by lia. by rewrite Hr.
  - unfold words. cbn [app]. rewrite at_cons by done. rewrite <-app_assoc, at_app_r by lia. by rewrite Hr.
  - autorewrite with zlen. lia.
Qed.

Lemma parse_sci8_sound s :
  match parse_sci8_text s with
  | Ok t => table_ok t ∧ parse_ascii_words s = Ok (boot_words t)
  | Raise e => class_of e = Sci8ParseError
  end.
Proof.
  unfold parse_sci8_text. destruct (parse_ascii_words s) as [words|e] eqn:E;
    [|by eapply parse_ascii_words_raises].
  apply parse_ascii_words_u16 in E as Hu.
  destruct (zlen words <? _) eqn:El; [done|].
  destruct (table_words words) as (key & reserved & hi & lo & rest & -> & Hr);
    [unfold SCI8_RESERVED_WORDS in El; lia|].
  destruct (table_fields key reserved hi lo rest Hr) as (-> & -> & -> & -> & Hpre).
  destruct (negb (key =? _)) eqn:Ek; [done|]. apply Forall_app in Hu as [Hu Hrest].
  apply Forall_cons in Hu as [_ [Hur Hhl]%Forall_app].
  rewrite !Forall_cons in Hhl. destruct Hhl as (Hhi & Hlo & _).
  pose proof (parse_blocks_sound (length ((key :: reserved ++ [hi; lo]) ++ rest))
    (key :: reserved ++ [hi; lo]) rest [] Hrest) as Hp.
  change (1 + SCI8_RESERVED_WORDS + 2) with 11. rewrite Hpre in Hp.
  destruct (parse_blocks _ _ _ _) as [[index blocks]|e];
    [|apply Hp; rewrite length_app; lia].
  destruct Hp as (bs & tail & -> & -> & -> & Hbs); [rewrite length_app; lia|].
  destruct (negb (_ =? zlen _)) eqn:Ee; [done|]. destruct (zlen _ =? 0) eqn:Eb; [done|].
  assert (tail = []) as -> by (apply zlen_0_inv; rewrite !zlen_app, Hpre in Ee; zlen_lia).
  destruct (pair_word hi lo Hlo) as [E1 E2]. split.
  - split; cbn; try done; [lia| |by intros ->].
    unfold u32, u16 in *. rewrite Z.lor_comm, lor_shiftl_16 by done. lia.
  - unfold boot_words. cbn [bt_key bt_reserved_words bt_entry_point bt_blocks]. rewrite E1, E2.
    cbn [app]. by rewrite <-app_assoc.
Qed.

Lemma parse_sci8_complete s t :
  table_ok t → parse_ascii_words s = Ok (boot_words t) → parse_sci8_text s = Ok t.
Proof.
  intros [Hk Hr Hur He Hne Hbs] Hw. unfold parse_sci8_text. rewrite Hw.
  destruct t as [key reserved entry blocks]. unfold boot_words.
  cbn [bt_key bt_reserved_words bt_entry_point bt_blocks] in *. subst key.
  set (hi := entry / 65536). set (lo := entry mod 65536).
  replace (SCI8_KEY :: reserved ++ hi :: lo :: concat (map block_words blocks) ++ [0])
    with ((SCI8_KEY :: reserved ++ [hi; lo]) ++ concat (map block_words blocks) ++ [0])
    by (cbn [app]; by rewrite <-app_assoc).
  destruct (table_fields SCI8_KEY reserved hi lo (concat (map block_words blocks) ++ [0]) Hr)
    as (-> & -> & -> & -> & Hpre).
  set (pre := SCI8_KEY :: reserved ++ [hi; lo]) in *.
  pose proof (zlen_nonneg (concat (map block_words blocks))).
  replace (zlen (pre ++ _) <? _) with false
    by (unfold SCI8_RESERVED_WORDS; rewrite !zlen_app, Hpre; zlen_lia).
  change (1 + SCI8_RESERVED_WORDS + 2) with 11. rewrite <-Hpre, Z.eqb_refl. cbn [negb].
  rewrite parse_blocks_complete; [|done|].
  - rewrite (proj2 (Z.eqb_eq _ _)) by (autorewrite with zlen; lia). cbn [negb app].
    destruct (zlen blocks =? 0) eqn:E; [by apply Z.eqb_eq, zlen_0_inv in E|].
    unfold hi, lo. by rewrite word_pair.
  - rewrite !length_app. cbn [length]. cut (length blocks <= length (concat (map block_words blocks)))%nat; [lia|].
    clear. induction blocks as [|b bs IH]; [done|]. cbn [map concat]. rewrite length_app. cbn. lia.
Qed.

Lemma spells_nothing words : spells [] words → words = [].
Proof.
  intros [[_ H]|[_ H]]; [done|]. destruct words as [|w words]; [done|]. cbn in H.
  destruct (_ || _); [done|]. by destruct (words_to_little_endian_bytes words).
Qed.

(** C22: The SCI8 parser is exact.  On a text that spells the tokens [ts] with
    any separators and comments, [parse_sci8_text] returns the table [t]
    exactly when [t] is a well-formed non-empty boot table whose words the
    tokens spell (as four-digit words, or as two-digit bytes with the low byte
    first), so parsing inverts printing; in every other case it raises
    [Sci8ParseError] and nothing else.  The texts are those made of tokens,
    separators and comments: a text with other words, which the parser skips
    without a complaint, is outside the statement. *)
Theorem sci8_text_exact s ts (Hs : renders false s ts) :
  (∀ t, parse_sci8_text s = Ok t ↔ table_ok t ∧ spells ts (boot_words t)) ∧
  (∀ e, parse_sci8_text s = Raise e → class_of e = Sci8ParseError).
Proof.
  rewrite <-(renders_tokens s ts Hs). pose proof (parse_sci8_sound s) as Hp. split.
  - intros t. split.
    + intros E. rewrite E in Hp. destruct Hp as [Ht [_ ?]%parse_ascii_words_spec]. done.
    + intros [Ht Hw]. apply parse_sci8_complete; [done|]. apply parse_ascii_words_spec.
      split; [|done]. intros E. rewrite E in Hw. by apply spells_nothing in Hw.
  - intros e E. by rewrite E in Hp.
Qed.

(** ** An example *)

(** Spell a literal text. *)
Ltac render_token prefix token s :=
  apply (R_token prefix token s);
    [tauto|split; [repeat constructor|(left; reflexivity) || (right; reflexivity)]|].

Ltac render_step :=
  match goal with
  | |- renders _ [] [] => apply R_end
  | |- renders _ (?c :: ?s) _ => apply (R_separator _ c s); [reflexivity|]
  | |- renders false (?z :: ?x :: ?a :: ?b :: ?s) ([?a; ?b] :: _) => render_token [z; x] [a; b] s
  | |- renders false (?a :: ?b :: ?s) ([?a; ?b] :: _) => render_token (@nil Z) [a; b] s
  | |- renders false (?a :: ?b :: ?c :: ?d :: ?s) ([?a; ?b; ?c; ?d] :: _) =>
      render_token (@nil Z) [a; b; c; d] s
  end.

Definition example_table : Sci8BootTable :=
  mkBootTable SCI8_KEY (replicate 8 0) 0x082400 [mkBlock 0x082400 [0x1234; 0xABCD]].

Definition example_text : text :=
  chars "08AA 0000 0000 0000 0000 0000 0000 0000 0000, 0008 2400; 0002 0008 2400 1234 abCD 0000".

Lemma example_table_ok : table_ok example_table.
Proof.
  split; try done; [by apply (bool_decide_unpack _)|].
  apply Forall_singleton. split; [split; [done|split; [done|]]|done]. by apply (bool_decide_unpack _).
Qed.

Lemma sci8_text_exact_witness :
  ∃ ts, renders false example_text ts ∧ table_ok example_table ∧ spells ts (boot_words example_table) ∧
    parse_sci8_text example_text = Ok example_table.
Proof.
  pose (ts := tokens example_text). vm_compute in ts.
  assert (renders false example_text ts) as H.
  { let v := eval vm_compute in example_text in change example_text with v. subst ts.
    repeat render_step. }
  exists ts. assert (spells ts (boot_words example_table)) as Hw.
  { left. split; [repeat constructor|reflexivity]. }
  split; [exact H|]. split; [exact example_table_ok|]. split; [exact Hw|].
  apply (sci8_text_exact example_text ts H). split; [exact example_table_ok|exact Hw].
Defined.

(** ** Images *)

(** What [build_firmware_image] returns can be validated and programmed. *)
Lemma build_firmware_image_ok source generated raw image :
  build_firmware_image source generated raw = Ok image →
  FirmwareImage_ok image ∧ Forall block_ok (fi_blocks image) ∧
  fi_file_checksum image = sha256_hexdigest raw ∧
  ∃ t, parse_sci8_text raw = Ok t ∧ table_ok t ∧
    fi_entry_point image = bt_entry_point t ∧ fi_blocks image = bt_blocks t.
Proof.
  unfold build_firmware_image, decode_ascii. destruct (forallb _ raw); [|done].
  pose proof (parse_sci8_sound raw) as Hp. destruct (parse_sci8_text raw) as [t|]; [|done].
  destruct Hp as [Ht _]. intros H. apply FirmwareImage_init_ok in H as Hi.
  destruct Hi as (Hok & Hb & He). split; [done|]. rewrite Hb. split_and!.
  - eapply Forall_impl; [apply (to_blocks _ Ht)|]. by intros b [? _].
  - unfold FirmwareImage_init in H. repeat case_match; simplify_eq; done.
  - by exists t.
Qed.
