(* ===== verification/Targets.v ===== *)
(** Targets and prepared images: the profiles of targets/, then the models and
    the preparation of images/. *)

(** * Target profiles

    Command sets, memory maps and profiles of the targets (targets/), with the
    CPU1 profile of the tool and the minimal profile of target discovery. *)

From S2P Require Import Prelude.
From S2P Require Import Errors.
From S2P Require Import Constants.
From S2P Require Import Words.
From S2P Require Import Models.
From S2P Require Import Firmware.
From S2P Require Import Packets.
From S2P Require Import TiMap.
From S2P Require Import ServiceImage.

(** ** Command sets (targets/command_sets.py) *)

(** The fields of [CommandSet]. *)
Inductive CommandField : Set :=
| ping | get_device_info | get_protocol_info | get_last_error | get_service_status
| service_attach | ram_load_begin | ram_load_data | ram_load_end | ram_check_crc | run_ram
| erase | program_begin | program_data | program_end | verify_begin | verify_data | verify_end
| memory_read | get_metadata_summary | metadata_append_record | run | reset
| boot_cpu2_run_cpu1 | boot_cpu2_reset_cpu1.

#[export] Instance CommandField_eq_dec : EqDecision CommandField.
Proof. solve_decision. Defined.

(** A command set gives each field a command or None. *)
Definition CommandSet : Type := CommandField → option Z.

(** The name of a field, as [getattr] sees it. *)
Definition field_name (field : CommandField) : string :=
  match field with
  | ping => "ping" | get_device_info => "get_device_info"
  | get_protocol_info => "get_protocol_info" | get_last_error => "get_last_error"
  | get_service_status => "get_service_status" | service_attach => "service_attach"
  | ram_load_begin => "ram_load_begin" | ram_load_data => "ram_load_data"
  | ram_load_end => "ram_load_end" | ram_check_crc => "ram_check_crc" | run_ram => "run_ram"
  | erase => "erase" | program_begin => "program_begin" | program_data => "program_data"
  | program_end => "program_end" | verify_begin => "verify_begin" | verify_data => "verify_data"
  | verify_end => "verify_end" | memory_read => "memory_read"
  | get_metadata_summary => "get_metadata_summary"
  | metadata_append_record => "metadata_append_record" | run => "run" | reset => "reset"
  | boot_cpu2_run_cpu1 => "boot_cpu2_run_cpu1" | boot_cpu2_reset_cpu1 => "boot_cpu2_reset_cpu1"
  end.

Definition require_command (command_set : CommandSet) (field : CommandField) : Res Z :=
  match command_set field with
  | Some command => Ok command
  | None => Raise (Err UnsupportedOperationError
                     (Fmt "unsupported command: {}" [VStr (field_name field)]))
  end.

(** ** Memory maps (targets/memory_map.py) *)

Module MemoryMap.
Record AddressRange : Set := mkAddressRange { start : Z; end_exclusive : Z }.

Definition AddressRange_post_init (r : AddressRange) : Res AddressRange :=
  fail (Err ValueError (Lit "invalid address range"))
    when (start r <? 0) || (end_exclusive r <=? start r) ;;
  Ok r.

Definition contains (r : AddressRange) (address : Z) : bool :=
  (start r <=? address) && (address <? end_exclusive r).

Definition contains_range (r : AddressRange) (address word_count : Z) : bool :=
  (word_count >? 0) && (start r <=? address) && (address + word_count <=? end_exclusive r).
End MemoryMap.

Record FlashSector : Type := mkFlashSector {
  sec_sector_id : string;
  sec_start : Z;
  sec_end_exclusive : Z;
  sec_bit_index : Z;
}.

Definition FlashSector_post_init (s : FlashSector) : Res FlashSector :=
  fail (Err ValueError (Lit "sector_id must be a non-empty string"))
    when bool_decide (sec_sector_id s = EmptyString) ;;
  fail (Err ValueError (Lit "start must be a non-negative integer")) when sec_start s <? 0 ;;
  fail (Err ValueError (Lit "end_exclusive must be an integer greater than start"))
    when sec_end_exclusive s <=? sec_start s ;;
  fail (Err ValueError (Lit "bit_index must be a non-negative integer"))
    when sec_bit_index s <? 0 ;;
  Ok s.

Record FlashLayout : Type := mkFlashLayout {
  fl_app_ranges : list MemoryMap.AddressRange;
  fl_allowed_erase_mask : Z;
  fl_forbidden_erase_mask : Z;
  fl_metadata_sector_mask : Z;
  fl_sectors : list FlashSector;
}.

(** [any(left.end_exclusive > right.start for left, right in zip(l, l[1:]))] *)
Fixpoint sectors_overlap (l : list FlashSector) : bool :=
  match l with
  | s1 :: l =>
      match l with
      | s2 :: _ => (sec_end_exclusive s1 >? sec_start s2) || sectors_overlap l
      | [] => false
      end
  | [] => false
  end.

Definition FlashLayout_post_init (f : FlashLayout) : Res FlashLayout :=
  fail (Err ValueError (Lit "sector IDs must be unique"))
    when negb (bool_decide (NoDup (map sec_sector_id (fl_sectors f)))) ;;
  fail (Err ValueError (Lit "sector bit indexes must be unique"))
    when negb (bool_decide (NoDup (map sec_bit_index (fl_sectors f)))) ;;
  fail (Err ValueError (Lit "sector address ranges must not overlap"))
    when sectors_overlap (sorted_by sec_start (fl_sectors f)) ;;
  Ok f.

Record RamLayout : Type := mkRamLayout {
  rl_service_ranges : list MemoryMap.AddressRange;
  rl_ram_app_ranges : list MemoryMap.AddressRange;
  rl_reserved_ranges : list MemoryMap.AddressRange;
}.

Record MetadataLayout : Type := mkMetadataLayout {
  ml_range : MemoryMap.AddressRange;
  ml_sector_mask : Z;
  ml_record_alignment_words : Z;
}.

Record TargetMemoryMap : Type := mkMemoryMap {
  mp_flash : option FlashLayout;
  mp_ram : option RamLayout;
  mp_metadata : option MetadataLayout;
}.

(** ** Profiles (targets/profiles.py) *)

Record TargetProfile : Type := mkProfile {
  tp_name : string;
  tp_cpu_id : Z;
  tp_command_set : CommandSet;
  tp_memory_map : TargetMemoryMap;
}.

(** ** CPU1 (targets/cpu1.py) *)

Definition CPU1_COMMAND_SET : CommandSet := λ field,
  match field with
  | ping => Some (Command.Command_value Command.PING)
  | get_device_info => Some (Command.Command_value Command.GET_DEVICE_INFO)
  | get_protocol_info => Some (Command.Command_value Command.GET_PROTOCOL_INFO)
  | get_last_error => Some (Command.Command_value Command.GET_LAST_ERROR)
  | get_service_status => Some (Command.Command_value Command.GET_SERVICE_STATUS)
  | service_attach => Some (Command.Command_value Command.SERVICE_ATTACH)
  | ram_load_begin => Some (Command.Command_value Command.RAM_LOAD_BEGIN)
  | ram_load_data => Some (Command.Command_value Command.RAM_LOAD_DATA)
  | ram_load_end => Some (Command.Command_value Command.RAM_LOAD_END)
  | ram_check_crc => Some (Command.Command_value Command.RAM_CHECK_CRC)
  | run_ram => Some (Command.Command_value Command.RUN_RAM)
  | erase => Some (Command.Command_value Command.ERASE)
  | program_begin => Some (Command.Command_value Command.PROGRAM_BEGIN)
  | program_data => Some (Command.Command_value Command.PROGRAM_DATA)
  | program_end => Some (Command.Command_value Command.PROGRAM_END)
  | verify_begin => Some (Command.Command_value Command.VERIFY_BEGIN)
  | verify_data => Some (Command.Command_value Command.VERIFY_DATA)
  | verify_end => Some (Command.Command_value Command.VERIFY_END)
  | memory_read => Some (Command.Command_value Command.MEMORY_READ)
  | get_metadata_summary => Some (Command.Command_value Command.GET_METADATA_SUMMARY)
  | metadata_append_record => Some (Command.Command_value Command.METADATA_APPEND_RECORD)
  | run => Some (Command.Command_value Command.RUN)
  | reset => Some (Command.Command_value Command.RESET)
  | boot_cpu2_run_cpu1 | boot_cpu2_reset_cpu1 => None
  end.

(** [chr(ord("A") + bit)] *)
Definition sector_letter (bit : Z) : string :=
  String (Ascii.ascii_of_nat (65 + Z.to_nat bit)) EmptyString.

Definition CPU1_MEMORY_MAP : TargetMemoryMap :=
  mkMemoryMap
    (Some (mkFlashLayout
       [MemoryMap.mkAddressRange APP_FLASH_START APP_FLASH_END_EXCLUSIVE]
       ALLOWED_ERASE_MASK 0x00000001 METADATA_SECTOR_MASK
       (map (λ s, mkFlashSector (sector_letter s.2) s.1.1 s.1.2 s.2) SECTORS)))
    (Some (mkRamLayout [MemoryMap.mkAddressRange 0x010000 0x01BFF8]
       (map (λ r, MemoryMap.mkAddressRange (ar_start r) (ar_end_exclusive r)) RAM_WRITE_RANGES) []))
    (Some (mkMetadataLayout
       (MemoryMap.mkAddressRange SLOT_A_METADATA_START SLOT_A_METADATA_END)
       METADATA_SECTOR_MASK 8)).

Definition CPU1_PROFILE : TargetProfile :=
  mkProfile "TMS320F28377D CPU1" (CpuId.CpuId_value CpuId.CPU1) CPU1_COMMAND_SET CPU1_MEMORY_MAP.

(** ** CPU2 (targets/cpu2.py) and discovery (targets/discovery.py) *)

Definition CPU2_COMMAND_SET : CommandSet := λ _, None.
Definition CPU2_MEMORY_MAP : TargetMemoryMap := mkMemoryMap None None None.
Definition CPU2_PROFILE : TargetProfile :=
  mkProfile "TMS320F28377D CPU2" (CpuId.CpuId_value CpuId.CPU2) CPU2_COMMAND_SET CPU2_MEMORY_MAP.

Definition DISCOVERY_COMMAND_SET : CommandSet := λ field,
  match field with
  | get_device_info => Some (Command.Command_value Command.GET_DEVICE_INFO)
  | get_protocol_info => Some (Command.Command_value Command.GET_PROTOCOL_INFO)
  | _ => None
  end.
Definition DISCOVERY_MEMORY_MAP : TargetMemoryMap := mkMemoryMap None None None.
Definition DISCOVERY_PROFILE : TargetProfile :=
  mkProfile "TMS320F28377D target discovery" (CpuId.CpuId_value CpuId.UNKNOWN)
    DISCOVERY_COMMAND_SET DISCOVERY_MEMORY_MAP.

(** [target_profile_for_key] *)
Definition target_profile_for_key (target_key : string) : option TargetProfile :=
  if bool_decide (target_key = "cpu1") then Some CPU1_PROFILE
  else if bool_decide (target_key = "cpu2") then Some CPU2_PROFILE
  else None.

(** The CPU1 layout passes its own checks. *)
Lemma CPU1_flash_ok :
  ∃ flash, mp_flash CPU1_MEMORY_MAP = Some flash ∧ FlashLayout_post_init flash = Ok flash ∧
    Forall (λ s, FlashSector_post_init s = Ok s) (fl_sectors flash).
Proof.
  eexists. split; [reflexivity|]. split; [vm_compute; reflexivity|].
  repeat (apply Forall_cons; split; [vm_compute; reflexivity|]). constructor.
Qed.

(** * Prepared images (images/)

    The prepared image models of images/models.py, the admission checks and
    the preparation of Flash, RAM and service images (images/flash_image.py,
    images/ram_image.py, images/service_image.py) and the comparison of an
    image with the metadata of the device (images/identity.py).  Reading the
    firmware file (with hex2000) and the TI map file is outside the model: the
    functions take the parsed [FirmwareImage] and the parsed symbols. *)

(** ** Models *)

(** [type(value) is not int or value < 0] raises. *)
Definition non_negative_int (value : Z) (name : string) : Res unit :=
  fail (Err ValueError (Fmt "{} must be a non-negative integer" [VStr name])) when value <? 0 ;;
  Ok tt.

Record ImageIdentity : Set := mkImageIdentity {
  ii_entry_point : Z;
  ii_image_size_words : Z;
  ii_image_crc32 : Z;
  ii_app_end : Z;
}.

#[export] Instance ImageIdentity_eq_dec : EqDecision ImageIdentity.
Proof. solve_decision. Defined.

Record RamImageIdentity : Set := mkRamImageIdentity {
  ri_entry_point : Z;
  ri_total_words : Z;
  ri_image_crc32 : Z;
}.

#[export] Instance RamImageIdentity_eq_dec : EqDecision RamImageIdentity.
Proof. solve_decision. Defined.

Definition RamImageIdentity_post_init (i : RamImageIdentity) : Res RamImageIdentity :=
  let? _ := non_negative_int (ri_entry_point i) "entry_point" in
  let? _ := non_negative_int (ri_total_words i) "total_words" in
  let? _ := non_negative_int (ri_image_crc32 i) "image_crc32" in
  Ok i.

(** [generated_sci8_txt] is the path of a kept file and not modelled. *)
Record PreparedFlashImage : Type := mkPreparedFlash {
  pf_image : FirmwareImage;
  pf_identity : ImageIdentity;
  pf_sector_mask : Z;
}.

Record PreparedRamImage : Type := mkPreparedRam {
  pr_image : FirmwareImage;
  pr_entry_point : Z;
  pr_total_words : Z;
  pr_image_crc32 : Z;
}.

Record PreparedServiceImage : Type := mkPreparedService {
  sv_image : FirmwareImage;
  sv_header_address : Z;
  sv_total_words : Z;
  sv_expected_crc32 : Z;
  sv_required_capabilities : Z;
}.

(** ** Address checks *)

(** [_inside_any] *)
Definition inside_any_range (start end_exclusive : Z) (ranges : list MemoryMap.AddressRange)
    : bool :=
  existsb (λ item, MemoryMap.contains_range item start (end_exclusive - start)) ranges.

(** [_overlaps] *)
Definition overlaps_any (start end_exclusive : Z) (ranges : list MemoryMap.AddressRange) : bool :=
  existsb (λ item, (start <? MemoryMap.end_exclusive item)
                   && (end_exclusive >? MemoryMap.start item)) ranges.

(** ** Flash images *)

Definition check_flash_block (flash : FlashLayout) (metadata : MetadataLayout)
    (block : FirmwareBlock) : Res unit :=
  fail (Err ValueError (Lit "Flash App block is outside target app ranges"))
    when negb (inside_any_range (fb_address block) (fb_end_exclusive block)
                 (fl_app_ranges flash)) ;;
  fail (Err ValueError (Lit "Flash App block overlaps metadata range"))
    when MemoryMap.contains_range (ml_range metadata) (fb_address block) (zlen (fb_words block)) ;;
  Ok tt.

(** [prepare_flash_app_image], from the parsed image on *)
Definition prepare_flash_app_image (target : TargetProfile) (image : FirmwareImage)
    : Res PreparedFlashImage :=
  match mp_flash (tp_memory_map target), mp_metadata (tp_memory_map target) with
  | Some flash, Some metadata =>
      fail (Err ValueError (Lit "Flash App entry point is outside target app ranges"))
        when negb (inside_any_range (fi_entry_point image) (fi_entry_point image + 1)
                     (fl_app_ranges flash)) ;;
      fail (Err ValueError (Lit "Flash App entry point must be 8-word aligned"))
        when negb (fi_entry_point image mod 8 =? 0) ;;
      let? _ := forR (check_flash_block flash metadata) (fi_blocks image) in
      let sector_mask := image_sector_mask image in
      fail (Err ValueError (Lit "image does not touch any known Flash sector"))
        when sector_mask =? 0 ;;
      fail (Err ValueError (Lit "image requires a forbidden erase sector"))
        when negb (Z.land sector_mask (fl_forbidden_erase_mask flash) =? 0) ;;
      fail (Err ValueError (Lit "image requires a sector outside target erase mask"))
        when negb (Z.land sector_mask (Z.lnot (fl_allowed_erase_mask flash)) =? 0) ;;
      let? size_end := programmed_image_size_and_end image 248 in
      let? crc := calculate_programmed_image_crc32 image 248 in
      Ok (mkPreparedFlash image
            (mkImageIdentity (fi_entry_point image) size_end.1 crc size_end.2)
            (Z.lor sector_mask (fl_metadata_sector_mask flash)))
  | _, _ => Raise (Err ValueError (Lit "target must define flash and metadata layouts"))
  end.

(** ** RAM images *)

Definition check_ram_block (ram : RamLayout) (block : FirmwareBlock) : Res unit :=
  fail (Err ValueError (Lit "RAM App block is outside target RAM app ranges"))
    when negb (inside_any_range (fb_address block) (fb_end_exclusive block)
                 (rl_ram_app_ranges ram)) ;;
  fail (Err ValueError (Lit "RAM App block overlaps reserved RAM"))
    when overlaps_any (fb_address block) (fb_end_exclusive block) (rl_reserved_ranges ram) ;;
  fail (Err ValueError (Lit "RAM App block overlaps service RAM"))
    when overlaps_any (fb_address block) (fb_end_exclusive block) (rl_service_ranges ram) ;;
  Ok tt.

Definition validate_ram_app_image (image : FirmwareImage) (ram : RamLayout) : Res unit :=
  fail (Err ValueError (Lit "RAM App entry point is outside target RAM app ranges"))
    when negb (inside_any_range (fi_entry_point image) (fi_entry_point image + 1)
                 (rl_ram_app_ranges ram)) ;;
  forR (check_ram_block ram) (fi_blocks image).

(** [prepare_ram_app_image], from the parsed image on *)
Definition prepare_ram_app_image (target : TargetProfile) (image : FirmwareImage)
    : Res PreparedRamImage :=
  match mp_ram (tp_memory_map target) with
  | Some ram =>
      let? _ := validate_ram_app_image image ram in
      let? crc := calculate_ram_image_crc32 image 248 in
      Ok (mkPreparedRam image (fi_entry_point image) (fi_total_words image) crc)
  | None => Raise (Err ValueError (Lit "target must define a RAM layout"))
  end.

(** ** Service images *)

(** The addresses a service image occupies, as [(start, end)] pairs. *)
Definition symbol_ranges (symbols : TiMapSymbols) : list (Z * Z) :=
  [(ts_header_address symbols, ts_header_address symbols + SERVICE_HEADER_WORDS);
   (ts_publish_state_address symbols, ts_publish_state_address symbols + 2);
   (ts_runtime_state_address symbols, ts_runtime_state_address symbols + 1);
   (ts_app_export_address symbols, ts_app_export_address symbols + 2);
   (ts_immutable_start symbols, ts_immutable_end_exclusive symbols);
   (ts_boot_init_address symbols, ts_boot_init_address symbols + 1);
   (ts_boot_handle_command_address symbols, ts_boot_handle_command_address symbols + 1);
   (ts_confirm_current_image_address symbols, ts_confirm_current_image_address symbols + 1)].

Definition check_service_block (ram : RamLayout) (block : FirmwareBlock) : Res unit :=
  fail (Err ValueError (Lit "service image block is outside target service RAM"))
    when negb (inside_any_range (fb_address block) (fb_end_exclusive block)
                 (rl_service_ranges ram)) ;;
  fail (Err ValueError (Lit "service image block overlaps reserved RAM"))
    when overlaps_any (fb_address block) (fb_end_exclusive block) (rl_reserved_ranges ram) ;;
  Ok tt.

(** [prepare_service_image], from the parsed image and symbols on *)
Definition prepare_service_image (target : TargetProfile) (image : FirmwareImage)
    (symbols : TiMapSymbols) (required_capabilities : Z) : Res PreparedServiceImage :=
  match mp_ram (tp_memory_map target) with
  | Some ram =>
      fail (Err ValueError (Lit "service map symbol is outside target service RAM"))
        when existsb (λ '(start, stop), negb (inside_any_range start stop (rl_service_ranges ram))
                                        || overlaps_any start stop (rl_reserved_ranges ram))
               (symbol_ranges symbols) ;;
      let? _ := forR (check_service_block ram) (fi_blocks image) in
      let? patched := patch_flash_service_image image symbols required_capabilities in
      let? expected_crc32 := calculate_service_ram_load_crc32 patched 248 in
      Ok (mkPreparedService patched (ts_header_address symbols) (fi_total_words patched)
            expected_crc32 required_capabilities)
  | None => Raise (Err ValueError (Lit "target must define a RAM layout"))
  end.

(** ** Comparison with the metadata of the device *)

Record ImageMetadataComparison : Type := mkComparison {
  cmp_same_image : bool;
  cmp_metadata_valid : bool;
  cmp_mismatches : list string;
  cmp_reason : option string;
}.

(** The fields that are compared, with their values on both sides. *)
Definition identity_fields (identity : ImageIdentity) (metadata : MetadataSummary)
    : list (string * Z * Z) :=
  [("entry_point"%string, ii_entry_point identity, ms_entry_point metadata);
   ("image_size_words"%string, ii_image_size_words identity, ms_image_size_words metadata);
   ("image_crc32"%string, ii_image_crc32 identity, ms_image_crc32 metadata)].

Definition compare_image_identity_with_metadata (image_identity : ImageIdentity)
    (metadata_summary : MetadataSummary) : ImageMetadataComparison :=
  if ms_metadata_valid metadata_summary =? 0
  then mkComparison false false [] (Some "METADATA_INVALID"%string)
  else
    let mismatches := map (λ f, f.1.1)
      (List.filter (λ f, negb (f.1.2 =? f.2)) (identity_fields image_identity metadata_summary)) in
    match mismatches with
    | _ :: _ => mkComparison false true mismatches (Some "IMAGE_IDENTITY_MISMATCH"%string)
    | [] => mkComparison true true [] None
    end.

Definition compare_flash_image_with_metadata (image : PreparedFlashImage)
    (metadata_summary : MetadataSummary) : ImageMetadataComparison :=
  compare_image_identity_with_metadata (pf_identity image) metadata_summary.
