(* ===== verification/BootClient.v ===== *)
(** * The boot protocol client (protocol/boot_protocol_client.py)

    [BootProtocolClient] over any [ByteTransport] (transport/base.py), with the
    [FrameReader] it owns; the transport is part of the client's state.  The
    clock is outside the model: [iterations timeout_ms] is how often the
    loop of [read_frame] runs before a deadline that far away has passed.  A
    transaction holds the client's lock, so it is one step.  The observer of
    wire attempts only watches and is left out. *)

From S2P Require Import Prelude.
From S2P Require Import Errors.
From S2P Require Import Constants.
From S2P Require Import Words.
From S2P Require Import Frame.
From S2P Require Import Resync.
From S2P Require Import FrameReader.
From S2P Require Import Models.

(** ** ByteTransport *)

Inductive TransportOpenStatus : Set := OPENED | CANCELLED.

#[export] Instance TransportOpenStatus_eq_dec : EqDecision TransportOpenStatus.
Proof. solve_decision. Defined.

Record TransportOpenResult : Type := mkOpenResult {
  to_status : TransportOpenStatus;
  to_resource_released : bool;
  to_stage : string;
}.

Definition TransportOpenResult_post_init (r : TransportOpenResult) : Res TransportOpenResult :=
  fail (Err ValueError (Lit "stage must be a non-empty string"))
    when bool_decide (to_stage r = EmptyString) ;;
  fail (Err ValueError (Lit "OPENED requires resource_released=False"))
    when bool_decide (to_status r = OPENED) && to_resource_released r ;;
  fail (Err ValueError (Lit "CANCELLED requires resource_released=True"))
    when bool_decide (to_status r = CANCELLED) && negb (to_resource_released r) ;;
  Ok r.

(** The cancellation token of [open], if there is one, is given by its answers:
    the [n]-th question that [open] asks is answered by [cancelled n]. *)
Class ByteTransport (T : Type) : Type := {
  tr_open : option (nat → bool) → ST T TransportOpenResult;
  tr_close : ST T unit;
  tr_write_all : list Z → ST T unit;
  tr_read_some : Z → ST T (list Z);
}.

Section client.
Context {T : Type} `{ByteTransport T}.
Context (iterations : Z → nat).

(** ** State *)

Record BootProtocolClient : Type := mkBootClient {
  bc_transport : T;
  bc_buffer : list Z;                        (* frame_reader._buffer *)
  bc_sequence : Z;
  bc_device_info : option DeviceInfo;
  bc_protocol_info : option ProtocolInfo;
}.

Abbreviation BC := (ST BootProtocolClient).

Definition BootProtocolClient_init (transport : T) : BootProtocolClient :=
  mkBootClient transport [] 0 None None.

Definition bc_set_transport (v : T) (c : BootProtocolClient) : BootProtocolClient :=
  mkBootClient v (bc_buffer c) (bc_sequence c) (bc_device_info c) (bc_protocol_info c).
Definition bc_set_buffer (v : list Z) (c : BootProtocolClient) : BootProtocolClient :=
  mkBootClient (bc_transport c) v (bc_sequence c) (bc_device_info c) (bc_protocol_info c).
Definition bc_set_sequence (v : Z) (c : BootProtocolClient) : BootProtocolClient :=
  mkBootClient (bc_transport c) (bc_buffer c) v (bc_device_info c) (bc_protocol_info c).
Definition bc_set_device_info (v : option DeviceInfo) (c : BootProtocolClient) : BootProtocolClient :=
  mkBootClient (bc_transport c) (bc_buffer c) (bc_sequence c) v (bc_protocol_info c).
Definition bc_set_protocol_info (v : option ProtocolInfo) (c : BootProtocolClient)
    : BootProtocolClient :=
  mkBootClient (bc_transport c) (bc_buffer c) (bc_sequence c) (bc_device_info c) v.

(** A method call on [self.transport]. *)
Definition tr {A} (m : ST T A) : BC A :=
  λ c, let '(r, t) := m (bc_transport c) in (r, bc_set_transport t c).

(** ** Payload limits *)

Definition BOOTSTRAP_MAX_PAYLOAD_WORDS : Z :=
  Z.max (Z.max DEVICE_INFO_WORDS PROTOCOL_INFO_WORDS) ERROR_DETAIL_WORDS.

Definition BOOTSTRAP_COMMANDS : list Z :=
  [Command.Command_value Command.PING; Command.Command_value Command.GET_DEVICE_INFO;
   Command.Command_value Command.GET_PROTOCOL_INFO; Command.Command_value Command.GET_LAST_ERROR].

Definition effective_max_payload_words (c : BootProtocolClient) : Res Z :=
  match bc_device_info c, bc_protocol_info c with
  | Some device, Some protocol =>
      let limit := Z.min (di_max_payload_words device) (pi_max_payload_words protocol) in
      fail (Err ProtocolDecodeError (Lit "effective max payload words must be positive"))
        when limit <=? 0 ;;
      Ok limit
  | _, _ => Raise (Err ProtocolDecodeError (Lit "device and protocol capabilities are required"))
  end.

Definition effective_max_data_words (c : BootProtocolClient) : Res Z :=
  match bc_device_info c with
  | None => Raise (Err ProtocolDecodeError (Lit "device capabilities are required"))
  | Some device =>
      let? payload := effective_max_payload_words c in
      let limit := Z.min (di_max_data_words device) (payload - 5) in
      fail (Err ProtocolDecodeError (Lit "effective max DATA words must be positive"))
        when limit <=? 0 ;;
      Ok limit
  end.

Definition effective_max_write_data_words (c : BootProtocolClient) : Res Z :=
  let? data_words := effective_max_data_words c in
  let limit := data_words - data_words mod WRITE_DATA_ALIGNMENT_WORDS in
  fail (Err ProtocolDecodeError
         (Lit "effective max Flash DATA words must be a positive aligned value"))
    when (limit <=? 0) || negb (limit mod WRITE_DATA_ALIGNMENT_WORDS =? 0) ;;
  Ok limit.

(** [_payload_limit] *)
Definition payload_limit (c : BootProtocolClient) (command : Z) : Res Z :=
  match bc_device_info c, bc_protocol_info c with
  | Some _, Some _ => effective_max_payload_words c
  | device, protocol =>
      if negb (bool_decide (command ∈ BOOTSTRAP_COMMANDS)) then effective_max_payload_words c else
      let limits :=
        [BOOTSTRAP_MAX_PAYLOAD_WORDS]
        ++ match device with
           | Some d => if di_max_payload_words d >? 0 then [di_max_payload_words d] else []
           | None => []
           end
        ++ match protocol with
           | Some p => if pi_max_payload_words p >? 0 then [pi_max_payload_words p] else []
           | None => []
           end in
      Ok (foldr Z.min BOOTSTRAP_MAX_PAYLOAD_WORDS limits)
  end.

(** ** Capabilities *)

(** [_cache_capability]: the [except (TypeError, ValueError)] clause turns
    the errors of [from_words] into ProtocolDecodeError. *)
Definition as_decode_error {A} (r : Res A) : Res A :=
  match r with
  | Raise e =>
      if isinstance e ProtocolDecodeError then Raise e
      else if isinstance e TypeError || isinstance e ValueError
           then Raise (Err ProtocolDecodeError (exn_str e)) else Raise e
  | ok => ok
  end.

Definition cache_device_info (payload : list Z) (c : BootProtocolClient) : Res DeviceInfo :=
  let? info := DeviceInfo_from_words payload in
  fail (Err ProtocolDecodeError (Lit "DeviceInfo target identity changed"))
    when match bc_device_info c with
         | Some cached => negb ((di_device_id info =? di_device_id cached)
                                && (di_cpu_id info =? di_cpu_id cached))
         | None => false
         end ;;
  fail (Err ProtocolDecodeError (Lit "DeviceInfo and ProtocolInfo protocol versions do not match"))
    when match bc_protocol_info c with
         | Some protocol => negb (di_protocol_ver info =? pi_protocol_ver protocol)
         | None => false
         end ;;
  Ok info.

Definition cache_protocol_info (payload : list Z) (c : BootProtocolClient) : Res ProtocolInfo :=
  let? info := ProtocolInfo_from_words payload in
  fail (Err ProtocolDecodeError (Lit "DeviceInfo and ProtocolInfo protocol versions do not match"))
    when match bc_device_info c with
         | Some device => negb (pi_protocol_ver info =? di_protocol_ver device)
         | None => false
         end ;;
  Ok info.

Definition cache_capability (command : Z) (payload : list Z) : BC unit :=
  c <- get ;;
  if command =? Command.Command_value Command.GET_DEVICE_INFO then
    info <- lift (as_decode_error (cache_device_info payload c)) ;;
    modify (bc_set_device_info (Some info))
  else if command =? Command.Command_value Command.GET_PROTOCOL_INFO then
    info <- lift (as_decode_error (cache_protocol_info payload c)) ;;
    modify (bc_set_protocol_info (Some info))
  else ret tt.

(** ** Transactions *)

(** [FrameReader.read_frame] on the transport, [fuel] iterations before the
    deadline: the same steps as [FrameReader.poll_loop]. *)
Fixpoint read_frame_loop (fuel : nat) (max_payload_words : Z) : BC Frame :=
  match fuel with
  | O => raise (Err TransportTimeoutError (Lit "response byte read timed out"))
  | S fuel =>
      chunk <- tr (tr_read_some 4096) ;;
      match chunk with
      | [] => read_frame_loop fuel max_payload_words
      | _ =>
          buffer <- gets bc_buffer ;;
          match extract_one max_payload_words (buffer ++ chunk) with
          | More buffer | Again buffer =>
              modify (bc_set_buffer buffer) ;;; read_frame_loop fuel max_payload_words
          | Got frame buffer => modify (bc_set_buffer buffer) ;;; ret frame
          | Throw e buffer => modify (bc_set_buffer buffer) ;;; raise e
          end
      end
  end.

Definition bc_read_frame (timeout_ms max_payload_words : Z) : BC Frame :=
  if timeout_ms <=? 0
  then raise (Err ValueError (Lit "timeout_ms must be positive"))
  else read_frame_loop (iterations timeout_ms) max_payload_words.

(** The checks of [transact] on the response. *)
Definition check_response (request response : Frame) : Res (list Z) :=
  let? _ := match validate_response_sequence (fr_sequence request) (fr_sequence response) with
            | Raise e => if isinstance e SequenceMismatchError
                         then Raise (Err ProtocolDecodeError (exn_str e)) else Raise e
            | ok => ok
            end in
  fail (Err ProtocolDecodeError (Lit "response command does not match request"))
    when negb (fr_command response =? fr_command request) ;;
  fail (Err ProtocolDecodeError (Lit "unexpected response packet type"))
    when negb ((fr_packet_type response =? PacketType.RESPONSE)
               || (fr_packet_type response =? PacketType.ERROR_RESPONSE)) ;;
  fail (StatusErr (fr_command response) (fr_status response))
    when negb (fr_status response =? Status.OK) ;;
  fail (Err ProtocolDecodeError (Lit "OK status requires a normal response packet"))
    when negb (fr_packet_type response =? PacketType.RESPONSE) ;;
  Ok (fr_payload response).

(** [timeout_ms or DEFAULT_COMMAND_TIMEOUT_MS.get(command_id, 1000)] *)
Definition effective_timeout (timeout_ms : option Z) (command : Z) : Z :=
  match timeout_ms with
  | Some t => if t =? 0 then default 1000 (timeout_of command) else t
  | None => default 1000 (timeout_of command)
  end.

Definition bc_transact (command : Z) (payload : list Z) (timeout_ms : option Z) : BC (list Z) :=
  c <- get ;;
  max_payload <- lift (payload_limit c command) ;;
  if zlen payload >? max_payload then
    raise (PayloadLimitErr command (zlen payload) max_payload
             (di_max_payload_words <$> bc_device_info c)
             (pi_max_payload_words <$> bc_protocol_info c))
  else
  sequence <- lift (next_sequence (bc_sequence c)) ;;
  request <- lift (Frame_init PacketType.REQUEST command sequence payload 0 0 PROTOCOL_VERSION) ;;
  encoded_request <- lift (encode_bytes request) ;;
  tr (tr_write_all encoded_request) ;;;
  modify (bc_set_sequence sequence) ;;;
  response <- catch (bc_read_frame (effective_timeout timeout_ms command) max_payload)
                (λ e, if isinstance e FrameError
                      then raise (Err ProtocolDecodeError (exn_str e)) else raise e) ;;
  data <- lift (check_response request response) ;;
  cache_capability command data ;;;
  ret data.

(** [reset_connection_state]: the buffer of the frame reader is kept. *)
Definition reset_connection_state : BC unit :=
  modify (λ c, mkBootClient (bc_transport c) (bc_buffer c) 0 None None).

(** ** Commands *)

Definition command_of (c : Command.Command_t) (payload : list Z) : BC (list Z) :=
  bc_transact (Command.Command_value c) payload None.

Definition bc_ping : BC (list Z) := command_of Command.PING [].

Definition bc_get_device_info : BC DeviceInfo :=
  _ <- command_of Command.GET_DEVICE_INFO [] ;;
  c <- get ;;
  match bc_device_info c with
  | Some info => ret info
  | None => raise (Err ProtocolDecodeError
                     (Lit "GET_DEVICE_INFO succeeded without cached DeviceInfo"))
  end.

Definition bc_get_protocol_info : BC ProtocolInfo :=
  _ <- command_of Command.GET_PROTOCOL_INFO [] ;;
  c <- get ;;
  match bc_protocol_info c with
  | Some info => ret info
  | None => raise (Err ProtocolDecodeError
                     (Lit "GET_PROTOCOL_INFO succeeded without cached ProtocolInfo"))
  end.

Definition bc_get_last_error : BC ErrorDetail :=
  words <- command_of Command.GET_LAST_ERROR [] ;; lift (ErrorDetail_from_words words).

Definition bc_get_metadata_summary : BC MetadataSummary :=
  words <- command_of Command.GET_METADATA_SUMMARY [] ;; lift (MetadataSummary_from_words words).

Definition bc_get_service_status : BC ServiceStatus :=
  words <- command_of Command.GET_SERVICE_STATUS [] ;; lift (ServiceStatus_from_words words).

Definition bc_service_attach (header_address expected_crc32 expected_total_words : Z)
    : BC (list Z) :=
  header <- lift (split_u32 header_address) ;;
  crc <- lift (split_u32 expected_crc32) ;;
  words <- lift (split_u32 expected_total_words) ;;
  command_of Command.SERVICE_ATTACH [header.1; header.2; crc.1; crc.2; words.1; words.2; 0].

(** The BEGIN commands of the three transfers. *)
Definition bc_begin (c : Command.Command_t) (target : Target.Target_t)
    (packet_count total_words entry_point image_crc32 : Z) : BC (list Z) :=
  total <- lift (split_u32 total_words) ;;
  entry <- lift (split_u32 entry_point) ;;
  crc <- lift (split_u32 image_crc32) ;;
  command_of c [Target.Target_value target; packet_count; total.1; total.2; entry.1; entry.2;
                crc.1; crc.2; 0].

Definition bc_data (c : Command.Command_t) (address : Z) (words : list Z) (packet_index : Z)
    : BC (list Z) :=
  addr <- lift (split_u32 address) ;;
  index <- lift (split_u32 packet_index) ;;
  command_of c ([addr.1; addr.2; zlen words; index.1; index.2] ++ words).

Definition bc_end (c : Command.Command_t) (packet_count total_words image_crc32 : Z)
    : BC (list Z) :=
  packets <- lift (split_u32 packet_count) ;;
  total <- lift (split_u32 total_words) ;;
  crc <- lift (split_u32 image_crc32) ;;
  command_of c [packets.1; packets.2; total.1; total.2; crc.1; crc.2].

Definition bc_ram_load_begin := bc_begin Command.RAM_LOAD_BEGIN Target.RAM_APP.
Definition bc_ram_load_data := bc_data Command.RAM_LOAD_DATA.
Definition bc_ram_load_end := bc_end Command.RAM_LOAD_END.
Definition bc_program_begin := bc_begin Command.PROGRAM_BEGIN Target.FLASH_APP.
Definition bc_program_data := bc_data Command.PROGRAM_DATA.
Definition bc_program_end := bc_end Command.PROGRAM_END.
Definition bc_verify_begin := bc_begin Command.VERIFY_BEGIN Target.FLASH_APP.
Definition bc_verify_data := bc_data Command.VERIFY_DATA.
Definition bc_verify_end := bc_end Command.VERIFY_END.

Definition bc_ram_check_crc (expected_crc32 expected_total_words : Z) : BC (list Z) :=
  crc <- lift (split_u32 expected_crc32) ;;
  words <- lift (split_u32 expected_total_words) ;;
  command_of Command.RAM_CHECK_CRC [crc.1; crc.2; words.1; words.2; 0].

Definition bc_erase (sector_mask : Z) : BC (list Z) :=
  mask <- lift (split_u32 sector_mask) ;; command_of Command.ERASE [mask.1; mask.2; 0].

Definition bc_metadata_append (record_type : MetadataRecordType.MetadataRecordType_t)
    (entry_point image_size_words image_crc32 app_end : Z) : BC (list Z) :=
  entry <- lift (split_u32 entry_point) ;;
  size <- lift (split_u32 image_size_words) ;;
  crc <- lift (split_u32 image_crc32) ;;
  stop <- lift (split_u32 app_end) ;;
  command_of Command.METADATA_APPEND_RECORD
    [MetadataRecordType.MetadataRecordType_value record_type;
     BootSlot.BootSlot_value BootSlot.SLOT_A; entry.1; entry.2; size.1; size.2; crc.1; crc.2;
     0; 0; 0; 0; 0; stop.1; stop.2; 0].

Definition bc_metadata_append_image_valid := bc_metadata_append MetadataRecordType.IMAGE_VALID.
Definition bc_metadata_append_boot_attempt := bc_metadata_append MetadataRecordType.BOOT_ATTEMPT.
Definition bc_metadata_append_app_confirmed := bc_metadata_append MetadataRecordType.APP_CONFIRMED.

Definition bc_run (target entry_point : Z) : BC (list Z) :=
  entry <- lift (split_u32 entry_point) ;;
  command_of Command.RUN [target; entry.1; entry.2; 0].

Definition bc_reset : BC (list Z) := command_of Command.RESET [].

Definition bc_run_ram (entry_point : Z) : BC (list Z) :=
  entry <- lift (split_u32 entry_point) ;; command_of Command.RUN_RAM [entry.1; entry.2; 0].

(** ** UpgradeSession (session/session.py) *)

Definition session_connect (cancelled : option (nat → bool)) : BC TransportOpenResult :=
  reset_connection_state ;;; tr (tr_open cancelled).

Definition session_disconnect : BC unit := tr tr_close.
End client.
Arguments BootProtocolClient T : clear implicits.
