(* ===== verification/OperationResults.v ===== *)
(** The results, contexts and transfers of operations, then the equality of the
    Python values that results hold. *)

(** * Results of operations (operations/results.py, operations/context.py)

    The result models of the operations with their checks, the mapping of
    exceptions to failures, and the cancellable transfer that all uploads go
    through.  The cancellation token and the progress callback are outside the
    model: the answers of the token are given as a function of how often it
    was asked, and the calls of the callback are kept as a log. *)

From S2P Require Import Prelude.
From S2P Require Import Errors.
From S2P Require Import Constants.
From S2P Require Import Messages.
From S2P Require Import Words.
From S2P Require Import Models.
From S2P Require Import Firmware.
From S2P Require Import Packets.
From S2P Require Import Targets.
From S2P Require Import BootClient.

(** ** Error domains *)

Definition COMMUNICATION_STATUSES : list Z :=
  [Status.Status_value Status.BAD_PAYLOAD_CRC; Status.Status_value Status.UNSUPPORTED_PROTOCOL;
   Status.Status_value Status.BAD_PACKET_TYPE; Status.Status_value Status.BAD_FLAGS].

Definition classify_exception_domain (exc : Exn) : option ErrorDomain :=
  if isinstance exc OperationFailure || isinstance exc UnsupportedOperationError
     || isinstance exc ProtocolPayloadLimitError then Some OPERATION
  else if isinstance exc ProtocolDecodeError || isinstance exc TransportError
  then Some COMMUNICATION
  else match exc with
       | StatusErr _ status =>
           Some (if bool_decide (status ∈ COMMUNICATION_STATUSES) then COMMUNICATION else OPERATION)
       | _ => None
       end.

(** [c.__name__] *)
Definition class_name (c : ExnClass) : string :=
  match c with
  | Exception => "Exception" | ValueError => "ValueError" | TypeError => "TypeError"
  | RuntimeError => "RuntimeError" | AttributeError => "AttributeError" | AssertionError => "AssertionError"
  | OSError => "OSError" | FileNotFoundError => "FileNotFoundError"
  | NotImplementedError => "NotImplementedError"
  | TimeoutError => "TimeoutError" | LookupError => "LookupError" | KeyError => "KeyError"
  | DataAlignmentError => "DataAlignmentError" | FrameError => "FrameError"
  | FrameLengthError => "FrameLengthError" | HeaderCrcError => "HeaderCrcError"
  | PayloadCrcError => "PayloadCrcError" | SequenceMismatchError => "SequenceMismatchError"
  | TransportError => "TransportError" | TransportTimeoutError => "TransportTimeoutError"
  | TransportClosedError => "TransportClosedError" | IoDeviceError => "IoDeviceError"
  | IoTimeoutError => "IoTimeoutError" | IoDeviceNotOpenError => "IoDeviceNotOpenError"
  | IoCancelledError => "IoCancelledError" | ProtocolClientError => "ProtocolClientError"
  | ProtocolDecodeError => "ProtocolDecodeError" | ProtocolStatusError => "ProtocolStatusError"
  | ProtocolPayloadLimitError => "ProtocolPayloadLimitError" | WorkflowError => "WorkflowError"
  | Hex2000Error => "Hex2000Error" | Sci8ParseError => "Sci8ParseError"
  | MemoryParseError => "MemoryParseError"
  | UnsupportedOperationError => "UnsupportedOperationError"
  | OperationFailure => "OperationFailure"
  | StaleConnectionEventError => "StaleConnectionEventError"
  | SessionChangeBlockedError => "SessionChangeBlockedError"
  | DomainTransitionError => "DomainTransitionError"
  | StaleConnectionGenerationError => "StaleConnectionGenerationError"
  | ConnectionExecutorClosedError => "ConnectionExecutorClosedError"
  | AppResourceError => "AppResourceError"
  | AppResourceConfigurationError => "AppResourceConfigurationError"
  | AppResourceNotFoundError => "AppResourceNotFoundError"
  | Hex2000NotFoundError => "Hex2000NotFoundError"
  | Hex2000ConfigurationError => "Hex2000ConfigurationError"
  | ProviderResourceFailure => "_ProviderResourceFailure"
  | ImagePreparationFailure => "_ImagePreparationFailure"
  | CliConfigurationError => "CliConfigurationError"
  | RuntimeCommunicationError => "RuntimeCommunicationError"
  | PersistenceError => "PersistenceError"
  | PersistenceFileNotFoundError => "PersistenceFileNotFoundError"
  | PersistenceFormatError => "PersistenceFormatError"
  | UnsupportedSchemaVersionError => "UnsupportedSchemaVersionError"
  | PersistenceWriteError => "PersistenceWriteError"
  | SessionPathRequiredError => "SessionPathRequiredError"
  end.

(** [OperationFailure(code, message, stage=..., details=...)] *)
Definition operation_failure (code : string) (message : Msg) (stage : string)
    (details : list (string * PyVal)) : Exn :=
  OpFailure (mkErrorInfo code message stage false details OPERATION).

(** ** Result models *)

Module OperationCompletion.
Inductive OperationCompletion_t : Set :=
| SUCCEEDED | FAILED | CANCELLED | COMPLETED_AFTER_CANCEL_REQUEST.
End OperationCompletion.

Abbreviation OperationCompletion := OperationCompletion.OperationCompletion_t.

#[export] Instance OperationCompletion_eq_dec : EqDecision OperationCompletion.
Proof. solve_decision. Defined.

Definition RECOVERY_ACTIONS : list string :=
  ["NONE"; "RESTART_RAM_LOAD"; "RESTART_SERVICE_LOAD"; "RESTART_PROGRAM";
   "ERASE_AND_RESTART_PROGRAM"; "RESTART_VERIFY"; "RECONNECT_AND_RESTART_RAM_LOAD";
   "RECONNECT_AND_RESTART_SERVICE_LOAD"; "RECONNECT_AND_RESTART_PROGRAM";
   "RECONNECT_ERASE_AND_RESTART_PROGRAM"; "RECONNECT_AND_RESTART_VERIFY"].

Record OperationCancellationInfo : Type := mkCancellationInfo {
  oc_stage : string;
  oc_current_words : Z;
  oc_total_words : Z;
  oc_protocol_state_clean : bool;
  oc_outcome_uncertain : bool;
  oc_connection_recovery_required : bool;
  oc_partial_flash_programmed : bool;
  oc_erase_before_retry_required : bool;
  oc_service_attached : option bool;
  oc_recovery_action : string;
}.

Definition OperationCancellationInfo_post_init (i : OperationCancellationInfo)
    : Res OperationCancellationInfo :=
  fail (Err ValueError (Lit "stage must be non-empty"))
    when bool_decide (oc_stage i = EmptyString) ;;
  fail (Err ValueError (Lit "word counts must satisfy 0 <= current_words <= total_words"))
    when (oc_current_words i <? 0) || (oc_total_words i <? 0)
         || (oc_current_words i >? oc_total_words i) ;;
  fail (Err ValueError (Lit "invalid recovery_action"))
    when negb (bool_decide (oc_recovery_action i ∈ RECOVERY_ACTIONS)) ;;
  fail (Err ValueError (Lit "erase before retry requires partial Flash programming"))
    when oc_erase_before_retry_required i && negb (oc_partial_flash_programmed i) ;;
  fail (Err ValueError (Lit "uncertain outcome requires connection recovery"))
    when oc_outcome_uncertain i && negb (oc_connection_recovery_required i) ;;
  fail (Err ValueError
         (Lit "clean protocol state cannot require recovery or have an uncertain outcome"))
    when oc_protocol_state_clean i
         && (oc_outcome_uncertain i || oc_connection_recovery_required i) ;;
  Ok i.

(** [dict[str, Any]] *)
Abbreviation Dict := (list (string * PyVal)).

Record OperationResult : Type := mkResult {
  or_ok : bool;
  or_operation : string;
  or_target : string;
  or_stage : string;
  or_summary : Dict;
  or_details : Dict;
  or_service : option Dict;
  or_warning : option Dict;
  or_error : option OperationErrorInfo;
  or_completion : option OperationCompletion;
  or_cancellation : option OperationCancellationInfo;
}.

Definition is_some {A} (o : option A) : bool := match o with Some _ => true | None => false end.

(** The table [valid] of [OperationResult.__post_init__]. *)
Definition valid_completion (r : OperationResult) (completion : OperationCompletion) : bool :=
  let error := is_some (or_error r) in
  let cancellation := is_some (or_cancellation r) in
  match completion with
  | OperationCompletion.SUCCEEDED => or_ok r && negb error && negb cancellation
  | OperationCompletion.FAILED => negb (or_ok r) && error
  | OperationCompletion.CANCELLED => negb (or_ok r) && negb error && cancellation
  | OperationCompletion.COMPLETED_AFTER_CANCEL_REQUEST => or_ok r && negb error && cancellation
  end.

Definition OperationResult_post_init (r : OperationResult) : Res OperationResult :=
  let completion :=
    default (if or_ok r then OperationCompletion.SUCCEEDED else OperationCompletion.FAILED)
      (or_completion r) in
  fail (Err RuntimeError (Lit "failed OperationResult requires error details"))
    when bool_decide (completion = OperationCompletion.FAILED) && negb (is_some (or_error r)) ;;
  fail (Err ValueError (Lit "invalid OperationResult for completion"))
    when negb (valid_completion r completion) ;;
  Ok (mkResult (or_ok r) (or_operation r) (or_target r) (or_stage r) (or_summary r)
        (or_details r) (or_service r) (or_warning r) (or_error r) (Some completion)
        (or_cancellation r)).

Record ProgressEvent : Type := mkProgress {
  pe_operation : string;
  pe_target : string;
  pe_stage : string;
  pe_message : string;
  pe_current_words : option Z;
  pe_total_words : option Z;
  pe_chunk_words : option Z;
  pe_details : Dict;
  pe_cancellation_supported : bool;
}.

(** ** The context of an operation *)

Section operations.
Context {T : Type} `{ByteTransport T}.
Context (iterations : Z → nat).

(** What an operation changes: the session's client, how often the token was
    asked, and the calls of the progress callback. *)
Record World : Type := mkWorld {
  ow_client : BootProtocolClient T;
  ow_asked : nat;
  ow_progress : list ProgressEvent;
}.

Abbreviation Op := (ST World).

(** [OperationContext], and [FlashOperationContext] with its service; the
    answers of the token are a function of the number of earlier questions. *)
Record OperationContext : Type := mkContext {
  cx_target : TargetProfile;
  cx_progress : bool;
  cx_cancellation : option (nat → bool);
  cx_service : PreparedServiceImage;
  cx_force_service_attach : bool;
}.

Context (ctx : OperationContext).

Definition ow_set_client (v : BootProtocolClient T) (w : World) : World :=
  mkWorld v (ow_asked w) (ow_progress w).

(** A method of [ctx.session.client]. *)
Definition client {A} (m : ST (BootProtocolClient T) A) : Op A :=
  λ w, let '(r, c) := m (ow_client w) in (r, ow_set_client c w).

Definition emit_progress (event : ProgressEvent) : Op unit :=
  if cx_progress ctx
  then modify (λ w, mkWorld (ow_client w) (ow_asked w) (ow_progress w ++ [event]))
  else ret tt.

(** [cancellation_requested], [operation_cancellation_requested] *)
Definition operation_cancellation_requested : Op bool :=
  match cx_cancellation ctx with
  | None => ret false
  | Some is_cancel_requested => λ w,
      (Ok (is_cancel_requested (ow_asked w)),
       mkWorld (ow_client w) (S (ow_asked w)) (ow_progress w))
  end.

(** [transact(ctx, field_name, payload, stage=...)] *)
Definition op_transact (field : CommandField) (payload : list Z) : Op (list Z) :=
  command_id <- lift (require_command (tp_command_set (cx_target ctx)) field) ;;
  client (bc_transact iterations command_id payload (timeout_of command_id)).

(** ** Results *)

Definition target_name : string := tp_name (cx_target ctx).

Definition ok_result (operation stage : string) (summary details : Dict)
    (service warning : option Dict) : Res OperationResult :=
  OperationResult_post_init
    (mkResult true operation target_name stage summary details service warning None None None).

Definition cancelled_result (operation stage : string) (cancellation : OperationCancellationInfo)
    (service : option Dict) : Res OperationResult :=
  OperationResult_post_init
    (mkResult false operation target_name stage [] [] service None None
       (Some OperationCompletion.CANCELLED) (Some cancellation)).

Definition completed_after_cancel_result (operation stage : string) (summary : Dict)
    (cancellation : OperationCancellationInfo) (details : Dict) (service : option Dict)
    : Res OperationResult :=
  OperationResult_post_init
    (mkResult true operation target_name stage summary details service None None
       (Some OperationCompletion.COMPLETED_AFTER_CANCEL_REQUEST) (Some cancellation)).

Definition cancellation_cleanup_failure_result (operation stage : string)
    (cancellation : OperationCancellationInfo) (exc : Exn) (service : option Dict)
    : Res OperationResult :=
  let? cancellation := OperationCancellationInfo_post_init
    (mkCancellationInfo (oc_stage cancellation) (oc_current_words cancellation)
       (oc_total_words cancellation) false true true
       (oc_partial_flash_programmed cancellation) (oc_erase_before_retry_required cancellation)
       (oc_service_attached cancellation) (oc_recovery_action cancellation)) in
  let error := mkErrorInfo "CANCELLATION_CLEANUP_FAILED" (exn_str exc) stage true
    [("cleanup_stage", VStr stage); ("exception_type", VStr (class_name (class_of exc)));
     ("protocol_state_clean", VBool false); ("outcome_uncertain", VBool true);
     ("connection_recovery_required", VBool true);
     ("recovery_action", VStr (oc_recovery_action cancellation))] OPERATION in
  OperationResult_post_init
    (mkResult false operation target_name stage [] [] service None (Some error)
       (Some OperationCompletion.FAILED) (Some cancellation)).

Definition cancellation_cleanup_succeeded (exc : Exn) (partial : bool) : bool :=
  partial && match exc with
             | StatusErr _ status => status =? Status.Status_value Status.TOTAL_COUNT_MISMATCH
             | _ => false
             end.

Definition option_int (o : option Z) : PyVal := match o with Some z => VInt z | None => VNone end.

(** [failure_result]: the error of each kind of exception; an exception of no
    domain is a programming error and is raised again. *)
Definition failure_info (stage : string) (domain : ErrorDomain) (exc : Exn)
    : option OperationErrorInfo :=
  match exc with
  | OpFailure info => Some info
  | PayloadLimitErr command actual effective device protocol =>
      Some (mkErrorInfo "PAYLOAD_LIMIT_EXCEEDED" (exn_str exc) stage false
        [("command", VInt command); ("actual_payload_words", VInt actual);
         ("effective_max_payload_words", VInt effective);
         ("device_max_payload_words", option_int device);
         ("protocol_max_payload_words", option_int protocol)] domain)
  | StatusErr command status =>
      Some (mkErrorInfo "DSP_STATUS_ERROR" (exn_str exc) stage false
        [("command", VInt command); ("status", VInt status)] domain)
  | _ =>
      if isinstance exc UnsupportedOperationError
      then Some (mkErrorInfo "UNSUPPORTED_OPERATION" (exn_str exc) stage false [] domain)
      else if isinstance exc ProtocolDecodeError || isinstance exc TransportError
      then Some (mkErrorInfo "PROTOCOL_ERROR" (exn_str exc) stage false [] domain)
      else None
  end.

Definition failure_result (operation stage : string) (exc : Exn) : Res OperationResult :=
  match classify_exception_domain exc with
  | None => Raise exc
  | Some domain =>
      match failure_info stage domain exc with
      | None => Raise exc
      | Some error =>
          OperationResult_post_init
            (mkResult false operation target_name (ei_stage error) [] [] None None (Some error)
               None None)
      end
  end.

(** The body of an operation: [try: m except Exception as exc: return
    failure_result(ctx, operation, stage, exc)] *)
Definition try_operation (operation stage : string) (m : Op OperationResult) : Op OperationResult :=
  catch m (λ exc, lift (failure_result operation stage exc)).

(** ** Cancellable transfers *)

(** [CancellableTransferOutcome] *)
Record CancellableTransferOutcome : Type := mkOutcome {
  to_summary : Dict;
  to_cancellation : option OperationCancellationInfo;
  to_cleanup_error : option Exn;
  to_completed_after_cancel : bool;
}.

(** The arguments of [run_cancellable_transfer]; the callbacks that send
    the commands are operations themselves. *)
Record Transfer (P : Type) : Type := mkTransfer {
  tf_operation : string;
  tf_packets : list P;
  tf_words : P → list Z;                       (* packet.words *)
  tf_total_words : Z;
  tf_begin_stage : string;
  tf_data_stage : string;
  tf_end_stage : string;
  tf_progress_message : string;
  tf_send_begin : Op unit;
  tf_send_data : P → Op unit;
  tf_send_end : Op unit;
  tf_recovery_action : Z → string;
  tf_reconnect_recovery_action : Z → string;
  tf_partial_flash_programmed : Z → bool;
  tf_service_attached : option bool;
}.
#[global] Arguments mkTransfer {P}.
#[global] Arguments tf_operation {P}.
#[global] Arguments tf_packets {P}.
#[global] Arguments tf_words {P}.
#[global] Arguments tf_total_words {P}.
#[global] Arguments tf_begin_stage {P}.
#[global] Arguments tf_data_stage {P}.
#[global] Arguments tf_end_stage {P}.
#[global] Arguments tf_progress_message {P}.
#[global] Arguments tf_send_begin {P}.
#[global] Arguments tf_send_data {P}.
#[global] Arguments tf_send_end {P}.
#[global] Arguments tf_recovery_action {P}.
#[global] Arguments tf_reconnect_recovery_action {P}.
#[global] Arguments tf_partial_flash_programmed {P}.
#[global] Arguments tf_service_attached {P}.

Section transfer.
Context {P : Type} (t : Transfer P).

(** The local function [info]. *)
Definition transfer_info (stage : string) (current_words : Z) (reconnect none : bool)
    : Res OperationCancellationInfo :=
  let partial_flash := tf_partial_flash_programmed t current_words in
  OperationCancellationInfo_post_init
    (mkCancellationInfo stage current_words (tf_total_words t) (negb reconnect) reconnect reconnect
       partial_flash partial_flash (tf_service_attached t)
       (if none then "NONE"
        else if reconnect then tf_reconnect_recovery_action t current_words
        else tf_recovery_action t current_words)).

(** The loop over the packets: the packets sent, the words sent and whether
    cancellation was observed after the last of them. *)
Fixpoint transfer_loop (packets : list P) (sent_packets sent_words : Z) (cancel_observed : bool)
    : Op (Z * Z * bool) :=
  match packets with
  | [] => ret (sent_packets, sent_words, cancel_observed)
  | packet :: packets =>
      if cancel_observed then ret (sent_packets, sent_words, cancel_observed) else
      tf_send_data t packet ;;;
      let sent_packets := sent_packets + 1 in
      let sent_words := sent_words + zlen (tf_words t packet) in
      emit_progress
        (mkProgress (tf_operation t) target_name (tf_data_stage t) (tf_progress_message t)
           (Some sent_words) (Some (tf_total_words t)) (Some (zlen (tf_words t packet))) [] true) ;;;
      cancel_observed <- operation_cancellation_requested ;;
      transfer_loop packets sent_packets sent_words cancel_observed
  end.

(** The outcome of [m] as a value, for [try] statements. *)
Definition outcome_of {A} (m : Op A) : Op (Res A) := λ w, let '(r, w) := m w in (Ok r, w).

Definition run_cancellable_transfer : Op CancellableTransferOutcome :=
  let packet_count := zlen (tf_packets t) in
  asked <- operation_cancellation_requested ;;
  if (asked : bool) then
    info <- lift (transfer_info (tf_begin_stage t) 0 false false) ;;
    ret (mkOutcome [] (Some info) None false)
  else
  tf_send_begin t ;;;
  cancel_observed <- operation_cancellation_requested ;;
  sent <- transfer_loop (tf_packets t) 0 0 cancel_observed ;;
  let '(sent_packets, sent_words, cancel_observed) := sent in
  let partial := (sent_packets <? packet_count) || (sent_words <? tf_total_words t) in
  if (cancel_observed : bool) && partial then
    r <- outcome_of (tf_send_end t) ;;
    match r with
    | Raise exc =>
        if negb (cancellation_cleanup_succeeded exc true) then
          info <- lift (transfer_info (tf_end_stage t) sent_words true false) ;;
          ret (mkOutcome [] (Some info) (Some exc) false)
        else
          info <- lift (transfer_info (tf_end_stage t) sent_words false false) ;;
          ret (mkOutcome [] (Some info) None false)
    | Ok _ =>
        info <- lift (transfer_info (tf_end_stage t) sent_words false false) ;;
        ret (mkOutcome [] (Some info) None false)
    end
  else
  tf_send_end t ;;;
  let summary := [("total_words", VInt (tf_total_words t)); ("packets", VInt packet_count)] in
  late <- (if cancel_observed then ret true else operation_cancellation_requested) ;;
  if (late : bool) then
    info <- lift (transfer_info (tf_end_stage t) (tf_total_words t) false true) ;;
    ret (mkOutcome summary (Some info) None true)
  else ret (mkOutcome summary None None false).
End transfer.
End operations.
Arguments World T : clear implicits.

(** * Equality of Python values

    [a == b] on the values of summaries and details (dictionaries are compared
    without regard to the order of their keys, and True equals 1) and on the
    dataclasses of the operations, field by field.  Messages are equal when
    their texts are. *)

(** ** Values *)

Definition b2z (b : bool) : Z := if b then 1 else 0.

(** [d.get(key)] of a dictionary kept as the list of its items. *)
Fixpoint dict_get {A} (key : string) (d : list (string * A)) : option A :=
  match d with
  | [] => None
  | (k, v) :: d => if bool_decide (k = key) then Some v else dict_get key d
  end.

Fixpoint py_eq (a b : PyVal) : bool :=
  match a, b with
  | VNone, VNone => true
  | VBool x, VBool y => Bool.eqb x y
  | VBool x, VInt y => b2z x =? y
  | VInt x, VBool y => x =? b2z y
  | VInt x, VInt y => x =? y
  | VStr x, VStr y => bool_decide (x = y)
  | VSeq l, VSeq k =>
      (fix seq_eq l k :=
         match l, k with
         | [], [] => true
         | x :: l, y :: k => py_eq x y && seq_eq l k
         | _, _ => false
         end) l k
  | VDict l, VDict k =>
      (length l =? length k)%nat
      && (fix items_eq l :=
            match l with
            | [] => true
            | (key, x) :: l =>
                match dict_get key k with
                | Some y => py_eq x y && items_eq l
                | None => false
                end
            end) l
  | _, _ => false
  end.

Definition dict_eq (a b : Dict) : bool := py_eq (VDict a) (VDict b).

(** [a == b] of optional values, given that of the values. *)
Definition option_eq {A} (eq : A → A → bool) (a b : option A) : bool :=
  match a, b with
  | Some x, Some y => eq x y
  | None, None => true
  | _, _ => false
  end.

Definition msg_eq (a b : Msg) : bool := bool_decide (text_of a = text_of b).

(** ** Dataclasses of the operations *)

Definition error_info_eq (a b : OperationErrorInfo) : bool :=
  bool_decide (ei_code a = ei_code b) && msg_eq (ei_message a) (ei_message b)
  && bool_decide (ei_stage a = ei_stage b) && Bool.eqb (ei_recoverable a) (ei_recoverable b)
  && dict_eq (ei_details a) (ei_details b) && bool_decide (ei_domain a = ei_domain b).

#[export] Instance OperationCancellationInfo_eq_dec : EqDecision OperationCancellationInfo.
Proof. solve_decision. Defined.

Definition operation_result_eq (a b : OperationResult) : bool :=
  Bool.eqb (or_ok a) (or_ok b) && bool_decide (or_operation a = or_operation b)
  && bool_decide (or_target a = or_target b) && bool_decide (or_stage a = or_stage b)
  && dict_eq (or_summary a) (or_summary b) && dict_eq (or_details a) (or_details b)
  && option_eq dict_eq (or_service a) (or_service b)
  && option_eq dict_eq (or_warning a) (or_warning b)
  && option_eq error_info_eq (or_error a) (or_error b)
  && bool_decide (or_completion a = or_completion b)
  && bool_decide (or_cancellation a = or_cancellation b).
