(* ===== verification/OperationProtocol.v ===== *)
(** The commands of the operations, then the attachment of the RAM service that
    Flash operations begin with. *)

(** * Protocol primitives of the operations (operations/_flash_protocol.py,
      operations/_ram_protocol.py)

    The commands of the operations with their payloads.  Every word is
    computed before the command is looked up, as Python evaluates arguments. *)

From S2P Require Import Prelude.
From S2P Require Import Errors.
From S2P Require Import Constants.
From S2P Require Import Words.
From S2P Require Import Models.
From S2P Require Import Firmware.
From S2P Require Import ServiceImage.
From S2P Require Import Targets.
From S2P Require Import BootClient.
From S2P Require Import OperationResults.

(** ** Payloads *)

Definition begin_words (target : Target.Target_t)
    (packet_count total_words entry_point image_crc32 : Z) : Res (list Z) :=
  let? total := split_u32 total_words in
  let? entry := split_u32 entry_point in
  let? crc := split_u32 image_crc32 in
  Ok [Target.Target_value target; packet_count; total.1; total.2; entry.1; entry.2; crc.1; crc.2; 0].

Definition data_words (address : Z) (words : list Z) (packet_index : Z) : Res (list Z) :=
  let? addr := split_u32 address in
  let? index := split_u32 packet_index in
  Ok ([addr.1; addr.2; zlen words; index.1; index.2] ++ words).

Definition end_words (packet_count total_words image_crc32 : Z) : Res (list Z) :=
  let? packets := split_u32 packet_count in
  let? total := split_u32 total_words in
  let? crc := split_u32 image_crc32 in
  Ok [packets.1; packets.2; total.1; total.2; crc.1; crc.2].

Definition erase_payload (sector_mask : Z) : Res (list Z) :=
  let? mask := split_u32 sector_mask in Ok [mask.1; mask.2; 0].

Definition ram_check_crc_payload (expected_crc32 expected_total_words : Z) : Res (list Z) :=
  let? crc := split_u32 expected_crc32 in
  let? words := split_u32 expected_total_words in
  Ok [crc.1; crc.2; words.1; words.2; 0].

(** ** Commands *)

Section protocol.
Context {T : Type} `{ByteTransport T}.
Context (iterations : Z → nat) (ctx : OperationContext).

Abbreviation Op := (ST (World T)).

(** The payload is computed before the command is issued. *)
Definition send_command (field : CommandField) (payload : Res (list Z)) : Op (list Z) :=
  payload <- lift payload ;; op_transact iterations ctx field payload.

(** The three shapes of transfer commands, shared by PROGRAM, VERIFY and
    RAM_LOAD: [field] is the command of the target's command set. *)
Definition begin_protocol (field : CommandField) (target : Target.Target_t)
    (packet_count total_words entry_point image_crc32 : Z) : Op (list Z) :=
  send_command field (begin_words target packet_count total_words entry_point image_crc32).

Definition data_protocol (field : CommandField) (address : Z) (words : list Z) (packet_index : Z)
    : Op (list Z) :=
  send_command field (data_words address words packet_index).

Definition end_protocol (field : CommandField) (packet_count total_words image_crc32 : Z)
    : Op (list Z) :=
  send_command field (end_words packet_count total_words image_crc32).

(** *** Flash *)

Definition erase_protocol (sector_mask : Z) : Op (list Z) :=
  send_command erase (erase_payload sector_mask).

Definition program_begin_protocol := begin_protocol program_begin Target.FLASH_APP.
Definition program_data_protocol := data_protocol program_data.
Definition program_end_protocol := end_protocol program_end.
Definition verify_begin_protocol := begin_protocol verify_begin Target.FLASH_APP.
Definition verify_data_protocol := data_protocol verify_data.
Definition verify_end_protocol := end_protocol verify_end.

(** *** RAM *)

Definition ram_load_begin_protocol := begin_protocol ram_load_begin Target.RAM_APP.
Definition ram_load_data_protocol := data_protocol ram_load_data.
Definition ram_load_end_protocol := end_protocol ram_load_end.

Definition ram_check_crc_protocol (expected_crc32 expected_total_words : Z) : Op (list Z) :=
  send_command ram_check_crc (ram_check_crc_payload expected_crc32 expected_total_words).
End protocol.

(** * The RAM service of the Flash operations (operations/_service_runtime.py)

    [ensure_service_attached]: the service the device runs is reused when it
    is the expected one, and loaded, checked and attached otherwise; every
    step may find a requested cancellation. *)

(** ** Models *)

Record ServiceRuntimeSummary : Type := mkServiceSummary {
  sr_reused : bool;
  sr_attach_performed : bool;
  sr_service_state : Z;
  sr_abi_major : Z;
  sr_abi_minor : Z;
  sr_capabilities : Z;
  sr_loaded_image_crc32 : Z;
}.

Record ServiceRuntimeCancellation : Type := mkServiceCancellation {
  sc_cancellation : OperationCancellationInfo;
  sc_service : option ServiceRuntimeSummary;
  sc_cleanup_error : option Exn;
}.

(** [ServiceRuntimeSummary | ServiceRuntimeCancellation] *)
Inductive ServiceRuntime : Type :=
| ServiceReady (summary : ServiceRuntimeSummary)
| ServiceCancelled (item : ServiceRuntimeCancellation).

(** [_summary] *)
Definition service_summary (status : ServiceStatus) (reused attach_performed : bool)
    : ServiceRuntimeSummary :=
  mkServiceSummary reused attach_performed (ss_service_state status) (ss_abi_major status)
    (ss_abi_minor status) (ss_capabilities status) (ss_loaded_image_crc32 status).

(** [service_summary_dict] (operations/results.py) *)
Definition service_summary_dict (s : ServiceRuntimeSummary) : Dict :=
  [("reused"%string, VBool (sr_reused s));
   ("attach_performed"%string, VBool (sr_attach_performed s));
   ("service_state"%string, VInt (sr_service_state s));
   ("abi_major"%string, VInt (sr_abi_major s)); ("abi_minor"%string, VInt (sr_abi_minor s));
   ("capabilities"%string, VInt (sr_capabilities s));
   ("loaded_image_crc32"%string, VInt (sr_loaded_image_crc32 s))].

(** [dataclasses.replace] of the two fields the operations change *)
Definition replace_service_attached (service_attached : option bool) (recovery_action : string)
    (c : OperationCancellationInfo) : Res OperationCancellationInfo :=
  OperationCancellationInfo_post_init
    (mkCancellationInfo (oc_stage c) (oc_current_words c) (oc_total_words c)
       (oc_protocol_state_clean c) (oc_outcome_uncertain c) (oc_connection_recovery_required c)
       (oc_partial_flash_programmed c) (oc_erase_before_retry_required c) service_attached
       recovery_action).

(** The payload of SERVICE_ATTACH *)
Definition service_attach_payload (service : PreparedServiceImage) : Res (list Z) :=
  let? header := split_u32 (sv_header_address service) in
  let? crc := split_u32 (sv_expected_crc32 service) in
  let? words := split_u32 (sv_total_words service) in
  Ok [header.1; header.2; crc.1; crc.2; words.1; words.2; 0].

Section service.
Context {T : Type} `{ByteTransport T}.
Context (iterations : Z → nat) (ctx : OperationContext).

Abbreviation Op := (ST (World T)).
Abbreviation service := (cx_service ctx).

(** [_read_status] *)
Definition read_status : Op ServiceStatus :=
  words <- op_transact iterations ctx get_service_status [] ;;
  lift (ServiceStatus_from_words words).

Definition has_capabilities (status : ServiceStatus) : bool :=
  Z.land (ss_capabilities status) (sv_required_capabilities service)
  =? sv_required_capabilities service.

(** [_validate_attached] *)
Definition validate_attached (status : ServiceStatus) : Res unit :=
  fail (operation_failure "SERVICE_ATTACH_FAILED" (Lit "service is not attached")
          "SERVICE_ATTACH" [])
    when negb (ss_service_state status =? ServiceState.ServiceState_value ServiceState.ATTACHED) ;;
  fail (operation_failure "SERVICE_ABI_MISMATCH"
          (Lit "attached service ABI does not match host expectation") "SERVICE_ATTACH"
          [("abi_major"%string, VInt (ss_abi_major status));
           ("abi_minor"%string, VInt (ss_abi_minor status))])
    when negb (ss_abi_major status =? SERVICE_ABI_MAJOR)
         || negb (ss_abi_minor status =? SERVICE_ABI_MINOR) ;;
  fail (operation_failure "SERVICE_CAPABILITY_MISMATCH"
          (Lit "attached service does not provide required capabilities") "SERVICE_ATTACH"
          [("capabilities"%string, VInt (ss_capabilities status));
           ("required_capabilities"%string, VInt (sv_required_capabilities service))])
    when negb (has_capabilities status) ;;
  Ok tt.

(** [_matches] *)
Definition status_matches (status : ServiceStatus) : bool :=
  (ss_service_state status =? ServiceState.ServiceState_value ServiceState.ATTACHED)
  && (ss_abi_major status =? SERVICE_ABI_MAJOR)
  && (ss_abi_minor status =? SERVICE_ABI_MINOR)
  && (ss_loaded_image_crc32 status =? sv_expected_crc32 service)
  && (ss_loaded_image_words status =? sv_total_words service)
  && has_capabilities status.

(** [_cancelled] *)
Definition service_cancelled (stage : string) (current_words : Z) (service_attached : option bool)
    (recovery_action : string) (summary : option ServiceRuntimeSummary) : Res ServiceRuntime :=
  let? info := OperationCancellationInfo_post_init
    (mkCancellationInfo stage current_words (sv_total_words service) true false false false false
       service_attached recovery_action) in
  Ok (ServiceCancelled (mkServiceCancellation info summary None)).

(** The transfer of the service image. *)
Definition service_transfer (packets : list ServiceRamPacket) (total_words : Z)
    : Transfer ServiceRamPacket :=
  mkTransfer "ensure_service_attached" packets sp_words total_words "RAM_LOAD_BEGIN"
    "RAM_LOAD_SERVICE" "RAM_LOAD_END" "RAM load service"
    (ram_load_begin_protocol iterations ctx (zlen packets) total_words
       (fi_entry_point (sv_image service)) (sv_expected_crc32 service) ;;; ret tt)
    (λ packet, ram_load_data_protocol iterations ctx (sp_address packet) (sp_words packet)
                 (sp_index packet) ;;; ret tt)
    (ram_load_end_protocol iterations ctx (zlen packets) total_words (sv_expected_crc32 service)
       ;;; ret tt)
    (λ _, "RESTART_SERVICE_LOAD"%string) (λ _, "RECONNECT_AND_RESTART_SERVICE_LOAD"%string)
    (λ _, false) (Some false).

(** From the loaded service on: check, attach and read back. *)
Definition attach_loaded_service (total_words : Z) : Op ServiceRuntime :=
  asked <- operation_cancellation_requested ctx ;;
  if (asked : bool) then
    lift (service_cancelled "RAM_CHECK_CRC" total_words (Some false) "RESTART_SERVICE_LOAD" None)
  else
  ram_check_crc_protocol iterations ctx (sv_expected_crc32 service) (sv_total_words service) ;;;
  asked <- operation_cancellation_requested ctx ;;
  if (asked : bool) then
    lift (service_cancelled "SERVICE_ATTACH" total_words (Some false) "RESTART_SERVICE_LOAD" None)
  else
  send_command iterations ctx service_attach (service_attach_payload service) ;;;
  asked <- operation_cancellation_requested ctx ;;
  if (asked : bool) then
    lift (service_cancelled "GET_SERVICE_STATUS" total_words (Some true) "NONE" None)
  else
  status <- read_status ;;
  lift (validate_attached status) ;;;
  if negb (ss_loaded_image_crc32 status =? sv_expected_crc32 service)
     || negb (ss_loaded_image_words status =? sv_total_words service)
  then raise (operation_failure "SERVICE_ATTACH_FAILED"
                (Lit "attached service image does not match request") "SERVICE_ATTACH" [])
  else ret (ServiceReady (service_summary status false true)).

(** From the status that cannot be reused on: load the image. *)
Definition load_service : Op ServiceRuntime :=
  c <- gets ow_client ;;
  max_data_words <- lift (effective_max_data_words c) ;;
  packets <- lift (prepare_service_ram_packets (sv_image service) max_data_words) ;;
  let total_words := zsum (map (λ packet, zlen (sp_words packet)) packets) in
  outcome <- run_cancellable_transfer ctx (service_transfer packets total_words) ;;
  match to_cancellation outcome with
  | Some cancellation =>
      cancellation <- lift (if to_completed_after_cancel outcome
                            then replace_service_attached (Some false) "RESTART_SERVICE_LOAD"
                                   cancellation
                            else Ok cancellation) ;;
      ret (ServiceCancelled (mkServiceCancellation cancellation None (to_cleanup_error outcome)))
  | None => attach_loaded_service total_words
  end.

Definition ensure_service_attached : Op ServiceRuntime :=
  asked <- operation_cancellation_requested ctx ;;
  if (asked : bool) then
    lift (service_cancelled "GET_SERVICE_STATUS" 0 None "RESTART_SERVICE_LOAD" None)
  else
  status <- read_status ;;
  let matches := negb (cx_force_service_attach ctx) && status_matches status in
  let reusable := service_summary status true false in
  asked <- operation_cancellation_requested ctx ;;
  if (asked : bool) then
    lift (service_cancelled "GET_SERVICE_STATUS" 0 (Some matches)
            (if matches then "NONE" else "RESTART_SERVICE_LOAD")
            (if matches then Some reusable else None))
  else if (matches : bool) then ret (ServiceReady reusable)
  else load_service.
End service.
