(* ===== verification/FlashOps.v ===== *)
(** * Flash erase, program and verify operations (operations/flash_ops.py)

    The four public operations.  A request object is its only field. *)

From S2P Require Import Prelude.
From S2P Require Import Errors.
From S2P Require Import Constants.
From S2P Require Import Words.
From S2P Require Import Models.
From S2P Require Import Firmware.
From S2P Require Import Packets.
From S2P Require Import Targets.
From S2P Require Import BootClient.
From S2P Require Import OperationResults.
From S2P Require Import OperationProtocol.

Section flash.
Context {T : Type} `{ByteTransport T}.
Context (iterations : Z → nat) (ctx : OperationContext).

Abbreviation Op := (ST (World T)).

(** ** Checks *)

(** [_flash_layout] *)
Definition flash_layout : Res FlashLayout :=
  match mp_flash (tp_memory_map (cx_target ctx)) with
  | Some flash => Ok flash
  | None => Raise (Err UnsupportedOperationError (Lit "target does not define a Flash layout"))
  end.

(** [_check_sector_mask] *)
Definition check_sector_mask (flash : FlashLayout) (sector_mask : Z) : Res unit :=
  fail (operation_failure "FORBIDDEN_SECTOR" (Lit "sector mask must be nonzero") "ERASE" [])
    when sector_mask =? 0 ;;
  fail (operation_failure "FORBIDDEN_SECTOR" (Lit "sector mask includes forbidden sectors")
          "ERASE" [])
    when negb (Z.land sector_mask (fl_forbidden_erase_mask flash) =? 0) ;;
  fail (operation_failure "FORBIDDEN_SECTOR"
          (Lit "sector mask includes sectors outside allowed erase mask") "ERASE" [])
    when negb (Z.land sector_mask (Z.lnot (fl_allowed_erase_mask flash)) =? 0) ;;
  Ok tt.

(** [_sector_words] *)
Definition sector_words (flash : FlashLayout) (sector_mask : Z) : option Z :=
  let mapped_mask := zsum (map (λ sector, Z.shiftl 1 (sec_bit_index sector)) (fl_sectors flash)) in
  if negb (Z.land sector_mask (Z.lnot mapped_mask) =? 0) then None else
  Some (zsum (map (λ sector, sec_end_exclusive sector - sec_start sector)
    (List.filter (λ sector, negb (Z.land sector_mask (Z.shiftl 1 (sec_bit_index sector)) =? 0))
       (fl_sectors flash)))).

(** [_erase_progress] *)
Definition erase_progress (flash : FlashLayout) (operation : string)
    (selected_mask completed_mask : Z) (total_words : option Z) (chunk_mask : Z) : Op unit :=
  let known {A} (v : option A) := match total_words with Some _ => v | None => None end in
  let current_words := known (sector_words flash completed_mask) in
  let chunk_words := known (sector_words flash chunk_mask) in
  emit_progress ctx
    (mkProgress operation (target_name ctx) "ERASE" "Erasing Flash sectors" current_words
       total_words chunk_words
       [("sector_mask"%string, VInt selected_mask);
        ("completed_sector_mask"%string, VInt completed_mask);
        ("current_bytes"%string, option_int (Z.mul 2 <$> current_words));
        ("total_bytes"%string, option_int (Z.mul 2 <$> total_words))] false).

(** ** Cancellation *)

(** [_cancellation_info] without words *)
Definition cancellation_info (stage : string) (service_attached : option bool)
    (recovery_action : string) : Res OperationCancellationInfo :=
  OperationCancellationInfo_post_init
    (mkCancellationInfo stage 0 0 true false false false false service_attached recovery_action).

(** [return cancelled_result(ctx, operation, stage, _cancellation_info(...))] *)
Definition cancelled_at (operation stage : string) (service_attached : option bool)
    (recovery_action : string) (service : option Dict) : Res OperationResult :=
  let? info := cancellation_info stage service_attached recovery_action in
  cancelled_result ctx operation stage info service.

(** [_service_cancellation_result] *)
Definition service_cancellation_result (operation : string) (item : ServiceRuntimeCancellation)
    (recovery_action : option string) : Res OperationResult :=
  let service := service_summary_dict <$> sc_service item in
  let? cancellation :=
    match recovery_action, oc_service_attached (sc_cancellation item) with
    | Some action, Some true => replace_service_attached (Some true) action (sc_cancellation item)
    | _, _ => Ok (sc_cancellation item)
    end in
  match sc_cleanup_error item with
  | Some exc =>
      cancellation_cleanup_failure_result ctx operation (oc_stage cancellation) cancellation exc
        service
  | None => cancelled_result ctx operation (oc_stage cancellation) cancellation service
  end.

(** ** Erase *)

(** The end of both erase operations. *)
Definition erase_finished (operation : string) (summary details service : Dict)
    : Op OperationResult :=
  asked <- operation_cancellation_requested ctx ;;
  if (asked : bool) then
    info <- lift (cancellation_info "ERASE" (Some true) "NONE") ;;
    lift (completed_after_cancel_result ctx operation "ERASE" summary info details (Some service))
  else lift (ok_result ctx operation "ERASE" summary details (Some service) None).

Definition erase_flash_image_area (image : PreparedFlashImage) : Op OperationResult :=
  let operation := "erase_flash_image_area"%string in
  try_operation ctx operation "ERASE" (
    asked <- operation_cancellation_requested ctx ;;
    if (asked : bool) then lift (cancelled_at operation "GET_SERVICE_STATUS" None "NONE" None) else
    flash <- lift flash_layout ;;
    let metadata_mask := fl_metadata_sector_mask flash in
    let effective := Z.lor (pf_sector_mask image) metadata_mask in
    lift (check_sector_mask flash effective) ;;;
    service <- ensure_service_attached iterations ctx ;;
    match service with
    | ServiceCancelled item => lift (service_cancellation_result operation item None)
    | ServiceReady service =>
        let service_dict := service_summary_dict service in
        asked <- operation_cancellation_requested ctx ;;
        if (asked : bool)
        then lift (cancelled_at operation "ERASE" (Some true) "NONE" (Some service_dict)) else
        let total_words := sector_words flash effective in
        erase_progress flash operation effective 0 total_words 0 ;;;
        (if negb (metadata_mask =? 0) then
           erase_protocol iterations ctx metadata_mask ;;;
           erase_progress flash operation effective metadata_mask total_words metadata_mask
         else ret tt) ;;;
        let rest := Z.land effective (Z.lnot metadata_mask) in
        (if negb (rest =? 0) then
           erase_protocol iterations ctx rest ;;;
           erase_progress flash operation effective (Z.lor metadata_mask rest) total_words rest
         else ret tt) ;;;
        let erased := (if metadata_mask =? 0 then [] else [VInt metadata_mask])
                      ++ (if rest =? 0 then [] else [VInt rest]) in
        erase_finished operation [("erased_masks"%string, VSeq erased)]
          [("effective_mask"%string, VInt effective)] service_dict
    end).

Definition erase_sector_mask (sector_mask : Z) : Op OperationResult :=
  let operation := "erase_sector_mask"%string in
  try_operation ctx operation "ERASE" (
    asked <- operation_cancellation_requested ctx ;;
    if (asked : bool) then lift (cancelled_at operation "GET_SERVICE_STATUS" None "NONE" None) else
    flash <- lift flash_layout ;;
    lift (check_sector_mask flash sector_mask) ;;;
    service <- ensure_service_attached iterations ctx ;;
    match service with
    | ServiceCancelled item => lift (service_cancellation_result operation item None)
    | ServiceReady service =>
        let service_dict := service_summary_dict service in
        asked <- operation_cancellation_requested ctx ;;
        if (asked : bool)
        then lift (cancelled_at operation "ERASE" (Some true) "NONE" (Some service_dict)) else
        let total_words := sector_words flash sector_mask in
        erase_progress flash operation sector_mask 0 total_words 0 ;;;
        erase_protocol iterations ctx sector_mask ;;;
        erase_progress flash operation sector_mask sector_mask total_words sector_mask ;;;
        erase_finished operation [("erased_masks"%string, VSeq [VInt sector_mask])] []
          service_dict
    end).

(** ** Program and verify *)

(** The transfer that [_transfer] runs. *)
Definition flash_transfer (operation : string) (verify : bool) (packets : list DataPacket)
    (total_words entry_point : Z) : Transfer DataPacket :=
  let packet_count := zlen packets in
  let begin := if verify then verify_begin_protocol iterations ctx
    else program_begin_protocol iterations ctx in
  let data := if verify then verify_data_protocol iterations ctx
    else program_data_protocol iterations ctx in
  let end_ := if verify then verify_end_protocol iterations ctx
    else program_end_protocol iterations ctx in
  let stage := (if verify then "VERIFY_DATA" else "PROGRAM_DATA")%string in
  mkTransfer operation packets dp_words total_words
    (if verify then "VERIFY_BEGIN" else "PROGRAM_BEGIN") stage
    (if verify then "VERIFY_END" else "PROGRAM_END") stage
    (begin packet_count total_words entry_point 0 ;;; ret tt)
    (λ packet, data (dp_address packet) (dp_words packet) (dp_index packet)
                 ;;; ret tt)
    (end_ packet_count total_words 0 ;;; ret tt)
    (λ sent, if verify then "RESTART_VERIFY"%string
             else if negb (sent =? 0) then "ERASE_AND_RESTART_PROGRAM"%string
             else "RESTART_PROGRAM"%string)
    (λ sent, if verify then "RECONNECT_AND_RESTART_VERIFY"%string
             else if negb (sent =? 0) then "RECONNECT_ERASE_AND_RESTART_PROGRAM"%string
             else "RECONNECT_AND_RESTART_PROGRAM"%string)
    (λ sent, if verify then false else negb (sent =? 0)) (Some true).

(** [_transfer] *)
Definition transfer_image (image : PreparedFlashImage) (operation : string) (verify : bool)
    (max_data_words : Z) : Op CancellableTransferOutcome :=
  packets <- lift (prepare_packets (pf_image image) max_data_words) ;;
  let total_words := zsum (map (λ packet, zlen (dp_words packet)) packets) in
  run_cancellable_transfer ctx
    (flash_transfer operation verify packets total_words (ii_entry_point (pf_identity image))).

(** How an operation reports the outcome of its transfer. *)
Definition transfer_result (operation stage : string) (outcome : CancellableTransferOutcome)
    (service : option Dict) : Res OperationResult :=
  match to_cleanup_error outcome, to_cancellation outcome with
  | Some exc, Some cancellation =>
      cancellation_cleanup_failure_result ctx operation (oc_stage cancellation) cancellation exc
        service
  | Some _, None => Raise (Err AttributeError (Lit "'NoneType' object has no attribute 'stage'"))
  | None, Some cancellation =>
      if to_completed_after_cancel outcome
      then completed_after_cancel_result ctx operation stage (to_summary outcome) cancellation []
             service
      else cancelled_result ctx operation (oc_stage cancellation) cancellation service
  | None, None => ok_result ctx operation stage (to_summary outcome) [] service None
  end.

(** The common body of program_flash_image and verify_flash_image. *)
Definition flash_image_operation (operation : string) (verify : bool) (image : PreparedFlashImage)
    : Op OperationResult :=
  let restart := (if verify then "RESTART_VERIFY" else "RESTART_PROGRAM")%string in
  try_operation ctx operation (if verify then "VERIFY" else "PROGRAM") (
    asked <- operation_cancellation_requested ctx ;;
    if (asked : bool)
    then lift (cancelled_at operation "GET_SERVICE_STATUS" None restart None) else
    c <- gets ow_client ;;
    max_data_words <- lift (effective_max_write_data_words c) ;;
    service <- ensure_service_attached iterations ctx ;;
    match service with
    | ServiceCancelled item => lift (service_cancellation_result operation item (Some restart))
    | ServiceReady service =>
        outcome <- transfer_image image operation verify max_data_words ;;
        lift (transfer_result operation (if verify then "VERIFY_END" else "PROGRAM_END") outcome
                (Some (service_summary_dict service)))
    end).

Definition program_flash_image := flash_image_operation "program_flash_image" false.
Definition verify_flash_image := flash_image_operation "verify_flash_image" true.
End flash.
