(* ===== verification/StatusOps.v ===== *)
(** Status, execution and service operations, then the metadata operations. *)

(** * Status, execution and service operations (operations/status_ops.py,
      execution_ops.py, service_ops.py)

    The operations that issue one command, and the attachment of the Flash
    service.  [asdict] of a model is the list of its fields. *)

From S2P Require Import Prelude.
From S2P Require Import Errors.
From S2P Require Import Constants.
From S2P Require Import Words.
From S2P Require Import Models.
From S2P Require Import Targets.
From S2P Require Import BootClient.
From S2P Require Import OperationResults.
From S2P Require Import OperationProtocol.
From S2P Require Import FlashOps.

(** ** [asdict] *)

Definition int_dict (fields : list (string * Z)) : Dict := map (λ f, (f.1, VInt f.2)) fields.

Definition DeviceInfo_dict (d : DeviceInfo) : Dict := int_dict
  [("device_id"%string, di_device_id d); ("cpu_id"%string, di_cpu_id d);
   ("kernel_ver_major"%string, di_kernel_ver_major d);
   ("kernel_ver_minor"%string, di_kernel_ver_minor d);
   ("kernel_ver_patch"%string, di_kernel_ver_patch d);
   ("protocol_ver"%string, di_protocol_ver d); ("feature_flags"%string, di_feature_flags d);
   ("max_payload_words"%string, di_max_payload_words d);
   ("max_data_words"%string, di_max_data_words d); ("boot_mode"%string, di_boot_mode d);
   ("kernel_layout"%string, di_kernel_layout d); ("revision_id"%string, di_revision_id d);
   ("uid_unique"%string, di_uid_unique d)].

Definition ProtocolInfo_dict (p : ProtocolInfo) : Dict := int_dict
  [("protocol_ver"%string, pi_protocol_ver p);
   ("min_supported_ver"%string, pi_min_supported_ver p);
   ("max_supported_ver"%string, pi_max_supported_ver p);
   ("header_words"%string, pi_header_words p); ("crc_type"%string, pi_crc_type p);
   ("endian"%string, pi_endian p); ("max_payload_words"%string, pi_max_payload_words p);
   ("flags"%string, pi_flags p)].

Definition ErrorDetail_dict (e : ErrorDetail) : Dict := int_dict
  [("operation"%string, ed_operation e); ("stage"%string, ed_stage e);
   ("address"%string, ed_address e); ("length_words"%string, ed_length_words e);
   ("api_status"%string, ed_api_status e); ("fsm_status"%string, ed_fsm_status e);
   ("extra0"%string, ed_extra0 e); ("extra1"%string, ed_extra1 e)].

Definition ServiceStatus_dict (s : ServiceStatus) : Dict := int_dict
  [("service_state"%string, ss_service_state s); ("abi_major"%string, ss_abi_major s);
   ("abi_minor"%string, ss_abi_minor s); ("reserved0"%string, ss_reserved0 s);
   ("reserved1"%string, ss_reserved1 s); ("capabilities"%string, ss_capabilities s);
   ("last_attach_status"%string, ss_last_attach_status s);
   ("loaded_image_crc32"%string, ss_loaded_image_crc32 s);
   ("loaded_image_words"%string, ss_loaded_image_words s)].

Definition MetadataSummary_dict (m : MetadataSummary) : Dict := int_dict
  [("metadata_valid"%string, ms_metadata_valid m); ("active_slot"%string, ms_active_slot m);
   ("latest_record_type"%string, ms_latest_record_type m);
   ("boot_attempt_count"%string, ms_boot_attempt_count m);
   ("app_confirmed"%string, ms_app_confirmed m);
   ("boot_attempt_limit"%string, ms_boot_attempt_limit m);
   ("app_version_major"%string, ms_app_version_major m);
   ("app_version_minor"%string, ms_app_version_minor m);
   ("app_version_patch"%string, ms_app_version_patch m);
   ("app_version_build"%string, ms_app_version_build m);
   ("entry_point"%string, ms_entry_point m); ("image_crc32"%string, ms_image_crc32 m);
   ("state"%string, ms_state m); ("valid_record_count"%string, ms_valid_record_count m);
   ("invalid_record_count"%string, ms_invalid_record_count m);
   ("erased_record_count"%string, ms_erased_record_count m);
   ("free_record_count"%string, ms_free_record_count m);
   ("next_record_index"%string, ms_next_record_index m);
   ("image_size_words"%string, ms_image_size_words m);
   ("target_device_id"%string, ms_target_device_id m);
   ("target_cpu_id"%string, ms_target_cpu_id m)].

Section operations.
Context {T : Type} `{ByteTransport T}.
Context (iterations : Z → nat) (ctx : OperationContext).

Abbreviation Op := (ST (World T)).

(** One command and a summary made of its response. *)
Definition one_command (operation stage : string) (field : CommandField)
    (payload : Res (list Z)) (summary : list Z → Op Dict) : Op OperationResult :=
  try_operation ctx operation stage (
    words <- send_command iterations ctx field payload ;;
    summary <- summary words ;;
    lift (ok_result ctx operation stage summary [] None None)).

(** ** Status *)

(** [_read_metadata_summary] *)
Definition read_metadata_summary : Op MetadataSummary :=
  words <- op_transact iterations ctx get_metadata_summary [] ;;
  lift (MetadataSummary_from_words words).

(** [replace(result, error=replace(result.error, recoverable=True))] *)
Definition device_info_failure (operation : string) (exc : Exn) : Res OperationResult :=
  let? result := failure_result ctx operation "GET_DEVICE_INFO" exc in
  match or_error result with
  | Some error =>
      if bool_decide (ei_code error = "PROTOCOL_ERROR"%string) then
        OperationResult_post_init
          (mkResult (or_ok result) (or_operation result) (or_target result) (or_stage result)
             (or_summary result) (or_details result) (or_service result) (or_warning result)
             (Some (mkErrorInfo (ei_code error) (ei_message error) (ei_stage error) true
                      (ei_details error) (ei_domain error)))
             (or_completion result) (or_cancellation result))
      else Ok result
  | None => Ok result
  end.

Definition get_device_info_op : Op OperationResult :=
  let operation := "get_device_info"%string in
  catch (
    op_transact iterations ctx get_device_info [] ;;;
    c <- gets ow_client ;;
    match bc_device_info c with
    | Some info => lift (ok_result ctx operation "GET_DEVICE_INFO" (DeviceInfo_dict info) [] None None)
    | None => raise (Err ProtocolDecodeError
                       (Lit "GET_DEVICE_INFO succeeded without cached DeviceInfo"))
    end)
    (λ exc, lift (device_info_failure operation exc)).

Definition get_protocol_info_op : Op OperationResult :=
  one_command "get_protocol_info" "GET_PROTOCOL_INFO" get_protocol_info (Ok []) (λ _,
    c <- gets ow_client ;;
    match bc_protocol_info c with
    | Some info => ret (ProtocolInfo_dict info)
    | None => raise (Err ProtocolDecodeError
                       (Lit "GET_PROTOCOL_INFO succeeded without cached ProtocolInfo"))
    end).

Definition get_last_error_op : Op OperationResult :=
  one_command "get_last_error" "GET_LAST_ERROR" get_last_error (Ok []) (λ words,
    detail <- lift (ErrorDetail_from_words words) ;; ret (ErrorDetail_dict detail)).

Definition get_metadata_summary_op : Op OperationResult :=
  one_command "get_metadata_summary" "GET_METADATA_SUMMARY" get_metadata_summary (Ok [])
    (λ words, summary <- lift (MetadataSummary_from_words words) ;;
              ret (MetadataSummary_dict summary)).

Definition ping_op : Op OperationResult :=
  one_command "ping" "PING" ping (Ok []) (λ _, ret []).

(** ** Execution *)

(** [RunFlashAppRequest] and [RunRamImageRequest]: a checked entry point *)
Definition RunRequest_post_init (entry_point : Z) : Res Z :=
  fail (Err ValueError (Lit "entry_point must be a non-negative integer")) when entry_point <? 0 ;;
  Ok entry_point.

Definition run_flash_app (entry_point : Z) : Op OperationResult :=
  one_command "run_flash_app" "RUN" run
    (let? entry := split_u32 entry_point in
     Ok [Target.Target_value Target.FLASH_APP; entry.1; entry.2; 0])
    (λ _, ret [("entry_point"%string, VInt entry_point)]).

Definition run_ram_image (entry_point : Z) : Op OperationResult :=
  one_command "run_ram_image" "RUN_RAM" run_ram
    (let? entry := split_u32 entry_point in Ok [entry.1; entry.2; 0])
    (λ _, ret [("entry_point"%string, VInt entry_point)]).

Definition reset_target : Op OperationResult :=
  one_command "reset_target" "RESET" reset (Ok []) (λ _, ret []).

Definition boot_cpu2_run_cpu1_op : Op OperationResult :=
  one_command "boot_cpu2_run_cpu1" "BOOT_CPU2_RUN_CPU1" boot_cpu2_run_cpu1 (Ok []) (λ _, ret []).

Definition boot_cpu2_reset_cpu1_op : Op OperationResult :=
  one_command "boot_cpu2_reset_cpu1" "BOOT_CPU2_RESET_CPU1" boot_cpu2_reset_cpu1 (Ok [])
    (λ _, ret []).

(** ** Service *)

Definition get_service_status_op : Op OperationResult :=
  one_command "get_service_status" "GET_SERVICE_STATUS" get_service_status (Ok []) (λ words,
    status <- lift (ServiceStatus_from_words words) ;; ret (ServiceStatus_dict status)).

(** [_service_action] *)
Definition service_action (service : ServiceRuntimeSummary) : Res string :=
  if sr_reused service then Ok "REUSED"%string
  else if sr_attach_performed service then Ok "LOADED_AND_ATTACHED"%string
  else Raise (operation_failure "SERVICE_ATTACH_FAILED"
                (Lit "service runtime returned no attach action") "SERVICE_ATTACH" []).

Definition attach_flash_service : Op OperationResult :=
  let operation := "attach_flash_service"%string in
  try_operation ctx operation "SERVICE_ATTACH" (
    service <- ensure_service_attached iterations ctx ;;
    match service with
    | ServiceCancelled item => lift (service_cancellation_result ctx operation item None)
    | ServiceReady service =>
        action <- lift (service_action service) ;;
        lift (ok_result ctx operation "SERVICE_ATTACH" [("service_action"%string, VStr action)] []
                (Some (service_summary_dict service)) None)
    end).
End operations.

(** * Metadata append operations (operations/metadata_ops.py)

    The three operations share their course: attach the service, read the
    metadata summary, decide whether the record may be written, write it.  The
    decision of each operation is a function of its own ([..._refusal], in
    the order of the tests of the source). *)

Definition APPEND_RECORD_WORDS : Z := 64.

(** [record_type.name] *)
Definition record_name (record_type : MetadataRecordType.MetadataRecordType_t) : string :=
  match record_type with
  | MetadataRecordType.IMAGE_VALID => "IMAGE_VALID"
  | MetadataRecordType.BOOT_ATTEMPT => "BOOT_ATTEMPT"
  | MetadataRecordType.APP_CONFIRMED => "APP_CONFIRMED"
  end.

(** ** Decisions *)

(** The strings ["EMPTY"], ["VALID"] and ["INVALID"] of [_metadata_state] *)
Inductive MetadataState : Set := MetadataEmpty | MetadataValid | MetadataInvalid.

Definition metadata_state (current : MetadataSummary) : MetadataState :=
  if (ms_state current =? 0) && (ms_metadata_valid current =? 0)
     && (ms_valid_record_count current =? 0) && (ms_invalid_record_count current =? 0)
  then MetadataEmpty
  else if (ms_state current =? 1) && negb (ms_metadata_valid current =? 0)
  then MetadataValid
  else MetadataInvalid.

(** Why a record is not written: [already_exists] and the reason *)
Abbreviation Refusal := (bool * string)%type.

Definition image_valid_refusal (current : MetadataSummary) : option Refusal :=
  match metadata_state current with
  | MetadataValid => Some (true, "IMAGE_VALID_ALREADY_EXISTS"%string)
  | MetadataInvalid => Some (false, "METADATA_INVALID"%string)
  | MetadataEmpty => None
  end.

Definition boot_attempt_refusal (current : MetadataSummary) : option Refusal :=
  match metadata_state current with
  | MetadataInvalid => Some (false, "METADATA_INVALID"%string)
  | MetadataEmpty => Some (false, "IMAGE_VALID_REQUIRED"%string)
  | MetadataValid =>
      if (ms_boot_attempt_limit current <=? 0) || (ms_boot_attempt_limit current >? 3)
      then Some (false, "METADATA_INVALID"%string)
      else if negb (ms_app_confirmed current =? 0)
      then Some (true, "APP_CONFIRMED_ALREADY_EXISTS"%string)
      else if (ms_boot_attempt_count current >=? ms_boot_attempt_limit current)
              || (ms_boot_attempt_count current >=? 3)
      then Some (false, "BOOT_ATTEMPT_LIMIT_REACHED"%string)
      else None
  end.

Definition app_confirmed_refusal (current : MetadataSummary) : option Refusal :=
  match metadata_state current with
  | MetadataInvalid => Some (false, "METADATA_INVALID"%string)
  | MetadataEmpty => Some (false, "IMAGE_VALID_REQUIRED"%string)
  | MetadataValid =>
      if negb (ms_app_confirmed current =? 0)
      then Some (true, "APP_CONFIRMED_ALREADY_EXISTS"%string)
      else if ms_boot_attempt_count current =? 0
      then Some (false, "BOOT_ATTEMPT_REQUIRED"%string)
      else None
  end.

(** [_metadata_summary] *)
Definition metadata_result_summary (written already_exists : bool) (reason : option string) : Dict :=
  [("written"%string, VBool written); ("already_exists"%string, VBool already_exists);
   ("reason"%string, match reason with Some r => VStr r | None => VNone end)].

(** The payload of METADATA_APPEND_RECORD *)
Definition record_payload (record_type : MetadataRecordType.MetadataRecordType_t)
    (entry_point image_size_words image_crc32 app_end : Z) : Res (list Z) :=
  let? entry := split_u32 entry_point in
  let? size := split_u32 image_size_words in
  let? crc := split_u32 image_crc32 in
  let? stop := split_u32 app_end in
  Ok [MetadataRecordType.MetadataRecordType_value record_type;
      BootSlot.BootSlot_value BootSlot.SLOT_A; entry.1; entry.2; size.1; size.2; crc.1; crc.2;
      0; 0; 0; 0; 0; stop.1; stop.2; 0].

Section metadata.
Context {T : Type} `{ByteTransport T}.
Context (iterations : Z → nat) (ctx : OperationContext).

Abbreviation Op := (ST (World T)).

(** ** Records *)

(** [_emit_append_progress] *)
Definition emit_append_progress (operation : string)
    (record_type : MetadataRecordType.MetadataRecordType_t) (current_words : Z) : Op unit :=
  emit_progress ctx
    (mkProgress operation (target_name ctx) "METADATA_APPEND_RECORD"
       ("Writing " ++ record_name record_type ++ " metadata record")%string
       (Some current_words) (Some APPEND_RECORD_WORDS) (Some current_words)
       [("record_type"%string, VStr (record_name record_type));
        ("current_bytes"%string, VInt (current_words * 2));
        ("total_bytes"%string, VInt (APPEND_RECORD_WORDS * 2))] false).

Definition append_record (record_type : MetadataRecordType.MetadataRecordType_t)
    (entry_point image_size_words image_crc32 app_end : Z) : Op (list Z) :=
  send_command iterations ctx metadata_append_record
    (record_payload record_type entry_point image_size_words image_crc32 app_end).

(** [_append_image_valid] *)
Definition append_image_valid_record (identity : ImageIdentity) : Op (list Z) :=
  append_record MetadataRecordType.IMAGE_VALID (ii_entry_point identity)
    (ii_image_size_words identity) (ii_image_crc32 identity) (ii_app_end identity).

(** [_append_current_image]: the reserved words are the zero [app_end]. *)
Definition append_current_image (record_type : MetadataRecordType.MetadataRecordType_t)
    (current : MetadataSummary) : Op (list Z) :=
  append_record record_type (ms_entry_point current) (ms_image_size_words current)
    (ms_image_crc32 current) 0.

(** ** Results *)

(** [_cancelled_before_service] and [_cancelled_after_service] *)
Definition cancelled_before_service (operation : string) : Res OperationResult :=
  cancelled_at ctx operation "GET_SERVICE_STATUS" None "NONE" None.
Definition cancelled_after_service (operation stage : string) (service : Dict)
    : Res OperationResult :=
  cancelled_at ctx operation stage (Some true) "NONE" (Some service).

(** [_business_result] and [_written_result] *)
Definition finished_result (operation stage : string) (summary service : Dict)
    : Op OperationResult :=
  asked <- operation_cancellation_requested ctx ;;
  if (asked : bool) then
    info <- lift (cancellation_info stage (Some true) "NONE") ;;
    lift (completed_after_cancel_result ctx operation stage summary info [] (Some service))
  else lift (ok_result ctx operation stage summary [] (Some service) None).

Definition business_result (operation : string) (refusal : Refusal) (service : Dict)
    : Op OperationResult :=
  finished_result operation "READ_METADATA_SUMMARY"
    (metadata_result_summary false refusal.1 (Some refusal.2)) service.

Definition written_result (operation : string) (service : Dict) : Op OperationResult :=
  finished_result operation "METADATA_APPEND_RECORD" (metadata_result_summary true false None)
    service.

(** ** Operations *)

(** The course of the three operations. *)
Definition append_operation (operation : string)
    (record_type : MetadataRecordType.MetadataRecordType_t)
    (refusal : MetadataSummary → option Refusal) (append : MetadataSummary → Op (list Z))
    : Op OperationResult :=
  try_operation ctx operation "METADATA_APPEND_RECORD" (
    asked <- operation_cancellation_requested ctx ;;
    if (asked : bool) then lift (cancelled_before_service operation) else
    service <- ensure_service_attached iterations ctx ;;
    match service with
    | ServiceCancelled item => lift (service_cancellation_result ctx operation item None)
    | ServiceReady service =>
        let service_dict := service_summary_dict service in
        asked <- operation_cancellation_requested ctx ;;
        if (asked : bool)
        then lift (cancelled_after_service operation "READ_METADATA_SUMMARY" service_dict) else
        current <- read_metadata_summary iterations ctx ;;
        match refusal current with
        | Some r => business_result operation r service_dict
        | None =>
            asked <- operation_cancellation_requested ctx ;;
            if (asked : bool)
            then lift (cancelled_after_service operation "METADATA_APPEND_RECORD" service_dict)
            else
            emit_append_progress operation record_type 0 ;;;
            append current ;;;
            emit_append_progress operation record_type APPEND_RECORD_WORDS ;;;
            written_result operation service_dict
        end
    end).

Definition append_image_valid (image : PreparedFlashImage) : Op OperationResult :=
  append_operation "append_image_valid" MetadataRecordType.IMAGE_VALID image_valid_refusal
    (λ _, append_image_valid_record (pf_identity image)).

Definition append_boot_attempt : Op OperationResult :=
  append_operation "append_boot_attempt" MetadataRecordType.BOOT_ATTEMPT boot_attempt_refusal
    (append_current_image MetadataRecordType.BOOT_ATTEMPT).

Definition append_app_confirmed : Op OperationResult :=
  append_operation "append_app_confirmed" MetadataRecordType.APP_CONFIRMED app_confirmed_refusal
    (append_current_image MetadataRecordType.APP_CONFIRMED).
End metadata.
