(* ===== verification/StatusModels.v ===== *)
(** Results as plain dictionaries, then the status requests and snapshots of the
    GUI. *)

(** * Results as dictionaries, and models from dictionaries

    [operation_result_to_dict] of operations/results.py, which turns a result
    with everything in it into plain dictionaries, lists and scalars, and the
    construction of the payload models from a summary as keyword arguments. *)

From S2P Require Import Prelude.
From S2P Require Import Errors.
From S2P Require Import Messages.
From S2P Require Import TaskPlans.
From S2P Require Import Models.
From S2P Require Import OperationResults.
From S2P Require Import StatusOps.

(** ** [_to_plain] *)

Definition ErrorDomain_value (d : ErrorDomain) : string :=
  match d with OPERATION => "operation" | COMMUNICATION => "communication" end.

Definition OperationCompletion_value (c : OperationCompletion) : string :=
  match c with
  | OperationCompletion.SUCCEEDED => "succeeded"
  | OperationCompletion.FAILED => "failed"
  | OperationCompletion.CANCELLED => "cancelled"
  | OperationCompletion.COMPLETED_AFTER_CANCEL_REQUEST => "completed_after_cancel_request"
  end.

(** [completion.name] *)
Definition OperationCompletion_name (c : OperationCompletion) : string :=
  match c with
  | OperationCompletion.SUCCEEDED => "SUCCEEDED"
  | OperationCompletion.FAILED => "FAILED"
  | OperationCompletion.CANCELLED => "CANCELLED"
  | OperationCompletion.COMPLETED_AFTER_CANCEL_REQUEST => "COMPLETED_AFTER_CANCEL_REQUEST"
  end.

Definition plain_completion_name (c : option OperationCompletion) : string :=
  match c with Some c => OperationCompletion_name c | None => EmptyString end.

Definition plain_option {A} (f : A → PyVal) (o : option A) : PyVal :=
  match o with Some x => f x | None => VNone end.

Definition error_to_plain (e : OperationErrorInfo) : PyVal :=
  VDict [("code", VStr (ei_code e)); ("message", VStr (text_of (ei_message e)));
         ("stage", VStr (ei_stage e)); ("recoverable", VBool (ei_recoverable e));
         ("details", VDict (ei_details e)); ("domain", VStr (ErrorDomain_value (ei_domain e)))].

Definition cancellation_to_plain (c : OperationCancellationInfo) : PyVal :=
  VDict [("stage", VStr (oc_stage c)); ("current_words", VInt (oc_current_words c));
         ("total_words", VInt (oc_total_words c));
         ("protocol_state_clean", VBool (oc_protocol_state_clean c));
         ("outcome_uncertain", VBool (oc_outcome_uncertain c));
         ("connection_recovery_required", VBool (oc_connection_recovery_required c));
         ("partial_flash_programmed", VBool (oc_partial_flash_programmed c));
         ("erase_before_retry_required", VBool (oc_erase_before_retry_required c));
         ("service_attached", plain_option VBool (oc_service_attached c));
         ("recovery_action", VStr (oc_recovery_action c))].

(** Dictionaries, lists and scalars are copied as they are. *)
Definition operation_result_to_dict (r : OperationResult) : Dict :=
  [("ok", VBool (or_ok r)); ("operation", VStr (or_operation r)); ("target", VStr (or_target r));
   ("stage", VStr (or_stage r)); ("summary", VDict (or_summary r));
   ("details", VDict (or_details r)); ("service", plain_option VDict (or_service r));
   ("warning", plain_option VDict (or_warning r));
   ("error", plain_option error_to_plain (or_error r));
   ("completion", plain_option (λ c, VStr (OperationCompletion_value c)) (or_completion r));
   ("cancellation", plain_option cancellation_to_plain (or_cancellation r))].

(** ** [Model(...)] from keyword arguments

    Every field must be given and nothing else.  A value that is not a number
    counts as a TypeError here; the models that check their fields raise one
    themselves. *)

Definition number (v : PyVal) : option Z :=
  match v with VInt z => Some z | VBool b => Some (b2z b) | _ => None end.

Definition keyword_arguments (names : list string) (d : Dict) : Res (list Z) :=
  fail (Err TypeError (Lit "unexpected keyword argument"))
    when negb (forallb (λ kv, bool_decide (kv.1 ∈ names)) d) ;;
  mapR (λ name,
    match dict_get name d with
    | None => Raise (Err TypeError (Fmt "missing required argument: '{}'" [VStr name]))
    | Some v => match number v with
                | Some z => Ok z
                | None => Raise (Err TypeError (Fmt "'{}' is not a number" [VStr name]))
                end
    end) names.

Definition DeviceInfo_names : list string :=
  ["device_id"; "cpu_id"; "kernel_ver_major"; "kernel_ver_minor"; "kernel_ver_patch";
   "protocol_ver"; "feature_flags"; "max_payload_words"; "max_data_words"; "boot_mode";
   "kernel_layout"; "revision_id"; "uid_unique"].

Definition DeviceInfo_of_dict (d : Dict) : Res DeviceInfo :=
  let? v := keyword_arguments DeviceInfo_names d in
  DeviceInfo_post_init
    (mkDeviceInfo (at_ v 0) (at_ v 1) (at_ v 2) (at_ v 3) (at_ v 4) (at_ v 5) (at_ v 6) (at_ v 7)
       (at_ v 8) (at_ v 9) (at_ v 10) (at_ v 11) (at_ v 12)).

Definition ErrorDetail_names : list string :=
  ["operation"; "stage"; "address"; "length_words"; "api_status"; "fsm_status"; "extra0";
   "extra1"].

Definition ErrorDetail_of_dict (d : Dict) : Res ErrorDetail :=
  let? v := keyword_arguments ErrorDetail_names d in
  ErrorDetail_post_init
    (mkErrorDetail (at_ v 0) (at_ v 1) (at_ v 2) (at_ v 3) (at_ v 4) (at_ v 5) (at_ v 6) (at_ v 7)).

Definition ProtocolInfo_names : list string :=
  ["protocol_ver"; "min_supported_ver"; "max_supported_ver"; "header_words"; "crc_type";
   "endian"; "max_payload_words"; "flags"].

(** The class checks its fields only when it is built from words. *)
Definition ProtocolInfo_of_dict (d : Dict) : Res ProtocolInfo :=
  let? v := keyword_arguments ProtocolInfo_names d in
  Ok (mkProtocolInfo (at_ v 0) (at_ v 1) (at_ v 2) (at_ v 3) (at_ v 4) (at_ v 5) (at_ v 6)
        (at_ v 7)).

Definition MetadataSummary_names : list string :=
  ["metadata_valid"; "active_slot"; "latest_record_type"; "boot_attempt_count"; "app_confirmed";
   "boot_attempt_limit"; "app_version_major"; "app_version_minor"; "app_version_patch";
   "app_version_build"; "entry_point"; "image_crc32"; "state"; "valid_record_count";
   "invalid_record_count"; "erased_record_count"; "free_record_count"; "next_record_index";
   "image_size_words"; "target_device_id"; "target_cpu_id"].

Definition MetadataSummary_of_dict (d : Dict) : Res MetadataSummary :=
  let? v := keyword_arguments MetadataSummary_names d in
  Ok (mkMetadataSummary (at_ v 0) (at_ v 1) (at_ v 2) (at_ v 3) (at_ v 4) (at_ v 5) (at_ v 6)
        (at_ v 7) (at_ v 8) (at_ v 9) (at_ v 10) (at_ v 11) (at_ v 12) (at_ v 13) (at_ v 14)
        (at_ v 15) (at_ v 16) (at_ v 17) (at_ v 18) (at_ v 19) (at_ v 20)).

(** ** Round trips: the summaries of the status operations

    What a status operation reports as its summary is read back as the model
    it was made from. *)

Lemma MetadataSummary_of_to_dict m : MetadataSummary_of_dict (MetadataSummary_dict m) = Ok m.
Proof. by destruct m. Qed.

Lemma ProtocolInfo_of_to_dict p : ProtocolInfo_of_dict (ProtocolInfo_dict p) = Ok p.
Proof. by destruct p. Qed.

Lemma DeviceInfo_of_to_dict d :
  DeviceInfo_post_init d = Ok d → DeviceInfo_of_dict (DeviceInfo_dict d) = Ok d.
Proof. intros H. destruct d. exact H. Qed.

Lemma ErrorDetail_of_to_dict e :
  ErrorDetail_post_init e = Ok e → ErrorDetail_of_dict (ErrorDetail_dict e) = Ok e.
Proof. intros H. destruct e. exact H. Qed.

(** * Status requests and snapshots (gui/status_models.py)

    The requests of the read-only status tasks with their plans, and the
    snapshots they leave.  Checks of the Python type of a field are carried by
    the Rocq types. *)

#[export] Instance MetadataSummary_eq_dec : EqDecision MetadataSummary.
Proof. solve_decision. Defined.
#[export] Instance DeviceInfo_eq_dec : EqDecision DeviceInfo.
Proof. solve_decision. Defined.

Module LoadedImageMatch.
Inductive LoadedImageMatch_t : Set :=
| MATCH | MISMATCH | NO_PREPARED_IMAGE | NO_VALID_TARGET_IMAGE.
End LoadedImageMatch.
Abbreviation LoadedImageMatch := LoadedImageMatch.LoadedImageMatch_t.

#[export] Instance LoadedImageMatch_eq_dec : EqDecision LoadedImageMatch.
Proof. solve_decision. Defined.

Module MetadataScanState.
Inductive MetadataScanState_t : Set := EMPTY | VALID | INVALID | DUPLICATE_SEQUENCE.

Definition MetadataScanState_value (s : MetadataScanState_t) : Z :=
  match s with EMPTY => 0 | VALID => 1 | INVALID => 2 | DUPLICATE_SEQUENCE => 3 end.
End MetadataScanState.

(** ** Requests *)

(** [_status_plan] *)
Definition status_plan (task_id title step_id : string) : Res TaskPlan :=
  task_plan task_id title [(step_id, title)] ProgressMode.INDETERMINATE
    TaskConnectionRequirement.CONNECTED false CompletionPolicy.AUTO_CLOSE_ON_CLEAN_SUCCESS true.

(** The concrete classes of [StatusRequest]. *)
Inductive StatusRequest : Set :=
| MetadataRefreshRequest (connection_id : string) (automatic : bool)
| DeviceInfoRequest (connection_id : string)
| ProtocolInfoRequest (connection_id : string)
| LastErrorRequest (connection_id : string).

Definition sr_connection_id (r : StatusRequest) : string :=
  match r with
  | MetadataRefreshRequest c _ | DeviceInfoRequest c | ProtocolInfoRequest c
  | LastErrorRequest c => c
  end.

Definition with_connection_id (connection_id : string) (r : StatusRequest) : StatusRequest :=
  match r with
  | MetadataRefreshRequest _ automatic => MetadataRefreshRequest connection_id automatic
  | DeviceInfoRequest _ => DeviceInfoRequest connection_id
  | ProtocolInfoRequest _ => ProtocolInfoRequest connection_id
  | LastErrorRequest _ => LastErrorRequest connection_id
  end.

Definition StatusRequest_post_init (r : StatusRequest) : Res StatusRequest :=
  let connection_id := strip (sr_connection_id r) in
  fail (Err ValueError (Lit "connection_id must not be empty"))
    when bool_decide (connection_id = EmptyString) ;;
  Ok (with_connection_id connection_id r).

Definition status_title (r : StatusRequest) : string :=
  match r with
  | MetadataRefreshRequest _ _ => "Refresh Metadata"
  | DeviceInfoRequest _ => "Read Device Info"
  | ProtocolInfoRequest _ => "Read Protocol Info"
  | LastErrorRequest _ => "Get Last Error"
  end.

Definition status_step_id (r : StatusRequest) : string :=
  match r with
  | MetadataRefreshRequest _ _ => "refresh_metadata"
  | DeviceInfoRequest _ => "read_device_info"
  | ProtocolInfoRequest _ => "read_protocol_info"
  | LastErrorRequest _ => "get_last_error"
  end.

Definition StatusRequest_create_plan (r : StatusRequest) (task_id : string) : Res TaskPlan :=
  status_plan task_id (status_title r) (status_step_id r).

(** ** Snapshots *)

(** [_validate_snapshot] *)
Definition validate_snapshot (connection_id target_key : string) : Res unit :=
  fail (Err ValueError (Lit "connection_id must not be empty")) when blank connection_id ;;
  fail (Err ValueError (Lit "target_key must be 'cpu1' or 'cpu2'"))
    when negb (bool_decide (target_key ∈ ["cpu1"; "cpu2"])) ;;
  Ok tt.

Record MetadataStatusSnapshot : Type := mkMetadataSnapshot {
  mt_connection_id : string;
  mt_target_key : string;
  mt_operation_result : OperationResult;
  mt_raw_metadata : MetadataSummary;
  mt_metadata_valid : bool;
  mt_image_valid : bool;
  mt_entry_point_valid : bool;
  mt_boot_attempt_present : bool;
  mt_app_confirmed : bool;
  mt_confirmed_bootable : bool;
  mt_loaded_image_match : LoadedImageMatch;
  mt_automatic : bool;
}.

Definition MetadataStatusSnapshot_post_init (s : MetadataStatusSnapshot)
    : Res MetadataStatusSnapshot :=
  let? _ := validate_snapshot (mt_connection_id s) (mt_target_key s) in Ok s.

(** [a == b] *)
Definition metadata_snapshot_eq (a b : MetadataStatusSnapshot) : bool :=
  bool_decide (mt_connection_id a = mt_connection_id b)
  && bool_decide (mt_target_key a = mt_target_key b)
  && operation_result_eq (mt_operation_result a) (mt_operation_result b)
  && bool_decide (mt_raw_metadata a = mt_raw_metadata b)
  && Bool.eqb (mt_metadata_valid a) (mt_metadata_valid b)
  && Bool.eqb (mt_image_valid a) (mt_image_valid b)
  && Bool.eqb (mt_entry_point_valid a) (mt_entry_point_valid b)
  && Bool.eqb (mt_boot_attempt_present a) (mt_boot_attempt_present b)
  && Bool.eqb (mt_app_confirmed a) (mt_app_confirmed b)
  && Bool.eqb (mt_confirmed_bootable a) (mt_confirmed_bootable b)
  && bool_decide (mt_loaded_image_match a = mt_loaded_image_match b)
  && Bool.eqb (mt_automatic a) (mt_automatic b).

(** The four classes of snapshots.  Their fields are scalars, results and
    models, nothing that can be changed in place. *)
Inductive StatusSnapshot : Type :=
| MetadataSnapshot (s : MetadataStatusSnapshot)
| DeviceInfoStatusSnapshot (connection_id target_key : string)
    (operation_result : OperationResult) (device_info : DeviceInfo)
| ProtocolInfoStatusSnapshot (connection_id target_key : string)
    (operation_result : OperationResult) (protocol_info : ProtocolInfo)
| LastErrorStatusSnapshot (connection_id target_key : string)
    (operation_result : OperationResult) (last_error : ErrorDetail).

Definition StatusSnapshot_post_init (s : StatusSnapshot) : Res StatusSnapshot :=
  match s with
  | MetadataSnapshot m => let? _ := MetadataStatusSnapshot_post_init m in Ok s
  | DeviceInfoStatusSnapshot connection_id target_key _ _
  | ProtocolInfoStatusSnapshot connection_id target_key _ _
  | LastErrorStatusSnapshot connection_id target_key _ _ =>
      let? _ := validate_snapshot connection_id target_key in Ok s
  end.
