(* ===== verification/RamOps.v ===== *)
(** Memory reads, RAM image operations and the discovery of the target. *)

(** * Memory reads (operations/memory_ops.py)

    [memory_read] reads a range of words frame by frame.  The [for] loop runs
    over [range(frame_count)], a finite list. *)

From stdpp Require Import pretty.
From S2P Require Import Prelude.
From S2P Require Import Errors.
From S2P Require Import Constants.
From S2P Require Import Words.
From S2P Require Import Models.
From S2P Require Import Firmware.
From S2P Require Import Packets.
From S2P Require Import Targets.
From S2P Require Import BootClient.
From S2P Require Import OperationResults.
From S2P Require Import OperationProtocol.
From S2P Require Import FlashOps.
From S2P Require Import StatusOps.

Record MemoryReadRequest : Type := mkReadRequest {
  rq_start_address : Z;
  rq_word_count : Z;
}.

Definition MemoryReadRequest_post_init (r : MemoryReadRequest) : Res MemoryReadRequest :=
  fail (Err ValueError (Lit "start_address must fit uint32"))
    when negb ((0 <=? rq_start_address r) && (rq_start_address r <=? 0xFFFFFFFF)) ;;
  fail (Err ValueError (Lit "word_count must be a positive uint32"))
    when negb ((0 <? rq_word_count r) && (rq_word_count r <=? 0xFFFFFFFF)) ;;
  fail (Err ValueError (Lit "memory read exceeds the uint32 address space"))
    when rq_start_address r + rq_word_count r - 1 >? 0xFFFFFFFF ;;
  Ok r.

(** [_summary] *)
Definition memory_summary (request : MemoryReadRequest) (frame_count : Z) : Dict :=
  [("start_address"%string, VInt (rq_start_address request));
   ("end_address"%string, VInt (rq_start_address request + rq_word_count request - 1));
   ("word_count"%string, VInt (rq_word_count request));
   ("frame_count"%string, VInt frame_count)].

(** [details={"words": tuple(words)}] *)
Definition words_details (words : list Z) : Dict := [("words"%string, VSeq (map VInt words))].

(** [_cancellation_info] *)
Definition memory_cancellation_info (request : MemoryReadRequest) (current_words : Z)
    : Res OperationCancellationInfo :=
  OperationCancellationInfo_post_init
    (mkCancellationInfo "MEMORY_READ" current_words (rq_word_count request) true false false false
       false None "NONE").

(** The payload of MEMORY_READ *)
Definition memory_read_payload (address chunk_word_count : Z) : Res (list Z) :=
  let? addr := split_u32 address in Ok [addr.1; addr.2; chunk_word_count; 0].

(** The checks of a response: its data words. *)
Definition check_memory_response (request : MemoryReadRequest)
    (frame_index address chunk_word_count : Z) (words payload : list Z) : Res (list Z) :=
  fail (Err ProtocolDecodeError
         (Fmt "MEMORY_READ frame {} response has {} payload words; expected at least 3"
            [VInt frame_index; VInt (zlen payload)]))
    when zlen payload <? 3 ;;
  let response_address := join_u32 (at_ payload 0) (at_ payload 1) in
  let response_word_count := at_ payload 2 in
  let data := slice_from payload 3 in
  fail (Err ProtocolDecodeError
         (Fmt "MEMORY_READ frame {} address mismatch: expected 0x{:08X}, actual 0x{:08X}"
            [VInt frame_index; VInt address; VInt response_address]))
    when negb (response_address =? address) ;;
  fail (Err ProtocolDecodeError
         (Fmt "MEMORY_READ frame {} count mismatch: expected {}, actual {}"
            [VInt frame_index; VInt chunk_word_count; VInt response_word_count]))
    when negb (response_word_count =? chunk_word_count) ;;
  fail (Err ProtocolDecodeError
         (Fmt "MEMORY_READ frame {} data length mismatch: expected {}, actual payload length {}"
            [VInt frame_index; VInt response_word_count; VInt (zlen data)]))
    when negb (zlen data =? response_word_count) ;;
  fail (Err ProtocolDecodeError
         (Fmt "MEMORY_READ frame {} contains a non-uint16 data word" [VInt frame_index]))
    when negb (forallb fits_u16 data) ;;
  fail (Err ProtocolDecodeError
         (Fmt "MEMORY_READ frame {} exceeds requested count {}"
            [VInt frame_index; VInt (rq_word_count request)]))
    when zlen words + zlen data >? rq_word_count request ;;
  Ok data.

Section memory.
Context {T : Type} `{ByteTransport T}.
Context (iterations : Z → nat) (ctx : OperationContext).

Abbreviation Op := (ST (World T)).

(** The tests before the first frame: the effective payload size *)
Definition memory_preflight (c : BootProtocolClient T) : Res Z :=
  let failure code message details :=
    operation_failure code (Lit message) "MEMORY_READ_PREFLIGHT" details in
  match bc_device_info c with
  | None => Raise (failure "CAPABILITY_UNAVAILABLE"%string "DeviceInfo is not cached"%string [])
  | Some device_info =>
      fail (failure "UNSUPPORTED_FEATURE"%string
              "connected target does not advertise MEMORY_READ"%string [])
        when Z.land (di_feature_flags device_info) Feature.Feature_MEMORY_READ =? 0 ;;
      fail (failure "UNSUPPORTED_OPERATION"%string
              "target profile does not define MEMORY_READ"%string [])
        when negb (is_some (tp_command_set (cx_target ctx) memory_read)) ;;
      let? max_payload_words := effective_max_payload_words c in
      fail (failure "INVALID_PAYLOAD_CAPACITY"%string
              "effective payload capacity must be at least 4 words"%string
              [("effective_max_payload_words"%string, VInt max_payload_words)])
        when max_payload_words <? 4 ;;
      Ok max_payload_words
  end.

Section loop.
Context (request : MemoryReadRequest) (frame_capacity frame_count : Z).

(** The [for] loop over the remaining frame indices: the words read so far,
    or a result when cancellation was requested. *)
Fixpoint memory_loop (frames : list Z) (words : list Z) (address : Z)
    : Op (list Z + OperationResult) :=
  match frames with
  | [] => ret (inl words)
  | frame_index :: frames =>
      let chunk_word_count := Z.min frame_capacity (rq_word_count request - zlen words) in
      payload <- send_command iterations ctx memory_read
                   (memory_read_payload address chunk_word_count) ;;
      data <- lift (check_memory_response request frame_index address chunk_word_count words payload) ;;
      let words := words ++ data in
      emit_progress ctx
        (mkProgress "memory_read" (target_name ctx) "MEMORY_READ" "Memory read progress"
           (Some (zlen words)) (Some (rq_word_count request)) (Some chunk_word_count)
           [("frame_index"%string, VInt frame_index); ("frame_count"%string, VInt frame_count);
            ("chunk_start_address"%string, VInt address)] true) ;;;
      let address := address + chunk_word_count in
      asked <- operation_cancellation_requested ctx ;;
      if (asked : bool) then
        cancellation <- lift (memory_cancellation_info request (zlen words)) ;;
        if zlen words <? rq_word_count request then
          result <- lift (cancelled_result ctx "memory_read" "MEMORY_READ" cancellation None) ;;
          ret (inr result)
        else
          result <- lift (completed_after_cancel_result ctx "memory_read" "MEMORY_READ"
                            (memory_summary request frame_count) cancellation
                            (words_details words) None) ;;
          ret (inr result)
      else memory_loop frames words address
  end.
End loop.

Definition memory_read_op (request : MemoryReadRequest) : Op OperationResult :=
  try_operation ctx "memory_read" "MEMORY_READ" (
    c <- gets ow_client ;;
    max_payload_words <- lift (memory_preflight c) ;;
    asked <- operation_cancellation_requested ctx ;;
    if (asked : bool) then
      cancellation <- lift (memory_cancellation_info request 0) ;;
      lift (cancelled_result ctx "memory_read" "MEMORY_READ" cancellation None)
    else
    let frame_capacity := Z.min 0xFFFF (max_payload_words - 3) in
    let frame_count := (rq_word_count request + frame_capacity - 1) / frame_capacity in
    read <- memory_loop request frame_capacity frame_count (zrange 0 frame_count) []
              (rq_start_address request) ;;
    match read with
    | inr result => ret result
    | inl words =>
        if negb (zlen words =? rq_word_count request)
        then raise (Err ProtocolDecodeError (Fmt "MEMORY_READ returned {} words; expected {}"
                      [VInt (zlen words); VInt (rq_word_count request)]))
        else lift (ok_result ctx "memory_read" "MEMORY_READ" (memory_summary request frame_count)
                     (words_details words) None None)
    end).
End memory.

(** * RAM image operations and target discovery (operations/ram_ops.py,
      operations/discovery.py) *)

(** [f'cpu{cpu_id}'] *)
Definition cpu_key (cpu_id : Z) : string :=
  ("cpu" ++ pretty (Z.to_N cpu_id))%string.

Record DiscoveredTarget : Type := mkDiscovered {
  dt_device_info : DeviceInfo;
  dt_target_profile : TargetProfile;
  dt_target_key : string;
}.

Definition DiscoveredTarget_post_init (t : DiscoveredTarget) : Res DiscoveredTarget :=
  fail (Err ValueError (Lit "target_key must be a non-empty string"))
    when bool_decide (dt_target_key t = EmptyString) ;;
  fail (Err ValueError (Lit "target_key does not match DeviceInfo"))
    when negb (bool_decide (dt_target_key t = cpu_key (di_cpu_id (dt_device_info t)))) ;;
  fail (Err ValueError (Lit "target profile CPU does not match DeviceInfo"))
    when negb (tp_cpu_id (dt_target_profile t) =? di_cpu_id (dt_device_info t)) ;;
  Ok t.

Record TargetDiscoveryOutcome : Type := mkDiscovery {
  td_result : OperationResult;
  td_discovered_target : option DiscoveredTarget;
}.

Definition TargetDiscoveryOutcome_post_init (o : TargetDiscoveryOutcome)
    : Res TargetDiscoveryOutcome :=
  fail (Err ValueError (Lit "discovery result and target must agree"))
    when negb (Bool.eqb (or_ok (td_result o)) (is_some (td_discovered_target o))) ;;
  Ok o.

Section ram.
Context {T : Type} `{ByteTransport T}.
Context (iterations : Z → nat) (ctx : OperationContext).

Abbreviation Op := (ST (World T)).

(** ** RAM images *)

(** [_validate_image] *)
Definition validate_ram_image (image : PreparedRamImage) : Res unit :=
  fail (operation_failure "INVALID_RAM_IMAGE"
          (Lit "prepared RAM entry point does not match firmware image") "RAM_ADMISSION" [])
    when negb (pr_entry_point image =? fi_entry_point (pr_image image)) ;;
  fail (operation_failure "INVALID_RAM_IMAGE"
          (Lit "prepared RAM word count does not match firmware image") "RAM_ADMISSION" [])
    when negb (pr_total_words image =? fi_total_words (pr_image image)) ;;
  match mp_ram (tp_memory_map (cx_target ctx)) with
  | None => Raise (Err UnsupportedOperationError (Lit "target does not define a RAM layout"))
  | Some ram =>
      match validate_ram_app_image (pr_image image) ram with
      | Raise exc =>
          if isinstance exc ValueError
          then Raise (operation_failure "INVALID_RAM_IMAGE" (exn_str exc) "RAM_ADMISSION" [])
          else Raise exc
      | Ok u => Ok u
      end
  end.

Definition ram_transfer (image : PreparedRamImage) (packets : list DataPacket) (total_words : Z)
    : Transfer DataPacket :=
  mkTransfer "load_ram_image" packets dp_words total_words "RAM_LOAD_BEGIN" "RAM_LOAD_DATA"
    "RAM_LOAD_END" "RAM load data"
    (ram_load_begin_protocol iterations ctx (zlen packets) total_words (pr_entry_point image)
       (pr_image_crc32 image) ;;; ret tt)
    (λ packet, ram_load_data_protocol iterations ctx (dp_address packet) (dp_words packet)
                 (dp_index packet) ;;; ret tt)
    (ram_load_end_protocol iterations ctx (zlen packets) total_words (pr_image_crc32 image)
       ;;; ret tt)
    (λ _, "RESTART_RAM_LOAD"%string) (λ _, "RECONNECT_AND_RESTART_RAM_LOAD"%string)
    (λ _, false) None.

Definition load_ram_image (image : PreparedRamImage) : Op OperationResult :=
  let operation := "load_ram_image"%string in
  try_operation ctx operation "RAM_LOAD" (
    lift (validate_ram_image image) ;;;
    c <- gets ow_client ;;
    max_data_words <- lift (effective_max_data_words c) ;;
    packets <- lift (prepare_ram_packets (pr_image image) max_data_words) ;;
    let total_words := zsum (map (λ packet, zlen (dp_words packet)) packets) in
    outcome <- run_cancellable_transfer ctx (ram_transfer image packets total_words) ;;
    lift (transfer_result ctx operation "RAM_LOAD_END" outcome None)).

Definition check_ram_crc_op (image : PreparedRamImage) : Op OperationResult :=
  let operation := "check_ram_crc"%string in
  try_operation ctx operation "RAM_CHECK_CRC" (
    lift (validate_ram_image image) ;;;
    ram_check_crc_protocol iterations ctx (pr_image_crc32 image) (pr_total_words image) ;;;
    lift (ok_result ctx operation "RAM_CHECK_CRC"
            [("image_crc32"%string, VInt (pr_image_crc32 image));
             ("total_words"%string, VInt (pr_total_words image))] [] None None)).
End ram.

(** ** Discovery *)

Definition DISCOVERY_OPERATION : string := "discover_connected_target".
Definition DISCOVERY_STAGE : string := "RESOLVE_TARGET".

(** [_discovery_failure] *)
Definition discovery_failure (code : string) (message : string) (details : Dict)
    : Res OperationResult :=
  OperationResult_post_init
    (mkResult false DISCOVERY_OPERATION (tp_name DISCOVERY_PROFILE) DISCOVERY_STAGE [] [] None None
       (Some (mkErrorInfo code (Lit message) DISCOVERY_STAGE true details OPERATION)) None None).

Definition undiscovered (result : Res OperationResult) : Res TargetDiscoveryOutcome :=
  let? result := result in TargetDiscoveryOutcome_post_init (mkDiscovery result None).

Section discovery.
Context {T : Type} `{ByteTransport T}.
Context (iterations : Z → nat) (no_service : PreparedServiceImage).

(** [OperationContext(session=session, target=DISCOVERY_PROFILE)]; such a
    context has no service, and the operations used here read none. *)
Definition discovery_context : OperationContext :=
  mkContext DISCOVERY_PROFILE false None no_service false.

(** The profile of the connected CPU, or the failure *)
Definition resolve_target (device_info : DeviceInfo) : TargetProfile + Res OperationResult :=
  if negb (di_device_id device_info =? DeviceId.DeviceId_value DeviceId.F28377D) then
    inr (discovery_failure "UNSUPPORTED_DEVICE"
           "Connected device is not a supported TMS320F28377D"
           [("actual_device_id"%string, VInt (di_device_id device_info));
            ("expected_device_id"%string, VInt (DeviceId.DeviceId_value DeviceId.F28377D))])
  else
  let cpu_id := di_cpu_id device_info in
  let target_key := cpu_key cpu_id in
  let identity_details :=
    [("device_id"%string, VInt (di_device_id device_info)); ("actual_cpu_id"%string, VInt cpu_id);
     ("attempted_target_key"%string, VStr target_key)] in
  match target_profile_for_key target_key with
  | None =>
      inr (discovery_failure "UNKNOWN_CPU_ID" "Connected device reported an unknown CPU ID"
             identity_details)
  | Some profile =>
      if negb (tp_cpu_id profile =? cpu_id) then
        inr (discovery_failure "TARGET_PROFILE_MISMATCH"
               "Target Profile CPU does not match DeviceInfo" identity_details)
      else inl profile
  end.

(** The capacities the result reports *)
Definition discovery_capacities (c : BootProtocolClient T) (device_info : DeviceInfo)
    : Res (list (string * Z)) :=
  match bc_protocol_info c with
  | None => Raise (Err ProtocolDecodeError
                     (Lit "GET_PROTOCOL_INFO succeeded without cached ProtocolInfo"))
  | Some protocol_info =>
      let? payload := effective_max_payload_words c in
      let? data := effective_max_data_words c in
      let? write_data := effective_max_write_data_words c in
      Ok [("device_max_payload_words"%string, di_max_payload_words device_info);
          ("protocol_max_payload_words"%string, pi_max_payload_words protocol_info);
          ("effective_max_payload_words"%string, payload);
          ("effective_max_data_words"%string, data);
          ("effective_max_write_data_words"%string, write_data)]
  end.

Definition discovered (c : BootProtocolClient T) (device_info : DeviceInfo)
    (profile : TargetProfile) : Res TargetDiscoveryOutcome :=
  match discovery_capacities c device_info with
  | Raise exc =>
      undiscovered (failure_result discovery_context DISCOVERY_OPERATION "GET_PROTOCOL_INFO" exc)
  | Ok capacities =>
      let target_key := cpu_key (di_cpu_id device_info) in
      let? target := DiscoveredTarget_post_init (mkDiscovered device_info profile target_key) in
      let? result := OperationResult_post_init
        (mkResult true DISCOVERY_OPERATION (tp_name DISCOVERY_PROFILE) DISCOVERY_STAGE
           ([("device_id"%string, VInt (di_device_id device_info));
             ("cpu_id"%string, VInt (di_cpu_id device_info));
             ("target_key"%string, VStr target_key)] ++ int_dict capacities)
           [] None None None None None) in
      TargetDiscoveryOutcome_post_init (mkDiscovery result (Some target))
  end.

Definition discover_connected_target : ST (World T) TargetDiscoveryOutcome :=
  result <- get_device_info_op iterations discovery_context ;;
  if negb (or_ok result) then lift (undiscovered (Ok result)) else
  c <- gets ow_client ;;
  match bc_device_info c with
  | None => raise (Err RuntimeError (Lit "get_device_info succeeded without typed DeviceInfo"))
  | Some device_info =>
      match resolve_target device_info with
      | inr failure => lift (undiscovered failure)
      | inl profile =>
          result <- get_protocol_info_op iterations discovery_context ;;
          if negb (or_ok result) then lift (undiscovered (Ok result)) else
          c <- gets ow_client ;;
          lift (discovered c device_info profile)
      end
  end.
End discovery.
