(* ===== verification/RuntimeValues.v ===== *)
(** * Values of the GUI runtime

    Timestamps and the arbitrary Python objects that the Runtime V2 state keeps:
    [_freeze_runtime_value] of gui/runtime_v2_models.py, which turns an object
    into an immutable copy of itself, and the similar [_freeze] of
    gui/runtime_models.py for the details of a connection. *)

From S2P Require Import Prelude.
From S2P Require Import Errors.
From S2P Require Import StatusModels.

(** ** datetime *)

(** Wall-clock microseconds and the UTC offset of the time zone in
    microseconds; [None] for a naive datetime. *)
Record datetime : Set := mkDatetime {
  dt_clock : Z;
  dt_utcoffset : option Z;
}.

#[export] Instance datetime_eq_dec : EqDecision datetime.
Proof. solve_decision. Defined.

(** [d.utcoffset() == timedelta(0)] *)
Definition is_utc (d : datetime) : bool := bool_decide (dt_utcoffset d = Some 0).

(** The instant that comparisons of datetimes look at. *)
Definition dt_instant (d : datetime) : Z := dt_clock d - default 0 (dt_utcoffset d).

(** [a < b]: comparing a naive datetime with an aware one is a TypeError. *)
Definition dt_lt (a b : datetime) : Res bool :=
  fail (Err TypeError (Lit "can't compare offset-naive and offset-aware datetimes"))
    when negb (Bool.eqb (bool_decide (is_Some (dt_utcoffset a)))
                        (bool_decide (is_Some (dt_utcoffset b)))) ;;
  Ok (dt_instant a <? dt_instant b).

Lemma dt_lt_utc a b :
  is_utc a = true → is_utc b = true → dt_lt a b = Ok (dt_clock a <? dt_clock b).
Proof.
  unfold is_utc, dt_lt, dt_instant. rewrite !bool_decide_eq_true. intros -> ->.
  simpl. by rewrite !Z.sub_0_r.
Qed.

(** ** Python objects *)

(** What an enumeration class is besides an Enum: [class C(str, Enum)],
    [class C(IntEnum)]. *)
Inductive EnumBase : Set := PlainEnum | StrEnum | IntEnum.

#[export] Instance EnumBase_eq_dec : EqDecision EnumBase.
Proof. solve_decision. Defined.

(** Values that are immutable by their type. *)
Inductive Atom : Set :=
| ANone
| ABool (b : bool)
| AInt (z : Z)
| AFloat (bits : Z)
| AStr (s : string)
| AEnum (base : EnumBase) (cls name : string)
| ADatetime (d : datetime).

#[export] Instance Atom_eq_dec : EqDecision Atom.
Proof. solve_decision. Defined.

(** An object with everything it refers to.  [id] is the identity of a
    container; an object that contains itself is written with its identity at
    the second occurrence, the contents of which are never read.  Keys of
    mappings are scalars.  The snapshots of gui/status_models.py are kept as
    such: frozen dataclasses of scalars, results and models. *)
Inductive object : Type :=
| OAtom (a : Atom)
| OMapping (id : Z) (read_only : bool) (items : list (Atom * object))
| OTuple (id : Z) (items : list object)
| OList (id : Z) (items : list object)
| ODataclass (id : Z) (cls : string) (frozen : bool) (fields : list (string * object))
| OStatus (s : StatusSnapshot)
| OOther (id : Z) (cls : string).

Definition ONone : object := OAtom ANone.

(** [value is None] *)
Definition is_none (o : object) : bool :=
  match o with OAtom ANone => true | _ => false end.

(** The values of the items of a mapping, or of the fields of a dataclass, each
    under its key. *)
Definition map_values {K} (f : object → Res object) (l : list (K * object)) : Res (list (K * object)) :=
  mapR (λ kv, let? v := f kv.2 in Ok (kv.1, v)) l.

Definition cyclic (id : Z) (active : list Z) : bool := bool_decide (id ∈ active).

(** [_freeze_runtime_value(value, active)]: [active] holds the identities of
    the containers that enclose the value. *)
Fixpoint freeze_runtime_value (active : list Z) (value : object) : Res object :=
  let cyclic_error := Err TypeError (Lit "cyclic Runtime V2 value") in
  let unsupported cls :=
    Err TypeError (Fmt "unsupported mutable Runtime V2 value: {}" [VStr cls]) in
  match value with
  | OAtom _ | OStatus _ => Ok value
  | OMapping id _ items =>
      fail cyclic_error when cyclic id active ;;
      let? items := map_values (freeze_runtime_value (id :: active)) items in
      Ok (OMapping id true items)
  | OTuple id items | OList id items =>
      fail cyclic_error when cyclic id active ;;
      let? items := mapR (freeze_runtime_value (id :: active)) items in
      Ok (OTuple id items)
  | ODataclass id cls frozen fields =>
      fail cyclic_error when cyclic id active ;;
      fail unsupported cls when negb frozen ;;
      let? fields := map_values (freeze_runtime_value (id :: active)) fields in
      Ok (ODataclass id cls true fields)
  | OOther id cls =>
      fail cyclic_error when cyclic id active ;;
      Raise (unsupported cls)
  end.

(** [isinstance(key, str)] *)
Definition is_str (a : Atom) : bool :=
  match a with AStr _ | AEnum StrEnum _ _ => true | _ => false end.

(** [_freeze(value, active)] of gui/runtime_models.py *)
Fixpoint freeze_details (active : list Z) (value : object) : Res object :=
  let cyclic_error := Err TypeError (Lit "cyclic GUI details") in
  let unsupported :=
    Err TypeError (Lit "runtime resources are not immutable GUI data") in
  match value with
  | OAtom (AEnum PlainEnum _ _) | OAtom (ADatetime _) | OStatus _ => Raise unsupported
  | OAtom _ => Ok value
  | OMapping id _ items =>
      fail cyclic_error when cyclic id active ;;
      fail (Err TypeError (Lit "details keys must be strings"))
        when negb (forallb (λ kv, is_str kv.1) items) ;;
      let? items := map_values (freeze_details (id :: active)) items in
      Ok (OMapping id true items)
  | OTuple id items | OList id items =>
      fail cyclic_error when cyclic id active ;;
      let? items := mapR (freeze_details (id :: active)) items in
      Ok (OTuple id items)
  | ODataclass id _ _ _ | OOther id _ =>
      fail cyclic_error when cyclic id active ;;
      Raise unsupported
  end.

Definition freeze (value : object) : Res object := freeze_runtime_value [] value.

(** ** What freezing promises *)

(** No operation on the object, or on anything it refers to, can change it. *)
Fixpoint immutable (o : object) : bool :=
  match o with
  | OAtom _ | OStatus _ => true
  | OMapping _ read_only items => read_only && forallb (λ kv, immutable kv.2) items
  | OTuple _ items => forallb immutable items
  | OList _ _ => false
  | ODataclass _ _ frozen fields => frozen && forallb (λ kv, immutable kv.2) fields
  | OOther _ _ => false
  end.

(** The object with its lists turned into tuples and its mappings read-only. *)
Fixpoint frozen_copy (o : object) : object :=
  match o with
  | OAtom _ | OStatus _ | OOther _ _ => o
  | OMapping id _ items => OMapping id true (map (λ kv, (kv.1, frozen_copy kv.2)) items)
  | OTuple id items | OList id items => OTuple id (map frozen_copy items)
  | ODataclass id cls frozen fields =>
      ODataclass id cls frozen (map (λ kv, (kv.1, frozen_copy kv.2)) fields)
  end.

(** The identity of a container and the objects it refers to directly. *)
Definition container_id (o : object) : option Z :=
  match o with
  | OAtom _ | OStatus _ => None
  | OMapping id _ _ | OTuple id _ | OList id _ | ODataclass id _ _ _ | OOther id _ => Some id
  end.

Definition children (o : object) : list object :=
  match o with
  | OAtom _ | OStatus _ | OOther _ _ => []
  | OMapping _ _ items => map snd items
  | OTuple _ items | OList _ items => items
  | ODataclass _ _ _ fields => map snd fields
  end.

(** [occurs path value o]: [o] is [value] or is inside it, under the
    containers with the identities [path], innermost first. *)
Inductive occurs : list Z → object → object → Prop :=
| occurs_here value : occurs [] value value
| occurs_inside path value inner o id :
    container_id value = Some id → inner ∈ children value →
    occurs path inner o → occurs (path ++ [id]) value o.

(** Scalars, mappings, sequences and frozen dataclasses can be frozen. *)
Definition supported (o : object) : bool :=
  match o with
  | OOther _ _ | ODataclass _ _ false _ => false
  | _ => true
  end.

(** The value holds supported objects only, none of them inside itself. *)
Definition freezable (active : list Z) (value : object) : Prop :=
  ∀ path o, occurs path value o →
    supported o = true ∧ ∀ id, container_id o = Some id → id ∉ path ++ active.

(** ** Proofs *)

(** Induction on objects: a property of all direct contents carries over. *)
Lemma object_children_ind (P : object → Prop) :
  (∀ value, (∀ inner, inner ∈ children value → P inner) → P value) → ∀ value, P value.
Proof.
  intros step.
  fix IH 1. intros value.
  assert (Hlist : ∀ l, Forall P l).
  { fix IHl 1. intros [|o l]; constructor; [apply IH|apply IHl]. }
  assert (Hkeyed : ∀ K (l : list (K * object)), Forall P (map snd l)).
  { intros K. fix IHl 1. intros [|[k o] l]; constructor; [apply IH|apply IHl]. }
  apply step. destruct value as [a|id ro items|id items|id items|id cls fr fields|st|id cls]; simpl.
  - intros inner []%elem_of_nil.
  - apply Forall_forall, Hkeyed.
  - apply Forall_forall, Hlist.
  - apply Forall_forall, Hlist.
  - apply Forall_forall, Hkeyed.
  - intros inner []%elem_of_nil.
  - intros inner []%elem_of_nil.
Qed.

(** The frozen container of [value] with other contents. *)
Definition refill (value : object) (inner : list object) : object :=
  match value with
  | OAtom _ | OStatus _ | OOther _ _ => value
  | OMapping id _ items => OMapping id true (zip (map fst items) inner)
  | OTuple id _ | OList id _ => OTuple id inner
  | ODataclass id cls frozen fields => ODataclass id cls frozen (zip (map fst fields) inner)
  end.

Lemma map_values_zip {K} f (l : list (K * object)) :
  map_values f l = let? inner := mapR f (map snd l) in Ok (zip (map fst l) inner).
Proof.
  unfold map_values. induction l as [|[k o] l IH]; simpl; [done|].
  destruct (f o); [|done]. rewrite IH. by destruct (mapR f (map snd l)).
Qed.

(** The cases of [_freeze_runtime_value] in one equation. *)
Lemma freeze_equation active value :
  (∃ e, freeze_runtime_value active value = Raise e ∧ class_of e = TypeError ∧
     ¬ (supported value = true ∧ ∀ id, container_id value = Some id → id ∉ active)) ∨
  (supported value = true ∧ (∀ id, container_id value = Some id → id ∉ active) ∧
   freeze_runtime_value active value =
     let? inner := mapR (freeze_runtime_value (default 0 (container_id value) :: active))
                     (children value) in
     Ok (refill value inner)).
Proof.
  destruct value as [a|id ro items|id items|id items|id cls fr fields|st|id cls]; simpl.
  1: by right.
  5: by right.
  all: unfold cyclic; case_bool_decide as Hin;
    [left; eexists; split; [done|]; split; [done|]; intros [_ H]; by apply (H id)|].
  - right. split; [done|]. split; [congruence|]. by rewrite map_values_zip; destruct (mapR _ _).
  - right. split; [done|]. split; [congruence|]. by destruct (mapR _ _).
  - right. split; [done|]. split; [congruence|]. by destruct (mapR _ _).
  - destruct fr; simpl; [right|by left; eexists; split_and!; [..|intros [? _]]].
    split; [done|]. split; [congruence|]. by rewrite map_values_zip; destruct (mapR _ _).
  - left. eexists. by split_and!; [..|intros [? _]].
Qed.

Lemma freezable_children active value :
  freezable active value ↔
  supported value = true ∧ (∀ id, container_id value = Some id → id ∉ active) ∧
  ∀ inner, inner ∈ children value →
    freezable (default 0 (container_id value) :: active) inner.
Proof.
  split.
  - intros H. destruct (H [] value (occurs_here _)) as [? Hid]. split; [done|]. split; [done|].
    intros inner Hin path o Ho.
    destruct (container_id value) as [id|] eqn:E; [|by destruct value; try done; apply elem_of_nil in Hin].
    destruct (H _ _ (occurs_inside path value inner o id E Hin Ho)) as [? Hp].
    split; [done|]. simpl. intros i Hi. specialize (Hp i Hi). by rewrite <- app_assoc in Hp.
  - intros (Hs & Hid & Hin) path o Ho. destruct Ho as [|path value inner o id E Hc Ho]; [done|].
    destruct (Hin _ Hc path o Ho) as [? Hp]. split; [done|]. intros i Hi.
    specialize (Hp i Hi). rewrite E in Hp. by rewrite <- app_assoc.
Qed.

Lemma frozen_copy_refill value : frozen_copy value = refill value (map frozen_copy (children value)).
Proof.
  destruct value as [a|id ro items|id items|id items|id cls fr fields|st|id cls]; simpl; try done.
  all: f_equal; rewrite map_map.
  - by induction items as [|[k o] items IH]; simpl; [|rewrite IH].
  - by induction fields as [|[k o] fields IH]; simpl; [|rewrite IH].
Qed.

(** Freezing succeeds on freezable values and gives their frozen copy;
    otherwise it raises TypeError. *)
Lemma freeze_correct active value :
  (freezable active value ∧ freeze_runtime_value active value = Ok (frozen_copy value)) ∨
  (¬ freezable active value ∧
   ∃ e, freeze_runtime_value active value = Raise e ∧ class_of e = TypeError).
Proof.
  revert active. induction value as [value IH] using object_children_ind; intros active.
  rewrite freezable_children, frozen_copy_refill.
  destruct (freeze_equation active value) as [(e & Heq & Hc & Hn)|(Hs & Hid & Heq)].
  { right. split; [|by exists e]. intros (? & ? & _). by apply Hn. }
  rewrite Heq. set (below := default 0 (container_id value) :: active).
  assert (Hl : ((∀ inner, inner ∈ children value → freezable below inner) ∧
      mapR (freeze_runtime_value below) (children value) = Ok (map frozen_copy (children value))) ∨
    (¬ (∀ inner, inner ∈ children value → freezable below inner) ∧
      ∃ e, mapR (freeze_runtime_value below) (children value) = Raise e ∧ class_of e = TypeError)).
  { clear Heq Hs Hid. induction (children value) as [|o l IHl]; simpl.
    { left. split; [|done]. by intros ? ?%elem_of_nil. }
    destruct (IH o (list_elem_of_here _ _) below) as [[Ho ->]|[Ho (e & -> & He)]].
    2: { right. split; [|by exists e]. intros H. apply Ho, H. by left. }
    destruct IHl as [[Hl ->]|[Hl (e & -> & He)]].
    - intros. apply IH. by right.
    - left. split; [|done]. intros inner [->|Hin]%elem_of_cons; auto.
    - right. split; [|by exists e]. intros H. apply Hl. intros. apply H. by right. }
  destruct Hl as [[Hl ->]|[Hl (e & -> & He)]].
  - by left.
  - right. split; [|by exists e]. by intros (_ & _ & ?).
Qed.

Lemma children_frozen_copy value :
  children (frozen_copy value) = map frozen_copy (children value).
Proof.
  destruct value; simpl; try done; rewrite !map_map; by apply map_ext.
Qed.

Lemma container_id_frozen_copy value : container_id (frozen_copy value) = container_id value.
Proof. by destruct value. Qed.

Lemma supported_frozen_copy value : supported (frozen_copy value) = supported value.
Proof. by destruct value. Qed.

Lemma immutable_frozen_copy value :
  immutable (frozen_copy value) =
  supported value && forallb immutable (map frozen_copy (children value)).
Proof.
  assert (Hkeyed : ∀ K (l : list (K * object)),
    forallb (λ kv, immutable kv.2) (map (λ kv, (kv.1, frozen_copy kv.2)) l) =
    forallb immutable (map frozen_copy (map snd l))).
  { intros K l. by induction l as [|[k o] l IH]; simpl; [|rewrite IH]. }
  destruct value as [a|id ro items|id items|id items|id cls fr fields|st|id cls]; simpl; auto.
  rewrite Hkeyed. by destruct fr.
Qed.

Lemma freezable_immutable active value :
  freezable active value → immutable (frozen_copy value) = true.
Proof.
  revert active. induction value as [value IH] using object_children_ind; intros active H.
  rewrite immutable_frozen_copy. apply freezable_children in H as (-> & _ & H). simpl.
  apply forallb_forall. intros o' Ho'. apply in_map_iff in Ho' as (o & <- & Ho).
  apply list_elem_of_In in Ho. eauto.
Qed.

Lemma freezable_frozen_copy active value : freezable active value → freezable active (frozen_copy value).
Proof.
  revert active. induction value as [value IH] using object_children_ind; intros active.
  rewrite !freezable_children, supported_frozen_copy, container_id_frozen_copy,
    children_frozen_copy.
  intros (? & ? & H). split_and!; [done..|]. intros inner Hin.
  rewrite list_elem_of_In, in_map_iff in Hin. destruct Hin as (o & <- & Ho%list_elem_of_In). auto.
Qed.

Lemma frozen_copy_idemp value : frozen_copy (frozen_copy value) = frozen_copy value.
Proof.
  induction value as [value IH] using object_children_ind.
  assert (Hmap : map frozen_copy (map frozen_copy (children value)) = map frozen_copy (children value)).
  { rewrite map_map. apply map_ext_in. intros o Ho. apply IH. by apply list_elem_of_In. }
  rewrite (frozen_copy_refill (frozen_copy value)), children_frozen_copy, Hmap.
  rewrite (frozen_copy_refill value).
  destruct value; simpl; try done; f_equal.
  all: f_equal; apply (fst_zip (map fst _) (map frozen_copy _)); by rewrite !length_map.
Qed.

Lemma is_none_frozen_copy value : is_none (frozen_copy value) = is_none value.
Proof. by destruct value. Qed.

Lemma freeze_Ok value value' :
  freeze value = Ok value' → freeze value' = Ok value' ∧ is_none value' = is_none value.
Proof.
  unfold freeze. intros H.
  destruct (freeze_correct [] value) as [[Hf E]|[_ (e & E & _)]]; rewrite E in H; [|done].
  injection H as <-. rewrite is_none_frozen_copy. split; [|done].
  destruct (freeze_correct [] (frozen_copy value)) as [[_ E']|[Hn _]].
  - by rewrite E', frozen_copy_idemp.
  - by destruct Hn; apply freezable_frozen_copy.
Qed.

(** Freezing gives an immutable copy, or a TypeError.
    [_freeze_runtime_value] returns on exactly the values that hold only
    scalars, mappings, sequences and frozen dataclasses, none of them inside
    itself; what it returns is the same value with tuples for lists and
    read-only mappings, cannot be changed, and is left as it is when it is
    frozen again. *)
Theorem freeze_spec value :
  (freezable [] value ∧ ∃ value',
     freeze value = Ok value' ∧ value' = frozen_copy value ∧
     immutable value' = true ∧ freeze value' = Ok value') ∨
  (¬ freezable [] value ∧ raises (freeze value) TypeError).
Proof.
  unfold raises. destruct (freeze_correct [] value) as [[Hf E]|[Hn (e & E & He)]].
  - left. split; [done|]. exists (frozen_copy value). split_and!; [done..| |].
    + by apply (freezable_immutable []).
    + by apply (freeze_Ok value).
  - right. split; [done|]. unfold freeze. rewrite E. unfold isinstance. by rewrite He.
Qed.
