(* ===== verification/RuntimeModels.v ===== *)
(** * State models of the GUI runtime

    The dataclasses of gui/runtime_v2_models.py with the checks of their
    [__post_init__] and [ConnectionInfo] of gui/runtime_models.py.  For a
    dataclass [C], [C_post_init] is what the construction of an instance does:
    it raises or returns the instance with its normalised fields.  The checks
    of the Python type of a field ([isinstance], [type(x) is ...]) are carried
    by the Rocq types. *)

From stdpp Require Import gmap.
From S2P Require Import Prelude.
From S2P Require Import Errors.
From S2P Require Import Targets.
From S2P Require Import RuntimeValues.

(** ** Enumerations *)

Inductive RuntimeCpuId : Set := CPU1 | CPU2.

Module ImageParseStatus.
Inductive ImageParseStatus_t : Set := EMPTY | PARSING | READY | ERROR.
End ImageParseStatus.

Module DataFreshness.
Inductive DataFreshness_t : Set := EMPTY | FRESH | STALE.
End DataFreshness.

Module ConnectionHealthState.
Inductive ConnectionHealthState_t : Set := UNKNOWN | HEALTHY | UNHEALTHY.
End ConnectionHealthState.

Module DiagnosticGroup.
Inductive DiagnosticGroup_t : Set := DEVICE_INFO | PROTOCOL_INFO | LAST_ERROR.
End DiagnosticGroup.

Module EraseScope.
Inductive EraseScope_t : Set := REQUIRED_APP_SECTORS | ENTIRE_APPLICATION_REGION | CUSTOM.
End EraseScope.

Abbreviation ImageParseStatus := ImageParseStatus.ImageParseStatus_t.
Abbreviation DataFreshness := DataFreshness.DataFreshness_t.
Abbreviation ConnectionHealthState := ConnectionHealthState.ConnectionHealthState_t.
Abbreviation DiagnosticGroup := DiagnosticGroup.DiagnosticGroup_t.
Abbreviation EraseScope := EraseScope.EraseScope_t.

#[export] Instance RuntimeCpuId_eq_dec : EqDecision RuntimeCpuId.
Proof. solve_decision. Defined.
#[export] Instance ImageParseStatus_eq_dec : EqDecision ImageParseStatus.
Proof. solve_decision. Defined.
#[export] Instance DataFreshness_eq_dec : EqDecision DataFreshness.
Proof. solve_decision. Defined.
#[export] Instance ConnectionHealthState_eq_dec : EqDecision ConnectionHealthState.
Proof. solve_decision. Defined.
#[export] Instance DiagnosticGroup_eq_dec : EqDecision DiagnosticGroup.
Proof. solve_decision. Defined.

(** [for cpu_id in RuntimeCpuId], and the enumeration as a finite type of
    dictionary keys. *)
Definition RuntimeCpuIds : list RuntimeCpuId := [CPU1; CPU2].

#[export] Instance RuntimeCpuId_countable : Countable RuntimeCpuId.
Proof.
  refine (inj_countable' (λ c, match c with CPU1 => false | CPU2 => true end)
            (λ b, if b then CPU2 else CPU1) _).
  by intros [].
Defined.

(** [RuntimeCpuId.from_target_key] *)
Definition from_target_key (target_key : string) : Res RuntimeCpuId :=
  if bool_decide (target_key = "cpu1") then Ok CPU1
  else if bool_decide (target_key = "cpu2") then Ok CPU2
  else Raise (Err ValueError (Lit "target_key must be 'cpu1' or 'cpu2'")).

(** ** Checks shared by the dataclasses *)

Definition empty_str (s : string) : bool := bool_decide (s = EmptyString).

(** [if type(value) is not str or not value: raise ValueError(...)] *)
Definition identifier (value name : string) : Res unit :=
  fail (Err ValueError (Fmt "{} must be a non-empty string" [VStr name])) when empty_str value ;;
  Ok tt.

Definition require_utc (value : datetime) (name : string) : Res unit :=
  fail (Err ValueError (Fmt "{} must be timezone-aware UTC" [VStr name])) when negb (is_utc value) ;;
  Ok tt.

Definition isSome {A} (o : option A) : bool := match o with Some _ => true | None => false end.

(** ** Connection generations *)

Record ConnectionGeneration : Set := mkGeneration { cg_value : Z }.

#[export] Instance ConnectionGeneration_eq_dec : EqDecision ConnectionGeneration.
Proof. solve_decision. Defined.

Definition ConnectionGeneration_post_init (value : Z) : Res ConnectionGeneration :=
  fail (Err ValueError (Lit "connection generation must be a non-negative integer"))
    when value <? 0 ;;
  Ok (mkGeneration value).

Definition generation_next (g : ConnectionGeneration) : Res ConnectionGeneration :=
  ConnectionGeneration_post_init (cg_value g + 1).

(** ** Errors and values read from the device *)

Record RuntimeReadError : Set := mkReadError {
  re_code : string;
  re_message : string;
  re_stage : string;
}.

Definition RuntimeReadError_post_init (r : RuntimeReadError) : Res RuntimeReadError :=
  let? _ := identifier (re_code r) "code" in
  let? _ := identifier (re_message r) "message" in
  let? _ := identifier (re_stage r) "stage" in
  Ok r.

Record MetadataRuntimeState : Type := mkMetadataState {
  md_value : object;
  md_freshness : DataFreshness;
  md_read_error : option RuntimeReadError;
}.

Definition MetadataRuntimeState_post_init (s : MetadataRuntimeState) : Res MetadataRuntimeState :=
  fail (Err ValueError (Lit "FRESH Metadata state requires a value"))
    when bool_decide (md_freshness s = DataFreshness.FRESH) && is_none (md_value s) ;;
  let? value := freeze (md_value s) in
  Ok (mkMetadataState value (md_freshness s) (md_read_error s)).

(** [MetadataRuntimeState()] *)
Definition MetadataRuntimeState_default : MetadataRuntimeState :=
  mkMetadataState ONone DataFreshness.EMPTY None.

Record DiagnosticRuntimeState : Type := mkDiagnosticState {
  dg_group : DiagnosticGroup;
  dg_value : object;
  dg_freshness : DataFreshness;
  dg_read_error : option RuntimeReadError;
}.

Definition DiagnosticRuntimeState_post_init (s : DiagnosticRuntimeState)
    : Res DiagnosticRuntimeState :=
  fail (Err ValueError (Lit "FRESH Diagnostics state requires a value"))
    when bool_decide (dg_freshness s = DataFreshness.FRESH) && is_none (dg_value s) ;;
  let? value := freeze (dg_value s) in
  Ok (mkDiagnosticState (dg_group s) value (dg_freshness s) (dg_read_error s)).

(** [DiagnosticRuntimeState(group)] *)
Definition DiagnosticRuntimeState_default (group : DiagnosticGroup) : DiagnosticRuntimeState :=
  mkDiagnosticState group ONone DataFreshness.EMPTY None.

Record DiagnosticsRuntimeState : Type := mkDiagnosticsState {
  ds_device_info : DiagnosticRuntimeState;
  ds_protocol_info : DiagnosticRuntimeState;
  ds_last_error : DiagnosticRuntimeState;
}.

Definition group_state (s : DiagnosticsRuntimeState) (group : DiagnosticGroup)
    : DiagnosticRuntimeState :=
  match group with
  | DiagnosticGroup.DEVICE_INFO => ds_device_info s
  | DiagnosticGroup.PROTOCOL_INFO => ds_protocol_info s
  | DiagnosticGroup.LAST_ERROR => ds_last_error s
  end.

(** [replace(s, **{group.value: state})] without its [__post_init__]. *)
Definition set_group_state (group : DiagnosticGroup) (state : DiagnosticRuntimeState)
    (s : DiagnosticsRuntimeState) : DiagnosticsRuntimeState :=
  match group with
  | DiagnosticGroup.DEVICE_INFO => mkDiagnosticsState state (ds_protocol_info s) (ds_last_error s)
  | DiagnosticGroup.PROTOCOL_INFO => mkDiagnosticsState (ds_device_info s) state (ds_last_error s)
  | DiagnosticGroup.LAST_ERROR => mkDiagnosticsState (ds_device_info s) (ds_protocol_info s) state
  end.

(** [for group in DiagnosticGroup] with the names of the groups. *)
Definition DiagnosticGroups : list (DiagnosticGroup * string) :=
  [(DiagnosticGroup.DEVICE_INFO, "device_info"); (DiagnosticGroup.PROTOCOL_INFO, "protocol_info");
   (DiagnosticGroup.LAST_ERROR, "last_error")].

Definition DiagnosticsRuntimeState_post_init (s : DiagnosticsRuntimeState)
    : Res DiagnosticsRuntimeState :=
  let? _ := mapR (λ g,
      fail (Err ValueError (Fmt "{} state has the wrong group" [VStr g.2]))
        when negb (bool_decide (dg_group (group_state s g.1) = g.1)) ;;
      Ok tt) DiagnosticGroups in
  Ok s.

(** [DiagnosticsRuntimeState()] *)
Definition DiagnosticsRuntimeState_default : DiagnosticsRuntimeState :=
  mkDiagnosticsState (DiagnosticRuntimeState_default DiagnosticGroup.DEVICE_INFO)
    (DiagnosticRuntimeState_default DiagnosticGroup.PROTOCOL_INFO)
    (DiagnosticRuntimeState_default DiagnosticGroup.LAST_ERROR).

(** ** Images and evidence *)

Record FlashImageSummary : Set := mkFlashSummary {
  fs_identity : ImageIdentity;
  fs_sector_mask : Z;
}.

Definition FlashImageSummary_post_init (s : FlashImageSummary) : Res FlashImageSummary :=
  let? _ := non_negative_int (fs_sector_mask s) "sector_mask" in
  Ok s.

Record RamImageSummary : Set := mkRamSummary { rs_identity : RamImageIdentity }.

Record VerifyEvidence : Set := mkVerifyEvidence {
  ve_cpu_id : RuntimeCpuId;
  ve_connection_generation : ConnectionGeneration;
  ve_image_identity : ImageIdentity;
  ve_operation_id : string;
}.

Definition VerifyEvidence_post_init (e : VerifyEvidence) : Res VerifyEvidence :=
  let? _ := identifier (ve_operation_id e) "operation_id" in
  Ok e.

Record RamCrcEvidence : Set := mkRamCrcEvidence {
  ce_cpu_id : RuntimeCpuId;
  ce_connection_generation : ConnectionGeneration;
  ce_ram_image_identity : RamImageIdentity;
  ce_entry_point : Z;
  ce_image_crc32 : Z;
  ce_operation_id : string;
}.

Definition RamCrcEvidence_post_init (e : RamCrcEvidence) : Res RamCrcEvidence :=
  let? _ := non_negative_int (ce_entry_point e) "entry_point" in
  let? _ := non_negative_int (ce_image_crc32 e) "image_crc32" in
  fail (Err ValueError (Lit "entry_point must match ram_image_identity"))
    when negb (ce_entry_point e =? ri_entry_point (ce_ram_image_identity e)) ;;
  fail (Err ValueError (Lit "image_crc32 must match ram_image_identity"))
    when negb (ce_image_crc32 e =? ri_image_crc32 (ce_ram_image_identity e)) ;;
  let? _ := identifier (ce_operation_id e) "operation_id" in
  Ok e.

(** [status.name] *)
Definition ImageParseStatus_name (status : ImageParseStatus) : string :=
  match status with
  | ImageParseStatus.EMPTY => "EMPTY"
  | ImageParseStatus.PARSING => "PARSING"
  | ImageParseStatus.READY => "READY"
  | ImageParseStatus.ERROR => "ERROR"
  end.

(** [_validate_parse_state]; [not error] also holds for the empty string. *)
Definition validate_parse_state {A} (status : ImageParseStatus) (summary : option A)
    (error : option string) (name : string) : Res unit :=
  match status with
  | ImageParseStatus.READY =>
      fail (Err ValueError (Fmt "READY {} state requires a summary and no error" [VStr name]))
        when negb (isSome summary) || isSome error ;;
      Ok tt
  | ImageParseStatus.ERROR =>
      fail (Err ValueError
             (Fmt "ERROR {} state requires a non-empty error and no summary" [VStr name]))
        when isSome summary || match error with None => true | Some e => empty_str e end ;;
      Ok tt
  | _ =>
      fail (Err ValueError (Fmt "{} {} state cannot carry a summary or error"
             [VStr (ImageParseStatus_name status); VStr name]))
        when isSome summary || isSome error ;;
      Ok tt
  end.

(** ** Resources of a target *)

Record TargetResourceState : Set := mkTargetResource {
  tr_cpu_id : RuntimeCpuId;
  tr_program_image_path : string;
  tr_program_image_summary : option FlashImageSummary;
  tr_program_image_parse_status : ImageParseStatus;
  tr_program_image_parse_error : option string;
  tr_ram_image_path : string;
  tr_ram_image_summary : option RamImageSummary;
  tr_ram_image_parse_status : ImageParseStatus;
  tr_ram_image_parse_error : option string;
  tr_erase_scope : EraseScope;
  tr_custom_sector_mask : Z;
  tr_verify_evidence : option VerifyEvidence;
  tr_ram_crc_evidence : option RamCrcEvidence;
}.

Definition TargetResourceState_post_init (s : TargetResourceState) : Res TargetResourceState :=
  let? _ := validate_parse_state (tr_program_image_parse_status s) (tr_program_image_summary s)
              (tr_program_image_parse_error s) "program image" in
  let? _ := validate_parse_state (tr_ram_image_parse_status s) (tr_ram_image_summary s)
              (tr_ram_image_parse_error s) "RAM image" in
  let? _ := non_negative_int (tr_custom_sector_mask s) "custom_sector_mask" in
  fail (Err ValueError (Lit "verify evidence CPU does not match resource CPU"))
    when match tr_verify_evidence s with
         | Some e => negb (bool_decide (ve_cpu_id e = tr_cpu_id s))
         | None => false
         end ;;
  fail (Err ValueError (Lit "RAM CRC evidence CPU does not match resource CPU"))
    when match tr_ram_crc_evidence s with
         | Some e => negb (bool_decide (ce_cpu_id e = tr_cpu_id s))
         | None => false
         end ;;
  Ok s.

(** [TargetResourceState(cpu_id)] *)
Definition TargetResourceState_default (cpu_id : RuntimeCpuId) : TargetResourceState :=
  mkTargetResource cpu_id EmptyString None ImageParseStatus.EMPTY None
    EmptyString None ImageParseStatus.EMPTY None EraseScope.REQUIRED_APP_SECTORS 0 None None.

(** [replace(s, verify_evidence=..., ram_crc_evidence=...)] and the other uses
    of [dataclasses.replace], before the [__post_init__] of the new instance. *)
Definition with_evidence (verify : option VerifyEvidence) (ram_crc : option RamCrcEvidence)
    (s : TargetResourceState) : TargetResourceState :=
  mkTargetResource (tr_cpu_id s) (tr_program_image_path s) (tr_program_image_summary s)
    (tr_program_image_parse_status s) (tr_program_image_parse_error s) (tr_ram_image_path s)
    (tr_ram_image_summary s) (tr_ram_image_parse_status s) (tr_ram_image_parse_error s)
    (tr_erase_scope s) (tr_custom_sector_mask s) verify ram_crc.

Definition with_program_image (path : string) (summary : option FlashImageSummary)
    (status : ImageParseStatus) (error : option string) (s : TargetResourceState)
    : TargetResourceState :=
  mkTargetResource (tr_cpu_id s) path summary status error (tr_ram_image_path s)
    (tr_ram_image_summary s) (tr_ram_image_parse_status s) (tr_ram_image_parse_error s)
    (tr_erase_scope s) (tr_custom_sector_mask s) (tr_verify_evidence s) (tr_ram_crc_evidence s).

Definition with_ram_image (path : string) (summary : option RamImageSummary)
    (status : ImageParseStatus) (error : option string) (s : TargetResourceState)
    : TargetResourceState :=
  mkTargetResource (tr_cpu_id s) (tr_program_image_path s) (tr_program_image_summary s)
    (tr_program_image_parse_status s) (tr_program_image_parse_error s) path summary status error
    (tr_erase_scope s) (tr_custom_sector_mask s) (tr_verify_evidence s) (tr_ram_crc_evidence s).

Definition with_sectors (scope : EraseScope) (mask : Z) (s : TargetResourceState)
    : TargetResourceState :=
  mkTargetResource (tr_cpu_id s) (tr_program_image_path s) (tr_program_image_summary s)
    (tr_program_image_parse_status s) (tr_program_image_parse_error s) (tr_ram_image_path s)
    (tr_ram_image_summary s) (tr_ram_image_parse_status s) (tr_ram_image_parse_error s)
    scope mask (tr_verify_evidence s) (tr_ram_crc_evidence s).

(** ** Connections *)

Record RuntimeCommunicationError : Type := mkCommunicationError {
  rc_code : string;
  rc_message : string;
  rc_stage : string;
  rc_occurred_at : datetime;
  rc_details : object;
}.

(** [isinstance(details, Mapping)] with keys of type [str]. *)
Definition string_keyed (details : object) : bool :=
  match details with
  | OMapping _ _ items =>
      forallb (λ kv, match kv.1 with AStr _ => true | _ => false end) items
  | _ => false
  end.

Definition RuntimeCommunicationError_post_init (e : RuntimeCommunicationError)
    : Res RuntimeCommunicationError :=
  let? _ := identifier (rc_code e) "code" in
  let? _ := identifier (rc_message e) "message" in
  let? _ := identifier (rc_stage e) "stage" in
  let? _ := require_utc (rc_occurred_at e) "occurred_at" in
  fail (Err TypeError (Lit "details must be a string-keyed Mapping"))
    when negb (string_keyed (rc_details e)) ;;
  let? details := freeze (rc_details e) in
  Ok (mkCommunicationError (rc_code e) (rc_message e) (rc_stage e) (rc_occurred_at e) details).

(** [ConnectionInfo] of gui/runtime_models.py *)
Record ConnectionInfo : Type := mkConnectionInfo {
  ci_connection_id : string;
  ci_transport_label : string;
  ci_endpoint_label : string;
  ci_connected_at : datetime;
  ci_target_key : string;
  ci_details : object;
}.

Definition ConnectionInfo_post_init (c : ConnectionInfo) : Res ConnectionInfo :=
  fail (Err ValueError (Lit "connected_at must be UTC")) when negb (is_utc (ci_connected_at c)) ;;
  fail (Err ValueError (Lit "target_key must be 'cpu1' or 'cpu2'"))
    when negb (bool_decide (ci_target_key c ∈ ["cpu1"; "cpu2"])) ;;
  let? details := freeze_details [] (ci_details c) in
  Ok (mkConnectionInfo (ci_connection_id c) (ci_transport_label c) (ci_endpoint_label c)
        (ci_connected_at c) (ci_target_key c) details).

Record ConnectionRuntimeState : Type := mkConnection {
  cr_generation : ConnectionGeneration;
  cr_connection_id : string;
  cr_cpu_id : RuntimeCpuId;
  cr_transport_label : string;
  cr_endpoint_label : string;
  cr_connected_at : datetime;
  cr_last_protocol_activity : option datetime;
  cr_health_state : ConnectionHealthState;
  cr_health_checked_at : option datetime;
  cr_health_error : option RuntimeReadError;
  cr_last_communication_error : option RuntimeCommunicationError;
}.

Definition with_activity (at_ : option datetime) (c : ConnectionRuntimeState)
    : ConnectionRuntimeState :=
  mkConnection (cr_generation c) (cr_connection_id c) (cr_cpu_id c) (cr_transport_label c)
    (cr_endpoint_label c) (cr_connected_at c) at_ (cr_health_state c) (cr_health_checked_at c)
    (cr_health_error c) (cr_last_communication_error c).

Definition with_health (state : ConnectionHealthState) (checked_at : option datetime)
    (error : option RuntimeReadError) (c : ConnectionRuntimeState) : ConnectionRuntimeState :=
  mkConnection (cr_generation c) (cr_connection_id c) (cr_cpu_id c) (cr_transport_label c)
    (cr_endpoint_label c) (cr_connected_at c) (cr_last_protocol_activity c) state checked_at
    error (cr_last_communication_error c).

Definition with_communication_error (error : option RuntimeCommunicationError)
    (c : ConnectionRuntimeState) : ConnectionRuntimeState :=
  mkConnection (cr_generation c) (cr_connection_id c) (cr_cpu_id c) (cr_transport_label c)
    (cr_endpoint_label c) (cr_connected_at c) (cr_last_protocol_activity c) (cr_health_state c)
    (cr_health_checked_at c) (cr_health_error c) error.

(** The last checks of [ConnectionRuntimeState.__post_init__]. *)
Definition check_health (c : ConnectionRuntimeState) : Res unit :=
  let is_state s := bool_decide (cr_health_state c = s) in
  let error := isSome (cr_health_error c) in
  let checked := isSome (cr_health_checked_at c) in
  fail (Err ValueError (Lit "UNKNOWN connection health cannot carry an error"))
    when is_state ConnectionHealthState.UNKNOWN && error ;;
  fail (Err ValueError (Lit "HEALTHY connection health requires a check time and no error"))
    when is_state ConnectionHealthState.HEALTHY && (negb checked || error) ;;
  fail (Err ValueError (Lit "UNHEALTHY connection health requires a check time and error"))
    when is_state ConnectionHealthState.UNHEALTHY && (negb checked || negb error) ;;
  Ok tt.

Definition ConnectionRuntimeState_post_init (c : ConnectionRuntimeState)
    : Res ConnectionRuntimeState :=
  let? _ := identifier (cr_connection_id c) "connection_id" in
  let? _ := identifier (cr_transport_label c) "transport_label" in
  let? _ := identifier (cr_endpoint_label c) "endpoint_label" in
  let? _ := require_utc (cr_connected_at c) "connected_at" in
  let activity := default (cr_connected_at c) (cr_last_protocol_activity c) in
  let? _ := require_utc activity "last_protocol_activity" in
  let? before := dt_lt activity (cr_connected_at c) in
  fail (Err ValueError (Lit "last_protocol_activity must not precede connected_at"))
    when before ;;
  fail (Err ValueError (Lit "health_checked_at must be timezone-aware UTC or None"))
    when match cr_health_checked_at c with Some t => negb (is_utc t) | None => false end ;;
  let? _ := check_health c in
  Ok (with_activity (Some activity) c).

Definition from_connection_info (connection_info : ConnectionInfo)
    (generation : ConnectionGeneration) : Res ConnectionRuntimeState :=
  let? cpu_id := from_target_key (ci_target_key connection_info) in
  ConnectionRuntimeState_post_init
    (mkConnection generation (ci_connection_id connection_info) cpu_id
       (ci_transport_label connection_info) (ci_endpoint_label connection_info)
       (ci_connected_at connection_info) None ConnectionHealthState.UNKNOWN None None None).

(** ** Memory read from a target *)

Record MemoryRuntimeState : Set := mkMemoryState {
  mm_cpu_id : RuntimeCpuId;
  mm_freshness : DataFreshness;
  mm_base_address : option Z;
  mm_words : list Z;
  mm_read_at : option datetime;
  mm_connection_generation : option ConnectionGeneration;
  mm_read_error : option RuntimeReadError;
}.

Definition nonempty {A} (l : list A) : bool := match l with [] => false | _ => true end.

Definition MemoryRuntimeState_post_init (s : MemoryRuntimeState) : Res MemoryRuntimeState :=
  let? _ := match mm_base_address s with
            | Some base_address => non_negative_int base_address "base_address"
            | None => Ok tt
            end in
  fail (Err ValueError (Lit "read_at must be timezone-aware UTC or None"))
    when match mm_read_at s with Some t => negb (is_utc t) | None => false end ;;
  fail (Err ValueError (Lit "words must contain only 16-bit unsigned integers"))
    when negb (forallb fits_u16 (mm_words s)) ;;
  let base := isSome (mm_base_address s) in
  let read := isSome (mm_read_at s) in
  let generation := isSome (mm_connection_generation s) in
  match mm_freshness s with
  | DataFreshness.EMPTY =>
      fail (Err ValueError (Lit "EMPTY memory state cannot carry retained data"))
        when base || nonempty (mm_words s) || read || generation ;;
      Ok s
  | freshness =>
      fail (Err ValueError (Lit "memory state requires retained data"))
        when negb base || negb (nonempty (mm_words s)) || negb read || negb generation ;;
      fail (Err ValueError (Lit "FRESH memory state cannot carry a read error"))
        when bool_decide (freshness = DataFreshness.FRESH) && isSome (mm_read_error s) ;;
      Ok s
  end.

(** [MemoryRuntimeState(cpu_id)] *)
Definition MemoryRuntimeState_default (cpu_id : RuntimeCpuId) : MemoryRuntimeState :=
  mkMemoryState cpu_id DataFreshness.EMPTY None [] None None None.

Definition with_memory_freshness (freshness : DataFreshness) (read_error : option RuntimeReadError)
    (s : MemoryRuntimeState) : MemoryRuntimeState :=
  mkMemoryState (mm_cpu_id s) freshness (mm_base_address s) (mm_words s) (mm_read_at s)
    (mm_connection_generation s) read_error.

(** [MemoryRuntimeState.word_count] *)
Definition word_count (s : MemoryRuntimeState) : Z := zlen (mm_words s).

(** ** Snapshots *)

Record RuntimeV2Snapshot : Type := mkSnapshot {
  rv_connection_generation : ConnectionGeneration;
  rv_connection : option ConnectionRuntimeState;
  rv_target_resources : gmap RuntimeCpuId TargetResourceState;
  rv_memory_states : gmap RuntimeCpuId MemoryRuntimeState;
  rv_metadata_state : MetadataRuntimeState;
  rv_diagnostics_state : DiagnosticsRuntimeState;
}.

(** The keys of a mapping are exactly the CPUs. *)
Definition exactly_cpus {A} (m : gmap RuntimeCpuId A) : bool :=
  forallb (λ cpu_id, isSome (m !! cpu_id)) RuntimeCpuIds.

(** Every value of a mapping belongs to its key. *)
Definition keys_match {A} (cpu_of : A → RuntimeCpuId) (m : gmap RuntimeCpuId A) : bool :=
  bool_decide (map_Forall (λ cpu_id state, cpu_of state = cpu_id) m).

Definition RuntimeV2Snapshot_post_init (s : RuntimeV2Snapshot) : Res RuntimeV2Snapshot :=
  fail (Err ValueError (Lit "active connection generation must match snapshot generation"))
    when match rv_connection s with
         | Some c => negb (bool_decide (cr_generation c = rv_connection_generation s))
         | None => false
         end ;;
  fail (Err ValueError (Lit "Runtime V2 mappings must contain exactly CPU1 and CPU2"))
    when negb (exactly_cpus (rv_target_resources s)) || negb (exactly_cpus (rv_memory_states s)) ;;
  fail (Err ValueError (Lit "target resource CPU does not match its key"))
    when negb (keys_match tr_cpu_id (rv_target_resources s)) ;;
  fail (Err ValueError (Lit "memory state CPU does not match its key"))
    when negb (keys_match mm_cpu_id (rv_memory_states s)) ;;
  Ok s.
