(* ===== verification/CommandExecutor.v ===== *)
(** * The command executor of a connection (gui/connection_command_executor.py,
    gui/connection_maintenance.py)

    [ConnectionCommandExecutor] serialises what foreground tasks and the
    maintenance timer do with one session.  Threads interleave: a step is one
    critical section of the condition variable, made by one thread; between
    two steps of a thread any other thread may move, a wait may end at any time
    and an action ends when it likes.  [execute_foreground] is the whole call
    when no other thread is in the way. *)

From stdpp Require Import gmap.
From S2P Require Import Prelude.
From S2P Require Import Errors.
From S2P Require Import RuntimeModels.

(** [MaintenanceExecutionStatus] *)
Module MaintenanceExecutionStatus.
Inductive MaintenanceExecutionStatus_t : Set :=
| EXECUTED | SKIPPED_BUSY | STALE_GENERATION | EXECUTOR_CLOSED.
End MaintenanceExecutionStatus.
Abbreviation MaintenanceExecutionStatus := MaintenanceExecutionStatus.MaintenanceExecutionStatus_t.

(** [MaintenanceExecutionResult] *)
Record MaintenanceExecutionResult (T : Type) : Type := mkMaintenance {
  mx_status : MaintenanceExecutionStatus;
  mx_value : option T;
}.
Arguments mkMaintenance {T}.
Arguments mx_status {T}.
Arguments mx_value {T}.

(** ** The state under the condition *)

Record Executor : Set := mkExecutor {
  ce_generation : Z;
  ce_active : bool;
  ce_foreground_waiters : Z;
  ce_valid : bool;
}.

Definition Executor_init (generation : Z) : Executor := mkExecutor generation false 0 true.

(** [invalidate] *)
Definition invalidate (e : Executor) : Executor :=
  mkExecutor (ce_generation e) (ce_active e) (ce_foreground_waiters e) false.

(** [_raise_if_unavailable] *)
Definition raise_if_unavailable (e : Executor) (generation : Z) : Res unit :=
  fail (Err ConnectionExecutorClosedError (Lit "connection command executor is closed"))
    when negb (ce_valid e) ;;
  fail (Err StaleConnectionGenerationError (Lit "connection generation is stale"))
    when negb (generation =? ce_generation e) ;;
  Ok tt.

Definition add_waiters (n : Z) (e : Executor) : Executor :=
  mkExecutor (ce_generation e) (ce_active e) (ce_foreground_waiters e + n) (ce_valid e).

Definition set_active (active : bool) (e : Executor) : Executor :=
  mkExecutor (ce_generation e) active (ce_foreground_waiters e) (ce_valid e).

(** ** Critical sections *)

(** How a thread leaves the section in which it asks for the session. *)
Inductive Entry : Type :=
| Enters                                     (* it runs its action *)
| Waits                                      (* it waits on the condition *)
| Refused (exc : Exn).                       (* the section raises *)

(** The loop of [execute_foreground] from its test on; the caller is counted
    as a waiter. *)
Definition foreground_test (e : Executor) : Entry * Executor :=
  if ce_active e then (Waits, e) else (Enters, add_waiters (-1) (set_active true e)).

(** The first section of [execute_foreground]. *)
Definition foreground_enter (generation : Z) (e : Executor) : Entry * Executor :=
  match raise_if_unavailable e generation with
  | Raise exc => (Refused exc, e)
  | Ok _ => foreground_test (add_waiters 1 e)
  end.

(** The wait of [execute_foreground] ends. *)
Definition foreground_wake (generation : Z) (e : Executor) : Entry * Executor :=
  match raise_if_unavailable e generation with
  | Raise exc => (Refused exc, add_waiters (-1) e)
  | Ok _ => foreground_test e
  end.

(** The section of [try_execute_maintenance]. *)
Definition maintenance_enter (generation : Z) (e : Executor)
    : MaintenanceExecutionStatus * Executor :=
  if negb (ce_valid e) then (MaintenanceExecutionStatus.EXECUTOR_CLOSED, e)
  else if negb (generation =? ce_generation e) then (MaintenanceExecutionStatus.STALE_GENERATION, e)
  else if ce_active e || (0 <? ce_foreground_waiters e)
  then (MaintenanceExecutionStatus.SKIPPED_BUSY, e)
  else (MaintenanceExecutionStatus.EXECUTED, set_active true e).

(** The last section of both: the action is over. *)
Definition leave (e : Executor) : Executor := set_active false e.

(** ** Whole calls *)

(** [execute_foreground] and [try_execute_maintenance] of a thread that finds
    the session free: the action in the [try ... finally] that releases it. *)
Section calls.
Context {S T : Type} (executor : S → Executor) (put : Executor → S → S).

Definition execute_foreground (generation : Z) (action : ST S T) : ST S T :=
  e <- gets executor ;;
  match foreground_enter generation e with
  | (Refused exc, _) => raise exc
  | (Waits, _) => raise (Err RuntimeError (Lit "no other thread releases the session"))
  | (Enters, e) =>
      modify (put e) ;;;
      λ s, let '(r, s) := action s in (r, put (leave (executor s)) s)
  end.

Definition try_execute_maintenance (generation : Z) (action : ST S T)
    : ST S (MaintenanceExecutionResult T) :=
  e <- gets executor ;;
  match maintenance_enter generation e with
  | (MaintenanceExecutionStatus.EXECUTED, e) =>
      modify (put e) ;;;
      v <- (λ s, let '(r, s) := action s in (r, put (leave (executor s)) s)) ;;
      ret (mkMaintenance MaintenanceExecutionStatus.EXECUTED (Some v))
  | (status, _) => ret (mkMaintenance status None)
  end.
End calls.

(** ** Threads *)

Inductive Thread : Set :=
| Waiting (generation : Z)                   (* in the wait of a foreground call *)
| InForeground                               (* in its action *)
| InMaintenance.

(** The threads that are inside a call; the others are outside. *)
Record System : Type := mkSystem {
  sy_executor : Executor;
  sy_threads : gmap nat Thread;
}.

Definition System_init (generation : Z) : System := mkSystem (Executor_init generation) ∅.

(** What a thread does after a section. *)
Definition place (entry : Entry) (generation : Z) (t : nat) (threads : gmap nat Thread)
    : gmap nat Thread :=
  match entry with
  | Enters => <[t := InForeground]> threads
  | Waits => <[t := Waiting generation]> threads
  | Refused _ => delete t threads
  end.

Inductive step : System → System → Prop :=
| step_foreground s t generation entry e :
    sy_threads s !! t = None → foreground_enter generation (sy_executor s) = (entry, e) →
    step s (mkSystem e (place entry generation t (sy_threads s)))
| step_wake s t generation entry e :
    sy_threads s !! t = Some (Waiting generation) →
    foreground_wake generation (sy_executor s) = (entry, e) →
    step s (mkSystem e (place entry generation t (sy_threads s)))
| step_maintenance s t generation status e :
    sy_threads s !! t = None → maintenance_enter generation (sy_executor s) = (status, e) →
    step s (mkSystem e (match status with
                        | MaintenanceExecutionStatus.EXECUTED =>
                            <[t := InMaintenance]> (sy_threads s)
                        | _ => sy_threads s
                        end))
| step_leave s t p :
    sy_threads s !! t = Some p → (p = InForeground ∨ p = InMaintenance) →
    step s (mkSystem (leave (sy_executor s)) (delete t (sy_threads s)))
| step_invalidate s : step s (mkSystem (invalidate (sy_executor s)) (sy_threads s)).

(** ** Invariant *)

Definition is_waiting (p : Thread) : bool := match p with Waiting _ => true | _ => false end.

(** The number of threads that wait, and the threads in an action. *)
Definition waiting (threads : gmap nat Thread) : gmap nat Thread :=
  filter (λ kv, is_waiting kv.2 = true) threads.
Definition inside (threads : gmap nat Thread) (t : nat) : Prop :=
  ∃ p, threads !! t = Some p ∧ is_waiting p = false.

Record system_ok (s : System) : Prop := {
  sk_waiters : ce_foreground_waiters (sy_executor s) = Z.of_nat (size (waiting (sy_threads s)));
  sk_one : ∀ t u, inside (sy_threads s) t → inside (sy_threads s) u → t = u;
  sk_active : ce_active (sy_executor s) = true ↔ ∃ t, inside (sy_threads s) t;
  sk_generation : ∀ t g, sy_threads s !! t = Some (Waiting g) → g = ce_generation (sy_executor s);
}.

(** ** The number of waiting threads *)

Section waiting.
Implicit Types m : gmap nat Thread.

Lemma waiting_insert_waiting m t g :
  m !! t = None → size (waiting (<[t := Waiting g]> m)) = S (size (waiting m)).
Proof.
  intros H. unfold waiting. rewrite map_filter_insert_True by done. apply map_size_insert_None.
  apply map_lookup_filter_None. by left.
Qed.

Lemma waiting_insert_inside m t p :
  m !! t = None → is_waiting p = false → size (waiting (<[t := p]> m)) = size (waiting m).
Proof.
  intros H Hp. unfold waiting. rewrite map_filter_insert_False by (cbn; congruence).
  by rewrite delete_id.
Qed.

Lemma waiting_delete_waiting m t g :
  m !! t = Some (Waiting g) → size (waiting m) = S (size (waiting (delete t m))).
Proof.
  intros H. rewrite <-(insert_delete_id m t (Waiting g)) at 1 by done.
  apply waiting_insert_waiting, lookup_delete_eq.
Qed.

Lemma waiting_delete_inside m t p :
  m !! t = Some p → is_waiting p = false → size (waiting (delete t m)) = size (waiting m).
Proof.
  intros H Hp. rewrite <-(insert_delete_id m t p) at 2 by done.
  by rewrite waiting_insert_inside; [|apply lookup_delete_eq|].
Qed.

Lemma waiting_swap m t g p :
  is_waiting p = false →
  size (waiting (<[t := Waiting g]> m)) = S (size (waiting (<[t := p]> m))).
Proof.
  intros Hp. rewrite <-(insert_delete_eq m t (Waiting g)), <-(insert_delete_eq m t p).
  rewrite waiting_insert_waiting by apply lookup_delete_eq.
  by rewrite waiting_insert_inside; [|apply lookup_delete_eq|].
Qed.

Lemma waiting_same m t g : m !! t = Some (Waiting g) → <[t := Waiting g]> m = m.
Proof. apply insert_id. Qed.

Lemma inside_insert m t p u :
  inside (<[t := p]> m) u ↔ (u = t ∧ is_waiting p = false) ∨ (u <> t ∧ inside m u).
Proof.
  unfold inside. destruct (decide (u = t)) as [->|Hn].
  - rewrite lookup_insert_eq. split.
    + intros (x & [= <-] & Hx). by left.
    + intros [[_ Hp]|[? _]]; [by exists p|done].
  - rewrite lookup_insert_ne by done. split; [by right|]. by intros [[? _]|[_ ?]].
Qed.

Lemma inside_delete m t u : inside (delete t m) u ↔ u <> t ∧ inside m u.
Proof.
  unfold inside. destruct (decide (u = t)) as [->|Hn].
  - rewrite lookup_delete_eq. split; [by intros (p & Hp & _)|by intros [? _]].
  - rewrite lookup_delete_ne by done. split; [done|by intros [_ ?]].
Qed.

(** A thread that waits is not inside. *)
Lemma inside_waiting m t g u :
  (∀ p, m !! t = Some p → is_waiting p = true) → inside (<[t := Waiting g]> m) u ↔ inside m u.
Proof.
  intros H. rewrite inside_insert. split; [by intros [[_ ?]|[_ ?]]|].
  intros Hu. right. split; [|done]. intros ->. destruct Hu as (p & Hp & Hw).
  specialize (H p Hp). congruence.
Qed.

Lemma inside_delete_waiting m t u :
  (∀ p, m !! t = Some p → is_waiting p = true) → inside (delete t m) u ↔ inside m u.
Proof.
  intros H. rewrite inside_delete. split; [by intros [_ ?]|].
  intros Hu. split; [|done]. intros ->. destruct Hu as (p & Hp & Hw).
  specialize (H p Hp). congruence.
Qed.

Lemma waiting_lookup m t g : m !! t = Some (Waiting g) → (0 < size (waiting m))%nat.
Proof. intros H. rewrite (waiting_delete_waiting m t g H). lia. Qed.
End waiting.

(** ** The invariant is kept *)

Lemma System_init_ok generation : system_ok (System_init generation).
Proof.
  split; cbn.
  - unfold waiting. by rewrite map_filter_empty, map_size_empty.
  - by intros t u (p & Hp & _).
  - split; [done|]. by intros (t & p & Hp & _).
  - done.
Qed.

(** A thread that is outside or waits passes the loop. *)
Lemma foreground_test_ok s t g entry e :
  system_ok (mkSystem (sy_executor s) (<[t := Waiting g]> (sy_threads s))) →
  (sy_threads s !! t = None ∨ sy_threads s !! t = Some (Waiting g)) →
  foreground_test (sy_executor s) = (entry, e) →
  system_ok (mkSystem e (place entry g t (sy_threads s))).
Proof.
  destruct s as [x m]. cbn [sy_executor sy_threads]. intros Hok Ht Hf. pose proof Hok as [Hw Ho Ha Hg].
  cbn [sy_executor sy_threads] in *. unfold foreground_test in Hf.
  destruct (ce_active x) eqn:Hact; injection Hf as <- <-; cbn [place]; [done|].
  assert (Hnone : ∀ u, u <> t → ¬ inside m u).
  { intros u Hu Hi. assert (false = true) by (apply Ha; exists u; apply inside_insert; auto). done. }
  split; cbn.
  - rewrite Hw, (waiting_swap m t g InForeground) by done. lia.
  - intros u v [[-> _]|[Hu Hu']]%inside_insert [[-> _]|[Hv Hv']]%inside_insert; [done|..];
      by edestruct Hnone.
  - split; [|done]. intros _. exists t. apply inside_insert. by left.
  - intros u g' Hu. destruct (decide (u = t)) as [->|Hn].
    + by rewrite lookup_insert_eq in Hu.
    + rewrite lookup_insert_ne in Hu by done. apply (Hg u). by rewrite lookup_insert_ne.
Qed.

Lemma available_generation e g a : raise_if_unavailable e g = Ok a → g = ce_generation e.
Proof.
  unfold raise_if_unavailable. destruct (negb (ce_valid e)); [done|].
  destruct (negb _) eqn:H; [done|]. intros _. by apply negb_false_iff, Z.eqb_eq in H.
Qed.

(** A thread joins the waiting ones. *)
Lemma join_ok e m t :
  system_ok (mkSystem e m) → m !! t = None →
  system_ok (mkSystem (add_waiters 1 e) (<[t := Waiting (ce_generation e)]> m)).
Proof.
  intros [Hw Ho Ha Hg] Ht. cbn [sy_executor sy_threads] in *.
  assert (Hi : ∀ u, inside (<[t := Waiting (ce_generation e)]> m) u ↔ inside m u)
    by (intros u; apply inside_waiting; congruence).
  split; cbn.
  - rewrite waiting_insert_waiting, Hw by done. lia.
  - intros u v. rewrite !Hi. apply Ho.
  - rewrite Ha. by setoid_rewrite Hi.
  - intros u g Hu. destruct (decide (u = t)) as [->|Hn].
    + rewrite lookup_insert_eq in Hu. by injection Hu as <-.
    + rewrite lookup_insert_ne in Hu by done. by apply (Hg u).
Qed.

(** A waiting thread gives up. *)
Lemma give_up_ok e m t g :
  system_ok (mkSystem e m) → m !! t = Some (Waiting g) →
  system_ok (mkSystem (add_waiters (-1) e) (delete t m)).
Proof.
  intros [Hw Ho Ha Hg] Ht. cbn [sy_executor sy_threads] in *.
  assert (Hi : ∀ u, inside (delete t m) u ↔ inside m u)
    by (intros u; apply inside_delete_waiting; intros p Hp; rewrite Ht in Hp; by injection Hp as <-).
  split; cbn.
  - rewrite Hw, (waiting_delete_waiting m t g) by done. lia.
  - intros u v. rewrite !Hi. apply Ho.
  - rewrite Ha. by setoid_rewrite Hi.
  - intros u g' Hu. apply (Hg u). by apply lookup_delete_Some in Hu as [_ ?].
Qed.

Lemma start_maintenance_ok e m t :
  system_ok (mkSystem e m) → m !! t = None → ce_active e = false →
  system_ok (mkSystem (set_active true e) (<[t := InMaintenance]> m)).
Proof.
  intros [Hw Ho Ha Hg] Ht Hact. cbn [sy_executor sy_threads] in *.
  assert (Hnone : ∀ u, ¬ inside m u).
  { intros u Hu. assert (ce_active e = true) by (apply Ha; by exists u). congruence. }
  split; cbn.
  - by rewrite Hw, waiting_insert_inside.
  - intros u v [[-> _]|[_ Hu]]%inside_insert [[-> _]|[_ Hv]]%inside_insert; [done|..];
      by edestruct Hnone.
  - split; [|done]. intros _. exists t. apply inside_insert. by left.
  - intros u g Hu. destruct (decide (u = t)) as [->|Hn].
    + by rewrite lookup_insert_eq in Hu.
    + rewrite lookup_insert_ne in Hu by done. by apply (Hg u).
Qed.

Lemma leave_ok e m t p :
  system_ok (mkSystem e m) → m !! t = Some p → is_waiting p = false →
  system_ok (mkSystem (leave e) (delete t m)).
Proof.
  intros [Hw Ho Ha Hg] Ht Hp. cbn [sy_executor sy_threads] in *.
  assert (Hin : inside m t) by by exists p.
  split; cbn.
  - by rewrite Hw, (waiting_delete_inside m t p).
  - intros u v [_ Hu]%inside_delete [_ Hv]%inside_delete. by apply Ho.
  - split; [done|]. intros [u [Hn Hu]%inside_delete]. destruct Hn. by apply Ho.
  - intros u g Hu. apply (Hg u). by apply lookup_delete_Some in Hu as [_ ?].
Qed.

Lemma step_ok s s' : system_ok s → step s s' → system_ok s'.
Proof.
  intros Hok Hstep. destruct Hstep as
    [[x m] t g entry e Ht He|[x m] t g entry e Ht He|[x m] t g status e Ht He|[x m] t p Ht Hp|[x m]];
    cbn [sy_executor sy_threads] in *.
  - unfold foreground_enter in He.
    destruct (raise_if_unavailable x g) eqn:Hr;
      [|injection He as <- <-; cbn; by rewrite delete_id].
    apply available_generation in Hr as ->.
    apply (foreground_test_ok (mkSystem (add_waiters 1 x) m) t); [by apply join_ok|by left|done].
  - unfold foreground_wake in He.
    destruct (raise_if_unavailable x g) eqn:Hr;
      [|injection He as <- <-; cbn; by apply (give_up_ok x m t g)].
    apply (foreground_test_ok (mkSystem x m) t); [|by right|done].
    cbn. by rewrite insert_id.
  - unfold maintenance_enter in He.
    destruct (negb _); [by injection He as <- <-|]. destruct (negb _); [by injection He as <- <-|].
    destruct (ce_active x) eqn:Hact; [by injection He as <- <-|].
    destruct (0 <? _) eqn:Hf; injection He as <- <-; [done|]. by apply start_maintenance_ok.
  - apply (leave_ok x m t p); [done|done|]. by destruct Hp as [->| ->].
  - by destruct Hok.
Qed.

(** ** Reachable systems *)

Inductive Runs (generation : Z) : System → Prop :=
| runs_init : Runs generation (System_init generation)
| runs_step s s' : Runs generation s → step s s' → Runs generation s'.

Lemma runs_ok generation s : Runs generation s → system_ok s.
Proof. induction 1; [apply System_init_ok|by eapply step_ok]. Qed.

(** C28: at any time at most one thread is inside the action of a call, foreground or
    maintenance, and the flag and the count of the executor say so: it is
    active exactly when one is, and counts the threads that wait. *)
Theorem executor_excludes generation s :
  Runs generation s →
  (∀ t u, inside (sy_threads s) t → inside (sy_threads s) u → t = u)
  ∧ (ce_active (sy_executor s) = true ↔ ∃ t, inside (sy_threads s) t)
  ∧ ce_foreground_waiters (sy_executor s) = Z.of_nat (size (waiting (sy_threads s))).
Proof. intros H%runs_ok. destruct H. auto. Qed.

Lemma executor_excludes_witness :
  Runs 1 (mkSystem (set_active true (Executor_init 1)) (<[0%nat := InForeground]> ∅)) ∧
  (ce_active (set_active true (Executor_init 1)) = true
   ↔ ∃ t, inside (<[0%nat := InForeground]> ∅) t).
Proof.
  assert (H : Runs 1 (mkSystem (set_active true (Executor_init 1)) (<[0%nat := InForeground]> ∅))).
  { eapply runs_step; [apply runs_init|].
    exact (step_foreground (System_init 1) 0 1 Enters (set_active true (Executor_init 1))
             eq_refl eq_refl). }
  split; [exact H|]. exact (proj1 (proj2 (executor_excludes 1 _ H))).
Defined.

(** a foreground call comes first and is never lost: while one waits no
    maintenance starts; when the session is free and the connection valid the
    next waiting call to wake enters its action; and after the executor is
    invalidated no thread enters an action any more, while a call that wakes
    is refused. *)
Theorem executor_foreground_first generation s :
  Runs generation s →
  (∀ t g, sy_threads s !! t = Some (Waiting g) →
     (maintenance_enter generation (sy_executor s)).1 <> MaintenanceExecutionStatus.EXECUTED
     ∧ (ce_valid (sy_executor s) = true → ce_active (sy_executor s) = false →
        (foreground_wake g (sy_executor s)).1 = Enters)
     ∧ (ce_valid (sy_executor s) = false →
        ∃ exc, (foreground_wake g (sy_executor s)).1 = Refused exc
               ∧ isinstance exc ConnectionExecutorClosedError = true))
  ∧ (ce_valid (sy_executor s) = false → ∀ s', step s s' →
     ce_valid (sy_executor s') = false
     ∧ ∀ t, inside (sy_threads s') t → inside (sy_threads s) t).
Proof.
  intros H%runs_ok. pose proof H as [Hw Ho Ha Hg]. split.
  - intros t g Ht. split; [|split].
    + pose proof (waiting_lookup _ _ _ Ht) as Hpos. unfold maintenance_enter.
      destruct (negb _); [done|]. destruct (negb _); [done|].
      assert ((0 <? ce_foreground_waiters (sy_executor s)) = true) as -> by (apply Z.ltb_lt; lia).
      by rewrite orb_true_r.
    + intros Hv Hact. unfold foreground_wake, raise_if_unavailable, foreground_test.
      by rewrite Hv, (Hg t g Ht), Z.eqb_refl, Hact.
    + intros Hv. unfold foreground_wake, raise_if_unavailable. rewrite Hv. by eexists.
  - intros Hv s' Hstep. destruct Hstep as [s t g entry e Ht He|s t g entry e Ht He|s t g status e Ht He
      |s t p Ht Hp|s]; cbn [sy_executor sy_threads] in *.
    + unfold foreground_enter, raise_if_unavailable in He. rewrite Hv in He. injection He as <- <-.
      split; [done|]. cbn. by rewrite delete_id.
    + unfold foreground_wake, raise_if_unavailable in He. rewrite Hv in He. injection He as <- <-.
      split; [done|]. by intros u [_ ?]%inside_delete.
    + unfold maintenance_enter in He. rewrite Hv in He. by injection He as <- <-.
    + split; [done|]. by intros u [_ ?]%inside_delete.
    + done.
Qed.

Lemma executor_foreground_first_witness :
  let s := mkSystem (add_waiters 1 (set_active true (Executor_init 1)))
             (<[1%nat := Waiting 1]> (<[0%nat := InForeground]> ∅)) in
  Runs 1 s ∧ (maintenance_enter 1 (sy_executor s)).1 <> MaintenanceExecutionStatus.EXECUTED.
Proof.
  intros s. assert (H : Runs 1 s).
  { eapply runs_step; [eapply runs_step; [apply runs_init|]|].
    - exact (step_foreground (System_init 1) 0 1 Enters (set_active true (Executor_init 1))
               eq_refl eq_refl).
    - exact (step_foreground (mkSystem (set_active true (Executor_init 1)) (<[0%nat := InForeground]> ∅))
               1 1 Waits (add_waiters 1 (set_active true (Executor_init 1))) eq_refl eq_refl). }
  split; [exact H|].
  exact (proj1 (proj1 (executor_foreground_first 1 s H) 1%nat 1 eq_refl)).
Defined.
