(* ===== verification/ImageRequests.v ===== *)
(** * Requests and summaries of image preparation

    gui/image_preparation_models.py, gui/advanced_ram_models.py and
    gui/flash_service_models.py: the immutable requests with their plans, the
    summaries of prepared images and the state of the Flash service resource.
    For a dataclass [C], [C_post_init] is what the construction of an instance
    does.  Resolving a path asks the file system, so it is an operation of the
    class [Paths]. *)

From Stdlib Require Import Ascii.
From S2P Require Import Prelude.
From S2P Require Import Errors.
From S2P Require Import TaskPlans.
From S2P Require Import Targets.
From S2P Require Import OperationResults.
From S2P Require Import RuntimeModels.

(** ** Paths *)

(** [str(Path(p).expanduser().resolve(strict=False))]; resolving a resolved
    path gives the path itself. *)
Class Paths : Type := {
  resolve_path : string → Res string;
  resolve_resolved p q : resolve_path p = Ok q → resolve_path q = Ok q;
}.

(** The last component of a path, and its suffix in lower case. *)
Fixpoint path_name (current path : string) : string :=
  match path with
  | EmptyString => current
  | String c t =>
      if bool_decide (c = "/"%char) || bool_decide (c = "\"%char) then path_name EmptyString t
      else path_name (current ++ String c EmptyString) t
  end.

Definition lower_ascii (c : Ascii.ascii) : Ascii.ascii :=
  let n := Ascii.N_of_ascii c in
  if ((65 <=? n) && (n <=? 90))%N then Ascii.ascii_of_N (n + 32) else c.

Fixpoint lower (s : string) : string :=
  match s with
  | EmptyString => EmptyString
  | String c t => String (lower_ascii c) (lower t)
  end.

(** The text from the last dot on; empty without a dot. *)
Fixpoint last_dot (s : string) : string :=
  match s with
  | EmptyString => EmptyString
  | String c t =>
      match last_dot t with
      | EmptyString => if bool_decide (c = "."%char) then s else EmptyString
      | found => found
      end
  end.

(** [Path(p).suffix.lower()]: a leading dot of the name and a final dot begin
    no suffix. *)
Definition path_suffix (path : string) : string :=
  let name := path_name EmptyString path in
  let suffix := last_dot name in
  if bool_decide (suffix = "."%string) || bool_decide (suffix = name) then EmptyString else lower suffix.

(** ** Shared checks *)

Definition check_target_key (value : string) : Res unit :=
  fail (Err ValueError (Lit "target_key must be 'cpu1' or 'cpu2'"))
    when negb (bool_decide (value ∈ ["cpu1"; "cpu2"])) ;;
  Ok tt.

Definition check_cpu1_key (value : string) : Res unit :=
  fail (Err ValueError (Lit "only target_key 'cpu1' is supported"))
    when negb (bool_decide (value = "cpu1")) ;;
  Ok tt.

Definition check_revision (value : Z) : Res unit :=
  fail (Err ValueError (Lit "selection_revision must be a non-negative integer")) when value <? 0 ;;
  Ok tt.

Definition check_connection_id (value : string) : Res unit :=
  fail (Err ValueError (Lit "connection_id must not be empty")) when blank value ;;
  Ok tt.

(** ** image_preparation_models.py *)

Module ImageSourceKind.
Inductive ImageSourceKind_t : Set := OUT | TXT.
End ImageSourceKind.
Module Hex2000Source.
Inductive Hex2000Source_t : Set := GLOBAL_SETTINGS | C2000_CG_ROOT | NOT_USED.
End Hex2000Source.
Abbreviation ImageSourceKind := ImageSourceKind.ImageSourceKind_t.
Abbreviation Hex2000Source := Hex2000Source.Hex2000Source_t.

#[export] Instance ImageSourceKind_eq_dec : EqDecision ImageSourceKind.
Proof. solve_decision. Defined.
#[export] Instance Hex2000Source_eq_dec : EqDecision Hex2000Source.
Proof. solve_decision. Defined.

Record SourceFileFingerprint : Set := mkFingerprint {
  fp_resolved_path : string;
  fp_size_bytes : Z;
  fp_mtime_ns : Z;
}.

#[export] Instance SourceFileFingerprint_eq_dec : EqDecision SourceFileFingerprint.
Proof. solve_decision. Defined.

Record PrepareFlashImageRequest : Set := mkPrepareFlash {
  pfr_target_key : string;
  pfr_source_path : string;
  pfr_selection_revision : Z;
}.

Definition PrepareFlashImageRequest_post_init (r : PrepareFlashImageRequest)
    : Res PrepareFlashImageRequest :=
  let? _ := check_target_key (pfr_target_key r) in
  let? _ := check_revision (pfr_selection_revision r) in
  Ok (mkPrepareFlash (pfr_target_key r) (strip (pfr_source_path r)) (pfr_selection_revision r)).

Definition PrepareFlashImageRequest_create_plan (r : PrepareFlashImageRequest) (task_id : string)
    : Res TaskPlan :=
  let title := ("Prepare " ++ upper (pfr_target_key r) ++ " App Image")%string in
  task_plan task_id title [("prepare_flash_image"%string, title)] ProgressMode.INDETERMINATE
    TaskConnectionRequirement.NONE false CompletionPolicy.AUTO_CLOSE_ON_CLEAN_SUCCESS true.

Record PreparedImageSummary : Set := mkImageSummary {
  is_target_key : string;
  is_selection_revision : Z;
  is_source_path : string;
  is_source_kind : ImageSourceKind;
  is_source_fingerprint : SourceFileFingerprint;
  is_entry_point : Z;
  is_image_size_words : Z;
  is_image_crc32 : Z;
  is_app_end : Z;
  is_image_sector_mask : Z;
  is_effective_sector_mask : Z;
  is_image_sector_bits : list Z;
  is_hex2000_source : Hex2000Source;
  is_hex2000_executable : option string;
}.

(** ** advanced_ram_models.py *)

Record PrepareRamImageRequest : Set := mkPrepareRam {
  prr_target_key : string;
  prr_source_path : string;
  prr_selection_revision : Z;
}.

Definition PrepareRamImageRequest_post_init (r : PrepareRamImageRequest)
    : Res PrepareRamImageRequest :=
  let? _ := check_target_key (prr_target_key r) in
  let? _ := check_revision (prr_selection_revision r) in
  fail (Err ValueError (Lit "source_path must be a non-empty string"))
    when blank (prr_source_path r) ;;
  Ok (mkPrepareRam (prr_target_key r) (strip (prr_source_path r)) (prr_selection_revision r)).

Definition PrepareRamImageRequest_create_plan (r : PrepareRamImageRequest) (task_id : string)
    : Res TaskPlan :=
  task_plan task_id ("Prepare " ++ upper (prr_target_key r) ++ " RAM Image")
    [("prepare_ram_image"%string, "Prepare RAM Image"%string)] ProgressMode.INDETERMINATE
    TaskConnectionRequirement.NONE false CompletionPolicy.AUTO_CLOSE_ON_CLEAN_SUCCESS true.

Record PreparedRamImageSummary : Set := mkRamSummaryOf {
  rm_target_key : string;
  rm_selection_revision : Z;
  rm_source_path : string;
  rm_source_kind : ImageSourceKind;
  rm_source_fingerprint : SourceFileFingerprint;
  rm_entry_point : Z;
  rm_image_size_words : Z;
  rm_image_crc32 : Z;
  rm_hex2000_source : Hex2000Source;
  rm_hex2000_executable : option string;
}.

(** [_identity] *)
Definition check_ram_identity (value : RamImageIdentity) : Res unit :=
  fail (Err ValueError (Lit "expected_image_identity total_words must be positive"))
    when ri_total_words value <=? 0 ;;
  Ok tt.

Module AdvancedRamOperationType.
Inductive AdvancedRamOperationType_t : Set := LOAD | CHECK_CRC | RUN.
End AdvancedRamOperationType.
Abbreviation AdvancedRamOperationType := AdvancedRamOperationType.AdvancedRamOperationType_t.

#[export] Instance AdvancedRamOperationType_eq_dec : EqDecision AdvancedRamOperationType.
Proof. solve_decision. Defined.

#[export] Instance RamCrcEvidence_eq_dec : EqDecision RamCrcEvidence.
Proof. solve_decision. Defined.
#[export] Instance VerifyEvidence_eq_dec : EqDecision VerifyEvidence.
Proof. solve_decision. Defined.

(** [_MaterializedRamOperationRequest] *)
Record MaterializedRamRequest : Set := mkMaterializedRam {
  mr_connection_id : string;
  mr_target_key : string;
  mr_image_source_path : string;
  mr_selection_revision : Z;
  mr_image_tool_configuration_revision : Z;
  mr_expected_image_identity : RamImageIdentity;
}.

Record RunAdvancedRamImageRequest : Set := mkRunRam {
  rr_connection_id : string;
  rr_target_key : string;
  rr_selection_revision : Z;
  rr_expected_image_identity : RamImageIdentity;
  rr_expected_ram_crc_evidence : RamCrcEvidence;
}.

Definition RunAdvancedRamImageRequest_post_init (r : RunAdvancedRamImageRequest)
    : Res RunAdvancedRamImageRequest :=
  let evidence := rr_expected_ram_crc_evidence r in
  let identity := rr_expected_image_identity r in
  let? _ := check_connection_id (rr_connection_id r) in
  let? _ := check_target_key (rr_target_key r) in
  let? _ := check_revision (rr_selection_revision r) in
  let? _ := check_ram_identity identity in
  let? cpu_id := from_target_key (rr_target_key r) in
  fail (Err ValueError (Lit "RAM CRC evidence CPU does not match target_key"))
    when negb (bool_decide (ce_cpu_id evidence = cpu_id)) ;;
  fail (Err ValueError (Lit "RAM CRC evidence identity does not match expected_image_identity"))
    when negb (bool_decide (ce_ram_image_identity evidence = identity)) ;;
  fail (Err ValueError (Lit "RAM CRC evidence does not match expected_image_identity"))
    when negb (ce_entry_point evidence =? ri_entry_point identity)
         || negb (ce_image_crc32 evidence =? ri_image_crc32 identity) ;;
  Ok r.

(** The three RAM operation requests. *)
Inductive RamRequest : Set :=
| LoadAdvancedRamImageRequest (r : MaterializedRamRequest)
| CheckAdvancedRamCrcRequest (r : MaterializedRamRequest)
| RunRamRequest (r : RunAdvancedRamImageRequest).

Definition ram_connection_id (r : RamRequest) : string :=
  match r with
  | LoadAdvancedRamImageRequest m | CheckAdvancedRamCrcRequest m => mr_connection_id m
  | RunRamRequest m => rr_connection_id m
  end.

Definition ram_target_key (r : RamRequest) : string :=
  match r with
  | LoadAdvancedRamImageRequest m | CheckAdvancedRamCrcRequest m => mr_target_key m
  | RunRamRequest m => rr_target_key m
  end.

Definition ram_selection_revision (r : RamRequest) : Z :=
  match r with
  | LoadAdvancedRamImageRequest m | CheckAdvancedRamCrcRequest m => mr_selection_revision m
  | RunRamRequest m => rr_selection_revision m
  end.

Definition ram_expected_image_identity (r : RamRequest) : RamImageIdentity :=
  match r with
  | LoadAdvancedRamImageRequest m | CheckAdvancedRamCrcRequest m => mr_expected_image_identity m
  | RunRamRequest m => rr_expected_image_identity m
  end.

Definition ram_title (r : RamRequest) : string :=
  match r with
  | LoadAdvancedRamImageRequest _ => "Load RAM Image"
  | CheckAdvancedRamCrcRequest _ => "Check RAM CRC"
  | RunRamRequest _ => "Run RAM Image"
  end.

Definition ram_step_id (r : RamRequest) : string :=
  match r with
  | LoadAdvancedRamImageRequest _ => "load_ram_image"
  | CheckAdvancedRamCrcRequest _ => "check_ram_crc"
  | RunRamRequest _ => "run_ram_image"
  end.

Definition ram_cancellable (r : RamRequest) : bool :=
  match r with LoadAdvancedRamImageRequest _ => true | _ => false end.

Definition RamRequest_create_plan (r : RamRequest) (task_id : string) : Res TaskPlan :=
  task_plan task_id (ram_title r) [(ram_step_id r, ram_title r)] ProgressMode.INDETERMINATE
    TaskConnectionRequirement.CONNECTED (ram_cancellable r)
    CompletionPolicy.REQUIRE_ACKNOWLEDGEMENT true.

Record AdvancedRamOperationSnapshot : Type := mkRamSnapshot {
  an_connection_id : string;
  an_target_key : string;
  an_selection_revision : Z;
  an_image_identity : RamImageIdentity;
  an_operation_type : AdvancedRamOperationType;
  an_ram_crc_evidence : option RamCrcEvidence;
  an_operation_result : OperationResult;
}.

Definition AdvancedRamOperationSnapshot_post_init (s : AdvancedRamOperationSnapshot)
    : Res AdvancedRamOperationSnapshot :=
  fail (Err ValueError (Lit "connection_id must not be empty"))
    when empty_str (an_connection_id s) ;;
  let? _ := check_target_key (an_target_key s) in
  let? _ := check_revision (an_selection_revision s) in
  let? _ := check_ram_identity (an_image_identity s) in
  match an_operation_type s, an_ram_crc_evidence s with
  | AdvancedRamOperationType.RUN, None =>
      Raise (Err TypeError (Lit "RUN requires the canonical RamCrcEvidence"))
  | AdvancedRamOperationType.RUN, Some evidence =>
      let? cpu_id := from_target_key (an_target_key s) in
      fail (Err ValueError (Lit "RUN evidence does not match the snapshot"))
        when negb (bool_decide (ce_cpu_id evidence = cpu_id))
             || negb (bool_decide (ce_ram_image_identity evidence = an_image_identity s)) ;;
      Ok s
  | _, Some _ =>
      Raise (Err ValueError (Lit "LOAD and CHECK_CRC snapshots cannot carry RamCrcEvidence"))
  | _, None => Ok s
  end.

(** ** flash_service_models.py *)

Definition DEFAULT_SERVICE_HEADER_SYMBOL : string := "g_boot_flash_service_header".

Module FlashServiceResourceStatus.
Inductive FlashServiceResourceStatus_t : Set := UNAVAILABLE | UNVALIDATED | READY | ERROR | STALE.

Definition name (s : FlashServiceResourceStatus_t) : string :=
  match s with
  | UNAVAILABLE => "UNAVAILABLE" | UNVALIDATED => "UNVALIDATED" | READY => "READY"
  | ERROR => "ERROR" | STALE => "STALE"
  end.
End FlashServiceResourceStatus.
Abbreviation FlashServiceResourceStatus :=
  FlashServiceResourceStatus.FlashServiceResourceStatus_t.

#[export] Instance FlashServiceResourceStatus_eq_dec : EqDecision FlashServiceResourceStatus.
Proof. solve_decision. Defined.

Record PrepareFlashServiceRequest : Set := mkPrepareService {
  psr_resource_revision : Z;
  psr_tool_configuration_revision : Z;
  psr_target_key : string;
  psr_show_task_dialog : bool;
}.

Definition PrepareFlashServiceRequest_post_init (r : PrepareFlashServiceRequest)
    : Res PrepareFlashServiceRequest :=
  let? _ := check_revision (psr_resource_revision r) in
  let? _ := check_revision (psr_tool_configuration_revision r) in
  let? _ := check_cpu1_key (psr_target_key r) in
  Ok r.

Definition PrepareFlashServiceRequest_create_plan (r : PrepareFlashServiceRequest)
    (task_id : string) : Res TaskPlan :=
  let title := "Prepare CPU1 Flash Service"%string in
  task_plan task_id title [("prepare_flash_service"%string, title)] ProgressMode.INDETERMINATE
    TaskConnectionRequirement.NONE false CompletionPolicy.AUTO_CLOSE_ON_CLEAN_SUCCESS
    (psr_show_task_dialog r).

Record PreparedFlashServiceSummary : Set := mkServiceSummary {
  vs_target_key : string;
  vs_provider_name : string;
  vs_service_image_path : string;
  vs_service_map_path : string;
  vs_header_symbol : string;
  vs_resource_revision : Z;
  vs_tool_configuration_revision : Z;
  vs_image_source_kind : ImageSourceKind;
  vs_image_fingerprint : SourceFileFingerprint;
  vs_map_fingerprint : SourceFileFingerprint;
  vs_header_address : Z;
  vs_total_words : Z;
  vs_expected_crc32 : Z;
  vs_required_capabilities : Z;
  vs_hex2000_source : Hex2000Source;
  vs_hex2000_executable : option string;
}.

#[export] Instance PreparedFlashServiceSummary_eq_dec : EqDecision PreparedFlashServiceSummary.
Proof. solve_decision. Defined.

Record FlashServiceResourceState : Set := mkServiceState {
  st_revision : Z;
  st_provider_name : string;
  st_image_path : option string;
  st_map_path : option string;
  st_status : FlashServiceResourceStatus;
  st_summary : option PreparedFlashServiceSummary;
  st_error_code : option string;
  st_error_message : option string;
}.

#[export] Instance FlashServiceResourceState_eq_dec : EqDecision FlashServiceResourceState.
Proof. solve_decision. Defined.

(** [bool(self.error_code and self.error_message)] *)
Definition truthy_str (s : option string) : bool :=
  match s with Some s => negb (empty_str s) | None => false end.

Section with_paths.
Context `{Paths}.

(** [_normalized_path] *)
Definition normalized_path (value : string) : Res string :=
  fail (Err ValueError (Lit "resource paths must be non-empty strings")) when blank value ;;
  resolve_path (strip value).

Definition normalized_option (value : option string) : Res (option string) :=
  match value with
  | None => Ok None
  | Some path => let? path := normalized_path path in Ok (Some path)
  end.

Definition SourceFileFingerprint_post_init (f : SourceFileFingerprint) : Res SourceFileFingerprint :=
  let? path := resolve_path (fp_resolved_path f) in
  fail (Err ValueError (Lit "file fingerprint values must be non-negative"))
    when (fp_size_bytes f <? 0) || (fp_mtime_ns f <? 0) ;;
  Ok (mkFingerprint path (fp_size_bytes f) (fp_mtime_ns f)).

Definition PreparedImageSummary_post_init (s : PreparedImageSummary) : Res PreparedImageSummary :=
  let? _ := check_target_key (is_target_key s) in
  let? source_path := resolve_path (is_source_path s) in
  fail (Err ValueError (Lit "image_sector_bits must contain non-negative integers"))
    when existsb (λ bit, bit <? 0) (is_image_sector_bits s) ;;
  fail (Err ValueError (Lit "prepared image summary contains invalid image values"))
    when (is_image_size_words s <=? 0) || (is_app_end s <=? 0) ;;
  fail (Err ValueError (Lit "prepared image summary contains invalid sector masks"))
    when (is_image_sector_mask s <=? 0) || (is_effective_sector_mask s <=? 0) ;;
  Ok (mkImageSummary (is_target_key s) (is_selection_revision s) source_path (is_source_kind s)
        (is_source_fingerprint s) (is_entry_point s) (is_image_size_words s) (is_image_crc32 s)
        (is_app_end s) (is_image_sector_mask s) (is_effective_sector_mask s)
        (is_image_sector_bits s) (is_hex2000_source s) (is_hex2000_executable s)).

Definition PreparedRamImageSummary_post_init (s : PreparedRamImageSummary)
    : Res PreparedRamImageSummary :=
  let? _ := check_target_key (rm_target_key s) in
  let? _ := check_revision (rm_selection_revision s) in
  fail (Err ValueError (Lit "image_size_words must be positive")) when rm_image_size_words s <=? 0 ;;
  let? source_path := resolve_path (rm_source_path s) in
  Ok (mkRamSummaryOf (rm_target_key s) (rm_selection_revision s) source_path (rm_source_kind s)
        (rm_source_fingerprint s) (rm_entry_point s) (rm_image_size_words s) (rm_image_crc32 s)
        (rm_hex2000_source s) (rm_hex2000_executable s)).

Definition MaterializedRamRequest_post_init (r : MaterializedRamRequest)
    : Res MaterializedRamRequest :=
  let? _ := check_connection_id (mr_connection_id r) in
  let? _ := check_target_key (mr_target_key r) in
  let? _ := check_revision (mr_selection_revision r) in
  let? _ := check_revision (mr_image_tool_configuration_revision r) in
  let? _ := check_ram_identity (mr_expected_image_identity r) in
  fail (Err ValueError (Lit "image_source_path must be a non-empty string"))
    when blank (mr_image_source_path r) ;;
  let? path := resolve_path (strip (mr_image_source_path r)) in
  Ok (mkMaterializedRam (mr_connection_id r) (mr_target_key r) path (mr_selection_revision r)
        (mr_image_tool_configuration_revision r) (mr_expected_image_identity r)).

(** The loop over the numeric fields of PreparedFlashServiceSummary. *)
Definition check_service_numbers (s : PreparedFlashServiceSummary) : Res unit :=
  let? _ := mapR (λ f, non_negative_int f.2 f.1)
    [("header_address"%string, vs_header_address s); ("total_words"%string, vs_total_words s);
     ("expected_crc32"%string, vs_expected_crc32 s);
     ("required_capabilities"%string, vs_required_capabilities s)] in
  fail (Err ValueError (Lit "total_words must be positive")) when vs_total_words s =? 0 ;;
  Ok tt.

(** A .txt image is used as it is, an .out image names the tool. *)
Definition check_service_tool (s : PreparedFlashServiceSummary) : Res unit :=
  let not_used := bool_decide (vs_hex2000_source s = Hex2000Source.NOT_USED) in
  let executable := isSome (vs_hex2000_executable s) in
  match vs_image_source_kind s with
  | ImageSourceKind.TXT =>
      fail (Err ValueError (Lit "TXT service summaries must not use hex2000"))
        when negb not_used || executable ;;
      Ok tt
  | ImageSourceKind.OUT =>
      fail (Err ValueError (Lit "OUT service summaries require hex2000 identity"))
        when not_used || negb executable ;;
      Ok tt
  end.

Definition PreparedFlashServiceSummary_post_init (s : PreparedFlashServiceSummary)
    : Res PreparedFlashServiceSummary :=
  let? _ := check_cpu1_key (vs_target_key s) in
  fail (Err ValueError (Lit "provider_name must not be empty")) when blank (vs_provider_name s) ;;
  fail (Err ValueError (Lit "header_symbol must be the canonical Flash Service symbol"))
    when negb (bool_decide (vs_header_symbol s = DEFAULT_SERVICE_HEADER_SYMBOL)) ;;
  let? _ := check_revision (vs_resource_revision s) in
  let? _ := check_revision (vs_tool_configuration_revision s) in
  let? _ := check_service_numbers s in
  let? image_path := normalized_path (vs_service_image_path s) in
  let? map_path := normalized_path (vs_service_map_path s) in
  fail (Err ValueError (Lit "image_fingerprint path must match service_image_path"))
    when negb (bool_decide (fp_resolved_path (vs_image_fingerprint s) = image_path)) ;;
  fail (Err ValueError (Lit "map_fingerprint path must match service_map_path"))
    when negb (bool_decide (fp_resolved_path (vs_map_fingerprint s) = map_path)) ;;
  fail (Err ValueError (Lit "hex2000_executable must be a non-empty string or None"))
    when match vs_hex2000_executable s with Some path => blank path | None => false end ;;
  let? executable := normalized_option (vs_hex2000_executable s) in
  let? _ := check_service_tool s in
  Ok (mkServiceSummary (vs_target_key s) (strip (vs_provider_name s)) image_path map_path
        (vs_header_symbol s) (vs_resource_revision s) (vs_tool_configuration_revision s)
        (vs_image_source_kind s) (vs_image_fingerprint s) (vs_map_fingerprint s)
        (vs_header_address s) (vs_total_words s) (vs_expected_crc32 s)
        (vs_required_capabilities s) (vs_hex2000_source s) executable).

(** The last part of [FlashServiceResourceState.__post_init__], with the
    normalised fields. *)
Definition check_service_state (s : FlashServiceResourceState) : Res unit :=
  let has_paths := isSome (st_image_path s) && isSome (st_map_path s) in
  let has_error := truthy_str (st_error_code s) && truthy_str (st_error_message s) in
  let no_error := negb (isSome (st_error_code s)) && negb (isSome (st_error_message s)) in
  match st_status s with
  | FlashServiceResourceStatus.UNVALIDATED =>
      fail (Err ValueError (Lit "UNVALIDATED requires paths and no summary or error"))
        when negb has_paths || isSome (st_summary s) || negb no_error ;;
      Ok tt
  | FlashServiceResourceStatus.READY =>
      match st_summary s with
      | None => Raise (Err ValueError (Lit "READY requires paths and a lightweight summary"))
      | Some summary =>
          fail (Err ValueError (Lit "READY requires paths and a lightweight summary"))
            when negb has_paths ;;
          fail (Err ValueError (Lit "READY cannot carry an error")) when negb no_error ;;
          fail (Err ValueError (Lit "READY summary paths must match resource paths"))
            when negb (bool_decide (Some (vs_service_image_path summary) = st_image_path s))
                 || negb (bool_decide (Some (vs_service_map_path summary) = st_map_path s)) ;;
          fail (Err ValueError (Lit "READY summary provider and revision must match resource state"))
            when negb (bool_decide (vs_provider_name summary = st_provider_name s))
                 || negb (vs_resource_revision summary =? st_revision s) ;;
          Ok tt
      end
  | status =>
      fail (Err ValueError (Fmt "{} requires an explicit error and no summary"
             [VStr (FlashServiceResourceStatus.name status)]))
        when isSome (st_summary s) || negb has_error ;;
      Ok tt
  end.

Definition FlashServiceResourceState_post_init (s : FlashServiceResourceState)
    : Res FlashServiceResourceState :=
  let? _ := check_revision (st_revision s) in
  fail (Err ValueError (Lit "provider_name must not be empty")) when blank (st_provider_name s) ;;
  let? image_path := normalized_option (st_image_path s) in
  let? map_path := normalized_option (st_map_path s) in
  let state := mkServiceState (st_revision s) (strip (st_provider_name s)) image_path map_path
                 (st_status s) (st_summary s) (st_error_code s) (st_error_message s) in
  let? _ := check_service_state state in
  Ok state.
End with_paths.
