(* ===== verification/OperationRequests.v ===== *)
(** * Requests and snapshots of connected operations

    gui/connection_models.py, gui/memory_models.py,
    gui/advanced_execution_models.py, gui/advanced_flash_operation_models.py
    and gui/advanced_metadata_models.py: the immutable requests with their
    plans, and the snapshots of what was done. *)

From S2P Require Import Prelude.
From S2P Require Import Errors.
From S2P Require Import TaskPlans.
From S2P Require Import Models.
From S2P Require Import Targets.
From S2P Require Import OperationResults.
From S2P Require Import StatusModels.
From S2P Require Import RuntimeModels.
From S2P Require Import ImageRequests.

(** ** connection_models.py *)

Record SerialConnectRequest : Set := mkConnect {
  sc_port : string;
  sc_baudrate : Z;
  sc_tx_timeout_ms : Z;
  sc_rx_timeout_ms : Z;
  sc_autobaud_timeout_ms : Z;
}.

(** [_positive_int] *)
Definition positive_int (value : Z) (name : string) : Res unit :=
  fail (Err ValueError (Fmt "{} must be a positive integer" [VStr name])) when value <=? 0 ;;
  Ok tt.

Definition connect_numbers (r : SerialConnectRequest) : list (string * Z) :=
  [("baudrate"%string, sc_baudrate r); ("tx_timeout_ms"%string, sc_tx_timeout_ms r);
   ("rx_timeout_ms"%string, sc_rx_timeout_ms r);
   ("autobaud_timeout_ms"%string, sc_autobaud_timeout_ms r)].

Definition SerialConnectRequest_post_init (r : SerialConnectRequest) : Res SerialConnectRequest :=
  let port := strip (sc_port r) in
  fail (Err ValueError (Lit "port must not be empty")) when empty_str port ;;
  let? _ := mapR (λ f, positive_int f.2 f.1) (connect_numbers r) in
  Ok (mkConnect port (sc_baudrate r) (sc_tx_timeout_ms r) (sc_rx_timeout_ms r)
        (sc_autobaud_timeout_ms r)).

Definition SerialConnectRequest_create_plan (task_id : string) : Res TaskPlan :=
  task_plan task_id "Connect SCI / RS232"
    [("connect_sci"%string, "Connect SCI / RS232"%string);
     ("identify_target"%string, "Identify Connected Target"%string)]
    ProgressMode.INDETERMINATE TaskConnectionRequirement.NONE true
    CompletionPolicy.AUTO_CLOSE_ON_CLEAN_SUCCESS true.

Definition SerialDisconnectRequest_create_plan (task_id : string) : Res TaskPlan :=
  let title := "Disconnect SCI / RS232"%string in
  task_plan task_id title [("disconnect_sci"%string, title)] ProgressMode.INDETERMINATE
    TaskConnectionRequirement.CONNECTED false CompletionPolicy.AUTO_CLOSE_ON_CLEAN_SUCCESS true.

(** ** memory_models.py *)

Record MemoryRefreshRequest : Set := mkMemoryRefresh {
  mf_connection_id : string;
  mf_target_key : string;
  mf_expected_connection_generation : ConnectionGeneration;
  mf_start_address : Z;
  mf_word_count : Z;
}.

Definition MemoryRefreshRequest_post_init (r : MemoryRefreshRequest) : Res MemoryRefreshRequest :=
  let? _ := check_connection_id (mf_connection_id r) in
  let? _ := from_target_key (mf_target_key r) in
  fail (Err ValueError (Lit "start_address must fit uint32"))
    when negb ((0 <=? mf_start_address r) && (mf_start_address r <=? 0xFFFFFFFF)) ;;
  fail (Err ValueError (Lit "word_count must be between 1 and 4096"))
    when negb ((1 <=? mf_word_count r) && (mf_word_count r <=? 4096)) ;;
  fail (Err ValueError (Lit "memory read exceeds the uint32 address space"))
    when mf_start_address r + mf_word_count r - 1 >? 0xFFFFFFFF ;;
  Ok r.

Definition memory_title (r : MemoryRefreshRequest) : string :=
  ("Read " ++ upper (mf_target_key r) ++ " Memory")%string.

Definition MemoryRefreshRequest_create_plan (r : MemoryRefreshRequest) (task_id : string)
    : Res TaskPlan :=
  task_plan task_id (memory_title r) [("read_memory"%string, memory_title r)]
    ProgressMode.DETERMINATE TaskConnectionRequirement.CONNECTED true
    CompletionPolicy.AUTO_CLOSE_ON_CLEAN_SUCCESS true.

Record MemoryReadTaskSnapshot : Type := mkMemorySnapshot {
  my_request : MemoryRefreshRequest;       (* the five fields of the request *)
  my_operation_result : OperationResult;
}.

Definition MemoryReadTaskSnapshot_post_init (s : MemoryReadTaskSnapshot)
    : Res MemoryReadTaskSnapshot :=
  let? _ := MemoryRefreshRequest_post_init (my_request s) in Ok s.

(** ** advanced_execution_models.py *)

Definition FLASH_APP_RUN_CPU : RuntimeCpuId := CPU1.
Definition FLASH_APP_RUN_TARGET_KEY : string := "cpu1".

Record RunAdvancedFlashAppRequest : Type := mkRunFlash {
  rf_connection_id : string;
  rf_target_key : string;
  rf_expected_connection_generation : ConnectionGeneration;
  rf_expected_metadata_snapshot : MetadataStatusSnapshot;
  rf_entry_point : Z;
}.

Definition run_flash_title : string := "Run Flash App".
Definition run_flash_step_id : string := "run_flash_app".

Definition RunAdvancedFlashAppRequest_post_init (r : RunAdvancedFlashAppRequest)
    : Res RunAdvancedFlashAppRequest :=
  let snapshot := rf_expected_metadata_snapshot r in
  let? _ := check_connection_id (rf_connection_id r) in
  fail (Err ValueError (Lit "target_key must be 'cpu1'"))
    when negb (bool_decide (rf_target_key r = FLASH_APP_RUN_TARGET_KEY)) ;;
  fail (Err ValueError (Lit "Metadata snapshot connection does not match request"))
    when negb (bool_decide (mt_connection_id snapshot = rf_connection_id r)) ;;
  fail (Err ValueError (Lit "Metadata snapshot target does not match request"))
    when negb (bool_decide (mt_target_key snapshot = rf_target_key r)) ;;
  fail (Err ValueError (Lit "a valid IMAGE_VALID entry point is required"))
    when negb (mt_metadata_valid snapshot && mt_image_valid snapshot
               && mt_entry_point_valid snapshot) ;;
  fail (Err ValueError (Lit "entry_point must be a non-negative integer"))
    when rf_entry_point r <? 0 ;;
  fail (Err ValueError (Lit "entry_point does not match Metadata snapshot"))
    when negb (ms_entry_point (mt_raw_metadata snapshot) =? rf_entry_point r) ;;
  Ok r.

Definition RunAdvancedFlashAppRequest_create_plan (task_id : string) : Res TaskPlan :=
  task_plan task_id run_flash_title [(run_flash_step_id, run_flash_title)]
    ProgressMode.INDETERMINATE TaskConnectionRequirement.CONNECTED false
    CompletionPolicy.REQUIRE_ACKNOWLEDGEMENT true.

Record AdvancedFlashAppRunSnapshot : Type := mkRunSnapshot {
  ar_request : RunAdvancedFlashAppRequest; (* the five fields of the request *)
  ar_operation_result : OperationResult;
}.

Definition AdvancedFlashAppRunSnapshot_post_init (s : AdvancedFlashAppRunSnapshot)
    : Res AdvancedFlashAppRunSnapshot :=
  let? _ := RunAdvancedFlashAppRequest_post_init (ar_request s) in Ok s.

(** ** advanced_flash_operation_models.py *)

Module AdvancedFlashEraseScope.
Inductive AdvancedFlashEraseScope_t : Set :=
| REQUIRED_APP_SECTORS | ENTIRE_APPLICATION_REGION | CUSTOM_SECTOR_MASK.
End AdvancedFlashEraseScope.
Module AdvancedFlashOperationType.
Inductive AdvancedFlashOperationType_t : Set := ERASE | PROGRAM_ONLY | VERIFY_ONLY.
End AdvancedFlashOperationType.
Abbreviation AdvancedFlashEraseScope := AdvancedFlashEraseScope.AdvancedFlashEraseScope_t.
Abbreviation AdvancedFlashOperationType :=
  AdvancedFlashOperationType.AdvancedFlashOperationType_t.

#[export] Instance AdvancedFlashEraseScope_eq_dec : EqDecision AdvancedFlashEraseScope.
Proof. solve_decision. Defined.
#[export] Instance AdvancedFlashOperationType_eq_dec : EqDecision AdvancedFlashOperationType.
Proof. solve_decision. Defined.

(** The fields of [_AdvancedFlashOperationRequest]. *)
Record FlashRequestFields : Set := mkFlashFields {
  ff_connection_id : string;
  ff_target_key : string;
  ff_image_source_path : string;
  ff_image_selection_revision : Z;
  ff_image_tool_configuration_revision : Z;
  ff_expected_image_identity : ImageIdentity;
  ff_expected_effective_sector_mask : Z;
  ff_service_configuration_revision : Z;
  ff_service_tool_configuration_revision : Z;
  ff_expected_connection_generation : ConnectionGeneration;
  ff_expected_service_summary : PreparedFlashServiceSummary;
}.

(** The three classes of requests. *)
Inductive FlashRequest : Set :=
| EraseAdvancedFlashRequest (fields : FlashRequestFields) (erase_scope : AdvancedFlashEraseScope)
    (custom_sector_mask : Z)
| ProgramAdvancedFlashRequest (fields : FlashRequestFields)
| VerifyAdvancedFlashRequest (fields : FlashRequestFields).

Definition flash_fields (r : FlashRequest) : FlashRequestFields :=
  match r with
  | EraseAdvancedFlashRequest f _ _ | ProgramAdvancedFlashRequest f
  | VerifyAdvancedFlashRequest f => f
  end.

Definition flash_title (r : FlashRequest) : string :=
  match r with
  | EraseAdvancedFlashRequest _ _ _ => "Erase"
  | ProgramAdvancedFlashRequest _ => "Program Only"
  | VerifyAdvancedFlashRequest _ => "Verify Only"
  end.

Definition flash_step_id (r : FlashRequest) : string :=
  match r with
  | EraseAdvancedFlashRequest _ _ _ => "erase_advanced_flash"
  | ProgramAdvancedFlashRequest _ => "program_advanced_flash"
  | VerifyAdvancedFlashRequest _ => "verify_advanced_flash"
  end.

Definition read_metadata_step : string * string :=
  ("read_metadata_summary"%string, "Read Metadata Summary"%string).

Definition FlashRequest_create_plan (r : FlashRequest) (task_id : string) : Res TaskPlan :=
  let step := (flash_step_id r, flash_title r) in
  task_plan task_id (flash_title r)
    match r with VerifyAdvancedFlashRequest _ => [step] | _ => [step; read_metadata_step] end
    ProgressMode.INDETERMINATE TaskConnectionRequirement.CONNECTED true
    CompletionPolicy.REQUIRE_ACKNOWLEDGEMENT true.

(** The service summary that a request expects names its revisions. *)
Definition check_expected_service (summary : PreparedFlashServiceSummary) (target_key : string)
    (service_revision tool_revision : Z) : Res unit :=
  fail (Err ValueError (Lit "expected_service_summary revisions must match the request"))
    when negb (bool_decide (vs_target_key summary = target_key))
         || negb (vs_resource_revision summary =? service_revision)
         || negb (vs_tool_configuration_revision summary =? tool_revision) ;;
  Ok tt.

Record AdvancedFlashOperationSnapshot : Type := mkFlashSnapshot {
  ao_connection_id : string;
  ao_target_key : string;
  ao_image_selection_revision : Z;
  ao_image_tool_configuration_revision : Z;
  ao_service_configuration_revision : Z;
  ao_service_tool_configuration_revision : Z;
  ao_operation_type : AdvancedFlashOperationType;
  ao_operation_result : OperationResult;
  ao_operation_result_data : Dict;
  ao_erase_scope : option AdvancedFlashEraseScope;
  ao_erase_sector_mask : option Z;
  ao_metadata_refresh_result : option OperationResult;
  ao_metadata_refresh_result_data : option Dict;
  ao_metadata_snapshot : option MetadataStatusSnapshot;
}.

(** The result says that the operation was done: it succeeded, perhaps after a
    request to cancel it. *)
Definition completed (r : OperationResult) : bool :=
  bool_decide (or_completion r = Some OperationCompletion.SUCCEEDED)
  || bool_decide (or_completion r = Some OperationCompletion.COMPLETED_AFTER_CANCEL_REQUEST).

(** The checks of [AdvancedFlashOperationSnapshot.__post_init__] on the
    refresh of the metadata. *)
Definition check_refresh_data (s : AdvancedFlashOperationSnapshot) : Res unit :=
  let result := isSome (ao_metadata_refresh_result s) in
  let data := isSome (ao_metadata_refresh_result_data s) in
  let snapshot := isSome (ao_metadata_snapshot s) in
  match ao_operation_type s with
  | AdvancedFlashOperationType.VERIFY_ONLY =>
      fail (Err ValueError (Lit "Verify snapshots cannot carry Metadata refresh data"))
        when result || data || snapshot ;;
      Ok tt
  | _ =>
      if result then
        fail (Err TypeError (Lit "metadata_refresh_result_data must be dict")) when negb data ;;
        Ok tt
      else
        fail (Err ValueError (Lit "Metadata refresh data requires metadata_refresh_result"))
          when data || snapshot ;;
        Ok tt
  end.

Definition AdvancedFlashOperationSnapshot_post_init (s : AdvancedFlashOperationSnapshot)
    : Res AdvancedFlashOperationSnapshot :=
  let? _ := check_connection_id (ao_connection_id s) in
  let? _ := check_cpu1_key (ao_target_key s) in
  let? _ := mapR check_revision
    [ao_image_selection_revision s; ao_image_tool_configuration_revision s;
     ao_service_configuration_revision s; ao_service_tool_configuration_revision s] in
  fail (Err ValueError (Lit "Unsuccessful primary results cannot carry Metadata refresh data"))
    when negb (completed (ao_operation_result s))
         && (isSome (ao_metadata_refresh_result s) || isSome (ao_metadata_refresh_result_data s)
             || isSome (ao_metadata_snapshot s)) ;;
  let? _ :=
    match ao_operation_type s with
    | AdvancedFlashOperationType.ERASE =>
        fail (Err TypeError (Lit "Erase snapshot requires an erase scope"))
          when negb (isSome (ao_erase_scope s)) ;;
        fail (Err ValueError (Lit "Erase snapshot requires a positive sector mask"))
          when match ao_erase_sector_mask s with Some mask => mask <=? 0 | None => true end ;;
        Ok tt
    | _ =>
        fail (Err ValueError (Lit "Only Erase snapshots carry erase details"))
          when isSome (ao_erase_scope s) || isSome (ao_erase_sector_mask s) ;;
        Ok tt
    end in
  let? _ := check_refresh_data s in
  Ok s.

(** ** advanced_metadata_models.py *)

Module AdvancedMetadataOperationType.
Inductive AdvancedMetadataOperationType_t : Set :=
| WRITE_IMAGE_VALID | WRITE_BOOT_ATTEMPT | WRITE_APP_CONFIRMED.
End AdvancedMetadataOperationType.
Abbreviation AdvancedMetadataOperationType :=
  AdvancedMetadataOperationType.AdvancedMetadataOperationType_t.

#[export] Instance AdvancedMetadataOperationType_eq_dec :
  EqDecision AdvancedMetadataOperationType.
Proof. solve_decision. Defined.

(** The fields of [_AdvancedMetadataRequest]; its
    [expected_metadata_snapshot] is an argument of the classes that carry one
    and absent from [WriteAdvancedImageValidRequest], which refuses one. *)
Record MetadataRequestFields : Set := mkMetadataFields {
  mq_connection_id : string;
  mq_target_key : string;
  mq_service_configuration_revision : Z;
  mq_service_tool_configuration_revision : Z;
  mq_expected_connection_generation : ConnectionGeneration;
  mq_expected_service_summary : PreparedFlashServiceSummary;
}.

(** The further fields of [WriteAdvancedImageValidRequest]. *)
Record ImageValidFields : Set := mkImageValidFields {
  iv_image_source_path : string;
  iv_image_selection_revision : Z;
  iv_image_tool_configuration_revision : Z;
  iv_expected_image_identity : ImageIdentity;
  iv_expected_effective_sector_mask : Z;
  iv_expected_verify_evidence : VerifyEvidence;
}.

Inductive MetadataRequest : Type :=
| WriteAdvancedImageValidRequest (fields : MetadataRequestFields) (image : ImageValidFields)
| WriteAdvancedBootAttemptRequest (fields : MetadataRequestFields)
    (expected_metadata_snapshot : MetadataStatusSnapshot)
| WriteAdvancedAppConfirmedRequest (fields : MetadataRequestFields)
    (expected_metadata_snapshot : MetadataStatusSnapshot).

Definition metadata_fields (r : MetadataRequest) : MetadataRequestFields :=
  match r with
  | WriteAdvancedImageValidRequest f _ | WriteAdvancedBootAttemptRequest f _
  | WriteAdvancedAppConfirmedRequest f _ => f
  end.

Definition metadata_title (r : MetadataRequest) : string :=
  match r with
  | WriteAdvancedImageValidRequest _ _ => "Write IMAGE_VALID"
  | WriteAdvancedBootAttemptRequest _ _ => "Write BOOT_ATTEMPT"
  | WriteAdvancedAppConfirmedRequest _ _ => "Write APP_CONFIRMED"
  end.

Definition metadata_step_id (r : MetadataRequest) : string :=
  match r with
  | WriteAdvancedImageValidRequest _ _ => "write_image_valid"
  | WriteAdvancedBootAttemptRequest _ _ => "write_boot_attempt"
  | WriteAdvancedAppConfirmedRequest _ _ => "write_app_confirmed"
  end.

Definition MetadataRequest_create_plan (r : MetadataRequest) (task_id : string) : Res TaskPlan :=
  task_plan task_id (metadata_title r)
    [(metadata_step_id r, metadata_title r); read_metadata_step]
    ProgressMode.INDETERMINATE TaskConnectionRequirement.CONNECTED true
    CompletionPolicy.REQUIRE_ACKNOWLEDGEMENT true.

(** [_AdvancedMetadataRequest.__post_init__] *)
Definition check_metadata_fields (f : MetadataRequestFields) : Res unit :=
  let? _ := check_connection_id (mq_connection_id f) in
  let? _ := check_cpu1_key (mq_target_key f) in
  let? _ := check_revision (mq_service_configuration_revision f) in
  let? _ := check_revision (mq_service_tool_configuration_revision f) in
  check_expected_service (mq_expected_service_summary f) (mq_target_key f)
    (mq_service_configuration_revision f) (mq_service_tool_configuration_revision f).

(** [_validate_metadata_snapshot] *)
Definition check_metadata_snapshot (f : MetadataRequestFields) (snapshot : MetadataStatusSnapshot)
    : Res unit :=
  fail (Err ValueError (Lit "expected_metadata_snapshot must contain the current valid image"))
    when negb (bool_decide (mt_connection_id snapshot = mq_connection_id f))
         || negb (bool_decide (mt_target_key snapshot = mq_target_key f))
         || negb (mt_metadata_valid snapshot) || negb (mt_image_valid snapshot) ;;
  Ok tt.

Record AdvancedMetadataOperationSnapshot : Type := mkMetadataOperation {
  am_connection_id : string;
  am_target_key : string;
  am_image_selection_revision : option Z;
  am_image_tool_configuration_revision : option Z;
  am_service_configuration_revision : Z;
  am_service_tool_configuration_revision : Z;
  am_operation_type : AdvancedMetadataOperationType;
  am_verify_evidence : option VerifyEvidence;
  am_entry_point : Z;
  am_image_size_words : Z;
  am_image_crc32 : Z;
  am_app_end : option Z;
  am_primary_result : OperationResult;
  am_primary_result_data : Dict;
  am_readback_result : option OperationResult;
  am_readback_result_data : option Dict;
  am_metadata_snapshot : option MetadataStatusSnapshot;
}.

(** [_revision] of a field that may be None. *)
Definition check_some_revision (value : option Z) : Res unit :=
  match value with
  | Some value => check_revision value
  | None => Raise (Err ValueError (Lit "selection_revision must be a non-negative integer"))
  end.

(** The evidence and the Program image fields of a snapshot. *)
Definition check_snapshot_evidence (s : AdvancedMetadataOperationSnapshot) : Res unit :=
  match am_operation_type s with
  | AdvancedMetadataOperationType.WRITE_IMAGE_VALID =>
      let? _ := check_some_revision (am_image_selection_revision s) in
      let? _ := check_some_revision (am_image_tool_configuration_revision s) in
      match am_verify_evidence s with
      | None => Raise (Err ValueError (Lit "IMAGE_VALID snapshot requires exact VerifyEvidence"))
      | Some evidence =>
          let identity := ve_image_identity evidence in
          fail (Err ValueError (Lit "IMAGE_VALID VerifyEvidence must belong to CPU1"))
            when negb (bool_decide (ve_cpu_id evidence = CPU1)) ;;
          fail (Err ValueError (Lit "VerifyEvidence identity must match snapshot image identity"))
            when negb ((ii_entry_point identity =? am_entry_point s)
                       && (ii_image_size_words identity =? am_image_size_words s)
                       && (ii_image_crc32 identity =? am_image_crc32 s)
                       && bool_decide (Some (ii_app_end identity) = am_app_end s)) ;;
          fail (Err ValueError (Lit "IMAGE_VALID snapshot requires app_end"))
            when match am_app_end s with Some app_end => app_end <? 0 | None => true end ;;
          Ok tt
      end
  | _ =>
      fail (Err ValueError (Lit "Metadata-only snapshots cannot carry Program Image fields"))
        when isSome (am_verify_evidence s) || isSome (am_image_selection_revision s)
             || isSome (am_image_tool_configuration_revision s) || isSome (am_app_end s) ;;
      Ok tt
  end.

Definition AdvancedMetadataOperationSnapshot_post_init (s : AdvancedMetadataOperationSnapshot)
    : Res AdvancedMetadataOperationSnapshot :=
  let? _ := check_connection_id (am_connection_id s) in
  let? _ := check_cpu1_key (am_target_key s) in
  let? _ := check_revision (am_service_configuration_revision s) in
  let? _ := check_revision (am_service_tool_configuration_revision s) in
  let? _ := check_snapshot_evidence s in
  let? _ := mapR (λ f, non_negative_int f.2 f.1)
    [("entry_point"%string, am_entry_point s); ("image_size_words"%string, am_image_size_words s);
     ("image_crc32"%string, am_image_crc32 s)] in
  if isSome (am_readback_result s) then
    fail (Err TypeError (Lit "readback_result_data must be dict"))
      when negb (isSome (am_readback_result_data s)) ;;
    Ok s
  else
    fail (Err ValueError (Lit "readback data requires readback_result"))
      when isSome (am_readback_result_data s) || isSome (am_metadata_snapshot s) ;;
    Ok s.

(** ** Requests that resolve a path *)

Section with_paths.
Context `{Paths}.

(** The checks and the normalised path that Flash and IMAGE_VALID requests
    share. *)
Definition checked_source_path (path : string) : Res string :=
  fail (Err ValueError (Lit "image_source_path must not be empty")) when blank path ;;
  resolve_path (strip path).

Definition check_sector_mask (mask : Z) : Res unit :=
  fail (Err ValueError (Lit "expected_effective_sector_mask must be a positive integer"))
    when mask <=? 0 ;;
  Ok tt.

(** [_AdvancedFlashOperationRequest.__post_init__] *)
Definition FlashRequestFields_post_init (f : FlashRequestFields) : Res FlashRequestFields :=
  let? _ := check_connection_id (ff_connection_id f) in
  let? _ := check_cpu1_key (ff_target_key f) in
  let? path := checked_source_path (ff_image_source_path f) in
  let? _ := check_sector_mask (ff_expected_effective_sector_mask f) in
  let? _ := mapR check_revision
    [ff_image_selection_revision f; ff_image_tool_configuration_revision f;
     ff_service_configuration_revision f; ff_service_tool_configuration_revision f] in
  let? _ := check_expected_service (ff_expected_service_summary f) (ff_target_key f)
              (ff_service_configuration_revision f) (ff_service_tool_configuration_revision f) in
  Ok (mkFlashFields (ff_connection_id f) (ff_target_key f) path (ff_image_selection_revision f)
        (ff_image_tool_configuration_revision f) (ff_expected_image_identity f)
        (ff_expected_effective_sector_mask f) (ff_service_configuration_revision f)
        (ff_service_tool_configuration_revision f) (ff_expected_connection_generation f)
        (ff_expected_service_summary f)).

Definition FlashRequest_post_init (r : FlashRequest) : Res FlashRequest :=
  let? fields := FlashRequestFields_post_init (flash_fields r) in
  match r with
  | EraseAdvancedFlashRequest _ scope mask =>
      fail (Err ValueError (Lit "custom_sector_mask must be a non-negative integer"))
        when mask <? 0 ;;
      if bool_decide (scope = AdvancedFlashEraseScope.CUSTOM_SECTOR_MASK) then
        fail (Err ValueError (Lit "custom erase scope requires a nonzero sector mask"))
          when mask =? 0 ;;
        Ok (EraseAdvancedFlashRequest fields scope mask)
      else Ok (EraseAdvancedFlashRequest fields scope 0)
  | ProgramAdvancedFlashRequest _ => Ok (ProgramAdvancedFlashRequest fields)
  | VerifyAdvancedFlashRequest _ => Ok (VerifyAdvancedFlashRequest fields)
  end.

Definition MetadataRequest_post_init (r : MetadataRequest) : Res MetadataRequest :=
  let? _ := check_metadata_fields (metadata_fields r) in
  match r with
  | WriteAdvancedImageValidRequest f i =>
      let evidence := iv_expected_verify_evidence i in
      let? _ := check_revision (iv_image_selection_revision i) in
      let? _ := check_revision (iv_image_tool_configuration_revision i) in
      let? path := checked_source_path (iv_image_source_path i) in
      let? _ := check_sector_mask (iv_expected_effective_sector_mask i) in
      fail (Err ValueError (Lit "IMAGE_VALID VerifyEvidence must belong to CPU1"))
        when negb (bool_decide (ve_cpu_id evidence = CPU1)) ;;
      fail (Err ValueError (Lit "VerifyEvidence identity must match expected_image_identity"))
        when negb (bool_decide (ve_image_identity evidence = iv_expected_image_identity i)) ;;
      Ok (WriteAdvancedImageValidRequest f
            (mkImageValidFields path (iv_image_selection_revision i)
               (iv_image_tool_configuration_revision i) (iv_expected_image_identity i)
               (iv_expected_effective_sector_mask i) evidence))
  | WriteAdvancedBootAttemptRequest f snapshot | WriteAdvancedAppConfirmedRequest f snapshot =>
      let? _ := check_metadata_snapshot f snapshot in Ok r
  end.
End with_paths.
