(* ===== verification/TaskModels.v ===== *)
(** The models of tasks, then how the result of an operation becomes that of a
    task. *)

(** * Task and runtime models of the GUI (gui/runtime_models.py)

    Errors, warnings, progress, results and states of tasks, the snapshot of
    the runtime and the answers of the controller, with the checks of their
    [__post_init__].  The values that details and payloads hold here are
    scalars, sequences, string-keyed dictionaries and frozen dataclasses, on
    which [_freeze] and [_normalize_typed] give an equal value; the
    [finished_at] stamp of a result, the wall clock when it was made, is left
    out. *)

From S2P Require Import Prelude.
From S2P Require Import Errors.
From S2P Require Import Messages.
From S2P Require Import TaskPlans.
From S2P Require Import Targets.
From S2P Require Import BootClient.
From S2P Require Import OperationResults.
From S2P Require Import StatusModels.
From S2P Require Import RuntimeValues.
From S2P Require Import RuntimeModels.
From S2P Require Import ImageRequests.
From S2P Require Import OperationRequests.

(** ** Errors and warnings *)

Record GuiRuntimeError : Type := mkGuiError {
  ge_code : string;
  ge_message : string;
  ge_stage : string;
  ge_disposition : ErrorDisposition;
  ge_task_id : option string;
  ge_recoverable : bool;
  ge_outcome_uncertain : bool;
  ge_details : Dict;
  ge_cause_summary : option string;
  ge_domain : option ErrorDomain;
}.

Definition GuiRuntimeError_post_init (e : GuiRuntimeError) : Res GuiRuntimeError :=
  fail (Err ValueError (Lit "ASK_DISCONNECT requires uncertain outcome"))
    when bool_decide (ge_disposition e = ErrorDisposition.ASK_DISCONNECT)
         && negb (ge_outcome_uncertain e) ;;
  fail (Err ValueError (Lit "RUNTIME_FATAL is not recoverable"))
    when bool_decide (ge_disposition e = ErrorDisposition.RUNTIME_FATAL) && ge_recoverable e ;;
  Ok e.

Record GuiTaskWarning : Type := mkWarning {
  gw_code : string;
  gw_message : string;
  gw_stage : string;
  gw_details : Dict;
}.

(** ** Progress *)

Record TaskProgressUpdate : Type := mkUpdate {
  tu_task_id : string;
  tu_step_id : string;
  tu_step_state : TaskStepState;
  tu_stage : string;
  tu_message : string;
  tu_current : option Z;
  tu_total : option Z;
  tu_progress_mode : ProgressMode;
  tu_raw_event : option ProgressEvent;
  tu_details : Dict;
}.

(** [replace(update, step_state=...)] *)
Definition with_step_state (state : TaskStepState) (u : TaskProgressUpdate) : TaskProgressUpdate :=
  mkUpdate (tu_task_id u) (tu_step_id u) state (tu_stage u) (tu_message u) (tu_current u)
    (tu_total u) (tu_progress_mode u) (tu_raw_event u) (tu_details u).

(** ** Results *)

Inductive Payload : Type :=
| NoPayload
| DictPayload (d : Dict)
| ConnectionPayload (info : ConnectionInfo)
| StatusPayload (snapshot : StatusSnapshot)
| MemoryPayload (snapshot : MemoryReadTaskSnapshot)
| FlashImagePayload (summary : PreparedImageSummary)
| RamImagePayload (summary : PreparedRamImageSummary)
| ServicePayload (summary : PreparedFlashServiceSummary)
| RamOperationPayload (snapshot : AdvancedRamOperationSnapshot)
| FlashRunPayload (snapshot : AdvancedFlashAppRunSnapshot)
| FlashOperationPayload (snapshot : AdvancedFlashOperationSnapshot)
| MetadataOperationPayload (snapshot : AdvancedMetadataOperationSnapshot).

Record TaskResultOf (StepResult : Type) : Type := mkTaskResult {
  te_task_id : string;
  te_status : TaskFinalStatus;
  te_summary : string;
  te_message : string;
  te_step_results : list StepResult;
  te_payload : Payload;
  te_warning : option GuiTaskWarning;
  te_error : option GuiRuntimeError;
  te_completion_action : TaskCompletionAction;
  te_cancel_requested : bool;
}.
Arguments mkTaskResult {StepResult}.
Arguments te_task_id {StepResult}.
Arguments te_status {StepResult}.
Arguments te_summary {StepResult}.
Arguments te_message {StepResult}.
Arguments te_step_results {StepResult}.
Arguments te_payload {StepResult}.
Arguments te_warning {StepResult}.
Arguments te_error {StepResult}.
Arguments te_completion_action {StepResult}.
Arguments te_cancel_requested {StepResult}.

(** The step results of a task; a release of the connection adds the result
    of its own task. *)
Inductive StepResult : Type :=
| StepOpen (r : TransportOpenResult)
| StepOperation (r : OperationResult)
| StepTask (r : TaskResultOf StepResult).

Definition TaskExecutionResult : Type := TaskResultOf StepResult.

Definition is_status (r : TaskExecutionResult) (s : TaskFinalStatus) : bool :=
  bool_decide (te_status r = s).

(** SUCCEEDED or COMPLETED_AFTER_CANCEL_REQUEST *)
Definition successful (r : TaskExecutionResult) : bool :=
  is_status r TaskFinalStatus.SUCCEEDED
  || is_status r TaskFinalStatus.COMPLETED_AFTER_CANCEL_REQUEST.

Definition TaskExecutionResult_post_init (r : TaskExecutionResult) : Res TaskExecutionResult :=
  let failed := is_status r TaskFinalStatus.FAILED in
  let release := bool_decide (te_completion_action r = TaskCompletionAction.RELEASE_CONNECTION) in
  fail (Err ValueError (Lit "FAILED requires error")) when failed && negb (isSome (te_error r)) ;;
  fail (Err ValueError (Lit "only FAILED carries error"))
    when negb failed && isSome (te_error r) ;;
  fail (Err ValueError (Lit "cancel status requires request"))
    when (is_status r TaskFinalStatus.CANCELLED
          || is_status r TaskFinalStatus.COMPLETED_AFTER_CANCEL_REQUEST)
         && negb (te_cancel_requested r) ;;
  fail (Err ValueError (Lit "task id mismatch"))
    when match te_error r with
         | Some e => match ge_task_id e with
                     | Some task_id => negb (bool_decide (task_id = te_task_id r))
                     | None => false
                     end
         | None => false
         end ;;
  fail (Err ValueError (Lit "failure cannot carry warning")) when failed && isSome (te_warning r) ;;
  fail (Err ValueError (Lit "connection release requires successful completion"))
    when release && negb (successful r) ;;
  Ok r.

(** ** States of tasks *)

Record TaskState : Type := mkTaskState {
  ts_task_id : string;
  ts_plan : TaskPlan;
  ts_phase : TaskPhase;
  ts_disposition_state : TaskDispositionState;
  ts_current_step_index : option Z;
  ts_current_step_id : option string;
  ts_current_step_title : string;
  ts_message : string;
  ts_overall_current : Z;
  ts_step_current : Z;
  ts_step_total : Z;
  ts_step_progress_mode : ProgressMode;
  ts_cancel_requested : bool;
  ts_available_actions : list TaskDialogAction;
  ts_close_allowed : bool;
  ts_auto_close_delay_ms : option Z;
  ts_result : option TaskExecutionResult;
  ts_error : option GuiRuntimeError;
}.

(** [overall_total], which nobody changes. *)
Definition overall_total : Z := 1000.

(** An error of a task that names another one. *)
Definition foreign_error (task_id : string) (error : option GuiRuntimeError) : bool :=
  match error with
  | Some e => match ge_task_id e with
              | Some id => negb (bool_decide (id = task_id))
              | None => false
              end
  | None => false
  end.

Definition TaskState_post_init (s : TaskState) : Res TaskState :=
  fail (Err ValueError (Lit "task id mismatch"))
    when negb (bool_decide (pl_task_id (ts_plan s) = ts_task_id s)) ;;
  fail (Err ValueError (Lit "task id mismatch"))
    when match ts_result s with
         | Some r => negb (bool_decide (te_task_id r = ts_task_id s))
         | None => false
         end ;;
  fail (Err ValueError (Lit "task id mismatch")) when foreign_error (ts_task_id s) (ts_error s) ;;
  Ok s.

(** [TaskState(task_id, plan, phase, disposition)] *)
Definition TaskState_new (task_id : string) (plan : TaskPlan) (phase : TaskPhase)
    (disposition : TaskDispositionState) : TaskState :=
  mkTaskState task_id plan phase disposition None None EmptyString EmptyString 0 0 0
    ProgressMode.INDETERMINATE false [] false None None None.

(** ** The runtime *)

Record RuntimeSnapshot : Type := mkRuntime {
  rs_state : RuntimeState;
  rs_active_task_id : option string;
  rs_connection_info : option ConnectionInfo;
  rs_active_target_key : option string;
  rs_connection_suspect : bool;
  rs_disconnect_decision_pending : bool;
  rs_shutdown_requested : bool;
  rs_cleanup_pending : bool;
  rs_last_error : option GuiRuntimeError;
}.

(** [RuntimeSnapshot()] *)
Definition RuntimeSnapshot_default : RuntimeSnapshot :=
  mkRuntime RuntimeState.DISCONNECTED None None None false false false false None.

(** [not self.active_task_id] *)
Definition no_task (s : RuntimeSnapshot) : bool :=
  match rs_active_task_id s with Some task_id => empty_str task_id | None => true end.

Definition RuntimeSnapshot_post_init (s : RuntimeSnapshot) : Res RuntimeSnapshot :=
  let is_state x := bool_decide (rs_state s = x) in
  let info := isSome (rs_connection_info s) in
  let key := isSome (rs_active_target_key s) in
  fail (Err ValueError (Lit "invalid active target key"))
    when match rs_active_target_key s with
         | Some key => negb (bool_decide (key ∈ ["cpu1"; "cpu2"]))
         | None => false
         end ;;
  fail (Err ValueError (Lit "inactive state cannot carry connection"))
    when (is_state RuntimeState.DISCONNECTED || is_state RuntimeState.CONNECTING)
         && (info || key) ;;
  fail (Err ValueError (Lit "invalid disconnected snapshot"))
    when is_state RuntimeState.DISCONNECTED
         && (rs_connection_suspect s || rs_disconnect_decision_pending s) ;;
  fail (Err ValueError (Lit "connected requires connection info and target"))
    when is_state RuntimeState.CONNECTED && (negb info || negb key) ;;
  fail (Err ValueError (Lit "connection target mismatch"))
    when match rs_connection_info s with
         | Some i => negb (bool_decide (Some (ci_target_key i) = rs_active_target_key s))
         | None => false
         end ;;
  fail (Err ValueError (Lit "pending cleanup cannot claim an active connection"))
    when rs_cleanup_pending s && (info || key) ;;
  fail (Err ValueError (Lit "error state requires fatal error"))
    when is_state RuntimeState.ERROR
         && match rs_last_error s with
            | Some e => negb (bool_decide (ge_disposition e = ErrorDisposition.RUNTIME_FATAL))
            | None => true
            end ;;
  fail (Err ValueError (Lit "invalid disconnect decision"))
    when rs_disconnect_decision_pending s
         && (negb (is_state RuntimeState.BUSY) || negb (rs_connection_suspect s) || no_task s) ;;
  Ok s.

(** ** Equality of snapshots *)

Fixpoint object_eq (a b : object) : bool :=
  match a, b with
  | OAtom x, OAtom y => bool_decide (x = y)
  | OMapping _ _ l, OMapping _ _ k =>
      (length l =? length k)%nat
      && (fix items_eq l :=
            match l with
            | [] => true
            | (key, x) :: l =>
                match find (λ kv, bool_decide (kv.1 = key)) k with
                | Some kv => object_eq x kv.2 && items_eq l
                | None => false
                end
            end) l
  | OTuple _ l, OTuple _ k | OList _ l, OList _ k =>
      (fix seq_eq l k :=
         match l, k with
         | [], [] => true
         | x :: l, y :: k => object_eq x y && seq_eq l k
         | _, _ => false
         end) l k
  | OOther x _, OOther y _ => x =? y
  | _, _ => false
  end.

Definition connection_info_eq (a b : ConnectionInfo) : bool :=
  bool_decide (ci_connection_id a = ci_connection_id b)
  && bool_decide (ci_transport_label a = ci_transport_label b)
  && bool_decide (ci_endpoint_label a = ci_endpoint_label b)
  && bool_decide (dt_instant (ci_connected_at a) = dt_instant (ci_connected_at b))
  && bool_decide (ci_target_key a = ci_target_key b)
  && object_eq (ci_details a) (ci_details b).

Definition gui_error_eq (a b : GuiRuntimeError) : bool :=
  bool_decide (ge_code a = ge_code b) && bool_decide (ge_message a = ge_message b)
  && bool_decide (ge_stage a = ge_stage b)
  && bool_decide (ge_disposition a = ge_disposition b)
  && bool_decide (ge_task_id a = ge_task_id b)
  && Bool.eqb (ge_recoverable a) (ge_recoverable b)
  && Bool.eqb (ge_outcome_uncertain a) (ge_outcome_uncertain b)
  && dict_eq (ge_details a) (ge_details b)
  && bool_decide (ge_cause_summary a = ge_cause_summary b)
  && bool_decide (ge_domain a = ge_domain b).

(** [a == b] of two runtime snapshots. *)
Definition runtime_snapshot_eq (a b : RuntimeSnapshot) : bool :=
  bool_decide (rs_state a = rs_state b)
  && bool_decide (rs_active_task_id a = rs_active_task_id b)
  && option_eq connection_info_eq (rs_connection_info a) (rs_connection_info b)
  && bool_decide (rs_active_target_key a = rs_active_target_key b)
  && Bool.eqb (rs_connection_suspect a) (rs_connection_suspect b)
  && Bool.eqb (rs_disconnect_decision_pending a) (rs_disconnect_decision_pending b)
  && Bool.eqb (rs_shutdown_requested a) (rs_shutdown_requested b)
  && Bool.eqb (rs_cleanup_pending a) (rs_cleanup_pending b)
  && option_eq gui_error_eq (rs_last_error a) (rs_last_error b).

(** ** Answers of the controller *)

Record RequestRejection : Set := mkRejection {
  rj_code : RequestRejectionCode;
  rj_message : string;
  rj_task_id : option string;
}.

Record RequestAdmission : Type := mkAdmission {
  ra_accepted : bool;
  ra_task_id : option string;
  ra_rejection : option RequestRejection;
  ra_error : option GuiRuntimeError;
}.

Definition RequestAdmission_post_init (a : RequestAdmission) : Res RequestAdmission :=
  fail (Err ValueError (Lit "invalid admission"))
    when negb (Bool.eqb (ra_accepted a)
                 (isSome (ra_task_id a) && negb (isSome (ra_rejection a))
                  && negb (isSome (ra_error a)))) ;;
  Ok a.

Record CancelRequestResult : Type := mkCancelResult {
  cq_accepted : bool;
  cq_task_id : string;
  cq_already_requested : bool;
  cq_rejection : option RequestRejection;
  cq_error : option GuiRuntimeError;
}.

Record TaskActionResult : Type := mkActionResult {
  aq_accepted : bool;
  aq_task_id : string;
  aq_action : TaskDialogAction;
  aq_already_applied : bool;
  aq_rejection : option RequestRejection;
  aq_error : option GuiRuntimeError;
}.

Record ApplicationCloseResult : Type := mkCloseResult {
  cl_decision : ApplicationCloseDecision;
  cl_task_id : option string;
  cl_rejection : option RequestRejection;
  cl_error : option GuiRuntimeError;
}.

(** * From operations to tasks (gui/operation_task_adapter.py)

    The conversion of the progress events and of the results of operations
    into the progress updates and the results of GUI tasks. *)

Definition ASK_DISCONNECT_CODES : list string :=
  ["PROTOCOL_ERROR"; "TARGET_MISMATCH"; "CANCELLATION_CLEANUP_FAILED"].

(** [_non_empty_string] *)
Definition non_empty_string (value name : string) : Res unit :=
  fail (Err ValueError (Fmt "{} must be non-empty" [VStr name])) when empty_str value ;; Ok tt.

(** ** Progress *)

(** The mode of the update: determinate when both counts are there. *)
Definition progress_mode_of (event : ProgressEvent) : Res ProgressMode :=
  match pe_current_words event, pe_total_words event with
  | None, None => Ok ProgressMode.INDETERMINATE
  | Some current, Some total =>
      fail (Err ValueError
             (Lit "progress must satisfy 0 <= current_words <= total_words and total_words > 0"))
        when (total <=? 0) || (current <? 0) || (current >? total) ;;
      Ok ProgressMode.DETERMINATE
  | _, _ =>
      Raise (Err ValueError
               (Lit "current_words and total_words must both be present or absent"))
  end.

Definition operation_progress_to_task_update (task_id step_id : string) (event : ProgressEvent)
    : Res TaskProgressUpdate :=
  let? _ := non_empty_string task_id "task_id" in
  let? _ := non_empty_string step_id "step_id" in
  let? mode := progress_mode_of event in
  fail (Err ValueError (Lit "chunk_words must be non-negative"))
    when match pe_chunk_words event with Some words => words <? 0 | None => false end ;;
  Ok (mkUpdate task_id step_id TaskStepState.PROGRESS (pe_stage event) (pe_message event)
        (pe_current_words event) (pe_total_words event) mode (Some event)
        [("operation"%string, VStr (pe_operation event));
         ("target"%string, VStr (pe_target event));
         ("chunk_words"%string, option_int (pe_chunk_words event));
         ("cancellation_supported"%string, VBool (pe_cancellation_supported event));
         ("operation_details"%string, VDict (pe_details event))]).

(** ** Results *)

(** [_cancellation_details] *)
Definition cancellation_details (result : OperationResult) (c : OperationCancellationInfo) : Dict :=
  match cancellation_to_plain c with VDict d => d | _ => [] end
  ++ [("operation"%string, VStr (or_operation result)); ("target"%string, VStr (or_target result))].

(** [details.setdefault(key, value)] *)
Definition set_default (key : string) (value : PyVal) (d : Dict) : Dict :=
  if isSome (dict_get key d) then d else d ++ [(key, value)].

(** The details of the error of a failed operation. *)
Definition failure_details (result : OperationResult) (error : OperationErrorInfo) : Res Dict :=
  let details := set_default "target" (VStr (or_target result))
                   (set_default "operation" (VStr (or_operation result)) (ei_details error)) in
  match or_cancellation result with
  | None => Ok details
  | Some cancellation =>
      fail (Err ValueError (Lit "error details already contain cancellation"))
        when isSome (dict_get "cancellation" details) ;;
      Ok (details ++ [("cancellation"%string, VDict (cancellation_details result cancellation))])
  end.

(** The device may still be acting on a command that was cancelled. *)
Definition uncertain (result : OperationResult) : bool :=
  match or_cancellation result with
  | Some c => oc_outcome_uncertain c || oc_connection_recovery_required c
  | None => false
  end.

Definition failure_disposition (result : OperationResult) (error : OperationErrorInfo)
    : ErrorDisposition :=
  if bool_decide (ei_code error ∈ ASK_DISCONNECT_CODES) || uncertain result
  then ErrorDisposition.ASK_DISCONNECT else ErrorDisposition.SHOW_ONLY.

Definition failed_summary (domain : ErrorDomain) : string :=
  if bool_decide (domain = COMMUNICATION) then "Communication failed" else "Operation failed".

(** The branches of [operation_result_to_task_result]. *)
Definition succeeded_task (task_id : string) (result : OperationResult)
    (success_summary success_message : option string) (payload : Payload)
    (completion_action : TaskCompletionAction) : Res TaskExecutionResult :=
  TaskExecutionResult_post_init
    (mkTaskResult task_id TaskFinalStatus.SUCCEEDED
       (default (or_operation result) success_summary) (default (or_stage result) success_message)
       [StepOperation result] payload None None completion_action false).

Definition cancelled_task (task_id : string) (result : OperationResult) (completed : bool)
    (payload : Payload) (completion_action : TaskCompletionAction) : Res TaskExecutionResult :=
  match or_cancellation result with
  | None => Raise (Err ValueError (Fmt "{} requires OperationCancellationInfo"
                     [VStr (plain_completion_name (or_completion result))]))
  | Some cancellation =>
      let message :=
        if completed
        then "The current operation completed successfully; no following operation was started."%string
        else ("Cancellation observed during " ++ oc_stage cancellation)%string in
      TaskExecutionResult_post_init
        (mkTaskResult task_id
           (if completed then TaskFinalStatus.COMPLETED_AFTER_CANCEL_REQUEST
            else TaskFinalStatus.CANCELLED)
           (if completed then "Operation completed after cancellation request"
            else "Operation cancelled")
           message [StepOperation result] payload
           (Some (mkWarning
              (if completed then "OPERATION_COMPLETED_AFTER_CANCEL_REQUEST"
               else "OPERATION_CANCELLED")
              message (oc_stage cancellation) (cancellation_details result cancellation)))
           None (if completed then completion_action else TaskCompletionAction.NONE) true)
  end.

Definition failed_task (task_id : string) (result : OperationResult) (payload : Payload)
    : Res TaskExecutionResult :=
  match or_error result with
  | None => Raise (Err TypeError (Lit "failed OperationResult requires OperationErrorInfo"))
  | Some error =>
      let disposition := failure_disposition result error in
      let? details := failure_details result error in
      let? gui_error := GuiRuntimeError_post_init
        (mkGuiError (ei_code error) (text_of (ei_message error)) (ei_stage error) disposition
           (Some task_id) (ei_recoverable error)
           (bool_decide (disposition = ErrorDisposition.ASK_DISCONNECT)) details None
           (Some (ei_domain error))) in
      TaskExecutionResult_post_init
        (mkTaskResult task_id TaskFinalStatus.FAILED (failed_summary (ei_domain error))
           (text_of (ei_message error)) [StepOperation result] payload None (Some gui_error)
           TaskCompletionAction.NONE (isSome (or_cancellation result)))
  end.

Definition operation_result_to_task_result (task_id : string) (result : OperationResult)
    (success_summary success_message : option string) (payload : Payload)
    (completion_action : TaskCompletionAction) : Res TaskExecutionResult :=
  let? _ := non_empty_string task_id "task_id" in
  match or_completion result with
  | None => Raise (Err TypeError (Lit "result.completion must be OperationCompletion"))
  | Some OperationCompletion.SUCCEEDED =>
      succeeded_task task_id result success_summary success_message payload completion_action
  | Some OperationCompletion.CANCELLED =>
      cancelled_task task_id result false payload completion_action
  | Some OperationCompletion.COMPLETED_AFTER_CANCEL_REQUEST =>
      cancelled_task task_id result true payload completion_action
  | Some OperationCompletion.FAILED => failed_task task_id result payload
  end.
