(* ===== verification/Controller.v ===== *)
(** * The GUI controller (gui/controller.py)

    [GuiController]: it admits requests, runs one task at a time on a worker
    thread, checks what the worker reports and keeps the snapshot of the
    runtime.  The state has the fields of the object; the Qt signals it emits
    are a log.  Qt and the worker are outside: whether the worker could be
    created and its thread started and the identifier that [uuid4().hex] gave
    are arguments of the operations, and the messages of a worker are events
    in any order with any contents ([None] for an object of another class).
    A call from another thread raises nothing: it returns an error and queues
    it to [enter_fatal], which is the event of its own.  Timestamps are left
    out. *)

From Stdlib Require Import SpecFloat.
From S2P Require Import Prelude.
From S2P Require Import Errors.
From S2P Require Import TaskPlans.
From S2P Require Import OperationResults.
From S2P Require Import RuntimeModels.
From S2P Require Import TaskModels.

Module Kind.
Inductive Kind_t : Set := CONNECT | TASK | DISCONNECT | SHUTDOWN | INTERNAL_DISCONNECT.
End Kind.
Abbreviation Kind := Kind.Kind_t.

#[export] Instance Kind_eq_dec : EqDecision Kind.
Proof. solve_decision. Defined.

(** A request: what its [create_plan] returns, [None] for an object that is
    not a TaskPlan. *)
Record Request : Type := mkRequest { rq_create_plan : string → Res (option TaskPlan) }.

(** [_CleanupRequest(title, step_id)] *)
Definition CleanupRequest (title step_id : string) : Request :=
  mkRequest (λ task_id,
    let? plan := task_plan task_id title [(step_id, title)] ProgressMode.INDETERMINATE
      TaskConnectionRequirement.CONNECTED false CompletionPolicy.REQUIRE_ACKNOWLEDGEMENT true in
    Ok (Some plan)).

Definition release_request : Request := CleanupRequest "Release Connection" "release".
Definition shutdown_request : Request := CleanupRequest "Shutdown" "shutdown".

(** ** State *)

(** The worker of the current generation: its messages carry the generation. *)
Record Execution : Type := mkExecution {
  ex_generation : Z;
  ex_cancelled : bool;                       (* the cancellation token *)
  ex_thread : bool;                          (* thread is not None *)
  ex_thread_started : bool;
  ex_thread_finished : bool;
  ex_result : option TaskExecutionResult;
  ex_result_received : bool;
}.

(** The step that the worker is at. *)
Record StepProgress : Set := mkStep {
  xp_index : Z;
  xp_started : bool;
  xp_complete : bool;
  xp_current : Z;
  xp_total : option Z;
  xp_mode : option ProgressMode;
  xp_stage : option string;
}.

Record Active : Type := mkActive {
  ac_task_id : string;
  ac_request : Request;
  ac_primary_plan : TaskPlan;
  ac_plan : TaskPlan;
  ac_kind : Kind;
  ac_origin : RuntimeState;
  ac_state : TaskState;
  ac_execution : Execution;
  ac_primary_result : option TaskExecutionResult;
  ac_step : StepProgress;
  ac_actions : list TaskDialogAction;
  ac_fatal_error : option GuiRuntimeError;
  ac_fatal_result : option TaskExecutionResult;
}.

Inductive Signal : Type :=
| runtimeStateChanged (snapshot : RuntimeSnapshot)
| taskStarted (state : TaskState)
| taskProgressed (update : TaskProgressUpdate)
| taskStateChanged (state : TaskState)
| taskFinished (result : TaskExecutionResult)
| requestRejected (rejection : RequestRejection)
| runtimeErrorRaised (error : GuiRuntimeError)
| shutdownReady
| forceExitReady (error : option GuiRuntimeError).

Record Controller : Type := mkController {
  gc_snapshot : RuntimeSnapshot;
  gc_active : option Active;
  gc_signals : list Signal;                  (* in the order of emission *)
}.

Definition Controller_init : Controller := mkController RuntimeSnapshot_default None [].

Abbreviation C := (ST Controller).

(** *** Assignments *)

Definition with_state (state : TaskState) (a : Active) : Active :=
  mkActive (ac_task_id a) (ac_request a) (ac_primary_plan a) (ac_plan a) (ac_kind a) (ac_origin a)
    state (ac_execution a) (ac_primary_result a) (ac_step a) (ac_actions a) (ac_fatal_error a)
    (ac_fatal_result a).

Definition with_execution (execution : Execution) (a : Active) : Active :=
  mkActive (ac_task_id a) (ac_request a) (ac_primary_plan a) (ac_plan a) (ac_kind a) (ac_origin a)
    (ac_state a) execution (ac_primary_result a) (ac_step a) (ac_actions a) (ac_fatal_error a)
    (ac_fatal_result a).

Definition with_primary_result (result : TaskExecutionResult) (a : Active) : Active :=
  mkActive (ac_task_id a) (ac_request a) (ac_primary_plan a) (ac_plan a) (ac_kind a) (ac_origin a)
    (ac_state a) (ac_execution a) (Some result) (ac_step a) (ac_actions a) (ac_fatal_error a)
    (ac_fatal_result a).

Definition with_step (step : StepProgress) (a : Active) : Active :=
  mkActive (ac_task_id a) (ac_request a) (ac_primary_plan a) (ac_plan a) (ac_kind a) (ac_origin a)
    (ac_state a) (ac_execution a) (ac_primary_result a) step (ac_actions a) (ac_fatal_error a)
    (ac_fatal_result a).

Definition with_actions (actions : list TaskDialogAction) (a : Active) : Active :=
  mkActive (ac_task_id a) (ac_request a) (ac_primary_plan a) (ac_plan a) (ac_kind a) (ac_origin a)
    (ac_state a) (ac_execution a) (ac_primary_result a) (ac_step a) actions (ac_fatal_error a)
    (ac_fatal_result a).

Definition with_fatal_error (error : GuiRuntimeError) (a : Active) : Active :=
  mkActive (ac_task_id a) (ac_request a) (ac_primary_plan a) (ac_plan a) (ac_kind a) (ac_origin a)
    (ac_state a) (ac_execution a) (ac_primary_result a) (ac_step a) (ac_actions a) (Some error)
    (ac_fatal_result a).

Definition with_fatal_result (result : TaskExecutionResult) (a : Active) : Active :=
  mkActive (ac_task_id a) (ac_request a) (ac_primary_plan a) (ac_plan a) (ac_kind a) (ac_origin a)
    (ac_state a) (ac_execution a) (ac_primary_result a) (ac_step a) (ac_actions a)
    (ac_fatal_error a) (Some result).

(** A new generation of the task with another job: the release of the
    connection, or the shutdown again. *)
Definition restarted (kind : Kind) (request : Request) (plan : TaskPlan) (state : TaskState)
    (a : Active) : Active :=
  let e := ac_execution a in
  mkActive (ac_task_id a) request (ac_primary_plan a) plan kind (ac_origin a) state
    (mkExecution (ex_generation e + 1) (ex_cancelled e) (ex_thread e) (ex_thread_started e)
       (ex_thread_finished e) (ex_result e) (ex_result_received e))
    (ac_primary_result a) (ac_step a) (ac_actions a) (ac_fatal_error a) (ac_fatal_result a).

Definition emit (signal : Signal) : C unit :=
  modify (λ c, mkController (gc_snapshot c) (gc_active c) (gc_signals c ++ [signal])).

Definition put_active (a : option Active) : C unit :=
  modify (λ c, mkController (gc_snapshot c) a (gc_signals c)).

Definition put_snapshot (s : RuntimeSnapshot) : C unit :=
  modify (λ c, mkController s (gc_active c) (gc_signals c)).

(** [a=self._active; assert a] *)
Definition active : C Active :=
  c <- get ;;
  match gc_active c with
  | Some a => ret a
  | None => raise (Err AssertionError (Lit ""))
  end.

Definition update_active (f : Active → Active) : C unit :=
  a <- active ;; put_active (Some (f a)).

(** [a.state=replace(a.state, ...)] *)
Definition replace_state (f : TaskState → TaskState) : C unit :=
  a <- active ;;
  state <- lift (TaskState_post_init (f (ac_state a))) ;;
  put_active (Some (with_state state a)).

(** [self.taskStateChanged.emit(a.state)] *)
Definition emit_state : C unit := a <- active ;; emit (taskStateChanged (ac_state a)).

(** ** Changes of the snapshot *)

(** The fields of a snapshot that a call names; [None] leaves a field. *)
Record Changes : Type := mkChanges {
  ch_state : option RuntimeState;
  ch_active_task_id : option (option string);
  ch_connection : option (option (ConnectionInfo * string));  (* connection_info, active_target_key *)
  ch_connection_suspect : option bool;
  ch_disconnect_decision_pending : option bool;
  ch_shutdown_requested : option bool;
  ch_cleanup_pending : option bool;
  ch_last_error : option (option GuiRuntimeError);
}.

Definition no_changes : Changes := mkChanges None None None None None None None None.

(** [replace] of the snapshot, before its checks. *)
Definition changed (ch : Changes) (s : RuntimeSnapshot) : RuntimeSnapshot :=
  mkRuntime (default (rs_state s) (ch_state ch))
    (default (rs_active_task_id s) (ch_active_task_id ch))
    (match ch_connection ch with Some c => fst <$> c | None => rs_connection_info s end)
    (match ch_connection ch with Some c => snd <$> c | None => rs_active_target_key s end)
    (default (rs_connection_suspect s) (ch_connection_suspect ch))
    (default (rs_disconnect_decision_pending s) (ch_disconnect_decision_pending ch))
    (default (rs_shutdown_requested s) (ch_shutdown_requested ch))
    (default (rs_cleanup_pending s) (ch_cleanup_pending ch))
    (default (rs_last_error s) (ch_last_error ch)).

(** [_set_snapshot] *)
Definition set_snapshot (ch : Changes) : C unit :=
  c <- get ;;
  new <- lift (RuntimeSnapshot_post_init (changed ch (gc_snapshot c))) ;;
  if runtime_snapshot_eq new (gc_snapshot c) then ret tt
  else put_snapshot new ;;; emit (runtimeStateChanged new).

Definition clean_success (a : Active) (result : TaskExecutionResult) : bool :=
  is_status result TaskFinalStatus.SUCCEEDED && negb (isSome (te_warning result))
  && bool_decide (pl_completion_policy (ac_primary_plan a)
                  = CompletionPolicy.AUTO_CLOSE_ON_CLEAN_SUCCESS).

(** The state of a finished task. *)
Definition final_state (auto_close : option Z) (result : TaskExecutionResult)
    (error : option GuiRuntimeError) (s : TaskState) : TaskState :=
  mkTaskState (ts_task_id s) (ts_plan s) TaskPhase.FINISHED TaskDispositionState.COMPLETE
    (ts_current_step_index s) (ts_current_step_id s) (ts_current_step_title s) (ts_message s)
    (ts_overall_current s) (ts_step_current s) (ts_step_total s) (ts_step_progress_mode s)
    (ts_cancel_requested s) [] true auto_close (Some result) error.

(** The end of [_complete] and [_finalize_fatal]: the task is over. *)
Definition finish (final : TaskState) (ch : Changes) (result : TaskExecutionResult) : C unit :=
  c <- get ;;
  put_active None ;;;
  new <- lift (RuntimeSnapshot_post_init (changed ch (gc_snapshot c))) ;;
  put_snapshot new ;;;
  emit (taskStateChanged final) ;;;
  (if runtime_snapshot_eq new (gc_snapshot c) then ret tt else emit (runtimeStateChanged new)) ;;;
  emit (taskFinished result).

(** [{"state":state,"active_task_id":None,"disconnect_decision_pending":False}]
    updated with the changes of the caller. *)
Definition completion_changes (state : RuntimeState) (ch : Changes) : Changes :=
  mkChanges (Some (default state (ch_state ch))) (Some (default None (ch_active_task_id ch)))
    (ch_connection ch) (ch_connection_suspect ch)
    (Some (default false (ch_disconnect_decision_pending ch)))
    (ch_shutdown_requested ch) (ch_cleanup_pending ch) (ch_last_error ch).

(** [_complete] *)
Definition complete (result : TaskExecutionResult) (state : RuntimeState) (ch : Changes) : C unit :=
  a <- active ;;
  final <- lift (TaskState_post_init
    (final_state (if clean_success a result then Some 800 else None) result (te_error result)
       (ac_state a))) ;;
  finish final (completion_changes state ch) result.

(** ** Fatal errors *)

(** [_make_fatal] *)
Definition make_fatal (code : string) (task_id : option string) : GuiRuntimeError :=
  mkGuiError code "GUI runtime contract violation" "controller" ErrorDisposition.RUNTIME_FATAL
    task_id false false [] None None.

Definition fatal_task_result (a : Active) (error : GuiRuntimeError) : Res TaskExecutionResult :=
  match ac_fatal_result a with
  | Some result =>
      if bool_decide (te_task_id result = ac_task_id a) then Ok result
      else TaskExecutionResult_post_init
             (mkTaskResult (ac_task_id a) TaskFinalStatus.FAILED "Runtime failure" (ge_message error)
                [] NoPayload None (Some error) TaskCompletionAction.NONE
                (ts_cancel_requested (ac_state a)))
  | None =>
      TaskExecutionResult_post_init
        (mkTaskResult (ac_task_id a) TaskFinalStatus.FAILED "Runtime failure" (ge_message error)
           [] NoPayload None (Some error) TaskCompletionAction.NONE
           (ts_cancel_requested (ac_state a)))
  end.

(** [_finalize_fatal] *)
Definition finalize_fatal : C unit :=
  c <- get ;;
  match gc_active c with
  | None => ret tt
  | Some a =>
      match ac_fatal_error a with
      | None => ret tt
      | Some error =>
          if ex_thread (ac_execution a) then ret tt else
          result <- lift (fatal_task_result a error) ;;
          final <- lift (TaskState_post_init
                           (final_state None result (Some error) (ac_state a))) ;;
          finish final
            (mkChanges (Some RuntimeState.ERROR) (Some None) None None None None None
               (Some (Some error)))
            result
      end
  end.

(** [_enter_fatal] *)
Definition enter_fatal (error : GuiRuntimeError) : C unit :=
  c <- get ;;
  match gc_active c with
  | None =>
      set_snapshot (mkChanges (Some RuntimeState.ERROR) (Some None) None None None None None
                      (Some (Some error))) ;;;
      emit (runtimeErrorRaised error)
  | Some a =>
      if isSome (ac_fatal_error a) then ret tt else
      put_active (Some (with_fatal_error error a)) ;;;
      set_snapshot (mkChanges (Some RuntimeState.ERROR) (Some (Some (ac_task_id a))) None None None
                      None None (Some (Some error))) ;;;
      emit (runtimeErrorRaised error) ;;;
      if ex_thread_finished (ac_execution a) || negb (ex_thread_started (ac_execution a))
      then finalize_fatal else ret tt
  end.

(** [_fatal] *)
Definition fatal (code : string) : C unit :=
  c <- get ;;
  enter_fatal (make_fatal code (ac_task_id <$> gc_active c)).

(** ** Admission of requests *)

(** What Qt and uuid do during one call. *)
Record Qt : Set := mkQt {
  qt_task_id : string;                       (* uuid4().hex *)
  qt_prepared : bool;                        (* the worker and its thread were created *)
  qt_started : bool;                         (* thread.start() *)
}.

Definition rejection (code : RequestRejectionCode) (message : string) (task_id : option string)
    : RequestRejection := mkRejection code message task_id.

(** [RequestAdmission(False, ...)] *)
Definition refused (r : option RequestRejection) (error : option GuiRuntimeError)
    : RequestAdmission := mkAdmission false None r error.

(** [_reject] *)
Definition reject (code : RequestRejectionCode) (message : string) : C RequestAdmission :=
  let r := rejection code message None in
  emit (requestRejected r) ;;; ret (refused (Some r) None).

(** [_fatal_admission] *)
Definition fatal_admission (code task_id : string) : C RequestAdmission :=
  let error := make_fatal code (Some task_id) in
  enter_fatal error ;;; ret (refused None (Some error)).

(** The assignments of [_prepare_generation] that come before the worker is
    created. *)
Definition fresh_generation (a : Active) : Active :=
  with_execution (mkExecution (ex_generation (ac_execution a)) false (ex_thread (ac_execution a))
                    false false None false)
    (with_step (mkStep (-1) false false (xp_current (ac_step a)) None None None) a).

(** [_prepare_generation] *)
Definition prepare_generation (qt : Qt) : C unit :=
  update_active fresh_generation ;;;
  if qt_prepared qt then
    update_active (λ a,
      let e := ac_execution a in
      with_execution (mkExecution (ex_generation e) (ex_cancelled e) true (ex_thread_started e)
                        (ex_thread_finished e) (ex_result e) (ex_result_received e)) a)
  else raise (Err RuntimeError (Lit "worker startup failed")).

(** [_discard_unstarted_generation] *)
Definition discard_unstarted_generation : C unit :=
  c <- get ;;
  match gc_active c with
  | None => ret tt
  | Some a =>
      let e := ac_execution a in
      put_active (Some (with_execution (mkExecution (ex_generation e) (ex_cancelled e) false false
                                          true (ex_result e) (ex_result_received e)) a))
  end.

Definition thread_started (e : Execution) : Execution :=
  mkExecution (ex_generation e) (ex_cancelled e) (ex_thread e) true (ex_thread_finished e)
    (ex_result e) (ex_result_received e).

Definition running (s : TaskState) : TaskState :=
  mkTaskState (ts_task_id s) (ts_plan s) TaskPhase.RUNNING (ts_disposition_state s)
    (ts_current_step_index s) (ts_current_step_id s) (ts_current_step_title s) (ts_message s)
    (ts_overall_current s) (ts_step_current s) (ts_step_total s) (ts_step_progress_mode s)
    (ts_cancel_requested s) (ts_available_actions s) (ts_close_allowed s)
    (ts_auto_close_delay_ms s) (ts_result s) (ts_error s).

(** [_submit_generation] *)
Definition submit_generation (qt : Qt) : C unit :=
  a <- active ;;
  if qt_started qt then
    put_active (Some (with_execution (thread_started (ac_execution a)) a)) ;;;
    replace_state running ;;;
    emit_state
  else
    discard_unstarted_generation ;;;
    enter_fatal (make_fatal "QTHREAD_START_FAILED" (Some (ac_task_id a))).

(** [_run_generation] *)
Definition run_generation (qt : Qt) : C unit :=
  catch (prepare_generation qt ;;; submit_generation qt)
    (λ _, discard_unstarted_generation ;;; fatal "WORKER_STARTUP_FAILED").

Definition initial_execution : Execution := mkExecution 0 false false false false None false.
Definition initial_step : StepProgress := mkStep (-1) false false 0 None None None.

(** The plan of a request, if it is one of this task. *)
Definition plan_of (request : Request) (task_id : string) : option TaskPlan :=
  match rq_create_plan request task_id with
  | Ok (Some plan) => if bool_decide (pl_task_id plan = task_id) then Some plan else None
  | _ => None
  end.

(** The rest of [_start], with the plan. *)
Definition start_task (qt : Qt) (request : Request) (kind : Kind) (runtime_state : RuntimeState)
    (plan : TaskPlan) : C RequestAdmission :=
  let task_id := qt_task_id qt in
  match TaskState_post_init (TaskState_new task_id plan TaskPhase.PENDING TaskDispositionState.NONE)
  with
  | Raise _ => fatal_admission "INVALID_TASK_STATE" task_id
  | Ok state =>
      c <- get ;;
      put_active (Some (mkActive task_id request plan plan kind (rs_state (gc_snapshot c)) state
                          initial_execution None initial_step [] None None)) ;;;
      prepared <- catch (prepare_generation qt ;;; ret true)
        (λ _, discard_unstarted_generation ;;; put_active None ;;; ret false) ;;
      if (prepared : bool) then
        set_snapshot (mkChanges (Some runtime_state) (Some (Some task_id)) None None (Some false)
                        None None None) ;;;
        emit (taskStarted state) ;;;
        submit_generation qt ;;;
        ret (mkAdmission true (Some task_id) None None)
      else fatal_admission "WORKER_STARTUP_FAILED" task_id
  end.

(** [_start] *)
Definition start (qt : Qt) (request : Request) (kind : Kind) (runtime_state : RuntimeState)
    : C RequestAdmission :=
  match plan_of request (qt_task_id qt) with
  | None => fatal_admission "INVALID_TASK_PLAN" (qt_task_id qt)
  | Some plan => start_task qt request kind runtime_state plan
  end.

Definition state_is (c : Controller) (s : RuntimeState) : bool :=
  bool_decide (rs_state (gc_snapshot c) = s).

Definition busy : C RequestAdmission :=
  reject RequestRejectionCode.TASK_ALREADY_ACTIVE "A task is already active".

Definition wrong_state (message : string) : C RequestAdmission :=
  reject RequestRejectionCode.INVALID_RUNTIME_STATE message.

Definition request_connect (qt : Qt) (request : Request) : C RequestAdmission :=
  c <- get ;;
  if isSome (gc_active c) then busy
  else if negb (state_is c RuntimeState.DISCONNECTED)
  then wrong_state "Connect requires disconnected state"
  else start qt request Kind.CONNECT RuntimeState.CONNECTING.

Definition request_task (qt : Qt) (request : Request) : C RequestAdmission :=
  c <- get ;;
  if isSome (gc_active c) then busy else
  match plan_of request (qt_task_id qt) with
  | None => fatal_admission "INVALID_TASK_PLAN" (qt_task_id qt)
  | Some plan =>
      if bool_decide (pl_connection_requirement plan = TaskConnectionRequirement.CONNECTED)
         && negb (state_is c RuntimeState.CONNECTED)
      then wrong_state "Task requires a connection"
      else if negb (state_is c RuntimeState.DISCONNECTED || state_is c RuntimeState.CONNECTED)
      then wrong_state "Runtime is not idle"
      else start_task qt request Kind.TASK RuntimeState.BUSY plan
  end.

Definition request_disconnect (qt : Qt) (request : Request) : C RequestAdmission :=
  c <- get ;;
  if isSome (gc_active c) then busy
  else if negb (state_is c RuntimeState.CONNECTED)
  then wrong_state "Disconnect requires connected state"
  else start qt request Kind.DISCONNECT RuntimeState.DISCONNECTING.

(** ** Cancellation *)

Definition cancelling (s : TaskState) : TaskState :=
  mkTaskState (ts_task_id s) (ts_plan s) TaskPhase.CANCELLING (ts_disposition_state s)
    (ts_current_step_index s) (ts_current_step_id s) (ts_current_step_title s) (ts_message s)
    (ts_overall_current s) (ts_step_current s) (ts_step_total s) (ts_step_progress_mode s)
    true (ts_available_actions s) (ts_close_allowed s)
    (ts_auto_close_delay_ms s) (ts_result s) (ts_error s).

(** The task is executing: its phase is not over and no decision is open. *)
Definition executing (s : TaskState) : bool :=
  negb (bool_decide (ts_phase s = TaskPhase.FINISHED))
  && bool_decide (ts_disposition_state s = TaskDispositionState.NONE).

Definition request_cancel (task_id : string) : C CancelRequestResult :=
  let denied code message := mkCancelResult false task_id false
                               (Some (rejection code message (Some task_id))) None in
  c <- get ;;
  match gc_active c with
  | None => ret (denied RequestRejectionCode.UNKNOWN_TASK "Unknown task"%string)
  | Some a =>
      if negb (bool_decide (ac_task_id a = task_id))
      then ret (denied RequestRejectionCode.UNKNOWN_TASK "Unknown task"%string)
      else if negb (executing (ac_state a))
      then ret (denied RequestRejectionCode.INVALID_RUNTIME_STATE "Task is not executing"%string)
      else if negb (pl_cancellable (ac_plan a))
      then ret (denied RequestRejectionCode.TASK_NOT_CANCELLABLE "Task is not cancellable"%string)
      else if ts_cancel_requested (ac_state a) then ret (mkCancelResult true task_id true None None)
      else
        let e := ac_execution a in
        put_active (Some (with_execution
          (mkExecution (ex_generation e) true (ex_thread e) (ex_thread_started e)
             (ex_thread_finished e) (ex_result e) (ex_result_received e)) a)) ;;;
        replace_state cancelling ;;;
        emit_state ;;;
        ret (mkCancelResult true task_id false None None)
  end.

(** ** Progress *)

(** [_validate_progress_value] *)
Definition validate_progress_value (u : TaskProgressUpdate) (p : StepProgress) : Res StepProgress :=
  let stage_changed := match xp_stage p with
                       | Some stage => negb (bool_decide (tu_stage u = stage))
                       | None => false
                       end in
  let previous_mode := if stage_changed then None else xp_mode p in
  let previous_current := if stage_changed then 0 else xp_current p in
  let previous_total := if stage_changed then None else xp_total p in
  let was_determinate := bool_decide (previous_mode = Some ProgressMode.DETERMINATE) in
  let invalid := Err ValueError (Lit "") in
  match tu_progress_mode u with
  | ProgressMode.INDETERMINATE =>
      fail invalid when isSome (tu_current u) || isSome (tu_total u) || was_determinate ;;
      Ok (mkStep (xp_index p) (xp_started p) (xp_complete p) 0 None
            (Some ProgressMode.INDETERMINATE) (Some (tu_stage u)))
  | ProgressMode.DETERMINATE =>
      match tu_current u, tu_total u with
      | Some current, Some total =>
          fail invalid when (total <=? 0) || negb ((0 <=? current) && (current <=? total)) ;;
          fail invalid when was_determinate
            && ((current <? previous_current) || negb (bool_decide (Some total = previous_total))) ;;
          Ok (mkStep (xp_index p) (xp_started p) (xp_complete p) current (Some total)
                (Some ProgressMode.DETERMINATE) (Some (tu_stage u)))
      | _, _ => Raise invalid
      end
  end.

(** *** The overall progress

    It is computed in floating point: binary64 with the operations of
    [SpecFloat]. *)

Definition float_of_int (z : Z) : spec_float := binary_normalize 53 1024 z 0 false.
Definition float_add : spec_float → spec_float → spec_float := SFadd 53 1024.
Definition float_mul : spec_float → spec_float → spec_float := SFmul 53 1024.
Definition float_div : spec_float → spec_float → spec_float := SFdiv 53 1024.

(** [a / b] of two integers: their quotient, rounded once. *)
Definition exact (z : Z) : spec_float :=
  match z with
  | Z0 => S754_zero false
  | Zpos p => S754_finite false p 0
  | Zneg p => S754_finite true p 0
  end.
Definition true_div (a b : Z) : spec_float := float_div (exact a) (exact b).

(** [int(x)] of a finite number *)
Definition int_of_float (x : spec_float) : Z :=
  match x with
  | S754_finite sign m e =>
      let magnitude := if e <? 0 then Z.shiftr (Z.pos m) (- e) else Z.shiftl (Z.pos m) e in
      if (sign : bool) then - magnitude else magnitude
  | _ => 0
  end.

Definition total_weight (steps : list TaskStepPlan) : Z := zsum (map sp_weight steps).

Definition overall_progress (steps : list TaskStepPlan) (p : StepProgress) (weight : Z) : Z :=
  let completed := total_weight (slice steps 0 (xp_index p))
                   + (if xp_complete p then weight else 0) in
  match xp_complete p, xp_total p with
  | false, Some total =>
      int_of_float (float_div (float_mul (float_of_int 1000)
        (float_add (float_of_int completed)
           (true_div (weight * xp_current p) total))) (float_of_int (total_weight steps)))
  | _, _ => int_of_float (true_div (1000 * completed) (total_weight steps))
  end.

(** [steps[i]] *)
Definition step_at (steps : list TaskStepPlan) (i : Z) : option TaskStepPlan :=
  if i <? 0 then None else nth_error steps (Z.to_nat i).

(** The worker is inside the step that the update names. *)
Definition in_step (p : StepProgress) (steps : list TaskStepPlan) (step_id : string) : bool :=
  xp_started p && negb (xp_complete p)
  && match step_at steps (xp_index p) with
     | Some step => bool_decide (sp_step_id step = step_id)
     | None => false
     end.

(** The three branches of [_apply_progress] that move the step. *)
Definition advance_step (u : TaskProgressUpdate) (steps : list TaskStepPlan) : C unit :=
  let invalid := Err ValueError (Lit "") in
  let validate :=
    a <- active ;;
    p <- lift (validate_progress_value u (ac_step a)) ;;
    put_active (Some (with_step p a)) in
  a <- active ;;
  let p := ac_step a in
  match tu_step_state u with
  | TaskStepState.STARTED =>
      if (xp_started p && negb (xp_complete p))
         || match step_at steps (xp_index p + 1) with
            | Some step => negb (bool_decide (sp_step_id step = tu_step_id u))
            | None => true
            end
      then raise invalid
      else put_active (Some (with_step (mkStep (xp_index p + 1) true false 0 None None None) a)) ;;;
           validate
  | TaskStepState.PROGRESS =>
      if in_step p steps (tu_step_id u) then validate else raise invalid
  | TaskStepState.COMPLETED =>
      if in_step p steps (tu_step_id u) then
        validate ;;;
        update_active (λ a, let p := ac_step a in
          with_step (mkStep (xp_index p) (xp_started p) true (xp_current p) (xp_total p)
                       (xp_mode p) (xp_stage p)) a)
      else raise invalid
  end.

(** The task state after an update. *)
Definition progressed (u : TaskProgressUpdate) (index : Z) (step : TaskStepPlan) (overall : Z)
    (s : TaskState) : TaskState :=
  mkTaskState (ts_task_id s) (ts_plan s) (ts_phase s) (ts_disposition_state s) (Some index)
    (Some (tu_step_id u)) (sp_title step) (tu_message u) overall (default 0 (tu_current u))
    (default 0 (tu_total u)) (tu_progress_mode u) (ts_cancel_requested s)
    (ts_available_actions s) (ts_close_allowed s) (ts_auto_close_delay_ms s) (ts_result s)
    (ts_error s).

(** [_apply_progress]; [None] is an object of another class. *)
Definition apply_progress (update : option TaskProgressUpdate) : C unit :=
  a <- active ;;
  match update with
  | None => raise (Err ValueError (Lit ""))
  | Some u =>
      if negb (bool_decide (tu_task_id u = ac_task_id a)) then raise (Err ValueError (Lit "")) else
      let steps := pl_steps (ac_plan a) in
      advance_step u steps ;;;
      a <- active ;;
      match step_at steps (xp_index (ac_step a)) with
      | None => raise (Err LookupError (Lit "list index out of range"))
      | Some step =>
          let overall := overall_progress steps (ac_step a) (sp_weight step) in
          replace_state (progressed u (xp_index (ac_step a)) step overall) ;;;
          emit (taskProgressed u) ;;;
          emit_state
      end
  end.

(** ** Results *)

Record WorkerProgressMessage : Type := mkProgressMessage {
  wp_task_id : string;
  wp_execution_generation : Z;
  wp_update : option TaskProgressUpdate;
}.

Record WorkerResultMessage : Type := mkResultMessage {
  wr_task_id : string;
  wr_execution_generation : Z;
  wr_result : option TaskExecutionResult;
}.

(** [_on_progress] *)
Definition on_progress (message : option WorkerProgressMessage) : C unit :=
  c <- get ;;
  match message with
  | None => fatal "INVALID_WORKER_MESSAGE_TYPE"
  | Some m =>
      match gc_active c with
      | None => fatal "UNKNOWN_WORKER_TASK"
      | Some a =>
          let e := ac_execution a in
          if negb (bool_decide (wp_task_id m = ac_task_id a)) then fatal "UNKNOWN_WORKER_TASK"
          else if wp_execution_generation m <? ex_generation e then ret tt
          else if isSome (ac_fatal_error a) then ret tt
          else if negb (wp_execution_generation m =? ex_generation e) || ex_result_received e
          then fatal "PROGRESS_AFTER_RESULT"
          else catch (apply_progress (wp_update m))
                 (λ exc, if isinstance exc ValueError || isinstance exc TypeError
                         then fatal "INVALID_TASK_PROGRESS" else raise exc)
      end
  end.

(** [_result_cleanup_pending] *)
Definition truthy (v : PyVal) : bool :=
  match v with
  | VNone => false
  | VBool b => b
  | VInt z => negb (z =? 0)
  | VStr s => negb (empty_str s)
  | VSeq l => nonempty l
  | VDict l => nonempty l
  end.

Definition result_cleanup_pending (r : TaskExecutionResult) : bool :=
  match te_error r with
  | Some e => match dict_get "cleanup_pending" (ge_details e) with
              | Some v => truthy v
              | None => false
              end
  | None => false
  end.

(** [result.error and result.error.disposition is d] *)
Definition disposition_is (r : TaskExecutionResult) (d : ErrorDisposition) : bool :=
  match te_error r with Some e => bool_decide (ge_disposition e = d) | None => false end.

Definition releases (r : TaskExecutionResult) : bool :=
  bool_decide (te_completion_action r = TaskCompletionAction.RELEASE_CONNECTION).

Definition cancelled_status (r : TaskExecutionResult) : bool :=
  is_status r TaskFinalStatus.CANCELLED
  || is_status r TaskFinalStatus.COMPLETED_AFTER_CANCEL_REQUEST.

(** The connection is gone: [connection_info=None, active_target_key=None,
    connection_suspect=False] with the other changes. *)
Definition disconnected_changes (cleanup_pending : bool) (last_error : option GuiRuntimeError)
    : Changes :=
  mkChanges None None (Some None) (Some false) None None (Some cleanup_pending) (Some last_error).

(** [_finish_connect] *)
Definition finish_connect (result : TaskExecutionResult) : C unit :=
  if releases result || disposition_is result ErrorDisposition.ASK_DISCONNECT
     || disposition_is result ErrorDisposition.FORCE_DISCONNECTED
  then fatal "INVALID_CONNECT_RESULT"
  else if is_status result TaskFinalStatus.SUCCEEDED then
    match te_payload result with
    | ConnectionPayload info =>
        if bool_decide (ci_target_key info ∈ ["cpu1"; "cpu2"]) then
          complete result RuntimeState.CONNECTED
            (mkChanges None None (Some (Some (info, ci_target_key info))) (Some false) None None
               (Some false) (Some None))
        else fatal "CONNECT_MISSING_CONNECTION_INFO"
    | _ => fatal "CONNECT_MISSING_CONNECTION_INFO"
    end
  else complete result RuntimeState.DISCONNECTED
         (disconnected_changes (result_cleanup_pending result) None).

Definition cleanup_error_code (cleanup : TaskExecutionResult) : string :=
  match te_error cleanup with Some e => ge_code e | None => "CLEANUP_FAILED" end.

Definition with_evidence_of (evidence : list StepResult) (warning : option GuiTaskWarning)
    (error : option GuiRuntimeError) (r : TaskExecutionResult) : Res TaskExecutionResult :=
  TaskExecutionResult_post_init
    (mkTaskResult (te_task_id r) (te_status r) (te_summary r) (te_message r) evidence
       (te_payload r) warning error (te_completion_action r) (te_cancel_requested r)).

(** [details["cleanup_error_code"] = code] *)
Definition dict_set (key : string) (value : PyVal) (d : Dict) : Dict :=
  if isSome (dict_get key d)
  then map (λ kv, if bool_decide (kv.1 = key) then (key, value) else kv) d
  else d ++ [(key, value)].

Definition with_details (details : Dict) (e : GuiRuntimeError) : Res GuiRuntimeError :=
  GuiRuntimeError_post_init
    (mkGuiError (ge_code e) (ge_message e) (ge_stage e) (ge_disposition e) (ge_task_id e)
       (ge_recoverable e) (ge_outcome_uncertain e) details (ge_cause_summary e) (ge_domain e)).

(** The result of the task whose connection was released. *)
Definition released_result (primary cleanup : TaskExecutionResult) : Res TaskExecutionResult :=
  let evidence := te_step_results primary ++ te_step_results cleanup ++ [StepTask cleanup] in
  let failed := negb (is_status cleanup TaskFinalStatus.SUCCEEDED) in
  let code := VStr (cleanup_error_code cleanup) in
  if successful primary then
    with_evidence_of evidence
      (if failed then Some (mkWarning "CONNECTION_RELEASE_FAILED"
         "Operation succeeded, but connection cleanup failed" "cleanup"
         [("cleanup_error_code"%string, code)]) else None)
      (te_error primary) primary
  else
    let? error := match te_error primary with
                  | Some error =>
                      if failed then
                        let? error := with_details
                          (dict_set "cleanup_error_code" code (ge_details error)) error in
                        Ok (Some error)
                      else Ok (Some error)
                  | None => Ok None
                  end in
    with_evidence_of evidence (te_warning primary) error primary.

(** [_finish_disconnect] *)
Definition finish_disconnect (cleanup : TaskExecutionResult) : C unit :=
  a <- active ;;
  let pending := negb (is_status cleanup TaskFinalStatus.SUCCEEDED)
                 || result_cleanup_pending cleanup in
  if bool_decide (ac_kind a = Kind.DISCONNECT) then
    if cancelled_status cleanup || releases cleanup
       || disposition_is cleanup ErrorDisposition.ASK_DISCONNECT
    then fatal "INVALID_DISCONNECT_RESULT"
    else complete cleanup RuntimeState.DISCONNECTED
           (disconnected_changes pending (te_error cleanup))
  else if cancelled_status cleanup then fatal "INVALID_INTERNAL_DISCONNECT_RESULT"
  else
    match ac_primary_result a with
    | None => raise (Err AssertionError (Lit ""))
    | Some primary =>
        final <- lift (released_result primary cleanup) ;;
        complete final RuntimeState.DISCONNECTED (disconnected_changes pending None)
    end.

Definition awaiting_decision (result : TaskExecutionResult) (s : TaskState) : TaskState :=
  mkTaskState (ts_task_id s) (ts_plan s) TaskPhase.FINISHED
    TaskDispositionState.AWAITING_DISCONNECT_DECISION (ts_current_step_index s)
    (ts_current_step_id s) (ts_current_step_title s) (ts_message s) (ts_overall_current s)
    (ts_step_current s) (ts_step_total s) (ts_step_progress_mode s) (ts_cancel_requested s)
    [TaskDialogAction.DISCONNECT; TaskDialogAction.KEEP_CONNECTION] (ts_close_allowed s)
    (ts_auto_close_delay_ms s) (Some result) (te_error result).

(** The cleanup request with its plan, for the task [task_id]. *)
Definition restart (kind : Kind) (request : Request) (disposition : TaskDispositionState)
    : C unit :=
  a <- active ;;
  match rq_create_plan request (ac_task_id a) with
  | Ok (Some plan) =>
      state <- lift (TaskState_post_init
                       (TaskState_new (ac_task_id a) plan TaskPhase.PENDING disposition)) ;;
      put_active (Some (restarted kind request plan state a))
  | Ok None => raise (Err TypeError (Lit "not a TaskPlan"))
  | Raise exc => raise exc
  end.

(** [_begin_internal_disconnect] *)
Definition begin_internal_disconnect (qt : Qt) : C unit :=
  restart Kind.INTERNAL_DISCONNECT release_request TaskDispositionState.DISCONNECTING ;;;
  set_snapshot (mkChanges (Some RuntimeState.DISCONNECTING) None None None (Some false) None None
                  None) ;;;
  emit_state ;;;
  run_generation qt.

(** [_finish_task] *)
Definition finish_task (qt : Qt) (result : TaskExecutionResult) : C unit :=
  update_active (with_primary_result result) ;;;
  a <- active ;;
  let ask := disposition_is result ErrorDisposition.ASK_DISCONNECT in
  let force := disposition_is result ErrorDisposition.FORCE_DISCONNECTED in
  if bool_decide (pl_connection_requirement (ac_plan a) = TaskConnectionRequirement.NONE) then
    if releases result || ask || force then fatal "INVALID_LOCAL_TASK_DISPOSITION"
    else complete result (ac_origin a) no_changes
  else if ask then
    replace_state (awaiting_decision result) ;;;
    set_snapshot (mkChanges (Some RuntimeState.BUSY) None None (Some true) (Some true) None None
                    None) ;;;
    emit_state
  else if releases result then begin_internal_disconnect qt
  else if force then
    complete result RuntimeState.DISCONNECTED (disconnected_changes false (te_error result))
  else complete result RuntimeState.CONNECTED no_changes.

Definition shutdown_failed (result : TaskExecutionResult) (s : TaskState) : TaskState :=
  mkTaskState (ts_task_id s) (ts_plan s) TaskPhase.FINISHED (ts_disposition_state s)
    (ts_current_step_index s) (ts_current_step_id s) (ts_current_step_title s) (ts_message s)
    (ts_overall_current s) (ts_step_current s) (ts_step_total s) (ts_step_progress_mode s)
    (ts_cancel_requested s) [TaskDialogAction.RETRY_CLEANUP; TaskDialogAction.FORCE_EXIT]
    (ts_close_allowed s) (ts_auto_close_delay_ms s) (Some result) (te_error result).

(** [_finish_shutdown] *)
Definition finish_shutdown (result : TaskExecutionResult) : C unit :=
  if cancelled_status result then fatal "INVALID_SHUTDOWN_RESULT"
  else if is_status result TaskFinalStatus.SUCCEEDED then
    complete result RuntimeState.DISCONNECTED
      (mkChanges None None (Some None) (Some false) None (Some false) (Some false) (Some None)) ;;;
    emit shutdownReady
  else
    update_active (with_primary_result result) ;;;
    replace_state (shutdown_failed result) ;;;
    set_snapshot (mkChanges (Some RuntimeState.DISCONNECTING) None (Some None) None None
                    (Some true) (Some true) (Some (te_error result))) ;;;
    emit_state.

(** Every step of the plan was started and completed. *)
Definition all_steps_complete (a : Active) : bool :=
  forallb (λ i, (i <? xp_index (ac_step a)) || ((i =? xp_index (ac_step a)) && xp_complete (ac_step a)))
    (zrange 0 (zlen (pl_steps (ac_plan a)))).

(** [_maybe_finish] *)
Definition maybe_finish (qt : Qt) : C unit :=
  c <- get ;;
  match gc_active c with
  | None => ret tt
  | Some a =>
      let e := ac_execution a in
      if negb (ex_result_received e && ex_thread_finished e) then ret tt else
      match ex_result e with
      | None => raise (Err AssertionError (Lit ""))
      | Some result =>
          if successful result && negb (all_steps_complete a)
          then fatal "INCOMPLETE_SUCCESS_PROGRESS"
          else
            match te_error result with
            | Some error =>
                if bool_decide (ge_disposition error = ErrorDisposition.RUNTIME_FATAL) then
                  put_active (Some (with_fatal_result result a)) ;;; enter_fatal error
                else
                  match ac_kind a with
                  | Kind.CONNECT => finish_connect result
                  | Kind.DISCONNECT | Kind.INTERNAL_DISCONNECT => finish_disconnect result
                  | Kind.SHUTDOWN => finish_shutdown result
                  | Kind.TASK => finish_task qt result
                  end
            | None =>
                match ac_kind a with
                | Kind.CONNECT => finish_connect result
                | Kind.DISCONNECT | Kind.INTERNAL_DISCONNECT => finish_disconnect result
                | Kind.SHUTDOWN => finish_shutdown result
                | Kind.TASK => finish_task qt result
                end
            end
      end
  end.

(** [_on_result] *)
Definition on_result (qt : Qt) (message : option WorkerResultMessage) : C unit :=
  c <- get ;;
  match message with
  | None => fatal "INVALID_WORKER_MESSAGE_TYPE"
  | Some m =>
      match gc_active c with
      | None => fatal "UNKNOWN_WORKER_TASK"
      | Some a =>
          let e := ac_execution a in
          if negb (bool_decide (wr_task_id m = ac_task_id a)) then fatal "UNKNOWN_WORKER_TASK"
          else if wr_execution_generation m <? ex_generation e then ret tt
          else if isSome (ac_fatal_error a) then ret tt
          else if negb (wr_execution_generation m =? ex_generation e) || ex_result_received e
          then fatal "DUPLICATE_WORKER_RESULT"
          else
            match wr_result m with
            | None => fatal "INVALID_WORKER_RESULT"
            | Some result =>
                if negb (bool_decide (te_task_id result = ac_task_id a))
                then fatal "INVALID_WORKER_RESULT"
                else
                  put_active (Some (with_execution
                    (mkExecution (ex_generation e) (ex_cancelled e) (ex_thread e)
                       (ex_thread_started e) (ex_thread_finished e) (Some result) true) a)) ;;;
                  maybe_finish qt
            end
      end
  end.

(** [_on_thread_finished] *)
Definition on_thread_finished (qt : Qt) (generation : Z) : C unit :=
  c <- get ;;
  match gc_active c with
  | None => ret tt
  | Some a =>
      let e := ac_execution a in
      if generation <? ex_generation e then ret tt
      else if negb (generation =? ex_generation e) then fatal "INVALID_WORKER_GENERATION"
      else
        put_active (Some (with_execution
          (mkExecution (ex_generation e) (ex_cancelled e) false (ex_thread_started e) true
             (ex_result e) (ex_result_received e)) a)) ;;;
        if isSome (ac_fatal_error a) then finalize_fatal
        else if negb (ex_result_received e) then fatal "WORKER_EXITED_WITHOUT_RESULT"
        else maybe_finish qt
  end.

(** ** Decisions of the user *)

(** [respond_task_action] *)
Definition respond_task_action (qt : Qt) (task_id : string) (action : TaskDialogAction)
    : C TaskActionResult :=
  let denied code message := mkActionResult false task_id action false
                               (Some (rejection code message (Some task_id))) None in
  c <- get ;;
  match gc_active c with
  | None => ret (denied RequestRejectionCode.UNKNOWN_TASK "Unknown task"%string)
  | Some a =>
      if negb (bool_decide (ac_task_id a = task_id))
      then ret (denied RequestRejectionCode.UNKNOWN_TASK "Unknown task"%string)
      else if bool_decide (action ∈ ac_actions a)
      then ret (mkActionResult true task_id action true None None)
      else if negb (bool_decide (action ∈ ts_available_actions (ac_state a)))
      then ret (denied RequestRejectionCode.ACTION_NOT_AVAILABLE "Action unavailable"%string)
      else
        put_active (Some (with_actions (action :: ac_actions a) a)) ;;;
        match action with
        | TaskDialogAction.KEEP_CONNECTION =>
            match ac_primary_result a with
            | None => raise (Err AttributeError (Lit "'NoneType' object has no attribute 'status'"))
            | Some primary =>
                complete primary RuntimeState.CONNECTED
                  (mkChanges None None None (Some true) (Some false) None None None)
            end
        | TaskDialogAction.DISCONNECT => begin_internal_disconnect qt
        | TaskDialogAction.RETRY_CLEANUP =>
            restart Kind.SHUTDOWN shutdown_request TaskDispositionState.NONE ;;;
            update_active (with_actions []) ;;;
            emit_state ;;;
            run_generation qt
        | TaskDialogAction.FORCE_EXIT =>
            emit (forceExitReady (match ac_primary_result a with
                                  | Some primary => te_error primary
                                  | None => None
                                  end))
        end ;;;
        ret (mkActionResult true task_id action false None None)
  end.

(** [request_application_close] *)
Definition request_application_close (qt : Qt) : C ApplicationCloseResult :=
  let denied message task_id := mkCloseResult ApplicationCloseDecision.REJECTED task_id
    (Some (rejection RequestRejectionCode.CLOSE_NOT_ALLOWED message task_id)) None in
  c <- get ;;
  match gc_active c with
  | Some a =>
      ret (denied (if ex_thread (ac_execution a) then "Task active"%string
                   else "Task disposition active"%string)
             (Some (ac_task_id a)))
  | None =>
      if state_is c RuntimeState.DISCONNECTED && negb (rs_cleanup_pending (gc_snapshot c))
      then ret (mkCloseResult ApplicationCloseDecision.ALLOW_IMMEDIATE None None None)
      else if negb (state_is c RuntimeState.DISCONNECTED || state_is c RuntimeState.CONNECTED
                    || state_is c RuntimeState.ERROR)
      then ret (denied "Runtime busy"%string None)
      else
        admission <- start qt shutdown_request Kind.SHUTDOWN RuntimeState.DISCONNECTING ;;
        if ra_accepted admission then
          set_snapshot (mkChanges None None None None None (Some true) None None) ;;;
          ret (mkCloseResult ApplicationCloseDecision.SHUTDOWN_STARTED (ra_task_id admission) None
                 None)
        else ret match ra_error admission with
                 | Some error => mkCloseResult ApplicationCloseDecision.ERROR None None (Some error)
                 | None => mkCloseResult ApplicationCloseDecision.REJECTED None
                             (ra_rejection admission) None
                 end
  end.

(** ** Events *)

(** The error of [_thread_ok]. *)
Definition thread_violation (task_id : option string) : GuiRuntimeError :=
  mkGuiError "WRONG_CONTROLLER_THREAD" "Controller called from the wrong thread" "controller"
    ErrorDisposition.RUNTIME_FATAL task_id false false [] None None.

(** What the controller answers to: calls, messages of workers, threads that
    ended, and calls from a wrong thread, which name a task when they are
    about one. *)
Inductive Event : Type :=
| RequestConnect (qt : Qt) (request : Request)
| RequestTask (qt : Qt) (request : Request)
| RequestDisconnect (qt : Qt) (request : Request)
| RequestCancel (task_id : string)
| RequestClose (qt : Qt)
| Respond (qt : Qt) (task_id : string) (action : TaskDialogAction)
| Progress (message : option WorkerProgressMessage)
| Result (qt : Qt) (message : option WorkerResultMessage)
| ThreadFinished (qt : Qt) (generation : Z)
| ThreadViolation (task_id : option string).

Definition handle (event : Event) : C unit :=
  match event with
  | RequestConnect qt request => request_connect qt request ;;; ret tt
  | RequestTask qt request => request_task qt request ;;; ret tt
  | RequestDisconnect qt request => request_disconnect qt request ;;; ret tt
  | RequestCancel task_id => request_cancel task_id ;;; ret tt
  | RequestClose qt => request_application_close qt ;;; ret tt
  | Respond qt task_id action => respond_task_action qt task_id action ;;; ret tt
  | Progress message => on_progress message
  | Result qt message => on_result qt message
  | ThreadFinished qt generation => on_thread_finished qt generation
  | ThreadViolation task_id => enter_fatal (thread_violation task_id)
  end.

(** An exception of a slot or a call leaves the state it reached. *)
Definition after (event : Event) (c : Controller) : Controller := (handle event c).2.
