(* ===== verification/ControllerInvariant.v ===== *)
(** * The invariant of the controller

    What holds between any two events: the snapshot passes its own checks, it
    names the active task, and its state fits what that task is doing.  The
    invariant looks at a snapshot through its [view]: the fields that the
    checks of [RuntimeSnapshot] look at. *)

From S2P Require Import Prelude.
From S2P Require Import Errors.
From S2P Require Import TaskPlans.
From S2P Require Import OperationResults.
From S2P Require Import RuntimeModels.
From S2P Require Import TaskModels.
From S2P Require Import Controller.

(** Every check of [H : (fail … when … ;; …) = Ok _] passed. *)
Ltac passed H :=
  repeat match type of H with
  | (if ?b then _ else _) = Ok _ => destruct b eqn:?; [done|]
  end.

(** ** Views of snapshots *)

Record View : Set := mkView {
  vw_state : RuntimeState;
  vw_task : option string;
  vw_info : option string;                   (* the target of the connection *)
  vw_key : option string;
  vw_suspect : bool;
  vw_pending : bool;
  vw_cleanup : bool;
  vw_error : option ErrorDisposition;
}.

Definition view (s : RuntimeSnapshot) : View :=
  mkView (rs_state s) (rs_active_task_id s) (ci_target_key <$> rs_connection_info s)
    (rs_active_target_key s) (rs_connection_suspect s) (rs_disconnect_decision_pending s)
    (rs_cleanup_pending s) (ge_disposition <$> rs_last_error s).

Definition no_connection (v : View) : Prop := vw_info v = None ∧ vw_key v = None.

Definition connected (v : View) : Prop :=
  ∃ key, vw_info v = Some key ∧ vw_key v = Some key ∧ key ∈ ["cpu1"; "cpu2"]%string ∧
    vw_cleanup v = false.

Definition fatal_view (v : View) : Prop := vw_error v = Some ErrorDisposition.RUNTIME_FATAL.

(** The connection is recorded completely or not at all, and the state agrees
    with it. *)
Record view_ok (v : View) : Prop := {
  vo_shape : no_connection v ∨ connected v;
  vo_inactive : vw_state v = RuntimeState.DISCONNECTED ∨ vw_state v = RuntimeState.CONNECTING →
    no_connection v;
  vo_disconnected : vw_state v = RuntimeState.DISCONNECTED → vw_suspect v = false;
  vo_connected : vw_state v = RuntimeState.CONNECTED → connected v;
  vo_error : vw_state v = RuntimeState.ERROR → fatal_view v;
  vo_pending : vw_pending v = true →
    vw_state v = RuntimeState.BUSY ∧ vw_suspect v = true ∧
    ∃ task_id, vw_task v = Some task_id ∧ task_id <> EmptyString;
}.

Definition snapshot_ok (s : RuntimeSnapshot) : Prop := RuntimeSnapshot_post_init s = Ok s.

Lemma snapshot_ok_intro s : view_ok (view s) → snapshot_ok s.
Proof.
  destruct s as [st id info key su pe sh cl er]. intros [Hs Hi Hd Hc He Hp].
  unfold snapshot_ok, RuntimeSnapshot_post_init, no_task in *. cbn in *.
  assert (Hkey : match key with
                 | Some key => negb (bool_decide (key ∈ ["cpu1"; "cpu2"]%string))
                 | None => false
                 end = false).
  { destruct Hs as [[_ H]|(k & _ & H & Hk & _)]; cbn in H; rewrite H; [done|].
    by rewrite bool_decide_eq_true_2. }
  rewrite Hkey. clear Hkey.
  assert (Hinfo : match info with
                  | Some i => negb (bool_decide (Some (ci_target_key i) = key))
                  | None => false
                  end = false).
  { destruct Hs as [[H _]|(k & H & H' & _)]; cbn in H.
    - by destruct info.
    - cbn in H'. destruct info as [i|]; [|done]. cbn in H.
      by rewrite bool_decide_eq_true_2 by congruence. }
  rewrite Hinfo. clear Hinfo.
  assert (Hnone : no_connection (view (mkRuntime st id info key su pe sh cl er)) →
                  isSome info = false ∧ isSome key = false).
  { intros [H H']. cbn in H, H'. subst key. by destruct info. }
  assert (Hsome : connected (view (mkRuntime st id info key su pe sh cl er)) →
                  isSome info = true ∧ isSome key = true ∧ cl = false).
  { intros (k & H & H' & _ & Hcl). cbn in H, H', Hcl. subst key. by destruct info. }
  assert (Hshape : cl && (isSome info || isSome key) = false).
  { destruct Hs as [H|H].
    - destruct (Hnone H) as [-> ->]. by destruct cl.
    - by destruct (Hsome H) as (_ & _ & ->). }
  rewrite Hshape.
  destruct st; cbn; rewrite ?andb_false_r, ?andb_false_l; cbn.
  - destruct (Hnone (Hi (or_introl eq_refl))) as [-> ->]. cbn. rewrite (Hd eq_refl).
    destruct pe; [by destruct (Hp eq_refl)|done].
  - destruct (Hnone (Hi (or_intror eq_refl))) as [-> ->]. cbn.
    destruct pe; [by destruct (Hp eq_refl)|done].
  - destruct (Hsome (Hc eq_refl)) as (-> & -> & _). cbn.
    destruct pe; [by destruct (Hp eq_refl)|done].
  - destruct pe; [|done]. destruct (Hp eq_refl) as (_ & -> & t & -> & Ht). cbn.
    by destruct t.
  - destruct pe; [by destruct (Hp eq_refl)|done].
  - specialize (He eq_refl). unfold fatal_view in He. cbn in He.
    destruct er as [e|]; [|done]. injection He as He.
    rewrite He. destruct pe; [by destruct (Hp eq_refl)|done].
Qed.

(** Equal snapshots have equal views. *)
Lemma runtime_snapshot_eq_view a b : runtime_snapshot_eq a b = true → view a = view b.
Proof.
  unfold runtime_snapshot_eq, view.
  rewrite !andb_true_iff, !bool_decide_eq_true, !Bool.eqb_true_iff.
  intros ((((((((-> & ->) & Hi) & ->) & ->) & ->) & _) & ->) & He). f_equal.
  - destruct (rs_connection_info a), (rs_connection_info b); cbn in Hi |- *; try done.
    unfold connection_info_eq in Hi. rewrite !andb_true_iff, !bool_decide_eq_true in Hi.
    f_equal. tauto.
  - destruct (rs_last_error a), (rs_last_error b); cbn in He |- *; try done.
    unfold gui_error_eq in He. rewrite !andb_true_iff, !bool_decide_eq_true in He.
    f_equal. tauto.
Qed.

(** A snapshot that passes its checks only waits for a decision while busy. *)
Lemma snapshot_pending s :
  RuntimeSnapshot_post_init s = Ok s → rs_disconnect_decision_pending s = true →
  rs_state s = RuntimeState.BUSY.
Proof.
  intros H Hp. unfold RuntimeSnapshot_post_init in H.
  passed H.
  rewrite Hp in *. by destruct (rs_state s).
Qed.

Lemma post_init_same s s' : RuntimeSnapshot_post_init s = Ok s' → s' = s.
Proof.
  unfold RuntimeSnapshot_post_init. intros H. passed H. by injection H.
Qed.

(** ** The task *)

Record result_ok (task_id : string) (r : TaskExecutionResult) : Prop := {
  ro_checked : TaskExecutionResult_post_init r = Ok r;
  ro_task_id : te_task_id r = task_id;
  ro_error : ∀ e, te_error r = Some e → GuiRuntimeError_post_init e = Ok e;
}.

(** The state of a task is about that task. *)
Record state_ok (task_id : string) (s : TaskState) : Prop := {
  so_task_id : ts_task_id s = task_id;
  so_plan : pl_task_id (ts_plan s) = task_id;
  so_result : ∀ r, ts_result s = Some r → te_task_id r = task_id;
  so_error : foreign_error task_id (ts_error s) = false;
}.

Lemma state_ok_post_init task_id s : state_ok task_id s → TaskState_post_init s = Ok s.
Proof.
  intros [Hi Hp Hr He]. unfold TaskState_post_init. rewrite Hi, Hp, He.
  rewrite bool_decide_eq_true_2 by done. cbn.
  destruct (ts_result s) as [r|]; [|done].
  by rewrite bool_decide_eq_true_2 by (by apply Hr).
Qed.

Lemma result_own_error task_id r :
  result_ok task_id r → foreign_error task_id (te_error r) = false.
Proof.
  intros [H <- _]. unfold TaskExecutionResult_post_init in H. unfold foreign_error.
  passed H.
  done.
Qed.

(** What a task of each kind means for the runtime. *)
Definition kind_fits (a : Active) (v : View) : Prop :=
  match ac_kind a with
  | Kind.CONNECT => vw_state v = RuntimeState.CONNECTING
  | Kind.TASK =>
      vw_state v = RuntimeState.BUSY ∧
      (ac_origin a = RuntimeState.DISCONNECTED ∧ no_connection v ∧ vw_suspect v = false ∧
         pl_connection_requirement (ac_plan a) = TaskConnectionRequirement.NONE
       ∨ ac_origin a = RuntimeState.CONNECTED ∧ connected v)
  | Kind.DISCONNECT | Kind.SHUTDOWN => vw_state v = RuntimeState.DISCONNECTING
  | Kind.INTERNAL_DISCONNECT =>
      vw_state v = RuntimeState.DISCONNECTING ∧ isSome (ac_primary_result a) = true
  end.

(** The task waits for the user to keep or release the connection. *)
Definition asks (a : Active) : Prop :=
  TaskDialogAction.KEEP_CONNECTION ∈ ts_available_actions (ac_state a)
  ∨ TaskDialogAction.DISCONNECT ∈ ts_available_actions (ac_state a).

Record active_ok (a : Active) (v : View) : Prop := {
  ao_id : ac_task_id a <> EmptyString;
  ao_named : vw_task v = Some (ac_task_id a);
  ao_state : state_ok (ac_task_id a) (ac_state a);
  ao_primary : ∀ r, ac_primary_result a = Some r → result_ok (ac_task_id a) r;
  ao_result : ∀ r, ex_result (ac_execution a) = Some r → result_ok (ac_task_id a) r;
  ao_received : ex_result_received (ac_execution a) = true →
    isSome (ex_result (ac_execution a)) = true;
  ao_fatal : ∀ e, ac_fatal_error a = Some e → ge_disposition e = ErrorDisposition.RUNTIME_FATAL;
  ao_fatal_result : ∀ r, ac_fatal_result a = Some r → result_ok (ac_task_id a) r;
  ao_pending : vw_pending v = true →
    ac_kind a = Kind.TASK ∧ connected v ∧ isSome (ac_primary_result a) = true ∧
    ex_thread_finished (ac_execution a) = true;
  ao_asks : asks a → vw_pending v = true;
  ao_retry : TaskDialogAction.RETRY_CLEANUP ∈ ts_available_actions (ac_state a) →
    ac_kind a = Kind.SHUTDOWN;
  ao_kind : ac_fatal_error a = None → kind_fits a v;
}.

(** The thread of the task runs, or it ran and is gone. *)
Definition thread_ok (e : Execution) : Prop :=
  ex_thread e = true ∧ ex_thread_started e = true ∧ ex_thread_finished e = false
  ∨ ex_thread e = false ∧ ex_thread_finished e = true.

(** A task whose thread is gone waits for the user, unless a fatal error
    stopped it. *)
Definition waits (a : Active) : Prop :=
  ac_fatal_error a = None → ex_thread (ac_execution a) = true
                            ∨ ts_available_actions (ac_state a) <> [].

Definition idle_ok (v : View) : Prop :=
  vw_task v = None ∧ vw_pending v = false ∧
  (vw_state v = RuntimeState.DISCONNECTED ∨ vw_state v = RuntimeState.CONNECTED
   ∨ vw_state v = RuntimeState.ERROR).

(** ** Accepted and finished tasks *)

Definition started_id (signal : Signal) : option string :=
  match signal with taskStarted state => Some (ts_task_id state) | _ => None end.
Definition finished_id (signal : Signal) : option string :=
  match signal with taskFinished result => Some (te_task_id result) | _ => None end.

Definition active_ids (active : option Active) : list string :=
  match active with Some a => [ac_task_id a] | None => [] end.

(** The log of starts and ends, read in order: a task may only start while
    none is open, and only the task that is open may end.  [None] when an
    announcement breaks this. *)
Definition announce (log : option (list string)) (signal : Signal) : option (list string) :=
  match signal, log with
  | taskStarted state, Some [] => Some [ts_task_id state]
  | taskFinished result, Some [task_id] =>
      if bool_decide (te_task_id result = task_id) then Some [] else None
  | taskStarted _, _ | taskFinished _, _ => None
  | _, _ => log
  end.

Definition open_tasks (signals : list Signal) : option (list string) :=
  foldl announce (Some []) signals.

(** Starts and ends alternate, and the tasks [ids] are open. *)
Definition accounted (ids : list string) (signals : list Signal) : Prop :=
  open_tasks signals = Some ids.

(** Then the tasks that were announced are those that finished, in order, and
    the open ones. *)
Lemma accounted_ids ids signals :
  accounted ids signals → omap started_id signals = omap finished_id signals ++ ids.
Proof.
  unfold accounted. revert ids. induction signals as [|x signals IH] using rev_ind; intros ids.
  { by intros [= <-]. }
  unfold open_tasks in *. rewrite foldl_app, !omap_app. cbn.
  destruct (foldl announce (Some []) signals) as [log|]; [|by destruct x].
  rewrite (IH log eq_refl). intros H.
  destruct x; cbn in *; try (injection H as <-; by rewrite !app_nil_r).
  - destruct log as [|t log]; [|done]. injection H as <-. by rewrite !app_nil_r.
  - destruct log as [|t [|]]; [done| |done]. case_bool_decide as Ht; [|done].
    injection H as <-. by rewrite !app_nil_r, Ht.
Qed.

Definition core (s : RuntimeSnapshot) (a : Active) (signals : list Signal) : Prop :=
  view_ok (view s) ∧ active_ok a (view s) ∧ accounted [ac_task_id a] signals.

Definition base (s : RuntimeSnapshot) (a : Active) (signals : list Signal) : Prop :=
  core s a signals ∧ thread_ok (ac_execution a).

Definition Inv (c : Controller) : Prop :=
  match gc_active c with
  | Some a => base (gc_snapshot c) a (gc_signals c) ∧ waits a
  | None => view_ok (view (gc_snapshot c)) ∧ idle_ok (view (gc_snapshot c))
            ∧ accounted [] (gc_signals c)
  end.

(** The task cannot be ended by the fatal error it has: the error names
    another task. *)
Definition foreign_fatal (a : Active) : Prop :=
  ∃ e, ac_fatal_error a = Some e ∧ foreign_error (ac_task_id a) (Some e) = true.

(** Where a handler may raise: a disconnect decision is open, or the fatal
    error of the task names another task. *)
Definition Stuck (c : Controller) : Prop :=
  ∃ a, gc_active c = Some a ∧
       (vw_pending (view (gc_snapshot c)) = true ∨ foreign_fatal a).

Lemma accounted_snoc ids signals signal :
  started_id signal = None → finished_id signal = None →
  accounted ids signals → accounted ids (signals ++ [signal]).
Proof.
  unfold accounted, open_tasks. rewrite foldl_app. intros Hs Hf ->. by destruct signal.
Qed.

Lemma accounted_started state signals :
  accounted [] signals → accounted [ts_task_id state] (signals ++ [taskStarted state]).
Proof. unfold accounted, open_tasks. by rewrite foldl_app; intros ->. Qed.

Lemma accounted_finished result signals :
  accounted [te_task_id result] signals → accounted [] (signals ++ [taskFinished result]).
Proof.
  unfold accounted, open_tasks. rewrite foldl_app. intros ->. cbn. by rewrite bool_decide_eq_true_2.
Qed.

Lemma Inv_init : Inv Controller_init.
Proof.
  split; [|split; [|done]].
  - constructor; cbn; try done. by left.
  - split; [done|]. split; [done|]. by left.
Qed.
