(* ===== verification/ControllerProofs.v ===== *)
(** * The steps of the controller keep its invariant

    One lemma per handler: from a state that satisfies the invariant it ends
    in one, and it raises only where a disconnect decision is open or the
    fatal error of the task names another task. *)

From S2P Require Import Prelude.
From S2P Require Import Errors.
From S2P Require Import TaskPlans.
From S2P Require Import OperationResults.
From S2P Require Import RuntimeModels.
From S2P Require Import TaskModels.
From S2P Require Import Controller.
From S2P Require Import ControllerInvariant.

Definition safe {A} (m : C A) (c : Controller) : Prop :=
  wp m (λ _ c', Inv c') (λ _ c', Inv c' ∧ Stuck c') c.

(** ** Steps *)

Section steps.
  Context {A : Type} (Q : A → Controller → Prop) (E : Exn → Controller → Prop).
  Context (s : RuntimeSnapshot) (g : list Signal).
  Implicit Types a : Active.

Lemma wp_active a (k : Active → C A) :
    wp (k a) Q E (mkController s (Some a) g) →
    wp (x <- active ;; k x) Q E (mkController s (Some a) g).
  Proof. done. Qed.

Lemma wp_update_active a f (k : C A) :
    wp k Q E (mkController s (Some (f a)) g) →
    wp (update_active f ;;; k) Q E (mkController s (Some a) g).
  Proof. done. Qed.

Lemma wp_put_active a (x : option Active) (k : C A) :
    wp k Q E (mkController s x g) → wp (put_active x ;;; k) Q E (mkController s (Some a) g).
  Proof. done. Qed.

Lemma wp_emit act x (k : C A) :
    wp k Q E (mkController s act (g ++ [x])) →
    wp (emit x ;;; k) Q E (mkController s act g).
  Proof. done. Qed.

Lemma wp_replace_state a f (k : C A) :
    state_ok (ac_task_id a) (f (ac_state a)) →
    wp k Q E (mkController s (Some (with_state (f (ac_state a)) a)) g) →
    wp (replace_state f ;;; k) Q E (mkController s (Some a) g).
  Proof.
    intros Hs Hk. unfold wp, replace_state, active, bind, get, lift, put_active, modify. cbn.
    by rewrite (state_ok_post_init _ _ Hs).
  Qed.

Lemma wp_emit_state a (k : C A) :
    wp k Q E (mkController s (Some a) (g ++ [taskStateChanged (ac_state a)])) →
    wp (emit_state ;;; k) Q E (mkController s (Some a) g).
  Proof. done. Qed.

Lemma wp_set_snapshot act ch (k : C A) :
    view_ok (view (changed ch s)) →
    (∀ s' g', view s' = view (changed ch s) →
       (∀ ids, accounted ids g → accounted ids g') →
       wp k Q E (mkController s' act g')) →
    wp (set_snapshot ch ;;; k) Q E (mkController s act g).
  Proof.
    intros Hv Hk. apply snapshot_ok_intro in Hv. unfold snapshot_ok in Hv.
    unfold wp, set_snapshot, bind, get, lift, put_snapshot, emit, modify, ret. cbn. rewrite Hv.
    destruct (runtime_snapshot_eq (changed ch s) s) eqn:He; cbn.
    - apply Hk; [|done]. by rewrite (runtime_snapshot_eq_view _ _ He).
    - apply Hk; [done|]. intros ids. by apply accounted_snoc.
  Qed.
End steps.

(** The same for a computation that ends there. *)
Lemma wp_last (m : C unit) Q E c : wp (m ;;; ret tt) Q E c → wp m Q E c.
Proof. unfold wp, bind. destruct (m c) as [[[]|e] c']; done. Qed.

(** ** Emissions that say nothing about starts and ends of tasks *)

Lemma core_emit s a g x :
  core s a g → started_id x = None → finished_id x = None → core s a (g ++ [x]).
Proof. intros (Hv & Ha & Hg) Hs Hf. split; [done|split; [done|]]. by apply accounted_snoc. Qed.

(** ** The end of a task *)

Lemma wp_finish final ch result s a g E :
  view_ok (view (changed ch s)) → idle_ok (view (changed ch s)) →
  te_task_id result = ac_task_id a → accounted [ac_task_id a] g →
  wp (finish final ch result) (λ _ c, Inv c ∧ gc_active c = None) E (mkController s (Some a) g).
Proof.
  intros Hv Hi Hr Hg. pose proof (snapshot_ok_intro _ Hv) as Hok. unfold snapshot_ok in Hok.
  unfold wp, finish, bind, get, lift, put_active, put_snapshot, emit, modify, ret. cbn.
  rewrite Hok. cbn.
  destruct (runtime_snapshot_eq (changed ch s) s); cbn; (split; [|done]); cbn;
    (split; [done|split; [done|]]); apply accounted_finished; rewrite Hr;
    repeat (apply accounted_snoc; [done|done|]); done.
Qed.

Lemma wp_complete result state ch s a g E :
  state_ok (ac_task_id a) (ac_state a) → result_ok (ac_task_id a) result →
  view_ok (view (changed (completion_changes state ch) s)) →
  idle_ok (view (changed (completion_changes state ch) s)) →
  accounted [ac_task_id a] g →
  wp (complete result state ch) (λ _ c, Inv c ∧ gc_active c = None) E
    (mkController s (Some a) g).
Proof.
  intros Hs Hr Hv Hi Hg. unfold complete. apply wp_active, wp_bind, wp_lift.
  - intros final _. apply wp_finish; [done|done|by apply Hr|done].
  - intros e Hf. exfalso. rewrite (state_ok_post_init (ac_task_id a)) in Hf; [done|].
    split; cbn.
    + apply Hs.
    + apply Hs.
    + intros r [= <-]. apply Hr.
    + by apply result_own_error.
Qed.

Lemma finish_safe {A} (m : C A) c :
  wp m (λ _ c', Inv c' ∧ gc_active c' = None) (λ _ _, False) c → safe m c.
Proof. intros H. eapply wp_conseq; [done|by intros ? ? []|done]. Qed.

(** ** Fatal errors *)

Lemma fatal_task_result_ok s a g error :
  base s a g → ac_fatal_error a = Some error →
  match fatal_task_result a error with
  | Ok r => te_task_id r = ac_task_id a
  | Raise _ => foreign_error (ac_task_id a) (Some error) = true
  end.
Proof.
  intros ((_ & Ha & _) & _) He. unfold fatal_task_result.
  assert (H : match TaskExecutionResult_post_init
      (mkTaskResult (ac_task_id a) TaskFinalStatus.FAILED "Runtime failure" (ge_message error)
         [] NoPayload None (Some error) TaskCompletionAction.NONE (ts_cancel_requested (ac_state a)))
      with
      | Ok r => te_task_id r = ac_task_id a
      | Raise _ => foreign_error (ac_task_id a) (Some error) = true
      end).
  { unfold TaskExecutionResult_post_init. cbn.
    destruct (ge_task_id error) as [id|]; [|done].
    by destruct (bool_decide (id = ac_task_id a)). }
  destruct (ac_fatal_result a); [|done]. case_bool_decide; done.
Qed.

(** The connection stays recorded as it was. *)
Lemma view_ok_fatal v v' :
  view_ok v → vw_state v' = RuntimeState.ERROR → vw_info v' = vw_info v → vw_key v' = vw_key v →
  vw_cleanup v' = vw_cleanup v → vw_pending v' = false → fatal_view v' → view_ok v'.
Proof.
  intros [Hs _ _ _ _ _] Hst Hi Hk Hc Hp He.
  split; rewrite ?Hst; [|by intros [|]|done|done|done|by rewrite Hp].
  unfold no_connection, connected in *. by rewrite Hi, Hk, Hc.
Qed.

Lemma finalize_fatal_safe s a g error :
  base s a g → ac_fatal_error a = Some error → vw_pending (view s) = false →
  safe finalize_fatal (mkController s (Some a) g).
Proof.
  intros Hb He Hp. pose proof (fatal_task_result_ok _ _ _ _ Hb He) as Hr.
  assert (HInv : Inv (mkController s (Some a) g)).
  { split; [done|]. unfold waits. congruence. }
  assert (Hstuck : foreign_error (ac_task_id a) (Some error) = true →
                   Stuck (mkController s (Some a) g)).
  { intros H. exists a. split; [done|]. right. by exists error. }
  unfold safe, finalize_fatal. apply wp_bind, wp_get. cbn. rewrite He.
  destruct (ex_thread (ac_execution a)); [done|].
  apply wp_bind, wp_lift; intros x Hx; rewrite Hx in Hr; [|by auto].
  apply wp_bind, wp_lift; intros y Hy.
  - eapply wp_conseq; [apply (wp_finish _ _ _ _ _ _ (λ _ _, False))|by intros ? ? []|done].
    + destruct Hb as ((Hv & Ha & _) & _). apply (view_ok_fatal (view s)); try done.
      unfold fatal_view. cbn. by rewrite (ao_fatal _ _ Ha _ He).
    + cbn. split; [done|]. split; [done|auto].
    + done.
    + apply Hb.
  - split; [done|]. apply Hstuck. apply not_false_iff_true. intros Hn.
    rewrite (state_ok_post_init (ac_task_id a)) in Hy; [done|].
    destruct Hb as ((_ & Ha & _) & _). split; cbn; [apply Ha|apply Ha| |done].
    by intros r [= <-].
Qed.

Lemma base_fatal s a g error :
  base s a g → ge_disposition error = ErrorDisposition.RUNTIME_FATAL →
  base s (with_fatal_error error a) g.
Proof.
  intros ((Hv & [] & Hg) & Ht) He. split; [|done]. split; [done|split; [|done]].
  split; try done. cbn. by intros e [= <-].
Qed.

(** A new snapshot of a task with a fatal error. *)
Lemma core_fatal_view s s' a g g' error :
  core s a g → ac_fatal_error a = Some error →
  view_ok (view s') → vw_task (view s') = Some (ac_task_id a) → vw_pending (view s') = false →
  vw_pending (view s) = false → (∀ ids, accounted ids g → accounted ids g') → core s' a g'.
Proof.
  intros (Hv & [] & Hg) He Hv' Ht' Hp' Hp Hg'. split; [done|split; [|by auto]].
  split; try done.
  - by rewrite Hp'.
  - intros Ha. exfalso. specialize (ao_asks Ha). congruence.
  - congruence.
Qed.

Lemma enter_fatal_safe s a g error :
  base s a g → ge_disposition error = ErrorDisposition.RUNTIME_FATAL →
  safe (enter_fatal error) (mkController s (Some a) g).
Proof.
  intros Hb He. unfold safe, enter_fatal. apply wp_bind, wp_get. cbn.
  destruct (ac_fatal_error a) as [old|] eqn:Hold; cbn.
  { split; [done|]. unfold waits. by rewrite Hold. }
  apply (base_fatal _ _ _ error) in Hb; [|done].
  assert (Hf : ac_fatal_error (with_fatal_error error a) = Some error) by done.
  apply (wp_put_active _ _ s g a).
  destruct (vw_pending (view s)) eqn:Hp.
  - unfold set_snapshot. apply wp_bind, wp_bind, wp_get, wp_bind, wp_lift.
    + intros x Hx. pose proof (post_init_same _ _ Hx) as ->.
      exfalso. by apply snapshot_pending in Hx.
    + intros e _. split; [|by eexists; eauto].
      split; [done|]. unfold waits. by rewrite Hf.
  - apply wp_set_snapshot.
    + destruct Hb as ((Hv & _) & _). apply (view_ok_fatal (view s)); try done.
      unfold fatal_view. cbn. by rewrite He.
    + intros s' g' Hs' Hg'. apply wp_emit.
      assert (Hp' : vw_pending (view s') = false) by by rewrite Hs'.
      assert (Hb' : base s' (with_fatal_error error a) (g' ++ [runtimeErrorRaised error])).
      { split; [|apply Hb]. apply core_emit; [|done|done].
        apply (core_fatal_view s _ _ g _ error);
          [apply Hb|done| |by rewrite Hs'|done|done|done].
        destruct Hb as ((Hv & _) & _). rewrite Hs'. apply (view_ok_fatal (view s)); try done.
        unfold fatal_view. cbn. by rewrite He. }
      apply wp_if; intros _; [by eapply finalize_fatal_safe|].
      split; [done|]. unfold waits. by rewrite Hf.
Qed.

Lemma fatal_safe s a g code :
  base s a g → safe (fatal code) (mkController s (Some a) g).
Proof.
  intros Hb. exact (enter_fatal_safe _ _ _ (make_fatal code (Some (ac_task_id a))) Hb eq_refl).
Qed.

(** A fatal error without a task. *)
Lemma enter_fatal_idle s g error :
  Inv (mkController s None g) → ge_disposition error = ErrorDisposition.RUNTIME_FATAL →
  wp (enter_fatal error) (λ _ c, Inv c ∧ gc_active c = None) (λ _ _, False)
    (mkController s None g).
Proof.
  intros (Hv & (Ht & Hp & _) & Hg) He. unfold enter_fatal. apply wp_bind, wp_get. cbn.
  assert (Hok : view_ok (view (changed (mkChanges (Some RuntimeState.ERROR) (Some None) None None
            None None None (Some (Some error))) s))).
  { apply (view_ok_fatal (view s)); try done. unfold fatal_view. cbn. by rewrite He. }
  apply wp_set_snapshot; [done|].
  intros s' g' Hs' Hg'. split; [|done]. unfold Inv. cbn. rewrite Hs'.
  split; [done|]. split; [split; [done|split; [done|auto]]|]. apply accounted_snoc; auto.
Qed.

Lemma fatal_idle s g code :
  Inv (mkController s None g) → safe (fatal code) (mkController s None g).
Proof.
  intros H. apply finish_safe. exact (enter_fatal_idle _ _ (make_fatal code None) H eq_refl).
Qed.

(** ** Generations *)

(** Only the thread and the step change. *)
Lemma core_execution s a g e p :
  core s a g → ex_result e = ex_result (ac_execution a) →
  ex_result_received e = ex_result_received (ac_execution a) →
  (vw_pending (view s) = true → ex_thread_finished e = true) →
  core s (with_execution e (with_step p a)) g.
Proof.
  intros (Hv & [] & Hg) Hr Hd Hf. split; [done|split; [|done]].
  split; try done; cbn.
  - by rewrite Hr.
  - by rewrite Hr, Hd.
  - intros Hp. destruct (ao_pending Hp) as (? & ? & ? & _). auto.
Qed.

Lemma core_fresh s a g :
  core s a g → vw_pending (view s) = false → core s (fresh_generation a) g.
Proof.
  intros (Hv & [] & Hg) Hp. split; [done|split; [|done]].
  split; try done; cbn in *; congruence.
Qed.

Lemma core_state s a g state :
  core s a g → state_ok (ac_task_id a) state →
  ts_available_actions state = ts_available_actions (ac_state a) →
  core s (with_state state a) g.
Proof.
  intros (Hv & [] & Hg) Hs Hacts. split; [done|split; [|done]].
  unfold asks in *. split; try done; unfold asks; cbn; by rewrite Hacts.
Qed.

Lemma state_ok_like task_id s s' :
  state_ok task_id s → ts_task_id s' = ts_task_id s → ts_plan s' = ts_plan s →
  ts_result s' = ts_result s → ts_error s' = ts_error s → state_ok task_id s'.
Proof. intros [] H1 H2 H3 H4. split; by rewrite ?H1, ?H2, ?H3, ?H4. Qed.

(** The execution without its worker. *)
Definition discarded (e : Execution) : Execution :=
  mkExecution (ex_generation e) (ex_cancelled e) false false true (ex_result e)
    (ex_result_received e).

Lemma base_discarded s a g :
  core s a g → base s (with_execution (discarded (ac_execution a)) a) g.
Proof.
  intros H. split; [|by right].
  by apply (core_execution s a g (discarded (ac_execution a)) (ac_step a)) in H.
Qed.

Lemma submit_generation_safe qt s a g :
  core s a g → ex_thread (ac_execution a) = true → ex_thread_finished (ac_execution a) = false →
  safe (submit_generation qt) (mkController s (Some a) g).
Proof.
  intros Hb Ht Hf. unfold safe, submit_generation. apply wp_active, wp_if; intros _.
  - apply (wp_put_active _ _ s g a), wp_replace_state.
    { by apply (state_ok_like _ (ac_state a)); [apply Hb|..]. }
    split; [|intros _; by left].
    split; [apply core_emit; [|done|done]|by left].
    apply core_state; [|by apply (state_ok_like _ (ac_state a)); [apply Hb|..]|done].
    apply (core_execution s a g (thread_started (ac_execution a)) (ac_step a)); try done.
    intros Hp. destruct Hb as (_ & Ha & _). by destruct (ao_pending _ _ Ha Hp) as (_ & _ & _ & ?).
  - exact (enter_fatal_safe _ _ _ (make_fatal "QTHREAD_START_FAILED" (Some (ac_task_id a)))
             (base_discarded _ _ _ Hb) eq_refl).
Qed.

(** The worker could be created, or the old one is discarded. *)
Lemma wp_prepare_generation {A} qt (k : C A) s a g Q E :
  core s a g → vw_pending (view s) = false →
  (∀ a', core s a' g → ex_thread (ac_execution a') = true →
     ex_thread_finished (ac_execution a') = false → ac_task_id a' = ac_task_id a →
     wp k Q E (mkController s (Some a') g)) →
  (∀ e a', core s a' g → E e (mkController s (Some a') g)) →
  wp (prepare_generation qt ;;; k) Q E (mkController s (Some a) g).
Proof.
  intros Hb Hp Hk He. apply (core_fresh _ _ _) in Hb; [|done].
  unfold prepare_generation. apply wp_bind, wp_update_active, wp_if; intros _; [|by apply He].
  apply wp_last, wp_update_active, wp_ret.
  apply Hk; [|done|done|done].
  apply (core_execution s (fresh_generation a) g _ (ac_step (fresh_generation a))); try done.
  by rewrite Hp.
Qed.

Lemma run_generation_safe qt s a g :
  core s a g → vw_pending (view s) = false →
  safe (run_generation qt) (mkController s (Some a) g).
Proof.
  intros Hb Hp. apply wp_catch. apply wp_prepare_generation; [done|done|..].
  - intros a' Hb' Ht Hf _.
    eapply wp_conseq; [by apply (submit_generation_safe qt)|done|].
    intros e [s' [a''|] g'] [HInv (x & Hx & _)]; [|done].
    exact (fatal_safe _ _ _ _ (base_discarded _ _ _ (proj1 (proj1 HInv)))).
  - intros e a' Hb'. exact (fatal_safe _ _ _ _ (base_discarded _ _ _ Hb')).
Qed.

(** ** Admission *)

Lemma fatal_admission_safe s g code task_id :
  Inv (mkController s None g) → safe (fatal_admission code task_id) (mkController s None g).
Proof.
  intros H. unfold safe, fatal_admission. apply wp_bind. eapply wp_conseq.
  - exact (enter_fatal_idle _ _ (make_fatal code (Some task_id)) H eq_refl).
  - by intros _ c' [? _].
  - done.
Qed.

(** The snapshot of the task that starts. *)
Definition starting (runtime_state : RuntimeState) (task_id : string) : Changes :=
  mkChanges (Some runtime_state) (Some (Some task_id)) None None (Some false) None None None.

Definition new_active (task_id : string) (request : Request) (plan : TaskPlan) (kind : Kind)
    (origin : RuntimeState) : Active :=
  mkActive task_id request plan plan kind origin
    (TaskState_new task_id plan TaskPhase.PENDING TaskDispositionState.NONE)
    initial_execution None initial_step [] None None.

(** The task fits the state it is started in. *)
Definition admitted (s : RuntimeSnapshot) (kind : Kind) (runtime_state : RuntimeState)
    (plan : TaskPlan) (task_id : string) : Prop :=
  task_id <> EmptyString ∧
  view_ok (view (changed (starting runtime_state task_id) s)) ∧
  ∀ request, kind_fits (new_active task_id request plan kind (rs_state s))
               (view (changed (starting runtime_state task_id) s)).

Lemma start_task_safe qt request kind runtime_state plan s g :
  Inv (mkController s None g) → admitted s kind runtime_state plan (qt_task_id qt) →
  safe (start_task qt request kind runtime_state plan) (mkController s None g).
Proof.
  intros HInv (Hid & Hview & Hkind). unfold safe, start_task.
  set (id := qt_task_id qt) in *.
  destruct (TaskState_post_init _) as [state|] eqn:Hstate; [|by apply fatal_admission_safe].
  unfold TaskState_post_init in Hstate. cbn in Hstate.
  destruct (bool_decide _) eqn:Hplan in Hstate; [|done].
  apply bool_decide_eq_true in Hplan. injection Hstate as <-.
  destruct HInv as (Hv & Hi & Hg).
  apply wp_bind, wp_get. cbn.
  fold (new_active id request plan kind (rs_state s)).
  set (a := new_active id request plan kind (rs_state s)).
  assert (Hstart : ∀ s' g' a', a' = fresh_generation a →
    view s' = view (changed (starting runtime_state id) s) → accounted [] g' →
    safe (submit_generation qt ;;; ret (mkAdmission true (Some id) None None))
      (mkController s' (Some (with_execution (mkExecution 0 false true false false None false) a'))
         (g' ++ [taskStarted (ac_state a)]))).
  { intros s' g' a' -> Hs' Hg'. unfold safe. apply wp_bind.
    eapply wp_conseq; [apply submit_generation_safe; [|done|done]|done|done].
    unfold core. rewrite Hs'. split; [done|]. split; [|by apply accounted_started].
    split; try done; cbn.
    - by intros [?%elem_of_nil|?%elem_of_nil].
    - by intros ?%elem_of_nil.
    - intros _. apply (Hkind request). }
  apply (wp_bind (put_active _)).
  change (wp (prepared <- catch (prepare_generation qt ;;; ret true)
        (λ _, discard_unstarted_generation ;;; put_active None ;;; ret false) ;;
      if (prepared : bool) then
        set_snapshot (starting runtime_state id) ;;;
        emit (taskStarted (ac_state a)) ;;;
        submit_generation qt ;;;
        ret (mkAdmission true (Some id) None None)
      else fatal_admission "WORKER_STARTUP_FAILED" id)
    (λ _ c', Inv c') (λ _ c', Inv c' ∧ Stuck c') (mkController s (Some a) g)).
  apply wp_bind, wp_catch. unfold prepare_generation.
  apply wp_bind, wp_bind, wp_update_active, wp_if; intros _.
  - apply wp_last, wp_update_active, wp_ret, wp_ret.
    apply wp_set_snapshot; [done|]. intros s' g' Hs' Hg'. apply wp_emit.
    by apply (Hstart s' g' (fresh_generation a)); [|done|apply Hg'].
  - by apply (fatal_admission_safe s g).
Qed.

Lemma plan_of_task_id request task_id plan :
  plan_of request task_id = Some plan → pl_task_id plan = task_id.
Proof. unfold plan_of. repeat case_match; intros [= <-]; by eapply bool_decide_eq_true_1. Qed.

Lemma start_safe qt request kind runtime_state s g :
  Inv (mkController s None g) →
  (∀ plan, admitted s kind runtime_state plan (qt_task_id qt)) →
  safe (start qt request kind runtime_state) (mkController s None g).
Proof.
  intros H Ha. unfold start. destruct (plan_of _ _); [by apply start_task_safe|].
  by apply fatal_admission_safe.
Qed.

Lemma Inv_safe c (x : RequestAdmission) : Inv c → safe (ret x) c.
Proof. done. Qed.

Lemma reject_safe c code message : Inv c → safe (reject code message) c.
Proof.
  destruct c as [s [a|] g]; intros H.
  - destruct H as [[Hc Ht] Hw]. split; [split; [by apply core_emit|done]|done].
  - destruct H as (Hv & Hi & Hg). split; [done|split; [done|]]. by apply accounted_snoc.
Qed.

(** A task may start from a state without a task. *)
Lemma admitted_intro s kind runtime_state plan task_id :
  task_id <> EmptyString → view_ok (view s) → vw_pending (view s) = false →
  match kind with
  | Kind.CONNECT => runtime_state = RuntimeState.CONNECTING ∧ rs_state s = RuntimeState.DISCONNECTED
  | Kind.TASK =>
      runtime_state = RuntimeState.BUSY ∧
      (rs_state s = RuntimeState.CONNECTED
       ∨ rs_state s = RuntimeState.DISCONNECTED ∧
         pl_connection_requirement plan = TaskConnectionRequirement.NONE)
  | Kind.DISCONNECT | Kind.SHUTDOWN => runtime_state = RuntimeState.DISCONNECTING
  | Kind.INTERNAL_DISCONNECT => False
  end → admitted s kind runtime_state plan task_id.
Proof.
  intros Hid [Hs Hi Hd Hc He Hp] Hpe Hk. split; [done|].
  assert (Hr : runtime_state <> RuntimeState.DISCONNECTED ∧ runtime_state <> RuntimeState.CONNECTED
               ∧ runtime_state <> RuntimeState.ERROR)
    by (destruct kind; intuition congruence).
  destruct Hr as (Hr1 & Hr2 & Hr3). split.
  - split; cbn; [done| |done..].
    intros [?|?]; [done|]. apply Hi. left. destruct kind; intuition congruence.
  - intros request. unfold kind_fits.
    destruct kind; cbn; [by destruct Hk| |done|done|done].
    destruct Hk as [? [Hk|[Hk Hq]]]; (split; [done|]); [right|left].
    + split; [done|]. by apply Hc.
    + split; [done|]. split; [apply Hi; by left|]. split; [by apply Hd|done].
Qed.

Lemma request_connect_safe qt request c :
  qt_task_id qt <> EmptyString → Inv c → safe (request_connect qt request) c.
Proof.
  intros Hid H. unfold safe, request_connect. apply wp_bind, wp_get, wp_if; intros Ha;
    [by apply reject_safe|].
  apply wp_if; intros Hs; [by apply reject_safe|]. destruct c as [s [a|] g]; [done|].
  apply negb_false_iff, bool_decide_eq_true in Hs. apply start_safe; [done|].
  intros plan. destruct H as (Hv & (_ & Hp & _) & _). by apply admitted_intro.
Qed.

Lemma request_disconnect_safe qt request c :
  qt_task_id qt <> EmptyString → Inv c → safe (request_disconnect qt request) c.
Proof.
  intros Hid H. unfold safe, request_disconnect. apply wp_bind, wp_get, wp_if; intros Ha;
    [by apply reject_safe|].
  apply wp_if; intros Hs; [by apply reject_safe|]. destruct c as [s [a|] g]; [done|].
  apply start_safe; [done|].
  intros plan. destruct H as (Hv & (_ & Hp & _) & _). by apply admitted_intro.
Qed.

Lemma request_task_safe qt request c :
  qt_task_id qt <> EmptyString → Inv c → safe (request_task qt request) c.
Proof.
  intros Hid H. unfold safe, request_task. apply wp_bind, wp_get, wp_if; intros Ha;
    [by apply reject_safe|].
  destruct c as [s [a|] g]; [done|].
  destruct (plan_of _ _) as [plan|]; [|by apply fatal_admission_safe].
  apply wp_if; intros Hc; [by apply reject_safe|].
  apply wp_if; intros Hs; [by apply reject_safe|].
  apply start_task_safe; [done|]. destruct H as (Hv & (_ & Hp & _) & _).
  apply admitted_intro; [done..|]. split; [done|]. unfold state_is in *. cbn in *.
  apply negb_false_iff, orb_true_iff in Hs. rewrite !bool_decide_eq_true in Hs.
  destruct Hs as [Hs|Hs]; [right|by left]. split; [done|].
  rewrite Hs in Hc. cbn in Hc. destruct (pl_connection_requirement plan); done.
Qed.

Lemma request_cancel_safe task_id c : Inv c → safe (request_cancel task_id) c.
Proof.
  destruct c as [s [a|] g]; intros H; [|done].
  unfold safe, request_cancel. apply wp_bind, wp_get. cbn.
  do 4 (apply wp_if; intros _; [done|]).
  destruct H as [[Hc Ht] Hw].
  assert (Hs : state_ok (ac_task_id a) (cancelling (ac_state a)))
    by by apply (state_ok_like _ (ac_state a)); [apply Hc|..].
  apply (wp_put_active _ _ s g a), wp_replace_state, wp_emit_state; [done|].
  split; [|done]. split; [|done]. apply core_emit; [|done|done].
  apply core_state; [|done|done].
  apply (core_execution s a g _ (ac_step a)); [done..|]. apply Hc.
Qed.

(** ** Progress *)

Lemma Inv_step s a g p :
  Inv (mkController s (Some a) g) → Inv (mkController s (Some (with_step p a)) g).
Proof.
  intros [[Hc Ht] Hw]. split; [|done]. split; [|done].
  apply (core_execution s a g (ac_execution a) p); [done..|].
  intros Hp. destruct Hc as (_ & Ha & _). by destruct (ao_pending _ _ Ha Hp) as (_ & _ & _ & ?).
Qed.

Lemma validate_progress_value_index u p :
  match validate_progress_value u p with
  | Ok p' => xp_index p' = xp_index p
  | Raise e => isinstance e ValueError = true
  end.
Proof.
  unfold validate_progress_value.
  destruct (tu_progress_mode u); [by destruct (isSome _ || _ || _)|].
  destruct (tu_current u), (tu_total u); try done.
  destruct (_ || negb _); [done|]. by destruct (_ && (_ || _)).
Qed.

Lemma wp_validate u (s : RuntimeSnapshot) a g (Q : unit → Controller → Prop)
    (E : Exn → Controller → Prop) :
  (∀ p, xp_index p = xp_index (ac_step a) → Q tt (mkController s (Some (with_step p a)) g)) →
  (∀ e, isinstance e ValueError = true → E e (mkController s (Some a) g)) →
  wp (a <- active ;;
      p <- lift (validate_progress_value u (ac_step a)) ;;
      put_active (Some (with_step p a))) Q E (mkController s (Some a) g).
Proof.
  intros HQ HE. apply wp_active. pose proof (validate_progress_value_index u (ac_step a)) as H.
  apply wp_bind, wp_lift; intros x Hx; rewrite Hx in H; [by apply HQ|by apply HE].
Qed.

Lemma advance_step_spec u steps s a g :
  wp (advance_step u steps)
    (λ _ c', ∃ p, c' = mkController s (Some (with_step p a)) g
                  ∧ isSome (step_at steps (xp_index p)) = true)
    (λ e c', isinstance e ValueError = true ∧ ∃ p, c' = mkController s (Some (with_step p a)) g)
    (mkController s (Some a) g).
Proof.
  assert (Hstep : ∀ p p', with_step p' (with_step p a) = with_step p' a) by done.
  assert (Ha : with_step (ac_step a) a = a) by by destruct a.
  unfold advance_step. apply wp_active. destruct (tu_step_state u).
  - destruct (step_at steps (xp_index (ac_step a) + 1)) as [step|] eqn:Hn; cbn;
      [|rewrite orb_true_r; split; [done|]; exists (ac_step a); by rewrite Ha].
    apply wp_if; intros _; [split; [done|]; exists (ac_step a); by rewrite Ha|].
    apply (wp_put_active _ _ s g a), wp_validate.
    + intros p Hp. exists p. split; [done|]. cbn in Hp. by rewrite Hp, Hn.
    + intros e He. split; [done|]. by eexists.
  - apply wp_if; intros Hin; [|split; [done|]; exists (ac_step a); by rewrite Ha].
    unfold in_step in Hin. apply andb_true_iff in Hin as [_ Hin].
    apply wp_validate.
    + intros p Hp. exists p. split; [done|]. rewrite Hp. by destruct (step_at _ _).
    + intros e He. split; [done|]. exists (ac_step a). by rewrite Ha.
  - apply wp_if; intros Hin; [|split; [done|]; exists (ac_step a); by rewrite Ha].
    unfold in_step in Hin. apply andb_true_iff in Hin as [_ Hin].
    apply wp_bind, wp_validate.
    + intros p Hp. apply wp_last, wp_update_active, wp_ret. eexists. split; [done|]. cbn.
      rewrite Hp. by destruct (step_at _ _).
    + intros e He. split; [done|]. exists (ac_step a). by rewrite Ha.
Qed.

Lemma apply_progress_safe update s a g :
  Inv (mkController s (Some a) g) →
  wp (apply_progress update) (λ _ c', Inv c')
    (λ e c', isinstance e ValueError = true ∧ ∃ a', gc_active c' = Some a' ∧ Inv c')
    (mkController s (Some a) g).
Proof.
  intros HInv. unfold apply_progress. apply wp_active.
  destruct update as [u|]; [|by split; [done|exists a]].
  apply wp_if; intros _; [by split; [done|exists a]|].
  apply wp_bind. eapply wp_conseq; [apply advance_step_spec| |].
  - intros _ c' (p & -> & Hp). apply wp_active. apply (Inv_step _ _ _ p) in HInv.
    change (ac_step (with_step p a)) with p.
    destruct (step_at _ _) as [step|]; [|done].
    destruct HInv as [[Hc Ht] Hw]. cbn [gc_snapshot gc_signals] in Hc.
    set (f := progressed _ _ _ _).
    assert (Hs : state_ok (ac_task_id a) (f (ac_state a)))
      by by apply (state_ok_like _ (ac_state a)); [apply Hc|..].
    apply wp_replace_state; [done|]. apply wp_emit, wp_last, wp_emit_state, wp_ret.
    split; [|done]. split; [|done].
    do 2 (apply core_emit; [|done|done]). by apply core_state.
  - intros e c' (He & p & ->). split; [done|]. eexists. split; [done|]. by apply Inv_step.
Qed.

Lemma on_progress_safe message c : Inv c → safe (on_progress message) c.
Proof.
  intros H. unfold safe, on_progress. apply wp_bind, wp_get.
  destruct c as [s [a|] g].
  - assert (Hf : ∀ code, safe (fatal code) (mkController s (Some a) g))
      by (intros code; by apply fatal_safe, H).
    destruct message as [m|]; [|apply Hf]. cbn.
    apply wp_if; intros _; [apply Hf|]. apply wp_if; intros _; [done|].
    apply wp_if; intros _; [done|]. apply wp_if; intros _; [apply Hf|].
    apply wp_catch. eapply wp_conseq; [by apply apply_progress_safe|done|].
    intros e [s' [a'|] g'] (He & x & Hx & HInv); [|done]. rewrite He.
    by apply fatal_safe, HInv.
  - destruct message; by apply fatal_idle.
Qed.

(** ** Results *)

Lemma view_ok_disconnected v :
  vw_state v = RuntimeState.DISCONNECTED → no_connection v → vw_suspect v = false →
  vw_pending v = false → view_ok v.
Proof.
  intros Hs Hn Hu Hp. split; rewrite ?Hs, ?Hp; try done. by left.
Qed.

Lemma view_ok_connected v :
  vw_state v = RuntimeState.CONNECTED → connected v → vw_pending v = false → view_ok v.
Proof.
  intros Hs Hc Hp. split; rewrite ?Hs, ?Hp; try done; [by right|by intros [|]].
Qed.

Lemma idle_ok_disconnected v :
  vw_state v = RuntimeState.DISCONNECTED → vw_task v = None → vw_pending v = false → idle_ok v.
Proof. intros. split; [done|split; [done|by left]]. Qed.

Lemma idle_ok_connected v :
  vw_state v = RuntimeState.CONNECTED → vw_task v = None → vw_pending v = false → idle_ok v.
Proof. intros. split; [done|split; [done|right; by left]]. Qed.

Lemma complete_disconnected s a g result cleanup_pending error :
  core s a g → result_ok (ac_task_id a) result →
  safe (complete result RuntimeState.DISCONNECTED (disconnected_changes cleanup_pending error))
    (mkController s (Some a) g).
Proof.
  intros (Hv & Ha & Hg) Hr. apply finish_safe, wp_complete; [apply Ha|done| | |done].
  - by apply view_ok_disconnected.
  - by apply idle_ok_disconnected.
Qed.

Lemma complete_connected s a g result ch :
  core s a g → result_ok (ac_task_id a) result →
  connected (view (changed (completion_changes RuntimeState.CONNECTED ch) s)) →
  ch_state ch = None → ch_active_task_id ch = None →
  ch_disconnect_decision_pending ch = None ∨ ch_disconnect_decision_pending ch = Some false →
  safe (complete result RuntimeState.CONNECTED ch) (mkController s (Some a) g).
Proof.
  intros (Hv & Ha & Hg) Hr Hc Hs Ht Hp. apply finish_safe, wp_complete; [apply Ha|done| | |done].
  - apply view_ok_connected; [cbn; by rewrite Hs|done|]. cbn. by destruct Hp as [->| ->].
  - apply idle_ok_connected; cbn; [by rewrite Hs|by rewrite Ht|]. by destruct Hp as [->| ->].
Qed.

Lemma finish_connect_safe s a g result :
  base s a g → result_ok (ac_task_id a) result →
  safe (finish_connect result) (mkController s (Some a) g).
Proof.
  intros Hb Hr. unfold safe, finish_connect. apply wp_if; intros _; [by apply fatal_safe|].
  apply wp_if; intros _; [|by apply complete_disconnected; [apply Hb|]].
  destruct (te_payload result); try by apply fatal_safe.
  apply wp_if; intros Hk; [|by apply fatal_safe].
  apply complete_connected; try done; [apply Hb| |by left].
  exists (ci_target_key info). split; [done|]. split; [done|]. split; [|done].
  by apply bool_decide_eq_true in Hk.
Qed.

(** The checks of a result. *)
Lemma result_checks r :
  TaskExecutionResult_post_init r = Ok r ↔
  is_status r TaskFinalStatus.FAILED = isSome (te_error r)
  ∧ (cancelled_status r = true → te_cancel_requested r = true)
  ∧ foreign_error (te_task_id r) (te_error r) = false
  ∧ (is_status r TaskFinalStatus.FAILED = true → te_warning r = None)
  ∧ (releases r = true → successful r = true).
Proof.
  unfold TaskExecutionResult_post_init, cancelled_status, releases, foreign_error.
  set (x := match te_error r with Some _ => _ | None => false end).
  set (rel := bool_decide (te_completion_action r = _)).
  destruct (is_status r TaskFinalStatus.FAILED), (te_error r) as [e|], (te_warning r) as [w|],
    (is_status r TaskFinalStatus.CANCELLED || _), (te_cancel_requested r), x, rel, (successful r);
    cbn; intuition (done || congruence).
Qed.

(** Another list of step results, and an error and a warning of the same
    kind. *)
Lemma result_ok_evidence task_id r evidence warning error :
  result_ok task_id r →
  isSome error = isSome (te_error r) → foreign_error task_id error = false →
  (is_status r TaskFinalStatus.FAILED = true → warning = None) →
  (∀ e, error = Some e → GuiRuntimeError_post_init e = Ok e) →
  ∃ r', with_evidence_of evidence warning error r = Ok r' ∧ result_ok task_id r'.
Proof.
  intros [Hc <- _] Hse Hf Hw He. apply result_checks in Hc as (H1 & H2 & _ & _ & H5).
  unfold with_evidence_of. set (r' := mkTaskResult _ _ _ _ _ _ _ _ _ _).
  assert (Hr : TaskExecutionResult_post_init r' = Ok r').
  { apply result_checks. split; [|done]. cbn. rewrite Hse. apply H1. }
  exists r'. split; [done|]. by split.
Qed.

Lemma with_details_ok details e :
  GuiRuntimeError_post_init e = Ok e →
  ∃ e', with_details details e = Ok e' ∧ GuiRuntimeError_post_init e' = Ok e'
        ∧ ge_task_id e' = ge_task_id e.
Proof.
  intros H. unfold with_details, GuiRuntimeError_post_init in *. passed H. cbn.
  rewrite Heqb, Heqb0. eexists. split; [done|]. cbn. by rewrite Heqb, Heqb0.
Qed.

(** The result of a task whose connection was released. *)
Lemma released_result_ok task_id primary cleanup :
  result_ok task_id primary →
  ∃ r, released_result primary cleanup = Ok r ∧ result_ok task_id r.
Proof.
  intros Hp. pose proof (result_own_error _ _ Hp) as Hf. pose proof (ro_error _ _ Hp) as He.
  pose proof Hp as [Hc _ _]. apply result_checks in Hc as (H1 & _ & _ & H4 & _).
  unfold released_result. destruct (successful primary) eqn:Hs.
  - apply result_ok_evidence; [done..| |done]. intros Hfail.
    unfold successful, is_status in *. by destruct (te_status primary).
  - destruct (te_error primary) as [e|] eqn:Hpe; [|by apply result_ok_evidence; rewrite ?Hpe].
    destruct (negb _); [|by apply result_ok_evidence; rewrite ?Hpe].
    set (details := dict_set _ _ _).
    destruct (with_details_ok details e (He _ eq_refl)) as (e' & -> & He' & Hid).
    apply result_ok_evidence; [done|by rewrite Hpe| |done|by intros ? [= <-]].
    unfold foreign_error in *. by rewrite Hid.
Qed.

(** The plan of a release or a shutdown. *)
Lemma cleanup_plan title step_id task_id :
  title <> EmptyString → step_id <> EmptyString → task_id <> EmptyString →
  ∃ plan, rq_create_plan (CleanupRequest title step_id) task_id = Ok (Some plan)
          ∧ pl_task_id plan = task_id.
Proof.
  intros Ht Hs Hi. cbn. unfold task_plan. cbn. unfold TaskStepPlan_post_init. cbn.
  rewrite !bool_decide_eq_false_2 by done. cbn. unfold TaskPlan_post_init. cbn.
  rewrite !bool_decide_eq_false_2 by done. cbn. by eexists.
Qed.

Lemma wp_restart kind title step_id disposition (k : C unit) s a g Q E :
  title <> EmptyString → step_id <> EmptyString → ac_task_id a <> EmptyString →
  (∀ plan, pl_task_id plan = ac_task_id a →
     wp k Q E (mkController s (Some (restarted kind (CleanupRequest title step_id) plan
       (TaskState_new (ac_task_id a) plan TaskPhase.PENDING disposition) a)) g)) →
  wp (restart kind (CleanupRequest title step_id) disposition ;;; k) Q E
    (mkController s (Some a) g).
Proof.
  intros Ht Hs Hi Hk. destruct (cleanup_plan _ _ _ Ht Hs Hi) as (plan & Hp & Hid).
  apply wp_bind. unfold restart. apply wp_active. rewrite Hp.
  apply wp_bind, wp_lift; intros x Hx.
  - rewrite (state_ok_post_init (ac_task_id a)) in Hx by done. injection Hx as <-. by apply Hk.
  - by rewrite (state_ok_post_init (ac_task_id a)) in Hx.
Qed.

(** The task of another job, in a snapshot that it fits. *)
Lemma core_restarted s s' a g g' kind request plan disposition :
  core s a g → pl_task_id plan = ac_task_id a → view_ok (view s') →
  vw_task (view s') = Some (ac_task_id a) → vw_pending (view s') = false →
  (∀ ids, accounted ids g → accounted ids g') →
  let a' := restarted kind request plan
              (TaskState_new (ac_task_id a) plan TaskPhase.PENDING disposition) a in
  (ac_fatal_error a = None → kind_fits a' (view s')) → core s' a' g'.
Proof.
  intros (Hv & [] & Hg) Hp Hv' Ht Hpe Hg' a' Hk. split; [done|split; [|by apply Hg']].
  split; try done.
  - by rewrite Hpe.
  - by intros [?%elem_of_nil|?%elem_of_nil].
  - by intros ?%elem_of_nil.
Qed.

(** The release of the connection, from a task that may also wait for the
    decision of the user. *)
Lemma begin_internal_disconnect_safe qt s a g :
  core s a g → isSome (ac_primary_result a) = true → connected (view s) →
  safe (begin_internal_disconnect qt) (mkController s (Some a) g).
Proof.
  intros Hc Hp Hcon. unfold safe, begin_internal_disconnect, release_request.
  apply wp_restart; [done|done|apply Hc|]. intros plan Hplan.
  set (a' := restarted _ _ _ _ _).
  assert (Hview : view_ok (view (changed (mkChanges (Some RuntimeState.DISCONNECTING) None None None
            (Some false) None None None) s))).
  { split; cbn; try done; [by right|by intros [|]]. }
  apply wp_set_snapshot; [done|]. intros s' g' Hs' Hg'.
  apply wp_emit_state, run_generation_safe; [|by rewrite Hs'].
  apply core_emit; [|done|done]. apply (core_restarted s _ _ g); try done; rewrite ?Hs'; try done.
  apply Hc.
Qed.

Lemma finish_disconnect_safe s a g result :
  base s a g → result_ok (ac_task_id a) result →
  (ac_kind a = Kind.DISCONNECT ∨ isSome (ac_primary_result a) = true) →
  safe (finish_disconnect result) (mkController s (Some a) g).
Proof.
  intros Hb Hr Hk. unfold safe, finish_disconnect. apply wp_active.
  apply wp_if; intros Hd.
  - apply wp_if; intros _; [by apply fatal_safe|]. by apply complete_disconnected; [apply Hb|].
  - apply wp_if; intros _; [by apply fatal_safe|].
    apply bool_decide_eq_false in Hd. destruct Hk as [|Hk]; [done|].
    destruct (ac_primary_result a) as [primary|] eqn:Hp; [|done].
    destruct (released_result_ok (ac_task_id a) primary result) as (final & Hf & Hok).
    { destruct Hb as ((_ & Ha & _) & _). by apply (ao_primary _ _ Ha). }
    rewrite Hf. apply complete_disconnected; [apply Hb|done].
Qed.

Lemma core_primary s a g r :
  core s a g → result_ok (ac_task_id a) r → core s (with_primary_result r a) g.
Proof.
  intros (Hv & [] & Hg) Hr. split; [done|split; [|done]]. split; try done; cbn.
  - by intros ? [= <-].
  - intros Hp. destruct (ao_pending Hp) as (? & ? & ? & ?). auto.
  - intros Hf. specialize (ao_kind Hf). unfold kind_fits in *. cbn in *.
    destruct (ac_kind a); try done. by destruct ao_kind.
Qed.

(** Another state of the task and another snapshot. *)
Lemma core_change s s' a g g' state :
  core s a g → state_ok (ac_task_id a) state → view_ok (view s') →
  vw_task (view s') = Some (ac_task_id a) →
  (vw_pending (view s') = true →
     ac_kind a = Kind.TASK ∧ connected (view s') ∧ isSome (ac_primary_result a) = true ∧
     ex_thread_finished (ac_execution a) = true) →
  (asks (with_state state a) → vw_pending (view s') = true) →
  (TaskDialogAction.RETRY_CLEANUP ∈ ts_available_actions state → ac_kind a = Kind.SHUTDOWN) →
  (ac_fatal_error a = None → kind_fits a (view s')) →
  (∀ ids, accounted ids g → accounted ids g') → core s' (with_state state a) g'.
Proof. intros (Hv & [] & Hg). intros. split; [done|split; [|by auto]]. by split. Qed.

Lemma finish_shutdown_safe s a g result :
  base s a g → result_ok (ac_task_id a) result → ac_kind a = Kind.SHUTDOWN →
  safe (finish_shutdown result) (mkController s (Some a) g).
Proof.
  intros Hb Hr Hk. pose proof Hb as ((Hv & Ha & Hg) & Ht).
  unfold safe, finish_shutdown. apply wp_if; intros _; [by apply fatal_safe|].
  apply wp_if; intros _.
  - apply wp_bind. eapply wp_conseq; [apply (wp_complete _ _ _ _ _ _ (λ _ _, False))| |done].
    + apply Ha.
    + done.
    + by apply view_ok_disconnected.
    + by apply idle_ok_disconnected.
    + done.
    + intros _ [s' act g'] [HInv Hact]. cbn in Hact. subst act.
      destruct HInv as (Hv' & Hi' & Hg'). split; [done|split; [done|]]. by apply accounted_snoc.
  - assert (Hpe : vw_pending (view s) = false).
    { apply not_true_iff_false. intros Hp. destruct (ao_pending _ _ Ha Hp) as [? _]. congruence. }
    assert (Hs : state_ok (ac_task_id a) (shutdown_failed result (ac_state a))).
    { split; cbn; [apply Ha|apply Ha|by intros r [= <-]; apply Hr|by apply result_own_error]. }
    apply wp_update_active, wp_replace_state; [done|]. apply wp_set_snapshot.
    { split; cbn; try done; [by left|by cbn in Hpe; rewrite Hpe]. }
    intros s' g' Hs' Hg'. apply wp_last, wp_emit_state, wp_ret. split; [|intros _; by right].
    split; [|done]. apply core_emit; [|done|done].
    apply (core_change s s' (with_primary_result result a) g g'); try done; rewrite ?Hs'.
    + by apply core_primary.
    + split; cbn; try done; [by left|by cbn in Hpe; rewrite Hpe].
    + apply Ha.
    + intros Hp. cbn in Hp, Hpe. congruence.
    + unfold asks. cbn. clear. set_solver.
    + intros _. unfold kind_fits. cbn. by rewrite Hk.
Qed.

Lemma finish_local s a g result :
  base s a g → result_ok (ac_task_id a) result → ac_kind a = Kind.TASK →
  ac_fatal_error a = None →
  safe (complete result (ac_origin a) no_changes) (mkController s (Some a) g).
Proof.
  intros Hb Hr Hk Hf. destruct Hb as (Hc & _). pose proof Hc as (Hv & Ha & Hg).
  pose proof (ao_kind _ _ Ha Hf) as Hfit. unfold kind_fits in Hfit. rewrite Hk in Hfit.
  destruct Hfit as [_ [(-> & Hn & Hu & _)|(-> & Hcon)]].
  - apply finish_safe, wp_complete; [apply Ha|done| | |done].
    + by apply view_ok_disconnected.
    + by apply idle_ok_disconnected.
  - apply complete_connected; try done. by left.
Qed.

Lemma ask_decision_safe s a g result :
  base s a g → result_ok (ac_task_id a) result → ac_kind a = Kind.TASK →
  ac_fatal_error a = None → ex_thread_finished (ac_execution a) = true → connected (view s) →
  isSome (ac_primary_result a) = true →
  safe (replace_state (awaiting_decision result) ;;;
        set_snapshot (mkChanges (Some RuntimeState.BUSY) None None (Some true) (Some true) None None
                        None) ;;;
        emit_state) (mkController s (Some a) g).
Proof.
  intros Hb Hr Hk Hf Hfin Hcon Hp. pose proof Hb as ((Hv & Ha & Hg) & Ht).
  pose proof (ao_kind _ _ Ha Hf) as Hfit. unfold kind_fits in Hfit. rewrite Hk in Hfit.
  assert (Horigin : ac_origin a = RuntimeState.CONNECTED).
  { destruct Hfit as [_ [(_ & [Hn _] & _)|(Ho & _)]]; [|done].
    destruct Hcon as (key & Hi & _). congruence. }
  assert (Hs : state_ok (ac_task_id a) (awaiting_decision result (ac_state a))).
  { split; cbn; [apply Ha|apply Ha|by intros r [= <-]; apply Hr|by apply result_own_error]. }
  assert (Hview : view_ok (view (changed (mkChanges (Some RuntimeState.BUSY) None None (Some true)
            (Some true) None None None) s))).
  { split; cbn; try done; [by right|by intros [|]|].
    intros _. split; [done|split; [done|]]. exists (ac_task_id a). by split; apply Ha. }
  apply wp_replace_state; [done|]. apply wp_set_snapshot; [done|].
  intros s' g' Hs' Hg'. apply wp_last, wp_emit_state, wp_ret. split; [|intros _; by right].
  split; [|done]. apply core_emit; [|done|done].
  apply (core_change s s' a g g'); try done; rewrite ?Hs'; try done; [apply Ha|cbn; clear; set_solver|].
  intros _. unfold kind_fits. cbn. rewrite Hk. split; [done|by right].
Qed.

Lemma finish_task_safe qt s a g result :
  base s a g → result_ok (ac_task_id a) result → ac_kind a = Kind.TASK →
  ac_fatal_error a = None → ex_thread_finished (ac_execution a) = true →
  safe (finish_task qt result) (mkController s (Some a) g).
Proof.
  intros Hb Hr Hk Hf Hfin. unfold safe, finish_task. apply wp_update_active, wp_active.
  assert (Hb' : base s (with_primary_result result a) g)
    by (split; [by apply core_primary; [apply Hb|]|apply Hb]).
  destruct (bool_decide _) eqn:Hq.
  { apply wp_if; intros _; [by apply fatal_safe|].
    by apply (finish_local s (with_primary_result result a)). }
  assert (Hcon : connected (view s)).
  { destruct Hb as ((_ & Ha & _) & _). pose proof (ao_kind _ _ Ha Hf) as Hfit.
    unfold kind_fits in Hfit. rewrite Hk in Hfit. apply bool_decide_eq_false in Hq.
    by destruct Hfit as [_ [(_ & _ & _ & ?)|[_ ?]]]. }
  apply wp_if; intros _; [by apply (ask_decision_safe s (with_primary_result result a))|].
  apply wp_if; intros _; [by apply begin_internal_disconnect_safe; [apply Hb'|..]|].
  apply wp_if; intros _; [by apply (complete_disconnected s (with_primary_result result a));
    [apply Hb'|]|].
  apply (complete_connected s (with_primary_result result a)); try done; [apply Hb'|by left].
Qed.

Lemma maybe_finish_safe qt s a g :
  base s a g → ac_fatal_error a = None →
  (waits a ∨ ex_thread_finished (ac_execution a) && ex_result_received (ac_execution a) = true) →
  safe (maybe_finish qt) (mkController s (Some a) g).
Proof.
  intros Hb Hf Hw. pose proof Hb as ((Hv & Ha & Hg) & Ht).
  unfold safe, maybe_finish. apply wp_bind, wp_get. cbn.
  destruct (ex_result_received _ && ex_thread_finished _) eqn:Hend; cbn.
  2:{ split; [done|]. destruct Hw as [|Hw]; [done|]. rewrite andb_comm in Hw. congruence. }
  apply andb_true_iff in Hend as [Hrec Hfin]. pose proof (ao_received _ _ Ha Hrec) as Hres.
  destruct (ex_result (ac_execution a)) as [result|] eqn:Hr; [|done].
  apply (ao_result _ _ Ha) in Hr.
  apply wp_if; intros _; [by apply fatal_safe|].
  assert (Hkinds : safe (match ac_kind a with
      | Kind.CONNECT => finish_connect result
      | Kind.DISCONNECT | Kind.INTERNAL_DISCONNECT => finish_disconnect result
      | Kind.SHUTDOWN => finish_shutdown result
      | Kind.TASK => finish_task qt result
      end) (mkController s (Some a) g)).
  { pose proof (ao_kind _ _ Ha Hf) as Hk. unfold kind_fits in Hk. destruct (ac_kind a) eqn:Hkind.
    - by apply finish_connect_safe.
    - by apply finish_task_safe.
    - apply finish_disconnect_safe; auto.
    - by apply finish_shutdown_safe.
    - apply finish_disconnect_safe; [done|done|]. right. apply Hk. }
  destruct (te_error result) as [error|] eqn:He; [|done].
  case_bool_decide as Hd; [|done].
  apply (wp_put_active _ _ s g a), (enter_fatal_safe s (with_fatal_result result a)); [|done].
  split; [|done]. split; [done|split; [|done]]. destruct Ha. split; try done.
  cbn. by intros r [= <-].
Qed.

Lemma on_result_safe qt message c :
  Inv c → (∀ m r, message = Some m → wr_result m = Some r → result_ok (te_task_id r) r) →
  safe (on_result qt message) c.
Proof.
  intros H Hm. unfold safe, on_result. apply wp_bind, wp_get.
  destruct c as [s [a|] g]; [|destruct message; by apply fatal_idle].
  assert (Hf : ∀ code, safe (fatal code) (mkController s (Some a) g))
    by (intros code; by apply fatal_safe, H).
  destruct message as [m|]; [|apply Hf]. cbn.
  apply wp_if; intros _; [apply Hf|]. apply wp_if; intros _; [done|].
  apply wp_if; intros Hfatal; [done|]. apply wp_if; intros Hdup; [apply Hf|].
  destruct (wr_result m) as [result|] eqn:Hr; [|apply Hf].
  apply wp_if; intros Hid; [apply Hf|].
  apply negb_false_iff, bool_decide_eq_true in Hid.
  destruct H as [[(Hv & Ha & Hg) Ht] Hw].
  assert (Hnone : ac_fatal_error a = None) by by destruct (ac_fatal_error a).
  apply (wp_put_active _ _ s g a), maybe_finish_safe; [|done|by left].
  split; [|done]. split; [done|split; [|done]]. destruct Ha. split; try done.
  cbn. intros r [= <-]. rewrite <-Hid. by apply (Hm m).
Qed.

Lemma on_thread_finished_safe qt generation c :
  Inv c →
  (∀ a, gc_active c = Some a → generation = ex_generation (ac_execution a) →
     ex_thread (ac_execution a) = true) →
  safe (on_thread_finished qt generation) c.
Proof.
  intros H Hthread. unfold safe, on_thread_finished. apply wp_bind, wp_get.
  destruct c as [s [a|] g]; [|done]. cbn.
  apply wp_if; intros _; [done|]. apply wp_if; intros Hgen; [by apply fatal_safe, H|].
  apply negb_false_iff, Z.eqb_eq in Hgen. specialize (Hthread a eq_refl Hgen).
  destruct H as [[(Hv & Ha & Hg) Ht] Hw]. cbn [gc_snapshot gc_signals] in *.
  assert (Hfin : ex_thread_finished (ac_execution a) = false).
  { destruct Ht as [(_ & _ & ?)|[? _]]; [done|congruence]. }
  assert (Hpe : vw_pending (view s) = false).
  { apply not_true_iff_false. intros Hp.
    destruct (ao_pending _ _ Ha Hp) as (_ & _ & _ & ?). congruence. }
  match goal with |- context [with_execution ?e a] => set (e' := e) end.
  assert (Hb : base s (with_execution e' a) g).
  { split; [|by right]. by apply (core_execution s a g e' (ac_step a)). }
  apply (wp_put_active _ _ s g a), wp_if; intros Hfatal.
  - destruct (ac_fatal_error a) as [error|] eqn:He; [|done].
    by apply (finalize_fatal_safe s (with_execution e' a) g error).
  - apply wp_if; intros Hrec; [by apply fatal_safe|].
    apply maybe_finish_safe; [done|by destruct (ac_fatal_error a) eqn:E; [|rewrite <-E]|].
    right. by apply negb_false_iff in Hrec.
Qed.

(** ** Decisions of the user *)

Lemma core_actions s a g actions : core s a g → core s (with_actions actions a) g.
Proof. intros (Hv & [] & Hg). split; [done|split; [by split|done]]. Qed.

Lemma respond_task_action_safe qt task_id action c :
  Inv c → safe (respond_task_action qt task_id action) c.
Proof.
  intros H. unfold safe, respond_task_action. apply wp_bind, wp_get.
  destruct c as [s [a|] g]; [|done]. cbn.
  apply wp_if; intros _; [done|]. apply wp_if; intros _; [done|].
  apply wp_if; intros Hin; [done|]. apply negb_false_iff, bool_decide_eq_true in Hin.
  destruct H as [[Hc Ht] Hw]. cbn [gc_snapshot gc_signals] in *.
  pose proof (core_actions s a g (action :: ac_actions a) Hc) as Hc'.
  pose proof Hc as (Hv & Ha & Hg).
  set (a' := with_actions (action :: ac_actions a) a) in *.
  apply (wp_put_active _ _ s g a).
  assert (Hask : asks a → isSome (ac_primary_result a) = true ∧ connected (view s)).
  { intros Hasks. by destruct (ao_pending _ _ Ha (ao_asks _ _ Ha Hasks)) as (_ & ? & ? & _). }
  apply wp_bind, (wp_conseq _ (λ _ c', Inv c') _ (λ _ c', Inv c' ∧ Stuck c')); [|done..].
  destruct action.
  - destruct Hask as [Hp Hcon]; [by right|]. by apply (begin_internal_disconnect_safe qt s a').
  - destruct Hask as [Hp Hcon]; [by left|].
    destruct (ac_primary_result a) as [primary|] eqn:Hprimary; [|done].
    apply (ao_primary _ _ Ha) in Hprimary.
    apply (complete_connected s a'); try done. by right.
  - pose proof (ao_retry _ _ Ha Hin) as Hk.
    assert (Hpe : vw_pending (view s) = false).
    { apply not_true_iff_false. intros Hp. destruct (ao_pending _ _ Ha Hp). congruence. }
    apply (wp_restart Kind.SHUTDOWN "Shutdown" "shutdown"); [done|done|apply Ha|].
    intros plan Hplan. apply wp_update_active, wp_emit_state, run_generation_safe; [|done].
    apply core_emit; [|done|done]. apply core_actions.
    apply (core_restarted s s a' g); try done; [apply Ha|].
    intros Hf. pose proof (ao_kind _ _ Ha Hf) as Hfit. unfold kind_fits in *. by rewrite Hk in Hfit.
  - split; [|done]. split; [|done]. by apply core_emit.
Qed.

Lemma set_shutdown_requested s act g :
  Inv (mkController s act g) →
  wp (set_snapshot (mkChanges None None None None None (Some true) None None))
    (λ _ c', Inv c') (λ _ _, False) (mkController s act g).
Proof.
  intros H. apply wp_last, wp_set_snapshot.
  - by destruct act; apply H.
  - intros s' g' Hs' Hg'. apply wp_ret. destruct act as [a|]; unfold Inv, base, core in *; cbn in *;
      rewrite Hs'; naive_solver.
Qed.

Lemma request_application_close_safe qt c :
  qt_task_id qt <> EmptyString → Inv c → safe (request_application_close qt) c.
Proof.
  intros Hid H. unfold safe, request_application_close. apply wp_bind, wp_get.
  destruct c as [s [a|] g]; [done|]. cbn.
  apply wp_if; intros _; [done|]. apply wp_if; intros _; [done|].
  apply wp_bind. eapply wp_conseq; [apply start_safe; [done|]| |done].
  - intros plan. destruct H as (Hv & (_ & Hp & _) & _). by apply admitted_intro.
  - intros admission [s' act' g'] H'. apply wp_if; intros _; [|by case_match].
    apply wp_bind. eapply wp_conseq; [by apply set_shutdown_requested|done|done].
Qed.
