(* ===== verification/ControllerProperties.v ===== *)
(** * Properties of the controller *)

From S2P Require Import Prelude.
From S2P Require Import Errors.
From S2P Require Import TaskPlans.
From S2P Require Import OperationResults.
From S2P Require Import RuntimeValues.
From S2P Require Import RuntimeModels.
From S2P Require Import TaskModels.
From S2P Require Import Controller.
From S2P Require Import ControllerInvariant.
From S2P Require Import ControllerProofs.

(** ** Runs *)

(** What the environment grants: new identifiers are not empty, results are
    objects whose checks passed, and the thread of the current generation ends
    once. *)
Definition valid (c : Controller) (event : Event) : Prop :=
  match event with
  | RequestConnect qt _ | RequestTask qt _ | RequestDisconnect qt _ | RequestClose qt =>
      qt_task_id qt <> EmptyString
  | Result _ message =>
      ∀ m r, message = Some m → wr_result m = Some r → result_ok (te_task_id r) r
  | ThreadFinished _ generation =>
      ∀ a, gc_active c = Some a → generation = ex_generation (ac_execution a) →
           ex_thread (ac_execution a) = true
  | RequestCancel _ | Respond _ _ _ | Progress _ | ThreadViolation _ => True
  end.

Inductive Reachable : Controller → Prop :=
| reach_init : Reachable Controller_init
| reach_step c event : Reachable c → valid c event → Reachable (after event c).

Lemma safe_ignore {A} (m : C A) c : safe m c → safe (m ;;; ret tt) c.
Proof. intros H. apply wp_bind. eapply wp_conseq; [exact H|done|done]. Qed.

Lemma handle_safe event c : Inv c → valid c event → safe (handle event) c.
Proof.
  intros H Hv. destruct event; cbn in *.
  - by apply safe_ignore, request_connect_safe.
  - by apply safe_ignore, request_task_safe.
  - by apply safe_ignore, request_disconnect_safe.
  - by apply safe_ignore, request_cancel_safe.
  - by apply safe_ignore, request_application_close_safe.
  - by apply safe_ignore, respond_task_action_safe.
  - by apply on_progress_safe.
  - by apply on_result_safe.
  - by apply on_thread_finished_safe.
  - destruct c as [s [a|] g].
    + by apply enter_fatal_safe; [apply H|].
    + by apply finish_safe, enter_fatal_idle.
Qed.

Lemma after_Inv event c : Inv c → valid c event → Inv (after event c).
Proof.
  intros H Hv. pose proof (handle_safe event c H Hv) as Hs. unfold safe, wp, after in *.
  destruct (handle event c) as [[?|e] c']; [done|]. apply Hs.
Qed.

Lemma reachable_Inv c : Reachable c → Inv c.
Proof. induction 1; [apply Inv_init|by apply after_Inv]. Qed.

(** ** The snapshot *)

(** C24: In every state that the controller reaches, whatever it is asked
    and whatever its workers report and in which order, the snapshot passes
    the checks of [RuntimeSnapshot], names the task that is active and no
    other, and its state fits what that task does; a task whose thread is gone
    waits for the user unless a fatal error stopped it. *)
Theorem controller_invariant c :
  Reachable c →
  snapshot_ok (gc_snapshot c) ∧ Inv c ∧ rs_active_task_id (gc_snapshot c) = ac_task_id <$> gc_active c.
Proof.
  intros H%reachable_Inv. destruct c as [s [a|] g].
  - destruct H as [[(Hv & Ha & Hg) Ht] Hw]. split; [by apply snapshot_ok_intro|].
    split; [done|]. apply Ha.
  - destruct H as (Hv & Hi & Hg). split; [by apply snapshot_ok_intro|]. split; [done|]. apply Hi.
Qed.

(** ** A run *)

(** *** Runs that can be evaluated *)

Definition checked_result (r : TaskExecutionResult) : bool :=
  is_ok (TaskExecutionResult_post_init r)
  && match te_error r with Some e => is_ok (GuiRuntimeError_post_init e) | None => true end.

Definition validb (c : Controller) (event : Event) : bool :=
  match event with
  | RequestConnect qt _ | RequestTask qt _ | RequestDisconnect qt _ | RequestClose qt =>
      negb (empty_str (qt_task_id qt))
  | Result _ (Some m) => match wr_result m with Some r => checked_result r | None => true end
  | ThreadFinished _ generation =>
      match gc_active c with
      | Some a => ex_thread (ac_execution a)
      | None => true
      end
  | _ => true
  end.

Lemma checked_result_ok r : checked_result r = true → result_ok (te_task_id r) r.
Proof.
  unfold checked_result. intros [H He]%andb_true_iff. split; [|done|].
  - unfold TaskExecutionResult_post_init in *. by repeat case_match.
  - intros e Hr. rewrite Hr in He. unfold GuiRuntimeError_post_init in *. by repeat case_match.
Qed.

Lemma validb_valid c event : validb c event = true → valid c event.
Proof.
  destruct event; cbn; try done; unfold empty_str.
  1-4: by rewrite negb_true_iff, bool_decide_eq_false.
  - intros H m r -> Hr. rewrite Hr in H. by apply checked_result_ok.
  - intros H a Ha _. by rewrite Ha in H.
Qed.

Fixpoint run (events : list Event) (c : Controller) : Controller :=
  match events with [] => c | event :: events => run events (after event c) end.

Fixpoint valid_run (events : list Event) (c : Controller) : bool :=
  match events with
  | [] => true
  | event :: events => validb c event && valid_run events (after event c)
  end.

Lemma run_reachable events c : Reachable c → valid_run events c = true → Reachable (run events c).
Proof.
  revert c. induction events as [|event events IH]; intros c H; [done|].
  cbn. intros [Hv Hr]%andb_true_iff. apply IH; [|done]. by apply reach_step; [|apply validb_valid].
Qed.

Module Sample.
Definition qt (task_id : string) : Qt := mkQt task_id true true.
Definition result (task_id : string) (status : TaskFinalStatus) (payload : Payload)
    (error : option GuiRuntimeError) : TaskExecutionResult :=
  mkTaskResult task_id status "" "" [] payload None error TaskCompletionAction.NONE true.
Definition report (task_id : string) (r : TaskExecutionResult) : Event :=
  Result (qt "-") (Some (mkResultMessage task_id 0 (Some r))).
Definition step (task_id step_id : string) (state : TaskStepState) : Event :=
  Progress (Some (mkProgressMessage task_id 0 (Some (mkUpdate task_id step_id state "" "" None None
    ProgressMode.INDETERMINATE None [])))).

(** A connection attempt that is cancelled. *)
Definition connect : Event := RequestConnect (qt "t1") (CleanupRequest "Connect" "connect").
Definition connecting : Controller := run [connect] Controller_init.
Definition ended : Controller :=
  run [connect; report "t1" (result "t1" TaskFinalStatus.CANCELLED NoPayload None);
       ThreadFinished (qt "-") 0] Controller_init.

Lemma connecting_reachable : Reachable connecting.
Proof. apply run_reachable; [apply reach_init|vm_compute; reflexivity]. Qed.

Lemma ended_reachable : Reachable ended.
Proof. apply run_reachable; [apply reach_init|vm_compute; reflexivity]. Qed.

(** A connection and a task on it whose outcome is uncertain. *)
Definition info : ConnectionInfo :=
  mkConnectionInfo "c1" "serial" "COM1" (mkDatetime 0 (Some 0)) "cpu1" (OMapping 0 true []).
Definition uncertain : GuiRuntimeError :=
  mkGuiError "TIMEOUT" "no answer" "task" ErrorDisposition.ASK_DISCONNECT None false true [] None
    None.
Definition deciding : Controller :=
  run [connect; step "t1" "connect" TaskStepState.STARTED;
       step "t1" "connect" TaskStepState.COMPLETED;
       report "t1" (result "t1" TaskFinalStatus.SUCCEEDED (ConnectionPayload info) None);
       ThreadFinished (qt "-") 0;
       RequestTask (qt "t2") (CleanupRequest "Task" "task");
       report "t2" (result "t2" TaskFinalStatus.FAILED NoPayload (Some uncertain));
       ThreadFinished (qt "-") 0] Controller_init.

Lemma deciding_reachable : Reachable deciding.
Proof. apply run_reachable; [apply reach_init|vm_compute; reflexivity]. Qed.

Lemma connecting_active :
  ∃ a, gc_active connecting = Some a ∧ ac_task_id a = "t1"%string ∧ ac_fatal_error a = None ∧
       ts_available_actions (ac_state a) = [].
Proof. eexists. split; [vm_compute; reflexivity|done]. Qed.

Lemma deciding_active :
  ∃ a, gc_active deciding = Some a ∧ ac_task_id a = "t2"%string ∧ ac_fatal_error a = None ∧
       ts_available_actions (ac_state a)
       = [TaskDialogAction.DISCONNECT; TaskDialogAction.KEEP_CONNECTION] ∧ ac_actions a = [].
Proof. eexists. split; [vm_compute; reflexivity|done]. Qed.

(** The error of a call from a wrong thread about a task that is not the
    active one. *)
Definition violated : Controller := after (ThreadViolation (Some "t9"%string)) connecting.

Lemma violated_reachable : Reachable violated.
Proof. apply reach_step; [apply connecting_reachable|done]. Qed.
End Sample.

Lemma controller_invariant_witness :
  rs_state (gc_snapshot Sample.ended) = RuntimeState.DISCONNECTED ∧
  snapshot_ok (gc_snapshot Sample.connecting) ∧ Inv Sample.connecting ∧
  rs_active_task_id (gc_snapshot Sample.connecting) = ac_task_id <$> gc_active Sample.connecting.
Proof.
  split; [vm_compute; reflexivity|].
  exact (controller_invariant Sample.connecting Sample.connecting_reachable).
Defined.

(** ** Tasks end at most once, in order *)

(** C25: read in order, the starts and ends that the controller announces
    alternate, each end names the task of the start before it, and a start is
    without its end exactly while that task is active.  So the tasks announced
    as started are, in order, those announced as finished followed by the one
    that is active: a task ends at most once, and before the next one starts.
    That an active task ends at some time is not claimed: it waits for its
    worker and for the user, and a call from a wrong thread can keep it from
    ending. *)
Theorem tasks_end_in_order c :
  Reachable c →
  open_tasks (gc_signals c) = Some (active_ids (gc_active c)) ∧
  omap started_id (gc_signals c) = omap finished_id (gc_signals c) ++ active_ids (gc_active c).
Proof.
  intros H%reachable_Inv.
  assert (Ha : accounted (active_ids (gc_active c)) (gc_signals c)).
  { destruct c as [s [a|] g]; [apply H|]. by destruct H as (_ & _ & ?). }
  split; [done|]. by apply accounted_ids.
Qed.

Lemma tasks_end_in_order_witness :
  omap finished_id (gc_signals Sample.ended) = ["t1"%string] ∧
  open_tasks (gc_signals Sample.ended) = Some (active_ids (gc_active Sample.ended)) ∧
  omap started_id (gc_signals Sample.ended)
  = omap finished_id (gc_signals Sample.ended) ++ active_ids (gc_active Sample.ended).
Proof.
  split; [vm_compute; reflexivity|]. exact (tasks_end_in_order _ Sample.ended_reachable).
Defined.

(** ** Exceptions *)

(** a handler of the controller raises an exception only while a
    disconnect decision is open or when the fatal error of the active task
    names another task; it never does in any other state. *)
Theorem handlers_raise_only_when_stuck c event e c' :
  Reachable c → valid c event → handle event c = (Raise e, c') → Stuck c'.
Proof.
  intros H Hv Hh. pose proof (handle_safe event c (reachable_Inv c H) Hv) as Hs.
  unfold safe, wp in Hs. rewrite Hh in Hs. apply Hs.
Qed.

Lemma handlers_raise_only_when_stuck_witness :
  ∃ e, handle (ThreadFinished (Sample.qt "-") 0) Sample.violated
       = (Raise e, after (ThreadFinished (Sample.qt "-") 0) Sample.violated)
       ∧ Stuck (after (ThreadFinished (Sample.qt "-") 0) Sample.violated).
Proof.
  eexists. split; [vm_compute; reflexivity|].
  eapply (handlers_raise_only_when_stuck Sample.violated (ThreadFinished (Sample.qt "-") 0)).
  - exact Sample.violated_reachable.
  - apply validb_valid. vm_compute. reflexivity.
  - vm_compute. reflexivity.
Defined.

(** ** A call from a wrong thread about another task *)

(** The computations that keep an assertion about the state, however they
    end. *)
Definition holds {A} (P : Controller → Prop) (m : C A) : Prop :=
  ∀ c, P c → wp m (λ _, P) (λ _, P) c.

Lemma holds_ret {A} P (x : A) : holds P (ret x).
Proof. by intros c H. Qed.

Lemma holds_raise {A} P e : holds P (raise e : C A).
Proof. by intros c H. Qed.

Lemma holds_lift {A} P (r : Res A) : holds P (lift r).
Proof. by intros c H; apply wp_lift. Qed.

Lemma holds_bind {A B} P (m : C A) (k : A → C B) :
  holds P m → (∀ x, holds P (k x)) → holds P (bind m k).
Proof.
  intros Hm Hk c H. apply wp_bind. eapply wp_conseq; [by apply Hm|intros x c'; apply Hk|done].
Qed.

Lemma holds_get {B} P (k : Controller → C B) :
  (∀ c, P c → wp (k c) (λ _, P) (λ _, P) c) → holds P (c <- get ;; k c).
Proof. intros Hk c H. by apply wp_bind, wp_get, Hk. Qed.

Lemma holds_catch {A} P (m : C A) h : holds P m → (∀ e, holds P (h e)) → holds P (catch m h).
Proof.
  intros Hm Hh c H. apply wp_catch. eapply wp_conseq; [by apply Hm|done|intros e c'; apply Hh].
Qed.

(** The task [task_id] is active with the fatal error [error], the tasks that
    ended are [ended], and its state does not offer to keep the connection, if
    [closed]. *)
Record held (task_id : string) (error : GuiRuntimeError) (closed : bool) (a : Active) : Prop := {
  he_id : ac_task_id a = task_id;
  he_state : ts_task_id (ac_state a) = task_id;
  he_error : ac_fatal_error a = Some error;
  he_closed : closed = true →
    TaskDialogAction.KEEP_CONNECTION ∉ ts_available_actions (ac_state a);
}.

Section held.
  Context (task_id : string) (error : GuiRuntimeError) (closed : bool) (ended : list string).
  Hypothesis Hforeign : foreign_error task_id (Some error) = true.
  Abbreviation held := (held task_id error closed).

Definition Held (c : Controller) : Prop :=
    (∃ a, gc_active c = Some a ∧ held a) ∧ omap finished_id (gc_signals c) = ended.

Lemma held_emit x : finished_id x = None → holds Held (emit x).
  Proof.
    intros Hx c [Ha Hf]. split; [done|]. cbn. rewrite omap_app, Hf. cbn. by rewrite Hx, app_nil_r.
  Qed.

Lemma held_active {B} (k : Active → C B) :
    (∀ a, held a → holds Held (k a)) → holds Held (x <- active ;; k x).
  Proof.
    intros Hk [s act g] H. pose proof H as [(a & Ha & Hh) _]. cbn in Ha. subst act.
    apply wp_active. by apply Hk.
  Qed.

Lemma held_put a : held a → holds Held (put_active (Some a)).
  Proof. intros Hh c [_ Hf]. split; [by exists a|done]. Qed.

Lemma held_update f : (∀ a, held a → held (f a)) → holds Held (update_active f).
  Proof. intros Hf. apply held_active; intros a Ha. by apply held_put, Hf. Qed.

Lemma held_replace_state f :
    (∀ s, ts_task_id (f s) = ts_task_id s) →
    (∀ s, ts_available_actions (f s) = ts_available_actions s) → holds Held (replace_state f).
  Proof.
    intros Hi Ha. apply held_active; intros a [H1 H2 H3 H4] c H.
    apply wp_bind, wp_lift; [|done]. intros state Hs. unfold TaskState_post_init in Hs.
    passed Hs. injection Hs as <-. apply held_put; [|done]. split; cbn; [done| |done|].
    - by rewrite Hi.
    - by rewrite Ha.
  Qed.

Lemma held_set_snapshot ch : holds Held (set_snapshot ch).
  Proof.
    apply holds_get; intros c H. apply wp_bind, wp_lift; [|done]. intros new _.
    apply wp_if; intros _; [done|]. apply wp_bind. by apply held_emit.
  Qed.

Lemma held_fatal e : holds Held (enter_fatal e).
  Proof. apply holds_get; intros c H. pose proof H as [(a & -> & []) _]. by rewrite he_error0. Qed.

Lemma held_fatal_code code : holds Held (fatal code).
  Proof. apply holds_get; intros c H. by apply held_fatal. Qed.

(** The end of the task fails its own checks. *)
Lemma held_finalize : holds Held finalize_fatal.
  Proof.
    apply holds_get; intros c H. pose proof H as [(a & -> & [Hi Hs He _]) _]. rewrite He.
    apply wp_if; intros _; [done|]. apply wp_bind, wp_lift; [|done]. intros r _.
    apply wp_bind, wp_lift; [|done]. intros f Hfin. exfalso.
    unfold TaskState_post_init in Hfin. passed Hfin. cbn [ts_task_id ts_error final_state] in *.
    congruence.
  Qed.

Lemma held_run_generation qt : holds Held (run_generation qt).
  Proof.
    assert (Hd : holds Held discard_unstarted_generation).
    { apply holds_get; intros c H. pose proof H as [(a & -> & []) _]. by apply held_put. }
    apply holds_catch.
    - apply holds_bind; [|intros _].
      + apply holds_bind; [by apply held_update; intros a []|intros _].
        destruct (qt_prepared qt); [by apply held_update; intros a []|apply holds_raise].
      + apply held_active; intros a Ha. destruct (qt_started qt).
        * apply holds_bind; [apply held_put; by destruct Ha|intros _].
          apply holds_bind; [by apply held_replace_state|intros _].
          apply held_active; intros a' _. by apply held_emit.
        * apply holds_bind; [done|intros _]. apply held_fatal.
    - intros e. apply holds_bind; [done|intros _]. apply held_fatal_code.
  Qed.

Lemma held_restart kind request disposition : holds Held (restart kind request disposition).
  Proof.
    apply held_active; intros a [Hi Hs He _].
    destruct (rq_create_plan request (ac_task_id a)) as [[plan|]|exc]; try apply holds_raise.
    intros c H. apply wp_bind, wp_lift; [|done]. intros state Hp. unfold TaskState_post_init in Hp.
    passed Hp. injection Hp as <-. apply held_put; [|done]. split; cbn; [done..|].
    intros _. apply not_elem_of_nil.
  Qed.

Lemma held_emit_state : holds Held emit_state.
  Proof. apply held_active; intros a _. by apply held_emit. Qed.

Lemma held_respond qt id action :
    (action = TaskDialogAction.KEEP_CONNECTION → id = task_id → closed = true) →
    holds Held (respond_task_action qt id action).
  Proof.
    intros Hk. apply holds_get; intros c H. pose proof H as [(a & -> & Ha) _].
    apply wp_if; intros Hid; [done|]. apply wp_if; intros _; [done|].
    apply wp_if; intros Hin; [done|]. apply negb_false_iff, bool_decide_eq_true in Hid, Hin.
    apply holds_bind; [apply held_put; by destruct Ha|intros _|done].
    apply holds_bind; [|intros _; apply holds_ret].
    destruct action; [|exfalso| |].
    - apply holds_bind; [apply held_restart|intros _].
      apply holds_bind; [apply held_set_snapshot|intros _].
      apply holds_bind; [apply held_emit_state|intros _]. apply held_run_generation.
    - destruct Ha as [Hi _ _ Hc]. apply Hc; [|done]. apply Hk; [done|congruence].
    - apply holds_bind; [apply held_restart|intros _].
      apply holds_bind; [by apply held_update; intros ? []|intros _].
      apply holds_bind; [apply held_emit_state|intros _]. apply held_run_generation.
    - by apply held_emit.
  Qed.

Lemma held_busy : holds Held busy.
  Proof. apply holds_bind; [by apply held_emit|intros _; apply holds_ret]. Qed.

Lemma held_cancel id : holds Held (request_cancel id).
  Proof.
    apply holds_get; intros c H. pose proof H as [(a & -> & Ha) _].
    do 4 (apply wp_if; intros _; [done|]).
    apply holds_bind; [apply held_put; by destruct Ha|intros _|done].
    apply holds_bind; [by apply held_replace_state|intros _].
    apply holds_bind; [apply held_emit_state|intros _; apply holds_ret].
  Qed.

Lemma held_thread_finished qt generation : holds Held (on_thread_finished qt generation).
  Proof.
    apply holds_get; intros c H. pose proof H as [(a & -> & Ha) _].
    apply wp_if; intros _; [done|]. apply wp_if; intros _; [by apply held_fatal_code|].
    rewrite (he_error _ _ _ _ Ha). apply holds_bind; [|intros _; apply held_finalize|done].
    apply held_put. by destruct Ha.
  Qed.

(** A message of a worker about a task that has its fatal error. *)
Lemma held_message {M} (message : option M) (unknown : Controller → M → Active → bool)
      (stale : M → Active → bool) (rest : M → Active → C unit) c :
    Held c →
    wp match message with
       | None => fatal "INVALID_WORKER_MESSAGE_TYPE"
       | Some m =>
           match gc_active c with
           | None => fatal "UNKNOWN_WORKER_TASK"
           | Some a =>
               if unknown c m a then fatal "UNKNOWN_WORKER_TASK"
               else if stale m a then ret tt
               else if isSome (ac_fatal_error a) then ret tt
               else rest m a
           end
       end (λ _, Held) (λ _, Held) c.
  Proof.
    intros H. pose proof H as [(a & -> & Ha) _].
    destruct message as [m|]; [|by apply held_fatal_code].
    rewrite (he_error _ _ _ _ Ha). apply wp_if; intros _; [by apply held_fatal_code|].
    by apply wp_if; intros _.
  Qed.

Lemma held_handle event :
    closed = true ∨ (∀ qt, event <> Respond qt task_id TaskDialogAction.KEEP_CONNECTION) →
    holds Held (handle event).
  Proof.
    intros Hev. assert (Hi : ∀ A (m : C A), holds Held m → holds Held (m ;;; ret tt)).
    { intros A m Hm. apply holds_bind; [done|intros _; apply holds_ret]. }
    destruct event; cbn.
    1-3: apply Hi, holds_get; intros c H; pose proof H as [(a & -> & Ha) _]; by apply held_busy.
    - apply Hi, held_cancel.
    - apply Hi, holds_get; intros c H. by pose proof H as [(a & -> & Ha) _].
    - apply Hi, held_respond. intros -> ->. by destruct Hev as [|Hev]; [|destruct (Hev qt)].
    - apply holds_get; intros c H. by apply (held_message message (λ _ m a, _) (λ m a, _) (λ m a, _)).
    - apply holds_get; intros c H. by apply (held_message message (λ _ m a, _) (λ m a, _) (λ m a, _)).
    - apply held_thread_finished.
    - apply held_fatal.
  Qed.

Lemma held_run events c :
    closed = true ∨ (∀ qt, Respond qt task_id TaskDialogAction.KEEP_CONNECTION ∉ events) →
    Held c → Held (run events c).
  Proof.
    revert c. induction events as [|event events IH]; intros c Hev H; [done|]. cbn. apply IH.
    { destruct Hev as [|Hev]; [by left|right]. intros qt Hin. apply (Hev qt). by right. }
    assert (Hh : holds Held (handle event)).
    { apply held_handle. destruct Hev as [|Hev]; [by left|right]. intros qt ->. apply (Hev qt). by left. }
    specialize (Hh c H). unfold wp, after in *. by destruct (handle event c) as [[]].
  Qed.
End held.

(** The call makes its error that of the active task, which it cannot end. *)
Lemma violation_held c a t closed :
  Inv c → gc_active c = Some a → ac_fatal_error a = None → t <> ac_task_id a →
  (closed = true → TaskDialogAction.KEEP_CONNECTION ∉ ts_available_actions (ac_state a)) →
  Held (ac_task_id a) (thread_violation (Some t)) closed (omap finished_id (gc_signals c))
    (after (ThreadViolation (Some t)) c).
Proof.
  intros HInv Ha Hn Ht Hc. destruct c as [s act g]. cbn in Ha. subst act.
  destruct HInv as [[(_ & Hao & _) _] _].
  set (P := Held _ _ _ _). assert (Hp : P (mkController s (Some (with_fatal_error (thread_violation
    (Some t)) a)) g)).
  { split; [|done]. eexists. split; [done|]. split; [done|apply Hao|done|done]. }
  assert (Hw : wp (enter_fatal (thread_violation (Some t))) (λ _, P) (λ _, P)
                 (mkController s (Some a) g)).
  { unfold enter_fatal. apply wp_bind, wp_get. cbn. rewrite Hn. apply (wp_put_active _ _ s g a).
    eapply holds_bind; [apply held_set_snapshot|intros _|exact Hp].
    apply holds_bind; [by apply held_emit|intros _].
    destruct (_ || _); [|apply holds_ret]. apply held_finalize.
    cbn. by rewrite bool_decide_eq_false_2. }
  unfold wp, after in *. cbn [handle]. by destruct (enter_fatal _ _) as [[]].
Qed.

(** ** A fatal error while a decision is open *)

Lemma fatal_snapshot_pending s task_id error :
  view_ok (view s) → rs_disconnect_decision_pending s = true →
  ge_disposition error = ErrorDisposition.RUNTIME_FATAL →
  RuntimeSnapshot_post_init
    (changed (mkChanges (Some RuntimeState.ERROR) (Some (Some task_id)) None None None None None
                (Some (Some error))) s)
  = Raise (Err ValueError (Lit "invalid disconnect decision")).
Proof.
  intros Hv Hp He. destruct s as [st id info key su pe sh cl er]. cbn in *. subst pe.
  destruct (vo_pending _ Hv eq_refl) as (Hst & Hsu & _).
  assert (Hok : RuntimeSnapshot_post_init (mkRuntime RuntimeState.ERROR (Some task_id) info key su
                  false sh cl (Some error)) = Ok (mkRuntime RuntimeState.ERROR (Some task_id) info
                  key su false sh cl (Some error))).
  { apply snapshot_ok_intro. apply (view_ok_fatal (view (mkRuntime st id info key su true sh cl er)));
      try done. unfold fatal_view. cbn. by rewrite He. }
  unfold RuntimeSnapshot_post_init in *. cbn in *. passed Hok. cbn in *.
  repeat match goal with H : ?b = false |- context [if ?b then _ else _] => rewrite H end.
  done.
Qed.

(** The user keeps the connection: whatever error the task has, it ends. *)
Lemma keep_ends qt s a g :
  core s a g → TaskDialogAction.KEEP_CONNECTION ∈ ts_available_actions (ac_state a) →
  TaskDialogAction.KEEP_CONNECTION ∉ ac_actions a →
  gc_active (after (Respond qt (ac_task_id a) TaskDialogAction.KEEP_CONNECTION)
               (mkController s (Some a) g)) = None.
Proof.
  intros Hc Hin Hnew. pose proof Hc as (Hv & Ha & Hg).
  assert (Hasks : asks a) by by left.
  destruct (ao_pending _ _ Ha (ao_asks _ _ Ha Hasks)) as (_ & Hcon & Hp & _).
  destruct (ac_primary_result a) as [primary|] eqn:Hprimary; [|done].
  set (a' := with_actions (TaskDialogAction.KEEP_CONNECTION :: ac_actions a) a).
  assert (Hw : wp (complete primary RuntimeState.CONNECTED
                     (mkChanges None None None (Some true) (Some false) None None None))
                 (λ _ c, Inv c ∧ gc_active c = None) (λ _ _, False) (mkController s (Some a') g)).
  { apply wp_complete; [apply Ha|by apply (ao_primary _ _ Ha)| | |done].
    - by apply view_ok_connected.
    - by apply idle_ok_connected. }
  unfold wp, after, handle, respond_task_action, bind, get, put_active, modify, ret in *. cbn.
  rewrite bool_decide_eq_true_2 by done. rewrite bool_decide_eq_false_2 by done.
  rewrite bool_decide_eq_true_2 by done. cbn. rewrite Hprimary. fold a'.
  destruct (complete _ _ _ _) as [[[]|e] c']; [|done]. by destruct Hw.
Qed.

(** While a decision is open the fatal error is recorded and nothing else
    happens. *)
Lemma fatal_while_asked s a g error :
  core s a g → vw_pending (view s) = true → ac_fatal_error a = None →
  ge_disposition error = ErrorDisposition.RUNTIME_FATAL →
  enter_fatal error (mkController s (Some a) g)
  = (Raise (Err ValueError (Lit "invalid disconnect decision")),
     mkController s (Some (with_fatal_error error a)) g).
Proof.
  intros (Hv & _) Hp Hn He.
  unfold enter_fatal, set_snapshot, bind, get, put_active, modify, lift. cbn. rewrite Hn. cbn.
  by rewrite fatal_snapshot_pending.
Qed.

(** C26: in a reachable state whose active task has no fatal error yet, a call
    from a wrong thread about another task [t] makes its error the fatal error
    of the active task, which the end of that task then rejects.  From there,
    whatever is asked of the controller and whatever its workers report, valid
    or not, the task stays active with that error and no task ends any more,
    unless the task was asking whether to keep the connection when the call
    came and the user answers KEEP_CONNECTION: given at once, and not given
    before, that answer does end the task.  A task whose thread runs does not
    ask, so for it there is no way out. *)
Theorem foreign_violation_wedges c a t events :
  Reachable c → gc_active c = Some a → ac_fatal_error a = None → t <> ac_task_id a →
  let after_violation := after (ThreadViolation (Some t)) c in
  let offered := TaskDialogAction.KEEP_CONNECTION ∈ ts_available_actions (ac_state a) in
  (ex_thread (ac_execution a) = true → ~ offered) ∧
  (~ offered ∨
     (∀ qt, Respond qt (ac_task_id a) TaskDialogAction.KEEP_CONNECTION ∉ events) →
   ∃ a', gc_active (run events after_violation) = Some a' ∧ ac_task_id a' = ac_task_id a ∧
         ac_fatal_error a' = Some (thread_violation (Some t)) ∧
         omap finished_id (gc_signals (run events after_violation))
         = omap finished_id (gc_signals c)) ∧
  (offered → TaskDialogAction.KEEP_CONNECTION ∉ ac_actions a →
   ∀ qt, gc_active (after (Respond qt (ac_task_id a) TaskDialogAction.KEEP_CONNECTION)
                      after_violation) = None).
Proof.
  intros HInv%reachable_Inv Ha Hn Ht after_violation offered.
  assert (Hf : foreign_error (ac_task_id a) (Some (thread_violation (Some t))) = true).
  { cbn. by rewrite bool_decide_eq_false_2. }
  split; [|split].
  - intros Hth Hin. destruct c as [s act g]. cbn in Ha. subst act.
    destruct HInv as [[(_ & Hao & _) Hto] _].
    assert (Hasks : asks a) by by left.
    destruct (ao_pending _ _ Hao (ao_asks _ _ Hao Hasks)) as (_ & _ & _ & Hfin).
    destruct Hto as [(_ & _ & ?)|[? _]]; congruence.
  - intros Hev.
    destruct (held_run (ac_task_id a) (thread_violation (Some t))
                (negb (bool_decide offered)) (omap finished_id (gc_signals c)) Hf events
                after_violation) as [(a' & Ha' & [Hi _ He _]) Hended].
    + destruct Hev as [Hno|Hev]; [left; by rewrite bool_decide_eq_false_2|by right].
    + apply violation_held; [done..|]. by intros ?%negb_true_iff%bool_decide_eq_false.
    + by exists a'.
  - intros Hin Hnew qt. destruct c as [s act g]. cbn in Ha. subst act.
    destruct HInv as [[Hc Hth] _]. pose proof Hc as (_ & Hao & _).
    unfold after_violation. unfold after at 2. cbn [handle].
    rewrite fatal_while_asked; [|done|by apply (ao_asks _ _ Hao); left|done|done].
    apply (keep_ends qt s (with_fatal_error (thread_violation (Some t)) a)); [|done..].
    by apply (base_fatal s a g).
Qed.

Lemma foreign_violation_wedges_witness :
  (∃ a', gc_active (run [ThreadFinished (Sample.qt "-") 0; RequestCancel "t1"; Sample.connect]
                      (after (ThreadViolation (Some "t9"%string)) Sample.connecting)) = Some a' ∧
         ac_task_id a' = "t1"%string ∧
         ac_fatal_error a' = Some (thread_violation (Some "t9"%string)) ∧
         omap finished_id (gc_signals
           (run [ThreadFinished (Sample.qt "-") 0; RequestCancel "t1"; Sample.connect]
              (after (ThreadViolation (Some "t9"%string)) Sample.connecting)))
         = omap finished_id (gc_signals Sample.connecting)) ∧
  gc_active (after (Respond (Sample.qt "-") "t2" TaskDialogAction.KEEP_CONNECTION)
               (after (ThreadViolation (Some "t9"%string)) Sample.deciding)) = None.
Proof.
  destruct Sample.connecting_active as (a & Ha & Hid & Hn & Hacts).
  destruct Sample.deciding_active as (b & Hb & Hidb & Hnb & Hactsb & Hanswered).
  destruct (foreign_violation_wedges Sample.connecting a "t9"
              [ThreadFinished (Sample.qt "-") 0; RequestCancel "t1"; Sample.connect]
              Sample.connecting_reachable Ha Hn) as (_ & Hwedged & _); [by rewrite Hid|].
  destruct (foreign_violation_wedges Sample.deciding b "t9" []
              Sample.deciding_reachable Hb Hnb) as (_ & _ & Hkept); [by rewrite Hidb|].
  rewrite Hid, Hacts in Hwedged. rewrite Hidb, Hactsb, Hanswered in Hkept. split.
  - apply Hwedged. left. apply not_elem_of_nil.
  - apply Hkept; [right; left|apply not_elem_of_nil].
Defined.

(** while a disconnect decision is open, entering the fatal state raises
    ValueError: the error is recorded for the task, but the snapshot keeps its
    state and nothing is announced. *)
Theorem fatal_during_decision_raises c error :
  Reachable c → rs_disconnect_decision_pending (gc_snapshot c) = true →
  (∀ a, gc_active c = Some a → ac_fatal_error a = None) →
  ge_disposition error = ErrorDisposition.RUNTIME_FATAL →
  ∃ c', enter_fatal error c
        = (Raise (Err ValueError (Lit "invalid disconnect decision")), c')
        ∧ gc_snapshot c' = gc_snapshot c ∧ gc_signals c' = gc_signals c.
Proof.
  intros H%reachable_Inv Hp Hn He. destruct c as [s [a|] g].
  - destruct H as [[(Hv & Ha & Hg) Ht] Hw]. specialize (Hn a eq_refl). cbn in Hp.
    unfold enter_fatal, set_snapshot, bind, get, put_active, modify, lift. cbn. rewrite Hn. cbn.
    rewrite fatal_snapshot_pending by done. by eexists.
  - destruct H as (_ & (_ & Hq & _) & _). cbn in *. congruence.
Qed.

Lemma fatal_during_decision_raises_witness :
  rs_disconnect_decision_pending (gc_snapshot Sample.deciding) = true ∧
  ∃ c', enter_fatal (make_fatal "PROGRESS_AFTER_RESULT" (Some "t2"%string)) Sample.deciding
        = (Raise (Err ValueError (Lit "invalid disconnect decision")), c')
        ∧ gc_snapshot c' = gc_snapshot Sample.deciding
        ∧ gc_signals c' = gc_signals Sample.deciding.
Proof.
  split; [vm_compute; reflexivity|].
  apply fatal_during_decision_raises.
  - exact Sample.deciding_reachable.
  - vm_compute. reflexivity.
  - intros a Ha. assert (H : (gc_active Sample.deciding ≫= ac_fatal_error) = None)
      by (vm_compute; reflexivity).
    by rewrite Ha in H.
  - reflexivity.
Defined.

(** ** Results of operations reach the controller *)

Definition final_status_of (c : OperationCompletion) : TaskFinalStatus :=
  match c with
  | OperationCompletion.SUCCEEDED => TaskFinalStatus.SUCCEEDED
  | OperationCompletion.FAILED => TaskFinalStatus.FAILED
  | OperationCompletion.CANCELLED => TaskFinalStatus.CANCELLED
  | OperationCompletion.COMPLETED_AFTER_CANCEL_REQUEST =>
      TaskFinalStatus.COMPLETED_AFTER_CANCEL_REQUEST
  end.

(** The details of the error of a cancelled operation have no entry of the
    cancellation yet. *)
Definition details_free (r : OperationResult) : Prop :=
  ∀ error, or_error r = Some error → or_cancellation r <> None →
           dict_get "cancellation" (ei_details error) = None.

Lemma set_default_get key key' v d :
  key <> key' → dict_get key (set_default key' v d) = dict_get key d.
Proof.
  intros H. unfold set_default. destruct (isSome (dict_get key' d)); [done|].
  unfold dict_get. induction d as [|[k x] d IH]; cbn.
  - by rewrite bool_decide_eq_false_2 by done.
  - by case_bool_decide.
Qed.

Lemma failed_task_ok task_id r payload error :
  or_error r = Some error → details_free r →
  ∃ t, failed_task task_id r payload = Ok t ∧ result_ok task_id t
       ∧ te_status t = TaskFinalStatus.FAILED ∧ te_step_results t = [StepOperation r]
       ∧ te_completion_action t = TaskCompletionAction.NONE
       ∧ disposition_is t ErrorDisposition.ASK_DISCONNECT
         = bool_decide (ei_code error ∈ ASK_DISCONNECT_CODES) || uncertain r.
Proof.
  intros He Hd. unfold failed_task. rewrite He.
  assert (∃ details, failure_details r error = Ok details) as [details ->].
  { unfold failure_details. destruct (or_cancellation r) eqn:Hc; [|by eexists].
    rewrite !set_default_get by done. rewrite (Hd error); [by eexists|done|congruence]. }
  set (gui_error := mkGuiError _ _ _ _ _ _ _ _ _ _).
  assert (Hg : GuiRuntimeError_post_init gui_error = Ok gui_error).
  { unfold GuiRuntimeError_post_init, gui_error, failure_disposition. cbn.
    by destruct (_ || uncertain r). }
  rewrite Hg. set (t := mkTaskResult _ _ _ _ _ _ _ _ _ _).
  assert (Ht : TaskExecutionResult_post_init t = Ok t).
  { apply result_checks. split; [done|]. split; [done|]. split; [|by split].
    unfold t, foreign_error, gui_error. cbn. by rewrite bool_decide_eq_true_2. }
  exists t. split; [done|]. split; [by split; [..|intros e [= <-]]|].
  split; [done|]. split; [done|]. split; [done|].
  unfold disposition_is, t, gui_error, failure_disposition. cbn.
  by destruct (_ || uncertain r).
Qed.

Lemma result_ok_no_error t :
  te_error t = None → is_status t TaskFinalStatus.FAILED = false →
  (cancelled_status t = true → te_cancel_requested t = true) →
  (releases t = true → successful t = true) →
  TaskExecutionResult_post_init t = Ok t ∧ result_ok (te_task_id t) t.
Proof.
  intros He Hf Hc Hr. assert (Hok : TaskExecutionResult_post_init t = Ok t).
  { apply result_checks. rewrite He, Hf. split; [done|]. split; [done|]. by split; [|split]. }
  split; [done|]. split; [done|done|]. intros e. by rewrite He.
Qed.

(** a result of an operation that passes its checks becomes a result of
    the task that passes the checks of the task: its status is the completion
    of the operation, it carries the operation's result as its only step, it
    releases the connection only when the operation succeeded, and a failure
    asks the user about the connection exactly for the codes that make the
    connection doubtful or when the cancellation left the outcome uncertain. *)
Theorem operation_result_reported task_id r completion summary message payload action :
  OperationResult_post_init r = Ok r → or_completion r = Some completion →
  task_id <> EmptyString → details_free r →
  ∃ t, operation_result_to_task_result task_id r summary message payload action = Ok t
       ∧ result_ok task_id t ∧ te_status t = final_status_of completion
       ∧ te_step_results t = [StepOperation r]
       ∧ te_completion_action t = (if or_ok r then action else TaskCompletionAction.NONE)
       ∧ disposition_is t ErrorDisposition.ASK_DISCONNECT
         = match or_error r with
           | Some error => bool_decide (ei_code error ∈ ASK_DISCONNECT_CODES) || uncertain r
           | None => false
           end.
Proof.
  intros Hr Hc Hid Hd. unfold OperationResult_post_init in Hr. rewrite Hc in Hr. cbn in Hr.
  passed Hr. apply negb_false_iff in Heqb0. clear Hr.
  unfold operation_result_to_task_result, non_empty_string. rewrite Hc.
  unfold empty_str. rewrite bool_decide_eq_false_2 by done.
  destruct completion; cbn in Heqb0; rewrite ?andb_true_iff, ?negb_true_iff in Heqb0.
  - destruct Heqb0 as [[Hok He] Hx]. destruct (or_error r); [done|].
    unfold succeeded_task. set (t := mkTaskResult _ _ _ _ _ _ _ _ _ _).
    destruct (result_ok_no_error t) as [Ht Hto]; [done..|]. exists t. by rewrite Hok.
  - destruct Heqb0 as [Hok He]. destruct (or_error r) as [error|] eqn:Hre; [|done].
    rewrite Hok. apply (failed_task_ok task_id r payload error Hre Hd).
  - destruct Heqb0 as [[Hok He] Hx]. destruct (or_error r); [done|].
    unfold cancelled_task. destruct (or_cancellation r) as [c|]; [|done].
    set (t := mkTaskResult _ _ _ _ _ _ _ _ _ _).
    destruct (result_ok_no_error t) as [Ht Hto]; [done..|]. exists t. by rewrite Hok.
  - destruct Heqb0 as [[Hok He] Hx]. destruct (or_error r); [done|].
    unfold cancelled_task. destruct (or_cancellation r) as [c|]; [|done].
    set (t := mkTaskResult _ _ _ _ _ _ _ _ _ _).
    destruct (result_ok_no_error t) as [Ht Hto]; [done..|]. exists t. by rewrite Hok.
Qed.

Module SampleResult.
Definition error : OperationErrorInfo :=
  mkErrorInfo "PROTOCOL_ERROR" (Lit "timeout") "data" false [] COMMUNICATION.
Definition failed : OperationResult :=
  mkResult false "Program" "cpu1" "data" [] [] None None (Some error)
    (Some OperationCompletion.FAILED) None.
End SampleResult.

Lemma operation_result_reported_witness :
  ∃ t, operation_result_to_task_result "t1" SampleResult.failed None None NoPayload
         TaskCompletionAction.RELEASE_CONNECTION = Ok t
       ∧ result_ok "t1" t ∧ te_status t = TaskFinalStatus.FAILED
       ∧ te_step_results t = [StepOperation SampleResult.failed]
       ∧ te_completion_action t = TaskCompletionAction.NONE
       ∧ disposition_is t ErrorDisposition.ASK_DISCONNECT = true.
Proof.
  apply (operation_result_reported "t1" SampleResult.failed OperationCompletion.FAILED None None
           NoPayload TaskCompletionAction.RELEASE_CONNECTION).
  - reflexivity.
  - reflexivity.
  - discriminate.
  - intros e [= <-] []. reflexivity.
Defined.
