(* ===== verification/Worker.v ===== *)
(** The worker of a task and its property. *)

(** * The worker of a task (gui/workers.py, gui/runtime_ports.py)

    [TaskWorker.run]: it runs the job of a task once and reports what became
    of it.  The job and the cancellation token are arguments: computations on
    a state of which the messages of the worker are a part, so that a job may
    report progress while it runs.  Exceptions outside [Exception], which
    [run] catches too, are not modelled. *)

From S2P Require Import Prelude.
From S2P Require Import Errors.
From S2P Require Import Messages.
From S2P Require Import TaskPlans.
From S2P Require Import OperationResults.
From S2P Require Import RuntimeModels.
From S2P Require Import TaskModels.
From S2P Require Import Controller.
From S2P Require Import ControllerInvariant.
From S2P Require Import ControllerProofs.

Inductive WorkerMessage : Type :=
| progressReported (message : WorkerProgressMessage)
| resultReady (message : WorkerResultMessage)
| workFinished (task_id : string) (execution_generation : Z).

Section worker.
Context {E : Type}.

(** The environment of the job and the signals emitted so far. *)
Record WorkerWorld : Type := mkWorkerWorld {
  ww_env : E;
  ww_emitted : list WorkerMessage;
}.

Definition report (message : WorkerMessage) : ST WorkerWorld unit :=
  modify (λ w, mkWorkerWorld (ww_env w) (ww_emitted w ++ [message])).

(** A computation of the environment. *)
Definition outside {A} (m : ST E A) : ST WorkerWorld A := λ w,
  let '(r, e) := m (ww_env w) in (r, mkWorkerWorld e (ww_emitted w)).

Record TaskWorker : Type := mkTaskWorker {
  tw_task_id : string;
  tw_generation : Z;
  tw_cancellable : bool;
}.

(** What the worker is given: [job.execute] with the callback for progress,
    [None] for a result of another class, and the token. *)
Context (execute : (TaskProgressUpdate → ST WorkerWorld unit) →
                   ST WorkerWorld (option TaskExecutionResult)).
Context (is_cancel_requested : ST E bool).
Context (self : TaskWorker).

(** [_fatal] *)
Definition fatal_error (exc : Exn) : GuiRuntimeError :=
  mkGuiError "WORKER_RUNTIME_FATAL" "Worker execution failed" "worker"
    ErrorDisposition.RUNTIME_FATAL (Some (tw_task_id self)) false false
    [("exception_type"%string, VStr (class_name (class_of exc)))] (Some (text_of (exn_str exc)))
    None.

Definition fatal_result (exc : Exn) : TaskExecutionResult :=
  mkTaskResult (tw_task_id self) TaskFinalStatus.FAILED "Runtime failure" (text_of (exn_str exc)) []
    NoPayload None (Some (fatal_error exc)) TaskCompletionAction.NONE false.

(** [_progress] *)
Definition progress (update : TaskProgressUpdate) : ST WorkerWorld unit :=
  report (progressReported
            (mkProgressMessage (tw_task_id self) (tw_generation self) (Some update))).

Definition report_result (result : TaskExecutionResult) : ST WorkerWorld unit :=
  report (resultReady (mkResultMessage (tw_task_id self) (tw_generation self) (Some result))).

Definition cancelled_before_start : TaskExecutionResult :=
  mkTaskResult (tw_task_id self) TaskFinalStatus.CANCELLED "Cancelled" "Cancelled before start" []
    NoPayload None None TaskCompletionAction.NONE true.

(** The body of the [try] statement. *)
Definition attempt : ST WorkerWorld unit :=
  cancelled <- (if tw_cancellable self then outside is_cancel_requested else ret false) ;;
  result <- (if (cancelled : bool)
             then lift (TaskExecutionResult_post_init cancelled_before_start)
             else
               result <- execute progress ;;
               match result with
               | Some result =>
                   if bool_decide (te_task_id result = tw_task_id self) then ret result
                   else raise (Err TypeError (Lit "WorkerJob returned an invalid result"))
               | None => raise (Err TypeError (Lit "WorkerJob returned an invalid result"))
               end) ;;
  report_result result.

(** [run] *)
Definition run : ST WorkerWorld unit :=
  catch attempt (λ exc,
    result <- lift (TaskExecutionResult_post_init (fatal_result exc)) ;; report_result result) ;;;
  report (workFinished (tw_task_id self) (tw_generation self)).
End worker.
Arguments WorkerWorld E : clear implicits.

(** * Properties of the worker *)

Section worker.
Context {E : Type}.
Context (execute : (TaskProgressUpdate → ST (WorkerWorld E) unit) →
                   ST (WorkerWorld E) (option TaskExecutionResult)).
Context (is_cancel_requested : ST E bool).
Context (self : TaskWorker).

(** The job only adds progress reports of the worker, and the results it
    returns pass their checks. *)
Definition progress_only (l : list WorkerMessage) : Prop :=
  Forall (λ m, ∃ update, m = progressReported
    (mkProgressMessage (tw_task_id self) (tw_generation self) (Some update))) l.

Definition well_behaved : Prop :=
  ∀ w, ∃ l, progress_only l
    ∧ ww_emitted (execute (progress self) w).2 = ww_emitted w ++ l
    ∧ ∀ r, (execute (progress self) w).1 = Ok (Some r) → result_ok (te_task_id r) r.

Lemma fatal_result_ok exc : result_ok (tw_task_id self) (fatal_result self exc).
Proof.
  split; [|done|by intros e [= <-]].
  apply result_checks. split; [done|]. split; [done|]. split; [|by split].
  unfold foreign_error. cbn. by rewrite bool_decide_eq_true_2.
Qed.

(** The attempt reports its result as its last message or raises. *)
Lemma attempt_spec w :
  well_behaved →
  wp (attempt execute is_cancel_requested self)
    (λ _ w', ∃ l r, progress_only l ∧ result_ok (tw_task_id self) r ∧
       ww_emitted w' = ww_emitted w ++ l ++
         [resultReady (mkResultMessage (tw_task_id self) (tw_generation self) (Some r))])
    (λ _ w', ∃ l, progress_only l ∧ ww_emitted w' = ww_emitted w ++ l) w.
Proof.
  intros Hw. unfold attempt. apply wp_bind.
  assert (Hc : wp (if tw_cancellable self then outside is_cancel_requested else ret false)
    (λ _ w', ww_emitted w' = ww_emitted w) (λ _ w', ww_emitted w' = ww_emitted w) w).
  { destruct (tw_cancellable self); [|done]. unfold wp, outside.
    by destruct (is_cancel_requested (ww_env w)) as [[]]. }
  eapply wp_conseq; [exact Hc| |].
  2:{ intros e w' Hw'. exists []. split; [constructor|]. by rewrite app_nil_r. }
  intros cancelled w1 Hw1. destruct cancelled.
  - apply wp_bind, wp_lift; intros r Hr; [|done]. injection Hr as <-.
    exists [], (cancelled_before_start self). split; [constructor|].
    split; [by split|]. cbn. by rewrite Hw1.
  - destruct (Hw w1) as (l & Hl & Hem & Hok). apply wp_bind, wp_bind. unfold wp.
    destruct (execute (progress self) w1) as [[result|e] w2] eqn:He; cbn in *.
    2:{ exists l. by rewrite Hem, Hw1. }
    destruct result as [r|]; [|exists l; by rewrite Hem, Hw1].
    destruct (bool_decide (te_task_id r = tw_task_id self)) eqn:Hid; cbn;
      [|exists l; by rewrite Hem, Hw1].
    apply bool_decide_eq_true in Hid. exists l, r. split; [done|].
    split; [rewrite <-Hid; by apply Hok|]. by rewrite Hem, Hw1, <-app_assoc.
Qed.

(** C27: a worker always ends, whatever its job does: after progress reports it
    reports exactly one result, which passes the checks of the controller and
    carries its task and generation, and then that it finished; nothing
    escapes from [run]. *)
Theorem worker_reports_once w :
  well_behaved →
  ∃ l r, run execute is_cancel_requested self w
         = (Ok tt, (run execute is_cancel_requested self w).2)
  ∧ progress_only l ∧ result_ok (tw_task_id self) r
  ∧ ww_emitted (run execute is_cancel_requested self w).2
    = ww_emitted w ++ l ++
      [resultReady (mkResultMessage (tw_task_id self) (tw_generation self) (Some r));
       workFinished (tw_task_id self) (tw_generation self)].
Proof.
  intros Hw. pose proof (attempt_spec w Hw) as Ha. unfold wp in Ha.
  unfold run, bind, catch.
  destruct (attempt execute is_cancel_requested self w) as [[[]|exc] w'].
  - destruct Ha as (l & r & Hl & Hr & Hem). exists l, r. cbn.
    split; [done|]. split; [done|]. split; [done|]. by rewrite Hem, <-!app_assoc.
  - destruct Ha as (l & Hl & Hem). exists l, (fatal_result self exc). unfold lift.
    rewrite (ro_checked _ _ (fatal_result_ok exc)). cbn.
    split; [done|]. split; [done|]. split; [apply fatal_result_ok|].
    by rewrite Hem, <-!app_assoc.
Qed.
End worker.

(** A job that fails after one progress report. *)
Module SampleWorker.
Definition self : TaskWorker := mkTaskWorker "t1" 0 true.
Definition update : TaskProgressUpdate :=
  mkUpdate "t1" "step" TaskStepState.STARTED "" "" None None ProgressMode.INDETERMINATE None [].
Definition execute (progress : TaskProgressUpdate → ST (WorkerWorld nat) unit)
    : ST (WorkerWorld nat) (option TaskExecutionResult) :=
  progress update ;;; raise (Err TransportError (Lit "closed")).

Lemma execute_well_behaved : well_behaved execute self.
Proof.
  intros w. exists [progressReported (mkProgressMessage "t1" 0 (Some update))].
  split; [|split; [reflexivity|discriminate]]. constructor; [by eexists|constructor].
Qed.
End SampleWorker.

Lemma worker_reports_once_witness :
  ∃ l r, run SampleWorker.execute (ret false) SampleWorker.self (mkWorkerWorld 0%nat [])
         = (Ok tt, (run SampleWorker.execute (ret false) SampleWorker.self
                      (mkWorkerWorld 0%nat [])).2)
  ∧ progress_only SampleWorker.self l ∧ result_ok "t1" r
  ∧ ww_emitted (run SampleWorker.execute (ret false) SampleWorker.self
                  (mkWorkerWorld 0%nat [])).2
    = [] ++ l ++ [resultReady (mkResultMessage "t1" 0 (Some r)); workFinished "t1" 0].
Proof.
  exact (worker_reports_once SampleWorker.execute (ret false) SampleWorker.self
           (mkWorkerWorld 0%nat []) SampleWorker.execute_well_behaved).
Defined.
