(* ===== verification/RuntimeStore.v ===== *)
(** The domain events of Runtime V2, then the store that applies them. *)

(** * Domain events of the GUI runtime

    The event classes of gui/runtime_v2_events.py as one inductive type, a
    constructor per class, with the checks of their [__post_init__].  The
    checks of the Python type of a field are carried by the Rocq types, except
    for the identity of an image, which may be of either class. *)

From stdpp Require Import gmap.
From S2P Require Import Prelude.
From S2P Require Import Errors.
From S2P Require Import Targets.
From S2P Require Import RuntimeValues.
From S2P Require Import RuntimeModels.

Module RuntimeOperationType.
Inductive RuntimeOperationType_t : Set := ERASE | PROGRAM | VERIFY | RAM_LOAD | RAM_CRC.
End RuntimeOperationType.

Abbreviation RuntimeOperationType := RuntimeOperationType.RuntimeOperationType_t.

#[export] Instance RuntimeOperationType_eq_dec : EqDecision RuntimeOperationType.
Proof. solve_decision. Defined.

(** [ImageIdentity | RamImageIdentity | None] *)
Inductive AnyImageIdentity : Set :=
| NoIdentity
| FlashIdentity (identity : ImageIdentity)
| RamIdentity (identity : RamImageIdentity).

(** The fields of the three operation events. *)
Record OperationRef : Set := mkOperation {
  op_operation_id : string;
  op_operation_type : RuntimeOperationType;
  op_cpu_id : RuntimeCpuId;
  op_connection_generation : ConnectionGeneration;
  op_image_identity : AnyImageIdentity;
}.

(** [_operation_identity] *)
Definition operation_identity (op : OperationRef) : Res unit :=
  let? _ := identifier (op_operation_id op) "operation_id" in
  match op_operation_type op, op_image_identity op with
  | RuntimeOperationType.ERASE, RamIdentity _ =>
      Raise (Err TypeError (Lit "ERASE image_identity must be ImageIdentity or None"))
  | RuntimeOperationType.ERASE, _ => Ok tt
  | (RuntimeOperationType.PROGRAM | RuntimeOperationType.VERIFY), FlashIdentity _ => Ok tt
  | (RuntimeOperationType.PROGRAM | RuntimeOperationType.VERIFY), _ =>
      Raise (Err TypeError (Lit "image_identity must be ImageIdentity"))
  | _, RamIdentity _ => Ok tt
  | _, _ => Raise (Err TypeError (Lit "image_identity must be RamImageIdentity"))
  end.

Inductive DomainEvent : Type :=
| MetadataReadSucceeded (cpu_id : RuntimeCpuId) (connection_generation : ConnectionGeneration)
    (value : object)
| MetadataReadFailed (cpu_id : RuntimeCpuId) (connection_generation : ConnectionGeneration)
    (error : RuntimeReadError)
| MetadataWriteStarted (operation_id : string) (cpu_id : RuntimeCpuId)
    (connection_generation : ConnectionGeneration) (image_identity : option ImageIdentity)
| DiagnosticReadSucceeded (cpu_id : RuntimeCpuId) (connection_generation : ConnectionGeneration)
    (group : DiagnosticGroup) (value : object)
| DiagnosticReadFailed (cpu_id : RuntimeCpuId) (connection_generation : ConnectionGeneration)
    (group : DiagnosticGroup) (error : RuntimeReadError)
| MemoryReadSucceeded (cpu_id : RuntimeCpuId) (connection_generation : ConnectionGeneration)
    (base_address : Z) (words : list Z) (read_at : datetime)
| MemoryReadFailed (cpu_id : RuntimeCpuId) (connection_generation : ConnectionGeneration)
    (error : RuntimeReadError)
| MemoryCleared (cpu_id : RuntimeCpuId)
| ActiveTargetChanged (cpu_id : option RuntimeCpuId)
| ProgramImageChanged (cpu_id : RuntimeCpuId) (path : string) (parse_status : ImageParseStatus)
    (summary : option FlashImageSummary) (parse_error : option string)
| RamImageChanged (cpu_id : RuntimeCpuId) (path : string) (parse_status : ImageParseStatus)
    (summary : option RamImageSummary) (parse_error : option string)
| SectorSelectionChanged (cpu_id : RuntimeCpuId) (erase_scope : EraseScope)
    (custom_sector_mask : Z)
| ConnectionOpened (connection_info : ConnectionInfo)
| ConnectionClosed (connection_id : string) (connection_generation : ConnectionGeneration)
| ConnectionGenerationChanged (previous_generation current_generation : ConnectionGeneration)
| ProtocolActivityRecorded (connection_generation : ConnectionGeneration) (occurred_at : datetime)
| ConnectionHealthChanged (connection_generation : ConnectionGeneration)
    (state : ConnectionHealthState) (checked_at : datetime) (error : option RuntimeReadError)
| CommunicationErrorRecorded (connection_generation : ConnectionGeneration)
    (error : RuntimeCommunicationError)
| OperationStarted (operation : OperationRef)
| OperationSucceeded (operation : OperationRef)
| OperationFailed (operation : OperationRef) (error_code : string)
| SessionChanged.

(** The check of ProgramImageChanged and RamImageChanged on their path. *)
Definition check_image_path (path name : string) (parse_status : ImageParseStatus) : Res unit :=
  fail (Err ValueError (Fmt "{} {} state requires a non-empty path"
         [VStr (ImageParseStatus_name parse_status); VStr name]))
    when negb (bool_decide (parse_status = ImageParseStatus.EMPTY)) && empty_str path ;;
  Ok tt.

(** [__post_init__] of the event classes.  (The identities that events carry
    are instances of dataclasses that were checked when they were made.) *)
Definition DomainEvent_post_init (event : DomainEvent) : Res DomainEvent :=
  match event with
  | MetadataReadSucceeded _ _ value =>
      fail (Err ValueError (Lit "Metadata success requires a value")) when is_none value ;;
      Ok event
  | MetadataWriteStarted operation_id _ _ _ =>
      let? _ := identifier operation_id "operation_id" in Ok event
  | DiagnosticReadSucceeded _ _ _ value =>
      fail (Err ValueError (Lit "Diagnostics success requires a value")) when is_none value ;;
      Ok event
  | MemoryReadSucceeded _ _ base_address words read_at =>
      let? _ := non_negative_int base_address "base_address" in
      fail (Err ValueError
             (Lit "words must be a non-empty sequence of 16-bit unsigned integers"))
        when negb (nonempty words) || negb (forallb fits_u16 words) ;;
      let? _ := require_utc read_at "read_at" in
      Ok event
  | ProgramImageChanged _ path parse_status summary parse_error =>
      let? _ := validate_parse_state parse_status summary parse_error "program image" in
      let? _ := check_image_path path "program image" parse_status in
      Ok event
  | RamImageChanged _ path parse_status summary parse_error =>
      let? _ := validate_parse_state parse_status summary parse_error "RAM image" in
      let? _ := check_image_path path "RAM image" parse_status in
      Ok event
  | SectorSelectionChanged _ _ custom_sector_mask =>
      let? _ := non_negative_int custom_sector_mask "custom_sector_mask" in Ok event
  | ConnectionOpened connection_info =>
      let? _ := identifier (ci_connection_id connection_info) "connection_id" in
      let? _ := from_target_key (ci_target_key connection_info) in
      Ok event
  | ConnectionClosed connection_id _ =>
      let? _ := identifier connection_id "connection_id" in Ok event
  | ConnectionGenerationChanged previous_generation current_generation =>
      fail (Err ValueError (Lit "current_generation must equal previous_generation + 1"))
        when negb (cg_value current_generation =? cg_value previous_generation + 1) ;;
      Ok event
  | ProtocolActivityRecorded _ occurred_at =>
      let? _ := require_utc occurred_at "occurred_at" in Ok event
  | ConnectionHealthChanged _ state checked_at error =>
      fail (Err ValueError (Lit "UNKNOWN is not a connection health check result"))
        when bool_decide (state = ConnectionHealthState.UNKNOWN) ;;
      let? _ := require_utc checked_at "checked_at" in
      fail (Err ValueError (Lit "HEALTHY cannot carry an error"))
        when bool_decide (state = ConnectionHealthState.HEALTHY) && isSome error ;;
      fail (Err ValueError (Lit "UNHEALTHY requires an error"))
        when bool_decide (state = ConnectionHealthState.UNHEALTHY) && negb (isSome error) ;;
      Ok event
  | OperationStarted operation | OperationSucceeded operation =>
      let? _ := operation_identity operation in Ok event
  | OperationFailed operation error_code =>
      let? _ := operation_identity operation in
      let? _ := identifier error_code "error_code" in
      Ok event
  | MetadataReadFailed _ _ _ | DiagnosticReadFailed _ _ _ _ | MemoryReadFailed _ _ _
  | MemoryCleared _ | ActiveTargetChanged _ | CommunicationErrorRecorded _ _ | SessionChanged =>
      Ok event
  end.

(** The RamImageIdentity, the FlashImageSummary, the RuntimeCommunicationError
    and the ConnectionInfo inside an event were checked when they were made. *)
Definition parts_ok (event : DomainEvent) : Prop :=
  match event with
  | CommunicationErrorRecorded _ error => RuntimeCommunicationError_post_init error = Ok error
  | ConnectionOpened connection_info => ConnectionInfo_post_init connection_info = Ok connection_info
  | OperationStarted op | OperationSucceeded op | OperationFailed op _ =>
      match op_image_identity op with
      | RamIdentity i => RamImageIdentity_post_init i = Ok i
      | _ => True
      end
  | _ => True
  end.

(** An event as the program can have one: an instance of its class. *)
Definition event_ok (event : DomainEvent) : Prop :=
  DomainEvent_post_init event = Ok event ∧ parts_ok event.

(** * The state store of the GUI runtime

    [RuntimeStateDraft] and [RuntimeStateStore] of gui/runtime_v2_models.py:
    the draft that policies change during one transition, and the store that
    commits it.  The lock of the store is held for the whole of each method, so
    every method is one step. *)

(** ** RuntimeStateDraft *)

Record RuntimeStateDraft : Type := mkDraft {
  rd_connection_generation : ConnectionGeneration;
  rd_original_connection_generation : ConnectionGeneration;
  rd_connection : option ConnectionRuntimeState;
  rd_target_resources : gmap RuntimeCpuId TargetResourceState;
  rd_memory_states : gmap RuntimeCpuId MemoryRuntimeState;
  rd_metadata_state : MetadataRuntimeState;
  rd_diagnostics_state : DiagnosticsRuntimeState;
  rd_derived_events : list DomainEvent;
}.

(** [RuntimeStateDraft.__init__] from the fields of the store. *)
Definition RuntimeStateDraft_init (s : RuntimeV2Snapshot) : RuntimeStateDraft :=
  mkDraft (rv_connection_generation s) (rv_connection_generation s) (rv_connection s)
    (rv_target_resources s) (rv_memory_states s) (rv_metadata_state s) (rv_diagnostics_state s) [].

Definition Draft (A : Type) : Type := ST RuntimeStateDraft A.

(** [self._target_resources[cpu_id]] *)
Definition target_resource (cpu_id : RuntimeCpuId) : Draft TargetResourceState :=
  d <- get ;;
  match rd_target_resources d !! cpu_id with
  | Some state => ret state
  | None => raise (Err KeyError (Lit "cpu_id"))
  end.

Definition memory_state (cpu_id : RuntimeCpuId) : Draft MemoryRuntimeState :=
  d <- get ;;
  match rd_memory_states d !! cpu_id with
  | Some state => ret state
  | None => raise (Err KeyError (Lit "cpu_id"))
  end.

Definition replace_connection_generation (value : ConnectionGeneration) : Draft unit :=
  modify (λ d, mkDraft value (rd_original_connection_generation d) (rd_connection d)
    (rd_target_resources d) (rd_memory_states d) (rd_metadata_state d) (rd_diagnostics_state d)
    (rd_derived_events d)).

Definition replace_connection (value : option ConnectionRuntimeState) : Draft unit :=
  modify (λ d, mkDraft (rd_connection_generation d) (rd_original_connection_generation d) value
    (rd_target_resources d) (rd_memory_states d) (rd_metadata_state d) (rd_diagnostics_state d)
    (rd_derived_events d)).

Definition replace_target_resource (cpu_id : RuntimeCpuId) (state : TargetResourceState)
    : Draft unit :=
  if negb (bool_decide (tr_cpu_id state = cpu_id))
  then raise (Err ValueError (Lit "target resource CPU does not match its key")) else
  modify (λ d, mkDraft (rd_connection_generation d) (rd_original_connection_generation d)
    (rd_connection d) (<[cpu_id := state]> (rd_target_resources d)) (rd_memory_states d)
    (rd_metadata_state d) (rd_diagnostics_state d) (rd_derived_events d)).

Definition replace_memory_state (cpu_id : RuntimeCpuId) (state : MemoryRuntimeState) : Draft unit :=
  if negb (bool_decide (mm_cpu_id state = cpu_id))
  then raise (Err ValueError (Lit "memory state CPU does not match its key")) else
  modify (λ d, mkDraft (rd_connection_generation d) (rd_original_connection_generation d)
    (rd_connection d) (rd_target_resources d) (<[cpu_id := state]> (rd_memory_states d))
    (rd_metadata_state d) (rd_diagnostics_state d) (rd_derived_events d)).

Definition replace_metadata_state (state : MetadataRuntimeState) : Draft unit :=
  modify (λ d, mkDraft (rd_connection_generation d) (rd_original_connection_generation d)
    (rd_connection d) (rd_target_resources d) (rd_memory_states d) state
    (rd_diagnostics_state d) (rd_derived_events d)).

Definition replace_diagnostics_state (state : DiagnosticsRuntimeState) : Draft unit :=
  modify (λ d, mkDraft (rd_connection_generation d) (rd_original_connection_generation d)
    (rd_connection d) (rd_target_resources d) (rd_memory_states d) (rd_metadata_state d)
    state (rd_derived_events d)).

Definition record_event (event : DomainEvent) : Draft unit :=
  modify (λ d, mkDraft (rd_connection_generation d) (rd_original_connection_generation d)
    (rd_connection d) (rd_target_resources d) (rd_memory_states d) (rd_metadata_state d)
    (rd_diagnostics_state d) (rd_derived_events d ++ [event])).

(** [RuntimeStateDraft.candidate] *)
Definition candidate (d : RuntimeStateDraft) : Res RuntimeV2Snapshot :=
  RuntimeV2Snapshot_post_init
    (mkSnapshot (rd_connection_generation d) (rd_connection d) (rd_target_resources d)
       (rd_memory_states d) (rd_metadata_state d) (rd_diagnostics_state d)).

(** ** RuntimeStateStore

    The fields of the store are those of a snapshot. *)

Definition RuntimeStateStore : Type := RuntimeV2Snapshot.

(** [{cpu_id: f(cpu_id) for cpu_id in RuntimeCpuId}] *)
Definition for_each_cpu {A} (f : RuntimeCpuId → A) : gmap RuntimeCpuId A :=
  list_to_map (map (λ cpu_id, (cpu_id, f cpu_id)) RuntimeCpuIds).

Definition RuntimeStateStore_init : RuntimeStateStore :=
  mkSnapshot (mkGeneration 0) None (for_each_cpu TargetResourceState_default)
    (for_each_cpu MemoryRuntimeState_default) MetadataRuntimeState_default
    DiagnosticsRuntimeState_default.

Definition Store (A : Type) : Type := ST RuntimeStateStore A.

Definition snapshot : Store RuntimeV2Snapshot :=
  s <- get ;; lift (RuntimeV2Snapshot_post_init s).

Definition set_connection (generation : ConnectionGeneration)
    (connection : option ConnectionRuntimeState) (s : RuntimeStateStore) : RuntimeStateStore :=
  mkSnapshot generation connection (rv_target_resources s) (rv_memory_states s)
    (rv_metadata_state s) (rv_diagnostics_state s).

Definition store_replace_target_resource (cpu_id : RuntimeCpuId) (state : TargetResourceState)
    : Store unit :=
  if negb (bool_decide (tr_cpu_id state = cpu_id))
  then raise (Err ValueError (Lit "target resource CPU does not match its key")) else
  modify (λ s, mkSnapshot (rv_connection_generation s) (rv_connection s)
    (<[cpu_id := state]> (rv_target_resources s)) (rv_memory_states s)
    (rv_metadata_state s) (rv_diagnostics_state s)).

Definition store_replace_memory_state (cpu_id : RuntimeCpuId) (state : MemoryRuntimeState)
    : Store unit :=
  if negb (bool_decide (mm_cpu_id state = cpu_id))
  then raise (Err ValueError (Lit "memory state CPU does not match its key")) else
  modify (λ s, mkSnapshot (rv_connection_generation s) (rv_connection s)
    (rv_target_resources s) (<[cpu_id := state]> (rv_memory_states s))
    (rv_metadata_state s) (rv_diagnostics_state s)).

Definition commit_connection (connection_info : ConnectionInfo) : Store ConnectionRuntimeState :=
  s <- get ;;
  generation <- lift (generation_next (rv_connection_generation s)) ;;
  connection <- lift (from_connection_info connection_info generation) ;;
  modify (set_connection generation (Some connection)) ;;;
  ret connection.

Definition clear_connection : Store unit :=
  modify (λ s, set_connection (rv_connection_generation s) None s).

(** ** Transitions *)

(** A [DomainPolicy] with the name of its class. *)
Record DomainPolicy : Type := mkPolicy {
  policy_name : string;
  policy_apply : DomainEvent → Draft unit;
}.

(** [for policy in policies: policy.apply(event, draft)], the exception of a
    policy wrapped with the name of its class. *)
Definition apply_policies (policies : list DomainPolicy) (event : DomainEvent) : Draft unit :=
  for_each policies (λ policy,
    catch (policy_apply policy event)
      (λ exc, raise (TransitionErr (policy_name policy) exc))).

(** [RuntimeStateStore.transition]: the fields are assigned only after the
    candidate snapshot was built. *)
Definition transition (event : DomainEvent) (policies : list DomainPolicy)
    : Store (RuntimeV2Snapshot * list DomainEvent) :=
  s <- get ;;
  let '(applied, draft) := apply_policies policies event (RuntimeStateDraft_init s) in
  _ <- lift applied ;;
  snapshot <- lift (match candidate draft with
                    | Ok snapshot => Ok snapshot
                    | Raise exc => Raise (TransitionErr "RuntimeV2Snapshot" exc)
                    end) ;;
  modify (λ _, snapshot) ;;;
  ret (snapshot, rd_derived_events draft).
