(* ===== verification/RuntimeDispatch.v ===== *)
(** The policies of Runtime V2, then the dispatcher that runs them in order. *)

(** * Policies of the GUI runtime

    The policy classes of gui/runtime_v2_policies.py, each a function from the
    event to the changes of the draft, and their order in
    [DEFAULT_DOMAIN_POLICIES]. *)

From stdpp Require Import gmap.
From S2P Require Import Prelude.
From S2P Require Import Errors.
From S2P Require Import Targets.
From S2P Require Import RuntimeValues.
From S2P Require Import RuntimeModels.
From S2P Require Import RuntimeStore.

Definition ConnectionGenerationPolicy_apply (event : DomainEvent) : Draft unit :=
  match event with
  | ConnectionOpened _ =>
      previous <- gets rd_connection_generation ;;
      current <- lift (generation_next previous) ;;
      replace_connection_generation current ;;;
      derived <- lift (DomainEvent_post_init (ConnectionGenerationChanged previous current)) ;;
      record_event derived
  | _ => ret tt
  end.

Definition ConnectionStatePolicy_apply (event : DomainEvent) : Draft unit :=
  match event with
  | ConnectionOpened connection_info =>
      d <- get ;;
      if bool_decide (rd_connection_generation d = rd_original_connection_generation d)
      then raise (Err RuntimeError (Lit "ConnectionGenerationPolicy must run first")) else
      connection <- lift (from_connection_info connection_info (rd_connection_generation d)) ;;
      replace_connection (Some connection) ;;;
      derived <- lift (DomainEvent_post_init (ActiveTargetChanged (Some (cr_cpu_id connection)))) ;;
      record_event derived
  | ConnectionClosed connection_id connection_generation =>
      d <- get ;;
      match rd_connection d with
      | None => raise (Err StaleConnectionEventError (Lit "no active Runtime V2 connection"))
      | Some connection =>
          if negb (bool_decide (cr_connection_id connection = connection_id))
          then raise (Err StaleConnectionEventError
                        (Lit "connection ID does not match active connection")) else
          if negb (bool_decide (cr_generation connection = connection_generation))
          then raise (Err StaleConnectionEventError (Lit "connection generation is stale")) else
          replace_connection None ;;;
          derived <- lift (DomainEvent_post_init (ActiveTargetChanged None)) ;;
          record_event derived
      end
  | _ => ret tt
  end.

Definition ConnectionHealthPolicy_apply (event : DomainEvent) : Draft unit :=
  d <- get ;;
  match rd_connection d with
  | None => ret tt
  | Some connection =>
      match event with
      | ProtocolActivityRecorded connection_generation occurred_at =>
          if negb (bool_decide (connection_generation = cr_generation connection)) then ret tt else
          earlier <- lift (match cr_last_protocol_activity connection with
                           | Some last => dt_lt occurred_at last
                           | None => Raise (Err TypeError (Lit "'>=' not supported"))
                           end) ;;
          if negb earlier then
            connection <- lift (ConnectionRuntimeState_post_init
                                  (with_activity (Some occurred_at) connection)) ;;
            replace_connection (Some connection)
          else ret tt
      | ConnectionHealthChanged connection_generation state checked_at error =>
          if negb (bool_decide (connection_generation = cr_generation connection)) then ret tt else
          earlier <- lift (match cr_health_checked_at connection with
                           | Some last => dt_lt checked_at last
                           | None => Ok false
                           end) ;;
          if (earlier : bool) then ret tt else
          connection <- lift (ConnectionRuntimeState_post_init
                                (with_health state (Some checked_at) error connection)) ;;
          replace_connection (Some connection)
      | _ => ret tt
      end
  end.

Definition ConnectionCommunicationErrorPolicy_apply (event : DomainEvent) : Draft unit :=
  match event with
  | CommunicationErrorRecorded connection_generation error =>
      d <- get ;;
      match rd_connection d with
      | Some connection =>
          if bool_decide (cr_generation connection = connection_generation) then
            connection <- lift (ConnectionRuntimeState_post_init
                                  (with_communication_error (Some error) connection)) ;;
            replace_connection (Some connection)
          else ret tt
      | None => ret tt
      end
  | _ => ret tt
  end.

Definition SessionStatePolicy_apply (event : DomainEvent) : Draft unit :=
  match event with
  | SessionChanged =>
      d <- get ;;
      if isSome (rd_connection d)
      then raise (Err SessionChangeBlockedError
                    (Lit "Session change requires no active Runtime V2 connection")) else
      for_each RuntimeCpuIds (λ cpu_id,
        state <- lift (TargetResourceState_post_init (TargetResourceState_default cpu_id)) ;;
        replace_target_resource cpu_id state)
  | _ => ret tt
  end.

(** [_current_connection(event, draft)], from the fields of the event. *)
Definition current_connection (cpu_id : RuntimeCpuId)
    (connection_generation : ConnectionGeneration) (d : RuntimeStateDraft) : bool :=
  match rd_connection d with
  | Some connection => bool_decide (cr_cpu_id connection = cpu_id)
                       && bool_decide (cr_generation connection = connection_generation)
  | None => false
  end.

(** [current_matches]: the memory was read over the connection, whose CPU is
    still the active one. *)
Definition current_matches (connection : option ConnectionRuntimeState)
    (active_cpu : option RuntimeCpuId) (cpu_id : RuntimeCpuId) (current : MemoryRuntimeState)
    : bool :=
  match connection with
  | Some connection =>
      bool_decide (active_cpu = Some cpu_id) && bool_decide (cr_cpu_id connection = cpu_id)
      && bool_decide (mm_connection_generation current = Some (cr_generation connection))
  | None => false
  end.

(** The loop of MemoryFreshnessPolicy over the CPUs after the connection or
    the active target changed. *)
Definition age_memory (active_cpu : option RuntimeCpuId) (cpu_id : RuntimeCpuId) : Draft unit :=
  d <- get ;;
  current <- memory_state cpu_id ;;
  if negb (nonempty (mm_words current))
     || bool_decide (mm_freshness current = DataFreshness.STALE) then ret tt else
  if negb (current_matches (rd_connection d) active_cpu cpu_id current) then
    state <- lift (MemoryRuntimeState_post_init
                     (with_memory_freshness DataFreshness.STALE (mm_read_error current) current)) ;;
    replace_memory_state cpu_id state
  else ret tt.

Definition MemoryFreshnessPolicy_apply (event : DomainEvent) : Draft unit :=
  let clear cpu_id :=
    state <- lift (MemoryRuntimeState_post_init (MemoryRuntimeState_default cpu_id)) ;;
    replace_memory_state cpu_id state in
  match event with
  | SessionChanged => for_each RuntimeCpuIds clear
  | MemoryCleared cpu_id => clear cpu_id
  | MemoryReadSucceeded cpu_id connection_generation base_address words read_at =>
      is_current <- gets (current_connection cpu_id connection_generation) ;;
      if (is_current : bool) then
        state <- lift (MemoryRuntimeState_post_init
                         (mkMemoryState cpu_id DataFreshness.FRESH (Some base_address) words
                            (Some read_at) (Some connection_generation) None)) ;;
        replace_memory_state cpu_id state
      else ret tt
  | MemoryReadFailed cpu_id connection_generation error =>
      is_current <- gets (current_connection cpu_id connection_generation) ;;
      if negb is_current then ret tt else
      current <- memory_state cpu_id ;;
      state <- lift (MemoryRuntimeState_post_init
                       (with_memory_freshness
                          (if nonempty (mm_words current) then DataFreshness.STALE
                           else DataFreshness.EMPTY)
                          (Some error) current)) ;;
      replace_memory_state cpu_id state
  | ActiveTargetChanged cpu_id => for_each RuntimeCpuIds (age_memory cpu_id)
  | ConnectionOpened _ | ConnectionClosed _ _ =>
      d <- get ;;
      for_each RuntimeCpuIds (age_memory (cr_cpu_id <$> rd_connection d))
  | _ => ret tt
  end.

Definition MetadataFreshnessPolicy_apply (event : DomainEvent) : Draft unit :=
  let replace_with value freshness read_error :=
    state <- lift (MetadataRuntimeState_post_init (mkMetadataState value freshness read_error)) ;;
    replace_metadata_state state in
  let write_started cpu_id connection_generation :=
    d <- get ;;
    if current_connection cpu_id connection_generation d
    then replace_with (md_value (rd_metadata_state d)) DataFreshness.STALE None
    else ret tt in
  match event with
  | ConnectionOpened _ | ConnectionClosed _ _ | ActiveTargetChanged _ | SessionChanged =>
      replace_with ONone DataFreshness.EMPTY None
  | MetadataReadSucceeded cpu_id connection_generation value =>
      is_current <- gets (current_connection cpu_id connection_generation) ;;
      if (is_current : bool) then replace_with value DataFreshness.FRESH None else ret tt
  | MetadataReadFailed cpu_id connection_generation error =>
      d <- get ;;
      if negb (current_connection cpu_id connection_generation d) then ret tt else
      let current := rd_metadata_state d in
      replace_with (md_value current)
        (if negb (is_none (md_value current))
            || bool_decide (md_freshness current = DataFreshness.STALE)
         then DataFreshness.STALE else DataFreshness.EMPTY)
        (Some error)
  | MetadataWriteStarted _ cpu_id connection_generation _ =>
      write_started cpu_id connection_generation
  | OperationStarted operation =>
      match op_operation_type operation with
      | RuntimeOperationType.ERASE | RuntimeOperationType.PROGRAM =>
          write_started (op_cpu_id operation) (op_connection_generation operation)
      | _ => ret tt
      end
  | _ => ret tt
  end.

Definition DiagnosticsFreshnessPolicy_apply (event : DomainEvent) : Draft unit :=
  let replace_group cpu_id connection_generation group make :=
    d <- get ;;
    if negb (current_connection cpu_id connection_generation d) then ret tt else
    let current := rd_diagnostics_state d in
    let previous := group_state current group in
    state <- lift (DiagnosticRuntimeState_post_init (make previous)) ;;
    diagnostics <- lift (DiagnosticsRuntimeState_post_init
                           (set_group_state group state current)) ;;
    replace_diagnostics_state diagnostics in
  match event with
  | ConnectionOpened _ | ConnectionClosed _ _ | ActiveTargetChanged _ | SessionChanged =>
      state <- lift (DiagnosticsRuntimeState_post_init DiagnosticsRuntimeState_default) ;;
      replace_diagnostics_state state
  | DiagnosticReadSucceeded cpu_id connection_generation group value =>
      replace_group cpu_id connection_generation group
        (λ _, mkDiagnosticState group value DataFreshness.FRESH None)
  | DiagnosticReadFailed cpu_id connection_generation group error =>
      replace_group cpu_id connection_generation group
        (λ previous, mkDiagnosticState group (dg_value previous)
           (if negb (is_none (dg_value previous)) then DataFreshness.STALE
            else DataFreshness.EMPTY) (Some error))
  | _ => ret tt
  end.

(** [draft.replace_target_resource(cpu_id, replace(draft.target_resource(cpu_id), ...))] *)
Definition update_resource (cpu_id : RuntimeCpuId)
    (update : TargetResourceState → TargetResourceState) : Draft unit :=
  current <- target_resource cpu_id ;;
  state <- lift (TargetResourceState_post_init (update current)) ;;
  replace_target_resource cpu_id state.

Definition EvidenceInvalidationPolicy_apply (event : DomainEvent) : Draft unit :=
  match event with
  | ConnectionOpened _ | ConnectionClosed _ _ | ConnectionGenerationChanged _ _
  | ActiveTargetChanged _ | SessionChanged =>
      for_each RuntimeCpuIds (λ cpu_id, update_resource cpu_id (with_evidence None None))
  | OperationStarted operation =>
      update_resource (op_cpu_id operation) (λ current,
        match op_operation_type operation with
        | RuntimeOperationType.ERASE | RuntimeOperationType.PROGRAM
        | RuntimeOperationType.VERIFY => with_evidence None (tr_ram_crc_evidence current) current
        | _ => with_evidence (tr_verify_evidence current) None current
        end)
  | ProgramImageChanged cpu_id _ _ (Some summary) _ =>
      current <- target_resource cpu_id ;;
      match tr_verify_evidence current with
      | Some evidence =>
          if negb (bool_decide (ve_image_identity evidence = fs_identity summary))
          then update_resource cpu_id (λ c, with_evidence None (tr_ram_crc_evidence c) c)
          else ret tt
      | None => ret tt
      end
  | RamImageChanged cpu_id _ _ (Some summary) _ =>
      current <- target_resource cpu_id ;;
      match tr_ram_crc_evidence current with
      | Some evidence =>
          if negb (bool_decide (ce_ram_image_identity evidence = rs_identity summary))
          then update_resource cpu_id (λ c, with_evidence (tr_verify_evidence c) None c)
          else ret tt
      | None => ret tt
      end
  | _ => ret tt
  end.

Definition VerifyEvidencePolicy_apply (event : DomainEvent) : Draft unit :=
  match event with
  | OperationSucceeded (mkOperation operation_id RuntimeOperationType.VERIFY cpu_id
                          connection_generation image_identity) =>
      d <- get ;;
      resource <- target_resource cpu_id ;;
      match tr_program_image_summary resource, image_identity with
      | Some summary, FlashIdentity identity =>
          if current_connection cpu_id connection_generation d
             && bool_decide (tr_program_image_parse_status resource = ImageParseStatus.READY)
             && bool_decide (fs_identity summary = identity)
          then
            evidence <- lift (VerifyEvidence_post_init
                                (mkVerifyEvidence cpu_id connection_generation identity
                                   operation_id)) ;;
            update_resource cpu_id (λ c, with_evidence (Some evidence) (tr_ram_crc_evidence c) c)
          else ret tt
      | _, _ => ret tt
      end
  | _ => ret tt
  end.

Definition RamCrcEvidencePolicy_apply (event : DomainEvent) : Draft unit :=
  match event with
  | OperationSucceeded (mkOperation operation_id RuntimeOperationType.RAM_CRC cpu_id
                          connection_generation (RamIdentity identity)) =>
      d <- get ;;
      resource <- target_resource cpu_id ;;
      match tr_ram_image_summary resource with
      | Some summary =>
          if current_connection cpu_id connection_generation d
             && bool_decide (tr_ram_image_parse_status resource = ImageParseStatus.READY)
             && bool_decide (rs_identity summary = identity)
          then
            evidence <- lift (RamCrcEvidence_post_init
                                (mkRamCrcEvidence cpu_id connection_generation identity
                                   (ri_entry_point identity) (ri_image_crc32 identity)
                                   operation_id)) ;;
            update_resource cpu_id (λ c, with_evidence (tr_verify_evidence c) (Some evidence) c)
          else ret tt
      | None => ret tt
      end
  | _ => ret tt
  end.

Definition SectorSelectionPolicy_apply (event : DomainEvent) : Draft unit :=
  match event with
  | SectorSelectionChanged cpu_id erase_scope custom_sector_mask =>
      update_resource cpu_id (with_sectors erase_scope custom_sector_mask)
  | _ => ret tt
  end.

Definition ProgramImageStatePolicy_apply (event : DomainEvent) : Draft unit :=
  match event with
  | ProgramImageChanged cpu_id path parse_status summary parse_error =>
      update_resource cpu_id (with_program_image path summary parse_status parse_error)
  | _ => ret tt
  end.

Definition RamImageStatePolicy_apply (event : DomainEvent) : Draft unit :=
  match event with
  | RamImageChanged cpu_id path parse_status summary parse_error =>
      update_resource cpu_id (with_ram_image path summary parse_status parse_error)
  | _ => ret tt
  end.

Definition DEFAULT_DOMAIN_POLICIES : list DomainPolicy :=
  [ mkPolicy "ConnectionGenerationPolicy" ConnectionGenerationPolicy_apply;
    mkPolicy "ConnectionStatePolicy" ConnectionStatePolicy_apply;
    mkPolicy "ConnectionHealthPolicy" ConnectionHealthPolicy_apply;
    mkPolicy "ConnectionCommunicationErrorPolicy" ConnectionCommunicationErrorPolicy_apply;
    mkPolicy "MemoryFreshnessPolicy" MemoryFreshnessPolicy_apply;
    mkPolicy "MetadataFreshnessPolicy" MetadataFreshnessPolicy_apply;
    mkPolicy "DiagnosticsFreshnessPolicy" DiagnosticsFreshnessPolicy_apply;
    mkPolicy "EvidenceInvalidationPolicy" EvidenceInvalidationPolicy_apply;
    mkPolicy "VerifyEvidencePolicy" VerifyEvidencePolicy_apply;
    mkPolicy "RamCrcEvidencePolicy" RamCrcEvidencePolicy_apply;
    mkPolicy "SectorSelectionPolicy" SectorSelectionPolicy_apply;
    mkPolicy "SessionStatePolicy" SessionStatePolicy_apply;
    mkPolicy "ProgramImageStatePolicy" ProgramImageStatePolicy_apply;
    mkPolicy "RamImageStatePolicy" RamImageStatePolicy_apply ].

(** * Dispatch of domain events

    [DomainEventDispatcher] of gui/runtime_v2_transition.py: it applies the
    policies to the store and publishes the result to its listeners.  A
    listener is code outside the component: it is given by its identity, its
    qualified name and what a call of it does; it may raise, and it does not
    call the dispatcher back. *)

Record TransitionListenerFailure : Type := mkListenerFailure {
  lf_listener_name : string;
  lf_exception_type : ExnClass;
  lf_message : Msg;
}.

Record RuntimeTransitionResult : Type := mkTransitionResult {
  rt_source_event : DomainEvent;
  rt_derived_events : list DomainEvent;
  rt_snapshot : RuntimeV2Snapshot;
  rt_listener_failures : list TransitionListenerFailure;
}.

Record TransitionListener : Type := mkListener {
  tl_id : Z;
  tl_qualname : string;
  tl_call : RuntimeTransitionResult → Res unit;
}.

Record DomainEventDispatcher : Type := mkDispatcher {
  de_store : RuntimeStateStore;
  de_policies : list DomainPolicy;
  de_listeners : list TransitionListener;
}.

Definition Dispatch (A : Type) : Type := ST DomainEventDispatcher A.

(** [DomainEventDispatcher(store)] *)
Definition DomainEventDispatcher_init (store : RuntimeStateStore) : DomainEventDispatcher :=
  mkDispatcher store DEFAULT_DOMAIN_POLICIES [].

Definition set_listeners (listeners : list TransitionListener) (d : DomainEventDispatcher)
    : DomainEventDispatcher :=
  mkDispatcher (de_store d) (de_policies d) listeners.

(** [a == b] of two listeners. *)
Definition same_listener (a b : TransitionListener) : bool := tl_id a =? tl_id b.

Definition subscribe (listener : TransitionListener) : Dispatch unit :=
  modify (λ d,
    if existsb (same_listener listener) (de_listeners d) then d
    else set_listeners (de_listeners d ++ [listener]) d).

(** [list.remove]: the first occurrence. *)
Fixpoint remove_listener (listener : TransitionListener) (l : list TransitionListener)
    : list TransitionListener :=
  match l with
  | [] => []
  | x :: l => if same_listener listener x then l else x :: remove_listener listener l
  end.

Definition unsubscribe (listener : TransitionListener) : Dispatch unit :=
  modify (λ d, set_listeners (remove_listener listener (de_listeners d)) d).

(** The loop of [dispatch] over the listeners: the failures it collects. *)
Definition publish (result : RuntimeTransitionResult) (listeners : list TransitionListener)
    : list TransitionListenerFailure :=
  flat_map (λ listener,
    match tl_call listener result with
    | Ok _ => []
    | Raise exc => [mkListenerFailure (tl_qualname listener) (class_of exc) (exn_str exc)]
    end) listeners.

Definition dispatch (event : DomainEvent) : Dispatch RuntimeTransitionResult :=
  d <- get ;;
  let '(outcome, store) := transition event (de_policies d) (de_store d) in
  modify (λ d, mkDispatcher store (de_policies d) (de_listeners d)) ;;;
  committed <- lift outcome ;;
  let result := mkTransitionResult event committed.2 committed.1 [] in
  ret (mkTransitionResult event committed.2 committed.1 (publish result (de_listeners d))).
