(* ===== verification/RuntimeTable.v ===== *)
(** * What each event does

    The Runtime V2 transitions as a table: one row per event, saying what the
    event does to the whole state.  The invariant of the state is stated
    here; that the ordered policies implement the table is proved in
    RuntimeRefinement.v. *)

From stdpp Require Import gmap.
From S2P Require Import Prelude.
From S2P Require Import Errors.
From S2P Require Import Targets.
From S2P Require Import RuntimeValues.
From S2P Require Import RuntimeModels.
From S2P Require Import RuntimeStore.

(** ** Changes of one part of the state *)

Definition on_connection (f : ConnectionRuntimeState → ConnectionRuntimeState)
    (s : RuntimeV2Snapshot) : RuntimeV2Snapshot :=
  mkSnapshot (rv_connection_generation s) (f <$> rv_connection s) (rv_target_resources s)
    (rv_memory_states s) (rv_metadata_state s) (rv_diagnostics_state s).

Definition on_resources
    (f : gmap RuntimeCpuId TargetResourceState → gmap RuntimeCpuId TargetResourceState)
    (s : RuntimeV2Snapshot) : RuntimeV2Snapshot :=
  mkSnapshot (rv_connection_generation s) (rv_connection s) (f (rv_target_resources s))
    (rv_memory_states s) (rv_metadata_state s) (rv_diagnostics_state s).

Definition on_memory
    (f : gmap RuntimeCpuId MemoryRuntimeState → gmap RuntimeCpuId MemoryRuntimeState)
    (s : RuntimeV2Snapshot) : RuntimeV2Snapshot :=
  mkSnapshot (rv_connection_generation s) (rv_connection s) (rv_target_resources s)
    (f (rv_memory_states s)) (rv_metadata_state s) (rv_diagnostics_state s).

Definition put_metadata (m : MetadataRuntimeState) (s : RuntimeV2Snapshot) : RuntimeV2Snapshot :=
  mkSnapshot (rv_connection_generation s) (rv_connection s) (rv_target_resources s)
    (rv_memory_states s) m (rv_diagnostics_state s).

Definition put_diagnostics (d : DiagnosticsRuntimeState) (s : RuntimeV2Snapshot)
    : RuntimeV2Snapshot :=
  mkSnapshot (rv_connection_generation s) (rv_connection s) (rv_target_resources s)
    (rv_memory_states s) (rv_metadata_state s) d.

(** ** The rows *)

(** The event comes from the active connection. *)
Definition is_active (cpu_id : RuntimeCpuId) (generation : ConnectionGeneration)
    (connection : option ConnectionRuntimeState) : bool :=
  match connection with
  | Some c => bool_decide (cr_cpu_id c = cpu_id) && bool_decide (cr_generation c = generation)
  | None => false
  end.

(** Data read earlier is out of date. *)
Definition outdate (m : MemoryRuntimeState) : MemoryRuntimeState :=
  if bool_decide (mm_freshness m = DataFreshness.FRESH)
  then with_memory_freshness DataFreshness.STALE (mm_read_error m) m else m.

Definition no_evidence : TargetResourceState → TargetResourceState := with_evidence None None.

Definition no_verify (r : TargetResourceState) : TargetResourceState :=
  with_evidence None (tr_ram_crc_evidence r) r.

Definition no_ram_crc (r : TargetResourceState) : TargetResourceState :=
  with_evidence (tr_verify_evidence r) None r.

(** The active connection, its memory, metadata and diagnostics belong to the
    past: [keep] says of which CPU the memory is still up to date. *)
Definition start_over (generation : ConnectionGeneration)
    (connection : option ConnectionRuntimeState) (keep : option RuntimeCpuId)
    (s : RuntimeV2Snapshot) : RuntimeV2Snapshot :=
  mkSnapshot generation connection (no_evidence <$> rv_target_resources s)
    ((λ m, if bool_decide (keep = Some (mm_cpu_id m)) then m else outdate m)
       <$> rv_memory_states s)
    MetadataRuntimeState_default DiagnosticsRuntimeState_default.

Definition stale_reason (connection : option ConnectionRuntimeState) (connection_id : string) : Msg :=
  match connection with
  | None => Lit "no active Runtime V2 connection"
  | Some c => if bool_decide (cr_connection_id c = connection_id)
              then Lit "connection generation is stale"
              else Lit "connection ID does not match active connection"
  end.

(** The new state of a policy's value, or the exception wrapped as the
    transition does. *)
Definition by_policy {A} (policy : string) (r : Res A) (f : A → RuntimeV2Snapshot)
    : Res RuntimeV2Snapshot :=
  match r with
  | Ok a => Ok (f a)
  | Raise exc => Raise (TransitionErr policy exc)
  end.

(** The image of the evidence is the given one, or there is no evidence. *)
Definition about_image (identity : ImageIdentity) (r : TargetResourceState) : bool :=
  match tr_verify_evidence r with
  | Some e => bool_decide (ve_image_identity e = identity)
  | None => true
  end.

Definition about_ram_image (identity : RamImageIdentity) (r : TargetResourceState) : bool :=
  match tr_ram_crc_evidence r with
  | Some e => bool_decide (ce_ram_image_identity e = identity)
  | None => true
  end.

(** The program image is ready and is the given one. *)
Definition image_ready (identity : ImageIdentity) (r : TargetResourceState) : bool :=
  match tr_program_image_summary r with
  | Some summary => bool_decide (tr_program_image_parse_status r = ImageParseStatus.READY)
                    && bool_decide (fs_identity summary = identity)
  | None => false
  end.

Definition ram_image_ready (identity : RamImageIdentity) (r : TargetResourceState) : bool :=
  match tr_ram_image_summary r with
  | Some summary => bool_decide (tr_ram_image_parse_status r = ImageParseStatus.READY)
                    && bool_decide (rs_identity summary = identity)
  | None => false
  end.

Definition program_image_row (path : string) (summary : option FlashImageSummary)
    (status : ImageParseStatus) (error : option string) (r : TargetResourceState)
    : TargetResourceState :=
  with_program_image path summary status error
    (match summary with
     | Some new => if about_image (fs_identity new) r then r else no_verify r
     | None => r
     end).

Definition ram_image_row (path : string) (summary : option RamImageSummary)
    (status : ImageParseStatus) (error : option string) (r : TargetResourceState)
    : TargetResourceState :=
  with_ram_image path summary status error
    (match summary with
     | Some new => if about_ram_image (rs_identity new) r then r else no_ram_crc r
     | None => r
     end).

(** The metadata of the active connection is about to be out of date. *)
Definition metadata_written (cpu_id : RuntimeCpuId) (generation : ConnectionGeneration)
    (s : RuntimeV2Snapshot) : RuntimeV2Snapshot :=
  if is_active cpu_id generation (rv_connection s)
  then put_metadata (mkMetadataState (md_value (rv_metadata_state s)) DataFreshness.STALE None) s
  else s.

Definition started_row (op : OperationRef) (s : RuntimeV2Snapshot) : RuntimeV2Snapshot :=
  let written := metadata_written (op_cpu_id op) (op_connection_generation op) s in
  match op_operation_type op with
  | RuntimeOperationType.ERASE | RuntimeOperationType.PROGRAM =>
      on_resources (alter no_verify (op_cpu_id op)) written
  | RuntimeOperationType.VERIFY => on_resources (alter no_verify (op_cpu_id op)) s
  | RuntimeOperationType.RAM_LOAD | RuntimeOperationType.RAM_CRC =>
      on_resources (alter no_ram_crc (op_cpu_id op)) s
  end.

Definition succeeded_row (op : OperationRef) (s : RuntimeV2Snapshot) : RuntimeV2Snapshot :=
  let '(mkOperation id type cpu_id generation identity) := op in
  if negb (is_active cpu_id generation (rv_connection s)) then s else
  match type, identity with
  | RuntimeOperationType.VERIFY, FlashIdentity identity =>
      on_resources (alter (λ r,
        if image_ready identity r
        then with_evidence (Some (mkVerifyEvidence cpu_id generation identity id))
               (tr_ram_crc_evidence r) r
        else r) cpu_id) s
  | RuntimeOperationType.RAM_CRC, RamIdentity identity =>
      on_resources (alter (λ r,
        if ram_image_ready identity r
        then with_evidence (tr_verify_evidence r)
               (Some (mkRamCrcEvidence cpu_id generation identity (ri_entry_point identity)
                        (ri_image_crc32 identity) id)) r
        else r) cpu_id) s
  | _, _ => s
  end.

Definition later (previous : option datetime) (t : datetime) : bool :=
  match previous with Some p => dt_clock p <=? dt_clock t | None => true end.

(** The state after each event, or the exception of the transition. *)
Definition event_effect (event : DomainEvent) (s : RuntimeV2Snapshot) : Res RuntimeV2Snapshot :=
  match event with
  | ConnectionOpened info =>
      let generation := mkGeneration (cg_value (rv_connection_generation s) + 1) in
      by_policy "ConnectionStatePolicy" (from_connection_info info generation)
        (λ c, start_over generation (Some c) None s)
  | ConnectionClosed connection_id generation =>
      if match rv_connection s with
         | Some c => bool_decide (cr_connection_id c = connection_id)
                     && bool_decide (cr_generation c = generation)
         | None => false
         end
      then Ok (start_over (rv_connection_generation s) None None s)
      else Raise (TransitionErr "ConnectionStatePolicy"
                    (Err StaleConnectionEventError
                       (stale_reason (rv_connection s) connection_id)))
  | ActiveTargetChanged cpu_id =>
      Ok (start_over (rv_connection_generation s) (rv_connection s) cpu_id s)
  | ConnectionGenerationChanged _ _ => Ok (on_resources (fmap no_evidence) s)
  | SessionChanged =>
      if isSome (rv_connection s)
      then Raise (TransitionErr "SessionStatePolicy"
                    (Err SessionChangeBlockedError
                       (Lit "Session change requires no active Runtime V2 connection")))
      else Ok (mkSnapshot (rv_connection_generation s) None
                 (for_each_cpu TargetResourceState_default)
                 (for_each_cpu MemoryRuntimeState_default)
                 MetadataRuntimeState_default DiagnosticsRuntimeState_default)
  | ProtocolActivityRecorded generation occurred_at =>
      Ok (on_connection (λ c,
        if bool_decide (generation = cr_generation c)
           && later (cr_last_protocol_activity c) occurred_at
        then with_activity (Some occurred_at) c else c) s)
  | ConnectionHealthChanged generation state checked_at error =>
      Ok (on_connection (λ c,
        if bool_decide (generation = cr_generation c) && later (cr_health_checked_at c) checked_at
        then with_health state (Some checked_at) error c else c) s)
  | CommunicationErrorRecorded generation error =>
      Ok (on_connection (λ c,
        if bool_decide (cr_generation c = generation)
        then with_communication_error (Some error) c else c) s)
  | MemoryReadSucceeded cpu_id generation base_address words read_at =>
      Ok (if is_active cpu_id generation (rv_connection s) then
            on_memory (<[cpu_id := mkMemoryState cpu_id DataFreshness.FRESH (Some base_address)
                                     words (Some read_at) (Some generation) None]>) s
          else s)
  | MemoryReadFailed cpu_id generation error =>
      Ok (if is_active cpu_id generation (rv_connection s) then
            on_memory (alter (λ m, with_memory_freshness
              (if nonempty (mm_words m) then DataFreshness.STALE else DataFreshness.EMPTY)
              (Some error) m) cpu_id) s
          else s)
  | MemoryCleared cpu_id => Ok (on_memory (<[cpu_id := MemoryRuntimeState_default cpu_id]>) s)
  | MetadataReadSucceeded cpu_id generation value =>
      if is_active cpu_id generation (rv_connection s) then
        by_policy "MetadataFreshnessPolicy" (freeze value)
          (λ v, put_metadata (mkMetadataState v DataFreshness.FRESH None) s)
      else Ok s
  | MetadataReadFailed cpu_id generation error =>
      let m := rv_metadata_state s in
      Ok (if is_active cpu_id generation (rv_connection s) then
            put_metadata (mkMetadataState (md_value m)
              (if negb (is_none (md_value m))
                  || bool_decide (md_freshness m = DataFreshness.STALE)
               then DataFreshness.STALE else DataFreshness.EMPTY) (Some error)) s
          else s)
  | MetadataWriteStarted _ cpu_id generation _ => Ok (metadata_written cpu_id generation s)
  | DiagnosticReadSucceeded cpu_id generation group value =>
      if is_active cpu_id generation (rv_connection s) then
        by_policy "DiagnosticsFreshnessPolicy" (freeze value)
          (λ v, put_diagnostics (set_group_state group
                  (mkDiagnosticState group v DataFreshness.FRESH None) (rv_diagnostics_state s)) s)
      else Ok s
  | DiagnosticReadFailed cpu_id generation group error =>
      let value := dg_value (group_state (rv_diagnostics_state s) group) in
      Ok (if is_active cpu_id generation (rv_connection s) then
            put_diagnostics (set_group_state group
              (mkDiagnosticState group value
                 (if negb (is_none value) then DataFreshness.STALE else DataFreshness.EMPTY)
                 (Some error)) (rv_diagnostics_state s)) s
          else s)
  | SectorSelectionChanged cpu_id scope mask =>
      Ok (on_resources (alter (with_sectors scope mask) cpu_id) s)
  | ProgramImageChanged cpu_id path status summary error =>
      Ok (on_resources (alter (program_image_row path summary status error) cpu_id) s)
  | RamImageChanged cpu_id path status summary error =>
      Ok (on_resources (alter (ram_image_row path summary status error) cpu_id) s)
  | OperationStarted op => Ok (started_row op s)
  | OperationSucceeded op => Ok (succeeded_row op s)
  | OperationFailed _ _ => Ok s
  end.

(** The events that a transition derives from its event. *)
Definition derived_from (event : DomainEvent) (before after : RuntimeV2Snapshot)
    : list DomainEvent :=
  match event with
  | ConnectionOpened _ =>
      [ConnectionGenerationChanged (rv_connection_generation before)
         (rv_connection_generation after);
       ActiveTargetChanged (cr_cpu_id <$> rv_connection after)]
  | ConnectionClosed _ _ => [ActiveTargetChanged None]
  | _ => []
  end.

(** ** The invariant of the state *)

(** The evidence of a target was obtained on the active connection, for the
    image that the target has now (if it has a readable one). *)
Definition verify_ok (connection : option ConnectionRuntimeState) (cpu_id : RuntimeCpuId)
    (r : TargetResourceState) : Prop :=
  ∀ e, tr_verify_evidence r = Some e →
    ve_cpu_id e = cpu_id ∧ is_active cpu_id (ve_connection_generation e) connection = true ∧
    ∀ summary, tr_program_image_summary r = Some summary →
      fs_identity summary = ve_image_identity e.

Definition ram_crc_ok (connection : option ConnectionRuntimeState) (cpu_id : RuntimeCpuId)
    (r : TargetResourceState) : Prop :=
  ∀ e, tr_ram_crc_evidence r = Some e →
    ce_cpu_id e = cpu_id ∧ is_active cpu_id (ce_connection_generation e) connection = true ∧
    RamCrcEvidence_post_init e = Ok e ∧
    ∀ summary, tr_ram_image_summary r = Some summary →
      rs_identity summary = ce_ram_image_identity e.

Definition resource_ok (connection : option ConnectionRuntimeState) (cpu_id : RuntimeCpuId)
    (r : TargetResourceState) : Prop :=
  tr_cpu_id r = cpu_id ∧ TargetResourceState_post_init r = Ok r ∧
  verify_ok connection cpu_id r ∧ ram_crc_ok connection cpu_id r.

(** Fresh memory was read over the active connection. *)
Definition memory_ok (connection : option ConnectionRuntimeState) (cpu_id : RuntimeCpuId)
    (m : MemoryRuntimeState) : Prop :=
  mm_cpu_id m = cpu_id ∧ MemoryRuntimeState_post_init m = Ok m ∧
  (mm_freshness m = DataFreshness.FRESH →
   ∃ g, mm_connection_generation m = Some g ∧ is_active cpu_id g connection = true).

(** Fresh metadata and diagnostics need a connection. *)
Definition metadata_ok (connection : option ConnectionRuntimeState) (m : MetadataRuntimeState)
    : Prop :=
  MetadataRuntimeState_post_init m = Ok m ∧
  (md_freshness m = DataFreshness.FRESH → is_Some connection).

Definition diagnostic_ok (connection : option ConnectionRuntimeState) (group : DiagnosticGroup)
    (d : DiagnosticRuntimeState) : Prop :=
  dg_group d = group ∧ DiagnosticRuntimeState_post_init d = Ok d ∧
  (dg_freshness d = DataFreshness.FRESH → is_Some connection).

Definition connection_ok (generation : ConnectionGeneration)
    (connection : option ConnectionRuntimeState) : Prop :=
  ∀ c, connection = Some c →
    cr_generation c = generation ∧ ConnectionRuntimeState_post_init c = Ok c.

Record runtime_ok (s : RuntimeV2Snapshot) : Prop := mkRuntimeOk {
  ok_generation : 0 <= cg_value (rv_connection_generation s);
  ok_connection : connection_ok (rv_connection_generation s) (rv_connection s);
  ok_resources : ∀ cpu_id, ∃ r, rv_target_resources s !! cpu_id = Some r ∧
    resource_ok (rv_connection s) cpu_id r;
  ok_memory : ∀ cpu_id, ∃ m, rv_memory_states s !! cpu_id = Some m ∧
    memory_ok (rv_connection s) cpu_id m;
  ok_metadata : metadata_ok (rv_connection s) (rv_metadata_state s);
  ok_diagnostics : ∀ group,
    diagnostic_ok (rv_connection s) group (group_state (rv_diagnostics_state s) group);
}.
