(* ===== verification/RuntimeInvariant.v ===== *)
(** * The table of transitions keeps the invariant

    Every row of RuntimeTable.v takes a state that satisfies [runtime_ok] to
    one that does, given an event as its class makes them. *)

From stdpp Require Import gmap.
From S2P Require Import Prelude.
From S2P Require Import Errors.
From S2P Require Import Targets.
From S2P Require Import RuntimeValues.
From S2P Require Import RuntimeModels.
From S2P Require Import RuntimeStore.
From S2P Require Import RuntimeTable.

(** ** Constructors that succeed *)

(** Split the checks of a construction in a hypothesis or in the goal. *)
Ltac checks :=
  repeat match goal with
  | H : (let? _ := ?x in _) = Ok _ |- _ => destruct x eqn:?; [|discriminate H]
  | H : (if ?b then Raise _ else _) = Ok _ |- _ => destruct b eqn:?; [discriminate H|]
  | H : Ok _ = Ok _ |- _ => injection H as H
  end.

Lemma identifier_ok value name : identifier value name = Ok tt ↔ value <> EmptyString.
Proof. unfold identifier, empty_str. by case_bool_decide. Qed.

Lemma non_negative_int_ok value name : non_negative_int value name = Ok tt ↔ 0 <= value.
Proof. unfold non_negative_int. destruct (Z.ltb_spec value 0); split; try done; lia. Qed.

Lemma require_utc_ok value name : require_utc value name = Ok tt ↔ is_utc value = true.
Proof. unfold require_utc. by destruct (is_utc value). Qed.

(** The checks of a resource, one by one. *)
Definition parse_ok {A} (status : ImageParseStatus) (summary : option A) (error : option string)
    (name : string) : Prop := validate_parse_state status summary error name = Ok tt.

Lemma resource_checks r :
  TargetResourceState_post_init r = Ok r ↔
  parse_ok (tr_program_image_parse_status r) (tr_program_image_summary r)
    (tr_program_image_parse_error r) "program image" ∧
  parse_ok (tr_ram_image_parse_status r) (tr_ram_image_summary r)
    (tr_ram_image_parse_error r) "RAM image" ∧
  0 <= tr_custom_sector_mask r ∧
  (∀ e, tr_verify_evidence r = Some e → ve_cpu_id e = tr_cpu_id r) ∧
  (∀ e, tr_ram_crc_evidence r = Some e → ce_cpu_id e = tr_cpu_id r).
Proof.
  unfold TargetResourceState_post_init, parse_ok. rewrite <- (non_negative_int_ok _ "custom_sector_mask").
  split.
  - intros H. checks. repeat match goal with u : unit |- _ => destruct u end.
    split_and!; [done..| |]; intros e E; rewrite E in *.
    + match goal with H : negb (bool_decide (ve_cpu_id e = _)) = false |- _ =>
        by apply negb_false_iff, bool_decide_eq_true in H end.
    + match goal with H : negb (bool_decide (ce_cpu_id e = _)) = false |- _ =>
        by apply negb_false_iff, bool_decide_eq_true in H end.
  - intros (-> & -> & -> & Hv & Hc).
    destruct (tr_verify_evidence r) as [e|]; [rewrite (bool_decide_eq_true_2 _ (Hv _ eq_refl)); simpl|].
    all: destruct (tr_ram_crc_evidence r) as [e'|]; [rewrite (bool_decide_eq_true_2 _ (Hc _ eq_refl)); simpl|].
    all: done.
Qed.

(** ** Resources *)

Section resource.
  Context (connection : option ConnectionRuntimeState) (cpu_id : RuntimeCpuId).
  Implicit Types r : TargetResourceState.

Lemma resource_ok_no_evidence connection' r :
  resource_ok connection cpu_id r → resource_ok connection' cpu_id (no_evidence r).
Proof.
  intros (? & Hr & _ & _). apply resource_checks in Hr as (? & ? & ? & _ & _).
  split_and!; [done| |done..]. by apply resource_checks.
Qed.

Lemma resource_ok_no_verify r :
  resource_ok connection cpu_id r → resource_ok connection cpu_id (no_verify r).
Proof.
  intros (? & Hr & _ & ?). apply resource_checks in Hr as (? & ? & ? & _ & ?).
  split_and!; [done| |done..]. by apply resource_checks.
Qed.

Lemma resource_ok_no_ram_crc r :
  resource_ok connection cpu_id r → resource_ok connection cpu_id (no_ram_crc r).
Proof.
  intros (? & Hr & ? & _). apply resource_checks in Hr as (? & ? & ? & ? & _).
  split_and!; [done| |done..]. by apply resource_checks.
Qed.

Lemma resource_ok_sectors scope mask r :
  0 <= mask → resource_ok connection cpu_id r →
  resource_ok connection cpu_id (with_sectors scope mask r).
Proof.
  intros Hm (? & Hr & ? & ?). apply resource_checks in Hr as (? & ? & ? & ? & ?).
  split_and!; [done| |done..]. by apply resource_checks.
Qed.

Lemma resource_ok_program_image path summary status error r :
  parse_ok status summary error "program image" → resource_ok connection cpu_id r →
  resource_ok connection cpu_id (program_image_row path summary status error r).
Proof.
  intros Hp Hr. unfold program_image_row.
  set (r' := match summary with Some new => _ | None => r end).
  assert (resource_ok connection cpu_id r' ∧
    ∀ e new, tr_verify_evidence r' = Some e → summary = Some new →
      fs_identity new = ve_image_identity e) as [Hr' Hnew].
  { subst r'. destruct summary as [new|]; [|done].
    destruct (about_image (fs_identity new) r) eqn:E.
    - split; [done|]. unfold about_image in E. intros e new' He [= <-]. rewrite He in E.
      by apply bool_decide_eq_true in E.
    - split; [by apply resource_ok_no_verify|done]. }
  clearbody r'. clear r Hr. destruct Hr' as (Hc & Hr & Hv & Hram).
  apply resource_checks in Hr as (? & ? & ? & ? & ?).
  split_and!; [done| | |done].
  - by apply resource_checks.
  - intros e He. destruct (Hv e He) as (? & ? & _). split_and!; eauto.
Qed.

Lemma resource_ok_ram_image path summary status error r :
  parse_ok status summary error "RAM image" → resource_ok connection cpu_id r →
  resource_ok connection cpu_id (ram_image_row path summary status error r).
Proof.
  intros Hp Hr. unfold ram_image_row.
  set (r' := match summary with Some new => _ | None => r end).
  assert (resource_ok connection cpu_id r' ∧
    ∀ e new, tr_ram_crc_evidence r' = Some e → summary = Some new →
      rs_identity new = ce_ram_image_identity e) as [Hr' Hnew].
  { subst r'. destruct summary as [new|]; [|done].
    destruct (about_ram_image (rs_identity new) r) eqn:E.
    - split; [done|]. unfold about_ram_image in E. intros e new' He [= <-]. rewrite He in E.
      by apply bool_decide_eq_true in E.
    - split; [by apply resource_ok_no_ram_crc|done]. }
  clearbody r'. clear r Hr. destruct Hr' as (Hc & Hr & Hv & Hram).
  apply resource_checks in Hr as (? & ? & ? & ? & ?).
  split_and!; [done| |done|].
  - by apply resource_checks.
  - intros e He. destruct (Hram e He) as (? & ? & ? & _). split_and!; eauto.
Qed.

Lemma resource_ok_verified generation identity id r :
  is_active cpu_id generation connection = true → image_ready identity r = true →
  resource_ok connection cpu_id r →
  resource_ok connection cpu_id
    (with_evidence (Some (mkVerifyEvidence cpu_id generation identity id))
       (tr_ram_crc_evidence r) r).
Proof.
  intros Ha Hi (Hc & Hr & Hv & Hram). apply resource_checks in Hr as (? & ? & ? & ? & ?).
  split_and!; [done| | |done].
  - apply resource_checks. split_and!; try done. by intros e [= <-].
  - intros e [= <-]. split_and!; [done..|]. simpl. intros summary Hs.
    unfold image_ready in Hi. rewrite Hs in Hi.
    apply andb_true_iff in Hi as [_ Hi]. by apply bool_decide_eq_true in Hi.
Qed.

Lemma resource_ok_ram_checked generation identity id r :
  is_active cpu_id generation connection = true → ram_image_ready identity r = true →
  RamImageIdentity_post_init identity = Ok identity → id <> EmptyString →
  resource_ok connection cpu_id r →
  resource_ok connection cpu_id
    (with_evidence (tr_verify_evidence r)
       (Some (mkRamCrcEvidence cpu_id generation identity (ri_entry_point identity)
                (ri_image_crc32 identity) id)) r).
Proof.
  intros Ha Hi Hid Hne (Hc & Hr & Hv & Hram). apply resource_checks in Hr as (? & ? & ? & ? & ?).
  split_and!; [done| |done|].
  - apply resource_checks. split_and!; try done. by intros e [= <-].
  - intros e [= <-]. split_and!; [done..| |]; simpl.
    + unfold RamImageIdentity_post_init in Hid. checks.
      unfold RamCrcEvidence_post_init. simpl. rewrite !Z.eqb_refl. simpl.
      apply identifier_ok with (name := "operation_id") in Hne. rewrite Hne.
      repeat match goal with u : unit |- _ => destruct u end.
      repeat match goal with H : non_negative_int _ _ = Ok _ |- _ =>
        apply non_negative_int_ok in H end.
      by rewrite !(proj2 (non_negative_int_ok _ _)).
    + intros summary Hs. unfold ram_image_ready in Hi. rewrite Hs in Hi.
      apply andb_true_iff in Hi as [_ Hi]. by apply bool_decide_eq_true in Hi.
Qed.

(** The invariant of a resource looks at the connection's CPU and generation only. *)
Lemma resource_ok_connection connection' r :
  (∀ generation, is_active cpu_id generation connection' = is_active cpu_id generation connection) →
  resource_ok connection cpu_id r → resource_ok connection' cpu_id r.
Proof.
  intros Ha (? & ? & Hv & Hc). split_and!; [done..| |].
  - intros e He. rewrite Ha. by apply Hv.
  - intros e He. rewrite Ha. by apply Hc.
Qed.
End resource.

(** ** Memory *)

Lemma memory_reread m error :
  MemoryRuntimeState_post_init m = Ok m →
  let m' := with_memory_freshness
    (if nonempty (mm_words m) then DataFreshness.STALE else DataFreshness.EMPTY) error m in
  MemoryRuntimeState_post_init m' = Ok m'.
Proof.
  unfold MemoryRuntimeState_post_init. simpl. intros H.
  destruct (match mm_base_address m with Some b => _ | None => _ end) as [[]|]; [|done].
  checks. destruct (mm_freshness m), (nonempty (mm_words m)); simpl in *; checks;
    repeat match goal with H : _ || _ = false |- _ => apply orb_false_iff in H as [? ?] end;
    simplify_eq/=;
    repeat match goal with
    | E : negb _ = false |- _ => apply negb_false_iff in E; rewrite E
    | E : isSome _ = false |- _ => rewrite E
    end; done.
Qed.

Lemma fresh_nonempty m :
  MemoryRuntimeState_post_init m = Ok m → mm_freshness m = DataFreshness.FRESH →
  nonempty (mm_words m) = true.
Proof.
  unfold MemoryRuntimeState_post_init. intros H F. rewrite F in H.
  destruct (match mm_base_address m with Some b => _ | None => _ end) as [[]|]; [|done].
  checks. destruct (nonempty (mm_words m)); [done|].
  by destruct (isSome (mm_base_address m)).
Qed.

Section memory.
  Context (connection : option ConnectionRuntimeState) (cpu_id : RuntimeCpuId).
  Implicit Types m : MemoryRuntimeState.

Lemma memory_ok_outdate connection' m :
  memory_ok connection cpu_id m → memory_ok connection' cpu_id (outdate m).
Proof.
  unfold outdate. intros (? & Hm & _). case_bool_decide as F.
  - split_and!; [done| |done].
    pose proof (memory_reread m (mm_read_error m) Hm) as Hs. by rewrite fresh_nonempty in Hs.
  - by split_and!.
Qed.

Lemma memory_ok_reread connection' m error :
  memory_ok connection cpu_id m →
  memory_ok connection' cpu_id
    (with_memory_freshness
       (if nonempty (mm_words m) then DataFreshness.STALE else DataFreshness.EMPTY) error m).
Proof.
  intros (? & Hm & _). split_and!; [done|by apply memory_reread|].
  simpl. by destruct (nonempty (mm_words m)).
Qed.

Lemma memory_ok_default : memory_ok connection cpu_id (MemoryRuntimeState_default cpu_id).
Proof. by split_and!. Qed.

Lemma memory_ok_fresh generation base_address words read_at :
  is_active cpu_id generation connection = true →
  DomainEvent_post_init (MemoryReadSucceeded cpu_id generation base_address words read_at) =
    Ok (MemoryReadSucceeded cpu_id generation base_address words read_at) →
  memory_ok connection cpu_id
    (mkMemoryState cpu_id DataFreshness.FRESH (Some base_address) words (Some read_at)
       (Some generation) None).
Proof.
  simpl. intros Ha H. checks. repeat match goal with u : unit |- _ => destruct u end.
  split_and!; [done| |by exists generation].
  unfold MemoryRuntimeState_post_init. simpl.
  match goal with H : require_utc _ _ = _ |- _ => apply require_utc_ok in H as -> end.
  match goal with H : _ || _ = false |- _ => apply orb_false_iff in H as [Hw ->] end.
  match goal with H : non_negative_int _ _ = _ |- _ => rewrite H end.
  by apply negb_false_iff in Hw as ->.
Qed.

Lemma memory_ok_connection connection' m :
  (∀ generation, is_active cpu_id generation connection' = is_active cpu_id generation connection) →
  memory_ok connection cpu_id m → memory_ok connection' cpu_id m.
Proof.
  intros Ha (? & ? & Hf). split_and!; [done..|]. intros F. destruct (Hf F) as (g & ? & ?).
  exists g. by rewrite Ha.
Qed.
End memory.

(** ** Connections *)

Lemma connection_checks c :
  ConnectionRuntimeState_post_init c = Ok c ↔
  cr_connection_id c <> EmptyString ∧ cr_transport_label c <> EmptyString ∧
  cr_endpoint_label c <> EmptyString ∧ is_utc (cr_connected_at c) = true ∧
  (∃ t, cr_last_protocol_activity c = Some t ∧ is_utc t = true ∧
     dt_clock (cr_connected_at c) <= dt_clock t) ∧
  (∀ t, cr_health_checked_at c = Some t → is_utc t = true) ∧ check_health c = Ok tt.
Proof.
  rewrite <- (identifier_ok _ "connection_id"), <- (identifier_ok _ "transport_label"),
    <- (identifier_ok _ "endpoint_label"), <- (require_utc_ok _ "connected_at").
  unfold ConnectionRuntimeState_post_init. split.
  - intros H. checks. repeat match goal with u : unit |- _ => destruct u end. split_and!; try done.
    + destruct c as [? ? ? ? ? ? activity ? ? ? ?]; simpl in *.
      unfold with_activity in *. simplify_eq/=.
      match goal with H : require_utc (default _ activity) _ = _ |- _ =>
        apply require_utc_ok in H; rename H into Hu end.
      match goal with H : require_utc _ _ = _ |- _ =>
        apply require_utc_ok in H; rename H into Hc end.
      eexists. split; [symmetry; eassumption|]. split; [done|].
      match goal with H : dt_lt _ _ = _ |- _ => rewrite dt_lt_utc in H by done;
        injection H as H; apply Z.ltb_ge in H end. done.
    + intros t E. rewrite E in *. by apply negb_false_iff.
  - intros (-> & -> & -> & Hc & (t & E & Hu & Hle) & Hh & Hk). rewrite E. simpl.
    rewrite Hc, (proj2 (require_utc_ok t _) Hu).
    apply require_utc_ok in Hc. rewrite dt_lt_utc by done.
    rewrite (proj2 (Z.ltb_ge _ _) Hle), Hk.
    destruct c as [? ? ? ? ? ? activity ? [t'|] ? ?]; simpl in *; unfold with_activity; simpl; subst.
    + by rewrite (Hh _ eq_refl).
    + done.
Qed.

(** What an update of the connection keeps. *)
Lemma is_active_fmap f connection cpu_id generation :
  (∀ c, cr_cpu_id (f c) = cr_cpu_id c ∧ cr_generation (f c) = cr_generation c) →
  is_active cpu_id generation (f <$> connection) = is_active cpu_id generation connection.
Proof. intros Hf. destruct connection as [c|]; [|done]. simpl. by destruct (Hf c) as [-> ->]. Qed.

Lemma runtime_ok_on_connection f s :
  (∀ c, cr_cpu_id (f c) = cr_cpu_id c ∧ cr_generation (f c) = cr_generation c) →
  (∀ c, ConnectionRuntimeState_post_init c = Ok c → ConnectionRuntimeState_post_init (f c) = Ok (f c)) →
  runtime_ok s → runtime_ok (on_connection f s).
Proof.
  intros Hf Hi [? Hc Hr Hm [? Hmd] Hd]. split; simpl; [done|..].
  - intros c' Hc'. destruct (rv_connection s) as [c|]; [|done]. injection Hc' as <-.
    destruct (Hc c eq_refl) as [? ?]. destruct (Hf c) as [_ ->]. auto.
  - intros k. destruct (Hr k) as (r & ? & ?). exists r. split; [done|].
    eapply resource_ok_connection; [|done]. intros. by apply is_active_fmap.
  - intros k. destruct (Hm k) as (m & ? & ?). exists m. split; [done|].
    eapply memory_ok_connection; [|done]. intros. by apply is_active_fmap.
  - split; [done|]. intros F. by apply fmap_is_Some, Hmd.
  - intros g. destruct (Hd g) as (? & ? & F). split_and!; [done..|].
    intros. by apply fmap_is_Some, F.
Qed.

(** ** Changes of one part keep the invariant of the others *)

Lemma runtime_ok_on_resources f s :
  runtime_ok s →
  (∀ k, ∃ r, f (rv_target_resources s) !! k = Some r ∧ resource_ok (rv_connection s) k r) →
  runtime_ok (on_resources f s).
Proof. by intros [] ?; split. Qed.

Lemma runtime_ok_alter_resource g cpu_id s :
  runtime_ok s →
  (∀ r, resource_ok (rv_connection s) cpu_id r → resource_ok (rv_connection s) cpu_id (g r)) →
  runtime_ok (on_resources (alter g cpu_id) s).
Proof.
  intros Hs Hg. apply runtime_ok_on_resources; [done|]. intros k.
  destruct (ok_resources s Hs k) as (r & Hr & Hok). destruct (decide (k = cpu_id)) as [->|Hne].
  - exists (g r). rewrite lookup_alter, decide_True by done. rewrite Hr. auto.
  - exists r. by rewrite lookup_alter_ne.
Qed.

Lemma runtime_ok_on_memory f s :
  runtime_ok s →
  (∀ k, ∃ m, f (rv_memory_states s) !! k = Some m ∧ memory_ok (rv_connection s) k m) →
  runtime_ok (on_memory f s).
Proof. by intros [] ?; split. Qed.

Lemma runtime_ok_insert_memory cpu_id m s :
  runtime_ok s → memory_ok (rv_connection s) cpu_id m →
  runtime_ok (on_memory (<[cpu_id := m]>) s).
Proof.
  intros Hs Hm. apply runtime_ok_on_memory; [done|]. intros k.
  destruct (decide (k = cpu_id)) as [->|Hne].
  - exists m. by rewrite lookup_insert_eq.
  - destruct (ok_memory s Hs k) as (m' & ? & ?). exists m'. by rewrite lookup_insert_ne.
Qed.

Lemma runtime_ok_put_metadata m s :
  runtime_ok s → metadata_ok (rv_connection s) m → runtime_ok (put_metadata m s).
Proof. by intros [] ?; split. Qed.

Lemma runtime_ok_put_group group d s :
  runtime_ok s → diagnostic_ok (rv_connection s) group d →
  runtime_ok (put_diagnostics (set_group_state group d (rv_diagnostics_state s)) s).
Proof.
  intros Hs Hd. destruct Hs; split; [done..|]. intros g. specialize (ok_diagnostics g).
  by destruct g, group.
Qed.

Lemma metadata_ok_default connection : metadata_ok connection MetadataRuntimeState_default.
Proof. by split. Qed.

Lemma diagnostics_ok_default connection group :
  diagnostic_ok connection group (group_state DiagnosticsRuntimeState_default group).
Proof. by destruct group. Qed.

Lemma runtime_ok_start_over generation connection keep s :
  runtime_ok s → 0 <= cg_value generation → connection_ok generation connection →
  (∀ k m, keep = Some k → memory_ok (rv_connection s) k m → memory_ok connection k m) →
  runtime_ok (start_over generation connection keep s).
Proof.
  intros [? Hc Hr Hm ? Hd] Hg Hconn Hk. split; simpl; [done..| | | |].
  - intros k. destruct (Hr k) as (r & Hl & ?). exists (no_evidence r).
    rewrite lookup_fmap, Hl. split; [done|]. by eapply resource_ok_no_evidence.
  - intros k. destruct (Hm k) as (m & Hl & Hok). eexists. rewrite lookup_fmap, Hl.
    split; [done|]. case_bool_decide as E; [|by eapply memory_ok_outdate].
    apply Hk; [|done]. by destruct Hok as [<- _].
  - apply metadata_ok_default.
  - intros. apply diagnostics_ok_default.
Qed.

Lemma for_each_cpu_lookup {A} (f : RuntimeCpuId → A) cpu_id : for_each_cpu f !! cpu_id = Some (f cpu_id).
Proof. by destruct cpu_id. Qed.

Lemma runtime_ok_default generation :
  0 <= cg_value generation →
  runtime_ok (mkSnapshot generation None (for_each_cpu TargetResourceState_default)
    (for_each_cpu MemoryRuntimeState_default) MetadataRuntimeState_default
    DiagnosticsRuntimeState_default).
Proof.
  intros Hg. split; simpl; [done|done|..].
  - intros k. exists (TargetResourceState_default k). split; [apply for_each_cpu_lookup|].
    by split_and!.
  - intros k. exists (MemoryRuntimeState_default k). split; [apply for_each_cpu_lookup|].
    apply memory_ok_default.
  - apply metadata_ok_default.
  - intros. apply diagnostics_ok_default.
Qed.

Lemma from_connection_info_ok info generation c :
  from_connection_info info generation = Ok c →
  cr_generation c = generation ∧ ConnectionRuntimeState_post_init c = Ok c.
Proof.
  unfold from_connection_info. intros H. checks.
  pose proof H as H'. unfold ConnectionRuntimeState_post_init in H. simpl in H. checks. subst c.
  split; [done|]. unfold ConnectionRuntimeState_post_init in *; simpl in *.
  repeat match goal with E : identifier _ _ = Ok _ |- _ => rewrite E in *; clear E end.
  repeat match goal with E : require_utc _ _ = Ok _ |- _ => rewrite E in * end.
  match goal with E : dt_lt _ _ = Ok _ |- _ => rewrite E in * end. by subst.
Qed.

(** ** The rows *)

Lemma metadata_frozen connection m :
  metadata_ok connection m → freeze (md_value m) = Ok (md_value m).
Proof.
  unfold metadata_ok, MetadataRuntimeState_post_init. intros [H _]. checks.
  f_equal. by rewrite <- H.
Qed.

Lemma metadata_ok_stale connection m error :
  metadata_ok connection m →
  metadata_ok connection (mkMetadataState (md_value m) DataFreshness.STALE error).
Proof.
  intros H%metadata_frozen. split; [|done].
  unfold MetadataRuntimeState_post_init. simpl. by rewrite H.
Qed.

Lemma frozen_value_ok value value' :
  freeze value = Ok value' → is_none value = false →
  freeze value' = Ok value' ∧ is_none value' = false.
Proof. intros H Hn. apply freeze_Ok in H as [? ->]. by rewrite Hn. Qed.

Lemma diagnostic_frozen connection group d :
  diagnostic_ok connection group d → freeze (dg_value d) = Ok (dg_value d).
Proof.
  unfold diagnostic_ok, DiagnosticRuntimeState_post_init. intros (_ & H & _). checks.
  f_equal. by rewrite <- H.
Qed.

Lemma is_active_Some cpu_id generation connection :
  is_active cpu_id generation connection = true → is_Some connection.
Proof. destruct connection; [by eexists|done]. Qed.

Lemma later_utc previous t :
  later previous t = true → ∀ p, previous = Some p → dt_clock p <= dt_clock t.
Proof. unfold later. intros H p ->. lia. Qed.

Lemma event_checks event :
  event_ok event → DomainEvent_post_init event = Ok event.
Proof. by intros []. Qed.

Lemma health_row_ok generation state checked_at error c :
  event_ok (ConnectionHealthChanged generation state checked_at error) →
  ConnectionRuntimeState_post_init c = Ok c →
  ConnectionRuntimeState_post_init (with_health state (Some checked_at) error c) =
    Ok (with_health state (Some checked_at) error c).
Proof.
  intros He%event_checks Hc. simpl in He. checks.
  apply connection_checks in Hc as (? & ? & ? & ? & ? & ? & ?). apply connection_checks; simpl.
  repeat match goal with u : unit |- _ => destruct u end.
  match goal with E : require_utc _ _ = _ |- _ => apply require_utc_ok in E end.
  split_and!; try done; [by intros t [= <-]|].
  unfold check_health; simpl.
  by destruct state, (isSome error).
Qed.

Lemma activity_row_ok c t :
  is_utc t = true → later (cr_last_protocol_activity c) t = true →
  ConnectionRuntimeState_post_init c = Ok c →
  ConnectionRuntimeState_post_init (with_activity (Some t) c) = Ok (with_activity (Some t) c).
Proof.
  intros Hu Hl Hc. apply connection_checks in Hc as (? & ? & ? & ? & (p & Hp & ? & ?) & ? & ?).
  apply connection_checks; simpl. split_and!; try done.
  exists t. split_and!; try done. pose proof (later_utc _ _ Hl p Hp). lia.
Qed.

Lemma communication_row_ok c error :
  ConnectionRuntimeState_post_init c = Ok c →
  ConnectionRuntimeState_post_init (with_communication_error error c) =
    Ok (with_communication_error error c).
Proof. intros Hc. by apply connection_checks in Hc; apply connection_checks. Qed.

Lemma metadata_written_ok cpu_id generation s :
  runtime_ok s → runtime_ok (metadata_written cpu_id generation s).
Proof.
  intros Hs. unfold metadata_written. destruct (is_active _ _ _); [|done].
  apply runtime_ok_put_metadata; [done|]. apply metadata_ok_stale, Hs.
Qed.

Lemma started_row_ok op s : runtime_ok s → runtime_ok (started_row op s).
Proof.
  intros Hs. unfold started_row.
  pose proof (metadata_written_ok (op_cpu_id op) (op_connection_generation op) s Hs).
  destruct (op_operation_type op); apply runtime_ok_alter_resource; try done; intros r Hr;
    first [by apply resource_ok_no_verify | by apply resource_ok_no_ram_crc].
Qed.

Lemma succeeded_row_ok op s :
  event_ok (OperationSucceeded op) → runtime_ok s → runtime_ok (succeeded_row op s).
Proof.
  destruct op as [id type cpu_id generation identity]. intros [He Hparts] Hs. simpl in *.
  destruct (is_active cpu_id generation (rv_connection s)) eqn:Ha; [|done]. simpl.
  checks. repeat match goal with u : unit |- _ => destruct u end.
  assert (id <> EmptyString) as Hid.
  { unfold operation_identity in *. checks. simpl in *.
    repeat match goal with u : unit |- _ => destruct u end. by eapply identifier_ok. }
  destruct type; try done; destruct identity as [|identity|identity]; try done.
  - apply runtime_ok_alter_resource; [done|]. intros r Hr.
    destruct (image_ready identity r) eqn:E; [|done]. by apply resource_ok_verified.
  - apply runtime_ok_alter_resource; [done|]. intros r Hr.
    destruct (ram_image_ready identity r) eqn:E; [|done]. by apply resource_ok_ram_checked.
Qed.

Lemma metadata_read_ok value value' cpu_id generation connection :
  event_ok (MetadataReadSucceeded cpu_id generation value) →
  is_active cpu_id generation connection = true → freeze value = Ok value' →
  metadata_ok connection (mkMetadataState value' DataFreshness.FRESH None).
Proof.
  intros He%event_checks Ha%is_active_Some Hf. simpl in He. checks.
  destruct (frozen_value_ok _ _ Hf) as [Hf' Hn]; [done|].
  split; [|done]. unfold MetadataRuntimeState_post_init. simpl. by rewrite Hn, Hf'.
Qed.

Lemma diagnostic_read_ok value value' cpu_id generation group connection :
  event_ok (DiagnosticReadSucceeded cpu_id generation group value) →
  is_active cpu_id generation connection = true → freeze value = Ok value' →
  diagnostic_ok connection group (mkDiagnosticState group value' DataFreshness.FRESH None).
Proof.
  intros He%event_checks Ha%is_active_Some Hf. simpl in He. checks.
  destruct (frozen_value_ok _ _ Hf) as [Hf' Hn]; [done|].
  split_and!; [done| |done]. unfold DiagnosticRuntimeState_post_init. simpl. by rewrite Hn, Hf'.
Qed.

Lemma diagnostic_failed_ok connection group d error :
  diagnostic_ok connection group d →
  diagnostic_ok connection group
    (mkDiagnosticState group (dg_value d)
       (if negb (is_none (dg_value d)) then DataFreshness.STALE else DataFreshness.EMPTY)
       (Some error)).
Proof.
  intros H. apply diagnostic_frozen in H. split_and!; [done|..]; simpl.
  - unfold DiagnosticRuntimeState_post_init. simpl. rewrite H. by destruct (is_none (dg_value d)).
  - by destruct (is_none (dg_value d)).
Qed.

Lemma metadata_failed_ok connection m error :
  metadata_ok connection m →
  metadata_ok connection
    (mkMetadataState (md_value m)
       (if negb (is_none (md_value m)) || bool_decide (md_freshness m = DataFreshness.STALE)
        then DataFreshness.STALE else DataFreshness.EMPTY) (Some error)).
Proof.
  intros H. apply metadata_frozen in H. split; simpl.
  - unfold MetadataRuntimeState_post_init. simpl. rewrite H.
    by destruct (negb _ || _).
  - by destruct (negb _ || _).
Qed.

(** Every row of the table keeps the invariant. *)
Lemma event_effect_ok event s s' :
  runtime_ok s → event_ok event → event_effect event s = Ok s' → runtime_ok s'.
Proof.
  intros Hs He. pose proof (event_checks _ He) as Hi.
  destruct event; simpl event_effect; unfold by_policy; intros H.
  all: repeat match goal with
    | H : Ok _ = Ok _ |- _ => injection H as <-
    | H : Raise _ = Ok _ |- _ => discriminate H
    | H : match freeze ?v with Ok _ => _ | Raise _ => _ end = Ok _ |- _ =>
        destruct (freeze v) eqn:?
    | H : (if is_active ?a ?b ?c then _ else _) = Ok _ |- _ => destruct (is_active a b c) eqn:?
    | |- runtime_ok (if is_active ?a ?b ?c then _ else _) => destruct (is_active a b c) eqn:?
    end; try done.
  - by eapply runtime_ok_put_metadata, metadata_read_ok.
  - apply runtime_ok_put_metadata, metadata_failed_ok, Hs. done.
  - by apply metadata_written_ok.
  - by eapply runtime_ok_put_group, diagnostic_read_ok.
  - apply runtime_ok_put_group, diagnostic_failed_ok, Hs. done.
  - by eapply runtime_ok_insert_memory, memory_ok_fresh.
  - apply runtime_ok_on_memory; [done|]. intros k.
    destruct (ok_memory s Hs k) as (m & Hm & Hok). destruct (decide (k = cpu_id)) as [->|Hne].
    + eexists. rewrite lookup_alter, decide_True by done. rewrite Hm. split; [done|].
      by eapply memory_ok_reread.
    + exists m. by rewrite lookup_alter_ne.
  - by apply runtime_ok_insert_memory, memory_ok_default.
  - apply runtime_ok_start_over; try done; apply Hs.
  - apply runtime_ok_alter_resource; [done|]. intros r Hr. apply resource_ok_program_image; [|done].
    simpl in Hi. checks. by repeat match goal with u : unit |- _ => destruct u end.
  - apply runtime_ok_alter_resource; [done|]. intros r Hr. apply resource_ok_ram_image; [|done].
    simpl in Hi. checks. by repeat match goal with u : unit |- _ => destruct u end.
  - apply runtime_ok_alter_resource; [done|]. intros r Hr. apply resource_ok_sectors; [|done].
    simpl in Hi. checks. repeat match goal with u : unit |- _ => destruct u end.
    by eapply non_negative_int_ok.
  - destruct (from_connection_info _ _) as [c|] eqn:E; [injection H as <-|done].
    apply from_connection_info_ok in E as [??]. pose proof (ok_generation s Hs).
    apply runtime_ok_start_over; try done; simpl; [lia|]. by intros c' [= <-].
  - destruct (match rv_connection s with Some c => _ | None => _ end); [injection H as <-|done].
    apply runtime_ok_start_over; try done; apply Hs.
  - apply runtime_ok_on_resources; [done|]. intros k.
    destruct (ok_resources s Hs k) as (r & Hr & Hok). exists (no_evidence r).
    rewrite lookup_fmap, Hr. split; [done|]. by eapply resource_ok_no_evidence.
  - apply runtime_ok_on_connection; [by intros; destruct (_ && _)| |done]. intros c Hc.
    destruct (_ && _) eqn:E; [|done]. apply andb_true_iff in E as [_ E].
    apply activity_row_ok; try done. simpl in Hi. checks.
    repeat match goal with u : unit |- _ => destruct u end. by eapply require_utc_ok.
  - apply runtime_ok_on_connection; [by intros; destruct (_ && _)| |done]. intros c Hc.
    destruct (_ && _) eqn:E; [|done]. by eapply health_row_ok.
  - apply runtime_ok_on_connection; [by intros; destruct (bool_decide _)| |done]. intros c Hc.
    destruct (bool_decide _); [|done]. by apply communication_row_ok.
  - by apply started_row_ok.
  - by apply succeeded_row_ok.
  - destruct (isSome _); [done|]. injection H as <-. apply runtime_ok_default, Hs.
Qed.
