(* ===== verification/RuntimeRefinement.v ===== *)
(** * The policies implement the table

    The fourteen policies of DEFAULT_DOMAIN_POLICIES, run in their order on
    the draft of a state that satisfies the invariant, do what the row of the
    event says. *)

From stdpp Require Import gmap.
From S2P Require Import Prelude.
From S2P Require Import Errors.
From S2P Require Import Targets.
From S2P Require Import RuntimeValues.
From S2P Require Import RuntimeModels.
From S2P Require Import RuntimeStore.
From S2P Require Import RuntimeDispatch.
From S2P Require Import RuntimeTable.
From S2P Require Import RuntimeInvariant.

(** ** Running policies one after the other *)

(** The draft that holds the state [s], in a transition that started with the
    generation [original] and derived the events [derived]. *)
Definition draft_of (original : ConnectionGeneration) (derived : list DomainEvent)
    (s : RuntimeV2Snapshot) : RuntimeStateDraft :=
  mkDraft (rv_connection_generation s) original (rv_connection s) (rv_target_resources s)
    (rv_memory_states s) (rv_metadata_state s) (rv_diagnostics_state s) derived.

Lemma apply_policies_run name apply ps event d d' :
  apply event d = (Ok tt, d') →
  apply_policies (mkPolicy name apply :: ps) event d = apply_policies ps event d'.
Proof. intros H. unfold apply_policies at 1. simpl. unfold bind, catch. by rewrite H. Qed.

Lemma apply_policies_raise name apply ps event d d' exc :
  apply event d = (Raise exc, d') →
  apply_policies (mkPolicy name apply :: ps) event d = (Raise (TransitionErr name exc), d').
Proof. intros H. unfold apply_policies. simpl. unfold bind, catch. by rewrite H. Qed.

Lemma health_skip event d :
  match event with ProtocolActivityRecorded _ _ | ConnectionHealthChanged _ _ _ _ => False | _ => True end →
  ConnectionHealthPolicy_apply event d = (Ok tt, d).
Proof.
  unfold ConnectionHealthPolicy_apply, bind. simpl.
  by destruct (rd_connection d), event.
Qed.

(** Skip the policies that ignore the event. *)
Ltac skip :=
  repeat match goal with
  | |- context [apply_policies (mkPolicy ?n ?p :: ?ps) ?e ?d] =>
      rewrite (apply_policies_run n p ps e d d) by first [reflexivity | by apply health_skip]
  end.

Lemma snapshot_ok s : runtime_ok s → RuntimeV2Snapshot_post_init s = Ok s.
Proof.
  intros [_ Hc Hr Hm _ _]. unfold RuntimeV2Snapshot_post_init.
  assert (match rv_connection s with
          | Some c => negb (bool_decide (cr_generation c = rv_connection_generation s))
          | None => false end = false) as ->.
  { destruct (rv_connection s) as [c|]; [|done]. by rewrite bool_decide_eq_true_2; [|apply Hc]. }
  assert (∀ k, ∃ r, rv_target_resources s !! k = Some r ∧ tr_cpu_id r = k) as Hr'.
  { intros k. destruct (Hr k) as (r & ? & ? & _). by exists r. }
  assert (∀ k, ∃ m, rv_memory_states s !! k = Some m ∧ mm_cpu_id m = k) as Hm'.
  { intros k. destruct (Hm k) as (m & ? & ? & _). by exists m. }
  unfold exactly_cpus, keys_match. simpl.
  destruct (Hr' CPU1) as (r1 & E1 & _), (Hr' CPU2) as (r2 & E2 & _),
    (Hm' CPU1) as (m1 & E3 & _), (Hm' CPU2) as (m2 & E4 & _).
  rewrite E1, E2, E3, E4. simpl.
  rewrite !bool_decide_eq_true_2; [done|..].
  - intros k m Hk. destruct (Hm' k) as (m' & ? & ?). by simplify_eq.
  - intros k r Hk. destruct (Hr' k) as (r' & ? & ?). by simplify_eq.
Qed.

Lemma transition_commits event policies s original derived s' :
  runtime_ok s' →
  apply_policies policies event (RuntimeStateDraft_init s) = (Ok tt, draft_of original derived s') →
  transition event policies s = (Ok (s', derived), s').
Proof.
  intros Hs' H. unfold transition, bind, get, lift. rewrite H. unfold candidate. simpl.
  destruct s'. simpl in *. by rewrite snapshot_ok.
Qed.

Lemma transition_rejects event policies s d exc :
  apply_policies policies event (RuntimeStateDraft_init s) = (Raise exc, d) →
  transition event policies s = (Raise exc, s).
Proof. intros H. unfold transition, bind, get, lift. by rewrite H. Qed.

(** ** Operations of the draft *)

Lemma bind_run {S A B} (m : ST S A) (k : A → ST S B) s a s' :
  m s = (Ok a, s') → bind m k s = k a s'.
Proof. intros H. unfold bind. by rewrite H. Qed.

Section draft.
  Context (original : ConnectionGeneration) (derived : list DomainEvent).
  Implicit Types s : RuntimeV2Snapshot.

Lemma alter_Some {A} f (m : gmap RuntimeCpuId A) k x : m !! k = Some x → alter f k m = <[k := f x]> m.
Proof.
  intros Hx. apply map_eq. intros i. destruct (decide (i = k)) as [->|Hne].
  - by rewrite lookup_insert_eq, lookup_alter, decide_True, Hx.
  - by rewrite lookup_insert_ne, lookup_alter_ne.
Qed.

Lemma update_resource_run cpu_id f s r :
  rv_target_resources s !! cpu_id = Some r →
  TargetResourceState_post_init (f r) = Ok (f r) → tr_cpu_id (f r) = cpu_id →
  update_resource cpu_id f (draft_of original derived s) =
    (Ok tt, draft_of original derived (on_resources (alter f cpu_id) s)).
Proof.
  intros Hr Hf Hc. unfold update_resource, target_resource, bind, get. simpl. rewrite Hr. simpl.
  unfold lift. rewrite Hf. unfold replace_target_resource. rewrite bool_decide_eq_true_2 by done.
  simpl. unfold modify, draft_of. simpl. by rewrite (alter_Some _ _ _ r).
Qed.

Lemma target_resource_run cpu_id s r :
  rv_target_resources s !! cpu_id = Some r →
  target_resource cpu_id (draft_of original derived s) = (Ok r, draft_of original derived s).
Proof. intros Hr. unfold target_resource, bind, get. simpl. by rewrite Hr. Qed.

Lemma memory_state_run cpu_id s m :
  rv_memory_states s !! cpu_id = Some m →
  memory_state cpu_id (draft_of original derived s) = (Ok m, draft_of original derived s).
Proof. intros Hm. unfold memory_state, bind, get. simpl. by rewrite Hm. Qed.

Lemma replace_memory_run cpu_id m s :
  mm_cpu_id m = cpu_id → MemoryRuntimeState_post_init m = Ok m →
  (state <- lift (MemoryRuntimeState_post_init m) ;; replace_memory_state cpu_id state)
    (draft_of original derived s) =
  (Ok tt, draft_of original derived (on_memory (<[cpu_id := m]>) s)).
Proof.
  intros Hc Hm. unfold bind, lift. rewrite Hm. unfold replace_memory_state.
  by rewrite bool_decide_eq_true_2.
Qed.

Lemma metadata_run value freshness error s value' :
  bool_decide (freshness = DataFreshness.FRESH) && is_none value = false →
  freeze value = Ok value' →
  (state <- lift (MetadataRuntimeState_post_init (mkMetadataState value freshness error)) ;;
   replace_metadata_state state) (draft_of original derived s) =
  (Ok tt, draft_of original derived (put_metadata (mkMetadataState value' freshness error) s)).
Proof.
  intros Hn Hf. unfold bind, lift, MetadataRuntimeState_post_init. simpl. by rewrite Hn, Hf.
Qed.

(** The same update of both CPUs, one after the other. *)
Lemma update_both {A} (f : A → A) (m : gmap RuntimeCpuId A) :
  alter f CPU2 (alter f CPU1 m) = f <$> m.
Proof.
  apply map_eq. intros []; rewrite lookup_fmap.
  - rewrite lookup_alter_ne by done. by rewrite lookup_alter, decide_True.
  - by rewrite lookup_alter, decide_True, lookup_alter_ne by done.
Qed.

Lemma insert_both {A} (f : RuntimeCpuId → A) (m : gmap RuntimeCpuId A) :
  <[CPU2 := f CPU2]> (<[CPU1 := f CPU1]> m) = for_each_cpu f.
Proof.
  apply map_eq. intros k. rewrite for_each_cpu_lookup. destruct k.
  - by rewrite lookup_insert_ne, lookup_insert_eq.
  - by rewrite lookup_insert_eq.
Qed.
End draft.

(** ** Policies that treat both CPUs *)

Section both_cpus.
  Context (original : ConnectionGeneration) (derived : list DomainEvent).
  Implicit Types s : RuntimeV2Snapshot.

Lemma for_each_both (m : RuntimeCpuId → Draft unit) d d1 d2 :
  m CPU1 d = (Ok tt, d1) → m CPU2 d1 = (Ok tt, d2) → for_each RuntimeCpuIds m d = (Ok tt, d2).
Proof. intros H1 H2. simpl. unfold bind. by rewrite H1, H2. Qed.

Lemma strip_run connection s :
  (∀ k, ∃ r, rv_target_resources s !! k = Some r ∧ resource_ok connection k r) →
  for_each RuntimeCpuIds (λ cpu_id, update_resource cpu_id (with_evidence None None))
    (draft_of original derived s) =
  (Ok tt, draft_of original derived (on_resources (fmap no_evidence) s)).
Proof.
  intros Hr. destruct (Hr CPU1) as (r1 & E1 & Hr1), (Hr CPU2) as (r2 & E2 & Hr2).
  apply (resource_ok_no_evidence _ _ None) in Hr1 as (? & ? & _), Hr2 as (? & ? & _).
  erewrite for_each_both; [| |].
  - unfold on_resources at 1. rewrite <- (update_both no_evidence). reflexivity.
  - by eapply update_resource_run.
  - eapply update_resource_run; simpl; try done. by rewrite lookup_alter_ne.
Qed.

Lemma default_resources_run s :
  for_each RuntimeCpuIds (λ cpu_id,
    state <- lift (TargetResourceState_post_init (TargetResourceState_default cpu_id)) ;;
    replace_target_resource cpu_id state) (draft_of original derived s) =
  (Ok tt, draft_of original derived
            (on_resources (λ _, for_each_cpu TargetResourceState_default) s)).
Proof.
  erewrite for_each_both; [|reflexivity..]. unfold draft_of. simpl.
  by rewrite (insert_both TargetResourceState_default).
Qed.

Lemma default_memory_run s :
  for_each RuntimeCpuIds (λ cpu_id,
    state <- lift (MemoryRuntimeState_post_init (MemoryRuntimeState_default cpu_id)) ;;
    replace_memory_state cpu_id state) (draft_of original derived s) =
  (Ok tt, draft_of original derived (on_memory (λ _, for_each_cpu MemoryRuntimeState_default) s)).
Proof.
  erewrite for_each_both; [|reflexivity..]. unfold draft_of. simpl.
  by rewrite (insert_both MemoryRuntimeState_default).
Qed.

(** Memory that is not [kept] is outdated. *)
Definition age (keep : option RuntimeCpuId) (m : MemoryRuntimeState) : MemoryRuntimeState :=
  if bool_decide (keep = Some (mm_cpu_id m)) then m else outdate m.

Lemma not_fresh_or_skipped m :
  MemoryRuntimeState_post_init m = Ok m →
  negb (nonempty (mm_words m)) || bool_decide (mm_freshness m = DataFreshness.STALE) =
    negb (bool_decide (mm_freshness m = DataFreshness.FRESH)).
Proof.
  intros H. destruct (mm_freshness m) eqn:F; simpl.
  - unfold MemoryRuntimeState_post_init in H. rewrite F in H.
    destruct (match mm_base_address m with Some _ => _ | None => _ end); [|done]. checks.
    destruct (nonempty (mm_words m)); [|done].
    by destruct (isSome (mm_base_address m)).
  - by rewrite (fresh_nonempty m).
  - by rewrite orb_true_r.
Qed.

Lemma age_memory_run active_cpu keep cpu_id s m connection :
  rv_memory_states s !! cpu_id = Some m → memory_ok connection cpu_id m →
  (mm_freshness m = DataFreshness.FRESH →
   current_matches (rv_connection s) active_cpu cpu_id m = bool_decide (keep = Some cpu_id)) →
  age_memory active_cpu cpu_id (draft_of original derived s) =
    (Ok tt, draft_of original derived (on_memory (alter (age keep) cpu_id) s)).
Proof.
  intros Hm Hok Hc. unfold age_memory. erewrite bind_run by reflexivity.
  erewrite bind_run by (by eapply memory_state_run). destruct Hok as (Hid & Hi & Hf).
  rewrite (not_fresh_or_skipped _ Hi).
  replace (on_memory (alter (age keep) cpu_id) s) with (on_memory (<[cpu_id := age keep m]>) s)
    by (unfold on_memory; by rewrite (alter_Some _ _ _ m Hm)).
  assert (age keep m = if bool_decide (mm_freshness m = DataFreshness.FRESH)
    then if bool_decide (keep = Some cpu_id) then m
         else with_memory_freshness DataFreshness.STALE (mm_read_error m) m else m) as ->.
  { unfold age, outdate. rewrite Hid. by repeat case_bool_decide. }
  destruct (bool_decide_reflect (mm_freshness m = DataFreshness.FRESH)) as [F|F]; simpl.
  2: { unfold draft_of. simpl. by rewrite insert_id. }
  rewrite (Hc F). case_bool_decide as K; simpl.
  { unfold draft_of. simpl. by rewrite insert_id. }
  apply replace_memory_run; [done|].
  pose proof (memory_reread m (mm_read_error m) Hi) as Hs. by rewrite fresh_nonempty in Hs.
Qed.

Lemma age_run connection active_cpu keep s :
  (∀ k, ∃ m, rv_memory_states s !! k = Some m ∧ memory_ok connection k m ∧
     (mm_freshness m = DataFreshness.FRESH →
      current_matches (rv_connection s) active_cpu k m = bool_decide (keep = Some k))) →
  for_each RuntimeCpuIds (age_memory active_cpu) (draft_of original derived s) =
  (Ok tt, draft_of original derived (on_memory (fmap (age keep)) s)).
Proof.
  intros Hm. destruct (Hm CPU1) as (m1 & E1 & Hm1 & Hc1), (Hm CPU2) as (m2 & E2 & Hm2 & Hc2).
  erewrite for_each_both; [| |].
  - unfold on_memory at 1. rewrite <- (update_both (age keep)). reflexivity.
  - by eapply age_memory_run.
  - eapply age_memory_run; simpl; try done. by rewrite lookup_alter_ne.
Qed.

(** The reset of metadata and diagnostics. *)
Lemma reset_metadata_run s :
  (state <- lift (MetadataRuntimeState_post_init (mkMetadataState ONone DataFreshness.EMPTY None)) ;;
   replace_metadata_state state) (draft_of original derived s) =
  (Ok tt, draft_of original derived (put_metadata MetadataRuntimeState_default s)).
Proof. done. Qed.

Lemma reset_diagnostics_run s :
  (state <- lift (DiagnosticsRuntimeState_post_init DiagnosticsRuntimeState_default) ;;
   replace_diagnostics_state state) (draft_of original derived s) =
  (Ok tt, draft_of original derived (put_diagnostics DiagnosticsRuntimeState_default s)).
Proof. done. Qed.
End both_cpus.

(** ** Events, one by one *)

Definition refines (event : DomainEvent) (s : RuntimeV2Snapshot) : Prop :=
  transition event DEFAULT_DOMAIN_POLICIES s =
    match event_effect event s with
    | Ok s' => (Ok (s', derived_from event s s'), s')
    | Raise exc => (Raise exc, s)
    end.

Section events.
  Context (s : RuntimeV2Snapshot) (Hs : runtime_ok s).

Abbreviation start := (draft_of (rv_connection_generation s) []).

Lemma refines_commit event s' :
  event_ok event → event_effect event s = Ok s' →
  apply_policies DEFAULT_DOMAIN_POLICIES event (start s) =
    (Ok tt, draft_of (rv_connection_generation s) (derived_from event s s') s') →
  refines event s.
Proof using Hs.
  intros He Heff Hrun. unfold refines. rewrite Heff. eapply transition_commits; [|exact Hrun].
  by eapply event_effect_ok.
Qed.

Lemma refines_reject event exc d :
  event_effect event s = Raise exc →
  apply_policies DEFAULT_DOMAIN_POLICIES event (start s) = (Raise exc, d) →
  refines event s.
Proof. intros Heff Hrun. unfold refines. rewrite Heff. by eapply transition_rejects. Qed.

Lemma current_is_active cpu_id generation :
  current_connection cpu_id generation (start s) = is_active cpu_id generation (rv_connection s).
Proof. done. Qed.

Lemma memory_read_refines cpu_id generation base words read_at :
  event_ok (MemoryReadSucceeded cpu_id generation base words read_at) →
  refines (MemoryReadSucceeded cpu_id generation base words read_at) s.
Proof using Hs.
  intros He. eapply refines_commit; [done|reflexivity|].
  unfold DEFAULT_DOMAIN_POLICIES. skip.
  destruct (is_active cpu_id generation (rv_connection s)) eqn:Ha.
  - erewrite apply_policies_run; [by skip|]. unfold MemoryFreshnessPolicy_apply.
    erewrite bind_run by reflexivity. rewrite current_is_active, Ha.
    apply replace_memory_run; [done|]. by apply (memory_ok_fresh _ _ _ _ _ _ Ha (event_checks _ He)).
  - erewrite apply_policies_run; [by skip|]. unfold MemoryFreshnessPolicy_apply.
    erewrite bind_run by reflexivity. by rewrite current_is_active, Ha.
Qed.

Lemma memory_failed_refines cpu_id generation error :
  event_ok (MemoryReadFailed cpu_id generation error) →
  refines (MemoryReadFailed cpu_id generation error) s.
Proof using Hs.
  intros He. eapply refines_commit; [done|reflexivity|].
  unfold DEFAULT_DOMAIN_POLICIES. skip.
  destruct (is_active cpu_id generation (rv_connection s)) eqn:Ha;
    (erewrite apply_policies_run; [by skip|]); unfold MemoryFreshnessPolicy_apply;
    erewrite bind_run by reflexivity; rewrite current_is_active, Ha; [|done].
  destruct (ok_memory s Hs cpu_id) as (m & Hm & Hok).
  simpl. erewrite bind_run by (by eapply memory_state_run).
  unfold on_memory. rewrite (alter_Some _ _ _ m Hm).
  destruct (memory_ok_reread _ _ None _ (Some error) Hok) as (? & ? & _).
  by apply replace_memory_run.
Qed.

Lemma memory_cleared_refines cpu_id :
  event_ok (MemoryCleared cpu_id) → refines (MemoryCleared cpu_id) s.
Proof using Hs.
  intros He. eapply refines_commit; [done|reflexivity|]. unfold DEFAULT_DOMAIN_POLICIES. skip.
  erewrite apply_policies_run; [by skip|]. by apply replace_memory_run.
Qed.

(** Run the one policy that reacts to a read over the connection. *)
Ltac react Ha :=
  unfold DEFAULT_DOMAIN_POLICIES; skip;
  (erewrite apply_policies_run; [by skip|]);
  cbn [MetadataFreshnessPolicy_apply DiagnosticsFreshnessPolicy_apply];
  erewrite bind_run by reflexivity; rewrite current_is_active, Ha; cbn [negb].

Lemma metadata_read_refines cpu_id generation value :
  event_ok (MetadataReadSucceeded cpu_id generation value) →
  refines (MetadataReadSucceeded cpu_id generation value) s.
Proof using Hs.
  intros He. pose proof (event_checks _ He) as Hi. simpl in Hi. checks.
  destruct (is_active cpu_id generation (rv_connection s)) eqn:Ha.
  2: { eapply refines_commit; [done|simpl; by rewrite Ha|]. by react Ha. }
  destruct (freeze value) as [value'|exc] eqn:Hf.
  - eapply refines_commit; [done|simpl; by rewrite Ha, Hf|]. react Ha. by apply metadata_run.
  - eapply refines_reject; [simpl; by rewrite Ha, Hf|].
    unfold DEFAULT_DOMAIN_POLICIES. skip. apply apply_policies_raise. simpl.
    erewrite bind_run by reflexivity. rewrite current_is_active, Ha.
    unfold bind, lift, MetadataRuntimeState_post_init. simpl.
    match goal with E : is_none value = false |- _ => rewrite E end. by rewrite Hf.
Qed.

Lemma metadata_failed_refines cpu_id generation error :
  event_ok (MetadataReadFailed cpu_id generation error) →
  refines (MetadataReadFailed cpu_id generation error) s.
Proof using Hs.
  intros He. eapply refines_commit; [done|reflexivity|].
  destruct (is_active cpu_id generation (rv_connection s)) eqn:Ha; react Ha; [|done].
  apply metadata_run; [|eapply metadata_frozen, Hs]. by destruct (negb _ || _).
Qed.

Lemma write_started_refines operation_id cpu_id generation identity :
  event_ok (MetadataWriteStarted operation_id cpu_id generation identity) →
  refines (MetadataWriteStarted operation_id cpu_id generation identity) s.
Proof using Hs.
  intros He. eapply refines_commit; [done|reflexivity|]. unfold metadata_written.
  destruct (is_active cpu_id generation (rv_connection s)) eqn:Ha; react Ha; [|done].
  apply metadata_run; [done|eapply metadata_frozen, Hs].
Qed.

Lemma diagnostics_post_init group d :
  dg_group d = group →
  DiagnosticsRuntimeState_post_init (set_group_state group d (rv_diagnostics_state s)) =
    Ok (set_group_state group d (rv_diagnostics_state s)).
Proof using Hs.
  intros Hd. unfold DiagnosticsRuntimeState_post_init, DiagnosticGroups. simpl.
  pose proof (ok_diagnostics s Hs) as H.
  destruct (H DiagnosticGroup.DEVICE_INFO) as [H1 _], (H DiagnosticGroup.PROTOCOL_INFO) as [H2 _],
    (H DiagnosticGroup.LAST_ERROR) as [H3 _]. simpl in *.
  destruct group; simpl; by rewrite ?Hd, ?H1, ?H2, ?H3.
Qed.

Lemma diagnostic_read_refines cpu_id generation group value :
  event_ok (DiagnosticReadSucceeded cpu_id generation group value) →
  refines (DiagnosticReadSucceeded cpu_id generation group value) s.
Proof using Hs.
  intros He. pose proof (event_checks _ He) as Hi. simpl in Hi. checks.
  match goal with E : is_none value = false |- _ => rename E into Hn end.
  destruct (is_active cpu_id generation (rv_connection s)) eqn:Ha.
  2: { eapply refines_commit; [done|simpl; by rewrite Ha|]. by react Ha. }
  destruct (freeze value) as [value'|exc] eqn:Hf.
  - eapply refines_commit; [done|simpl; by rewrite Ha, Hf|]. react Ha.
    unfold bind, lift, DiagnosticRuntimeState_post_init. simpl. rewrite Hn, Hf.
    by rewrite diagnostics_post_init.
  - eapply refines_reject; [simpl; by rewrite Ha, Hf|].
    unfold DEFAULT_DOMAIN_POLICIES. skip. apply apply_policies_raise. simpl.
    erewrite bind_run by reflexivity. rewrite current_is_active, Ha. cbn [negb].
    unfold bind, lift, DiagnosticRuntimeState_post_init. simpl. by rewrite Hn, Hf.
Qed.

Lemma diagnostic_failed_refines cpu_id generation group error :
  event_ok (DiagnosticReadFailed cpu_id generation group error) →
  refines (DiagnosticReadFailed cpu_id generation group error) s.
Proof using Hs.
  intros He. eapply refines_commit; [done|reflexivity|].
  destruct (is_active cpu_id generation (rv_connection s)) eqn:Ha; react Ha; [|done].
  pose proof (diagnostic_failed_ok _ _ _ error (ok_diagnostics s Hs group)) as (_ & Hd & _).
  unfold bind, lift. simpl in *. rewrite Hd. by rewrite diagnostics_post_init.
Qed.

(** Events that change the resource of one CPU. *)

Lemma alter_agree {A} f g (m : gmap RuntimeCpuId A) k r :
  m !! k = Some r → f r = g r → alter f k m = alter g k m.
Proof. intros Hr H. by rewrite !(alter_Some _ _ _ r), H. Qed.

Lemma alter_twice {A} f g (m : gmap RuntimeCpuId A) k :
  alter f k (alter g k m) = alter (λ x, f (g x)) k m.
Proof.
  apply map_eq. intros i. rewrite !lookup_alter. destruct (decide (k = i)); [|done].
  rewrite decide_True by done. by destruct (m !! k).
Qed.

Lemma alter_same f cpu_id r :
  rv_target_resources s !! cpu_id = Some r → f r = r → on_resources (alter f cpu_id) s = s.
Proof using.
  intros Hr Hf. unfold on_resources. rewrite (alter_Some _ _ _ r Hr), Hf, (insert_id _ _ _ Hr).
  clear. by destruct s.
Qed.

Lemma sectors_refines cpu_id scope mask :
  event_ok (SectorSelectionChanged cpu_id scope mask) →
  refines (SectorSelectionChanged cpu_id scope mask) s.
Proof using Hs.
  intros He. pose proof (event_checks _ He) as Hi. simpl in Hi. checks.
  destruct a. match goal with E : non_negative_int _ _ = _ |- _ => apply non_negative_int_ok in E end.
  destruct (ok_resources s Hs cpu_id) as (r & Hr & Hok).
  apply (resource_ok_sectors _ _ scope mask) in Hok as (? & ? & _); [|done].
  eapply refines_commit; [done|reflexivity|]. unfold DEFAULT_DOMAIN_POLICIES. skip.
  erewrite apply_policies_run; [by skip|]. by eapply update_resource_run.
Qed.

(** The evidence that an image change leaves. *)
Definition left_verify (summary : option FlashImageSummary) (r : TargetResourceState) :=
  match summary with
  | Some new => if about_image (fs_identity new) r then r else no_verify r
  | None => r
  end.

Definition left_ram_crc (summary : option RamImageSummary) (r : TargetResourceState) :=
  match summary with
  | Some new => if about_ram_image (rs_identity new) r then r else no_ram_crc r
  | None => r
  end.

Lemma program_evidence_run cpu_id path status summary error r :
  rv_target_resources s !! cpu_id = Some r → resource_ok (rv_connection s) cpu_id r →
  EvidenceInvalidationPolicy_apply (ProgramImageChanged cpu_id path status summary error) (start s) =
    (Ok tt, start (on_resources (alter (left_verify summary) cpu_id) s)).
Proof using.
  intros Hr Hok. apply resource_ok_no_verify in Hok as (Hid & Hpost & _).
  destruct summary as [new|]; [|by rewrite (alter_same _ _ r)]. simpl.
  erewrite bind_run by (by eapply target_resource_run).
  destruct (about_image (fs_identity new) r) eqn:E.
  - rewrite (alter_same _ _ r) by (try done; simpl; by rewrite E).
    unfold about_image in E. destruct (tr_verify_evidence r); [|done]. by rewrite E.
  - replace (on_resources (alter (left_verify (Some new)) cpu_id) s)
      with (on_resources (alter no_verify cpu_id) s).
    2: { unfold on_resources. rewrite (alter_agree no_verify (left_verify (Some new)) _ _ r); try done.
         simpl. by rewrite E. }
    unfold about_image in E. destruct (tr_verify_evidence r); [|done]. rewrite E.
    by eapply update_resource_run.
Qed.

Lemma ram_evidence_run cpu_id path status summary error r :
  rv_target_resources s !! cpu_id = Some r → resource_ok (rv_connection s) cpu_id r →
  EvidenceInvalidationPolicy_apply (RamImageChanged cpu_id path status summary error) (start s) =
    (Ok tt, start (on_resources (alter (left_ram_crc summary) cpu_id) s)).
Proof using.
  intros Hr Hok. apply resource_ok_no_ram_crc in Hok as (Hid & Hpost & _).
  destruct summary as [new|]; [|by rewrite (alter_same _ _ r)]. simpl.
  erewrite bind_run by (by eapply target_resource_run).
  destruct (about_ram_image (rs_identity new) r) eqn:E.
  - rewrite (alter_same _ _ r) by (try done; simpl; by rewrite E).
    unfold about_ram_image in E. destruct (tr_ram_crc_evidence r); [|done]. by rewrite E.
  - replace (on_resources (alter (left_ram_crc (Some new)) cpu_id) s)
      with (on_resources (alter no_ram_crc cpu_id) s).
    2: { unfold on_resources. rewrite (alter_agree no_ram_crc (left_ram_crc (Some new)) _ _ r); try done.
         simpl. by rewrite E. }
    unfold about_ram_image in E. destruct (tr_ram_crc_evidence r); [|done]. rewrite E.
    by eapply update_resource_run.
Qed.

Lemma program_image_refines cpu_id path status summary error :
  event_ok (ProgramImageChanged cpu_id path status summary error) →
  refines (ProgramImageChanged cpu_id path status summary error) s.
Proof using Hs.
  intros He. pose proof (event_checks _ He) as Hi. simpl in Hi. checks.
  repeat match goal with u : unit |- _ => destruct u end.
  destruct (ok_resources s Hs cpu_id) as (r & Hr & Hok).
  destruct (resource_ok_program_image _ _ path summary status error r ltac:(done) Hok)
    as (Hid & Hpost & _).
  eapply refines_commit; [done|reflexivity|]. unfold DEFAULT_DOMAIN_POLICIES. skip.
  erewrite apply_policies_run by (by eapply program_evidence_run). skip.
  erewrite apply_policies_run.
  2: { eapply (update_resource_run _ _ _ _ _ (left_verify summary r)); [|exact Hpost|exact Hid].
       simpl. by rewrite lookup_alter, decide_True, Hr by done. }
  skip. unfold on_resources. simpl. by rewrite alter_twice.
Qed.

Lemma ram_image_refines cpu_id path status summary error :
  event_ok (RamImageChanged cpu_id path status summary error) →
  refines (RamImageChanged cpu_id path status summary error) s.
Proof using Hs.
  intros He. pose proof (event_checks _ He) as Hi. simpl in Hi. checks.
  repeat match goal with u : unit |- _ => destruct u end.
  destruct (ok_resources s Hs cpu_id) as (r & Hr & Hok).
  destruct (resource_ok_ram_image _ _ path summary status error r ltac:(done) Hok)
    as (Hid & Hpost & _).
  eapply refines_commit; [done|reflexivity|]. unfold DEFAULT_DOMAIN_POLICIES. skip.
  erewrite apply_policies_run by (by eapply ram_evidence_run). skip.
  erewrite apply_policies_run.
  2: { eapply (update_resource_run _ _ _ _ _ (left_ram_crc summary r)); [|exact Hpost|exact Hid].
       simpl. by rewrite lookup_alter, decide_True, Hr by done. }
  unfold on_resources. simpl. by rewrite alter_twice.
Qed.

(** Operations. *)

Lemma invalidate_run derived s' op f r :
  rv_target_resources s' !! op_cpu_id op = Some r →
  TargetResourceState_post_init (f r) = Ok (f r) → tr_cpu_id (f r) = op_cpu_id op →
  match op_operation_type op with
  | RuntimeOperationType.ERASE | RuntimeOperationType.PROGRAM | RuntimeOperationType.VERIFY =>
      f = no_verify
  | _ => f = no_ram_crc
  end →
  EvidenceInvalidationPolicy_apply (OperationStarted op)
    (draft_of (rv_connection_generation s) derived s') =
  (Ok tt, draft_of (rv_connection_generation s) derived
            (on_resources (alter f (op_cpu_id op)) s')).
Proof using.
  intros Hr Hp Hc Hf. simpl.
  destruct (op_operation_type op); subst f; by eapply (update_resource_run _ _ _ _ _ r).
Qed.

Lemma written_run cpu_id generation :
  (d <- get ;;
   if current_connection cpu_id generation d then
     state <- lift (MetadataRuntimeState_post_init
                      (mkMetadataState (md_value (rd_metadata_state d)) DataFreshness.STALE None)) ;;
     replace_metadata_state state
   else ret tt) (start s) = (Ok tt, start (metadata_written cpu_id generation s)).
Proof using Hs.
  erewrite bind_run by reflexivity. rewrite current_is_active. unfold metadata_written.
  destruct (is_active _ _ _); [|done].
  apply metadata_run; [done|eapply metadata_frozen, Hs].
Qed.

Lemma metadata_written_resources cpu_id generation :
  rv_target_resources (metadata_written cpu_id generation s) = rv_target_resources s.
Proof using. unfold metadata_written. by destruct (is_active _ _ _). Qed.

Lemma started_refines op : event_ok (OperationStarted op) → refines (OperationStarted op) s.
Proof using Hs.
  intros He. destruct (ok_resources s Hs (op_cpu_id op)) as (r & Hr & Hok).
  pose proof (resource_ok_no_verify _ _ _ Hok) as (Hid1 & Hp1 & _).
  pose proof (resource_ok_no_ram_crc _ _ _ Hok) as (Hid2 & Hp2 & _).
  eapply refines_commit; [done|reflexivity|]. unfold DEFAULT_DOMAIN_POLICIES. skip.
  assert (Hm : MetadataFreshnessPolicy_apply (OperationStarted op) (start s) =
    (Ok tt, start (match op_operation_type op with
      | RuntimeOperationType.ERASE | RuntimeOperationType.PROGRAM =>
          metadata_written (op_cpu_id op) (op_connection_generation op) s
      | _ => s end))).
  { simpl. destruct (op_operation_type op); try done; apply written_run. }
  erewrite apply_policies_run by exact Hm. skip. unfold started_row.
  destruct (op_operation_type op) eqn:E;
    (erewrite apply_policies_run by
       (eapply (invalidate_run _ _ op); rewrite ?E; [| | |reflexivity];
        rewrite ?metadata_written_resources; eassumption)); by skip.
Qed.

Lemma failed_refines op code : event_ok (OperationFailed op code) → refines (OperationFailed op code) s.
Proof using Hs. intros He. by eapply refines_commit; [|reflexivity|unfold DEFAULT_DOMAIN_POLICIES; skip]. Qed.

Lemma verified_refines id cpu_id generation identity :
  event_ok (OperationSucceeded
    (mkOperation id RuntimeOperationType.VERIFY cpu_id generation (FlashIdentity identity))) →
  refines (OperationSucceeded
    (mkOperation id RuntimeOperationType.VERIFY cpu_id generation (FlashIdentity identity))) s.
Proof using Hs.
  intros He. pose proof (event_checks _ He) as Hi. simpl in Hi. checks.
  destruct (ok_resources s Hs cpu_id) as (r & Hr & Hok).
  eapply refines_commit; [done|reflexivity|]. unfold DEFAULT_DOMAIN_POLICIES. skip.
  erewrite apply_policies_run; [by skip|]. simpl.
  erewrite bind_run by reflexivity. erewrite bind_run by (by eapply target_resource_run).
  rewrite current_is_active. set (row := λ r, if image_ready identity r then _ else r).
  destruct (is_active cpu_id generation (rv_connection s)) eqn:Ha; simpl.
  2: by destruct (tr_program_image_summary r).
  destruct (image_ready identity r) eqn:Hready.
  - pose proof (resource_ok_verified _ _ _ _ id _ Ha Hready Hok) as (Hid & Hp & _).
    pose proof Hready as Hready'. unfold image_ready in Hready.
    destruct (tr_program_image_summary r) as [summary|]; [|done]. simpl. rewrite Hready.
    unfold operation_identity in *. simpl in *. checks.
    match goal with E : identifier id _ = _ |- _ => rename E into Hne end.
    unfold VerifyEvidence_post_init. simpl. rewrite Hne. erewrite bind_run by reflexivity.
    erewrite update_resource_run; [|exact Hr|exact Hp|exact Hid].
    unfold on_resources. rewrite (alter_Some row _ _ r Hr), (alter_Some _ _ _ r Hr).
    subst row. simpl. by rewrite Hready'.
  - rewrite (alter_same _ _ r) by (try done; subst row; simpl; by rewrite Hready).
    unfold image_ready in Hready. destruct (tr_program_image_summary r); [|done].
    simpl. by rewrite Hready.
Qed.

Lemma ram_checked_refines id cpu_id generation identity :
  event_ok (OperationSucceeded
    (mkOperation id RuntimeOperationType.RAM_CRC cpu_id generation (RamIdentity identity))) →
  refines (OperationSucceeded
    (mkOperation id RuntimeOperationType.RAM_CRC cpu_id generation (RamIdentity identity))) s.
Proof using Hs.
  intros He. pose proof (event_checks _ He) as Hi. destruct He as [He Hparts].
  simpl in Hi, Hparts. checks.
  destruct (ok_resources s Hs cpu_id) as (r & Hr & Hok).
  eapply refines_commit; [done|reflexivity|]. unfold DEFAULT_DOMAIN_POLICIES. skip.
  erewrite apply_policies_run; [by skip|]. simpl.
  erewrite bind_run by reflexivity. erewrite bind_run by (by eapply target_resource_run).
  rewrite current_is_active. set (row := λ r, if ram_image_ready identity r then _ else r).
  destruct (is_active cpu_id generation (rv_connection s)) eqn:Ha; simpl.
  2: by destruct (tr_ram_image_summary r).
  unfold operation_identity in *. simpl in *. checks.
  match goal with E : identifier id _ = _ |- _ => rename E into Hne end. destruct a0.
  apply identifier_ok in Hne.
  destruct (ram_image_ready identity r) eqn:Hready.
  - pose proof (resource_ok_ram_checked _ _ _ _ id _ Ha Hready Hparts Hne Hok) as (Hid & Hp & _ & Hram).
    pose proof Hready as Hready'. unfold ram_image_ready in Hready.
    destruct (tr_ram_image_summary r) as [summary|]; [|done]. simpl. rewrite Hready.
    destruct (Hram _ eq_refl) as (_ & _ & Hev & _).
    rewrite Hev. erewrite bind_run by reflexivity.
    erewrite update_resource_run; [|exact Hr|exact Hp|exact Hid].
    unfold on_resources. rewrite (alter_Some row _ _ r Hr), (alter_Some _ _ _ r Hr).
    subst row. simpl. by rewrite Hready'.
  - rewrite (alter_same _ _ r) by (try done; subst row; simpl; by rewrite Hready).
    unfold ram_image_ready in Hready. destruct (tr_ram_image_summary r); [|done].
    simpl. by rewrite Hready.
Qed.

Lemma succeeded_refines op : event_ok (OperationSucceeded op) → refines (OperationSucceeded op) s.
Proof using Hs.
  destruct op as [id type cpu_id generation identity]. intros He.
  pose proof (event_checks _ He) as Hi. simpl in Hi. checks.
  unfold operation_identity in *. simpl in *. checks.
  destruct type, identity; try discriminate;
    lazymatch goal with
    | |- refines (OperationSucceeded (mkOperation _ RuntimeOperationType.VERIFY _ _ _)) _ =>
        apply verified_refines; exact He
    | |- refines (OperationSucceeded (mkOperation _ RuntimeOperationType.RAM_CRC _ _ _)) _ =>
        apply ram_checked_refines; exact He
    | |- _ =>
        eapply refines_commit; [exact He|reflexivity|]; unfold DEFAULT_DOMAIN_POLICIES; skip; simpl;
        by destruct (is_active cpu_id generation (rv_connection s))
    end.
Qed.

(** Changes of the connection. *)

Lemma on_connection_some f c : rv_connection s = Some c →
  on_connection f s = set_connection (rv_connection_generation s) (Some (f c)) s.
Proof using. intros Hc. unfold on_connection, set_connection. by rewrite Hc. Qed.

Lemma on_connection_same f :
  (∀ c, rv_connection s = Some c → f c = c) → on_connection f s = s.
Proof using.
  intros Hf. unfold on_connection. clear Hs. destruct s as [g [c|] r m md dg]; simpl in *; [|done].
  by rewrite Hf.
Qed.

Lemma replace_connection_run derived connection s' :
  replace_connection connection (draft_of (rv_connection_generation s) derived s') =
    (Ok tt, draft_of (rv_connection_generation s) derived
              (set_connection (rv_connection_generation s') connection s')).
Proof using. done. Qed.

Lemma activity_refines generation occurred_at :
  event_ok (ProtocolActivityRecorded generation occurred_at) →
  refines (ProtocolActivityRecorded generation occurred_at) s.
Proof using Hs.
  intros He. pose proof (event_checks _ He) as Hi. simpl in Hi. checks. destruct a.
  match goal with E : require_utc _ _ = _ |- _ => apply require_utc_ok in E; rename E into Hu end.
  eapply refines_commit; [done|reflexivity|]. unfold DEFAULT_DOMAIN_POLICIES. skip.
  erewrite apply_policies_run; [by skip|]. unfold ConnectionHealthPolicy_apply.
  erewrite bind_run by reflexivity. simpl.
  destruct (rv_connection s) as [c|] eqn:Hconn.
  2: by rewrite on_connection_same by (intros c' Hc'; congruence).
  rewrite (on_connection_some _ _ Hconn).
  destruct (ok_connection s Hs c Hconn) as [_ Hc].
  case_bool_decide as Hg; simpl.
  2: { by destruct s; simpl in *; subst. }
  pose proof Hc as Hc'. apply connection_checks in Hc' as (_ & _ & _ & _ & (t & Ht & Htu & _) & _).
  rewrite Ht, dt_lt_utc by done. erewrite bind_run by reflexivity. unfold later.
  rewrite Z.ltb_antisym, negb_involutive. destruct (dt_clock t <=? dt_clock occurred_at) eqn:E.
  - rewrite activity_row_ok; [|done| |done].
    2: unfold later; by rewrite Ht.
    by erewrite bind_run by reflexivity.
  - by destruct s; simpl in *; subst.
Qed.

Lemma health_refines generation state checked_at error :
  event_ok (ConnectionHealthChanged generation state checked_at error) →
  refines (ConnectionHealthChanged generation state checked_at error) s.
Proof using Hs.
  intros He. pose proof (event_checks _ He) as Hi. simpl in Hi. checks. destruct a.
  match goal with E : require_utc _ _ = _ |- _ => apply require_utc_ok in E; rename E into Hu end.
  eapply refines_commit; [done|reflexivity|]. unfold DEFAULT_DOMAIN_POLICIES. skip.
  erewrite apply_policies_run; [by skip|]. unfold ConnectionHealthPolicy_apply.
  erewrite bind_run by reflexivity. simpl.
  destruct (rv_connection s) as [c|] eqn:Hconn.
  2: by rewrite on_connection_same by (intros c' Hc'; congruence).
  rewrite (on_connection_some _ _ Hconn).
  destruct (ok_connection s Hs c Hconn) as [_ Hc].
  destruct (bool_decide_reflect (generation = cr_generation c)) as [Hg|Hg]; simpl.
  2: { by destruct s; simpl in *; subst. }
  erewrite bind_run.
  2: { unfold lift. instantiate (2 := negb (later (cr_health_checked_at c) checked_at)).
       pose proof Hc as Hc'. apply connection_checks in Hc' as (_ & _ & _ & _ & _ & Ht & _).
       unfold later. destruct (cr_health_checked_at c) as [t|]; [|reflexivity].
       by rewrite (dt_lt_utc _ _ Hu (Ht _ eq_refl)), Z.ltb_antisym. }
  destruct (later (cr_health_checked_at c) checked_at); simpl.
  - by rewrite (health_row_ok _ _ _ _ _ He Hc); erewrite bind_run by reflexivity.
  - by destruct s; simpl in *; subst.
Qed.

Lemma communication_refines generation error :
  event_ok (CommunicationErrorRecorded generation error) →
  refines (CommunicationErrorRecorded generation error) s.
Proof using Hs.
  intros He. eapply refines_commit; [done|reflexivity|]. unfold DEFAULT_DOMAIN_POLICIES. skip.
  erewrite apply_policies_run; [by skip|]. simpl. erewrite bind_run by reflexivity. simpl.
  destruct (rv_connection s) as [c|] eqn:Hconn.
  2: by rewrite on_connection_same by (intros c' Hc'; congruence).
  rewrite (on_connection_some _ _ Hconn).
  destruct (ok_connection s Hs c Hconn) as [_ Hc].
  case_bool_decide as Hg; simpl.
  - by rewrite (communication_row_ok _ _ Hc); erewrite bind_run by reflexivity.
  - by destruct s; simpl in *; subst.
Qed.

(** The policies after the connection: memory, metadata, diagnostics and
    evidence start over. *)
Lemma start_over_run event derived s' active_cpu keep d :
  (∀ k, ∃ r, rv_target_resources s' !! k = Some r ∧ resource_ok (rv_connection s) k r) →
  (∀ k, ∃ m, rv_memory_states s' !! k = Some m ∧ memory_ok (rv_connection s) k m ∧
     (mm_freshness m = DataFreshness.FRESH →
      current_matches (rv_connection s') active_cpu k m = bool_decide (keep = Some k))) →
  d = draft_of (rv_connection_generation s) derived s' →
  MemoryFreshnessPolicy_apply event d = for_each RuntimeCpuIds (age_memory active_cpu) d →
  match event with
  | ConnectionOpened _ | ConnectionClosed _ _ | ActiveTargetChanged _ => True
  | _ => False
  end →
  apply_policies (drop 4 DEFAULT_DOMAIN_POLICIES) event d =
    (Ok tt, draft_of (rv_connection_generation s) derived
              (start_over (rv_connection_generation s') (rv_connection s') keep s')).
Proof using.
  intros Hr Hm -> Hmem Hev. unfold DEFAULT_DOMAIN_POLICIES. cbn [drop].
  rewrite (age_run _ _ _ _ _ _ Hm) in Hmem.
  destruct event; try done; skip; erewrite apply_policies_run by exact Hmem;
    (erewrite apply_policies_run; [|apply reset_metadata_run]);
    (erewrite apply_policies_run; [|apply reset_diagnostics_run]);
    (erewrite apply_policies_run; [|apply (strip_run _ _ (rv_connection s)); apply Hr]); by skip.
Qed.

Lemma memory_not_current connection active_cpu keep :
  (∀ m k, mm_freshness m = DataFreshness.FRESH → memory_ok (rv_connection s) k m →
     current_matches connection active_cpu k m = bool_decide (keep = Some k)) →
  ∀ k, ∃ m, rv_memory_states s !! k = Some m ∧ memory_ok (rv_connection s) k m ∧
     (mm_freshness m = DataFreshness.FRESH →
      current_matches connection active_cpu k m = bool_decide (keep = Some k)).
Proof using Hs.
  intros H k. destruct (ok_memory s Hs k) as (m & ? & ?). exists m. eauto.
Qed.

Lemma target_refines cpu_id :
  event_ok (ActiveTargetChanged cpu_id) → refines (ActiveTargetChanged cpu_id) s.
Proof using Hs.
  intros He. eapply refines_commit; [done|reflexivity|]. unfold DEFAULT_DOMAIN_POLICIES. skip.
  eapply (start_over_run _ _ s cpu_id cpu_id); try done; [apply ok_resources, Hs|].
  apply memory_not_current. intros m k F (_ & _ & Hf). destruct (Hf F) as (g & Hg & Ha).
  unfold current_matches, is_active in *. destruct (rv_connection s) as [c|]; [|done].
  apply andb_true_iff in Ha as [-> Hgen]. apply bool_decide_eq_true in Hgen. rewrite Hg, Hgen.
  rewrite (bool_decide_eq_true_2 (Some g = Some g)) by done. by rewrite !andb_true_r.
Qed.

Lemma closed_refines connection_id generation :
  event_ok (ConnectionClosed connection_id generation) →
  refines (ConnectionClosed connection_id generation) s.
Proof using Hs.
  intros He.
  destruct (match rv_connection s with
            | Some c => bool_decide (cr_connection_id c = connection_id)
                        && bool_decide (cr_generation c = generation)
            | None => false
            end) eqn:E.
  - eapply refines_commit; [done|simpl; by rewrite E|]. unfold DEFAULT_DOMAIN_POLICIES. skip.
    erewrite apply_policies_run.
    2: { simpl. erewrite bind_run by reflexivity. simpl.
         destruct (rv_connection s) as [c|]; [|done].
         apply andb_true_iff in E as [-> ->]. simpl. reflexivity. }
    skip. set (s' := set_connection (rv_connection_generation s) None s).
    assert (Hnone : ∀ k m, current_matches None None k m = bool_decide (None = Some k)).
    { intros k m. by rewrite bool_decide_eq_false_2. }
    pose proof (memory_not_current None None None (λ m k _ _, Hnone k m)) as Hm.
    apply (start_over_run _ _ s' None None _ (ok_resources s Hs) Hm); done.
  - eapply refines_reject; [simpl; by rewrite E|]. unfold DEFAULT_DOMAIN_POLICIES. skip.
    apply apply_policies_raise. simpl. erewrite bind_run by reflexivity. simpl.
    destruct (rv_connection s) as [c|]; [|reflexivity]. simpl.
    destruct (bool_decide (cr_connection_id c = connection_id)); [|reflexivity]. simpl in *.
    rewrite E. reflexivity.
Qed.

Lemma opened_refines info :
  event_ok (ConnectionOpened info) → refines (ConnectionOpened info) s.
Proof using Hs.
  intros He. pose proof (ok_generation s Hs) as Hgen.
  set (generation := mkGeneration (cg_value (rv_connection_generation s) + 1)).
  set (changed := ConnectionGenerationChanged (rv_connection_generation s) generation).
  set (s1 := set_connection generation (rv_connection s) s).
  assert (Hrun : ConnectionGenerationPolicy_apply (ConnectionOpened info) (start s) =
    (Ok tt, draft_of (rv_connection_generation s) [changed] s1)).
  { simpl. erewrite bind_run by reflexivity.
    unfold generation_next, ConnectionGeneration_post_init. simpl.
    rewrite (proj2 (Z.ltb_ge _ _)) by lia. erewrite bind_run by reflexivity.
    erewrite bind_run by reflexivity. simpl. rewrite Z.eqb_refl. simpl. reflexivity. }
  assert (Hne : bool_decide (generation = rv_connection_generation s) = false).
  { apply bool_decide_eq_false. unfold generation. destruct (rv_connection_generation s). simpl.
    intros [= H]. lia. }
  destruct (from_connection_info info generation) as [c|exc] eqn:E.
  - eapply refines_commit; [done|simpl; fold generation; by rewrite E|].
    unfold DEFAULT_DOMAIN_POLICIES.
    erewrite apply_policies_run by exact Hrun. erewrite apply_policies_run.
    2: { simpl. erewrite bind_run by reflexivity. simpl. rewrite Hne, E.
         erewrite bind_run by reflexivity. simpl. reflexivity. }
    skip. pose proof (from_connection_info_ok _ _ _ E) as [Hg Hc].
    set (s' := set_connection generation (Some c) s).
    assert (Hm := memory_not_current (Some c) (Some (cr_cpu_id c)) None).
    eapply (start_over_run _ _ s' (Some (cr_cpu_id c)) None _ (ok_resources s Hs)); try done.
    apply Hm. intros m k F (_ & _ & Hf). destruct (Hf F) as (g & Hmg & Ha).
    rewrite (bool_decide_eq_false_2 (None = Some k)) by done. simpl. apply andb_false_iff. right.
    rewrite Hmg, Hg. unfold is_active in Ha.
    destruct (rv_connection s) as [old|] eqn:Hold; [|done].
    apply andb_true_iff in Ha as [_ Ha]. apply bool_decide_eq_true in Ha.
    destruct (ok_connection s Hs old Hold) as [Hog _]. apply bool_decide_eq_false.
    apply bool_decide_eq_false in Hne. intros [= ->]. by apply Hne; rewrite <- Hog.
  - eapply refines_reject; [simpl; fold generation; by rewrite E|].
    unfold DEFAULT_DOMAIN_POLICIES. erewrite apply_policies_run by exact Hrun.
    apply apply_policies_raise. simpl. erewrite bind_run by reflexivity. simpl.
    rewrite Hne, E. reflexivity.
Qed.

Lemma generation_refines previous current :
  event_ok (ConnectionGenerationChanged previous current) →
  refines (ConnectionGenerationChanged previous current) s.
Proof using Hs.
  intros He. eapply refines_commit; [done|reflexivity|]. unfold DEFAULT_DOMAIN_POLICIES. skip.
  erewrite apply_policies_run; [|apply (strip_run _ _ (rv_connection s)); apply ok_resources, Hs].
  by skip.
Qed.

Lemma session_refines : event_ok SessionChanged → refines SessionChanged s.
Proof using Hs.
  intros He.
  assert (Hrun : ∀ ps, apply_policies (take 7 (drop 4 DEFAULT_DOMAIN_POLICIES) ++ ps) SessionChanged (start s) =
    apply_policies ps SessionChanged (start
      (mkSnapshot (rv_connection_generation s) (rv_connection s)
         (no_evidence <$> rv_target_resources s) (for_each_cpu MemoryRuntimeState_default)
         MetadataRuntimeState_default DiagnosticsRuntimeState_default))).
  { intros ps. unfold DEFAULT_DOMAIN_POLICIES. cbn [drop take app].
    (erewrite apply_policies_run; [|apply default_memory_run]).
    (erewrite apply_policies_run; [|apply reset_metadata_run]).
    (erewrite apply_policies_run; [|apply reset_diagnostics_run]).
    (erewrite apply_policies_run; [|apply (strip_run _ _ (rv_connection s)); exact (ok_resources s Hs)]).
    by skip. }
  destruct (rv_connection s) as [c|] eqn:Hc.
  - eapply refines_reject; [simpl; by rewrite Hc|].
    unfold DEFAULT_DOMAIN_POLICIES. skip.
    eapply (eq_trans (Hrun (drop 11 DEFAULT_DOMAIN_POLICIES))).
    apply apply_policies_raise. reflexivity.
  - eapply refines_commit; [done|simpl; by rewrite Hc|].
    unfold DEFAULT_DOMAIN_POLICIES. skip.
    eapply (eq_trans (Hrun (drop 11 DEFAULT_DOMAIN_POLICIES))).
    unfold DEFAULT_DOMAIN_POLICIES. cbn [drop].
    erewrite apply_policies_run; [by skip|].
    simpl. erewrite bind_run by reflexivity. simpl. apply default_resources_run.
Qed.

(** The ordered policies implement the table of transitions. *)
Lemma transition_refines event : event_ok event → refines event s.
Proof using Hs.
  intros He. destruct event.
  - by apply metadata_read_refines.
  - by apply metadata_failed_refines.
  - by apply write_started_refines.
  - by apply diagnostic_read_refines.
  - by apply diagnostic_failed_refines.
  - by apply memory_read_refines.
  - by apply memory_failed_refines.
  - by apply memory_cleared_refines.
  - by apply target_refines.
  - by apply program_image_refines.
  - by apply ram_image_refines.
  - by apply sectors_refines.
  - by apply opened_refines.
  - by apply closed_refines.
  - by apply generation_refines.
  - by apply activity_refines.
  - by apply health_refines.
  - by apply communication_refines.
  - by apply started_refines.
  - by apply succeeded_refines.
  - by apply failed_refines.
  - by apply session_refines.
Qed.
End events.
