(* ===== verification/RuntimeProperties.v ===== *)
(** * Correctness of the GUI runtime state

    Executions of the dispatcher as a transition system, and what holds along
    them. *)

From stdpp Require Import gmap.
From S2P Require Import Prelude.
From S2P Require Import Errors.
From S2P Require Import Targets.
From S2P Require Import RuntimeValues.
From S2P Require Import RuntimeModels.
From S2P Require Import RuntimeStore.
From S2P Require Import RuntimeDispatch.
From S2P Require Import RuntimeTable.
From S2P Require Import RuntimeInvariant.
From S2P Require Import RuntimeRefinement.

(** ** Executions *)

(** [execution history d]: the dispatcher [d] is reached from a new one with
    a new store; [history] are the events whose dispatch did not raise, the
    latest first. *)
Inductive execution : list DomainEvent → DomainEventDispatcher → Prop :=
| execution_start : execution [] (DomainEventDispatcher_init RuntimeStateStore_init)
| execution_dispatch history d event r d' :
    execution history d → event_ok event → dispatch event d = (r, d') →
    execution (if is_ok r then event :: history else history) d'
| execution_subscribe history d listener :
    execution history d → execution history (subscribe listener d).2
| execution_unsubscribe history d listener :
    execution history d → execution history (unsubscribe listener d).2.

(** The result that [dispatch] makes of a committed transition. *)
Definition published (event : DomainEvent) (before after : RuntimeV2Snapshot)
    (listeners : list TransitionListener) : RuntimeTransitionResult :=
  let derived := derived_from event before after in
  mkTransitionResult event derived after
    (publish (mkTransitionResult event derived after []) listeners).

Lemma dispatch_effect event d :
  runtime_ok (de_store d) → de_policies d = DEFAULT_DOMAIN_POLICIES → event_ok event →
  dispatch event d =
    match event_effect event (de_store d) with
    | Ok s' => (Ok (published event (de_store d) s' (de_listeners d)),
                mkDispatcher s' (de_policies d) (de_listeners d))
    | Raise exc => (Raise exc, d)
    end.
Proof.
  intros Hs Hp He. pose proof (transition_refines _ Hs event He) as H. unfold refines in H.
  unfold dispatch, bind, get, lift, modify. rewrite Hp, H.
  destruct d as [store policies listeners]. simpl in *. subst policies. by destruct (event_effect event store).
Qed.

Lemma initial_ok : runtime_ok RuntimeStateStore_init.
Proof. by apply runtime_ok_default. Qed.

Lemma listeners_only d f :
  de_store (modify f d : Res unit * DomainEventDispatcher).2 = de_store (f d).
Proof. done. Qed.

Lemma execution_runtime_ok history d :
  execution history d → runtime_ok (de_store d) ∧ de_policies d = DEFAULT_DOMAIN_POLICIES.
Proof.
  induction 1 as [|history d event r d' _ [Hs Hp] He H|history d listener _ IH|history d listener _ IH].
  - split; [apply initial_ok|done].
  - rewrite dispatch_effect in H by done.
    destruct (event_effect event (de_store d)) as [s'|] eqn:E; injection H as <- <-; [|done].
    split; [|done]. by eapply event_effect_ok.
  - simpl. by destruct (existsb _ _).
  - done.
Qed.

(** One accepted event of an execution. *)
Lemma execution_invert_dispatch history d event r d' :
  execution history d → event_ok event → dispatch event d = (r, d') →
  (∃ s', event_effect event (de_store d) = Ok s' ∧ de_store d' = s' ∧ is_ok r = true) ∨
  (∃ exc, event_effect event (de_store d) = Raise exc ∧ d' = d ∧ is_ok r = false).
Proof.
  intros Hx He H. destruct (execution_runtime_ok _ _ Hx) as [Hs Hp].
  rewrite dispatch_effect in H by done.
  destruct (event_effect event (de_store d)) as [s'|exc]; injection H as <- <-; eauto 6.
Qed.

(** ** Properties of one dispatch *)

(** C18: The policies implement the table of transitions.  In a well-formed
    state, dispatching an event changes the state as the row of the event
    says, reports the new snapshot and the derived events, and calls every
    listener with them, collecting the exceptions of the listeners in their
    order; when the row raises, dispatch raises that exception and neither the
    state nor the listeners see anything of the event. *)
Theorem dispatch_implements_table event d :
  runtime_ok (de_store d) → de_policies d = DEFAULT_DOMAIN_POLICIES → event_ok event →
  (∀ exc, event_effect event (de_store d) = Raise exc → dispatch event d = (Raise exc, d)) ∧
  (∀ s', event_effect event (de_store d) = Ok s' →
     ∃ result, dispatch event d =
         (Ok result, mkDispatcher s' (de_policies d) (de_listeners d)) ∧
       rt_source_event result = event ∧ rt_snapshot result = s' ∧
       rt_derived_events result = derived_from event (de_store d) s' ∧
       ∀ failure, failure ∈ rt_listener_failures result ↔
         ∃ listener exc, listener ∈ de_listeners d ∧
           tl_call listener (mkTransitionResult event (rt_derived_events result) s' []) = Raise exc ∧
           failure = mkListenerFailure (tl_qualname listener) (class_of exc) (exn_str exc)).
Proof.
  intros Hs Hp He. rewrite (dispatch_effect _ _ Hs Hp He). split.
  - by intros exc ->.
  - intros s' ->. eexists. split; [done|]. split_and!; [done..|].
    intros failure. simpl. unfold publish. rewrite list_elem_of_In, in_flat_map. split.
    + intros (listener & Hl & Hf). apply list_elem_of_In in Hl.
      destruct (tl_call listener _) as [|exc] eqn:E; [done|].
      destruct Hf as [<-|[]]. by exists listener, exc.
    + intros (listener & exc & Hl & E & ->). exists listener. split; [by apply list_elem_of_In|].
      rewrite E. by left.
Qed.

(** The row of the event raises. *)
Definition rejected (event : DomainEvent) (s : RuntimeV2Snapshot) : Prop :=
  match event with
  | ConnectionOpened info =>
      ci_transport_label info = EmptyString ∨ ci_endpoint_label info = EmptyString
  | ConnectionClosed connection_id generation =>
      ∀ c, rv_connection s = Some c →
        ¬ (cr_connection_id c = connection_id ∧ cr_generation c = generation)
  | SessionChanged => is_Some (rv_connection s)
  | MetadataReadSucceeded cpu_id generation value
  | DiagnosticReadSucceeded cpu_id generation _ value =>
      is_active cpu_id generation (rv_connection s) = true ∧ ¬ freezable [] value
  | _ => False
  end.

Lemma freeze_raises value : is_ok (freeze value) = false ↔ ¬ freezable [] value.
Proof.
  unfold freeze. by destruct (freeze_correct [] value) as [[? ->]|[? (e & -> & _)]]; simpl; split.
Qed.

Lemma opened_rejected info generation :
  event_ok (ConnectionOpened info) →
  is_ok (from_connection_info info generation) = false ↔
  ci_transport_label info = EmptyString ∨ ci_endpoint_label info = EmptyString.
Proof.
  intros [He Hparts]. simpl in *. checks. unfold from_connection_info.
  match goal with E : from_target_key _ = Ok _ |- _ => rewrite E end.
  match goal with E : identifier _ _ = Ok _ |- _ => rename E into Hid end. destruct a.
  unfold ConnectionInfo_post_init in Hparts. checks.
  match goal with E : negb (is_utc _) = false |- _ => apply negb_false_iff in E; rename E into Hu end.
  unfold ConnectionRuntimeState_post_init. simpl. rewrite Hid.
  unfold identifier, empty_str, require_utc.
  destruct (bool_decide_reflect (ci_transport_label info = EmptyString)); [by split; auto|].
  destruct (bool_decide_reflect (ci_endpoint_label info = EmptyString)); [by split; auto|].
  rewrite Hu. simpl. rewrite dt_lt_utc by done. rewrite Z.ltb_irrefl. simpl.
  split; [done|]. intros [?|?]; contradiction.
Qed.

(** An event is refused only for a documented reason.  In a well-formed
    state the dispatch of an event raises exactly when: it opens a connection
    without a transport or an endpoint label; it closes a connection that is
    not the active one; it changes the session while connected; or it brings a
    value read over the active connection that cannot be made immutable.
    Whenever it raises, the dispatcher and its state are unchanged. *)
Theorem dispatch_rejects_exactly event d :
  runtime_ok (de_store d) → de_policies d = DEFAULT_DOMAIN_POLICIES → event_ok event →
  (is_ok (dispatch event d).1 = false ↔ rejected event (de_store d)) ∧
  (is_ok (dispatch event d).1 = false → (dispatch event d).2 = d).
Proof.
  intros Hs Hp He. rewrite (dispatch_effect _ _ Hs Hp He).
  split; [|by destruct (event_effect _ _)].
  assert (∀ A (r : Res A) P f, is_ok (by_policy P r f) = is_ok r) as Hby by (by intros ? []).
  transitivity (is_ok (event_effect event (de_store d)) = false);
    [by destruct (event_effect _ _)|].
  destruct event; simpl; try done.
  - destruct (is_active _ _ _); simpl; [rewrite Hby, freeze_raises|]; naive_solver.
  - destruct (is_active _ _ _); simpl; [rewrite Hby, freeze_raises|]; naive_solver.
  - rewrite Hby. by apply opened_rejected.
  - destruct (rv_connection (de_store d)) as [c|]; simpl; [|naive_solver].
    case_bool_decide; [case_bool_decide|]; simpl; naive_solver.
  - destruct (rv_connection (de_store d)) as [c|]; simpl; [by split; [eexists|]|].
    split; [done|]. by intros [? [=]].
Qed.

(** ** Where evidence comes from *)

(** The event that reports the verification of an image. *)
Definition verified_by (e : VerifyEvidence) : DomainEvent :=
  OperationSucceeded (mkOperation (ve_operation_id e) RuntimeOperationType.VERIFY (ve_cpu_id e)
    (ve_connection_generation e) (FlashIdentity (ve_image_identity e))).

Definition ram_checked_by (e : RamCrcEvidence) : DomainEvent :=
  OperationSucceeded (mkOperation (ce_operation_id e) RuntimeOperationType.RAM_CRC (ce_cpu_id e)
    (ce_connection_generation e) (RamIdentity (ce_ram_image_identity e))).

(** The event does not touch the Flash of the CPU, its image or the connection. *)
Definition keeps_verify (cpu_id : RuntimeCpuId) (identity : ImageIdentity) (event : DomainEvent)
    : Prop :=
  match event with
  | ConnectionOpened _ | ConnectionClosed _ _ | ConnectionGenerationChanged _ _
  | ActiveTargetChanged _ | SessionChanged => False
  | OperationStarted op =>
      op_cpu_id op = cpu_id →
      op_operation_type op ∈ [RuntimeOperationType.RAM_LOAD; RuntimeOperationType.RAM_CRC]
  | ProgramImageChanged cpu_id' _ _ (Some summary) _ =>
      cpu_id' = cpu_id → fs_identity summary = identity
  | _ => True
  end.

Definition keeps_ram_crc (cpu_id : RuntimeCpuId) (identity : RamImageIdentity)
    (event : DomainEvent) : Prop :=
  match event with
  | ConnectionOpened _ | ConnectionClosed _ _ | ConnectionGenerationChanged _ _
  | ActiveTargetChanged _ | SessionChanged => False
  | OperationStarted op =>
      op_cpu_id op = cpu_id →
      op_operation_type op ∈ [RuntimeOperationType.ERASE; RuntimeOperationType.PROGRAM;
                              RuntimeOperationType.VERIFY]
  | RamImageChanged cpu_id' _ _ (Some summary) _ =>
      cpu_id' = cpu_id → rs_identity summary = identity
  | _ => True
  end.

(** The resource of a CPU before an event that leads to the resource [r']
    after it: the same, or changed by an update of this CPU. *)
Lemma alter_inv {A} (f : A → A) (m : gmap RuntimeCpuId A) k cpu_id r' :
  alter f k m !! cpu_id = Some r' →
  (k = cpu_id ∧ ∃ r, m !! cpu_id = Some r ∧ r' = f r) ∨ (k <> cpu_id ∧ m !! cpu_id = Some r').
Proof.
  rewrite lookup_alter. case_decide as E; [|by right].
  subst k. intros H. left. split; [done|]. by destruct (m !! cpu_id) as [r|]; [exists r; simplify_eq/=|].
Qed.

Ltac events_apart :=
  repeat match goal with
  | H : Ok _ = Ok _ |- _ => injection H as <-
  | H : Raise _ = Ok _ |- _ => discriminate H
  | H : by_policy _ ?r _ = Ok _ |- _ => destruct r eqn:?; simpl in H
  | H : (if ?b then _ else _) = Ok _ |- _ => destruct b eqn:?
  | H : context [rv_target_resources (if ?b then _ else _)] |- _ => destruct b eqn:?
  | H : context [rv_target_resources (metadata_written _ _ _)] |- _ =>
      rewrite metadata_written_resources in H
  end.

Lemma stripped (m : gmap RuntimeCpuId TargetResourceState) cpu_id r' :
  (no_evidence <$> m) !! cpu_id = Some r' →
  tr_verify_evidence r' = None ∧ tr_ram_crc_evidence r' = None.
Proof. rewrite lookup_fmap. destruct (m !! cpu_id); simpl; [by intros [= <-]|done]. Qed.

Lemma verify_step event s s' cpu_id r' e :
  event_effect event s = Ok s' →
  rv_target_resources s' !! cpu_id = Some r' → tr_verify_evidence r' = Some e →
  (∃ r, rv_target_resources s !! cpu_id = Some r ∧ tr_verify_evidence r = Some e ∧
     keeps_verify cpu_id (ve_image_identity e) event) ∨
  event = verified_by e.
Proof.
  intros Heff Hr He.
  destruct event; simpl event_effect in Heff; events_apart; simpl in Hr;
    try (left; by exists r');
    try (apply stripped in Hr as [? _]; congruence).
  - apply alter_inv in Hr as [[-> (r & Hr & ->)]|[Hne Hr]].
    + simpl in He. left. exists r. destruct summary as [new|]; simpl in He |- *; [|done].
      destruct (about_image (fs_identity new) r) eqn:E; [|done].
      split_and!; try done. intros _. unfold about_image in E. rewrite He in E.
      by apply bool_decide_eq_true in E.
    + left. exists r'. split_and!; try done. simpl. by destruct summary.
  - apply alter_inv in Hr as [[-> (r & Hr & ->)]|[Hne Hr]]; left; [|by exists r'].
    exists r. split_and!; try done. unfold ram_image_row in He. simpl in He.
    destruct summary as [new|]; [|done]. by destruct (about_ram_image _ _).
  - apply alter_inv in Hr as [[-> (r & Hr & ->)]|[Hne Hr]]; left; [by exists r|by exists r'].
  - unfold started_row in Hr. left.
    destruct (op_operation_type operation) eqn:E; simpl in Hr; events_apart;
      apply alter_inv in Hr as [[<- (r & Hr & ->)]|[Hne Hr]]; try done.
    all: try (exists r'; split_and!; try done; simpl; intros ?; congruence).
    all: exists r; split_and!; try done; simpl; rewrite E; intros _; repeat constructor.
  - destruct operation as [id type cpu generation identity]. simpl in Hr.
    destruct (negb _); [left; by exists r'|].
    destruct type; try (left; by exists r'); destruct identity as [|identity|identity];
      try (left; by exists r'); simpl in Hr;
      apply alter_inv in Hr as [[-> (r & Hr & ->)]|[Hne Hr]]; try (left; by exists r').
    + destruct (image_ready identity r); [|left; by exists r]. simpl in He. injection He as <-. by right.
    + left. exists r. by destruct (ram_image_ready identity r).
  - rewrite for_each_cpu_lookup in Hr. by injection Hr as <-.
Qed.

Lemma ram_crc_step event s s' cpu_id r' e :
  event_effect event s = Ok s' →
  rv_target_resources s' !! cpu_id = Some r' → tr_ram_crc_evidence r' = Some e →
  (∃ r, rv_target_resources s !! cpu_id = Some r ∧ tr_ram_crc_evidence r = Some e ∧
     keeps_ram_crc cpu_id (ce_ram_image_identity e) event) ∨
  event = ram_checked_by e.
Proof.
  intros Heff Hr He.
  destruct event; simpl event_effect in Heff; events_apart; simpl in Hr;
    try (left; by exists r');
    try (apply stripped in Hr as [_ ?]; congruence).
  - apply alter_inv in Hr as [[-> (r & Hr & ->)]|[Hne Hr]]; left; [|by exists r'].
    exists r. split_and!; try done. unfold program_image_row in He. simpl in He.
    destruct summary as [new|]; [|done]. by destruct (about_image _ _).
  - apply alter_inv in Hr as [[-> (r & Hr & ->)]|[Hne Hr]].
    + simpl in He. left. exists r. destruct summary as [new|]; simpl in He |- *; [|done].
      destruct (about_ram_image (rs_identity new) r) eqn:E; [|done].
      split_and!; try done. intros _. unfold about_ram_image in E. rewrite He in E.
      by apply bool_decide_eq_true in E.
    + left. exists r'. split_and!; try done. simpl. by destruct summary.
  - apply alter_inv in Hr as [[-> (r & Hr & ->)]|[Hne Hr]]; left; [by exists r|by exists r'].
  - unfold started_row in Hr. left.
    destruct (op_operation_type operation) eqn:E; simpl in Hr; events_apart;
      apply alter_inv in Hr as [[<- (r & Hr & ->)]|[Hne Hr]]; try done.
    all: try (exists r'; split_and!; try done; simpl; intros ?; congruence).
    all: exists r; split_and!; try done; simpl; rewrite E; intros _; repeat constructor.
  - destruct operation as [id type cpu generation identity]. simpl in Hr.
    destruct (negb _); [left; by exists r'|].
    destruct type; try (left; by exists r'); destruct identity as [|identity|identity];
      try (left; by exists r'); simpl in Hr;
      apply alter_inv in Hr as [[-> (r & Hr & ->)]|[Hne Hr]]; try (left; by exists r').
    + left. exists r. by destruct (image_ready identity r).
    + destruct (ram_image_ready identity r); [|left; by exists r]. simpl in He. injection He as <-. by right.
  - rewrite for_each_cpu_lookup in Hr. by injection Hr as <-.
Qed.

(** What one accepted event leaves of a property of the history carries over
    to executions. *)
Lemma provenance (has : RuntimeV2Snapshot → Prop) (source : DomainEvent) (keeps : DomainEvent → Prop) :
  ¬ has RuntimeStateStore_init →
  (∀ event s s', event_effect event s = Ok s' → has s' → has s ∧ keeps event ∨ event = source) →
  ∀ history d, execution history d → has (de_store d) →
    ∃ after before, history = after ++ source :: before ∧ Forall keeps after.
Proof.
  intros Hinit Hstep history d Hx.
  induction Hx as [|history d event r d' Hx IH He H|history d listener _ IH|history d listener _ IH];
    intros Hhas.
  - done.
  - destruct (execution_invert_dispatch _ _ _ _ _ Hx He H)
      as [(s' & Heff & Hd & ->)|(exc & _ & -> & ->)]; [|by apply IH].
    rewrite Hd in Hhas. destruct (Hstep _ _ _ Heff Hhas) as [[Hold Hk]| ->].
    + destruct (IH Hold) as (after & before & -> & Hf). exists (event :: after), before.
      split; [done|]. by constructor.
    + by exists [], history.
  - apply IH. simpl in Hhas. by destruct (existsb _ _).
  - by apply IH.
Qed.

(** C19: Evidence is earned, and lost when it should be.  In every execution,
    if a CPU has the evidence that its Flash was verified (or its RAM image
    checked), then an accepted event has reported exactly that verification
    (check): the same operation, image, CPU and connection; and since then
    nothing was opened, closed, retargeted or reset, no operation that touches
    the Flash (the RAM) of this CPU was started, and no other image was
    loaded for it. *)
Theorem evidence_provenance history d cpu_id r :
  execution history d → rv_target_resources (de_store d) !! cpu_id = Some r →
  (∀ e, tr_verify_evidence r = Some e →
     ∃ after before, history = after ++ verified_by e :: before ∧
       Forall (keeps_verify cpu_id (ve_image_identity e)) after) ∧
  (∀ e, tr_ram_crc_evidence r = Some e →
     ∃ after before, history = after ++ ram_checked_by e :: before ∧
       Forall (keeps_ram_crc cpu_id (ce_ram_image_identity e)) after).
Proof.
  intros Hx Hr. split; intros e He.
  - apply (provenance (λ s, ∃ r, rv_target_resources s !! cpu_id = Some r ∧
      tr_verify_evidence r = Some e)) with (d := d); [| |done|by exists r].
    + intros (r0 & H0 & E0). by destruct cpu_id; injection H0 as <-.
    + intros event s s' Heff (r' & Hr' & He').
      destruct (verify_step _ _ _ _ _ _ Heff Hr' He') as [(r0 & ? & ? & ?)|]; [left|by right].
      split; [by exists r0|done].
  - apply (provenance (λ s, ∃ r, rv_target_resources s !! cpu_id = Some r ∧
      tr_ram_crc_evidence r = Some e)) with (d := d); [| |done|by exists r].
    + intros (r0 & H0 & E0). by destruct cpu_id; injection H0 as <-.
    + intros event s s' Heff (r' & Hr' & He').
      destruct (ram_crc_step _ _ _ _ _ _ Heff Hr' He') as [(r0 & ? & ? & ?)|]; [left|by right].
      split; [by exists r0|done].
Qed.

(** ** Invariants of executions *)

Definition is_opened (event : DomainEvent) : bool :=
  match event with ConnectionOpened _ => true | _ => false end.

Lemma generation_step event s s' :
  event_effect event s = Ok s' →
  cg_value (rv_connection_generation s') =
    cg_value (rv_connection_generation s) + (if is_opened event then 1 else 0).
Proof.
  intros Heff.
  destruct event as [| | | | | | | | | | | | | | | | | | |[id [] cpu generation []]| |];
    simpl event_effect in Heff; events_apart; unfold started_row, metadata_written; simpl;
    try lia; repeat case_match; simpl; lia.
Qed.

(** C20: The GUI never shows stale data as fresh.  In every execution the
    dispatcher's state passes the checks of a snapshot and: the generation is
    the number of connections opened; memory marked FRESH was read over the
    active connection (same CPU and generation); metadata and diagnostics are
    FRESH only while connected; and evidence belongs to the active connection,
    to its CPU and to the image the CPU has now. *)
Theorem executions_well_formed history d :
  execution history d →
  (snapshot (de_store d)).1 = Ok (de_store d) ∧
  cg_value (rv_connection_generation (de_store d)) = zlen (List.filter is_opened history) ∧
  (∀ cpu_id m, rv_memory_states (de_store d) !! cpu_id = Some m →
     mm_freshness m = DataFreshness.FRESH → ∃ c, rv_connection (de_store d) = Some c ∧
       cr_cpu_id c = cpu_id ∧ mm_connection_generation m = Some (cr_generation c)) ∧
  (rv_connection (de_store d) = None →
     md_freshness (rv_metadata_state (de_store d)) <> DataFreshness.FRESH ∧
     ∀ group, dg_freshness (group_state (rv_diagnostics_state (de_store d)) group) <>
              DataFreshness.FRESH) ∧
  (∀ cpu_id r e, rv_target_resources (de_store d) !! cpu_id = Some r →
     tr_verify_evidence r = Some e → ∃ c, rv_connection (de_store d) = Some c ∧
       cr_cpu_id c = cpu_id ∧ ve_connection_generation e = cr_generation c ∧
       ∀ summary, tr_program_image_summary r = Some summary →
         fs_identity summary = ve_image_identity e) ∧
  (∀ cpu_id r e, rv_target_resources (de_store d) !! cpu_id = Some r →
     tr_ram_crc_evidence r = Some e → ∃ c, rv_connection (de_store d) = Some c ∧
       cr_cpu_id c = cpu_id ∧ ce_connection_generation e = cr_generation c ∧
       ∀ summary, tr_ram_image_summary r = Some summary →
         rs_identity summary = ce_ram_image_identity e).
Proof.
  intros Hx. destruct (execution_runtime_ok _ _ Hx) as [Hs _].
  assert (Hactive : ∀ cpu_id g, is_active cpu_id g (rv_connection (de_store d)) = true →
    ∃ c, rv_connection (de_store d) = Some c ∧ cr_cpu_id c = cpu_id ∧ g = cr_generation c).
  { intros k g Ha. unfold is_active in Ha. destruct (rv_connection (de_store d)) as [c|]; [|done].
    apply andb_true_iff in Ha as [H1%bool_decide_eq_true H2%bool_decide_eq_true]. by exists c. }
  split_and!.
  - unfold snapshot, bind, get, lift. simpl. by apply snapshot_ok.
  - clear Hs Hactive. induction Hx as [|history d event r d' Hx IH He H|? ? ? _ IH|? ? ? _ IH].
    + done.
    + destruct (execution_invert_dispatch _ _ _ _ _ Hx He H)
        as [(s' & Heff & Hd & ->)|(exc & _ & -> & ->)]; [|done].
      rewrite Hd, (generation_step _ _ _ Heff), IH. simpl.
      destruct (is_opened event); [rewrite zlen_cons|]; lia.
    + simpl. by destruct (existsb _ _).
    + done.
  - intros k m Hm F. destruct (ok_memory _ Hs k) as (m' & Hm' & _ & _ & Hf). simplify_eq.
    destruct (Hf F) as (g & Hg & Ha). destruct (Hactive _ _ Ha) as (c & ? & ? & ->). by exists c.
  - intros Hn. split.
    + intros F. destruct (ok_metadata _ Hs) as [_ H]. destruct (H F). congruence.
    + intros group F. destruct (ok_diagnostics _ Hs group) as (_ & _ & H). destruct (H F). congruence.
  - intros k r e Hr He. destruct (ok_resources _ Hs k) as (r' & Hr' & _ & _ & Hv & _). simplify_eq.
    destruct (Hv e He) as (_ & Ha & Hsum). destruct (Hactive _ _ Ha) as (c & ? & ? & ?). by exists c.
  - intros k r e Hr He. destruct (ok_resources _ Hs k) as (r' & Hr' & _ & _ & _ & Hv). simplify_eq.
    destruct (Hv e He) as (_ & Ha & _ & Hsum). destruct (Hactive _ _ Ha) as (c & ? & ? & ?). by exists c.
Qed.

(** ** Events of connections that are gone *)

(** The connection that an event says it comes from. *)
Definition origin (event : DomainEvent) : option (option RuntimeCpuId * ConnectionGeneration) :=
  match event with
  | MetadataReadSucceeded cpu_id generation _ | MetadataReadFailed cpu_id generation _
  | MetadataWriteStarted _ cpu_id generation _ | DiagnosticReadSucceeded cpu_id generation _ _
  | DiagnosticReadFailed cpu_id generation _ _ | MemoryReadSucceeded cpu_id generation _ _ _
  | MemoryReadFailed cpu_id generation _ => Some (Some cpu_id, generation)
  | OperationSucceeded op => Some (Some (op_cpu_id op), op_connection_generation op)
  | ProtocolActivityRecorded generation _ | ConnectionHealthChanged generation _ _ _
  | CommunicationErrorRecorded generation _ => Some (None, generation)
  | _ => None
  end.

(** It is not the active connection. *)
Definition stale (event : DomainEvent) (s : RuntimeV2Snapshot) : Prop :=
  match origin event with
  | Some (cpu_id, generation) =>
      ∀ c, rv_connection s = Some c →
        cr_generation c <> generation ∨ ∃ k, cpu_id = Some k ∧ cr_cpu_id c <> k
  | None => False
  end.

Lemma stale_inactive cpu_id generation s :
  (∀ c, rv_connection s = Some c →
     cr_generation c <> generation ∨ ∃ k, Some cpu_id = Some k ∧ cr_cpu_id c <> k) →
  is_active cpu_id generation (rv_connection s) = false.
Proof.
  intros H. unfold is_active. destruct (rv_connection s) as [c|]; [|done].
  apply andb_false_iff. destruct (H c eq_refl) as [Hg|(k & [= <-] & Hk)].
  - right. by apply bool_decide_eq_false.
  - left. by apply bool_decide_eq_false.
Qed.

Lemma stale_generation generation s c :
  (∀ c, rv_connection s = Some c →
     cr_generation c <> generation ∨ ∃ k, None = Some k ∧ cr_cpu_id c <> k) →
  rv_connection s = Some c → cr_generation c <> generation.
Proof. intros H Hc. by destruct (H c Hc) as [|(k & [=] & _)]. Qed.

(** Answers of an old connection change nothing.  In a well-formed state,
    a result, failure, success or health report that comes from another
    connection than the active one (other CPU or generation, or no connection
    at all) is accepted and leaves the dispatcher and its state exactly as
    they were. *)
Theorem stale_events_ignored event d :
  runtime_ok (de_store d) → de_policies d = DEFAULT_DOMAIN_POLICIES → event_ok event →
  stale event (de_store d) →
  is_ok (dispatch event d).1 = true ∧ (dispatch event d).2 = d.
Proof.
  intros Hs Hp He Hstale. rewrite (dispatch_effect _ _ Hs Hp He).
  assert (event_effect event (de_store d) = Ok (de_store d)) as ->; [|by destruct d].
  unfold stale in Hstale.
  destruct event as [| | | | | | | | | | | | | | | | | | |[id type cpu generation identity]| |];
    simpl in *; try done; unfold metadata_written;
    try (by rewrite stale_inactive).
  - f_equal. apply on_connection_same. intros c Hc.
    rewrite bool_decide_eq_false_2; [done|]. intros ->. by apply (stale_generation _ _ _ Hstale Hc).
  - f_equal. apply on_connection_same. intros c Hc.
    rewrite bool_decide_eq_false_2; [done|]. intros ->. by apply (stale_generation _ _ _ Hstale Hc).
  - f_equal. apply on_connection_same. intros c Hc.
    rewrite bool_decide_eq_false_2; [done|]. by apply (stale_generation _ _ _ Hstale Hc).
Qed.

(** ** Examples *)

(** Dispatch the events one after the other. *)
Fixpoint dispatch_all (events : list DomainEvent) (d : DomainEventDispatcher)
    : DomainEventDispatcher :=
  match events with
  | [] => d
  | event :: events => dispatch_all events (dispatch event d).2
  end.

(** All of them were accepted. *)
Fixpoint all_accepted (events : list DomainEvent) (d : DomainEventDispatcher) : bool :=
  match events with
  | [] => true
  | event :: events =>
      is_ok (dispatch event d).1 && all_accepted events (dispatch event d).2
  end.

Lemma dispatch_all_execution events : ∀ history d,
  execution history d → Forall event_ok events → all_accepted events d = true →
  execution (rev_append events history) (dispatch_all events d).
Proof.
  induction events as [|event events IH]; intros history d Hx Hev Hok; [done|].
  apply Forall_cons in Hev as [He Hev]. simpl in *. apply andb_true_iff in Hok as [Hok Hrest].
  apply IH; [|done..]. destruct (dispatch event d) as [r d'] eqn:E. simpl in *.
  pose proof (execution_dispatch _ _ _ _ _ Hx He E) as H. by rewrite Hok in H.
Qed.

Definition example_time : datetime := mkDatetime 1000 (Some 0).
Definition example_identity : ImageIdentity := mkImageIdentity 0x84000 64 0x1234 0x84040.
Definition example_info : ConnectionInfo :=
  mkConnectionInfo "c1" "serial" "COM3" example_time "cpu1" (OMapping 0 true []).
Definition example_verify : RuntimeOperationType → OperationRef := λ type,
  mkOperation "op1" type CPU1 (mkGeneration 1) (FlashIdentity example_identity).

(** A connection, an image, memory and a verification. *)
Definition example_events : list DomainEvent :=
  [ ConnectionOpened example_info;
    ProgramImageChanged CPU1 "app.out" ImageParseStatus.READY
      (Some (mkFlashSummary example_identity 6)) None;
    MemoryReadSucceeded CPU1 (mkGeneration 1) 0x84000 [1; 2; 3] example_time;
    OperationStarted (example_verify RuntimeOperationType.VERIFY);
    OperationSucceeded (example_verify RuntimeOperationType.VERIFY);
    MetadataReadSucceeded CPU1 (mkGeneration 1) (OMapping 1 false [(AStr "valid", OAtom (ABool true))]) ].

Definition example_dispatcher : DomainEventDispatcher :=
  dispatch_all example_events (DomainEventDispatcher_init RuntimeStateStore_init).

Lemma example_execution : execution (rev_append example_events []) example_dispatcher.
Proof.
  apply dispatch_all_execution; [constructor| |by vm_compute].
  repeat (apply Forall_cons; split; [by split; vm_compute|]). constructor.
Qed.

Definition example_evidence : VerifyEvidence :=
  mkVerifyEvidence CPU1 (mkGeneration 1) example_identity "op1".

Example evidence_provenance_witness :
  ∃ r, rv_target_resources (de_store example_dispatcher) !! CPU1 = Some r ∧
    tr_verify_evidence r = Some example_evidence ∧
    ∃ after before, rev_append example_events [] = after ++ verified_by example_evidence :: before ∧
      Forall (keeps_verify CPU1 example_identity) after.
Proof.
  eexists. split; [vm_compute; reflexivity|]. split; [reflexivity|].
  eapply (evidence_provenance (rev_append example_events []) example_dispatcher CPU1).
  - exact example_execution.
  - vm_compute. reflexivity.
  - reflexivity.
Defined.

Lemma example_ok :
  runtime_ok (de_store example_dispatcher) ∧
  de_policies example_dispatcher = DEFAULT_DOMAIN_POLICIES.
Proof. exact (execution_runtime_ok _ _ example_execution). Qed.

Example executions_well_formed_witness :
  (snapshot (de_store example_dispatcher)).1 = Ok (de_store example_dispatcher) ∧
  ∃ m, rv_memory_states (de_store example_dispatcher) !! CPU1 = Some m ∧
    mm_freshness m = DataFreshness.FRESH ∧
    ∃ c, rv_connection (de_store example_dispatcher) = Some c ∧
      cr_cpu_id c = CPU1 ∧ mm_connection_generation m = Some (cr_generation c).
Proof.
  pose proof (executions_well_formed _ _ example_execution) as (Hsnap & _ & Hm & _).
  split; [exact Hsnap|]. eexists. split; [vm_compute; reflexivity|]. split; [reflexivity|].
  eapply (Hm CPU1); [vm_compute; reflexivity|reflexivity].
Defined.

(** A listener that raises on every result. *)
Definition failing_listener : TransitionListener :=
  mkListener 7 "view.refresh" (λ _, Raise (Err RuntimeError (Lit "closed"))).

Definition example_listening : DomainEventDispatcher :=
  mkDispatcher (de_store example_dispatcher) DEFAULT_DOMAIN_POLICIES [failing_listener].

Example dispatch_implements_table_witness :
  ∃ s' result,
    dispatch (ConnectionClosed "c1" (mkGeneration 1)) example_listening =
      (Ok result, mkDispatcher s' DEFAULT_DOMAIN_POLICIES [failing_listener]) ∧
    rv_connection s' = None ∧ rt_derived_events result = [ActiveTargetChanged None] ∧
    mkListenerFailure "view.refresh" RuntimeError (Lit "closed") ∈ rt_listener_failures result.
Proof.
  pose proof (dispatch_implements_table (ConnectionClosed "c1" (mkGeneration 1)) example_listening)
    as H.
  destruct H as [_ H]; [exact (proj1 example_ok)|reflexivity|by split|].
  destruct (H (start_over (mkGeneration 1) None None (de_store example_dispatcher)))
    as (result & Hd & _ & _ & Hderived & Hf); [vm_compute; reflexivity|].
  eexists _, result. split; [exact Hd|]. split; [reflexivity|]. split; [exact Hderived|].
  apply Hf. eexists failing_listener, _. split; [by left|]. split; reflexivity.
Defined.

Example dispatch_rejects_exactly_witness :
  is_ok (dispatch SessionChanged example_dispatcher).1 = false ∧
  (dispatch SessionChanged example_dispatcher).2 = example_dispatcher.
Proof.
  destruct (dispatch_rejects_exactly SessionChanged example_dispatcher) as [Hiff Hsame];
    [exact (proj1 example_ok)|exact (proj2 example_ok)|by split|].
  assert (is_ok (dispatch SessionChanged example_dispatcher).1 = false) as Hrej.
  { apply Hiff. vm_compute. by eexists. }
  split; [exact Hrej|exact (Hsame Hrej)].
Defined.

Definition late_event : DomainEvent :=
  MemoryReadSucceeded CPU2 (mkGeneration 1) 0x84000 [7] example_time.

Example stale_events_ignored_witness :
  is_ok (dispatch late_event example_dispatcher).1 = true ∧
  (dispatch late_event example_dispatcher).2 = example_dispatcher.
Proof.
  apply (stale_events_ignored late_event example_dispatcher);
    [exact (proj1 example_ok)|exact (proj2 example_ok)|by split|].
  intros c Hc. right. exists CPU2. split; [reflexivity|].
  vm_compute in Hc. injection Hc as <-. discriminate.
Defined.
