(* ===== verification/TransferProperties.v ===== *)
(** The log of the commands of an operation with its rules, then the contracts
    of a cancellable transfer and of the attachment of the service. *)

(** * The calls an operation makes

    Reasoning about the operations through the commands they issue.  [trace w
    log w'] says that the world went from [w] to [w'] by the calls of [log] and
    otherwise only by questions to the cancellation token and progress events;
    [issues m Q w] says that [m] started in [w] makes calls, and returns or
    raises, such that [Q] holds of the log, the outcome and the last world.
    The rules follow the structure of the program as those of [wp] do. *)

From S2P Require Import Prelude.
From S2P Require Import Errors.
From S2P Require Import Constants.
From S2P Require Import Words.
From S2P Require Import Models.
From S2P Require Import Firmware.
From S2P Require Import Packets.
From S2P Require Import ServiceImage.
From S2P Require Import Targets.
From S2P Require Import BootClient.
From S2P Require Import OperationResults.
From S2P Require Import OperationProtocol.

(** One command as an operation sees it: the field of the command set, the
    payload and what [transact] returned or raised. *)
Record Call : Type := mkCall {
  cl_field : CommandField;
  cl_payload : list Z;
  cl_answer : Res (list Z);
}.

Definition answered (call : Call) : Prop := is_ok (cl_answer call) = true.

Section trace.
Context {T : Type} `{ByteTransport T}.
Context (iterations : Z → nat) (ctx : OperationContext).

Inductive trace : World T → list Call → World T → Prop :=
| trace_nil w : trace w [] w
| trace_local w asked progress log w' :
    trace (mkWorld (ow_client w) asked progress) log w' → trace w log w'
| trace_call w field command payload answer client log w' :
    require_command (tp_command_set (cx_target ctx)) field = Ok command →
    bc_transact iterations command payload (timeout_of command) (ow_client w) = (answer, client) →
    trace (ow_set_client client w) log w' → trace w (mkCall field payload answer :: log) w'.

Lemma trace_app w log1 w1 log2 w2 : trace w log1 w1 → trace w1 log2 w2 → trace w (log1 ++ log2) w2.
Proof.
  intros H1 H2. induction H1 as [|? asked progress|]; simpl; [done| |].
  - by eapply trace_local, IHtrace.
  - eapply trace_call; [done..|]. by apply IHtrace.
Qed.

(** ** Rules *)

Definition issues {A} (m : ST (World T) A) (Q : list Call → Res A → World T → Prop)
    (w : World T) : Prop :=
  ∃ log, trace w log (m w).2 ∧ Q log (m w).1 (m w).2.

Implicit Types w : World T.

Lemma issues_ret {A} (a : A) Q w : Q [] (Ok a) w → issues (ret a) Q w.
Proof. intros HQ. exists []. split; [constructor|done]. Qed.

Lemma issues_lift {A} (r : Res A) Q w : Q [] r w → issues (lift r) Q w.
Proof. intros HQ. exists []. split; [constructor|done]. Qed.

Lemma issues_raise {A} e (Q : list Call → Res A → World T → Prop) w :
  Q [] (Raise e) w → issues (raise e) Q w.
Proof. intros HQ. exists []. split; [constructor|done]. Qed.

Lemma issues_gets {A} (f : World T → A) Q w : Q [] (Ok (f w)) w → issues (gets f) Q w.
Proof. intros HQ. exists []. split; [constructor|done]. Qed.

Lemma issues_bind {A B} (m : ST (World T) A) (k : A → ST (World T) B) Q w :
  issues m (λ log r w',
    match r with
    | Ok a => issues (k a) (λ log', Q (log ++ log')) w'
    | Raise e => Q log (Raise e) w'
    end) w →
  issues (bind m k) Q w.
Proof.
  unfold issues, bind. intros (log & Htr & HQ). destruct (m w) as [[a|e] w1]; simpl in *.
  - destruct HQ as (log' & Htr' & HQ). exists (log ++ log'). split; [by eapply trace_app|done].
  - by exists log.
Qed.

Lemma issues_catch {A} (m : ST (World T) A) (h : Exn → ST (World T) A) Q w :
  issues m (λ log r w',
    match r with
    | Ok a => Q log (Ok a) w'
    | Raise e => issues (h e) (λ log', Q (log ++ log')) w'
    end) w →
  issues (catch m h) Q w.
Proof.
  unfold issues, catch. intros (log & Htr & HQ). destruct (m w) as [[a|e] w1]; simpl in *.
  - by exists log.
  - destruct HQ as (log' & Htr' & HQ). exists (log ++ log'). split; [by eapply trace_app|done].
Qed.

Lemma issues_outcome {A} (m : ST (World T) A) Q w :
  issues m (λ log r, Q log (Ok r)) w → issues (outcome_of m) Q w.
Proof.
  unfold issues, outcome_of. intros (log & Htr & HQ). by destruct (m w) as [r w1]; exists log.
Qed.

Lemma issues_emit event Q w :
  (∀ progress, Q [] (Ok tt) (mkWorld (ow_client w) (ow_asked w) progress)) →
  issues (emit_progress ctx event) Q w.
Proof.
  intros HQ. unfold emit_progress. destruct (cx_progress ctx).
  - exists []. split; [|apply HQ]. eapply trace_local. constructor.
  - exists []. split; [constructor|]. destruct w. apply HQ.
Qed.

Lemma issues_asked Q w :
  (∀ answer asked, Q [] (Ok answer) (mkWorld (ow_client w) asked (ow_progress w))) →
  issues (operation_cancellation_requested ctx) Q w.
Proof.
  intros HQ. unfold operation_cancellation_requested. destruct (cx_cancellation ctx).
  - exists []. split; [|apply HQ]. eapply trace_local. constructor.
  - exists []. split; [constructor|]. destruct w. apply HQ.
Qed.

Lemma issues_transact field payload Q w :
  (∀ m, Q [] (Raise (Err UnsupportedOperationError m)) w) →
  (∀ command answer client,
     require_command (tp_command_set (cx_target ctx)) field = Ok command →
     bc_transact iterations command payload (timeout_of command) (ow_client w)
       = (answer, client) →
     Q [mkCall field payload answer] answer (ow_set_client client w)) →
  issues (op_transact iterations ctx field payload) Q w.
Proof.
  intros Hr Hq. unfold op_transact, bind, lift, issues.
  destruct (require_command _ field) as [command|e] eqn:Ef.
  - unfold client. destruct (bc_transact _ _ _ _ _) as [answer c] eqn:Eb. simpl.
    exists [mkCall field payload answer]. split; [|by eapply Hq].
    eapply trace_call; [done..|constructor].
  - exists []. split; [constructor|]. unfold require_command in Ef.
    case_match; simplify_eq/=. apply Hr.
Qed.

(** Why a command is not sent: its payload cannot be computed, or the
    target's command set lacks it. *)
Definition send_error (payload : Res (list Z)) (e : Exn) : Prop :=
  payload = Raise e ∨ ∃ m, e = Err UnsupportedOperationError m.

Lemma issues_send field payload Q w :
  (∀ e, send_error payload e → Q [] (Raise e) w) →
  (∀ words command answer client, payload = Ok words →
     require_command (tp_command_set (cx_target ctx)) field = Ok command →
     bc_transact iterations command words (timeout_of command) (ow_client w)
       = (answer, client) →
     Q [mkCall field words answer] answer (ow_set_client client w)) →
  issues (send_command iterations ctx field payload) Q w.
Proof.
  intros Hr Hq. unfold send_command. apply issues_bind, issues_lift.
  destruct payload as [words|e]; [|by apply Hr; left].
  apply issues_transact; [|simpl; eauto]. intros m. apply Hr. right. by exists m.
Qed.

Lemma issues_conseq {A} (m : ST (World T) A) (Q Q' : list Call → Res A → World T → Prop) w :
  issues m Q w → (∀ log r w', trace w log w' → Q log r w' → Q' log r w') → issues m Q' w.
Proof. intros (log & Htr & HQ) HQ'. exists log. auto. Qed.

Lemma issues_run {A} (m : ST (World T) A) Q w r w' :
  issues m Q w → m w = (r, w') → ∃ log, trace w log w' ∧ Q log r w'.
Proof. unfold issues. intros (log & Htr & HQ) E. rewrite E in Htr, HQ. by exists log. Qed.
End trace.

(** One step of symbolic execution.  A question to the token and a progress
    event make no call; a cancelled branch is a [match] on the answer. *)
Ltac issues_step :=
  lazymatch goal with
  | |- issues _ _ (bind _ _) _ _ => apply issues_bind
  | |- issues _ _ (catch _ _) _ _ => apply issues_catch
  | |- issues _ _ (try_operation _ _ _ _) _ _ => apply issues_catch
  | |- issues _ _ (ret _) _ _ => apply issues_ret
  | |- issues _ _ (raise _) _ _ => apply issues_raise
  | |- issues _ _ (lift _) _ _ => apply issues_lift
  | |- issues _ _ (gets _) _ _ => apply issues_gets
  | |- issues _ _ (outcome_of _) _ _ => apply issues_outcome
  | |- issues _ _ (emit_progress _ _) _ _ => apply issues_emit; intros ?
  | |- issues _ _ (operation_cancellation_requested _) _ _ =>
      apply issues_asked; intros ? ?
  | |- issues _ _ (send_command _ _ _ _) _ _ =>
      apply issues_send; [intros ? ?|intros ? ? ? ? ? ? ?]
  | |- issues _ _ (op_transact _ _ _ _) _ _ =>
      apply issues_transact; [intros ?|intros ? ? ? ? ?]
  end; cbn beta iota.

(** * What a cancellable transfer sends

    The calls of [run_cancellable_transfer] follow a script: the BEGIN
    command, the DATA commands of a prefix of the packets and the END command.
    [transfer_ends] relates the calls to the outcome the function reports; it
    is the contract the upload operations rely on. *)

(** ** Scripts *)

(** A command to send: its field and the words of its payload, if they can be
    computed. *)
Abbreviation Send := (CommandField * Res (list Z))%type.

Definition call_is (send : Send) (call : Call) : Prop :=
  cl_field call = send.1 ∧ send.2 = Ok (cl_payload call).

(** Every command of the script was sent and answered. *)
Definition played (script : list Send) (log : list Call) : Prop :=
  Forall2 (λ send call, call_is send call ∧ answered call) script log.

(** The script was left early with [e]: a command could not be sent, or its
    transaction raised. *)
Inductive stuck (e : Exn) : list Send → list Call → Prop :=
| stuck_unsent send script : send_error send.2 e → stuck e (send :: script) []
| stuck_failed send script call :
    call_is send call → cl_answer call = Raise e → stuck e (send :: script) [call]
| stuck_later send script call log :
    call_is send call → answered call → stuck e script log →
    stuck e (send :: script) (call :: log).

Lemma stuck_app e script script' log : stuck e script log → stuck e (script ++ script') log.
Proof. induction 1; simpl; by constructor. Qed.

Lemma stuck_after e script log script' log' :
  played script log → stuck e script' log' → stuck e (script ++ script') (log ++ log').
Proof. induction 1 as [|????[]]; simpl; [done|]. intros. apply stuck_later; auto. Qed.

Section transfer.
Context {T : Type} `{ByteTransport T}.
Context (iterations : Z → nat) (ctx : OperationContext).

(** [m] sends one command. *)
Definition sends (m : ST (World T) unit) (send : Send) : Prop :=
  ∀ Q w,
    (∀ e, send_error send.2 e → Q [] (Raise e) w) →
    (∀ words command answer client, send.2 = Ok words →
       require_command (tp_command_set (cx_target ctx)) send.1 = Ok command →
       bc_transact iterations command words (timeout_of command) (ow_client w)
         = (answer, client) →
       Q [mkCall send.1 words answer] (let? _ := answer in Ok tt) (ow_set_client client w)) →
    issues iterations ctx m Q w.

Lemma sends_command field payload :
  sends (send_command iterations ctx field payload ;;; ret tt) (field, payload).
Proof.
  intros Q w Hr Hq. apply issues_bind, issues_send; [done|].
  intros words command answer client Hp Hc Hb. specialize (Hq _ _ _ _ Hp Hc Hb).
  destruct answer; [|done]. by apply issues_ret.
Qed.

(** [sends] as a rule: the call that was made, or none. *)
Lemma issues_sends m send Q w :
  sends m send →
  (∀ e, send_error send.2 e → Q [] (Raise e) w) →
  (∀ call client, call_is send call → answered call → Q [call] (Ok tt) (ow_set_client client w)) →
  (∀ call client e, call_is send call → cl_answer call = Raise e →
     Q [call] (Raise e) (ow_set_client client w)) →
  issues iterations ctx m Q w.
Proof.
  intros Hs Hr Hok Hbad. apply Hs; [done|]. intros words command answer client Hp _ _.
  destruct answer as [a|e].
  - by apply Hok.
  - by apply Hbad.
Qed.

(** ** The contract *)

Context {P : Type} (t : Transfer (T := T) P) (begin : Send) (data : P → Send) (end_ : Send).

Record transfer_sends : Prop := {
  ts_begin : sends (tf_send_begin t) begin;
  ts_data packet : sends (tf_send_data t packet) (data packet);
  ts_end : sends (tf_send_end t) end_;
}.

Definition words_of (packets : list P) : Z := zsum (map (λ p, zlen (tf_words t p)) packets).

Definition is_status (e : Exn) : bool := match e with StatusErr _ _ => true | _ => false end.

(** The total is that of the packets, and the recovery actions and stages
    are ones a result may carry. *)
Record transfer_wf : Prop := {
  wf_total : tf_total_words t = words_of (tf_packets t);
  wf_nonempty : Forall (λ p, 0 < zlen (tf_words t p)) (tf_packets t);
  wf_stages : tf_begin_stage t <> EmptyString ∧ tf_end_stage t <> EmptyString;
  wf_recovery n : tf_recovery_action t n ∈ RECOVERY_ACTIONS;
  wf_end_payload e : end_.2 = Raise e → is_status e = false;
  wf_reconnect n : tf_reconnect_recovery_action t n ∈ RECOVERY_ACTIONS;
}.

Definition script (packets : list P) : list Send := begin :: map data packets ++ [end_].

(** The END command of a cancelled transfer left the device in a known state. *)
Definition end_accepted (answer : Res (list Z)) : bool :=
  match answer with Ok _ => true | Raise e => cancellation_cleanup_succeeded e true end.

Inductive transfer_ends : list Call → Res CancellableTransferOutcome → Prop :=
| ends_unstarted info :
    transfer_info t (tf_begin_stage t) 0 false false = Ok info →
    transfer_ends [] (Ok (mkOutcome [] (Some info) None false))
| ends_cancelled k log end_log cleanup info :
    (k < length (tf_packets t))%nat →
    played (begin :: map data (take k (tf_packets t))) log →
    (∀ call, end_log = [call] → call_is end_ call) →
    match cleanup with
    | None => ∃ call, end_log = [call] ∧ end_accepted (cl_answer call) = true
    | Some _ => ∀ call, end_log = [call] → end_accepted (cl_answer call) = false
    end →
    (length end_log <= 1)%nat →
    transfer_info t (tf_end_stage t) (words_of (take k (tf_packets t))) (is_some cleanup) false
      = Ok info →
    transfer_ends (log ++ end_log) (Ok (mkOutcome [] (Some info) cleanup false))
| ends_completed log cancellation :
    played (script (tf_packets t)) log →
    (∀ info, cancellation = Some info →
       transfer_info t (tf_end_stage t) (tf_total_words t) false true = Ok info) →
    transfer_ends log
      (Ok (mkOutcome [("total_words"%string, VInt (tf_total_words t));
                      ("packets"%string, VInt (zlen (tf_packets t)))]
             cancellation None (is_some cancellation)))
| ends_raised log e :
    stuck e (script (tf_packets t)) log → transfer_ends log (Raise e).

(** ** The proof *)

Lemma words_of_nonneg ps : 0 <= words_of ps.
Proof. apply zsum_nonneg, Forall_map, Forall_true. intros. apply zlen_nonneg. Qed.

Lemma words_of_cons p ps : words_of (p :: ps) = zlen (tf_words t p) + words_of ps.
Proof. done. Qed.

Lemma words_of_take k ps : words_of (take k ps) <= words_of ps.
Proof.
  revert k. induction ps as [|p ps IH]; intros [|k]; simpl take; [lia|lia| |].
  - apply words_of_nonneg.
  - rewrite !words_of_cons. specialize (IH k). lia.
Qed.

Hypothesis Hwf : transfer_wf.
Hypothesis Hsends : transfer_sends.

Lemma words_of_lt k :
  (k < length (tf_packets t))%nat → words_of (take k (tf_packets t)) < tf_total_words t.
Proof using Hwf.
  intros Hk. rewrite (wf_total Hwf). pose proof (wf_nonempty Hwf) as Hne. unfold words_of.
  rewrite <- (take_drop k (tf_packets t)) at 2. rewrite map_app, zsum_app.
  rewrite <- (take_drop k (tf_packets t)), Forall_app in Hne. destruct Hne as [_ Hne].
  pose proof (length_drop (tf_packets t) k) as Hl.
  destruct (drop k (tf_packets t)) as [|p ps]; simpl in *; [lia|].
  apply Forall_cons in Hne as [Hp _]. pose proof (words_of_nonneg ps) as Hn. unfold words_of in Hn.
  lia.
Qed.

Lemma transfer_info_ok stage k reconnect none :
  stage <> EmptyString → 0 <= k <= tf_total_words t →
  ∃ info, transfer_info t stage k reconnect none = Ok info ∧ oc_current_words info = k ∧
    oc_connection_recovery_required info = reconnect.
Proof using Hwf.
  intros Hstage Hk. unfold transfer_info, OperationCancellationInfo_post_init. simpl.
  rewrite bool_decide_eq_false_2 by done.
  rewrite (proj2 (Z.ltb_ge k 0)), (proj2 (Z.ltb_ge (tf_total_words t) 0)) by lia.
  assert ((k >? tf_total_words t) = false) as -> by lia.
  rewrite bool_decide_eq_true_2.
  - simpl. destruct reconnect, (tf_partial_flash_programmed t k); simpl; eexists;
      (split; [reflexivity|done]).
  - destruct none; [by apply elem_of_cons; left|]. destruct reconnect; apply Hwf.
Qed.

Lemma transfer_loop_calls ps Q w sent_packets sent_words cancel :
  (∀ k log cancel' w', (k <= length ps)%nat → (k < length ps → cancel' = true)%nat →
     played (map data (take k ps)) log →
     Q log (Ok (sent_packets + Z.of_nat k, sent_words + words_of (take k ps), cancel')) w') →
  (∀ log e w', stuck e (map data ps) log → Q log (Raise e) w') →
  issues iterations ctx (transfer_loop ctx t ps sent_packets sent_words cancel) Q w.
Proof using Hsends.
  clear Hwf. revert Q w sent_packets sent_words cancel.
  induction ps as [|p ps IH]; intros Q w sp sw cancel Hok Hbad; cbn [transfer_loop].
  - apply issues_ret.
    replace sp with (sp + Z.of_nat 0) by lia. replace sw with (sw + words_of (take 0 [])) by (cbn; lia).
    apply Hok; [done|simpl; lia|constructor].
  - destruct cancel.
    { apply issues_ret.
      replace sp with (sp + Z.of_nat 0) by lia.
      replace sw with (sw + words_of (take 0 (p :: ps))) by (cbn; lia).
      apply Hok; [lia|done|constructor]. }
    issues_step. eapply (issues_sends _ _ _ _ (ts_data Hsends p)); intros.
    + apply Hbad. by constructor.
    + issues_step. issues_step. issues_step. issues_step. apply IH.
      * intros k log cancel' w' Hk Hc Hplayed. simpl.
        replace (sp + 1 + Z.of_nat k) with (sp + Z.of_nat (S k)) by lia.
        replace (sw + zlen (tf_words t p) + words_of (take k ps))
          with (sw + words_of (take (S k) (p :: ps)))
          by (simpl take; rewrite words_of_cons; lia).
        apply Hok; [simpl; lia|simpl; intros; apply Hc; lia|]. simpl. by constructor.
      * intros log e w' Hstuck. apply Hbad. simpl. by apply stuck_later.
    + apply Hbad. simpl. by apply stuck_failed.
Qed.

Lemma played_end log call :
  played (begin :: map data (tf_packets t)) log → call_is end_ call → answered call →
  played (script (tf_packets t)) (log ++ [call]).
Proof using.
  intros Hlog Hc Ha. unfold script. rewrite app_comm_cons. apply Forall2_app; [done|].
  by apply Forall2_cons.
Qed.

Lemma unsent_end e : send_error end_.2 e → cancellation_cleanup_succeeded e true = false.
Proof using Hwf.
  intros [He|[m ->]]; [|done]. apply (wf_end_payload Hwf) in He. by destruct e.
Qed.

(** The cancelled branch: END is sent and its answer decides. *)
Lemma cancelled_calls k log Q w :
  (k < length (tf_packets t))%nat →
  played (begin :: map data (take k (tf_packets t))) log →
  (∀ log' r w', transfer_ends (log ++ log') r → Q log' r w') →
  issues iterations ctx
    (r <- outcome_of (tf_send_end t) ;;
     match r with
     | Raise exc =>
         if negb (cancellation_cleanup_succeeded exc true) then
           info <- lift (transfer_info t (tf_end_stage t) (words_of (take k (tf_packets t))) true false) ;;
           ret (mkOutcome [] (Some info) (Some exc) false)
         else
           info <- lift (transfer_info t (tf_end_stage t) (words_of (take k (tf_packets t))) false false) ;;
           ret (mkOutcome [] (Some info) None false)
     | Ok _ =>
         info <- lift (transfer_info t (tf_end_stage t) (words_of (take k (tf_packets t))) false false) ;;
         ret (mkOutcome [] (Some info) None false)
     end) Q w.
Proof using Hwf Hsends.
  intros Hk Hplayed HQ. pose proof (words_of_lt k Hk) as Hlt.
  pose proof (words_of_nonneg (take k (tf_packets t))) as Hge.
  destruct (wf_stages Hwf) as [_ Hstage].
  assert (∀ reconnect, ∃ info, transfer_info t (tf_end_stage t)
    (words_of (take k (tf_packets t))) reconnect false = Ok info) as Hinfo.
  { intros reconnect. destruct (transfer_info_ok (tf_end_stage t)
      (words_of (take k (tf_packets t))) reconnect false) as (info & ? & _); [done|lia|eauto]. }
  destruct (Hinfo true) as [info_r Hr], (Hinfo false) as [info Hi].
  issues_step. issues_step.
  eapply (issues_sends _ _ _ _ (ts_end Hsends)).
  - intros e He. rewrite (unsent_end e He). simpl.
    repeat issues_step. rewrite Hr. repeat issues_step. apply HQ.
    apply (ends_cancelled k log [] (Some e) info_r); simpl; first [done | lia].
  - intros call client Hc Ha. repeat issues_step. rewrite Hi. repeat issues_step. apply HQ.
    apply (ends_cancelled k log [call] None info); first [done | simpl; lia | idtac]; [by intros ? [= <-]|].
    exists call. split; [done|]. unfold answered in Ha. by destruct (cl_answer call).
  - intros call client e Hc Ha. cbn beta iota.
    destruct (cancellation_cleanup_succeeded e true) eqn:Ee; cbn [negb].
    + repeat issues_step. rewrite Hi. repeat issues_step. apply HQ.
      apply (ends_cancelled k log [call] None info); first [done | simpl; lia | idtac]; [by intros ? [= <-]|].
      exists call. split; [done|]. by rewrite Ha.
    + repeat issues_step. rewrite Hr. repeat issues_step. apply HQ.
      apply (ends_cancelled k log [call] (Some e) info_r); first [done | simpl; lia | idtac]; [by intros ? [= <-]|].
      intros ? [= <-]. by rewrite Ha.
Qed.

Lemma played_begin ps call log :
  call_is begin call → answered call → played (map data ps) log →
  played (begin :: map data ps) (call :: log).
Proof using. by constructor. Qed.

Lemma transfer_calls Q w :
  (∀ log r w', transfer_ends log r → Q log r w') →
  issues iterations ctx (run_cancellable_transfer ctx t) Q w.
Proof using Hwf Hsends.
  intros HQ. destruct (wf_stages Hwf) as [Hbegin Hend].
  assert (0 <= tf_total_words t) as Htotal by (rewrite (wf_total Hwf); apply words_of_nonneg).
  unfold run_cancellable_transfer. issues_step. issues_step. case_match.
  { destruct (transfer_info_ok (tf_begin_stage t) 0 false false) as (info & Hi & _); [done|lia|].
    rewrite Hi. repeat issues_step. by apply HQ, ends_unstarted. }
  issues_step. eapply (issues_sends _ _ _ _ (ts_begin Hsends)).
  { intros e He. apply HQ, ends_raised. by apply stuck_unsent. }
  2:{ intros call client e Hc Ha. apply HQ, ends_raised. by apply stuck_failed. }
  intros begin_call client Hb Hba. issues_step. issues_step. issues_step.
  apply transfer_loop_calls.
  2:{ intros log e w' Hstuck. apply HQ, ends_raised. apply stuck_later; [done..|].
      by apply stuck_app. }
  intros k log cancel' w' Hk Hcancel Hlog. rewrite !Z.add_0_l.
  pose proof (played_begin _ _ _ Hb Hba Hlog) as Hplayed.
  destruct (decide (k < length (tf_packets t))%nat) as [Hlt|Hge].
  - rewrite (Hcancel Hlt). assert ((Z.of_nat k <? zlen (tf_packets t)) = true) as ->
      by (unfold zlen; lia).
    simpl. eapply cancelled_calls; eauto.
  - assert (take k (tf_packets t) = tf_packets t) as Heq by (apply take_ge; lia).
    rewrite Heq in *. rewrite (wf_total Hwf) at 1. rewrite Z.ltb_irrefl.
    assert ((Z.of_nat k <? zlen (tf_packets t)) = false) as -> by (unfold zlen; lia).
    rewrite andb_false_r. issues_step. eapply (issues_sends _ _ _ _ (ts_end Hsends)).
    + intros e He. apply HQ, ends_raised.
      apply (stuck_after e _ _ [end_] [] Hplayed). by apply stuck_unsent.
    + intros call client' Hc Ha. pose proof (played_end _ _ Hplayed Hc Ha) as Hdone.
      destruct (transfer_info_ok (tf_end_stage t) (tf_total_words t) false true)
        as (info & Hi & _); [done|lia|].
      assert (∀ info', Some info = Some info' →
        transfer_info t (tf_end_stage t) (tf_total_words t) false true = Ok info') as Hsome
        by (by intros info' [= <-]).
      assert (∀ info', None = Some info' →
        transfer_info t (tf_end_stage t) (tf_total_words t) false true = Ok info') as Hnone by done.
      destruct cancel'; [|issues_step; issues_step; case_match]; rewrite ?Hi; repeat issues_step;
        apply HQ.
      * apply (ends_completed _ (Some info) Hdone Hsome).
      * apply (ends_completed _ (Some info) Hdone Hsome).
      * apply (ends_completed _ None Hdone Hnone).
    + intros call client' e Hc Ha. apply HQ, ends_raised.
      apply (stuck_after e _ _ [end_] [call] Hplayed). by apply stuck_failed.
Qed.
End transfer.

(** * What attaching the Flash service establishes

    The calls of [ensure_service_attached]: the operation goes on only after
    the device has reported the expected service, and the image is loaded
    completely when the one on the device cannot be reused. *)

(** Decide membership of a closed list. *)
Ltac in_list :=
  lazymatch goal with
  | |- list_elem_of ?x ?l => change (x ∈ l)
  | |- _ => idtac
  end;
  lazymatch goal with
  | |- ?x ∈ ?l => apply (bool_decide_unpack (x ∈ l)); vm_compute; exact I
  end.

(** The calls use the commands [fields] only. *)
Definition uses (fields : list CommandField) (log : list Call) : Prop :=
  Forall (λ call, cl_field call ∈ fields) log.

Lemma uses_app fields log log' : uses fields log → uses fields log' → uses fields (log ++ log').
Proof. intros. by apply Forall_app. Qed.

Lemma played_uses fields script log :
  Forall (λ send : Send, send.1 ∈ fields) script → played script log → uses fields log.
Proof.
  intros Hs Hp. induction Hp as [|send call ?? [[Hf _] _]]; [constructor|].
  apply Forall_cons in Hs as [Hs1 Hs2]. constructor; [by rewrite Hf|by apply IHHp].
Qed.

Lemma stuck_uses fields e script log :
  Forall (λ send : Send, send.1 ∈ fields) script → stuck e script log → uses fields log.
Proof.
  intros Hs Hp. induction Hp as [|send ? call [Hf _]|send ? call ? [Hf _]]; [constructor|..];
    apply Forall_cons in Hs as [Hs1 Hs2].
  - constructor; [by rewrite Hf|constructor].
  - constructor; [by rewrite Hf|by apply IHHp].
Qed.

Lemma script_fields {P} (begin : Send) (data : P → Send) (end_ : Send)
    (fields : list CommandField) packets :
  begin.1 ∈ fields → (∀ p, (data p).1 ∈ fields) → end_.1 ∈ fields →
  Forall (λ send : Send, send.1 ∈ fields) (script begin data end_ packets).
Proof.
  intros Hb Hd He. constructor; [done|]. apply Forall_app. split; [|by repeat constructor].
  apply Forall_map, Forall_true. intros p. apply Hd.
Qed.

Lemma transfer_uses {T} `{ByteTransport T} {P} (t : Transfer (T := T) P) begin data end_
    (fields : list CommandField) log r :
  begin.1 ∈ fields → (∀ p, (data p).1 ∈ fields) → end_.1 ∈ fields →
  transfer_ends t begin data end_ log r → uses fields log.
Proof.
  intros Hb Hd He Hends. destruct Hends as [|k log end_log ??? Hp Hend ? Hl| |].
  - constructor.
  - apply uses_app.
    + eapply played_uses; [|done]. constructor; [done|]. apply Forall_map, Forall_true.
      intros p. apply Hd.
    + destruct end_log as [|call [|]]; simpl in *; [constructor| |lia].
      destruct (Hend call eq_refl) as [Hf _]. constructor; [by rewrite Hf|constructor].
  - eapply played_uses; [|eassumption]. by apply script_fields.
  - eapply stuck_uses; [|eassumption]. by apply script_fields.
Qed.

(** ** Payloads that cannot be computed *)

Lemma split_u32_error v e : split_u32 v = Raise e → is_status e = false.
Proof. unfold split_u32. intros. by case_match; simplify_eq. Qed.

Lemma end_words_error packet_count total_words image_crc32 e :
  end_words packet_count total_words image_crc32 = Raise e → is_status e = false.
Proof.
  unfold end_words. intros.
  repeat case_match; simplify_eq; by eapply split_u32_error.
Qed.

Lemma service_packets_nonempty address index raws :
  Forall (λ raw, 0 < zlen raw) raws →
  Forall (λ p, 0 < zlen (sp_words p)) (service_packets address index raws).
Proof.
  intros Hraws. revert address index.
  induction Hraws; intros address index; simpl; constructor; auto.
Qed.

Lemma chunks_nonempty fuel max ws : (0 < max)%nat → Forall (λ raw, 0 < zlen raw) (chunks fuel max ws).
Proof.
  intros Hmax. revert ws. induction fuel as [|fuel IH]; intros [|w ws]; simpl; try constructor.
  - destruct max; [lia|]. simpl. rewrite zlen_cons. pose proof (zlen_nonneg (take max ws)). lia.
  - apply IH.
Qed.

Lemma service_packets_blocks_nonempty index max blocks :
  0 < max → Forall (λ p, 0 < zlen (sp_words p)) (service_packets_blocks index max blocks).
Proof.
  intros Hmax. revert index. induction blocks as [|block blocks IH]; intros index; simpl; [done|].
  apply Forall_app. split; [|apply IH]. apply service_packets_nonempty, chunks_nonempty. lia.
Qed.

Lemma prepare_service_packets_nonempty image max packets :
  prepare_service_ram_packets image max = Ok packets →
  0 < max ∧ Forall (λ p, 0 < zlen (sp_words p)) packets.
Proof.
  unfold prepare_service_ram_packets. intros. repeat case_match; simplify_eq.
  split; [lia|]. apply service_packets_blocks_nonempty. lia.
Qed.

Section service.
Context {T : Type} `{ByteTransport T}.
Context (iterations : Z → nat) (ctx : OperationContext).

Abbreviation service := (cx_service ctx).

Definition service_fields : list CommandField :=
  [get_service_status; ram_load_begin; ram_load_data; ram_load_end; ram_check_crc; service_attach].

(** ** The transfer of the service image *)

Definition service_begin (packets : list ServiceRamPacket) : Send :=
  (ram_load_begin, begin_words Target.RAM_APP (zlen packets)
     (zsum (map (λ packet, zlen (sp_words packet)) packets))
     (fi_entry_point (sv_image service)) (sv_expected_crc32 service)).
Definition service_data (packet : ServiceRamPacket) : Send :=
  (ram_load_data, data_words (sp_address packet) (sp_words packet) (sp_index packet)).
Definition service_end (packets : list ServiceRamPacket) : Send :=
  (ram_load_end, end_words (zlen packets)
     (zsum (map (λ packet, zlen (sp_words packet)) packets)) (sv_expected_crc32 service)).

(** The commands that load and attach the service image *)
Definition service_script (packets : list ServiceRamPacket) : list Send :=
  script (service_begin packets) service_data (service_end packets) packets
  ++ [(ram_check_crc,
       ram_check_crc_payload (sv_expected_crc32 service) (sv_total_words service));
      (service_attach, service_attach_payload service)].

Abbreviation the_transfer packets :=
  (service_transfer iterations ctx packets
     (zsum (map (λ packet, zlen (sp_words packet)) packets))).

Lemma service_transfer_sends packets :
  transfer_sends iterations ctx (the_transfer packets)
    (service_begin packets) service_data (service_end packets).
Proof. split; [|intros packet|]; apply sends_command. Qed.

Lemma service_transfer_wf max packets :
  prepare_service_ram_packets (sv_image service) max = Ok packets →
  transfer_wf (the_transfer packets) (service_end packets).
Proof.
  intros Hp. apply prepare_service_packets_nonempty in Hp as [_ Hp].
  split; simpl; try done.
  - intros n. in_list.
  - apply end_words_error.
  - intros n. in_list.
Qed.

(** ** The contract *)

(** A GET_SERVICE_STATUS call that returned [status] *)
Definition status_call (status : ServiceStatus) (call : Call) : Prop :=
  call_is (get_service_status, Ok []) call ∧
  ∃ words, cl_answer call = Ok words ∧ ServiceStatus_from_words words = Ok status.

(** The calls of an [ensure_service_attached] that returns a summary: the
    last one reports the expected service. *)
Inductive service_attached : list Call → ServiceRuntimeSummary → Prop :=
| attached_reused call status :
    status_call status call → status_matches ctx status = true →
    cx_force_service_attach ctx = false →
    service_attached [call] (service_summary status true false)
| attached_loaded first max packets loads call status :
    (∃ before, status_call before first) →
    prepare_service_ram_packets (sv_image service) max = Ok packets →
    played (service_script packets) loads →
    status_call status call → status_matches ctx status = true →
    service_attached (first :: loads ++ [call]) (service_summary status false true).

Definition is_ready (r : Res ServiceRuntime) : bool :=
  match r with Ok (ServiceReady _) => true | _ => false end.

Lemma service_cancelled_not_ready stage words attached action summary :
  is_ready (service_cancelled ctx stage words attached action summary) = false.
Proof. unfold service_cancelled. by case_match. Qed.

Lemma service_attached_uses log s : service_attached log s → uses service_fields log.
Proof.
  intros [call status [[Hf _] _] _ _|first max packets loads call status (? & [Hf _] & _) _ Hp [[Hf' _] _] _].
  - apply Forall_singleton. rewrite Hf. in_list.
  - constructor; [rewrite Hf; in_list|]. apply uses_app.
    + eapply played_uses; [|done]. apply Forall_app. split.
      * apply script_fields; [|intros p|]; in_list.
      * constructor; [in_list|]. apply Forall_singleton. in_list.
    + apply Forall_singleton. rewrite Hf'. in_list.
Qed.

(** ** The proof *)

Lemma validated_matches status u :
  validate_attached ctx status = Ok u →
  ss_loaded_image_crc32 status = sv_expected_crc32 service →
  ss_loaded_image_words status = sv_total_words service → status_matches ctx status = true.
Proof.
  unfold validate_attached, status_matches. intros Hv -> ->.
  repeat case_match; simplify_eq. rewrite !Z.eqb_refl, !andb_true_r.
  repeat match goal with H : negb _ = false |- _ => apply negb_false_iff in H as -> end.
  repeat match goal with H : _ || _ = false |- _ => apply orb_false_iff in H as [] end.
  repeat match goal with H : negb _ = false |- _ => apply negb_false_iff in H as -> end.
  done.
Qed.

Lemma issues_read_status Q w :
  (∀ log e w', uses service_fields log → Q log (Raise e) w') →
  (∀ call status w', status_call status call → Q [call] (Ok status) w') →
  issues iterations ctx (read_status iterations ctx) Q w.
Proof.
  intros Hbad Hok. unfold read_status. repeat issues_step.
  - apply Hbad. constructor.
  - destruct answer as [words|e].
    + issues_step. destruct (ServiceStatus_from_words words) as [status|e] eqn:Es.
      * apply Hok. split; [done|]. by exists words.
      * apply Hbad. apply Forall_singleton. in_list.
    + apply Hbad. apply Forall_singleton. in_list.
Qed.

(** The rule of one command of the service. *)
Lemma issues_send_service field payload (Q : list Call → Res (list Z) → World T → Prop) w :
  field ∈ service_fields →
  (∀ log e w', uses service_fields log → Q log (Raise e) w') →
  (∀ call words w', call_is (field, payload) call → answered call → Q [call] (Ok words) w') →
  issues iterations ctx (send_command iterations ctx field payload) Q w.
Proof.
  intros Hf Hbad Hok. apply issues_send.
  - intros e _. apply Hbad. constructor.
  - intros words command answer client Hp _ _. destruct answer as [a|e].
    + by apply Hok.
    + apply Hbad. by apply Forall_singleton.
Qed.

Lemma attach_loaded_calls total Q w :
  (∀ loads call status w',
     played [(ram_check_crc,
              ram_check_crc_payload (sv_expected_crc32 service) (sv_total_words service));
             (service_attach, service_attach_payload service)] loads →
     status_call status call → status_matches ctx status = true →
     Q (loads ++ [call]) (Ok (ServiceReady (service_summary status false true))) w') →
  (∀ log r w', uses service_fields log → is_ready r = false → Q log r w') →
  issues iterations ctx (attach_loaded_service iterations ctx total) Q w.
Proof.
  intros Hready Hnot. unfold attach_loaded_service, ram_check_crc_protocol.
  assert (∀ call field payload, field ∈ service_fields → call_is (field, payload) call →
    uses service_fields [call]) as Huses.
  { intros call field payload Hf [Hc _]. apply Forall_singleton. by rewrite Hc. }
  issues_step. issues_step. case_match.
  { issues_step. apply Hnot; [constructor|apply service_cancelled_not_ready]. }
  issues_step. apply issues_send_service; [in_list| |].
  { intros log e w' Hl. by apply Hnot. }
  intros crc_call ? w1 Hcrc Hcrc_ok. issues_step. issues_step. case_match.
  { issues_step. apply Hnot; [|apply service_cancelled_not_ready].
    eapply Huses; [|done]. in_list. }
  issues_step. apply issues_send_service; [in_list| |].
  { intros log e w' Hl. apply Hnot; [|done]. simpl.
    apply (uses_app _ [_]); [|done]. eapply Huses; [|done]. in_list. }
  intros attach_call ? w2 Hattach Hattach_ok.
  assert (∀ log, uses service_fields log →
    uses service_fields (crc_call :: attach_call :: log)) as Hcalls.
  { intros log Hl. apply (uses_app _ [_]); [eapply Huses; [|done]; in_list|].
    apply (uses_app _ [_]); [eapply Huses; [|done]; in_list|done]. }
  issues_step. issues_step. case_match.
  { issues_step. apply Hnot; [|apply service_cancelled_not_ready]. apply Hcalls. constructor. }
  issues_step. apply issues_read_status.
  { intros log e w' Hl. apply Hnot; [|done]. by apply Hcalls. }
  intros call status w3 Hstatus. pose proof Hstatus as [Hc _].
  repeat issues_step. destruct (validate_attached ctx status) as [u|e] eqn:Ev.
  2:{ apply Hnot; [|done]. apply Hcalls. eapply Huses; [|done]. in_list. }
  case_match eqn:E.
  { issues_step. apply Hnot; [|done]. apply Hcalls. eapply Huses; [|done]. in_list. }
  apply orb_false_iff in E as [E1%negb_false_iff E2%negb_false_iff].
  issues_step. apply (Hready [crc_call; attach_call] call); [|done|].
  - constructor; [done|]. constructor; [done|]. constructor.
  - eapply validated_matches; [done|lia..].
Qed.

Lemma service_calls Q w :
  (∀ log s w', service_attached log s → Q log (Ok (ServiceReady s)) w') →
  (∀ log r w', uses service_fields log → is_ready r = false → Q log r w') →
  issues iterations ctx (ensure_service_attached iterations ctx) Q w.
Proof.
  intros Hready Hnot. unfold ensure_service_attached. issues_step. issues_step. case_match.
  { issues_step. apply Hnot; [constructor|apply service_cancelled_not_ready]. }
  issues_step. apply issues_read_status.
  { intros log e w' Hl. by apply Hnot. }
  intros first before w1 Hfirst. pose proof Hfirst as [[Hf _] _].
  assert (uses service_fields [first]) as Hfirst_uses.
  { apply Forall_singleton. rewrite Hf. in_list. }
  issues_step. issues_step. case_match.
  { issues_step. apply Hnot; [done|apply service_cancelled_not_ready]. }
  case_match eqn:Em.
  { issues_step. apply andb_true_iff in Em as [Ef Em]. apply Hready.
    apply attached_reused; [done..|]. by destruct (cx_force_service_attach ctx). }
  unfold load_service. repeat issues_step.
  destruct (effective_max_data_words _) as [max|e]; [|by apply Hnot].
  repeat issues_step. destruct (prepare_service_ram_packets _ max) as [packets|e] eqn:Ep;
    [|by apply Hnot].
  issues_step. eapply transfer_calls.
  { eapply service_transfer_wf. done. }
  { apply service_transfer_sends. }
  intros log r w2 Hends.
  assert (uses service_fields log) as Hlog
    by (eapply transfer_uses; [| | |done]; [|intros p|]; in_list).
  destruct r as [outcome|e]; [|by apply Hnot; [apply (uses_app _ [_])|]].
  destruct (to_cancellation outcome) as [cancellation|] eqn:Ec.
  { repeat issues_step. case_match; [repeat issues_step|]; (apply Hnot; [|done]);
      rewrite ?app_nil_r; by apply (uses_app _ [_]). }
  inversion Hends as [|k ? ? ? ? ? ? ? ? ?|l c Hplayed Hc|]; simplify_eq/=.
  apply attach_loaded_calls.
  - intros loads call status w3 Hl Hcall Hm.
    rewrite app_assoc. apply Hready. eapply attached_loaded; [by eexists|done| |done..].
    by apply Forall2_app.
  - intros log' r w3 Hl Hr. apply Hnot; [|done].
    apply (uses_app _ [_]); [done|]. by apply uses_app.
Qed.
End service.
