(* ===== verification/FlashOpsProperties.v ===== *)
(** The contracts of the erase, program, verify, metadata and memory operations. *)

(** * What the Flash operations do to the device

    The calls of the erase, program and verify operations, as contracts that
    relate the log to the result: a refused or cancelled operation has only
    talked to the service, an erase uses allowed masks in order, and a result
    that is ok means every command of the upload was acknowledged. *)

From S2P Require Import Prelude.
From S2P Require Import Errors.
From S2P Require Import Constants.
From S2P Require Import Words.
From S2P Require Import Models.
From S2P Require Import Firmware.
From S2P Require Import Packets.
From S2P Require Import Targets.
From S2P Require Import BootClient.
From S2P Require Import OperationResults.
From S2P Require Import OperationProtocol.
From S2P Require Import FlashOps.
From S2P Require Import StatusOps.
From S2P Require Import RamOps.
From S2P Require Import TransferProperties.

(** ** Sizes of packets *)

Lemma flash_packets_sizes address index max raws ps :
  flash_packets address index max raws = Ok ps → Forall (λ p, 0 < zlen (dp_words p) <= max) ps.
Proof.
  revert address index ps. induction raws as [|raw raws IH]; intros address index ps; simpl.
  - intros [= <-]. constructor.
  - intros Hp. destruct (pad_write_data raw (Some max)) as [data|] eqn:Ed; [|done].
    destruct (flash_packets _ _ _ raws) as [ps'|] eqn:Er; [|done]. injection Hp as <-.
    constructor; [|by eapply IH]. simpl.
    apply pad_write_data_ok_inv in Ed as (Hl & _ & -> & Hv).
    unfold validate_write_data in Hv. repeat case_match; simplify_eq.
    rewrite zlen_app in *. pose proof (zlen_nonneg (padding raw)). lia.
Qed.

Lemma flash_packets_blocks_sizes index max blocks ps :
  flash_packets_blocks index max blocks = Ok ps → Forall (λ p, 0 < zlen (dp_words p) <= max) ps.
Proof.
  revert index ps. induction blocks as [|block blocks IH]; intros index ps; simpl.
  { by intros [= <-]. }
  destruct (flash_packets _ _ _ _) as [ps1|] eqn:E1; [|done].
  destruct (flash_packets_blocks _ _ blocks) as [ps2|] eqn:E2; [|done]. intros [= <-].
  apply Forall_app. split; [by eapply flash_packets_sizes|by eapply IH].
Qed.

Lemma prepare_packets_sizes image max ps :
  prepare_packets image max = Ok ps → Forall (λ p, 0 < zlen (dp_words p) <= max) ps.
Proof.
  unfold prepare_packets. intros Hp. destruct (merge_contiguous _) as [blocks|]; [|done].
  destruct (flash_packets_blocks 0 max blocks) as [ps'|] eqn:E; [|done].
  case_match; simplify_eq. by eapply flash_packets_blocks_sizes.
Qed.

(** ** Results *)

Definition not_ok (r : Res OperationResult) : Prop := ∀ result, r = Ok result → or_ok result = false.

Lemma not_ok_raise e : not_ok (Raise e).
Proof. by intros result [=]. Qed.

Lemma post_init_ok r r' : OperationResult_post_init r = Ok r' → or_ok r' = or_ok r.
Proof. unfold OperationResult_post_init. intros. by repeat case_match; simplify_eq. Qed.

Lemma post_init_fields r r' :
  OperationResult_post_init r = Ok r' →
  or_ok r' = or_ok r ∧ or_cancellation r' = or_cancellation r.
Proof. unfold OperationResult_post_init. intros. by repeat case_match; simplify_eq. Qed.

#[export] Hint Resolve not_ok_raise : py.

Section results.
Context (ctx : OperationContext).

Lemma failure_not_ok operation stage e : not_ok (failure_result ctx operation stage e).
Proof.
  unfold failure_result. repeat case_match; [|auto with py..].
  intros result Hr. by apply post_init_ok in Hr.
Qed.

Lemma cancelled_not_ok operation stage info service :
  not_ok (cancelled_result ctx operation stage info service).
Proof. intros result Hr. by apply post_init_ok in Hr. Qed.

Lemma cleanup_not_ok operation stage info exc service :
  not_ok (cancellation_cleanup_failure_result ctx operation stage info exc service).
Proof.
  unfold cancellation_cleanup_failure_result. case_match; [|auto with py].
  intros result Hr. by apply post_init_ok in Hr.
Qed.

Lemma cancelled_at_not_ok operation stage attached action service :
  not_ok (cancelled_at ctx operation stage attached action service).
Proof. unfold cancelled_at. case_match; [apply cancelled_not_ok|auto with py]. Qed.

Lemma service_cancellation_not_ok operation item action :
  not_ok (service_cancellation_result ctx operation item action).
Proof.
  unfold service_cancellation_result. repeat case_match;
    first [apply cleanup_not_ok | apply cancelled_not_ok | auto with py].
Qed.

Lemma ok_result_ok operation stage summary details service :
  ∃ result, ok_result ctx operation stage summary details service None = Ok result ∧
    or_ok result = true ∧ or_summary result = summary ∧ or_details result = details.
Proof. eexists. split; [reflexivity|done]. Qed.

Lemma completed_ok operation stage summary info details service :
  ∃ result,
    completed_after_cancel_result ctx operation stage summary info details service = Ok result ∧
    or_ok result = true ∧ or_summary result = summary ∧ or_details result = details.
Proof. eexists. split; [reflexivity|done]. Qed.
End results.

#[export] Hint Resolve failure_not_ok cancelled_not_ok cleanup_not_ok cancelled_at_not_ok
  service_cancellation_not_ok : py.

(** ** Operations that report failures *)

Section contracts.
Context {T : Type} `{ByteTransport T}.
Context (iterations : Z → nat) (ctx : OperationContext).

(** A contract that only knows that an exception is not an ok result also
    holds of the failure [try_operation] reports. *)
Lemma try_calls (C : list Call → Res OperationResult → Prop) operation stage m w :
  (∀ log e r, C log (Raise e) → not_ok r → C log r) →
  issues iterations ctx m (λ log r _, C log r) w →
  issues iterations ctx (try_operation ctx operation stage m) (λ log r _, C log r) w.
Proof.
  intros HC Hm. apply issues_catch. eapply issues_conseq; [done|]. simpl.
  intros log [a|e] w' _ HQ; [done|]. issues_step. rewrite app_nil_r.
  eapply HC; [done|]. auto with py.
Qed.

(** ** Erase *)

(** The masks the layout of the target lets an operation erase. *)
Definition mask_allowed (mask : Z) : Prop :=
  ∃ flash, flash_layout ctx = Ok flash ∧ mask <> 0 ∧
    Z.land mask (fl_forbidden_erase_mask flash) = 0 ∧
    Z.land mask (Z.lnot (fl_allowed_erase_mask flash)) = 0.

Definition erase_send (mask : Z) : Send := (erase, erase_payload mask).

(** An erase of [masks], in order: nothing is erased unless all of them are
    allowed and the service is attached, and an ok result means that every
    erase was acknowledged. *)
Inductive erase_ends (masks : list Z) : list Call → Res OperationResult → Prop :=
| erase_refused log r : uses service_fields log → not_ok r → erase_ends masks log r
| erase_failed log s erases e r :
    Forall mask_allowed masks → service_attached ctx log s →
    stuck e (map erase_send masks) erases → not_ok r → erase_ends masks (log ++ erases) r
| erase_done log s erases result :
    Forall mask_allowed masks → service_attached ctx log s →
    played (map erase_send masks) erases → or_ok result = true →
    or_summary result = [("erased_masks"%string, VSeq (map VInt masks))] →
    erase_ends masks (log ++ erases) (Ok result).

Lemma erase_ends_raise masks log e r : erase_ends masks log (Raise e) → not_ok r → erase_ends masks log r.
Proof.
  intros He Hr. inversion He; subst.
  - by apply erase_refused.
  - by eapply erase_failed.
Qed.

Lemma land_submask part mask bits :
  Z.land part (Z.lnot mask) = 0 → Z.land mask bits = 0 → Z.land part bits = 0.
Proof using.
  intros Hsub Hm. apply Z.bits_inj'. intros k Hk.
  apply (f_equal (λ z, Z.testbit z k)) in Hsub, Hm.
  rewrite Z.land_spec, Z.lnot_spec in Hsub by done. rewrite Z.land_spec in *.
  rewrite Z.bits_0 in *. destruct (Z.testbit part k), (Z.testbit mask k); simpl in *; congruence.
Qed.

Lemma check_sector_mask_allowed flash mask u part :
  flash_layout ctx = Ok flash → check_sector_mask flash mask = Ok u →
  part <> 0 → Z.land part (Z.lnot mask) = 0 → mask_allowed part.
Proof.
  intros Hf Hc Hne Hsub. unfold check_sector_mask in Hc. repeat case_match; simplify_eq.
  repeat match goal with H : negb _ = false |- _ => apply negb_false_iff, Z.eqb_eq in H end.
  exists flash. split_and!; [done..| |]; by eapply land_submask.
Qed.

(** Nothing is erased: the operation stops around the service. *)
Lemma refused masks log r w (Q := λ log' r (_ : World T), erase_ends masks (log ++ log') r) :
  uses service_fields log → not_ok r → issues iterations ctx (lift r) Q w.
Proof. intros. apply issues_lift. unfold Q. rewrite app_nil_r. by apply erase_refused. Qed.

(** The end of an erase. *)
Lemma erase_finished_calls operation masks log s erases summary details service w :
  Forall mask_allowed masks → service_attached ctx log s →
  played (map erase_send masks) erases →
  summary = [("erased_masks"%string, VSeq (map VInt masks))] →
  issues iterations ctx (erase_finished ctx operation summary details service)
    (λ log' r _, erase_ends masks ((log ++ erases) ++ log') r) w.
Proof.
  intros Hm Hs Hp Hsum. unfold erase_finished. issues_step. issues_step. case_match.
  - destruct (cancellation_info "ERASE" (Some true) "NONE") as [info|] eqn:Ei; [|by vm_compute in Ei].
    repeat issues_step. rewrite app_nil_r. edestruct completed_ok as (result & -> & Hok & Hres & _).
    eapply erase_done; [done..|]. by rewrite Hres.
  - issues_step. rewrite app_nil_r. edestruct ok_result_ok as (result & -> & Hok & Hres & _).
    eapply erase_done; [done..|]. by rewrite Hres.
Qed.

(** One erase command in the middle of the masks, with what follows it. *)
Lemma erase_one masks1 mask masks2 log s erases (k : ST (World T) OperationResult) w :
  Forall mask_allowed (masks1 ++ mask :: masks2) → service_attached ctx log s →
  played (map erase_send masks1) erases →
  (∀ call w', played (map erase_send (masks1 ++ [mask])) (erases ++ [call]) →
     issues iterations ctx k
       (λ log' r _, erase_ends (masks1 ++ mask :: masks2) ((log ++ erases ++ [call]) ++ log') r) w') →
  issues iterations ctx (erase_protocol iterations ctx mask ;;; k)
    (λ log' r _, erase_ends (masks1 ++ mask :: masks2) ((log ++ erases) ++ log') r) w.
Proof.
  intros Hm Hs Hp Hk.
  assert (∀ e log', stuck e (erase_send mask :: map erase_send masks2) log' →
    erase_ends (masks1 ++ mask :: masks2) ((log ++ erases) ++ log') (Raise e)) as Hstuck.
  { intros e log' He. rewrite <- app_assoc. eapply erase_failed; [done..| |auto with py].
    rewrite map_app. by eapply stuck_after. }
  unfold erase_protocol. issues_step. apply issues_send.
  - intros e He. apply Hstuck. by constructor.
  - intros words command answer client Hw _ _. destruct answer as [a|e].
    + eapply issues_conseq.
      * apply (Hk (mkCall erase words (Ok a))). rewrite map_app. apply Forall2_app; [done|]. constructor; [exact (conj (conj eq_refl Hw) eq_refl)|constructor].
      * simpl. intros log' r w' _. by rewrite <- !app_assoc.
    + apply Hstuck. by apply stuck_failed.
Qed.

(** ** Erasing the area of an image *)

(** The masks erase_flash_image_area erases, the metadata sector first. *)
Definition area_masks (image : PreparedFlashImage) : list Z :=
  match flash_layout ctx with
  | Ok flash =>
      let metadata_mask := fl_metadata_sector_mask flash in
      let effective := Z.lor (pf_sector_mask image) metadata_mask in
      List.filter (λ mask, negb (mask =? 0))
        [metadata_mask; Z.land effective (Z.lnot metadata_mask)]
  | Raise _ => []
  end.

Lemma land_lnot_self a b : Z.land a (Z.lnot (Z.lor b a)) = 0.
Proof using.
  apply Z.bits_inj'. intros k Hk. rewrite Z.land_spec, Z.lnot_spec, Z.lor_spec, Z.bits_0 by done.
  by destruct (Z.testbit a k), (Z.testbit b k).
Qed.

Lemma land_lnot_part a b : Z.land (Z.land a b) (Z.lnot a) = 0.
Proof using.
  apply Z.bits_inj'. intros k Hk. rewrite !Z.land_spec, Z.lnot_spec, Z.bits_0 by done.
  by destruct (Z.testbit a k), (Z.testbit b k).
Qed.

Lemma area_masks_allowed flash image u :
  flash_layout ctx = Ok flash →
  check_sector_mask flash (Z.lor (pf_sector_mask image) (fl_metadata_sector_mask flash)) = Ok u →
  Forall mask_allowed (area_masks image).
Proof.
  intros Hf Hc. unfold area_masks. rewrite Hf. apply List.Forall_forall. intros mask Hin.
  apply filter_In in Hin as [Hin Hne]. apply negb_true_iff, Z.eqb_neq in Hne.
  destruct Hin as [<-|[<-|[]]]; eapply check_sector_mask_allowed; try done.
  - apply land_lnot_self.
  - apply land_lnot_part.
Qed.

Lemma issues_assoc {A B C} (m : ST (World T) A) (n : ST (World T) B) (k : ST (World T) C) Q w :
  issues iterations ctx (m ;;; (n ;;; k)) Q w → issues iterations ctx ((m ;;; n) ;;; k) Q w.
Proof. unfold issues, bind. by destruct (m w) as [[a|e] w1]. Qed.

(** The two optional erases of the area. *)
Lemma erase_optional (masks1 masks2 : list Z) mask log s erases (progress : ST (World T) unit)
    (k : ST (World T) OperationResult) w :
  let rest := if mask =? 0 then masks2 else mask :: masks2 in
  Forall mask_allowed (masks1 ++ rest) → service_attached ctx log s →
  played (map erase_send masks1) erases →
  (∀ Q w, (∀ w', Q [] (Ok tt) w') → issues iterations ctx progress Q w) →
  (∀ erases' w', played (map erase_send (masks1 ++ (if mask =? 0 then [] else [mask]))) erases' →
     issues iterations ctx k
       (λ log' r _, erase_ends (masks1 ++ rest) ((log ++ erases') ++ log') r) w') →
  issues iterations ctx
    ((if negb (mask =? 0) then erase_protocol iterations ctx mask ;;; progress else ret tt) ;;; k)
    (λ log' r _, erase_ends (masks1 ++ rest) ((log ++ erases) ++ log') r) w.
Proof.
  intros rest Hm Hs Hp Hprogress Hk. subst rest. destruct (mask =? 0); simpl negb; cbn iota in *.
  - issues_step. issues_step. simpl. apply Hk. by rewrite app_nil_r.
  - apply issues_assoc, (erase_one masks1 mask masks2 log s erases); [done..|].
    intros call w' Hp'. issues_step. apply Hprogress. intros w2. simpl. by apply Hk.
Qed.

Lemma progress_calls flash operation selected completed total chunk Q w :
  (∀ w', Q [] (Ok tt) w') →
  issues iterations ctx (erase_progress ctx flash operation selected completed total chunk) Q w.
Proof. intros HQ. unfold erase_progress. issues_step. apply HQ. Qed.

(** An operation that runs [body] once the service is attached. *)
Lemma attached_calls (C : list Call → Res OperationResult → Prop) operation
    (body : ServiceRuntimeSummary → ST (World T) OperationResult) action w :
  (∀ log r, uses service_fields log → not_ok r → C log r) →
  (∀ log s w', service_attached ctx log s →
     issues iterations ctx (body s) (λ log' r _, C (log ++ log') r) w') →
  issues iterations ctx
    (service <- ensure_service_attached iterations ctx ;;
     match service with
     | ServiceCancelled item => lift (service_cancellation_result ctx operation item action)
     | ServiceReady service => body service
     end) (λ log r _, C log r) w.
Proof.
  intros Hno Hbody. issues_step. apply service_calls.
  - intros log s w' Hs. by apply Hbody.
  - intros log [[s|item]|e] w' Hl Hr; [done| |].
    + issues_step. rewrite app_nil_r. apply Hno; auto with py.
    + apply Hno; auto with py.
Qed.

Lemma area_calls image w :
  issues iterations ctx (erase_flash_image_area iterations ctx image)
    (λ log r _, erase_ends (area_masks image) log r) w.
Proof.
  unfold erase_flash_image_area. apply try_calls; [intros; by eapply erase_ends_raise|].
  assert (∀ r, not_ok r → erase_ends (area_masks image) [] r) as Hnone
    by (intros; by apply erase_refused; [constructor|]).
  issues_step. issues_step. case_match; [issues_step; apply Hnone; auto with py|].
  issues_step. issues_step. destruct (flash_layout ctx) as [flash|e] eqn:Ef; [|auto with py].
  issues_step. issues_step.
  destruct (check_sector_mask _ _) as [[]|e] eqn:Ec; [|auto with py].
  pose proof (area_masks_allowed _ _ _ Ef Ec) as Hallowed.
  unfold area_masks in *. rewrite Ef in *.
  apply (attached_calls (erase_ends _)); [apply erase_refused|]. intros log s w1 Hs.
  issues_step. issues_step. case_match; [issues_step; rewrite app_nil_r|].
  { apply erase_refused; [by eapply service_attached_uses|auto with py]. }
  issues_step. apply progress_calls. intros w2. cbn [app].
  set (metadata := fl_metadata_sector_mask flash) in *.
  set (rest := Z.land (Z.lor (pf_sector_mask image) metadata) (Z.lnot metadata)) in *.
  set (last := if rest =? 0 then [] else [rest]).
  assert (List.filter (λ mask, negb (mask =? 0)) [metadata; rest]
    = if metadata =? 0 then last else metadata :: last) as Hmasks
    by (subst last; cbn; by destruct (metadata =? 0), (rest =? 0)).
  rewrite Hmasks in *. rewrite <- (app_nil_r log).
  apply (erase_optional [] last metadata log s []); [done|done|constructor| |].
  { intros Q w3 HQ. by apply progress_calls. }
  intros erases w3 Hp. simpl in Hp |- *.
  assert ((if metadata =? 0 then last else metadata :: last)
    = (if metadata =? 0 then [] else [metadata]) ++ last) as Heq by by case_match.
  rewrite Heq in *.
  apply (erase_optional _ [] rest log s erases); [done|done|done| |].
  { intros Q w4 HQ. by apply progress_calls. }
  intros erases' w4 Hp'. eapply erase_finished_calls; [done..|].
  do 2 f_equal. subst last. by destruct (metadata =? 0), (rest =? 0).
Qed.

Lemma sector_mask_calls mask w :
  issues iterations ctx (erase_sector_mask iterations ctx mask)
    (λ log r _, erase_ends [mask] log r) w.
Proof.
  unfold erase_sector_mask. apply try_calls; [intros; by eapply erase_ends_raise|].
  assert (∀ r, not_ok r → erase_ends [mask] [] r) as Hnone
    by (intros; by apply erase_refused; [constructor|]).
  issues_step. issues_step. case_match; [issues_step; apply Hnone; auto with py|].
  issues_step. issues_step. destruct (flash_layout ctx) as [flash|e] eqn:Ef; [|auto with py].
  issues_step. issues_step.
  destruct (check_sector_mask _ _) as [[]|e] eqn:Ec; [|auto with py].
  assert (Forall mask_allowed [mask]) as Hallowed.
  { apply Forall_singleton. eapply check_sector_mask_allowed; [done..| |].
    - unfold check_sector_mask in Ec. repeat case_match; simplify_eq. lia.
    - rewrite <- (Z.lor_diag mask) at 2. apply land_lnot_self. }
  apply (attached_calls (erase_ends _)); [apply erase_refused|]. intros log s w1 Hs.
  issues_step. issues_step. case_match; [issues_step; rewrite app_nil_r|].
  { apply erase_refused; [by eapply service_attached_uses|auto with py]. }
  issues_step. apply progress_calls. intros w2. simpl. rewrite <- (app_nil_r log).
  apply (erase_one [] mask [] log s []); [done|done|constructor|].
  intros call w3 Hp. issues_step. apply progress_calls. intros w4.
  by eapply erase_finished_calls.
Qed.

(** ** Program and verify *)

Abbreviation total_of packets := (zsum (map (λ packet, zlen (dp_words packet)) packets)).

Definition upload_begin (verify : bool) (image : PreparedFlashImage) (packets : list DataPacket)
    : Send :=
  (if verify then verify_begin else program_begin,
   begin_words Target.FLASH_APP (zlen packets) (total_of packets)
     (ii_entry_point (pf_identity image)) 0).
Definition upload_data (verify : bool) (packet : DataPacket) : Send :=
  (if verify then verify_data else program_data,
   data_words (dp_address packet) (dp_words packet) (dp_index packet)).
Definition upload_end (verify : bool) (packets : list DataPacket) : Send :=
  (if verify then verify_end else program_end, end_words (zlen packets) (total_of packets) 0).

(** The commands of a complete upload *)
Definition upload_script (verify : bool) (image : PreparedFlashImage) (packets : list DataPacket)
    : list Send :=
  script (upload_begin verify image packets) (upload_data verify) (upload_end verify packets)
    packets.

Definition upload_transfer (verify : bool) (image : PreparedFlashImage)
    (packets : list DataPacket) : Transfer DataPacket :=
  flash_transfer iterations ctx
    (if verify then "verify_flash_image" else "program_flash_image") verify packets
    (total_of packets) (ii_entry_point (pf_identity image)).

Lemma upload_sends verify image packets :
  transfer_sends iterations ctx (upload_transfer verify image packets)
    (upload_begin verify image packets) (upload_data verify) (upload_end verify packets).
Proof. destruct verify; (split; [|intros packet|]; apply sends_command). Qed.

Lemma upload_wf verify image packets :
  Forall (λ p, 0 < zlen (dp_words p)) packets →
  transfer_wf (upload_transfer verify image packets) (upload_end verify packets).
Proof.
  intros Hp. split; simpl.
  - done.
  - done.
  - by destruct verify.
  - intros n. destruct verify, (negb (n =? 0)); in_list.
  - apply end_words_error.
  - intros n. destruct verify, (negb (n =? 0)); in_list.
Qed.

(** The end of an upload of [max]-word packets: an ok result means that every
    command of the script was acknowledged, and an upload that was cancelled
    on the way reports the state [transfer_ends] describes. *)
Inductive upload_ends (verify : bool) (image : PreparedFlashImage) (max : Res Z)
    : list Call → Res OperationResult → Prop :=
| upload_refused log r : uses service_fields log → not_ok r → upload_ends verify image max log r
| upload_failed log s limit packets calls e r :
    service_attached ctx log s → max = Ok limit →
    prepare_packets (pf_image image) limit = Ok packets →
    stuck e (upload_script verify image packets) calls → not_ok r →
    upload_ends verify image max (log ++ calls) r
| upload_cancelled log s limit packets calls outcome result :
    service_attached ctx log s → max = Ok limit →
    prepare_packets (pf_image image) limit = Ok packets →
    transfer_ends (upload_transfer verify image packets) (upload_begin verify image packets)
      (upload_data verify) (upload_end verify packets) calls (Ok outcome) →
    to_completed_after_cancel outcome = false →
    or_ok result = false → is_some (to_cancellation outcome) = true →
    oc_current_words <$> or_cancellation result = oc_current_words <$> to_cancellation outcome →
    upload_ends verify image max (log ++ calls) (Ok result)
| upload_done log s limit packets calls result :
    service_attached ctx log s → max = Ok limit →
    prepare_packets (pf_image image) limit = Ok packets →
    played (upload_script verify image packets) calls → or_ok result = true →
    or_summary result = [("total_words"%string, VInt (total_of packets));
                         ("packets"%string, VInt (zlen packets))] →
    upload_ends verify image max (log ++ calls) (Ok result).

Lemma upload_ends_raise verify image max log e r :
  upload_ends verify image max log (Raise e) → not_ok r → upload_ends verify image max log r.
Proof.
  intros He Hr. inversion He; subst.
  - by apply upload_refused.
  - by eapply upload_failed.
Qed.

(** What the result of a transfer that was not completed says. *)
Lemma transfer_result_cancelled operation stage outcome info info' service :
  to_completed_after_cancel outcome = false → to_cancellation outcome = Some info →
  OperationCancellationInfo_post_init info' = Ok info →
  ∃ result, transfer_result ctx operation stage outcome service = Ok result ∧
    or_ok result = false ∧ oc_current_words <$> or_cancellation result = Some (oc_current_words info).
Proof.
  intros Hc Hs Hi. unfold transfer_result. rewrite Hc, Hs.
  destruct (to_cleanup_error outcome).
  - unfold cancellation_cleanup_failure_result.
    unfold OperationCancellationInfo_post_init in *. repeat case_match; simplify_eq/=.
    all: first [congruence | eexists; split; [reflexivity|done]].
  - eexists. split; [reflexivity|done].
Qed.

(** The result of every outcome satisfies the contract. *)
Lemma upload_result_ends verify image limit log s packets calls operation stage outcome service :
  service_attached ctx log s → prepare_packets (pf_image image) limit = Ok packets →
  transfer_ends (upload_transfer verify image packets) (upload_begin verify image packets)
    (upload_data verify) (upload_end verify packets) calls (Ok outcome) →
  upload_ends verify image (Ok limit) (log ++ calls)
    (transfer_result ctx operation stage outcome service).
Proof.
  intros Hs Hp Hends. pose proof Hends as Hcases.
  inversion Hcases as [info Hi|k before end_log cleanup info Hk Hbefore Hend Hcl Hlen Hi
    |done_log cancellation Hplayed Hi|]; subst.
  - destruct (transfer_result_cancelled operation stage (mkOutcome [] (Some info) None false)
      info _ service eq_refl eq_refl Hi) as (result & Hr & Hok & Hw).
    rewrite Hr. eapply upload_cancelled; [done..|]. exact Hw.
  - destruct (transfer_result_cancelled operation stage (mkOutcome [] (Some info) cleanup false)
      info _ service eq_refl eq_refl Hi) as (result & Hr & Hok & Hw).
    rewrite Hr. eapply upload_cancelled; [done..|]. exact Hw.
  - unfold transfer_result. simpl. destruct cancellation as [info|]; simpl.
    + edestruct completed_ok as (result & -> & Hok & Hsum & _). by eapply upload_done.
    + edestruct ok_result_ok as (result & -> & Hok & Hsum & _). by eapply upload_done.
Qed.

Lemma upload_calls (verify : bool) image (w : World T) :
  issues iterations ctx
    (flash_image_operation iterations ctx
       (if verify then "verify_flash_image" else "program_flash_image") verify image)
    (λ log r _, upload_ends verify image
                  (effective_max_write_data_words (ow_client w)) log r) w.
Proof.
  unfold flash_image_operation. apply try_calls; [intros; by eapply upload_ends_raise|].
  assert (∀ r, not_ok r → upload_ends verify image
    (effective_max_write_data_words (ow_client w)) [] r) as Hnone
    by (intros; by apply upload_refused; [constructor|]).
  issues_step. issues_step. case_match; [issues_step; apply Hnone; auto with py|].
  repeat issues_step. simpl in *.
  destruct (effective_max_write_data_words (ow_client w)) as [max|e]; [|auto with py].
  apply (attached_calls (upload_ends verify image (Ok max))); [apply upload_refused|].
  intros log s w1 Hs. unfold transfer_image. issues_step. repeat issues_step.
  destruct (prepare_packets (pf_image image) max) as [packets|e] eqn:Ep.
  2:{ rewrite app_nil_r. apply upload_refused; [by eapply service_attached_uses|auto with py]. }
  apply (transfer_calls iterations ctx (upload_transfer verify image packets)
    (upload_begin verify image packets) (upload_data verify) (upload_end verify packets)).
  { apply upload_wf. eapply Forall_impl; [by eapply prepare_packets_sizes|]. simpl. lia. }
  { apply upload_sends. }
  intros calls [outcome|e] w2 Hends.
  - issues_step. rewrite app_nil_r. by eapply upload_result_ends.
  - inversion Hends; subst. eapply upload_failed; eauto with py.
Qed.
End contracts.

(** * When the operations write metadata records

    The calls of the three append operations: a record is written at most
    once, after the service is attached and only when the metadata the device
    has just reported allows it. *)

(** A GET_METADATA_SUMMARY call that returned [current] *)
Definition summary_call (current : MetadataSummary) (call : Call) : Prop :=
  call_is (get_metadata_summary, Ok []) call ∧
  ∃ words, cl_answer call = Ok words ∧ MetadataSummary_from_words words = Ok current.

Section metadata.
Context {T : Type} `{ByteTransport T}.
Context (iterations : Z → nat) (ctx : OperationContext).

(** An append that decides by [refusal] and writes [payload]. *)
Inductive append_ends (refusal : MetadataSummary → option Refusal)
    (payload : MetadataSummary → Res (list Z)) : list Call → Res OperationResult → Prop :=
| append_stopped log r :
    uses (get_metadata_summary :: service_fields) log → not_ok r →
    append_ends refusal payload log r
| append_declined log s call current already_exists reason result :
    service_attached ctx log s → summary_call current call →
    refusal current = Some (already_exists, reason) → or_ok result = true →
    or_summary result = metadata_result_summary false already_exists (Some reason) →
    append_ends refusal payload (log ++ [call]) (Ok result)
| append_failed log s call current calls e r :
    service_attached ctx log s → summary_call current call → refusal current = None →
    stuck e [(metadata_append_record, payload current)] calls → not_ok r →
    append_ends refusal payload (log ++ call :: calls) r
| append_written log s call current record result :
    service_attached ctx log s → summary_call current call → refusal current = None →
    call_is (metadata_append_record, payload current) record → answered record →
    or_ok result = true → or_summary result = metadata_result_summary true false None →
    append_ends refusal payload (log ++ [call; record]) (Ok result).

Lemma append_ends_raise refusal payload log e r :
  append_ends refusal payload log (Raise e) → not_ok r → append_ends refusal payload log r.
Proof.
  intros He Hr. inversion He; subst.
  - by apply append_stopped.
  - by eapply append_failed.
Qed.

Lemma uses_weaken fields fields' log : fields ⊆ fields' → uses fields log → uses fields' log.
Proof. intros Hs Hl. eapply Forall_impl; [done|]. auto. Qed.

Lemma service_uses log : uses service_fields log → uses (get_metadata_summary :: service_fields) log.
Proof. apply uses_weaken. intros f Hf. apply elem_of_cons. by right. Qed.

Lemma attached_uses log s :
  service_attached ctx log s → uses (get_metadata_summary :: service_fields) log.
Proof. intros. apply service_uses. by eapply service_attached_uses. Qed.

Lemma uses_summary log call :
  uses (get_metadata_summary :: service_fields) log → cl_field call = get_metadata_summary →
  uses (get_metadata_summary :: service_fields) (log ++ [call]).
Proof. intros Hl Hf. apply uses_app; [done|]. apply Forall_singleton. rewrite Hf. in_list. Qed.

Lemma finished_calls operation stage summary service Q w :
  stage <> EmptyString →
  (∀ result w', or_ok result = true → or_summary result = summary → Q [] (Ok result) w') →
  issues iterations ctx (finished_result ctx operation stage summary service) Q w.
Proof.
  intros Hstage HQ. unfold finished_result. issues_step. issues_step. case_match.
  - destruct (cancellation_info stage (Some true) "NONE") as [info|e] eqn:Ei.
    2:{ unfold cancellation_info, OperationCancellationInfo_post_init in Ei. simpl in Ei.
        by rewrite bool_decide_eq_false_2 in Ei. }
    repeat issues_step. edestruct completed_ok as (result & -> & Hok & Hres & _). by apply HQ.
  - issues_step. edestruct ok_result_ok as (result & -> & Hok & Hres & _). by apply HQ.
Qed.

(** The rule of the metadata summary. *)
Lemma summary_calls Q w :
  (∀ log e w', uses [get_metadata_summary] log → Q log (Raise e) w') →
  (∀ call current w', summary_call current call → Q [call] (Ok current) w') →
  issues iterations ctx (read_metadata_summary iterations ctx) Q w.
Proof.
  intros Hbad Hok. unfold read_metadata_summary. repeat issues_step.
  - apply Hbad. constructor.
  - destruct answer as [words|e].
    + issues_step. destruct (MetadataSummary_from_words words) as [current|e] eqn:Es.
      * apply Hok. split; [done|]. by exists words.
      * apply Hbad. apply Forall_singleton. in_list.
    + apply Hbad. apply Forall_singleton. in_list.
Qed.

Lemma append_calls operation record_type refusal payload append w :
  (∀ current, append current
     = send_command iterations ctx metadata_append_record (payload current)) →
  issues iterations ctx (append_operation iterations ctx operation record_type refusal append)
    (λ log r _, append_ends refusal payload log r) w.
Proof.
  intros Happend. unfold append_operation.
  apply try_calls; [intros; by eapply append_ends_raise|].
  issues_step. issues_step. case_match.
  { issues_step. apply append_stopped; [constructor|]. apply cancelled_at_not_ok. }
  apply (attached_calls _ _ (append_ends refusal payload)).
  { intros log r Hl. apply append_stopped. by apply service_uses. }
  intros log s w1 Hs. pose proof (attached_uses _ _ Hs) as Huses.
  issues_step. issues_step. case_match.
  { issues_step. rewrite app_nil_r. apply append_stopped; [done|]. apply cancelled_at_not_ok. }
  issues_step. apply summary_calls.
  { intros log' e w2 Hl. apply append_stopped; [|auto with py]. apply uses_app; [done|].
    eapply uses_weaken; [|done]. intros f Hf. apply elem_of_cons. left.
    by apply list_elem_of_singleton in Hf. }
  intros call current w2 Hcall. pose proof Hcall as [[Hf _] _].
  destruct (refusal current) as [[already reason]|] eqn:Er.
  { apply finished_calls; [done|]. intros result w3 Hok Hsum. simpl.
    by eapply append_declined. }
  issues_step. issues_step. case_match.
  { issues_step. simpl. apply append_stopped; [by apply uses_summary|].
    apply cancelled_at_not_ok. }
  issues_step. unfold emit_append_progress at 1. issues_step. issues_step. rewrite Happend.
  apply issues_send.
  - intros e He. simpl. eapply append_failed; [done..| |auto with py]. by apply stuck_unsent.
  - intros words command ans client Hp _ _. destruct ans as [a|e]; simpl.
    + issues_step. unfold emit_append_progress. issues_step.
      apply finished_calls; [done|]. intros result w3 Hok Hsum. simpl.
      by eapply append_written.
    + eapply append_failed; [done..| |auto with py]. by apply stuck_failed.
Qed.

(** ** What the decisions mean *)

Lemma image_valid_decision current :
  image_valid_refusal current = None ↔
  ms_state current = 0 ∧ ms_metadata_valid current = 0 ∧ ms_valid_record_count current = 0 ∧
  ms_invalid_record_count current = 0.
Proof.
  unfold image_valid_refusal, metadata_state.
  split; [intros|intros (-> & -> & -> & ->); done]. repeat case_match; simplify_eq. lia.
Qed.

Lemma boot_attempt_decision current :
  boot_attempt_refusal current = None ↔
  ms_state current = 1 ∧ ms_metadata_valid current <> 0 ∧ ms_app_confirmed current = 0 ∧
  0 < ms_boot_attempt_limit current <= 3 ∧
  ms_boot_attempt_count current < ms_boot_attempt_limit current.
Proof.
  unfold boot_attempt_refusal, metadata_state.
  split; intros; repeat case_match; simplify_eq; first [done | lia | exfalso; lia].
Qed.

Lemma app_confirmed_decision current :
  app_confirmed_refusal current = None ↔
  ms_state current = 1 ∧ ms_metadata_valid current <> 0 ∧ ms_app_confirmed current = 0 ∧
  ms_boot_attempt_count current <> 0.
Proof.
  unfold app_confirmed_refusal, metadata_state.
  split; intros; repeat case_match; simplify_eq; first [done | lia | exfalso; lia].
Qed.
End metadata.

(** * What a memory read reads

    The calls of [memory_read]: contiguous frames from the start address,
    never beyond the requested range, whose data words are the result. *)

(** A response that carries [data], read at [address]. *)
Definition frame_data (address : Z) (data : list Z) (call : Call) : Prop :=
  ∃ low high, cl_answer call = Ok (low :: high :: zlen data :: data) ∧
    join_u32 low high = address ∧ Forall u16 data.

(** Frames read one after the other from [address], of at most [capacity]
    words, with the words they returned. *)
Inductive frames_read (capacity : Z) : Z → list Call → list Z → Prop :=
| frames_nil address : frames_read capacity address [] []
| frames_cons address call data log words :
    call_is (memory_read, memory_read_payload address (zlen data)) call →
    0 < zlen data <= capacity → frame_data address data call →
    frames_read capacity (address + zlen data) log words →
    frames_read capacity address (call :: log) (data ++ words).

(** A frame of the range that was asked for in vain. *)
Definition frame_failed (capacity start count : Z) (words : list Z) (call : Call) : Prop :=
  ∃ n, 0 < n <= capacity ∧ zlen words + n <= count ∧
    call_is (memory_read, memory_read_payload (start + zlen words) n) call.

(** The end of a read of [count] words from [start]: an ok result has the
    words of the range; otherwise the frames read, and the one that failed,
    lie inside the range. *)
Inductive memory_ends (capacity start count : Z) : list Call → Res OperationResult → Prop :=
| memory_done log words result :
    frames_read capacity start log words → zlen words = count → or_ok result = true →
    or_details result = words_details words → memory_ends capacity start count log (Ok result)
| memory_stopped log words last r :
    frames_read capacity start log words → zlen words <= count →
    Forall (frame_failed capacity start count words) last → (length last <= 1)%nat → not_ok r →
    memory_ends capacity start count (log ++ last) r.

Lemma frames_snoc capacity address log words call data :
  frames_read capacity address log words →
  call_is (memory_read, memory_read_payload (address + zlen words) (zlen data)) call →
  0 < zlen data <= capacity → frame_data (address + zlen words) data call →
  frames_read capacity address (log ++ [call]) (words ++ data).
Proof.
  intros Hf. revert call data. induction Hf as [address|address call0 data0 log words Hc Hl Hd Hf IH];
    intros call data Hcall Hlen Hdata.
  - simpl. rewrite zlen_nil, Z.add_0_r in *. rewrite <- (app_nil_r data).
    apply frames_cons; rewrite ?app_nil_r; [done..|constructor].
  - simpl. rewrite <- app_assoc. apply frames_cons; [done..|].
    rewrite zlen_app, Z.add_assoc in *. by apply IH.
Qed.

Lemma check_memory_response_ok request index address n words payload data :
  check_memory_response request index address n words payload = Ok data →
  zlen data = n ∧ zlen words + zlen data <= rq_word_count request ∧
  (∀ call, cl_answer call = Ok payload → frame_data address data call).
Proof.
  unfold check_memory_response. intros Hc. repeat case_match; simplify_eq.
  repeat match goal with H : negb _ = false |- _ => apply negb_false_iff in H end.
  destruct payload as [|low [|high [|k data]]]; try done.
  unfold slice_from in *. change (drop (Z.to_nat 3) (low :: high :: k :: data)) with data in *.
  unfold at_ in *. change (Z.to_nat 0) with O in *. change (Z.to_nat 1) with 1%nat in *.
  change (Z.to_nat 2) with 2%nat in *. simpl nth in *.
  split_and!; [lia..|]. intros call Hcall. exists low, high. split_and!.
  - rewrite Hcall. do 4 f_equal. lia.
  - lia.
  - by apply forallb_fits_u16.
Qed.

Section memory.
Context {T : Type} `{ByteTransport T}.
Context (iterations : Z → nat) (ctx : OperationContext).
Context (request : MemoryReadRequest) (capacity frame_count : Z).
Hypothesis Hrequest : MemoryReadRequest_post_init request = Ok request.
Hypothesis Hcapacity : 0 < capacity.
Hypothesis Hcount : frame_count = (rq_word_count request + capacity - 1) / capacity.

Abbreviation start := (rq_start_address request).
Abbreviation count := (rq_word_count request).

Lemma ends_raise log e r :
  memory_ends capacity start count log (Raise e) → not_ok r → memory_ends capacity start count log r.
Proof. intros He Hr. inversion He; subst. by eapply memory_stopped. Qed.

Lemma frame_count_spec index : index < frame_count ↔ index * capacity < count.
Proof using Hcount Hcapacity.
  rewrite Hcount. pose proof (Z.mul_div_le (count + capacity - 1) capacity Hcapacity) as Hle.
  split; intros Hlt; [nia|].
  assert (index + 1 <= (count + capacity - 1) / capacity); [|lia].
  apply Z.div_le_lower_bound; lia.
Qed.

Lemma zrange_step a b : zrange a b = if a <? b then a :: zrange (a + 1) b else [].
Proof using.
  unfold zrange. destruct (Z.ltb_spec a b) as [Hlt|Hge].
  - replace (Z.to_nat (b - a)) with (S (Z.to_nat (b - (a + 1)))) by lia. simpl.
    f_equal; [lia|]. rewrite <- seq_shift, map_map. apply map_ext. intros. lia.
  - by replace (Z.to_nat (b - a)) with O by lia.
Qed.

(** Where the loop stands: [log] has read [words]. *)
Definition loop_ends (r : Res (list Z + OperationResult)) (log : list Call) : Prop :=
  match r with
  | Ok (inl words) => frames_read capacity start log words ∧ zlen words = count
  | Ok (inr result) => memory_ends capacity start count log (Ok result)
  | Raise e => memory_ends capacity start count log (Raise e)
  end.

Lemma stopped_by log words call e :
  frames_read capacity start log words → zlen words <= count →
  frame_failed capacity start count words call →
  memory_ends capacity start count (log ++ [call]) (Raise e).
Proof using.
  intros. apply (memory_stopped _ _ _ log words); [done..| |simpl; lia|auto with py].
  by apply Forall_singleton.
Qed.

Lemma stopped_here log words r :
  frames_read capacity start log words → zlen words <= count → not_ok r →
  memory_ends capacity start count log r.
Proof using.
  intros. rewrite <- (app_nil_r log). apply (memory_stopped _ _ _ log words); [done|done|constructor|simpl; lia|done].
Qed.

(** A cancelled read: a result with the words so far, ok only when they are all. *)
Lemma cancelled_read log words w :
  frames_read capacity start log words → zlen words <= count →
  issues iterations ctx
    (cancellation <- lift (memory_cancellation_info request (zlen words)) ;;
     if zlen words <? count then
       result <- lift (cancelled_result ctx "memory_read" "MEMORY_READ" cancellation None) ;;
       ret (inr result)
     else
       result <- lift (completed_after_cancel_result ctx "memory_read" "MEMORY_READ"
                         (memory_summary request frame_count) cancellation
                         (words_details words) None) ;;
       ret (inr result))
    (λ log' r _, loop_ends r (log ++ log')) w.
Proof using.
  intros Hf Hle. issues_step. issues_step.
  destruct (memory_cancellation_info request (zlen words)) as [info|e].
  2:{ rewrite app_nil_r. apply (stopped_here _ words); auto with py. }
  destruct (zlen words <? count) eqn:Elt; repeat issues_step.
  - destruct (cancelled_result _ _ _ _ _) as [result|e] eqn:Er.
    + issues_step. rewrite app_nil_r. apply (stopped_here _ words); [done..|].
      rewrite <- Er. auto with py.
    + rewrite app_nil_r. apply (stopped_here _ words); auto with py.
  - edestruct completed_ok as (result & -> & Hok & _ & Hd). issues_step. rewrite app_nil_r.
    apply (memory_done _ _ _ log words); [done|lia|done|done].
Qed.

Lemma memory_loop_calls index log words w :
  0 <= index → zlen words = Z.min (index * capacity) count → frames_read capacity start log words →
  issues iterations ctx
    (memory_loop iterations ctx request capacity frame_count (zrange index frame_count) words
       (start + zlen words))
    (λ log' r _, loop_ends r (log ++ log')) w.
Proof using Hcount Hcapacity.
  intros Hi. remember (Z.to_nat (frame_count - index)) as n eqn:Hn.
  revert index log words w Hi Hn. induction n as [|n IH]; intros index log words w Hi Hn Hw Hf.
  - rewrite zrange_step. replace (index <? frame_count) with false by lia. cbn [memory_loop].
    issues_step. rewrite app_nil_r. split; [done|].
    assert (¬ index * capacity < count) by (rewrite <- frame_count_spec; lia). lia.
  - rewrite zrange_step. replace (index <? frame_count) with true by lia. cbn [memory_loop].
    assert (index * capacity < count) as Hlt by (rewrite <- frame_count_spec; lia).
    issues_step. apply issues_send.
    { intros e _. rewrite app_nil_r. apply (stopped_here _ words); [done|lia|auto with py]. }
    intros payload command answer client Hp _ _.
    assert (call_is (memory_read, memory_read_payload (start + zlen words)
      (Z.min capacity (count - zlen words))) (mkCall memory_read payload answer)) as Hcall by done.
    assert (frame_failed capacity start count words (mkCall memory_read payload answer)) as Hfail.
    { exists (Z.min capacity (count - zlen words)). split; [lia|]. split; [lia|done]. }
    destruct answer as [words'|e]; [|apply (stopped_by _ words); [done|lia|done]].
    issues_step. issues_step.
    destruct (check_memory_response _ _ _ _ _ _) as [data|e] eqn:Ec.
    2:{ apply (stopped_by _ words); [done|lia|done]. }
    apply check_memory_response_ok in Ec as (Hd & Hfit & Hdata).
    specialize (Hdata (mkCall memory_read payload (Ok words')) eq_refl).
    rewrite <- Hd in Hcall. rewrite <- Hd.
    assert (frames_read capacity start (log ++ [mkCall memory_read payload (Ok words')])
      (words ++ data)) as Hf'.
    { apply frames_snoc; [done|done|lia|done]. }
    assert (zlen (words ++ data) = Z.min ((index + 1) * capacity) count) as Hw'
      by (rewrite zlen_app; nia).
    issues_step. issues_step. issues_step. issues_step. case_match.
    + eapply issues_conseq; [apply (cancelled_read _ _ _ Hf'); lia|].
      intros log' r w' _. simpl. by rewrite <- app_assoc.
    + rewrite <- Z.add_assoc, <- zlen_app.
      eapply issues_conseq; [apply (IH (index + 1) _ _ _ ltac:(lia) ltac:(lia) Hw' Hf')|].
      intros log' r w' _. simpl. by rewrite <- app_assoc.
Qed.
End memory.

Section operation.
Context {T : Type} `{ByteTransport T}.
Context (iterations : Z → nat) (ctx : OperationContext).

(** How many words a frame holds; nothing is read without the preflight. *)
Definition frame_capacity (c : BootProtocolClient T) : Z :=
  match memory_preflight ctx c with
  | Ok max_payload_words => Z.min 0xFFFF (max_payload_words - 3)
  | Raise _ => 1
  end.

Lemma memory_preflight_ok (c : BootProtocolClient T) max : memory_preflight ctx c = Ok max → 4 <= max.
Proof. unfold memory_preflight. intros. repeat case_match; simplify_eq. lia. Qed.

Lemma memory_calls request (w : World T) :
  MemoryReadRequest_post_init request = Ok request →
  issues iterations ctx (memory_read_op iterations ctx request)
    (λ log r _, memory_ends (frame_capacity (ow_client w)) (rq_start_address request)
                  (rq_word_count request) log r) w.
Proof.
  intros Hrequest. assert (0 < rq_word_count request) as Hpos.
  { unfold MemoryReadRequest_post_init in Hrequest. repeat case_match; simplify_eq. lia. }
  unfold memory_read_op. apply try_calls; [intros; by eapply ends_raise|].
  assert (∀ c r, not_ok r → memory_ends c (rq_start_address request)
    (rq_word_count request) [] r) as Hnone.
  { intros. eapply stopped_here; [constructor|rewrite zlen_nil; lia|done]. }
  issues_step. issues_step. issues_step. issues_step. unfold frame_capacity.
  destruct (memory_preflight ctx (ow_client w)) as [max|e] eqn:Ep; [|auto with py].
  apply memory_preflight_ok in Ep.
  issues_step. issues_step. case_match.
  { issues_step. issues_step. case_match; [issues_step|]; apply Hnone; auto with py. }
  set (capacity := Z.min 0xFFFF (max - 3)).
  set (count := (rq_word_count request + capacity - 1) / capacity).
  issues_step.
  replace (rq_start_address request) with (rq_start_address request + zlen (@nil Z)) at 1
    by (rewrite zlen_nil; lia).
  eapply issues_conseq.
  { apply (memory_loop_calls iterations ctx request capacity count ltac:(lia) eq_refl 0 [] []).
    - lia.
    - rewrite zlen_nil. lia.
    - constructor. }
  intros log [[words|result]|e] w' _; simpl;
    [intros [Hf Hl]|intros Hends; issues_step; by rewrite app_nil_r|done].
  rewrite Hl, Z.eqb_refl. simpl. issues_step. rewrite app_nil_r.
  edestruct ok_result_ok as (result & -> & Hok & _ & Hd). by eapply memory_done.
Qed.
End operation.
