(* ===== verification/OperationInvariants.v ===== *)
(** The rules of [keeps], then the invariants of the client: what it writes and
    remembers, through every operation. *)

(** * Invariants of effectful computations

    [keeps J m]: the computation [m] leaves a state that satisfies [J] with a
    state that does, whether it returns or raises.  The rules follow the
    constructs of the [ST] monad; [keeps_steps] applies them. *)

From S2P Require Import Prelude.
From S2P Require Import Errors.
From S2P Require Import Constants.
From S2P Require Import Words.
From S2P Require Import Frame.
From S2P Require Import Resync.
From S2P Require Import FrameReader.
From S2P Require Import Models.
From S2P Require Import Firmware.
From S2P Require Import Packets.
From S2P Require Import ServiceImage.
From S2P Require Import Targets.
From S2P Require Import BootClient.
From S2P Require Import OperationResults.
From S2P Require Import OperationProtocol.
From S2P Require Import FlashOps.
From S2P Require Import StatusOps.
From S2P Require Import RamOps.
From S2P Require Import TransferProperties.
From S2P Require Import FlashOpsProperties.

Section keeps.
Context {S : Type} (J : S → Prop).

Definition keeps {A} (m : ST S A) : Prop := ∀ s, J s → J (m s).2.

Lemma keeps_ret {A} (a : A) : keeps (ret a).
Proof. by intros s Hs. Qed.
Lemma keeps_raise {A} e : keeps (raise e : ST S A).
Proof. by intros s Hs. Qed.
Lemma keeps_lift {A} (r : Res A) : keeps (lift r).
Proof. by intros s Hs. Qed.
Lemma keeps_get : keeps get.
Proof. by intros s Hs. Qed.
Lemma keeps_gets {A} (f : S → A) : keeps (gets f).
Proof. by intros s Hs. Qed.
Lemma keeps_modify f : (∀ s, J s → J (f s)) → keeps (modify f).
Proof. intros Hf s. apply Hf. Qed.

Lemma keeps_bind {A B} (m : ST S A) (k : A → ST S B) :
  keeps m → (∀ a, keeps (k a)) → keeps (bind m k).
Proof.
  intros Hm Hk s Hs. specialize (Hm s Hs). unfold bind. destruct (m s) as [[a|e] s']; [|done].
  by apply Hk.
Qed.

(** What is known of the value that is bound. *)
Lemma keeps_bind_lift {A B} (r : Res A) (k : A → ST S B) :
  (∀ a, r = Ok a → keeps (k a)) → keeps (bind (lift r) k).
Proof. intros Hk s Hs. unfold bind, lift. destruct r; [by apply Hk|done]. Qed.

Lemma keeps_bind_get {B} (k : S → ST S B) :
  (∀ s, J s → keeps (k s)) → keeps (bind get k).
Proof. intros Hk s Hs. by apply Hk. Qed.

Lemma keeps_bind_gets {A B} (f : S → A) (k : A → ST S B) :
  (∀ s, J s → keeps (k (f s))) → keeps (bind (gets f) k).
Proof. intros Hk s Hs. by apply Hk. Qed.

Lemma keeps_catch {A} (m : ST S A) (h : Exn → ST S A) :
  keeps m → (∀ e, keeps (h e)) → keeps (catch m h).
Proof.
  intros Hm Hh s Hs. specialize (Hm s Hs). unfold catch. destruct (m s) as [[a|e] s']; [done|].
  by apply Hh.
Qed.

Lemma keeps_if {A} (b : bool) (m1 m2 : ST S A) :
  (b = true → keeps m1) → (b = false → keeps m2) → keeps (if b then m1 else m2).
Proof. destruct b; auto. Qed.

(** A result that comes with the invariant of the last state. *)
Lemma keeps_run {A} (m : ST S A) s r s' : keeps m → J s → m s = (r, s') → J s'.
Proof. intros Hm Hs E. specialize (Hm s Hs). by rewrite E in Hm. Qed.
End keeps.

Create HintDb keeps.
#[export] Hint Resolve keeps_ret keeps_raise keeps_lift keeps_get keeps_gets : keeps.

Ltac keeps_step :=
  lazymatch goal with
  | |- keeps _ (ret _) => apply keeps_ret
  | |- keeps _ (raise _) => apply keeps_raise
  | |- keeps _ (lift _) => apply keeps_lift
  | |- keeps _ get => apply keeps_get
  | |- keeps _ (gets _) => apply keeps_gets
  | |- keeps _ (modify _) => apply keeps_modify
  | |- keeps _ (bind (lift _) _) => apply keeps_bind_lift; intros ? ?
  | |- keeps _ (bind get _) => apply keeps_bind_get; intros ? ?
  | |- keeps _ (bind (gets _) _) => apply keeps_bind_gets; intros ? ?
  | |- keeps _ (bind _ _) => apply keeps_bind; [|intros ?]
  | |- keeps _ (catch _ _) => apply keeps_catch; [|intros ?]
  | |- keeps _ (if _ then _ else _) => apply keeps_if; intros ?
  | |- keeps _ (match ?x with _ => _ end) => destruct x
  | |- keeps _ (let '(_, _) := ?x in _) => destruct x
  end; cbn beta.
Ltac keeps_steps := repeat keeps_step.

(** * What the client writes and remembers

    [bc_transact] over a transport that records its writes, and the
    invariants of the client that hold whatever the transport does.  [keeps J
    m] says that an operation leaves a client that satisfies [J] with one that
    does; every operation keeps what its commands keep. *)

(** ** A transport that records its writes *)

Record Logged (T : Type) : Type := mkLogged {
  lg_transport : T;
  lg_written : list (list Z);
}.
Arguments mkLogged {T}.
Arguments lg_transport {T}.
Arguments lg_written {T}.

Definition on_transport {T A} (m : ST T A) : ST (Logged T) A :=
  λ l, let '(r, t) := m (lg_transport l) in (r, mkLogged t (lg_written l)).

#[export] Instance Logged_transport {T} `{ByteTransport T} : ByteTransport (Logged T) := {
  tr_open cancelled := on_transport (tr_open cancelled);
  tr_close := on_transport tr_close;
  tr_write_all data := λ l,
    let '(r, t) := tr_write_all data (lg_transport l) in
    (r, mkLogged t (lg_written l ++ [data]));
  tr_read_some n := on_transport (tr_read_some n);
}.

(** Bytes of a request frame that a device decodes when its payload limit is
    [max]. *)
Definition request_bytes (max : Z) (bytes : list Z) : Prop :=
  ∃ frame words, decode_frame words max = Ok frame ∧
    words_to_little_endian_bytes words = Ok bytes ∧
    fr_packet_type frame = PacketType.REQUEST.

Lemma Frame_request_bytes command sequence payload max frame bytes :
  Frame_init PacketType.REQUEST command sequence payload 0 0 PROTOCOL_VERSION = Ok frame →
  encode_bytes frame = Ok bytes → zlen payload <= max → request_bytes max bytes.
Proof.
  intros Hf He Hl. apply Frame_init_ok in Hf as [-> Hf].
  unfold encode_bytes in He. destruct (encode_words _) as [words|] eqn:Ew; [|done].
  exists (mkFrame PacketType.REQUEST command sequence payload 0 0 PROTOCOL_VERSION), words.
  split_and!; [|done|done]. by apply decode_frame_ok.
Qed.

(** ** The client's state through a transaction *)

Section client.
Context {T : Type} `{ByteTransport T}.
Context (iterations : Z → nat) (J : BootProtocolClient T → Prop).

Lemma keeps_tr {A} (m : ST T A) :
  (∀ c, J c → J (bc_set_transport (m (bc_transport c)).2 c)) → keeps J (tr m).
Proof.
  intros Hm c Hc. specialize (Hm c Hc). unfold tr. by destruct (m (bc_transport c)) as [r t].
Qed.

Hypothesis Hread : ∀ c n, J c → J (bc_set_transport (tr_read_some n (bc_transport c)).2 c).
Hypothesis Hbuffer : ∀ c v, J c → J (bc_set_buffer v c).

Lemma keeps_read_frame timeout max : keeps J (bc_read_frame iterations timeout max).
Proof using Hread Hbuffer.
  unfold bc_read_frame. keeps_step; [apply keeps_raise|].
  induction (iterations timeout) as [|n IH]; simpl; keeps_step.
  - apply keeps_tr. intros c. apply Hread.
  - destruct a; [done|]. keeps_step. destruct (extract_one _ _); keeps_steps; auto.
Qed.

(** A command keeps [J] when writing the request and setting the sequence
    do, and caching its answer does. *)
Lemma keeps_transact command payload timeout :
  (∀ c max sequence frame bytes, J c →
     payload_limit c command = Ok max → zlen payload <= max →
     Frame_init PacketType.REQUEST command sequence payload 0 0 PROTOCOL_VERSION = Ok frame →
     encode_bytes frame = Ok bytes →
     J (bc_set_transport (tr_write_all bytes (bc_transport c)).2 c)) →
  (∀ c p v, next_sequence p = Ok v → J c → J (bc_set_sequence v c)) →
  (∀ data, keeps J (cache_capability command data)) →
  keeps J (bc_transact iterations command payload timeout).
Proof using Hread Hbuffer.
  intros Hwrite Hsequence Hcache. unfold bc_transact. intros c Hc.
  unfold bind at 1, get. cbn beta iota.
  unfold bind at 1, lift at 1. destruct (payload_limit c command) as [max|] eqn:El; [|done].
  destruct (zlen payload >? max) eqn:Ez; [done|].
  unfold bind at 1, lift at 1. destruct (next_sequence _) as [sequence|] eqn:Es; [|done].
  unfold bind at 1, lift at 1. destruct (Frame_init _ _ _ _ _ _ _) as [frame|] eqn:Ef; [|done].
  unfold bind at 1, lift at 1. destruct (encode_bytes frame) as [bytes|] eqn:Eb; [|done].
  unfold bind at 1, tr. pose proof (Hwrite c max sequence frame bytes Hc El ltac:(lia) Ef Eb) as Hw.
  destruct (tr_write_all bytes (bc_transport c)) as [[u|e] t]; [|done]. simpl in Hw.
  revert Hw. generalize (bc_set_transport t c). change (keeps J (
    modify (bc_set_sequence sequence) ;;;
    response <- catch (bc_read_frame iterations (effective_timeout timeout command) max)
      (λ e, if isinstance e FrameError
            then raise (Err ProtocolDecodeError (exn_str e)) else raise e) ;;
    data <- lift (check_response frame response) ;; cache_capability command data ;;; ret data)).
  keeps_steps; try apply keeps_read_frame; eauto.
Qed.
End client.

(** ** Well-formed clients *)

(** What the client has cached passed its checks, and the two capability
    records speak the same protocol version. *)
Record client_ok {T} (c : BootProtocolClient T) : Prop := {
  cl_sequence : 0 <= bc_sequence c <= 0xFFFF;
  cl_device d : bc_device_info c = Some d → DeviceInfo_ok d;
  cl_protocol p : bc_protocol_info c = Some p → ∃ words, ProtocolInfo_from_words words = Ok p;
  cl_versions d p : bc_device_info c = Some d → bc_protocol_info c = Some p →
    di_protocol_ver d = pi_protocol_ver p;
}.

(** The device the client talks to, once it knows it *)
Definition identity_of {T} (c : BootProtocolClient T) : option (Z * Z) :=
  (λ d, (di_device_id d, di_cpu_id d)) <$> bc_device_info c.

(** The identity may become known but never changes. *)
Definition identity_kept {T} (known : option (Z * Z)) (c : BootProtocolClient T) : Prop :=
  match known with Some i => identity_of c = Some i | None => True end.

Definition session_ok {T} (known : option (Z * Z)) (c : BootProtocolClient T) : Prop :=
  client_ok c ∧ identity_kept known c.

Lemma client_sequence_range p v : next_sequence p = Ok v → 0 <= v <= 0xFFFF.
Proof. unfold next_sequence. intros. case_match; [done|]. case_match; simplify_eq; lia. Qed.

Lemma as_decode_error_ok {A} (r : Res A) a : as_decode_error r = Ok a → r = Ok a.
Proof. unfold as_decode_error. by repeat case_match. Qed.

Lemma DeviceInfo_from_words_ok words d : DeviceInfo_from_words words = Ok d → DeviceInfo_ok d.
Proof.
  unfold DeviceInfo_from_words. intros Hd. destruct (check_words _ _ _); [|done].
  by apply DeviceInfo_post_init_ok in Hd as [-> Hd].
Qed.

Section session.
Context {T : Type} `{ByteTransport T}.
Context (known : option (Z * Z)).

Lemma session_cache_device payload info (c : BootProtocolClient T) :
  session_ok known c → cache_device_info payload c = Ok info →
  session_ok known (bc_set_device_info (Some info) c).
Proof using.
  intros [[Hs Hd Hp Hv] Hk] Hinfo. unfold cache_device_info in Hinfo.
  destruct (DeviceInfo_from_words payload) as [d|] eqn:Ed; [|done].
  apply DeviceInfo_from_words_ok in Ed. case_match eqn:Ei; [done|]. case_match eqn:Ev; simplify_eq.
  split; [split; simpl; [done|by intros ? [= <-]|done|]|].
  - intros d p [= <-] Hpi. rewrite Hpi in Ev. lia.
  - unfold identity_kept, identity_of in *. destruct known as [i|]; [|done]. simpl.
    destruct (bc_device_info c) as [d|]; [|done]. simpl in Hk. simplify_eq.
    do 2 f_equal; lia.
Qed.

Lemma session_cache_protocol payload info (c : BootProtocolClient T) :
  session_ok known c → cache_protocol_info payload c = Ok info →
  session_ok known (bc_set_protocol_info (Some info) c).
Proof using.
  intros [[Hs Hd Hp Hv] Hk] Hinfo. unfold cache_protocol_info in Hinfo.
  destruct (ProtocolInfo_from_words payload) as [p|] eqn:Ep; [|done].
  case_match eqn:Ev; simplify_eq.
  split; [split; simpl; [done|done|intros ? [= <-]; eauto|]|done].
  intros d p Hdi [= <-]. rewrite Hdi in Ev. lia.
Qed.

Lemma session_transact iterations command payload timeout :
  keeps (session_ok (T := T) known) (bc_transact iterations command payload timeout).
Proof using.
  apply keeps_transact.
  - by intros c n [[] Hk].
  - by intros c v [[] Hk].
  - by intros c max sequence frame bytes [[] Hk] _ _ _ _.
  - intros c p v Hv [[Hs Hd Hp Hvs] Hk]. apply client_sequence_range in Hv.
    split; [|done]. by split.
  - intros data. unfold cache_capability. intros c Hc. unfold bind at 1, get. cbn beta iota.
    case_match; [|case_match; [|done]].
    + unfold bind, lift. destruct (as_decode_error _) as [info|] eqn:Ei; [|done].
      apply as_decode_error_ok in Ei. by eapply session_cache_device.
    + unfold bind, lift. destruct (as_decode_error _) as [info|] eqn:Ei; [|done].
      apply as_decode_error_ok in Ei. by eapply session_cache_protocol.
Qed.
End session.

(** * Invariants of the client under the operations

    An invariant of the client that every command of an operation keeps is
    kept by the operation.  The commands are given by a predicate [ok] on
    fields and payloads: small payloads of the fields in use, and DATA payloads
    within the negotiated size. *)

(** Sizes of service packets *)
Lemma service_packets_sizes address index raws max :
  Forall (λ raw, zlen raw <= max) raws →
  Forall (λ p, zlen (sp_words p) <= max) (service_packets address index raws).
Proof.
  intros Hraws. revert address index.
  induction Hraws; intros address index; simpl; constructor; auto.
Qed.

Lemma chunks_sizes fuel max ws : Forall (λ raw, zlen raw <= Z.of_nat max) (chunks fuel max ws).
Proof.
  revert ws. induction fuel as [|fuel IH]; intros [|w ws]; simpl; try constructor; [|apply IH].
  rewrite zlen_take. lia.
Qed.

Lemma service_packets_blocks_sizes index max blocks :
  0 < max → Forall (λ p, zlen (sp_words p) <= max) (service_packets_blocks index max blocks).
Proof.
  intros Hmax. revert index. induction blocks as [|b bs IH]; intros index; simpl; [done|].
  apply Forall_app. split; [|apply IH]. apply service_packets_sizes.
  eapply Forall_impl; [apply chunks_sizes|]. simpl. lia.
Qed.

Lemma prepare_service_packets_sizes image max packets :
  prepare_service_ram_packets image max = Ok packets → Forall (λ p, zlen (sp_words p) <= max) packets.
Proof.
  unfold prepare_service_ram_packets. intros Hp. repeat case_match; simplify_eq.
  apply service_packets_blocks_sizes. lia.
Qed.

(** Sizes of RAM packets *)
Lemma ram_packets_sizes address index raws max :
  Forall (λ raw, zlen raw <= max) raws →
  Forall (λ p, zlen (dp_words p) <= max) (ram_packets address index raws).
Proof.
  intros Hraws. revert address index.
  induction Hraws; intros address index; simpl; constructor; auto.
Qed.

Lemma ram_packets_blocks_sizes index max blocks :
  Forall (λ p, zlen (dp_words p) <= Z.max 0 max) (ram_packets_blocks index max blocks).
Proof.
  revert index. induction blocks as [|b bs IH]; intros index; simpl; [done|].
  apply Forall_app. split; [|apply IH]. apply ram_packets_sizes.
  eapply Forall_impl; [apply chunks_sizes|]. simpl. lia.
Qed.

Lemma prepare_ram_packets_sizes image max packets :
  prepare_ram_packets image max = Ok packets →
  Forall (λ p, zlen (dp_words p) <= Z.max 0 max) packets.
Proof.
  unfold prepare_ram_packets. intros Hp. destruct (merge_contiguous _); [|done].
  case_match; simplify_eq. apply ram_packets_blocks_sizes.
Qed.

(** The commands whose answers the client caches *)
Definition reads_info (field : CommandField) : bool :=
  match field with get_device_info | get_protocol_info => true | _ => false end.

Section invariants.
Context {T : Type} `{ByteTransport T}.
Context (iterations : Z → nat) (ctx : OperationContext).
Context (J : BootProtocolClient T → Prop) (ok : CommandField → list Z → Prop).

Abbreviation W := (λ w, J (ow_client w)).

Lemma keeps_emit event : keeps W (emit_progress ctx event).
Proof using. unfold emit_progress. by destruct (cx_progress ctx); intros w Hw. Qed.

Lemma keeps_asked : keeps W (operation_cancellation_requested ctx).
Proof using. unfold operation_cancellation_requested. by destruct (cx_cancellation ctx); intros w Hw. Qed.

Lemma keeps_outcome {A} (m : ST (World T) A) : keeps W m → keeps W (outcome_of m).
Proof using. intros Hm w Hw. specialize (Hm w Hw). unfold outcome_of. by destruct (m w). Qed.

Lemma keeps_client {A} (m : ST (BootProtocolClient T) A) : keeps J m → keeps W (client m).
Proof using.
  intros Hm w Hw. specialize (Hm _ Hw). unfold client. by destruct (m (ow_client w)) as [r c].
Qed.

Lemma keeps_try operation stage (m : ST (World T) OperationResult) :
  keeps W m → keeps W (try_operation ctx operation stage m).
Proof using. intros Hm. apply keeps_catch; [done|]. intros e. apply keeps_lift. Qed.

Hypothesis Hok : ∀ field words command,
  ok field words → require_command (tp_command_set (cx_target ctx)) field = Ok command →
  keeps J (bc_transact iterations command words (timeout_of command)).

Lemma keeps_op_transact field words :
  ok field words → keeps W (op_transact iterations ctx field words).
Proof using Hok.
  intros Hf. unfold op_transact. keeps_step. apply keeps_client. by eapply Hok.
Qed.

Lemma keeps_send field payload :
  (∀ words, payload = Ok words → ok field words) → keeps W (send_command iterations ctx field payload).
Proof using Hok. intros Hp. unfold send_command. keeps_step. by apply keeps_op_transact, Hp. Qed.

(** ** Transfers *)

Lemma keeps_transfer {P} (t : Transfer (T := T) P) :
  keeps W (tf_send_begin t) → Forall (λ p, keeps W (tf_send_data t p)) (tf_packets t) →
  keeps W (tf_send_end t) → keeps W (run_cancellable_transfer ctx t).
Proof using.
  intros Hbegin Hdata Hend.
  assert (∀ sp sw cancel, keeps W (transfer_loop ctx t (tf_packets t) sp sw cancel)) as Hloop.
  { induction Hdata as [|p ps Hp _ IH]; intros sp sw cancel; simpl; [apply keeps_ret|].
    keeps_step; [apply keeps_ret|]. keeps_step; [done|]. keeps_step; [apply keeps_emit|].
    keeps_step; [apply keeps_asked|apply IH]. }
  unfold run_cancellable_transfer. keeps_step; [apply keeps_asked|].
  keeps_step; [keeps_steps|]. keeps_step; [done|]. keeps_step; [apply keeps_asked|].
  keeps_step; [apply Hloop|]. destruct a2 as [[sp sw] cancel].
  keeps_step.
  - keeps_step; [by apply keeps_outcome|]. keeps_steps.
  - keeps_step; [done|]. keeps_step; [keeps_step; [apply keeps_ret|apply keeps_asked]|]. keeps_steps.
Qed.

(** ** Lengths of payloads *)

Hypothesis Hsmall : ∀ field words, reads_info field = false → zlen words <= 9 → ok field words.
Hypothesis Hdata : ∀ c max field words, reads_info field = false →
  J c → effective_max_data_words c = Ok max → zlen words <= 5 + max → ok field words.

Ltac payload_length := intros ? Hwords; apply Hsmall; [done|]; revert Hwords;
  cbv [begin_words end_words erase_payload ram_check_crc_payload service_attach_payload
       memory_read_payload];
  repeat case_match; intros; simplify_eq; zlen_lia.

Lemma keeps_begin field target packet_count total_words entry_point image_crc32 :
  reads_info field = false →
  keeps W (begin_protocol iterations ctx field target packet_count total_words entry_point image_crc32).
Proof using Hok Hsmall. intros Hf. apply keeps_send. payload_length. Qed.

Lemma keeps_end field packet_count total_words image_crc32 :
  reads_info field = false →
  keeps W (end_protocol iterations ctx field packet_count total_words image_crc32).
Proof using Hok Hsmall. intros Hf. apply keeps_send. payload_length. Qed.

Lemma data_words_length address words index payload :
  data_words address words index = Ok payload → zlen payload = 5 + zlen words.
Proof using. unfold data_words. intros. repeat case_match; simplify_eq. zlen_lia. Qed.

Lemma keeps_data field address words index c max :
  reads_info field = false → J c → effective_max_data_words c = Ok max → zlen words <= max →
  keeps W (data_protocol iterations ctx field address words index).
Proof using Hok Hdata.
  intros Hf Hc Hm Hl. apply keeps_send. intros payload Hp. apply data_words_length in Hp.
  eapply Hdata; [done..|lia].
Qed.

(** ** Operations *)

Ltac op_step :=
  lazymatch goal with
  | |- keeps _ (try_operation _ _ _ _) => apply keeps_try
  | |- keeps _ (emit_progress _ _) => apply keeps_emit
  | |- keeps _ (operation_cancellation_requested _) => apply keeps_asked
  | |- keeps _ (op_transact _ _ _ []) => apply keeps_op_transact, Hsmall; [done|zlen_lia]
  | |- keeps _ (begin_protocol _ _ _ _ _ _ _ _) => by apply keeps_begin
  | |- keeps _ (end_protocol _ _ _ _ _ _) => by apply keeps_end
  | |- keeps _ (send_command _ _ _ _) => apply keeps_send; payload_length
  | |- _ => keeps_step
  end.
Ltac op_steps := repeat op_step.

Lemma keeps_read_status : keeps W (read_status iterations ctx).
Proof using Hok Hsmall. unfold read_status. op_steps. Qed.

Lemma keeps_attach total : keeps W (attach_loaded_service iterations ctx total).
Proof using Hok Hsmall.
  unfold attach_loaded_service, ram_check_crc_protocol.
  repeat first [apply keeps_read_status | op_step].
Qed.

Lemma keeps_load_service : keeps W (load_service iterations ctx).
Proof using Hok Hsmall Hdata.
  unfold load_service. keeps_step. keeps_step. keeps_step.
  assert (Forall (λ p, zlen (sp_words p) <= a) a0) as Hsizes
    by by eapply prepare_service_packets_sizes.
  keeps_step.
  - apply keeps_transfer; simpl.
    + unfold ram_load_begin_protocol. op_steps.
    + eapply Forall_impl; [done|]. simpl. intros p Hp. unfold ram_load_data_protocol.
      keeps_step; [by eapply keeps_data|apply keeps_ret].
    + unfold ram_load_end_protocol. op_steps.
  - keeps_step; [keeps_steps|apply keeps_attach].
Qed.

Lemma keeps_ensure_service : keeps W (ensure_service_attached iterations ctx).
Proof using Hok Hsmall Hdata.
  unfold ensure_service_attached.
  repeat first [apply keeps_read_status | apply keeps_load_service | op_step].
Qed.

Lemma effective_write_max (c : BootProtocolClient T) max :
  effective_max_write_data_words c = Ok max →
  ∃ data, effective_max_data_words c = Ok data ∧ max <= data.
Proof using.
  unfold effective_max_write_data_words. intros Hm.
  destruct (effective_max_data_words c) as [data|]; [|done]. case_match; simplify_eq.
  exists data. split; [done|].
  pose proof (Z.mod_pos_bound data WRITE_DATA_ALIGNMENT_WORDS). unfold WRITE_DATA_ALIGNMENT_WORDS in *.
  lia.
Qed.

Lemma keeps_upload operation verify image :
  keeps W (flash_image_operation iterations ctx operation verify image).
Proof using Hok Hsmall Hdata.
  unfold flash_image_operation. op_step. op_step; [apply keeps_asked|]. op_step; [apply keeps_lift|].
  op_step. op_step. op_step; [apply keeps_ensure_service|]. op_step; [|apply keeps_lift].
  op_step; [|apply keeps_lift]. unfold transfer_image. op_step.
  match goal with H : effective_max_write_data_words _ = Ok _ |- _ =>
    apply effective_write_max in H as (data & Hmax & Hle) end.
  match goal with H : prepare_packets _ _ = Ok ?ps |- _ =>
    assert (Forall (λ p, zlen (dp_words p) <= data) ps) as Hsizes
      by (eapply Forall_impl; [by eapply prepare_packets_sizes|]; simpl; lia) end.
  apply keeps_transfer.
  - destruct verify; simpl; unfold verify_begin_protocol, program_begin_protocol; op_steps.
  - eapply Forall_impl; [done|]. intros p Hp.
    destruct verify; simpl; unfold verify_data_protocol, program_data_protocol;
      (keeps_step; [by eapply keeps_data|apply keeps_ret]).
  - destruct verify; simpl; unfold verify_end_protocol, program_end_protocol; op_steps.
Qed.

Lemma effective_data_positive (c : BootProtocolClient T) max :
  effective_max_data_words c = Ok max → 0 < max.
Proof using. unfold effective_max_data_words. intros. repeat case_match; simplify_eq. lia. Qed.

Lemma keeps_erase_finished operation summary details service :
  keeps W (erase_finished ctx operation summary details service).
Proof using. unfold erase_finished. op_steps. Qed.

Lemma keeps_erase_progress flash operation selected completed total chunk :
  keeps W (erase_progress ctx flash operation selected completed total chunk).
Proof using. unfold erase_progress. op_steps. Qed.

Lemma keeps_erase mask : keeps W (erase_protocol iterations ctx mask).
Proof using Hok Hsmall. unfold erase_protocol. op_steps. Qed.

Lemma keeps_erase_area image : keeps W (erase_flash_image_area iterations ctx image).
Proof using Hok Hsmall Hdata.
  unfold erase_flash_image_area.
  repeat first [apply keeps_ensure_service | apply keeps_erase_finished | apply keeps_erase_progress
               | apply keeps_erase | op_step].
Qed.

Lemma keeps_erase_mask mask : keeps W (erase_sector_mask iterations ctx mask).
Proof using Hok Hsmall Hdata.
  unfold erase_sector_mask.
  repeat first [apply keeps_ensure_service | apply keeps_erase_finished | apply keeps_erase_progress
               | apply keeps_erase | op_step].
Qed.

Lemma keeps_one_command operation stage field payload summary :
  (∀ words, payload = Ok words → ok field words) → (∀ words, keeps W (summary words)) →
  keeps W (one_command iterations ctx operation stage field payload summary).
Proof using Hok.
  intros Hp Hs. unfold one_command. op_step. keeps_step; [by apply keeps_send|].
  keeps_step; [apply Hs|apply keeps_lift].
Qed.

Lemma keeps_memory_loop request capacity count frames words address :
  keeps W (memory_loop iterations ctx request capacity count frames words address).
Proof using Hok Hsmall.
  revert words address. induction frames as [|f fs IH]; intros words address; cbn [memory_loop];
    [apply keeps_ret|].
  repeat first [apply IH | op_step].
Qed.

Lemma keeps_memory_read request : keeps W (memory_read_op iterations ctx request).
Proof using Hok Hsmall.
  unfold memory_read_op. repeat first [apply keeps_memory_loop | op_step].
Qed.

Lemma keeps_load_ram image : keeps W (load_ram_image iterations ctx image).
Proof using Hok Hsmall Hdata.
  unfold load_ram_image. op_step. op_step. op_step. op_step. op_step.
  keeps_step; [|apply keeps_lift]. apply keeps_transfer; simpl.
  - unfold ram_load_begin_protocol. op_steps.
  - eapply Forall_impl; [by eapply prepare_ram_packets_sizes|]. simpl. intros p Hp.
    match goal with H : effective_max_data_words _ = Ok _ |- _ =>
      pose proof (effective_data_positive _ _ H) end.
    unfold ram_load_data_protocol. keeps_step; [|apply keeps_ret].
    eapply keeps_data; [done..|]. lia.
  - unfold ram_load_end_protocol. op_steps.
Qed.

Lemma keeps_check_ram image : keeps W (check_ram_crc_op iterations ctx image).
Proof using Hok Hsmall. unfold check_ram_crc_op, ram_check_crc_protocol. op_steps. Qed.

Lemma keeps_attach_service : keeps W (attach_flash_service iterations ctx).
Proof using Hok Hsmall Hdata.
  unfold attach_flash_service. repeat first [apply keeps_ensure_service | op_step].
Qed.

Lemma keeps_finished operation stage summary service :
  keeps W (finished_result ctx operation stage summary service).
Proof using. unfold finished_result. op_steps. Qed.

Lemma keeps_append operation record_type refusal append :
  (∀ current, keeps W (append current)) →
  keeps W (append_operation iterations ctx operation record_type refusal append).
Proof using Hok Hsmall Hdata.
  intros Happend. unfold append_operation, read_metadata_summary, business_result, written_result,
    emit_append_progress.
  repeat first [apply Happend | apply keeps_ensure_service | apply keeps_finished | op_step].
Qed.
End invariants.

(** ** The public operations *)

Inductive Operation : Type :=
| EraseFlashImageArea (image : PreparedFlashImage)
| EraseSectorMask (sector_mask : Z)
| ProgramFlashImage (image : PreparedFlashImage)
| VerifyFlashImage (image : PreparedFlashImage)
| AppendImageValid (image : PreparedFlashImage)
| AppendBootAttempt
| AppendAppConfirmed
| LoadRamImage (image : PreparedRamImage)
| CheckRamCrc (image : PreparedRamImage)
| MemoryRead (request : MemoryReadRequest)
| AttachFlashService
| GetServiceStatus
| GetDeviceInfo
| GetProtocolInfo
| GetLastError
| GetMetadataSummary
| Ping
| RunFlashApp (entry_point : Z)
| RunRamImage (entry_point : Z)
| ResetTarget
| BootCpu2RunCpu1
| BootCpu2ResetCpu1.

Section operation.
Context {T : Type} `{ByteTransport T}.
Context (iterations : Z → nat) (ctx : OperationContext).

Definition run_operation (operation : Operation) : ST (World T) OperationResult :=
  match operation with
  | EraseFlashImageArea image => erase_flash_image_area iterations ctx image
  | EraseSectorMask mask => erase_sector_mask iterations ctx mask
  | ProgramFlashImage image => program_flash_image iterations ctx image
  | VerifyFlashImage image => verify_flash_image iterations ctx image
  | AppendImageValid image => append_image_valid iterations ctx image
  | AppendBootAttempt => append_boot_attempt iterations ctx
  | AppendAppConfirmed => append_app_confirmed iterations ctx
  | LoadRamImage image => load_ram_image iterations ctx image
  | CheckRamCrc image => check_ram_crc_op iterations ctx image
  | MemoryRead request => memory_read_op iterations ctx request
  | AttachFlashService => attach_flash_service iterations ctx
  | GetServiceStatus => get_service_status_op iterations ctx
  | GetDeviceInfo => get_device_info_op iterations ctx
  | GetProtocolInfo => get_protocol_info_op iterations ctx
  | GetLastError => get_last_error_op iterations ctx
  | GetMetadataSummary => get_metadata_summary_op iterations ctx
  | Ping => ping_op iterations ctx
  | RunFlashApp entry_point => run_flash_app iterations ctx entry_point
  | RunRamImage entry_point => run_ram_image iterations ctx entry_point
  | ResetTarget => reset_target iterations ctx
  | BootCpu2RunCpu1 => boot_cpu2_run_cpu1_op iterations ctx
  | BootCpu2ResetCpu1 => boot_cpu2_reset_cpu1_op iterations ctx
  end.

(** The operations that may change the cached capabilities *)
Definition queries_info (operation : Operation) : bool :=
  match operation with GetDeviceInfo | GetProtocolInfo => true | _ => false end.

Context (J : BootProtocolClient T → Prop).

(** What the fields of an operation keep, the operation keeps. *)
Lemma keeps_operation operation :
  (∀ field command words, queries_info operation || negb (reads_info field) = true →
     require_command (tp_command_set (cx_target ctx)) field = Ok command →
     keeps J (bc_transact iterations command words (timeout_of command))) →
  keeps (λ w, J (ow_client w)) (run_operation operation).
Proof.
  intros Hcmd.
  set (ok := λ (field : CommandField) (_ : list Z),
         queries_info operation || negb (reads_info field) = true).
  assert (∀ field words command, ok field words →
    require_command (tp_command_set (cx_target ctx)) field = Ok command →
    keeps J (bc_transact iterations command words (timeout_of command))) as Hok by eauto.
  assert (∀ field words, reads_info field = false → zlen words <= 9 → ok field words) as Hsmall.
  { intros field words Hf _. unfold ok. rewrite Hf. apply orb_true_r. }
  assert (∀ c max field words, reads_info field = false → J c →
    effective_max_data_words c = Ok max → zlen words <= 5 + max → ok field words) as Hdata.
  { intros c max field words Hf _ _ _. unfold ok. rewrite Hf. apply orb_true_r. }
  assert (∀ operation stage field payload summary,
    ok field [] → (∀ words, keeps (λ w, J (ow_client w)) (summary words)) →
    keeps (λ w, J (ow_client w))
      (one_command iterations ctx operation stage field payload summary)) as Hone.
  { intros. eapply keeps_one_command; eauto. }
  destruct operation; simpl run_operation.
  all: unfold program_flash_image, verify_flash_image, append_image_valid, append_boot_attempt,
    append_app_confirmed, append_image_valid_record, append_current_image, append_record,
    get_service_status_op, get_protocol_info_op, get_last_error_op, get_metadata_summary_op,
    ping_op, run_flash_app, run_ram_image, reset_target, boot_cpu2_run_cpu1_op,
    boot_cpu2_reset_cpu1_op.
  all: try (apply Hone; [done|intros ?; keeps_steps]).
  - eapply keeps_erase_area; eauto.
  - eapply keeps_erase_mask; eauto.
  - eapply keeps_upload; eauto.
  - eapply keeps_upload; eauto.
  - eapply keeps_append; eauto. intros current. eapply keeps_send; [eauto|done].
  - eapply keeps_append; eauto. intros current. eapply keeps_send; [eauto|done].
  - eapply keeps_append; eauto. intros current. eapply keeps_send; [eauto|done].
  - eapply keeps_load_ram; eauto.
  - eapply keeps_check_ram; eauto.
  - eapply keeps_memory_read; eauto.
  - eapply keeps_attach_service; eauto.
  - unfold get_device_info_op. keeps_step; [|apply keeps_lift].
    keeps_step; [by eapply keeps_op_transact|]. keeps_steps.
Qed.
End operation.
