(* ===== verification/OperationProperties.v ===== *)
(** The answering device of the examples, then the properties of the operations. *)

(** * An answering device for the operations

    A transport that answers every request at once with the payload of
    [answer]: the device of the witnesses and examples of the operations. *)

From S2P Require Import Prelude.
From S2P Require Import Errors.
From S2P Require Import Constants.
From S2P Require Import Words.
From S2P Require Import Frame.
From S2P Require Import Models.
From S2P Require Import Firmware.
From S2P Require Import Packets.
From S2P Require Import Targets.
From S2P Require Import BootClient.
From S2P Require Import OperationResults.
From S2P Require Import OperationProtocol.
From S2P Require Import FlashOps.
From S2P Require Import StatusOps.
From S2P Require Import RamOps.
From S2P Require Import TransferProperties.
From S2P Require Import FlashOpsProperties.
From S2P Require Import OperationInvariants.

(** The bytes the device has sent and the host has not read yet *)
Record AnsweringDevice : Type := mkAnswering { an_pending : list Z }.

(** An attached service of ABI 2.0 with checksum 0x1234 and 16 words *)
Definition example_status : list Z := [2; 2; 0; 0; 0; 0xFFFF; 0; 0; 0x1234; 0; 16; 0].

(** An empty metadata journal *)
Definition example_summary : list Z :=
  replicate (Z.to_nat METADATA_SUMMARY_WORDS) 0.

(** The words of the capabilities of the session below *)
Definition example_device_words : list Z :=
  [0x377D; 1; 1; 0; 0; 1; 0xFFFF; 0; 64; 24; 0; 0; 0; 0; 0; 0].
Definition example_protocol_words : list Z := [1; 1; 1; 10; 1; 1; 64; 0].

(** The payload of the answer to a command *)
Definition answer (command : Z) (payload : list Z) : list Z :=
  if command =? Command.Command_value Command.GET_SERVICE_STATUS then example_status
  else if command =? Command.Command_value Command.MEMORY_READ
  then take 2 payload ++ [at_ payload 2] ++ replicate (Z.to_nat (at_ payload 2)) 0xABCD
  else if command =? Command.Command_value Command.GET_METADATA_SUMMARY then example_summary
  else if command =? Command.Command_value Command.GET_DEVICE_INFO then example_device_words
  else if command =? Command.Command_value Command.GET_PROTOCOL_INFO then example_protocol_words
  else [].

(** Pairs of bytes, the low byte first *)
Fixpoint bytes_words (data : list Z) : list Z :=
  match data with
  | low :: high :: data => Z.lor low (Z.shiftl high 8) :: bytes_words data
  | _ => []
  end.

Definition answer_bytes (data : list Z) : Res (list Z) :=
  let words := bytes_words data in
  let? request := decode_frame words 0xFFFF in
  let? response := Frame_init PacketType.RESPONSE (fr_command request) (fr_sequence request)
                     (answer (fr_command request) (fr_payload request)) 0 Status.OK
                     PROTOCOL_VERSION in
  encode_bytes response.

#[export] Instance Answering_transport : ByteTransport AnsweringDevice := {
  tr_open cancelled d := (Ok (mkOpenResult OPENED false "open"), d);
  tr_close d := (Ok tt, d);
  tr_write_all data d :=
    match answer_bytes data with
    | Ok bytes => (Ok tt, mkAnswering (an_pending d ++ bytes))
    | Raise e => (Raise e, d)
    end;
  tr_read_some n d :=
    (Ok (take (Z.to_nat n) (an_pending d)), mkAnswering (drop (Z.to_nat n) (an_pending d)));
}.

(** A session with the device, its capabilities known *)
Definition example_device_info : DeviceInfo :=
  mkDeviceInfo (DeviceId.DeviceId_value DeviceId.F28377D) 1 1 0 0 PROTOCOL_VERSION 0xFFFF 64 24 0 0
    0 0.
Definition example_protocol_info : ProtocolInfo :=
  mkProtocolInfo PROTOCOL_VERSION PROTOCOL_VERSION PROTOCOL_VERSION HEADER_WORDS
    CRC_TYPE_CCITT_FALSE ENDIAN_LITTLE 64 0.

Definition example_client {T} (transport : T) : BootProtocolClient T :=
  mkBootClient transport [] 0 (Some example_device_info) (Some example_protocol_info).
Definition example_world {T} (transport : T) : World T := mkWorld (example_client transport) 0 [].

Definition example_service : PreparedServiceImage :=
  mkPreparedService image_example 0x010000 16 0x1234 7.

(** A context of the CPU1 target; [cancelled n] is the answer of the token to
    its [n]th question. *)
Definition example_context (cancelled : nat → bool) : OperationContext :=
  mkContext CPU1_PROFILE true (Some cancelled) example_service false.

Definition example_image : PreparedFlashImage :=
  mkPreparedFlash image_example (mkImageIdentity 0x082400 16 0x5678 0x088008) 0x12.

Definition example_iterations (timeout_ms : Z) : nat := 3.

(** ** The operations on the device *)

(** A program operation that is not cancelled is ok. *)
Lemma example_program_ok :
  or_ok <$> match (program_flash_image example_iterations (example_context (λ _, false))
                     example_image (example_world (mkAnswering []))).1 with
            | Ok result => Some result
            | Raise _ => None
            end = Some true.
Proof. vm_compute. reflexivity. Qed.

(** Cancelled after the first of two DATA commands, it asks for an erase. *)
Lemma example_program_cancelled :
  match (program_flash_image example_iterations (example_context (λ n, (5 <=? n)%nat))
           example_image (example_world (mkAnswering []))).1 with
  | Ok result => (or_completion result, oc_current_words <$> or_cancellation result,
                  oc_recovery_action <$> or_cancellation result)
                 = (Some OperationCompletion.CANCELLED, Some 8,
                    Some "ERASE_AND_RESTART_PROGRAM"%string)
  | Raise _ => False
  end.
Proof. vm_compute. reflexivity. Qed.

(** Erasing the area of the image erases the metadata sector, then the rest. *)
Lemma example_erase_ok :
  match (erase_flash_image_area example_iterations (example_context (λ _, false))
           example_image (example_world (mkAnswering []))).1 with
  | Ok result => (or_ok result, or_summary result)
                 = (true, [("erased_masks"%string, VSeq [VInt 2; VInt 16])])
  | Raise _ => False
  end.
Proof. vm_compute. reflexivity. Qed.

(** * Properties of the operations

    The contracts of the operations over every transport, every course of the
    cancellation token and every answer of the device, and the invariants of
    the client, followed by runs on an answering device. *)

(** ** Writing within the negotiated size *)

Section wire.
Context {T : Type} `{ByteTransport T}.
Context (d : DeviceInfo) (p : ProtocolInfo) (max : Z) (written : list (list Z)).

(** The capabilities are those negotiated, and what was written since
    [written] are requests within [max]. *)
Definition wire_ok (c : BootProtocolClient (Logged T)) : Prop :=
  bc_device_info c = Some d ∧ bc_protocol_info c = Some p ∧
  ∃ sent, lg_written (bc_transport c) = written ++ sent ∧ Forall (request_bytes max) sent.

Lemma wire_transact iterations command payload timeout :
  (di_max_payload_words d `min` pi_max_payload_words p = max) →
  command <> Command.Command_value Command.GET_DEVICE_INFO →
  command <> Command.Command_value Command.GET_PROTOCOL_INFO →
  keeps wire_ok (bc_transact iterations command payload timeout).
Proof using.
  intros Hmax Hdev Hpro. apply keeps_transact.
  - intros c n (Hd & Hp & sent & Hs & Hf). unfold wire_ok. simpl. unfold on_transport.
    destruct (tr_read_some n _) as [r t]. simpl. eauto.
  - intros c v (Hd & Hp & sent & Hs & Hf). by split_and!; [..|exists sent].
  - intros c limit sequence frame bytes (Hd & Hp & sent & Hs & Hf) Hlimit Hl Hframe Hbytes.
    unfold wire_ok. simpl. destruct (tr_write_all bytes _) as [r t]. simpl.
    split_and!; [done..|]. exists (sent ++ [bytes]). rewrite Hs, <- app_assoc. split; [done|].
    apply Forall_app. split; [done|]. apply Forall_singleton.
    eapply Frame_request_bytes; [done..|].
    unfold payload_limit, effective_max_payload_words in Hlimit. rewrite Hd, Hp in Hlimit.
    case_match; simplify_eq. lia.
  - intros c q v _ (Hd & Hp & sent & Hs & Hf). by split_and!; [..|exists sent].
  - intros data. unfold cache_capability. keeps_step.
    rewrite (proj2 (Z.eqb_neq _ _) Hdev), (proj2 (Z.eqb_neq _ _) Hpro). apply keeps_ret.
Qed.
End wire.

(** The CPU1 commands that are not capability queries *)
Lemma cpu1_commands field command :
  require_command CPU1_COMMAND_SET field = Ok command → reads_info field = false →
  command <> Command.Command_value Command.GET_DEVICE_INFO ∧
  command <> Command.Command_value Command.GET_PROTOCOL_INFO.
Proof.
  intros Hc Hf. destruct field; cbn [reads_info] in Hf; try done; vm_compute in Hc; simplify_eq;
    split; vm_compute; done.
Qed.

Section properties.
Context {T : Type} `{ByteTransport T}.
Context (iterations : Z → nat) (ctx : OperationContext).

(** ** Uploads *)

(** C14: What program_flash_image and verify_flash_image did to the device, on
    every transport and for every answer of the device and of the
    cancellation token: either only the service was talked to; or an upload
    of packets that fit the negotiated DATA size was left early with an
    exception; or it was cancelled, and BEGIN, the DATA commands of a prefix
    of the packets and END were sent and the result says how many words that
    is; or the result is ok and BEGIN, every DATA command in order and END
    were all sent and acknowledged. *)
Theorem uploads_follow_script (verify : bool) image (w : World T) :
  let run := (if verify then verify_flash_image else program_flash_image) iterations ctx image w in
  ∃ log, trace iterations ctx w log run.2 ∧
    upload_ends iterations ctx verify image (effective_max_write_data_words (ow_client w)) log
      run.1.
Proof.
  pose proof (upload_calls iterations ctx verify image w) as Hcalls. by destruct verify.
Qed.

(** C15: An erase operation sends ERASE only for masks the target's layout
    allows (not zero, no forbidden sector, nothing outside the allowed mask),
    only after the device reported the expected service, the metadata sector
    before the rest of an image's area, and stops at the first failure; its
    result is ok only if every erase was acknowledged, and lists the masks. *)
Theorem erases_are_guarded image mask (w : World T) :
  (∃ log, trace iterations ctx w log (erase_flash_image_area iterations ctx image w).2 ∧
     erase_ends ctx (area_masks ctx image) log (erase_flash_image_area iterations ctx image w).1) ∧
  (∃ log, trace iterations ctx w log (erase_sector_mask iterations ctx mask w).2 ∧
     erase_ends ctx [mask] log (erase_sector_mask iterations ctx mask w).1).
Proof. split; [apply area_calls|apply sector_mask_calls]. Qed.

(** ensure_service_attached returns a summary only if its last call is a
    GET_SERVICE_STATUS that reported the expected service (attached, ABI,
    checksum, size and capabilities), and either that is its only call, with
    reuse allowed, or the complete image was loaded, checked and attached in
    between; otherwise only service commands were sent. *)
Theorem service_ready_is_attached (w : World T) :
  ∃ log, trace iterations ctx w log (ensure_service_attached iterations ctx w).2 ∧
    match (ensure_service_attached iterations ctx w).1 with
    | Ok (ServiceReady summary) => service_attached ctx log summary
    | _ => uses service_fields log
    end.
Proof.
  apply (service_calls iterations ctx (λ log r _,
    match r with
    | Ok (ServiceReady summary) => service_attached ctx log summary
    | _ => uses service_fields log
    end)); [done|]. by intros log [[s|item]|e] w'.
Qed.

(** ** Metadata *)

(** C16: The append operations write at most one record, and only when the
    metadata summary the device has just sent allows it: IMAGE_VALID into an
    empty journal, BOOT_ATTEMPT for a valid unconfirmed image below its limit
    of at most three, APP_CONFIRMED for a valid unconfirmed image with an
    attempt; the record carries the prepared image's identity or that of the
    summary.  The result is ok exactly when a record was acknowledged, or
    declined for the reason the summary gives. *)
Theorem appends_are_admitted image (w : World T) :
  (∃ log, trace iterations ctx w log (append_image_valid iterations ctx image w).2 ∧
     append_ends ctx image_valid_refusal
       (λ _, record_payload MetadataRecordType.IMAGE_VALID (ii_entry_point (pf_identity image))
               (ii_image_size_words (pf_identity image)) (ii_image_crc32 (pf_identity image))
               (ii_app_end (pf_identity image)))
       log (append_image_valid iterations ctx image w).1) ∧
  (∃ log, trace iterations ctx w log (append_boot_attempt iterations ctx w).2 ∧
     append_ends ctx boot_attempt_refusal
       (λ current, record_payload MetadataRecordType.BOOT_ATTEMPT (ms_entry_point current)
                     (ms_image_size_words current) (ms_image_crc32 current) 0)
       log (append_boot_attempt iterations ctx w).1) ∧
  (∃ log, trace iterations ctx w log (append_app_confirmed iterations ctx w).2 ∧
     append_ends ctx app_confirmed_refusal
       (λ current, record_payload MetadataRecordType.APP_CONFIRMED (ms_entry_point current)
                     (ms_image_size_words current) (ms_image_crc32 current) 0)
       log (append_app_confirmed iterations ctx w).1) ∧
  (∀ current,
     (image_valid_refusal current = None ↔
        ms_state current = 0 ∧ ms_metadata_valid current = 0 ∧ ms_valid_record_count current = 0 ∧
        ms_invalid_record_count current = 0) ∧
     (boot_attempt_refusal current = None ↔
        ms_state current = 1 ∧ ms_metadata_valid current <> 0 ∧ ms_app_confirmed current = 0 ∧
        0 < ms_boot_attempt_limit current <= 3 ∧
        ms_boot_attempt_count current < ms_boot_attempt_limit current) ∧
     (app_confirmed_refusal current = None ↔
        ms_state current = 1 ∧ ms_metadata_valid current <> 0 ∧ ms_app_confirmed current = 0 ∧
        ms_boot_attempt_count current <> 0)).
Proof.
  split_and!; [by eapply append_calls..|]. intros current.
  split_and!; [apply image_valid_decision|apply boot_attempt_decision|apply app_confirmed_decision].
Qed.

(** ** Memory *)

(** C17: A memory read asks for contiguous frames from the start address,
    never for a word outside the requested range nor for more than a frame
    holds; its result is ok only if every frame came back complete for its
    address, and then has exactly [word_count] uint16 words, those of the
    frames in order. *)
Theorem memory_read_reads_range request (w : World T) :
  MemoryReadRequest_post_init request = Ok request →
  ∃ log, trace iterations ctx w log (memory_read_op iterations ctx request w).2 ∧
    memory_ends (frame_capacity ctx (ow_client w)) (rq_start_address request)
      (rq_word_count request) log (memory_read_op iterations ctx request w).1.
Proof. intros Hr. by apply memory_calls. Qed.
End properties.

Lemma memory_read_reads_range_witness :
  let ctx := example_context (λ _, false) in
  let w := example_world (mkAnswering []) in
  let request := mkReadRequest 0x1000 70 in
  (∃ log, trace example_iterations ctx w log (memory_read_op example_iterations ctx request w).2 ∧
     memory_ends (frame_capacity ctx (ow_client w)) 0x1000 70 log
       (memory_read_op example_iterations ctx request w).1) ∧
  match (memory_read_op example_iterations ctx request w).1 with
  | Ok result => or_details result = words_details (replicate (Z.to_nat 70) 0xABCD)
  | Raise _ => False
  end.
Proof.
  split.
  - apply (memory_read_reads_range example_iterations (example_context (λ _, false))
      (mkReadRequest 0x1000 70) (example_world (mkAnswering []))). reflexivity.
  - vm_compute. reflexivity.
Defined.

(** ** Invariants *)

(** On a CPU1 session with known capabilities, whatever an operation
    other than a capability query does, everything it writes to the transport
    is a request frame that a device with the negotiated payload limit decodes,
    and the capabilities stay what they were. *)
Theorem operations_write_within_limit {T} `{ByteTransport T} iterations ctx operation
    (w w' : World (Logged T)) d p r :
  tp_command_set (cx_target ctx) = CPU1_COMMAND_SET → queries_info operation = false →
  bc_device_info (ow_client w) = Some d → bc_protocol_info (ow_client w) = Some p →
  run_operation iterations ctx operation w = (r, w') →
  bc_device_info (ow_client w') = Some d ∧ bc_protocol_info (ow_client w') = Some p ∧
  ∃ sent, lg_written (bc_transport (ow_client w')) = lg_written (bc_transport (ow_client w)) ++ sent ∧
    Forall (request_bytes (di_max_payload_words d `min` pi_max_payload_words p)) sent.
Proof.
  intros Hset Hquery Hd Hp Hrun.
  apply (keeps_run (λ w0, wire_ok d p (di_max_payload_words d `min` pi_max_payload_words p)
    (lg_written (bc_transport (ow_client w))) (ow_client w0)) _ _ _ _) in Hrun; [done| |].
  - apply keeps_operation. rewrite Hset, Hquery. intros field command words Hf Hc.
    apply cpu1_commands in Hc as [Hdev Hpro]; [|by destruct (reads_info field)].
    by apply wire_transact.
  - split_and!; [done..|]. exists []. by rewrite app_nil_r.
Qed.

Lemma operations_write_within_limit_witness :
  let ctx := example_context (λ _, false) in
  let w := example_world (mkLogged (mkAnswering []) []) in
  let run := run_operation example_iterations ctx (ProgramFlashImage example_image) w in
  (∃ sent, lg_written (bc_transport (ow_client run.2)) = [] ++ sent ∧
     Forall (request_bytes 64) sent) ∧
  length (lg_written (bc_transport (ow_client run.2))) = 5%nat.
Proof.
  split.
  - refine (proj2 (proj2 (operations_write_within_limit example_iterations
      (example_context (λ _, false)) (ProgramFlashImage example_image)
      (example_world (mkLogged (mkAnswering []) [])) _ example_device_info example_protocol_info _
      eq_refl eq_refl eq_refl eq_refl _))). apply surjective_pairing.
  - vm_compute. reflexivity.
Defined.

(** The steps of a session: operations and target discovery *)
Inductive SessionStep : Type :=
| RunOperation (ctx : OperationContext) (operation : Operation)
| DiscoverTarget (no_service : PreparedServiceImage).

Definition run_step {T} `{ByteTransport T} (iterations : Z → nat) (step : SessionStep)
    (w : World T) : World T :=
  match step with
  | RunOperation ctx operation => (run_operation iterations ctx operation w).2
  | DiscoverTarget no_service => (discover_connected_target iterations no_service w).2
  end.

Definition run_session {T} `{ByteTransport T} (iterations : Z → nat) (steps : list SessionStep)
    (w : World T) : World T :=
  foldl (λ w step, run_step iterations step w) w steps.

Lemma session_step {T} `{ByteTransport T} iterations known step (w : World T) :
  session_ok known (ow_client w) → session_ok known (ow_client (run_step iterations step w)).
Proof.
  intros Hw. destruct step as [ctx operation|no_service]; simpl.
  - revert w Hw. apply (keeps_operation iterations ctx). intros. apply session_transact.
  - revert w Hw. change (keeps (λ w : World T, session_ok known (ow_client w))
      (discover_connected_target iterations no_service)).
    assert (∀ op, keeps (λ w : World T, session_ok known (ow_client w))
      (run_operation iterations (discovery_context no_service) op)) as Hop.
    { intros op. apply keeps_operation. intros. apply session_transact. }
    unfold discover_connected_target.
    keeps_step; [apply (Hop GetDeviceInfo)|]. keeps_step; [apply keeps_lift|]. keeps_step.
    keeps_step; [|apply keeps_raise]. keeps_step; [|apply keeps_lift].
    keeps_step; [apply (Hop GetProtocolInfo)|]. keeps_step; [apply keeps_lift|]. keeps_steps.
Qed.

(** In every session, whatever the device answers, the client stays well
    formed: the sequence number is a uint16, the cached DeviceInfo and
    ProtocolInfo passed their checks and agree on the protocol version; and the
    identity of the device (device and CPU), once known, never changes. *)
Theorem sessions_keep_identity {T} `{ByteTransport T} iterations steps (w : World T) :
  client_ok (ow_client w) →
  client_ok (ow_client (run_session iterations steps w)) ∧
  ∀ identity, identity_of (ow_client w) = Some identity →
    identity_of (ow_client (run_session iterations steps w)) = Some identity.
Proof.
  intros Hw.
  assert (∀ known, session_ok known (ow_client w) →
    session_ok known (ow_client (run_session iterations steps w))) as Hsteps.
  { intros known. unfold run_session. clear Hw. revert w.
    induction steps as [|step steps IH]; intros w Hk; simpl; [done|]. by apply IH, session_step. }
  split; [by apply (Hsteps None)|]. intros identity Hi. by apply (Hsteps (Some identity)).
Qed.

Lemma sessions_keep_identity_witness :
  let w := example_world (mkAnswering []) in
  let steps := [RunOperation (example_context (λ _, false)) (EraseFlashImageArea example_image);
                RunOperation (example_context (λ _, false)) (ProgramFlashImage example_image)] in
  client_ok (ow_client (run_session example_iterations steps w)) ∧
  identity_of (ow_client (run_session example_iterations steps w))
  = Some (DeviceId.DeviceId_value DeviceId.F28377D, 1).
Proof.
  assert (client_ok (example_client (mkAnswering []))) as Hw.
  { split; simpl.
    - lia.
    - intros d [= <-]. by apply (proj1 (DeviceInfo_post_init_ok example_device_info example_device_info)).
    - intros p [= <-]. by exists example_protocol_words.
    - by intros d p [= <-] [= <-]. }
  split.
  - apply (sessions_keep_identity example_iterations _ (example_world (mkAnswering [])) Hw).
  - by apply (sessions_keep_identity example_iterations _ (example_world (mkAnswering [])) Hw).
Defined.

(** ** Discovery *)

Section discovery.
Context {T : Type} `{ByteTransport T}.
Context (iterations : Z → nat) (no_service : PreparedServiceImage).

Lemma device_info_kept d command payload timeout :
  command <> Command.Command_value Command.GET_DEVICE_INFO →
  keeps (λ c : BootProtocolClient T, bc_device_info c = Some d)
    (bc_transact iterations command payload timeout).
Proof using.
  intros Hc. apply keeps_transact; try done. intros data. unfold cache_capability. keeps_step.
  rewrite (proj2 (Z.eqb_neq _ _) Hc). keeps_steps. done.
Qed.

Lemma protocol_query_keeps_device d :
  keeps (λ w : World T, bc_device_info (ow_client w) = Some d)
    (get_protocol_info_op iterations (discovery_context no_service)).
Proof using.
  unfold get_protocol_info_op.
  apply (keeps_one_command iterations (discovery_context no_service)
    (λ c, bc_device_info c = Some d) (λ field _, field = get_protocol_info)).
  - intros field words command -> Hc. vm_compute in Hc. injection Hc as <-.
    by apply device_info_kept.
  - done.
  - intros words. keeps_steps.
Qed.

(** What a discovered target promises *)
Record target_resolved (c : BootProtocolClient T) (t : DiscoveredTarget) : Prop := {
  tr_cached : bc_device_info c = Some (dt_device_info t);
  tr_device : di_device_id (dt_device_info t) = DeviceId.DeviceId_value DeviceId.F28377D;
  tr_profile : (di_cpu_id (dt_device_info t) = 1 ∧ dt_target_profile t = CPU1_PROFILE) ∨
               (di_cpu_id (dt_device_info t) = 2 ∧ dt_target_profile t = CPU2_PROFILE);
  tr_sizes : ∃ max data write, effective_max_payload_words c = Ok max ∧
    effective_max_data_words c = Ok data ∧ effective_max_write_data_words c = Ok write ∧
    0 < write <= data ∧ write mod 8 = 0 ∧ data + 5 <= max;
}.

Lemma profile_for_key cpu_id profile :
  target_profile_for_key (cpu_key cpu_id) = Some profile → tp_cpu_id profile = cpu_id →
  (cpu_id = 1 ∧ profile = CPU1_PROFILE) ∨ (cpu_id = 2 ∧ profile = CPU2_PROFILE).
Proof using.
  unfold target_profile_for_key. intros Hp <-.
  repeat case_match; simplify_eq; [left|right]; done.
Qed.

Lemma effective_sizes (c : BootProtocolClient T) write :
  effective_max_write_data_words c = Ok write →
  ∃ max data, effective_max_payload_words c = Ok max ∧ effective_max_data_words c = Ok data ∧
    0 < write <= data ∧ write mod 8 = 0 ∧ data + 5 <= max.
Proof using.
  unfold effective_max_write_data_words. intros Hw.
  destruct (effective_max_data_words c) as [data|] eqn:Ed; [|done].
  case_match eqn:E; simplify_eq. apply orb_false_iff in E as [E1 E2%negb_false_iff].
  unfold WRITE_DATA_ALIGNMENT_WORDS in *.
  pose proof (Z.mod_pos_bound data 8). unfold effective_max_data_words in Ed.
  destruct (bc_device_info c); [|done]. destruct (effective_max_payload_words c) as [max|]; [|done].
  case_match; simplify_eq. eexists _, _. split_and!; [done|done|lia..].
Qed.

(** The claim of an outcome *)
Definition outcome_sound (c : BootProtocolClient T) (outcome : TargetDiscoveryOutcome) : Prop :=
  or_ok (td_result outcome) = is_some (td_discovered_target outcome) ∧
  ∀ t, td_discovered_target outcome = Some t → target_resolved c t.

Lemma undiscovered_sound c r outcome : undiscovered r = Ok outcome → outcome_sound c outcome.
Proof using.
  unfold undiscovered, TargetDiscoveryOutcome_post_init. intros Ho.
  repeat case_match; simplify_eq. split; [|done]. simpl in *. by destruct (or_ok _).
Qed.

Lemma discovered_sound c d profile outcome :
  bc_device_info c = Some d → resolve_target d = inl profile →
  discovered no_service c d profile = Ok outcome → outcome_sound c outcome.
Proof using.
  intros Hd Hr. unfold discovered. destruct (discovery_capacities c d) as [cap|e] eqn:Ec;
    [|apply undiscovered_sound].
  intros Ho. destruct (DiscoveredTarget_post_init _) as [t|] eqn:Et; [|done].
  destruct (OperationResult_post_init _) as [result|] eqn:Eo; [|done].
  apply post_init_ok in Eo. unfold TargetDiscoveryOutcome_post_init in Ho. simpl in *.
  rewrite Eo in Ho. simplify_eq/=. split; simpl; [by rewrite Eo|]. intros ? [= <-].
  unfold DiscoveredTarget_post_init in Et. repeat case_match; simplify_eq/=.
  unfold resolve_target in Hr.
  destruct (negb (di_device_id d =? _)) eqn:Edev; [done|].
  destruct (target_profile_for_key _) as [p|] eqn:Ep; [|done].
  destruct (negb (tp_cpu_id p =? _)) eqn:Ecpu; [done|]. injection Hr as ->.
  apply negb_false_iff, Z.eqb_eq in Edev, Ecpu.
  unfold discovery_capacities in Ec. destruct (bc_protocol_info c); [|done].
  destruct (effective_max_payload_words c) as [max|] eqn:Emax; [|done].
  destruct (effective_max_data_words c) as [data|] eqn:Edata; [|done].
  destruct (effective_max_write_data_words c) as [write|] eqn:Ewrite; [|done].
  split; simpl; [done|done|by eapply profile_for_key|].
  apply effective_sizes in Ewrite as Hs. destruct Hs as (max' & data' & Hm & Hda & ?).
  rewrite Emax in Hm. rewrite Edata in Hda. simplify_eq. by exists max', data', write.
Qed.

(** Target discovery reports a target exactly when its result is ok, and
    then the connected device is a TMS320F28377D whose CPU has that profile,
    its DeviceInfo is the cached one, and the negotiated sizes are positive,
    aligned and fit each other. *)
Theorem discovery_resolves_target (w w' : World T) outcome :
  discover_connected_target iterations no_service w = (Ok outcome, w') →
  or_ok (td_result outcome) = is_some (td_discovered_target outcome) ∧
  ∀ t, td_discovered_target outcome = Some t → target_resolved (ow_client w') t.
Proof.
  intros Hrun. change (outcome_sound (ow_client w') outcome).
  assert (wp (discover_connected_target iterations no_service)
    (λ o w', outcome_sound (ow_client w') o) (λ _ _, True) w) as Hwp.
  2:{ exact (wp_run _ _ _ _ _ _ Hwp Hrun). }
  unfold discover_connected_target. apply wp_bind.
  eapply (wp_conseq _ (λ _ _, True) _ (λ _ _, True)); [|intros result w1 _|done].
  { unfold wp. by destruct (get_device_info_op _ _ w) as [[]]. }
  apply wp_if; intros _.
  { apply wp_lift; [|done]. intros o. apply undiscovered_sound. }
  apply wp_bind, wp_gets. destruct (bc_device_info (ow_client w1)) as [d|] eqn:Ed;
    [|by apply wp_raise].
  destruct (resolve_target d) as [profile|failure] eqn:Er.
  2:{ apply wp_lift; [|done]. intros o. apply undiscovered_sound. }
  apply wp_bind.
  eapply (wp_conseq _ (λ _ w2, bc_device_info (ow_client w2) = Some d) _ (λ _ _, True));
    [|intros result2 w2 Hd2|done].
  { pose proof (protocol_query_keeps_device d w1 Ed) as Hk. unfold wp.
    by destruct (get_protocol_info_op _ _ w1) as [[]]. }
  apply wp_if; intros _.
  { apply wp_lift; [|done]. intros o. apply undiscovered_sound. }
  apply wp_bind, wp_gets, wp_lift; [|done]. intros o. by apply discovered_sound.
Qed.
End discovery.

Lemma discovery_resolves_target_witness :
  let run := discover_connected_target example_iterations example_service
               (mkWorld (BootProtocolClient_init (mkAnswering [])) 0 []) in
  ∃ outcome t, run.1 = Ok outcome ∧ td_discovered_target outcome = Some t ∧
    target_resolved (ow_client run.2) t ∧ dt_target_key t = "cpu1"%string.
Proof.
  simpl. destruct (discover_connected_target example_iterations example_service
    (mkWorld (BootProtocolClient_init (mkAnswering [])) 0 [])) as [r w'] eqn:Hrun.
  pose proof Hrun as Hvalue. vm_compute in Hvalue. injection Hvalue as Hr Hw. subst r. simpl.
  eexists _, _. split; [reflexivity|]. split; [reflexivity|].
  split; [|reflexivity].
  apply (proj2 (discovery_resolves_target _ _ _ _ _ Hrun)). reflexivity.
Defined.
