(* ===== verification/SerialTransport.v ===== *)
(** * The serial transport (transport/serial_transport.py)

    [SerialTransport], the [ByteTransport] above pyserial, with the SCI autobaud
    handshake in [open].  pyserial is the class [PySerial]: a port of type [P]
    in an environment [E] that its methods change, and that may raise anything.
    Seconds are kept in thousandths.  The clock is outside the model:
    [polls ms] is how many rounds of a loop begin before a deadline that far
    away has passed, and [left n] what remains of it when [n] rounds follow. *)

From S2P Require Import Prelude.
From S2P Require Import Errors.
From S2P Require Import Messages.
From S2P Require Import BootClient.
From S2P Require Import OperationInvariants.

(** The arguments of [serial.Serial]; bytesize=8, parity N, stopbits=1 and no
    flow control are the same for every port. *)
Record SerialSettings : Set := mkSerialSettings {
  se_port : string;
  se_baudrate : Z;
  se_timeout : Z;
  se_write_timeout : Z;
}.

(** A factory that is not injected is looked up in pyserial, which may be
    missing; a port may have no [flush]. *)
Class PySerial (E P : Type) : Type := {
  serial_factory : option (SerialSettings → ST E P);
  port_set_dtr : P → bool → ST E unit;
  port_set_rts : P → bool → ST E unit;
  port_set_timeout : P → Z → ST E unit;
  port_write : P → list Z → ST E (option Z);
  port_flush : option (P → ST E unit);
  port_read : P → Z → ST E (list Z);
  port_close : P → ST E unit;
}.

Definition AUTOBAUD_INTERVAL_MS : Z := 50.
Definition POST_AUTOBAUD_DELAY_MS : Z := 100.
Definition OPEN_SETTLE_MS : Z := 500.

Record SerialTransportConfig : Set := mkSerialConfig {
  sx_port : string;
  sx_baudrate : Z;
  sx_tx_timeout_ms : Z;
  sx_rx_timeout_ms : Z;
  sx_autobaud_timeout_ms : Z;
}.

(** The default values of the fields *)
Definition serial_config (port : string) (baudrate : Z) : SerialTransportConfig :=
  mkSerialConfig port baudrate 1000 1000 5000.

(** The two exceptions of [f'{...}: {exc}; cleanup failed: {cleanup_error}'] *)
Definition cleanup_message (what : string) (cleanup_error : Exn) : Msg :=
  Lit (what ++ "; cleanup failed: " ++ text_of (exn_str cleanup_error)).

Section transport.
Context {E P : Type} `{PySerial E P}.
Context (polls : Z → nat) (left : nat → Z).

Record SerialTransport : Type := mkSerialTransport {
  st_env : E;
  st_config : SerialTransportConfig;
  st_serial : option P;
}.

(** [SerialTransport.__init__] *)
Definition SerialTransport_init (env : E) (config : SerialTransportConfig) : Res SerialTransport :=
  fail (Err ValueError (Lit "serial port must not be empty"))
    when bool_decide (sx_port config = EmptyString) ;;
  fail (Err ValueError (Lit "baudrate must be positive")) when sx_baudrate config <=? 0 ;;
  fail (Err ValueError (Lit "timeouts must be positive"))
    when Z.min (sx_tx_timeout_ms config)
           (Z.min (sx_rx_timeout_ms config) (sx_autobaud_timeout_ms config)) <=? 0 ;;
  Ok (mkSerialTransport env config None).

Abbreviation Io := (ST SerialTransport).

Definition with_serial (v : option P) (s : SerialTransport) : SerialTransport :=
  mkSerialTransport (st_env s) (st_config s) v.

(** A call that changes the environment *)
Definition io {A} (m : ST E A) : Io A :=
  λ s, let '(r, env) := m (st_env s) in (r, mkSerialTransport env (st_config s) (st_serial s)).

(** [_require_open] *)
Definition require_port : Io P :=
  s <- get ;;
  match st_serial s with
  | None => raise (Err TransportClosedError (Lit "serial transport is not open"))
  | Some port => ret port
  end.

(** [_set_timeout] *)
Definition set_timeout (port : P) (timeout : Z) : Io unit := io (port_set_timeout port (Z.max 0 timeout)).

(** [if hasattr(serial_port, "flush"): serial_port.flush()] *)
Definition flush_port (port : P) : Io unit :=
  match port_flush with Some flush => io (flush port) | None => ret tt end.

(** ** Close, write and read *)

Definition serial_close : Io unit :=
  s <- get ;;
  match st_serial s with
  | None => ret tt
  | Some port =>
      catch (io (port_close port))
        (λ exc, raise (Err TransportError (Prefixed "failed to close serial port: " (exn_str exc)))) ;;;
      modify (with_serial None)
  end.

Definition serial_write_all (data : list Z) : Io unit :=
  port <- require_port ;;
  written <- catch (written <- io (port_write port data) ;; flush_port port ;;; ret written)
    (λ exc, raise (Err TransportError (Prefixed "serial write failed: " (exn_str exc)))) ;;
  let written := default (zlen data) written in
  if negb (written =? zlen data)
  then raise (Err TransportError
                (Fmt "serial write accepted {} of {} bytes" [VInt written; VInt (zlen data)]))
  else ret tt.

Definition serial_read_some (max_bytes : Z) : Io (list Z) :=
  if max_bytes <=? 0 then raise (Err ValueError (Lit "max_bytes must be positive")) else
  catch (port <- require_port ;; io (port_read port max_bytes))
    (λ exc, raise (Err TransportError (Prefixed "serial read failed: " (exn_str exc)))).

(** ** Open

    The steps of [open] count the questions to the cancellation token, whose
    answers are [cancelled]. *)

Record Opening : Type := mkOpening {
  og_transport : SerialTransport;
  og_asked : nat;
}.

Abbreviation Open := (ST Opening).

Definition step {A} (m : Io A) : Open A :=
  λ g, let '(r, s) := m (og_transport g) in (r, mkOpening s (og_asked g)).

Context (cancelled : option (nat → bool)).

(** [cancellation_requested] *)
Definition asks : Open bool :=
  match cancelled with
  | None => ret false
  | Some answers => λ g, (Ok (answers (og_asked g)), mkOpening (og_transport g) (1 + og_asked g)%nat)
  end.

(** The loop of [_cancellable_wait], [rounds] before the deadline *)
Fixpoint wait_loop (rounds : nat) : Open bool :=
  asked <- asks ;;
  if (asked : bool) then ret true else
  match rounds with
  | O => asks
  | S rounds => wait_loop rounds
  end.

Definition cancellable_wait (delay_ms : Z) : Open bool := wait_loop (polls delay_ms).

(** [b"A"] *)
Definition ECHO : list Z := [0x41].

Definition autobaud_attempt (port : P) (timeout : Z) : Open bool :=
  step (
    io (port_write port ECHO) ;;;
    flush_port port ;;;
    set_timeout port timeout ;;;
    received <- io (port_read port 1) ;;
    ret (bool_decide (received = ECHO))).

(** The [try] statement of a round: whether the echo was received, and then
    the stage of a cancellation *)
Definition autobaud_round (port : P) (remaining : Z) : Open (option (option string)) :=
  catch (
    echoed <- autobaud_attempt port (Z.min AUTOBAUD_INTERVAL_MS remaining) ;;
    if (echoed : bool) then
      s <- gets og_transport ;;
      step (set_timeout port (sx_rx_timeout_ms (st_config s))) ;;;
      asked <- asks ;;
      ret (Some (if (asked : bool) then Some "AUTOBAUD_AFTER_ECHO"%string else None))
    else ret None)
    (λ exc,
      if isinstance exc TransportTimeoutError then raise exc else
      raise (Err TransportError (Prefixed "SCI autobaud handshake failed: " (exn_str exc)))).

Fixpoint autobaud_loop (port : P) (rounds : nat) : Open (option string) :=
  asked <- asks ;;
  if (asked : bool) then ret (Some "AUTOBAUD_BEFORE_ATTEMPT"%string) else
  match rounds with
  | O => raise (Err TransportTimeoutError (Lit "SCI autobaud handshake timed out"))
  | S rounds =>
      echoed <- autobaud_round port (left rounds) ;;
      match echoed with
      | Some stage => ret stage
      | None =>
          asked <- asks ;;
          if (asked : bool) then ret (Some "AUTOBAUD_AFTER_ATTEMPT"%string)
          else autobaud_loop port rounds
      end
  end.

(** [_autobaud] *)
Definition autobaud : Open (option string) :=
  port <- step require_port ;;
  s <- gets og_transport ;;
  autobaud_loop port (polls (sx_autobaud_timeout_ms (st_config s))).

(** [_finish_open] *)
Definition finish_open : Open (option string) :=
  stop <- cancellable_wait OPEN_SETTLE_MS ;;
  if (stop : bool) then ret (Some "OPEN_SETTLE"%string) else
  stage <- autobaud ;;
  match stage with
  | Some stage => ret (Some stage)
  | None =>
      stop <- cancellable_wait POST_AUTOBAUD_DELAY_MS ;;
      if (stop : bool) then ret (Some "POST_AUTOBAUD_DELAY"%string) else
      asked <- asks ;;
      ret (if (asked : bool) then Some "BEFORE_OPEN_RETURN"%string else None)
  end.

(** [_cancel_open] *)
Definition cancel_open (stage : string) : Open TransportOpenResult :=
  catch (step serial_close)
    (λ exc,
      if isinstance exc TransportError
      then raise (Err TransportError
             (cleanup_message ("serial open cancellation at " ++ stage) exc))
      else raise exc) ;;;
  lift (TransportOpenResult_post_init (mkOpenResult CANCELLED true stage)).

(** The handler of the second [try] of [open] *)
Definition abandon_open {A} (open_error : Exn) : Open A :=
  s <- gets og_transport ;;
  match st_serial s with
  | None => raise open_error
  | Some _ =>
      catch (step serial_close)
        (λ exc,
          if isinstance exc TransportError
          then raise (Err TransportError
                 (cleanup_message ("serial open failed: " ++ text_of (exn_str open_error)) exc))
          else raise exc) ;;;
      raise open_error
  end.

(** [self._serial_factory or self._default_factory()] *)
Definition find_factory : Open (SerialSettings → ST E P) :=
  match serial_factory with
  | Some factory => ret factory
  | None => raise (Err TransportError (Lit "SerialTransport requires the pyserial package"))
  end.

Definition opening : Open TransportOpenResult :=
  s <- gets og_transport ;;
  match st_serial s with
  | Some _ => lift (TransportOpenResult_post_init (mkOpenResult OPENED false "ALREADY_OPEN"))
  | None =>
      asked <- asks ;;
      if (asked : bool)
      then lift (TransportOpenResult_post_init (mkOpenResult CANCELLED true "BEFORE_SERIAL_OPEN"))
      else
      factory <- find_factory ;;
      let config := st_config s in
      port <- step (io (factory (mkSerialSettings (sx_port config) (sx_baudrate config)
                                   (sx_rx_timeout_ms config) (sx_tx_timeout_ms config)))) ;;
      step (modify (with_serial (Some port))) ;;;
      asked <- asks ;;
      if (asked : bool) then cancel_open "AFTER_SERIAL_OPEN" else
      stage <- catch (
          step (io (port_set_dtr port false) ;;; io (port_set_rts port false)) ;;;
          finish_open)
        abandon_open ;;
      match stage with
      | Some stage => cancel_open stage
      | None => lift (TransportOpenResult_post_init (mkOpenResult OPENED false "OPEN_COMPLETE"))
      end
  end.

Definition serial_open : Io TransportOpenResult :=
  λ s, let '(r, g) := opening (mkOpening s 0) in (r, og_transport g).
End transport.
Arguments SerialTransport E P : clear implicits.
Arguments Opening E P : clear implicits.

(** [SerialTransport] implements [ByteTransport]. *)
#[export] Instance Serial_transport {E P} `{PySerial E P} (polls : Z → nat) (left : nat → Z)
    : ByteTransport (SerialTransport E P) := {
  tr_open := serial_open polls left;
  tr_close := serial_close;
  tr_write_all := serial_write_all;
  tr_read_some := serial_read_some;
}.

(** ** What the transport owns

    [held ports env] says that the process holds [ports]; the factory adds one
    and a successful close removes it.  [heard env] says that the device has
    answered the autobaud character. *)

Section ownership.
Context {E P : Type} `{PySerial E P}.
Context (polls : Z → nat) (left : nat → Z).
Context (held : list P → E → Prop) (heard : E → Prop).

Definition env_stays {A} (m : ST E A) : Prop :=
  ∀ ports, keeps (held ports) m ∧ keeps heard m.

Record Ownership : Prop := {
  ow_factory factory settings env ports :
    serial_factory = Some factory → held ports env →
    match factory settings env with
    | (Ok port, env') => held (port :: ports) env'
    | (Raise _, env') => held ports env'
    end;
  ow_close port env ports :
    held (port :: ports) env →
    match port_close port env with
    | (Ok _, env') => held ports env'
    | (Raise _, env') => held (port :: ports) env'
    end;
  ow_dtr port v : env_stays (port_set_dtr port v);
  ow_rts port v : env_stays (port_set_rts port v);
  ow_timeout port v : env_stays (port_set_timeout port v);
  ow_write port data : env_stays (port_write port data);
  ow_flush flush port : port_flush = Some flush → env_stays (flush port);
  ow_read port n : env_stays (port_read port n);
  ow_echo port env env' : port_read port 1 env = (Ok ECHO, env') → heard env';
}.

Hypothesis Hown : Ownership.

(** The ports held for the transport are those it knows of. *)
Definition owns (s : SerialTransport E P) : Prop :=
  held (option_list (st_serial s)) (st_env s).

(** The transport has [port] and [config]; [known]: the device was heard. *)
Record at_port (config : SerialTransportConfig) (port : option P) (known : bool)
    (s : SerialTransport E P) : Prop := {
  ap_owns : owns s;
  ap_serial : st_serial s = port;
  ap_config : st_config s = config;
  ap_heard : known = true → heard (st_env s);
}.

Abbreviation At config port known := (λ g, at_port config port known (og_transport g)).

Implicit Types s : SerialTransport E P.

Lemma io_keeps {A} config port known (m : ST E A) :
  env_stays m → keeps (at_port config port known) (io m).
Proof.
  intros Hm s [Ho Hs Hc Hh]. unfold io, owns in *. destruct (Hm (option_list (st_serial s))) as [H1 H2].
  specialize (H1 _ Ho). specialize (H2 (st_env s)). destruct (m (st_env s)) as [r env].
  split; simpl in *; auto.
Qed.

Lemma step_keeps {A} J (m : ST (SerialTransport E P) A) :
  keeps J m → keeps (λ g, J (og_transport g)) (step m).
Proof.
  intros Hm g Hg. specialize (Hm _ Hg). unfold step. by destruct (m (og_transport g)).
Qed.

Lemma require_keeps J : keeps J (require_port (E := E) (P := P)).
Proof. unfold require_port. keeps_steps. Qed.

Lemma asks_keeps J cancelled : keeps (λ g : Opening E P, J (og_transport g)) (asks cancelled).
Proof. unfold asks. destruct cancelled; [|keeps_steps]. by intros g Hg. Qed.

Lemma wait_keeps J cancelled rounds :
  keeps (λ g : Opening E P, J (og_transport g)) (wait_loop cancelled rounds).
Proof.
  induction rounds; simpl; (apply keeps_bind; [apply asks_keeps|intros a]); keeps_steps.
  - apply asks_keeps.
  - done.
Qed.

Lemma flush_keeps config port known p : keeps (at_port config port known) (flush_port p).
Proof using Hown.
  unfold flush_port. destruct port_flush as [flush|] eqn:Ef; [|keeps_steps].
  by apply io_keeps, (ow_flush Hown).
Qed.

Lemma timeout_keeps config port known p v : keeps (at_port config port known) (set_timeout p v).
Proof using Hown. apply io_keeps, (ow_timeout Hown). Qed.

Lemma attempt_keeps config port known p v : keeps (At config port known) (autobaud_attempt p v).
Proof using Hown.
  apply (step_keeps (at_port config port known)).
  apply keeps_bind; [apply io_keeps, (ow_write Hown)|intros _].
  apply keeps_bind; [apply flush_keeps|intros _].
  apply keeps_bind; [apply timeout_keeps|intros _].
  apply keeps_bind; [apply io_keeps, (ow_read Hown)|intros d]. keeps_steps.
Qed.
(** *** Hearing the echo

    [m] keeps the transport at its port, and a value that is [ready] is
    returned only after the device was heard. *)

Definition hears {A} (ready : A → bool) (m : ST (Opening E P) A) : Prop :=
  ∀ config port known g, At config port known g →
    At config port (known || match (m g).1 with Ok a => ready a | Raise _ => false end) (m g).2.

Definition stays {A} (m : ST (Opening E P) A) : Prop :=
  ∀ config port known, keeps (At config port known) m.

Lemma at_weaken config port (known known' : bool) s :
  (known' = true → known = true) → at_port config port known s → at_port config port known' s.
Proof. intros Hk [Ho Hs Hc Hh]. split; auto. Qed.

Lemma hears_stays {A} (ready : A → bool) m : stays m → (∀ a, ready a = false) → hears ready m.
Proof.
  intros Hm Hr config port known g Hg. specialize (Hm config port known g Hg).
  destruct (m g) as [[a|e] g']; simpl; [rewrite Hr|]; by rewrite orb_false_r.
Qed.

Lemma hears_bind {A B} (ready : A → bool) (ready' : B → bool) m k :
  hears ready m → (∀ a, ready a = true → stays (k a)) → (∀ a, ready a = false → hears ready' (k a)) →
  hears ready' (bind m k).
Proof.
  intros Hm Hs Hh config port known g Hg. specialize (Hm _ _ _ _ Hg). unfold bind.
  destruct (m g) as [[a|e] g1]; simpl in *; [|by rewrite orb_false_r in *].
  destruct (ready a) eqn:Er.
  - specialize (Hs a Er _ _ _ _ Hm). eapply at_weaken; [|exact Hs]. intros _. by destruct known.
  - rewrite orb_false_r in Hm. by apply Hh.
Qed.

Lemma hears_after {A B} (ready : B → bool) (m : ST (Opening E P) A) k :
  stays m → (∀ a, hears ready (k a)) → hears ready (bind m k).
Proof.
  intros Hm Hk. eapply (hears_bind (λ _, false)); [by apply hears_stays|done|auto].
Qed.

Lemma hears_catch {A} (ready : A → bool) m h :
  hears ready m → (∀ e, hears ready (h e)) → hears ready (catch m h).
Proof.
  intros Hm Hh config port known g Hg. specialize (Hm _ _ _ _ Hg). unfold catch.
  destruct (m g) as [[a|e] g1]; simpl in *; [done|]. rewrite orb_false_r in Hm. by apply Hh.
Qed.

Lemma hears_ret {A} (ready : A → bool) a : ready a = false → hears ready (ret a).
Proof. intros Hr config port known g Hg. simpl. by rewrite Hr, orb_false_r. Qed.

Lemma hears_raise {A} (ready : A → bool) e : hears ready (raise e).
Proof. intros config port known g Hg. simpl. by rewrite orb_false_r. Qed.

Lemma stays_asks cancelled : stays (asks cancelled).
Proof using. intros config port known. apply asks_keeps. Qed.

Lemma attempt_hears p v : hears (λ echoed, echoed) (autobaud_attempt p v).
Proof using Hown.
  intros config port known g Hg. unfold autobaud_attempt.
  assert (keeps (at_port config port known)
    (io (port_write p ECHO) ;;; flush_port p ;;; set_timeout p v)) as Hbefore.
  { apply keeps_bind; [apply io_keeps, (ow_write Hown)|intros _].
    apply keeps_bind; [apply flush_keeps|intros _]. apply timeout_keeps. }
  specialize (Hbefore _ Hg). unfold step, bind in *.
  destruct (io (port_write p ECHO) (og_transport g)) as [[?|e] t1]; simpl in *;
    [|by rewrite orb_false_r].
  destruct (flush_port p t1) as [[?|e] t2]; simpl in *; [|by rewrite orb_false_r].
  destruct (set_timeout p v t2) as [[?|e] t3]; simpl in *; [|by rewrite orb_false_r].
  pose proof (io_keeps config port known (port_read p 1) (ow_read Hown p 1) _ Hbefore) as Hread.
  unfold io in *. destruct (port_read p 1 (st_env t3)) as [[data|e] env] eqn:Er; simpl in *;
    [|by rewrite orb_false_r].
  case_bool_decide as Hd; [subst data|by rewrite orb_false_r].
  apply (ow_echo Hown) in Er. destruct Hread as [Ho Hs Hc _]. by split.
Qed.

Lemma round_hears cancelled p remaining :
  hears (λ r, match r with Some None => true | _ => false end)
    (autobaud_round cancelled p remaining).
Proof using Hown.
  unfold autobaud_round. apply hears_catch.
  2:{ intros e. case_match; apply hears_raise. }
  apply (hears_bind (λ echoed, echoed)); [apply attempt_hears|intros [] Hr; [|done]|intros [] Hr; [done|]].
  - intros config port known. keeps_steps; [|apply asks_keeps].
    apply step_keeps, timeout_keeps.
  - cbn beta iota. by apply hears_ret.
Qed.

Definition open_stage (stage : option string) : bool := match stage with None => true | Some _ => false end.

Lemma loop_hears cancelled p rounds :
  hears open_stage (autobaud_loop left cancelled p rounds).
Proof using Hown.
  induction rounds as [|rounds IH]; simpl.
  - apply hears_after; [apply stays_asks|intros []]; cbn beta iota; [by apply hears_ret|apply hears_raise].
  - apply hears_after; [apply stays_asks|intros []]; cbn beta iota; [by apply hears_ret|].
    eapply hears_bind; [apply round_hears|..].
    + intros [[stage|]|] Hr; simplify_eq. intros config port known. keeps_steps.
    + intros [[stage|]|] Hr; simplify_eq; [by apply hears_ret|].
      apply hears_after; [apply stays_asks|intros []]; cbn beta iota; [by apply hears_ret|done].
Qed.

Lemma finish_hears cancelled : hears open_stage (finish_open polls left cancelled).
Proof using Hown.
  unfold finish_open. apply hears_after.
  { intros config port known. apply wait_keeps. }
  intros []; cbn beta iota; [by apply hears_ret|].
  eapply (hears_bind open_stage).
  - unfold autobaud. apply hears_after.
    { intros config port known. apply (step_keeps (at_port config port known)), require_keeps. }
    intros p. apply hears_after; [intros config port known; apply keeps_gets|]. intros s.
    apply loop_hears.
  - intros [stage|] Hr; simplify_eq. intros config port known. keeps_steps; [|apply asks_keeps].
    apply wait_keeps.
  - intros [stage|] Hr; simplify_eq. by apply hears_ret.
Qed.
(** *** Closing and opening *)

Lemma close_ends config port s :
  at_port config port false s →
  wp serial_close (λ _, at_port config None false)
    (λ e s', class_of e = TransportError ∧ at_port config port false s') s.
Proof using Hown.
  intros [Ho Hs Hc _]. unfold serial_close. wp_step. wp_step. rewrite Hs in *.
  destruct port as [port|]; [|by wp_step].
  unfold owns in Ho. rewrite Hs in Ho. cbn in Ho. apply (ow_close Hown) in Ho.
  wp_step. apply wp_catch. unfold wp, io, modify, raise. destruct (port_close port (st_env s)) as [[[]|e] env].
  - by split.
  - split; [done|]. split; unfold owns; cbn; rewrite ?Hs; done.
Qed.

(** What [open] has established when it ends. *)
Definition opened config (r : TransportOpenResult) (g : Opening E P) : Prop :=
  (r = mkOpenResult OPENED false "OPEN_COMPLETE" ∧
     ∃ port, at_port config (Some port) true (og_transport g)) ∨
  (∃ stage, r = mkOpenResult CANCELLED true stage ∧ at_port config None false (og_transport g)).

Definition not_opened config (e : Exn) (g : Opening E P) : Prop :=
  at_port config None false (og_transport g) ∨
  (class_of e = TransportError ∧ ∃ port, at_port config port false (og_transport g)).

Lemma step_ends {A} (m : ST (SerialTransport E P) A) Q R g :
  wp m Q R (og_transport g) →
  wp (step m) (λ a g', Q a (og_transport g')) (λ e g', R e (og_transport g')) g.
Proof using. unfold wp, step. by destruct (m (og_transport g)) as [[a|e] t]. Qed.

Lemma is_transport_error e : class_of e = TransportError → isinstance e TransportError = true.
Proof using. intros He. unfold isinstance. by rewrite He. Qed.

Lemma cancel_ends config port stage g :
  at_port config port false (og_transport g) →
  wp (cancel_open stage) (opened config) (not_opened config) g.
Proof using Hown.
  intros Hg. unfold cancel_open. apply wp_bind, wp_catch.
  eapply wp_conseq; [apply step_ends, (close_ends config), Hg|..].
  - intros [] g' Hg'. unfold wp, lift, TransportOpenResult_post_init. simpl to_stage.
    case_bool_decide; [by left|]. right. by exists stage.
  - intros e g' [He Hg']. cbn beta. rewrite (is_transport_error _ He). wp_step. cbn beta iota. right. eauto.
Qed.

Lemma abandon_ends config port e g :
  at_port config (Some port) false (og_transport g) →
  wp (abandon_open e) (λ (_ : option string) _, False) (not_opened config) g.
Proof using Hown.
  intros Hg. unfold abandon_open. wp_step. wp_step. rewrite (ap_serial _ _ _ _ Hg). wp_step.
  apply wp_catch. eapply wp_conseq; [apply step_ends, (close_ends config), Hg|..].
  - intros [] g' Hg'. wp_step. by left.
  - intros e' g' [He Hg']. cbn beta. rewrite (is_transport_error _ He). wp_step. cbn beta iota. right. eauto.
Qed.

Lemma finish_ends config port known cancelled g :
  at_port config port known (og_transport g) →
  wp (finish_open polls left cancelled)
    (λ stage g', at_port config port (known || open_stage stage) (og_transport g'))
    (λ _ g', at_port config port known (og_transport g')) g.
Proof using Hown.
  intros Hg. apply (finish_hears cancelled) in Hg. unfold wp.
  destruct (finish_open polls left cancelled g) as [[a|e] g']; [done|].
  by rewrite orb_false_r in Hg.
Qed.

(** A question to the token changes nothing, and is answered. *)
Lemma asks_ends config port known cancelled g Q R :
  at_port config port known (og_transport g) →
  (∀ (asked : bool) g', at_port config port known (og_transport g') → wp (if asked then Q else R)
     (opened config) (not_opened config) g') →
  wp (asked <- asks cancelled ;; if (asked : bool) then Q else R)
    (opened config) (not_opened config) g.
Proof using.
  intros Hg HQ. apply wp_bind. unfold wp at 1, asks. destruct cancelled; by apply HQ.
Qed.

Lemma opening_ends config cancelled g :
  at_port config None false (og_transport g) →
  wp (opening polls left cancelled) (opened config) (not_opened config) g.
Proof using Hown.
  intros Hg. unfold opening. wp_step. wp_step. rewrite (ap_serial _ _ _ _ Hg), (ap_config _ _ _ _ Hg).
  eapply asks_ends; [done|]. clear Hg. intros [] g1 Hg; clear g; rename g1 into g.
  { right. by eexists. }
  unfold find_factory. destruct serial_factory as [factory|] eqn:Ef; wp_step; wp_step; [|left; exact Hg].
  destruct Hg as [Ho Hs Hc _]. unfold owns in Ho. rewrite Hs in Ho.
  set (settings := mkSerialSettings _ _ _ _).
  pose proof (ow_factory Hown _ settings _ _ Ef Ho) as Hf.
  wp_step. unfold wp at 1, step at 1, io at 1. destruct (factory settings _) as [[port|e] env].
  2:{ left. split; unfold owns; cbn; rewrite ?Hs; done. }
  wp_step. unfold wp at 1, step at 1, modify. cbn beta iota.
  eapply (asks_ends config (Some port) false).
  { by split. }
  clear Hf. intros [] g' Hg'; [by eapply cancel_ends|].
  wp_step. apply wp_catch. wp_step.
  assert (keeps (At config (Some port) false)
    (step (io (port_set_dtr port false) ;;; io (port_set_rts port false)))) as Hlines.
  { apply (step_keeps (at_port config (Some port) false)).
    apply keeps_bind; [apply io_keeps, (ow_dtr Hown)|intros _]. apply io_keeps, (ow_rts Hown). }
  specialize (Hlines _ Hg'). unfold wp at 1.
  assert (∀ e g, at_port config (Some port) false (og_transport g) →
    wp (abandon_open e) (λ stage, wp (match stage with
      | Some stage => cancel_open stage
      | None => lift (TransportOpenResult_post_init (mkOpenResult OPENED false "OPEN_COMPLETE"))
      end) (opened config) (not_opened config)) (not_opened config) g) as Habandon.
  { intros e g0 Hg0. eapply wp_conseq; [by eapply abandon_ends|done|done]. }
  destruct (step _ g') as [[[]|e] g1]; simpl in Hlines; [|exact (Habandon e g1 Hlines)].
  eapply wp_conseq; [by eapply finish_ends| |by intros; apply Habandon].
  intros [stage|] g2 Hg2; simpl in Hg2; [by eapply cancel_ends|]. left. by eauto.
Qed.

(** *** Writing and reading *)

Lemma write_ends data s :
  owns s →
  let run := serial_write_all data s in
  owns run.2 ∧ st_serial run.2 = st_serial s ∧
  match run.1 with
  | Ok _ => is_Some (st_serial s)
  | Raise e => isinstance e TransportError = true
  end.
Proof using Hown.
  intros Ho. cbv zeta. assert (at_port (st_config s) (st_serial s) false s) as Hs by by split.
  assert (keeps (at_port (st_config s) (st_serial s) false) (serial_write_all data)) as Hk.
  { unfold serial_write_all. apply keeps_bind; [apply require_keeps|intros p].
    apply keeps_bind; [|intros written; keeps_steps]. keeps_steps.
    - apply io_keeps, (ow_write Hown).
    - apply flush_keeps. }
  destruct (Hk s Hs) as [Ho' Hs' _ _]. split; [done|]. split; [done|]. clear Hk Ho' Hs'.
  unfold serial_write_all, require_port, bind, get, raise, ret, catch.
  destruct (st_serial s) as [port|]; [|done].
  destruct (io _ s) as [[written|e] s1]; [|done].
  destruct (flush_port port s1) as [[?|e] s2]; [|done]. simpl.
  destruct (negb (default (zlen data) written =? zlen data)); simpl; [done|by eexists].
Qed.

Lemma read_ends count s :
  owns s → 0 < count →
  let run := serial_read_some count s in
  owns run.2 ∧ st_serial run.2 = st_serial s ∧
  match run.1 with
  | Ok _ => is_Some (st_serial s)
  | Raise e => isinstance e TransportError = true
  end.
Proof using Hown.
  intros Ho Hcount. cbv zeta. assert (at_port (st_config s) (st_serial s) false s) as Hs by by split.
  assert (keeps (at_port (st_config s) (st_serial s) false) (serial_read_some count)) as Hk.
  { unfold serial_read_some. keeps_steps; [apply require_keeps|]. apply io_keeps, (ow_read Hown). }
  destruct (Hk s Hs) as [Ho' Hs' _ _]. split; [done|]. split; [done|]. clear Hk Ho' Hs'.
  unfold serial_read_some. rewrite (proj2 (Z.leb_gt count 0)) by lia.
  unfold require_port, bind, get, raise, ret, catch.
  destruct (st_serial s) as [port|]; [|done].
  destruct (io _ s) as [[data|e] s1]; simpl; [by eexists|done].
Qed.

(** Opening a closed transport. *)
Lemma serial_open_ends cancelled s :
  owns s → st_serial s = None →
  let run := serial_open polls left cancelled s in
  owns run.2 ∧ st_config run.2 = st_config s ∧
  match run.1 with
  | Ok r =>
      (r = mkOpenResult OPENED false "OPEN_COMPLETE" ∧ is_Some (st_serial run.2) ∧
         heard (st_env run.2)) ∨
      (∃ stage, r = mkOpenResult CANCELLED true stage ∧ st_serial run.2 = None)
  | Raise e => st_serial run.2 = None ∨ class_of e = TransportError
  end.
Proof using Hown.
  intros Ho Hs. pose proof (opening_ends (st_config s) cancelled (mkOpening s 0)) as Hopen.
  unfold serial_open, wp in *. destruct (opening _ _ _ _) as [[r|e] g]; cbn in *.
  - destruct Hopen as [(-> & port & [Ho' Hs' Hc Hh])|(stage & -> & [Ho' Hs' Hc Hh])]; [by split| |];
      (split; [done|]; split; [done|]); [left|right]; rewrite Hs'; eauto.
  - destruct Hopen as [[Ho' Hs' Hc _]|(He & port & [Ho' Hs' Hc _])]; [by split|split; [done|]..];
      (split; [done|]); auto.
Qed.
End ownership.

(** ** A device that echoes *)

Record EchoPort : Set := mkEcho {
  ec_ports : list nat;                   (* the ports that are open *)
  ec_heard : bool;
  ec_close_fails : bool;
}.

#[export] Instance Echo_serial : PySerial EchoPort nat := {
  serial_factory := Some (λ _ env,
    (Ok (length (ec_ports env)),
     mkEcho (length (ec_ports env) :: ec_ports env) (ec_heard env) (ec_close_fails env)));
  port_set_dtr _ _ := ret tt;
  port_set_rts _ _ := ret tt;
  port_set_timeout _ _ := ret tt;
  port_write _ data := ret (Some (zlen data));
  port_flush := None;
  port_read _ _ env := (Ok ECHO, mkEcho (ec_ports env) true (ec_close_fails env));
  port_close _ env :=
    if ec_close_fails env then (Raise (Err OSError (Lit "busy")), env)
    else (Ok tt, mkEcho (tail (ec_ports env)) (ec_heard env) false);
}.

Definition echo_held (ports : list nat) (env : EchoPort) : Prop := ec_ports env = ports.
Definition echo_heard (env : EchoPort) : Prop := ec_heard env = true.

Lemma echo_ownership : Ownership echo_held echo_heard.
Proof.
  assert (∀ {A} (m : ST EchoPort A), (∀ env, ec_ports (m env).2 = ec_ports env ∧
    (ec_heard env = true → ec_heard (m env).2 = true)) → env_stays echo_held echo_heard m) as Hstays.
  { intros A m Hm ports. split; intros env Henv; destruct (Hm env) as [H1 H2].
    - unfold echo_held in *. congruence.
    - by apply H2. }
  split; intros; try (apply Hstays; intros env0; simpl; done); try done.
  - revert H H0. intros Hf Hp. injection Hf as <-. unfold echo_held in *. simpl. by rewrite Hp.
  - unfold echo_held in *. simpl. by destruct (ec_close_fails env); simpl; rewrite H.
  - by injection H as <-.
Qed.

Definition echo_transport (close_fails : bool) : SerialTransport EchoPort nat :=
  mkSerialTransport (mkEcho [] false close_fails) (serial_config "COM3" 9600) None.

(** ** Properties *)

(** C37: The serial transport holds a port of the system exactly while it knows
    of it.  Opening a closed transport ends OPENED with the port, after the
    device has echoed the autobaud character; or CANCELLED with the port
    released, as the result says; or with an exception, and then the port is
    released too, or the exception is a TransportError: after one the port may
    still be known and held, as when closing it failed, and the theorem does
    not tell the TransportErrors apart.  Closing
    releases the port or raises a TransportError and keeps it for another
    attempt; writing and reading keep it, need it, and raise no exceptions but
    TransportErrors. *)
Theorem serial_port_is_owned {E P} `{PySerial E P} polls left (held : list P → E → Prop)
    (heard : E → Prop) (s : SerialTransport E P) cancelled data count :
  Ownership held heard → owns held s → 0 < count →
  (st_serial s = None →
     let run := serial_open polls left cancelled s in
     owns held run.2 ∧
     match run.1 with
     | Ok r =>
         (r = mkOpenResult OPENED false "OPEN_COMPLETE" ∧ is_Some (st_serial run.2) ∧
            heard (st_env run.2)) ∨
         (∃ stage, r = mkOpenResult CANCELLED true stage ∧ st_serial run.2 = None)
     | Raise e => st_serial run.2 = None ∨ class_of e = TransportError
     end) ∧
  (let run := serial_close s in
     owns held run.2 ∧
     match run.1 with
     | Ok _ => st_serial run.2 = None
     | Raise e => class_of e = TransportError ∧ st_serial run.2 = st_serial s
     end) ∧
  (let run := serial_write_all data s in
     owns held run.2 ∧ st_serial run.2 = st_serial s ∧
     match run.1 with
     | Ok _ => is_Some (st_serial s)
     | Raise e => isinstance e TransportError = true
     end) ∧
  (let run := serial_read_some count s in
     owns held run.2 ∧ st_serial run.2 = st_serial s ∧
     match run.1 with
     | Ok _ => is_Some (st_serial s)
     | Raise e => isinstance e TransportError = true
     end).
Proof.
  intros Hown Ho Hcount.
  assert (at_port held heard (st_config s) (st_serial s) false s) as Hs by by split.
  split; [|split; [|split]].
  - intros Hn. by destruct (serial_open_ends polls left held heard Hown cancelled s Ho Hn) as (? & _ & ?).
  - pose proof (close_ends held heard Hown _ _ s Hs) as Hc. unfold wp in Hc.
    destruct (serial_close s) as [[a|e] s']; simpl; [by destruct Hc|].
    destruct Hc as [He [Ho' Hs' _ _]]. done.
  - by apply (write_ends held heard Hown).
  - by apply (read_ends held heard Hown).
Qed.

Lemma serial_port_is_owned_witness :
  let s := echo_transport false in
  let run := serial_open (λ _, 3%nat) (λ _, 20) None s in
  run.1 = Ok (mkOpenResult OPENED false "OPEN_COMPLETE") ∧ owns echo_held run.2 ∧
  (serial_close run.2).1 = Ok tt ∧ owns echo_held (serial_close run.2).2.
Proof.
  cbv zeta. split; [reflexivity|].
  pose proof (λ s H, serial_port_is_owned (λ _, 3%nat) (λ _, 20) echo_held echo_heard s None [1] 1
    echo_ownership H eq_refl) as Hall.
  destruct (Hall (echo_transport false) eq_refl) as [Hopen _].
  split; [apply (Hopen eq_refl)|].
  split; [reflexivity|]. apply (Hall (serial_open (λ _, 3%nat) (λ _, 20) None (echo_transport false)).2).
  apply (Hopen eq_refl).
Defined.
