(* ===== verification/Cli.v ===== *)
(** * The command line: arguments, outcomes and what is printed

    The data of the formal CLI (cli/): the exit codes and outcomes of
    cli/output.py with the JSON envelope and the human rendering, the
    confirmation of cli/confirmation.py and the checks of cli/parser.py.
    Arguments are parsed by argparse: the model starts from the namespace
    [CliArgs] it returns. *)

From stdpp Require Import pretty.
From Stdlib Require Import Ascii.
From S2P Require Import Prelude.
From S2P Require Import Errors.
From S2P Require Import Messages.
From S2P Require Import TaskPlans.
From S2P Require Import OperationResults.
From S2P Require Import StatusModels.

(** ** Strings *)

(** [s.lower()] of an ASCII string. *)
Definition lower_ascii (c : ascii) : ascii :=
  let n := Ascii.N_of_ascii c in
  if ((65 <=? n) && (n <=? 90))%N then Ascii.ascii_of_N (n + 32) else c.

Fixpoint lower (s : string) : string :=
  match s with
  | EmptyString => EmptyString
  | String c t => String (lower_ascii c) (lower t)
  end.

(** [part in s] *)
Fixpoint contains_text (part s : string) : bool :=
  String.prefix part s || match s with EmptyString => false | String _ t => contains_text part t end.

(** [s.endswith(suffix)] *)
Definition ends_with (suffix s : string) : bool :=
  bool_decide (String.substring (String.length s - String.length suffix) (String.length suffix) s
               = suffix).

(** [f'{value:0<width>X}']: the sign counts as a digit. *)
Definition format_hex (width : nat) (value : Z) : string :=
  if value <? 0 then ("-" ++ hex_padded (width - 1) (- value))%string else hex_padded width value.

(** [s.split()] on blanks *)
Fixpoint split_words (current s : string) : list string :=
  let flush := if bool_decide (current = EmptyString) then [] else [current] in
  match s with
  | EmptyString => flush
  | String c t =>
      if ascii_is_space c then flush ++ split_words EmptyString t
      else split_words (current ++ String c EmptyString)%string t
  end.

(** [part.replace('-', ' ')] *)
Fixpoint dashes_to_blanks (s : string) : string :=
  match s with
  | EmptyString => EmptyString
  | String c t => String (if Ascii.eqb c "-"%char then " "%char else c) (dashes_to_blanks t)
  end.

(** [s.capitalize()] *)
Definition capitalize (s : string) : string :=
  match s with EmptyString => EmptyString | String c t => String (upper_ascii c) (lower t) end.

(** ** Outcomes (cli/output.py) *)

Module ExitCode.
Inductive ExitCode_t : Set :=
| SUCCESS | OPERATION_FAILURE | CLI_USAGE_ERROR | COMMUNICATION_FAILURE | CANCELLED
| CONFIRMATION_REQUIRED | USER_DECLINED | INTERNAL_ERROR.

Definition ExitCode_value (c : ExitCode_t) : Z :=
  match c with
  | SUCCESS => 0 | OPERATION_FAILURE => 1 | CLI_USAGE_ERROR => 2 | COMMUNICATION_FAILURE => 3
  | CANCELLED => 4 | CONFIRMATION_REQUIRED => 5 | USER_DECLINED => 6 | INTERNAL_ERROR => 7
  end.
End ExitCode.

Abbreviation ExitCode := ExitCode.ExitCode_t.

#[export] Instance ExitCode_eq_dec : EqDecision ExitCode.
Proof. solve_decision. Defined.

Record CliError : Type := mkCliError {
  cl_domain : string;
  cl_code : string;
  cl_message : Msg;
  cl_details : option Dict;
}.

Record CommandOutcome : Type := mkCommandOutcome {
  co_command : string;
  co_result : option Dict;
  co_operation_result : option OperationResult;
  co_error : option CliError;
  co_exit_code : option ExitCode;
}.

(** [CommandOutcome(command, operation_result=result)] *)
Definition operation_outcome (command : string) (result : OperationResult) : CommandOutcome :=
  mkCommandOutcome command None (Some result) None None.

(** [CommandOutcome(command, error=CliError(domain, code, message), exit_code=...)] *)
Definition error_outcome (command domain code : string) (message : Msg) (exit_code : ExitCode)
    : CommandOutcome :=
  mkCommandOutcome command None None (Some (mkCliError domain code message None)) (Some exit_code).

(** [completion in (CANCELLED, COMPLETED_AFTER_CANCEL_REQUEST)] *)
Definition cancel_completion (c : option OperationCompletion) : bool :=
  bool_decide (c = Some OperationCompletion.CANCELLED)
  || bool_decide (c = Some OperationCompletion.COMPLETED_AFTER_CANCEL_REQUEST).

Definition operation_exit_code (result : OperationResult) : ExitCode :=
  if cancel_completion (or_completion result) then ExitCode.CANCELLED
  else if or_ok result && bool_decide (or_completion result = Some OperationCompletion.SUCCEEDED)
  then ExitCode.SUCCESS
  else match or_error result with
       | Some error => if bool_decide (ei_domain error = COMMUNICATION)
                       then ExitCode.COMMUNICATION_FAILURE else ExitCode.OPERATION_FAILURE
       | None => ExitCode.OPERATION_FAILURE
       end.

Definition outcome_exit_code (outcome : CommandOutcome) : ExitCode :=
  match co_exit_code outcome, co_operation_result outcome, co_error outcome with
  | Some code, _, _ => code
  | None, Some result, _ => operation_exit_code result
  | None, None, Some _ => ExitCode.INTERNAL_ERROR
  | None, None, None => ExitCode.SUCCESS
  end.

(** [_plain] of a result: the dictionaries of the model are plain already. *)
Definition message_value (m : Msg) : PyVal := VStr (text_of m).

Definition internal_error (message : string) : PyVal :=
  VDict [("domain", VStr "internal"); ("code", VStr "INTERNAL_ERROR"); ("message", VStr message)].

(** The ["error"] of the envelope of a failed command *)
Definition envelope_error (outcome : CommandOutcome) : PyVal :=
  match co_error outcome, co_operation_result outcome with
  | Some error, _ =>
      VDict ([("domain"%string, VStr (cl_domain error)); ("code"%string, VStr (cl_code error));
              ("message"%string, message_value (cl_message error))]
             ++ match cl_details error with
                | Some details => [("details"%string, VDict details)]
                | None => []
                end)
  | None, Some operation =>
      match or_error operation with
      | Some error => error_to_plain error
      | None =>
          if cancel_completion (or_completion operation)
          then VDict [("domain", VStr "cli"); ("code", VStr "CANCELLED");
                      ("message", VStr "command cancelled cooperatively")]
          else internal_error "command failed without error details"
      end
  | None, None => internal_error "command failed without error details"
  end.

Definition json_envelope (outcome : CommandOutcome) : Dict :=
  let code := outcome_exit_code outcome in
  let success := bool_decide (code = ExitCode.SUCCESS) in
  let result := match co_result outcome, co_operation_result outcome with
                | Some result, _ => Some result
                | None, Some operation => Some (operation_result_to_dict operation)
                | None, None => None
                end in
  [("schema_version"%string, VInt 1); ("command"%string, VStr (co_command outcome));
   ("success"%string, VBool success); ("exit_code"%string, VInt (ExitCode.ExitCode_value code))]
  ++ match result with Some result => [("result"%string, VDict result)] | None => [] end
  ++ if success then [] else [("error"%string, envelope_error outcome)].

(** ** Human output (cli/output.py) *)

Fixpoint format_cli_value (key : string) (value : PyVal) : string :=
  match value with
  | VNone => "-"
  | VBool b => if b then "true" else "false"
  | VInt z =>
      let lowered := lower key in
      if bool_decide (lowered ∈ ["device_id"; "latest_record_type"; "service_state"]%string)
      then ("0x" ++ format_hex 4 z)%string
      else if ends_with "address" lowered then ("0x" ++ format_hex 8 z)%string
      else if contains_text "crc32" lowered
              || bool_decide (lowered ∈ ["uid_unique"; "revision_id"]%string)
      then ("0x" ++ format_hex 8 z)%string
      else pretty z
  | VSeq l => String.concat " " (map (format_cli_value key) l)
  | VStr s => s
  | VDict _ => str_text value
  end.

(** The entries of a dictionary, those of nested ones indented. *)
Fixpoint render_entry (indent key : string) (value : PyVal) : list string :=
  match value with
  | VDict data =>
      (indent ++ key ++ ":")%string
        :: flat_map (λ kv, render_entry (indent ++ "  ")%string kv.1 kv.2) data
  | _ => [(indent ++ key ++ ": " ++ format_cli_value key value)%string]
  end.

Definition render_mapping (data : Dict) (indent : string) : list string :=
  flat_map (λ kv, render_entry indent kv.1 kv.2) data.

(** [_label] *)
Definition label (command : string) : string :=
  String.concat " " (map (λ part, capitalize (dashes_to_blanks part)) (split_words EmptyString command)).

Definition outcome_title (command : string) : string :=
  if bool_decide (command = "last-error"%string) then "Last Operation Error" else label command.

(** [_render_operation_failure] *)
Definition render_operation_failure (outcome : CommandOutcome) (verbose : bool) : list string :=
  let operation := co_operation_result outcome in
  let title := outcome_title (co_command outcome) in
  if bool_decide (outcome_exit_code outcome = ExitCode.CANCELLED) then
    (title ++ ": CANCELLED")%string
      :: match operation ≫= or_cancellation, co_error outcome with
         | Some cancellation, _ => [("stage: " ++ oc_stage cancellation)%string]
         | None, Some error => [("error: " ++ text_of (cl_message error))%string]
         | None, None => []
         end
  else
    (title ++ ": FAIL")%string
      :: match co_error outcome, operation ≫= or_error with
         | Some error, _ => [("error: " ++ cl_code error)%string;
                             ("message: " ++ text_of (cl_message error))%string]
         | None, Some error => [("error: " ++ ei_code error)%string;
                                ("message: " ++ text_of (ei_message error))%string;
                                ("domain: " ++ ErrorDomain_value (ei_domain error))%string]
         | None, None => ["error: internal failure without details"%string]
         end
      ++ match operation with
         | Some operation => if verbose then [("stage: " ++ or_stage operation)%string] else []
         | None => []
         end.

(** [int(value)]; a value that is not a number counts as a TypeError. *)
Definition int_value (v : PyVal) : Res Z :=
  match number v with
  | Some z => Ok z
  | None => Raise (Err TypeError (Lit "int() argument must be a number"))
  end.

(** [data.get(key, 0)] as an integer *)
Definition get_int (key : string) (data : Dict) : Res Z :=
  match dict_get key data with Some v => int_value v | None => Ok 0 end.

(** The lines of eight words, from [address] on. *)
Fixpoint memory_lines (fuel : nat) (address : Z) (values : list Z) : list string :=
  match fuel, values with
  | S fuel, _ :: _ =>
      (format_hex 8 address ++ ": "
       ++ String.concat " " (map (λ word, format_hex 4 (Z.land word 0xFFFF)) (take 8 values)))%string
        :: memory_lines fuel (address + 8) (drop 8 values)
  | _, _ => []
  end.

(** [_render_memory] *)
Definition render_memory (outcome : CommandOutcome) : Res (list string) :=
  let shown (summary details : Dict) :=
    let? start := get_int "start_address" summary in
    let? words := get_int "word_count" summary in
    let? values := match dict_get "words" details with
                   | None => Ok []
                   | Some (VSeq raw_words) => mapR int_value raw_words
                   | Some _ => Raise (Err TypeError (Lit "words is not a sequence of numbers"))
                   end in
    Ok (["Memory Read: PASS"%string; ("Start: 0x" ++ format_hex 8 start)%string;
         ("Words: " ++ pretty words)%string; EmptyString]
        ++ memory_lines (length values) start values) in
  match co_operation_result outcome, co_result outcome with
  | Some operation, _ => shown (or_summary operation) (or_details operation)
  | None, Some data => shown data data
  | None, None => Ok ["Memory Read: PASS"%string]
  end.

(** [_render_status] *)
Definition get_value (key : string) (data : Dict) : PyVal := default VNone (dict_get key data).

(** [if isinstance(data.get(key, {}), Mapping)] *)
Definition get_mapping (key : string) (data : Dict) : option Dict :=
  match dict_get key data with
  | Some (VDict d) => Some d
  | Some _ => None
  | None => Some []
  end.

Definition render_status (outcome : CommandOutcome) : list string :=
  match co_result outcome with
  | None => ["Status: PASS"%string]
  | Some payload =>
      ["Status: PASS"%string]
      ++ match get_mapping "target" payload with
         | None => []
         | Some target =>
             [("target: " ++ format_cli_value "target" (get_value "target_key" target))%string;
              ("device: " ++ format_cli_value "profile" (get_value "profile" target))%string]
             ++ match get_mapping "device_info" target with
                | Some device =>
                    [("cpu_id: " ++ format_cli_value "cpu_id" (get_value "cpu_id" device))%string]
                | None => []
                end
             ++ match get_mapping "effective_limits" target with
                | Some limits => "effective protocol limits:"%string :: render_mapping limits "  "
                | None => []
                end
         end
      ++ "metadata:"%string
      :: match get_mapping "metadata" payload with
         | Some metadata => render_mapping metadata "  "
         | None => []
         end
  end.

Definition LF : string := String (ascii_of_nat 10) EmptyString.

Definition render_human (outcome : CommandOutcome) (verbose : bool) : Res string :=
  let text lines := (String.concat LF lines ++ LF)%string in
  if negb (bool_decide (outcome_exit_code outcome = ExitCode.SUCCESS))
  then Ok (text (render_operation_failure outcome verbose)) else
  if bool_decide (co_command outcome = "memory read"%string)
  then let? lines := render_memory outcome in Ok (text lines)
  else if bool_decide (co_command outcome = "status"%string)
  then Ok (text (render_status outcome))
  else
    let payload := match co_result outcome, co_operation_result outcome with
                   | Some result, _ => Some result
                   | None, Some operation => Some (or_summary operation)
                   | None, None => None
                   end in
    Ok (text ([(outcome_title (co_command outcome) ++ ": PASS")%string]
              ++ match payload with Some data => render_mapping data EmptyString | None => [] end
              ++ match co_operation_result outcome with
                 | Some operation =>
                     if verbose then [("stage: " ++ or_stage operation)%string] else []
                 | None => []
                 end)).

(** ** JSON text

    [json.dump(value, ensure_ascii=False)] of dictionaries, lists and scalars. *)

Definition json_escape (c : ascii) : string :=
  let n := Z.of_nat (nat_of_ascii c) in
  if n =? 34 then String (ascii_of_nat 92) (String c EmptyString)
  else if n =? 92 then String c (String c EmptyString)
  else if n =? 10 then "\n"
  else if n =? 13 then "\r"
  else if n =? 9 then "\t"
  else if n =? 8 then "\b"
  else if n =? 12 then "\f"
  else if n <? 32 then ("\u00" ++ lower (hex_padded 2 n))%string
  else String c EmptyString.

Definition json_string (s : string) : string :=
  let quote := String (ascii_of_nat 34) EmptyString in
  (quote ++ String.concat EmptyString (map json_escape (String.list_ascii_of_string s)) ++ quote)%string.

Fixpoint json_text (v : PyVal) : string :=
  match v with
  | VNone => "null"
  | VBool b => if b then "true" else "false"
  | VInt z => pretty z
  | VStr s => json_string s
  | VSeq l => ("[" ++ comma_separated (map json_text l) ++ "]")%string
  | VDict l =>
      ("{" ++ comma_separated (map (λ kv, (json_string kv.1 ++ ": " ++ json_text kv.2)%string) l)
       ++ "}")%string
  end.

(** [render_final]: the text that is written to the output. *)
Definition render_final (outcome : CommandOutcome) (json_mode verbose : bool) : Res string :=
  if json_mode then Ok (json_text (VDict (json_envelope outcome)) ++ LF)%string
  else render_human outcome verbose.

(** ** Confirmation (cli/confirmation.py) *)

Inductive ConfirmationDecision : Set := APPROVED | DECLINED | CONFIRMATION_REQUIRED.

#[export] Instance ConfirmationDecision_eq_dec : EqDecision ConfirmationDecision.
Proof. solve_decision. Defined.

(** [_display_value] *)
Definition display_value (key : string) (value : PyVal) : string :=
  match value with
  | VInt z =>
      let lowered := lower key in
      if contains_text "mask" lowered || contains_text "crc" lowered || contains_text "point" lowered
      then ("0x" ++ format_hex 8 z)%string else pretty z
  | _ => str_text value
  end.

(** What [request_confirmation] writes, and its decision; [answer] is the line
    that is read when the input is a terminal. *)
Definition confirmation_prompt (details : Dict) (tty : bool) : list string :=
  map (λ kv, (kv.1 ++ ": " ++ display_value kv.1 kv.2 ++ LF)%string) details
  ++ [if tty then "Proceed? [y/N] "%string
      else ("confirmation required: stdin is not a TTY; pass --yes to approve" ++ LF)%string].

Definition answer_decision (answer : string) : ConfirmationDecision :=
  if bool_decide (lower (strip answer) ∈ ["y"; "yes"]%string) then APPROVED else DECLINED.

(** ** Arguments (cli/parser.py) *)

(** The namespace of the parser, with the options of all commands *)
Record CliArgs : Type := mkArgs {
  ca_command : string;
  ca_transport : string;
  ca_port : option string;
  ca_baud : Z;
  ca_timeout_ms : option Z;
  ca_json : bool;
  ca_verbose : bool;
  ca_yes : bool;
  ca_image : option string;
  ca_flash_service_image : option string;
  ca_flash_service_map : option string;
  ca_all_app : bool;
  ca_sector_mask : Z;
  ca_no_run : bool;
  ca_entry_point : Z;
  ca_address : Z;
  ca_words : Z;
}.

(** What parsing ends in: a namespace, the CliUsageError that
    [CliArgumentParser.error] raises, or the exit of [--help] and [--version] *)
Inductive ParseResult : Type :=
| Parsed (args : CliArgs)
| UsageError (usage prog message : string)
| ParserExit (code : Z).

(** [CliArgumentParser.parse_args]: the checks behind those of argparse, by
    the parser with the given usage and name *)
Definition check_parsed (usage prog : string) (args : CliArgs) : ParseResult :=
  if bool_decide (ca_command args = "memory read"%string)
     && (ca_address args + ca_words args - 1 >? U32_MAX)
  then UsageError usage prog "memory read exceeds the uint32 address space"
  else if bool_decide (ca_command args = "shell"%string)
     && negb (Bool.eqb (is_some (ca_flash_service_image args)) (is_some (ca_flash_service_map args)))
  then UsageError usage prog "--flash-service-image and --flash-service-map must be provided together"
  else Parsed args.

(** [command_from_argv] *)
Definition first_of (prefix : string) (candidates argv : list string) : option string :=
  (λ c, (prefix ++ c)%string) <$> List.find (λ c, bool_decide (c ∈ argv)) candidates.

Definition first_some {A} (options : list (option A)) (otherwise : A) : A :=
  foldr (λ o rest, match o with Some a => a | None => rest end) otherwise options.

Definition command_from_argv (argv : list string) : string :=
  let has s := bool_decide (s ∈ argv) in
  let only (b : bool) (o : option string) := if b then o else None in
  first_some
    [only (has "memory"%string && has "read"%string) (Some "memory read"%string);
     only (has "metadata"%string)
       (first_of "metadata " ["status"; "image-valid"; "boot-attempt"; "app-confirmed"] argv);
     only (has "service"%string) (first_of "service " ["attach"; "status"] argv);
     only (has "ram"%string) (first_of "ram " ["load"; "check-crc"] argv);
     first_of EmptyString ["run-ram"; "upgrade"; "run"; "shell"; "ping"; "status"; "device-info";
       "protocol-info"; "last-error"; "erase"; "program"; "verify"] argv]
    "unknown".
