(* ===== verification/CliRuntime.v ===== *)
(** * The runtime of the command line (cli/runtime.py)

    [CliRuntime] owns the connection of the CLI: it opens a transport, discovers
    the target and lets go of both again.  Its state is that of the whole
    command line, with the streams, the questions asked of the cancellation
    token and the progress that was reported.

    Transports are made by [transport_factory], a function of how many were made
    before.  The token is set by a signal handler, at any time: its answers are
    a function of how often it was asked ([token], and [opening n] while the
    [n]-th transport is opened). *)

From S2P Require Import Prelude.
From S2P Require Import Errors.
From S2P Require Import TaskPlans.
From S2P Require Import Words.
From S2P Require Import Models.
From S2P Require Import Frame.
From S2P Require Import Constants.
From S2P Require Import Targets.
From S2P Require Import BootClient.
From S2P Require Import OperationResults.
From S2P Require Import RamOps.
From S2P Require Import SerialTransport.

(** ** Configuration *)

Record CliRuntimeConfig : Set := mkCliConfig {
  cc_transport : string;
  cc_port : option string;
  cc_baud : Z;
  cc_timeout_ms : option Z;
}.

Definition CliRuntimeConfig_post_init (c : CliRuntimeConfig) : Res CliRuntimeConfig :=
  fail (Err CliConfigurationError (Lit "only the serial transport is supported"))
    when negb (bool_decide (cc_transport c = "serial"%string)) ;;
  fail (Err CliConfigurationError (Lit "baud must be a positive integer")) when cc_baud c <=? 0 ;;
  fail (Err CliConfigurationError (Lit "timeout-ms must be a positive integer"))
    when match cc_timeout_ms c with Some timeout => timeout <=? 0 | None => false end ;;
  Ok c.

Definition require_port (c : CliRuntimeConfig) : Res string :=
  match cc_port c with
  | Some port => if blank port
                 then Raise (Err CliConfigurationError (Lit "--port is required for command execution"))
                 else Ok port
  | None => Raise (Err CliConfigurationError (Lit "--port is required for command execution"))
  end.

Definition serial_transport_config (c : CliRuntimeConfig) : Res SerialTransportConfig :=
  let? port := require_port c in
  Ok match cc_timeout_ms c with
     | None => serial_config port (cc_baud c)
     | Some timeout => mkSerialConfig port (cc_baud c) timeout timeout timeout
     end.

(** ** State *)

Section runtime.
Context {T : Type} `{ByteTransport T}.
Context (iterations : Z → nat).
Context (transport_factory : nat → SerialTransportConfig → Res T).
Context (token : nat → bool) (opening : nat → nat → bool).
Context (no_service : PreparedServiceImage).

(** [_disconnect_attempted] is always False and left out. *)
Record CliRuntime : Type := mkCliRuntime {
  rt_config : CliRuntimeConfig;
  rt_session : option (BootProtocolClient T);
  rt_connected : bool;
  rt_discovery_attempted : bool;
  rt_discovery_outcome : option TargetDiscoveryOutcome;
}.

(** What the command line reads and writes, and what it has used up. *)
Record CliState : Type := mkCliState {
  cs_runtime : CliRuntime;
  cs_released : list T;             (* transports the runtime has let go of *)
  cs_opened : nat;                  (* transports made *)
  cs_asked : nat;                   (* questions to the token *)
  cs_progress : list ProgressEvent;
  cs_stages : list (option (Z * Z * string));  (* calls that set or clear the workflow stage *)
  cs_run_attempted : bool;          (* a RUN command has reached the wire *)
  cs_stdin : list string;           (* the lines to come *)
  cs_stderr : list string;
  cs_stdout : list string;
}.

Abbreviation Cli := (ST CliState).

Definition CliRuntime_init (config : CliRuntimeConfig) : CliRuntime :=
  mkCliRuntime config None false false None.

Definition cs_set_runtime (v : CliRuntime) (s : CliState) : CliState :=
  mkCliState v (cs_released s) (cs_opened s) (cs_asked s) (cs_progress s) (cs_stages s)
    (cs_run_attempted s) (cs_stdin s) (cs_stderr s) (cs_stdout s).
Definition cs_set_asked (v : nat) (s : CliState) : CliState :=
  mkCliState (cs_runtime s) (cs_released s) (cs_opened s) v (cs_progress s) (cs_stages s)
    (cs_run_attempted s) (cs_stdin s) (cs_stderr s) (cs_stdout s).
Definition cs_set_run_attempted (v : bool) (s : CliState) : CliState :=
  mkCliState (cs_runtime s) (cs_released s) (cs_opened s) (cs_asked s) (cs_progress s)
    (cs_stages s) v (cs_stdin s) (cs_stderr s) (cs_stdout s).
Definition cs_add_stage (v : option (Z * Z * string)) (s : CliState) : CliState :=
  mkCliState (cs_runtime s) (cs_released s) (cs_opened s) (cs_asked s) (cs_progress s)
    (cs_stages s ++ [v]) (cs_run_attempted s) (cs_stdin s) (cs_stderr s) (cs_stdout s).
Definition cs_set_stdin (v : list string) (s : CliState) : CliState :=
  mkCliState (cs_runtime s) (cs_released s) (cs_opened s) (cs_asked s) (cs_progress s)
    (cs_stages s) (cs_run_attempted s) v (cs_stderr s) (cs_stdout s).
Definition cs_add_stderr (v : list string) (s : CliState) : CliState :=
  mkCliState (cs_runtime s) (cs_released s) (cs_opened s) (cs_asked s) (cs_progress s)
    (cs_stages s) (cs_run_attempted s) (cs_stdin s) (cs_stderr s ++ v) (cs_stdout s).
Definition cs_add_stdout (v : string) (s : CliState) : CliState :=
  mkCliState (cs_runtime s) (cs_released s) (cs_opened s) (cs_asked s) (cs_progress s)
    (cs_stages s) (cs_run_attempted s) (cs_stdin s) (cs_stderr s) (cs_stdout s ++ [v]).

(** [self._clear_connection_state()]; a session that is dropped leaves its
    transport behind. *)
Definition clear_connection_state (s : CliState) : CliState :=
  mkCliState (CliRuntime_init (rt_config (cs_runtime s)))
    (cs_released s ++ match rt_session (cs_runtime s) with
                      | Some client => [bc_transport client]
                      | None => []
                      end)
    (cs_opened s) (cs_asked s) (cs_progress s) (cs_stages s) (cs_run_attempted s) (cs_stdin s)
    (cs_stderr s) (cs_stdout s).

(** [self._session = session] *)
Definition with_session (client : BootProtocolClient T) (s : CliState) : CliState :=
  let r := cs_runtime s in
  cs_set_runtime (mkCliRuntime (rt_config r) (Some client) (rt_connected r)
                    (rt_discovery_attempted r) (rt_discovery_outcome r)) s.
Definition with_connected (s : CliState) : CliState :=
  let r := cs_runtime s in
  cs_set_runtime (mkCliRuntime (rt_config r) (rt_session r) true (rt_discovery_attempted r)
                    (rt_discovery_outcome r)) s.
Definition with_discovery (outcome : option TargetDiscoveryOutcome) (s : CliState) : CliState :=
  let r := cs_runtime s in
  cs_set_runtime (mkCliRuntime (rt_config r) (rt_session r) (rt_connected r) true outcome) s.

(** ** Properties of the runtime *)

Definition the_session : Cli (BootProtocolClient T) :=
  s <- get ;;
  match rt_session (cs_runtime s) with
  | None => raise (Err RuntimeError (Lit "CLI session has not been created"))
  | Some client => ret client
  end.

Definition discovered_target : Cli DiscoveredTarget :=
  s <- get ;;
  match rt_discovery_outcome (cs_runtime s) ≫= td_discovered_target with
  | None => raise (Err RuntimeError (Lit "CLI target discovery has not succeeded"))
  | Some target => ret target
  end.

Definition the_target : Cli TargetProfile :=
  target <- discovered_target ;; ret (dt_target_profile target).

(** [source.is_cancel_requested()] *)
Definition is_cancel_requested : Cli bool :=
  λ s, (Ok (token (cs_asked s)), cs_set_asked (S (cs_asked s)) s).

(** A computation with the client of the session *)
Definition on_client {A} (m : ST (BootProtocolClient T) A) : Cli A :=
  client <- the_session ;;
  λ s, let '(r, client) := m client in (r, with_session client s).

(** An operation on the session, which asks the token and reports progress *)
Definition operate {A} (m : ST (World T) A) : Cli A :=
  client <- the_session ;;
  λ s,
    let '(r, w) := m (mkWorld client (cs_asked s) (cs_progress s)) in
    (r, let s := with_session (ow_client w) s in
        mkCliState (cs_runtime s) (cs_released s) (cs_opened s) (ow_asked w) (ow_progress w)
          (cs_stages s) (cs_run_attempted s) (cs_stdin s) (cs_stderr s) (cs_stdout s)).

(** ** Connecting *)

(** [except TransportError as exc: raise RuntimeCommunicationError(str(exc)) from exc] *)
Definition as_communication_error (exc : Exn) : Exn :=
  if isinstance exc TransportError then Err RuntimeCommunicationError (exn_str exc) else exc.

Definition disconnect : Cli unit :=
  s <- get ;;
  match rt_session (cs_runtime s) with
  | None => modify clear_connection_state
  | Some _ =>
      λ s,
        let '(r, s) := on_client session_disconnect s in
        (match r with Ok u => Ok u | Raise exc => Raise (as_communication_error exc) end,
         clear_connection_state s)
  end.

(** The transport is made and opened inside the [try] of [connect]. *)
Definition open_transport : Cli TransportOpenResult :=
  s <- get ;;
  let n := cs_opened s in
  config <- lift (serial_transport_config (rt_config (cs_runtime s))) ;;
  modify (λ s, mkCliState (cs_runtime s) (cs_released s) (S n) (cs_asked s) (cs_progress s)
                 (cs_stages s) (cs_run_attempted s) (cs_stdin s) (cs_stderr s) (cs_stdout s)) ;;;
  transport <- lift (transport_factory n config) ;;
  modify (with_session (BootProtocolClient_init transport)) ;;;
  on_client (session_connect (Some (opening n))).

Definition connect : Cli TransportOpenResult :=
  s <- get ;;
  if rt_connected (cs_runtime s)
  then raise (Err RuntimeError (Lit "CLI runtime is already connected")) else
  lift (require_port (rt_config (cs_runtime s))) ;;;
  modify clear_connection_state ;;;
  result <- catch open_transport
    (λ exc, modify clear_connection_state ;;; raise (as_communication_error exc)) ;;
  match to_status result with
  | OPENED => modify with_connected
  | CANCELLED => modify clear_connection_state
  end ;;;
  ret result.

(** [try: self.disconnect() except Exception: pass] *)
Definition disconnect_silently : Cli unit := catch disconnect (λ _, ret tt).

Definition discover : Cli TargetDiscoveryOutcome :=
  s <- get ;;
  if negb (rt_connected (cs_runtime s))
  then raise (Err RuntimeError (Lit "CLI runtime must be connected before discovery")) else
  if rt_discovery_attempted (cs_runtime s) then
    match rt_discovery_outcome (cs_runtime s) with
    | None => raise (Err RuntimeError (Lit "CLI discovery completed without an outcome"))
    | Some outcome => ret outcome
    end
  else
  modify (with_discovery None) ;;;
  outcome <- catch (operate (discover_connected_target iterations no_service))
    (λ exc, disconnect_silently ;;; raise (as_communication_error exc)) ;;
  modify (with_discovery (Some outcome)) ;;;
  (if negb (or_ok (td_result outcome)) then disconnect else ret tt) ;;;
  ret outcome.

(** ** Contexts *)

Definition operation_context (progress : bool) : Cli OperationContext :=
  the_session ;;;
  target <- the_target ;;
  ret (mkContext target progress (Some token) no_service false).

Definition flash_operation_context (service : PreparedServiceImage) (progress : bool)
    : Cli OperationContext :=
  the_session ;;;
  target <- the_target ;;
  ret (mkContext target progress (Some token) service false).
End runtime.
Arguments CliRuntime T : clear implicits.
Arguments CliState T : clear implicits.
