(* ===== verification/CliCommands.v ===== *)
(** * The commands of the command line (cli/commands.py)

    The handlers of the commands on the connected runtime: they prepare the
    images, ask for a confirmation, look at the cancellation token between the
    steps and run the operations of operations/.  Reading an image file, with
    hex2000 where it is an .out file, and reading a map file are the functions
    of [ImageFiles]. *)

From S2P Require Import Prelude.
From S2P Require Import Errors.
From S2P Require Import Constants.
From S2P Require Import Messages.
From S2P Require Import TaskPlans.
From S2P Require Import Words.
From S2P Require Import Frame.
From S2P Require Import Models.
From S2P Require Import Firmware.
From S2P Require Import TiMap.
From S2P Require Import ServiceImage.
From S2P Require Import Targets.
From S2P Require Import BootClient.
From S2P Require Import OperationResults.
From S2P Require Import OperationProtocol.
From S2P Require Import FlashOps.
From S2P Require Import StatusOps.
From S2P Require Import StatusModels.
From S2P Require Import RamOps.
From S2P Require Import Cli.
From S2P Require Import CliRuntime.

(** [load_firmware_image(path)] and [Path(path).read_text()] *)
Class ImageFiles : Type := {
  load_firmware_image : string → Res FirmwareImage;
  read_map_text : string → Res text;
}.

(** ** Outcomes without an operation *)

(** [_cancelled_outcome] *)
Definition cancelled_outcome (command message : string) : CommandOutcome :=
  error_outcome command "cli" "CANCELLED" (Lit message) ExitCode.CANCELLED.

(** [_preparation_failure] *)
Definition preparation_failure (command : string) (exc : Exn) : CommandOutcome :=
  mkCommandOutcome command None None
    (Some (mkCliError "operation" "RESOURCE_PREPARATION_FAILED" (exn_str exc)
             (Some [("exception_type"%string, VStr (class_name (class_of exc)))])))
    (Some ExitCode.OPERATION_FAILURE).

(** [_unsupported] *)
Definition unsupported (command message : string) : CommandOutcome :=
  error_outcome command "operation" "UNSUPPORTED_OPERATION" (Lit message)
    ExitCode.OPERATION_FAILURE.

(** [isinstance(exc, _PREPARATION_ERRORS)] *)
Definition preparation_error (exc : Exn) : bool :=
  isinstance exc OSError || isinstance exc ValueError || isinstance exc Hex2000Error.

(** ** Admission of RUN (cli/commands.py, [_run_admission]) *)

Definition truthy (v : PyVal) : bool :=
  match v with
  | VNone => false
  | VBool b => b
  | VInt z => negb (z =? 0)
  | VStr s => negb (bool_decide (s = EmptyString))
  | VSeq l => negb (zlen l =? 0)
  | VDict l => negb (zlen l =? 0)
  end.

(** A missing key or a missing layout raises inside the [try]: not admitted. *)
Definition run_admission (device_info : DeviceInfo) (target : TargetProfile) (summary : Dict)
    : bool :=
  let holds key test := match dict_get key summary with Some v => test v | None => false end in
  match dict_get "entry_point" summary, mp_flash (tp_memory_map target) with
  | Some (VInt entry_point), Some flash =>
      holds "metadata_valid"%string truthy
      && holds "state"%string (λ v, py_eq v (VInt 1))
      && negb (entry_point =? 0)
      && holds "image_size_words"%string (λ v, negb (py_eq v (VInt 0)))
      && holds "image_crc32"%string (λ v, negb (py_eq v (VInt 0)))
      && holds "target_device_id"%string (λ v, py_eq v (VInt (di_device_id device_info)))
      && holds "target_cpu_id"%string (λ v, py_eq v (VInt (di_cpu_id device_info)))
      && (entry_point mod 8 =? 0)
      && existsb (λ range, MemoryMap.contains range entry_point) (fl_app_ranges flash)
  | _, _ => false
  end.

(** [_run_ram_admission] *)
Definition run_ram_admission (target : TargetProfile) (entry_point : Z) : option CommandOutcome :=
  let command := "run-ram"%string in
  if negb (is_some (tp_command_set target run_ram))
  then Some (unsupported command "active target does not support RUN_RAM") else
  match mp_ram (tp_memory_map target) with
  | None => Some (unsupported command "active target does not define a RAM layout")
  | Some ram =>
      if negb (existsb (λ range, MemoryMap.contains range entry_point) (rl_ram_app_ranges ram)) then
        Some (mkCommandOutcome command None None
                (Some (mkCliError "operation" "INVALID_RAM_ENTRY_POINT"
                         (Lit "entry point is outside the active target RAM App ranges")
                         (Some [("entry_point"%string, VInt entry_point)])))
                (Some ExitCode.OPERATION_FAILURE))
      else None
  end.

(** ** What reaches the wire

    The bytes that [BootProtocolClient.transact] writes, or why it raises
    before: the observer of wire attempts is called in between. *)
Definition encoded_request {T} (c : BootProtocolClient T) (command : Z) (payload : list Z)
    : Res (list Z) :=
  let? max_payload := payload_limit c command in
  fail (PayloadLimitErr command (zlen payload) max_payload
          (di_max_payload_words <$> bc_device_info c) (pi_max_payload_words <$> bc_protocol_info c))
    when zlen payload >? max_payload ;;
  let? sequence := next_sequence (bc_sequence c) in
  let? request := Frame_init PacketType.REQUEST command sequence payload 0 0 PROTOCOL_VERSION in
  encode_bytes request.

(** ** The commands *)

(** [finally: cleanup]; the cleanup raises nothing. *)
Definition finally {S A} (m : ST S A) (cleanup : S → S) : ST S A :=
  λ s, let '(r, s) := m s in (r, cleanup s).

Section commands.
Context {T : Type} `{ByteTransport T} `{ImageFiles}.
Context (iterations : Z → nat).
Context (token : nat → bool).
Context (no_service : PreparedServiceImage).
Context (stdin_tty : bool).            (* whether the input is a terminal *)
Context (args : CliArgs) (progress : bool).

Abbreviation Cli := (ST (CliState T)).

Abbreviation cancel_requested := (is_cancel_requested token).
Abbreviation with_progress := (operation_context token no_service progress).

(** [_client(runtime)] *)
Definition client_of : Cli (BootProtocolClient T) := the_session.

(** *** Preparation of the images

    [prepare_service_image], [prepare_flash_app_image] and
    [prepare_ram_app_image] with the files they read; a path that is missing
    from the arguments is no path. *)

Definition path_argument (path : option string) : Res string :=
  match path with
  | Some path => Ok path
  | None => Raise (Err TypeError (Lit "expected str, bytes or os.PathLike object, not NoneType"))
  end.

Definition HEADER_SYMBOL : text := chars "g_boot_flash_service_header".

Definition prepare_service_file (target : TargetProfile) (image_path map_path : option string)
    : Res PreparedServiceImage :=
  match mp_ram (tp_memory_map target) with
  | None => Raise (Err ValueError (Lit "target must define a RAM layout"))
  | Some _ =>
      let? image_path := path_argument image_path in
      let? image := load_firmware_image image_path in
      let? map_path := path_argument map_path in
      let? map := read_map_text map_path in
      let? symbols := parse_flash_service_symbols map (Some HEADER_SYMBOL) in
      prepare_service_image target image symbols SERVICE_REQUIRED_CAPABILITIES
  end.

Definition prepare_app_file (target : TargetProfile) (path : option string)
    : Res PreparedFlashImage :=
  match mp_flash (tp_memory_map target), mp_metadata (tp_memory_map target) with
  | Some _, Some _ =>
      let? path := path_argument path in
      let? image := load_firmware_image path in
      prepare_flash_app_image target image
  | _, _ => Raise (Err ValueError (Lit "target must define flash and metadata layouts"))
  end.

Definition prepare_ram_file (target : TargetProfile) (path : option string)
    : Res PreparedRamImage :=
  match mp_ram (tp_memory_map target) with
  | None => Raise (Err ValueError (Lit "target must define a RAM layout"))
  | Some _ =>
      let? path := path_argument path in
      let? image := load_firmware_image path in
      prepare_ram_app_image target image
  end.

(** [_prepare_service], [_prepare_app], [_prepare_ram]: a prepared image or the
    outcome of a failure, and [if failure is not None: return failure]. *)
Definition prepared {A} (command : string) (prepare : TargetProfile → Res A)
    (k : A → Cli CommandOutcome) : Cli CommandOutcome :=
  target <- the_target ;;
  match prepare target with
  | Ok a => k a
  | Raise exc =>
      if preparation_error exc then ret (preparation_failure command exc) else raise exc
  end.

(** [if _cancel_requested(runtime): return _cancelled_outcome(command, message)] *)
Definition unless_cancelled (command message : string) (k : Cli CommandOutcome)
    : Cli CommandOutcome :=
  cancelled <- cancel_requested ;;
  if (cancelled : bool) then ret (cancelled_outcome command message) else k.

Definition with_service (command : string) (k : PreparedServiceImage → Cli CommandOutcome)
    : Cli CommandOutcome :=
  prepared command
    (λ target, prepare_service_file target (ca_flash_service_image args) (ca_flash_service_map args))
    (λ service, unless_cancelled command "cancelled after Flash Service preparation" (k service)).

Definition with_app (command : string) (k : PreparedFlashImage → Cli CommandOutcome)
    : Cli CommandOutcome :=
  prepared command (λ target, prepare_app_file target (ca_image args))
    (λ image, unless_cancelled command "cancelled after Flash App preparation" (k image)).

Definition with_ram (command : string) (k : PreparedRamImage → Cli CommandOutcome)
    : Cli CommandOutcome :=
  prepared command (λ target, prepare_ram_file target (ca_image args))
    (λ image, unless_cancelled command "cancelled after RAM image preparation" (k image)).

(** *** Confirmation *)

(** [stdin.readline()] *)
Definition read_line : Cli string :=
  lines <- gets cs_stdin ;;
  match lines with
  | [] => ret EmptyString
  | line :: lines => modify (cs_set_stdin lines) ;;; ret line
  end.

(** [request_confirmation(details, assume_yes=False)] *)
Definition request_confirmation (details : Dict) : Cli ConfirmationDecision :=
  modify (cs_add_stderr (confirmation_prompt details stdin_tty)) ;;;
  if stdin_tty then answer <- read_line ;; ret (answer_decision answer)
  else ret CONFIRMATION_REQUIRED.

(** [_confirmation_outcome], and [if confirmation_failure is not None] *)
Definition confirmed (command : string) (details : Dict) (k : Cli CommandOutcome)
    : Cli CommandOutcome :=
  if ca_yes args then k else
  decision <- request_confirmation details ;;
  match decision with
  | APPROVED => k
  | CONFIRMATION_REQUIRED =>
      ret (error_outcome command "cli" "CONFIRMATION_REQUIRED"
             (Lit "interactive confirmation is required; pass --yes")
             ExitCode.CONFIRMATION_REQUIRED)
  | DECLINED =>
      ret (error_outcome command "cli" "USER_DECLINED" (Lit "user declined the operation")
             ExitCode.USER_DECLINED)
  end.

Definition path_value (path : option string) : PyVal :=
  match path with Some path => VStr path | None => VNone end.

(** [_service_details] *)
Definition service_details (command : string) : Cli Dict :=
  target <- the_target ;;
  ret [("command"%string, VStr command); ("connected target"%string, VStr (tp_name target));
       ("Flash Service image path"%string, path_value (ca_flash_service_image args));
       ("Flash Service map path"%string, path_value (ca_flash_service_map args))].

(** [_app_details] *)
Definition app_details (image : PreparedFlashImage) : Dict :=
  [("App path"%string, path_value (ca_image args));
   ("entry point"%string, VInt (ii_entry_point (pf_identity image)));
   ("image CRC"%string, VInt (ii_image_crc32 (pf_identity image)));
   ("image size"%string, VInt (ii_image_size_words (pf_identity image)))].

(** [_set_workflow_stage] with the check of the renderer, [_clear_workflow_stage] *)
Definition set_workflow_stage (index total : Z) (name : string) : Cli unit :=
  if progress then
    if (index <? 1) || (index >? total)
    then raise (Err ValueError (Lit "workflow stage must satisfy 1 <= index <= total"))
    else modify (cs_add_stage (Some (index, total, name)))
  else ret tt.

Definition clear_workflow_stage (s : CliState T) : CliState T :=
  if progress then cs_add_stage None s else s.

(** *** Status commands *)

(** [_target_summary]; the caches of the model are typed. *)
Definition target_summary : Cli Dict :=
  discovered <- discovered_target ;;
  client <- client_of ;;
  let device_info := dt_device_info discovered in
  if negb (bool_decide (bc_device_info client = Some device_info))
  then raise (Err RuntimeError (Lit "discovery cache DeviceInfo does not match the discovered target"))
  else
  match bc_protocol_info client with
  | None => raise (Err RuntimeError (Lit "discovery cache does not contain typed ProtocolInfo"))
  | Some protocol_info =>
      payload <- lift (effective_max_payload_words client) ;;
      data <- lift (effective_max_data_words client) ;;
      write_data <- lift (effective_max_write_data_words client) ;;
      ret [("target_key"%string, VStr (dt_target_key discovered));
           ("profile"%string, VStr (tp_name (dt_target_profile discovered)));
           ("device_info"%string, VDict (DeviceInfo_dict device_info));
           ("protocol_info"%string, VDict (ProtocolInfo_dict protocol_info));
           ("effective_limits"%string,
            VDict (int_dict [("effective_max_payload_words"%string, payload);
                             ("effective_max_data_words"%string, data);
                             ("effective_max_write_data_words"%string, write_data)]))]
  end.

(** [CommandOutcome(command, operation_result=operation(runtime.operation_context(progress)))] *)
Definition run_simple (command : string)
    (operation : OperationContext → ST (World T) OperationResult) : Cli CommandOutcome :=
  context <- with_progress ;;
  result <- operate (operation context) ;;
  ret (operation_outcome command result).

Definition handle_status : Cli CommandOutcome :=
  context <- with_progress ;;
  result <- operate (get_metadata_summary_op iterations context) ;;
  if negb (or_ok result) then ret (operation_outcome "status" result) else
  target <- target_summary ;;
  ret (mkCommandOutcome "status"
         (Some [("target"%string, VDict target);
                ("metadata"%string, VDict (operation_result_to_dict result))])
         (Some result) None None).

Definition handle_device_info : Cli CommandOutcome :=
  client <- client_of ;;
  match bc_device_info client with
  | None => raise (Err RuntimeError (Lit "discovery cache does not contain typed DeviceInfo"))
  | Some info =>
      ret (mkCommandOutcome "device-info" (Some (DeviceInfo_dict info)) None None None)
  end.

Definition handle_protocol_info : Cli CommandOutcome :=
  client <- client_of ;;
  match bc_protocol_info client with
  | None => raise (Err RuntimeError (Lit "discovery cache does not contain typed ProtocolInfo"))
  | Some info =>
      payload <- lift (effective_max_payload_words client) ;;
      data <- lift (effective_max_data_words client) ;;
      write_data <- lift (effective_max_write_data_words client) ;;
      ret (mkCommandOutcome "protocol-info"
             (Some (ProtocolInfo_dict info
                    ++ int_dict [("effective_max_payload_words"%string, payload);
                                 ("effective_max_data_words"%string, data);
                                 ("effective_max_write_data_words"%string, write_data)]))
             None None None)
  end.

Definition handle_last_error : Cli CommandOutcome :=
  run_simple "last-error" (get_last_error_op iterations).
Definition handle_metadata_status : Cli CommandOutcome :=
  run_simple "metadata status" (get_metadata_summary_op iterations).
Definition handle_service_status : Cli CommandOutcome :=
  run_simple "service status" (get_service_status_op iterations).
Definition handle_ping : Cli CommandOutcome := run_simple "ping" (ping_op iterations).

Definition handle_memory_read : Cli CommandOutcome :=
  request <- lift (MemoryReadRequest_post_init (mkReadRequest (ca_address args) (ca_words args))) ;;
  run_simple "memory read" (λ context, memory_read_op iterations context request).

(** *** Metadata commands *)

(** An operation in the context of a Flash operation *)
Definition run_flash_command (command : string) (service : PreparedServiceImage)
    (operation : OperationContext → ST (World T) OperationResult) : Cli CommandOutcome :=
  context <- flash_operation_context token service progress ;;
  result <- operate (operation context) ;;
  ret (operation_outcome command result).

Definition handle_metadata_image_valid : Cli CommandOutcome :=
  let command := "metadata image-valid"%string in
  unless_cancelled command "cancelled before Flash Service preparation" (
    with_service command (λ service, with_app command (λ image,
      details <- service_details command ;;
      let details := details ++ app_details image ++
        [("warning"%string, VStr ("This publishes IMAGE_VALID without verifying Flash first. " ++
            "The caller is responsible for ensuring target Flash matches --image."))] in
      confirmed command details (
        unless_cancelled command "cancelled before metadata mutation" (
          run_flash_command command service
            (λ context, append_image_valid iterations context image)))))).

Definition handle_metadata_boot_attempt : Cli CommandOutcome :=
  let command := "metadata boot-attempt"%string in
  unless_cancelled command "cancelled before Flash Service preparation" (
    with_service command (λ service,
      details <- service_details command ;;
      let details := details ++
        [("warning"%string,
          VStr ("This appends one BOOT_ATTEMPT for the current published IMAGE_VALID. " ++
                "It consumes an attempt slot. It does not RUN the application."))] in
      confirmed command details (
        unless_cancelled command "cancelled before metadata mutation" (
          run_flash_command command service (append_boot_attempt iterations))))).

Definition handle_metadata_app_confirmed : Cli CommandOutcome :=
  let command := "metadata app-confirmed"%string in
  unless_cancelled command "cancelled before Flash Service preparation" (
    with_service command (λ service,
      details <- service_details command ;;
      let details := details ++
        [("warning"%string,
          VStr ("This explicitly writes APP_CONFIRMED from the engineering CLI. " ++
                "It bypasses normal App self-confirmation. " ++
                "If the remaining boot conditions are satisfied, it may make the " ++
                "current image auto-boot eligible."))] in
      confirmed command details (
        unless_cancelled command "cancelled before metadata mutation" (
          run_flash_command command service (append_app_confirmed iterations))))).

(** *** Running *)

(** The calls of the observer of wire attempts during a RUN command *)
Definition observe_run (target : TargetProfile) (field : CommandField) (payload : Res (list Z))
    : Cli unit :=
  client <- client_of ;;
  match require_command (tp_command_set target) field, payload with
  | Ok command, Ok words =>
      if is_ok (encoded_request client command words)
      then modify (cs_set_run_attempted true) else ret tt
  | _, _ => ret tt
  end.

Definition run_payload (entry_point : Z) : Res (list Z) :=
  let? entry := split_u32 entry_point in
  Ok [Target.Target_value Target.FLASH_APP; entry.1; entry.2; 0].

Definition run_ram_payload (entry_point : Z) : Res (list Z) :=
  let? entry := split_u32 entry_point in Ok [entry.1; entry.2; 0].

(** [run_flash_app(context, RunFlashAppRequest(entry_point), wire_attempt_observer=...)] *)
Definition observed_run (context : OperationContext) (entry_point : Z) : Cli OperationResult :=
  entry_point <- lift (RunRequest_post_init entry_point) ;;
  observe_run (cx_target context) run (run_payload entry_point) ;;;
  operate (run_flash_app iterations context entry_point).

Definition observed_run_ram (context : OperationContext) (entry_point : Z) : Cli OperationResult :=
  entry_point <- lift (RunRequest_post_init entry_point) ;;
  observe_run (cx_target context) run_ram (run_ram_payload entry_point) ;;;
  operate (run_ram_image iterations context entry_point).

(** [summary[key]] *)
Definition item (key : string) (summary : Dict) : Res PyVal :=
  match dict_get key summary with
  | Some v => Ok v
  | None => Raise (Err KeyError (Lit ("'" ++ key ++ "'")))
  end.

Definition handle_run : Cli CommandOutcome :=
  let command := "run"%string in
  context <- with_progress ;;
  metadata <- operate (get_metadata_summary_op iterations context) ;;
  if negb (or_ok metadata) then ret (operation_outcome command metadata) else
  let summary := or_summary metadata in
  discovered <- discovered_target ;;
  if negb (run_admission (dt_device_info discovered) (dt_target_profile discovered) summary) then
    ret (error_outcome command "operation" "IMAGE_VALID_REQUIRED"
           (Lit "A valid IMAGE_VALID entry point is required") ExitCode.OPERATION_FAILURE)
  else
  unless_cancelled command "cancelled after metadata read" (
    entry_value <- lift (item "entry_point" summary) ;;
    crc <- lift (item "image_crc32" summary) ;;
    size <- lift (item "image_size_words" summary) ;;
    confirmed command
      [("command"%string, VStr command);
       ("connected target"%string, VStr (tp_name (dt_target_profile discovered)));
       ("entry point"%string, entry_value); ("image CRC"%string, crc); ("image size"%string, size);
       ("warning"%string,
        VStr ("Explicit RUN only. This does not write BOOT_ATTEMPT or APP_CONFIRMED. " ++
              "RUN acceptance does not prove application startup, health, or confirmation."))] (
      unless_cancelled command "cancelled before RUN" (
        context <- with_progress ;;
        entry_point <- lift (int_value entry_value) ;;
        result <- observed_run context entry_point ;;
        ret (operation_outcome command result)))).

Definition handle_run_ram : Cli CommandOutcome :=
  let command := "run-ram"%string in
  let entry_point := ca_entry_point args in
  target <- the_target ;;
  match run_ram_admission target entry_point with
  | Some failure => ret failure
  | None =>
      unless_cancelled command "cancelled before RUN_RAM confirmation" (
        confirmed command
          [("command"%string, VStr command); ("connected target"%string, VStr (tp_name target));
           ("entry point"%string, VInt entry_point);
           ("warning"%string,
            VStr ("Explicit RUN_RAM only. This does not load RAM. " ++
                  "This does not perform RAM_CHECK_CRC. " ++
                  "This does not prove the RAM contents match any local image. " ++
                  "RUN_RAM acceptance does not prove application startup or health."))] (
          unless_cancelled command "cancelled before RUN_RAM" (
            context <- with_progress ;;
            result <- observed_run_ram context entry_point ;;
            ret (operation_outcome command result))))
  end.

(** *** RAM and service commands *)

Definition handle_ram_load : Cli CommandOutcome :=
  let command := "ram load"%string in
  unless_cancelled command "cancelled before RAM image preparation" (
    with_ram command (λ image,
      run_simple command (λ context, load_ram_image iterations context image))).

Definition handle_ram_check_crc : Cli CommandOutcome :=
  let command := "ram check-crc"%string in
  unless_cancelled command "cancelled before RAM image preparation" (
    with_ram command (λ image,
      run_simple command (λ context, check_ram_crc_op iterations context image))).

Definition handle_service_attach : Cli CommandOutcome :=
  let command := "service attach"%string in
  unless_cancelled command "cancelled before Flash Service preparation" (
    with_service command (λ service,
      run_flash_command command service (attach_flash_service iterations))).

(** *** Flash commands *)

(** Confirmation, the last look at the token and the erase *)
Definition confirm_erase (service : PreparedServiceImage) (details : Dict) (sector_mask : Z)
    (operation : OperationContext → ST (World T) OperationResult) : Cli CommandOutcome :=
  let command := "erase"%string in
  confirmed command (details ++ [("sector mask"%string, VInt sector_mask)]) (
    unless_cancelled command "cancelled before Flash mutation" (
      run_flash_command command service operation)).

(** [EraseSectorMaskRequest(sector_mask)] and its operation *)
Definition handle_erase : Cli CommandOutcome :=
  let command := "erase"%string in
  let erase_mask sector_mask :=
    with_service command (λ service,
      details <- service_details command ;;
      confirm_erase service details sector_mask
        (λ context, erase_sector_mask iterations context sector_mask)) in
  unless_cancelled command "cancelled before Flash preparation" (
    match ca_image args with
    | Some _ =>
        with_service command (λ service, with_app command (λ image,
          details <- service_details command ;;
          confirm_erase service (details ++ app_details image) (pf_sector_mask image)
            (λ context, erase_flash_image_area iterations context image)))
    | None =>
        if ca_all_app args then
          target <- the_target ;;
          match mp_flash (tp_memory_map target) with
          | None => ret (unsupported command "active target does not define a Flash layout")
          | Some flash => erase_mask (fl_allowed_erase_mask flash)
          end
        else erase_mask (ca_sector_mask args)
    end).

Definition handle_program : Cli CommandOutcome :=
  let command := "program"%string in
  unless_cancelled command "cancelled before Flash preparation" (
    with_service command (λ service, with_app command (λ image,
      details <- service_details command ;;
      confirmed command
        (details ++ app_details image ++ [("semantics"%string, VStr "PROGRAM only")]) (
        unless_cancelled command "cancelled before Flash mutation" (
          run_flash_command command service
            (λ context, program_flash_image iterations context image)))))).

Definition handle_verify : Cli CommandOutcome :=
  let command := "verify"%string in
  unless_cancelled command "cancelled before Flash preparation" (
    with_service command (λ service, with_app command (λ image,
      run_flash_command command service
        (λ context, verify_flash_image iterations context image)))).

(** *** Upgrade *)

(** [result.completion is OperationCompletion.SUCCEEDED] *)
Definition succeeded (result : OperationResult) : bool :=
  bool_decide (or_completion result = Some OperationCompletion.SUCCEEDED).

(** The stages before the tail, with their names *)
Definition pre_tail_stages (context : OperationContext) (image : PreparedFlashImage)
    : list (string * ST (World T) OperationResult) :=
  [("ERASE"%string, erase_flash_image_area iterations context image);
   ("PROGRAM"%string, program_flash_image iterations context image);
   ("VERIFY"%string, verify_flash_image iterations context image);
   ("IMAGE_VALID"%string, append_image_valid iterations context image)].

(** The [for] loop over the stages: the last result, or an outcome to return *)
Fixpoint run_stages (command : string) (total index : Z)
    (stages : list (string * ST (World T) OperationResult)) (result : option OperationResult)
    : Cli (CommandOutcome + option OperationResult) :=
  match stages with
  | [] => ret (inr result)
  | (name, operation) :: stages =>
      set_workflow_stage index total name ;;;
      result <- operate operation ;;
      if negb (succeeded result) then ret (inl (operation_outcome command result)) else
      cancelled <- cancel_requested ;;
      if (cancelled : bool)
      then ret (inl (cancelled_outcome command ("cancelled after " ++ name)))
      else run_stages command total (index + 1) stages (Some result)
  end.

(** BOOT_ATTEMPT and RUN: the part that cannot be cancelled *)
Definition commit_to_run (command : string) (service : PreparedServiceImage)
    (image : PreparedFlashImage) : Cli CommandOutcome :=
  set_workflow_stage 5 6 "BOOT_ATTEMPT" ;;;
  the_session ;;;
  target <- the_target ;;
  result <- operate (append_boot_attempt iterations
                       (mkContext target progress None service false)) ;;
  if negb (succeeded result) then ret (operation_outcome command result) else
  set_workflow_stage 6 6 "RUN" ;;;
  result <- observed_run (mkContext target progress None no_service false)
              (ii_entry_point (pf_identity image)) ;;
  ret (operation_outcome command result).

Definition upgrade_warnings (no_run : bool) : Dict :=
  [("workflow"%string,
    VStr (if no_run then "ERASE → PROGRAM → VERIFY → IMAGE_VALID → STOP"
          else "ERASE → PROGRAM → VERIFY → IMAGE_VALID → BOOT_ATTEMPT → RUN"));
   ("warning"%string,
    VStr (if no_run
          then "This rewrites the application Flash area. " ++
               "No BOOT_ATTEMPT will be written. " ++
               "The application will not be RUN. " ++
               "APP_CONFIRMED will not be written."
          else "This rewrites the application Flash area. " ++
               "After IMAGE_VALID, a final cancellation check is performed. " ++
               "If that check passes, BOOT_ATTEMPT → RUN becomes a non-cancellable " ++
               "commit-to-run tail. " ++
               "APP_CONFIRMED is not written by this workflow. " ++
               "RUN acceptance does not prove App health or confirmation."))].

Definition handle_upgrade : Cli CommandOutcome :=
  let command := "upgrade"%string in
  let no_run := ca_no_run args in
  let total_stages := if no_run then 4 else 6 in
  finally (
    unless_cancelled command "cancelled before Flash Service preparation" (
      with_service command (λ service, with_app command (λ image,
        details <- service_details command ;;
        confirmed command (details ++ app_details image ++ upgrade_warnings no_run) (
          unless_cancelled command "cancelled after upgrade confirmation" (
            context <- flash_operation_context token service progress ;;
            stages <- run_stages command total_stages 1 (pre_tail_stages context image) None ;;
            match stages with
            | inl outcome => ret outcome
            | inr result =>
                if no_run then ret (mkCommandOutcome command None result None None)
                else commit_to_run command service image
            end))))))
    clear_workflow_stage.

(** [execute_command] *)
Definition handlers : list (string * Cli CommandOutcome) :=
  [("status"%string, handle_status); ("device-info"%string, handle_device_info);
   ("protocol-info"%string, handle_protocol_info); ("last-error"%string, handle_last_error);
   ("metadata status"%string, handle_metadata_status);
   ("metadata image-valid"%string, handle_metadata_image_valid);
   ("metadata boot-attempt"%string, handle_metadata_boot_attempt);
   ("metadata app-confirmed"%string, handle_metadata_app_confirmed);
   ("service status"%string, handle_service_status);
   ("service attach"%string, handle_service_attach); ("erase"%string, handle_erase);
   ("program"%string, handle_program); ("verify"%string, handle_verify);
   ("upgrade"%string, handle_upgrade); ("memory read"%string, handle_memory_read);
   ("ram load"%string, handle_ram_load); ("ram check-crc"%string, handle_ram_check_crc);
   ("run"%string, handle_run); ("run-ram"%string, handle_run_ram)].

Definition execute_command : Cli CommandOutcome :=
  match find (λ h, bool_decide (h.1 = ca_command args)) handlers with
  | Some handler => handler.2
  | None => raise (Err RuntimeError
                     (Fmt "unsupported CLI command: {!r}" [VStr (ca_command args)]))
  end.
End commands.
