(* ===== verification/CliMain.v ===== *)
(** * One command, and the interactive shell (cli/main.py, cli/shell.py)

    [main] runs one command between connecting and disconnecting; [run_shell]
    reads commands from its input until it ends.  The parsers that argparse
    builds are parameters, [shlex.split] is [shell_words].  The streams keep
    what is written; the traceback that [--verbose] adds, the text of the
    progress renderer and a KeyboardInterrupt at the prompt, after which the
    shell prompts again, are left out. *)

From Stdlib Require Import Ascii.
From S2P Require Import Prelude.
From S2P Require Import Errors.
From S2P Require Import Messages.
From S2P Require Import TaskPlans.
From S2P Require Import Targets.
From S2P Require Import BootClient.
From S2P Require Import OperationResults.
From S2P Require Import StatusModels.
From S2P Require Import RamOps.
From S2P Require Import SerialTransport.
From S2P Require Import Cli.
From S2P Require Import CliRuntime.
From S2P Require Import CliCommands.

(** ** [shlex.split(line)]: POSIX rules, no comments *)

Inductive LexState : Set :=
| Between                              (* before a word *)
| InWord
| InQuotes (quote : ascii)
| Escaped (inside : option ascii).     (* after a backslash, in quotes or not *)

Definition BACKSLASH : ascii := ascii_of_nat 92.
Definition DOUBLE_QUOTE : ascii := ascii_of_nat 34.

Definition shlex_blank (c : ascii) : bool :=
  bool_decide (nat_of_ascii c ∈ [32; 9; 13; 10]%nat).
Definition shlex_quote (c : ascii) : bool := bool_decide (nat_of_ascii c ∈ [39; 34]%nat).

Definition push (token : string) (c : ascii) : string := (token ++ String c EmptyString)%string.

(** The word that ends here, if there is one *)
Definition end_word (token : string) (quoted : bool) : list string :=
  if bool_decide (token = EmptyString) && negb quoted then [] else [token].

Fixpoint lex (s : string) (state : LexState) (token : string) (quoted : bool) : Res (list string) :=
  match s with
  | EmptyString =>
      match state with
      | Between | InWord => Ok (end_word token quoted)
      | InQuotes _ => Raise (Err ValueError (Lit "No closing quotation"))
      | Escaped _ => Raise (Err ValueError (Lit "No escaped character"))
      end
  | String c s =>
      match state with
      | Between | InWord =>
          if shlex_blank c then
            let? words := lex s Between EmptyString false in Ok (end_word token quoted ++ words)
          else if Ascii.eqb c BACKSLASH then lex s (Escaped None) token quoted
          else if shlex_quote c then lex s (InQuotes c) token quoted
          else lex s InWord (push token c) quoted
      | InQuotes quote =>
          if Ascii.eqb c quote then lex s InWord token true
          else if Ascii.eqb c BACKSLASH && Ascii.eqb quote DOUBLE_QUOTE
          then lex s (Escaped (Some quote)) token true
          else lex s (InQuotes quote) (push token c) true
      | Escaped None => lex s InWord (push token c) quoted
      | Escaped (Some quote) =>
          if Ascii.eqb c BACKSLASH || Ascii.eqb c quote
          then lex s (InQuotes quote) (push token c) quoted
          else lex s (InQuotes quote) (push (push token BACKSLASH) c) quoted
      end
  end.

Definition shell_words (line : string) : Res (list string) := lex line Between EmptyString false.

(** ** Outcomes *)

Definition usage_outcome (command : string) (message : Msg) : CommandOutcome :=
  error_outcome command "cli" "CLI_USAGE_ERROR" message ExitCode.CLI_USAGE_ERROR.
Definition communication_outcome (command : string) (message : Msg) : CommandOutcome :=
  error_outcome command "communication" "COMMUNICATION_FAILURE" message
    ExitCode.COMMUNICATION_FAILURE.
Definition internal_outcome (command : string) (message : Msg) : CommandOutcome :=
  error_outcome command "internal" "INTERNAL_ERROR" message ExitCode.INTERNAL_ERROR.

(** The [except] clauses behind a command *)
Definition exception_outcome (command : string) (error : Exn) : CommandOutcome :=
  if isinstance error RuntimeCommunicationError then communication_outcome command (exn_str error)
  else if isinstance error CliConfigurationError then usage_outcome command (exn_str error)
  else internal_outcome command (exn_str error).

(** [_disconnect_outcome]: a RuntimeCommunicationError is raised from a
    TransportError, the other exceptions have no cause. *)
Definition disconnect_outcome (command : string) (error : Exn) : CommandOutcome :=
  let domain := match classify_exception_domain error with
                | Some domain => Some domain
                | None => if isinstance error RuntimeCommunicationError then Some COMMUNICATION
                          else None
                end in
  match domain with
  | Some COMMUNICATION =>
      communication_outcome command (Prefixed "disconnect failed: " (exn_str error))
  | Some OPERATION =>
      error_outcome command "operation" "OPERATION_FAILURE" (exn_str error)
        ExitCode.OPERATION_FAILURE
  | None => internal_outcome command (Prefixed "disconnect failed: " (exn_str error))
  end.

(** [_human_status_outcome] *)
Definition human_status_outcome (outcome : CommandOutcome) : CommandOutcome :=
  match co_result outcome with
  | Some result =>
      match dict_get "metadata" result with
      | Some (VDict metadata) =>
          match dict_get "summary" metadata with
          | Some summary =>
              if bool_decide (co_command outcome = "status"%string) then
                mkCommandOutcome (co_command outcome)
                  (Some (map (λ kv, if bool_decide (kv.1 = "metadata"%string)
                                    then (kv.1, summary) else kv) result))
                  (co_operation_result outcome) (co_error outcome) (co_exit_code outcome)
              else outcome
          | None => outcome
          end
      | _ => outcome
      end
  | None => outcome
  end.

(** ** Parsing *)

(** The usage and the name of a parser, for the message of an error *)
Record Parser : Type := mkParser {
  ps_usage : string;
  ps_prog : string;
  ps_parse : list string → ParseResult;         (* [argparse.ArgumentParser.parse_args] *)
}.

(** [CliArgumentParser.parse_args] *)
Definition parse_args (parser : Parser) (argv : list string) : ParseResult :=
  match ps_parse parser argv with
  | Parsed args => check_parsed (ps_usage parser) (ps_prog parser) args
  | other => other
  end.

Inductive ServiceUse : Type :=
| UsePaths (image map : string)
| UseError (usage prog message : string).

Section main.
Context {T : Type} `{ByteTransport T} `{ImageFiles}.
Context (iterations : Z → nat).
Context (transport_factory : nat → SerialTransportConfig → Res T).
Context (token : nat → bool) (opening : nat → nat → bool).
Context (no_service : PreparedServiceImage).
Context (stdin_tty : bool).
Context (parser shell_parser : Parser).
Context (service_use_parser : list string → ServiceUse).

Abbreviation Cli := (ST (CliState T)).
Abbreviation connect := (connect transport_factory opening).
Abbreviation discover := (discover iterations no_service).
Abbreviation run_command args := (execute_command iterations token no_service stdin_tty args true).

Definition write_stderr (lines : list string) : Cli unit := modify (cs_add_stderr lines).

(** [render_final(outcome, json_mode=..., verbose=..., stdout=...)] *)
Definition render (outcome : CommandOutcome) (json_mode verbose : bool) : Cli unit :=
  text <- lift (render_final outcome json_mode verbose) ;;
  modify (cs_add_stdout text).

(** [_parser_error] *)
Definition parser_error (usage prog message command : string) (json_mode : bool)
    : Cli CommandOutcome :=
  (if json_mode then ret tt
   else write_stderr [usage; (prog ++ ": error: " ++ message ++ LF)%string]) ;;;
  ret (usage_outcome command (Lit message)).

(** [_disconnect_quiet] *)
Definition disconnect_quiet : Cli unit :=
  catch disconnect
    (λ error, write_stderr [("warning: disconnect failed: " ++ text_of (exn_str error) ++ LF)%string]).

(** ** The shell *)

Definition SERVICE_COMMANDS : list string :=
  ["erase"; "program"; "verify"; "metadata image-valid"; "metadata boot-attempt";
   "metadata app-confirmed"; "service attach"; "upgrade"].
Definition FIXED_OPTIONS : list string :=
  ["--transport"; "--port"; "--baud"; "--timeout-ms"; "--json"; "--verbose"; "--version";
   "--help"].
Definition SERVICE_OPTIONS : list string := ["--flash-service-image"; "--flash-service-map"].

(** [token.split("=", 1)[0]] *)
Fixpoint before_equals (s : string) : string :=
  match s with
  | EmptyString => EmptyString
  | String c s => if Ascii.eqb c "="%char then EmptyString else String c (before_equals s)
  end.

Definition option_name (word : string) : string :=
  if bool_decide (word = "-h"%string) then "--help"
  else if String.prefix "--" word then before_equals word else EmptyString.

Definition fixed_option_error (words : list string) : option string :=
  match find (λ word, bool_decide (option_name word ∈ FIXED_OPTIONS)) words with
  | Some word =>
      Some (option_name word ++ " is fixed for this shell; restart the shell to change it")%string
  | None => None
  end.

Definition service_option_error (words : list string) : option string :=
  if existsb (λ word, bool_decide (option_name word ∈ SERVICE_OPTIONS)) words
  then Some "Flash Service sources are retained; use service use to replace them"%string
  else None.

(** [_no_argument_command] *)
Definition no_argument_command (words : list string) (command : string) : option CommandOutcome :=
  if negb (zlen words =? 1)
  then Some (usage_outcome command (Lit (command ++ " does not accept arguments")))
  else None.

Definition not_connected (command : string) : CommandOutcome :=
  error_outcome command "cli" "NOT_CONNECTED"
    (Lit "connect to a target before running this command") ExitCode.OPERATION_FAILURE.

Definition service_required (command : string) : CommandOutcome :=
  error_outcome command "cli" "SERVICE_RESOURCE_REQUIRED"
    (Lit "configure both Flash Service sources with service use before this command")
    ExitCode.CLI_USAGE_ERROR.

Definition help_outcome : CommandOutcome :=
  let lines (l : list string) := VStr (String.concat LF l) in
  mkCommandOutcome "help"
    (Some [("shell commands"%string,
            lines ["connect"; "disconnect"; "reconnect"; "ping";
                   "service use --flash-service-image <path> --flash-service-map <path>";
                   "help"; "exit | quit"]);
           ("target commands"%string,
            lines ["status"; "device-info"; "protocol-info"; "last-error"; "erase ...";
                   "program ..."; "verify ..."; "metadata status"; "metadata image-valid ...";
                   "metadata boot-attempt ..."; "metadata app-confirmed ..."; "service status";
                   "service attach ..."; "ram load ..."; "ram check-crc ..."; "memory read ...";
                   "run ..."; "run-ram ..."; "upgrade ..."]);
           ("service source"%string,
            VStr ("service use only stores/replaces retained Flash Service paths; " ++
                  "it does not connect, attach, or touch the target"));
           ("configuration"%string,
            VStr ("normal target commands use the one-shot syntax; connection and " ++
                  "global presentation options are fixed for this shell"))])
    None None None.

(** [_service_use]: the outcome, and the paths to keep *)
Definition service_use (words : list string) (json_mode : bool)
    : Cli (CommandOutcome * option (string * string)) :=
  match service_use_parser (drop 2 words) with
  | UseError usage prog message =>
      outcome <- parser_error usage prog message "service use" json_mode ;;
      ret (outcome, None)
  | UsePaths image map =>
      ret (mkCommandOutcome "service use"
             (Some [("flash_service_image"%string, VStr image);
                    ("flash_service_map"%string, VStr map)]) None None None,
           Some (image, map))
  end.

(** [_connect_and_discover]: whether the shell is connected now *)
Definition connect_and_discover (command : string) : Cli (bool * CommandOutcome) :=
  catch (
    opened <- connect ;;
    match to_status opened with
    | CANCELLED =>
        ret (false, cancelled_outcome command ("connection cancelled during " ++ to_stage opened))
    | OPENED =>
        discovery <- discover ;;
        if negb (or_ok (td_result discovery)) then
          disconnect_quiet ;;; ret (false, operation_outcome command (td_result discovery))
        else
        cancelled <- is_cancel_requested token ;;
        if (cancelled : bool) then
          disconnect_quiet ;;;
          ret (false, cancelled_outcome command "cancelled after target discovery")
        else ret (true, operation_outcome command (td_result discovery))
    end)
    (λ error, disconnect_quiet ;;; ret (false, exception_outcome command error)).

Definition disconnected_outcome : CommandOutcome :=
  mkCommandOutcome "disconnect" (Some [("state"%string, VStr "disconnected")]) None None None.

(** [_disconnect_command] *)
Definition disconnect_command (connected : bool) : Cli (bool * CommandOutcome) :=
  if negb connected then ret (false, disconnected_outcome) else
  catch (disconnect ;;; ret (false, disconnected_outcome))
    (λ error, ret (false, exception_outcome "disconnect" error)).

(** [_reconnect] *)
Definition reconnect (connected : bool) : Cli (bool * CommandOutcome) :=
  failure <- (if connected
              then catch (disconnect ;;; ret None)
                     (λ error, ret (Some (
                        if isinstance error RuntimeCommunicationError
                        then communication_outcome "reconnect" (exn_str error)
                        else internal_outcome "reconnect" (exn_str error))))
              else ret None) ;;
  match failure with
  | Some outcome => ret (false, outcome)
  | None => connect_and_discover "reconnect"
  end.

(** [_target_command] *)
Definition target_command (words : list string) (connected : bool)
    (service_paths : option (string * string)) (json_mode : bool) : Cli CommandOutcome :=
  let command := command_from_argv words in
  match fixed_option_error words, service_option_error words with
  | Some message, _ => ret (usage_outcome command (Lit message))
  | None, Some message => ret (usage_outcome command (Lit message))
  | None, None =>
  if bool_decide (head words = Some "shell"%string)
  then ret (usage_outcome "shell" (Lit "nested shell is not allowed")) else
  let '(image, map_path) :=
    default ("__missing_flash_service_image__", "__missing_flash_service_map__")%string
      service_paths in
  let parse_words :=
    words ++ (if bool_decide (command ∈ SERVICE_COMMANDS)
              then ["--flash-service-image"; image; "--flash-service-map"; map_path]%string
              else []) in
  match parse_args shell_parser parse_words with
  | UsageError usage prog message => parser_error usage prog message command json_mode
  | ParserExit code =>
      ret (usage_outcome command
             (Fmt "shell command exited during parsing ({})" [VInt code]))
  | Parsed args =>
      let command := ca_command args in
      if negb connected then ret (not_connected command) else
      if bool_decide (command ∈ SERVICE_COMMANDS) && negb (is_some service_paths)
      then ret (service_required command) else
      catch (run_command args) (λ error, ret (exception_outcome command error))
  end
  end.

(** What the loop of the shell keeps *)
Record Shell : Type := mkShell {
  sh_connected : bool;
  sh_service_paths : option (string * string);
}.

(** [_prompt] *)
Definition prompt (connected : bool) : Cli unit :=
  if stdin_tty
  then write_stderr [("bootloader[" ++ (if connected then "connected" else "disconnected") ++ "]> ")%string]
  else ret tt.

(** What to do for a line of the input *)
Definition shell_command (words : list string) (sh : Shell) (json_mode : bool)
    : Cli (Shell * CommandOutcome) :=
  let connected := sh_connected sh in
  let no_argument command (k : Cli (Shell * CommandOutcome)) :=
    match no_argument_command words command with
    | Some invalid => ret (sh, invalid)
    | None => k
    end in
  let changing command (m : Cli (bool * CommandOutcome)) :=
    no_argument command (
      r <- m ;; ret (mkShell r.1 (sh_service_paths sh), r.2)) in
  let command := default EmptyString (head words) in
  if bool_decide (command = "help"%string) then no_argument command (ret (sh, help_outcome))
  else if bool_decide (take 2 words = ["service"; "use"]%string) then
    match fixed_option_error words with
    | Some message => ret (sh, usage_outcome "service use" (Lit message))
    | None =>
        r <- service_use words json_mode ;;
        ret (match r.2 with
             | Some replacement => mkShell connected (Some replacement)
             | None => sh
             end, r.1)
    end
  else if bool_decide (command = "connect"%string) then
    no_argument command (
      if connected
      then ret (sh, error_outcome "connect" "cli" "ALREADY_CONNECTED"
                      (Lit "the shell is already connected") ExitCode.OPERATION_FAILURE)
      else r <- connect_and_discover "connect" ;; ret (mkShell r.1 (sh_service_paths sh), r.2))
  else if bool_decide (command = "disconnect"%string)
  then changing command (disconnect_command connected)
  else if bool_decide (command = "reconnect"%string)
  then changing command (reconnect connected)
  else if bool_decide (command = "ping"%string) then
    no_argument command (
      if negb connected then ret (sh, not_connected "ping") else
      outcome <- catch (handle_ping iterations token no_service true)
        (λ error, ret (exception_outcome "ping" error)) ;;
      ret (sh, outcome))
  else
    outcome <- target_command words connected (sh_service_paths sh) json_mode ;;
    attempted <- gets cs_run_attempted ;;
    if (attempted : bool)
    then disconnect_quiet ;;; ret (mkShell false (sh_service_paths sh), outcome)
    else ret (sh, outcome).

(** An outcome is written; when that fails, the [finally] clause of the shell
    disconnects. *)
Definition render_in_shell (connected : bool) (outcome : CommandOutcome) (json_mode verbose : bool)
    : Cli unit :=
  catch (render outcome json_mode verbose)
    (λ error, (if connected then disconnect_quiet else ret tt) ;;; raise error).

(** The body of the [while] loop; [again] is the next iteration. *)
Definition shell_turn (json_mode verbose : bool) (again : Shell → Cli Shell) (sh : Shell)
    : Cli Shell :=
  prompt (sh_connected sh) ;;;
  line <- read_line ;;
  if bool_decide (line = EmptyString) then ret sh else
  match shell_words line with
  | Raise error =>
      render_in_shell (sh_connected sh)
        (usage_outcome "unknown" (Prefixed "invalid shell quoting: " (exn_str error)))
        json_mode verbose ;;;
      again sh
  | Ok [] => again sh
  | Ok ((command :: _) as words) =>
      modify (cs_set_run_attempted false) ;;;
      if bool_decide (command ∈ ["exit"; "quit"]%string) then
        match no_argument_command words command with
        | Some invalid =>
            render_in_shell (sh_connected sh) invalid json_mode verbose ;;; again sh
        | None => ret sh
        end
      else
        r <- shell_command words sh json_mode ;;
        render_in_shell (sh_connected r.1) r.2 json_mode verbose ;;;
        again r.1
  end.

(** The loop: an iteration reads at least one line, so that [fuel], one more
    than there are lines, lets it reach the end of the input. *)
Fixpoint shell_loop (fuel : nat) (json_mode verbose : bool) (sh : Shell) : Cli Shell :=
  match fuel with
  | O => ret sh
  | S fuel => shell_turn json_mode verbose (shell_loop fuel json_mode verbose) sh
  end.

Definition run_shell (args : CliArgs) : Cli Z :=
  let json_mode := ca_json args in
  let verbose := ca_verbose args in
  let service_paths := match ca_flash_service_image args, ca_flash_service_map args with
                       | Some image, Some map => Some (image, map)
                       | _, _ => None
                       end in
  r <- connect_and_discover "connect" ;;
  (if bool_decide (outcome_exit_code r.2 = ExitCode.SUCCESS) then ret tt
   else render_in_shell r.1 r.2 json_mode verbose) ;;;
  lines <- gets cs_stdin ;;
  sh <- shell_loop (S (length lines)) json_mode verbose (mkShell r.1 service_paths) ;;
  (if sh_connected sh then disconnect_quiet else ret tt) ;;;
  ret (ExitCode.ExitCode_value ExitCode.SUCCESS).

(** ** One command *)

(** The [try] statement of [main] *)
Definition run_connected (args : CliArgs) : Cli CommandOutcome :=
  let command := ca_command args in
  catch (
    opened <- connect ;;
    match to_status opened with
    | CANCELLED =>
        ret (cancelled_outcome command ("connection cancelled during " ++ to_stage opened))
    | OPENED =>
        discovery <- discover ;;
        if negb (or_ok (td_result discovery))
        then ret (operation_outcome command (td_result discovery)) else
        cancelled <- is_cancel_requested token ;;
        if (cancelled : bool)
        then ret (cancelled_outcome command "cancelled after target discovery")
        else run_command args
    end)
    (λ error, ret (exception_outcome command error)).

(** What an error of the last disconnect does to the outcome *)
Definition with_cleanup (command : string) (outcome : CommandOutcome) (cleanup_error : option Exn)
    : Cli CommandOutcome :=
  match cleanup_error with
  | None => ret outcome
  | Some error =>
      if bool_decide (outcome_exit_code outcome = ExitCode.SUCCESS)
      then ret (disconnect_outcome command error)
      else write_stderr
             [("warning: disconnect failed: " ++ text_of (exn_str error) ++ LF)%string] ;;;
           ret outcome
  end.

Definition run_one (args : CliArgs) : Cli Z :=
  outcome <- run_connected args ;;
  cleanup_error <- catch (disconnect ;;; ret None) (λ error, ret (Some error)) ;;
  outcome <- with_cleanup (ca_command args) outcome cleanup_error ;;
  let outcome := if ca_json args then outcome else human_status_outcome outcome in
  render outcome (ca_json args) (ca_verbose args) ;;;
  ret (ExitCode.ExitCode_value (outcome_exit_code outcome)).

Definition main (raw_argv : list string) : Cli Z :=
  let json_requested := bool_decide ("--json"%string ∈ raw_argv) in
  match parse_args parser raw_argv with
  | UsageError usage prog message =>
      outcome <- parser_error usage prog message (command_from_argv raw_argv) json_requested ;;
      render outcome json_requested false ;;;
      ret (ExitCode.ExitCode_value ExitCode.CLI_USAGE_ERROR)
  | ParserExit code => ret code
  | Parsed args =>
      let command := ca_command args in
      let config := mkCliConfig (ca_transport args) (ca_port args) (ca_baud args)
                      (ca_timeout_ms args) in
      match (let? config := CliRuntimeConfig_post_init config in
             let? _ := require_port config in Ok config) with
      | Raise error =>
          render (usage_outcome command (exn_str error)) (ca_json args) false ;;;
          ret (ExitCode.ExitCode_value ExitCode.CLI_USAGE_ERROR)
      | Ok config =>
          modify (cs_set_runtime (CliRuntime_init config)) ;;;
          if bool_decide (command = "shell"%string) then
            catch (run_shell args) (λ error,
              let outcome := internal_outcome command (exn_str error) in
              render outcome (ca_json args) (ca_verbose args) ;;;
              ret (ExitCode.ExitCode_value (outcome_exit_code outcome)))
          else run_one args
      end
  end.
End main.
