(* ===== verification/CliProperties.v ===== *)
(** * What the commands of the command line do to the device

    The handlers are followed call by call, as the operations are in
    TransferProperties.v: [calls m Q s] says that [m], started in a state with a
    session, makes the calls of a log with the client of the session and ends
    such that [Q] holds of the log and the outcome. *)

From S2P Require Import Prelude.
From S2P Require Import Errors.
From S2P Require Import Constants.
From S2P Require Import Words.
From S2P Require Import Models.
From S2P Require Import Firmware.
From S2P Require Import Targets.
From S2P Require Import BootClient.
From S2P Require Import OperationResults.
From S2P Require Import OperationProtocol.
From S2P Require Import FlashOps.
From S2P Require Import StatusOps.
From S2P Require Import RamOps.
From S2P Require Import Messages.
From S2P Require Import Frame.
From S2P Require Import TiMap.
From S2P Require Import SerialTransport.
From S2P Require Import TransferProperties.
From S2P Require Import FlashOpsProperties.
From S2P Require Import OperationProperties.
From S2P Require Import Cli.
From S2P Require Import CliRuntime.
From S2P Require Import CliCommands.

Section calls.
Context {T : Type} `{ByteTransport T}.
Context (iterations : Z → nat) (target : TargetProfile) (no_service : PreparedServiceImage).

Implicit Types s : CliState T.

(** Contexts that differ in the target only by name make the same calls. *)
Definition bare_context : OperationContext := mkContext target false None no_service false.

Lemma trace_target (ctx ctx' : OperationContext) w log w' :
  cx_target ctx = cx_target ctx' → trace iterations ctx w log w' → trace iterations ctx' w log w'.
Proof.
  intros Ht. induction 1 as [|? asked progress|]; [constructor| |].
  - by eapply trace_local.
  - eapply trace_call; [by rewrite <- Ht|done..].
Qed.

Definition world_of (client : BootProtocolClient T) s : World T :=
  mkWorld client (cs_asked s) (cs_progress s).

(** The session of a state, and the target it was discovered to be *)
Definition connected_to (client : BootProtocolClient T) s : Prop :=
  rt_session (cs_runtime s) = Some client ∧
  ∃ discovered, rt_discovery_outcome (cs_runtime s) ≫= td_discovered_target = Some discovered ∧
    dt_target_profile discovered = target.

Definition calls {A} (m : ST (CliState T) A) (Q : list Call → Res A → CliState T → Prop) s : Prop :=
  ∀ client, connected_to client s →
  ∃ log client', trace iterations bare_context (world_of client s) log (world_of client' (m s).2) ∧
    connected_to client' (m s).2 ∧ Q log (m s).1 (m s).2.

(** ** Rules *)

Lemma calls_ret {A} (a : A) Q s : Q [] (Ok a) s → calls (ret a) Q s.
Proof. intros HQ client Hc. exists [], client. split; [constructor|done]. Qed.

Lemma calls_raise {A} e (Q : list Call → Res A → CliState T → Prop) s :
  Q [] (Raise e) s → calls (raise e) Q s.
Proof. intros HQ client Hc. exists [], client. split; [constructor|done]. Qed.

Lemma calls_lift {A} (r : Res A) Q s : Q [] r s → calls (lift r) Q s.
Proof. intros HQ client Hc. exists [], client. split; [constructor|done]. Qed.

Lemma calls_bind {A B} (m : ST (CliState T) A) (k : A → ST (CliState T) B) Q s :
  calls m (λ log r s',
    match r with
    | Ok a => calls (k a) (λ log', Q (log ++ log')) s'
    | Raise e => Q log (Raise e) s'
    end) s →
  calls (bind m k) Q s.
Proof.
  intros Hm client Hc. destruct (Hm client Hc) as (log & client1 & Ht & Hc1 & HQ). unfold bind.
  destruct (m s) as [[a|e] s1]; simpl in *; [|by exists log, client1].
  destruct (HQ client1 Hc1) as (log' & client2 & Ht' & Hc2 & HQ').
  exists (log ++ log'), client2. split; [by eapply trace_app|done].
Qed.

Lemma calls_conseq {A} (m : ST (CliState T) A) (Q Q' : list Call → Res A → CliState T → Prop) s :
  calls m Q s → (∀ log r s', Q log r s' → Q' log r s') → calls m Q' s.
Proof.
  intros Hm HQ client Hc. destruct (Hm client Hc) as (log & client' & ? & ? & ?).
  exists log, client'. auto.
Qed.

Lemma calls_catch {A} (m : ST (CliState T) A) (h : Exn → ST (CliState T) A) Q s :
  calls m (λ log r s',
    match r with
    | Ok a => Q log (Ok a) s'
    | Raise e => calls (h e) (λ log', Q (log ++ log')) s'
    end) s →
  calls (catch m h) Q s.
Proof.
  intros Hm client Hc. destruct (Hm client Hc) as (log & client1 & Ht & Hc1 & HQ). unfold catch.
  destruct (m s) as [[a|e] s1]; simpl in *; [by exists log, client1|].
  destruct (HQ client1 Hc1) as (log' & client2 & Ht' & Hc2 & HQ').
  exists (log ++ log'), client2. split; [by eapply trace_app|done].
Qed.

(** A change of the state that concerns neither the session nor the token *)
Definition local_change (f : CliState T → CliState T) : Prop :=
  ∀ s, cs_runtime (f s) = cs_runtime s ∧ cs_progress (f s) = cs_progress s.

Lemma calls_modify f Q s : local_change f → Q [] (Ok tt) (f s) → calls (modify f) Q s.
Proof.
  intros Hf HQ client Hc. destruct (Hf s) as [Hr Hp]. exists [], client. split_and!.
  - unfold world_of. simpl. rewrite Hp. eapply trace_local. constructor.
  - unfold connected_to. simpl. by rewrite Hr.
  - done.
Qed.

Lemma calls_gets {A} (f : CliState T → A) Q s : Q [] (Ok (f s)) s → calls (gets f) Q s.
Proof. intros HQ client Hc. exists [], client. split; [constructor|done]. Qed.

Lemma calls_asked token Q s :
  (∀ answer s', cs_stdin s' = cs_stdin s → Q [] (Ok answer) s') →
  calls (is_cancel_requested token) Q s.
Proof.
  intros HQ client Hc. exists [], client. split_and!; [|done|by apply HQ].
  eapply trace_local. constructor.
Qed.

Lemma calls_session (Q : list Call → Res (BootProtocolClient T) → CliState T → Prop) s :
  (∀ client, connected_to client s → Q [] (Ok client) s) → calls the_session Q s.
Proof.
  intros HQ client Hc. pose proof Hc as [Hs _]. exists [], client.
  unfold the_session, bind, get, ret. rewrite Hs. split; [constructor|]. split; [done|by apply HQ].
Qed.

Lemma calls_target Q s : Q [] (Ok target) s → calls the_target Q s.
Proof.
  intros HQ client Hc. pose proof Hc as [_ (d & Hd & Ht)]. exists [], client.
  unfold the_target, discovered_target, bind, get, ret. rewrite Hd, Ht. split; [constructor|done].
Qed.

Lemma calls_discovered Q s :
  (∀ d, dt_target_profile d = target → Q [] (Ok d) s) → calls discovered_target Q s.
Proof.
  intros HQ client Hc. pose proof Hc as [_ (d & Hd & Ht)]. exists [], client.
  unfold discovered_target, bind, get, ret. rewrite Hd. split; [constructor|]. split; [done|by apply HQ].
Qed.

(** An operation does what its contract says. *)
Lemma calls_operate {A} (ctx : OperationContext) (m : ST (World T) A)
    (C : list Call → Res A → Prop) Q s :
  cx_target ctx = target →
  (∀ w, issues iterations ctx m (λ log r _, C log r) w) →
  (∀ log r s', C log r → cs_stdin s' = cs_stdin s → Q log r s') → calls (operate m) Q s.
Proof.
  intros Hctx Hm HQ client Hc. pose proof Hc as [Hs Hd].
  destruct (Hm (world_of client s)) as (log & Ht & HC).
  unfold operate, the_session, bind, get, ret. rewrite Hs. fold (world_of client s).
  destruct (m (world_of client s)) as [r w]. simpl in *.
  exists log, (ow_client w). split_and!.
  - eapply (trace_target ctx bare_context); [done|]. by destruct w.
  - split; [done|]. done.
  - by apply HQ.
Qed.
End calls.

(** One step through a handler. *)
Ltac calls_step :=
  lazymatch goal with
  | |- calls _ _ _ (bind _ _) _ _ => apply calls_bind
  | |- calls _ _ _ (ret _) _ _ => apply calls_ret
  | |- calls _ _ _ (raise _) _ _ => apply calls_raise
  | |- calls _ _ _ (lift _) _ _ => apply calls_lift
  | |- calls _ _ _ (gets _) _ _ => apply calls_gets
  | |- calls _ _ _ (modify _) _ _ => apply calls_modify; [done|]
  | |- calls _ _ _ (is_cancel_requested _) _ _ => apply calls_asked; intros answer ? ?
  | |- calls _ _ _ the_session _ _ => apply calls_session; intros ? ?
  | |- calls _ _ _ the_target _ _ => apply calls_target
  | |- calls _ _ _ discovered_target _ _ => apply calls_discovered; intros ? ?
  end; cbn beta iota.

(** ** Results that tell the truth

    A result that is completed as SUCCEEDED is ok: [succeeded] is what the
    upgrade looks at, [or_ok] what the contracts of the operations speak of. *)

Definition truthful (r : Res OperationResult) : Prop :=
  ∀ result, r = Ok result → succeeded result = true → or_ok result = true.

Lemma truthful_raise e : truthful (Raise e).
Proof. by intros result [=]. Qed.

Lemma truthful_post_init r : truthful (OperationResult_post_init r).
Proof.
  intros result Hr Hs. unfold succeeded in Hs. apply bool_decide_eq_true in Hs.
  unfold OperationResult_post_init in Hr.
  destruct (or_completion r) as [[]|] eqn:Ec; simpl in Hr; destruct (or_ok r) eqn:Eo; simpl in Hr;
    repeat case_match; by simplify_eq/=.
Qed.

Definition honest {S : Type} (m : ST S OperationResult) : Prop := ∀ s, truthful (m s).1.

Lemma honest_lift {S} (r : Res OperationResult) : truthful r → honest (S := S) (lift r).
Proof. intros Hr s. exact Hr. Qed.

Lemma honest_bind {S A} (m : ST S A) k : (∀ a, honest (k a)) → honest (bind m k).
Proof.
  intros Hk s. unfold bind. destruct (m s) as [[a|e] s1]; [apply Hk|apply truthful_raise].
Qed.

Lemma honest_catch {S} (m : ST S OperationResult) h :
  honest m → (∀ e, honest (h e)) → honest (catch m h).
Proof.
  intros Hm Hh s. unfold catch. pose proof (Hm s) as Hs.
  destruct (m s) as [[a|e] s1]; [exact Hs|apply Hh].
Qed.

(** The results of the operations pass through [OperationResult_post_init]. *)
Ltac truthful_result :=
  unfold failure_result, cancelled_at, cancelled_before_service, cancelled_after_service,
    service_cancellation_result, transfer_result, cancellation_cleanup_failure_result,
    cancelled_result, completed_after_cancel_result, ok_result;
  repeat case_match; first [apply truthful_raise | apply truthful_post_init].

Ltac honest_step :=
  lazymatch goal with
  | |- honest (bind _ _) => apply honest_bind; intros ?
  | |- honest (catch _ _) => apply honest_catch; [|intros ?]
  | |- honest (lift _) => apply honest_lift; truthful_result
  | |- honest (match ?x with _ => _ end) => destruct x
  end; cbn beta iota.

Section honest.
Context {T : Type} `{ByteTransport T}.
Context (iterations : Z → nat) (ctx : OperationContext).

Lemma honest_area image : honest (S := World T) (erase_flash_image_area iterations ctx image).
Proof. unfold erase_flash_image_area, try_operation, erase_finished. repeat honest_step. Qed.

Lemma honest_upload operation verify image :
  honest (S := World T) (flash_image_operation iterations ctx operation verify image).
Proof. unfold flash_image_operation, try_operation. repeat honest_step. Qed.

Lemma honest_append operation record_type refusal append :
  honest (S := World T) (append_operation iterations ctx operation record_type refusal append).
Proof.
  unfold append_operation, business_result, written_result, finished_result, try_operation.
  repeat honest_step.
Qed.
End honest.

(** ** Stages in order

    A stage relates the calls it makes to its result.  [in_order stages log
    complete] says that the stages ran one after the other, each after the one
    before had SUCCEEDED; [complete] tells whether all of them did. *)

Definition Stage : Type := list Call → Res OperationResult → Prop.

(** A result that lets the next stage start *)
Definition passed (result : OperationResult) : Prop :=
  or_ok result = true ∧ succeeded result = true.

Inductive in_order : list Stage → list Call → bool → Prop :=
| order_complete : in_order [] [] true
| order_interrupted stages : in_order stages [] false
| order_failed stage stages log r :
    stage log r → (∀ result, r = Ok result → ¬ passed result) →
    in_order (stage :: stages) log false
| order_passed stage stages log result log' complete :
    stage log (Ok result) → passed result → in_order stages log' complete →
    in_order (stage :: stages) (log ++ log') complete.

Lemma in_order_app stages1 stages2 log1 log2 complete :
  in_order stages1 log1 true → in_order stages2 log2 complete →
  in_order (stages1 ++ stages2) (log1 ++ log2) complete.
Proof.
  intros H1 H2. remember true as b eqn:E. induction H1; simplify_eq/=; [done|].
  rewrite <- app_assoc. eapply order_passed; eauto.
Qed.

Lemma in_order_stopped stages1 stages2 log :
  in_order stages1 log false → in_order (stages1 ++ stages2) log false.
Proof.
  intros H1. remember false as b eqn:E. induction H1; simplify_eq/=.
  - constructor.
  - by eapply order_failed.
  - eapply order_passed; eauto.
Qed.

(** A command that is the whole operation *)
Inductive command_ends (send : Send) : Stage :=
| command_failed log e r : stuck e [send] log → not_ok r → command_ends send log r
| command_done call result :
    call_is send call → answered call → or_ok result = true → command_ends send [call] (Ok result).

Lemma command_calls {T} `{ByteTransport T} iterations ctx operation stage field payload summary
    (w : World T) :
  issues iterations ctx
    (one_command iterations ctx operation stage field payload (λ _, ret summary))
    (λ log r _, command_ends (field, payload) log r) w.
Proof.
  unfold one_command. apply try_calls.
  { intros log e r Hl Hr. inversion Hl; subst. by eapply command_failed. }
  issues_step. apply issues_send.
  - intros e He. eapply command_failed; [by apply stuck_unsent|auto with py].
  - intros words command answer client Hp _ _. destruct answer as [a|e].
    + repeat issues_step. by eapply command_done.
    + eapply command_failed; [by apply stuck_failed|auto with py].
Qed.

(** The calls that only look at the metadata *)
Lemma metadata_calls {T} `{ByteTransport T} iterations ctx (w : World T) :
  issues iterations ctx (get_metadata_summary_op iterations ctx)
    (λ log _ _, uses [get_metadata_summary] log) w.
Proof.
  unfold get_metadata_summary_op, one_command. apply try_calls; [done|].
  issues_step. apply issues_send.
  - intros. constructor.
  - intros words command answer client _ _ _.
    destruct answer as [a|e]; repeat issues_step; try (case_match; repeat issues_step);
      apply Forall_singleton; in_list.
Qed.

(** ** Handlers *)

(** The exit code tells of success. *)
Definition exit_success (r : Res CommandOutcome) : Prop :=
  ∃ outcome, r = Ok outcome ∧ outcome_exit_code outcome = ExitCode.SUCCESS.

Lemma exit_raise e : ¬ exit_success (Raise e).
Proof. by intros (outcome & [=] & _). Qed.

Lemma exit_failure outcome code :
  co_exit_code outcome = Some code → code <> ExitCode.SUCCESS → ¬ exit_success (Ok outcome).
Proof. intros Hc Hne (outcome' & [= <-] & He). unfold outcome_exit_code in He. by rewrite Hc in He. Qed.

Lemma exit_operation command result :
  exit_success (Ok (operation_outcome command result)) ↔ passed result.
Proof.
  unfold exit_success, passed, outcome_exit_code, operation_exit_code, cancel_completion, succeeded.
  simpl. split.
  - intros (outcome & [= <-] & He). simpl in He. repeat case_match; try done.
    repeat case_bool_decide; destruct (or_ok result); by simplify_eq/=.
  - intros [Hok Hs]. eexists. split; [done|]. apply bool_decide_eq_true in Hs. simpl.
    by rewrite Hok, Hs.
Qed.

#[export] Hint Resolve exit_raise : py.
#[export] Hint Extern 2 (¬ exit_success (Ok _)) => by eapply exit_failure : py.

Section handlers.
Context {T : Type} `{ByteTransport T} `{ImageFiles}.
Context (iterations : Z → nat) (target : TargetProfile).
Context (token : nat → bool) (no_service : PreparedServiceImage) (stdin_tty : bool).
Context (args : CliArgs) (progress : bool).

Implicit Types s : CliState T.
Implicit Types k : ST (CliState T) CommandOutcome.
Implicit Types Q : list Call → Res CommandOutcome → CliState T → Prop.

Abbreviation calls := (calls iterations target no_service).
Abbreviation same_input s s' := (cs_stdin s' = cs_stdin s).

Lemma calls_unless_cancelled command message k Q s :
  (∀ r s', ¬ exit_success r → Q [] r s') → (∀ s', same_input s s' → calls k Q s') →
  calls (unless_cancelled token command message k) Q s.
Proof.
  intros Hno Hk. unfold unless_cancelled. calls_step. calls_step.
  destruct answer; [calls_step; apply Hno; auto with py|by apply Hk].
Qed.

Lemma calls_prepared {A} command (prepare : TargetProfile → Res A)
    (k : A → ST (CliState T) CommandOutcome) Q s :
  (∀ r s', ¬ exit_success r → Q [] r s') → (∀ a, prepare target = Ok a → calls (k a) Q s) →
  calls (prepared command prepare k) Q s.
Proof.
  intros Hno Hk. unfold prepared. calls_step. calls_step.
  destruct (prepare target) as [a|e]; [by apply Hk|].
  case_match; calls_step; apply Hno; auto with py.
Qed.

Abbreviation service_file :=
  (prepare_service_file target (ca_flash_service_image args) (ca_flash_service_map args)).
Abbreviation app_file := (prepare_app_file target (ca_image args)).

Lemma calls_with_service command body Q s :
  (∀ r s', ¬ exit_success r → Q [] r s') →
  (∀ service s', service_file = Ok service → same_input s s' → calls (body service) Q s') →
  calls (with_service token args command body) Q s.
Proof.
  intros Hno Hk. unfold with_service. apply calls_prepared; [done|]. intros service Hs.
  apply calls_unless_cancelled; auto.
Qed.

Lemma calls_with_app command body Q s :
  (∀ r s', ¬ exit_success r → Q [] r s') →
  (∀ image s', app_file = Ok image → same_input s s' → calls (body image) Q s') →
  calls (with_app token args command body) Q s.
Proof.
  intros Hno Hk. unfold with_app. apply calls_prepared; [done|]. intros image Hi.
  apply calls_unless_cancelled; auto.
Qed.

(** The user has agreed: by --yes, or by the line a terminal reads next. *)
Definition agreed s : Prop :=
  ca_yes args = true ∨
  stdin_tty = true ∧ answer_decision (default EmptyString (head (cs_stdin s))) = APPROVED.

Lemma agreed_same s s' : same_input s s' → agreed s' → agreed s.
Proof. unfold agreed. by intros ->. Qed.

Lemma calls_confirmed command details k Q s :
  (∀ r s', ¬ exit_success r → Q [] r s') → (agreed s → ∀ s', calls k Q s') →
  calls (confirmed stdin_tty args command details k) Q s.
Proof.
  intros Hno Hk. unfold confirmed, agreed in *. destruct (ca_yes args); [by apply Hk; left|].
  unfold request_confirmation, read_line. calls_step. calls_step. calls_step.
  assert (∀ decision s', (decision = APPROVED → calls k Q s') → calls
    match decision with
    | APPROVED => k
    | DECLINED => ret (error_outcome command "cli" "USER_DECLINED"
                         (Lit "user declined the operation") ExitCode.USER_DECLINED)
    | CONFIRMATION_REQUIRED =>
        ret (error_outcome command "cli" "CONFIRMATION_REQUIRED"
               (Lit "interactive confirmation is required; pass --yes")
               ExitCode.CONFIRMATION_REQUIRED)
    end Q s') as Hdecide.
  { intros [] s' Ha; [by apply Ha|calls_step; apply Hno; auto with py..]. }
  destruct stdin_tty; [|calls_step; calls_step; apply Hno; auto with py].
  calls_step. calls_step. calls_step. simpl.
  destruct (cs_stdin s) as [|line lines].
  - calls_step. calls_step. apply Hdecide. intros Ha. apply Hk. by right.
  - calls_step. calls_step. calls_step. calls_step. apply Hdecide. intros Ha. apply Hk. by right.
Qed.

(** An operation of Flash *)
Definition flash_context (service : PreparedServiceImage) : OperationContext :=
  mkContext target progress (Some token) service false.

Lemma calls_flash_command command service operation (C : Stage) Q s :
  (∀ w : World T, issues iterations (flash_context service) (operation (flash_context service))
                    (λ log r _, C log r) w) →
  (∀ log r s', C log r → Q log (let? result := r in Ok (operation_outcome command result)) s') →
  calls (run_flash_command token progress command service operation) Q s.
Proof.
  intros Hop HQ. unfold run_flash_command, flash_operation_context.
  calls_step. calls_step. calls_step. calls_step. calls_step. calls_step. calls_step.
  eapply (calls_operate iterations target no_service (flash_context service)); [done|exact Hop|].
  intros log r s' HC _. apply (HQ _ _ s') in HC. destruct r as [result|e]; [|exact HC].
  calls_step. simpl. rewrite app_nil_r. exact HC.
Qed.

(** *** Without the consent of the user *)

(** The commands that ask before they change the device or leave the boot
    loader *)
Definition CONFIRMED_COMMANDS : list string :=
  ["metadata image-valid"; "metadata boot-attempt"; "metadata app-confirmed"; "erase"; "program";
   "upgrade"; "run"; "run-ram"].

(** Only the metadata is read, and the command does not succeed. *)
Definition only_reads (log : list Call) (r : Res CommandOutcome) s : Prop :=
  uses [get_metadata_summary] log ∧ ¬ exit_success r.

Lemma only_reads_nothing r s : ¬ exit_success r → only_reads [] r s.
Proof. by split; [constructor|]. Qed.

Lemma declined_confirmed command details k s :
  ¬ agreed s → calls (confirmed stdin_tty args command details k) only_reads s.
Proof. intros Hno. apply calls_confirmed; [intros; by apply only_reads_nothing|]. intros Ha. done. Qed.

Lemma declined_service command details (k : PreparedServiceImage → ST (CliState T) CommandOutcome) s :
  ¬ agreed s →
  calls (with_service token args command (λ service,
           lines <- service_details args command ;;
           confirmed stdin_tty args command (details lines) (k service))) only_reads s.
Proof.
  intros Hno. apply calls_with_service; [intros; by apply only_reads_nothing|].
  intros service s1 _ Hs. unfold service_details. calls_step. calls_step. calls_step. calls_step.
  simpl. apply declined_confirmed. intros Ha. by apply Hno, (agreed_same _ s1).
Qed.

Lemma declined_images command
    (details : PreparedFlashImage → Dict → Dict)
    (k : PreparedServiceImage → PreparedFlashImage → ST (CliState T) CommandOutcome) s :
  ¬ agreed s →
  calls (with_service token args command (λ service, with_app token args command (λ image,
           lines <- service_details args command ;;
           confirmed stdin_tty args command (details image lines) (k service image))))
    only_reads s.
Proof.
  intros Hno. apply calls_with_service; [intros; by apply only_reads_nothing|].
  intros service s1 _ H1. apply calls_with_app; [intros; by apply only_reads_nothing|].
  intros image s2 _ H2. unfold service_details. calls_step. calls_step. calls_step. calls_step.
  simpl. apply declined_confirmed. intros Ha. apply Hno, (agreed_same _ s2); [congruence|done].
Qed.

Lemma calls_finally (m : ST (CliState T) CommandOutcome) cleanup Q s :
  local_change cleanup → calls m (λ log r s', Q log r (cleanup s')) s → calls (finally m cleanup) Q s.
Proof.
  intros Hc Hm client Hs. destruct (Hm client Hs) as (log & client' & Ht & Hc' & HQ).
  unfold finally. destruct (m s) as [r s1]. simpl in *. destruct (Hc s1) as [Hr Hp].
  exists log, client'. split_and!; [|unfold connected_to in *; by rewrite Hr|done].
  rewrite <- (app_nil_r log). eapply trace_app; [done|]. unfold world_of. rewrite Hp.
  eapply trace_local. constructor.
Qed.

Lemma clear_stage_local : local_change (clear_workflow_stage (T := T) progress).
Proof. intros s. unfold clear_workflow_stage. by destruct progress. Qed.

Abbreviation plain_context := (mkContext target progress (Some token) no_service false).

Lemma calls_context (Q : list Call → Res OperationContext → CliState T → Prop) s :
  Q [] (Ok plain_context) s → calls (operation_context token no_service progress) Q s.
Proof. intros HQ. unfold operation_context. repeat calls_step. exact HQ. Qed.

Lemma declined_run s :
  ¬ agreed s → calls (handle_run iterations token no_service stdin_tty args progress) only_reads s.
Proof.
  intros Hno. unfold handle_run. calls_step. apply calls_context. simpl.
  calls_step. eapply (calls_operate iterations target no_service plain_context); [done| |].
  { intros w. apply metadata_calls. }
  intros log [metadata|e] s1 Hl Hi; [|by split; auto with py].
  assert (∀ r s', ¬ exit_success r → only_reads (log ++ []) r s') as Hend
    by (rewrite app_nil_r; by split).
  destruct (or_ok metadata) eqn:Eo; simpl negb; cbn iota.
  2:{ calls_step. apply Hend. rewrite exit_operation. unfold passed. by rewrite Eo; intros []. }
  calls_step. calls_step. simpl app. case_match; [calls_step; apply Hend; auto with py|].
  apply calls_unless_cancelled; [auto|]. intros s2 Hs2.
  do 3 (calls_step; calls_step; match goal with |- context [item ?key ?d] => destruct (item key d) end;
        [|apply Hend; auto with py]).
  apply calls_confirmed; [auto|]. intros Ha.
  destruct Hno. apply (agreed_same _ s2); [congruence|done].
Qed.

Lemma declined_run_ram s :
  ¬ agreed s →
  calls (handle_run_ram iterations token no_service stdin_tty args progress) only_reads s.
Proof.
  intros Hno. unfold handle_run_ram. calls_step. apply calls_target. cbn beta iota.
  destruct (run_ram_admission _ _) as [failure|] eqn:Ef.
  - calls_step. apply only_reads_nothing. unfold run_ram_admission in Ef.
    repeat case_match; simplify_eq; auto with py.
  - apply calls_unless_cancelled; [intros; by apply only_reads_nothing|]. intros s1 Hs1.
    apply declined_confirmed. intros Ha. by apply Hno, (agreed_same _ s1).
Qed.

Lemma declined_erase s :
  ¬ agreed s →
  calls (handle_erase iterations token stdin_tty args progress) only_reads s.
Proof.
  intros Hno. unfold handle_erase.
  apply calls_unless_cancelled; [intros; by apply only_reads_nothing|]. intros s1 Hs1.
  assert (¬ agreed s1) as Hno1 by (intros Ha; by apply Hno, (agreed_same _ s1)).
  destruct (ca_image args); [by apply (declined_images "erase" (λ image lines, (lines ++ app_details args image) ++ _))|].
  destruct (ca_all_app args).
  - calls_step. apply calls_target. cbn beta iota.
    case_match; [by apply (declined_service "erase" (λ lines, lines ++ _))|].
    calls_step. apply only_reads_nothing. auto with py.
  - by apply (declined_service "erase" (λ lines, lines ++ _)).
Qed.

(** The handler of a command that asks *)
Lemma declined_handler s :
  ca_command args ∈ CONFIRMED_COMMANDS → ¬ agreed s →
  calls (execute_command iterations token no_service stdin_tty args progress) only_reads s.
Proof.
  intros Hin Hno. unfold execute_command, handlers. unfold CONFIRMED_COMMANDS in Hin.
  assert (∀ k : ST (CliState T) CommandOutcome, (∀ s, ¬ agreed s → calls k only_reads s) →
    ∀ command message,
      calls (unless_cancelled token command message k) only_reads s) as Hunless.
  { intros k Hk command message. apply calls_unless_cancelled.
    - intros. by apply only_reads_nothing.
    - intros s1 Hs1. apply Hk. intros Ha. by apply Hno, (agreed_same _ s1). }
  repeat (apply elem_of_cons in Hin as [Hc|Hin]; [rewrite Hc; simpl snd|]);
    [..|by apply not_elem_of_nil in Hin].
  - apply Hunless. intros s1. apply (declined_images _ (λ image lines, lines ++ _ image ++ _)).
  - apply Hunless. intros s1. apply (declined_service _ (λ lines, lines ++ _)).
  - apply Hunless. intros s1. apply (declined_service _ (λ lines, lines ++ _)).
  - by apply declined_erase.
  - apply Hunless. intros s1.
    apply (declined_images _ (λ image lines, lines ++ app_details args image ++ _)).
  - apply calls_finally; [apply clear_stage_local|]. apply Hunless. intros s1.
    apply (declined_images _ (λ image lines, lines ++ app_details args image ++ _)).
  - by apply declined_run.
  - by apply declined_run_ram.
Qed.

(** *** The upgrade *)

(** An operation keeps to a stage, in a context of the target. *)
Definition keeps_to (stage : Stage) (ctx : OperationContext) (m : ST (World T) OperationResult)
    : Prop :=
  cx_target ctx = target ∧ honest m ∧
  ∀ w, issues iterations ctx m (λ log r _, stage log r) w.

Lemma calls_stage stage ctx m (Q : list Call → Res OperationResult → CliState T → Prop) s :
  keeps_to stage ctx m →
  (∀ log r s', stage log r → truthful r → Q log r s') → calls (operate m) Q s.
Proof.
  intros (Hctx & Hm & Hs) HQ.
  apply (calls_operate iterations target no_service ctx m (λ log r, stage log r ∧ truthful r));
    [done| |intros log r s' [] _; auto].
  intros w. destruct (Hs w) as (log & Ht & Hl). exists log. split; [done|]. split; [done|apply Hm].
Qed.

Lemma truthful_passed result : truthful (Ok result) → succeeded result = true → passed result.
Proof. intros Ht Hs. split; [by apply Ht|done]. Qed.

(** What the loop over the stages returns *)
Definition stages_end (stages : list Stage) (log : list Call)
    (r : Res (CommandOutcome + option OperationResult)) : Prop :=
  match r with
  | Ok (inr last) => in_order stages log true ∧ ∀ result, last = Some result → passed result
  | Ok (inl outcome) => in_order stages log false ∧ ¬ exit_success (Ok outcome)
  | Raise _ => in_order stages log false
  end.

Lemma stages_end_passed stage stages log result log' r :
  stage log (Ok result) → passed result → stages_end stages log' r →
  stages_end (stage :: stages) (log ++ log') r.
Proof.
  intros Hl Hp Hr. destruct r as [[outcome|last]|e]; simpl in *; [destruct Hr as [Ho ?]..|].
  - split; [by eapply order_passed|done].
  - split; [by eapply order_passed|done].
  - by eapply order_passed.
Qed.

Lemma calls_set_stage index total name (Q : list Call → Res unit → CliState T → Prop) s :
  (∀ r s', Q [] r s') → calls (set_workflow_stage progress index total name) Q s.
Proof.
  intros HQ. unfold set_workflow_stage. repeat case_match; calls_step; apply HQ.
Qed.

Lemma calls_run_stages ctx command total stages operations index result s :
  Forall2 (λ stage (o : string * ST (World T) OperationResult), keeps_to stage ctx o.2)
    stages operations →
  (∀ last, result = Some last → passed last) →
  calls (run_stages token progress command total index operations result)
    (λ log r _, stages_end stages log r) s.
Proof.
  intros Hops. revert index result s.
  induction Hops as [|stage [name m] stages operations Hm _ IH]; intros index result s Hlast; simpl.
  { calls_step. by split; [constructor|]. }
  calls_step. apply calls_set_stage. intros [[]|e] s1; [|constructor].
  calls_step. eapply calls_stage; [exact Hm|]. intros log r s2 Hl Htrue. simpl.
  destruct r as [res|e]; [|by eapply order_failed; [exact Hl|]].
  destruct (succeeded res) eqn:Es; simpl.
  2:{ calls_step. rewrite app_nil_r. split.
      - eapply order_failed; [exact Hl|]. intros result' [= <-] [_ Hs]. congruence.
      - rewrite exit_operation. intros [_ Hs]. congruence. }
  pose proof (truthful_passed _ Htrue Es) as Hp.
  calls_step. calls_step. simpl. destruct answer.
  - calls_step. split; [|auto with py]. eapply order_passed; [exact Hl|exact Hp|constructor].
  - eapply calls_conseq; [apply IH; by intros last [= <-]|]. simpl. intros log' r' s3 Hr.
    by eapply stages_end_passed.
Qed.

(** The stages of an upgrade *)
Definition upload_stage (service : PreparedServiceImage) (verify : bool)
    (image : PreparedFlashImage) : Stage := λ log r,
  ∃ client : BootProtocolClient T,
    upload_ends iterations (flash_context service) verify image
      (effective_max_write_data_words client) log r.

Definition image_valid_stage (service : PreparedServiceImage) (identity : ImageIdentity) : Stage :=
  append_ends (flash_context service) image_valid_refusal
    (λ _, record_payload MetadataRecordType.IMAGE_VALID (ii_entry_point identity)
            (ii_image_size_words identity) (ii_image_crc32 identity) (ii_app_end identity)).

(** The context of the tail, which nothing cancels *)
Definition tail_context (service : PreparedServiceImage) : OperationContext :=
  mkContext target progress None service false.

Definition boot_attempt_stage (service : PreparedServiceImage) : Stage :=
  append_ends (tail_context service) boot_attempt_refusal
    (λ current, record_payload MetadataRecordType.BOOT_ATTEMPT (ms_entry_point current)
                  (ms_image_size_words current) (ms_image_crc32 current) 0).

Definition run_stage (entry_point : Z) : Stage := command_ends (run, run_payload entry_point).

Definition flash_stages (service : PreparedServiceImage) (image : PreparedFlashImage)
    : list Stage :=
  let ctx := flash_context service in
  [erase_ends ctx (area_masks ctx image); upload_stage service false image;
   upload_stage service true image; image_valid_stage service (pf_identity image)].

Definition run_stages_of (service : PreparedServiceImage) (image : PreparedFlashImage)
    : list Stage :=
  [boot_attempt_stage service; run_stage (ii_entry_point (pf_identity image))].

(** An upgrade that agrees to nothing, or cannot prepare its files, makes no
    call; otherwise its stages run in order, and it succeeds exactly when all
    of them did. *)
Definition upgrade_ends s (log : list Call) (r : Res CommandOutcome) : Prop :=
  log = [] ∧ ¬ exit_success r ∨
  ∃ service image complete,
    agreed s ∧ service_file = Ok service ∧ app_file = Ok image ∧
    in_order (flash_stages service image
              ++ (if ca_no_run args then [] else run_stages_of service image)) log complete ∧
    (complete = true ↔ exit_success r).

Lemma flash_stages_kept service image :
  Forall2 (λ stage (o : string * ST (World T) OperationResult),
             keeps_to stage (flash_context service) o.2)
    (flash_stages service image) (pre_tail_stages iterations (flash_context service) image).
Proof.
  unfold flash_stages, pre_tail_stages. repeat constructor; simpl.
  - apply honest_area.
  - intros w. apply area_calls.
  - apply honest_upload.
  - intros w. eapply issues_conseq; [apply (upload_calls iterations _ false)|].
    intros log r w' _ Hu. by exists (ow_client w).
  - apply honest_upload.
  - intros w. eapply issues_conseq; [apply (upload_calls iterations _ true)|].
    intros log r w' _ Hu. by exists (ow_client w).
  - apply honest_append.
  - intros w. by apply append_calls.
Qed.

Lemma honest_run ctx entry_point :
  honest (S := World T) (run_flash_app iterations ctx entry_point).
Proof. unfold run_flash_app, one_command, try_operation. repeat honest_step. Qed.

Lemma calls_observed_run ctx entry_point (Q : list Call → Res OperationResult → CliState T → Prop) s :
  cx_target ctx = target →
  (∀ e s', Q [] (Raise e) s') →
  (∀ log r s', run_stage entry_point log r → truthful r → Q log r s') →
  calls (observed_run iterations ctx entry_point) Q s.
Proof.
  intros Hctx Hno HQ. unfold observed_run. calls_step. calls_step.
  destruct (RunRequest_post_init entry_point) as [entry|e] eqn:Ee; [|apply Hno].
  assert (entry = entry_point) as -> by (unfold RunRequest_post_init in Ee; by case_match; simplify_eq).
  calls_step. unfold observe_run, client_of. calls_step. calls_step.
  assert (∀ s', calls (operate (run_flash_app iterations ctx entry_point)) Q s') as Hrun.
  { intros s'. apply (calls_stage (run_stage entry_point) ctx); [|done]. split_and!; [done| |].
    - apply honest_run.
    - intros w. apply command_calls. }
  destruct (require_command _ _) as [command|]; [|calls_step; apply Hrun].
  destruct (run_payload entry_point) as [words|]; [|calls_step; apply Hrun].
  case_match; calls_step; apply Hrun.
Qed.

(** The tail: BOOT_ATTEMPT and RUN *)
Lemma calls_commit service image s :
  calls (commit_to_run iterations no_service progress "upgrade" service image)
    (λ log r _, ∃ complete, in_order (run_stages_of service image) log complete ∧
                  (complete = true ↔ exit_success r)) s.
Proof.
  assert (∀ stages r, ¬ exit_success r →
    ∃ complete, in_order stages [] complete ∧ (complete = true ↔ exit_success r)) as Hnone
    by (intros stages r Hr; exists false; by split; [constructor|]).
  unfold commit_to_run. calls_step. apply calls_set_stage. intros [[]|e] s1; [|auto with py].
  calls_step. calls_step. calls_step. apply calls_target. simpl. calls_step.
  apply (calls_stage (boot_attempt_stage service) (tail_context service)).
  { split_and!; [done|apply honest_append|]. intros w. by apply append_calls. }
  intros log [res|e] s2 Hl Htrue.
  2:{ exists false. split; [by eapply order_failed|]. split; [done|by intros ?%exit_raise]. }
  destruct (succeeded res) eqn:Es; simpl.
  2:{ calls_step. rewrite app_nil_r. exists false. split.
      - eapply order_failed; [exact Hl|]. intros res' [= <-] [_ Hs]. congruence.
      - rewrite exit_operation. split; [done|]. intros [_ Hs]. congruence. }
  pose proof (truthful_passed _ Htrue Es) as Hp.
  assert (∀ log' complete r, in_order [run_stage (ii_entry_point (pf_identity image))] log' complete →
    (complete = true ↔ exit_success r) →
    ∃ complete, in_order (run_stages_of service image) (log ++ log') complete ∧ (complete = true ↔ exit_success r))
    as Htail by (intros log' complete r ??; exists complete; split; [by eapply order_passed|done]).
  calls_step. apply calls_set_stage. intros r3 s3.
  destruct r3 as [[]|e]; [|apply (Htail _ false); [constructor|by split; [|intros ?%exit_raise]]].
  calls_step. apply calls_observed_run; [done| |].
  { intros e s4. apply (Htail _ false); [constructor|by split; [|intros ?%exit_raise]]. }
  intros log' [res'|e] s4 Hl' Htrue'.
  2:{ apply (Htail _ false); [by eapply order_failed|by split; [|intros ?%exit_raise]]. }
  calls_step. simpl. rewrite app_nil_r. destruct (succeeded res') eqn:Es'.
  - apply (Htail _ true); [|by rewrite exit_operation; split; [intros _; apply truthful_passed|]].
    rewrite <- (app_nil_r log'). eapply order_passed; [exact Hl'|by apply truthful_passed|constructor].
  - assert (¬ passed res') as Hno by (intros [_ Hs]; congruence).
    apply (Htail _ false); [|by rewrite exit_operation].
    eapply order_failed; [exact Hl'|]. by intros ? [= <-].
Qed.

Lemma calls_upgrade s :
  calls (handle_upgrade iterations token no_service stdin_tty args progress)
    (λ log r _, upgrade_ends s log r) s.
Proof.
  unfold handle_upgrade. apply calls_finally; [apply clear_stage_local|].
  assert (∀ r, ¬ exit_success r → upgrade_ends s [] r) as Hno by (intros; by left).
  apply calls_unless_cancelled; [auto|]. intros s1 Hs1.
  apply calls_with_service; [auto|]. intros service s2 Hservice Hs2.
  apply calls_with_app; [auto|]. intros image s3 Happ Hs3.
  unfold service_details. repeat calls_step. simpl app.
  apply calls_confirmed; [auto|]. intros Ha s4.
  assert (agreed s) as Hagreed by (apply (agreed_same _ s3); [congruence|done]).
  apply calls_unless_cancelled; [auto|]. intros s5 Hs5.
  unfold flash_operation_context. repeat calls_step. simpl app.
  eapply calls_conseq; [eapply calls_run_stages; [apply flash_stages_kept|done]|].
  intros log [[outcome|last]|e] s6 Hr; simpl in Hr |- *.
  - destruct Hr as [Ho Hout]. calls_step. rewrite app_nil_r. right.
    exists service, image, false. split_and!; [done..|by apply in_order_stopped|done].
  - destruct Hr as [Ho Hlast]. destruct (ca_no_run args) eqn:En.
    + calls_step. right. exists service, image, true. rewrite En.
      split_and!; [done..|by apply in_order_app; [|constructor]|].
      split; [intros _|done]. eexists. split; [done|]. simpl. destruct last as [result|]; [|done].
      specialize (Hlast _ eq_refl).
      by apply (exit_operation "upgrade") in Hlast as (outcome & [= <-] & He).
    + eapply calls_conseq; [apply calls_commit|]. intros log' r s7 (complete & Ho' & Hiff).
      right. exists service, image, complete. rewrite En. by split_and!; [..|apply in_order_app|].
  - right. exists service, image, false.
    split_and!; [done..|by apply in_order_stopped|by split; [|intros ?%exit_raise]].
Qed.
End handlers.

(** ** An example

    A device that answers as in OperationProperties.v and reports the service
    of the example as attached, and the files of an upgrade *)

Record ServingDevice : Type := mkServing { sd_pending : list Z }.

Definition serving_status : list Z := [2; 2; 0; 0; 0; 0xFFFF; 0; 0; 0x18AB; 0x1092; 96; 0].

Definition serving_answer (data : list Z) : Res (list Z) :=
  let? request := decode_frame (bytes_words data) 0xFFFF in
  let status := fr_command request =? Command.Command_value Command.GET_SERVICE_STATUS in
  let? response := Frame_init PacketType.RESPONSE (fr_command request) (fr_sequence request)
                     (if status then serving_status
                      else answer (fr_command request) (fr_payload request))
                     0 Status.OK PROTOCOL_VERSION in
  encode_bytes response.

#[export] Instance Serving_transport : ByteTransport ServingDevice := {
  tr_open cancelled d := (Ok (mkOpenResult OPENED false "open"), d);
  tr_close d := (Ok tt, d);
  tr_write_all data d :=
    match serving_answer data with
    | Ok bytes => (Ok tt, mkServing (sd_pending d ++ bytes))
    | Raise e => (Raise e, d)
    end;
  tr_read_some n d :=
    (Ok (take (Z.to_nat n) (sd_pending d)), mkServing (drop (Z.to_nat n) (sd_pending d)));
}.

Definition upgrade_map : text :=
  concat (map (λ line, chars line ++ [10])
    ["SERVICE_IMMUTABLE     00010000   00000020  00000020  00000000  RWIX";
     "0   00010100   g_boot_flash_service_header";
     "0   00010120   g_boot_flash_service_publish_state";
     "0   00010130   g_service";
     "0   00010000   g_boot_flash_service_app_export";
     "0   00010010   BootFlashService_BootInit";
     "0   00010012   BootFlashService_BootHandleCommand";
     "0   00010014   BootFlashService_ConfirmCurrentImage"]%string).

Definition upgrade_service : FirmwareImage :=
  mkImage "service.out" "service.txt" 0x10000
    [mkBlock 0x10000 (replicate 32 7); mkBlock 0x10100 (replicate 64 0xFFFF)] 96
    [mkRange 0x10000 0x10020; mkRange 0x10100 0x10140] "0" [].

Definition upgrade_files : ImageFiles := {|
  load_firmware_image path :=
    if bool_decide (path = "app.out"%string) then Ok image_example
    else if bool_decide (path = "service.out"%string) then Ok upgrade_service
    else Raise (Err FileNotFoundError (Lit path));
  read_map_text path :=
    if bool_decide (path = "service.map"%string) then Ok upgrade_map
    else Raise (Err FileNotFoundError (Lit path));
|}.

(** [upgrade --image app.out --flash-service-image service.out
    --flash-service-map service.map], with or without [--yes] *)
Definition upgrade_args (yes : bool) : CliArgs :=
  mkArgs "upgrade" "serial" (Some "COM3"%string) 9600 None false false yes
    (Some "app.out"%string) (Some "service.out"%string) (Some "service.map"%string)
    false 0 false 0 0 0.

(** A runtime that has connected and discovered its target *)
Definition connected_runtime {T} (transport : T) : CliRuntime T :=
  mkCliRuntime (mkCliConfig "serial" (Some "COM3"%string) 9600 None) (Some (example_client transport))
    true true
    (Some (mkDiscovery (mkResult true EmptyString EmptyString EmptyString [] [] None None None
             (Some OperationCompletion.SUCCEEDED) None)
             (Some (mkDiscovered example_device_info CPU1_PROFILE "cpu1")))).

Definition connected_state {T} (transport : T) (stdin : list string) : CliState T :=
  mkCliState (connected_runtime transport) [] 1 0 [] [] false stdin [] [].

Definition run_upgrade (yes : bool) (stdin : list string) : Res CommandOutcome * CliState ServingDevice :=
  execute_command (H0 := upgrade_files) example_iterations (λ _, false) example_service true
    (upgrade_args yes) true (connected_state (mkServing []) stdin).

(** ** The properties *)

Section properties.
Context {T : Type} `{ByteTransport T} `{ImageFiles}.
Context (iterations : Z → nat) (target : TargetProfile).
Context (token : nat → bool) (no_service : PreparedServiceImage) (stdin_tty : bool).
Context (args : CliArgs) (progress : bool).

Abbreviation execute := (execute_command iterations token no_service stdin_tty args progress).
Abbreviation trace := (trace iterations (bare_context target no_service)).

(** C7: The upgrade of the command line, on every device and for every course
    of the cancellation token, runs the stages ERASE, PROGRAM, VERIFY,
    IMAGE_VALID and, without --no-run, BOOT_ATTEMPT and RUN in this order, each
    with the calls of its contract and each only after every stage before has
    succeeded; nothing is sent before both files are prepared and the user has
    agreed; and the command exits with SUCCESS exactly when all the stages have
    succeeded. *)
Theorem upgrade_runs_in_order client (s : CliState T) :
  connected_to target client s → ca_command args = "upgrade"%string →
  let '(r, s') := execute s in
  ∃ log client', trace (world_of client s) log (world_of client' s') ∧
    connected_to target client' s' ∧
    upgrade_ends iterations target token stdin_tty args progress s log r.
Proof.
  intros Hs Hc.
  assert (execute s = handle_upgrade iterations token no_service stdin_tty args progress s) as ->
    by (unfold execute_command; by rewrite Hc).
  pose proof (calls_upgrade iterations target token no_service stdin_tty args progress s client Hs)
    as Hcalls.
  destruct (handle_upgrade _ _ _ _ _ _ s) as [r s']. exact Hcalls.
Qed.

(** C8: A command that changes the device or leaves the boot loader does
    nothing without the consent of the user: unless --yes was given or the
    terminal reads an approval, the only call it may make is
    GET_METADATA_SUMMARY, and it does not exit with SUCCESS. *)
Theorem unapproved_commands_only_read client (s : CliState T) :
  connected_to target client s → ca_command args ∈ CONFIRMED_COMMANDS →
  ca_yes args = false →
  stdin_tty = false ∨ answer_decision (default EmptyString (head (cs_stdin s))) <> APPROVED →
  let '(r, s') := execute s in
  ∃ log client', trace (world_of client s) log (world_of client' s') ∧
    uses [get_metadata_summary] log ∧ ¬ exit_success r.
Proof.
  intros Hs Hc Hyes Hno.
  assert (¬ agreed stdin_tty args s) as Hagreed.
  { intros [Ha|[Ha Hd]]; [congruence|]. destruct Hno as [Ht|Hn]; [congruence|done]. }
  destruct (declined_handler iterations target token no_service stdin_tty args progress s Hc Hagreed
    client Hs) as (log & client' & Ht & _ & Hr).
  destruct (execute s) as [r s']. by exists log, client'.
Qed.
End properties.

Lemma example_connected {T} (transport : T) stdin :
  connected_to CPU1_PROFILE (example_client transport) (connected_state transport stdin).
Proof. split; [reflexivity|]. eexists. split; reflexivity. Qed.

(** The upgrade of the example succeeds. *)
Lemma upgrade_runs_in_order_witness :
  exit_success (run_upgrade true []).1 ∧
  ∃ log, upgrade_ends (H0 := upgrade_files) example_iterations CPU1_PROFILE (λ _, false) true
           (upgrade_args true) true (connected_state (mkServing []) []) log (run_upgrade true []).1.
Proof.
  assert (∃ log client', TransferProperties.trace example_iterations (bare_context CPU1_PROFILE example_service)
      (world_of (example_client (mkServing [])) (connected_state (mkServing []) []))
      log (world_of client' (run_upgrade true []).2) ∧
    connected_to CPU1_PROFILE client' (run_upgrade true []).2 ∧
    upgrade_ends (H0 := upgrade_files) example_iterations CPU1_PROFILE (λ _, false) true
      (upgrade_args true) true (connected_state (mkServing []) []) log (run_upgrade true []).1) as Hrun.
  { pose proof (upgrade_runs_in_order (H0 := upgrade_files) example_iterations CPU1_PROFILE (λ _, false)
      example_service true (upgrade_args true) true _ _ (example_connected (mkServing []) [])
      eq_refl) as Hrun.
    unfold run_upgrade. by destruct (execute_command _ _ _ _ _ _ _) as [r s']. }
  split.
  - assert (match (run_upgrade true []).1 with
            | Ok outcome => outcome_exit_code outcome = ExitCode.SUCCESS
            | Raise _ => False
            end) as Hok by (vm_compute; reflexivity).
    destruct (run_upgrade true []).1 as [outcome|e]; [by exists outcome|destruct Hok].
  - destruct Hrun as (log & client' & _ & _ & Hends). by exists log.
Defined.

(** The user answers no. *)
Lemma unapproved_commands_only_read_witness : ¬ exit_success (run_upgrade false ["n"%string]).1.
Proof.
  pose proof (unapproved_commands_only_read (H0 := upgrade_files) example_iterations CPU1_PROFILE
    (λ _, false) example_service true (upgrade_args false) true _ _
    (example_connected (mkServing []) ["n"%string]) ltac:(by apply (bool_decide_unpack _)) eq_refl
    ltac:(right; by apply (bool_decide_unpack _))) as Hrun.
  unfold run_upgrade. destruct (execute_command _ _ _ _ _ _ _) as [r s'].
  by destruct Hrun as (log & client' & _ & _ & Hr).
Defined.
