(* ===== verification/CliLifecycle.v ===== *)
(** * The connection of the command line

    [main] opens at most one transport at a time and lets go of every transport
    it made before it returns, whether the commands succeed, fail or raise.
    [holds c b s] is the invariant: the transports that were let go of were
    closed or had failed to open, none is lost, and the runtime has a session
    exactly if [b]. *)

From S2P Require Import Prelude.
From S2P Require Import Errors.
From S2P Require Import Constants.
From S2P Require Import Messages.
From S2P Require Import Models.
From S2P Require Import Firmware.
From S2P Require Import Targets.
From S2P Require Import BootClient.
From S2P Require Import OperationResults.
From S2P Require Import OperationProtocol.
From S2P Require Import FlashOps.
From S2P Require Import StatusOps.
From S2P Require Import StatusModels.
From S2P Require Import RamOps.
From S2P Require Import OperationInvariants.
From S2P Require Import OperationProperties.
From S2P Require Import SerialTransport.
From S2P Require Import Cli.
From S2P Require Import CliRuntime.
From S2P Require Import CliCommands.
From S2P Require Import CliMain.
From S2P Require Import CliProperties.

Section lifecycle.
Context {T : Type} `{ByteTransport T}.
Context (iterations : Z → nat).
Context (transport_factory : nat → SerialTransportConfig → Res T).
Context (token : nat → bool) (opening : nat → nat → bool).
Context (no_service : PreparedServiceImage).

Implicit Types s : CliState T.

(** A transport whose last call was [close], or an [open] that did not open it *)
Definition let_go (transport : T) : Prop :=
  (∃ before, (tr_close before).2 = transport) ∨
  (∃ cancelled before, (tr_open cancelled before).2 = transport ∧
     match (tr_open cancelled before).1 with
     | Ok result => to_status result <> OPENED
     | Raise _ => True
     end).

(** The transports the factory has made for a configuration *)
Definition makes (c : CliRuntimeConfig) (n : nat) : bool :=
  match serial_transport_config c with
  | Ok config => is_ok (transport_factory n config)
  | Raise _ => false
  end.
Definition made (c : CliRuntimeConfig) (n : nat) : nat := length (List.filter (makes c) (seq 0 n)).

Definition sessions s : nat := if rt_session (cs_runtime s) is Some _ then 1 else 0.

Record accounted (c : CliRuntimeConfig) s : Prop := {
  ac_config : rt_config (cs_runtime s) = c;
  ac_let_go : Forall let_go (cs_released s);
  ac_made : (length (cs_released s) + sessions s = made c (cs_opened s))%nat;
}.

Definition holds (c : CliRuntimeConfig) (b : bool) s : Prop :=
  accounted c s ∧ is_some (rt_session (cs_runtime s)) = b ∧ rt_connected (cs_runtime s) = b.

(** Changes that leave the connection alone; the input only gets shorter. *)
Record near s s' : Prop := {
  nr_config : rt_config (cs_runtime s') = rt_config (cs_runtime s);
  nr_session : is_some (rt_session (cs_runtime s')) = is_some (rt_session (cs_runtime s));
  nr_connected : rt_connected (cs_runtime s') = rt_connected (cs_runtime s);
  nr_released : cs_released s' = cs_released s;
  nr_opened : cs_opened s' = cs_opened s;
  nr_stdin : (length (cs_stdin s') <= length (cs_stdin s))%nat;
}.

Definition apart (f : CliState T → CliState T) : Prop := ∀ s, near s (f s).
Definition stable (J : CliState T → Prop) : Prop := ∀ s s', near s s' → J s → J s'.

Lemma holds_stable c b : stable (holds c b).
Proof.
  intros s s' [Hc Hs Hn Hr Ho _] ([H1 H2 H3] & Hb & Hb').
  split; [|by rewrite Hs, Hn]. split; [congruence|congruence|].
  rewrite Hr, Ho. unfold sessions, is_some in *. rewrite <- H3.
  by destruct (rt_session (cs_runtime s')), (rt_session (cs_runtime s)).
Qed.

Lemma holds_apart c b f s : apart f → holds c b s → holds c b (f s).
Proof. intros Hf. apply holds_stable, Hf. Qed.

(** ** The runtime *)

Lemma made_S c n : made c (S n) = (made c n + (if makes c n then 1 else 0))%nat.
Proof.
  unfold made. rewrite seq_S, List.filter_app, length_app. simpl. by destruct (makes c n).
Qed.

(** The state behind [_clear_connection_state] *)
Lemma clear_holds c s :
  rt_config (cs_runtime s) = c → Forall let_go (cs_released s) →
  (length (cs_released s) + sessions s = made c (cs_opened s))%nat →
  (∀ client, rt_session (cs_runtime s) = Some client → let_go (bc_transport client)) →
  holds c false (clear_connection_state s).
Proof.
  intros Hc Hl Hm Hs. unfold holds, sessions in *. simpl. split; [|done].
  split; simpl; [done| |].
  - destruct (rt_session (cs_runtime s)) as [client|]; [|by rewrite app_nil_r].
    apply Forall_app. split; [done|]. apply Forall_singleton. by apply Hs.
  - unfold sessions. simpl. rewrite length_app. destruct (rt_session (cs_runtime s)); simpl; lia.
Qed.

Lemma clear_disconnected c s : holds c false s → holds c false (clear_connection_state s).
Proof.
  intros ([H1 H2 H3] & Hb & _). apply clear_holds; [done..|]. intros client Hs.
  by rewrite Hs in Hb.
Qed.

Lemma disconnect_wp c b s :
  holds c b s → wp disconnect (λ _, holds c false) (λ _, holds c false) s.
Proof.
  intros Hh. pose proof Hh as ([H1 H2 H3] & Hb & Hb'). unfold disconnect. wp_step. wp_step.
  destruct (rt_session (cs_runtime s)) as [client|] eqn:Es.
  - unfold wp, on_client, the_session, bind, get, ret. rewrite Es. simpl.
    unfold session_disconnect, tr.
    destruct (tr_close (bc_transport client)) as [r t] eqn:Ec.
    assert (holds c false (clear_connection_state (with_session (bc_set_transport t client) s)))
      as Hcleared.
    { apply clear_holds; simpl; [done..| |].
      - unfold sessions in *. by rewrite Es in H3.
      - intros ? [= <-]. left. exists (bc_transport client). simpl. by rewrite Ec. }
    by destruct r.
  - wp_step. apply clear_disconnected. split; [by split|]. rewrite Es. split; [done|].
    by rewrite Hb', <- Hb.
Qed.

(** A new connection: nothing was discovered on it yet. *)
Definition fresh (c : CliRuntimeConfig) s : Prop :=
  holds c true s ∧ rt_discovery_attempted (cs_runtime s) = false.

Definition opened_as (c : CliRuntimeConfig) (result : TransportOpenResult) s : Prop :=
  match to_status result with OPENED => fresh c s | CANCELLED => holds c false s end.

(** The state between making a transport and the end of its [open] *)
Record half_open (c : CliRuntimeConfig) (opened : bool) s : Prop := {
  ho_config : rt_config (cs_runtime s) = c;
  ho_let_go : Forall let_go (cs_released s);
  ho_made : (length (cs_released s) + sessions s = made c (cs_opened s))%nat;
  ho_session client : rt_session (cs_runtime s) = Some client →
    opened = false → let_go (bc_transport client);
  ho_opened : opened = true → is_some (rt_session (cs_runtime s)) = true;
  ho_connected : rt_connected (cs_runtime s) = false;
  ho_discovery : rt_discovery_attempted (cs_runtime s) = false;
}.

Lemma half_open_clear c s : half_open c false s → holds c false (clear_connection_state s).
Proof. intros []. apply clear_holds; auto. Qed.

Lemma open_transport_wp c s :
  holds c false s → rt_discovery_attempted (cs_runtime s) = false →
  wp (open_transport transport_factory opening)
    (λ result s', half_open c (bool_decide (to_status result = OPENED)) s')
    (λ _ s', half_open c false s') s.
Proof.
  intros ([H1 H2 H3] & Hb & Hb') Hd. unfold open_transport.
  assert (rt_session (cs_runtime s) = None) as Hnone
    by (by destruct (rt_session (cs_runtime s))).
  unfold sessions in H3. rewrite Hnone in H3.
  wp_step. wp_step. wp_step. wp_step.
  2:{ split; unfold sessions; rewrite ?Hnone; done. }
  rename a into config, H0 into Hconfig. rewrite H1 in Hconfig.
  assert (makes c (cs_opened s) = is_ok (transport_factory (cs_opened s) config)) as Hmakes
    by (unfold makes; by rewrite Hconfig).
  wp_step. wp_step. wp_step. wp_step; rename H0 into Hfactory; rewrite Hfactory in Hmakes.
  2:{ split; unfold sessions; simpl; rewrite ?Hnone; try done. rewrite made_S, Hmakes. simpl. lia. }
  wp_step. wp_step. unfold wp, on_client, the_session, bind, get, ret. simpl.
  unfold session_connect, reset_connection_state, tr, bind, modify. simpl.
  destruct (tr_open (Some (opening (cs_opened s))) a) as [r t] eqn:Eo. simpl.
  assert (∀ opened, (opened = false → match r with Ok res => to_status res <> OPENED | Raise _ => True end) →
    half_open c opened (with_session (mkBootClient t [] 0 None None)
      (with_session (BootProtocolClient_init a)
        (mkCliState (cs_runtime s) (cs_released s) (S (cs_opened s)) (cs_asked s) (cs_progress s)
           (cs_stages s) (cs_run_attempted s) (cs_stdin s) (cs_stderr s) (cs_stdout s))))) as Hhalf.
  { intros opened Ho. split; unfold sessions; simpl; try done.
    - rewrite made_S, Hmakes. simpl. lia.
    - intros client [= <-] Hopened. right. exists (Some (opening (cs_opened s))), a. rewrite Eo.
      simpl. split; [done|by apply Ho]. }
  destruct r as [result|e]; apply Hhalf; [|done]. by case_bool_decide.
Qed.

Lemma connect_wp c s :
  holds c false s →
  wp (connect transport_factory opening) (opened_as c) (λ _, holds c false) s.
Proof.
  intros Hh. pose proof Hh as (_ & _ & Hb). unfold connect. wp_step. wp_step. rewrite Hb.
  wp_step. wp_step; [|done]. wp_step. wp_step. wp_step. apply wp_catch.
  eapply wp_conseq; [apply (open_transport_wp c); [by apply clear_disconnected|done]|..].
  - intros result s1 Ho. unfold opened_as. cbn beta in Ho |- *. wp_step.
    destruct (to_status result) eqn:Es.
    + rewrite bool_decide_eq_true_2 in Ho by done. destruct Ho as [H1 H2 H3 _ H5 H6 H7].
      wp_step. wp_step. rewrite Es. split; [|done]. split; [by split|]. by split; [apply H5|].
    + rewrite bool_decide_eq_false_2 in Ho by done.
      wp_step. wp_step. rewrite Es. by apply half_open_clear.
  - intros e s1 Ho. cbn beta. wp_step. wp_step. wp_step. by apply half_open_clear.
Qed.

(** ** Everything else leaves the connection alone *)

Section kept.
Context (J : CliState T → Prop) (HJ : stable J).

Lemma keeps_apart f : apart f → keeps J (modify f).
Proof using HJ. intros Hf. apply keeps_modify. intros s. by apply HJ. Qed.

Lemma keeps_session : keeps J the_session.
Proof. unfold the_session. keeps_steps. Qed.

Lemma keeps_target : keeps J the_target.
Proof. unfold the_target, discovered_target. keeps_steps. Qed.

Lemma kept_asked : keeps J (is_cancel_requested token).
Proof using HJ. intros s. by apply (HJ s (cs_set_asked _ s)). Qed.

Lemma keeps_read_line : keeps J read_line.
Proof using HJ.
  intros s. apply HJ. unfold read_line, bind, gets.
  destruct (cs_stdin s) as [|line lines] eqn:El; [by split|]. split; simpl; try done.
  rewrite El. simpl. lia.
Qed.

Lemma keeps_operate {A} (m : ST (World T) A) : keeps J (operate m).
Proof using HJ.
  intros s Hs. unfold operate, the_session, bind, get, ret.
  destruct (rt_session (cs_runtime s)) as [client|] eqn:Es; [|exact Hs].
  destruct (m _) as [r w]. eapply HJ, Hs. by split; simpl; rewrite ?Es.
Qed.

Lemma kept_finally {A} (m : ST (CliState T) A) f :
  keeps J m → apart f → keeps J (finally m f).
Proof using HJ.
  intros Hm Hf s Hs. unfold finally. specialize (Hm s Hs). destruct (m s) as [r s1].
  by apply (HJ s1 (f s1)).
Qed.
End kept.

#[local] Hint Resolve keeps_session keeps_target kept_asked keeps_operate keeps_read_line
  holds_stable : keeps.

Ltac kept :=
  repeat first
    [ solve [auto with keeps]
    | apply keeps_apart; [solve [auto with keeps]|by split]
    | lazymatch goal with
      | |- keeps _ (operation_context _ _ _) => unfold operation_context
      | |- keeps _ (flash_operation_context _ _ _) => unfold flash_operation_context
      | |- keeps _ client_of => unfold client_of
      | |- keeps _ discovered_target => unfold discovered_target
      end
    | keeps_step ].

Section commands.
Context `{ImageFiles} (stdin_tty : bool) (args : CliArgs) (progress : bool).
Context (J : CliState T → Prop) (HJ : stable J).

Implicit Types k : ST (CliState T) CommandOutcome.

Lemma keeps_unless_cancelled command message k :
  keeps J k → keeps J (unless_cancelled token command message k).
Proof using HJ. intros Hk. unfold unless_cancelled. kept. Qed.

Lemma keeps_prepared {A} command (prepare : TargetProfile → Res A)
    (body : A → ST (CliState T) CommandOutcome) :
  (∀ a, keeps J (body a)) → keeps J (prepared command prepare body).
Proof using HJ. intros Hk. unfold prepared. kept. Qed.

Lemma keeps_confirmed command details k :
  keeps J k → keeps J (confirmed stdin_tty args command details k).
Proof using HJ. intros Hk. unfold confirmed, request_confirmation. kept. Qed.

Lemma keeps_simple command operation :
  keeps J (run_simple token no_service progress command operation).
Proof using HJ. unfold run_simple. kept. Qed.

Lemma keeps_flash_command command service operation :
  keeps J (run_flash_command token progress command service operation).
Proof using HJ. unfold run_flash_command. kept. Qed.

Lemma keeps_details command : keeps J (service_details args command).
Proof using HJ. unfold service_details. kept. Qed.

Lemma keeps_observe target field payload : keeps J (observe_run target field payload).
Proof using HJ. unfold observe_run. kept. Qed.

Lemma keeps_stage index total name :
  keeps J (set_workflow_stage progress index total name).
Proof using HJ. unfold set_workflow_stage. kept. Qed.

#[local] Hint Resolve keeps_simple keeps_flash_command keeps_details keeps_observe keeps_stage
  : keeps.

(** One step through a handler *)
Ltac handler_step :=
  lazymatch goal with
  | |- keeps _ (unless_cancelled _ _ _ _) => apply keeps_unless_cancelled
  | |- keeps _ (prepared _ _ _) => apply keeps_prepared; intros ?
  | |- keeps _ (with_service _ _ _ _) => unfold with_service
  | |- keeps _ (with_app _ _ _ _) => unfold with_app
  | |- keeps _ (with_ram _ _ _ _) => unfold with_ram
  | |- keeps _ (confirmed _ _ _ _ _) => apply keeps_confirmed
  end; cbn beta.
Ltac handled := repeat first [progress kept | handler_step].

Lemma keeps_run_stages command total index stages result :
  keeps J (run_stages token progress command total index stages result).
Proof using HJ.
  revert index result. induction stages as [|[name m] stages IH]; intros index result; simpl; kept.
Qed.

Lemma keeps_observed_run ctx entry_point :
  keeps J (observed_run iterations ctx entry_point).
Proof using HJ. unfold observed_run. kept. Qed.

Lemma keeps_observed_run_ram ctx entry_point :
  keeps J (observed_run_ram iterations ctx entry_point).
Proof using HJ. unfold observed_run_ram. kept. Qed.

#[local] Hint Resolve keeps_run_stages keeps_observed_run keeps_observed_run_ram : keeps.

Lemma keeps_upgrade :
  keeps J (handle_upgrade iterations token no_service stdin_tty args progress).
Proof using HJ.
  unfold handle_upgrade, commit_to_run. apply kept_finally; [done|handled|].
  intros s. unfold clear_workflow_stage. by destruct progress; split.
Qed.

Lemma kept_erase : keeps J (handle_erase iterations token stdin_tty args progress).
Proof using HJ. unfold handle_erase, confirm_erase. cbv zeta. handled. destruct (ca_image args); handled. Qed.

Lemma keeps_runs :
  keeps J (handle_run iterations token no_service stdin_tty args progress) ∧
  keeps J (handle_run_ram iterations token no_service stdin_tty args progress).
Proof using HJ. split; [unfold handle_run|unfold handle_run_ram]; handled. Qed.

Lemma keeps_command :
  keeps J (execute_command iterations token no_service stdin_tty args progress).
Proof using HJ.
  assert (Forall (λ h, keeps J h.2)
    (handlers iterations token no_service stdin_tty args progress)) as Hall.
  { unfold handlers. repeat (apply Forall_cons; split; [simpl|]); [..|constructor].
    all: first [ solve [apply keeps_upgrade | apply kept_erase | apply keeps_runs]
               | unfold handle_status, target_summary, handle_device_info, handle_protocol_info,
                   handle_last_error, handle_metadata_status, handle_service_status,
                   handle_memory_read, handle_metadata_image_valid, handle_metadata_boot_attempt,
                   handle_metadata_app_confirmed, handle_service_attach, handle_program,
                   handle_verify, handle_ram_load, handle_ram_check_crc; cbv zeta; handled ]. }
  unfold execute_command. destruct (find _ _) as [h|] eqn:Ef; [|apply keeps_raise].
  apply find_some in Ef as [Hin _]. rewrite List.Forall_forall in Hall. by apply Hall.
Qed.
End commands.

(** ** Connecting and discovering *)

Lemma wp_keeps {A} c b (m : ST (CliState T) A) s :
  keeps (holds c b) m → holds c b s → wp m (λ _, holds c b) (λ _, holds c b) s.
Proof. intros Hm Hs. specialize (Hm s Hs). unfold wp. by destruct (m s) as [[a|e] s']. Qed.

(** A computation that raises nothing *)
Definition quietly {A} (m : ST (CliState T) A) (Q : A → CliState T → Prop) s : Prop :=
  wp m Q (λ _ _, False) s.

Lemma disconnect_silently_wp c b s : holds c b s → quietly disconnect_silently (λ _, holds c false) s.
Proof.
  intros Hs. unfold quietly, disconnect_silently. apply wp_catch.
  eapply wp_conseq; [by eapply disconnect_wp|done|done].
Qed.

Lemma disconnect_quiet_wp c b s : holds c b s → quietly disconnect_quiet (λ _, holds c false) s.
Proof.
  intros Hs. unfold quietly, disconnect_quiet. apply wp_catch.
  eapply wp_conseq; [by eapply disconnect_wp|done|]. intros e s1 H1. cbn beta.
  unfold write_stderr. wp_step. apply (holds_apart _ _ (cs_add_stderr _)); [by split|done].
Qed.

Lemma discover_wp c s :
  fresh c s →
  wp (discover iterations no_service)
    (λ outcome, holds c (or_ok (td_result outcome))) (λ _, holds c false) s.
Proof.
  intros [Hs Hd]. unfold discover. wp_step. wp_step. pose proof Hs as (_ & _ & Hc).
  rewrite Hc. simpl negb. cbn iota. rewrite Hd.
  assert (∀ outcome s, holds c true s → holds c true (with_discovery outcome s)) as Hwith
    by (intros outcome s1; apply holds_stable; by split).
  wp_step. wp_step. wp_step. apply wp_catch.
  eapply wp_conseq; [apply (wp_keeps c true); [apply keeps_operate, holds_stable|by apply Hwith]|..].
  - intros outcome s1 H1. cbn beta in H1 |- *. wp_step. wp_step. wp_step.
    destruct (or_ok (td_result outcome)) eqn:Eo; simpl negb; cbn iota.
    + wp_step. wp_step. rewrite Eo. by apply Hwith.
    + eapply wp_conseq; [apply (disconnect_wp c true), Hwith, H1| |done].
      intros [] s2 H2. wp_step. by rewrite Eo.
  - intros e s1 H1. cbn beta in H1 |- *. wp_step.
    eapply wp_conseq; [exact (disconnect_silently_wp c true s1 H1)| |done]. intros [] s2 H2. by wp_step.
Qed.

(** What [_connect_and_discover] returns tells whether there is a session. *)
Definition connection_of {A} (c : CliRuntimeConfig) (r : bool * A) s : Prop := holds c r.1 s.

Lemma connect_and_discover_wp c command s :
  holds c false s →
  quietly (connect_and_discover iterations transport_factory token opening no_service command)
    (connection_of c) s.
Proof.
  intros Hs. unfold quietly, connect_and_discover. apply wp_catch.
  assert (∀ b e s1, holds c b s1 →
    wp (disconnect_quiet ;;; ret (false, exception_outcome command e)) (connection_of c)
      (λ _ _, False) s1) as Hfail.
  { intros b e s1 H1. wp_step. eapply wp_conseq; [eapply disconnect_quiet_wp; eassumption| |done].
    intros [] s2 H2. by wp_step. }
  wp_step. eapply wp_conseq; [by apply connect_wp| |intros e s1 H1; by apply (Hfail false)].
  intros opened s1 H1. unfold opened_as in H1. destruct (to_status opened).
  2:{ by wp_step. }
  wp_step. eapply wp_conseq; [by apply discover_wp| |intros e s2 H2; by apply (Hfail false)].
  intros discovery s2 H2. cbn beta in H2 |- *.
  destruct (or_ok (td_result discovery)); simpl negb; cbn iota.
  - wp_step. eapply wp_conseq; [apply (wp_keeps c true); [apply kept_asked, holds_stable|done]| |].
    + intros cancelled s3 H3. cbn beta in H3 |- *. destruct cancelled; [|by wp_step].
      wp_step. eapply wp_conseq; [eapply disconnect_quiet_wp; eassumption| |done].
      intros [] s4 H4. by wp_step.
    + intros e s3 H3. by apply (Hfail true).
  - wp_step. eapply wp_conseq; [eapply disconnect_quiet_wp; eassumption| |done].
    intros [] s3 H3. by wp_step.
Qed.

(** ** The shell *)

Section main.
Context `{ImageFiles} (stdin_tty : bool) (parser shell_parser : Parser).
Context (service_use_parser : list string → ServiceUse).
Context (c : CliRuntimeConfig).

Definition shell_holds (sh : Shell) s : Prop := holds c (sh_connected sh) s.

Lemma quietly_ret {A} (a : A) (Q : A → CliState T → Prop) s : Q a s → quietly (ret a) Q s.
Proof. done. Qed.

Lemma quietly_bind {A B} (m : ST (CliState T) A) (k : A → ST (CliState T) B) Q Q' s :
  quietly m Q' s → (∀ a s', Q' a s' → wp (k a) Q (λ _ _, False) s') → quietly (bind m k) Q s.
Proof. intros Hm Hk. apply wp_bind. by eapply wp_conseq. Qed.

Lemma quietly_kept {A} b (m : ST (CliState T) A) (h : Exn → ST (CliState T) A) s :
  keeps (holds c b) m → (∀ e, keeps (holds c b) (h e)) → (∀ e s, is_ok (h e s).1 = true) →
  holds c b s → quietly (catch m h) (λ _, holds c b) s.
Proof.
  intros Hm Hh Hok Hs. specialize (Hm s Hs). unfold quietly, wp, catch.
  destruct (m s) as [[a|e] s1]; [done|]. specialize (Hh e s1 Hm). specialize (Hok e s1).
  by destruct (h e s1) as [[]].
Qed.

Lemma parser_error_wp b usage prog message command json_mode s :
  holds c b s →
  quietly (parser_error usage prog message command json_mode) (λ _, holds c b) s.
Proof.
  intros Hs. unfold parser_error, write_stderr. apply wp_bind.
  destruct json_mode; [by wp_step; wp_step|]. wp_step. wp_step. apply (holds_apart _ _ (cs_add_stderr _)); [by split|done].
Qed.

Lemma target_command_wp b words connected service_paths json_mode s :
  holds c b s →
  quietly (target_command iterations token no_service stdin_tty shell_parser words connected
             service_paths json_mode) (λ _, holds c b) s.
Proof.
  intros Hs. unfold target_command. destruct (fixed_option_error words); [done|].
  destruct (service_option_error words); [done|]. case_bool_decide; [done|].
  destruct (default _ service_paths) as [image map_path].
  destruct (parse_args _ _) as [args|usage prog message|code]; [|by apply parser_error_wp|done].
  destruct connected; [|done]. simpl negb. cbn iota.
  destruct (_ && _); [done|]. apply quietly_kept; [apply keeps_command, holds_stable|kept|done|done].
Qed.

Lemma disconnect_command_wp b s :
  holds c b s → quietly (disconnect_command b) (connection_of c) s.
Proof.
  intros Hs. unfold disconnect_command. destruct b; simpl negb; cbn iota; [|done].
  apply wp_catch. wp_step. eapply wp_conseq; [eapply disconnect_wp; exact Hs|..].
  - intros [] s1 H1. by wp_step.
  - intros e s1 H1. by wp_step.
Qed.

Lemma reconnect_wp b s :
  holds c b s →
  quietly (reconnect iterations transport_factory token opening no_service b) (connection_of c) s.
Proof.
  intros Hs. unfold reconnect.
  apply (quietly_bind _ _ _ (λ _, holds c false)).
  - destruct b; [|done]. apply wp_catch. wp_step.
    eapply wp_conseq; [eapply disconnect_wp; exact Hs|..].
    + intros [] s1 H1. by wp_step.
    + intros e s1 H1. by wp_step.
  - intros [outcome|] s1 H1; [by wp_step|by apply connect_and_discover_wp].
Qed.

Lemma shell_command_wp words sh json_mode s :
  shell_holds sh s →
  quietly (shell_command iterations transport_factory token opening no_service stdin_tty
             shell_parser service_use_parser words sh json_mode) (λ r, shell_holds r.1) s.
Proof.
  intros Hs. unfold shell_command. cbv zeta.
  assert (∀ command m,
    quietly m (connection_of c) s →
    quietly match no_argument_command words command with
            | Some invalid => ret (sh, invalid)
            | None => r <- m ;; ret (mkShell r.1 (sh_service_paths sh), r.2)
            end (λ r, shell_holds r.1) s) as Hchange.
  { intros command m Hm. destruct (no_argument_command _ _); [done|].
    eapply quietly_bind; [exact Hm|]. intros r s1 Hs1. by wp_step. }
  case_bool_decide; [by destruct (no_argument_command _ _)|].
  case_bool_decide.
  { destruct (fixed_option_error words); [done|]. unfold service_use.
    apply (quietly_bind _ _ _ (λ _, shell_holds sh)).
    - destruct (service_use_parser _); [done|].
      eapply quietly_bind; [by apply parser_error_wp|]. intros outcome s1 Hs1. by wp_step.
    - intros [outcome [replacement|]] s1 Hs1; by wp_step. }
  case_bool_decide.
  { destruct (no_argument_command _ _); [done|]. destruct (sh_connected sh) eqn:Ec; [done|].
    unfold shell_holds in Hs. rewrite Ec in Hs.
    eapply quietly_bind; [by apply connect_and_discover_wp|]. intros r s1 Hs1. by wp_step. }
  case_bool_decide; [by apply Hchange, disconnect_command_wp|].
  case_bool_decide; [by apply Hchange, reconnect_wp|].
  case_bool_decide.
  { destruct (no_argument_command _ _); [done|]. destruct (sh_connected sh) eqn:Ec; [|done].
    simpl negb. cbn iota. apply (quietly_bind _ _ _ (λ _, shell_holds sh)).
    - apply quietly_kept; [apply keeps_simple, holds_stable|kept|done|exact Hs].
    - intros outcome s1 Hs1. by wp_step. }
  eapply quietly_bind; [by apply target_command_wp|]. intros outcome s1 Hs1. cbn beta in Hs1 |- *.
  wp_step. wp_step. destruct (cs_run_attempted s1); [|by wp_step].
  wp_step. eapply wp_conseq; [eapply disconnect_quiet_wp; exact Hs1| |done].
  intros [] s2 Hs2. by wp_step.
Qed.

Lemma render_keeps b outcome json_mode verbose : keeps (holds c b) (render outcome json_mode verbose).
Proof. unfold render. kept. Qed.

(** When an outcome cannot be written, the shell has disconnected. *)
Lemma render_in_shell_wp b outcome json_mode verbose s :
  holds c b s →
  wp (render_in_shell b outcome json_mode verbose) (λ _, holds c b) (λ _, holds c false) s.
Proof.
  intros Hs. unfold render_in_shell. apply wp_catch.
  eapply wp_conseq; [apply (wp_keeps c b); [apply render_keeps|done]|done|].
  intros e s1 Hs1. cbn beta in Hs1 |- *. wp_step. destruct b; [|by wp_step; wp_step].
  eapply wp_conseq; [eapply disconnect_quiet_wp; exact Hs1| |done]. intros [] s2 Hs2. by wp_step.
Qed.

Lemma keeps_prompt b connected : keeps (holds c b) (prompt stdin_tty connected).
Proof. unfold prompt, write_stderr. kept. Qed.

Abbreviation released := (λ _ : Exn, holds c false).
Abbreviation loop := (shell_loop iterations transport_factory token opening no_service stdin_tty
  shell_parser service_use_parser).

Lemma prompt_wp b connected s :
  holds c b s → quietly (prompt stdin_tty connected) (λ _, holds c b) s.
Proof.
  intros Hs. pose proof (keeps_prompt b connected s Hs) as Hp. unfold quietly, wp, prompt in *.
  by destruct stdin_tty.
Qed.

Lemma read_line_wp b s : holds c b s → quietly read_line (λ _, holds c b) s.
Proof.
  intros Hs. pose proof (keeps_read_line _ (holds_stable c b) s Hs) as Hp.
  unfold quietly, wp, read_line, bind, gets in *. by destruct (cs_stdin s).
Qed.

Lemma shell_loop_wp fuel json_mode verbose sh s :
  shell_holds sh s → wp (loop fuel json_mode verbose sh) shell_holds released s.
Proof.
  revert sh s. induction fuel as [|fuel IH]; intros sh s Hs; [done|]. simpl. unfold shell_turn.
  assert (∀ outcome s1, shell_holds sh s1 →
    wp (render_in_shell (sh_connected sh) outcome json_mode verbose ;;;
        loop fuel json_mode verbose sh) shell_holds released s1) as Hagain.
  { intros outcome s1 Hs1. wp_step.
    eapply wp_conseq; [by apply render_in_shell_wp| |done]. intros [] s2 Hs2. by apply IH. }
  wp_step. eapply wp_conseq; [by apply prompt_wp| |done]. intros [] s1 Hs1.
  wp_step. eapply wp_conseq; [by apply read_line_wp| |done]. intros line s2 Hs2.
  case_bool_decide; [by wp_step|].
  destruct (shell_words line) as [[|command words]|error]; [by apply IH| |by apply Hagain].
  wp_step. wp_step.
  assert (shell_holds sh (cs_set_run_attempted false s2)) as Hs3
    by (by apply (holds_apart c _ (cs_set_run_attempted false)); [split|]).
  case_bool_decide.
  { destruct (no_argument_command _ _); [by apply Hagain|by wp_step]. }
  wp_step. eapply wp_conseq; [by apply shell_command_wp| |done]. intros r s4 Hs4.
  wp_step. eapply wp_conseq; [by apply render_in_shell_wp| |done]. intros [] s5 Hs5. by apply IH.
Qed.

Lemma run_shell_wp args s :
  holds c false s →
  wp (run_shell iterations transport_factory token opening no_service stdin_tty shell_parser
        service_use_parser args) (λ _, holds c false) released s.
Proof.
  intros Hs. unfold run_shell. cbv zeta. wp_step.
  eapply wp_conseq; [by apply connect_and_discover_wp| |done]. intros r s1 Hs1.
  unfold connection_of in Hs1. wp_step.
  apply (wp_conseq _ (λ _, holds c r.1) _ released released); [|intros [] s2 Hs2|done].
  { case_bool_decide; [by wp_step|by apply render_in_shell_wp]. }
  wp_step. wp_step. wp_step.
  eapply wp_conseq; [by apply (shell_loop_wp _ _ _ (mkShell r.1 _))| |done].
  intros sh s3 Hs3. cbn beta. wp_step.
  apply (wp_conseq _ (λ _, holds c false) _ (λ _ _, False) released); [|by intros [] s4 Hs4|done].
  unfold shell_holds in Hs3. destruct (sh_connected sh); [by eapply disconnect_quiet_wp|by wp_step].
Qed.

(** ** One command *)

Lemma run_connected_wp args s :
  holds c false s →
  quietly (run_connected iterations transport_factory token opening no_service stdin_tty args)
    (λ _ s', ∃ b, holds c b s') s.
Proof.
  intros Hs. unfold run_connected. cbv zeta. apply wp_catch.
  assert (∀ b e s1, holds c b s1 →
    wp (ret (exception_outcome (ca_command args) e)) (λ _ s', ∃ b, holds c b s') (λ _ _, False) s1)
    as Hfail by (intros b e s1 Hs1; wp_step; by exists b).
  wp_step. eapply wp_conseq; [by apply connect_wp| |intros e s1 Hs1; by apply (Hfail false)].
  intros opened s1 Hs1. unfold opened_as in Hs1. destruct (to_status opened).
  2:{ wp_step. by exists false. }
  wp_step. eapply wp_conseq; [by apply discover_wp| |intros e s2 Hs2; by apply (Hfail false)].
  intros discovery s2 Hs2. cbn beta in Hs2 |- *.
  destruct (or_ok (td_result discovery)); simpl negb; cbn iota; [|wp_step; by exists false].
  wp_step. eapply wp_conseq; [apply (wp_keeps c true); [apply kept_asked, holds_stable|done]| |].
  - intros cancelled s3 Hs3. cbn beta in Hs3 |- *. destruct cancelled; [wp_step; by exists true|].
    eapply wp_conseq; [apply (wp_keeps c true); [apply keeps_command, holds_stable|done]|..].
    + intros outcome s4 Hs4. by exists true.
    + intros e s4 Hs4. by apply (Hfail true).
  - intros e s3 Hs3. by apply (Hfail true).
Qed.

Lemma run_one_wp args s :
  holds c false s →
  wp (run_one iterations transport_factory token opening no_service stdin_tty args)
    (λ _, holds c false) released s.
Proof.
  intros Hs. unfold run_one. wp_step.
  eapply wp_conseq; [by apply run_connected_wp| |done]. intros outcome s1 [b Hs1].
  wp_step. apply (wp_conseq _ (λ _, holds c false) _ (λ _ _, False) released);
    [|intros cleanup s2 Hs2|done].
  { apply wp_catch. wp_step. eapply wp_conseq; [eapply disconnect_wp; exact Hs1|..].
    - intros [] s2 Hs2. by wp_step.
    - intros e s2 Hs2. by wp_step. }
  eapply wp_conseq; [apply (wp_keeps c false); [|exact Hs2]|done|done].
  unfold with_cleanup, write_stderr, render. kept.
Qed.

End main.

Section theorem.
Context `{ImageFiles} (stdin_tty : bool) (parser shell_parser : Parser).
Context (service_use_parser : list string → ServiceUse).

(** C36: Whatever the arguments are, for one command or the shell, whether the
    device answers, operations fail or raise, or an outcome cannot be printed,
    [main] returns without a session; it has let go of every transport it made
    exactly once, and each of these was closed ([close] was its last call) or
    had been asked to open and did not. *)
Theorem main_releases_transports argv s :
  rt_session (cs_runtime s) = None → rt_connected (cs_runtime s) = false →
  cs_released s = [] → cs_opened s = 0%nat →
  let s' := (main iterations transport_factory token opening no_service stdin_tty parser
               shell_parser service_use_parser argv s).2 in
  rt_session (cs_runtime s') = None ∧ Forall let_go (cs_released s') ∧
  length (cs_released s') = made (rt_config (cs_runtime s')) (cs_opened s').
Proof.
  intros Hn Hc Hr Ho s'.
  assert (∀ config, holds config false (cs_set_runtime (CliRuntime_init config) s)) as Hstart.
  { intros config. split; [split|done]; unfold sessions; simpl; rewrite ?Hr, ?Ho; done. }
  assert (holds (rt_config (cs_runtime s)) false s) as Hhere.
  { split; [split; unfold sessions; rewrite ?Hn, ?Hr, ?Ho; done|by rewrite Hn]. }
  cut (∃ config, holds config false s').
  { intros (config & [H1 H2 H3] & Hb & _). unfold sessions in H3.
    destruct (rt_session (cs_runtime s')); [done|]. rewrite H1. split_and!; [done..|lia]. }
  assert (∀ config (m : ST (CliState T) Z) s,
    wp m (λ _, holds config false) (λ _, holds config false) s →
    ∃ config, holds config false (m s).2) as Hrun.
  { intros config m s1 Hm. exists config. unfold wp in Hm. by destruct (m s1) as [[]]. }
  subst s'. unfold main. cbv zeta. destruct (parse_args parser argv) as [args|usage prog message|code].
  - destruct (let? config := _ in _) as [config|error].
    2:{ eapply Hrun, (wp_keeps _ false); [|exact Hhere]. unfold render. kept. }
    apply (Hrun config). wp_step. wp_step. case_bool_decide; [|apply run_one_wp, Hstart].
    apply wp_catch. eapply wp_conseq; [apply run_shell_wp, Hstart|done|]. intros e s1 Hs1.
    apply (wp_keeps config false); [|exact Hs1]. unfold render. kept.
  - eapply Hrun, (wp_keeps _ false); [|exact Hhere]. unfold parser_error, write_stderr, render. kept.
  - by exists (rt_config (cs_runtime s)).
Qed.
End theorem.

(** ** The loop of the shell ends

    Every iteration reads a line, and nothing puts lines back. *)

Definition input_within (n : nat) s : Prop := (length (cs_stdin s) <= n)%nat.

Lemma input_stable n : stable (input_within n).
Proof. intros s s' Hn Hs. destruct Hn. unfold input_within in *. lia. Qed.

#[local] Hint Resolve input_stable : keeps.

Ltac input_kept :=
  repeat first
    [ progress kept
    | progress unfold disconnect_quiet, disconnect_silently, write_stderr
    | apply keeps_modify; intros ? ?; done
    | match goal with |- keeps _ (match ?x with _ => _ end) => destruct x end ].

Section input.
Context `{ImageFiles} (stdin_tty : bool) (shell_parser : Parser).
Context (service_use_parser : list string → ServiceUse) (n : nat).

Abbreviation within := (input_within n).

Lemma input_on_client {A} (m : ST (BootProtocolClient T) A) : keeps within (on_client m).
Proof.
  intros s Hs. unfold on_client, the_session, bind, get, ret.
  destruct (rt_session (cs_runtime s)) as [client|]; [|exact Hs]. by destruct (m client).
Qed.

Lemma input_disconnect : keeps within disconnect.
Proof.
  unfold disconnect. keeps_step. destruct (rt_session _); [|input_kept]. intros s1 Hs1.
  pose proof (input_on_client session_disconnect s1 Hs1) as Hc.
  by destruct (on_client session_disconnect s1).
Qed.

#[local] Hint Resolve input_on_client input_disconnect : keeps.

Lemma input_connect : keeps within (connect transport_factory opening).
Proof. unfold connect, open_transport. input_kept. Qed.

Lemma input_discover : keeps within (discover iterations no_service).
Proof. unfold discover. input_kept. Qed.

#[local] Hint Resolve input_connect input_discover : keeps.

Lemma input_connect_and_discover command :
  keeps within
    (connect_and_discover iterations transport_factory token opening no_service command).
Proof. unfold connect_and_discover. input_kept. Qed.

Lemma input_target_command words connected service_paths json_mode :
  keeps within
    (target_command iterations token no_service stdin_tty shell_parser words connected
       service_paths json_mode).
Proof.
  unfold target_command, parser_error. input_kept.
  all: try (apply keeps_command; apply input_stable).
Qed.

#[local] Hint Resolve input_connect_and_discover input_target_command : keeps.

Lemma input_shell_command words sh json_mode :
  keeps within
    (shell_command iterations transport_factory token opening no_service stdin_tty shell_parser
       service_use_parser words sh json_mode).
Proof.
  unfold shell_command, disconnect_command, reconnect, service_use, parser_error, handle_ping.
  cbv zeta. input_kept. apply keeps_simple, input_stable.
Qed.

(** The continuations need only agree on the states [m] ends in. *)
Lemma bind_kept {A B} J (m : ST (CliState T) A) (k k' : A → ST (CliState T) B) s :
  keeps J m → J s → (∀ a s', J s' → k a s' = k' a s') → bind m k s = bind m k' s.
Proof.
  intros Hm Hs Hk. specialize (Hm s Hs). unfold bind. destruct (m s) as [[a|e] s1]; [|done].
  by apply Hk.
Qed.
End input.

Section shell_loop.
Context `{ImageFiles} (stdin_tty : bool) (shell_parser : Parser).
Context (service_use_parser : list string → ServiceUse).

Abbreviation loop := (shell_loop iterations transport_factory token opening no_service stdin_tty
  shell_parser service_use_parser).
Abbreviation turn := (shell_turn iterations transport_factory token opening no_service stdin_tty
  shell_parser service_use_parser).

Lemma input_render n connected outcome json_mode verbose :
  keeps (input_within n) (render_in_shell connected outcome json_mode verbose).
Proof. pose proof (input_disconnect n). unfold render_in_shell, render. input_kept. Qed.

Lemma input_prompt n connected : keeps (input_within n) (prompt stdin_tty connected).
Proof. unfold prompt. input_kept. Qed.

Lemma read_line_run s :
  read_line s = match cs_stdin s with
                | [] => (Ok EmptyString, s)
                | line :: lines => (Ok line, cs_set_stdin lines s)
                end.
Proof. unfold read_line, bind, gets. by destruct (cs_stdin s). Qed.

Lemma run_bound {A B} (m : ST (CliState T) A) (k : A → ST (CliState T) B) s a s' :
  m s = (Ok a, s') → bind m k s = k a s'.
Proof. unfold bind. by intros ->. Qed.

(** A turn depends on the next one only where there are fewer lines. *)
Lemma shell_turn_agrees json_mode verbose (again again' : Shell → ST (CliState T) Shell) sh s :
  (∀ sh s', (length (cs_stdin s') < length (cs_stdin s))%nat → again sh s' = again' sh s') →
  turn json_mode verbose again sh s = turn json_mode verbose again' sh s.
Proof.
  intros Hagain. unfold shell_turn.
  apply (bind_kept (input_within (length (cs_stdin s)))); [apply input_prompt|by unfold input_within|].
  intros [] s1 Hs1. unfold input_within in Hs1. pose proof (read_line_run s1) as Hread.
  destruct (cs_stdin s1) as [|line lines]; rewrite !(run_bound _ _ _ _ _ Hread).
  { case_bool_decide; done. }
  simpl in Hs1. set (s2 := cs_set_stdin lines s1). case_bool_decide; [done|].
  set (n := length lines).
  assert (∀ sh s', input_within n s' → again sh s' = again' sh s') as Hnext
    by (intros sh1 s3 Hs3; apply Hagain; unfold input_within in Hs3; lia).
  assert (input_within n s2) as Hs2 by (by unfold input_within, n).
  destruct (shell_words line) as [[|command words]|error]; [by apply Hnext| |].
  - apply (bind_kept (input_within n)); [input_kept|done|]. intros [] s3 Hs3.
    case_bool_decide.
    + destruct (no_argument_command _ _); [|done].
      apply (bind_kept (input_within n)); [apply input_render|done|]. intros [] s4 Hs4. auto.
    + apply (bind_kept (input_within n)); [apply input_shell_command|done|]. intros r s4 Hs4.
      apply (bind_kept (input_within n)); [apply input_render|done|]. intros [] s5 Hs5. auto.
  - apply (bind_kept (input_within n)); [apply input_render|done|]. intros [] s3 Hs3. auto.
Qed.

(** The shell reads its input to the end: a turn of its loop for every line
    and one for the end of the input are enough, the loop of the model is never
    cut off. *)
Theorem shell_reads_all_input fuel json_mode verbose sh s :
  (length (cs_stdin s) < fuel)%nat →
  loop fuel json_mode verbose sh s = loop (S (length (cs_stdin s))) json_mode verbose sh s.
Proof.
  revert sh s. induction fuel as [fuel IH] using lt_wf_ind; intros sh s Hlen.
  destruct fuel as [|fuel]; [lia|]. simpl. apply shell_turn_agrees. intros sh1 s1 Hs1.
  rewrite (IH fuel) by lia. symmetry. destruct (decide (fuel = length (cs_stdin s))) as [->|Hne].
  - apply IH; lia.
  - apply IH; lia.
Qed.
End shell_loop.
End lifecycle.
(** The upgrade of the example, from the command line: one transport is made,
    and closed. *)
Definition new_state {T} (stdin : list string) : CliState T :=
  mkCliState (CliRuntime_init (mkCliConfig "serial" None 9600 None)) [] 0 0 [] [] false stdin [] [].

Definition run_main (yes : bool) (stdin : list string) : Res Z * CliState ServingDevice :=
  let parser := mkParser EmptyString EmptyString (λ _, Parsed (upgrade_args yes)) in
  main (H0 := upgrade_files) example_iterations (λ _ _, Ok (mkServing [])) (λ _, false)
    (λ _ _, false) example_service true parser parser (λ _, UsePaths EmptyString EmptyString) []
    (new_state stdin).

Lemma main_releases_transports_witness :
  let s' := (run_main true []).2 in
  (run_main true []).1 = Ok 0 ∧ cs_opened s' = 1%nat ∧
  rt_session (cs_runtime s') = None ∧ Forall let_go (cs_released s') ∧
  length (cs_released s') = 1%nat.
Proof.
  assert (rt_session (cs_runtime (run_main true []).2) = None ∧
    Forall let_go (cs_released (run_main true []).2) ∧
    length (cs_released (run_main true []).2)
    = made (λ _ _, Ok (mkServing [])) (rt_config (cs_runtime (run_main true []).2))
        (cs_opened (run_main true []).2)) as (Hs & Hl & Hn).
  { unfold run_main. cbv zeta. apply main_releases_transports; reflexivity. }
  assert ((run_main true []).1 = Ok 0) as Hcode by (vm_compute; reflexivity).
  assert (cs_opened (run_main true []).2 = 1%nat) as Hopened by (vm_compute; reflexivity).
  assert (rt_config (cs_runtime (run_main true []).2)
    = mkCliConfig "serial" (Some "COM3"%string) 9600 None) as Hconfig by (vm_compute; reflexivity).
  rewrite Hopened, Hconfig in Hn.
  exact (conj Hcode (conj Hopened (conj Hs (conj Hl Hn)))).
Defined.

(** A shell that connects, is asked for its state and leaves *)
Definition run_example_shell (fuel : nat) : Res Shell * CliState ServingDevice :=
  let parser := mkParser EmptyString EmptyString (λ _, Parsed (upgrade_args true)) in
  shell_loop (H0 := upgrade_files) example_iterations (λ _ _, Ok (mkServing [])) (λ _, false)
    (λ _ _, false) example_service true parser (λ _, UsePaths EmptyString EmptyString)
    fuel false false (mkShell false None)
    (cs_set_runtime (CliRuntime_init (mkCliConfig "serial" (Some "COM3"%string) 9600 None))
       (new_state ["connect"; "ping"; "disconnect"; "exit"]%string)).

Lemma shell_reads_all_input_witness :
  run_example_shell 100 = run_example_shell 5 ∧
  length (cs_stdout (run_example_shell 5).2) = 3%nat.
Proof.
  split.
  - apply (shell_reads_all_input (H0 := upgrade_files) example_iterations
      (λ _ _, Ok (mkServing [])) (λ _, false) (λ _ _, false) example_service true
      (mkParser EmptyString EmptyString (λ _, Parsed (upgrade_args true)))
      (λ _, UsePaths EmptyString EmptyString) 100 false false (mkShell false None)
      (cs_set_runtime (CliRuntime_init (mkCliConfig "serial" (Some "COM3"%string) 9600 None))
         (new_state ["connect"; "ping"; "disconnect"; "exit"]%string))).
    simpl. lia.
  - vm_compute. reflexivity.
Defined.
