(* ===== verification/Json.v ===== *)
(** * JSON documents

    What the stores of the GUI use of the [json] module and of text files:
    values, [json.dumps] with [indent=2], [sort_keys] and
    [ensure_ascii=False], [json.loads], and the UTF-8 codec.  Reading what was
    written gives the value back, with the keys of its objects in order.

    Floating point numbers are the binary64 numbers of [SpecFloat]; printing
    chooses the shortest decimal that reads back, as [float.__repr__] does.
    Recursion limits and the texts of decoding errors are left out. *)

From Stdlib Require Import SpecFloat.
From S2P Require Import Prelude.
From S2P Require Import Errors.
From S2P Require Import Messages.

(** ** Order of texts *)

(** [s <= t] on [str] *)
Fixpoint text_leb (s t : text) : bool :=
  match s, t with
  | [], _ => true
  | _ :: _, [] => false
  | c :: s, d :: t => (c <? d) || ((c =? d) && text_leb s t)
  end.

(** [sorted(d.items())] for a dictionary with text keys *)
Fixpoint insert_key {A} (k : text) (v : A) (l : list (text * A)) : list (text * A) :=
  match l with
  | [] => [(k, v)]
  | (k', v') :: l' => if text_leb k k' then (k, v) :: l else (k', v') :: insert_key k v l'
  end.

Fixpoint sort_items {A} (l : list (text * A)) : list (text * A) :=
  match l with [] => [] | (k, v) :: l => insert_key k v (sort_items l) end.

(** ** Dictionaries in the order of insertion *)

Fixpoint dict_get {A} (k : text) (l : list (text * A)) : option A :=
  match l with
  | [] => None
  | (k', v) :: l => if text_eqb k k' then Some v else dict_get k l
  end.

(** [d[k] = v]: a key that is there keeps its place. *)
Fixpoint dict_set {A} (k : text) (v : A) (l : list (text * A)) : list (text * A) :=
  match l with
  | [] => [(k, v)]
  | (k', v') :: l => if text_eqb k k' then (k', v) :: l else (k', v') :: dict_set k v l
  end.

(** [dict(pairs)] *)
Definition dict_of {A} (pairs : list (text * A)) : list (text * A) :=
  foldl (λ d kv, dict_set kv.1 kv.2 d) [] pairs.

(** ** Integers *)

Fixpoint dec_digits (fuel : nat) (n : Z) (rest : text) : text :=
  match fuel with
  | O => rest
  | S fuel => let rest := 48 + n mod 10 :: rest in
              if n <? 10 then rest else dec_digits fuel (n / 10) rest
  end.

(** The decimal digits of a non-negative number *)
Definition dec_text (n : Z) : text := dec_digits (S (Z.to_nat (Z.log2 n))) n [].

(** The number that digits denote *)
Definition dec_int (digits : text) : Z := foldl (λ n c, 10 * n + (c - 48)) 0 digits.

(** [sys.get_int_max_str_digits()] *)
Definition MAX_STR_DIGITS : nat := 4300%nat.

(** [int.__repr__(n)] *)
Definition int_repr (n : Z) : Res text :=
  let digits := dec_text (Z.abs n) in
  fail (Err ValueError (Lit "Exceeds the limit (4300 digits) for integer string conversion"))
    when (MAX_STR_DIGITS <? length digits)%nat ;;
  Ok (if n <? 0 then 45 :: digits else digits).

(** ** Floating point numbers *)

Definition Float : Set := spec_float.

#[export] Instance Float_eq_dec : EqDecision Float.
Proof. unfold Float. solve_decision. Defined.

(** [math.isfinite] *)
Definition isfinite (f : Float) : bool :=
  match f with S754_zero _ | S754_finite _ _ _ => true | S754_infinity _ | S754_nan => false end.

(** The number nearest to [m * 10^e], ties to even *)
Definition float_of_decimal (negative : bool) (m e : Z) : Float :=
  match m with
  | Zpos p =>
      if 0 <=? e
      then binary_normalize 53 1024 (if negative then (- (m * 10 ^ e)) else m * 10 ^ e) 0 negative
      else SFdiv 53 1024 (S754_finite negative p 0) (S754_finite false (Z.to_pos (10 ^ (- e))) 0)
  | _ => S754_zero negative
  end.

(** The [n] digits of the decimals around [num / den], which lies between
    [10^(k-1)] and [10^k], nearest first. *)
Definition around (num den : Z) (k n : Z) : list Z :=
  let num' := if k <=? n then num * 10 ^ (n - k) else num in
  let den' := if k <=? n then den else den * 10 ^ (k - n) in
  let low := num' / den' in
  match 2 * (num' mod den') ?= den' with
  | Lt => [low; low + 1]
  | Gt => [low + 1; low]
  | Eq => if Z.even low then [low; low + 1] else [low + 1; low]
  end.

(** The shortest digits that read back as [f], of at most [n + fuel] digits *)
Fixpoint shortest (fuel : nat) (f : Float) (negative : bool) (num den k n : Z) : Z * Z :=
  match fuel with
  | O => (num / den, 0)
  | S fuel =>
      match find (λ d, bool_decide (float_of_decimal negative d (k - n) = f)) (around num den k n) with
      | Some d => (d, k - n)
      | None => shortest fuel f negative num den k (n + 1)
      end
  end.

(** [10^(k-1) <= num / den < 10^k] *)
Fixpoint decimal_point (fuel : nat) (num den k : Z) : Z :=
  match fuel with
  | O => k
  | S fuel => if num <? den then
                if num * 10 <? den then decimal_point fuel (num * 10) den (k - 1) else k
              else decimal_point fuel num (den * 10) (k + 1)
  end.

Definition strip_zero (d e : Z) : Z * Z := if d mod 10 =? 0 then (d / 10, e + 1) else (d, e).

(** The digits [d * 10^e] as [float.__repr__] lays them out *)
Definition layout (d e : Z) : text :=
  let digits := dec_text d in
  let n := zlen digits in
  let k := n + e in
  if (-4 <? k) && (k <=? 16) then
    if k <=? 0 then chars "0." ++ replicate (Z.to_nat (- k)) 48 ++ digits
    else if k <? n then take (Z.to_nat k) digits ++ 46 :: drop (Z.to_nat k) digits
    else digits ++ replicate (Z.to_nat (k - n)) 48 ++ chars ".0"
  else
    let x := dec_text (Z.abs (k - 1)) in
    take 1 digits ++ (if n =? 1 then [] else 46 :: drop 1 digits) ++
    [101; if k - 1 <? 0 then 45 else 43] ++ (if zlen x =? 1 then 48 :: x else x).

(** [float.__repr__] *)
Definition float_repr (f : Float) : text :=
  let sign (negative : bool) (s : text) := if negative then 45 :: s else s in
  match f with
  | S754_zero s => sign s (chars "0.0")
  | S754_infinity s => sign s (chars "inf")
  | S754_nan => chars "nan"
  | S754_finite s m e =>
      let num := if 0 <=? e then Zpos m * 2 ^ e else Zpos m in
      let den := if 0 <=? e then 1 else 2 ^ (- e) in
      let k := decimal_point 400 num den 0 in
      let '(d, x) := shortest 17 f s num den k 1 in
      let '(d, x) := strip_zero d x in
      sign s (layout d x)
  end.

(** The integer a number is equal to, if there is one *)
Definition float_integer (f : Float) : option Z :=
  match f with
  | S754_zero _ => Some 0
  | S754_finite s m e =>
      let signed n := if s then (- n) else n in
      if 0 <=? e then Some (signed (Zpos m * 2 ^ e))
      else if Zpos m mod 2 ^ (- e) =? 0 then Some (signed (Zpos m / 2 ^ (- e))) else None
  | _ => None
  end.

(** ** Values *)

(** [None], [True] and the other values that JSON can express; [JArray] is a
    list or a tuple, [JObject] a dictionary with text keys, and [JOther] any
    other object, of the class [cls]. *)
Inductive Json : Type :=
| JNull
| JBool (b : bool)
| JInt (n : Z)
| JFloat (f : Float)
| JText (s : text)
| JArray (items : list Json)
| JObject (items : list (text * Json))
| JOther (cls : string).

Fixpoint Json_ind' (P : Json → Prop)
    (Hnull : P JNull) (Hbool : ∀ b, P (JBool b)) (Hint : ∀ n, P (JInt n))
    (Hfloat : ∀ f, P (JFloat f)) (Htext : ∀ s, P (JText s))
    (Harray : ∀ items, Forall P items → P (JArray items))
    (Hobject : ∀ items, Forall (λ kv, P kv.2) items → P (JObject items))
    (Hother : ∀ cls, P (JOther cls)) (v : Json) : P v :=
  let go := Json_ind' P Hnull Hbool Hint Hfloat Htext Harray Hobject Hother in
  match v with
  | JNull => Hnull
  | JBool b => Hbool b
  | JInt n => Hint n
  | JFloat f => Hfloat f
  | JText s => Htext s
  | JArray items => Harray items
      ((fix all l : Forall P l :=
          match l with
          | [] => List.Forall_nil P
          | x :: l => List.Forall_cons P x l (go x) (all l)
          end) items)
  | JObject items => Hobject items
      ((fix all l : Forall (λ kv : text * Json, P kv.2) l :=
          match l with
          | [] => List.Forall_nil (λ kv : text * Json, P kv.2)
          | kv :: l => List.Forall_cons (λ kv : text * Json, P kv.2) kv l (go kv.2) (all l)
          end) items)
  | JOther cls => Hother cls
  end.

(** A number as an integer or a float; [True] is 1. *)
Definition number (v : Json) : option (Z + Float) :=
  match v with
  | JBool b => Some (inl (Z.b2z b))
  | JInt n => Some (inl n)
  | JFloat f => Some (inr f)
  | _ => None
  end.

Definition number_eq (a b : Z + Float) : bool :=
  match a, b with
  | inl m, inl n => m =? n
  | inr f, inr g => SFeqb f g
  | inl n, inr f | inr f, inl n => bool_decide (float_integer f = Some n)
  end.

(** [a == b]; dictionaries are equal whatever the order of their keys. *)
Fixpoint json_eq (a b : Json) {struct a} : bool :=
  match a, b with
  | JNull, JNull => true
  | JText s, JText t => text_eqb s t
  | JArray xs, JArray ys =>
      (fix all xs ys := match xs, ys with
                        | [], [] => true
                        | x :: xs, y :: ys => json_eq x y && all xs ys
                        | _, _ => false
                        end) xs ys
  | JObject xs, JObject ys =>
      (length xs =? length ys)%nat &&
      forallb (λ kv, match dict_get kv.1 ys with Some w => json_eq kv.2 w | None => false end) xs
  | (JBool _ | JInt _ | JFloat _), _ =>
      match number a, number b with Some x, Some y => number_eq x y | _, _ => false end
  | _, _ => false
  end.

(** The keys of every object in order, as they are read back *)
Fixpoint canonical (v : Json) : Json :=
  match v with
  | JArray items => JArray (map canonical items)
  | JObject items => JObject (sort_items (map (λ kv, (kv.1, canonical kv.2)) items))
  | _ => v
  end.

(** ** json.dumps *)

(** [ESCAPE_DCT] of the encoder *)
Definition escape_char (c : Z) : text :=
  if c =? 34 then [92; 34]
  else if c =? 92 then [92; 92]
  else if c =? 10 then [92; 110]
  else if c =? 13 then [92; 114]
  else if c =? 9 then [92; 116]
  else if c =? 8 then [92; 98]
  else if c =? 12 then [92; 102]
  else if c <? 32 then
    chars "\u00" ++ [48 + c / 16; if c mod 16 <? 10 then 48 + c mod 16 else 87 + c mod 16]
  else [c].

(** [encode_basestring(s)] *)
Definition encode_string (s : text) : text := 34 :: flat_map escape_char s ++ [34].

Definition newline_indent (level : nat) : text := 10 :: replicate (2 * level) 32.

(** [separator.join(parts)] *)
Fixpoint join (separator : text) (parts : list text) : text :=
  match parts with
  | [] => []
  | [p] => p
  | p :: parts => p ++ separator ++ join separator parts
  end.

(** Between brackets, one item a line *)
Definition bracketed (opening closing : Z) (level : nat) (parts : list text) : text :=
  match parts with
  | [] => [opening; closing]
  | _ => opening :: newline_indent (S level) ++ join (44 :: newline_indent (S level)) parts ++
         newline_indent level ++ [closing]
  end.

Definition member_text (k t : text) : text := encode_string k ++ chars ": " ++ t.

(** [_iterencode(v, level)] *)
Fixpoint dumps (level : nat) (v : Json) : Res text :=
  match v with
  | JNull => Ok (chars "null")
  | JBool b => Ok (chars (if b then "true" else "false"))
  | JInt n => int_repr n
  | JFloat f =>
      fail (Err ValueError (Lit "Out of range float values are not JSON compliant"))
        when negb (isfinite f) ;;
      Ok (float_repr f)
  | JText s => Ok (encode_string s)
  | JArray items =>
      let? parts := mapR (dumps (S level)) items in
      Ok (bracketed 91 93 level parts)
  | JObject items =>
      let? parts := mapR (λ kr : text * Res text, let? t := kr.2 in Ok (member_text kr.1 t))
                      (sort_items (map (λ kv, (kv.1, dumps (S level) kv.2)) items)) in
      Ok (bracketed 123 125 level parts)
  | JOther cls =>
      Raise (Err TypeError (Fmt "Object of type {} is not JSON serializable" [VStr cls]))
  end.

(** ** json.loads *)

(** The reader has run out of fuel, refuses the text, or has read a value and
    stands before what follows. *)
Inductive Scan (A : Type) : Type := NoFuel | Refused | Read (a : A) (rest : text).
Arguments NoFuel {A}.
Arguments Refused {A}.
Arguments Read {A} _ _.

Definition scan_bind {A B} (m : Scan A) (k : A → text → Scan B) : Scan B :=
  match m with NoFuel => NoFuel | Refused => Refused | Read a rest => k a rest end.

Notation "'read' x 'at' rest 'from' m ';;' k" := (scan_bind m (λ x rest, k))
  (at level 100, x pattern, rest name, m at level 99, k at level 200) : py_scope.

(** [[ \t\n\r]] *)
Definition is_json_space (c : Z) : bool := (c =? 32) || (c =? 9) || (c =? 10) || (c =? 13).
Definition skip_space : text → text := drop_while is_json_space.

(** [BACKSLASH[c]] *)
Definition unescape_char (c : Z) : option Z :=
  if (c =? 34) || (c =? 92) || (c =? 47) then Some c
  else if c =? 98 then Some 8
  else if c =? 102 then Some 12
  else if c =? 110 then Some 10
  else if c =? 114 then Some 13
  else if c =? 116 then Some 9
  else None.

(** The number of a [\uXXXX] escape *)
Definition hex4 (a b c d : Z) : option Z :=
  if is_hex a && is_hex b && is_hex c && is_hex d then Some (hex_int [a; b; c; d]) else None.

Definition high_surrogate (u : Z) : bool := between 0xD800 0xDBFF u.
Definition low_surrogate (u : Z) : bool := between 0xDC00 0xDFFF u.

(** The second half of a pair, behind a high surrogate *)
Definition low_half (u : Z) (s : text) : option Z :=
  match s with
  | b :: x :: h1 :: h2 :: h3 :: h4 :: _ =>
      if high_surrogate u && (b =? 92) && (x =? 117)
      then match hex4 h1 h2 h3 h4 with
           | Some l => if low_surrogate l then Some l else None
           | None => None
           end
      else None
  | _ => None
  end.

Definition prepend (c : Z) (m : Scan text) : Scan text :=
  match m with Read s rest => Read (c :: s) rest | other => other end.

(** [scanstring(s, end)] behind the opening quote *)
Fixpoint scan_string (s : text) : Scan text :=
  match s with
  | [] => Refused
  | c :: s =>
      if c =? 34 then Read [] s
      else if c <? 32 then Refused
      else if negb (c =? 92) then prepend c (scan_string s)
      else match s with
           | [] => Refused
           | e :: s =>
               if negb (e =? 117)
               then match unescape_char e with
                    | Some c => prepend c (scan_string s)
                    | None => Refused
                    end
               else match s with
                    | h1 :: h2 :: h3 :: h4 :: s =>
                        match hex4 h1 h2 h3 h4 with
                        | None => Refused
                        | Some u =>
                            match low_half u s, s with
                            | Some l, _ :: _ :: _ :: _ :: _ :: _ :: s =>
                                prepend (0x10000 + (u - 0xD800) * 1024 + (l - 0xDC00)) (scan_string s)
                            | _, _ => prepend u (scan_string s)
                            end
                        end
                    | _ => Refused
                    end
           end
  end.

(** [(\.\d+)?], without the point *)
Definition take_fraction (s : text) : option text * text :=
  match s with
  | p :: r =>
      if (p =? 46) && starts_with is_digit r
      then (Some (take_while is_digit r), drop_while is_digit r) else (None, s)
  | [] => (None, s)
  end.

(** [([eE][-+]?\d+)?]: is the exponent negative, and its digits *)
Definition take_exponent (s : text) : option (bool * text) * text :=
  match s with
  | e :: r =>
      if (e =? 101) || (e =? 69) then
        let '(negative, r) := match r with
                              | c :: r' => if c =? 45 then (true, r') else
                                           if c =? 43 then (false, r') else (false, r)
                              | [] => (false, r)
                              end in
        if starts_with is_digit r
        then (Some (negative, take_while is_digit r), drop_while is_digit r) else (None, s)
      else (None, s)
  | [] => (None, s)
  end.

(** [int(integer)] or [float(integer + fraction + exponent)] *)
Definition number_value (negative : bool) (integer : text) (fraction : option text)
    (exponent : option (bool * text)) : option Json :=
  match fraction, exponent with
  | None, None =>
      if (MAX_STR_DIGITS <? length integer)%nat then None
      else Some (JInt (if negative then (- dec_int integer) else dec_int integer))
  | _, _ =>
      let digits := default [] fraction in
      let x := match exponent with
               | Some (true, x) => - dec_int x
               | Some (false, x) => dec_int x
               | None => 0
               end in
      Some (JFloat (float_of_decimal negative (dec_int (integer ++ digits)) (x - zlen digits)))
  end.

(** [NUMBER_RE.match(s)] behind the sign, and its value *)
Definition scan_unsigned (negative : bool) (s : text) : Scan Json :=
  if negb (starts_with is_digit s) then Refused
  else
    let '(integer, r) := if starts_with (Z.eqb 48) s then (take 1 s, drop 1 s)
                         else (take_while is_digit s, drop_while is_digit s) in
    let '(fraction, r) := take_fraction r in
    let '(exponent, r) := take_exponent r in
    match number_value negative integer fraction exponent with
    | Some v => Read v r
    | None => Refused
    end.

(** [NaN] and [Infinity] are refused by the caller's [parse_constant]. *)
Definition scan_number (s : text) : Scan Json :=
  if starts_with (Z.eqb 45) s then scan_unsigned true (drop 1 s) else scan_unsigned false s.

(** [scan_once], [JSONArray] behind the bracket and [JSONObject] before a key *)
Fixpoint scan_value (fuel : nat) (s : text) {struct fuel} : Scan Json :=
  match fuel with
  | O => NoFuel
  | S fuel =>
      match s with
      | [] => Refused
      | c :: r =>
          if c =? 34 then read t at r from scan_string r ;; Read (JText t) r
          else if c =? 123 then
            let r := skip_space r in
            if starts_with (Z.eqb 125) r then Read (JObject []) (drop 1 r)
            else read pairs at r from scan_members fuel r ;; Read (JObject (dict_of pairs)) r
          else if c =? 91 then
            let r := skip_space r in
            if starts_with (Z.eqb 93) r then Read (JArray []) (drop 1 r)
            else read items at r from scan_items fuel r ;; Read (JArray items) r
          else match after_prefix (chars "null") s, after_prefix (chars "true") s,
                     after_prefix (chars "false") s with
               | Some r, _, _ => Read JNull r
               | _, Some r, _ => Read (JBool true) r
               | _, _, Some r => Read (JBool false) r
               | _, _, _ => scan_number s
               end
      end
  end
with scan_items (fuel : nat) (s : text) {struct fuel} : Scan (list Json) :=
  match fuel with
  | O => NoFuel
  | S fuel =>
      read v at r from scan_value fuel s ;;
      match skip_space r with
      | c :: r =>
          if c =? 93 then Read [v] r
          else if c =? 44
          then read vs at r from scan_items fuel (skip_space r) ;; Read (v :: vs) r
          else Refused
      | [] => Refused
      end
  end
with scan_members (fuel : nat) (s : text) {struct fuel} : Scan (list (text * Json)) :=
  match fuel with
  | O => NoFuel
  | S fuel =>
      match s with
      | q :: r =>
          if negb (q =? 34) then Refused
          else
            read k at r from scan_string r ;;
            match skip_space r with
            | colon :: r =>
                if negb (colon =? 58) then Refused
                else
                  read v at r from scan_value fuel (skip_space r) ;;
                  match skip_space r with
                  | c :: r =>
                      if c =? 125 then Read [(k, v)] r
                      else if c =? 44
                      then read kvs at r from scan_members fuel (skip_space r) ;;
                           Read ((k, v) :: kvs) r
                      else Refused
                  | [] => Refused
                  end
            | [] => Refused
            end
      | [] => Refused
      end
  end.

(** Every call consumes a character or is the only one at its place. *)
Definition loads_fuel (s : text) : nat := S (2 * length s).

(** [json.loads(s)] *)
Definition loads (s : text) : Scan Json :=
  if starts_with (Z.eqb 0xFEFF) s then Refused
  else
    read v at r from scan_value (loads_fuel s) (skip_space s) ;;
    match skip_space r with [] => Read v [] | _ => Refused end.

(** ** UTF-8 *)

Definition is_scalar (c : Z) : bool :=
  between 0 0x10FFFF c && negb (between 0xD800 0xDFFF c).

Definition encode_char (c : Z) : list Z :=
  if c <? 0x80 then [c]
  else if c <? 0x800 then [0xC0 + c / 64; 0x80 + c mod 64]
  else if c <? 0x10000 then [0xE0 + c / 4096; 0x80 + c / 64 mod 64; 0x80 + c mod 64]
  else [0xF0 + c / 262144; 0x80 + c / 4096 mod 64; 0x80 + c / 64 mod 64; 0x80 + c mod 64].

(** [s.encode("utf-8")] *)
Definition utf8_encode (s : text) : option (list Z) :=
  if forallb is_scalar s then Some (flat_map encode_char s) else None.

Definition continuation (b : Z) : bool := between 0x80 0xBF b.

(** The number that the bytes of a sequence denote, if it is a character that
    needs that many bytes *)
Definition sequence_char (lowest c : Z) (rest : list Z) : option Z :=
  if (lowest <=? c) && is_scalar c && forallb continuation rest then Some c else None.

(** [bs.decode("utf-8")] *)
Fixpoint utf8_decode (bs : list Z) : option text :=
  let put (c : option Z) (s : option text) := match c, s with
                                               | Some c, Some s => Some (c :: s)
                                               | _, _ => None
                                               end in
  match bs with
  | [] => Some []
  | a :: r1 =>
      if a <? 0x80 then put (Some a) (utf8_decode r1)
      else match r1 with
      | b :: r2 =>
          if between 0xC2 0xDF a
          then put (sequence_char 0x80 ((a - 0xC0) * 64 + (b - 0x80)) [b]) (utf8_decode r2)
          else match r2 with
          | c :: r3 =>
              if between 0xE0 0xEF a
              then put (sequence_char 0x800 ((a - 0xE0) * 4096 + (b - 0x80) * 64 + (c - 0x80)) [b; c])
                     (utf8_decode r3)
              else match r3 with
              | d :: r4 =>
                  if between 0xF0 0xF4 a
                  then put (sequence_char 0x10000
                              ((a - 0xF0) * 262144 + (b - 0x80) * 4096 + (c - 0x80) * 64 + (d - 0x80))
                              [b; c; d]) (utf8_decode r4)
                  else None
              | [] => None
              end
          | [] => None
          end
      | [] => None
      end
  end.

(** Universal newlines, as text files are read *)
Fixpoint universal_newlines (s : text) : text :=
  match s with
  | [] => []
  | c :: r =>
      if c =? 13
      then 10 :: match r with
                 | d :: r' => if d =? 10 then universal_newlines r' else universal_newlines r
                 | [] => []
                 end
      else c :: universal_newlines r
  end.

(** [path.read_text(encoding="utf-8")] of a file with these bytes *)
Definition text_of_bytes (bs : list Z) : option text :=
  match utf8_decode bs with Some s => Some (universal_newlines s) | None => None end.

(** ** Dictionaries and their order *)

Lemma sort_items_map {A B} (f : A → B) (l : list (text * A)) :
  sort_items (map (λ kv, (kv.1, f kv.2)) l) = map (λ kv, (kv.1, f kv.2)) (sort_items l).
Proof.
  induction l as [|[k v] l IH]; cbn; [done|]. rewrite IH. generalize (sort_items l) as l'.
  clear. induction l' as [|[k' v'] l' IH]; cbn; [done|].
  destruct (text_leb k k'); cbn; [done|]. by rewrite IH.
Qed.

Lemma insert_key_perm {A} k (v : A) l : insert_key k v l ≡ₚ (k, v) :: l.
Proof.
  induction l as [|[k' v'] l IH]; cbn; [done|]. destruct (text_leb k k'); [done|].
  rewrite IH. constructor.
Qed.

Lemma sort_items_perm {A} (l : list (text * A)) : sort_items l ≡ₚ l.
Proof. induction l as [|[k v] l IH]; cbn; [done|]. by rewrite insert_key_perm, IH. Qed.

Lemma text_leb_total s t : text_leb s t = false → text_leb t s = true.
Proof.
  revert t. induction s as [|c s IH]; intros [|d t]; cbn; try done.
  destruct (Z.ltb_spec c d), (Z.eqb_spec c d); cbn; try done; intros H1.
  - rewrite (proj2 (Z.eqb_eq d c)), (IH t H1) by done. by rewrite orb_true_r.
  - by rewrite (proj2 (Z.ltb_lt d c)) by lia.
Qed.

Lemma text_leb_antisym s t : text_leb s t = true → text_leb t s = true → s = t.
Proof.
  revert t. induction s as [|c s IH]; intros [|d t]; cbn; try done.
  destruct (Z.ltb_spec c d), (Z.ltb_spec d c), (Z.eqb_spec c d), (Z.eqb_spec d c); cbn;
    try done; try lia.
  intros H1 H2. subst. f_equal. by apply IH.
Qed.

Lemma text_eqb_refl s : text_eqb s s = true.
Proof. apply bool_decide_eq_true. done. Qed.

Lemma dict_set_fresh {A} k (v : A) l : k ∉ map fst l → dict_set k v l = l ++ [(k, v)].
Proof.
  induction l as [|[k' v'] l IH]; cbn; [done|]. rewrite not_elem_of_cons. intros [Hk Hl].
  unfold text_eqb. rewrite bool_decide_eq_false_2 by done. by rewrite IH.
Qed.

Lemma dict_of_nodup {A} (l : list (text * A)) : NoDup (map fst l) → dict_of l = l.
Proof.
  intros H. unfold dict_of. enough (∀ acc, NoDup (map fst (acc ++ l)) →
    foldl (λ d kv, dict_set kv.1 kv.2 d) acc l = acc ++ l) as Hl by (by apply Hl).
  clear H. induction l as [|[k v] l IH]; intros acc Hl; cbn; [by rewrite app_nil_r|].
  rewrite dict_set_fresh.
  - rewrite IH; [by rewrite <-app_assoc|]. by rewrite <-app_assoc.
  - rewrite map_app in Hl. apply NoDup_app in Hl as (_ & Hl & _).
    intros Hk. apply (Hl k Hk). cbn. left.
Qed.

Lemma dict_get_nodup {A} (l : list (text * A)) k v :
  NoDup (map fst l) → (k, v) ∈ l → dict_get k l = Some v.
Proof.
  induction l as [|[k' v'] l IH]; cbn; intros Hl Hin; [by apply not_elem_of_nil in Hin|].
  apply NoDup_cons in Hl as [Hk Hl]. apply elem_of_cons in Hin as [[= <- <-]|Hin].
  - by rewrite text_eqb_refl.
  - unfold text_eqb. rewrite bool_decide_eq_false_2; [by apply IH|].
    intros ->. apply Hk. apply list_elem_of_fmap. by exists (k', v).
Qed.

(** ** Decimal digits *)

Lemma dec_int_app s t : dec_int (s ++ t) = dec_int s * 10 ^ zlen t + dec_int t.
Proof.
  unfold dec_int. induction t as [|c t IH] using rev_ind.
  - rewrite app_nil_r. cbn [foldl]. change (10 ^ zlen (@nil Z)) with 1. lia.
  - rewrite app_assoc, foldl_app, IH, (foldl_app _ t). cbn [foldl].
    replace (zlen (t ++ [c])) with (zlen t + 1) by (by autorewrite with zlen).
    rewrite Z.pow_add_r by zlen_lia. lia.
Qed.

Lemma dec_digits_app fuel n rest : dec_digits fuel n rest = dec_digits fuel n [] ++ rest.
Proof.
  revert n rest. induction fuel as [|fuel IH]; intros n rest; cbn; [done|].
  destruct (n <? 10); [done|]. rewrite IH, (IH _ [_]), <-app_assoc. done.
Qed.

(** Digits without a leading zero *)
Definition decimal (s : text) : Prop :=
  Forall (λ c, is_digit c = true) s ∧ s ≠ [] ∧ (starts_with (Z.eqb 48) s = true → s = [48]).

Lemma dec_digits_spec fuel n :
  0 <= n < 2 ^ Z.of_nat fuel →
  dec_int (dec_digits fuel n []) = n ∧ Forall (λ c, is_digit c = true) (dec_digits fuel n []).
Proof.
  revert n. induction fuel as [|fuel IH]; intros n Hn.
  - cbn in *. split; [lia|constructor].
  - cbn [dec_digits]. pose proof (Z.mod_pos_bound n 10 ltac:(lia)) as Hm.
    destruct (Z.ltb_spec n 10).
    + rewrite Z.mod_small by lia. split; [unfold dec_int; cbn [foldl]; lia|].
      constructor; [|constructor]. unfold is_digit, between. lia.
    + rewrite dec_digits_app. destruct (IH (n / 10)) as [E F].
      * rewrite Nat2Z.inj_succ, Z.pow_succ_r in Hn by lia.
        split; [apply Z.div_pos; lia|apply Z.div_lt_upper_bound; lia].
      * split.
        -- rewrite dec_int_app, E. unfold dec_int. cbn [foldl]. change (10 ^ zlen [48 + n mod 10]) with 10.
           pose proof (Z.div_mod n 10). lia.
        -- apply Forall_app. split; [done|]. constructor; [|constructor].
           unfold is_digit, between. lia.
Qed.

Lemma log2_fuel n : 0 <= n → n < 2 ^ Z.of_nat (S (Z.to_nat (Z.log2 n))).
Proof.
  intros Hn. pose proof (Z.log2_nonneg n). rewrite Nat2Z.inj_succ, Z2Nat.id by lia.
  destruct (Z.eq_dec n 0) as [->|]; [done|]. apply Z.log2_spec. lia.
Qed.

Lemma dec_int_dec_text n : 0 <= n → dec_int (dec_text n) = n.
Proof. intros Hn. apply dec_digits_spec. split; [done|by apply log2_fuel]. Qed.

Lemma dec_digits_lead fuel n :
  0 < n < 2 ^ Z.of_nat fuel → ∃ c s, dec_digits fuel n [] = c :: s ∧ c ≠ 48.
Proof.
  revert n. induction fuel as [|fuel IH]; intros n Hn; [cbn in *; lia|].
  cbn [dec_digits]. pose proof (Z.mod_pos_bound n 10 ltac:(lia)).
  destruct (Z.ltb_spec n 10).
  - rewrite Z.mod_small by lia. eexists _, _. split; [done|]. lia.
  - rewrite dec_digits_app. destruct (IH (n / 10)) as (c & s & -> & Hc).
    + rewrite Nat2Z.inj_succ, Z.pow_succ_r in Hn by lia.
      split; [apply Z.div_str_pos; lia|apply Z.div_lt_upper_bound; lia].
    + by eexists _, _.
Qed.

Lemma dec_text_decimal n : 0 <= n → decimal (dec_text n).
Proof.
  intros Hn. split; [apply dec_digits_spec; split; [done|by apply log2_fuel]|].
  destruct (Z.eq_dec n 0) as [->|]; [done|].
  destruct (dec_digits_lead (S (Z.to_nat (Z.log2 n))) n) as (c & s & E & Hc).
  - split; [lia|by apply log2_fuel].
  - unfold dec_text. rewrite E. split; [done|]. unfold starts_with. by destruct (Z.eqb_spec 48 c); [lia|].
Qed.

(** ** Strings *)

Definition is_char (c : Z) : bool := between 0 0x10FFFF c.

Lemma low_half_none u s : high_surrogate u = false → low_half u s = None.
Proof. intros H. do 6 (destruct s as [|? s]; [done|]). unfold low_half. by rewrite H. Qed.

Lemma scan_hex4 u h1 h2 h3 h4 rest :
  hex4 h1 h2 h3 h4 = Some u → high_surrogate u = false →
  scan_string (92 :: 117 :: h1 :: h2 :: h3 :: h4 :: rest) = prepend u (scan_string rest).
Proof. intros H1 H2. cbn -[hex4 low_half]. by rewrite H1, low_half_none by done. Qed.

Lemma scan_control c rest :
  0 <= c < 32 →
  scan_string (chars "\u00" ++ [48 + c / 16; if c mod 16 <? 10 then 48 + c mod 16 else 87 + c mod 16] ++ rest) =
  prepend c (scan_string rest).
Proof.
  intros Hc. apply in_zrange in Hc. apply scan_hex4; revert c Hc; apply List.Forall_forall;
    let l := eval vm_compute in (zrange 0 32) in change (zrange 0 32) with l;
    repeat (apply List.Forall_cons; [reflexivity|]); constructor.
Qed.

Lemma scan_escape_char c rest :
  is_char c = true → scan_string (escape_char c ++ rest) = prepend c (scan_string rest).
Proof.
  unfold is_char, between. intros Hc. unfold escape_char.
  destruct (Z.eqb_spec c 34) as [->|]; [done|]. destruct (Z.eqb_spec c 92) as [->|]; [done|].
  destruct (Z.eqb_spec c 10) as [->|]; [done|]. destruct (Z.eqb_spec c 13) as [->|]; [done|].
  destruct (Z.eqb_spec c 9) as [->|]; [done|]. destruct (Z.eqb_spec c 8) as [->|]; [done|].
  destruct (Z.eqb_spec c 12) as [->|]; [done|]. destruct (Z.ltb_spec c 32).
  - rewrite <-app_assoc. apply scan_control. lia.
  - cbn -[Z.eqb Z.ltb]. destruct (Z.eqb_spec c 34), (Z.ltb_spec c 32), (Z.eqb_spec c 92); done || lia.
Qed.

Lemma scan_encoded s rest :
  forallb is_char s = true → scan_string (flat_map escape_char s ++ 34 :: rest) = Read s rest.
Proof.
  induction s as [|c s IH]; cbn [flat_map forallb]; [done|].
  intros [Hc Hs]%andb_true_iff. rewrite <-app_assoc, scan_escape_char, IH by done. done.
Qed.

(** ** Numbers *)

(** What may follow a value in the output: the end, a comma or a new line *)
Definition ends_value (s : text) : bool :=
  match s with [] => true | c :: _ => (c =? 44) || (c =? 10) end.

Lemma starts_app p (s rest : text) :
  starts_with p rest = false → starts_with p (s ++ rest) = starts_with p s.
Proof. by destruct s. Qed.

Lemma take_while_rest p (s rest : text) :
  starts_with p rest = false → take_while p (s ++ rest) = take_while p s.
Proof.
  intros H. induction s as [|c s IH]; cbn.
  - by destruct rest as [|c rest]; cbn in *; [|rewrite H].
  - by rewrite IH.
Qed.

Lemma drop_while_rest p (s rest : text) :
  starts_with p rest = false → drop_while p (s ++ rest) = drop_while p s ++ rest.
Proof.
  intros H. induction s as [|c s IH]; cbn.
  - by destruct rest as [|c rest]; cbn in *; [|rewrite H].
  - by destruct (p c).
Qed.

Lemma ends_no_digit rest : ends_value rest = true → starts_with is_digit rest = false.
Proof. destruct rest as [|c r]; [done|]. unfold ends_value, starts_with, is_digit, between. lia. Qed.

Lemma take_fraction_app s rest :
  ends_value rest = true →
  take_fraction (s ++ rest) = ((take_fraction s).1, (take_fraction s).2 ++ rest).
Proof.
  intros H. pose proof (ends_no_digit rest H) as Hd. destruct s as [|c s]; cbn [app].
  - destruct rest as [|c r]; [done|]. cbn in H. unfold take_fraction.
    destruct (Z.eqb_spec c 46); [lia|done].
  - unfold take_fraction. rewrite starts_app, take_while_rest, drop_while_rest by done.
    by destruct (_ && _).
Qed.

Lemma take_exponent_app s rest :
  ends_value rest = true →
  take_exponent (s ++ rest) = ((take_exponent s).1, (take_exponent s).2 ++ rest).
Proof.
  intros H. pose proof (ends_no_digit rest H) as Hd. destruct s as [|c s]; cbn [app].
  - destruct rest as [|c r]; [done|]. cbn in H. unfold take_exponent.
    destruct (Z.eqb_spec c 101), (Z.eqb_spec c 69); try lia. done.
  - unfold take_exponent. destruct (_ || _); [|done]. destruct s as [|d s]; cbn [app].
    + destruct rest as [|d r]; [done|]. cbn in H.
      destruct (Z.eqb_spec d 45), (Z.eqb_spec d 43); try lia. by rewrite Hd.
    + destruct (d =? 45); [|destruct (d =? 43)];
        rewrite ?app_comm_cons, starts_app, take_while_rest, drop_while_rest by done;
        match goal with |- context [starts_with ?p ?l] => by destruct (starts_with p l) end.
Qed.

Definition behind {A} (m : Scan A) (rest : text) : Scan A :=
  match m with Read a r => Read a (r ++ rest) | other => other end.

Lemma scan_unsigned_app negative s rest :
  ends_value rest = true → scan_unsigned negative (s ++ rest) = behind (scan_unsigned negative s) rest.
Proof.
  intros H. pose proof (ends_no_digit rest H) as Hd. unfold scan_unsigned.
  rewrite starts_app, take_while_rest, drop_while_rest by done.
  destruct (starts_with is_digit s) eqn:E; [|done]. destruct s as [|c s]; [done|].
  cbn [app negb starts_with firstn skipn].
  rewrite !drop_0. destruct (48 =? c); cbv beta iota; rewrite take_fraction_app by done;
    destruct (take_fraction _) as [fraction q]; cbn [fst snd]; rewrite take_exponent_app by done;
    destruct (take_exponent _) as [exponent q']; cbn [fst snd]; by destruct (number_value _ _ _ _).
Qed.

Lemma scan_number_app s rest :
  ends_value rest = true → scan_number (s ++ rest) = behind (scan_number s) rest.
Proof.
  intros H. unfold scan_number. destruct s as [|c s]; cbn [app starts_with skipn].
  - destruct rest as [|c r]; [done|]. pose proof (ends_no_digit _ H) as Hd. cbn in H.
    cbn [starts_with]. destruct (Z.eqb_spec 45 c); [lia|]. unfold scan_unsigned. by rewrite Hd.
  - destruct (45 =? c); [by apply scan_unsigned_app|by apply (scan_unsigned_app false (c :: s))].
Qed.

Lemma scan_number_head s v r :
  scan_number s = Read v r → ∃ c s', s = c :: s' ∧ (is_digit c || (c =? 45)) = true.
Proof.
  unfold scan_number, scan_unsigned. destruct s as [|c s]; [done|]. cbn [starts_with].
  destruct (Z.eqb_spec 45 c) as [<-|]; [by intros _; eexists _, _|].
  destruct (is_digit c) eqn:D; [|done]. intros _. eexists _, _. split; [done|]. by rewrite D.
Qed.

(** Decimal digits are read to their end. *)
Lemma scan_decimal negative s :
  decimal s → (MAX_STR_DIGITS <? length s)%nat = false →
  scan_unsigned negative s = Read (JInt (if negative then (- dec_int s) else dec_int s)) [].
Proof.
  intros (Hd & Hne & Hz) L. unfold scan_unsigned. destruct s as [|c s]; [done|].
  assert (Hc : is_digit c = true) by (apply Forall_cons in Hd as [Hc _]; exact Hc).
  cbn [starts_with] in *. rewrite Hc. cbn [negb]. destruct (48 =? c) eqn:E.
  - injection (Hz eq_refl) as -> ->. cbn [firstn skipn take_fraction take_exponent].
    unfold number_value. by rewrite L.
  - rewrite <-(app_nil_r (c :: s)), take_while_app, drop_while_app, app_nil_r by done.
    cbn [take_fraction take_exponent]. unfold number_value. by rewrite L.
Qed.

Lemma int_repr_read n t : int_repr n = Ok t → scan_number t = Read (JInt n) [].
Proof.
  unfold int_repr. destruct (_ <? _)%nat eqn:L; [done|]. intros [= <-].
  pose proof (dec_text_decimal (Z.abs n) ltac:(lia)) as Hd.
  pose proof (dec_int_dec_text (Z.abs n) ltac:(lia)) as Hv. unfold scan_number.
  destruct (Z.ltb_spec n 0) as [Hn|Hn].
  - cbn [starts_with skipn]. change (45 =? 45) with true. rewrite drop_0. cbv iota.
    rewrite scan_decimal, Hv by done. do 2 f_equal. lia.
  - assert (starts_with (Z.eqb 45) (dec_text (Z.abs n)) = false) as ->.
    + destruct Hd as (Hd & _). destruct (dec_text _) as [|c s]; [done|]. apply Forall_cons in Hd as [Hc _].
      unfold starts_with. revert Hc. unfold is_digit, between. lia.
    + rewrite scan_decimal, Hv by done. do 2 f_equal. lia.
Qed.

(** ** The readers consume what they read, and never run out of fuel *)

Lemma prepend_read c m s r : prepend c m = Read s r → ∃ s', m = Read s' r ∧ s = c :: s'.
Proof. destruct m as [| |s' r']; cbn; [done|done|]. intros [= <- <-]. by exists s'. Qed.

Lemma prepend_fuel c m : m ≠ NoFuel → prepend c m ≠ NoFuel.
Proof. by destruct m. Qed.

Lemma scan_string_total s : scan_string s ≠ NoFuel.
Proof.
  remember (length s) as n eqn:Hn. revert s Hn. induction (lt_wf n) as [n _ IH]. intros s ->.
  assert (Hp : ∀ c s', (length s' < length s)%nat → prepend c (scan_string s') ≠ NoFuel).
  { intros c s' H. apply prepend_fuel. by apply (IH (length s')). }
  destruct s as [|c s]; cbn -[hex4 low_half]; [done|].
  destruct (c =? 34); [done|]. destruct (c <? 32); [done|].
  destruct (c =? 92); cbn -[hex4 low_half]; [|apply Hp; cbn; lia].
  destruct s as [|e s]; [done|]. destruct (e =? 117); cbn -[hex4 low_half].
  - do 4 (destruct s as [|? s]; [done|]). destruct (hex4 _ _ _ _) as [u|]; [|done].
    destruct (low_half u s) as [l|]; [|apply Hp; cbn; lia].
    do 6 (destruct s as [|? s]; [apply Hp; cbn; lia|]). apply Hp. cbn. lia.
  - destruct (unescape_char e); [|done]. apply Hp. cbn. lia.
Qed.

Lemma scan_string_consumes s t r : scan_string s = Read t r → (length r < length s)%nat.
Proof.
  remember (length s) as n eqn:Hn. revert s t Hn. induction (lt_wf n) as [n _ IH]. intros s t ->.
  assert (Hp : ∀ c s', (length s' < length s)%nat →
                       prepend c (scan_string s') = Read t r → (length r < length s)%nat).
  { intros c s' H (t' & E & _)%prepend_read.
    pose proof (IH (length s') H s' t' eq_refl E). lia. }
  destruct s as [|c s]; cbn -[hex4 low_half]; [done|].
  destruct (c =? 34); [intros [= _ ->]; lia|]. destruct (c <? 32); [done|].
  destruct (c =? 92); cbn -[hex4 low_half]; [|apply Hp; cbn; lia].
  destruct s as [|e s]; [done|]. destruct (e =? 117); cbn -[hex4 low_half].
  - do 4 (destruct s as [|? s]; [done|]). destruct (hex4 _ _ _ _) as [u|]; [|done].
    destruct (low_half u s) as [l|]; [|apply Hp; cbn; lia].
    do 6 (destruct s as [|? s]; [apply Hp; cbn; lia|]). apply Hp. cbn. lia.
  - destruct (unescape_char e); [|done]. apply Hp. cbn. lia.
Qed.

Lemma take_fraction_length s : (length (take_fraction s).2 <= length s)%nat.
Proof.
  destruct s as [|c s]; cbn; [done|]. destruct (_ && _); cbn; [|done].
  pose proof (drop_while_length is_digit s). lia.
Qed.

Lemma take_exponent_length s : (length (take_exponent s).2 <= length s)%nat.
Proof.
  destruct s as [|c s]; cbn; [done|]. destruct (_ || _); [|done].
  assert (Hr : ∀ b (q : text), (length q <= length s)%nat →
    (length (if starts_with is_digit q
             then (Some (b, take_while is_digit q) : option (bool * text), drop_while is_digit q)
             else (None, c :: s)).2 <= S (length s))%nat).
  { intros b q Hq. destruct (starts_with is_digit q); cbn; [|done].
    pose proof (drop_while_length is_digit q). lia. }
  destruct s as [|d s]; [by apply (Hr false [])|].
  destruct (d =? 45); [|destruct (d =? 43)]; apply Hr; cbn; lia.
Qed.

Lemma scan_unsigned_total negative s : scan_unsigned negative s ≠ NoFuel.
Proof.
  unfold scan_unsigned. destruct (negb _); [done|].
  destruct (if starts_with _ _ then _ else _) as [integer q].
  destruct (take_fraction q) as [fraction q']. destruct (take_exponent q') as [exponent q''].
  by destruct (number_value _ _ _ _).
Qed.

Lemma scan_number_total s : scan_number s ≠ NoFuel.
Proof. unfold scan_number. destruct (starts_with _ _); apply scan_unsigned_total. Qed.

Lemma scan_unsigned_consumes negative s v r :
  scan_unsigned negative s = Read v r → (length r < length s)%nat.
Proof.
  unfold scan_unsigned. destruct s as [|c s]; [done|].
  destruct (starts_with is_digit (c :: s)) eqn:E; [|done]. cbn [negb starts_with firstn] in *.
  assert (Hd : (length (drop_while is_digit (c :: s)) <= length s)%nat).
  { cbn. rewrite E. apply drop_while_length. }
  assert (Hs : (length (drop 1 (c :: s)) <= length s)%nat) by (rewrite length_drop; cbn [length]; lia).
  assert (Ht : ∀ x, (length x <= length s)%nat → (length (take_exponent (take_fraction x).2).2 <= length s)%nat).
  { intros x Hx. pose proof (take_fraction_length x). pose proof (take_exponent_length (take_fraction x).2). lia. }
  destruct (48 =? c); [specialize (Ht _ Hs)|specialize (Ht _ Hd)]; revert Ht;
    destruct (take_fraction _) as [fraction y]; cbn [snd]; destruct (take_exponent y) as [exponent z];
    cbn [snd]; intros Ht; destruct (number_value _ _ _ _); try done; intros [= _ ->]; cbn; lia.
Qed.

Lemma scan_number_consumes s v r : scan_number s = Read v r → (length r < length s)%nat.
Proof.
  unfold scan_number. destruct (starts_with _ _); [|apply scan_unsigned_consumes].
  intros H%scan_unsigned_consumes. rewrite length_drop in H. lia.
Qed.

Lemma skip_space_length s : (length (skip_space s) <= length s)%nat.
Proof. apply drop_while_length. Qed.

(** What one call of a reader promises at a bound of the fuel it needs *)
Definition scanned {A} (enough : Prop) (s : text) (m : Scan A) : Prop :=
  (enough → m ≠ NoFuel) ∧ ∀ a r, m = Read a r → (length r < length s)%nat.

Lemma scanned_bind {A B} (enough enough' : Prop) s s' (m : Scan A) (k : A → text → Scan B) :
  scanned enough' s' m → (enough → enough') → (length s' <= length s)%nat →
  (∀ a r, (length r < length s')%nat → scanned enough s (k a r)) →
  scanned enough s (scan_bind m k).
Proof.
  intros [Hf Hr] He Hl Hk. destruct m as [| |a r]; cbn.
  - split; [intros H; by destruct (Hf (He H))|done].
  - by split.
  - apply Hk. by apply (Hr a).
Qed.

Lemma scanned_read {A} (enough : Prop) (s r : text) (a : A) :
  (length r < length s)%nat → scanned enough s (Read a r).
Proof. intros H. split; [done|]. by intros ? ? [= _ <-]. Qed.

Lemma scanned_refused {A} (enough : Prop) (s : text) : scanned (A := A) enough s Refused.
Proof. by split. Qed.

Lemma scanned_string s : scanned True s (scan_string s).
Proof. split; [intros _; apply scan_string_total|apply scan_string_consumes]. Qed.
#[local] Hint Resolve scanned_read scanned_refused : py.

Lemma scanned_literal (enough : Prop) prefix c s r (v : Json) :
  after_prefix (prefix ++ [c]) s = Some r → scanned enough s (Read v r).
Proof. intros ->%after_prefix_spec. apply scanned_read. rewrite !length_app. cbn. lia. Qed.

Lemma scan_spec n :
  (∀ s, scanned (2 * length s + 1 <= n)%nat s (scan_value n s)) ∧
  (∀ s, scanned (2 * length s + 2 <= n)%nat s (scan_items n s)) ∧
  (∀ s, scanned (2 * length s + 2 <= n)%nat s (scan_members n s)).
Proof.
  induction n as [|n (IHv & IHi & IHm)]; [by split_and!; intros s; split; try done; lia|].
  split_and!; intros s.
  - cbn [scan_value]. destruct s as [|c s]; [apply scanned_refused|].
    pose proof (skip_space_length s) as Hs.
    destruct (c =? 34).
    { eapply scanned_bind; [apply scanned_string|done|cbn; lia|]. intros t r H.
      apply scanned_read. cbn. lia. }
    destruct (c =? 123).
    { destruct (starts_with _ _); [apply scanned_read; rewrite length_drop; cbn; lia|].
      eapply scanned_bind; [apply IHm|cbn; lia|cbn; lia|]. intros. apply scanned_read. cbn. lia. }
    destruct (c =? 91).
    { destruct (starts_with _ _); [apply scanned_read; rewrite length_drop; cbn; lia|].
      eapply scanned_bind; [apply IHi|cbn; lia|cbn; lia|]. intros. apply scanned_read. cbn. lia. }
    destruct (after_prefix (chars "null") _) eqn:E1; [by apply (scanned_literal _ (chars "nul") 108)|].
    destruct (after_prefix (chars "true") _) eqn:E2; [by apply (scanned_literal _ (chars "tru") 101)|].
    destruct (after_prefix (chars "false") _) eqn:E3; [by apply (scanned_literal _ (chars "fals") 101)|].
    split; [intros _; apply scan_number_total|apply scan_number_consumes].
  - cbn [scan_items]. eapply scanned_bind; [apply IHv|lia|done|]. intros v r Hr.
    pose proof (skip_space_length r) as Hs. destruct (skip_space r) as [|c q]; [apply scanned_refused|].
    cbn in Hs. destruct (c =? 93); [apply scanned_read; lia|]. destruct (c =? 44); [|apply scanned_refused].
    pose proof (skip_space_length q). eapply scanned_bind; [apply IHi|lia|lia|].
    intros vs r' H'. apply scanned_read. lia.
  - cbn [scan_members]. destruct s as [|c s]; [apply scanned_refused|].
    destruct (negb _); [apply scanned_refused|].
    eapply scanned_bind; [apply scanned_string|done|cbn; lia|]. intros k r Hr.
    pose proof (skip_space_length r) as Hs. destruct (skip_space r) as [|c' q]; [apply scanned_refused|].
    cbn in Hs. destruct (negb _); [apply scanned_refused|]. pose proof (skip_space_length q).
    eapply scanned_bind; [apply IHv|cbn; lia|cbn; lia|]. intros v r' H'.
    pose proof (skip_space_length r') as Hs'. destruct (skip_space r') as [|d q']; [apply scanned_refused|].
    cbn in Hs'. destruct (d =? 125); [apply scanned_read; cbn; lia|].
    destruct (d =? 44); [|apply scanned_refused]. pose proof (skip_space_length q').
    eapply scanned_bind; [apply IHm|cbn; lia|cbn; lia|]. intros. apply scanned_read. cbn. lia.
Qed.

Lemma loads_total s : loads s ≠ NoFuel.
Proof.
  unfold loads. destruct (starts_with _ _); [done|]. pose proof (skip_space_length s).
  destruct (scan_spec (loads_fuel s)) as [Hv _]. destruct (Hv (skip_space s)) as [Hf _].
  unfold scan_bind. unfold loads_fuel in *.
  destruct (scan_value _ _) as [| |v r]; [by intros _; apply Hf; [lia|]|done|].
  by destruct (skip_space r).
Qed.

(** More fuel changes nothing. *)
Definition settled {A} (m m' : Scan A) : Prop := m ≠ NoFuel → m' = m.

Lemma settled_bind {A B} (m m' : Scan A) (k k' : A → text → Scan B) :
  settled m m' → (∀ a r, settled (k a r) (k' a r)) → settled (scan_bind m k) (scan_bind m' k').
Proof.
  intros Hm Hk H. destruct m as [| |a r]; cbn in *; [done|by rewrite Hm|].
  rewrite Hm by done. by apply Hk.
Qed.

Lemma settled_refl {A} (m : Scan A) : settled m m.
Proof. done. Qed.

Lemma scan_more n m :
  (n <= m)%nat →
  (∀ s, settled (scan_value n s) (scan_value m s)) ∧
  (∀ s, settled (scan_items n s) (scan_items m s)) ∧
  (∀ s, settled (scan_members n s) (scan_members m s)).
Proof.
  revert m. induction n as [|n IH]; intros m Hm; [by split_and!; intros s H|].
  destruct m as [|m]; [lia|]. destruct (IH m ltac:(lia)) as (IHv & IHi & IHm).
  split_and!; intros s; cbn [scan_value scan_items scan_members].
  - destruct s as [|c s]; [done|]. destruct (c =? 34); [done|].
    destruct (c =? 123); [destruct (starts_with _ _); [done|]; apply settled_bind; [done|intros; apply settled_refl]|].
    destruct (c =? 91); [destruct (starts_with _ _); [done|]; apply settled_bind; [done|intros; apply settled_refl]|].
    apply settled_refl.
  - apply settled_bind; [done|]. intros v r. destruct (skip_space r) as [|c q]; [done|].
    destruct (c =? 93); [done|]. destruct (c =? 44); [|done].
    apply settled_bind; [done|intros; apply settled_refl].
  - destruct s as [|c s]; [done|]. destruct (negb _); [done|].
    apply settled_bind; [done|]. intros k r. destruct (skip_space r) as [|c' q]; [done|].
    destruct (negb _); [done|]. apply settled_bind; [done|]. intros v r'.
    destruct (skip_space r') as [|d q']; [done|]. destruct (d =? 125); [done|].
    destruct (d =? 44); [|done]. apply settled_bind; [done|intros; apply settled_refl].
Qed.

Lemma scan_value_more n m s v r :
  scan_value n s = Read v r → (n <= m)%nat → scan_value m s = Read v r.
Proof. intros E Hm. destruct (scan_more n m Hm) as (H & _). rewrite H by by rewrite E. done. Qed.
Lemma scan_items_more n m s v r :
  scan_items n s = Read v r → (n <= m)%nat → scan_items m s = Read v r.
Proof. intros E Hm. destruct (scan_more n m Hm) as (_ & H & _). rewrite H by by rewrite E. done. Qed.
Lemma scan_members_more n m s v r :
  scan_members n s = Read v r → (n <= m)%nat → scan_members m s = Read v r.
Proof. intros E Hm. destruct (scan_more n m Hm) as (_ & _ & H). rewrite H by by rewrite E. done. Qed.

(** ** Reading back what was written *)

(** The decimal that was chosen for a number denotes that number. *)
Definition reads_back (f : Float) : bool :=
  match scan_number (float_repr f) with
  | Read (JFloat g) [] => bool_decide (g = f)
  | _ => false
  end.

(** Texts of characters, keys that occur once, and floating point numbers that
    read back *)
Fixpoint well_formed (v : Json) : bool :=
  match v with
  | JText s => forallb is_char s
  | JFloat f => reads_back f
  | JArray items => forallb well_formed items
  | JObject items =>
      bool_decide (NoDup (map fst items)) &&
      forallb (λ kv, forallb is_char kv.1 && well_formed kv.2) items
  | _ => true
  end.

Lemma reads_back_read f : reads_back f = true → scan_number (float_repr f) = Read (JFloat f) [].
Proof.
  unfold reads_back. destruct (scan_number _) as [| |[] []]; try done.
  by intros ->%bool_decide_eq_true.
Qed.

Lemma skip_newline level c s :
  is_json_space c = false → skip_space (newline_indent level ++ c :: s) = c :: s.
Proof.
  intros Hc. apply drop_while_app; [|done]. constructor; [done|].
  apply Forall_replicate. done.
Qed.

Lemma skip_none c s : is_json_space c = false → skip_space (c :: s) = c :: s.
Proof. intros Hc. unfold skip_space. cbn. by rewrite Hc. Qed.

(** A text that starts a value and is read as [v], whatever ends it *)
Definition starts_value (t : text) : Prop :=
  ∃ c s, t = c :: s ∧ is_json_space c = false ∧ c ≠ 93 ∧ c ≠ 125 ∧ c < 128.
Definition reads_as (t : text) (v : Json) : Prop :=
  starts_value t ∧ ∀ rest, ends_value rest = true → ∃ n, scan_value n (t ++ rest) = Read v rest.

Lemma number_reads_as t v : scan_number t = Read v [] → reads_as t v.
Proof.
  intros E. destruct (scan_number_head t v [] E) as (c & s & -> & Hc). split.
  - exists c, s. revert Hc. unfold is_digit, is_json_space, between. split; [done|lia].
  - intros rest Hrest. exists 1%nat. pose proof (scan_number_app (c :: s) rest Hrest) as Ha.
    rewrite E in Ha. cbn [behind app] in Ha. cbn [app scan_value].
    assert (48 <= c <= 57 ∨ c = 45) by (revert Hc; unfold is_digit, between; lia).
    destruct (Z.eqb_spec c 34), (Z.eqb_spec c 123), (Z.eqb_spec c 91); try lia.
    change (after_prefix (chars ?x) (c :: s ++ rest)) with (after_prefix (chars x) (c :: s ++ rest)).
    assert (Hp : ∀ a p, a = 110 ∨ a = 116 ∨ a = 102 → after_prefix (a :: p) (c :: s ++ rest) = None).
    { intros a p Hap. cbn. destruct (Z.eqb_spec a c); [lia|done]. }
    change (chars "null") with (110 :: chars "ull"). change (chars "true") with (116 :: chars "rue").
    change (chars "false") with (102 :: chars "alse"). by rewrite !Hp by lia.
Qed.

Lemma text_reads_as s : forallb is_char s = true → reads_as (encode_string s) (JText s).
Proof.
  intros Hs. split; [by eexists 34, _|]. intros rest _. exists 1%nat.
  unfold encode_string. cbn [app scan_value]. change (34 =? 34) with true. cbv iota.
  rewrite <-app_assoc. cbn [app]. by rewrite scan_encoded by done.
Qed.

Lemma join_cons separator p q parts :
  join separator (p :: q :: parts) = p ++ separator ++ join separator (q :: parts).
Proof. done. Qed.

Lemma scan_items_join level parts items rest :
  Forall2 reads_as parts items → parts ≠ [] →
  ∃ n, scan_items n (join (44 :: newline_indent (S level)) parts ++ newline_indent level ++ 93 :: rest)
       = Read items rest.
Proof.
  induction 1 as [|p v parts items [(c & s & -> & Hc & _) Hv] Hparts IH]; [done|]. intros _.
  destruct Hparts as [|p' v' parts items Hp' Hparts].
  - cbn [join]. destruct (Hv (newline_indent level ++ 93 :: rest)) as [n Hn]; [done|].
    exists (S n). cbn [scan_items]. rewrite Hn. cbn [scan_bind]. by rewrite skip_newline.
  - destruct IH as [m Hm]; [done|]. rewrite join_cons.
    pose proof Hp' as [(c' & s' & -> & Hc' & _) _].
    set (tail := join _ ((c' :: s') :: parts) ++ _) in Hm.
    destruct (Hv (44 :: newline_indent (S level) ++ tail)) as [n Hn]; [done|].
    exists (S (max n m)). cbn [scan_items].
    replace (((c :: s) ++ (44 :: newline_indent (S level)) ++ join _ ((c' :: s') :: parts)) ++ _)
      with ((c :: s) ++ 44 :: newline_indent (S level) ++ tail)
      by (unfold tail; by rewrite <-!app_assoc).
    rewrite (scan_value_more n _ _ _ _ Hn) by lia. cbn [scan_bind]. rewrite skip_none by done.
    change (44 =? 93) with false. change (44 =? 44) with true. cbv iota.
    assert (∃ q, tail = c' :: q) as [q Hq] by (unfold tail; destruct parts; by eexists).
    rewrite Hq, skip_newline, <-Hq, (scan_items_more m _ _ _ _ Hm) by (done || lia). done.
Qed.

(** The text of a member and what it is read as *)
Definition member_reads_as (p : text) (kv : text * Json) : Prop :=
  forallb is_char kv.1 = true ∧ ∃ t, p = member_text kv.1 t ∧ reads_as t kv.2.

Lemma scan_member n k t v c s rest :
  forallb is_char k = true → starts_value t → is_json_space c = false →
  scan_value n (t ++ s) = Read v s → skip_space s = c :: rest →
  scan_members (S n) (member_text k t ++ s) =
  if c =? 125 then Read [(k, v)] rest
  else if c =? 44
  then read kvs at r from scan_members n (skip_space rest) ;; Read ((k, v) :: kvs) r
  else Refused.
Proof.
  intros Hk (c' & s' & -> & Hc' & _) Hc Hv Hs. unfold member_text, encode_string.
  rewrite <-!app_assoc. cbn [app scan_members]. change (34 =? 34) with true. cbn [negb].
  rewrite <-app_assoc. cbn [app]. rewrite scan_encoded by done. cbn [scan_bind].
  change (chars ": " ++ c' :: s' ++ s) with (58 :: 32 :: c' :: s' ++ s).
  rewrite skip_none by done. change (58 =? 58) with true. cbn [negb].
  change (skip_space (32 :: c' :: s' ++ s)) with (skip_space (c' :: s' ++ s)).
  rewrite skip_none by done. cbn [app] in Hv. rewrite Hv. cbn [scan_bind]. by rewrite Hs.
Qed.

Lemma scan_members_join level parts members rest :
  Forall2 member_reads_as parts members → parts ≠ [] →
  ∃ n, scan_members n (join (44 :: newline_indent (S level)) parts ++ newline_indent level ++ 125 :: rest)
       = Read members rest.
Proof.
  induction 1 as [|p [k v] parts members (Hk & t & -> & Ht & Hv) Hparts IH]; [done|]. intros _.
  cbn [fst snd] in *. destruct Hparts as [|p' v' parts members Hp' Hparts].
  - cbn [join]. destruct (Hv (newline_indent level ++ 125 :: rest)) as [n Hn]; [done|].
    exists (S n). by rewrite (scan_member n k t v 125 _ rest) by (done || by apply skip_newline).
  - destruct IH as [m Hm]; [done|]. rewrite join_cons.
    set (tail := join _ (p' :: parts) ++ _) in Hm.
    assert (∃ q, tail = 34 :: q) as [q Hq].
    { destruct Hp' as (_ & t' & -> & _). unfold tail. destruct parts; by eexists. }
    destruct (Hv (44 :: newline_indent (S level) ++ tail)) as [n Hn]; [done|].
    exists (S (max n m)).
    replace ((member_text k t ++ (44 :: newline_indent (S level)) ++ join _ (p' :: parts)) ++ _)
      with (member_text k t ++ 44 :: newline_indent (S level) ++ tail)
      by (unfold tail; by rewrite <-!app_assoc).
    rewrite (scan_member _ k t v 44 _ (newline_indent (S level) ++ tail));
      [|done|done|done|by apply (scan_value_more n); [|lia]|by apply skip_none].
    change (44 =? 125) with false. change (44 =? 44) with true. cbv iota.
    rewrite Hq, skip_newline, <-Hq, (scan_members_more m _ _ _ _ Hm) by (done || lia). done.
Qed.

Lemma starts_not (c a : Z) s : starts_value (c :: s) → a = 93 ∨ a = 125 → starts_with (Z.eqb a) (c :: s) = false.
Proof. intros (c' & s' & [= -> ->] & _ & H1 & H2). unfold starts_with. lia. Qed.

(** A bracket is followed by the text of the first item. *)
Lemma bracketed_reads opening closing level p parts rest :
  starts_value p → bracketed opening closing level (p :: parts) ++ rest =
    opening :: newline_indent (S level) ++
      (join (44 :: newline_indent (S level)) (p :: parts) ++ newline_indent level ++ closing :: rest) ∧
  skip_space (newline_indent (S level) ++
      (join (44 :: newline_indent (S level)) (p :: parts) ++ newline_indent level ++ closing :: rest)) =
    join (44 :: newline_indent (S level)) (p :: parts) ++ newline_indent level ++ closing :: rest ∧
  ∀ a, a = 93 ∨ a = 125 →
    starts_with (Z.eqb a) (join (44 :: newline_indent (S level)) (p :: parts) ++
      newline_indent level ++ closing :: rest) = false.
Proof.
  intros Hp. pose proof Hp as (c & s & -> & Hc & H1 & H2).
  assert (∃ q, join (44 :: newline_indent (S level)) ((c :: s) :: parts) ++
               newline_indent level ++ closing :: rest = c :: q) as [q Hq] by (destruct parts; by eexists).
  split_and!.
  - unfold bracketed. cbn [app]. by rewrite <-!app_assoc.
  - rewrite Hq. by apply skip_newline.
  - intros a Ha. rewrite Hq. unfold starts_with. lia.
Qed.

Lemma array_reads_as level parts items :
  Forall2 reads_as parts items → reads_as (bracketed 91 93 level parts) (JArray items).
Proof.
  intros Hp. split; [destruct parts; by eexists 91, _|]. intros rest _.
  destruct Hp as [|p v parts items Hp Hparts]; [by exists 1%nat|].
  destruct (scan_items_join level (p :: parts) (v :: items) rest) as [n Hn]; [by constructor|done|].
  exists (S n). destruct (bracketed_reads 91 93 level p parts rest) as (-> & Hs & Hc); [apply Hp|].
  cbn [scan_value]. change (91 =? 34) with false. change (91 =? 123) with false.
  change (91 =? 91) with true. cbv iota zeta. rewrite Hs, Hc, Hn by lia. done.
Qed.

Lemma object_reads_as level parts members :
  Forall2 member_reads_as parts members → NoDup (map fst members) →
  reads_as (bracketed 123 125 level parts) (JObject members).
Proof.
  intros Hp Hnd. split; [destruct parts; by eexists 123, _|]. intros rest _.
  destruct Hp as [|p v parts members Hp Hparts]; [by exists 1%nat|].
  destruct (scan_members_join level (p :: parts) (v :: members) rest) as [n Hn]; [by constructor|done|].
  assert (starts_value p) as Hs by (destruct Hp as (_ & t & -> & _); by eexists 34, _).
  exists (S n). destruct (bracketed_reads 123 125 level p parts rest) as (-> & Hk & Hc); [done|].
  cbn [scan_value]. change (123 =? 34) with false. change (123 =? 123) with true.
  cbv iota zeta. rewrite Hk, Hc, Hn by lia. cbn [scan_bind]. by rewrite dict_of_nodup.
Qed.

Lemma forallb_Forall {A} (f : A → bool) l : forallb f l = true ↔ Forall (λ x, f x = true) l.
Proof. rewrite forallb_forall, List.Forall_forall. done. Qed.

Lemma dumps_reads_as v level t :
  well_formed v = true → dumps level v = Ok t → reads_as t (canonical v).
Proof.
  revert level t. induction v as [|b|n|f|s|items IH|items IH|cls] using Json_ind';
    intros level t Hw Ht; cbn [well_formed] in Hw; cbn [dumps canonical] in *.
  - injection Ht as <-. split; [by eexists 110, _|]. intros rest _. by exists 1%nat.
  - injection Ht as <-. split; [destruct b; by eexists _, _|]. intros rest _. exists 1%nat. by destruct b.
  - by apply number_reads_as, int_repr_read.
  - destruct (negb _); [done|]. injection Ht as <-. by apply number_reads_as, reads_back_read.
  - injection Ht as <-. by apply text_reads_as.
  - destruct (mapR _ _) as [parts|] eqn:E; [|done]. injection Ht as <-. apply mapR_Forall2 in E.
    apply array_reads_as. apply forallb_Forall in Hw. revert parts E.
    induction items as [|x items IHitems]; intros parts E; inversion E as [|? p ? parts' Ep Eps]; subst;
      cbn [map]; [constructor|].
    apply Forall_cons in IH as [IHx IH]. apply Forall_cons in Hw as [Hx Hw].
    constructor; [by eapply IHx|]. by apply IHitems.
  - apply andb_true_iff in Hw as [Hnd Hw]. apply bool_decide_eq_true in Hnd.
    rewrite sort_items_map in Ht. destruct (mapR _ _) as [parts|] eqn:E; [|done].
    injection Ht as <-. apply mapR_Forall2 in E. rewrite sort_items_map.
    assert (Hs : Forall (λ kv, (forallb is_char kv.1 && well_formed kv.2) = true ∧
               ∀ level t, well_formed kv.2 = true → dumps level kv.2 = Ok t →
                          reads_as t (canonical kv.2)) (sort_items items)).
    { rewrite sort_items_perm. apply Forall_and. split; [|done]. by apply forallb_Forall in Hw. }
    apply object_reads_as.
    + revert parts E. induction (sort_items items) as [|[k x] l IHl]; intros parts E;
        inversion E as [|? p ? parts' Ep Eps]; subst; cbn [map]; [constructor|].
      apply Forall_cons in Hs as [[Hk Hx] Hs]. cbn [fst snd] in *. apply andb_true_iff in Hk as [Hk Hkx].
      destruct (dumps (S level) x) as [tx|] eqn:Ex; [|done]. injection Ep as <-.
      constructor; [|by apply IHl]. split; [done|]. exists tx. split; [done|]. by eapply Hx.
    + rewrite map_map. cbn [fst]. rewrite (sort_items_perm items). done.
  - done.
Qed.

(** [_serialize] ends its text with a new line. *)
Lemma loads_dumps v t :
  well_formed v = true → dumps 0 v = Ok t → loads (t ++ [10]) = Read (canonical v) [].
Proof.
  intros Hw Ht. destruct (dumps_reads_as v 0 t Hw Ht) as [(c & s & -> & Hc & H) Hv].
  destruct (Hv [10] eq_refl) as [n Hn]. unfold loads. cbn [app] in *.
  assert (starts_with (Z.eqb 0xFEFF) (c :: s ++ [10]) = false) as -> by (unfold starts_with; lia).
  rewrite skip_none by done.
  assert (scan_value (loads_fuel (c :: s ++ [10])) (c :: s ++ [10]) = Read (canonical v) [10]) as ->; [|done].
  destruct (scan_spec (loads_fuel (c :: s ++ [10]))) as [Hf _].
  destruct (Hf (c :: s ++ [10])) as [Ht' _]. unfold loads_fuel in *.
  destruct (Nat.le_ge_cases n (S (2 * length (c :: s ++ [10])))) as [Hle|Hle].
  - by eapply scan_value_more.
  - destruct (scan_more _ _ Hle) as [Hm _]. rewrite <-(Hm (c :: s ++ [10])); [done|]. apply Ht'. lia.
Qed.

(** ** Lines of the output *)

Definition one_line (s : text) : Prop := Forall (λ c, c ≠ 13) s.

Lemma digits_one_line s : one_line (take_while is_digit s).
Proof.
  eapply Forall_impl; [apply take_while_all|]. cbn. unfold is_digit, between. lia.
Qed.

Lemma unread (s q : text) : s = q → ∃ p, s = p ++ q ∧ one_line p.
Proof. intros ->. exists []. by split; [|constructor]. Qed.

Lemma take_fraction_spec s :
  ∃ p, s = p ++ (take_fraction s).2 ∧ one_line p.
Proof.
  unfold take_fraction. destruct s as [|c s]; [by apply unread|].
  destruct (Z.eqb_spec c 46) as [->|]; [|by apply unread]. destruct (starts_with _ _); [|by apply unread].
  exists (46 :: take_while is_digit s). cbn [andb snd app]. rewrite take_drop_while.
  split; [done|]. constructor; [lia|apply digits_one_line].
Qed.

Lemma take_exponent_spec s :
  ∃ p, s = p ++ (take_exponent s).2 ∧ one_line p.
Proof.
  unfold take_exponent. destruct s as [|c s]; [by apply unread|].
  destruct ((c =? 101) || (c =? 69)) eqn:E; [|by apply unread].
  assert (Hr : ∀ b q p, s = p ++ q → one_line p →
    ∃ p', c :: s = p' ++ (if starts_with is_digit q
        then (Some (b, take_while is_digit q) : option (bool * text), drop_while is_digit q)
        else (None, c :: s)).2 ∧ one_line p').
  { intros b q p -> Hp. destruct (starts_with _ _); [|by apply unread].
    exists (c :: p ++ take_while is_digit q). cbn [snd app]. rewrite <-app_assoc, take_drop_while.
    split; [done|]. constructor; [lia|]. apply Forall_app. split; [done|apply digits_one_line]. }
  destruct s as [|d s]; [by apply (Hr false [] []); [|constructor]|].
  destruct (Z.eqb_spec d 45) as [->|]; [by apply (Hr true s [45]); [|repeat constructor]|].
  destruct (Z.eqb_spec d 43) as [->|]; [by apply (Hr false s [43]); [|repeat constructor]|].
  by apply (Hr false (d :: s) []); [|constructor].
Qed.

Lemma scan_unsigned_one_line negative s v : scan_unsigned negative s = Read v [] → one_line s.
Proof.
  unfold scan_unsigned. destruct (negb _) eqn:E; [done|].
  assert (∃ i q, (if starts_with (Z.eqb 48) s then (take 1 s, drop 1 s)
                  else (take_while is_digit s, drop_while is_digit s)) = (i, q) ∧
                 s = i ++ q ∧ one_line i) as (i & q & -> & -> & Hi).
  { destruct (starts_with (Z.eqb 48) s) eqn:E48.
    - destruct s as [|c s]; [done|]. eexists _, _. split; [done|]. unfold starts_with in E48.
      split; [done|]. constructor; [lia|constructor].
    - eexists _, _. split; [done|]. rewrite take_drop_while. split; [done|apply digits_one_line]. }
  destruct (take_fraction_spec q) as (p & Hq & Hp). destruct (take_fraction q) as [fraction q'].
  destruct (take_exponent_spec q') as (p' & Hq' & Hp'). destruct (take_exponent q') as [exponent q''].
  cbn [snd] in *. destruct (number_value _ _ _ _); [|done]. intros [= _ ->]. subst q q'.
  rewrite app_nil_r. by repeat (apply Forall_app; split).
Qed.

Lemma scan_number_one_line s v : scan_number s = Read v [] → one_line s.
Proof.
  unfold scan_number. destruct s as [|c s]; [constructor|]. cbn [starts_with].
  destruct (Z.eqb_spec 45 c) as [<-|]; [|apply scan_unsigned_one_line].
  change (drop 1 (45 :: s)) with s. intros H%scan_unsigned_one_line. constructor; [lia|done].
Qed.

Lemma escape_one_line c : is_char c = true → one_line (escape_char c).
Proof.
  unfold escape_char, is_char, between. intros Hc.
  pose proof (Z.mod_pos_bound c 16 ltac:(lia)). pose proof (Z.div_pos c 16).
  repeat (case_match; [by repeat constructor|]).
  destruct (Z.ltb_spec c 32); [|repeat constructor; lia].
  apply Forall_app. split; [by repeat constructor|].
  repeat constructor; [lia|]. destruct (_ <? _); lia.
Qed.

Lemma encode_one_line s : forallb is_char s = true → one_line (encode_string s).
Proof.
  intros Hs. constructor; [done|]. apply Forall_app. split; [|by repeat constructor].
  induction s as [|c s IH]; cbn [flat_map forallb] in *; [constructor|].
  apply andb_true_iff in Hs as [Hc Hs]. apply Forall_app. split; [by apply escape_one_line|by apply IH].
Qed.

Lemma newline_one_line level : one_line (newline_indent level).
Proof. constructor; [done|]. by apply Forall_replicate. Qed.

Lemma join_one_line level parts :
  Forall one_line parts → one_line (join (44 :: newline_indent level) parts).
Proof.
  induction 1 as [|p parts Hp Hparts IH]; [constructor|]. destruct parts as [|q parts]; [done|].
  rewrite join_cons. apply Forall_app. split; [done|]. apply Forall_app. split; [|done].
  constructor; [done|apply newline_one_line].
Qed.

Lemma bracketed_one_line opening closing level parts :
  opening ≠ 13 → closing ≠ 13 → Forall one_line parts → one_line (bracketed opening closing level parts).
Proof.
  intros Ho Hc Hp. unfold bracketed. destruct parts as [|p parts]; [by repeat constructor|].
  constructor; [done|]. apply Forall_app. split; [apply newline_one_line|].
  apply Forall_app. split; [by apply join_one_line|].
  apply Forall_app. split; [apply newline_one_line|by repeat constructor].
Qed.

Lemma dumps_one_line v level t : well_formed v = true → dumps level v = Ok t → one_line t.
Proof.
  revert level t. induction v as [|b|n|f|s|items IH|items IH|cls] using Json_ind';
    intros level t Hw Ht; cbn [well_formed] in Hw; cbn [dumps] in *.
  - injection Ht as <-. by repeat constructor.
  - injection Ht as <-. destruct b; by repeat constructor.
  - by eapply scan_number_one_line, int_repr_read.
  - destruct (negb _); [done|]. injection Ht as <-. by eapply scan_number_one_line, reads_back_read.
  - injection Ht as <-. by apply encode_one_line.
  - destruct (mapR _ _) as [parts|] eqn:E; [|done]. injection Ht as <-. apply mapR_Forall2 in E.
    apply bracketed_one_line; [done|done|]. apply forallb_Forall in Hw. revert Hw.
    induction E as [|x p items parts Ep Eps IHp]; intros Hw; [constructor|].
    apply Forall_cons in IH as [IHx IH]. apply Forall_cons in Hw as [Hx Hw].
    constructor; [by eapply IHx|by apply IHp].
  - apply andb_true_iff in Hw as [_ Hw]. rewrite sort_items_map in Ht.
    destruct (mapR _ _) as [parts|] eqn:E; [|done]. injection Ht as <-. apply mapR_Forall2 in E.
    apply bracketed_one_line; [done|done|]. apply forallb_Forall in Hw.
    assert (Hs : Forall (λ kv, (forallb is_char kv.1 && well_formed kv.2) = true ∧
               ∀ level t, well_formed kv.2 = true → dumps level kv.2 = Ok t → one_line t) (sort_items items))
      by (rewrite sort_items_perm; by apply Forall_and).
    revert parts E. induction (sort_items items) as [|[k x] l IHl]; intros parts E;
      inversion E as [|? p ? parts' Ep Eps]; subst; [constructor|].
    apply Forall_cons in Hs as [[Hk Hx] Hs]. cbn [fst snd] in *. apply andb_true_iff in Hk as [Hk Hkx].
    destruct (dumps (S level) x) as [tx|] eqn:Ex; [|done]. injection Ep as <-.
    constructor; [|by apply IHl]. unfold member_text.
    apply Forall_app. split; [by apply encode_one_line|].
    apply Forall_app. split; [by repeat constructor|by eapply Hx].
  - done.
Qed.

Lemma universal_newlines_one_line s : one_line s → universal_newlines s = s.
Proof.
  induction 1 as [|c s Hc _ IH]; cbn; [done|]. destruct (Z.eqb_spec c 13); [done|]. by rewrite IH.
Qed.

(** ** UTF-8 *)

Lemma sequence_read lowest x c rest :
  is_scalar c = true → x = c → lowest <= c → forallb continuation rest = true →
  sequence_char lowest x rest = Some c.
Proof.
  intros Hc -> Hl Hr. unfold sequence_char. by rewrite (proj2 (Z.leb_le lowest c) Hl), Hc, Hr.
Qed.

Lemma continuation_digit m : 0 <= m < 64 → continuation (0x80 + m) = true.
Proof. unfold continuation, between. lia. Qed.

Lemma div_mod_64 q : q = q / 64 * 64 + q mod 64 ∧ 0 <= q mod 64 < 64.
Proof. pose proof (Z.div_mod q 64). pose proof (Z.mod_pos_bound q 64). lia. Qed.

(** Which case of the decoder a first byte is in *)
Ltac first_byte :=
  repeat match goal with
  | |- context [?a <? 0x80] => rewrite (proj2 (Z.ltb_ge a 0x80)) by lia
  | |- context [between ?lo ?hi ?a] =>
      first [replace (between lo hi a) with true by (unfold between; lia)
            |replace (between lo hi a) with false by (unfold between; lia)]
  end.

Lemma decode_char c bs s :
  is_scalar c = true → utf8_decode bs = Some s → utf8_decode (encode_char c ++ bs) = Some (c :: s).
Proof.
  intros Hc Hs. assert (Hr : 0 <= c <= 0x10FFFF) by (revert Hc; unfold is_scalar, between; lia).
  unfold encode_char. replace (c / 4096) with (c / 64 / 64) by (rewrite Z.div_div by lia; done).
  replace (c / 262144) with (c / 64 / 64 / 64) by (rewrite !Z.div_div by lia; done).
  destruct (div_mod_64 c) as [E0 B0], (div_mod_64 (c / 64)) as [E1 B1],
    (div_mod_64 (c / 64 / 64)) as [E2 B2].
  pose proof (Z.div_pos c 64 ltac:(lia) ltac:(lia)) as P1.
  pose proof (Z.div_pos (c / 64) 64 P1 ltac:(lia)) as P2.
  pose proof (Z.div_pos (c / 64 / 64) 64 P2 ltac:(lia)) as P3.
  set (q3 := c / 64 / 64 / 64) in *. set (m2 := (c / 64 / 64) mod 64) in *.
  set (q2 := c / 64 / 64) in *. set (m1 := (c / 64) mod 64) in *.
  set (q1 := c / 64) in *. set (m0 := c mod 64) in *. clearbody q3 m2 q2 m1 q1 m0.
  pose proof (continuation_digit m0 B0) as C0. pose proof (continuation_digit m1 B1) as C1.
  pose proof (continuation_digit m2 B2) as C2.
  destruct (Z.ltb_spec c 0x80); [cbn [app utf8_decode]; rewrite (proj2 (Z.ltb_lt c 0x80)), Hs by lia; done|].
  destruct (Z.ltb_spec c 0x800);
    [|destruct (Z.ltb_spec c 0x10000)]; cbn [app utf8_decode]; first_byte;
    rewrite (sequence_read _ _ c), Hs by (done || lia || (cbn [forallb]; rewrite ?C0, ?C1, ?C2; done));
    done.
Qed.

Lemma utf8_roundtrip s bs : utf8_encode s = Some bs → utf8_decode bs = Some s.
Proof.
  unfold utf8_encode. destruct (forallb _ _) eqn:E; [|done]. intros [= <-].
  induction s as [|c s IH]; [done|]. cbn [flat_map forallb] in *. apply andb_true_iff in E as [Hc E].
  apply decode_char; [done|]. by apply IH.
Qed.
