(* ===== verification/Persistence.v ===== *)
(** * Documents that the GUI keeps on disk (gui/persistence_models.py,
    gui/persistence_stores.py)

    The session, the global settings and the runtime cache, with the checks of
    their construction; their encoding as JSON and its strict parsing; the
    stores, which write a file by replacing it.

    A [Path] is its text.  What depends on the machine are parameters:
    [resolve] ([Path.expanduser().resolve()]), [normcase], the names that
    [tempfile] chooses, and which calls of the operating system fail.  ISO 8601
    forms of a timestamp other than the one [isoformat] writes are read by the
    parameter [other_form]. *)

From Stdlib Require Import SpecFloat.
From S2P Require Import Prelude.
From S2P Require Import Errors.
From S2P Require Import Messages.
From S2P Require Import RuntimeModels.
From S2P Require Import Json.

Definition SESSION_SCHEMA_VERSION : Z := 1.
Definition GLOBAL_SETTINGS_SCHEMA_VERSION : Z := 3.
Definition RUNTIME_CACHE_SCHEMA_VERSION : Z := 1.
Definition MAX_RECENT_SESSIONS : nat := 10%nat.

Definition type_error (template : string) (args : list PyVal) : Exn := Err TypeError (Fmt template args).
Definition value_error (template : string) (args : list PyVal) : Exn := Err ValueError (Fmt template args).

(** ** Timestamps *)

(** A datetime by its fields, with the offset of its time zone in minutes *)
Record DateTime : Set := mkDateTime {
  d_year : Z; d_month : Z; d_day : Z;
  d_hour : Z; d_minute : Z; d_second : Z; d_microsecond : Z;
  d_utcoffset : option Z;
}.

#[export] Instance DateTime_eq_dec : EqDecision DateTime.
Proof. solve_decision. Defined.

Definition is_leap (year : Z) : bool :=
  (year mod 4 =? 0) && (negb (year mod 100 =? 0) || (year mod 400 =? 0)).
Definition days_in_month (year month : Z) : Z :=
  if month =? 2 then (if is_leap year then 29 else 28)
  else if bool_decide (month ∈ [4; 6; 9; 11]) then 30 else 31.

(** What [datetime(...)] accepts *)
Definition valid_date (d : DateTime) : bool :=
  between 1 9999 (d_year d) && between 1 12 (d_month d) &&
  between 1 (days_in_month (d_year d) (d_month d)) (d_day d) &&
  between 0 23 (d_hour d) && between 0 59 (d_minute d) && between 0 59 (d_second d) &&
  between 0 999999 (d_microsecond d) &&
  match d_utcoffset d with Some offset => between (-1439) 1439 offset | None => true end.

(** [a > b] for two timestamps in UTC *)
Definition fields (d : DateTime) : list Z :=
  [d_year d; d_month d; d_day d; d_hour d; d_minute d; d_second d; d_microsecond d].
Definition later (a b : DateTime) : bool := negb (text_leb (fields a) (fields b)).

(** [f"{n:0{width}d}"] for a number of at most [width] digits *)
Fixpoint padded (width : nat) (n : Z) : text :=
  match width with O => [] | S width => padded width (n / 10) ++ [48 + n mod 10] end.

(** [d.isoformat()] up to its offset *)
Definition date_text (d : DateTime) : text :=
  padded 4 (d_year d) ++ [45] ++ padded 2 (d_month d) ++ [45] ++ padded 2 (d_day d) ++ [84] ++
  padded 2 (d_hour d) ++ [58] ++ padded 2 (d_minute d) ++ [58] ++ padded 2 (d_second d) ++
  (if d_microsecond d =? 0 then [] else 46 :: padded 6 (d_microsecond d)).

(** [_utc_text(value)] of a timestamp in UTC: [+00:00] becomes [Z]. *)
Definition utc_text (d : DateTime) : text := date_text d ++ chars "Z".

(** [n] digits and what follows them *)
Definition take_number (n : nat) (s : text) : option (Z * text) :=
  let digits := take n s in
  if (length digits =? n)%nat && forallb is_digit digits then Some (dec_int digits, drop n s) else None.

Definition expect (c : Z) (s : text) : option text := after_prefix [c] s.

(** The fields of [YYYY-MM-DDTHH:MM:SS[.ffffff]+HH:MM], if the text has that form *)
Definition iso_fields (s : text) : option DateTime :=
  '(year, s) ← take_number 4 s; s ← expect 45 s;
  '(month, s) ← take_number 2 s; s ← expect 45 s;
  '(day, s) ← take_number 2 s; s ← expect 84 s;
  '(hour, s) ← take_number 2 s; s ← expect 58 s;
  '(minute, s) ← take_number 2 s; s ← expect 58 s;
  '(second, s) ← take_number 2 s;
  '(microsecond, s) ← match expect 46 s with Some s => take_number 6 s | None => Some (0, s) end;
  '(sign, s) ← match s with
               | c :: s => if c =? 43 then Some (1, s) else if c =? 45 then Some (-1, s) else None
               | [] => None
               end;
  '(hours, s) ← take_number 2 s; s ← expect 58 s;
  '(minutes, s) ← take_number 2 s;
  match s with
  | [] => Some (mkDateTime year month day hour minute second microsecond
                  (Some (sign * (60 * hours + minutes))))
  | _ => None
  end.

(** ** JSON values inside a document *)

(** [_non_negative_int(value, name)] *)
Definition non_negative_int (value : Z) (name : string) : Res unit :=
  fail (value_error "{} must be a non-negative integer" [VStr name]) when value <? 0 ;; Ok tt.

(** [_freeze_json(value, name)] *)
Fixpoint freeze_json (name : text) (value : Json) : Res Json :=
  match value with
  | JFloat f =>
      fail (type_error "{} contains an unsupported JSON float" [VText name]) when negb (isfinite f) ;; Ok value
  | JNull | JBool _ | JInt _ | JText _ => Ok value
  | JArray items => let? items := mapR (freeze_json name) items in Ok (JArray items)
  | JObject items =>
      let? items := mapR (λ kv, let? v := freeze_json name kv.2 in Ok (kv.1, v)) items in Ok (JObject items)
  | JOther cls => Raise (type_error "{} contains an unsupported JSON value: {}" [VText name; VStr cls])
  end.

(** [_plain_json(value)] *)
Fixpoint plain_json (value : Json) : Res Json :=
  match value with
  | JNull | JBool _ | JInt _ | JFloat _ | JText _ => Ok value
  | JArray items => let? items := mapR plain_json items in Ok (JArray items)
  | JObject items =>
      let? items := mapR (λ kv, let? v := plain_json kv.2 in Ok (kv.1, v)) items in Ok (JObject items)
  | JOther cls => Raise (type_error "unsupported JSON value: {}" [VStr cls])
  end.

(** ** The session *)

Definition cpu_text (cpu : RuntimeCpuId) : text :=
  match cpu with CPU1 => chars "cpu1" | CPU2 => chars "cpu2" end.
Definition scope_text (scope : EraseScope) : text :=
  match scope with
  | EraseScope.REQUIRED_APP_SECTORS => chars "required_app_sectors"
  | EraseScope.ENTIRE_APPLICATION_REGION => chars "entire_application_region"
  | EraseScope.CUSTOM => chars "custom"
  end.

#[export] Instance EraseScope_eq_dec : EqDecision EraseScope.
Proof. solve_decision. Defined.

(** [RuntimeCpuId(text)] *)
Definition cpu_of_text (s : text) : Res RuntimeCpuId :=
  match find (λ cpu, text_eqb s (cpu_text cpu)) [CPU1; CPU2] with
  | Some cpu => Ok cpu
  | None => Raise (value_error "{!r} is not a valid RuntimeCpuId" [VText s])
  end.
(** [EraseScope(text)] *)
Definition scope_of_text (s : text) : Res EraseScope :=
  match find (λ scope, text_eqb s (scope_text scope))
          [EraseScope.REQUIRED_APP_SECTORS; EraseScope.ENTIRE_APPLICATION_REGION; EraseScope.CUSTOM] with
  | Some scope => Ok scope
  | None => Raise (value_error "{!r} is not a valid EraseScope" [VText s])
  end.

Record TargetSessionSettings : Set := mkTargetSettings {
  ts_cpu_id : RuntimeCpuId;
  ts_program_image_path : text;
  ts_ram_image_path : text;
  ts_erase_scope : EraseScope;
  ts_sector_mask : Z;
  ts_custom_sector_mask : Z;
}.

#[export] Instance TargetSessionSettings_eq_dec : EqDecision TargetSessionSettings.
Proof. solve_decision. Defined.

Definition TargetSessionSettings_post_init (s : TargetSessionSettings) : Res TargetSessionSettings :=
  let? _ := non_negative_int (ts_sector_mask s) "sector_mask" in
  let? _ := non_negative_int (ts_custom_sector_mask s) "custom_sector_mask" in
  Ok s.

Definition default_target (cpu : RuntimeCpuId) : TargetSessionSettings :=
  mkTargetSettings cpu [] [] EraseScope.REQUIRED_APP_SECTORS 0 0.

Record SessionDocument : Type := mkSession {
  sd_schema_version : Z;
  sd_selected_transport : text;
  sd_transport_configs : list (text * Json);
  sd_target_settings : gmap RuntimeCpuId TargetSessionSettings;
}.

(** The loop over [transport_configs.items()] *)
Definition freeze_config (kv : text * Json) : Res (text * Json) :=
  fail (value_error "transport IDs must be non-empty strings" []) when bool_decide (kv.1 = []) ;;
  match kv.2 with
  | JObject _ => let? v := freeze_json (chars "transport_configs." ++ kv.1) kv.2 in Ok (kv.1, v)
  | _ => Raise (type_error "transport_configs.{} must be an object" [VText kv.1])
  end.

Definition SessionDocument_post_init (d : SessionDocument) : Res SessionDocument :=
  fail (value_error "schema_version must equal {}" [VInt SESSION_SCHEMA_VERSION])
    when negb (sd_schema_version d =? SESSION_SCHEMA_VERSION) ;;
  fail (value_error "selected_transport must be a non-empty string" [])
    when bool_decide (sd_selected_transport d = []) ;;
  let? configs := mapR freeze_config (sd_transport_configs d) in
  fail (value_error "selected_transport must exist in transport_configs" [])
    when bool_decide (dict_get (sd_selected_transport d) configs = None) ;;
  fail (value_error "target_settings must contain exactly CPU1 and CPU2" [])
    when bool_decide (sd_target_settings d !! CPU1 = None) || bool_decide (sd_target_settings d !! CPU2 = None) ;;
  fail (value_error "target settings CPU does not match its key" [])
    when negb (forallb (λ cpu, bool_decide (ts_cpu_id <$> sd_target_settings d !! cpu = Some cpu))
                 [CPU1; CPU2]) ;;
  Ok (mkSession (sd_schema_version d) (sd_selected_transport d) configs (sd_target_settings d)).

(** [SessionDocument()] *)
Definition new_session : SessionDocument :=
  mkSession SESSION_SCHEMA_VERSION (chars "sci_rs232") [(chars "sci_rs232", JObject [])]
    {[ CPU1 := default_target CPU1; CPU2 := default_target CPU2 ]}.

(** [a == b] *)
Definition session_eq (a b : SessionDocument) : bool :=
  (sd_schema_version a =? sd_schema_version b) &&
  text_eqb (sd_selected_transport a) (sd_selected_transport b) &&
  json_eq (JObject (sd_transport_configs a)) (JObject (sd_transport_configs b)) &&
  bool_decide (sd_target_settings a = sd_target_settings b).

(** ** Global settings *)

Record GlobalCommandSettings : Set := mkCommand {
  gc_timeout_ms : Z;
  gc_max_retries : Z;
  gc_retry_backoff_ms : Z;
}.

Definition GlobalCommandSettings_post_init (c : GlobalCommandSettings) : Res GlobalCommandSettings :=
  fail (value_error "timeout_ms must be a positive integer" []) when gc_timeout_ms c <=? 0 ;;
  let? _ := non_negative_int (gc_max_retries c) "max_retries" in
  let? _ := non_negative_int (gc_retry_backoff_ms c) "retry_backoff_ms" in
  Ok c.

Record GlobalSettingsDocument : Set := mkGlobal {
  gs_schema_version : Z;
  gs_hex2000_executable_path : text;
  gs_command : GlobalCommandSettings;
  gs_log_output_path : text;
  gs_auto_ping_enabled : bool;
}.

(** [s.strip()] *)
Definition strip (s : text) : text := rev (drop_while is_space (rev (drop_while is_space s))).

Definition GlobalSettingsDocument_post_init (g : GlobalSettingsDocument) : Res GlobalSettingsDocument :=
  fail (value_error "schema_version must equal {}" [VInt GLOBAL_SETTINGS_SCHEMA_VERSION])
    when negb (gs_schema_version g =? GLOBAL_SETTINGS_SCHEMA_VERSION) ;;
  Ok (mkGlobal (gs_schema_version g) (strip (gs_hex2000_executable_path g)) (gs_command g)
        (strip (gs_log_output_path g)) (gs_auto_ping_enabled g)).

Definition default_global : GlobalSettingsDocument :=
  mkGlobal GLOBAL_SETTINGS_SCHEMA_VERSION [] (mkCommand 5000 0 0) [] true.

Record DocumentLoadResult (D : Type) : Type := mkLoad {
  dl_document : D;
  dl_source_schema_version : option Z;
  dl_migrated : bool;
  dl_notices : list string;
}.
Arguments mkLoad {D} _ _ _ _.
Arguments dl_document {D} _.
Arguments dl_source_schema_version {D} _.
Arguments dl_migrated {D} _.
Arguments dl_notices {D} _.

(** ** Encoding *)

Definition target_data (s : TargetSessionSettings) : Json :=
  JObject [(chars "cpu_id", JText (cpu_text (ts_cpu_id s)));
           (chars "custom_sector_mask", JInt (ts_custom_sector_mask s));
           (chars "erase_scope", JText (scope_text (ts_erase_scope s)));
           (chars "program_image_path", JText (ts_program_image_path s));
           (chars "ram_image_path", JText (ts_ram_image_path s));
           (chars "sector_mask", JInt (ts_sector_mask s))].

(** The members for the processors that the document has settings for *)
Definition targets_data (targets : gmap RuntimeCpuId TargetSessionSettings) : list (text * Json) :=
  omap (λ cpu, (λ s, (cpu_text cpu, target_data s)) <$> targets !! cpu) [CPU1; CPU2].

(** [_session_data(document)] *)
Definition session_data (d : SessionDocument) : Res Json :=
  let? configs := plain_json (JObject (sd_transport_configs d)) in
  Ok (JObject [(chars "schema_version", JInt (sd_schema_version d));
               (chars "selected_transport", JText (sd_selected_transport d));
               (chars "target_settings", JObject (targets_data (sd_target_settings d)));
               (chars "transport_configs", configs)]).

(** [_global_data(document)] *)
Definition global_data (g : GlobalSettingsDocument) : Res Json :=
  Ok (JObject [(chars "auto_ping_enabled", JBool (gs_auto_ping_enabled g));
               (chars "command",
                 JObject [(chars "max_retries", JInt (gc_max_retries (gs_command g)));
                          (chars "retry_backoff_ms", JInt (gc_retry_backoff_ms (gs_command g)));
                          (chars "timeout_ms", JInt (gc_timeout_ms (gs_command g)))]);
               (chars "hex2000_executable_path", JText (gs_hex2000_executable_path g));
               (chars "log_output_path", JText (gs_log_output_path g));
               (chars "schema_version", JInt (gs_schema_version g))]).

(** [_serialize(data)] *)
Definition serialize (data : Json) : Res text := let? s := dumps 0 data in Ok (s ++ [10]).

(** ** Strict reading of fields *)

Definition format_error (path : text) (template : string) (args : list PyVal) : Exn :=
  Err PersistenceFormatError (Fmt template (VText path :: args)).

(** [sorted(names)[0]] *)
Definition smallest (names : list text) : option text :=
  fst <$> head (sort_items (map (λ n, (n, tt)) names)).

(** [_exact_fields(path, value, expected, section)] *)
Definition exact_fields (path : text) (value : list (text * Json)) (expected : list string)
    (section : string) : Res unit :=
  let names := map chars expected in
  match smallest (filter (λ n, n ∉ map fst value) names),
        smallest (filter (λ n, n ∉ names) (map fst value)) with
  | Some n, _ => Raise (format_error path "{}: {} missing field {}" [VStr section; VText n])
  | None, Some n => Raise (format_error path "{}: {} has unknown field {}" [VStr section; VText n])
  | None, None => Ok tt
  end.

(** [value[key]] *)
Definition field (value : list (text * Json)) (key : string) : Res Json :=
  match dict_get (chars key) value with
  | Some v => Ok v
  | None => Raise (Err KeyError (Lit key))
  end.

(** [_object], [_string], [_integer] and [_boolean] *)
Definition as_object (path : text) (value : Json) (section : string) : Res (list (text * Json)) :=
  match value with
  | JObject items => Ok items
  | _ => Raise (format_error path "{}: {} must be an object" [VStr section])
  end.
Definition as_string (path : text) (value : Json) (field : string) : Res text :=
  match value with
  | JText s => Ok s
  | _ => Raise (format_error path "{}: {} must be a string" [VStr field])
  end.
Definition as_integer (path : text) (value : Json) (field : string) (positive : bool) : Res Z :=
  let error := format_error path "{}: {} must be a {} integer"
                 [VStr field; VStr (if positive then "positive" else "non-negative")] in
  match value with
  | JInt n => fail error when (if positive then n <=? 0 else n <? 0) ;; Ok n
  | _ => Raise error
  end.
Definition as_boolean (path : text) (value : Json) (field : string) : Res bool :=
  match value with
  | JBool b => Ok b
  | _ => Raise (format_error path "{}: {} must be a boolean" [VStr field])
  end.

(** [_schema(path, data, supported, legacy=legacy)] *)
Definition schema (path : text) (data : list (text * Json)) (supported : Z) (legacy : list Z) : Res Z :=
  match dict_get (chars "schema_version") data with
  | Some (JInt value) =>
      fail (Err UnsupportedSchemaVersionError
              (Fmt "{}: unsupported schema_version {}; supported version is {}"
                 [VText path; VInt value; VInt supported]))
        when negb (value =? supported) && negb (bool_decide (value ∈ legacy)) ;;
      Ok value
  | _ => Raise (format_error path "{}: schema_version must be an integer" [])
  end.

(** [except (TypeError, ValueError) as exc: raise PersistenceFormatError(...)] *)
Definition as_format_error {A} (path : text) (what : string) (r : Res A) : Res A :=
  match r with
  | Ok a => Ok a
  | Raise e =>
      if isinstance e TypeError || isinstance e ValueError
      then Raise (Err PersistenceFormatError (Prefixed ("{path}: invalid " ++ what ++ ": ") (exn_str e)))
      else Raise e
  end.

(** ** Parsing a session *)

Definition target_fields : list string :=
  ["cpu_id"; "program_image_path"; "ram_image_path"; "erase_scope"; "sector_mask";
   "custom_sector_mask"]%string.

(** The body of the loop over [RuntimeCpuId] *)
Definition parse_target (path : text) (targets : list (text * Json)) (cpu : RuntimeCpuId) :
    Res TargetSessionSettings :=
  let name := match cpu with CPU1 => "target_settings.cpu1" | CPU2 => "target_settings.cpu2" end%string in
  let of_field key := (name ++ "." ++ key)%string in
  let? value := field targets (match cpu with CPU1 => "cpu1" | CPU2 => "cpu2" end) in
  let? section := as_object path value name in
  let? _ := exact_fields path section target_fields name in
  let text_field key := let? v := field section key in as_string path v (of_field key) in
  let mask_field key := let? v := field section key in as_integer path v (of_field key) false in
  let? cpu_text := text_field "cpu_id"%string in
  let? scope_text := text_field "erase_scope"%string in
  let? (cpu_id, scope) :=
    match (let? cpu_id := cpu_of_text cpu_text in let? scope := scope_of_text scope_text in
           Ok (cpu_id, scope)) with
    | Ok r => Ok r
    | Raise _ => Raise (format_error path "{}: invalid CPU or erase scope in {}" [VStr name])
    end in
  as_format_error path name
    (let? program := text_field "program_image_path"%string in
     let? ram := text_field "ram_image_path"%string in
     let? mask := mask_field "sector_mask"%string in
     let? custom := mask_field "custom_sector_mask"%string in
     TargetSessionSettings_post_init (mkTargetSettings cpu_id program ram scope mask custom)).

Definition session_fields : list string :=
  ["schema_version"; "selected_transport"; "transport_configs"; "target_settings"]%string.

(** [set(targets) != {cpu.value for cpu in RuntimeCpuId}] *)
Definition both_targets (targets : list (text * Json)) : bool :=
  forallb (λ k, bool_decide (k ∈ map fst targets)) [chars "cpu1"; chars "cpu2"] &&
  forallb (λ kv, bool_decide (kv.1 ∈ [chars "cpu1"; chars "cpu2"])) targets.

Definition parse_session (path : text) (data : list (text * Json)) : Res SessionDocument :=
  let? _ := schema path data SESSION_SCHEMA_VERSION [] in
  let? _ := exact_fields path data session_fields "Session" in
  let? v := field data "selected_transport" in
  let? selected := as_string path v "selected_transport" in
  let? v := field data "transport_configs" in
  let? configs := as_object path v "transport_configs" in
  let? v := field data "target_settings" in
  let? targets := as_object path v "target_settings" in
  fail (format_error path "{}: target_settings must contain exactly cpu1 and cpu2" [])
    when negb (both_targets targets) ;;
  let? cpu1 := parse_target path targets CPU1 in
  let? cpu2 := parse_target path targets CPU2 in
  as_format_error path "Session document"
    (SessionDocument_post_init
       (mkSession SESSION_SCHEMA_VERSION selected configs {[ CPU1 := cpu1; CPU2 := cpu2 ]})).

(** ** Parsing global settings *)

Definition parse_command (path : text) (command : list (text * Json)) : Res GlobalCommandSettings :=
  let integer_field key name positive :=
    let? v := field command key in as_integer path v name positive in
  let? timeout := integer_field "timeout_ms" "command.timeout_ms" true in
  let? retries := integer_field "max_retries" "command.max_retries" false in
  let? backoff := integer_field "retry_backoff_ms" "command.retry_backoff_ms" false in
  GlobalCommandSettings_post_init (mkCommand timeout retries backoff).

Definition command_fields : list string := ["timeout_ms"; "max_retries"; "retry_backoff_ms"]%string.

Definition parse_global_v2 (path : text) (data : list (text * Json)) : Res GlobalSettingsDocument :=
  let? _ := exact_fields path data
    ["schema_version"; "hex2000_executable_path"; "command"; "log_output_path"]%string "Global Settings" in
  let? v := field data "command" in
  let? command := as_object path v "command" in
  let? _ := exact_fields path command command_fields "command" in
  as_format_error path "Global Settings document"
    (let? v := field data "hex2000_executable_path" in
     let? executable := as_string path v "hex2000_executable_path" in
     let? command := parse_command path command in
     let? v := field data "log_output_path" in
     let? log := as_string path v "log_output_path" in
     GlobalSettingsDocument_post_init
       (mkGlobal GLOBAL_SETTINGS_SCHEMA_VERSION executable command log true)).

Definition parse_global_v3 (path : text) (data : list (text * Json)) : Res GlobalSettingsDocument :=
  let? _ := exact_fields path data
    ["schema_version"; "hex2000_executable_path"; "command"; "log_output_path"; "auto_ping_enabled"]%string
    "Global Settings" in
  let? v := field data "command" in
  let? command := as_object path v "command" in
  let? _ := exact_fields path command command_fields "command" in
  as_format_error path "Global Settings document"
    (let? v := field data "hex2000_executable_path" in
     let? executable := as_string path v "hex2000_executable_path" in
     let? command := parse_command path command in
     let? v := field data "log_output_path" in
     let? log := as_string path v "log_output_path" in
     let? v := field data "auto_ping_enabled" in
     let? auto_ping := as_boolean path v "auto_ping_enabled" in
     GlobalSettingsDocument_post_init
       (mkGlobal GLOBAL_SETTINGS_SCHEMA_VERSION executable command log auto_ping)).

(** [_LEGACY_NOTICES] *)
Definition LEGACY_NOTICES : list (string * string) :=
  [("flash_lib", "flash_lib belongs to application resources and is not persisted in Global Settings v2");
   ("temporary_files", "temporary_files is not persisted in Global Settings v2");
   ("connection_timeouts",
    "connection_timeouts is transport-specific and is not persisted in Global Settings v2")]%string.

(** [type(value) is expected] *)
Inductive FieldType : Set := StrField | BoolField | IntField.
Definition has_type (t : FieldType) (value : Json) : bool :=
  match t, value with
  | StrField, JText _ | BoolField, JBool _ | IntField, JInt _ => true
  | _, _ => false
  end.

Definition legacy_shapes : list (string * list (string * FieldType)) :=
  [("flash_lib", [("service_image_path", StrField); ("service_map_path", StrField);
                  ("header_symbol", StrField)]);
   ("temporary_files", [("sci8_temp_dir", StrField); ("keep_generated_sci8_txt", BoolField)]);
   ("connection_timeouts", [("tx_timeout_ms", IntField); ("rx_timeout_ms", IntField);
                            ("autobaud_timeout_ms", IntField)])]%string.

(** The body of the loop over the legacy sections *)
Definition check_legacy (path : text) (data : list (text * Json))
    (shape : string * list (string * FieldType)) : Res unit :=
  match dict_get (chars shape.1) data with
  | None => Ok tt
  | Some value =>
      let? section := as_object path value shape.1 in
      match smallest (filter (λ n, n ∉ map (λ f, chars f.1) shape.2) (map fst section)) with
      | Some n => Raise (format_error path "{}: {} has unknown field {}" [VStr shape.1; VText n])
      | None =>
          let? _ := mapR (λ f, fail (format_error path "{}: {}.{} has an invalid type"
                                       [VStr shape.1; VStr f.1])
                                 when match dict_get (chars f.1) section with
                                      | Some v => negb (has_type f.2 v)
                                      | None => false
                                      end ;; Ok tt) shape.2 in
          Ok tt
      end
  end.

Definition parse_global_v1 (path : text) (data : list (text * Json)) :
    Res (DocumentLoadResult GlobalSettingsDocument) :=
  let allowed := map chars ("schema_version" :: "hex2000" :: map fst LEGACY_NOTICES)%string in
  match smallest (filter (λ n, n ∉ allowed) (map fst data)) with
  | Some n => Raise (format_error path "{}: legacy Global Settings has unknown field {}" [VText n])
  | None =>
      match dict_get (chars "hex2000") data with
      | None => Raise (format_error path "{}: legacy Global Settings missing field hex2000" [])
      | Some v =>
          let? hex2000 := as_object path v "hex2000" in
          let? _ := exact_fields path hex2000 ["executable_path"]%string "hex2000" in
          let? v := field hex2000 "executable_path" in
          let? executable := as_string path v "hex2000.executable_path" in
          let? _ := mapR (check_legacy path data) legacy_shapes in
          let notices := filter (λ n, dict_get (chars n.1) data ≠ None) LEGACY_NOTICES in
          let? g := GlobalSettingsDocument_post_init
                      (mkGlobal GLOBAL_SETTINGS_SCHEMA_VERSION executable (mkCommand 5000 0 0) [] true) in
          Ok (mkLoad g (Some 1) true (map snd notices))
      end
  end.

(** ** The runtime cache *)

(** What the functions on paths and timestamps do on the machine *)
Class Machine := mkMachine {
  resolve : text → Res text;          (* [str(Path(path).expanduser().resolve(strict=False))] *)
  normcase : text → text;             (* [os.path.normcase] *)
  path_name : text → text;            (* [Path(path).name] *)
  other_form : text → option DateTime; (* timestamps that [iso_fields] leaves *)
}.

Section cache.
Context `{Machine}.

Record RecentSessionEntry : Set := mkRecent {
  re_path : text;
  re_last_saved_at_utc : DateTime;
}.

Definition is_utc (d : DateTime) : bool := bool_decide (d_utcoffset d = Some 0).

Definition RecentSessionEntry_post_init (e : RecentSessionEntry) : Res RecentSessionEntry :=
  let? path := resolve (re_path e) in
  fail (value_error "last_saved_at_utc must be timezone-aware UTC" [])
    when negb (is_utc (re_last_saved_at_utc e)) ;;
  Ok (mkRecent path (re_last_saved_at_utc e)).

Record RuntimeCacheDocument : Set := mkCache {
  rc_schema_version : Z;
  rc_recent_sessions : list RecentSessionEntry;
}.

Definition entry_key (e : RecentSessionEntry) : text := normcase (re_path e).

(** [key not in latest or entry.last_saved_at_utc > latest[key].last_saved_at_utc] *)
Definition keep_latest (latest : list (text * RecentSessionEntry)) (e : RecentSessionEntry) :
    list (text * RecentSessionEntry) :=
  match dict_get (entry_key e) latest with
  | Some old => if later (re_last_saved_at_utc e) (re_last_saved_at_utc old)
                then dict_set (entry_key e) e latest else latest
  | None => dict_set (entry_key e) e latest
  end.

(** [sorted(entries, key=last_saved_at_utc, reverse=True)], which keeps the
    order of entries of the same time *)
Fixpoint insert_recent (e : RecentSessionEntry) (l : list RecentSessionEntry) : list RecentSessionEntry :=
  match l with
  | [] => [e]
  | x :: l' => if later (re_last_saved_at_utc x) (re_last_saved_at_utc e)
               then x :: insert_recent e l' else e :: l
  end.

Fixpoint sort_recent (l : list RecentSessionEntry) : list RecentSessionEntry :=
  match l with [] => [] | e :: l => insert_recent e (sort_recent l) end.

(** The entries that a cache keeps of those it is given *)
Definition keep_recent (entries : list RecentSessionEntry) : list RecentSessionEntry :=
  take MAX_RECENT_SESSIONS (sort_recent (map snd (foldl keep_latest [] entries))).

Definition RuntimeCacheDocument_post_init (c : RuntimeCacheDocument) : Res RuntimeCacheDocument :=
  fail (value_error "schema_version must equal {}" [VInt RUNTIME_CACHE_SCHEMA_VERSION])
    when negb (rc_schema_version c =? RUNTIME_CACHE_SCHEMA_VERSION) ;;
  Ok (mkCache (rc_schema_version c) (keep_recent (rc_recent_sessions c))).

(** [RuntimeCacheDocument(recent_sessions=entries)] *)
Definition new_cache (entries : list RecentSessionEntry) : Res RuntimeCacheDocument :=
  RuntimeCacheDocument_post_init (mkCache RUNTIME_CACHE_SCHEMA_VERSION entries).

Definition empty_cache : RuntimeCacheDocument := mkCache RUNTIME_CACHE_SCHEMA_VERSION [].

Definition with_recent_session (path : text) (last_saved_at_utc : DateTime) (c : RuntimeCacheDocument) :
    Res RuntimeCacheDocument :=
  let? entry := RecentSessionEntry_post_init (mkRecent path last_saved_at_utc) in
  new_cache (rc_recent_sessions c ++ [entry]).

Definition without_recent_session (path : text) (c : RuntimeCacheDocument) : Res RuntimeCacheDocument :=
  let? normalized := resolve path in
  new_cache (filter (λ e, entry_key e ≠ normcase normalized) (rc_recent_sessions c)).

(** [_cache_data(document)] *)
Definition cache_data (c : RuntimeCacheDocument) : Res Json :=
  Ok (JObject [(chars "recent_sessions",
                 JArray (map (λ e, JObject [(chars "last_saved_at_utc",
                                              JText (utc_text (re_last_saved_at_utc e)));
                                            (chars "path", JText (re_path e))])
                           (rc_recent_sessions c)));
               (chars "schema_version", JInt (rc_schema_version c))]).

(** [datetime.fromisoformat(s)] *)
Definition fromisoformat (s : text) : Res DateTime :=
  match match iso_fields s with Some d => Some d | None => other_form s end with
  | Some d => if valid_date d then Ok d
              else Raise (value_error "Invalid isoformat string: {!r}" [VText s])
  | None => Raise (value_error "Invalid isoformat string: {!r}" [VText s])
  end.

(** [timestamp[:-1] + "+00:00" if timestamp.endswith("Z") else timestamp] *)
Definition zulu (s : text) : text :=
  match rev s with
  | z :: r => if z =? 90 then rev r ++ chars "+00:00" else s
  | [] => s
  end.

(** The body of the loop over [data["recent_sessions"]] *)
Definition parse_recent (path : text) (value : Json) : Res RecentSessionEntry :=
  let? section := as_object path value "recent_sessions[{index}]" in
  let? _ := exact_fields path section ["path"; "last_saved_at_utc"]%string "recent_sessions[{index}]" in
  let? v := field section "path" in
  let? path_text := as_string path v "recent_sessions[{index}].path" in
  let? v := field section "last_saved_at_utc" in
  let? timestamp := as_string path v "recent_sessions[{index}].last_saved_at_utc" in
  as_format_error path "recent_sessions[{index}]"
    (let? parsed := fromisoformat (zulu timestamp) in
     RecentSessionEntry_post_init (mkRecent path_text parsed)).

Definition parse_cache (path : text) (data : list (text * Json)) : Res RuntimeCacheDocument :=
  let? _ := schema path data RUNTIME_CACHE_SCHEMA_VERSION [] in
  let? _ := exact_fields path data ["schema_version"; "recent_sessions"]%string "Runtime Cache" in
  let? v := field data "recent_sessions" in
  match v with
  | JArray values => let? entries := mapR (parse_recent path) values in new_cache entries
  | _ => Raise (format_error path "{}: recent_sessions must be an array" [])
  end.
End cache.

(** ** Files *)

(** The calls of the operating system are numbered.  [fault n] is the
    exception that the call raises, if any, and [torn n] how many bytes of a
    file have reached the disk when it ends.  [temporary_name files path] is
    the name of a new file in the directory of [path]. *)
Class System := mkSystem {
  fault : nat → option Exn;
  torn : nat → nat;
  temporary_name : gmap text (list Z) → text → text;
}.

Record Files : Type := mkFiles {
  fs_files : gmap text (list Z);
  fs_calls : nat;
  fs_history : list (gmap text (list Z));  (* the disk after each call *)
}.

Section files.
Context `{System}.

(** A call that leaves the disk as [effect] when it succeeds, and as [failing]
    when it raises *)
Definition os_call {A} (a : A) (effect failing : gmap text (list Z) → gmap text (list Z)) : ST Files A :=
  λ w,
    let after := match fault (fs_calls w) with
                 | Some _ => failing (fs_files w)
                 | None => effect (fs_files w)
                 end in
    (match fault (fs_calls w) with Some e => Raise e | None => Ok a end,
     mkFiles after (S (fs_calls w)) (fs_history w ++ [after])).

(** [name] holds the first bytes of [bytes]. *)
Definition holds_some (name : text) (bytes : list Z) : ST Files unit :=
  w <- get ;;
  let put := insert name (take (torn (fs_calls w)) bytes) in
  os_call tt put put.

(** [name] holds all of [bytes], or the first of them when the call raises. *)
Definition holds_all (name : text) (bytes : list Z) : ST Files unit :=
  w <- get ;;
  os_call tt (insert name bytes) (insert name (take (torn (fs_calls w)) bytes)).

(** [path.parent.mkdir(parents=True, exist_ok=True)]; directories are left out. *)
Definition make_parent : ST Files unit := os_call tt id id.

Definition named_temporary_file (path : text) : ST Files text :=
  w <- get ;;
  let name := temporary_name (fs_files w) path in
  os_call name (insert name []) id.

(** [temporary.write(payload)], [flush()], [os.fsync(...)] and the end of the
    [with] block, which closes the file: some of the bytes reach the disk before
    [flush] has returned. *)
Definition write_temporary (name : text) (payload : text) : ST Files unit :=
  match utf8_encode payload with
  | None =>
      catch (raise (Err ValueError (Lit "'utf-8' codec can't encode characters: surrogates not allowed")))
            (λ exc, holds_some name [] ;;; raise exc)
  | Some bytes =>
      let write := holds_some name bytes in
      let flush := holds_all name bytes in
      let fsync := holds_all name bytes in
      catch (write ;;; flush ;;; fsync) (λ exc, holds_some name bytes ;;; raise exc) ;;;
      os_call tt id id
  end.

(** [os.replace(source, path)] *)
Definition replace_file (source path : text) : ST Files unit :=
  w <- get ;;
  match fs_files w !! source with
  | Some bytes => os_call tt (λ files, <[path := bytes]> (delete source files)) id
  | None => raise (Err FileNotFoundError (Fmt "{}" [VText source]))
  end.

(** [temporary_path.unlink(missing_ok=True)], an OSError ignored *)
Definition unlink_quietly (name : text) : ST Files unit :=
  catch (os_call tt (delete name) id)
        (λ exc, if isinstance exc OSError then ret tt else raise exc).

Definition write_failed (path : text) (exc : Exn) : Exn :=
  Err PersistenceWriteError (Prefixed "{path}: atomic write failed: " (exn_str exc)).

(** [_atomic_write(path, document, encode)] with [data] for [encode(document)] *)
Definition atomic_write (path : text) (data : Res Json) : ST Files unit :=
  match (let? data := data in serialize data) with
  | Raise exc =>
      raise (Err PersistenceWriteError (Prefixed "{path}: cannot serialize document: " (exn_str exc)))
  | Ok payload =>
      temporary <- catch (make_parent ;;; named_temporary_file path)
                         (λ exc, raise (write_failed path exc)) ;;
      catch (write_temporary temporary payload ;;; replace_file temporary path)
            (λ exc, unlink_quietly temporary ;;; raise (write_failed path exc))
  end.

(** [path.read_text(encoding="utf-8")] with the exceptions of [_load_object] *)
Definition read_text (path : text) (optional : bool) : ST Files (option text) :=
  catch (w <- get ;;
         content <- os_call (fs_files w !! path) id id ;;
         match content with
         | None => raise (Err FileNotFoundError (Fmt "{}" [VText path]))
         | Some bytes =>
             match text_of_bytes bytes with
             | Some s => ret (Some s)
             | None => raise (format_error path "{}: file is not valid UTF-8: {exc}" [])
             end
         end)
    (λ exc,
       if isinstance exc FileNotFoundError then
         if optional then ret None
         else raise (Err PersistenceFileNotFoundError (Fmt "{}: file not found" [VText path]))
       else if isinstance exc OSError
       then raise (Err PersistenceError (Prefixed "{path}: cannot read file: " (exn_str exc)))
       else raise exc).

(** [_load_object(path, optional=optional)] *)
Definition load_object (path : text) (optional : bool) : ST Files (option (list (text * Json))) :=
  s <- read_text path optional ;;
  match s with
  | None => ret None
  | Some s =>
      match loads s with
      | Read (JObject items) _ => ret (Some items)
      | Read _ _ => raise (format_error path "{}: JSON root must be an object" [])
      | Refused | NoFuel => raise (format_error path "{}: malformed JSON: {exc}" [])
      end
  end.

(** ** Stores *)

Definition session_load (path : text) : ST Files (DocumentLoadResult SessionDocument) :=
  data <- load_object path false ;;
  match data with
  | None => raise (Err AssertionError (Lit "data is not None"))
  | Some data =>
      document <- lift (parse_session path data) ;;
      ret (mkLoad document (Some SESSION_SCHEMA_VERSION) false [])
  end.

Definition session_save (path : text) (document : SessionDocument) : ST Files unit :=
  atomic_write path (session_data document).

Definition global_load (path : text) : ST Files (DocumentLoadResult GlobalSettingsDocument) :=
  data <- load_object path true ;;
  match data with
  | None => ret (mkLoad default_global None false [])
  | Some data =>
      version <- lift (schema path data GLOBAL_SETTINGS_SCHEMA_VERSION [1; 2]) ;;
      if version =? 1 then lift (parse_global_v1 path data)
      else if version =? 2 then
        document <- lift (parse_global_v2 path data) ;; ret (mkLoad document (Some version) true [])
      else
        document <- lift (parse_global_v3 path data) ;; ret (mkLoad document (Some version) false [])
  end.

Definition global_save (path : text) (document : GlobalSettingsDocument) : ST Files unit :=
  atomic_write path (global_data document).

Context `{Machine}.

Definition cache_load (path : text) : ST Files (DocumentLoadResult RuntimeCacheDocument) :=
  data <- load_object path true ;;
  match data with
  | None => ret (mkLoad empty_cache None false [])
  | Some data =>
      document <- lift (parse_cache path data) ;;
      ret (mkLoad document (Some RUNTIME_CACHE_SCHEMA_VERSION) false [])
  end.

Definition cache_save (path : text) (document : RuntimeCacheDocument) : ST Files unit :=
  atomic_write path (cache_data document).
End files.

(** * Writing is atomic *)

(** The bytes that a document is written as *)
Definition file_bytes (data : Res Json) : option (list Z) :=
  match (let? data := data in serialize data) with Ok s => utf8_encode s | Raise _ => None end.

Section atomic.
Context `{System}.

(** The world after a call that leaves the disk as [files] *)
Definition called (w : Files) (files : gmap text (list Z)) : Files :=
  mkFiles files (S (fs_calls w)) (fs_history w ++ [files]).

Lemma wp_os_call {A} (a : A) effect failing Q E w :
  Q a (called w (effect (fs_files w))) → (∀ e, E e (called w (failing (fs_files w)))) →
  wp (os_call a effect failing) Q E w.
Proof. intros HQ HE. unfold wp, os_call. by destruct (fault (fs_calls w)) as [e|]. Qed.

(** From [w] to [w'] the disk was only as [P] allows. *)
Definition saw (P : gmap text (list Z) → Prop) (w w' : Files) : Prop :=
  ∃ disks, fs_history w' = fs_history w ++ disks ∧ Forall P disks.

Lemma saw_refl P w : saw P w w.
Proof. exists []. by rewrite app_nil_r. Qed.

Lemma saw_called (P : gmap text (list Z) → Prop) w w' files : saw P w w' → P files → saw P w (called w' files).
Proof.
  intros (disks & E & HP) Hf. exists (disks ++ [files]). cbn. rewrite E, <-app_assoc.
  split; [done|]. apply Forall_app. by split; [|constructor].
Qed.

Lemma saw_weaken (P P' : gmap text (list Z) → Prop) w w' : (∀ d, P d → P' d) → saw P w w' → saw P' w w'.
Proof. intros HP (disks & E & Hd). exists disks. split; [done|]. by eapply Forall_impl. Qed.

(** The disk [old], to which at most a file [name] was added *)
Definition only_temporary (old : gmap text (list Z)) (name : text) (disk : gmap text (list Z)) : Prop :=
  disk = old ∨ ∃ bytes, disk = <[name := bytes]> old.

(** The disk while a file at [path] is replaced with [bytes] *)
Definition replacing (old : gmap text (list Z)) (name path : text) (bytes : option (list Z))
    (disk : gmap text (list Z)) : Prop :=
  only_temporary old name disk ∨ ∃ new, bytes = Some new ∧ disk = <[path := new]> old.

(** The disk is [old] with the file [name], and was never anything else. *)
Definition has_temporary (w0 : Files) (name : text) (w : Files) : Prop :=
  (∃ bytes, fs_files w = <[name := bytes]> (fs_files w0)) ∧
  saw (only_temporary (fs_files w0) name) w0 w.

Lemma has_temporary_put w0 name w bytes :
  has_temporary w0 name w → has_temporary w0 name (called w (<[name := bytes]> (fs_files w))).
Proof.
  intros ((b & E) & Hs). assert (<[name:=bytes]> (fs_files w) = <[name:=bytes]> (fs_files w0)) as ->
    by (rewrite E; apply insert_insert_eq).
  split; [by exists bytes|]. apply saw_called; [done|]. right. by exists bytes.
Qed.

Lemma has_temporary_same w0 name w :
  has_temporary w0 name w → has_temporary w0 name (called w (fs_files w)).
Proof.
  intros ((b & E) & Hs). split; [by exists b|]. apply saw_called; [done|]. right. by exists b.
Qed.

Lemma wp_holds_some w0 name bytes w :
  has_temporary w0 name w →
  wp (holds_some name bytes) (λ _, has_temporary w0 name) (λ _, has_temporary w0 name) w.
Proof. intros Hw. apply wp_bind, wp_get, wp_os_call; intros; by apply has_temporary_put. Qed.

Lemma wp_holds_all w0 name bytes w :
  has_temporary w0 name w →
  wp (holds_all name bytes)
     (λ _ w', has_temporary w0 name w' ∧ fs_files w' !! name = Some bytes)
     (λ _, has_temporary w0 name) w.
Proof.
  intros Hw. apply wp_bind, wp_get, wp_os_call; intros; [|by apply has_temporary_put].
  split; [by apply has_temporary_put|]. apply lookup_insert_eq.
Qed.

Lemma wp_close_and_raise {A} w0 name bytes e (Q : A → Files → Prop) w :
  has_temporary w0 name w →
  wp (holds_some name bytes ;;; raise e) Q (λ _, has_temporary w0 name) w.
Proof. intros Hw. apply wp_bind. eapply wp_conseq; [by apply (wp_holds_some w0)|done|done]. Qed.

Lemma wp_write_temporary w0 name payload w :
  has_temporary w0 name w →
  wp (write_temporary name payload)
     (λ _ w', has_temporary w0 name w' ∧ fs_files w' !! name = utf8_encode payload)
     (λ _, has_temporary w0 name) w.
Proof.
  intros Hw. unfold write_temporary.
  destruct (utf8_encode payload) as [bytes|]; [|by apply wp_catch, wp_raise, wp_close_and_raise].
  apply wp_bind. eapply (wp_conseq _ (λ _ w', has_temporary w0 name w' ∧ fs_files w' !! name = Some bytes)
                                   _ (λ _, has_temporary w0 name)); [| |done].
  - apply wp_catch, wp_bind.
    eapply wp_conseq; [by apply (wp_holds_some w0)| |intros; by apply wp_close_and_raise].
    intros [] w1 H1. apply wp_bind.
    eapply wp_conseq; [by apply (wp_holds_all w0)| |intros; by apply wp_close_and_raise].
    intros [] w2 [H2 _].
    eapply wp_conseq; [by apply (wp_holds_all w0)|done|intros; by apply wp_close_and_raise].
  - intros [] w' [Ht Hb]. apply wp_os_call; intros; [|by apply has_temporary_same].
    split; [by apply has_temporary_same|done].
Qed.

(** What holds of a file name that [tempfile] may choose *)
Definition fresh_name (path : text) (files : gmap text (list Z)) : Prop :=
  files !! temporary_name files path = None ∧ temporary_name files path ≠ path.

Lemma wp_replace_file w0 name path bytes w :
  fs_files w0 !! name = None → has_temporary w0 name w → fs_files w !! name = Some bytes →
  wp (replace_file name path)
     (λ _ w', fs_files w' = <[path := bytes]> (fs_files w0) ∧
              saw (replacing (fs_files w0) name path (Some bytes)) w0 w')
     (λ _, has_temporary w0 name) w.
Proof.
  intros Hnew Hw Hb. unfold replace_file. apply wp_bind, wp_get. rewrite Hb.
  apply wp_os_call; [|intros; by apply has_temporary_same]. destruct Hw as ((b & E) & Hs).
  assert (<[path:=bytes]> (delete name (fs_files w)) = <[path:=bytes]> (fs_files w0)) as ->
    by (rewrite E, delete_insert_eq, delete_id; done).
  split; [done|]. apply saw_called; [|right; by eexists].
  eapply saw_weaken; [|exact Hs]. intros d Hd. by left.
Qed.

Lemma wp_unlink_quietly w0 name w :
  fs_files w0 !! name = None → has_temporary w0 name w →
  wp (unlink_quietly name)
     (λ _ w', only_temporary (fs_files w0) name (fs_files w') ∧ saw (only_temporary (fs_files w0) name) w0 w')
     (λ e w', (only_temporary (fs_files w0) name (fs_files w') ∧ saw (only_temporary (fs_files w0) name) w0 w'))
     w.
Proof.
  intros Hnew Hw. pose proof (has_temporary_same _ _ _ Hw) as [(b & E) Hs].
  apply wp_catch, wp_os_call.
  - destruct Hw as ((b' & E') & Hs'). rewrite E', delete_insert_eq, delete_id by done.
    split; [by left|]. apply saw_called; [done|]. by left.
  - intros e. destruct (isinstance e OSError); [apply wp_ret|apply wp_raise];
      (split; [right; by exists b|done]).
Qed.

(** The one specification of [_atomic_write]: it leaves the new file, or the
    disk as it was with at most a temporary file, and nothing else was ever on
    the disk. *)
Lemma wp_atomic_write path data w :
  fresh_name path (fs_files w) →
  let name := temporary_name (fs_files w) path in
  wp (atomic_write path data)
     (λ _ w', ∃ bytes, file_bytes data = Some bytes ∧ fs_files w' = <[path := bytes]> (fs_files w) ∧
                       saw (replacing (fs_files w) name path (file_bytes data)) w w')
     (λ _ w', only_temporary (fs_files w) name (fs_files w') ∧
              saw (only_temporary (fs_files w) name) w w') w.
Proof.
  intros [Hnew Hne] name. unfold atomic_write, file_bytes.
  destruct (let? d := data in serialize d) as [payload|exc];
    [|apply wp_raise; split; [by left|apply saw_refl]].
  apply wp_bind, wp_catch, wp_bind. unfold make_parent.
  apply wp_os_call; [|intros; apply wp_raise; split; [by left|];
                      apply saw_called; [apply saw_refl|by left]].
  apply wp_bind, wp_get, wp_os_call; cbn [called fs_files id]; fold name.
  2: { intros e. apply wp_raise. split; [by left|]. by repeat (apply saw_called; [|by left]); apply saw_refl. }
  set (w2 := called _ _). assert (Ht : has_temporary w name w2).
  { split; [by exists []|]. apply saw_called; [|right; by exists []].
    apply saw_called; [apply saw_refl|by left]. }
  clearbody w2. apply wp_catch, wp_bind.
  assert (Hfail : ∀ e w', has_temporary w name w' →
    wp (unlink_quietly name ;;; raise (A := unit) (write_failed path e))
       (λ _ w', ∃ bytes, utf8_encode payload = Some bytes ∧ fs_files w' = <[path := bytes]> (fs_files w) ∧
                         saw (replacing (fs_files w) name path (utf8_encode payload)) w w')
       (λ _ w', only_temporary (fs_files w) name (fs_files w') ∧ saw (only_temporary (fs_files w) name) w w') w').
  { intros e w' Hw'. apply wp_bind. by eapply wp_conseq; [apply wp_unlink_quietly| |]. }
  eapply wp_conseq; [by apply (wp_write_temporary w)| |exact Hfail].
  intros [] w3 [Ht3 Hb]. destruct (utf8_encode payload) as [bytes|] eqn:Eb.
  - eapply wp_conseq; [by apply (wp_replace_file w)| |exact Hfail]. intros [] w4 [E4 S4]. by exists bytes.
  - destruct Ht3 as ((b & E) & _). rewrite E, lookup_insert_eq in Hb. done.
Qed.
End atomic.

(** * Documents read back *)

(** ** Frozen values *)

(** Only what JSON can express *)
Fixpoint jsonable (v : Json) : bool :=
  match v with
  | JFloat f => isfinite f
  | JArray items => forallb jsonable items
  | JObject items => forallb (λ kv, jsonable kv.2) items
  | JOther _ => false
  | _ => true
  end.

Lemma mapR_same {A} (f : A → Res A) l : Forall (λ x, f x = Ok x) l → mapR f l = Ok l.
Proof. induction 1 as [|x l Hx _ IH]; cbn; [done|]. by rewrite Hx, IH. Qed.

Lemma mapR_pairs (f : Json → Res Json) (l : list (text * Json)) :
  Forall (λ kv, f kv.2 = Ok kv.2) l →
  mapR (λ kv, let? v := f kv.2 in Ok (kv.1, v)) l = Ok l.
Proof. intros H. apply mapR_same. eapply Forall_impl; [exact H|]. intros [k v]. cbn. by intros ->. Qed.

Lemma Forall_mp {A} (P Q : A → Prop) l : Forall (λ x, P x → Q x) l → Forall P l → Forall Q l.
Proof. rewrite !Forall_forall. auto. Qed.

Lemma freeze_json_ok name v : jsonable v = true → freeze_json name v = Ok v.
Proof.
  induction v as [|b|n|f|s|items IH|items IH|cls] using Json_ind'; cbn; try done.
  - by intros ->.
  - intros Hv%forallb_Forall. rewrite mapR_same; [done|]. exact (Forall_mp _ _ _ IH Hv).
  - intros Hv%forallb_Forall. rewrite mapR_pairs; [done|]. exact (Forall_mp _ _ _ IH Hv).
Qed.

Lemma plain_json_ok v : jsonable v = true → plain_json v = Ok v.
Proof.
  induction v as [|b|n|f|s|items IH|items IH|cls] using Json_ind'; cbn; try done.
  - intros Hv%forallb_Forall. rewrite mapR_same; [done|]. exact (Forall_mp _ _ _ IH Hv).
  - intros Hv%forallb_Forall. rewrite mapR_pairs; [done|]. exact (Forall_mp _ _ _ IH Hv).
Qed.

Lemma freeze_json_inv name v v' : freeze_json name v = Ok v' → v' = v ∧ jsonable v = true.
Proof.
  revert v'. induction v as [|b|n|f|s|items IH|items IH|cls] using Json_ind'; cbn; intros v';
    try by intros [= <-].
  - destruct (isfinite f); [by intros [= <-]|done].
  - destruct (mapR _ _) as [l|] eqn:E; [|done]. intros [= <-]. apply mapR_Forall2 in E.
    assert (l = items ∧ forallb jsonable items = true) as [-> ->]; [|done].
    induction E as [|x y items l Hx E IHl]; [done|]. apply Forall_cons in IH as [Hi IH].
    destruct (Hi _ Hx) as [-> Hj]. destruct (IHl IH) as [-> Hl]. cbn. by rewrite Hj, Hl.
  - destruct (mapR _ _) as [l|] eqn:E; [|done]. intros [= <-]. apply mapR_Forall2 in E.
    assert (l = items ∧ forallb (λ kv, jsonable kv.2) items = true) as [-> ->]; [|done].
    induction E as [|[k x] y items l Hx E IHl]; [done|]. apply Forall_cons in IH as [Hi IH].
    cbn in *. destruct (freeze_json name x) as [x'|] eqn:Ex; [|done]. injection Hx as <-.
    destruct (Hi _ eq_refl) as [-> Hj]. destruct (IHl IH) as [-> Hl]. by rewrite Hj, Hl.
Qed.

Lemma forallb_perm {A} (f : A → bool) l l' : l ≡ₚ l' → forallb f l = true → forallb f l' = true.
Proof. intros Hp. rewrite !forallb_Forall. by rewrite Hp. Qed.

Lemma jsonable_canonical v : jsonable v = true → jsonable (canonical v) = true.
Proof.
  induction v as [|b|n|f|s|items IH|items IH|cls] using Json_ind'; cbn [jsonable canonical]; try done.
  - intros Hv%forallb_Forall. apply forallb_Forall, Forall_map. exact (Forall_mp _ _ _ IH Hv).
  - intros Hv%forallb_Forall. rewrite sort_items_map.
    assert (Hs : Forall (λ kv : text * Json, jsonable (canonical kv.2) = true) (sort_items items)).
    { rewrite sort_items_perm. exact (Forall_mp _ _ _ IH Hv). }
    by apply forallb_Forall, Forall_map.
Qed.

(** ** Equality of values *)

Lemma dict_get_elem {A} k (v : A) l : dict_get k l = Some v → (k, v) ∈ l.
Proof.
  induction l as [|[k' v'] l IH]; cbn; [done|]. destruct (text_eqb k k') eqn:E.
  - apply bool_decide_eq_true in E as ->. intros [= ->]. left.
  - intros Hv. right. by apply IH.
Qed.

Lemma number_eq_refl f : isfinite f = true → SFeqb f f = true.
Proof.
  destruct f as [| | |s m e]; cbn; try done. intros _. unfold SFeqb, SFcompare.
  destruct s; rewrite Z.compare_refl, Pos.compare_refl; done.
Qed.

Lemma json_eq_refl v : well_formed v = true → jsonable v = true → json_eq v v = true.
Proof.
  induction v as [|b|n|f|s|items IH|items IH|cls] using Json_ind'; cbn [well_formed jsonable];
    intros Hw Hj; cbn [json_eq number number_eq]; try done.
  - by rewrite Z.eqb_refl.
  - by rewrite Z.eqb_refl.
  - by apply number_eq_refl.
  - apply text_eqb_refl.
  - apply forallb_Forall in Hw, Hj. induction items as [|x items IHl]; [done|].
    apply Forall_cons in IH as [Hx IH], Hw as [Hwx Hw], Hj as [Hjx Hj]. by rewrite Hx, IHl.
  - apply andb_true_iff in Hw as [Hnd Hw]. apply bool_decide_eq_true in Hnd.
    apply forallb_Forall in Hw, Hj. rewrite Nat.eqb_refl. cbn [andb]. apply forallb_Forall, Forall_forall.
    rewrite Forall_forall in IH, Hw, Hj. intros [k v] Hin. cbn [fst snd].
    rewrite (dict_get_nodup items k v) by done. specialize (Hw _ Hin). cbn [fst snd] in Hw.
    apply (IH _ Hin); [by apply andb_true_iff in Hw as [_ Hw]|by apply (Hj _ Hin)].
Qed.

(** What equals a value equals it with its keys in order. *)
Lemma json_eq_sorted a b : well_formed b = true → json_eq a b = true → json_eq a (canonical b) = true.
Proof.
  revert b. induction a as [|x|n|f|s|xs IH|xs IH|cls] using Json_ind'; intros b Hw He;
    destruct b as [|y|m|g|t|ys|ys|cls']; try done; cbn [canonical].
  - cbn [json_eq well_formed] in *. apply forallb_Forall in Hw. revert ys Hw He.
    induction xs as [|x xs IHxs]; intros [|y ys] Hw He; try done. cbn [map].
    apply Forall_cons in IH as [Hx IH], Hw as [Hy Hw]. apply andb_true_iff in He as [E1 E2].
    by rewrite Hx, (IHxs IH ys).
  - cbn [json_eq well_formed] in *. apply andb_true_iff in Hw as [Hnd Hw], He as [El He].
    apply bool_decide_eq_true in Hnd. apply forallb_Forall in Hw, He.
    rewrite sort_items_map, length_map, (Permutation_length (sort_items_perm ys)), El. cbn [andb].
    apply forallb_Forall, Forall_forall. rewrite Forall_forall in IH, He, Hw.
    intros [k v] Hin. specialize (He _ Hin). cbn [fst snd] in *.
    destruct (dict_get k ys) as [w|] eqn:E; [|done]. apply dict_get_elem in E.
    rewrite (dict_get_nodup _ k (canonical w)).
    + apply (IH _ Hin); [|done]. specialize (Hw _ E). by apply andb_true_iff in Hw as [_ Hw].
    + rewrite map_map. cbn [fst]. by rewrite (sort_items_perm ys).
    + apply list_elem_of_fmap. exists (k, w). split; [done|]. by rewrite sort_items_perm.
Qed.

(** ** Sorted keys *)

Fixpoint sorted_keys (ks : list text) : bool :=
  match ks with
  | k :: ((k' :: _) as r) => text_leb k k' && sorted_keys r
  | _ => true
  end.

Lemma sort_sorted {A} (l : list (text * A)) : sorted_keys (map fst l) = true → sort_items l = l.
Proof.
  induction l as [|[k v] l IH]; [done|]. destruct l as [|[k' v'] l]; [done|].
  cbn [map fst sorted_keys]. intros [Hk Hl]%andb_true_iff.
  change (sort_items ((k, v) :: (k', v') :: l)) with (insert_key k v (sort_items ((k', v') :: l))).
  rewrite IH by done. cbn [insert_key]. by rewrite Hk.
Qed.

Lemma canonical_object l :
  sorted_keys (map fst l) = true →
  canonical (JObject l) = JObject (map (λ kv, (kv.1, canonical kv.2)) l).
Proof. intros H. cbn [canonical]. by rewrite sort_items_map, sort_sorted. Qed.

(** ** Sessions *)

Lemma dict_get_none {A} k (l : list (text * A)) : dict_get k l = None ↔ k ∉ map fst l.
Proof.
  induction l as [|[k' v] l IH]; cbn; [split; [intros _; apply not_elem_of_nil|done]|].
  rewrite not_elem_of_cons. unfold text_eqb. case_bool_decide as Hk; [split; [done|by intros []]|].
  rewrite IH. by split; [intros|intros []].
Qed.

(** What the construction of a session has checked *)
Record session_checked (d : SessionDocument) : Prop := {
  sc_schema : sd_schema_version d = SESSION_SCHEMA_VERSION;
  sc_selected : sd_selected_transport d ≠ [];
  sc_configs : Forall (λ kv, kv.1 ≠ [] ∧ (∃ items, kv.2 = JObject items) ∧ jsonable kv.2 = true)
                 (sd_transport_configs d);
  sc_present : sd_selected_transport d ∈ map fst (sd_transport_configs d);
  sc_targets : ∀ cpu, ts_cpu_id <$> sd_target_settings d !! cpu = Some cpu;
}.

Lemma freeze_config_inv kv kv' :
  freeze_config kv = Ok kv' →
  kv' = kv ∧ kv.1 ≠ [] ∧ (∃ items, kv.2 = JObject items) ∧ jsonable kv.2 = true.
Proof.
  destruct kv as [k v]. unfold freeze_config. cbn [fst snd]. case_bool_decide; [done|].
  destruct v as [| | | | | |items|]; try done.
  destruct (freeze_json _ _) as [v'|] eqn:E; [|done]. intros [= <-].
  apply freeze_json_inv in E as [-> E]. by split_and!; [| |exists items|].
Qed.

Lemma freeze_config_ok kv :
  kv.1 ≠ [] → (∃ items, kv.2 = JObject items) → jsonable kv.2 = true → freeze_config kv = Ok kv.
Proof.
  destruct kv as [k v]. cbn. intros Hk [items ->] Hj. unfold freeze_config. cbn [fst snd].
  rewrite bool_decide_eq_false_2 by done. by rewrite freeze_json_ok.
Qed.

Lemma session_post_init_inv d d' : SessionDocument_post_init d = Ok d' → d' = d ∧ session_checked d.
Proof.
  unfold SessionDocument_post_init. destruct (Z.eqb_spec (sd_schema_version d) SESSION_SCHEMA_VERSION) as [E1|];
    [|done]. cbn [negb]. case_bool_decide as E2; [done|].
  destruct (mapR _ _) as [configs|] eqn:E3; [|done]. apply mapR_Forall2 in E3.
  assert (configs = sd_transport_configs d ∧ Forall (λ kv, kv.1 ≠ [] ∧ (∃ items, kv.2 = JObject items) ∧
            jsonable kv.2 = true) (sd_transport_configs d)) as [-> Hc].
  { induction E3 as [|x y l l' Hx _ [-> IH]]; [done|]. apply freeze_config_inv in Hx as [-> Hx]. by split; [|constructor]. }
  case_bool_decide as E4; [done|]. destruct (_ || _); [done|]. destruct (forallb _ _) eqn:E6; [|done].
  intros [= <-]. split; [by destruct d|]. cbn [forallb] in E6. split; [done|done|done| |].
  - destruct (decide (sd_selected_transport d ∈ map fst (sd_transport_configs d))); [done|].
    by destruct E4; apply dict_get_none.
  - rewrite !andb_true_iff, !bool_decide_eq_true in E6. by intros []; destruct E6 as (? & ? & _).
Qed.

Lemma session_post_init_ok d : session_checked d → SessionDocument_post_init d = Ok d.
Proof.
  intros [E1 E2 E3 E4 E5]. unfold SessionDocument_post_init. rewrite E1, Z.eqb_refl. cbn [negb].
  rewrite bool_decide_eq_false_2 by done. rewrite mapR_same.
  2: { eapply Forall_impl; [exact E3|]. intros kv (H1 & H2 & H3). by apply freeze_config_ok. }
  rewrite bool_decide_eq_false_2 by (intros E; by apply dict_get_none in E).
  assert (Hn : ∀ cpu, bool_decide (sd_target_settings d !! cpu = None) = false).
  { intros cpu. apply bool_decide_eq_false. specialize (E5 cpu). by destruct (_ !! cpu). }
  rewrite !Hn. cbn [orb forallb]. rewrite !bool_decide_eq_true_2 by done. cbn. rewrite <-E1. by destruct d.
Qed.

(** Strings of characters, dictionaries whose keys occur once and floating
    point numbers that read back: what the types of Python promise. *)
Definition session_texts (d : SessionDocument) : bool :=
  forallb is_char (sd_selected_transport d) && well_formed (JObject (sd_transport_configs d)) &&
  forallb (λ cpu, match sd_target_settings d !! cpu with
                  | Some s => forallb is_char (ts_program_image_path s) && forallb is_char (ts_ram_image_path s)
                  | None => true
                  end) [CPU1; CPU2].

(** A session as the program constructs it *)
Record proper_session (d : SessionDocument) : Prop := {
  ps_checked : session_checked d;
  ps_masks : ∀ cpu s, sd_target_settings d !! cpu = Some s → TargetSessionSettings_post_init s = Ok s;
  ps_texts : session_texts d = true;
}.

(** The document that reading it back gives *)
Definition sorted_session (d : SessionDocument) : SessionDocument :=
  mkSession (sd_schema_version d) (sd_selected_transport d)
    (sort_items (map (λ kv, (kv.1, canonical kv.2)) (sd_transport_configs d)))
    (sd_target_settings d).

Lemma configs_jsonable d : session_checked d → jsonable (JObject (sd_transport_configs d)) = true.
Proof.
  intros H. cbn [jsonable]. apply forallb_Forall. eapply Forall_impl; [exact (sc_configs d H)|].
  by intros kv (_ & _ & H').
Qed.

Lemma sorted_session_checked d : session_checked d → session_checked (sorted_session d).
Proof.
  intros [E1 E2 E3 E4 E5]. unfold sorted_session. split; cbn [sd_schema_version sd_selected_transport
    sd_transport_configs sd_target_settings]; [done|done| | |done].
  - rewrite sort_items_map. apply Forall_map. rewrite sort_items_perm. eapply Forall_impl; [exact E3|].
    intros [k v] (H1 & [items H2] & H3). cbn in *. subst v. split_and!; [done|by eexists|].
    by apply (jsonable_canonical (JObject items)).
  - rewrite sort_items_map, map_map. cbn [fst]. rewrite (sort_items_perm (sd_transport_configs d)). done.
Qed.

Lemma session_eq_sorted_r a d :
  session_texts d = true → session_eq a d = true → session_eq a (sorted_session d) = true.
Proof.
  intros Ht. unfold session_eq, sorted_session. cbn [sd_schema_version sd_selected_transport
    sd_transport_configs sd_target_settings]. rewrite !andb_true_iff. intros (((H1 & H2) & H3) & H4).
  split_and!; [done|done| |done]. unfold session_texts in Ht. rewrite !andb_true_iff in Ht.
  exact (json_eq_sorted (JObject (sd_transport_configs a)) (JObject (sd_transport_configs d))
           (proj2 (proj1 Ht)) H3).
Qed.

Lemma session_eq_sorted d : proper_session d → session_eq d (sorted_session d) = true.
Proof.
  intros [H1 _ H3]. apply session_eq_sorted_r; [done|]. unfold session_eq.
  rewrite Z.eqb_refl, text_eqb_refl, bool_decide_eq_true_2, andb_true_r by done.
  apply json_eq_refl; [|by apply configs_jsonable].
  unfold session_texts in H3. rewrite !andb_true_iff in H3. tauto.
Qed.

(** ** Encoding and parsing *)

(** The members of the canonical form of a session *)
Definition target_items (s : TargetSessionSettings) : list (text * Json) :=
  match target_data s with JObject items => items | _ => [] end.

Definition session_items (d : SessionDocument) (s1 s2 : TargetSessionSettings) : list (text * Json) :=
  [(chars "schema_version", JInt (sd_schema_version d));
   (chars "selected_transport", JText (sd_selected_transport d));
   (chars "target_settings", JObject [(chars "cpu1", JObject (target_items s1));
                                      (chars "cpu2", JObject (target_items s2))]);
   (chars "transport_configs", JObject (sd_transport_configs d))].

Lemma session_data_items d s1 s2 :
  session_checked d → sd_target_settings d !! CPU1 = Some s1 → sd_target_settings d !! CPU2 = Some s2 →
  session_data d = Ok (JObject (session_items d s1 s2)).
Proof.
  intros Hd E1 E2. unfold session_data. rewrite plain_json_ok by by apply configs_jsonable.
  unfold targets_data. cbn [omap list_omap]. by rewrite E1, E2.
Qed.

Lemma canonical_target_items s : canonical (JObject (target_items s)) = JObject (target_items s).
Proof. by rewrite canonical_object. Qed.

Lemma canonical_session_items d s1 s2 :
  canonical (JObject (session_items d s1 s2)) = JObject (session_items (sorted_session d) s1 s2).
Proof.
  set (targets := [(chars "cpu1", JObject (target_items s1)); (chars "cpu2", JObject (target_items s2))]).
  assert (Ht : canonical (JObject targets) = JObject targets).
  { unfold targets. rewrite canonical_object by done. cbn [map fst snd]. by rewrite !canonical_target_items. }
  rewrite canonical_object by done. unfold session_items. cbn [map fst snd]. fold targets.
  by rewrite Ht.
Qed.

Lemma parse_target_data path targets cpu s :
  dict_get (cpu_text cpu) targets = Some (target_data s) → ts_cpu_id s = cpu →
  TargetSessionSettings_post_init s = Ok s → parse_target path targets cpu = Ok s.
Proof.
  intros Ht Hc Hs. unfold TargetSessionSettings_post_init, non_negative_int in Hs.
  destruct (ts_sector_mask s <? 0) eqn:M1; [done|]. destruct (ts_custom_sector_mask s <? 0) eqn:M2; [done|].
  assert (Hf : field targets (match cpu with CPU1 => "cpu1" | CPU2 => "cpu2" end) = Ok (target_data s)).
  { unfold field. destruct cpu; cbn [cpu_text] in Ht; by rewrite Ht. }
  unfold parse_target. rewrite Hf. cbn [as_object target_data].
  assert (He : ∀ name, exact_fields path (target_items s) target_fields name = Ok tt) by done.
  unfold target_items, target_data in He. rewrite He. unfold field.
  change (dict_get (chars "cpu_id") _) with (Some (JText (cpu_text (ts_cpu_id s)))).
  change (dict_get (chars "erase_scope") _) with (Some (JText (scope_text (ts_erase_scope s)))).
  change (dict_get (chars "program_image_path") _) with (Some (JText (ts_program_image_path s))).
  change (dict_get (chars "ram_image_path") _) with (Some (JText (ts_ram_image_path s))).
  change (dict_get (chars "sector_mask") _) with (Some (JInt (ts_sector_mask s))).
  change (dict_get (chars "custom_sector_mask") _) with (Some (JInt (ts_custom_sector_mask s))).
  cbn [as_string as_integer]. rewrite M1, M2.
  replace (cpu_of_text (cpu_text (ts_cpu_id s))) with (Ok (ts_cpu_id s)) by by destruct (ts_cpu_id s).
  replace (scope_of_text (scope_text (ts_erase_scope s))) with (Ok (ts_erase_scope s)) by by destruct (ts_erase_scope s).
  unfold TargetSessionSettings_post_init, non_negative_int. cbn [ts_sector_mask ts_custom_sector_mask].
  rewrite M1, M2. cbn. by destruct s.
Qed.

Lemma parse_session_items path d s1 s2 :
  session_checked d → sd_target_settings d !! CPU1 = Some s1 → sd_target_settings d !! CPU2 = Some s2 →
  TargetSessionSettings_post_init s1 = Ok s1 → TargetSessionSettings_post_init s2 = Ok s2 →
  parse_session path (session_items d s1 s2) = Ok d.
Proof.
  intros Hd E1 E2 H1 H2. pose proof Hd as [Hv _ _ _ Ht].
  assert (Hs : schema path (session_items d s1 s2) SESSION_SCHEMA_VERSION [] = Ok SESSION_SCHEMA_VERSION).
  { unfold schema. change (dict_get (chars "schema_version") _) with (Some (JInt (sd_schema_version d))).
    by rewrite Hv. }
  assert (He : exact_fields path (session_items d s1 s2) session_fields "Session" = Ok tt) by done.
  unfold parse_session. rewrite Hs, He. unfold field.
  change (dict_get (chars "selected_transport") _) with (Some (JText (sd_selected_transport d))).
  change (dict_get (chars "transport_configs") _) with (Some (JObject (sd_transport_configs d))).
  change (dict_get (chars "target_settings") _) with
    (Some (JObject [(chars "cpu1", target_data s1); (chars "cpu2", target_data s2)])).
  cbn [as_string as_object].
  assert (Hb : both_targets [(chars "cpu1", target_data s1); (chars "cpu2", target_data s2)] = true) by done.
  rewrite Hb. cbn [negb].
  pose proof (Ht CPU1) as C1. pose proof (Ht CPU2) as C2. rewrite E1 in C1. rewrite E2 in C2.
  injection C1 as C1. injection C2 as C2.
  rewrite (parse_target_data path _ CPU1 s1), (parse_target_data path _ CPU2 s2) by done.
  assert ({[CPU1 := s1; CPU2 := s2]} = sd_target_settings d) as ->.
  { apply map_eq. intros []; simplify_map_eq; done. }
  rewrite <-Hv. replace (mkSession _ _ _ _) with d by by destruct d.
  by rewrite session_post_init_ok.
Qed.

(** ** Reading a file *)

Lemma chars_ok s : forallb is_char (chars s) = true.
Proof.
  unfold chars. apply forallb_Forall, Forall_map, Forall_forall. intros c _.
  pose proof (Ascii.nat_ascii_bounded c). unfold is_char, between. lia.
Qed.

(** The bytes of a document are read as its canonical form. *)
Lemma file_bytes_read v bytes :
  well_formed v = true → file_bytes (Ok v) = Some bytes →
  ∃ s, text_of_bytes bytes = Some s ∧ loads s = Read (canonical v) [].
Proof.
  intros Hw Hb. unfold file_bytes, serialize in Hb. destruct (dumps 0 v) as [t|] eqn:E; [|done].
  exists (t ++ [10]). unfold text_of_bytes. rewrite (utf8_roundtrip _ _ Hb).
  rewrite universal_newlines_one_line; [split; [done|by apply loads_dumps]|].
  apply Forall_app. split; [by apply (dumps_one_line v 0)|by repeat constructor].
Qed.

(** The file [bytes] is read as the object with [items]. *)
Definition holds_object (bytes : list Z) (items : list (text * Json)) : Prop :=
  ∃ s, text_of_bytes bytes = Some s ∧ loads s = Read (JObject items) [].

Section loading.
Context `{System}.

Lemma load_object_run path optional w bytes items :
  fault (fs_calls w) = None → fs_files w !! path = Some bytes → holds_object bytes items →
  load_object path optional w = (Ok (Some items), called w (fs_files w)).
Proof.
  intros Hf Hb (s & Hs & Hl). unfold load_object, read_text, bind, catch, get, os_call.
  rewrite Hf, Hb, Hs. cbn [ret]. by rewrite Hl.
Qed.

Lemma load_object_missing path w :
  fault (fs_calls w) = None → fs_files w !! path = None →
  load_object path true w = (Ok None, called w (fs_files w)).
Proof. intros Hf Hb. unfold load_object, read_text, bind, catch, get, os_call. by rewrite Hf, Hb. Qed.

Lemma loads_all s v r : loads s = Read v r → r = [].
Proof.
  unfold loads. destruct (starts_with _ _); [done|].
  destruct (scan_value _ _) as [| |v' r']; cbn; [done|done|]. destruct (skip_space r'); [|done].
  by intros [= _ <-].
Qed.

(** Loading leaves the disk alone; what it returns is in the file. *)
Lemma wp_load_object path optional w :
  wp (load_object path optional)
     (λ r w', fs_files w' = fs_files w ∧
              match r with
              | Some items => ∃ bytes, fs_files w !! path = Some bytes ∧ holds_object bytes items
              | None => optional = true
              end)
     (λ _ w', fs_files w' = fs_files w) w.
Proof.
  unfold load_object. apply wp_bind. eapply (wp_conseq _
    (λ r w', fs_files w' = fs_files w ∧
             match r with
             | Some s => ∃ bytes, fs_files w !! path = Some bytes ∧ text_of_bytes bytes = Some s
             | None => optional = true
             end) _ (λ _ w', fs_files w' = fs_files w)); [| |done].
  - assert (Hexc : ∀ exc w', fs_files w' = fs_files w →
      wp (if isinstance exc FileNotFoundError then
            if optional then ret None
            else raise (Err PersistenceFileNotFoundError (Fmt "{}: file not found" [VText path]))
          else if isinstance exc OSError
          then raise (Err PersistenceError (Prefixed "{path}: cannot read file: " (exn_str exc)))
          else raise exc)
        (λ r w', fs_files w' = fs_files w ∧
             match r with
             | Some s => ∃ bytes, fs_files w !! path = Some bytes ∧ text_of_bytes bytes = Some s
             | None => optional = true
             end) (λ _ w', fs_files w' = fs_files w) w').
    { intros exc w' E. destruct (isinstance exc FileNotFoundError); [by destruct optional|].
      by destruct (isinstance exc OSError). }
    apply wp_catch, wp_bind, wp_get, wp_bind, wp_os_call; [|intros; by apply Hexc].
    destruct (fs_files w !! path) as [bytes|] eqn:E; [|by apply wp_raise, Hexc].
    destruct (text_of_bytes bytes) as [s|] eqn:E'; [|by apply wp_raise, Hexc].
    apply wp_ret. split; [done|]. by exists bytes.
  - intros [s|] w' [E H']; [|by split]. destruct H' as (bytes & Hb & Hs).
    destruct (loads s) as [| |v r] eqn:El; [done|done|]. pose proof (loads_all s v r El) as ->.
    destruct v; try done. split; [done|]. exists bytes. split; [done|]. by exists s.
Qed.

(** *** Sessions *)

(** The file [bytes] at [path] is loaded as [d]. *)
Definition holds_session (path : text) (bytes : list Z) (d : SessionDocument) : Prop :=
  ∃ items, holds_object bytes items ∧ parse_session path items = Ok d.

Lemma session_load_run path w bytes d :
  fault (fs_calls w) = None → fs_files w !! path = Some bytes → holds_session path bytes d →
  session_load path w =
    (Ok (mkLoad d (Some SESSION_SCHEMA_VERSION) false []), called w (fs_files w)).
Proof.
  intros Hf Hb (items & Hi & Hp). unfold session_load, bind.
  rewrite (load_object_run path false w bytes items) by done. unfold lift. by rewrite Hp.
Qed.

Lemma wp_session_load path w :
  wp (session_load path)
     (λ r w', fs_files w' = fs_files w ∧
              ∃ bytes, fs_files w !! path = Some bytes ∧ holds_session path bytes (dl_document r))
     (λ _ w', fs_files w' = fs_files w) w.
Proof.
  unfold session_load. apply wp_bind. eapply wp_conseq; [apply wp_load_object| |done].
  intros [items|] w' [E Hi]; [|done]. destruct Hi as (bytes & Hb & Hi).
  apply wp_bind, wp_lift; [|done]. intros d Hd. apply wp_ret. split; [done|].
  exists bytes. split; [done|]. by exists items.
Qed.
End loading.

Lemma session_items_well_formed d s1 s2 :
  session_texts d = true → sd_target_settings d !! CPU1 = Some s1 → sd_target_settings d !! CPU2 = Some s2 →
  well_formed (JObject (session_items d s1 s2)) = true.
Proof.
  intros Ht E1 E2. unfold session_texts in Ht. cbn [forallb] in Ht. rewrite E1, E2, !andb_true_iff in Ht.
  destruct Ht as ((Hs & Hc) & (P1 & R1) & (P2 & R2) & _).
  assert (Hitems : ∀ s, forallb is_char (ts_program_image_path s) = true →
                   forallb is_char (ts_ram_image_path s) = true →
                   well_formed (JObject (target_items s)) = true).
  { intros s Hp Hr. unfold target_items, target_data. cbn [well_formed forallb fst snd].
    rewrite !chars_ok, Hp, Hr, bool_decide_eq_true_2 by (apply (bool_decide_unpack _); reflexivity).
    by destruct (ts_cpu_id s), (ts_erase_scope s). }
  unfold session_items. pose proof (Hitems s1 P1 R1) as H1. pose proof (Hitems s2 P2 R2) as H2.
  revert Hc H1 H2. generalize (JObject (sd_transport_configs d)) (JObject (target_items s1))
    (JObject (target_items s2)). intros configs o1 o2 Hc H1 H2.
  cbn [well_formed forallb fst snd]. rewrite Hs, Hc, H1, H2, !chars_ok.
  by rewrite !bool_decide_eq_true_2 by (apply (bool_decide_unpack _); reflexivity).
Qed.

(** What a session was written as is loaded as the same session. *)
Lemma session_bytes_hold path d bytes :
  proper_session d → file_bytes (session_data d) = Some bytes →
  holds_session path bytes (sorted_session d).
Proof.
  intros [Hd Hm Ht] Hb. pose proof (sc_targets d Hd) as Hc.
  destruct (sd_target_settings d !! CPU1) as [s1|] eqn:E1; [|by specialize (Hc CPU1); rewrite E1 in Hc].
  destruct (sd_target_settings d !! CPU2) as [s2|] eqn:E2; [|by specialize (Hc CPU2); rewrite E2 in Hc].
  rewrite (session_data_items d s1 s2) in Hb by done.
  destruct (file_bytes_read _ _ (session_items_well_formed d s1 s2 Ht E1 E2) Hb) as (s & Hs & Hl).
  rewrite canonical_session_items in Hl. exists (session_items (sorted_session d) s1 s2).
  split; [by exists s|]. apply parse_session_items; [by apply sorted_session_checked|done|done| |].
  - by apply (Hm CPU1).
  - by apply (Hm CPU2).
Qed.

(** *** Global settings *)

(** Settings as the program constructs them *)
Record proper_global (g : GlobalSettingsDocument) : Prop := {
  pg_checked : GlobalSettingsDocument_post_init g = Ok g;
  pg_command : GlobalCommandSettings_post_init (gs_command g) = Ok (gs_command g);
  pg_texts : forallb is_char (gs_hex2000_executable_path g) && forallb is_char (gs_log_output_path g) = true;
}.

Definition global_items (g : GlobalSettingsDocument) : list (text * Json) :=
  match global_data g with Ok (JObject items) => items | _ => [] end.

Lemma canonical_global_items g : canonical (JObject (global_items g)) = JObject (global_items g).
Proof. rewrite canonical_object by done. unfold global_items, global_data. cbn [map fst snd]. by rewrite canonical_object. Qed.

Lemma global_items_well_formed g : proper_global g → well_formed (JObject (global_items g)) = true.
Proof.
  intros [_ _ Ht]. apply andb_true_iff in Ht as [H1 H2]. unfold global_items, global_data.
  cbn [well_formed forallb fst snd]. rewrite H1, H2, !chars_ok.
  by rewrite !bool_decide_eq_true_2 by (apply (bool_decide_unpack _); reflexivity).
Qed.

Definition command_items (c : GlobalCommandSettings) : list (text * Json) :=
  [(chars "max_retries", JInt (gc_max_retries c)); (chars "retry_backoff_ms", JInt (gc_retry_backoff_ms c));
   (chars "timeout_ms", JInt (gc_timeout_ms c))].

Lemma parse_command_items path c :
  GlobalCommandSettings_post_init c = Ok c → parse_command path (command_items c) = Ok c.
Proof.
  unfold parse_command, field. change (dict_get (chars "timeout_ms") _) with (Some (JInt (gc_timeout_ms c))).
  change (dict_get (chars "max_retries") _) with (Some (JInt (gc_max_retries c))).
  change (dict_get (chars "retry_backoff_ms") _) with (Some (JInt (gc_retry_backoff_ms c))).
  unfold GlobalCommandSettings_post_init, non_negative_int. cbn [as_integer gc_timeout_ms gc_max_retries gc_retry_backoff_ms].
  destruct (gc_timeout_ms c <=? 0) eqn:E1; [done|]. destruct (gc_max_retries c <? 0) eqn:E2; [done|].
  destruct (gc_retry_backoff_ms c <? 0) eqn:E3; [done|]. cbn. rewrite E1, E2, E3. by destruct c.
Qed.

Lemma parse_global_items path g : proper_global g → parse_global_v3 path (global_items g) = Ok g.
Proof.
  intros [Hg Hc _]. unfold parse_global_v3.
  assert (He : exact_fields path (global_items g) ["schema_version"; "hex2000_executable_path"; "command";
    "log_output_path"; "auto_ping_enabled"]%string "Global Settings" = Ok tt) by done.
  assert (Hf : exact_fields path (command_items (gs_command g)) command_fields "command" = Ok tt) by done.
  rewrite He. unfold field.
  change (dict_get (chars "command") _) with (Some (JObject (command_items (gs_command g)))).
  change (dict_get (chars "hex2000_executable_path") _) with (Some (JText (gs_hex2000_executable_path g))).
  change (dict_get (chars "log_output_path") _) with (Some (JText (gs_log_output_path g))).
  change (dict_get (chars "auto_ping_enabled") _) with (Some (JBool (gs_auto_ping_enabled g))).
  cbn [as_object as_string as_boolean]. rewrite Hf, parse_command_items by done.
  assert (Hv : gs_schema_version g = GLOBAL_SETTINGS_SCHEMA_VERSION).
  { unfold GlobalSettingsDocument_post_init in Hg.
    by destruct (Z.eqb_spec (gs_schema_version g) GLOBAL_SETTINGS_SCHEMA_VERSION). }
  rewrite <-Hv. replace (mkGlobal _ _ _ _ _) with g by by destruct g. by rewrite Hg.
Qed.

Lemma global_schema path g :
  proper_global g → schema path (global_items g) GLOBAL_SETTINGS_SCHEMA_VERSION [1; 2] = Ok GLOBAL_SETTINGS_SCHEMA_VERSION.
Proof.
  intros [Hg _ _]. unfold schema.
  change (dict_get (chars "schema_version") _) with (Some (JInt (gs_schema_version g))).
  unfold GlobalSettingsDocument_post_init in Hg.
  by destruct (Z.eqb_spec (gs_schema_version g) GLOBAL_SETTINGS_SCHEMA_VERSION) as [->|].
Qed.

Lemma global_load_run `{System} path w bytes g :
  proper_global g → file_bytes (global_data g) = Some bytes →
  fault (fs_calls w) = None → fs_files w !! path = Some bytes →
  global_load path w =
    (Ok (mkLoad g (Some GLOBAL_SETTINGS_SCHEMA_VERSION) false []), called w (fs_files w)).
Proof.
  intros Hg Hb Hf Hw. change (global_data g) with (Ok (JObject (global_items g))) in Hb.
  destruct (file_bytes_read _ _ (global_items_well_formed g Hg) Hb) as (s & Hs & Hl).
  rewrite canonical_global_items in Hl. unfold global_load, bind.
  rewrite (load_object_run path true w bytes (global_items g)) by (done || by exists s).
  unfold lift. rewrite global_schema by done. cbn [Z.eqb]. unfold ret.
  by rewrite parse_global_items by done.
Qed.

(** *** The runtime cache *)

Lemma padded_width width n : length (padded width n) = width.
Proof. revert n. induction width as [|w IH]; intros n; cbn; [done|]. rewrite length_app, IH. cbn. lia. Qed.

Lemma padded_spec width n :
  0 <= n < 10 ^ Z.of_nat width →
  forallb is_digit (padded width n) = true ∧ dec_int (padded width n) = n.
Proof.
  revert n. induction width as [|w IH]; intros n Hn; cbn [padded].
  - cbn in Hn. split; [done|]. unfold dec_int. cbn. lia.
  - rewrite Nat2Z.inj_succ, Z.pow_succ_r in Hn by lia. pose proof (Z.mod_pos_bound n 10 ltac:(lia)).
    destruct (IH (n / 10)) as [H1 H2]; [split; [apply Z.div_pos; lia|apply Z.div_lt_upper_bound; lia]|].
    rewrite forallb_app, H1, dec_int_app, H2. split.
    + cbn [forallb]. unfold is_digit, between. lia.
    + unfold dec_int. cbn [foldl]. change (zlen [48 + n mod 10]) with 1. pose proof (Z.div_mod n 10). lia.
Qed.

Lemma take_number_padded width n rest :
  0 <= n < 10 ^ Z.of_nat width → take_number width (padded width n ++ rest) = Some (n, rest).
Proof.
  intros Hn. destruct (padded_spec width n Hn) as [H1 H2]. pose proof (padded_width width n) as Hl.
  unfold take_number. rewrite take_app_length', drop_app_length' by done.
  by rewrite Hl, Nat.eqb_refl, H1, H2.
Qed.

Lemma expect_cons c s : expect c (c :: s) = Some s.
Proof. unfold expect. cbn. by rewrite Z.eqb_refl. Qed.

Lemma zulu_utc_text d : zulu (utc_text d) = date_text d ++ chars "+00:00".
Proof.
  unfold zulu, utc_text. change (chars "Z") with [90]. rewrite rev_app_distr. cbn [rev app].
  change (90 =? 90) with true. cbv iota. by rewrite rev_involutive.
Qed.

Lemma between_spec lo hi c : between lo hi c = true ↔ lo <= c <= hi.
Proof. unfold between. lia. Qed.

Lemma iso_fields_utc_text d :
  valid_date d = true → d_utcoffset d = Some 0 → iso_fields (zulu (utc_text d)) = Some d.
Proof.
  intros Hv Ho. rewrite zulu_utc_text. unfold valid_date in Hv. rewrite !andb_true_iff, !between_spec in Hv.
  destruct Hv as (((((((Hy & Hm) & Hd) & Hh) & Hmi) & Hs) & Hus) & _).
  assert (Hd' : d_day d <= 31).
  { unfold days_in_month in Hd. destruct (_ =? 2); [destruct (is_leap _)|destruct (bool_decide _)]; lia. }
  unfold iso_fields, date_text. rewrite <-!app_assoc.
  rewrite take_number_padded by (cbn; lia). cbn [mbind option_bind app]. rewrite expect_cons.
  cbn [mbind option_bind]. rewrite take_number_padded by (cbn; lia). cbn [mbind option_bind app].
  rewrite expect_cons. cbn [mbind option_bind]. rewrite take_number_padded by (cbn; lia).
  cbn [mbind option_bind app]. rewrite expect_cons. cbn [mbind option_bind].
  rewrite take_number_padded by (cbn; lia). cbn [mbind option_bind app]. rewrite expect_cons.
  cbn [mbind option_bind]. rewrite take_number_padded by (cbn; lia). cbn [mbind option_bind app].
  rewrite expect_cons. cbn [mbind option_bind]. rewrite take_number_padded by (cbn; lia).
  cbn [mbind option_bind app].
  assert (Hf : match expect 46 ((if d_microsecond d =? 0 then [] else 46 :: padded 6 (d_microsecond d)) ++ chars "+00:00")
               with Some s => take_number 6 s | None => Some (0, (if d_microsecond d =? 0 then [] else 46 :: padded 6 (d_microsecond d)) ++ chars "+00:00") end
               = Some (d_microsecond d, chars "+00:00")).
  { destruct (Z.eqb_spec (d_microsecond d) 0) as [->|]; [done|]. cbn [app]. rewrite expect_cons.
    apply take_number_padded. cbn. lia. }
  rewrite Hf. cbn [mbind option_bind]. destruct d as [y mo da h mi se us off]. cbn in Ho. subst off. done.
Qed.

(** ** Recent sessions *)

Lemma text_leb_refl s : text_leb s s = true.
Proof. induction s as [|c s IH]; [done|]. cbn. by rewrite Z.eqb_refl, IH, orb_true_r. Qed.

Lemma text_leb_trans r s t : text_leb r s = true → text_leb s t = true → text_leb r t = true.
Proof.
  revert s t. induction r as [|a r IH]; intros [|b s] [|c t]; cbn; try done.
  destruct (Z.ltb_spec a b), (Z.ltb_spec b c), (Z.eqb_spec a b), (Z.eqb_spec b c); cbn; try done; try lia;
    intros H1 H2; subst; rewrite ?(proj2 (Z.ltb_lt _ _)) by lia; try done.
  rewrite Z.eqb_refl. cbn. rewrite (IH _ _ H1 H2). by rewrite orb_true_r.
Qed.

Section recent.
Context `{Machine}.
Implicit Types e x : RecentSessionEntry.

Definition time (e : RecentSessionEntry) : DateTime := re_last_saved_at_utc e.

(** [x] was not saved after [e]. *)
Definition no_later (e x : RecentSessionEntry) : Prop := later (time x) (time e) = false.

Lemma no_later_refl e : no_later e e.
Proof. unfold no_later, later. by rewrite text_leb_refl. Qed.

Lemma no_later_trans e x y : no_later e x → no_later x y → no_later e y.
Proof.
  unfold no_later, later. rewrite !negb_false_iff. intros H1 H2. by eapply text_leb_trans.
Qed.

Lemma later_no_later e x : later (time e) (time x) = true → no_later e x.
Proof. unfold no_later, later. rewrite negb_true_iff, negb_false_iff. apply text_leb_total. Qed.

(** What the list of recent sessions promises *)
Definition recents_ok (l : list RecentSessionEntry) : Prop :=
  NoDup (map entry_key l) ∧ StronglySorted no_later l ∧ (length l <= MAX_RECENT_SESSIONS)%nat.

Lemma dict_set_keys {A} k (v : A) l : k ∈ map fst l → map fst (dict_set k v l) = map fst l.
Proof.
  induction l as [|[k' v'] l IH]; cbn; [by intros ?%not_elem_of_nil|].
  destruct (text_eqb k k') eqn:E; [done|]. intros [->|Hk]%elem_of_cons; [by rewrite text_eqb_refl in E|].
  cbn. by rewrite IH.
Qed.

Lemma dict_set_elem {A} k (v : A) l kv :
  NoDup (map fst l) → kv ∈ dict_set k v l → kv = (k, v) ∨ kv ∈ l ∧ kv.1 ≠ k.
Proof.
  induction l as [|[k' v'] l IH]; cbn.
  - intros _ Hkv%list_elem_of_singleton. by left.
  - rewrite NoDup_cons. intros [Hk' Hl]. destruct (text_eqb k k') eqn:E.
    + apply bool_decide_eq_true in E as ->. intros [->|Hkv]%elem_of_cons; [by left|]. right.
      split; [by right|]. intros E. apply Hk'. rewrite <-E. by apply list_elem_of_fmap_2.
    + apply bool_decide_eq_false in E. intros [->|Hkv]%elem_of_cons.
      * right. split; [left|]. cbn. congruence.
      * destruct (IH Hl Hkv) as [->|[H1 H2]]; [by left|]. right. split; [by right|done].
Qed.

(** [latest] holds, for every path among [seen], its latest entry. *)
Definition latest_of (seen : list RecentSessionEntry) (latest : list (text * RecentSessionEntry)) : Prop :=
  NoDup (map fst latest) ∧
  (∀ kv, kv ∈ latest → kv.1 = entry_key kv.2 ∧ kv.2 ∈ seen ∧
                       ∀ x, x ∈ seen → entry_key x = kv.1 → no_later kv.2 x) ∧
  (∀ x, x ∈ seen → entry_key x ∈ map fst latest).

Lemma keep_latest_ok seen latest e :
  latest_of seen latest → latest_of (seen ++ [e]) (keep_latest latest e).
Proof.
  intros (Hnd & Hin & Hall). unfold keep_latest.
  assert (Hset : (∀ old, dict_get (entry_key e) latest = Some old → no_later e old) →
                 latest_of (seen ++ [e]) (dict_set (entry_key e) e latest)).
  { intros Hold. assert (Hnew : ∀ x, x ∈ seen → entry_key x = entry_key e → no_later e x).
    { intros x Hx Ek. pose proof (Hall x Hx) as Hk. rewrite Ek in Hk.
      destruct (dict_get (entry_key e) latest) as [old|] eqn:Eo; [|by apply dict_get_none in Eo].
      apply dict_get_elem in Eo as Ho. apply Hin in Ho as (_ & _ & Ho). cbn in Ho.
      eapply no_later_trans; [by apply Hold|by apply Ho]. }
    split_and!.
    - destruct (decide (entry_key e ∈ map fst latest)) as [Hk|Hk]; [by rewrite dict_set_keys|].
      rewrite dict_set_fresh, map_app by done. apply NoDup_app. split_and!; [done| |apply NoDup_singleton].
      intros k Hk1 Hk2%list_elem_of_singleton. by subst.
    - intros kv [->|[Hkv Hk]]%dict_set_elem; [| |done]; cbn [fst snd].
      + split_and!; [done|apply elem_of_app; right; by apply list_elem_of_singleton|].
        intros x [Hx|Hx%list_elem_of_singleton]%elem_of_app Ek; [by apply Hnew|]. subst. apply no_later_refl.
      + destruct (Hin kv Hkv) as (H1 & H2 & H3). split_and!; [done|apply elem_of_app; by left|].
        intros x [Hx|Hx%list_elem_of_singleton]%elem_of_app Ek; [by apply H3|]. by subst.
    - intros x Hx. destruct (decide (entry_key e ∈ map fst latest)) as [Hk|Hk].
      + rewrite dict_set_keys by done. apply elem_of_app in Hx as [Hx|Hx%list_elem_of_singleton]; [by apply Hall|].
        by subst.
      + rewrite dict_set_fresh, map_app by done. apply elem_of_app.
        apply elem_of_app in Hx as [Hx|Hx%list_elem_of_singleton]; [left; by apply Hall|].
        right. subst. by apply list_elem_of_singleton. }
  destruct (dict_get (entry_key e) latest) as [old|] eqn:E; [|by apply Hset].
  destruct (later _ _) eqn:L.
  - apply Hset. intros ? [= <-]. by apply later_no_later.
  - apply dict_get_elem in E as Ho. split_and!; [done| |].
    + intros kv Hkv. destruct (Hin kv Hkv) as (H1 & H2 & H3). split_and!; [done|apply elem_of_app; by left|].
      intros x [Hx|Hx%list_elem_of_singleton]%elem_of_app Ek; [by apply H3|]. subst x.
      assert (kv = (entry_key e, old)) as ->; [|exact L]. destruct kv as [k v]. cbn in *.
      pose proof (dict_get_nodup latest k v Hnd Hkv) as E'. subst k. rewrite <-Ek in E'. congruence.
    + intros x [Hx|Hx%list_elem_of_singleton]%elem_of_app; [by apply Hall|]. subst.
      change (entry_key e) with (entry_key e, old).1. by apply list_elem_of_fmap_2.
Qed.

Lemma keep_latest_all entries : latest_of entries (foldl keep_latest [] entries).
Proof.
  induction entries as [|e entries IH] using rev_ind.
  - split_and!; [constructor|by intros ? ?%not_elem_of_nil|by intros ? ?%not_elem_of_nil].
  - rewrite foldl_app. by apply keep_latest_ok.
Qed.

Lemma insert_recent_perm e l : insert_recent e l ≡ₚ e :: l.
Proof.
  induction l as [|x l IH]; cbn; [done|]. destruct (later _ _); [|done]. rewrite IH. constructor.
Qed.

Lemma sort_recent_perm l : sort_recent l ≡ₚ l.
Proof. induction l as [|e l IH]; cbn; [done|]. by rewrite insert_recent_perm, IH. Qed.

Lemma insert_recent_sorted e l : StronglySorted no_later l → StronglySorted no_later (insert_recent e l).
Proof.
  induction 1 as [|x l Hl IH Hx]; cbn; [by repeat constructor|]. destruct (later _ _) eqn:L.
  - constructor; [done|]. rewrite insert_recent_perm. constructor; [by apply later_no_later|done].
  - constructor; [by constructor|]. constructor; [exact L|]. eapply Forall_impl; [exact Hx|].
    intros y Hy. by eapply no_later_trans; [exact L|].
Qed.

Lemma sort_recent_sorted l : StronglySorted no_later (sort_recent l).
Proof. induction l as [|e l IH]; cbn; [constructor|]. by apply insert_recent_sorted. Qed.

Lemma sort_recent_id l : StronglySorted no_later l → sort_recent l = l.
Proof.
  induction 1 as [|x l Hl IH Hx]; cbn; [done|]. rewrite IH. destruct l as [|y l]; [done|].
  cbn. apply Forall_cons in Hx as [Hxy _]. unfold no_later, time in Hxy. by rewrite Hxy.
Qed.

Lemma StronglySorted_app_inv {A} (R : A → A → Prop) l k :
  StronglySorted R (l ++ k) → StronglySorted R l ∧ ∀ p q, p ∈ l → q ∈ k → R p q.
Proof.
  induction l as [|a l IH]; cbn; [intros _; split; [constructor|by intros ? ? ?%not_elem_of_nil]|].
  intros [Hl Ha]%StronglySorted_inv. destruct (IH Hl) as [H1 H2]. rewrite Forall_app in Ha.
  destruct Ha as [Ha1 Ha2]. split; [by constructor|].
  intros p q [->|Hp]%elem_of_cons Hq; [|by apply H2]. by eapply Forall_forall in Ha2.
Qed.

(** The entries that are kept: for each path its latest one, the latest ten of
    them, latest first. *)
Lemma keep_recent_spec entries :
  recents_ok (keep_recent entries) ∧
  (∀ e, e ∈ keep_recent entries → e ∈ entries ∧ ∀ x, x ∈ entries → entry_key x = entry_key e → no_later e x) ∧
  (∀ x, x ∈ entries → entry_key x ∉ map entry_key (keep_recent entries) →
        length (keep_recent entries) = MAX_RECENT_SESSIONS ∧
        ∀ e, e ∈ keep_recent entries → no_later e x).
Proof.
  destruct (keep_latest_all entries) as (Hnd & Hin & Hall). unfold keep_recent.
  set (latest := foldl keep_latest [] entries) in *. clearbody latest.
  pose proof (sort_recent_perm (map snd latest)) as Hp.
  pose proof (sort_recent_sorted (map snd latest)) as Hs.
  set (sorted := sort_recent (map snd latest)) in *. clearbody sorted.
  assert (Hkeys : map fst latest = map entry_key (map snd latest)).
  { rewrite map_map. apply map_ext_in. intros kv Hkv. by apply Hin, list_elem_of_In. }
  rewrite Hkeys in Hnd, Hall. rewrite <-Hp in Hnd.
  assert (Hall' : ∀ x, x ∈ entries → entry_key x ∈ map entry_key sorted)
    by (intros x Hx; rewrite Hp; by apply Hall).
  clear Hall. rename Hall' into Hall.
  assert (Hfrom : ∀ e, e ∈ sorted → e ∈ entries ∧ ∀ x, x ∈ entries → entry_key x = entry_key e → no_later e x).
  { intros e He. rewrite Hp in He. apply list_elem_of_fmap in He as (kv & -> & Hkv).
    destruct (Hin kv Hkv) as (H1 & H2 & H3). split; [done|]. intros x Hx Ek. apply H3; [done|congruence]. }
  rewrite <-(take_drop MAX_RECENT_SESSIONS sorted) in Hs, Hnd, Hall.
  apply StronglySorted_app_inv in Hs as [Hs1 Hs2]. rewrite map_app in Hnd, Hall.
  apply NoDup_app in Hnd as (Hnd1 & _ & _). split_and!.
  - split_and!; [done|done|]. rewrite length_take. lia.
  - intros e He. apply Hfrom. by eapply elem_of_take in He as (? & He & _); eapply list_elem_of_lookup_2.
  - intros x Hx Hk. pose proof (Hall x Hx) as Hd. apply elem_of_app in Hd as [Hd|Hd]; [done|].
    apply list_elem_of_fmap in Hd as (y & Ey & Hy). split.
    + rewrite length_take. destruct (decide (length sorted <= MAX_RECENT_SESSIONS)%nat); [|lia].
      rewrite drop_ge in Hy by done. by apply not_elem_of_nil in Hy.
    + intros e He. eapply no_later_trans; [by apply Hs2|]. apply Hfrom; [|done|done].
      rewrite <-(take_drop MAX_RECENT_SESSIONS sorted). apply elem_of_app. by right.
Qed.

Lemma keep_latest_nodup entries latest :
  NoDup (map fst latest ++ map entry_key entries) →
  foldl keep_latest latest entries = latest ++ map (λ e, (entry_key e, e)) entries.
Proof.
  revert latest. induction entries as [|e entries IH]; intros latest Hnd; cbn; [by rewrite app_nil_r|].
  cbn in Hnd. assert (Hk : entry_key e ∉ map fst latest).
  { apply NoDup_app in Hnd as (_ & Hd & _). intros Hk. apply (Hd _ Hk). left. }
  unfold keep_latest at 2. rewrite (proj2 (dict_get_none (entry_key e) latest)), dict_set_fresh by done.
  rewrite IH; [by rewrite <-app_assoc|]. rewrite map_app, <-app_assoc. exact Hnd.
Qed.

Lemma keep_recent_id l : recents_ok l → keep_recent l = l.
Proof.
  intros (Hnd & Hs & Hl). unfold keep_recent. rewrite keep_latest_nodup by done. cbn [app].
  rewrite map_map, map_id, sort_recent_id by done. by apply take_ge.
Qed.
End recent.

(** ** The cache read back *)

Section cache_read_back.
Context `{Machine}.

(** A cache as the program constructs it *)
Record proper_cache (c : RuntimeCacheDocument) : Prop := {
  pc_schema : rc_schema_version c = RUNTIME_CACHE_SCHEMA_VERSION;
  pc_recents : recents_ok (rc_recent_sessions c);
  pc_entries : Forall (λ e, RecentSessionEntry_post_init e = Ok e ∧ valid_date (time e) = true ∧
                            forallb is_char (re_path e) = true) (rc_recent_sessions c);
}.

Definition entry_items (e : RecentSessionEntry) : list (text * Json) :=
  [(chars "last_saved_at_utc", JText (utc_text (time e))); (chars "path", JText (re_path e))].
Definition cache_items (c : RuntimeCacheDocument) : list (text * Json) :=
  [(chars "recent_sessions", JArray (map (λ e, JObject (entry_items e)) (rc_recent_sessions c)));
   (chars "schema_version", JInt (rc_schema_version c))].

Lemma canonical_cache_items c : canonical (JObject (cache_items c)) = JObject (cache_items c).
Proof.
  rewrite canonical_object by done. unfold cache_items. cbn [map fst snd].
  change (canonical (JArray ?l)) with (JArray (map canonical l)). rewrite map_map.
  rewrite (map_ext _ (λ e, JObject (entry_items e))); [done|]. intros e. by rewrite canonical_object.
Qed.

Lemma padded_chars width n : forallb is_char (padded width n) = true.
Proof.
  revert n. induction width as [|w IH]; intros n; cbn [padded]; [done|]. rewrite forallb_app, IH.
  pose proof (Z.mod_pos_bound n 10). cbn [forallb andb]. unfold is_char, between. lia.
Qed.

Lemma utc_text_chars d : forallb is_char (utc_text d) = true.
Proof.
  unfold utc_text, date_text. rewrite !forallb_app, !padded_chars. cbn [andb forallb].
  destruct (_ =? 0); [done|]. cbn [forallb andb]. by rewrite padded_chars.
Qed.

Lemma cache_items_well_formed c : proper_cache c → well_formed (JObject (cache_items c)) = true.
Proof.
  intros [_ _ He]. unfold cache_items. set (entries := JArray _).
  assert (Hj : well_formed entries = true).
  { unfold entries. cbn [well_formed]. apply forallb_Forall, Forall_map.
    eapply Forall_impl; [exact He|]. intros e (_ & _ & Hp). unfold entry_items.
    cbn [well_formed forallb fst snd]. rewrite utc_text_chars, Hp, !chars_ok.
    by rewrite bool_decide_eq_true_2 by (apply (bool_decide_unpack _); reflexivity). }
  clearbody entries. cbn [well_formed forallb fst snd]. rewrite Hj, !chars_ok.
  by rewrite bool_decide_eq_true_2 by (apply (bool_decide_unpack _); reflexivity).
Qed.

Lemma parse_entry_items path e :
  RecentSessionEntry_post_init e = Ok e → valid_date (time e) = true →
  parse_recent path (JObject (entry_items e)) = Ok e.
Proof.
  intros He Hv. unfold parse_recent. cbn [as_object].
  assert (Hx : exact_fields path (entry_items e) ["path"; "last_saved_at_utc"]%string "recent_sessions[{index}]"
               = Ok tt) by done.
  rewrite Hx. unfold field. change (dict_get (chars "path") _) with (Some (JText (re_path e))).
  change (dict_get (chars "last_saved_at_utc") _) with (Some (JText (utc_text (time e)))).
  cbn [as_string]. assert (Hu : d_utcoffset (time e) = Some 0).
  { unfold RecentSessionEntry_post_init, is_utc in He. destruct (resolve _); [|done].
    by case_bool_decide. }
  unfold fromisoformat. rewrite iso_fields_utc_text, Hv by done. unfold time.
  replace (mkRecent _ _) with e by by destruct e. by rewrite He.
Qed.

Lemma parse_cache_items path c : proper_cache c → parse_cache path (cache_items c) = Ok c.
Proof.
  intros [Hs Hr He]. unfold parse_cache.
  assert (Hv : schema path (cache_items c) RUNTIME_CACHE_SCHEMA_VERSION [] = Ok RUNTIME_CACHE_SCHEMA_VERSION).
  { unfold schema. change (dict_get (chars "schema_version") _) with (Some (JInt (rc_schema_version c))).
    by rewrite Hs. }
  assert (Hx : exact_fields path (cache_items c) ["schema_version"; "recent_sessions"]%string "Runtime Cache" = Ok tt)
    by done.
  rewrite Hv, Hx. unfold field.
  change (dict_get (chars "recent_sessions") _) with
    (Some (JArray (map (λ e, JObject (entry_items e)) (rc_recent_sessions c)))). cbv beta iota.
  assert (Hm : mapR (parse_recent path) (map (λ e, JObject (entry_items e)) (rc_recent_sessions c)) =
               Ok (rc_recent_sessions c)).
  { clear Hr Hv Hx. induction He as [|e l (H1 & H2 & _) _ IH]; [done|]. cbn [map mapR].
    by rewrite parse_entry_items, IH. }
  rewrite Hm. unfold new_cache, RuntimeCacheDocument_post_init.
  cbn [rc_recent_sessions rc_schema_version]. rewrite Z.eqb_refl, keep_recent_id by done. cbn [negb].
  rewrite <-Hs. by destruct c.
Qed.

Lemma cache_load_run `{System} path w bytes c :
  proper_cache c → file_bytes (cache_data c) = Some bytes →
  fault (fs_calls w) = None → fs_files w !! path = Some bytes →
  cache_load path w = (Ok (mkLoad c (Some RUNTIME_CACHE_SCHEMA_VERSION) false []), called w (fs_files w)).
Proof.
  intros Hc Hb Hf Hw. change (cache_data c) with (Ok (JObject (cache_items c))) in Hb.
  destruct (file_bytes_read _ _ (cache_items_well_formed c Hc) Hb) as (s & Hs & Hl).
  rewrite canonical_cache_items in Hl. unfold cache_load, bind.
  rewrite (load_object_run path true w bytes (cache_items c)) by (done || by exists s).
  unfold lift, ret. by rewrite parse_cache_items by done.
Qed.
End cache_read_back.

(** * Properties *)

Lemma wp_os_call_ok `{System} {A} (a : A) effect failing Q E w :
  (∀ n, fault n = None) → Q a (called w (effect (fs_files w))) → wp (os_call a effect failing) Q E w.
Proof. intros Hf HQ. unfold wp, os_call. by rewrite Hf. Qed.

(** Without failing calls, what can be encoded is written. *)
Lemma atomic_write_succeeds `{System} path data w bytes :
  (∀ n, fault n = None) → file_bytes data = Some bytes →
  wp (atomic_write path data) (λ _ _, True) (λ _ _, False) w.
Proof.
  intros Hf Hb. unfold file_bytes in Hb. unfold atomic_write.
  destruct (let? d := data in serialize d) as [payload|]; [|done].
  apply wp_bind, wp_catch, wp_bind, (wp_os_call_ok _ _ _ _ _ _ Hf), wp_bind, wp_get,
    (wp_os_call_ok _ _ _ _ _ _ Hf), wp_catch, wp_bind.
  unfold write_temporary. rewrite Hb. cbn zeta.
  apply wp_bind, wp_catch, wp_bind, wp_bind, wp_get, (wp_os_call_ok _ _ _ _ _ _ Hf).
  apply wp_bind, wp_bind, wp_get, (wp_os_call_ok _ _ _ _ _ _ Hf).
  apply wp_bind, wp_get, (wp_os_call_ok _ _ _ _ _ _ Hf), (wp_os_call_ok _ _ _ _ _ _ Hf).
  apply wp_bind, wp_get. cbn [called fs_files id]. rewrite lookup_insert_eq.
  by apply (wp_os_call_ok _ _ _ _ _ _ Hf).
Qed.

(** C39: saving a document replaces its file as a whole.  At every moment of a
    save, whichever calls of the operating system fail and wherever it stops,
    the file is the old one or the complete new one, and no other file than a
    temporary one is touched; a save that raises leaves the old file, one that
    returns leaves the new file and nothing else; and it returns when no call
    fails and the document can be encoded. *)
Theorem save_replaces_whole_files `{System} path data w r w' :
  fresh_name path (fs_files w) → atomic_write path data w = (r, w') →
  let temporary := temporary_name (fs_files w) path in
  (∃ moments, fs_history w' = fs_history w ++ moments ∧
     ∀ disk, disk ∈ moments →
       (disk !! path = fs_files w !! path ∨
        ∃ bytes, file_bytes data = Some bytes ∧ disk !! path = Some bytes) ∧
       ∀ other, other ≠ path → other ≠ temporary → disk !! other = fs_files w !! other) ∧
  match r with
  | Ok _ => ∃ bytes, file_bytes data = Some bytes ∧ fs_files w' = <[path := bytes]> (fs_files w)
  | Raise _ => ∀ other, other ≠ temporary → fs_files w' !! other = fs_files w !! other
  end ∧
  ((∀ n, fault n = None) → is_Some (file_bytes data) → r = Ok tt).
Proof.
  intros Hfresh E temporary. pose proof Hfresh as [_ Hne]. fold temporary in Hne.
  pose proof (wp_run _ _ _ _ _ _ (wp_atomic_write path data w Hfresh) E) as Hr.
  cbn zeta in Hr. fold temporary in Hr.
  assert (Hold : ∀ disk other, only_temporary (fs_files w) temporary disk → other ≠ temporary →
                               disk !! other = fs_files w !! other).
  { intros disk other [->|[b ->]] Ho; [done|]. by rewrite lookup_insert_ne. }
  assert (Hsaw : saw (replacing (fs_files w) temporary path (file_bytes data)) w w').
  { destruct r as [[]|e]; [by destruct Hr as (? & _ & _ & Hr)|]. destruct Hr as [_ Hr].
    eapply saw_weaken; [|exact Hr]. intros d Hd. by left. }
  split_and!.
  - destruct Hsaw as (moments & Em & Hm). exists moments. split; [done|]. intros disk Hd.
    eapply Forall_forall in Hm; [|exact Hd]. destruct Hm as [Ht|(bytes & Eb & ->)].
    + split; [left; by apply Hold|]. intros other _ Ho. by apply Hold.
    + split; [right; exists bytes; by rewrite lookup_insert_eq|]. intros other Ho _. by rewrite lookup_insert_ne.
  - destruct r as [[]|e].
    + destruct Hr as (bytes & Eb & Ef & _). by exists bytes.
    + destruct Hr as [Ht _]. intros other Ho. by apply Hold.
  - intros Hf [bytes Hb]. pose proof (wp_run _ _ _ _ _ _ (atomic_write_succeeds path data w bytes Hf Hb) E) as Hs.
    by destruct r as [[]|e].
Qed.

Lemma saved_bytes `{System} path data w w' :
  fresh_name path (fs_files w) → atomic_write path data w = (Ok tt, w') →
  ∃ bytes, file_bytes data = Some bytes ∧ fs_files w' !! path = Some bytes.
Proof.
  intros Hfresh E. pose proof (wp_run _ _ _ _ _ _ (wp_atomic_write path data w Hfresh) E) as Hr.
  destruct Hr as (bytes & Hb & Hf & _). exists bytes. split; [done|]. rewrite Hf. apply lookup_insert_eq.
Qed.

(** C40: what was saved is loaded again: a session as an equal one (with the
    keys of its transport configurations in order), global settings and the
    runtime cache exactly, none of them migrated and without notices. *)
Theorem documents_read_back `{System} `{Machine} path w w1 w2 :
  fresh_name path (fs_files w) → fs_files w2 = fs_files w1 → fault (fs_calls w2) = None →
  (∀ d, proper_session d → session_save path d w = (Ok tt, w1) →
     ∃ d', (session_load path w2).1 = Ok (mkLoad d' (Some SESSION_SCHEMA_VERSION) false []) ∧
           session_eq d d' = true) ∧
  (∀ g, proper_global g → global_save path g w = (Ok tt, w1) →
     (global_load path w2).1 = Ok (mkLoad g (Some GLOBAL_SETTINGS_SCHEMA_VERSION) false [])) ∧
  (∀ c, proper_cache c → cache_save path c w = (Ok tt, w1) →
     (cache_load path w2).1 = Ok (mkLoad c (Some RUNTIME_CACHE_SCHEMA_VERSION) false [])).
Proof.
  intros Hfresh Hw2 Hf. split_and!.
  - intros d Hd E. destruct (saved_bytes _ _ _ _ Hfresh E) as (bytes & Hb & Hp). rewrite <-Hw2 in Hp.
    exists (sorted_session d). split; [|by apply session_eq_sorted].
    by rewrite (session_load_run path w2 bytes (sorted_session d)) by (done || by apply session_bytes_hold).
  - intros g Hg E. destruct (saved_bytes _ _ _ _ Hfresh E) as (bytes & Hb & Hp). rewrite <-Hw2 in Hp.
    by rewrite (global_load_run path w2 bytes g).
  - intros c Hc E. destruct (saved_bytes _ _ _ _ Hfresh E) as (bytes & Hb & Hp). rewrite <-Hw2 in Hp.
    by rewrite (cache_load_run path w2 bytes c).
Qed.

(** ** An example *)

(** A disk whose call [broken] fails, if any *)
Definition example_system (broken : option nat) : System :=
  mkSystem (λ n, if bool_decide (broken = Some n) then Some (Err OSError (Lit "disk full")) else None)
    (λ _, 3%nat) (λ _ path, path ++ chars ".tmp").
Definition example_machine : Machine := mkMachine Ok (λ p, p) (λ p, p) (λ _, None).
Definition example_path : text := chars "a.session".
Definition example_files : Files := mkFiles {[ example_path := [1; 2] ]} 0 [].

(** A session with keys out of order, a nested object, a number and text
    outside ASCII *)
Definition example_session : SessionDocument :=
  mkSession SESSION_SCHEMA_VERSION (chars "sci_rs232")
    [(chars "usb", JObject []);
     (chars "sci_rs232", JObject [(chars "port", JText [0xE9; 10; 0x1F600]);
                                  (chars "baudrate", JInt 115200);
                                  (chars "gain", JFloat (float_of_decimal false 1 (-1)));
                                  (chars "more", JArray [JNull; JObject [(chars "b", JBool true);
                                                                         (chars "a", JInt (-1))]])])]
    {[ CPU1 := mkTargetSettings CPU1 (chars "C:\app.txt") [] EraseScope.CUSTOM 255 4;
       CPU2 := default_target CPU2 ]}.

Lemma example_session_proper : proper_session example_session.
Proof.
  split.
  - split; [done|done| | |by intros []].
    + constructor; [|constructor; [|constructor]]; (split_and!; [done|by eexists|done]).
    + right. left.
  - intros cpu s Hs. destruct cpu; vm_compute in Hs; by injection Hs as <-.
  - vm_compute. reflexivity.
Qed.

Lemma example_fresh broken : fresh_name (H := example_system broken) example_path (fs_files example_files).
Proof. split; [reflexivity|]. intros E. vm_compute in E. discriminate E. Qed.

(** The seventh call, [os.replace], fails: the file is the old one. *)
Lemma save_replaces_whole_files_witness :
  let w' := (atomic_write (H := example_system (Some 6%nat)) example_path (session_data example_session)
               example_files).2 in
  fs_files w' !! example_path = Some [1; 2].
Proof.
  cbn zeta. pose proof (save_replaces_whole_files (H := example_system (Some 6%nat)) example_path
    (session_data example_session) example_files _ _ (example_fresh _)
    (surjective_pairing _)) as (_ & Hr & _).
  revert Hr. destruct (atomic_write _ _ _) as [[u|e] w'] eqn:E.
  - exfalso. apply (f_equal (λ p, is_ok p.1)) in E. vm_compute in E. discriminate E.
  - intros Hr. cbn [snd] in *. rewrite Hr; [reflexivity|discriminate].
Defined.

Lemma documents_read_back_witness :
  let w1 := (session_save (H := example_system None) example_path example_session example_files).2 in
  ∃ d, (session_load (H := example_system None) example_path w1).1 =
         Ok (mkLoad d (Some SESSION_SCHEMA_VERSION) false []) ∧ session_eq example_session d = true.
Proof.
  cbn zeta. set (w1 := snd _).
  destruct (documents_read_back (H := example_system None) (H0 := example_machine) example_path
    example_files w1 w1 (example_fresh _) eq_refl eq_refl) as (Hs & _).
  apply Hs; [apply example_session_proper|]. unfold w1.
  destruct (session_save _ _ _) as [[[]|e] w'] eqn:E; [reflexivity|].
  exfalso. apply (f_equal (λ p, is_ok p.1)) in E. vm_compute in E. discriminate E.
Defined.
