(* ===== verification/SessionService.v ===== *)
(** * The session of the GUI and its file (gui/session_application_service.py)

    [SessionApplicationService] keeps the open session, the document it was last
    read or written as, and the cache of recent sessions.  The methods run on
    the world of the service: its fields and the files of Persistence.  In every
    execution, and whichever calls of the operating system fail, a session that
    is shown as unchanged is what its file holds, and the cache stays in
    order. *)

From S2P Require Import Prelude.
From S2P Require Import Errors.
From S2P Require Import Messages.
From S2P Require Import RuntimeModels.
From S2P Require Import Json.
From S2P Require Import Persistence.

(** ** Data *)

Record SessionSwitchCandidate : Type := mkCandidate {
  sw_document : SessionDocument;
  sw_path : option text;
  sw_display_name : text;
}.

Definition SessionSwitchCandidate_post_init (c : SessionSwitchCandidate) : Res SessionSwitchCandidate :=
  fail (value_error "display_name must be a non-empty string" []) when bool_decide (sw_display_name c = []) ;;
  Ok c.

Record SessionApplicationState : Type := mkAppState {
  sa_document : SessionDocument;
  sa_path : option text;
  sa_is_dirty : bool;
  sa_display_name : text;
}.

Definition SessionApplicationState_post_init (s : SessionApplicationState) : Res SessionApplicationState :=
  fail (value_error "display_name must be a non-empty string" []) when bool_decide (sa_display_name s = []) ;;
  Ok s.

Record SessionSaveResult : Type := mkSaveResult {
  sr_state : SessionApplicationState;
  sr_warnings : list Msg;
}.

(** The fields of the service, the files, and how often the clock was read *)
Record Service : Type := mkService {
  sv_state : SessionApplicationState;
  sv_baseline : SessionDocument;
  sv_runtime_cache : RuntimeCacheDocument;
  sv_startup_warnings : list Msg;
  sv_files : Files;
  sv_ticks : nat;
}.

Definition with_app_state (v : SessionApplicationState) (s : Service) : Service :=
  mkService v (sv_baseline s) (sv_runtime_cache s) (sv_startup_warnings s) (sv_files s) (sv_ticks s).
Definition with_baseline (v : SessionDocument) (s : Service) : Service :=
  mkService (sv_state s) v (sv_runtime_cache s) (sv_startup_warnings s) (sv_files s) (sv_ticks s).
Definition with_runtime_cache (v : RuntimeCacheDocument) (s : Service) : Service :=
  mkService (sv_state s) (sv_baseline s) v (sv_startup_warnings s) (sv_files s) (sv_ticks s).
Definition with_files (v : Files) (s : Service) : Service :=
  mkService (sv_state s) (sv_baseline s) (sv_runtime_cache s) (sv_startup_warnings s) v (sv_ticks s).
Definition with_ticks (v : nat) (s : Service) : Service :=
  mkService (sv_state s) (sv_baseline s) (sv_runtime_cache s) (sv_startup_warnings s) (sv_files s) v.

Section service.
Context `{System} `{Machine}.
Context (cache_path : text).                 (* of the RuntimeCacheStore *)
Context (utc_clock : nat → Res DateTime).    (* the answers of the clock *)

(** A call of a store *)
Definition on_files {A} (m : ST Files A) : ST Service A :=
  λ s, match m (sv_files s) with (r, files) => (r, with_files files s) end.

Definition clock : ST Service DateTime :=
  λ s, (utc_clock (sv_ticks s), with_ticks (S (sv_ticks s)) s).

Definition untitled : text := chars "Untitled".

(** ** Construction *)

(** [__init__]: only a PersistenceError of the cache is a warning. *)
Definition service_init (files : Files) : Res Service * Files :=
  let start cache warnings files :=
    mkService (mkAppState new_session None false untitled) new_session cache warnings files 0 in
  match cache_load cache_path files with
  | (Ok loaded, files) => (Ok (start (dl_document loaded) [] files), files)
  | (Raise exc, files) =>
      if isinstance exc PersistenceError
      then (Ok (start empty_cache [exn_str exc] files), files)
      else (Raise exc, files)
  end.

(** ** Switching *)

Definition prepare_new_untitled : ST Service SessionSwitchCandidate :=
  lift (SessionSwitchCandidate_post_init (mkCandidate new_session None untitled)).

Definition prepare_open (path : text) : ST Service SessionSwitchCandidate :=
  normalized <- lift (resolve path) ;;
  loaded <- on_files (session_load normalized) ;;
  lift (SessionSwitchCandidate_post_init
          (mkCandidate (dl_document loaded) (Some normalized) (path_name normalized))).

Definition commit_switch (candidate : SessionSwitchCandidate) : ST Service SessionApplicationState :=
  modify (with_baseline (sw_document candidate)) ;;;
  state <- lift (SessionApplicationState_post_init
                   (mkAppState (sw_document candidate) (sw_path candidate) false (sw_display_name candidate))) ;;
  modify (with_app_state state) ;;; ret state.

Definition new_untitled : ST Service SessionApplicationState :=
  candidate <- prepare_new_untitled ;; commit_switch candidate.

Definition open (path : text) : ST Service SessionApplicationState :=
  candidate <- prepare_open path ;; commit_switch candidate.

(** ** Editing and saving *)

Definition replace_document (document : SessionDocument) : ST Service SessionApplicationState :=
  s <- get ;;
  state <- lift (SessionApplicationState_post_init
                   (mkAppState document (sa_path (sv_state s))
                      (negb (session_eq document (sv_baseline s))) (sa_display_name (sv_state s)))) ;;
  modify (with_app_state state) ;;; ret state.

(** The [try] of [_save_to]: the warnings *)
Definition note_recent (path : text) : ST Service (list Msg) :=
  catch (s <- get ;;
         now <- clock ;;
         candidate <- lift (with_recent_session path now (sv_runtime_cache s)) ;;
         on_files (cache_save cache_path candidate) ;;;
         modify (with_runtime_cache candidate) ;;;
         ret [])
        (λ exc, ret [Prefixed "Runtime Cache update failed: " (exn_str exc)]).

Definition save_to (path : text) : ST Service SessionSaveResult :=
  s <- get ;;
  let document := sa_document (sv_state s) in
  on_files (session_save path document) ;;;
  modify (with_baseline document) ;;;
  state <- lift (SessionApplicationState_post_init (mkAppState document (Some path) false (path_name path))) ;;
  modify (with_app_state state) ;;;
  warnings <- note_recent path ;;
  s <- get ;;
  ret (mkSaveResult (sv_state s) warnings).

Definition save : ST Service SessionSaveResult :=
  s <- get ;;
  match sa_path (sv_state s) with
  | None => raise (Err SessionPathRequiredError (Lit "Untitled Session requires save_as(path)"))
  | Some path => save_to path
  end.

Definition save_as (path : text) : ST Service SessionSaveResult :=
  normalized <- lift (resolve path) ;; save_to normalized.

(** ** Recent sessions *)

Definition recent_sessions (s : Service) : list RecentSessionEntry :=
  rc_recent_sessions (sv_runtime_cache s).

Definition remove_recent_session (path : text) : ST Service (list RecentSessionEntry) :=
  s <- get ;;
  candidate <- lift (without_recent_session path (sv_runtime_cache s)) ;;
  on_files (cache_save cache_path candidate) ;;;
  modify (with_runtime_cache candidate) ;;;
  ret (rc_recent_sessions candidate).

(** ** Executions *)

Inductive Call : Type :=
| New
| Open (path : text)
| Edit (document : SessionDocument)
| Save
| SaveAs (path : text)
| RemoveRecent (path : text).

(** The world after a call, whether it has returned or raised *)
Definition call (c : Call) (s : Service) : Service :=
  match c with
  | New => (new_untitled s).2
  | Open path => (open path s).2
  | Edit document => (replace_document document s).2
  | Save => (save s).2
  | SaveAs path => (save_as path s).2
  | RemoveRecent path => (remove_recent_session path s).2
  end.
End service.

(** * The invariant of the service *)

Section invariant.
Context `{System} `{Machine}.
Context (cache_path : text) (utc_clock : nat → Res DateTime).
Context (Hfresh : ∀ path files, fresh_name path files).

(** The file at [path] is loaded as the document [d]. *)
Definition on_disk (files : gmap text (list Z)) (path : text) (d : SessionDocument) : Prop :=
  ∃ bytes, files !! path = Some bytes ∧ holds_session path bytes d.

Record service_ok (s : Service) : Prop := {
  so_recents : recents_ok (recent_sessions s);
  so_document : proper_session (sa_document (sv_state s));
  so_clean : sa_is_dirty (sv_state s) = false →
             sa_document (sv_state s) = sv_baseline s ∨
             session_eq (sa_document (sv_state s)) (sv_baseline s) = true;
  so_file : ∀ path, sa_path (sv_state s) = Some path → path ≠ cache_path →
            on_disk (fs_files (sv_files s)) path (sv_baseline s) ∨
            session_texts (sv_baseline s) = true ∧
            on_disk (fs_files (sv_files s)) path (sorted_session (sv_baseline s));
}.

(** Whatever becomes of the disk, [path] keeps its file. *)
Definition keeps_file (path : text) (old new : gmap text (list Z)) : Prop :=
  ∀ bytes, old !! path = Some bytes → new !! path = Some bytes.

Lemma on_disk_keeps path d old new : keeps_file path old new → on_disk old path d → on_disk new path d.
Proof. intros Hk (bytes & Hb & Hh). exists bytes. by split; [apply Hk|]. Qed.

Lemma only_temporary_keeps p path old new :
  only_temporary old (temporary_name old path) new → keeps_file p old new.
Proof.
  intros [->|[b ->]] bytes Hb; [done|]. destruct (Hfresh path old) as [Hn _].
  by rewrite lookup_insert_ne by congruence.
Qed.

Lemma insert_keeps (p path : text) (bytes : list Z) old : p ≠ path → keeps_file p old (<[path := bytes]> old).
Proof. intros Hp b Hb. by rewrite lookup_insert_ne. Qed.

(** A service that differs in its files only *)
Lemma service_ok_files s files :
  service_ok s →
  (∀ path, sa_path (sv_state s) = Some path → path ≠ cache_path →
           keeps_file path (fs_files (sv_files s)) (fs_files files)) →
  service_ok (with_files files s).
Proof.
  intros [H1 H2 H3 H4] Hk. split; [done|done|done|]. intros path Hp Hc. cbn in *.
  destruct (H4 path Hp Hc) as [Hd|[Ht Hd]]; [left|right; split; [done|]];
    (eapply on_disk_keeps; [by apply Hk|done]).
Qed.

Lemma service_ok_ticks s n : service_ok s → service_ok (with_ticks n s).
Proof. intros [H1 H2 H3 H4]. by split. Qed.

Lemma service_ok_cache s c :
  service_ok s → recents_ok (rc_recent_sessions c) → service_ok (with_runtime_cache c s).
Proof. intros [H1 H2 H3 H4] Hc. by split. Qed.

Lemma wp_on_files {A} (m : ST Files A) Q E s :
  wp m (λ a files, Q a (with_files files s)) (λ e files, E e (with_files files s)) (sv_files s) →
  wp (on_files m) Q E s.
Proof. unfold wp, on_files. by destruct (m (sv_files s)) as [[a|e] files]. Qed.

(** Saving the cache *)
Lemma wp_cache_save_ok c s :
  service_ok s →
  wp (on_files (cache_save cache_path c)) (λ _, service_ok) (λ _, service_ok) s.
Proof.
  intros Hs. apply wp_on_files. eapply wp_conseq; [by apply wp_atomic_write| |].
  - intros [] files (bytes & _ & E & _). apply service_ok_files; [done|]. intros path _ Hc. rewrite E.
    by apply insert_keeps.
  - intros e files [Ht _]. apply service_ok_files; [done|]. intros path _ _.
    by eapply only_temporary_keeps.
Qed.

Lemma new_cache_ok entries c : new_cache entries = Ok c → recents_ok (rc_recent_sessions c).
Proof.
  unfold new_cache, RuntimeCacheDocument_post_init. cbn [rc_schema_version rc_recent_sessions].
  rewrite Z.eqb_refl. cbn [negb]. intros [= <-]. cbn [rc_recent_sessions]. apply keep_recent_spec.
Qed.

Lemma with_recent_ok path now c c' :
  with_recent_session path now c = Ok c' → recents_ok (rc_recent_sessions c').
Proof. unfold with_recent_session. destruct (RecentSessionEntry_post_init _); [|done]. apply new_cache_ok. Qed.

Lemma without_recent_ok path c c' :
  without_recent_session path c = Ok c' → recents_ok (rc_recent_sessions c').
Proof. unfold without_recent_session. destruct (resolve _); [|done]. apply new_cache_ok. Qed.

Lemma wp_note_recent path s :
  service_ok s →
  wp (note_recent cache_path utc_clock path) (λ _, service_ok) (λ _, service_ok) s.
Proof.
  intros Hs. apply wp_catch.
  apply (wp_conseq _ (λ _, service_ok) _ (λ _, service_ok)); [|done|by intros].
  apply wp_bind, wp_get, wp_bind.
  apply (wp_conseq _ (λ _, service_ok) _ (λ _, service_ok));
    [unfold wp, clock; destruct (utc_clock _); by apply service_ok_ticks| |done].
  intros now s1 H1. apply wp_bind, wp_lift; [|done]. intros c Hc. apply wp_bind.
  eapply wp_conseq; [by apply wp_cache_save_ok| |done]. intros [] s2 H2.
  apply wp_bind, wp_modify, wp_ret. apply service_ok_cache; [done|]. by eapply with_recent_ok.
Qed.

Lemma wp_remove_recent path s :
  service_ok s → wp (remove_recent_session cache_path path) (λ _, service_ok) (λ _, service_ok) s.
Proof.
  intros Hs. apply wp_bind, wp_get, wp_bind, wp_lift; [|done]. intros c Hc. apply wp_bind.
  eapply wp_conseq; [by apply wp_cache_save_ok| |done]. intros [] s2 H2.
  apply wp_bind, wp_modify, wp_ret. apply service_ok_cache; [done|]. by eapply without_recent_ok.
Qed.

(** Saving the session *)
Lemma wp_save_to path s :
  service_ok s → path_name path ≠ [] →
  wp (save_to cache_path utc_clock path) (λ _, service_ok) (λ _, service_ok) s.
Proof.
  intros Hs Hname. apply wp_bind, wp_get, wp_bind, wp_on_files.
  eapply wp_conseq; [by apply wp_atomic_write| |].
  2: { intros e files [Ht _]. apply service_ok_files; [done|]. intros p _ _. by eapply only_temporary_keeps. }
  intros [] files (bytes & Hb & E & _). apply wp_bind, wp_modify, wp_bind.
  assert (Hst : SessionApplicationState_post_init
            (mkAppState (sa_document (sv_state s)) (Some path) false (path_name path)) =
          Ok (mkAppState (sa_document (sv_state s)) (Some path) false (path_name path))).
  { unfold SessionApplicationState_post_init. by rewrite bool_decide_eq_false_2. }
  rewrite Hst. apply wp_lift; [|done]. intros state [= <-]. apply wp_bind, wp_modify, wp_bind.
  destruct Hs as [H1 H2 H3 H4].
  eapply wp_conseq; [apply wp_note_recent| |done].
  - split; [done|done|by left|]. cbn. intros p [= <-] _. right. split; [by apply (ps_texts _ H2)|].
    exists bytes. rewrite E. split; [apply lookup_insert_eq|]. by apply session_bytes_hold.
  - intros w s' Hs'. by apply wp_bind, wp_get, wp_ret.
Qed.

Lemma as_format_error_ok {A} path what (r : Res A) a : as_format_error path what r = Ok a → r = Ok a.
Proof. destruct r as [b|e]; cbn; [done|]. by destruct (_ || _). Qed.

Lemma target_post_init_same s s' : TargetSessionSettings_post_init s = Ok s' → s' = s.
Proof.
  unfold TargetSessionSettings_post_init, non_negative_int.
  destruct (_ <? 0); [done|]. destruct (_ <? 0); [done|]. by intros [= <-].
Qed.

Lemma parse_target_checked path targets cpu s :
  parse_target path targets cpu = Ok s → TargetSessionSettings_post_init s = Ok s.
Proof.
  unfold parse_target. intros E.
  repeat match type of E with
  | (match ?m with Ok _ => _ | Raise _ => _ end) = Ok s => destruct m as [?|?]; [|discriminate E]
  | (let '(_, _) := ?p in _) = Ok s => destruct p
  end.
  apply as_format_error_ok in E.
  repeat match type of E with
  | (match ?m with Ok _ => _ | Raise _ => _ end) = Ok s => destruct m as [?|?]; [|discriminate E]
  end.
  pose proof (target_post_init_same _ _ E) as ->. exact E.
Qed.

(** A document that was loaded has been checked. *)
Lemma holds_session_checked path bytes d :
  holds_session path bytes d →
  session_checked d ∧ ∀ cpu s, sd_target_settings d !! cpu = Some s → TargetSessionSettings_post_init s = Ok s.
Proof.
  intros (items & _ & E). unfold parse_session in E.
  repeat match type of E with
  | (match parse_target _ _ _ with Ok _ => _ | Raise _ => _ end) = _ => fail 1
  | (match ?m with Ok _ => _ | Raise _ => _ end) = Ok d => destruct m as [?|?]; [|discriminate E]
  | (if ?b then Raise _ else _) = Ok d => destruct b; [discriminate E|]
  end.
  destruct (parse_target _ _ CPU1) as [s1|] eqn:E1; [|done].
  destruct (parse_target _ _ CPU2) as [s2|] eqn:E2; [|done].
  apply as_format_error_ok, session_post_init_inv in E as [-> Hc]. split; [done|].
  cbn [sd_target_settings]. intros [] s Hs; simplify_map_eq; by eapply parse_target_checked.
Qed.

Lemma wp_save s :
  service_ok s → (∀ path, sa_path (sv_state s) = Some path → path_name path ≠ []) →
  wp (save cache_path utc_clock) (λ _, service_ok) (λ _, service_ok) s.
Proof.
  intros Hs Hname. apply wp_bind, wp_get. destruct (sa_path (sv_state s)) as [path|] eqn:E; [|done].
  apply wp_save_to; [done|by apply Hname].
Qed.

Lemma wp_save_as path s :
  service_ok s → (∀ q, resolve path = Ok q → path_name q ≠ []) →
  wp (save_as cache_path utc_clock path) (λ _, service_ok) (λ _, service_ok) s.
Proof.
  intros Hs Hname. apply wp_bind, wp_lift; [|done]. intros q Hq. apply wp_save_to; [done|by apply Hname].
Qed.

Lemma wp_edit document s :
  service_ok s → proper_session document →
  wp (replace_document document) (λ _, service_ok) (λ _, service_ok) s.
Proof.
  intros Hs Hd. apply wp_bind, wp_get, wp_bind, wp_lift; [|done]. intros state Hst.
  unfold SessionApplicationState_post_init in Hst. case_bool_decide; [done|]. injection Hst as <-.
  apply wp_bind, wp_modify, wp_ret. destruct Hs as [S1 S2 S3 S4]. split; [done|done| |done].
  cbn. rewrite negb_false_iff. by right.
Qed.

(** Committing a candidate that is on the disk *)
Lemma wp_commit_switch c s :
  service_ok s → proper_session (sw_document c) → sw_display_name c ≠ [] →
  (∀ path, sw_path c = Some path → on_disk (fs_files (sv_files s)) path (sw_document c)) →
  wp (commit_switch c) (λ _, service_ok) (λ _, service_ok) s.
Proof.
  intros [H1 H2 H3 H4] Hd Hn Hp. apply wp_bind, wp_modify, wp_bind.
  assert (Hst : SessionApplicationState_post_init
            (mkAppState (sw_document c) (sw_path c) false (sw_display_name c)) =
          Ok (mkAppState (sw_document c) (sw_path c) false (sw_display_name c))).
  { unfold SessionApplicationState_post_init. by rewrite bool_decide_eq_false_2. }
  rewrite Hst. apply wp_lift; [|done]. intros state [= <-]. apply wp_bind, wp_modify, wp_ret.
  split; [done|done|by left|]. intros path E _. left. by apply Hp.
Qed.

Lemma new_session_proper : proper_session new_session.
Proof.
  split.
  - split; [done|done| | |by intros []].
    + constructor; [|constructor]. split_and!; [done|by eexists|done].
    + left.
  - intros cpu s Hs. destruct cpu; vm_compute in Hs; by injection Hs as <-.
  - done.
Qed.

Lemma wp_new_untitled s :
  service_ok s → wp new_untitled (λ _, service_ok) (λ _, service_ok) s.
Proof.
  intros Hs. apply wp_bind, wp_lift; [|done]. intros c [= <-].
  by apply wp_commit_switch; [|apply new_session_proper| |].
Qed.

Lemma wp_open path s :
  service_ok s →
  wp (open path) (λ _ s', session_texts (sa_document (sv_state s')) = true → service_ok s')
                 (λ _, service_ok) s.
Proof.
  intros Hs. unfold open, prepare_open. apply wp_bind, wp_bind, wp_lift; [|done]. intros q Hq.
  apply wp_bind, wp_on_files. eapply wp_conseq; [apply wp_session_load| |].
  2: { intros e files E. apply service_ok_files; [done|]. intros p _ _ b Hb. by rewrite E. }
  intros loaded files [E (bytes & Hb & Hh)].
  assert (Hs' : service_ok (with_files files s)).
  { apply service_ok_files; [done|]. intros p _ _ b Hb'. by rewrite E. }
  apply wp_lift; [|done]. unfold SessionSwitchCandidate_post_init. case_bool_decide as Hn; [done|].
  intros c [= <-]. destruct (holds_session_checked _ _ _ Hh) as [Hc Hm].
  destruct (session_texts (dl_document loaded)) eqn:Ht.
  - eapply wp_conseq; [apply wp_commit_switch; [exact Hs'|by split|done|]|done|done].
    cbn. intros p [= <-]. exists bytes. by rewrite E.
  - unfold commit_switch, wp, bind, modify, lift, SessionApplicationState_post_init. cbn -[session_texts].
    rewrite bool_decide_eq_false_2 by done. cbn -[session_texts]. by rewrite Ht.
Qed.

(** ** Reachable states *)

(** The paths that are saved to name a file. *)
Definition names_file (c : Call) (s : Service) : Prop :=
  match c with
  | Save => ∀ path, sa_path (sv_state s) = Some path → path_name path ≠ []
  | SaveAs path => ∀ q, resolve path = Ok q → path_name q ≠ []
  | _ => True
  end.

(** What runs from the start of the GUI: calls with documents that the program
    has constructed, and changes of other files by other programs.  A session
    that is opened has texts of characters and numbers that read back. *)
Inductive reachable : Service → Prop :=
| reachable_start files s files' :
    service_init cache_path files = (Ok s, files') → reachable s
| reachable_call c s :
    reachable s → names_file c s → (∀ d, c = Edit d → proper_session d) →
    session_texts (sa_document (sv_state (call cache_path utc_clock c s))) = true →
    reachable (call cache_path utc_clock c s)
| reachable_outside files s :
    reachable s →
    (∀ path, sa_path (sv_state s) = Some path → fs_files files !! path = fs_files (sv_files s) !! path) →
    reachable (with_files files s).

Lemma cache_load_ok path w r w' :
  cache_load path w = (Ok r, w') → recents_ok (rc_recent_sessions (dl_document r)).
Proof.
  unfold cache_load, bind. destruct (load_object path true w) as [[[data|]|e] w1]; [| |done].
  - unfold lift, ret. destruct (parse_cache path data) as [c|] eqn:E; [|done]. intros [= <- _]. cbn.
    unfold parse_cache in E.
    destruct (schema _ _ _ _) as [v|]; [|done]. destruct (exact_fields _ _ _ _) as [[]|]; [|done].
    destruct (field _ _) as [v'|]; [|done]. destruct v'; try done.
    destruct (mapR _ _) as [entries|]; [|done]. by apply new_cache_ok in E.
  - intros [= <- _]. split_and!; [constructor|constructor|cbn; lia].
Qed.

Lemma service_init_ok files s files' : service_init cache_path files = (Ok s, files') → service_ok s.
Proof.
  unfold service_init. destruct (cache_load cache_path files) as [[loaded|exc] w] eqn:E.
  - intros [= <- _]. split; [by eapply cache_load_ok|by apply new_session_proper|by left|done].
  - destruct (isinstance _ _); [|done]. intros [= <- _].
    split; [split_and!; [constructor|constructor|cbn; lia]|by apply new_session_proper|by left|done].
Qed.

(** The world after a call with the same promise whether it returns or raises *)
Lemma wp_after {A} (m : ST Service A) P s : wp m (λ _, P) (λ _, P) s → P (m s).2.
Proof. unfold wp. by destruct (m s) as [[a|e] s']. Qed.

Lemma reachable_ok s : reachable s → service_ok s.
Proof.
  induction 1 as [files s files' E|c s Hr IH Hn Hd Ht|files s Hr IH Hf].
  - by eapply service_init_ok.
  - destruct c as [|path|d| |path|path]; cbn [call names_file] in *.
    + by apply wp_after, wp_new_untitled.
    + revert Ht. apply (wp_after _ (λ s', session_texts (sa_document (sv_state s')) = true → service_ok s')).
      by eapply wp_conseq; [apply wp_open| |].
    + by apply wp_after, wp_edit; [|apply Hd].
    + by apply wp_after, wp_save.
    + by apply wp_after, wp_save_as.
    + by apply wp_after, wp_remove_recent.
  - apply service_ok_files; [done|]. intros path Hp _ b Hb. by rewrite Hf.
Qed.

(** C38: in every state of the GUI's session, after any calls and whichever
    calls of the operating system failed: a session that is shown as unchanged
    and has a file is what loading that file gives (the same document, or an
    equal one); and the recent sessions are at most ten, one for each path,
    the latest first. *)
Theorem clean_session_is_on_disk s :
  reachable s →
  (∀ path w, sa_is_dirty (sv_state s) = false → sa_path (sv_state s) = Some path → path ≠ cache_path →
     fs_files w = fs_files (sv_files s) → fault (fs_calls w) = None →
     ∃ d, (session_load path w).1 = Ok (mkLoad d (Some SESSION_SCHEMA_VERSION) false []) ∧
          (d = sa_document (sv_state s) ∨ session_eq (sa_document (sv_state s)) d = true)) ∧
  NoDup (map entry_key (recent_sessions s)) ∧
  StronglySorted (λ e x, later (re_last_saved_at_utc x) (re_last_saved_at_utc e) = false) (recent_sessions s) ∧
  (length (recent_sessions s) <= 10)%nat.
Proof.
  intros Hr. pose proof (reachable_ok s Hr) as Hs. split; [|apply (so_recents _ Hs)].
  intros path w Hd Hp Hc Hw Hf. pose proof (so_clean _ Hs Hd) as He.
  destruct (so_file _ Hs path Hp Hc) as [(bytes & Hb & Hh)|(Ht & bytes & Hb & Hh)];
    rewrite <-Hw in Hb; eexists; (split; [by rewrite (session_load_run path w bytes _ Hf Hb Hh)|]).
  - destruct He as [->|He]; [by left|by right].
  - right. destruct He as [He|He]; [|by apply session_eq_sorted_r].
    rewrite <-He. by apply session_eq_sorted, so_document.
Qed.
End invariant.

(** ** An example *)

(** A name that is longer than all names in use *)
Definition longer_name (files : gmap text (list Z)) (path : text) : text :=
  replicate (S (max (length path) (foldr (λ kv n, max (length kv.1) n) 0%nat (map_to_list files)))) 116.

Definition example_disk : System := mkSystem (λ _, None) (λ _, 0%nat) longer_name.

Lemma example_disk_fresh path files : fresh_name (H := example_disk) path files.
Proof.
  split.
  - destruct (files !! temporary_name files path) as [b|] eqn:E; [|done]. exfalso.
    apply elem_of_map_to_list in E. revert E. cbn [temporary_name example_disk]. unfold longer_name.
    set (name := replicate _ _). assert (Hl : length name = S (max (length path)
      (foldr (λ kv n, max (length kv.1) n) 0%nat (map_to_list files)))) by apply length_replicate.
    clearbody name. revert Hl. generalize (length path). generalize (map_to_list files) as l.
    induction l as [|kv l IH]; intros n Hl Hin; [by apply not_elem_of_nil in Hin|].
    cbn in Hl. apply elem_of_cons in Hin as [<-|Hin]; cbn in *; [lia|].
    by apply (IH (max n (length kv.1))); [lia|].
  - intros E. apply (f_equal length) in E. cbn [temporary_name example_disk] in E. unfold longer_name in E.
    rewrite length_replicate in E. lia.
Qed.

Definition example_clock (_ : nat) : Res DateTime := Ok (mkDateTime 2024 2 29 12 0 0 0 (Some 0)).
Definition example_cache : text := chars "cache.json".

(** The session of Persistence's example, entered and saved *)
Definition example_calls : list Call := [Edit example_session; SaveAs example_path].
Definition example_start : Service :=
  match (service_init (H := example_disk) (H0 := example_machine) example_cache (mkFiles ∅ 0 [])).1 with
  | Ok s => s
  | Raise _ => mkService (mkAppState new_session None false []) new_session empty_cache [] (mkFiles ∅ 0 []) 0
  end.
Definition example_service : Service :=
  foldl (λ s c, call (H := example_disk) (H0 := example_machine) example_cache example_clock c s)
    example_start example_calls.

Lemma example_reachable :
  reachable (H := example_disk) (H0 := example_machine) example_cache example_clock example_service.
Proof.
  unfold example_service, example_calls. cbn [foldl]. apply reachable_call; [apply reachable_call| | |].
  - unfold example_start. destruct (service_init _ _) as [[s|e] files] eqn:E; [by eapply reachable_start|].
    exfalso. apply (f_equal (λ p, is_ok p.1)) in E. vm_compute in E. discriminate E.
  - exact I.
  - intros d [= <-]. apply example_session_proper.
  - vm_compute. reflexivity.
  - intros q [= <-]. discriminate.
  - discriminate.
  - vm_compute. reflexivity.
Qed.

Lemma clean_session_is_on_disk_witness :
  ∃ d, (session_load (H := example_disk) example_path (sv_files example_service)).1 =
         Ok (mkLoad d (Some SESSION_SCHEMA_VERSION) false []) ∧
       (d = sa_document (sv_state example_service) ∨
        session_eq (sa_document (sv_state example_service)) d = true).
Proof.
  destruct (clean_session_is_on_disk (H := example_disk) (H0 := example_machine) example_cache example_clock
    example_disk_fresh example_service example_reachable) as [Hs _].
  apply Hs; [vm_compute; reflexivity|vm_compute; reflexivity|discriminate|reflexivity|reflexivity].
Defined.

(** ** A cache that stops the start *)

(** A machine that does not know the home directory of a [~user] path *)
Definition no_home : Machine :=
  mkMachine (λ _, Raise (Err RuntimeError (Lit "Could not determine home directory."))) (λ p, p) (λ p, p)
    (λ _, None).
Definition cache_with_home : RuntimeCacheDocument :=
  mkCache RUNTIME_CACHE_SCHEMA_VERSION
    [mkRecent (chars "~user/a.session") (mkDateTime 2024 2 29 12 0 0 0 (Some 0))].

(** [_parse_cache] lets the RuntimeError of [expanduser] through, and the
    construction of the service expects a PersistenceError only. *)
Lemma unknown_home_stops_start :
  match file_bytes (cache_data cache_with_home) with
  | Some bytes =>
      is_ok (service_init (H := example_disk) (H0 := no_home) example_cache
               (mkFiles {[ example_cache := bytes ]} 0 [])).1
  | None => true
  end = false.
Proof. vm_compute. reflexivity. Qed.
