(* ===== verification/Backend.v ===== *)
(** * The runtime backend: its state and its surroundings
      (gui/runtime_backend.py)

    [RuntimeBackend] owns the connection: the transport, the session, the
    identity of the target, the command executor and the runtime state store.
    Its state is a record with a field per attribute.  What is injected into
    its constructor is the class [Ports], a field per injected callable: each
    is a computation on an environment [E] of its own, which holds the wires,
    the files, the clock and the listeners.  Sessions and transports are
    opaque handles that can be compared.  The images that operations take and
    return, results, requests and events are the models of their own files.

    [be_locked] is [self._lock]; [self._image_lock] guards single reads and
    writes that never overlap here and is left out. *)

From stdpp Require Import gmap.
From S2P Require Import Prelude.
From S2P Require Import Errors.
From S2P Require Import Messages.
From S2P Require Import TaskPlans.
From S2P Require Import Models.
From S2P Require Import Targets.
From S2P Require Import BootClient.
From S2P Require Import OperationResults.
From S2P Require Import RamOps.
From S2P Require Import RuntimeValues.
From S2P Require Import RuntimeModels.
From S2P Require Import CommandExecutor.
From S2P Require Import ImageRequests.
From S2P Require Import OperationRequests.
From S2P Require Import TaskModels.
From S2P Require Import RuntimeStore.
From S2P Require Import RuntimeDispatch.

(** ** The surroundings *)

(** A resource that can be closed. *)
Inductive Resource (Session Transport : Type) : Type :=
| SessionResource (session : Session)
| TransportResource (transport : Transport).
Arguments SessionResource {Session Transport}.
Arguments TransportResource {Session Transport}.

(** The methods of [ConnectionMaintenanceScheduler]. *)
Module MaintenanceHook.
Inductive MaintenanceHook_t : Set :=
| connection_opened | foreground_command_started | foreground_command_finished
| protocol_activity | connection_closed.
End MaintenanceHook.
Abbreviation MaintenanceHook := MaintenanceHook.MaintenanceHook_t.

(** [AppResourceProvider]: a value that is not a Path is [None]. *)
Record AppResourceProvider (E : Type) : Type := mkProvider {
  ap_id : Z;
  ap_class_name : string;
  ap_flash_service_image_path : ST E (option string);
  ap_flash_service_map_path : ST E (option string);
}.
Arguments mkProvider {E}.
Arguments ap_id {E}.
Arguments ap_class_name {E}.
Arguments ap_flash_service_image_path {E}.
Arguments ap_flash_service_map_path {E}.

(** [os.stat_result], what [_fingerprint] reads of it. *)
Record FileStat : Set := mkStat {
  fs_regular : bool;
  fs_size : Z;
  fs_mtime_ns : Z;
}.

(** An operation with a progress callback runs beside the last update that the
    callback made ([last_update], a variable of the caller). *)
Record OpEnv (E : Type) : Type := mkOpEnv {
  oe_env : E;
  oe_last_update : option TaskProgressUpdate;
}.
Arguments mkOpEnv {E}.
Arguments oe_env {E}.
Arguments oe_last_update {E}.

Definition Callback (E : Type) : Type := ProgressEvent → ST (OpEnv E) unit.

(** The requests of the Flash operations and of the appends. *)
Inductive FlashCall : Type :=
| EraseImageArea (image : PreparedFlashImage)
| EraseSectors (sector_mask : Z)
| ProgramImage (image : PreparedFlashImage)
| VerifyImage (image : PreparedFlashImage).

Inductive AppendCall : Type :=
| AppendImageValid (image : PreparedFlashImage)
| AppendBootAttempt
| AppendAppConfirmed.

(** What an operation returned: a result, None, or an object of another class. *)
Inductive Returned : Type :=
| ReturnedResult (result : OperationResult)
| ReturnedNone
| ReturnedOther.

Definition returned_result (r : Returned) : option OperationResult :=
  match r with ReturnedResult result => Some result | ReturnedNone | ReturnedOther => None end.

(** The arguments of the constructor of [RuntimeBackend], and the functions of
    the standard library and of the file system that it calls.  A value of a
    class that the backend rejects is [None]; only for [metadata_operation] it
    makes a difference whether that value is Python's None. *)
Class Ports (E Session Transport : Type) : Type := {
  transport_factory : SerialConnectRequest → ST E Transport;
  session_factory : Transport → ST E Session;
  session_connect : Session → option (ST E bool) → ST E (option TransportOpenResult);
  session_ping : Session → ST E unit;
  session_transport : Session → option Transport;
  close_method : Resource Session Transport → option (ST E unit);
  discovery_operation : Session → ST E (option TargetDiscoveryOutcome);
  uuid4_hex : ST E string;
  now_utc : ST E datetime;
  maintenance_clock : ST E datetime;
  maintenance_scheduler : MaintenanceHook → ConnectionGeneration → ST E unit;
  device_info_operation : Session → TargetProfile → ST E (option OperationResult);
  protocol_info_operation : Session → TargetProfile → ST E (option OperationResult);
  last_error_operation : Session → TargetProfile → ST E (option OperationResult);
  metadata_operation : Session → TargetProfile → ST E Returned;
  memory_read_operation : Session → TargetProfile → Callback E → option (ST E bool) →
    MemoryReadRequest → ST (OpEnv E) (option OperationResult);
  target_profile_resolver : string → ST E (option TargetProfile);
  prepare_ram_operation : string → TargetProfile → option (string * string) →
    ST E (option PreparedRamImage);
  load_ram_operation : Session → TargetProfile → Callback E → option (ST E bool) →
    PreparedRamImage → ST (OpEnv E) (option OperationResult);
  check_ram_crc_operation : Session → TargetProfile → PreparedRamImage →
    ST E (option OperationResult);
  run_ram_operation : Session → TargetProfile → Z → ST E (option OperationResult);
  run_flash_operation : Session → TargetProfile → Z → ST E (option OperationResult);
  flash_operation : Session → TargetProfile → PreparedServiceImage → Callback E →
    option (ST E bool) → FlashCall → ST (OpEnv E) (option OperationResult);
  append_operation : Session → TargetProfile → PreparedServiceImage → Callback E →
    option (ST E bool) → AppendCall → ST (OpEnv E) (option OperationResult);
  prepare_flash_operation : string → TargetProfile → option (string * string) →
    ST E (option PreparedFlashImage);
  prepare_service_operation : string → string → TargetProfile → string → option string →
    option string → ST E (option PreparedServiceImage);
  path_stat : string → ST E FileStat;
  locate_hex2000 : option string → ST E string;
  workspace_enter : string → option string → ST E string;
  workspace_exit : ST E unit;
}.

(** ** The backend *)

Section backend.
Context {E Session Transport : Type}.

Record Backend : Type := mkBackend {
  be_locked : bool;
  be_dispatcher : DomainEventDispatcher;
  be_session : option Session;
  be_transport : option Transport;
  be_target : option TargetProfile;
  be_device_info : option DeviceInfo;
  be_connection_info : option ConnectionInfo;
  be_executor : option Executor;             (* of the session [be_session] *)
  be_pending_close : option (Resource Session Transport);
  be_hex2000_executable_path : string;
  be_sci8_temp_dir : string;
  be_global_settings_error : option string;
  be_program_image_revisions : gmap RuntimeCpuId Z;
  be_ram_image_revisions : gmap RuntimeCpuId Z;
  be_provider : option (AppResourceProvider E);
  be_service_state : FlashServiceResourceState;
  be_configuration_revision : Z;
}.

Record BackendWorld : Type := mkBackendWorld {
  bw_backend : Backend;
  bw_env : E;
}.

Definition B (A : Type) : Type := ST BackendWorld A.

(** *** Assignments *)

Definition with_locked v b := mkBackend v (be_dispatcher b) (be_session b) (be_transport b)
  (be_target b) (be_device_info b) (be_connection_info b) (be_executor b) (be_pending_close b)
  (be_hex2000_executable_path b) (be_sci8_temp_dir b) (be_global_settings_error b)
  (be_program_image_revisions b) (be_ram_image_revisions b) (be_provider b) (be_service_state b)
  (be_configuration_revision b).
Definition with_dispatcher v b := mkBackend (be_locked b) v (be_session b) (be_transport b)
  (be_target b) (be_device_info b) (be_connection_info b) (be_executor b) (be_pending_close b)
  (be_hex2000_executable_path b) (be_sci8_temp_dir b) (be_global_settings_error b)
  (be_program_image_revisions b) (be_ram_image_revisions b) (be_provider b) (be_service_state b)
  (be_configuration_revision b).
(** [_session], [_transport], [_target], [_device_info], [_connection_info] *)
Definition with_connection session transport target device_info connection_info b :=
  mkBackend (be_locked b) (be_dispatcher b) session transport target device_info connection_info
  (be_executor b) (be_pending_close b)
  (be_hex2000_executable_path b) (be_sci8_temp_dir b) (be_global_settings_error b)
  (be_program_image_revisions b) (be_ram_image_revisions b) (be_provider b) (be_service_state b)
  (be_configuration_revision b).
Definition with_device_info v b := mkBackend (be_locked b) (be_dispatcher b) (be_session b)
  (be_transport b) (be_target b) v (be_connection_info b) (be_executor b) (be_pending_close b)
  (be_hex2000_executable_path b) (be_sci8_temp_dir b) (be_global_settings_error b)
  (be_program_image_revisions b) (be_ram_image_revisions b) (be_provider b) (be_service_state b)
  (be_configuration_revision b).
Definition with_executor v b := mkBackend (be_locked b) (be_dispatcher b) (be_session b)
  (be_transport b) (be_target b) (be_device_info b) (be_connection_info b) v (be_pending_close b)
  (be_hex2000_executable_path b) (be_sci8_temp_dir b) (be_global_settings_error b)
  (be_program_image_revisions b) (be_ram_image_revisions b) (be_provider b) (be_service_state b)
  (be_configuration_revision b).
Definition with_pending_close v b := mkBackend (be_locked b) (be_dispatcher b) (be_session b)
  (be_transport b) (be_target b) (be_device_info b) (be_connection_info b) (be_executor b) v
  (be_hex2000_executable_path b) (be_sci8_temp_dir b) (be_global_settings_error b)
  (be_program_image_revisions b) (be_ram_image_revisions b) (be_provider b) (be_service_state b)
  (be_configuration_revision b).
Definition with_image_tools path dir error revision b := mkBackend (be_locked b) (be_dispatcher b)
  (be_session b) (be_transport b) (be_target b) (be_device_info b) (be_connection_info b)
  (be_executor b) (be_pending_close b) path dir error
  (be_program_image_revisions b) (be_ram_image_revisions b) (be_provider b) (be_service_state b)
  revision.
Definition with_revisions program ram b := mkBackend (be_locked b) (be_dispatcher b)
  (be_session b) (be_transport b) (be_target b) (be_device_info b) (be_connection_info b)
  (be_executor b) (be_pending_close b)
  (be_hex2000_executable_path b) (be_sci8_temp_dir b) (be_global_settings_error b)
  program ram (be_provider b) (be_service_state b) (be_configuration_revision b).
Definition with_provider v b := mkBackend (be_locked b) (be_dispatcher b) (be_session b)
  (be_transport b) (be_target b) (be_device_info b) (be_connection_info b) (be_executor b)
  (be_pending_close b)
  (be_hex2000_executable_path b) (be_sci8_temp_dir b) (be_global_settings_error b)
  (be_program_image_revisions b) (be_ram_image_revisions b) v (be_service_state b)
  (be_configuration_revision b).
Definition with_service_state v b := mkBackend (be_locked b) (be_dispatcher b) (be_session b)
  (be_transport b) (be_target b) (be_device_info b) (be_connection_info b) (be_executor b)
  (be_pending_close b)
  (be_hex2000_executable_path b) (be_sci8_temp_dir b) (be_global_settings_error b)
  (be_program_image_revisions b) (be_ram_image_revisions b) (be_provider b) v
  (be_configuration_revision b).

(** [self.x = v] *)
Definition set (f : Backend → Backend) : B unit :=
  modify (λ w, mkBackendWorld (f (bw_backend w)) (bw_env w)).

(** [self], read *)
Definition self : B Backend := gets bw_backend.

(** A call of something injected. *)
Definition env {A} (m : ST E A) : B A := λ w,
  let '(r, e) := m (bw_env w) in (r, mkBackendWorld (bw_backend w) e).

(** [self._runtime_v2_dispatcher.dispatch(event)], the event just made *)
Definition dispatch_event (event : DomainEvent) : B RuntimeTransitionResult :=
  event <- lift (DomainEvent_post_init event) ;;
  λ w, let '(r, d) := dispatch event (be_dispatcher (bw_backend w)) in
       (r, mkBackendWorld (with_dispatcher d (bw_backend w)) (bw_env w)).

(** [self.runtime_v2_snapshot] *)
Definition runtime_v2_snapshot : B RuntimeV2Snapshot :=
  b <- self ;; lift (fst (snapshot (de_store (be_dispatcher b)))).

(** [target_resources[cpu_id]] *)
Definition target_resource_of (cpu_id : RuntimeCpuId) : B TargetResourceState :=
  runtime <- runtime_v2_snapshot ;;
  match rv_target_resources runtime !! cpu_id with
  | Some resource => ret resource
  | None => raise (Err KeyError (Lit "cpu_id"))
  end.

(** [self.connection_generation] *)
Definition connection_generation : B ConnectionGeneration :=
  runtime <- runtime_v2_snapshot ;; ret (rv_connection_generation runtime).

(** *** [try ... finally] and the lock *)

Definition try_finally {A} (m : B A) (f : B unit) : B A := λ w,
  let '(r, w) := m w in
  match f w with
  | (Ok _, w) => (r, w)
  | (Raise e, w) => (Raise e, w)
  end.

(** [_acquire] *)
Definition acquire : B unit :=
  b <- self ;;
  if be_locked b
  then raise (Err RuntimeError (Lit "RuntimeBackend concurrent entry is not allowed"))
  else set (with_locked true).

Definition release : B unit := set (with_locked false).

(** [self._acquire(); try: m finally: self._lock.release()] *)
Definition exclusively {A} (m : B A) : B A := acquire ;;; try_finally m release.

(** [str(exc)], and [str(exc) or name] *)
Definition str_exn (exc : Exn) : string := text_of (exn_str exc).
Definition exn_name (exc : Exn) : string := class_name (class_of exc).
Definition str_or (default message : string) : string :=
  if empty_str message then default else message.

(** *** Progress *)

(** The callback of the task, if there is one. *)
Definition Progress : Type := option (TaskProgressUpdate → ST E unit).

(** [_publish] *)
Definition publish_step (task_id step_id : string) (state : TaskStepState) (stage message : string)
    (progress : Progress) : B unit :=
  match progress with
  | None => ret tt
  | Some progress =>
      env (progress (mkUpdate task_id step_id state stage message None None
                       ProgressMode.INDETERMINATE None []))
  end.

(** The local function [report] of the operations. *)
Definition report (task_id step_id : string) (progress : Progress) : Callback E := λ event,
  update <- lift (operation_progress_to_task_update task_id step_id event) ;;
  modify (λ s, mkOpEnv (oe_env s) (Some update)) ;;;
  match progress with
  | None => ret tt
  | Some progress => λ s, let '(r, e) := progress update (oe_env s) in
                          (r, mkOpEnv e (oe_last_update s))
  end.

(** An operation with a callback, and [last_update] after it. *)
Definition reporting {A} (m : ST (OpEnv E) A) : B (A * option TaskProgressUpdate) := λ w,
  let '(r, s) := m (mkOpEnv (bw_env w) None) in
  (match r with Ok a => Ok (a, oe_last_update s) | Raise e => Raise e end,
   mkBackendWorld (bw_backend w) (oe_env s)).

(** The completion of the step: [if last_update is None: publish ... elif
    progress is not None: progress(replace(last_update, ...))]. *)
Definition complete_step (task_id step_id stage operation : string)
    (last_update : option TaskProgressUpdate) (progress : Progress) : B unit :=
  match last_update, progress with
  | None, _ => publish_step task_id step_id TaskStepState.COMPLETED stage operation progress
  | Some update, Some progress => env (progress (with_step_state TaskStepState.COMPLETED update))
  | Some _, None => ret tt
  end.

(** [isinstance(result, OperationResult)] or TypeError *)
Definition operation_result_of (message : string) (r : option OperationResult)
    : Res OperationResult :=
  match r with Some r => Ok r | None => Raise (Err TypeError (Lit message)) end.

(** *** Failures *)

(** [GuiRuntimeError(code, message, stage, SHOW_ONLY, task_id, recoverable,
    details=..., domain=...)] in a failed result *)
Definition failed_result (task_id code message stage summary : string) (recoverable : bool)
    (details : Dict) (step_results : list StepResult) (domain : option ErrorDomain)
    : Res TaskExecutionResult :=
  let? error := GuiRuntimeError_post_init
    (mkGuiError code message stage ErrorDisposition.SHOW_ONLY (Some task_id) recoverable false
       details None domain) in
  TaskExecutionResult_post_init
    (mkTaskResult task_id TaskFinalStatus.FAILED summary message step_results NoPayload None
       (Some error) TaskCompletionAction.NONE false).

Definition task_succeeded (task_id summary message : string) (step_results : list StepResult)
    (payload : Payload) : Res TaskExecutionResult :=
  TaskExecutionResult_post_init
    (mkTaskResult task_id TaskFinalStatus.SUCCEEDED summary message step_results payload None None
       TaskCompletionAction.NONE false).
End backend.
Arguments Backend : clear implicits.
Arguments BackendWorld : clear implicits.
Arguments B : clear implicits.
Arguments Progress : clear implicits.

(** *** Early returns

    A method that may return before its end: its result, or how it goes on. *)
Inductive Flow (A : Type) : Type :=
| Return (r : TaskExecutionResult)
| Continue (a : A).
Arguments Return {A}.
Arguments Continue {A}.

(** [x <-? m ;; k]: [m] may have returned. *)
Notation "x <-? m ;; k" := (bind m (λ f_, match f_ with Return r_ => ret r_ | Continue x => k end))
  (at level 100, m at next level, right associativity) : py_scope.

(** The same inside what may return itself. *)
Notation "x <-! m ;; k" :=
  (bind m (λ f_, match f_ with Return r_ => ret (Return r_) | Continue x => k end))
  (at level 100, m at next level, right associativity) : py_scope.

(** [if b: return r] *)
Definition return_if {S} (b : bool) (r : Res TaskExecutionResult) : ST S (Flow unit) :=
  if b then (result <- lift r ;; ret (Return result)) else ret (Continue tt).
