(* ===== verification/BackendConnection.v ===== *)
(** * Connecting and disconnecting (gui/runtime_backend.py)

    [connect], [disconnect], [shutdown] and what they are made of: opening the
    transport, discovering the target, releasing what was opened when a step
    fails or is cancelled, and retrying what could not be closed. *)

From S2P Require Import Prelude.
From S2P Require Import Errors.
From S2P Require Import TaskPlans.
From S2P Require Import Models.
From S2P Require Import Targets.
From S2P Require Import BootClient.
From S2P Require Import OperationResults.
From S2P Require Import StatusOps.
From S2P Require Import StatusModels.
From S2P Require Import RamOps.
From S2P Require Import RuntimeValues.
From S2P Require Import RuntimeModels.
From S2P Require Import CommandExecutor.
From S2P Require Import OperationRequests.
From S2P Require Import TaskModels.
From S2P Require Import RuntimeStore.
From S2P Require Import RuntimeDispatch.
From S2P Require Import Backend.

Section backend.
Context {E Session Transport : Type} `{EqDecision Transport} `{Ports E Session Transport}.

Abbreviation M := (B E Session Transport).
Abbreviation TaskProgress := (Progress E).

(** [_notify_maintenance] *)
Definition notify_maintenance (hook : MaintenanceHook) (generation : ConnectionGeneration)
    : M unit :=
  catch (env (maintenance_scheduler hook generation)) (λ _, ret tt).

(** [_release_connection_executor] *)
Definition release_connection_executor : M unit :=
  b <- self ;;
  match be_executor b with
  | None => ret tt
  | Some executor =>
      set (with_executor None) ;;;
      if ce_valid executor
      then notify_maintenance MaintenanceHook.connection_closed
             (mkGeneration (ce_generation executor))
      else ret tt
  end.

(** [_clear_active] *)
Definition clear_active : M unit :=
  release_connection_executor ;;;
  b <- self ;;
  runtime <- runtime_v2_snapshot ;;
  match rv_connection runtime with
  | Some connection =>
      dispatch_event (ConnectionClosed (cr_connection_id connection) (cr_generation connection)) ;;;
      ret tt
  | None => ret tt
  end ;;;
  set (with_connection None None None None None).

(** [_close_resource] *)
Definition close_resource (resource : Resource Session Transport) : M unit :=
  match close_method resource with
  | None => raise (Err TypeError (Lit "runtime resource is not closeable"))
  | Some close => env close
  end.

(** A call of [close_resource] whose exception is kept. *)
Definition closing (resource : Resource Session Transport) : M (option Exn) :=
  catch (close_resource resource ;;; ret None) (λ exc, ret (Some exc)).

(** [_cleanup_partial]: the messages of what could not be closed. *)
Definition cleanup_transport (session : option Session) (transport : Transport)
    (errors : list string) : M (list string) :=
  failed <- closing (TransportResource transport) ;;
  match failed with
  | Some exc =>
      set (with_pending_close (Some (TransportResource transport))) ;;;
      ret (errors ++ [("transport: " ++ str_exn exc)%string])
  | None =>
      match session with
      | Some session =>
          (if bool_decide (session_transport session = Some transport) then ret tt
           else set (with_pending_close (Some (SessionResource session)))) ;;;
          ret errors
      | None => ret errors
      end
  end.

Definition cleanup_partial (session : option Session) (transport : option Transport)
    : M (list string) :=
  set (with_pending_close None) ;;;
  match session with
  | None =>
      match transport with
      | None => ret []
      | Some transport => cleanup_transport None transport []
      end
  | Some session =>
      failed <- closing (SessionResource session) ;;
      match failed with
      | None => ret []
      | Some exc =>
          let errors := [("session: " ++ str_exn exc)%string] in
          match transport with
          | Some transport => cleanup_transport (Some session) transport errors
          | None => set (with_pending_close (Some (SessionResource session))) ;;; ret errors
          end
      end
  end.

(** ** Results *)

Definition strings (l : list string) : PyVal := VSeq (map VStr l).

(** [self._pending_close is not None] *)
Definition cleanup_pending : M bool := b <- self ;; ret (isSome (be_pending_close b)).

(** [_connect_settings_failure] *)
Definition connect_settings_failure (task_id message : string) : M TaskExecutionResult :=
  pending <- cleanup_pending ;;
  lift (failed_result task_id "INVALID_CONNECTION_SETTINGS" message "connect" "Connection failed"
          true [("cleanup_pending"%string, VBool pending)] [] None).

(** [_connect_failure] *)
Definition connect_failure (task_id : string) (session : Session) (transport : Transport)
    (code message stage : string) (step_results : list StepResult) (details : Dict)
    (domain : option ErrorDomain) : M TaskExecutionResult :=
  cleanup_errors <- cleanup_partial (Some session) (Some transport) ;;
  clear_active ;;;
  pending <- cleanup_pending ;;
  lift (failed_result task_id code message stage "Connection failed" true
          (details
           ++ (if nonempty cleanup_errors then [("cleanup_errors"%string, strings cleanup_errors)]
               else [])
           ++ [("cleanup_pending"%string, VBool pending)])
          step_results domain).

(** The result of a connection that was cancelled. *)
Definition connection_cancelled (task_id stage : string) (step_results : list StepResult)
    (payload : Dict) : Res TaskExecutionResult :=
  TaskExecutionResult_post_init
    (mkTaskResult task_id TaskFinalStatus.CANCELLED "Connection cancelled"
       ("Connection cancelled during " ++ stage)%string step_results (DictPayload payload) None None
       TaskCompletionAction.NONE true).

(** [_cancel_open_connection] *)
Definition cancel_open_connection (task_id : string) (session : Session) (transport : Transport)
    (open_result : TransportOpenResult) (cancellation_stage : string)
    (step_results : list StepResult) : M TaskExecutionResult :=
  cleanup_errors <- cleanup_partial (Some session) (Some transport) ;;
  clear_active ;;;
  let payload := [("cancellation_stage"%string, VStr cancellation_stage);
                  ("transport_open_stage"%string, VStr (to_stage open_result));
                  ("resource_released"%string, VBool (negb (nonempty cleanup_errors)))] in
  if nonempty cleanup_errors then
    pending <- cleanup_pending ;;
    lift (
      let? error := GuiRuntimeError_post_init
        (mkGuiError "CONNECT_CANCELLATION_CLEANUP_FAILED" "Connection cancellation cleanup failed"
           cancellation_stage ErrorDisposition.SHOW_ONLY (Some task_id) true false
           (payload ++ [("cleanup_errors"%string, strings cleanup_errors);
                        ("cleanup_pending"%string, VBool pending)]) None None) in
      TaskExecutionResult_post_init
        (mkTaskResult task_id TaskFinalStatus.FAILED "Connection cancellation cleanup failed"
           (ge_message error) step_results NoPayload None (Some error) TaskCompletionAction.NONE true))
  else lift (connection_cancelled task_id cancellation_stage step_results payload).

(** ** connect *)

(** [_validate_request] *)
Definition validate_request (request : SerialConnectRequest) : Res unit :=
  fail (Err ValueError (Lit "port must not be empty")) when blank (sc_port request) ;;
  let? _ := mapR (λ f, positive_int f.2 f.1) (connect_numbers request) in
  Ok tt.

(** [_validate_transport_open_result] *)
Definition validate_transport_open_result (value : option TransportOpenResult)
    : Res TransportOpenResult :=
  match value with
  | None => Raise (Err TypeError
              (Lit "UpgradeSession.connect() returned an invalid TransportOpenResult"))
  | Some value =>
      fail (Err ValueError (Lit "TransportOpenResult.stage must not be empty"))
        when empty_str (to_stage value) ;;
      fail (Err ValueError (Lit "OPENED requires resource_released=False"))
        when bool_decide (to_status value = OPENED) && to_resource_released value ;;
      fail (Err ValueError (Lit "CANCELLED requires resource_released=True"))
        when bool_decide (to_status value = CANCELLED) && negb (to_resource_released value) ;;
      Ok value
  end.

(** [_make_connection_info] *)
Definition detail (v : PyVal) : Atom :=
  match v with VInt z => AInt z | VStr s => AStr s | VBool b => ABool b | _ => ANone end.

Definition connection_details (request : SerialConnectRequest) (info : DeviceInfo) : object :=
  OMapping 0 false
    (map (λ kv, (AStr kv.1, OAtom (detail kv.2)))
       ((("port"%string, VStr (sc_port request)) :: int_dict (connect_numbers request))
        ++ DeviceInfo_dict info)).

Definition make_connection_info (request : SerialConnectRequest) (discovered : DiscoveredTarget)
    : M ConnectionInfo :=
  connection_id <- env uuid4_hex ;;
  connected_at <- env now_utc ;;
  lift (ConnectionInfo_post_init
    (mkConnectionInfo connection_id "SCI / RS232" (sc_port request) connected_at
       (dt_target_key discovered) (connection_details request (dt_device_info discovered)))).

(** [cancellation is not None and cancellation.is_cancel_requested()] *)
Definition cancel_requested (cancellation : option (ST E bool)) : M bool :=
  match cancellation with None => ret false | Some asked => env asked end.

(** What is closed before a new connection. *)
Definition pre_connect_cleanup (task_id : string) : M (Flow unit) :=
  b <- self ;;
  match be_pending_close b with
  | None => ret (Continue tt)
  | Some resource =>
      failed <- closing resource ;;
      match failed with
      | Some exc =>
          result <- lift (failed_result task_id "SERIAL_CLOSE_FAILED" (str_exn exc)
            "pre_connect_cleanup" "Cleanup failed" true
            [("exception_type"%string, VStr (exn_name exc));
             ("cleanup_pending"%string, VBool true)] [] None) ;;
          ret (Return result)
      | None =>
          release_connection_executor ;;;
          set (with_pending_close None) ;;;
          ret (Continue tt)
      end
  end.

(** [except Exception: cleanup; self._clear_active(); raise] *)
Definition abandon {A} (session : option Session) (transport : option Transport) (exc : Exn) : M A :=
  cleanup_partial session transport ;;; clear_active ;;; raise exc.

(** The transport and the session. *)
Definition create_session (request : SerialConnectRequest) : M (Session * Transport) :=
  transport <- catch (env (transport_factory request)) (λ exc, abandon None None exc) ;;
  session <- catch (env (session_factory transport)) (λ exc, abandon None (Some transport) exc) ;;
  ret (session, transport).

(** The first [try] of [_connect]. *)
Definition open_session (task_id : string) (session : Session) (transport : Transport)
    (cancellation : option (ST E bool)) (progress : TaskProgress) : M (Flow TransportOpenResult) :=
  let failure code exc :=
    result <- connect_failure task_id session transport code (str_exn exc) "CONNECT_SCI" [] []
                (Some COMMUNICATION) ;;
    ret (Return result) in
  catch (
    value <- env (session_connect session cancellation) ;;
    open_result <- lift (validate_transport_open_result value) ;;
    if bool_decide (to_status open_result = CANCELLED) then
      clear_active ;;;
      result <- lift (connection_cancelled task_id (to_stage open_result) [StepOpen open_result]
        [("cancellation_stage"%string, VStr (to_stage open_result));
         ("resource_released"%string, VBool true)]) ;;
      ret (Return result)
    else
      publish_step task_id "connect_sci" TaskStepState.COMPLETED "CONNECT_SCI" "SCI connected"
        progress ;;;
      ret (Continue open_result))
  (λ exc,
    if isinstance exc TransportTimeoutError then failure "SCI_AUTOBAUD_TIMEOUT"%string exc
    else if isinstance exc TransportError || isinstance exc OSError
    then failure "SCI_CONNECTION_FAILED"%string exc
    else abandon (Some session) (Some transport) exc).

(** The end of [_connect]: the connection is there. *)
Definition own_connection (session : Session) (transport : Transport)
    (discovered : DiscoveredTarget) (connection_info : ConnectionInfo) : M unit :=
  set (with_connection (Some session) (Some transport) (Some (dt_target_profile discovered))
         (Some (dt_device_info discovered)) (Some connection_info)) ;;;
  transition <- dispatch_event (ConnectionOpened connection_info) ;;
  let generation := rv_connection_generation (rt_snapshot transition) in
  set (with_executor (Some (Executor_init (cg_value generation)))) ;;;
  notify_maintenance MaintenanceHook.connection_opened generation.

(** What [_connect] does once the target answered. *)
Definition identified (task_id : string) (request : SerialConnectRequest) (session : Session)
    (transport : Transport) (open_result : TransportOpenResult) (evidence : list StepResult)
    (discovered : DiscoveredTarget) (cancellation : option (ST E bool)) (progress : TaskProgress)
    : M TaskExecutionResult :=
  connection_info <- make_connection_info request discovered ;;
  publish_step task_id "identify_target" TaskStepState.COMPLETED "IDENTIFY_TARGET"
    ("Identified " ++ upper (dt_target_key discovered))%string progress ;;;
  asked <- cancel_requested cancellation ;;
  if (asked : bool) then
    cancel_open_connection task_id session transport open_result "AFTER_TARGET_DISCOVERY" evidence
  else
    result <- lift (task_succeeded task_id "Connected"
      ("Connected to " ++ upper (dt_target_key discovered))%string evidence
      (ConnectionPayload connection_info)) ;;
    own_connection session transport discovered connection_info ;;;
    ret result.

(** The second [try] of [_connect]. *)
Definition identify_target (task_id : string) (request : SerialConnectRequest) (session : Session)
    (transport : Transport) (open_result : TransportOpenResult)
    (cancellation : option (ST E bool)) (progress : TaskProgress) : M TaskExecutionResult :=
  catch (
    publish_step task_id "identify_target" TaskStepState.STARTED "IDENTIFY_TARGET"
      "Reading DeviceInfo" progress ;;;
    outcome <- env (discovery_operation session) ;;
    match outcome with
    | None => raise (Err RuntimeError (Lit "discovery operation returned an invalid outcome"))
    | Some outcome =>
        let result := td_result outcome in
        let evidence := [StepOpen open_result; StepOperation result] in
        if negb (or_ok result) then
          connect_failure task_id session transport
            (match or_error result with Some e => ei_code e | None => "TARGET_DISCOVERY_FAILED" end)
            (match or_error result with Some e => Messages.text_of (ei_message e)
             | None => "Target discovery failed" end)
            "IDENTIFY_TARGET" evidence
            [("discovery_result"%string, VDict (operation_result_to_dict result))]
            (ei_domain <$> or_error result)
        else
          match td_discovered_target outcome with
          | None => raise (Err RuntimeError
                      (Lit "successful discovery did not provide typed target data"))
          | Some discovered =>
              identified task_id request session transport open_result evidence discovered
                cancellation progress
          end
    end)
  (λ exc, clear_active ;;; cleanup_partial (Some session) (Some transport) ;;; raise exc).

(** [_connect]; [None] is a request of another class. *)
Definition connect_body (task_id : string) (request : option SerialConnectRequest)
    (cancellation : option (ST E bool)) (progress : TaskProgress) : M TaskExecutionResult :=
  match request with
  | None => connect_settings_failure task_id "Invalid SCI connection request"
  | Some request =>
      match validate_request request with
      | Raise exc => connect_settings_failure task_id (str_exn exc)
      | Ok _ =>
          b <- self ;;
          if isSome (be_session b) || isSome (be_transport b)
          then raise (Err RuntimeError
                        (Lit "connect requested while RuntimeBackend owns a session")) else
          _ <-? pre_connect_cleanup task_id ;;
          created <- create_session request ;;
          let '(session, transport) := created in
          publish_step task_id "connect_sci" TaskStepState.STARTED "CONNECT_SCI"
            "Opening SCI / RS232" progress ;;;
          open_result <-? open_session task_id session transport cancellation progress ;;
          asked <- cancel_requested cancellation ;;
          if (asked : bool) then
            cancel_open_connection task_id session transport open_result "BEFORE_TARGET_DISCOVERY"
              [StepOpen open_result]
          else identify_target task_id request session transport open_result cancellation progress
      end
  end.

Definition connect (task_id : string) (request : option SerialConnectRequest)
    (cancellation : option (ST E bool)) (progress : TaskProgress) : M TaskExecutionResult :=
  exclusively (connect_body task_id request cancellation progress).

(** ** disconnect and shutdown *)

(** [getattr(request, 'step_id', ...)], [getattr(request, 'title', ...)] *)
Record CloseRequest : Set := mkCloseRequest {
  cq_step_id : option string;
  cq_title : option string;
}.

(** [_close] *)
Definition close (task_id : string) (request : CloseRequest) (progress : TaskProgress)
    (default_step default_title : string) : M TaskExecutionResult :=
  let step_id := default default_step (cq_step_id request) in
  let title := default default_title (cq_title request) in
  publish_step task_id step_id TaskStepState.STARTED (upper step_id) title progress ;;;
  b <- self ;;
  let resource := match be_session b, be_transport b with
                  | Some session, _ => Some (SessionResource session)
                  | None, Some transport => Some (TransportResource transport)
                  | None, None => be_pending_close b
                  end in
  set (with_pending_close resource) ;;;
  match resource with
  | None =>
      clear_active ;;;
      publish_step task_id step_id TaskStepState.COMPLETED (upper step_id) "Already disconnected"
        progress ;;;
      lift (task_succeeded task_id title "No active connection" [] NoPayload)
  | Some resource =>
      failed <- closing resource ;;
      match failed with
      | Some exc =>
          lift (failed_result task_id "SERIAL_CLOSE_FAILED" (str_exn exc) step_id
            (if bool_decide (default_step = "shutdown") then "Shutdown failed"
             else "Disconnect failed") true
            [("exception_type"%string, VStr (exn_name exc));
             ("cleanup_pending"%string, VBool true)] [] None)
      | None =>
          set (with_pending_close None) ;;;
          clear_active ;;;
          publish_step task_id step_id TaskStepState.COMPLETED (upper step_id) "Disconnected"
            progress ;;;
          lift (task_succeeded task_id title "Disconnected" [] NoPayload)
      end
  end.

Definition disconnect (task_id : string) (request : CloseRequest) (progress : TaskProgress)
    : M TaskExecutionResult :=
  exclusively (close task_id request progress "disconnect_sci" "Disconnect SCI / RS232").

Definition shutdown (task_id : string) (request : CloseRequest) (progress : TaskProgress)
    : M TaskExecutionResult :=
  exclusively (close task_id request progress "shutdown" "Shutdown").
End backend.
