(* ===== verification/BackendSelection.v ===== *)
(** * What the runtime backend is configured with (gui/runtime_backend.py)

    The selection of the images of a target and of the sectors to erase, the
    paths of the image tools, and the provider of the Flash service with the
    state of its files. *)

From stdpp Require Import gmap.
From S2P Require Import Prelude.
From S2P Require Import Errors.
From S2P Require Import Messages.
From S2P Require Import TaskPlans.
From S2P Require Import Targets.
From S2P Require Import OperationResults.
From S2P Require Import RamOps.
From S2P Require Import RuntimeValues.
From S2P Require Import RuntimeModels.
From S2P Require Import ImageRequests.
From S2P Require Import TaskModels.
From S2P Require Import RuntimeStore.
From S2P Require Import RuntimeDispatch.
From S2P Require Import Backend.

(** [except (OSError, RuntimeError, ValueError)] around a path *)
Definition path_error (exc : Exn) : bool :=
  isinstance exc OSError || isinstance exc RuntimeError || isinstance exc ValueError.

(** [_ImagePreparationFailure(code, message)], and one raised from [exc]. *)
Definition preparation_failure (code : string) (message : Msg) : Exn :=
  PreparationFailure code message None None true None.
Definition failure_from (code : string) (exc : Exn) : Exn :=
  PreparationFailure code (exn_str exc) None None true (Some (class_of exc)).

(** [d[cpu_id]] *)
Definition revision_of (cpu_id : RuntimeCpuId) (revisions : gmap RuntimeCpuId Z) : Res Z :=
  match revisions !! cpu_id with
  | Some revision => Ok revision
  | None => Raise (Err KeyError (Lit "cpu_id"))
  end.

(** [{cpu_id: 0 for cpu_id in RuntimeCpuId}] *)
Definition no_revisions : gmap RuntimeCpuId Z := for_each_cpu (λ _, 0).

Section backend.
Context {E Session Transport : Type} `{Ports E Session Transport} `{Paths}.

Abbreviation M := (B E Session Transport).

(** ** Target profiles *)

(** [_validate_target_profile]; profiles of another class are not given. *)
Definition validate_target_profile (target_key : string) (target_profile : TargetProfile)
    : Res TargetProfile :=
  let profile_key := cpu_key (tp_cpu_id target_profile) in
  fail (preparation_failure "TARGET_PROFILE_MISMATCH"
          (Fmt "Target Profile CPU {} does not match {}" [VStr profile_key; VStr target_key]))
    when negb (bool_decide (profile_key = target_key)) ;;
  Ok target_profile.

(** [_resolve_target_profile] *)
Definition resolve_target_profile (target_key : string) : M TargetProfile :=
  resolved <- catch (env (target_profile_resolver target_key))
    (λ exc, raise (PreparationFailure "TARGET_PROFILE_RESOLUTION_FAILED"
       (Prefixed "Target Profile resolution failed: " (exn_str exc)) None None true
       (Some (class_of exc)))) ;;
  match resolved with
  | None => raise (preparation_failure "TARGET_PROFILE_UNAVAILABLE"
              (Fmt "No Target Profile is registered for {}" [VStr target_key]))
  | Some target_profile => lift (validate_target_profile target_key target_profile)
  end.

(** ** The sectors to erase *)

(** [validate_erase_configuration] *)
Definition validate_erase_configuration (target_key : string) (custom_sector_mask : Z) : M unit :=
  cpu_id <- lift (from_target_key target_key) ;;
  if custom_sector_mask <? 0
  then raise (Err ValueError (Lit "custom_sector_mask must be a non-negative integer")) else
  profile <- resolve_target_profile target_key ;;
  match mp_flash (tp_memory_map profile) with
  | None =>
      if negb (custom_sector_mask =? 0)
      then raise (Err ValueError (Lit "target without Flash layout requires a zero custom mask"))
      else ret tt
  | Some flash =>
      if negb (Z.land custom_sector_mask (fl_forbidden_erase_mask flash) =? 0)
      then raise (Err ValueError (Lit "custom_sector_mask contains forbidden sectors"))
      else if negb (Z.land custom_sector_mask (Z.lnot (fl_allowed_erase_mask flash)) =? 0)
      then raise (Err ValueError
             (Lit "custom_sector_mask contains sectors outside the allowed erase mask"))
      else ret tt
  end.

(** [set_erase_configuration] *)
Definition set_erase_configuration (target_key : string) (erase_scope : EraseScope)
    (custom_sector_mask : Z) : M RuntimeTransitionResult :=
  validate_erase_configuration target_key custom_sector_mask ;;;
  cpu_id <- lift (from_target_key target_key) ;;
  exclusively (dispatch_event (SectorSelectionChanged cpu_id erase_scope custom_sector_mask)).

(** ** The program image and the RAM image of a target

    Both selections have a path and a parse status in the store, and a revision
    that counts the changes of the path. *)

(** Which of the two. *)
Inductive Selection : Set := ProgramSelection | RamSelection.

Definition revisions (which : Selection) (b : Backend E Session Transport)
    : gmap RuntimeCpuId Z :=
  match which with
  | ProgramSelection => be_program_image_revisions b
  | RamSelection => be_ram_image_revisions b
  end.

Definition set_revision (which : Selection) (cpu_id : RuntimeCpuId) (revision : Z) : M unit :=
  set (λ b, match which with
            | ProgramSelection =>
                with_revisions (<[cpu_id := revision]> (be_program_image_revisions b))
                  (be_ram_image_revisions b) b
            | RamSelection =>
                with_revisions (be_program_image_revisions b)
                  (<[cpu_id := revision]> (be_ram_image_revisions b)) b
            end).

Definition current_revision (which : Selection) (cpu_id : RuntimeCpuId) : M Z :=
  b <- self ;; lift (revision_of cpu_id (revisions which b)).

Definition selected_path (which : Selection) (r : TargetResourceState) : string :=
  match which with
  | ProgramSelection => tr_program_image_path r
  | RamSelection => tr_ram_image_path r
  end.

(** The event of a selection without a summary. *)
Definition image_changed (which : Selection) (cpu_id : RuntimeCpuId) (path : string)
    (status : ImageParseStatus) (error : option string) : DomainEvent :=
  match which with
  | ProgramSelection => ProgramImageChanged cpu_id path status None error
  | RamSelection => RamImageChanged cpu_id path status None error
  end.

(** [_normalized_program_path], [_normalized_ram_path] *)
Definition normalized_image_path (which : Selection) (path : string) : Res string :=
  fail (Err ValueError (Lit match which with
                            | ProgramSelection => "Image path must not be empty"
                            | RamSelection => "RAM image path must not be empty"
                            end)) when blank path ;;
  resolve_path (strip path).

(** [program_image_revision], [ram_image_revision] *)
Definition image_revision (which : Selection) (target_key : string) : M Z :=
  cpu_id <- lift (from_target_key target_key) ;; current_revision which cpu_id.

(** [set_program_image_path], [set_ram_image_path] *)
Definition set_image_path (which : Selection) (target_key path : string) : M Z :=
  cpu_id <- lift (from_target_key target_key) ;;
  exclusively (
    previous_revision <- current_revision which cpu_id ;;
    let revision := previous_revision + 1 in
    set_revision which cpu_id revision ;;;
    catch (dispatch_event (image_changed which cpu_id path ImageParseStatus.EMPTY None) ;;; ret tt)
      (λ exc, set_revision which cpu_id previous_revision ;;; raise exc) ;;;
    ret revision).

Definition selection_changed (which : Selection) : Exn :=
  Err RuntimeError (Lit match which with
                        | ProgramSelection => "Program image selection changed"
                        | RamSelection => "RAM image selection changed"
                        end).

(** [_begin_program_image_parse], [_begin_ram_image_parse] *)
Definition begin_parse (which : Selection) (cpu_id : RuntimeCpuId) (source_path : string)
    (selection_revision : Z) : M RuntimeTransitionResult :=
  path <- lift (normalized_image_path which source_path) ;;
  resource <- target_resource_of cpu_id ;;
  current_path <- catch (lift (normalized_image_path which (selected_path which resource)))
    (λ exc, raise (if path_error exc then selection_changed which else exc)) ;;
  current <- current_revision which cpu_id ;;
  if negb (selection_revision =? current) || negb (bool_decide (path = current_path))
  then raise (selection_changed which)
  else dispatch_event (image_changed which cpu_id (selected_path which resource)
                         ImageParseStatus.PARSING None).

(** The paths of [_fail_program_image_parse] and [_fail_ram_image_parse];
    [None] when one cannot be resolved. *)
Definition parse_paths (which : Selection) (cpu_id : RuntimeCpuId) (source_path : string)
    : M (option (string * TargetResourceState * string)) :=
  let unresolved exc := if path_error exc then ret None else raise exc in
  match which with
  | ProgramSelection =>
      path <- catch (path <- lift (normalized_image_path which source_path) ;; ret (Some path))
                unresolved ;;
      match path with
      | None => ret None
      | Some path =>
          resource <- target_resource_of cpu_id ;;
          catch (current <- lift (normalized_image_path which (selected_path which resource)) ;;
                 ret (Some (path, resource, current)))
            (λ exc, if path_error exc then ret None else raise exc)
      end
  | RamSelection =>
      catch (path <- lift (normalized_image_path which source_path) ;;
             resource <- target_resource_of cpu_id ;;
             current <- lift (normalized_image_path which (selected_path which resource)) ;;
             ret (Some (path, resource, current)))
        (λ exc, if path_error exc then ret None else raise exc)
  end.

(** [f'Code: {code}\n{message}'] *)
Definition newline : string := String (Ascii.ascii_of_nat 10) EmptyString.
Definition parse_error (code message : string) : string :=
  ("Code: " ++ code ++ newline ++ message)%string.

(** [_fail_program_image_parse], [_fail_ram_image_parse] *)
Definition fail_parse (which : Selection) (cpu_id : RuntimeCpuId) (source_path : string)
    (selection_revision : Z) (code message : string) : M (option RuntimeTransitionResult) :=
  if empty_str code || empty_str message
  then raise (Err ValueError (Lit "code and message must be non-empty strings")) else
  paths <- parse_paths which cpu_id source_path ;;
  match paths with
  | None => ret None
  | Some (path, resource, current_path) =>
      current <- current_revision which cpu_id ;;
      if negb (selection_revision =? current) || negb (bool_decide (path = current_path))
      then ret None
      else result <- dispatch_event (image_changed which cpu_id (selected_path which resource)
                       ImageParseStatus.ERROR (Some (parse_error code message))) ;;
           ret (Some result)
  end.

(** [begin_program_image_parse], [begin_ram_image_parse] *)
Definition begin_image_parse (which : Selection) (target_key source_path : string)
    (selection_revision : Z) : M RuntimeTransitionResult :=
  exclusively (
    cpu_id <- lift (from_target_key target_key) ;;
    begin_parse which cpu_id source_path selection_revision).

(** [fail_program_image_parse], [fail_ram_image_parse] *)
Definition fail_image_parse (which : Selection) (target_key source_path : string)
    (selection_revision : Z) (code message : string) : M (option RuntimeTransitionResult) :=
  exclusively (
    cpu_id <- lift (from_target_key target_key) ;;
    fail_parse which cpu_id source_path selection_revision code message).

(** ** Memory, image tools and sessions *)

(** [record_memory_read_success], [record_memory_read_failure], [clear_memory] *)
Definition record_memory_read_success (cpu_id : RuntimeCpuId) (generation : ConnectionGeneration)
    (base_address : Z) (words : list Z) (read_at : datetime) : M RuntimeTransitionResult :=
  dispatch_event (MemoryReadSucceeded cpu_id generation base_address words read_at).
Definition record_memory_read_failure (cpu_id : RuntimeCpuId) (generation : ConnectionGeneration)
    (error : RuntimeReadError) : M RuntimeTransitionResult :=
  dispatch_event (MemoryReadFailed cpu_id generation error).
Definition clear_memory (cpu_id : RuntimeCpuId) : M RuntimeTransitionResult :=
  dispatch_event (MemoryCleared cpu_id).

(** [set_image_tool_paths], which waits for the lock. *)
Definition set_image_tool_paths (hex2000_executable_path sci8_temp_dir : string) : M unit :=
  set (with_locked true) ;;;
  try_finally (
    b <- self ;;
    let hex_path := strip hex2000_executable_path in
    let temp_dir := strip sci8_temp_dir in
    if bool_decide ((hex_path, temp_dir) = (be_hex2000_executable_path b, be_sci8_temp_dir b))
    then ret tt
    else set (with_image_tools hex_path temp_dir None (be_configuration_revision b + 1)))
  release.

(** [apply_session_change] *)
Definition apply_session_change : M RuntimeTransitionResult :=
  exclusively (
    b <- self ;;
    runtime <- runtime_v2_snapshot ;;
    if isSome (be_session b) || isSome (be_transport b) || isSome (be_connection_info b)
       || isSome (be_pending_close b) || isSome (rv_connection runtime)
    then raise (Err RuntimeError
                  (Lit "Session change requires a fully disconnected RuntimeBackend")) else
    result <- dispatch_event SessionChanged ;;
    set (with_revisions no_revisions no_revisions) ;;;
    ret result).

(** ** The files of the Flash service *)

(** [a or b] of strings or None *)
Definition str_or_else (a b : option string) : option string :=
  match a with Some s => if empty_str s then b else a | None => b end.

(** [getattr(exc, 'code', type(exc).__name__)], and the paths of the exception *)
Definition resource_code (exc : Exn) : string :=
  match exc with ProviderFailure code _ _ _ => code | _ => exn_name exc end.
Definition resource_paths (exc : Exn) : option string * option string :=
  match exc with
  | ProviderFailure _ _ image_path map_path => (image_path, map_path)
  | _ => (None, None)
  end.

(** One turn of the loop of [_resolve_service_resource_paths]: the path, or
    the exception. *)
Definition resolve_provided (method : ST E (option string)) : M (option string * option Exn) :=
  catch (
    value <- env method ;;
    match value with
    | None => raise (Err AppResourceError (Lit "AppResourceProvider paths must be Path values"))
    | Some value => path <- lift (resolve_path value) ;; ret (Some path, None)
    end)
  (λ exc, ret (None, Some (
     if isinstance exc AppResourceError then exc
     else Err AppResourceError (Prefixed "AppResourceProvider failed: " (exn_str exc))))).

(** [_resolve_service_resource_paths] *)
Definition resolve_service_resource_paths (provider : AppResourceProvider E)
    : M (string * string) :=
  image <- resolve_provided (ap_flash_service_image_path provider) ;;
  map <- resolve_provided (ap_flash_service_map_path provider) ;;
  match image, map with
  | (Some image_path, None), (Some map_path, None) =>
      if bool_decide (image_path = map_path)
      then raise (Err AppResourceError (Lit "Flash Service image and map paths must differ"))
      else ret (image_path, map_path)
  | (image_path, failure), (map_path, failure') =>
      let exc := default (Err AppResourceError (Lit "no failure")) (if isSome failure then failure else failure') in
      raise (ProviderFailure (exn_name exc) (exn_str exc) image_path map_path)
  end.

Definition set_service_state (state : FlashServiceResourceState) : M FlashServiceResourceState :=
  state <- lift (FlashServiceResourceState_post_init state) ;;
  set (with_service_state state) ;;;
  ret state.

(** [FlashServiceResourceState(0, 'Unconfigured', ...)] *)
Definition unconfigured_state (revision : Z) : FlashServiceResourceState :=
  mkServiceState revision "Unconfigured" None None FlashServiceResourceStatus.UNAVAILABLE None
    (Some "APP_RESOURCE_PROVIDER_REQUIRED"%string)
    (Some "No AppResourceProvider is configured"%string).

(** The state after a failure of the provider. *)
Definition unavailable_state (previous : FlashServiceResourceState) (name : string) (exc : Exn)
    : FlashServiceResourceState :=
  let image_path := str_or_else (resource_paths exc).1 (st_image_path previous) in
  let map_path := str_or_else (resource_paths exc).2 (st_map_path previous) in
  let changed :=
    negb (bool_decide (st_status previous = FlashServiceResourceStatus.UNAVAILABLE))
    || negb (bool_decide (st_provider_name previous = name))
    || negb (bool_decide ((st_image_path previous, st_map_path previous) = (image_path, map_path))) in
  mkServiceState (st_revision previous + (if changed then 1 else 0)) name image_path map_path
    FlashServiceResourceStatus.UNAVAILABLE None (Some (resource_code exc)) (Some (str_exn exc)).

(** [_refresh_flash_service_resources_locked] *)
Definition refresh_service_resources : M FlashServiceResourceState :=
  b <- self ;;
  let previous := be_service_state b in
  match be_provider b with
  | None => set_service_state (unconfigured_state (st_revision previous))
  | Some provider =>
      let name := ap_class_name provider in
      resolved <- catch (paths <- resolve_service_resource_paths provider ;; ret (Ok paths))
        (λ exc, if isinstance exc AppResourceError then ret (Raise exc) else raise exc) ;;
      match resolved with
      | Raise exc => set_service_state (unavailable_state previous name exc)
      | Ok (image_path, map_path) =>
          let unchanged :=
            bool_decide (st_provider_name previous = name)
            && bool_decide ((st_image_path previous, st_map_path previous) =
                            (Some image_path, Some map_path)) in
          if unchanged && bool_decide (st_status previous = FlashServiceResourceStatus.READY)
          then ret previous
          else
            let changed :=
              negb unchanged
              || bool_decide (st_status previous = FlashServiceResourceStatus.UNAVAILABLE) in
            set_service_state
              (mkServiceState (st_revision previous + (if changed then 1 else 0)) name
                 (Some image_path) (Some map_path) FlashServiceResourceStatus.UNVALIDATED
                 None None None)
      end
  end.

Definition refresh_flash_service_resources : M FlashServiceResourceState :=
  exclusively refresh_service_resources.

(** [replace(previous, revision=previous.revision + 1, provider_name=...)] *)
Definition renamed_state (name : string) (s : FlashServiceResourceState)
    : FlashServiceResourceState :=
  mkServiceState (st_revision s + 1) name (st_image_path s) (st_map_path s) (st_status s)
    (st_summary s) (st_error_code s) (st_error_message s).

(** [configure_app_resource_provider] *)
Definition configure_app_resource_provider (provider : AppResourceProvider E) : M unit :=
  exclusively (
    b <- self ;;
    match be_provider b with
    | Some configured =>
        if ap_id configured =? ap_id provider then ret tt
        else raise (Err RuntimeError
                      (Lit "RuntimeBackend AppResourceProvider cannot be replaced"))
    | None =>
        set (with_provider (Some provider)) ;;;
        set_service_state (renamed_state (ap_class_name provider) (be_service_state b)) ;;;
        refresh_service_resources ;;;
        ret tt
    end).

(** [_set_service_failure_state] *)
Definition failure_status (code : string) : FlashServiceResourceStatus :=
  if bool_decide (code ∈ ["SERVICE_RESOURCE_CHANGED"; "SERVICE_CHANGED_DURING_PREPARATION"])
  then FlashServiceResourceStatus.STALE
  else if bool_decide (code ∈ ["APP_RESOURCE_PROVIDER_REQUIRED"; "AppResourceConfigurationError";
                               "AppResourceNotFoundError"; "IMAGE_FILE_NOT_FOUND";
                               "SERVICE_FILE_ACCESS_FAILED"])
  then FlashServiceResourceStatus.UNAVAILABLE
  else FlashServiceResourceStatus.ERROR.

Definition set_service_failure_state (code : string) (m : Msg) (image_path map_path : option string)
    (expected_revision : Z) : M unit :=
  b <- self ;;
  let state := be_service_state b in
  if negb (st_revision state =? expected_revision) then ret tt else
  set_service_state
    (mkServiceState (st_revision state + 1) (st_provider_name state)
       (str_or_else image_path (st_image_path state)) (str_or_else map_path (st_map_path state))
       (failure_status code) None (Some code) (Some (text_of m))) ;;;
  ret tt.
End backend.
