(* ===== verification/BackendImages.v ===== *)
(** * Image preparation by the runtime backend (gui/runtime_backend.py)

    [_prepare_flash_image], [_prepare_ram_image] and [_prepare_flash_service],
    with the materialization of images that the operations on the target share.
    The prepared images of the model have no [generated_sci8_txt], the path of a
    file of the workspace that is forgotten when the workspace is left. *)

From stdpp Require Import gmap.
From S2P Require Import Prelude.
From S2P Require Import Errors.
From S2P Require Import Messages.
From S2P Require Import TaskPlans.
From S2P Require Import Firmware.
From S2P Require Import Targets.
From S2P Require Import OperationResults.
From S2P Require Import RuntimeValues.
From S2P Require Import RuntimeModels.
From S2P Require Import ImageRequests.
From S2P Require Import TaskModels.
From S2P Require Import RuntimeStore.
From S2P Require Import RuntimeDispatch.
From S2P Require Import Backend.
From S2P Require Import BackendSelection.

(** What a materialization returns besides the prepared image. *)
Record ImageOrigin : Set := mkOrigin {
  io_fingerprint : SourceFileFingerprint;
  io_source_kind : ImageSourceKind;
  io_executable_source : Hex2000Source;
  io_executable : option string;
}.

Definition empty_option (s : string) : option string := if empty_str s then None else Some s.

(** [tuple(bit for bit in range(32) if mask & (1 << bit))] *)
Definition mask_bits (mask : Z) : list Z := List.filter (Z.testbit mask) (zrange 0 32).

Section backend.
Context {E Session Transport : Type} `{Ports E Session Transport} `{Paths}.

Abbreviation M := (B E Session Transport).
Abbreviation TaskProgress := (Progress E).

(** ** Source files *)

(** [_source_kind] *)
Definition source_kind (path : string) : Res ImageSourceKind :=
  let suffix := path_suffix path in
  if bool_decide (suffix = ".out"%string) then Ok ImageSourceKind.OUT
  else if bool_decide (suffix = ".txt"%string) then Ok ImageSourceKind.TXT
  else Raise (preparation_failure "UNSUPPORTED_IMAGE_TYPE"
                (Lit "Only .out and .txt images are supported")).

(** [_fingerprint] *)
Definition fingerprint (path : string) (during_preparation : bool) : M SourceFileFingerprint :=
  file_stat <- catch (
      file_stat <- env (path_stat path) ;;
      if fs_regular file_stat then ret file_stat
      else raise (Err FileNotFoundError (Lit path)))
    (λ exc,
      if isinstance exc FileNotFoundError then
        raise (PreparationFailure
          (if during_preparation then "IMAGE_CHANGED_DURING_PREPARATION" else "IMAGE_FILE_NOT_FOUND")
          (Fmt "Image file was not found: {}" [VStr path]) None None true (Some (class_of exc)))
      else if isinstance exc OSError then raise (failure_from "IMAGE_FILE_ACCESS_FAILED" exc)
      else raise exc) ;;
  lift (SourceFileFingerprint_post_init
          (mkFingerprint path (fs_size file_stat) (fs_mtime_ns file_stat))).

(** The tool that converts an .out image. *)
Definition locate_tool : M (string * Hex2000Source) :=
  b <- self ;;
  match be_global_settings_error b with
  | Some error => raise (preparation_failure "GLOBAL_SETTINGS_LOAD_FAILED" (Lit error))
  | None =>
      let configured := empty_option (be_hex2000_executable_path b) in
      executable <- catch (env (locate_hex2000 configured)) (λ exc,
        if isinstance exc Hex2000ConfigurationError
        then raise (failure_from "HEX2000_CONFIGURATION_INVALID" exc)
        else if isinstance exc Hex2000NotFoundError
        then raise (failure_from "HEX2000_NOT_FOUND" exc)
        else raise exc) ;;
      ret (executable, if isSome configured then Hex2000Source.GLOBAL_SETTINGS
                       else Hex2000Source.C2000_CG_ROOT)
  end.

(** [_resolve_local_image] *)
Definition resolve_local_image (source_path : string)
    : M (string * ImageSourceKind * SourceFileFingerprint * option string * Hex2000Source) :=
  if empty_str source_path
  then raise (preparation_failure "INVALID_IMAGE_PATH" (Lit "Image path must not be empty")) else
  path <- catch (lift (resolve_path source_path))
    (λ exc, raise (if path_error exc then failure_from "INVALID_IMAGE_PATH" exc else exc)) ;;
  kind <- lift (source_kind path) ;;
  before <- fingerprint path false ;;
  if bool_decide (kind = ImageSourceKind.TXT)
  then ret (path, kind, before, None, Hex2000Source.NOT_USED) else
  tool <- locate_tool ;;
  ret (path, kind, before, Some tool.1, tool.2).

(** ** Materialization *)

(** The exceptions of the preparation of an application image. *)
Definition app_preparation_error (exc : Exn) : Exn :=
  if isinstance exc Sci8ParseError then failure_from "IMAGE_PARSE_FAILED" exc
  else if isinstance exc Hex2000Error then failure_from "IMAGE_CONVERSION_FAILED" exc
  else if isinstance exc FileNotFoundError then
    PreparationFailure "IMAGE_CHANGED_DURING_PREPARATION"
      (Lit "The source image was deleted during preparation") None None true (Some (class_of exc))
  else if isinstance exc OSError then failure_from "IMAGE_FILE_ACCESS_FAILED" exc
  else if isinstance exc ValueError then failure_from "IMAGE_VALIDATION_FAILED" exc
  else exc.

(** The first [try] of a materialization: the preparation, for an .out image in
    a workspace of its own. *)
Definition prepare_app {A} (operation : string → TargetProfile → option (string * string) →
      ST E (option A)) (invalid : string) (path : string) (target : TargetProfile)
    (kind : ImageSourceKind) (executable : option string) : M A :=
  prepared <- catch (
      match kind with
      | ImageSourceKind.OUT =>
          b <- self ;;
          sci8_path <- env (workspace_enter path (empty_option (be_sci8_temp_dir b))) ;;
          try_finally
            (env (operation path target (Some (default "None"%string executable, sci8_path))))
            (env workspace_exit)
      | ImageSourceKind.TXT => env (operation path target None)
      end)
    (λ exc, raise (app_preparation_error exc)) ;;
  match prepared with
  | None => raise (preparation_failure "IMAGE_VALIDATION_FAILED" (Lit invalid))
  | Some prepared => ret prepared
  end.

(** The file is what it was when the preparation began. *)
Definition unchanged_file (path : string) (before : SourceFileFingerprint)
    : M SourceFileFingerprint :=
  after <- fingerprint path true ;;
  if negb (bool_decide (before = after))
  then raise (preparation_failure "IMAGE_CHANGED_DURING_PREPARATION"
                (Lit "The source image changed during preparation"))
  else ret after.

(** [_materialize_ram_app] *)
Definition materialize_ram_app (target_key source_path : string)
    (expected_identity : option RamImageIdentity) (target_profile : TargetProfile)
    : M (PreparedRamImage * ImageOrigin) :=
  target <- lift (validate_target_profile target_key target_profile) ;;
  resolved <- resolve_local_image source_path ;;
  let '(path, kind, before, executable, executable_source) := resolved in
  prepared <- prepare_app prepare_ram_operation "RAM App preparation returned an invalid result"
                path target kind executable ;;
  after <- unchanged_file path before ;;
  identity <- lift (RamImageIdentity_post_init
    (mkRamImageIdentity (pr_entry_point prepared) (pr_total_words prepared) (pr_image_crc32 prepared))) ;;
  if match expected_identity with
     | Some expected => negb (bool_decide (identity = expected))
     | None => false
     end
  then raise (preparation_failure "IMAGE_CHANGED"
                (Lit "The RAM App no longer matches the selected RAM image"))
  else ret (prepared, mkOrigin after kind executable_source executable).

(** [_materialize_flash_app] *)
Definition materialize_flash_app (target_key : string) (target_profile : TargetProfile)
    (source_path : string) (expected_identity : option ImageIdentity)
    (expected_effective_sector_mask : option Z) : M (PreparedFlashImage * ImageOrigin) :=
  target <- lift (validate_target_profile target_key target_profile) ;;
  if match expected_effective_sector_mask with Some mask => mask <=? 0 | None => false end
  then raise (Err ValueError (Lit "expected_effective_sector_mask must be positive or None")) else
  resolved <- catch (resolve_local_image source_path) (λ exc, raise
    match exc with
    | PreparationFailure code m _ _ _ _ =>
        if bool_decide (code = "IMAGE_FILE_NOT_FOUND"%string)
        then failure_from "IMAGE_FILE_ACCESS_FAILED" exc else exc
    | _ => exc
    end) ;;
  let '(path, kind, before, executable, executable_source) := resolved in
  prepared <- prepare_app prepare_flash_operation "Flash App preparation returned an invalid result"
                path target kind executable ;;
  after <- unchanged_file path before ;;
  if match expected_identity with
     | Some expected => negb (bool_decide (pf_identity prepared = expected))
     | None => false
     end
     || match expected_effective_sector_mask with
        | Some mask => negb (pf_sector_mask prepared =? mask)
        | None => false
        end
  then raise (preparation_failure "IMAGE_CHANGED"
                (Lit "The Flash App no longer matches the selected Program image"))
  else ret (prepared, mkOrigin after kind executable_source executable).

(** [_service_identity_matches] *)
Definition service_identity_matches (expected : option PreparedFlashServiceSummary)
    (actual : PreparedFlashServiceSummary) : bool :=
  match expected with
  | None => false
  | Some expected =>
      bool_decide (
        mkServiceSummary (vs_target_key expected) (vs_provider_name expected)
          (vs_service_image_path expected) (vs_service_map_path expected)
          (vs_header_symbol expected) (vs_resource_revision expected)
          (vs_tool_configuration_revision actual) (vs_image_source_kind expected)
          (vs_image_fingerprint expected) (vs_map_fingerprint expected)
          (vs_header_address expected) (vs_total_words expected) (vs_expected_crc32 expected)
          (vs_required_capabilities expected) (vs_hex2000_source actual)
          (vs_hex2000_executable actual) = actual)
  end.

(** The exceptions of the preparation of the Flash service. *)
Definition service_preparation_error (exc : Exn) : Exn :=
  if isinstance exc Sci8ParseError then failure_from "IMAGE_PARSE_FAILED" exc
  else if isinstance exc Hex2000Error then failure_from "IMAGE_CONVERSION_FAILED" exc
  else if isinstance exc OSError then failure_from "SERVICE_FILE_ACCESS_FAILED" exc
  else if isinstance exc ValueError then failure_from "SERVICE_VALIDATION_FAILED" exc
  else exc.

(** The failure that an AppResourceError becomes. *)
Definition provider_failure (exc : Exn) : Exn :=
  if isinstance exc AppResourceError then
    PreparationFailure (resource_code exc) (exn_str exc) (resource_paths exc).1
      (resource_paths exc).2 true (Some (class_of exc))
  else exc.

(** The end of [_materialize_flash_service]. *)
Definition service_summary (target_key : string) (expected_state : option FlashServiceResourceState)
    (provider_name : string) (kind : ImageSourceKind) (image_after map_after : SourceFileFingerprint)
    (prepared : PreparedServiceImage) (executable_source : Hex2000Source)
    (executable : option string) : M PreparedFlashServiceSummary :=
  b <- self ;;
  lift (PreparedFlashServiceSummary_post_init
    (mkServiceSummary target_key provider_name (fp_resolved_path image_after)
       (fp_resolved_path map_after) DEFAULT_SERVICE_HEADER_SYMBOL
       (match expected_state with
        | Some state => st_revision state
        | None => st_revision (be_service_state b)
        end)
       (be_configuration_revision b) kind image_after map_after (sv_header_address prepared)
       (sv_total_words prepared) (sv_expected_crc32 prepared) (sv_required_capabilities prepared)
       executable_source executable)).

(** [_materialize_flash_service] *)
Definition materialize_flash_service (target_key : string) (target_profile : TargetProfile)
    (expected_state : option FlashServiceResourceState)
    : M (PreparedServiceImage * PreparedFlashServiceSummary) :=
  target <- lift (validate_target_profile target_key target_profile) ;;
  b <- self ;;
  match be_provider b with
  | None => raise (preparation_failure "APP_RESOURCE_PROVIDER_REQUIRED"
                     (Lit "No AppResourceProvider is configured"))
  | Some provider =>
      paths <- catch (resolve_service_resource_paths provider)
                 (λ exc, raise (provider_failure exc)) ;;
      let '(image_path, map_path) := paths in
      kind <- lift (source_kind image_path) ;;
      image_before <- fingerprint image_path false ;;
      map_before <- fingerprint map_path false ;;
      tool <- (if bool_decide (kind = ImageSourceKind.OUT)
               then tool <- locate_tool ;; ret (Some tool.1, tool.2)
               else ret (None, Hex2000Source.NOT_USED)) ;;
      prepared <- catch (env (prepare_service_operation image_path map_path target
                                DEFAULT_SERVICE_HEADER_SYMBOL tool.1
                                (empty_option (be_sci8_temp_dir b))))
                    (λ exc, raise (service_preparation_error exc)) ;;
      match prepared with
      | None => raise (Err TypeError (Lit "Flash Service preparation returned an invalid result"))
      | Some prepared =>
          image_after <- fingerprint image_path true ;;
          map_after <- fingerprint map_path true ;;
          if negb (bool_decide (image_before = image_after))
             || negb (bool_decide (map_before = map_after))
          then raise (preparation_failure "SERVICE_CHANGED_DURING_PREPARATION"
                        (Lit "A Flash Service input changed during preparation")) else
          summary <- service_summary target_key expected_state (ap_class_name provider) kind
                       image_after map_after prepared tool.2 tool.1 ;;
          if match expected_state with
             | Some state => negb (service_identity_matches (st_summary state) summary)
             | None => false
             end
          then raise (PreparationFailure "SERVICE_RESOURCE_CHANGED"
                        (Lit "Flash Service resources changed after validation")
                        (Some image_path) (Some map_path) true None)
          else ret (prepared, summary)
      end
  end.

(** ** Preparation tasks *)

(** [_build_image_summary] *)
Definition build_image_summary (request : PrepareFlashImageRequest) (prepared : PreparedFlashImage)
    (origin : ImageOrigin) : Res PreparedImageSummary :=
  let image_mask := image_sector_mask (pf_image prepared) in
  PreparedImageSummary_post_init
    (mkImageSummary (pfr_target_key request) (pfr_selection_revision request)
       (fp_resolved_path (io_fingerprint origin)) (io_source_kind origin) (io_fingerprint origin)
       (ii_entry_point (pf_identity prepared)) (ii_image_size_words (pf_identity prepared))
       (ii_image_crc32 (pf_identity prepared)) (ii_app_end (pf_identity prepared)) image_mask
       (pf_sector_mask prepared) (mask_bits image_mask) (io_executable_source origin)
       (io_executable origin)).

Definition image_selection_changed (message : string) : Exn :=
  preparation_failure "IMAGE_SELECTION_CHANGED" (Lit message).

(** The path of the request, resolved. *)
Definition requested_path (which : Selection) (source_path : string) : M string :=
  catch (lift (normalized_image_path which source_path))
    (λ exc, raise (if path_error exc then failure_from "INVALID_IMAGE_PATH" exc else exc)).

(** The first part of [_prepare_flash_image]: a target without an image takes
    the one of the request. *)
Definition adopt_program_image (cpu_id : RuntimeCpuId) (request : PrepareFlashImageRequest)
    : M TargetResourceState :=
  resource <- target_resource_of cpu_id ;;
  if bool_decide (tr_program_image_parse_status resource = ImageParseStatus.EMPTY)
     && empty_str (tr_program_image_path resource)
  then
    current <- current_revision ProgramSelection cpu_id ;;
    if negb (current =? 0)
    then raise (image_selection_changed "The selected image changed before preparation started")
    else
      set_revision ProgramSelection cpu_id (pfr_selection_revision request) ;;;
      dispatch_event (ProgramImageChanged cpu_id (pfr_source_path request)
                        ImageParseStatus.PARSING None None) ;;;
      target_resource_of cpu_id
  else ret resource.

(** The image is the selected one, and is being parsed. *)
Definition begin_program_preparation (cpu_id : RuntimeCpuId) (request : PrepareFlashImageRequest)
    (request_path : string) (resource : TargetResourceState) : M unit :=
  current_path <- lift (normalized_image_path ProgramSelection (tr_program_image_path resource)) ;;
  current <- current_revision ProgramSelection cpu_id ;;
  if negb (pfr_selection_revision request =? current)
     || negb (bool_decide (request_path = current_path))
  then raise (image_selection_changed "The selected image changed before preparation started")
  else if negb (bool_decide (tr_program_image_parse_status resource = ImageParseStatus.PARSING))
  then begin_parse ProgramSelection cpu_id request_path (pfr_selection_revision request) ;;; ret tt
  else ret tt.

(** The end of [_prepare_flash_image]: the selection did not change meanwhile. *)
Definition commit_program_image (cpu_id : RuntimeCpuId) (request : PrepareFlashImageRequest)
    (request_path : string) (prepared : PreparedFlashImage) : M unit :=
  current <- target_resource_of cpu_id ;;
  revision <- current_revision ProgramSelection cpu_id ;;
  unchanged <- (if negb (pfr_selection_revision request =? revision) then ret false
                else current_path <- lift (normalized_image_path ProgramSelection
                                             (tr_program_image_path current)) ;;
                     ret (bool_decide (request_path = current_path))) ;;
  if negb unchanged
  then raise (image_selection_changed "The selected image changed during preparation") else
  summary <- lift (FlashImageSummary_post_init
                     (mkFlashSummary (pf_identity prepared) (pf_sector_mask prepared))) ;;
  dispatch_event (ProgramImageChanged cpu_id (tr_program_image_path current) ImageParseStatus.READY
    (Some summary) None) ;;;
  ret tt.

(** [_prepare_flash_image] *)
Definition prepare_flash_image (task_id : string) (request : PrepareFlashImageRequest)
    (progress : TaskProgress) : M TaskExecutionResult :=
  cpu_id <- lift (from_target_key (pfr_target_key request)) ;;
  target_resource_of cpu_id ;;;
  request_path <- requested_path ProgramSelection (pfr_source_path request) ;;
  resource <- adopt_program_image cpu_id request ;;
  begin_program_preparation cpu_id request request_path resource ;;;
  let target_label := upper (pfr_target_key request) in
  publish_step task_id "prepare_flash_image" TaskStepState.STARTED "PREPARE_FLASH_IMAGE"
    ("Preparing " ++ target_label ++ " App image")%string progress ;;;
  target_profile <- resolve_target_profile (pfr_target_key request) ;;
  materialized <- materialize_flash_app (pfr_target_key request) target_profile
                    (pfr_source_path request) None None ;;
  let '(prepared, origin) := materialized in
  summary <- lift (build_image_summary request prepared origin) ;;
  let message := (target_label ++ " App image prepared")%string in
  publish_step task_id "prepare_flash_image" TaskStepState.COMPLETED "PREPARE_FLASH_IMAGE" message
    progress ;;;
  result <- lift (task_succeeded task_id "Image prepared" message [] (FlashImagePayload summary)) ;;
  commit_program_image cpu_id request request_path prepared ;;;
  ret result.

(** The resolved path of the RAM image, empty when there is none. *)
Definition current_ram_path (resource : TargetResourceState) : M string :=
  catch (lift (normalized_image_path RamSelection (tr_ram_image_path resource)))
    (λ exc, if path_error exc then ret EmptyString else raise exc).

(** The first part of [_prepare_ram_image]. *)
Definition begin_ram_preparation (cpu_id : RuntimeCpuId) (request : PrepareRamImageRequest)
    (request_path : string) : M unit :=
  resource <- target_resource_of cpu_id ;;
  revision <- current_revision RamSelection cpu_id ;;
  resource <- (if (revision =? 0) && (prr_selection_revision request =? 0)
                  && bool_decide (tr_ram_image_parse_status resource = ImageParseStatus.EMPTY)
                  && empty_str (tr_ram_image_path resource)
               then dispatch_event (RamImageChanged cpu_id (prr_source_path request)
                                      ImageParseStatus.PARSING None None) ;;;
                    target_resource_of cpu_id
               else ret resource) ;;
  current_path <- current_ram_path resource ;;
  if negb (prr_selection_revision request =? revision)
     || negb (bool_decide (request_path = current_path))
     || negb (bool_decide (tr_ram_image_parse_status resource = ImageParseStatus.PARSING))
  then raise (image_selection_changed "The RAM image selection changed")
  else ret tt.

(** The end of [_prepare_ram_image]. *)
Definition commit_ram_image (cpu_id : RuntimeCpuId) (request : PrepareRamImageRequest)
    (request_path : string) (summary : RamImageSummary) : M unit :=
  current <- target_resource_of cpu_id ;;
  current_path <- current_ram_path current ;;
  revision <- current_revision RamSelection cpu_id ;;
  if negb (prr_selection_revision request =? revision)
     || negb (bool_decide (request_path = current_path))
  then raise (image_selection_changed "The RAM image selection changed during preparation") else
  dispatch_event (RamImageChanged cpu_id (tr_ram_image_path current) ImageParseStatus.READY
                    (Some summary) None) ;;;
  ret tt.

(** [_prepare_ram_image] *)
Definition prepare_ram_image (task_id : string) (request : PrepareRamImageRequest)
    (progress : TaskProgress) : M TaskExecutionResult :=
  cpu_id <- lift (from_target_key (prr_target_key request)) ;;
  request_path <- requested_path RamSelection (prr_source_path request) ;;
  begin_ram_preparation cpu_id request request_path ;;;
  publish_step task_id "prepare_ram_image" TaskStepState.STARTED "PREPARE_RAM_IMAGE"
    "Preparing RAM image" progress ;;;
  target_profile <- resolve_target_profile (prr_target_key request) ;;
  materialized <- materialize_ram_app (prr_target_key request) (prr_source_path request) None
                    target_profile ;;
  let '(prepared, origin) := materialized in
  summary <- lift (PreparedRamImageSummary_post_init
    (mkRamSummaryOf (prr_target_key request) (prr_selection_revision request)
       (fp_resolved_path (io_fingerprint origin)) (io_source_kind origin) (io_fingerprint origin)
       (pr_entry_point prepared) (pr_total_words prepared) (pr_image_crc32 prepared)
       (io_executable_source origin) (io_executable origin))) ;;
  identity <- lift (RamImageIdentity_post_init
    (mkRamImageIdentity (pr_entry_point prepared) (pr_total_words prepared) (pr_image_crc32 prepared))) ;;
  publish_step task_id "prepare_ram_image" TaskStepState.COMPLETED "PREPARE_RAM_IMAGE"
    "RAM image prepared" progress ;;;
  commit_ram_image cpu_id request request_path (mkRamSummary identity) ;;;
  lift (task_succeeded task_id "RAM image prepared" "RAM image prepared" []
          (RamImagePayload summary)).

(** ** The Flash service *)

(** The first checks of [_prepare_flash_service]. *)
Definition check_service_request (request : PrepareFlashServiceRequest)
    (state : FlashServiceResourceState) (configuration_revision : Z) : Res unit :=
  fail (PreparationFailure "SERVICE_CONFIGURATION_CHANGED" (Lit "The Flash Service inputs changed")
          None None false None)
    when negb (psr_resource_revision request =? st_revision state)
         || negb (psr_tool_configuration_revision request =? configuration_revision) ;;
  fail (PreparationFailure
          (default "APP_RESOURCE_PROVIDER_REQUIRED"%string
             (str_or_else (st_error_code state) None))
          (Lit (default "Flash Service resources are unavailable"%string
                  (str_or_else (st_error_message state) None)))
          (st_image_path state) (st_map_path state) true None)
    when negb (isSome (st_image_path state)) || negb (isSome (st_map_path state)) ;;
  Ok tt.

(** [replace(summary, resource_revision=...)] *)
Definition with_resource_revision (revision : Z) (s : PreparedFlashServiceSummary)
    : PreparedFlashServiceSummary :=
  mkServiceSummary (vs_target_key s) (vs_provider_name s) (vs_service_image_path s)
    (vs_service_map_path s) (vs_header_symbol s) revision (vs_tool_configuration_revision s)
    (vs_image_source_kind s) (vs_image_fingerprint s) (vs_map_fingerprint s) (vs_header_address s)
    (vs_total_words s) (vs_expected_crc32 s) (vs_required_capabilities s) (vs_hex2000_source s)
    (vs_hex2000_executable s).

(** The validated service becomes the state; other contents than before count
    as a change. *)
Definition commit_service (request : PrepareFlashServiceRequest) (state : FlashServiceResourceState)
    (summary : PreparedFlashServiceSummary) : M PreparedFlashServiceSummary :=
  let changed := match st_summary state with
                 | Some expected => negb (service_identity_matches (Some expected) summary)
                 | None => false
                 end in
  let revision := st_revision state + (if changed then 1 else 0) in
  summary <- (if changed
              then lift (PreparedFlashServiceSummary_post_init
                           (with_resource_revision revision summary))
              else ret summary) ;;
  b <- self ;;
  if negb (psr_resource_revision request =? st_revision (be_service_state b))
     || negb (psr_tool_configuration_revision request =? be_configuration_revision b)
  then raise (preparation_failure "SERVICE_CONFIGURATION_CHANGED"
                (Lit "The Flash Service inputs changed during preparation")) else
  set_service_state
    (mkServiceState revision (vs_provider_name summary) (Some (vs_service_image_path summary))
       (Some (vs_service_map_path summary)) FlashServiceResourceStatus.READY (Some summary)
       None None) ;;;
  ret summary.

(** [_prepare_flash_service] *)
Definition prepare_flash_service (task_id : string) (request : PrepareFlashServiceRequest)
    (progress : TaskProgress) : M TaskExecutionResult :=
  b <- self ;;
  let state := be_service_state b in
  lift (check_service_request request state (be_configuration_revision b)) ;;;
  let target_key := psr_target_key request in
  target_profile <- resolve_target_profile target_key ;;
  let target_label := upper target_key in
  publish_step task_id "prepare_flash_service" TaskStepState.STARTED "PREPARE_FLASH_SERVICE"
    ("Preparing " ++ target_label ++ " Flash Service")%string progress ;;;
  set_service_state
    (mkServiceState (st_revision state) (st_provider_name state) (st_image_path state)
       (st_map_path state) FlashServiceResourceStatus.UNVALIDATED None None None) ;;;
  materialized <- materialize_flash_service target_key target_profile None ;;
  let summary := materialized.2 in
  if negb (bool_decide (vs_provider_name summary = st_provider_name state))
     || negb (bool_decide (Some (vs_service_image_path summary) = st_image_path state))
     || negb (bool_decide (Some (vs_service_map_path summary) = st_map_path state))
  then raise (PreparationFailure "SERVICE_RESOURCE_CHANGED"
                (Lit "Flash Service provider paths changed during validation")
                (Some (vs_service_image_path summary)) (Some (vs_service_map_path summary))
                true None) else
  summary <- commit_service request state summary ;;
  let message := (target_label ++ " Flash Service prepared")%string in
  publish_step task_id "prepare_flash_service" TaskStepState.COMPLETED "PREPARE_FLASH_SERVICE"
    message progress ;;;
  lift (task_succeeded task_id message message [] (ServicePayload summary)).
End backend.
