(* ===== verification/BackendStatus.v ===== *)
(** * Reading from the connected target (gui/runtime_backend.py)

    The connection that an operation captures and checks again, the foreground
    execution that records protocol activity and communication errors, the
    maintenance ping, and the status reads.

    A captured connection is the tuple of [_status_connection].  The executor in
    it is the one of its generation, and profiles are compared by their
    contents: a backend has one executor and one profile per connection. *)

From stdpp Require Import gmap.
From S2P Require Import Prelude.
From S2P Require Import Errors.
From S2P Require Import Constants.
From S2P Require Import Messages.
From S2P Require Import TaskPlans.
From S2P Require Import Models.
From S2P Require Import Targets.
From S2P Require Import BootClient.
From S2P Require Import OperationResults.
From S2P Require Import StatusModels.
From S2P Require Import RamOps.
From S2P Require Import RuntimeValues.
From S2P Require Import RuntimeModels.
From S2P Require Import CommandExecutor.
From S2P Require Import ImageRequests.
From S2P Require Import OperationRequests.
From S2P Require Import TaskModels.
From S2P Require Import RuntimeStore.
From S2P Require Import RuntimeDispatch.
From S2P Require Import Backend.
From S2P Require Import BackendConnection.

(** ** Profiles as values *)

#[export] Instance AddressRange_eq_dec : EqDecision MemoryMap.AddressRange.
Proof. solve_decision. Defined.
#[export] Instance FlashSector_eq_dec : EqDecision FlashSector.
Proof. solve_decision. Defined.
#[export] Instance FlashLayout_eq_dec : EqDecision FlashLayout.
Proof. solve_decision. Defined.
#[export] Instance RamLayout_eq_dec : EqDecision RamLayout.
Proof. solve_decision. Defined.
#[export] Instance MetadataLayout_eq_dec : EqDecision MetadataLayout.
Proof. solve_decision. Defined.
#[export] Instance TargetMemoryMap_eq_dec : EqDecision TargetMemoryMap.
Proof. solve_decision. Defined.

Definition CommandFields : list CommandField :=
  [ping; get_device_info; get_protocol_info; get_last_error; get_service_status; service_attach;
   ram_load_begin; ram_load_data; ram_load_end; ram_check_crc; run_ram; erase; program_begin;
   program_data; program_end; verify_begin; verify_data; verify_end; memory_read;
   get_metadata_summary; metadata_append_record; run; reset; boot_cpu2_run_cpu1;
   boot_cpu2_reset_cpu1].

Definition same_profile (a b : TargetProfile) : bool :=
  bool_decide (tp_name a = tp_name b) && (tp_cpu_id a =? tp_cpu_id b)
  && forallb (λ field, bool_decide (tp_command_set a field = tp_command_set b field)) CommandFields
  && bool_decide (tp_memory_map a = tp_memory_map b).

(** [cpu_id.value] *)
Definition RuntimeCpuId_value (cpu_id : RuntimeCpuId) : string :=
  match cpu_id with CPU1 => "cpu1" | CPU2 => "cpu2" end.

(** [ActiveTargetContext] *)
Record ActiveTargetContext : Type := mkActiveTarget {
  at_cpu_id : RuntimeCpuId;
  at_target_key : string;
  at_connection : ConnectionRuntimeState;
  at_profile : TargetProfile;
  at_resource : TargetResourceState;
}.

(** The tuple of [_status_connection]. *)
Record Captured (Session : Type) : Type := mkCaptured {
  ca_session : Session;
  ca_profile : TargetProfile;
  ca_connection_id : string;
  ca_target_key : string;
  ca_generation : ConnectionGeneration;
}.
Arguments mkCaptured {Session}.
Arguments ca_session {Session}.
Arguments ca_profile {Session}.
Arguments ca_connection_id {Session}.
Arguments ca_target_key {Session}.
Arguments ca_generation {Session}.

(** The value of a dictionary as an object of the store; a container has the
    depth it is at for its identity, which nothing else looks at. *)
Fixpoint object_of (depth : Z) (v : PyVal) : object :=
  match v with
  | VNone => OAtom ANone
  | VBool b => OAtom (ABool b)
  | VInt z => OAtom (AInt z)
  | VStr s => OAtom (AStr s)
  | VSeq l => OList depth (map (object_of (depth + 1)) l)
  | VDict l => OMapping depth false (map (λ kv, (AStr kv.1, object_of (depth + 1) kv.2)) l)
  end.

(** [_read_error] *)
Definition read_error (result : OperationResult) : Res RuntimeReadError :=
  RuntimeReadError_post_init
    match or_error result with
    | None => mkReadError "READ_FAILED" (or_stage result) (or_stage result)
    | Some error => mkReadError (ei_code error) (text_of (ei_message error)) (ei_stage error)
    end.

(** [RuntimeReadError(type(exc).__name__, str(exc) or type(exc).__name__, stage)] *)
Definition exception_error (exc : Exn) (stage : string) : Res RuntimeReadError :=
  RuntimeReadError_post_init
    (mkReadError (exn_name exc) (str_or (exn_name exc) (str_exn exc)) stage).

(** A failed operation with a communication error. *)
Definition communication_failure (result : OperationResult) : option OperationErrorInfo :=
  if bool_decide (or_completion result = Some OperationCompletion.FAILED) then
    match or_error result with
    | Some error => if bool_decide (ei_domain error = COMMUNICATION) then Some error else None
    | None => None
    end
  else None.

Section backend.
Context {E Session Transport : Type} `{EqDecision Session} `{Ports E Session Transport}.

Abbreviation M := (B E Session Transport).
Abbreviation TaskProgress := (Progress E).

(** ** The active connection *)

(** [active_target_context] *)
Definition active_target_context : M (option ActiveTargetContext) :=
  runtime <- runtime_v2_snapshot ;;
  b <- self ;;
  ret match rv_connection runtime, be_connection_info b, be_target b, be_device_info b with
      | Some connection, Some info, Some profile, Some device_info =>
          match from_target_key (ci_target_key info) with
          | Raise _ => None
          | Ok cpu_id =>
              match rv_target_resources runtime !! cpu_id with
              | Some resource =>
                  if bool_decide (cr_connection_id connection = ci_connection_id info)
                     && bool_decide (cr_generation connection = rv_connection_generation runtime)
                     && bool_decide (cr_cpu_id connection = cpu_id)
                     && (tp_cpu_id profile =? di_cpu_id device_info)
                     && bool_decide (RuntimeCpuId_value cpu_id = cpu_key (tp_cpu_id profile))
                     && bool_decide (tr_cpu_id resource = cpu_id)
                  then Some (mkActiveTarget cpu_id (ci_target_key info) connection profile resource)
                  else None
              | None => None
              end
          end
      | _, _, _, _ => None
      end.

(** [memory_read_availability] *)
Definition memory_read_availability (target_key : string) : M (bool * string) :=
  match from_target_key target_key with
  | Raise exc => ret (false, str_exn exc)
  | Ok requested_cpu =>
      context <- active_target_context ;;
      b <- self ;;
      ret match context, be_device_info b with
          | Some context, Some device_info =>
              if negb (bool_decide (requested_cpu = at_cpu_id context))
                 || negb (bool_decide (target_key = at_target_key context))
              then (false, "Memory page does not match the active target"%string)
              else if negb (bool_decide (RuntimeCpuId_value requested_cpu =
                                         cpu_key (di_cpu_id device_info)))
              then (false, "DeviceInfo CPU does not match the Memory page"%string)
              else if Z.land (di_feature_flags device_info) Feature.Feature_MEMORY_READ =? 0
              then (false, "Connected target does not advertise MEMORY_READ"%string)
              else if negb (isSome (tp_command_set (at_profile context) memory_read))
              then (false, "Active target profile does not provide MEMORY_READ"%string)
              else (true, EmptyString)
          | _, _ => (false, "No ready active target"%string)
          end
  end.

(** [current[0] is expected[0] and current[1] is expected[1] and
    current[2:] == expected[2:]] *)
Definition same_capture (current expected : Captured Session) : bool :=
  bool_decide (ca_session current = ca_session expected)
  && same_profile (ca_profile current) (ca_profile expected)
  && bool_decide (ca_connection_id current = ca_connection_id expected)
  && bool_decide (ca_target_key current = ca_target_key expected)
  && bool_decide (ca_generation current = ca_generation expected).

(** [_status_connection] *)
Definition status_connection (connection_id : string) (expected : option (Captured Session))
    : M (option (Captured Session)) :=
  context <- active_target_context ;;
  b <- self ;;
  ret match be_session b, context, be_executor b with
      | Some session, Some context, Some executor =>
          let connection := at_connection context in
          if bool_decide (cr_connection_id connection = connection_id) && ce_valid executor
             && (ce_generation executor =? cg_value (cr_generation connection))
          then
            let current := mkCaptured session (at_profile context) (cr_connection_id connection)
                             (at_target_key context) (cr_generation connection) in
            match expected with
            | Some expected => if same_capture current expected then Some current else None
            | None => Some current
            end
          else None
      | _, _, _ => None
      end.

(** ** Foreground execution *)

(** [_record_communication_error] *)
Definition record_communication_error (generation : ConnectionGeneration)
    (code message stage : string) (details : Dict) (occurred_at : option datetime) : M unit :=
  occurred_at <- match occurred_at with
                 | Some occurred_at => ret occurred_at
                 | None => env maintenance_clock
                 end ;;
  error <- lift (RuntimeCommunicationError_post_init
    (mkCommunicationError code message stage occurred_at (object_of 0 (VDict details)))) ;;
  dispatch_event (CommunicationErrorRecorded generation error) ;;;
  ret tt.

(** The executor of the backend, as the calls of the executor see it. *)
Definition executor_of (w : BackendWorld E Session Transport) : Executor :=
  default (invalidate (Executor_init 0)) (be_executor (bw_backend w)).
Definition put_executor (e : Executor) (w : BackendWorld E Session Transport)
    : BackendWorld E Session Transport :=
  mkBackendWorld (with_executor (Some e) (bw_backend w)) (bw_env w).

(** [_execute_connected_foreground]; [results] are the results among what the
    action returns. *)
Definition execute_connected_foreground {A} (captured : Captured Session)
    (results : A → list OperationResult) (action : Session → M A) : M A :=
  let generation := ca_generation captured in
  notify_maintenance MaintenanceHook.foreground_command_started generation ;;;
  try_finally (
    result <- execute_foreground executor_of put_executor (cg_value generation)
                (action (ca_session captured)) ;;
    occurred_at <- env maintenance_clock ;;
    dispatch_event (ProtocolActivityRecorded generation occurred_at) ;;;
    notify_maintenance MaintenanceHook.protocol_activity generation ;;;
    for_each (results result) (λ r,
      match communication_failure r with
      | Some error => record_communication_error generation (ei_code error)
                        (text_of (ei_message error)) (ei_stage error) (ei_details error) None
      | None => ret tt
      end) ;;;
    ret result)
  (notify_maintenance MaintenanceHook.foreground_command_finished generation).

(** The results of an action that returns one. *)
Definition one_result (r : option OperationResult) : list OperationResult :=
  match r with Some r => [r] | None => [] end.

(** ** The maintenance ping *)

(** The outcome of a ping: the state, and for an unhealthy one the error and
    its domain. *)
Inductive PingOutcome : Type :=
| Healthy
| Unhealthy (error : RuntimeReadError) (domain : option ErrorDomain).

Definition ping_state (outcome : PingOutcome) : ConnectionHealthState :=
  match outcome with
  | Healthy => ConnectionHealthState.HEALTHY
  | Unhealthy _ _ => ConnectionHealthState.UNHEALTHY
  end.

Definition ping_session : M PingOutcome :=
  b <- self ;;
  catch (match be_session b with
         | Some session => env (session_ping session) ;;; ret Healthy
         | None => raise (Err AttributeError (Lit "'NoneType' object has no attribute 'client'"))
         end)
    (λ exc, error <- lift (exception_error exc "PING") ;;
            ret (Unhealthy error (classify_exception_domain exc))).

(** [try_execute_maintenance_ping] *)
Definition try_execute_maintenance_ping (generation : ConnectionGeneration)
    : M (MaintenanceExecutionResult ConnectionHealthState) :=
  b <- self ;;
  match be_executor b with
  | None => ret (mkMaintenance MaintenanceExecutionStatus.EXECUTOR_CLOSED None)
  | Some _ =>
      result <- try_execute_maintenance executor_of put_executor (cg_value generation)
                  ping_session ;;
      match mx_value result with
      | None => ret (mkMaintenance (mx_status result) None)
      | Some outcome =>
          checked_at <- env maintenance_clock ;;
          match outcome with
          | Healthy =>
              dispatch_event (ProtocolActivityRecorded generation checked_at) ;;;
              dispatch_event (ConnectionHealthChanged generation ConnectionHealthState.HEALTHY
                                checked_at None) ;;;
              notify_maintenance MaintenanceHook.protocol_activity generation
          | Unhealthy error domain =>
              dispatch_event (ConnectionHealthChanged generation ConnectionHealthState.UNHEALTHY
                                checked_at (Some error)) ;;;
              (if bool_decide (domain = Some COMMUNICATION)
               then record_communication_error generation (re_code error) (re_message error)
                      (re_stage error) [] (Some checked_at)
               else ret tt)
          end ;;;
          ret (mkMaintenance MaintenanceExecutionStatus.EXECUTED (Some (ping_state outcome)))
      end
  end.

(** ** Status reads *)

(** [_dispatch_metadata_failure], [_dispatch_diagnostic_failure]: the event is
    dispatched if the connection is still there. *)
Definition dispatch_failure (captured : Captured Session) (event : RuntimeCpuId → DomainEvent)
    : M unit :=
  current <- status_connection (ca_connection_id captured) (Some captured) ;;
  if isSome current then
    cpu_id <- lift (from_target_key (ca_target_key captured)) ;;
    dispatch_event (event cpu_id) ;;;
    ret tt
  else ret tt.

Definition dispatch_metadata_failure (captured : Captured Session) (error : RuntimeReadError)
    : M unit :=
  dispatch_failure captured (λ cpu_id, MetadataReadFailed cpu_id (ca_generation captured) error).
Definition dispatch_diagnostic_failure (captured : Captured Session) (group : DiagnosticGroup)
    (error : RuntimeReadError) : M unit :=
  dispatch_failure captured
    (λ cpu_id, DiagnosticReadFailed cpu_id (ca_generation captured) group error).

(** [request.create_plan(task_id).steps[0]] *)
Definition first_step (task_id : string) (request : StatusRequest) : Res TaskStepPlan :=
  let? plan := StatusRequest_create_plan request task_id in
  match pl_steps plan with
  | step :: _ => Ok step
  | [] => Raise (Err LookupError (Lit "list index out of range"))
  end.

Definition StatusOperation : Type := Session → TargetProfile → ST E (option OperationResult).

(** [_call_status_operation], and the check of what it returns *)
Definition call_status_operation (task_id : string) (request : StatusRequest) (stage : string)
    (operation : StatusOperation) (captured : Captured Session) (progress : TaskProgress)
    : M OperationResult :=
  step <- lift (first_step task_id request) ;;
  publish_step task_id (sp_step_id step) TaskStepState.STARTED stage (sp_title step) progress ;;;
  result <- execute_connected_foreground captured one_result
              (λ session, env (operation session (ca_profile captured))) ;;
  lift (operation_result_of "status operation returned an invalid result" result).

(** [_complete_status_step] *)
Definition complete_status_step (task_id : string) (request : StatusRequest)
    (result : OperationResult) (progress : TaskProgress) : M unit :=
  step <- lift (first_step task_id request) ;;
  publish_step task_id (sp_step_id step) TaskStepState.COMPLETED (or_stage result)
    (or_operation result) progress.

(** [_status_success] *)
Definition status_success (task_id : string) (result : OperationResult) (snapshot : StatusSnapshot)
    : Res TaskExecutionResult :=
  task_succeeded task_id (or_operation result) (or_stage result) [StepOperation result]
    (StatusPayload snapshot).

(** [_status_operation_failure] *)
Definition status_operation_failure (task_id : string) (result : OperationResult)
    : Res TaskExecutionResult :=
  match or_error result with
  | None => Raise (Err RuntimeError (Lit "failed status operation did not provide error details"))
  | Some error =>
      let ask := bool_decide (ei_code error ∈ ["PROTOCOL_ERROR"; "TARGET_MISMATCH"]) in
      let? gui_error := GuiRuntimeError_post_init
        (mkGuiError (ei_code error) (text_of (ei_message error)) (ei_stage error)
           (if ask then ErrorDisposition.ASK_DISCONNECT else ErrorDisposition.SHOW_ONLY)
           (Some task_id) (ei_recoverable error) ask (ei_details error) None
           (Some (ei_domain error))) in
      TaskExecutionResult_post_init
        (mkTaskResult task_id TaskFinalStatus.FAILED (failed_summary (ei_domain error))
           (or_stage result) [StepOperation result] NoPayload None (Some gui_error)
           TaskCompletionAction.NONE false)
  end.

(** [_target_mismatch_failure] *)
Definition target_mismatch_failure (task_id : string) (result : OperationResult)
    (expected actual : DeviceInfo) : Res TaskExecutionResult :=
  let? error := GuiRuntimeError_post_init
    (mkGuiError "TARGET_MISMATCH" "DeviceInfo changed from the connected target identity"
       (or_stage result) ErrorDisposition.ASK_DISCONNECT (Some task_id) true true
       [("expected_device_id"%string, VInt (di_device_id expected));
        ("expected_cpu_id"%string, VInt (di_cpu_id expected));
        ("actual_device_id"%string, VInt (di_device_id actual));
        ("actual_cpu_id"%string, VInt (di_cpu_id actual))] None (Some OPERATION)) in
  TaskExecutionResult_post_init
    (mkTaskResult task_id TaskFinalStatus.FAILED (or_operation result) (or_stage result)
       [StepOperation result] NoPayload None (Some error) TaskCompletionAction.NONE false).

(** [_stale_status_failure] *)
Definition step_results (result : option OperationResult) : list StepResult :=
  match result with Some result => [StepOperation result] | None => [] end.

Definition stale_status_failure (task_id : string) (result : option OperationResult)
    : Res TaskExecutionResult :=
  failed_result task_id "STALE_CONNECTION"
    "The status result belongs to a connection that is no longer active" "status"
    "Status read failed" true [] (step_results result) None.

(** What a read comes to: the result of the task, or a failure that is
    reported once more after the [try]. *)
Inductive Attempt : Type :=
| Done (r : TaskExecutionResult)
| Reported (error : Res RuntimeReadError) (r : Res TaskExecutionResult).

(** A status read up to the snapshot. [read] makes it from the result. *)
Definition attempt_read (task_id : string) (request : StatusRequest) (stage : string)
    (operation : StatusOperation) (captured : Captured Session) (progress : TaskProgress)
    (failed : OperationResult → M Attempt)
    (read : OperationResult → M (Attempt + StatusSnapshot))
    (succeeded : StatusSnapshot → M unit) : M Attempt :=
  result <- call_status_operation task_id request stage operation captured progress ;;
  let stale := result <- lift (stale_status_failure task_id (Some result)) ;; ret (Done result) in
  current <- status_connection (sr_connection_id request) (Some captured) ;;
  if negb (isSome current) then stale
  else if negb (or_ok result) then failed result
  else
    value <- read result ;;
    match value with
    | inl attempt => ret attempt
    | inr snapshot =>
        complete_status_step task_id request result progress ;;;
        final_result <- lift (status_success task_id result snapshot) ;;
        current <- status_connection (sr_connection_id request) (Some captured) ;;
        if negb (isSome current) then stale
        else succeeded snapshot ;;; ret (Done final_result)
    end.

(** The status reads that end in the diagnostics. *)
Definition read_diagnostic (task_id : string) (request : StatusRequest) (group : DiagnosticGroup)
    (stage : string) (operation : StatusOperation) (progress : TaskProgress)
    (read : Captured Session → OperationResult → M (Attempt + StatusSnapshot))
    (commit : StatusSnapshot → M unit) : M TaskExecutionResult :=
  captured <- status_connection (sr_connection_id request) None ;;
  match captured with
  | None => lift (stale_status_failure task_id None)
  | Some captured =>
      attempt <- catch
        (attempt_read task_id request stage operation captured progress
           (λ result, ret (Reported (read_error result) (status_operation_failure task_id result)))
           (read captured)
           (λ snapshot,
              commit snapshot ;;;
              cpu_id <- lift (from_target_key (ca_target_key captured)) ;;
              dispatch_event (DiagnosticReadSucceeded cpu_id (ca_generation captured) group
                                (OStatus snapshot)) ;;;
              ret tt))
        (λ exc, error <- lift (exception_error exc stage) ;;
                dispatch_diagnostic_failure captured group error ;;;
                raise exc) ;;
      match attempt with
      | Done result => ret result
      | Reported error result =>
          error <- lift error ;;
          dispatch_diagnostic_failure captured group error ;;;
          lift result
      end
  end.

(** [_read_device_info_status] *)
Definition read_device_info (task_id : string) (request : StatusRequest) (captured : Captured Session)
    (result : OperationResult) : M (Attempt + StatusSnapshot) :=
  info <- lift (DeviceInfo_of_dict (or_summary result)) ;;
  b <- self ;;
  match be_device_info b with
  | None => raise (Err RuntimeError (Lit "connected target is missing discovery DeviceInfo"))
  | Some discovered =>
      if negb (di_device_id info =? di_device_id discovered)
         || negb (di_cpu_id info =? di_cpu_id discovered)
      then ret (inl (Reported
        (RuntimeReadError_post_init (mkReadError "TARGET_MISMATCH"
           "DeviceInfo changed from the connected target identity" (or_stage result)))
        (target_mismatch_failure task_id result discovered info)))
      else
        snapshot <- lift (StatusSnapshot_post_init
          (DeviceInfoStatusSnapshot (sr_connection_id request) (ca_target_key captured) result
             info)) ;;
        ret (inr snapshot)
  end.

(** [self._device_info = info] *)
Definition keep_device_info (snapshot : StatusSnapshot) : M unit :=
  match snapshot with
  | DeviceInfoStatusSnapshot _ _ _ info => set (with_device_info (Some info))
  | _ => ret tt
  end.

Definition read_device_info_status (task_id : string) (request : StatusRequest)
    (progress : TaskProgress) : M TaskExecutionResult :=
  read_diagnostic task_id request DiagnosticGroup.DEVICE_INFO "GET_DEVICE_INFO"
    device_info_operation progress (read_device_info task_id request) keep_device_info.

(** [_read_protocol_info_status] *)
Definition read_protocol_info_status (task_id : string) (request : StatusRequest)
    (progress : TaskProgress) : M TaskExecutionResult :=
  read_diagnostic task_id request DiagnosticGroup.PROTOCOL_INFO "GET_PROTOCOL_INFO"
    protocol_info_operation progress
    (λ captured result,
       info <- lift (ProtocolInfo_of_dict (or_summary result)) ;;
       snapshot <- lift (StatusSnapshot_post_init
         (ProtocolInfoStatusSnapshot (sr_connection_id request) (ca_target_key captured) result
            info)) ;;
       ret (inr snapshot))
    (λ _, ret tt).

(** [_read_last_error_status] *)
Definition read_last_error_status (task_id : string) (request : StatusRequest)
    (progress : TaskProgress) : M TaskExecutionResult :=
  read_diagnostic task_id request DiagnosticGroup.LAST_ERROR "GET_LAST_ERROR"
    last_error_operation progress
    (λ captured result,
       detail <- lift (ErrorDetail_of_dict (or_summary result)) ;;
       snapshot <- lift (StatusSnapshot_post_init
         (LastErrorStatusSnapshot (sr_connection_id request) (ca_target_key captured) result
            detail)) ;;
       ret (inr snapshot))
    (λ _, ret tt).

(** [_loaded_image_match] *)
Definition loaded_image_match (target_key : string) (raw : MetadataSummary) (image_valid : bool)
    : M LoadedImageMatch :=
  if negb image_valid then ret LoadedImageMatch.NO_VALID_TARGET_IMAGE else
  match from_target_key target_key with
  | Raise _ => ret LoadedImageMatch.NO_PREPARED_IMAGE
  | Ok cpu_id =>
      runtime <- runtime_v2_snapshot ;;
      ret match rv_target_resources runtime !! cpu_id with
          | Some resource =>
              match tr_program_image_summary resource with
              | Some summary =>
                  let identity := fs_identity summary in
                  if negb (bool_decide (tr_cpu_id resource = cpu_id))
                  then LoadedImageMatch.NO_PREPARED_IMAGE
                  else if (ii_entry_point identity =? ms_entry_point raw)
                          && (ii_image_size_words identity =? ms_image_size_words raw)
                          && (ii_image_crc32 identity =? ms_image_crc32 raw)
                  then LoadedImageMatch.MATCH else LoadedImageMatch.MISMATCH
              | None => LoadedImageMatch.NO_PREPARED_IMAGE
              end
          | None => LoadedImageMatch.NO_PREPARED_IMAGE
          end
  end.

(** [_metadata_snapshot] *)
Definition metadata_snapshot (connection_id : string) (automatic : bool) (target_key : string)
    (result : OperationResult) (raw : MetadataSummary) : M MetadataStatusSnapshot :=
  b <- self ;;
  match be_device_info b with
  | None => raise (Err RuntimeError (Lit "connected target is missing discovery DeviceInfo"))
  | Some info =>
      let metadata_valid :=
        negb (ms_metadata_valid raw =? 0)
        && (ms_state raw =? MetadataScanState.MetadataScanState_value MetadataScanState.VALID) in
      let image_valid :=
        metadata_valid && negb (ms_entry_point raw =? 0) && negb (ms_image_size_words raw =? 0)
        && negb (ms_image_crc32 raw =? 0) && (ms_target_device_id raw =? di_device_id info)
        && (ms_target_cpu_id raw =? di_cpu_id info) in
      let in_app_range :=
        match profile ← be_target b; mp_flash (tp_memory_map profile) with
        | Some flash => existsb (λ r, MemoryMap.contains r (ms_entry_point raw)) (fl_app_ranges flash)
        | None => false
        end in
      let entry_point_valid := image_valid && (ms_entry_point raw mod 8 =? 0) && in_app_range in
      let boot_attempt_present := image_valid && (ms_boot_attempt_count raw >? 0) in
      let app_confirmed := image_valid && negb (ms_app_confirmed raw =? 0) in
      match_ <- loaded_image_match target_key raw image_valid ;;
      lift (MetadataStatusSnapshot_post_init
        (mkMetadataSnapshot connection_id target_key result raw metadata_valid image_valid
           entry_point_valid boot_attempt_present app_confirmed
           (metadata_valid && image_valid && entry_point_valid && boot_attempt_present
            && app_confirmed) match_ automatic))
  end.

(** [self._metadata_operation], whose result is only checked to be one. *)
Definition metadata_status_operation : StatusOperation := λ session profile,
  returned <- metadata_operation session profile ;; ret (returned_result returned).

(** [_read_metadata_status] *)
Definition read_metadata_status (task_id connection_id : string) (automatic : bool)
    (progress : TaskProgress) : M TaskExecutionResult :=
  let request := MetadataRefreshRequest connection_id automatic in
  captured <- status_connection connection_id None ;;
  match captured with
  | None => lift (stale_status_failure task_id None)
  | Some captured =>
      attempt <- catch
        (attempt_read task_id request "GET_METADATA_SUMMARY" metadata_status_operation captured
           progress
           (λ result,
              error <- lift (read_error result) ;;
              dispatch_metadata_failure captured error ;;;
              failure <- lift (status_operation_failure task_id result) ;;
              ret (Done failure))
           (λ result,
              raw <- lift (MetadataSummary_of_dict (or_summary result)) ;;
              snapshot <- metadata_snapshot connection_id automatic (ca_target_key captured)
                            result raw ;;
              ret (inr (MetadataSnapshot snapshot)))
           (λ snapshot,
              cpu_id <- lift (from_target_key (ca_target_key captured)) ;;
              dispatch_event (MetadataReadSucceeded cpu_id (ca_generation captured)
                                (OStatus snapshot)) ;;;
              ret tt))
        (λ exc, error <- lift (exception_error exc "GET_METADATA_SUMMARY") ;;
                dispatch_metadata_failure captured error ;;;
                raise exc) ;;
      match attempt with
      | Done result | Reported _ (Ok result) => ret result
      | Reported _ (Raise exc) => raise exc
      end
  end.

(** [metadata_status_snapshot] *)
Definition metadata_status_snapshot : M (option MetadataStatusSnapshot) :=
  runtime <- runtime_v2_snapshot ;;
  ret match md_value (rv_metadata_state runtime) with
      | OStatus (MetadataSnapshot snapshot) => Some snapshot
      | _ => None
      end.

(** ** Memory *)

(** [_memory_task_failure] *)
Definition memory_task_failure (task_id code message : string) (result : option OperationResult)
    : Res TaskExecutionResult :=
  failed_result task_id code message "MEMORY_READ" "Memory read failed" true []
    (step_results result) None.

(** [f'cpu{int(device_info.cpu_id)}'] is the CPU. *)
Definition is_device_cpu (cpu_id : RuntimeCpuId) (device_info : option DeviceInfo) : bool :=
  match device_info with
  | Some device_info =>
      bool_decide (RuntimeCpuId_value cpu_id = cpu_key (di_cpu_id device_info))
  | None => false
  end.

(** [_memory_request_is_current] *)
Definition memory_request_is_current (request : MemoryRefreshRequest) (captured : Captured Session)
    (requested_cpu : RuntimeCpuId) : M bool :=
  context <- active_target_context ;;
  b <- self ;;
  current <- status_connection (mf_connection_id request) (Some captured) ;;
  if negb (isSome current) then ret false else
  generation <- connection_generation ;;
  ret (bool_decide (generation = mf_expected_connection_generation request)
       && match context with
          | Some context =>
              bool_decide (at_target_key context = mf_target_key request)
              && bool_decide (mf_target_key request = ca_target_key captured)
              && bool_decide (at_cpu_id context = requested_cpu)
              && same_profile (at_profile context) (ca_profile captured)
          | None => false
          end
       && is_device_cpu requested_cpu (be_device_info b)).

(** [tuple(s)] *)
Fixpoint characters (s : string) : list PyVal :=
  match s with
  | EmptyString => []
  | String c s => VStr (String c EmptyString) :: characters s
  end.

(** [tuple(result.details['words'])] *)
Definition result_words (result : OperationResult) : Res (list PyVal) :=
  match dict_get "words" (or_details result) with
  | None => Raise (Err KeyError (Lit "'words'"))
  | Some (VSeq l) => Ok l
  | Some (VDict l) => Ok (map (λ kv, VStr kv.1) l)
  | Some (VStr s) => Ok (characters s)
  | Some v => Raise (Err TypeError (Fmt "'{}' object is not iterable"
      [VStr match v with VBool _ => "bool" | VInt _ => "int" | _ => "NoneType" end%string]))
  end.

(** [type(word) is int and 0 <= word <= 0xFFFF] for all the words. *)
Fixpoint uint16_words (l : list PyVal) : option (list Z) :=
  match l with
  | [] => Some []
  | VInt w :: l =>
      if (0 <=? w) && (w <=? 0xFFFF) then cons w <$> uint16_words l else None
  | _ :: _ => None
  end.

(** [_invalid_memory_result] *)
Definition invalid_memory_result (task_id : string) (request : MemoryRefreshRequest)
    (cpu_id : RuntimeCpuId) (result : OperationResult) (message : string)
    : M TaskExecutionResult :=
  error <- lift (RuntimeReadError_post_init
    (mkReadError "INVALID_OPERATION_RESULT" message (or_stage result))) ;;
  dispatch_event (MemoryReadFailed cpu_id (mf_expected_connection_generation request) error) ;;;
  lift (memory_task_failure task_id (re_code error) (re_message error) (Some result)).

(** The checks of [_execute_memory_read] before it reads: the CPU, or the
    failure. *)
Definition check_memory_request (task_id : string) (request : MemoryRefreshRequest)
    (captured : Captured Session) : M (Flow RuntimeCpuId) :=
  let failure code message :=
    result <- lift (memory_task_failure task_id code message None) ;; ret (Return result) in
  if negb (bool_decide (mf_expected_connection_generation request = ca_generation captured))
  then failure "STALE_CONNECTION"%string
         "The Memory request belongs to an old connection generation"%string else
  requested_cpu <- lift (from_target_key (mf_target_key request)) ;;
  if negb (bool_decide (mf_target_key request = ca_target_key captured))
  then failure "STALE_TARGET"%string "The Memory page does not match the active target"%string else
  context <- active_target_context ;;
  b <- self ;;
  if negb (match context, be_target b with
           | Some context, Some target =>
               bool_decide (requested_cpu = at_cpu_id context)
               && is_device_cpu requested_cpu (be_device_info b)
               && same_profile (ca_profile captured) (at_profile context)
               && same_profile (ca_profile captured) target
           | _, _ => false
           end)
  then failure "TARGET_MISMATCH"%string
         "The Memory request CPU does not match DeviceInfo and the active profile"%string
  else if negb (isSome (tp_command_set (ca_profile captured) memory_read))
  then failure "UNSUPPORTED_OPERATION"%string
         "The active target profile does not provide MEMORY_READ"%string
  else ret (Continue requested_cpu).

(** What [_execute_memory_read] does with a completed or a failed result. *)
Definition store_memory (task_id : string) (request : MemoryRefreshRequest) (cpu_id : RuntimeCpuId)
    (result : OperationResult) (last_update : option TaskProgressUpdate) (progress : TaskProgress)
    : M (Flow unit) :=
  let generation := mf_expected_connection_generation request in
  let invalid message :=
    failure <- invalid_memory_result task_id request cpu_id result message ;;
    ret (Return failure) in
  if completed result then
    match result_words result with
    | Raise exc => invalid (str_exn exc)
    | Ok words =>
        match uint16_words words with
        | Some values =>
            if negb (zlen words =? mf_word_count request)
            then invalid "words must be the requested uint16 sequence"%string else
            read_at <- env maintenance_clock ;;
            dispatch_event (MemoryReadSucceeded cpu_id generation (mf_start_address request)
                              values read_at) ;;;
            complete_step task_id "read_memory" (or_stage result) (or_operation result) last_update
              progress ;;;
            ret (Continue tt)
        | None => invalid "words must be the requested uint16 sequence"%string
        end
    end
  else if bool_decide (or_completion result = Some OperationCompletion.FAILED) then
    error <- lift (read_error result) ;;
    dispatch_event (MemoryReadFailed cpu_id generation error) ;;;
    ret (Continue tt)
  else ret (Continue tt).

(** [_execute_memory_read] *)
Definition execute_memory_read (task_id : string) (request : MemoryRefreshRequest)
    (cancellation : option (ST E bool)) (progress : TaskProgress) : M TaskExecutionResult :=
  captured <- status_connection (mf_connection_id request) None ;;
  match captured with
  | None => lift (memory_task_failure task_id "STALE_CONNECTION"
              "The Memory request connection is no longer active" None)
  | Some captured =>
      requested_cpu <-? check_memory_request task_id request captured ;;
      plan <- lift (MemoryRefreshRequest_create_plan request task_id) ;;
      publish_step task_id "read_memory" TaskStepState.STARTED "MEMORY_READ" (pl_title plan)
        progress ;;;
      read <- execute_connected_foreground captured (λ r, one_result r.1) (λ session,
        read_request <- lift (MemoryReadRequest_post_init
          (mkReadRequest (mf_start_address request) (mf_word_count request))) ;;
        reporting (memory_read_operation session (ca_profile captured)
          (report task_id "read_memory" progress) cancellation read_request)) ;;
      result <- lift (operation_result_of "memory_read operation returned an invalid result"
                        read.1) ;;
      is_current <- memory_request_is_current request captured requested_cpu ;;
      if negb is_current then
        lift (memory_task_failure task_id "STALE_CONNECTION"
          "The Memory result belongs to a connection or target that is no longer active"
          (Some result))
      else
        _ <-? store_memory task_id request requested_cpu result read.2 progress ;;
        payload <- lift (MemoryReadTaskSnapshot_post_init (mkMemorySnapshot request result)) ;;
        lift (operation_result_to_task_result task_id result (Some (pl_title plan))
                (Some (or_stage result)) (MemoryPayload payload) TaskCompletionAction.NONE)
  end.
End backend.
