(* ===== verification/BackendRam.v ===== *)
(** * RAM operations and the run of the Flash application
      (gui/runtime_backend.py)

    [_execute_ram_operation] loads the RAM image, checks its CRC or runs it;
    [_execute_advanced_flash_app_run] starts the application in Flash.  Both
    check, before they act and again afterwards, that the connection, the
    selection and the evidence are the ones that the request was made for. *)

From stdpp Require Import gmap.
From S2P Require Import Prelude.
From S2P Require Import Errors.
From S2P Require Import Messages.
From S2P Require Import TaskPlans.
From S2P Require Import Models.
From S2P Require Import Targets.
From S2P Require Import OperationResults.
From S2P Require Import StatusModels.
From S2P Require Import RuntimeValues.
From S2P Require Import RuntimeModels.
From S2P Require Import ImageRequests.
From S2P Require Import OperationRequests.
From S2P Require Import TaskModels.
From S2P Require Import RuntimeStore.
From S2P Require Import RuntimeDispatch.
From S2P Require Import Backend.
From S2P Require Import BackendSelection.
From S2P Require Import BackendImages.
From S2P Require Import BackendStatus.

(** What is wrong with a request: a code and a message. *)
Abbreviation Problem := (string * string)%type.

(** [_ram_request_failure] *)
Definition ram_request_failure (task_id : string) (problem : Problem) (request : RamRequest)
    : Res TaskExecutionResult :=
  failed_result task_id problem.1 problem.2 (ram_step_id request) "RAM operation rejected" true
    [("connection_id"%string, VStr (ram_connection_id request));
     ("target_key"%string, VStr (ram_target_key request));
     ("selection_revision"%string, VInt (ram_selection_revision request))] [] None.

(** [_execution_request_failure] *)
Definition execution_request_failure (task_id code message : string)
    (request : RunAdvancedFlashAppRequest) : Res TaskExecutionResult :=
  failed_result task_id code message run_flash_step_id "Run Flash App rejected" true
    [("connection_id"%string, VStr (rf_connection_id request));
     ("target_key"%string, VStr (rf_target_key request));
     ("connection_generation"%string,
      VInt (cg_value (rf_expected_connection_generation request)));
     ("entry_point"%string, VInt (rf_entry_point request))] [] None.

(** The commands that an operation needs. *)
Definition ram_command_fields (request : RamRequest) : list CommandField :=
  match request with
  | LoadAdvancedRamImageRequest _ => [ram_load_begin; ram_load_data; ram_load_end]
  | CheckAdvancedRamCrcRequest _ => [ram_check_crc]
  | RunRamRequest _ => [run_ram]
  end.

Definition unsupported (profile : TargetProfile) (fields : list CommandField) : bool :=
  existsb (λ field, negb (isSome (tp_command_set profile field))) fields.

Definition ram_operation_type (request : RamRequest) : AdvancedRamOperationType :=
  match request with
  | LoadAdvancedRamImageRequest _ => AdvancedRamOperationType.LOAD
  | CheckAdvancedRamCrcRequest _ => AdvancedRamOperationType.CHECK_CRC
  | RunRamRequest _ => AdvancedRamOperationType.RUN
  end.

(** [summary.get(name)] is an int with this value. *)
Definition summary_int (name : string) (result : OperationResult) (value : Z) : bool :=
  match dict_get name (or_summary result) with Some (VInt z) => z =? value | _ => false end.

Definition evidence_required : Problem :=
  ("RAM_CRC_EVIDENCE_REQUIRED"%string,
   "Run Check CRC for the current RAM image and connection first"%string).

(** The identity of a prepared RAM image. *)
Definition identity_of_ram (image : PreparedRamImage) : Res RamImageIdentity :=
  RamImageIdentity_post_init
    (mkRamImageIdentity (pr_entry_point image) (pr_total_words image) (pr_image_crc32 image)).

(** The connection is the one given. *)
Definition is_connection (connection_id : string) (cpu_id : RuntimeCpuId)
    (generation : ConnectionGeneration) (connection : option ConnectionRuntimeState) : bool :=
  match connection with
  | Some c => bool_decide (cr_connection_id c = connection_id) && bool_decide (cr_cpu_id c = cpu_id)
              && bool_decide (cr_generation c = generation)
  | None => false
  end.

Section backend.
Context {E Session Transport : Type} `{EqDecision Session} `{Ports E Session Transport} `{Paths}.

Abbreviation M := (B E Session Transport).
Abbreviation TaskProgress := (Progress E).

(** [if problem: return failure(problem)] *)
Definition return_failure {A} (result : Res TaskExecutionResult) : M (Flow A) :=
  result <- lift result ;; ret (Return result).

(** ** The state a RAM operation needs *)

(** [_ram_operation_state]: the resource, and the problem. *)
Definition ram_operation_state (request : RamRequest)
    : M (TargetResourceState * option Problem) :=
  cpu_id <- lift (from_target_key (ram_target_key request)) ;;
  resource <- target_resource_of cpu_id ;;
  revision <- current_revision RamSelection cpu_id ;;
  b <- self ;;
  let stale message := Some ("STALE_IMAGE_CONFIGURATION"%string, message) in
  match tr_ram_image_summary resource with
  | Some summary =>
      if negb (bool_decide (tr_ram_image_parse_status resource = ImageParseStatus.READY))
      then ret (resource, Some ("PREPARED_RAM_IMAGE_REQUIRED"%string,
                                "Prepare the current target RAM image first"%string))
      else if negb (revision =? ram_selection_revision request)
              || negb (bool_decide (rs_identity summary = ram_expected_image_identity request))
      then ret (resource, stale "The RAM image selection changed"%string)
      else match request with
           | RunRamRequest _ => ret (resource, None)
           | LoadAdvancedRamImageRequest r | CheckAdvancedRamCrcRequest r =>
               current_path <- current_ram_path resource ;;
               ret (resource,
                    if negb (bool_decide (current_path = mr_image_source_path r))
                    then stale "The RAM image selection changed"%string
                    else if bool_decide (path_suffix (mr_image_source_path r) = ".out"%string)
                            && negb (be_configuration_revision b =?
                                     mr_image_tool_configuration_revision r)
                    then stale "The RAM image tool configuration changed"%string
                    else None)
           end
  | None => ret (resource, Some ("PREPARED_RAM_IMAGE_REQUIRED"%string,
                                 "Prepare the current target RAM image first"%string))
  end.

(** [_ram_crc_evidence_matches] *)
Definition ram_crc_evidence_matches (request : RunAdvancedRamImageRequest)
    (captured : Captured Session) (cpu_id : RuntimeCpuId) (resource : TargetResourceState)
    (generation : ConnectionGeneration) : M bool :=
  let evidence := rr_expected_ram_crc_evidence request in
  let identity := ce_ram_image_identity evidence in
  runtime <- runtime_v2_snapshot ;;
  revision <- image_revision RamSelection (rr_target_key request) ;;
  ret (bool_decide (Some evidence = tr_ram_crc_evidence resource)
       && bool_decide (ce_cpu_id evidence = cpu_id)
       && bool_decide (ce_connection_generation evidence = generation)
       && bool_decide (rv_connection_generation runtime = generation)
       && is_connection (rr_connection_id request) cpu_id (ce_connection_generation evidence)
            (rv_connection runtime)
       && bool_decide (ca_target_key captured = rr_target_key request)
       && bool_decide (identity = rr_expected_image_identity request)
       && bool_decide (tr_ram_image_parse_status resource = ImageParseStatus.READY)
       && bool_decide (rs_identity <$> tr_ram_image_summary resource = Some identity)
       && (revision =? rr_selection_revision request)
       && (ce_entry_point evidence =? ri_entry_point identity)
       && (ce_image_crc32 evidence =? ri_image_crc32 identity)).

(** ** Before the operation *)

(** The checks of [_execute_ram_operation] up to the materialization. *)
Definition check_ram_request (task_id : string) (request : RamRequest)
    (captured : Captured Session) : M (Flow RuntimeCpuId) :=
  let failure problem := return_failure (ram_request_failure task_id problem request) in
  if negb (bool_decide (ca_target_key captured = ram_target_key request))
  then failure ("STALE_TARGET", "The connected target changed")%string else
  cpu_id <- lift (from_target_key (ca_target_key captured)) ;;
  state <- ram_operation_state request ;;
  let '(resource, problem) := state in
  match problem with
  | Some problem =>
      failure match request with RunRamRequest _ => evidence_required | _ => problem end
  | None =>
      if unsupported (ca_profile captured) (ram_command_fields request)
      then failure ("UNSUPPORTED_OPERATION",
                    "The current target does not support this RAM operation")%string else
      match request with
      | RunRamRequest r =>
          matches <- ram_crc_evidence_matches r captured cpu_id resource (ca_generation captured) ;;
          if (matches : bool) then ret (Continue cpu_id) else failure evidence_required
      | _ => ret (Continue cpu_id)
      end
  end.

(** An image could not be prepared for an operation on it. *)
Definition ram_preparation_failed (task_id : string) (request : RamRequest)
    (fields : MaterializedRamRequest) (cpu_id : RuntimeCpuId) (exc : Exn)
    : M (Flow (PreparedRamImage * ImageOrigin)) :=
  match exc with
  | PreparationFailure code m _ _ _ _ =>
      state <- ram_operation_state request ;;
      match state.2 with
      | Some problem => return_failure (ram_request_failure task_id problem request)
      | None =>
          fail_parse RamSelection cpu_id (mr_image_source_path fields)
            (mr_selection_revision fields) code (text_of m) ;;;
          return_failure (ram_request_failure task_id (code, text_of m) request)
      end
  | _ => raise exc
  end.

(** The materialization of the image of LOAD and CHECK_CRC. *)
Definition materialize_for_ram (task_id : string) (request : RamRequest)
    (fields : MaterializedRamRequest) (operation_type : RuntimeOperationType)
    (captured : Captured Session) (cpu_id : RuntimeCpuId)
    : M (Flow (PreparedRamImage * SourceFileFingerprint * RamImageIdentity)) :=
  let generation := ca_generation captured in
  let failure problem := return_failure (ram_request_failure task_id problem request) in
  dispatch_event (OperationStarted (mkOperation task_id operation_type cpu_id generation
    (RamIdentity (mr_expected_image_identity fields)))) ;;;
  materialized <-! catch (
      materialized <- materialize_ram_app (mr_target_key fields) (mr_image_source_path fields)
        (Some (mr_expected_image_identity fields)) (ca_profile captured) ;;
      ret (Continue materialized))
    (ram_preparation_failed task_id request fields cpu_id) ;;
  current <- status_connection (mr_connection_id fields) (Some captured) ;;
  now <- connection_generation ;;
  if negb (isSome current) || negb (bool_decide (now = generation))
  then failure ("STALE_CONNECTION",
                "The connection changed during RAM image preparation")%string else
  state <- ram_operation_state request ;;
  match state.2 with
  | Some problem => failure problem
  | None =>
      identity <- lift (identity_of_ram materialized.1) ;;
      ret (Continue (materialized.1, io_fingerprint materialized.2, identity))
  end.

(** What an operation works with: the prepared image, unless it is RUN. *)
Definition ram_inputs (task_id : string) (request : RamRequest) (captured : Captured Session)
    (cpu_id : RuntimeCpuId)
    : M (Flow (option (PreparedRamImage * SourceFileFingerprint) * RamImageIdentity)) :=
  let materialize fields operation_type :=
    inputs <-! materialize_for_ram task_id request fields operation_type captured cpu_id ;;
    ret (Continue (Some inputs.1, inputs.2)) in
  match request with
  | LoadAdvancedRamImageRequest fields => materialize fields RuntimeOperationType.RAM_LOAD
  | CheckAdvancedRamCrcRequest fields => materialize fields RuntimeOperationType.RAM_CRC
  | RunRamRequest r => ret (Continue (None, rr_expected_image_identity r))
  end.

(** ** The operation *)

(** What a RAM request needs of its inputs; LOAD and CHECK_CRC have an image. *)
Definition ram_action (task_id : string) (request : RamRequest) (profile : TargetProfile)
    (image : option PreparedRamImage) (cancellation : option (ST E bool))
    (progress : TaskProgress) (session : Session)
    : M (option OperationResult * option TaskProgressUpdate) :=
  let quiet m := result <- env m ;; ret (result, None) in
  match request, image with
  | LoadAdvancedRamImageRequest _, Some image =>
      reporting (load_ram_operation session profile
                   (report task_id (ram_step_id request) progress) cancellation image)
  | CheckAdvancedRamCrcRequest _, Some image =>
      quiet (check_ram_crc_operation session profile image)
  | RunRamRequest r, _ =>
      quiet (run_ram_operation session profile (ce_entry_point (rr_expected_ram_crc_evidence r)))
  | _, None => raise (Err AttributeError (Lit "'NoneType' object has no attribute 'image'"))
  end.

(** The device checked the image that the request names. *)
Definition clean_crc_result (captured : Captured Session) (image : PreparedRamImage)
    (result : OperationResult) : bool :=
  bool_decide (or_completion result = Some OperationCompletion.SUCCEEDED) && or_ok result
  && bool_decide (or_target result = tp_name (ca_profile captured))
  && summary_int "total_words" result (pr_total_words image)
  && summary_int "image_crc32" result (pr_image_crc32 image).

(** [_dispatch_clean_ram_crc_success]: the evidence is kept if the file, the
    selection and the connection are still the same. *)
Definition dispatch_clean_ram_crc_success (task_id : string) (request : RamRequest)
    (fields : MaterializedRamRequest) (captured : Captured Session) (image : PreparedRamImage)
    (source_fingerprint : SourceFileFingerprint) (result : OperationResult) : M unit :=
  let generation := ca_generation captured in
  if negb (clean_crc_result captured image result) then ret tt else
  now <- catch (now <- fingerprint (mr_image_source_path fields) false ;; ret (Some now))
    (λ exc, match exc with PreparationFailure _ _ _ _ _ _ => ret None | _ => raise exc end) ;;
  if negb (bool_decide (now = Some source_fingerprint)) then ret tt else
  state <- ram_operation_state request ;;
  identity <- lift (identity_of_ram image) ;;
  cpu_id <- lift (from_target_key (mr_target_key fields)) ;;
  runtime <- runtime_v2_snapshot ;;
  current <- status_connection (mr_connection_id fields) (Some captured) ;;
  if negb (isSome state.2) && isSome current
     && bool_decide (rv_connection_generation runtime = generation)
     && is_connection (mr_connection_id fields) cpu_id generation (rv_connection runtime)
     && bool_decide (identity = mr_expected_image_identity fields)
     && bool_decide (rs_identity <$> tr_ram_image_summary state.1 = Some identity)
  then dispatch_event (OperationSucceeded (mkOperation task_id RuntimeOperationType.RAM_CRC cpu_id
                         generation (RamIdentity identity))) ;;; ret tt
  else ret tt.

(** The operation and what is made of its result. *)
Definition run_ram_request (task_id : string) (request : RamRequest) (captured : Captured Session)
    (image : option (PreparedRamImage * SourceFileFingerprint)) (identity : RamImageIdentity)
    (cancellation : option (ST E bool)) (progress : TaskProgress) : M TaskExecutionResult :=
  let step_id := ram_step_id request in
  publish_step task_id step_id TaskStepState.STARTED (upper step_id) (ram_title request) progress ;;;
  done <- execute_connected_foreground captured (λ r, one_result r.1)
            (ram_action task_id request (ca_profile captured) (fst <$> image) cancellation
               progress) ;;
  result <- lift (operation_result_of "RAM operation returned an invalid result" done.1) ;;
  current <- status_connection (ram_connection_id request) (Some captured) ;;
  if negb (isSome current)
  then lift (ram_request_failure task_id
         ("STALE_CONNECTION", "The connection changed during the RAM operation")%string request)
  else
  match request, image with
  | CheckAdvancedRamCrcRequest fields, Some (image, source_fingerprint) =>
      dispatch_clean_ram_crc_success task_id request fields captured image source_fingerprint
        result
  | _, _ => ret tt
  end ;;;
  (if or_ok result
   then complete_step task_id step_id (or_stage result) (or_operation result) done.2 progress
   else ret tt) ;;;
  payload <- lift (AdvancedRamOperationSnapshot_post_init
    (mkRamSnapshot (ram_connection_id request) (ram_target_key request)
       (ram_selection_revision request) identity (ram_operation_type request)
       match request with
       | RunRamRequest r => Some (rr_expected_ram_crc_evidence r)
       | _ => None
       end result)) ;;
  lift (operation_result_to_task_result task_id result (Some (ram_title request))
          (Some (or_stage result)) (RamOperationPayload payload)
          match request with
          | RunRamRequest _ => TaskCompletionAction.RELEASE_CONNECTION
          | _ => TaskCompletionAction.NONE
          end).

(** [_execute_ram_operation] *)
Definition execute_ram_operation (task_id : string) (request : RamRequest)
    (cancellation : option (ST E bool)) (progress : TaskProgress) : M TaskExecutionResult :=
  captured <- status_connection (ram_connection_id request) None ;;
  match captured with
  | None => lift (ram_request_failure task_id
              ("STALE_CONNECTION", "The connected target changed")%string request)
  | Some captured =>
      cpu_id <-? check_ram_request task_id request captured ;;
      inputs <-? ram_inputs task_id request captured cpu_id ;;
      run_ram_request task_id request captured inputs.1 inputs.2 cancellation progress
  end.

(** ** Run Flash App *)

(** The active connection is the one of the request. *)
Definition run_connection_current (request : RunAdvancedFlashAppRequest)
    (captured : Captured Session) (runtime : RuntimeV2Snapshot) : bool :=
  let generation := rf_expected_connection_generation request in
  bool_decide (generation = rv_connection_generation runtime)
  && is_connection (rf_connection_id request) FLASH_APP_RUN_CPU generation (rv_connection runtime)
  && bool_decide (ca_generation captured = generation).

(** The metadata of the store, if it is fresh and what the request expects. *)
Definition current_metadata (request : RunAdvancedFlashAppRequest) (runtime : RuntimeV2Snapshot)
    : option MetadataStatusSnapshot :=
  match md_freshness (rv_metadata_state runtime), md_value (rv_metadata_state runtime) with
  | DataFreshness.FRESH, OStatus (MetadataSnapshot metadata) =>
      if metadata_snapshot_eq metadata (rf_expected_metadata_snapshot request)
         && bool_decide (mt_connection_id metadata = rf_connection_id request)
         && bool_decide (mt_target_key metadata = rf_target_key request)
      then Some metadata else None
  | _, _ => None
  end.

(** The checks of [_execute_advanced_flash_app_run]. *)
Definition check_run_request (request : RunAdvancedFlashAppRequest) (captured : Captured Session)
    (runtime : RuntimeV2Snapshot) : option Problem :=
  if negb (bool_decide (ca_target_key captured = rf_target_key request))
  then Some ("STALE_TARGET", "The connected target changed")
  else if negb (run_connection_current request captured runtime)
  then Some ("STALE_CONNECTION", "The connection generation changed")
  else if negb (bool_decide (rf_target_key request = FLASH_APP_RUN_TARGET_KEY))
          || negb (bool_decide (ca_target_key captured = FLASH_APP_RUN_TARGET_KEY))
          || negb (tp_cpu_id (ca_profile captured) =? 1)%Z
  then Some ("STALE_TARGET", "Run Flash App is unavailable for this target")
  else if unsupported (ca_profile captured) [run]
  then Some ("UNSUPPORTED_OPERATION", "The current target does not support Run Flash App")
  else match current_metadata request runtime with
       | None => Some ("STALE_METADATA_CONFIGURATION", "The Metadata snapshot changed")
       | Some metadata =>
           if negb (mt_metadata_valid metadata && mt_image_valid metadata
                    && mt_entry_point_valid metadata)
           then Some ("IMAGE_VALID_REQUIRED", "A valid IMAGE_VALID entry point is required")
           else if negb (ms_entry_point (mt_raw_metadata metadata) =? rf_entry_point request)%Z
           then Some ("INVALID_ENTRY_POINT", "The Metadata entry point changed")
           else None
       end%string.

(** [_execute_advanced_flash_app_run] *)
Definition execute_advanced_flash_app_run (task_id : string) (request : RunAdvancedFlashAppRequest)
    (progress : TaskProgress) : M TaskExecutionResult :=
  captured <- status_connection (rf_connection_id request) None ;;
  match captured with
  | None => lift (execution_request_failure task_id "STALE_CONNECTION"
                    "The active connection changed" request)
  | Some captured =>
      runtime <- runtime_v2_snapshot ;;
      match check_run_request request captured runtime with
      | Some problem => lift (execution_request_failure task_id problem.1 problem.2 request)
      | None =>
          publish_step task_id run_flash_step_id TaskStepState.STARTED "RUN" run_flash_title
            progress ;;;
          done <- execute_connected_foreground captured one_result (λ session,
            env (run_flash_operation session (ca_profile captured) (rf_entry_point request))) ;;
          result <- lift (operation_result_of
                            "Run Flash App operation returned an invalid result" done) ;;
          (if or_ok result
           then publish_step task_id run_flash_step_id TaskStepState.COMPLETED (or_stage result)
                  (or_operation result) progress
           else ret tt) ;;;
          payload <- lift (AdvancedFlashAppRunSnapshot_post_init (mkRunSnapshot request result)) ;;
          lift (operation_result_to_task_result task_id result (Some run_flash_title)
                  (Some (or_stage result)) (FlashRunPayload payload)
                  TaskCompletionAction.RELEASE_CONNECTION)
      end
  end.
End backend.
