(* ===== verification/BackendFlash.v ===== *)
(** * Flash operations of the runtime backend (gui/runtime_backend.py)

    [_execute_advanced_flash_operation] erases, programs or verifies the
    application with the Flash service, and reads the metadata again after a
    change.  The step relation of the device is behind the injected
    operations; here are the checks before, between and after them. *)

From stdpp Require Import gmap.
From S2P Require Import Prelude.
From S2P Require Import Errors.
From S2P Require Import Messages.
From S2P Require Import TaskPlans.
From S2P Require Import Models.
From S2P Require Import Targets.
From S2P Require Import OperationResults.
From S2P Require Import StatusModels.
From S2P Require Import RuntimeValues.
From S2P Require Import RuntimeModels.
From S2P Require Import ImageRequests.
From S2P Require Import OperationRequests.
From S2P Require Import TaskModels.
From S2P Require Import RuntimeStore.
From S2P Require Import RuntimeDispatch.
From S2P Require Import Backend.
From S2P Require Import BackendSelection.
From S2P Require Import BackendImages.
From S2P Require Import BackendStatus.
From S2P Require Import BackendRam.

(** [int(cpu_id.value[-1])] *)
Definition cpu_number (cpu_id : RuntimeCpuId) : Z :=
  match cpu_id with CPU1 => 1 | CPU2 => 2 end.

(** The program image that a request was made for. *)
Record ProgramExpectation : Set := mkExpectation {
  px_target_key : string;
  px_source_path : string;
  px_selection_revision : Z;
  px_tool_revision : Z;
  px_identity : ImageIdentity;
  px_sector_mask : Z;
}.

Definition flash_expectation (f : FlashRequestFields) : ProgramExpectation :=
  mkExpectation (ff_target_key f) (ff_image_source_path f) (ff_image_selection_revision f)
    (ff_image_tool_configuration_revision f) (ff_expected_image_identity f)
    (ff_expected_effective_sector_mask f).

(** [_advanced_flash_request_failure] *)
Definition flash_request_failure (task_id : string) (problem : Problem) (request : FlashRequest)
    : Res TaskExecutionResult :=
  let f := flash_fields request in
  failed_result task_id problem.1 problem.2 (flash_step_id request)
    "Advanced Flash operation rejected" true
    [("connection_id"%string, VStr (ff_connection_id f));
     ("target_key"%string, VStr (ff_target_key f));
     ("image_selection_revision"%string, VInt (ff_image_selection_revision f));
     ("image_tool_configuration_revision"%string, VInt (ff_image_tool_configuration_revision f));
     ("service_configuration_revision"%string, VInt (ff_service_configuration_revision f));
     ("service_tool_configuration_revision"%string,
      VInt (ff_service_tool_configuration_revision f))] [] None.

Definition flash_command_fields (request : FlashRequest) : list CommandField :=
  [get_service_status; service_attach; ram_load_begin; ram_load_data; ram_load_end; ram_check_crc]
  ++ match request with
     | EraseAdvancedFlashRequest _ _ _ => [erase; get_metadata_summary]
     | ProgramAdvancedFlashRequest _ =>
         [program_begin; program_data; program_end; get_metadata_summary]
     | VerifyAdvancedFlashRequest _ => [verify_begin; verify_data; verify_end]
     end.

Definition flash_operation_type (request : FlashRequest) : AdvancedFlashOperationType :=
  match request with
  | EraseAdvancedFlashRequest _ _ _ => AdvancedFlashOperationType.ERASE
  | ProgramAdvancedFlashRequest _ => AdvancedFlashOperationType.PROGRAM_ONLY
  | VerifyAdvancedFlashRequest _ => AdvancedFlashOperationType.VERIFY_ONLY
  end.

Definition runtime_operation_type (request : FlashRequest) : RuntimeOperationType :=
  match request with
  | EraseAdvancedFlashRequest _ _ _ => RuntimeOperationType.ERASE
  | ProgramAdvancedFlashRequest _ => RuntimeOperationType.PROGRAM
  | VerifyAdvancedFlashRequest _ => RuntimeOperationType.VERIFY
  end.

Definition flash_erase_scope (request : FlashRequest) : option AdvancedFlashEraseScope :=
  match request with EraseAdvancedFlashRequest _ scope _ => Some scope | _ => None end.

(** The sectors that an Erase request erases. *)
Definition flash_erase_mask (flash : FlashLayout) (request : FlashRequest) : option Z :=
  match request with
  | EraseAdvancedFlashRequest f scope custom =>
      Some match scope with
           | AdvancedFlashEraseScope.REQUIRED_APP_SECTORS => ff_expected_effective_sector_mask f
           | AdvancedFlashEraseScope.ENTIRE_APPLICATION_REGION => fl_allowed_erase_mask flash
           | AdvancedFlashEraseScope.CUSTOM_SECTOR_MASK => custom
           end
  | _ => None
  end.

(** A mask is not empty and within the sectors that may be erased. *)
Definition erasable (flash : FlashLayout) (mask : Z) : bool :=
  negb (mask =? 0) && (Z.land mask (fl_forbidden_erase_mask flash) =? 0)
  && (Z.land mask (Z.lnot (fl_allowed_erase_mask flash)) =? 0).

(** All but an Erase of other sectors than those of the image need the image. *)
Definition needs_image (request : FlashRequest) : bool :=
  match request with
  | EraseAdvancedFlashRequest _ scope _ =>
      bool_decide (scope = AdvancedFlashEraseScope.REQUIRED_APP_SECTORS)
  | _ => true
  end.

(** The operation that a request asks for, with its prepared image. *)
Definition flash_call (request : FlashRequest) (mask : option Z)
    (image : option PreparedFlashImage) : Res FlashCall :=
  match request, image, mask with
  | EraseAdvancedFlashRequest _ AdvancedFlashEraseScope.REQUIRED_APP_SECTORS _, Some image, _ =>
      Ok (EraseImageArea image)
  | EraseAdvancedFlashRequest _ AdvancedFlashEraseScope.ENTIRE_APPLICATION_REGION _, _, Some mask
  | EraseAdvancedFlashRequest _ AdvancedFlashEraseScope.CUSTOM_SECTOR_MASK _, _, Some mask =>
      Ok (EraseSectors mask)
  | ProgramAdvancedFlashRequest _, Some image, _ => Ok (ProgramImage image)
  | VerifyAdvancedFlashRequest _, Some image, _ => Ok (VerifyImage image)
  | _, _, _ => Raise (Err AttributeError (Lit "the operation has no image"))
  end.

(** What the refresh of the metadata returned: nothing (it was not called, it
    raised, or it returned None), something else that is not a result, or a
    result. *)
Inductive Refresh : Type :=
| NotRefreshed
| BadRefresh
| Refreshed (result : OperationResult).

Record RefreshOutcome : Type := mkRefreshOutcome {
  ro_refresh : Refresh;
  ro_snapshot : option MetadataStatusSnapshot;
  ro_error : option RuntimeReadError;
}.

(** The result of a refresh, for a snapshot that takes only results. *)
Definition refresh_result (r : Refresh) : Res (option OperationResult) :=
  match r with
  | NotRefreshed => Ok None
  | Refreshed result => Ok (Some result)
  | BadRefresh => Raise (Err TypeError (Lit "the refresh is not an OperationResult"))
  end.

(** The results that an action returns in its tuple. *)
Definition results_of_write (r : OperationResult * RefreshOutcome) : list OperationResult :=
  r.1 :: match ro_refresh r.2 with Refreshed result => [result] | _ => [] end.

Definition no_refresh : RefreshOutcome := mkRefreshOutcome NotRefreshed None None.

(** [replace(result, ...)] *)
Definition with_results (steps : list StepResult) (payload : Payload) (r : TaskExecutionResult)
    : Res TaskExecutionResult :=
  TaskExecutionResult_post_init
    (mkTaskResult (te_task_id r) (te_status r) (te_summary r) (te_message r) steps payload
       (te_warning r) (te_error r) (te_completion_action r) (te_cancel_requested r)).

Definition warning_details (w : option GuiTaskWarning) : Dict :=
  match w with Some w => gw_details w | None => [] end.

(** The details of the warning of [_metadata_refresh_warning_result]. *)
Definition refresh_warning_details (primary : OperationResult) (refresh : option OperationResult)
    (error : RuntimeReadError) (generation : ConnectionGeneration) (base : TaskExecutionResult)
    : Dict :=
  [("primary_operation"%string, VStr (or_operation primary));
   ("primary_stage"%string, VStr (or_stage primary));
   ("primary_completion"%string, VStr (plain_completion_name (or_completion primary)));
   ("refresh_error_code"%string, VStr (re_code error));
   ("refresh_error_message"%string, VStr (re_message error));
   ("refresh_error_stage"%string, VStr (re_stage error));
   ("refresh_error_details"%string,
    VDict match refresh ≫= or_error with Some e => ei_details e | None => [] end);
   ("connection_generation"%string, VInt (cg_value generation));
   ("metadata_freshness"%string, VStr "stale"%string);
   ("primary_retry_performed"%string, VBool false)]
  ++ (if isSome (or_cancellation primary)
      then [("primary_cancel_requested"%string, VBool true);
            ("primary_cancellation"%string, VDict (warning_details (te_warning base)))]
      else []).

(** [_metadata_refresh_warning_result] *)
Definition metadata_refresh_warning_result (task_id title : string) (primary : OperationResult)
    (refresh : option OperationResult) (error : RuntimeReadError)
    (generation : ConnectionGeneration) (payload : Payload) : Res TaskExecutionResult :=
  let? base := operation_result_to_task_result task_id primary (Some title)
                 (Some (or_stage primary)) payload TaskCompletionAction.NONE in
  let message := (title ++ " completed, but Metadata refresh failed: " ++ re_message error)%string in
  TaskExecutionResult_post_init
    (mkTaskResult (te_task_id base) (te_status base) title message
       (StepOperation primary :: step_results refresh) payload
       (Some (mkWarning "METADATA_REFRESH_FAILED" message (re_stage error)
                (refresh_warning_details primary refresh error generation base)))
       (te_error base) (te_completion_action base) (te_cancel_requested base)).

Section backend.
Context {E Session Transport : Type} `{EqDecision Session} `{Ports E Session Transport} `{Paths}.

Abbreviation M := (B E Session Transport).
Abbreviation TaskProgress := (Progress E).

(** ** The state an operation needs *)

(** [_program_operation_state]: the state of the service, and the resource or
    the problem. *)
Definition program_operation_state (expected : ProgramExpectation)
    : M (FlashServiceResourceState * (TargetResourceState + Problem)) :=
  cpu_id <- lift (from_target_key (px_target_key expected)) ;;
  resource <- target_resource_of cpu_id ;;
  current_path <- catch (lift (normalized_image_path ProgramSelection
                                 (tr_program_image_path resource)))
    (λ exc, if path_error exc then ret EmptyString else raise exc) ;;
  revision <- current_revision ProgramSelection cpu_id ;;
  b <- self ;;
  let stale message := inr ("STALE_IMAGE_CONFIGURATION"%string, message) in
  let unprepared := inr ("PREPARED_FLASH_IMAGE_REQUIRED"%string,
    ("Prepare the " ++ upper (px_target_key expected) ++ " Program image first")%string) in
  ret (be_service_state b,
    match tr_program_image_summary resource with
    | None => unprepared
    | Some summary =>
        if negb (bool_decide (tr_program_image_parse_status resource = ImageParseStatus.READY))
        then unprepared
        else if negb (bool_decide (current_path = px_source_path expected))
                || negb (revision =? px_selection_revision expected)
                || negb (bool_decide (fs_identity summary = px_identity expected))
                || negb (fs_sector_mask summary =? px_sector_mask expected)
        then stale "The Program image selection changed"%string
        else if bool_decide (path_suffix (px_source_path expected) = ".out"%string)
                && negb (be_configuration_revision b =? px_tool_revision expected)
        then stale "The Program image tool configuration changed"%string
        else inl resource
    end).

(** The Flash service is the one that a request expects. *)
Definition check_service (target_key : string) (service_revision tool_revision : Z)
    (expected : PreparedFlashServiceSummary) (state : FlashServiceResourceState)
    (configuration_revision : Z) : option Problem :=
  let required := Some ("PREPARED_FLASH_SERVICE_REQUIRED"%string,
                        ("Prepare the " ++ upper target_key ++ " Flash Service first")%string) in
  match st_summary state with
  | None => required
  | Some summary =>
      if negb (bool_decide (st_status state = FlashServiceResourceStatus.READY)) then required
      else if negb (st_revision state =? service_revision)
              || negb (configuration_revision =? tool_revision)
              || negb (bool_decide (summary = expected))
              || negb (bool_decide (vs_target_key summary = target_key))
      then Some ("STALE_SERVICE_CONFIGURATION", "The Flash Service configuration changed")%string
      else None
  end.

(** The active connection is the one of a request, and its target. *)
Definition check_request_connection (connection_id target_key : string)
    (generation : ConnectionGeneration) (cpu_id : RuntimeCpuId) (captured : Captured Session)
    (runtime : RuntimeV2Snapshot) : option Problem :=
  if negb (bool_decide (generation = rv_connection_generation runtime)
           && is_connection connection_id cpu_id generation (rv_connection runtime)
           && bool_decide (ca_generation captured = generation))
  then Some ("STALE_CONNECTION", "The connection generation changed")%string
  else if negb (bool_decide (ca_target_key captured = target_key))
          || negb (tp_cpu_id (ca_profile captured) =? cpu_number cpu_id)
  then Some ("STALE_TARGET", "The connected target changed")%string
  else None.

(** The first checks of [_execute_advanced_flash_operation], which need no
    file: the Flash layout and the state of the service. *)
Definition check_flash_request (task_id : string) (request : FlashRequest)
    (captured : Captured Session) (cpu_id : RuntimeCpuId)
    : M (Flow (FlashLayout * FlashServiceResourceState)) :=
  let f := flash_fields request in
  let failure problem := return_failure (flash_request_failure task_id problem request) in
  runtime <- runtime_v2_snapshot ;;
  match check_request_connection (ff_connection_id f) (ff_target_key f)
          (ff_expected_connection_generation f) cpu_id captured runtime with
  | Some problem => failure problem
  | None =>
      match mp_flash (tp_memory_map (ca_profile captured)) with
      | None => failure ("UNSUPPORTED_OPERATION", "The current target has no Flash layout")%string
      | Some flash =>
          if unsupported (ca_profile captured) (flash_command_fields request)
          then failure ("UNSUPPORTED_OPERATION",
                        "The current target lacks required Flash capabilities")%string else
          state <- program_operation_state (flash_expectation f) ;;
          b <- self ;;
          match state.2 with
          | inr problem => failure problem
          | inl _ =>
              match check_service (ff_target_key f) (ff_service_configuration_revision f)
                      (ff_service_tool_configuration_revision f) (ff_expected_service_summary f)
                      state.1 (be_configuration_revision b) with
              | Some problem => failure problem
              | None =>
                  match flash_erase_mask flash request with
                  | Some mask =>
                      if erasable flash mask then ret (Continue (flash, state.1))
                      else failure ("FORBIDDEN_SECTOR",
                                    "The erase mask includes a forbidden sector")%string
                  | None => ret (Continue (flash, state.1))
                  end
              end
          end
      end
  end.

(** ** Images for an operation *)

(** The application image could not be prepared for an operation on it. *)
Definition program_preparation_failed {A} (cpu_id : RuntimeCpuId) (expected : ProgramExpectation)
    (failure : Problem → Res TaskExecutionResult) (exc : Exn) : M (Flow A) :=
  match exc with
  | PreparationFailure code m _ _ _ _ =>
      fail_parse ProgramSelection cpu_id (px_source_path expected)
        (px_selection_revision expected) code (text_of m) ;;;
      return_failure (failure (code, text_of m))
  | _ => raise exc
  end.

(** The application image of a request, when nothing changed meanwhile. *)
Definition materialize_program (cpu_id : RuntimeCpuId) (expected : ProgramExpectation)
    (captured : Captured Session) (service_state : FlashServiceResourceState)
    (service_changed : string) (failure : Problem → Res TaskExecutionResult)
    : M (Flow (PreparedFlashImage * SourceFileFingerprint)) :=
  materialized <-! catch (
      materialized <- materialize_flash_app (px_target_key expected) (ca_profile captured)
        (px_source_path expected) (Some (px_identity expected)) (Some (px_sector_mask expected)) ;;
      ret (Continue materialized))
    (program_preparation_failed cpu_id expected failure) ;;
  state <- program_operation_state expected ;;
  match state.2 with
  | inr problem => return_failure (failure problem)
  | inl _ =>
      if negb (bool_decide (state.1 = service_state))
      then return_failure (failure ("STALE_SERVICE_CONFIGURATION"%string, service_changed))
      else ret (Continue (materialized.1, io_fingerprint materialized.2))
  end.

(** The Flash service of a request. *)
Definition materialize_service (target_key : string) (service_revision : Z)
    (captured : Captured Session) (service_state : FlashServiceResourceState)
    (failure : Problem → Res TaskExecutionResult) : M (Flow PreparedServiceImage) :=
  catch (
    materialized <- materialize_flash_service target_key (ca_profile captured)
                      (Some service_state) ;;
    ret (Continue materialized.1))
  (λ exc,
    match exc with
    | PreparationFailure code m image_path map_path _ _ =>
        set_service_failure_state code m image_path map_path service_revision ;;;
        return_failure (failure (code, text_of m))
    | _ => raise exc
    end).

(** ** The metadata after a write *)

(** The [try] of [_refresh_metadata_after_write] once there is a result: the
    outcome, and the message that the step ends with. *)
Definition evaluate_refresh (connection_id : string) (captured : Captured Session)
    (refresh : OperationResult) : M (RefreshOutcome * string) :=
  let stage := "GET_METADATA_SUMMARY"%string in
  let message := if or_ok refresh then or_operation refresh else "Metadata refresh failed"%string in
  let unavailable text :=
    ret (mkRefreshOutcome (Refreshed refresh) None
           (Some (mkReadError "STALE_CONNECTION" text stage)),
         "Metadata refresh unavailable"%string) in
  current <- status_connection connection_id (Some captured) ;;
  if negb (isSome current)
  then unavailable "The connection changed during Metadata refresh"%string
  else if negb (or_ok refresh) then
    error <- lift (read_error refresh) ;;
    dispatch_metadata_failure captured error ;;;
    ret (mkRefreshOutcome (Refreshed refresh) None (Some error), message)
  else
    raw <- lift (MetadataSummary_of_dict (or_summary refresh)) ;;
    request <- lift (StatusRequest_post_init (MetadataRefreshRequest connection_id true)) ;;
    snapshot <- metadata_snapshot (sr_connection_id request) true (ca_target_key captured)
                  refresh raw ;;
    current <- status_connection connection_id (Some captured) ;;
    if negb (isSome current)
    then unavailable "The connection changed after Metadata refresh"%string
    else
      cpu_id <- lift (from_target_key (ca_target_key captured)) ;;
      dispatch_event (MetadataReadSucceeded cpu_id (ca_generation captured)
                        (OStatus (MetadataSnapshot snapshot))) ;;;
      ret (mkRefreshOutcome (Refreshed refresh) (Some snapshot) None, message).

(** [_refresh_metadata_after_write] *)
Definition refresh_metadata_after_write (task_id connection_id : string)
    (captured : Captured Session) (session : Session) (progress : TaskProgress)
    : M RefreshOutcome :=
  let stage := "GET_METADATA_SUMMARY"%string in
  let step_id := "read_metadata_summary"%string in
  let invalid := Err TypeError (Lit "Metadata refresh returned an invalid result") in
  let finish completion_stage message :=
    publish_step task_id step_id TaskStepState.COMPLETED completion_stage message progress in
  let failed refresh completion_stage exc :=
    try_finally (
      error <- lift (exception_error exc stage) ;;
      dispatch_metadata_failure captured error ;;;
      ret (mkRefreshOutcome refresh None (Some error)))
    (finish completion_stage "Metadata refresh failed"%string) in
  current <- status_connection connection_id (Some captured) ;;
  if negb (isSome current) then
    ret (mkRefreshOutcome NotRefreshed None (Some (mkReadError "STALE_CONNECTION"
           "The connection changed before Metadata refresh" stage)))
  else
    publish_step task_id step_id TaskStepState.STARTED stage "Reading Metadata Summary" progress ;;;
    called <- catch (r <- env (metadata_operation session (ca_profile captured)) ;; ret (Ok r))
                (λ exc, ret (Raise exc)) ;;
    match called with
    | Raise exc => failed NotRefreshed stage exc
    | Ok ReturnedNone => failed NotRefreshed stage invalid
    | Ok ReturnedOther => failed BadRefresh stage invalid
    | Ok (ReturnedResult refresh) =>
        outcome <- catch (o <- evaluate_refresh connection_id captured refresh ;; ret (Ok o))
                     (λ exc, ret (Raise exc)) ;;
        match outcome with
        | Raise exc => failed (Refreshed refresh) (or_stage refresh) exc
        | Ok (outcome, message) => finish (or_stage refresh) message ;;; ret outcome
        end
    end.

(** An operation that writes, in the foreground: its result is completed
    before the metadata is read again, if [refreshes]. *)
Definition write_action (task_id step_id connection_id : string) (captured : Captured Session)
    (refreshes : bool) (invalid : string) (progress : TaskProgress)
    (operation : Session → ST (OpEnv E) (option OperationResult)) (session : Session)
    : M (OperationResult * RefreshOutcome) :=
  done <- reporting (operation session) ;;
  result <- lift (operation_result_of invalid done.1) ;;
  (if completed result
   then complete_step task_id step_id (or_stage result) (or_operation result) done.2 progress
   else ret tt) ;;;
  if negb refreshes || negb (completed result) then ret (result, no_refresh)
  else
    outcome <- refresh_metadata_after_write task_id connection_id captured session progress ;;
    ret (result, outcome).

(** ** Verification evidence *)

(** The device verified the image that the request names. *)
Definition clean_verify_result (captured : Captured Session) (image : PreparedFlashImage)
    (result : OperationResult) : bool :=
  bool_decide (or_completion result = Some OperationCompletion.SUCCEEDED) && or_ok result
  && bool_decide (or_target result = tp_name (ca_profile captured))
  && match dict_get "total_words" (or_summary result) with
     | None | Some VNone => true
     | Some (VInt words) => words =? ii_image_size_words (pf_identity image)
     | Some _ => false
     end.

(** [_dispatch_clean_verify_success] *)
Definition dispatch_clean_verify_success (task_id : string) (f : FlashRequestFields)
    (captured : Captured Session) (generation : ConnectionGeneration) (image : PreparedFlashImage)
    (source_fingerprint : SourceFileFingerprint) (result : OperationResult) : M unit :=
  cpu_id <- lift (from_target_key (ff_target_key f)) ;;
  if negb (clean_verify_result captured image result) then ret tt else
  now <- catch (now <- fingerprint (ff_image_source_path f) false ;; ret (Some now))
    (λ exc, match exc with PreparationFailure _ _ _ _ _ _ => ret None | _ => raise exc end) ;;
  if negb (bool_decide (now = Some source_fingerprint)) then ret tt else
  state <- program_operation_state (flash_expectation f) ;;
  match state.2 with
  | inr _ => ret tt
  | inl _ =>
      current <- status_connection (ff_connection_id f) (Some captured) ;;
      now <- connection_generation ;;
      b <- self ;;
      if isSome current
         && bool_decide (ca_target_key captured = ff_target_key f)
         && (tp_cpu_id (ca_profile captured) =? cpu_number cpu_id)
         && bool_decide (now = generation)
         && (be_configuration_revision b =? ff_image_tool_configuration_revision f)
         && bool_decide (pf_identity image = ff_expected_image_identity f)
         && (pf_sector_mask image =? ff_expected_effective_sector_mask f)
      then dispatch_event (OperationSucceeded (mkOperation task_id RuntimeOperationType.VERIFY
             cpu_id generation (FlashIdentity (pf_identity image)))) ;;; ret tt
      else ret tt
  end.

(** ** The operation *)

(** The snapshot of an operation, without and with the refresh. *)
Definition flash_snapshot (request : FlashRequest) (mask : option Z) (result : OperationResult)
    (refresh : option OperationResult) (snapshot : option MetadataStatusSnapshot)
    : Res AdvancedFlashOperationSnapshot :=
  let f := flash_fields request in
  AdvancedFlashOperationSnapshot_post_init
    (mkFlashSnapshot (ff_connection_id f) (ff_target_key f) (ff_image_selection_revision f)
       (ff_image_tool_configuration_revision f) (ff_service_configuration_revision f)
       (ff_service_tool_configuration_revision f) (flash_operation_type request) result
       (operation_result_to_dict result) (flash_erase_scope request) mask refresh
       (operation_result_to_dict <$> refresh) snapshot).

(** What the task returns. *)
Definition flash_result (task_id : string) (request : FlashRequest) (mask : option Z)
    (generation : ConnectionGeneration) (result : OperationResult) (outcome : RefreshOutcome)
    : Res TaskExecutionResult :=
  let title := flash_title request in
  let? payload := flash_snapshot request mask result None None in
  let? primary := operation_result_to_task_result task_id result (Some title)
                    (Some (or_stage result)) (FlashOperationPayload payload)
                    TaskCompletionAction.NONE in
  if bool_decide (flash_operation_type request = AdvancedFlashOperationType.VERIFY_ONLY)
     || negb (completed result)
  then Ok primary
  else
    let? refresh := refresh_result (ro_refresh outcome) in
    let? payload := flash_snapshot request mask result refresh (ro_snapshot outcome) in
    match ro_error outcome with
    | Some error =>
        metadata_refresh_warning_result task_id title result refresh error generation
          (FlashOperationPayload payload)
    | None =>
        with_results (StepOperation result :: step_results refresh)
          (FlashOperationPayload payload) primary
    end.

(** The operation of a request whose images are ready. *)
Definition run_flash_request (task_id : string) (request : FlashRequest) (mask : option Z)
    (captured : Captured Session) (image : option (PreparedFlashImage * SourceFileFingerprint))
    (service : PreparedServiceImage) (generation : ConnectionGeneration)
    (cancellation : option (ST E bool)) (progress : TaskProgress) : M TaskExecutionResult :=
  let f := flash_fields request in
  let step_id := flash_step_id request in
  publish_step task_id step_id TaskStepState.STARTED (upper step_id) (flash_title request)
    progress ;;;
  done <- execute_connected_foreground captured results_of_write
    (λ session,
       call <- lift (flash_call request mask (fst <$> image)) ;;
       write_action task_id step_id (ff_connection_id f) captured
         (negb (bool_decide (flash_operation_type request =
                             AdvancedFlashOperationType.VERIFY_ONLY)))
         "Advanced Flash operation returned an invalid result" progress
         (λ session, flash_operation session (ca_profile captured) service
                       (report task_id step_id progress) cancellation call) session) ;;
  let '(result, outcome) := done in
  match request, image with
  | VerifyAdvancedFlashRequest f, Some (image, source_fingerprint) =>
      dispatch_clean_verify_success task_id f captured generation image source_fingerprint result
  | _, _ => ret tt
  end ;;;
  lift (flash_result task_id request mask generation result outcome).

(** The image of a request that needs one. *)
Definition flash_image (task_id : string) (request : FlashRequest) (captured : Captured Session)
    (cpu_id : RuntimeCpuId) (service_state : FlashServiceResourceState)
    : M (Flow (option (PreparedFlashImage * SourceFileFingerprint))) :=
  let f := flash_fields request in
  let failure problem := flash_request_failure task_id problem request in
  if negb (needs_image request) then ret (Continue None) else
  image <-! materialize_program cpu_id (flash_expectation f) captured service_state
              "The Flash Service configuration changed" failure ;;
  current <- status_connection (ff_connection_id f) (Some captured) ;;
  if negb (isSome current)
  then return_failure (failure ("STALE_CONNECTION",
                                "The connection changed during image preparation")%string)
  else ret (Continue (Some image)).

(** [_execute_advanced_flash_operation] *)
Definition execute_advanced_flash_operation (task_id : string) (request : FlashRequest)
    (cancellation : option (ST E bool)) (progress : TaskProgress) : M TaskExecutionResult :=
  let f := flash_fields request in
  captured <- status_connection (ff_connection_id f) None ;;
  match captured with
  | None => lift (flash_request_failure task_id
              ("STALE_CONNECTION", "The active connection changed")%string request)
  | Some captured =>
      cpu_id <- lift (from_target_key (ff_target_key f)) ;;
      checked <-? check_flash_request task_id request captured cpu_id ;;
      let '(flash, service_state) := checked in
      let mask := flash_erase_mask flash request in
      generation <- connection_generation ;;
      dispatch_event (OperationStarted (mkOperation task_id (runtime_operation_type request) cpu_id
        generation (if needs_image request then FlashIdentity (ff_expected_image_identity f)
                    else NoIdentity))) ;;;
      image <-? flash_image task_id request captured cpu_id service_state ;;
      service <-? materialize_service (ff_target_key f) (ff_service_configuration_revision f)
                    captured service_state
                    (λ problem, flash_request_failure task_id problem request) ;;
      run_flash_request task_id request mask captured image service generation cancellation
        progress
  end.
End backend.
