(* ===== verification/BackendExecute.v ===== *)
(** The metadata operations of the runtime backend, then [execute], which runs a
    task. *)

(** * Metadata operations of the runtime backend (gui/runtime_backend.py)

    [_execute_advanced_metadata_operation] appends a record to the metadata of
    the target (IMAGE_VALID, BOOT_ATTEMPT, APP_CONFIRMED) and confirms it by
    reading the metadata back. *)

From stdpp Require Import gmap.
From S2P Require Import Prelude.
From S2P Require Import Errors.
From S2P Require Import Messages.
From S2P Require Import TaskPlans.
From S2P Require Import Models.
From S2P Require Import Targets.
From S2P Require Import OperationResults.
From S2P Require Import StatusModels.
From S2P Require Import RuntimeValues.
From S2P Require Import RuntimeModels.
From S2P Require Import CommandExecutor.
From S2P Require Import ImageRequests.
From S2P Require Import OperationRequests.
From S2P Require Import TaskModels.
From S2P Require Import RuntimeStore.
From S2P Require Import RuntimeDispatch.
From S2P Require Import Backend.
From S2P Require Import BackendConnection.
From S2P Require Import BackendSelection.
From S2P Require Import BackendImages.
From S2P Require Import BackendStatus.
From S2P Require Import BackendRam.
From S2P Require Import BackendFlash.

(** [bool(value)] *)
Definition truthy (v : option PyVal) : bool :=
  match v with
  | None | Some VNone => false
  | Some (VBool b) => b
  | Some (VInt z) => negb (z =? 0)
  | Some (VStr s) => negb (empty_str s)
  | Some (VSeq l) => nonempty l
  | Some (VDict l) => nonempty l
  end.

(** The image part of an IMAGE_VALID request. *)
Definition image_part (request : MetadataRequest) : option ImageValidFields :=
  match request with WriteAdvancedImageValidRequest _ i => Some i | _ => None end.

(** [request.expected_metadata_snapshot] *)
Definition expected_snapshot (request : MetadataRequest) : option MetadataStatusSnapshot :=
  match request with
  | WriteAdvancedImageValidRequest _ _ => None
  | WriteAdvancedBootAttemptRequest _ s | WriteAdvancedAppConfirmedRequest _ s => Some s
  end.

Definition image_expectation (f : MetadataRequestFields) (i : ImageValidFields)
    : ProgramExpectation :=
  mkExpectation (mq_target_key f) (iv_image_source_path i) (iv_image_selection_revision i)
    (iv_image_tool_configuration_revision i) (iv_expected_image_identity i)
    (iv_expected_effective_sector_mask i).

Definition metadata_operation_type (request : MetadataRequest) : AdvancedMetadataOperationType :=
  match request with
  | WriteAdvancedImageValidRequest _ _ => AdvancedMetadataOperationType.WRITE_IMAGE_VALID
  | WriteAdvancedBootAttemptRequest _ _ => AdvancedMetadataOperationType.WRITE_BOOT_ATTEMPT
  | WriteAdvancedAppConfirmedRequest _ _ => AdvancedMetadataOperationType.WRITE_APP_CONFIRMED
  end.

Definition metadata_command_fields : list CommandField :=
  [get_service_status; service_attach; ram_load_begin; ram_load_data; ram_load_end; ram_check_crc;
   get_metadata_summary; metadata_append_record].

(** [_metadata_request_failure] *)
Definition metadata_request_failure (task_id : string) (problem : Problem)
    (request : MetadataRequest) : Res TaskExecutionResult :=
  let f := metadata_fields request in
  let of_image g := match image_part request with Some i => VInt (g i) | None => VNone end in
  failed_result task_id problem.1 problem.2 (metadata_step_id request)
    "Metadata operation rejected" true
    [("connection_id"%string, VStr (mq_connection_id f));
     ("target_key"%string, VStr (mq_target_key f));
     ("image_selection_revision"%string, of_image iv_image_selection_revision);
     ("image_tool_configuration_revision"%string, of_image iv_image_tool_configuration_revision);
     ("service_configuration_revision"%string, VInt (mq_service_configuration_revision f));
     ("service_tool_configuration_revision"%string,
      VInt (mq_service_tool_configuration_revision f))] [] None.

(** [_metadata_failure] with [ask_disconnect=True] *)
Definition metadata_failure (task_id code message stage : string) (payload : Payload)
    (steps : list StepResult) : Res TaskExecutionResult :=
  let? error := GuiRuntimeError_post_init
    (mkGuiError code message stage ErrorDisposition.ASK_DISCONNECT (Some task_id) true true [] None
       None) in
  TaskExecutionResult_post_init
    (mkTaskResult task_id TaskFinalStatus.FAILED "Metadata operation failed" message steps payload
       None (Some error) TaskCompletionAction.NONE false).

(** The image that the metadata should describe: the one written, or the one
    it described before. *)
Record ImageNumbers : Set := mkNumbers {
  in_entry_point : Z;
  in_image_size_words : Z;
  in_image_crc32 : Z;
}.

Definition numbers_of_raw (raw : MetadataSummary) : ImageNumbers :=
  mkNumbers (ms_entry_point raw) (ms_image_size_words raw) (ms_image_crc32 raw).
Definition numbers_of_identity (i : ImageIdentity) : ImageNumbers :=
  mkNumbers (ii_entry_point i) (ii_image_size_words i) (ii_image_crc32 i).

#[export] Instance ImageNumbers_eq_dec : EqDecision ImageNumbers.
Proof. solve_decision. Defined.

(** [identity or expected_snapshot.raw_metadata] *)
Definition source_numbers (identity : option ImageIdentity)
    (expected : option MetadataStatusSnapshot) : Res ImageNumbers :=
  match identity, expected with
  | Some identity, _ => Ok (numbers_of_identity identity)
  | None, Some expected => Ok (numbers_of_raw (mt_raw_metadata expected))
  | None, None =>
      Raise (Err AttributeError (Lit "'NoneType' object has no attribute 'raw_metadata'"))
  end.

(** [primary.summary.get('reason') == reason] *)
Definition has_reason (reason : string) (primary : OperationResult) : bool :=
  match dict_get "reason" (or_summary primary) with
  | Some (VStr r) => bool_decide (r = reason)
  | _ => false
  end.

(** [_metadata_readback_matches] *)
Definition metadata_readback_matches (operation_type : AdvancedMetadataOperationType)
    (primary : OperationResult) (identity : option ImageIdentity) (snapshot : MetadataStatusSnapshot)
    (expected : option MetadataStatusSnapshot) : Res bool :=
  let raw := mt_raw_metadata snapshot in
  let? source := source_numbers identity expected in
  let image_matches :=
    mt_metadata_valid snapshot && mt_image_valid snapshot
    && bool_decide (numbers_of_raw raw = source) in
  let reason r := has_reason r primary in
  match operation_type with
  | AdvancedMetadataOperationType.WRITE_IMAGE_VALID =>
      Ok (if truthy (dict_get "written" (or_summary primary)) then image_matches
          else if reason "IMAGE_VALID_ALREADY_EXISTS"%string
          then mt_metadata_valid snapshot && mt_image_valid snapshot
          else if reason "METADATA_INVALID"%string then negb (mt_metadata_valid snapshot)
          else false)
  | _ =>
      if reason "METADATA_INVALID"%string then Ok (negb (mt_metadata_valid snapshot))
      else if reason "IMAGE_VALID_REQUIRED"%string then Ok (negb (mt_image_valid snapshot))
      else if reason "APP_CONFIRMED_ALREADY_EXISTS"%string
      then Ok (image_matches && mt_app_confirmed snapshot)
      else if reason "BOOT_ATTEMPT_LIMIT_REACHED"%string
      then Ok (image_matches
               && (Z.min (ms_boot_attempt_limit raw) 3 <=? ms_boot_attempt_count raw))
      else if reason "BOOT_ATTEMPT_REQUIRED"%string
      then Ok (image_matches && (ms_boot_attempt_count raw =? 0))
      else
        match operation_type, expected with
        | AdvancedMetadataOperationType.WRITE_BOOT_ATTEMPT, Some expected =>
            Ok (image_matches
                && (ms_boot_attempt_count raw =?
                    ms_boot_attempt_count (mt_raw_metadata expected) + 1))
        | AdvancedMetadataOperationType.WRITE_BOOT_ATTEMPT, None =>
            Raise (Err AttributeError (Lit "'NoneType' object has no attribute 'raw_metadata'"))
        | _, _ => Ok (image_matches && negb (ms_app_confirmed raw =? 0))
        end
  end.

(** [_metadata_payload] *)
Definition metadata_payload (request : MetadataRequest) (identity : option ImageIdentity)
    (primary : OperationResult) (readback : Refresh) (snapshot : option MetadataStatusSnapshot)
    : Res Payload :=
  let f := metadata_fields request in
  let i := image_part request in
  let? source := source_numbers identity (expected_snapshot request) in
  let? readback := refresh_result readback in
  let? payload := AdvancedMetadataOperationSnapshot_post_init
    (mkMetadataOperation (mq_connection_id f) (mq_target_key f)
       (iv_image_selection_revision <$> i) (iv_image_tool_configuration_revision <$> i)
       (mq_service_configuration_revision f) (mq_service_tool_configuration_revision f)
       (metadata_operation_type request) (iv_expected_verify_evidence <$> i)
       (in_entry_point source) (in_image_size_words source) (in_image_crc32 source)
       (ii_app_end <$> identity) primary (operation_result_to_dict primary) readback
       (operation_result_to_dict <$> readback) snapshot) in
  Ok (MetadataOperationPayload payload).

(** The end of [_execute_advanced_metadata_operation], for an append that
    completed after it was asked to stop. *)
Definition completed_after_cancel (primary : OperationResult) (r : TaskExecutionResult)
    : Res TaskExecutionResult :=
  if negb (is_status r TaskFinalStatus.COMPLETED_AFTER_CANCEL_REQUEST) then Ok r else
  match or_cancellation primary with
  | None => Raise (Err AttributeError (Lit "'NoneType' object has no attribute 'stage'"))
  | Some cancellation =>
      let message := "The metadata append completed after cancellation; required readback also completed."%string in
      TaskExecutionResult_post_init
        (mkTaskResult (te_task_id r) (te_status r) (te_summary r) message (te_step_results r)
           (te_payload r)
           (Some (mkWarning "OPERATION_COMPLETED_AFTER_CANCEL_REQUEST" message
                    (oc_stage cancellation) (warning_details (te_warning r))))
           (te_error r) (te_completion_action r) (te_cancel_requested r))
  end.

(** What the task returns for the append and the readback. *)
Definition metadata_result (task_id : string) (request : MetadataRequest)
    (identity : option ImageIdentity) (generation : ConnectionGeneration)
    (primary : OperationResult) (outcome : RefreshOutcome) : Res TaskExecutionResult :=
  let title := metadata_title request in
  let? payload := metadata_payload request identity primary NotRefreshed None in
  if negb (completed primary) then
    operation_result_to_task_result task_id primary None None payload TaskCompletionAction.NONE
  else
  let? payload := metadata_payload request identity primary (ro_refresh outcome)
                    (ro_snapshot outcome) in
  let? readback := refresh_result (ro_refresh outcome) in
  match ro_error outcome, ro_snapshot outcome, readback with
  | Some error, _, _ =>
      metadata_refresh_warning_result task_id title primary readback error generation payload
  | None, Some snapshot, Some readback =>
      let? matches := metadata_readback_matches (metadata_operation_type request) primary identity
                        snapshot (expected_snapshot request) in
      let steps := [StepOperation primary; StepOperation readback] in
      if negb matches then
        metadata_failure task_id "METADATA_READBACK_MISMATCH"
          "Metadata readback does not confirm the operation result" "GET_METADATA_SUMMARY" payload
          steps
      else
        let? result := operation_result_to_task_result task_id primary (Some title)
                         (Some (or_stage readback)) payload TaskCompletionAction.NONE in
        let? result := with_results steps payload result in
        completed_after_cancel primary result
  | None, _, _ =>
      Raise (Err AttributeError (Lit "'NoneType' object has no attribute 'raw_metadata'"))
  end.

(** The metadata of the store is fresh and is what the request expects. *)
Definition metadata_unchanged (f : MetadataRequestFields) (expected : MetadataStatusSnapshot)
    (state : MetadataRuntimeState) : bool :=
  match md_freshness state, md_value state with
  | DataFreshness.FRESH, OStatus (MetadataSnapshot snapshot) =>
      metadata_snapshot_eq snapshot expected
      && bool_decide (mt_connection_id snapshot = mq_connection_id f)
      && bool_decide (mt_target_key snapshot = mq_target_key f)
  | _, _ => false
  end.

Definition evidence_problem : Problem :=
  ("VERIFY_EVIDENCE_REQUIRED",
   "Run a clean Verify Only for the current image and connection first")%string.

Section backend.
Context {E Session Transport : Type} `{EqDecision Session} `{Ports E Session Transport} `{Paths}.

Abbreviation M := (B E Session Transport).
Abbreviation TaskProgress := (Progress E).

(** [_verify_evidence_matches] *)
Definition verify_evidence_matches (f : MetadataRequestFields) (i : ImageValidFields)
    (identity : option ImageIdentity) : M bool :=
  let evidence := iv_expected_verify_evidence i in
  let generation := mq_expected_connection_generation f in
  catch (
    cpu_id <- lift (from_target_key (mq_target_key f)) ;;
    runtime <- runtime_v2_snapshot ;;
    revision <- image_revision ProgramSelection (mq_target_key f) ;;
    b <- self ;;
    ret match rv_target_resources runtime !! cpu_id with
        | None => false
        | Some resource =>
            bool_decide (tr_cpu_id resource = cpu_id)
            && bool_decide (Some evidence = tr_verify_evidence resource)
            && bool_decide (ve_cpu_id evidence = cpu_id)
            && is_connection (mq_connection_id f) cpu_id generation (rv_connection runtime)
            && bool_decide (generation = rv_connection_generation runtime)
            && bool_decide (generation = ve_connection_generation evidence)
            && bool_decide (fs_identity <$> tr_program_image_summary resource =
                            Some (iv_expected_image_identity i))
            && bool_decide (ve_image_identity evidence = iv_expected_image_identity i)
            && (revision =? iv_image_selection_revision i)
            && (be_configuration_revision b =? iv_image_tool_configuration_revision i)
            && match identity with
               | None => true
               | Some identity => bool_decide (identity = ve_image_identity evidence)
               end
        end)
  (λ exc, if isinstance exc AttributeError || isinstance exc KeyError || isinstance exc TypeError
             || isinstance exc ValueError
          then ret false else raise exc).

(** The evidence of an IMAGE_VALID request; other requests need none. *)
Definition evidence_matches (request : MetadataRequest) (identity : option ImageIdentity) : M bool :=
  match request with
  | WriteAdvancedImageValidRequest f i => verify_evidence_matches f i identity
  | _ => ret true
  end.

(** ** Checks *)

(** The state of the service, and of the program image for IMAGE_VALID. *)
Definition metadata_service_state (request : MetadataRequest)
    : M (FlashServiceResourceState + Problem) :=
  match request with
  | WriteAdvancedImageValidRequest f i =>
      state <- program_operation_state (image_expectation f i) ;;
      ret match state.2 with inl _ => inl state.1 | inr problem => inr problem end
  | _ => b <- self ;; ret (inl (be_service_state b))
  end.

(** The first checks of [_execute_advanced_metadata_operation], which need no
    file. *)
Definition check_metadata_request (task_id : string) (request : MetadataRequest)
    (captured : Captured Session) (cpu_id : RuntimeCpuId) : M (Flow FlashServiceResourceState) :=
  let f := metadata_fields request in
  let failure problem := return_failure (metadata_request_failure task_id problem request) in
  runtime <- runtime_v2_snapshot ;;
  match check_request_connection (mq_connection_id f) (mq_target_key f)
          (mq_expected_connection_generation f) cpu_id captured runtime with
  | Some problem => failure problem
  | None =>
      if unsupported (ca_profile captured) metadata_command_fields
      then failure ("UNSUPPORTED_OPERATION",
                    "The current target lacks required Metadata capabilities")%string else
      state <- metadata_service_state request ;;
      b <- self ;;
      match state with
      | inr problem => failure problem
      | inl service_state =>
          match check_service (mq_target_key f) (mq_service_configuration_revision f)
                  (mq_service_tool_configuration_revision f) (mq_expected_service_summary f)
                  service_state (be_configuration_revision b) with
          | Some problem => failure problem
          | None =>
              if match expected_snapshot request with
                 | Some expected => negb (metadata_unchanged f expected (rv_metadata_state runtime))
                 | None => false
                 end
              then failure ("STALE_METADATA_CONFIGURATION", "The Metadata snapshot changed")%string
              else
                matches <- evidence_matches request None ;;
                if (matches : bool) then ret (Continue service_state) else failure evidence_problem
          end
      end
  end.

(** The image of an IMAGE_VALID request, when nothing changed meanwhile. *)
Definition metadata_image (task_id : string) (request : MetadataRequest)
    (captured : Captured Session) (cpu_id : RuntimeCpuId)
    (service_state : FlashServiceResourceState) : M (Flow (option PreparedFlashImage)) :=
  let failure problem := metadata_request_failure task_id problem request in
  image <-! match request with
            | WriteAdvancedImageValidRequest f i =>
                image <-! materialize_program cpu_id (image_expectation f i) captured service_state
                            "Prepared Flash Service changed before Metadata execution" failure ;;
                ret (Continue (Some image.1))
            | _ => ret (Continue None)
            end ;;
  current <- status_connection (mq_connection_id (metadata_fields request)) (Some captured) ;;
  if negb (isSome current)
  then return_failure (failure ("STALE_CONNECTION",
                        "The active connection changed before Metadata execution")%string)
  else ret (Continue image).

(** The image and the service of an append; the evidence still holds after
    each of them. *)
Definition metadata_inputs (task_id : string) (request : MetadataRequest)
    (captured : Captured Session) (cpu_id : RuntimeCpuId)
    (service_state : FlashServiceResourceState)
    : M (Flow (option PreparedFlashImage * PreparedServiceImage)) :=
  let f := metadata_fields request in
  let failure problem := metadata_request_failure task_id problem request in
  image <-! metadata_image task_id request captured cpu_id service_state ;;
  let identity := pf_identity <$> image in
  matches <- evidence_matches request identity ;;
  if negb matches then return_failure (failure evidence_problem) else
  service <-! materialize_service (mq_target_key f) (mq_service_configuration_revision f) captured
                service_state failure ;;
  matches <- evidence_matches request identity ;;
  if negb matches then return_failure (failure evidence_problem) else
  ret (Continue (image, service)).

(** ** The operation *)

(** The append that a request asks for. *)
Definition append_call (request : MetadataRequest) (image : option PreparedFlashImage)
    : Res AppendCall :=
  match request, image with
  | WriteAdvancedImageValidRequest _ _, Some image => Ok (AppendImageValid image)
  | WriteAdvancedImageValidRequest _ _, None =>
      Raise (Err AttributeError (Lit "the operation has no image"))
  | WriteAdvancedBootAttemptRequest _ _, _ => Ok AppendBootAttempt
  | WriteAdvancedAppConfirmedRequest _ _, _ => Ok AppendAppConfirmed
  end.

(** The append of a request whose inputs are ready. *)
Definition run_metadata_request (task_id : string) (request : MetadataRequest)
    (captured : Captured Session) (cpu_id : RuntimeCpuId) (image : option PreparedFlashImage)
    (service : PreparedServiceImage) (cancellation : option (ST E bool)) (progress : TaskProgress)
    : M TaskExecutionResult :=
  let f := metadata_fields request in
  let step_id := metadata_step_id request in
  let identity := pf_identity <$> image in
  generation <- connection_generation ;;
  dispatch_event (MetadataWriteStarted task_id cpu_id generation identity) ;;;
  publish_step task_id step_id TaskStepState.STARTED (upper step_id) (metadata_title request)
    progress ;;;
  done <- execute_connected_foreground captured results_of_write
    (λ session,
       call <- lift (append_call request image) ;;
       write_action task_id step_id (mq_connection_id f) captured true
         "Advanced Metadata operation returned an invalid result" progress
         (λ session, append_operation session (ca_profile captured) service
                       (report task_id step_id progress) cancellation call) session) ;;
  lift (metadata_result task_id request identity generation done.1 done.2).

(** [_execute_advanced_metadata_operation] *)
Definition execute_advanced_metadata_operation (task_id : string) (request : MetadataRequest)
    (cancellation : option (ST E bool)) (progress : TaskProgress) : M TaskExecutionResult :=
  let f := metadata_fields request in
  let failure problem := metadata_request_failure task_id problem request in
  captured <- status_connection (mq_connection_id f) None ;;
  match captured with
  | None => lift (failure ("STALE_CONNECTION", "The active connection changed")%string)
  | Some captured =>
      match from_target_key (mq_target_key f) with
      | Raise _ => lift (failure ("STALE_TARGET", "The requested target is invalid")%string)
      | Ok cpu_id =>
          service_state <-? check_metadata_request task_id request captured cpu_id ;;
          inputs <-? metadata_inputs task_id request captured cpu_id service_state ;;
          run_metadata_request task_id request captured cpu_id inputs.1 inputs.2 cancellation
            progress
      end
  end.
End backend.

(** * The tasks of the runtime backend (gui/runtime_backend.py)

    [execute] takes a request of any class to its operation, under the lock,
    and turns a failed image preparation into the result of the task. *)

(** The requests of [execute], by the class that it asks for. *)
Inductive BackendRequest : Type :=
| MemoryTask (r : MemoryRefreshRequest)
| StatusTask (r : StatusRequest)
| PrepareRamTask (r : PrepareRamImageRequest)
| PrepareServiceTask (r : PrepareFlashServiceRequest)
| RunFlashTask (r : RunAdvancedFlashAppRequest)
| RamTask (r : RamRequest)
| FlashTask (r : FlashRequest)
| MetadataTask (r : MetadataRequest)
| PrepareFlashTask (r : PrepareFlashImageRequest)
| OtherStatusTask (class_name : string)
| OtherTask (class_name : string).

(** [_image_failure] *)
Definition image_failure_details (request : BackendRequest) : string * Dict :=
  let selection path revision :=
    [("selection_revision"%string, VInt revision); ("source_path"%string, VStr path)] in
  match request with
  | PrepareServiceTask r =>
      ("prepare_flash_service"%string,
       [("resource_revision"%string, VInt (psr_resource_revision r));
        ("tool_configuration_revision"%string, VInt (psr_tool_configuration_revision r))])
  | PrepareRamTask r =>
      ("prepare_ram_image"%string, selection (prr_source_path r) (prr_selection_revision r))
  | PrepareFlashTask r =>
      ("prepare_flash_image"%string, selection (pfr_source_path r) (pfr_selection_revision r))
  | _ => ("prepare_flash_image"%string, [])
  end.

Definition image_failure (task_id : string) (request : BackendRequest) (code : string) (m : Msg)
    (cause : option ExnClass) : Res TaskExecutionResult :=
  let '(stage, details) := image_failure_details request in
  failed_result task_id code (text_of m) stage "Image preparation failed" true
    (details ++ match cause with
                | Some c => [("exception_type"%string, VStr (OperationResults.class_name c))]
                | None => []
                end) [] None.

Section backend.
Context {E Session Transport : Type} `{EqDecision Session} `{EqDecision Transport}
  `{Ports E Session Transport} `{Paths}.

Abbreviation M := (B E Session Transport).
Abbreviation TaskProgress := (Progress E).

(** The [try] of [execute]. *)
Definition execute_request (task_id : string) (request : BackendRequest)
    (cancellation : option (ST E bool)) (progress : TaskProgress) : M TaskExecutionResult :=
  match request with
  | MemoryTask r => execute_memory_read task_id r cancellation progress
  | StatusTask (MetadataRefreshRequest connection_id automatic) =>
      read_metadata_status task_id connection_id automatic progress
  | StatusTask (DeviceInfoRequest _ as r) => read_device_info_status task_id r progress
  | StatusTask (ProtocolInfoRequest _ as r) => read_protocol_info_status task_id r progress
  | StatusTask (LastErrorRequest _ as r) => read_last_error_status task_id r progress
  | PrepareRamTask r => prepare_ram_image task_id r progress
  | PrepareServiceTask r => prepare_flash_service task_id r progress
  | RunFlashTask r => execute_advanced_flash_app_run task_id r progress
  | RamTask r => execute_ram_operation task_id r cancellation progress
  | FlashTask r => execute_advanced_flash_operation task_id r cancellation progress
  | MetadataTask r => execute_advanced_metadata_operation task_id r cancellation progress
  | PrepareFlashTask r => prepare_flash_image task_id r progress
  | OtherStatusTask name =>
      raise (Err NotImplementedError (Fmt "unsupported status request: {}" [VStr name]))
  | OtherTask name =>
      raise (Err NotImplementedError (Fmt "unsupported runtime request: {}" [VStr name]))
  end.

(** The [except _ImagePreparationFailure] of [execute]; a request without a
    source path or a selection revision has no such attribute. *)
Definition record_preparation_failure (request : BackendRequest) (code : string) (m : Msg)
    (image_path map_path : option string) (commit_service_state : bool) : M unit :=
  let fail_selection which target_key source_path revision :=
    cpu_id <- lift (from_target_key target_key) ;;
    fail_parse which cpu_id source_path revision code (str_or code (text_of m)) ;;;
    ret tt in
  match request with
  | PrepareRamTask r =>
      fail_selection RamSelection (prr_target_key r) (prr_source_path r) (prr_selection_revision r)
  | PrepareServiceTask r =>
      if commit_service_state
      then set_service_failure_state code m image_path map_path (psr_resource_revision r)
      else ret tt
  | PrepareFlashTask r =>
      fail_selection ProgramSelection (pfr_target_key r) (pfr_source_path r)
        (pfr_selection_revision r)
  | _ => raise (Err AttributeError (Lit "the request has no source_path"))
  end.

(** [execute] *)
Definition execute (task_id : string) (request : BackendRequest)
    (cancellation : option (ST E bool)) (progress : TaskProgress) : M TaskExecutionResult :=
  exclusively (
    catch (execute_request task_id request cancellation progress)
      (λ exc,
        match exc with
        | PreparationFailure code m image_path map_path commit_service_state cause =>
            record_preparation_failure request code m image_path map_path commit_service_state ;;;
            lift (image_failure task_id request code m cause)
        | _ => raise exc
        end)).

(** ** Construction *)

(** [RuntimeBackend(...)]; a provider is configured before anyone else can
    have the backend. *)
Definition Backend_init (hex2000_executable_path sci8_temp_dir : string)
    (global_settings_error : option string) : Backend E Session Transport :=
  mkBackend false (DomainEventDispatcher_init RuntimeStore.RuntimeStateStore_init) None None None
    None None None None (strip hex2000_executable_path) (strip sci8_temp_dir)
    global_settings_error no_revisions no_revisions None (unconfigured_state 0) 0.

(** [subscribe_runtime_v2], [unsubscribe_runtime_v2] *)
Definition subscribe_runtime_v2 (listener : TransitionListener) : M unit :=
  set (λ b, with_dispatcher (subscribe listener (be_dispatcher b)).2 b).
Definition unsubscribe_runtime_v2 (listener : TransitionListener) : M unit :=
  set (λ b, with_dispatcher (unsubscribe listener (be_dispatcher b)).2 b).
End backend.
