(* ===== verification/BackendInvariant.v ===== *)
(** * What the operations of the runtime backend leave alone

    [keeps J ok m P]: whatever the injected callables do, [m] leaves the
    connection as it is, dispatches only events that satisfy [ok], brings up no
    evidence but by them, calls only what keeps the property [J] of the
    environment, and returns a value that satisfies [P].  The rules follow the
    structure of the code; [keep] applies them. *)

From stdpp Require Import gmap.
From S2P Require Import Prelude.
From S2P Require Import Errors.
From S2P Require Import TaskPlans.
From S2P Require Import Models.
From S2P Require Import Targets.
From S2P Require Import OperationResults.
From S2P Require Import RuntimeValues.
From S2P Require Import RuntimeModels.
From S2P Require Import CommandExecutor.
From S2P Require Import ImageRequests.
From S2P Require Import OperationRequests.
From S2P Require Import TaskModels.
From S2P Require Import RuntimeStore.
From S2P Require Import RuntimeDispatch.
From S2P Require Import RuntimeTable.
From S2P Require Import RuntimeInvariant.
From S2P Require RuntimeRefinement.
From S2P Require Import RuntimeProperties.
From S2P Require Import Backend.
From S2P Require Import BackendConnection.
From S2P Require Import BackendSelection.
From S2P Require Import BackendStatus.

(** ** Events and the connection *)

(** What identifies the active connection. *)
Definition connection_key (s : RuntimeV2Snapshot)
    : option (string * RuntimeCpuId * ConnectionGeneration) :=
  (λ c, (cr_connection_id c, cr_cpu_id c, cr_generation c)) <$> rv_connection s.

(** An event that neither opens nor closes a connection. *)
Definition inner_event (event : DomainEvent) : bool :=
  match event with ConnectionOpened _ | ConnectionClosed _ _ => false | _ => true end.

Lemma on_connection_key f s :
  (∀ c, (cr_connection_id (f c), cr_cpu_id (f c), cr_generation (f c)) =
        (cr_connection_id c, cr_cpu_id c, cr_generation c)) →
  connection_key (on_connection f s) = connection_key s.
Proof. intros Hf. unfold connection_key. simpl. destruct (rv_connection s); simpl; [by rewrite Hf|done]. Qed.

Lemma started_row_same op s :
  rv_connection_generation (started_row op s) = rv_connection_generation s ∧
  rv_connection (started_row op s) = rv_connection s.
Proof.
  unfold started_row, metadata_written.
  destruct (op_operation_type op); try destruct (is_active _ _ _); done.
Qed.

Lemma succeeded_row_same op s :
  rv_connection_generation (succeeded_row op s) = rv_connection_generation s ∧
  rv_connection (succeeded_row op s) = rv_connection s.
Proof.
  unfold succeeded_row. destruct op as [? [] ? ? []];
    match goal with |- context [is_active ?a ?b ?c] => by destruct (is_active a b c) end.
Qed.

Lemma event_effect_key event s s' :
  inner_event event = true → event_effect event s = Ok s' →
  rv_connection_generation s' = rv_connection_generation s ∧ connection_key s' = connection_key s.
Proof.
  intros Hi Heff. destruct event; try done; simpl in Heff;
    try (injection Heff as <-;
         first [ split; [done|]; apply on_connection_key; intros c; by destruct (bool_decide _ && _)
               | split; [done|]; apply on_connection_key; intros c; by destruct (bool_decide _)
               | by destruct (is_active _ _ _) | done ]).
  - destruct (is_active _ _ _); [|by injection Heff as <-].
    destruct (freeze _); [|done]. by injection Heff as <-.
  - injection Heff as <-. unfold metadata_written. by destruct (is_active _ _ _).
  - destruct (is_active _ _ _); [|by injection Heff as <-].
    destruct (freeze _); [|done]. by injection Heff as <-.
  - injection Heff as <-. destruct (started_row_same operation s) as [-> Hc].
    unfold connection_key. by rewrite Hc.
  - injection Heff as <-. destruct (succeeded_row_same operation s) as [-> Hc].
    unfold connection_key. by rewrite Hc.
  - unfold connection_key. destruct (rv_connection s); [done|]. by injection Heff as <-.
Qed.

Lemma DomainEvent_post_init_same event event' : DomainEvent_post_init event = Ok event' → event' = event.
Proof.
  destruct event; simpl; intros H; checks; try done; by injection H.
Qed.

(** ** States *)

Section states.
Context {E Session Transport : Type}.
Implicit Types b : Backend E Session Transport.

Definition store b : RuntimeV2Snapshot := de_store (be_dispatcher b).

Definition store_ok b : Prop :=
  runtime_ok (store b) ∧ de_policies (be_dispatcher b) = DEFAULT_DOMAIN_POLICIES.

(** The connection as the backend has it. *)
Definition link b :=
  ((be_locked b, be_session b, be_transport b, be_target b, isSome (be_device_info b)),
   (be_connection_info b, be_executor b, be_pending_close b),
   (rv_connection_generation (store b), connection_key (store b))).

Definition verify_of b (cpu_id : RuntimeCpuId) : option VerifyEvidence :=
  rv_target_resources (store b) !! cpu_id ≫= tr_verify_evidence.
Definition ram_crc_of b (cpu_id : RuntimeCpuId) : option RamCrcEvidence :=
  rv_target_resources (store b) !! cpu_id ≫= tr_ram_crc_evidence.

(** [b'] has the connection of [b], and no other evidence but from the events
    that [ok] allows. *)
Record moved (ok : DomainEvent → Prop) b b' : Prop := mkMoved {
  mv_link : link b' = link b;
  mv_verify : ∀ cpu_id e, verify_of b' cpu_id = Some e →
    verify_of b cpu_id = Some e ∨ ok (verified_by e);
  mv_ram_crc : ∀ cpu_id e, ram_crc_of b' cpu_id = Some e →
    ram_crc_of b cpu_id = Some e ∨ ok (ram_checked_by e);
}.

Lemma moved_refl ok b : moved ok b b.
Proof. split; auto. Qed.

Lemma moved_trans ok b1 b2 b3 : moved ok b1 b2 → moved ok b2 b3 → moved ok b1 b3.
Proof.
  intros [L1 V1 R1] [L2 V2 R2]. split; [congruence|..].
  - intros cpu_id e He. destruct (V2 _ _ He); auto.
  - intros cpu_id e He. destruct (R2 _ _ He); auto.
Qed.

(** A change of other attributes. *)
Lemma moved_same ok b b' : link b' = link b → store b' = store b → moved ok b b'.
Proof. intros Hl Hs. split; [done|..]; unfold verify_of, ram_crc_of; rewrite Hs; auto. Qed.

Definition with_store (s : RuntimeV2Snapshot) b : Backend E Session Transport :=
  with_dispatcher (mkDispatcher s (de_policies (be_dispatcher b)) (de_listeners (be_dispatcher b))) b.

Lemma moved_event (ok : DomainEvent → Prop) event b s' :
  inner_event event = true → ok event → event_effect event (store b) = Ok s' →
  moved ok b (with_store s' b).
Proof.
  intros Hi Hok Heff. split.
  - destruct (event_effect_key _ _ _ Hi Heff) as [Hg Hk]. 
    unfold link. change (store (with_store s' b)) with s'. by rewrite Hg, Hk.
  - unfold verify_of. change (store (with_store s' b)) with s'. intros cpu_id e.
    destruct (rv_target_resources s' !! cpu_id) as [r'|] eqn:Er; simpl; [|done]. intros He.
    destruct (verify_step _ _ _ _ _ _ Heff Er He) as [(r & Hr & Hv & _)| -> ]; [|by right].
    left. by rewrite Hr.
  - unfold ram_crc_of. change (store (with_store s' b)) with s'. intros cpu_id e.
    destruct (rv_target_resources s' !! cpu_id) as [r'|] eqn:Er; simpl; [|done]. intros He.
    destruct (ram_crc_step _ _ _ _ _ _ Heff Er He) as [(r & Hr & Hv & _)| -> ]; [|by right].
    left. by rewrite Hr.
Qed.
End states.

(** [dispatch_event] on a well-formed store: the row of the event, unless the
    construction of the event or the row raises. *)
Lemma dispatch_event_run {E Session Transport} event (b : Backend E Session Transport) e :
  store_ok b → parts_ok event →
  (∃ s', event_ok event ∧ event_effect event (store b) = Ok s' ∧
     dispatch_event event (mkBackendWorld b e) =
       (Ok (published event (store b) s' (de_listeners (be_dispatcher b))),
        mkBackendWorld (with_store s' b) e)) ∨
  (∃ exc, dispatch_event event (mkBackendWorld b e) = (Raise exc, mkBackendWorld b e)).
Proof.
  intros [Hs Hp] Hparts. unfold dispatch_event, bind, lift.
  destruct (DomainEvent_post_init event) as [event'|exc] eqn:He; [|by right; exists exc].
  pose proof (DomainEvent_post_init_same _ _ He) as ->. simpl.
  rewrite dispatch_effect; [|done|done|by split].
  destruct (event_effect event _) as [s'|exc] eqn:Heff.
  - left. exists s'. split_and!; [by split|done|done].
  - right. exists exc. by destruct b.
Qed.

Lemma store_ok_event {E Session Transport} event (b : Backend E Session Transport) s' :
  store_ok b → event_ok event → event_effect event (store b) = Ok s' →
  store_ok (with_store s' b).
Proof. intros [Hs Hp] He Heff. split; [|done]. by eapply event_effect_ok. Qed.

Lemma snapshot_run {E Session Transport} (b : Backend E Session Transport) e :
  store_ok b → runtime_v2_snapshot (mkBackendWorld b e) = (Ok (store b), mkBackendWorld b e).
Proof.
  intros [Hs _]. unfold runtime_v2_snapshot, bind, self, gets, lift. simpl.
  unfold snapshot, bind, get, lift. by rewrite RuntimeRefinement.snapshot_ok.
Qed.

(** ** Environments *)

Section environments.
Context {E : Type} (J : E → Prop).

Definition env_keeps {A} (m : ST E A) : Prop := ∀ e, J e → J (m e).2.
Definition op_keeps {A} (m : ST (OpEnv E) A) : Prop := ∀ s, J (oe_env s) → J (oe_env (m s).2).
Definition callback_ok (callback : Callback E) : Prop := ∀ event, op_keeps (callback event).
Definition progress_ok (progress : Progress E) : Prop :=
  match progress with Some progress => ∀ update, env_keeps (progress update) | None => True end.
Definition cancellation_ok (cancellation : option (ST E bool)) : Prop :=
  match cancellation with Some asked => env_keeps asked | None => True end.
Definition provider_ok (provider : AppResourceProvider E) : Prop :=
  env_keeps (ap_flash_service_image_path provider) ∧ env_keeps (ap_flash_service_map_path provider).

Lemma report_ok task_id step_id progress :
  progress_ok progress → callback_ok (report task_id step_id progress).
Proof.
  intros Hp event s Hs. unfold report, bind, lift, modify.
  destruct (operation_progress_to_task_update _ _ _) as [update|]; [|done].
  destruct progress as [progress|]; [|done]. simpl. specialize (Hp update _ Hs).
  by destruct (progress update (oe_env s)).
Qed.

(** What the operations may be asked to do. *)
Record Allowed : Type := mkAllowed {
  al_flash : TargetProfile → FlashCall → Prop;
  al_append : AppendCall → Prop;
  al_load_ram : PreparedRamImage → Prop;
  al_check_ram : PreparedRamImage → Prop;
  al_run_ram : Z → Prop;
  al_run_flash : Z → Prop;
}.

(** Every injected callable keeps [J], the operations when they are asked for
    what is allowed. *)
Record Respects {Session Transport} `{Ports E Session Transport} (al : Allowed) : Prop := {
  re_transport_factory : ∀ r, env_keeps (transport_factory r);
  re_session_factory : ∀ t, env_keeps (session_factory t);
  re_session_connect : ∀ s c, cancellation_ok c → env_keeps (session_connect s c);
  re_session_ping : ∀ s, env_keeps (session_ping s);
  re_close : ∀ r m, close_method r = Some m → env_keeps m;
  re_discovery : ∀ s, env_keeps (discovery_operation s);
  re_uuid4 : env_keeps uuid4_hex;
  re_now : env_keeps now_utc;
  re_clock : env_keeps maintenance_clock;
  re_scheduler : ∀ h g, env_keeps (maintenance_scheduler h g);
  re_device_info : ∀ s p, env_keeps (device_info_operation s p);
  re_protocol_info : ∀ s p, env_keeps (protocol_info_operation s p);
  re_last_error : ∀ s p, env_keeps (last_error_operation s p);
  re_metadata : ∀ s p, env_keeps (metadata_operation s p);
  re_memory : ∀ s p f c r, callback_ok f → cancellation_ok c →
    op_keeps (memory_read_operation s p f c r);
  re_resolver : ∀ k, env_keeps (target_profile_resolver k);
  re_prepare_ram : ∀ s p t, env_keeps (prepare_ram_operation s p t);
  re_prepare_flash : ∀ s p t, env_keeps (prepare_flash_operation s p t);
  re_prepare_service : ∀ i m p h x d, env_keeps (prepare_service_operation i m p h x d);
  re_load_ram : ∀ s p f c i, al_load_ram al i → callback_ok f → cancellation_ok c →
    op_keeps (load_ram_operation s p f c i);
  re_check_ram : ∀ s p i, al_check_ram al i → env_keeps (check_ram_crc_operation s p i);
  re_run_ram : ∀ s p a, al_run_ram al a → env_keeps (run_ram_operation s p a);
  re_run_flash : ∀ s p a, al_run_flash al a → env_keeps (run_flash_operation s p a);
  re_flash : ∀ s p v f c call, al_flash al p call → callback_ok f → cancellation_ok c →
    op_keeps (flash_operation s p v f c call);
  re_append : ∀ s p v f c call, al_append al call → callback_ok f → cancellation_ok c →
    op_keeps (append_operation s p v f c call);
  re_stat : ∀ p, env_keeps (path_stat p);
  re_locate : ∀ p, env_keeps (locate_hex2000 p);
  re_enter : ∀ p d, env_keeps (workspace_enter p d);
  re_exit : env_keeps workspace_exit;
}.
End environments.

(** ** The rules *)

Section rules.
Context {E Session Transport : Type} (J : E → Prop) (ok : DomainEvent → Prop).

Abbreviation M := (B E Session Transport).
Abbreviation World := (BackendWorld E Session Transport).

(** The store is well-formed, and the provider keeps [J]. *)
Definition state_ok (b : Backend E Session Transport) : Prop :=
  store_ok b ∧ match be_provider b with Some provider => provider_ok J provider | None => True end.

(** The state is well-formed and reached from [b]. *)
Definition kept (b : Backend E Session Transport) (w : World) : Prop :=
  state_ok (bw_backend w) ∧ moved ok b (bw_backend w) ∧ J (bw_env w).

(** [keeps_from pre m P]: from the states that satisfy [pre]. *)
Definition keeps_from {A} (pre : Backend E Session Transport → Prop) (m : M A) (P : A → Prop)
    : Prop :=
  ∀ b e, state_ok b → J e → pre b →
    wp m (λ a w, kept b w ∧ P a) (λ _ w, kept b w) (mkBackendWorld b e).

Definition keeps {A} (m : M A) (P : A → Prop) : Prop := keeps_from (λ _, True) m P.

Lemma kept_refl b e : state_ok b → J e → kept b (mkBackendWorld b e).
Proof. intros Hs He. split_and!; [done|apply moved_refl|done]. Qed.

Lemma kept_trans b w w' : kept b w → kept (bw_backend w) w' → kept b w'.
Proof.
  intros (_ & M1 & _) (S2 & M2 & J2). split_and!; [done|by eapply moved_trans|done].
Qed.

(** A run of something kept, from a state that was reached. *)
Lemma keeps_from_run {A} pre (m : M A) P b w :
  keeps_from pre m P → kept b w → pre (bw_backend w) →
  wp m (λ a w', kept b w' ∧ P a) (λ _ w', kept b w') w.
Proof.
  intros Hm Hw Hpre. destruct w as [b' e']. pose proof Hw as (Hs & _ & HJ).
  apply (wp_conseq _ _ _ _ _ _ (Hm b' e' Hs HJ Hpre)).
  - intros a w' [Hw' Ha]. split; [|done]. exact (kept_trans b _ _ Hw Hw').
  - intros exc w' Hw'. exact (kept_trans b _ _ Hw Hw').
Qed.

Lemma kept_run {A} (m : M A) P b w :
  keeps m P → kept b w → wp m (λ a w', kept b w' ∧ P a) (λ _ w', kept b w') w.
Proof. intros Hm Hw. by apply (keeps_from_run (λ _, True)). Qed.

Lemma keeps_conseq {A} (m : M A) (P P' : A → Prop) :
  keeps m P → (∀ a, P a → P' a) → keeps m P'.
Proof.
  intros Hm HP b e Hs He _. apply (wp_conseq _ _ _ _ _ _ (Hm b e Hs He I)); [|done].
  intros a w [Hw Ha]. auto.
Qed.

Lemma keeps_pre {A} pre (m : M A) P : keeps m P → keeps_from pre m P.
Proof. intros Hm b e Hs He _. by apply Hm. Qed.

Lemma kept_ret {A} (a : A) (P : A → Prop) : P a → keeps (ret a) P.
Proof. intros Ha b e Hs He _. split; [by apply kept_refl|done]. Qed.

Lemma kept_raise {A} exc (P : A → Prop) : keeps (raise exc) P.
Proof. intros b e Hs He _. by apply kept_refl. Qed.

Lemma kept_bind {A C} (m : M A) (k : A → M C) Q P :
  keeps m Q → (∀ a, Q a → keeps (k a) P) → keeps (bind m k) P.
Proof.
  intros Hm Hk b e Hs He _. apply wp_bind.
  apply (wp_conseq _ _ _ _ _ _ (Hm b e Hs He I)); [|done].
  intros a w [Hw Ha]. by apply kept_run; [apply Hk|].
Qed.

Lemma kept_lift {A} (r : Res A) (P : A → Prop) : (∀ a, r = Ok a → P a) → keeps (lift r) P.
Proof.
  intros HP b e Hs He _. apply wp_lift; [|by intros; apply kept_refl].
  intros a Ha. split; [by apply kept_refl|auto].
Qed.

Lemma keeps_env {A} (m : ST E A) (P : A → Prop) :
  env_keeps J m → (∀ a e e', m e = (Ok a, e') → P a) → keeps (env m) P.
Proof.
  intros Hm HP b e Hs He _. unfold wp, env. specialize (Hm e He). simpl.
  destruct (m e) as [[a|exc] e'] eqn:Em; simpl in *; [split; [|by eapply HP]|]; by apply kept_refl.
Qed.

Lemma keeps_self (P : Backend E Session Transport → Prop) :
  (∀ b, state_ok b → P b) → keeps self P.
Proof. intros HP b e Hs He _. split; [by apply kept_refl|by apply HP]. Qed.

(** What an assignment to an attribute of another kind leaves alone. *)
Definition same_core (b' b : Backend E Session Transport) : Prop :=
  be_dispatcher b' = be_dispatcher b ∧ link b' = link b ∧ be_provider b' = be_provider b.

Lemma keeps_set_from (pre : Backend E Session Transport → Prop) f :
  (∀ b, pre b → same_core (f b) b) → keeps_from pre (set f) (λ _, True).
Proof.
  intros Hf b e Hs He Hpre. destruct (Hf b Hpre) as (Hd & Hl & Hp). split; [|done].
  assert (store (f b) = store b) as Hst by (unfold store; by rewrite Hd).
  split_and!; simpl; [|by apply moved_same|done]. unfold state_ok, store_ok. by rewrite Hst, Hd, Hp.
Qed.

Lemma keeps_set f : (∀ b, same_core (f b) b) → keeps (set f) (λ _, True).
Proof. intros Hf. by apply keeps_set_from. Qed.

Lemma keeps_dispatch event :
  inner_event event = true → ok event → parts_ok event →
  keeps (dispatch_event event) (λ _, True).
Proof.
  intros Hi Hok Hp b e Hs He _. unfold wp.
  destruct (dispatch_event_run event b e (proj1 Hs) Hp) as [(s' & Hev & Heff & ->)|[exc ->]];
    [split; [|done]|by apply kept_refl].
  destruct Hs as [Hs Hpr].
  split_and!; [split; [by eapply store_ok_event|done]|by eapply moved_event|done].
Qed.

Lemma keeps_snapshot P : (∀ s, runtime_ok s → P s) → keeps runtime_v2_snapshot P.
Proof.
  intros HP b e Hs He _. unfold wp. rewrite snapshot_run by apply Hs.
  split; [by apply kept_refl|apply HP, Hs].
Qed.

Lemma kept_catch {A} (m : M A) h P :
  keeps m P → (∀ exc, keeps (h exc) P) → keeps (catch m h) P.
Proof.
  intros Hm Hh b e Hs He _. apply wp_catch.
  apply (wp_conseq _ _ _ _ _ _ (Hm b e Hs He I)); [done|].
  intros exc w Hw. by apply kept_run.
Qed.

Lemma keeps_finally {A} (m : M A) f P :
  keeps m P → keeps f (λ _, True) → keeps (try_finally m f) P.
Proof.
  intros Hm Hf b e Hs He _. specialize (Hm b e Hs He I). unfold wp, try_finally in *.
  destruct (m (mkBackendWorld b e)) as [[a|exc] w].
  - destruct Hm as [Hw Ha]. pose proof (kept_run f _ _ _ Hf Hw) as H. unfold wp in H.
    destruct (f w) as [[[]|exc'] w']; [|done]. split; [by destruct H|done].
  - pose proof (kept_run f _ _ _ Hf Hm) as H. unfold wp in H.
    destruct (f w) as [[[]|exc'] w']; [by destruct H|done].
Qed.

Lemma keeps_for_each {A} (l : list A) m :
  (∀ a, keeps (m a) (λ _, True)) → keeps (for_each l m) (λ _, True).
Proof.
  intros Hm. induction l as [|a l IH]; simpl; [by apply kept_ret|].
  by eapply kept_bind; [apply Hm|].
Qed.

Lemma keeps_reporting {A} (m : ST (OpEnv E) A) (P : A * option TaskProgressUpdate → Prop) :
  op_keeps J m → (∀ a s s', m s = (Ok a, s') → P (a, oe_last_update s')) → keeps (reporting m) P.
Proof.
  intros Hm HP b e Hs He _. unfold wp, reporting. specialize (Hm (mkOpEnv e None) He). simpl.
  destruct (m _) as [[a|exc] s'] eqn:Em; simpl in *; [split; [|by eapply HP]|]; by apply kept_refl.
Qed.

(** *** The executor *)

Lemma link_with_executor (x y : option Executor) (b b' : Backend E Session Transport) :
  link b' = link (with_executor x b) → link (with_executor y b') = link (with_executor y b).
Proof. unfold link. simpl. unfold store. simpl. congruence. Qed.

Lemma with_executor_same (b : Backend E Session Transport) : with_executor (be_executor b) b = b.
Proof. by destruct b. Qed.

Lemma link_executor (x : option Executor) (b b' : Backend E Session Transport) :
  link b' = link (with_executor x b) → be_executor b' = x.
Proof. unfold link. simpl. congruence. Qed.

(** An action between the two sections of the executor, which was idle. *)
Lemma keeps_occupied {A} (action : M A) P b e ex ex' :
  keeps action P → state_ok b → J e → be_executor b = Some ex → leave ex' = ex →
  wp (λ s, let '(r, s) := action s in (r, put_executor (leave (executor_of s)) s))
     (λ a w, kept b w ∧ P a) (λ _ w, kept b w) (mkBackendWorld (with_executor (Some ex') b) e).
Proof.
  intros Ha Hs He Hex Hl. pose proof (Ha (with_executor (Some ex') b) e Hs He I) as H.
  assert (∀ w, kept (with_executor (Some ex') b) w → kept b (put_executor (leave (executor_of w)) w))
    as Hput.
  { intros w (Hs' & [Hlk Hv Hr] & HJ). pose proof (link_executor _ _ _ Hlk) as Hw.
    unfold executor_of. rewrite Hw. simpl. rewrite Hl. split_and!; [exact Hs'| |exact HJ].
    split; [|exact Hv|exact Hr]. simpl. rewrite (link_with_executor _ _ _ _ Hlk), <-Hex.
    by rewrite with_executor_same. }
  unfold wp in *. destruct (action _) as [[a|exc] w]; [destruct H; split; auto|auto].
Qed.

Lemma leave_idle e : ce_active e = false → leave (add_waiters (-1) (set_active true (add_waiters 1 e))) = e.
Proof.
  destruct e as [g a n v]. unfold leave, add_waiters, set_active. simpl. intros ->. f_equal. lia.
Qed.

Lemma leave_active e : ce_active e = false → leave (set_active true e) = e.
Proof. destruct e as [g a n v]. unfold leave, set_active. simpl. by intros ->. Qed.

Lemma keeps_execute_foreground {A} generation (action : M A) P :
  keeps action P → keeps (execute_foreground executor_of put_executor generation action) P.
Proof.
  intros Ha b e Hs He _. unfold execute_foreground. apply wp_bind, wp_gets.
  unfold foreground_enter. destruct (raise_if_unavailable _ _) as [|exc] eqn:Hr; [|by apply kept_raise].
  unfold foreground_test. destruct (ce_active (add_waiters 1 _)) eqn:Hactive; [by apply kept_raise|].
  apply wp_bind, wp_modify. unfold put_executor at 2. unfold executor_of in *. simpl in *.
  destruct (be_executor b) as [ex|] eqn:Hex; [|done]. simpl in *.
  by apply (keeps_occupied _ _ _ _ ex); [..|apply leave_idle].
Qed.

Lemma keeps_try_execute_maintenance {A} generation (action : M A) :
  keeps action (λ _, True) →
  keeps (try_execute_maintenance executor_of put_executor generation action) (λ _, True).
Proof.
  intros Ha b e Hs He _. unfold try_execute_maintenance. apply wp_bind, wp_gets.
  assert (∀ status, wp (ret (mkMaintenance status (None : option A))) (λ _ w, kept b w ∧ True)
            (λ _ w, kept b w) (mkBackendWorld b e : World)) as Hskip.
  { intros status. by apply (kept_ret (mkMaintenance status (None : option A))). }
  unfold maintenance_enter, executor_of. simpl.
  destruct (be_executor b) as [ex|] eqn:Hex; simpl; [|done].
  destruct (ce_valid ex); simpl; [|done]. destruct (generation =? ce_generation ex); simpl; [|done].
  destruct (ce_active ex) eqn:Hactive; simpl; [done|].
  destruct (0 <? ce_foreground_waiters ex); [done|].
  apply wp_bind, wp_modify, wp_bind. unfold put_executor at 2. simpl.
  apply (wp_conseq _ _ _ _ _ _ (keeps_occupied action (λ _, True) b e ex (set_active true ex) Ha Hs He
           Hex (leave_active _ Hactive))); [|done].
  intros a w [Hw _]. by split.
Qed.
End rules.

(** ** Automation *)

(** Every event but the opening and the closing of a connection and the success
    of an operation. *)
Definition quiet (event : DomainEvent) : Prop :=
  match event with
  | ConnectionOpened _ | ConnectionClosed _ _ | OperationSucceeded _ => False
  | _ => True
  end.

Create HintDb keeps.
#[export] Hint Resolve re_transport_factory re_session_factory re_session_connect re_session_ping
  re_close re_discovery re_uuid4 re_now re_clock re_scheduler re_device_info re_protocol_info
  re_last_error re_metadata re_memory re_resolver re_prepare_ram re_prepare_flash
  re_prepare_service re_load_ram re_check_ram re_run_ram re_run_flash re_flash re_append re_stat
  re_locate re_enter re_exit report_ok : keeps.

Ltac keep_step :=
  lazymatch goal with
  | |- keeps _ _ (bind (lift ?r) _) _ =>
      apply (kept_bind _ _ _ _ (λ a, r = Ok a)); [by apply kept_lift|intros ? ?]
  | |- keeps _ _ (bind _ _) _ => apply (kept_bind _ _ _ _ (λ _, True)); [|intros ? _]
  | |- keeps _ _ (ret _) _ => apply kept_ret; try done
  | |- keeps _ _ (raise _) _ => apply kept_raise
  | |- keeps _ _ (lift _) _ => apply kept_lift; try done
  | |- keeps _ _ (catch _ _) _ => apply kept_catch; [|intros ?]
  | |- keeps _ _ (try_finally _ _) _ => apply keeps_finally
  | |- keeps _ _ self _ => apply keeps_self; try done
  | |- keeps _ _ runtime_v2_snapshot _ => apply keeps_snapshot; try done
  | |- keeps _ _ (env _) _ => apply keeps_env; [eauto with keeps|done]
  | |- keeps _ _ (for_each _ _) _ => apply keeps_for_each; intros ?
  | |- keeps _ _ (match ?x with _ => _ end) _ => destruct x eqn:?
  | |- keeps _ _ _ _ => solve [eauto with keeps]
  end.
Ltac keep := repeat (keep_step; try (cbn beta zeta iota)).
