(* ===== verification/BackendKeeps.v ===== *)
(** * The operations of the runtime backend, one by one

    Every operation but connect, disconnect and shutdown keeps the connection,
    dispatches only the events that it may dispatch, and asks of the device
    only what it was asked for.  A lemma per definition, in their order. *)

From stdpp Require Import gmap.
From S2P Require Import Prelude.
From S2P Require Import Errors.
From S2P Require Import Messages.
From S2P Require Import TaskPlans.
From S2P Require Import Models.
From S2P Require Import Targets.
From S2P Require Import OperationResults.
From S2P Require Import StatusModels.
From S2P Require Import RuntimeValues.
From S2P Require Import RuntimeModels.
From S2P Require Import CommandExecutor.
From S2P Require Import ImageRequests.
From S2P Require Import OperationRequests.
From S2P Require Import TaskModels.
From S2P Require Import RuntimeStore.
From S2P Require Import RuntimeDispatch.
From S2P Require Import RuntimeInvariant.
From S2P Require Import RuntimeProperties.
From S2P Require Import Backend.
From S2P Require Import BackendConnection.
From S2P Require Import BackendSelection.
From S2P Require Import BackendImages.
From S2P Require Import BackendStatus.
From S2P Require Import BackendRam.
From S2P Require Import BackendFlash.
From S2P Require Import BackendExecute.
From S2P Require Import BackendInvariant.

(** A materialized image is the expected one. *)
Definition is_ram_image (identity : RamImageIdentity) (image : PreparedRamImage) : Prop :=
  mkRamImageIdentity (pr_entry_point image) (pr_total_words image) (pr_image_crc32 image) = identity.

Lemma identity_of_ram_is image identity :
  identity_of_ram image = Ok identity → is_ram_image identity image.
Proof. unfold identity_of_ram, RamImageIdentity_post_init. intros Hi. checks. unfold is_ram_image. congruence. Qed.

(** ** What a request permits *)

Definition ram_expected (request : RamRequest) (image : PreparedRamImage) : Prop :=
  is_ram_image (ram_expected_image_identity request) image.

Definition program_expected (f : FlashRequestFields) (image : PreparedFlashImage) : Prop :=
  pf_identity image = ff_expected_image_identity f ∧
  pf_sector_mask image = ff_expected_effective_sector_mask f.

(** Some sectors, each of them allowed and none forbidden by the layout. *)
Definition sectors_allowed (flash : FlashLayout) (mask : Z) : Prop :=
  mask <> 0 ∧ Z.land mask (fl_forbidden_erase_mask flash) = 0 ∧
  Z.land mask (Z.lnot (fl_allowed_erase_mask flash)) = 0.

Lemma erasable_allowed flash mask : erasable flash mask = true → sectors_allowed flash mask.
Proof.
  unfold erasable, sectors_allowed. rewrite !andb_true_iff, negb_true_iff, Z.eqb_neq, !Z.eqb_eq.
  by intros [[? ?] ?].
Qed.

(** The calls of a Flash request on a target: an erase takes sectors that may
    be erased, and the image is the expected one. *)
Definition flash_permitted (request : FlashRequest) (profile : TargetProfile) (call : FlashCall)
    : Prop :=
  match request, call with
  | EraseAdvancedFlashRequest f _ _, EraseImageArea image =>
      program_expected f image ∧ ∃ flash, mp_flash (tp_memory_map profile) = Some flash ∧
        sectors_allowed flash (pf_sector_mask image)
  | EraseAdvancedFlashRequest _ _ _, EraseSectors mask =>
      ∃ flash, mp_flash (tp_memory_map profile) = Some flash ∧
        flash_erase_mask flash request = Some mask ∧ sectors_allowed flash mask
  | ProgramAdvancedFlashRequest f, ProgramImage image
  | VerifyAdvancedFlashRequest f, VerifyImage image => program_expected f image
  | _, _ => False
  end.

Definition append_permitted (request : MetadataRequest) (call : AppendCall) : Prop :=
  match request, call with
  | WriteAdvancedImageValidRequest _ i, AppendImageValid image =>
      pf_identity image = iv_expected_image_identity i ∧
      pf_identity image = ve_image_identity (iv_expected_verify_evidence i)
  | WriteAdvancedBootAttemptRequest _ _, AppendBootAttempt
  | WriteAdvancedAppConfirmedRequest _ _, AppendAppConfirmed => True
  | _, _ => False
  end.

Definition forbidden : Allowed :=
  mkAllowed (λ _ _, False) (λ _, False) (λ _, False) (λ _, False) (λ _, False) (λ _, False).

(** What a task may ask of the target besides reading. *)
Definition permitted (request : BackendRequest) : Allowed :=
  match request with
  | RamTask (LoadAdvancedRamImageRequest _ as r) =>
      mkAllowed (λ _ _, False) (λ _, False) (ram_expected r) (λ _, False) (λ _, False) (λ _, False)
  | RamTask (CheckAdvancedRamCrcRequest _ as r) =>
      mkAllowed (λ _ _, False) (λ _, False) (λ _, False) (ram_expected r) (λ _, False) (λ _, False)
  | RamTask (RunRamRequest r) =>
      mkAllowed (λ _ _, False) (λ _, False) (λ _, False) (λ _, False)
        (λ address, address = ri_entry_point (rr_expected_image_identity r)) (λ _, False)
  | RunFlashTask r =>
      mkAllowed (λ _ _, False) (λ _, False) (λ _, False) (λ _, False) (λ _, False)
        (λ address, address = rf_entry_point r)
  | FlashTask r =>
      mkAllowed (flash_permitted r) (λ _, False) (λ _, False) (λ _, False) (λ _, False)
        (λ _, False)
  | MetadataTask r =>
      mkAllowed (λ _ _, False) (append_permitted r) (λ _, False) (λ _, False) (λ _, False)
        (λ _, False)
  | _ => forbidden
  end.

Section keeps.
Context {E Session Transport : Type} `{EqDecision Session} `{EqDecision Transport}
  `{Ports E Session Transport} `{Paths}.
Context (J : E → Prop) (al : Allowed) (HR : Respects J al) (ok : DomainEvent → Prop)
  (Hquiet : ∀ event, quiet event → ok event).

Abbreviation M := (B E Session Transport).
Abbreviation Keeps m := (keeps J ok m (λ _, True)).

Lemma keeps_quiet event :
  quiet event → parts_ok event → Keeps (dispatch_event event : M _).
Proof. intros Hq Hp. apply keeps_dispatch; [by destruct event|by apply Hquiet|done]. Qed.

(** ** Shared steps *)

Lemma keeps_target_resource cpu_id : Keeps (target_resource_of cpu_id : M _).
Proof. unfold target_resource_of. keep. Qed.

Lemma keeps_connection_generation : Keeps (connection_generation : M _).
Proof. unfold connection_generation. keep. Qed.

Lemma keeps_publish_step task_id step_id state stage message progress :
  progress_ok J progress →
  Keeps (publish_step task_id step_id state stage message progress : M _).
Proof. intros Hp. unfold publish_step. keep. Qed.

Lemma keeps_complete_step task_id step_id stage operation update progress :
  progress_ok J progress →
  Keeps (complete_step task_id step_id stage operation update progress : M _).
Proof.
  intros Hp. unfold complete_step. destruct update, progress; try (by apply keeps_publish_step).
  - apply keeps_env; [apply Hp|done].
  - keep.
Qed.

Lemma keeps_notify hook generation : Keeps (notify_maintenance hook generation : M _).
Proof. unfold notify_maintenance. keep. Qed.

Lemma keeps_current_revision which cpu_id : Keeps (current_revision which cpu_id : M _).
Proof. unfold current_revision. keep. Qed.

Lemma keeps_image_revision which target_key : Keeps (image_revision which target_key : M _).
Proof. unfold image_revision. keep. apply keeps_current_revision. Qed.

Lemma keeps_set_revision which cpu_id revision : Keeps (set_revision which cpu_id revision : M _).
Proof. apply keeps_set. by destruct which. Qed.

Lemma keeps_set_service_state state : Keeps (set_service_state state : M _).
Proof. unfold set_service_state. keep. by apply keeps_set. Qed.

Lemma keeps_resolve_target_profile target_key : Keeps (resolve_target_profile target_key : M _).
Proof. unfold resolve_target_profile. keep. Qed.

#[local] Hint Resolve keeps_target_resource keeps_connection_generation keeps_publish_step
  keeps_complete_step keeps_notify keeps_current_revision keeps_image_revision
  keeps_set_revision keeps_set_service_state keeps_resolve_target_profile : keeps.

(** A quiet event whose parts need no check. *)
#[local] Hint Extern 1 (keeps _ _ (dispatch_event _) _) => by apply keeps_quiet : keeps.

(** ** BackendSelection *)

Lemma keeps_begin_parse which cpu_id source_path revision :
  Keeps (begin_parse which cpu_id source_path revision : M _).
Proof. unfold begin_parse. destruct which; keep. Qed.

Lemma keeps_fail_parse which cpu_id source_path revision code message :
  Keeps (fail_parse which cpu_id source_path revision code message : M _).
Proof. unfold fail_parse, parse_paths. destruct which; keep. Qed.

Lemma keeps_resolve_paths provider :
  provider_ok J provider → Keeps (resolve_service_resource_paths provider : M _).
Proof.
  intros [Hi Hm]. unfold resolve_service_resource_paths, resolve_provided. keep.
Qed.

Lemma keeps_set_service_failure_state code m image_path map_path revision :
  Keeps (set_service_failure_state code m image_path map_path revision : M _).
Proof. unfold set_service_failure_state. keep. Qed.

#[local] Hint Resolve keeps_begin_parse keeps_fail_parse keeps_resolve_paths
  keeps_set_service_failure_state : keeps.

(** ** BackendImages *)

Lemma keeps_fingerprint path during : Keeps (fingerprint path during : M _).
Proof. unfold fingerprint. keep. Qed.

Lemma keeps_locate_tool : Keeps (locate_tool : M _).
Proof. unfold locate_tool. keep. Qed.
#[local] Hint Resolve keeps_fingerprint keeps_locate_tool : keeps.

Lemma keeps_resolve_local_image source_path : Keeps (resolve_local_image source_path : M _).
Proof. unfold resolve_local_image. keep. Qed.

Lemma keeps_prepare_app {A} operation invalid path target kind executable :
  (∀ p t c, env_keeps J (operation p t c)) →
  Keeps (prepare_app operation invalid path target kind executable : M A).
Proof. intros Ho. unfold prepare_app. keep. Qed.

Lemma keeps_unchanged_file path before : Keeps (unchanged_file path before : M _).
Proof. unfold unchanged_file. keep. Qed.
#[local] Hint Resolve keeps_resolve_local_image keeps_prepare_app keeps_unchanged_file : keeps.

Lemma keeps_materialize_ram_app target_key source_path expected profile :
  keeps J ok (materialize_ram_app target_key source_path expected profile : M _)
    (λ a, ∀ identity, expected = Some identity → is_ram_image identity a.1).
Proof.
  unfold materialize_ram_app. keep; intros identity ->.
  match goal with Hi : RamImageIdentity_post_init _ = Ok _ |- _ =>
    apply identity_of_ram_is in Hi; unfold is_ram_image in *; simpl in * end.
  match goal with Hd : negb (bool_decide _) = false |- _ =>
    apply negb_false_iff, bool_decide_eq_true in Hd end. congruence.
Qed.

Lemma keeps_materialize_flash_app target_key profile source_path expected mask :
  keeps J ok (materialize_flash_app target_key profile source_path expected mask : M _)
    (λ a, (∀ identity, expected = Some identity → pf_identity a.1 = identity) ∧
          (∀ m, mask = Some m → pf_sector_mask a.1 = m)).
Proof.
  unfold materialize_flash_app. keep.
  match goal with Hd : _ || _ = false |- _ => apply orb_false_iff in Hd as [Hd1 Hd2] end.
  split.
  - intros identity ->. by apply negb_false_iff, bool_decide_eq_true in Hd1.
  - intros m ->. apply negb_false_iff in Hd2. by apply Z.eqb_eq in Hd2.
Qed.

Lemma keeps_service_summary target_key state name kind image map prepared source executable :
  Keeps (service_summary target_key state name kind image map prepared source executable : M _).
Proof. unfold service_summary. keep. Qed.
#[local] Hint Resolve keeps_service_summary : keeps.

Lemma keeps_materialize_flash_service target_key profile state :
  Keeps (materialize_flash_service target_key profile state : M _).
Proof.
  unfold materialize_flash_service. keep_step.
  apply (kept_bind _ _ _ _ (state_ok J)); [by apply keeps_self|]. intros b [_ Hb].
  destruct (be_provider b) as [provider|]; keep.
Qed.
#[local] Hint Resolve keeps_materialize_flash_service : keeps.

Lemma keeps_adopt_program_image cpu_id request : Keeps (adopt_program_image cpu_id request : M _).
Proof. unfold adopt_program_image. keep. Qed.

Lemma keeps_begin_program cpu_id request path resource :
  Keeps (begin_program_preparation cpu_id request path resource : M _).
Proof. unfold begin_program_preparation. keep. Qed.

Lemma keeps_commit_program cpu_id request path prepared :
  Keeps (commit_program_image cpu_id request path prepared : M _).
Proof. unfold commit_program_image. keep. Qed.
#[local] Hint Resolve keeps_adopt_program_image keeps_begin_program keeps_commit_program : keeps.

Lemma keeps_materialized_flash target_key profile source_path expected mask :
  Keeps (materialize_flash_app target_key profile source_path expected mask : M _).
Proof. by eapply keeps_conseq; [apply keeps_materialize_flash_app|]. Qed.

Lemma keeps_materialized_ram target_key source_path expected profile :
  Keeps (materialize_ram_app target_key source_path expected profile : M _).
Proof. by eapply keeps_conseq; [apply keeps_materialize_ram_app|]. Qed.
#[local] Hint Resolve keeps_materialized_flash keeps_materialized_ram : keeps.

Lemma keeps_prepare_flash_image task_id request progress :
  progress_ok J progress → Keeps (prepare_flash_image task_id request progress : M _).
Proof. intros Hp. unfold prepare_flash_image, requested_path. keep. Qed.

Lemma keeps_begin_ram cpu_id request path :
  Keeps (begin_ram_preparation cpu_id request path : M _).
Proof. unfold begin_ram_preparation, current_ram_path. keep. Qed.

Lemma keeps_commit_ram cpu_id request path summary :
  Keeps (commit_ram_image cpu_id request path summary : M _).
Proof. unfold commit_ram_image, current_ram_path. keep. Qed.
#[local] Hint Resolve keeps_begin_ram keeps_commit_ram : keeps.

Lemma keeps_prepare_ram_image task_id request progress :
  progress_ok J progress → Keeps (prepare_ram_image task_id request progress : M _).
Proof. intros Hp. unfold prepare_ram_image, requested_path. keep. Qed.

Lemma keeps_commit_service request state summary :
  Keeps (commit_service request state summary : M _).
Proof. unfold commit_service. keep. Qed.
#[local] Hint Resolve keeps_commit_service : keeps.

Lemma keeps_prepare_flash_service task_id request progress :
  progress_ok J progress → Keeps (prepare_flash_service task_id request progress : M _).
Proof. intros Hp. unfold prepare_flash_service. keep. Qed.

(** ** BackendStatus *)

Lemma keeps_active_target_context : Keeps (active_target_context : M _).
Proof. unfold active_target_context. keep. Qed.
#[local] Hint Resolve keeps_active_target_context : keeps.

Lemma keeps_status_connection connection_id expected :
  Keeps (status_connection connection_id expected : M _).
Proof. unfold status_connection. keep. Qed.
#[local] Hint Resolve keeps_status_connection : keeps.

Lemma frozen_string_keyed details details' :
  freeze details = Ok details' → string_keyed details = true → string_keyed details' = true.
Proof.
  unfold freeze. intros Hf. destruct (freeze_correct [] details) as [[_ E']|[_ (? & E' & _)]];
    rewrite E' in Hf; [injection Hf as <-|done].
  destruct details as [|? ? items| | | | |]; try done. simpl. intros Hk. clear -Hk.
  induction items as [|kv items IH]; simpl in *; [done|].
  apply andb_true_iff in Hk as [-> Hk]. by apply IH.
Qed.

Lemma communication_error_checked e e' :
  RuntimeCommunicationError_post_init e = Ok e' → RuntimeCommunicationError_post_init e' = Ok e'.
Proof.
  unfold RuntimeCommunicationError_post_init. intros He. checks. subst e'. simpl.
  repeat match goal with E : identifier _ _ = _ |- _ => rewrite E; clear E end.
  match goal with E : require_utc _ _ = _ |- _ => rewrite E end.
  match goal with E : freeze _ = Ok _ |- _ =>
    rewrite (frozen_string_keyed _ _ E); [|by apply negb_false_iff]; simpl;
    by rewrite (proj1 (freeze_Ok _ _ E)) end.
Qed.

Lemma keeps_record_communication_error generation code message stage details occurred_at :
  Keeps (record_communication_error generation code message stage details occurred_at : M _).
Proof.
  unfold record_communication_error. keep. apply keeps_quiet; [done|].
  by eapply communication_error_checked.
Qed.
#[local] Hint Resolve keeps_record_communication_error : keeps.

Lemma keeps_connected_foreground {A} captured results (action : Session → M A) P :
  (∀ session, keeps J ok (action session) P) →
  keeps J ok (execute_connected_foreground captured results action) P.
Proof.
  intros Ha. unfold execute_connected_foreground. keep_step; [keep_step|]. keep_step; [|keep].
  apply (kept_bind _ _ _ _ P); [by apply keeps_execute_foreground|]. intros r Hr. keep.
Qed.

Lemma keeps_ping_session : Keeps (ping_session : M _).
Proof. unfold ping_session. keep. Qed.
#[local] Hint Resolve keeps_ping_session : keeps.

Lemma keeps_maintenance_ping generation : Keeps (try_execute_maintenance_ping generation : M _).
Proof.
  unfold try_execute_maintenance_ping. keep.
  apply keeps_try_execute_maintenance. keep.
Qed.

Lemma keeps_dispatch_failure captured event :
  (∀ cpu_id, quiet (event cpu_id) ∧ parts_ok (event cpu_id)) →
  Keeps (dispatch_failure captured event : M _).
Proof.
  intros He. unfold dispatch_failure. keep. destruct (He a0). by apply keeps_quiet.
Qed.

Lemma keeps_metadata_failure captured error :
  Keeps (dispatch_metadata_failure captured error : M _).
Proof. by apply keeps_dispatch_failure. Qed.

Lemma keeps_diagnostic_failure captured group error :
  Keeps (dispatch_diagnostic_failure captured group error : M _).
Proof. by apply keeps_dispatch_failure. Qed.
#[local] Hint Resolve keeps_metadata_failure keeps_diagnostic_failure : keeps.

Definition operation_ok (operation : Session → TargetProfile → ST E (option OperationResult))
    : Prop :=
  ∀ session profile, env_keeps J (operation session profile).

Lemma keeps_call_status task_id request stage operation captured progress :
  operation_ok operation → progress_ok J progress →
  Keeps (call_status_operation task_id request stage operation captured progress : M _).
Proof.
  intros Ho Hp. unfold call_status_operation. keep. apply keeps_connected_foreground.
  intros session. by apply keeps_env.
Qed.

Lemma keeps_complete_status task_id request result progress :
  progress_ok J progress → Keeps (complete_status_step task_id request result progress : M _).
Proof. intros Hp. unfold complete_status_step. keep. Qed.
#[local] Hint Resolve keeps_call_status keeps_complete_status : keeps.

(** [status_connection] reads the state only; with a connection there is a
    DeviceInfo. *)
Lemma active_target_run b e :
  store_ok b → ∃ context,
    active_target_context (mkBackendWorld b e : BackendWorld E Session Transport) =
      (Ok context, mkBackendWorld b e) ∧
    (isSome context = true → isSome (be_device_info b) = true).
Proof.
  intros Hs. unfold active_target_context, bind at 1. rewrite snapshot_run by done.
  eexists. split; [reflexivity|]. simpl.
  by destruct (rv_connection _), (be_connection_info b), (be_target b), (be_device_info b).
Qed.

Lemma status_connection_run b e connection_id expected :
  store_ok b → ∃ current,
    status_connection connection_id expected (mkBackendWorld b e : BackendWorld E Session Transport)
      = (Ok current, mkBackendWorld b e) ∧
    (isSome current = true → isSome (be_device_info b) = true).
Proof.
  intros Hs. unfold status_connection, bind at 1.
  destruct (active_target_run b e Hs) as (context & -> & Hc). eexists. split; [reflexivity|].
  simpl. destruct (be_session b), context, (be_executor b); try done. auto.
Qed.

Definition has_device_info (b : Backend E Session Transport) : Prop :=
  isSome (be_device_info b) = true.

Lemma keeps_if_current {A} connection_id expected (stale k : M A) P :
  keeps J ok stale P → keeps_from J ok has_device_info k P →
  keeps J ok (current <- status_connection connection_id expected ;;
              if negb (isSome current) then stale else k) P.
Proof.
  intros Hstale Hk b e Hs He _. apply wp_bind. unfold wp at 1.
  destruct (status_connection_run b e connection_id expected (proj1 Hs)) as (current & -> & Hc).
  destruct (isSome current); simpl; [by apply Hk; [..|apply Hc]|by apply Hstale].
Qed.

Lemma keeps_attempt_read task_id request stage operation captured progress failed read succeeded :
  operation_ok operation → progress_ok J progress → (∀ result, Keeps (failed result)) →
  (∀ result, Keeps (read result)) →
  (∀ snapshot, keeps_from J ok has_device_info (succeeded snapshot) (λ _, True)) →
  Keeps (attempt_read task_id request stage operation captured progress failed read succeeded : M _).
Proof.
  intros Ho Hp Hf Hr Hsucc. unfold attempt_read. do 2 (keep_step; [keep_step|]).
  keep_step; [keep|]. keep_step; [apply Hf|]. keep_step; [apply Hr|]. keep_step; [keep|].
  keep_step; [keep_step|]. keep_step.
  apply keeps_if_current; [keep|]. intros b e Hs He Hb. apply wp_bind.
  apply (wp_conseq _ _ _ _ _ _ (Hsucc _ b e Hs He Hb)); [|done].
  intros [] w [Hw _]. by apply (kept_run J ok); [keep|].
Qed.

Lemma keeps_read_diagnostic task_id request group stage operation progress read commit :
  operation_ok operation → progress_ok J progress →
  (∀ captured result, Keeps (read captured result)) →
  (∀ snapshot, keeps_from J ok has_device_info (commit snapshot) (λ _, True)) →
  Keeps (read_diagnostic task_id request group stage operation progress read commit : M _).
Proof.
  intros Ho Hp Hr Hc. unfold read_diagnostic. keep.
  apply keeps_attempt_read; [done|done|intros; keep|done|].
  intros snapshot b e Hs He Hb. apply wp_bind.
  apply (wp_conseq _ _ _ _ _ _ (Hc snapshot b e Hs He Hb)); [|done].
  intros [] w [Hw _]. apply (kept_run J ok); [keep|done].
Qed.

Lemma keeps_device_info_set info :
  keeps_from J ok has_device_info (set (with_device_info (Some info)) : M _) (λ _, True).
Proof.
  apply keeps_set_from. intros b Hb. unfold has_device_info in Hb. split_and!; [done| |done].
  unfold link. simpl. by rewrite Hb.
Qed.

Lemma keeps_read_device_info_status task_id request progress :
  progress_ok J progress → Keeps (read_device_info_status task_id request progress : M _).
Proof.
  intros Hp. apply keeps_read_diagnostic; [intros ??; eauto with keeps|done| |].
  - intros. unfold read_device_info. keep.
  - intros []; simpl; [..|apply keeps_device_info_set|apply keeps_pre; keep|apply keeps_pre; keep].
    apply keeps_pre. keep.
Qed.

Lemma keeps_read_protocol_info_status task_id request progress :
  progress_ok J progress → Keeps (read_protocol_info_status task_id request progress : M _).
Proof.
  intros Hp. apply keeps_read_diagnostic; [intros ??; eauto with keeps|done|intros; keep|].
  intros. apply keeps_pre. keep.
Qed.

Lemma keeps_read_last_error_status task_id request progress :
  progress_ok J progress → Keeps (read_last_error_status task_id request progress : M _).
Proof.
  intros Hp. apply keeps_read_diagnostic; [intros ??; eauto with keeps|done|intros; keep|].
  intros. apply keeps_pre. keep.
Qed.

Lemma keeps_metadata_snapshot connection_id automatic target_key result raw :
  Keeps (metadata_snapshot connection_id automatic target_key result raw : M _).
Proof. unfold metadata_snapshot, loaded_image_match. keep. Qed.
#[local] Hint Resolve keeps_metadata_snapshot : keeps.

Lemma metadata_status_ok : operation_ok metadata_status_operation.
Proof.
  intros session profile e He. unfold metadata_status_operation, bind.
  assert (Hm : env_keeps J (metadata_operation session profile)) by eauto with keeps.
  specialize (Hm e He). by destruct (metadata_operation session profile e) as [[]].
Qed.

Lemma keeps_read_metadata_status task_id connection_id automatic progress :
  progress_ok J progress →
  Keeps (read_metadata_status task_id connection_id automatic progress : M _).
Proof.
  intros Hp. unfold read_metadata_status. keep.
  apply keeps_attempt_read; [apply metadata_status_ok|done|intros; keep|intros; keep|].
  intros. apply keeps_pre. keep.
Qed.

(** *** Memory *)

Lemma keeps_memory_failure task_id request cpu_id result message :
  Keeps (invalid_memory_result task_id request cpu_id result message : M _).
Proof. unfold invalid_memory_result. keep. Qed.

Lemma keeps_check_memory task_id request captured :
  Keeps (check_memory_request task_id request captured : M _).
Proof. unfold check_memory_request. keep. Qed.
#[local] Hint Resolve keeps_memory_failure keeps_check_memory : keeps.

Lemma keeps_store_memory task_id request cpu_id result update progress :
  progress_ok J progress →
  Keeps (store_memory task_id request cpu_id result update progress : M _).
Proof. intros Hp. unfold store_memory. keep. Qed.

Lemma keeps_memory_current request captured cpu_id :
  Keeps (memory_request_is_current request captured cpu_id : M _).
Proof. unfold memory_request_is_current. keep. Qed.
#[local] Hint Resolve keeps_store_memory keeps_memory_current : keeps.

Lemma keeps_reported {A} (m : ST (OpEnv E) A) : op_keeps J m → Keeps (reporting m : M _).
Proof. intros Hm. by apply keeps_reporting. Qed.
#[local] Hint Resolve keeps_reported : keeps.

Lemma keeps_execute_memory_read task_id request cancellation progress :
  progress_ok J progress → cancellation_ok J cancellation →
  Keeps (execute_memory_read task_id request cancellation progress : M _).
Proof.
  intros Hp Hc. unfold execute_memory_read. keep. apply keeps_connected_foreground. intros. keep.
Qed.
End keeps.

(** The same lemmas for the operations that write. *)
#[export] Hint Resolve keeps_target_resource keeps_connection_generation keeps_publish_step
  keeps_complete_step keeps_notify keeps_current_revision keeps_image_revision keeps_set_revision
  keeps_set_service_state keeps_resolve_target_profile keeps_begin_parse keeps_fail_parse
  keeps_resolve_paths keeps_set_service_failure_state keeps_fingerprint keeps_locate_tool
  keeps_materialize_flash_service keeps_active_target_context keeps_status_connection
  keeps_metadata_failure keeps_diagnostic_failure keeps_metadata_snapshot keeps_reported : keeps.
#[export] Hint Extern 1 (keeps _ _ (dispatch_event _) _) =>
  solve [eapply keeps_quiet; [eassumption|exact I|exact I]] : keeps.
