(* ===== verification/BackendWrites.v ===== *)
(** * The operations that change the target

    RAM operations, the run of the Flash application, Flash and metadata
    operations: what they ask of the target is what their request permits, and
    the evidence that they bring up is what the target reported. *)

From stdpp Require Import gmap.
From S2P Require Import Prelude.
From S2P Require Import Errors.
From S2P Require Import Messages.
From S2P Require Import TaskPlans.
From S2P Require Import Models.
From S2P Require Import Targets.
From S2P Require Import OperationResults.
From S2P Require Import StatusModels.
From S2P Require Import RuntimeValues.
From S2P Require Import RuntimeModels.
From S2P Require Import CommandExecutor.
From S2P Require Import ImageRequests.
From S2P Require Import OperationRequests.
From S2P Require Import TaskModels.
From S2P Require Import RuntimeStore.
From S2P Require Import RuntimeDispatch.
From S2P Require Import RuntimeInvariant.
From S2P Require Import RuntimeProperties.
From S2P Require Import Backend.
From S2P Require Import BackendConnection.
From S2P Require Import BackendSelection.
From S2P Require Import BackendImages.
From S2P Require Import BackendStatus.
From S2P Require Import BackendRam.
From S2P Require Import BackendFlash.
From S2P Require Import BackendExecute.
From S2P Require Import BackendInvariant.
From S2P Require Import BackendKeeps.

(** The request and its identity were checked when they were made. *)
Definition ram_request_ok (request : RamRequest) : Prop :=
  RamImageIdentity_post_init (ram_expected_image_identity request) =
    Ok (ram_expected_image_identity request) ∧
  match request with
  | RunRamRequest r => RunAdvancedRamImageRequest_post_init r = Ok r
  | _ => True
  end.

Definition ram_fields (request : RamRequest) : option MaterializedRamRequest :=
  match request with
  | LoadAdvancedRamImageRequest f | CheckAdvancedRamCrcRequest f => Some f
  | RunRamRequest _ => None
  end.

Lemma run_ram_entry_point r :
  RunAdvancedRamImageRequest_post_init r = Ok r →
  ce_entry_point (rr_expected_ram_crc_evidence r) = ri_entry_point (rr_expected_image_identity r).
Proof.
  unfold RunAdvancedRamImageRequest_post_init. intros Hr. checks.
  repeat match goal with Hb : _ || _ = false |- _ => apply orb_false_iff in Hb as [? ?] end.
  repeat match goal with Hb : negb _ = false |- _ => apply negb_false_iff in Hb end. lia.
Qed.

Section writes.
Context {E Session Transport : Type} `{EqDecision Session} `{EqDecision Transport}
  `{Ports E Session Transport} `{Paths}.
Context (J : E → Prop) (al : Allowed) (HR : Respects J al) (ok : DomainEvent → Prop)
  (Hquiet : ∀ event, quiet event → ok event).

Abbreviation M := (B E Session Transport).
Abbreviation Keeps m := (keeps J ok m (λ _, True)).

(** The value of a step that may return: what it goes on with satisfies [P]. *)
Definition goes_on {A} (P : A → Prop) (f : Flow A) : Prop :=
  match f with Return _ => True | Continue a => P a end.

Lemma keeps_return_failure {A} (P : A → Prop) result :
  keeps J ok (return_failure result : M _) (goes_on P).
Proof. unfold return_failure. by keep. Qed.

Lemma keeps_flow {A} (m : M (Flow A)) P k :
  keeps J ok m (goes_on P) → (∀ a, P a → Keeps (k a)) → Keeps (a <-? m ;; k a).
Proof.
  intros Hm Hk. eapply kept_bind; [exact Hm|]. intros [r|a] Ha; [by apply kept_ret|by apply Hk].
Qed.

Lemma keeps_flow_on {A C} (m : M (Flow A)) P (Q : C → Prop) k :
  keeps J ok m (goes_on P) → (∀ a, P a → keeps J ok (k a) (goes_on Q)) →
  keeps J ok (a <-! m ;; k a) (goes_on Q).
Proof.
  intros Hm Hk. eapply kept_bind; [exact Hm|]. intros [r|a] Ha; [by apply kept_ret|by apply Hk].
Qed.

(** ** RAM *)

Lemma keeps_ram_state request : Keeps (ram_operation_state request : M _).
Proof. unfold ram_operation_state, current_ram_path. keep. Qed.
#[local] Hint Resolve keeps_ram_state : keeps.

Lemma keeps_ram_checks task_id request captured :
  Keeps (check_ram_request task_id request captured : M _).
Proof.
  unfold check_ram_request, ram_crc_evidence_matches, return_failure. keep.
Qed.

Lemma keeps_materialize_for_ram task_id request fields operation_type captured cpu_id :
  ram_request_ok request → ram_fields request = Some fields →
  keeps J ok (materialize_for_ram task_id request fields operation_type captured cpu_id : M _)
    (goes_on (λ a, ram_expected request a.1.1)).
Proof.
  intros [Hi _] Hf.
  assert (mr_expected_image_identity fields = ram_expected_image_identity request) as He
    by (by destruct request; simplify_eq/=).
  unfold materialize_for_ram. apply (kept_bind _ _ _ _ (λ _, True)).
  { eapply keeps_quiet; [done|done|]. simpl. by rewrite He. }
  intros _ _. apply (keeps_flow_on _ (λ a, ram_expected request a.1)).
  - apply kept_catch.
    + eapply kept_bind; [apply (keeps_materialize_ram_app J al HR ok)|]. intros a Ha. apply kept_ret.
      simpl. unfold ram_expected. rewrite <-He. by apply Ha.
    + intros exc. unfold ram_preparation_failed. destruct exc; try apply kept_raise.
      keep; by apply keeps_return_failure.
  - intros [image origin] Ha. keep; try (by apply keeps_return_failure).
Qed.

Lemma keeps_ram_inputs task_id request captured cpu_id :
  ram_request_ok request →
  keeps J ok (ram_inputs task_id request captured cpu_id : M _)
    (goes_on (λ a, ∀ image f, a.1 = Some (image, f) → ram_expected request image)).
Proof.
  intros Hr. unfold ram_inputs. destruct request as [f|f|r];
    [..|by apply kept_ret]; (eapply keeps_flow_on;
      [by apply keeps_materialize_for_ram|intros [[image fp] identity] Ha; apply kept_ret]);
    intros ? ? [= <- <-]; exact Ha.
Qed.

(** A success of the connected target, not one after a request to cancel. *)
Definition answered_cleanly (captured : Captured Session) (result : OperationResult) : Prop :=
  or_ok result = true ∧ or_completion result = Some OperationCompletion.SUCCEEDED ∧
  or_target result = tp_name (ca_profile captured).

Lemma clean_crc_answered captured image result :
  clean_crc_result captured image result = true → answered_cleanly captured result.
Proof.
  unfold clean_crc_result. rewrite !andb_true_iff, !bool_decide_eq_true. by intros [[[[? ?] ?] _] _].
Qed.

Lemma clean_verify_answered captured image result :
  clean_verify_result captured image result = true → answered_cleanly captured result.
Proof.
  unfold clean_verify_result. rewrite !andb_true_iff, !bool_decide_eq_true. by intros [[[? ?] ?] _].
Qed.

(** The target reported that it has the image of the request. *)
Definition crc_reported (task_id : string) (request : RamRequest) (event : DomainEvent) : Prop :=
  ∃ (fields : MaterializedRamRequest) (session : Session) (captured : Captured Session) (image : PreparedRamImage)
    (e : E) result e' cpu_id,
    request = CheckAdvancedRamCrcRequest fields ∧ ram_expected request image ∧
    check_ram_crc_operation session (ca_profile captured) image e =
      (Ok (Some result), e') ∧
    answered_cleanly captured result ∧
    event = OperationSucceeded (mkOperation task_id RuntimeOperationType.RAM_CRC cpu_id
              (ca_generation captured) (RamIdentity (mr_expected_image_identity fields))).

Lemma keeps_clean_crc task_id request fields captured image fp result :
  ram_request_ok request → request = CheckAdvancedRamCrcRequest fields → 
  (clean_crc_result captured image result = true → ∀ cpu_id,
    ok (OperationSucceeded (mkOperation task_id RuntimeOperationType.RAM_CRC cpu_id
          (ca_generation captured) (RamIdentity (mr_expected_image_identity fields))))) →
  Keeps (dispatch_clean_ram_crc_success task_id request fields captured image fp result : M _).
Proof.
  intros [Hi _] Hreq Hclean. unfold dispatch_clean_ram_crc_success.
  destruct (clean_crc_result captured image result); [|by keep]. keep.
  repeat match goal with Hb : _ && _ = true |- _ => apply andb_true_iff in Hb as [? ?] end.
  match goal with Hb : bool_decide (?x = mr_expected_image_identity fields) = true |- _ =>
    apply bool_decide_eq_true in Hb as -> end.
  apply keeps_dispatch; [done|by apply Hclean|]. simpl. by rewrite Hreq in Hi.
Qed.

(** Which operation ran: its result is what the operation returned. *)
Lemma keeps_ram_action task_id request (captured : Captured Session) image cancellation progress :
  ram_request_ok request → al = permitted (RamTask request) →
  progress_ok J progress → cancellation_ok J cancellation →
  (∀ i, image = Some i → ram_expected request i) →
  ∀ session, keeps J ok
    (ram_action task_id request (ca_profile captured) image cancellation progress session : M _)
    (λ done, ∀ fields i result, request = CheckAdvancedRamCrcRequest fields → image = Some i →
       done.1 = Some result → ∃ session e e',
       check_ram_crc_operation session (ca_profile captured) i e = (Ok (Some result), e')).
Proof.
  intros Hr Hal Hp Hc Hi session. unfold ram_action. destruct request as [f|f|r].
  - destruct image as [i|]; [|apply kept_raise]. apply keeps_reporting; [|done].
    eapply re_load_ram; [done|rewrite Hal; by apply Hi|by apply report_ok|done].
  - destruct image as [i|]; [|apply kept_raise].
    apply (kept_bind _ _ _ _ (λ r, ∃ e e',
      check_ram_crc_operation session (ca_profile captured) i e = (Ok r, e'))).
    + apply keeps_env; [eapply re_check_ram; [done|rewrite Hal; by apply Hi]|eauto].
    + intros r (e & e' & Hrun). apply kept_ret. intros ? i' result _ [= <-] Hres. simpl in Hres.
      subst r. eauto.
  - keep. eapply re_run_ram; [done|]. rewrite Hal. simpl. apply run_ram_entry_point, Hr.
Qed.

Lemma keeps_run_ram_request task_id request captured image identity cancellation progress :
  ram_request_ok request → al = permitted (RamTask request) →
  (∀ event, crc_reported task_id request event → ok event) →
  progress_ok J progress → cancellation_ok J cancellation →
  (∀ i f, image = Some (i, f) → ram_expected request i) →
  Keeps (run_ram_request task_id request captured image identity cancellation progress : M _).
Proof.
  intros Hr Hal Hok Hp Hc Hi. unfold run_ram_request. keep_step; [keep_step|].
  eapply kept_bind.
  { apply (keeps_connected_foreground J al HR ok Hquiet). apply keeps_ram_action; try done.
    intros i Hfst. destruct image as [[i' f]|]; [|done]. injection Hfst as <-. by eapply Hi. }
  intros [r update] Hdone. simpl. apply (kept_bind _ _ _ _ (λ a, r = Some a)).
  { apply kept_lift. intros o Ho. destruct r; [by injection Ho as ->|done]. }
  intros result ->. keep_step; [keep_step|]. keep_step; [keep|].
  apply (kept_bind _ _ _ _ (λ _, True)).
  - destruct request as [f|f|]; destruct image as [[i fp]|]; try (by apply kept_ret).
    apply keeps_clean_crc; [done|done|]. intros Hclean cpu_id. apply Hok.
    destruct (Hdone f i result eq_refl eq_refl eq_refl) as (session & e & e' & Hrun).
    exists f, session, captured, i, e, result, e', cpu_id.
    split_and!; try done; [by eapply Hi|by eapply clean_crc_answered].
  - intros _ _. keep.
Qed.

Lemma keeps_execute_ram task_id request cancellation progress :
  ram_request_ok request → al = permitted (RamTask request) →
  (∀ event, crc_reported task_id request event → ok event) →
  progress_ok J progress → cancellation_ok J cancellation →
  Keeps (execute_ram_operation task_id request cancellation progress : M _).
Proof.
  intros Hr Hal Hok Hp Hc. unfold execute_ram_operation. keep_step; [keep_step|]. keep_step; [|keep].
  apply (keeps_flow _ (λ _, True)).
  { eapply keeps_conseq; [apply keeps_ram_checks|by intros []]. }
  intros cpu_id _. eapply keeps_flow; [by apply keeps_ram_inputs|].
  intros inputs Hi. by apply keeps_run_ram_request.
Qed.

(** ** Run Flash App *)

Lemma keeps_flash_run task_id request progress :
  al = permitted (RunFlashTask request) → progress_ok J progress →
  Keeps (execute_advanced_flash_app_run task_id request progress : M _).
Proof.
  intros Hal Hp. unfold execute_advanced_flash_app_run. keep.
  apply (keeps_connected_foreground J al HR ok Hquiet). intros session. apply keeps_env; [|done].
  eapply re_run_flash; [done|]. by rewrite Hal.
Qed.

(** ** Flash *)

Lemma keeps_program_state expected : Keeps (program_operation_state expected : M _).
Proof. unfold program_operation_state. keep. Qed.
#[local] Hint Resolve keeps_program_state : keeps.

Lemma keeps_check_flash task_id request captured cpu_id :
  keeps J ok (check_flash_request task_id request captured cpu_id : M _)
    (goes_on (λ a, mp_flash (tp_memory_map (ca_profile captured)) = Some a.1 ∧
       ∀ mask, flash_erase_mask a.1 request = Some mask → erasable a.1 mask = true)).
Proof.
  unfold check_flash_request. keep; try apply keeps_return_failure; simpl; split; try done;
    intros mask Hmask; congruence.
Qed.

Lemma keeps_materialize_program cpu_id expected captured state changed failure :
  keeps J ok (materialize_program cpu_id expected captured state changed failure : M _)
    (goes_on (λ a, pf_identity a.1 = px_identity expected ∧
                   pf_sector_mask a.1 = px_sector_mask expected)).
Proof.
  unfold materialize_program.
  apply (keeps_flow_on _ (λ a, pf_identity a.1 = px_identity expected ∧
                               pf_sector_mask a.1 = px_sector_mask expected)).
  - apply kept_catch.
    + eapply kept_bind; [apply (keeps_materialize_flash_app J al HR ok)|]. intros a [Hi Hm].
      apply kept_ret. simpl. auto.
    + intros exc. unfold program_preparation_failed. destruct exc; try apply kept_raise.
      keep; by apply keeps_return_failure.
  - intros [image origin] Ha. keep; by apply keeps_return_failure.
Qed.

Lemma keeps_materialize_service target_key revision captured state failure :
  Keeps (materialize_service target_key revision captured state failure : M _).
Proof. unfold materialize_service, return_failure. keep. Qed.

Lemma keeps_evaluate_refresh connection_id captured refresh :
  Keeps (evaluate_refresh connection_id captured refresh : M _).
Proof. unfold evaluate_refresh. keep. Qed.
#[local] Hint Resolve keeps_evaluate_refresh : keeps.

Lemma keeps_refresh task_id connection_id captured session progress :
  progress_ok J progress →
  Keeps (refresh_metadata_after_write task_id connection_id captured session progress : M _).
Proof. intros Hp. unfold refresh_metadata_after_write. keep. Qed.
#[local] Hint Resolve keeps_refresh : keeps.

(** A write in the foreground: its result is what the operation returned. *)
Lemma keeps_write_action task_id step_id connection_id captured refreshes invalid progress
    (operation : Session → ST (OpEnv E) (option OperationResult)) session :
  progress_ok J progress → op_keeps J (operation session) →
  keeps J ok (write_action task_id step_id connection_id captured refreshes invalid progress
                operation session : M _)
    (λ r, ∃ s s', operation session s = (Ok (Some r.1), s')).
Proof.
  intros Hp Ho. unfold write_action.
  apply (kept_bind _ _ _ _ (λ r, ∃ s s', operation session s = (Ok r.1, s'))).
  { apply keeps_reporting; [done|]. eauto. }
  intros [r update] (s & s' & Hrun). simpl in *. apply (kept_bind _ _ _ _ (λ a, r = Some a)).
  { apply kept_lift. intros o Ho'. destruct r; [by injection Ho' as ->|done]. }
  intros result ->. keep; simpl; eauto.
Qed.

(** The target verified the image of the request. *)
Definition verify_reported (task_id : string) (request : FlashRequest) (event : DomainEvent) : Prop :=
  ∃ (f : FlashRequestFields) (session : Session) (captured : Captured Session)
    (image : PreparedFlashImage) service callback cancellation s result s' cpu_id generation,
    request = VerifyAdvancedFlashRequest f ∧ program_expected f image ∧
    flash_operation session (ca_profile captured) service callback cancellation
      (VerifyImage image) s = (Ok (Some result), s') ∧
    answered_cleanly captured result ∧
    event = OperationSucceeded (mkOperation task_id RuntimeOperationType.VERIFY cpu_id generation
              (FlashIdentity (ff_expected_image_identity f))).

Lemma keeps_clean_verify task_id f captured generation image fp result :
  pf_identity image = ff_expected_image_identity f →
  (clean_verify_result captured image result = true → ∀ cpu_id,
    ok (OperationSucceeded (mkOperation task_id RuntimeOperationType.VERIFY cpu_id generation
          (FlashIdentity (ff_expected_image_identity f))))) →
  Keeps (dispatch_clean_verify_success task_id f captured generation image fp result : M _).
Proof.
  intros Hi Hclean. unfold dispatch_clean_verify_success.
  destruct (clean_verify_result captured image result); [|by keep]. keep.
  rewrite Hi. by apply keeps_dispatch; [|apply Hclean|].
Qed.

(** The call of a request is permitted. *)
Lemma flash_call_permitted request flash profile mask image call :
  mp_flash (tp_memory_map profile) = Some flash → mask = flash_erase_mask flash request →
  (∀ m, mask = Some m → erasable flash m = true) →
  (∀ i, image = Some i → program_expected (flash_fields request) i) →
  flash_call request mask image = Ok call → flash_permitted request profile call.
Proof.
  intros Hf -> Hm Hi Hcall.
  destruct request as [f [] custom|f|f], image as [i|]; simpl in *; simplify_eq/=;
    try done; try (by apply Hi); try (by exists flash; split_and!; try done; apply erasable_allowed, Hm).
  specialize (Hi i eq_refl). split; [done|]. exists flash. split; [done|].
  destruct Hi as [_ ->]. by apply erasable_allowed, Hm.
Qed.

Lemma keeps_run_flash_request task_id request flash mask captured image service generation
    cancellation progress :
  al = permitted (FlashTask request) →
  (∀ event, verify_reported task_id request event → ok event) →
  progress_ok J progress → cancellation_ok J cancellation →
  mp_flash (tp_memory_map (ca_profile captured)) = Some flash →
  mask = flash_erase_mask flash request →
  (∀ m, mask = Some m → erasable flash m = true) →
  (∀ i fp, image = Some (i, fp) → program_expected (flash_fields request) i) →
  Keeps (run_flash_request task_id request mask captured image service generation cancellation
           progress : M _).
Proof.
  intros Hal Hok Hp Hc Hf Hmask Hm Hi. unfold run_flash_request. keep_step; [keep_step|].
  assert (∀ i, fst <$> image = Some i → program_expected (flash_fields request) i) as Hi'.
  { intros i Hfst. destruct image as [[i' fp]|]; [|done]. injection Hfst as <-. by eapply Hi. }
  apply (kept_bind _ _ _ _ (λ r, ∃ call session callback s s',
    flash_call request mask (fst <$> image) = Ok call ∧
    flash_operation session (ca_profile captured) service callback cancellation call s =
      (Ok (Some r.1), s'))).
  { apply (keeps_connected_foreground J al HR ok Hquiet). intros session.
    keep_step. eapply keeps_conseq.
    - apply keeps_write_action; [done|].
      eapply re_flash; [done| |by apply report_ok|done]. rewrite Hal. by eapply flash_call_permitted.
    - intros [r o] (s & s' & Hrun). eauto 8. }
  intros [result outcome] (call & session & callback & s & s' & Hcall & Hrun).
  apply (kept_bind _ _ _ _ (λ _, True)); [|intros _ _; by apply kept_lift].
  destruct request as [f scope custom|f|f]; try (by apply kept_ret).
  destruct image as [[i fp]|]; [|by apply kept_ret]. simpl in Hcall. injection Hcall as <-.
  destruct (Hi i fp eq_refl) as [Hid Hsm]. apply keeps_clean_verify; [done|].
  intros Hclean cpu_id. apply Hok.
  exists f, session, captured, i, service, callback, cancellation, s, result, s', cpu_id, generation.
  split_and!; try done. by eapply clean_verify_answered.
Qed.

Lemma keeps_flash_image task_id request captured cpu_id state :
  keeps J ok (flash_image task_id request captured cpu_id state : M _)
    (goes_on (λ a, ∀ i fp, a = Some (i, fp) → program_expected (flash_fields request) i)).
Proof.
  unfold flash_image. keep_step; [by apply kept_ret|].
  eapply keeps_flow_on; [apply keeps_materialize_program|]. intros [i fp] [Hid Hm].
  keep; [by apply keeps_return_failure|]. by intros ? ? [= <- <-].
Qed.

Lemma keeps_execute_flash task_id request cancellation progress :
  al = permitted (FlashTask request) →
  (∀ event, verify_reported task_id request event → ok event) →
  progress_ok J progress → cancellation_ok J cancellation →
  Keeps (execute_advanced_flash_operation task_id request cancellation progress : M _).
Proof.
  intros Hal Hok Hp Hc. unfold execute_advanced_flash_operation. keep_step; [keep_step|].
  keep_step; [|keep]. keep_step.
  eapply keeps_flow; [apply keeps_check_flash|]. intros [flash state] [Hf Hm]. simpl in *.
  keep_step; [keep_step|]. keep_step.
  { destruct (needs_image request); keep. }
  eapply keeps_flow; [apply keeps_flash_image|]. intros image Hi.
  apply (keeps_flow _ (λ _, True)).
  { eapply keeps_conseq; [apply keeps_materialize_service|by intros []]. }
  intros service _. by eapply keeps_run_flash_request.
Qed.

(** ** Metadata *)

Lemma keeps_evidence request identity :
  keeps J ok (evidence_matches request identity : M _)
    (λ r, r = true → ∀ i image, image_part request = Some i → identity = Some image →
       image = ve_image_identity (iv_expected_verify_evidence i)).
Proof.
  unfold evidence_matches. destruct request as [f i|f e|f e]; try (by apply kept_ret).
  unfold verify_evidence_matches. apply kept_catch.
  - keep. intros Hr i' image [= <-] ->. destruct (_ !! _); [|done].
    apply andb_true_iff in Hr as [_ Hr]. by apply bool_decide_eq_true in Hr.
  - intros exc. keep.
Qed.

Lemma keeps_check_metadata task_id request captured cpu_id :
  Keeps (check_metadata_request task_id request captured cpu_id : M _).
Proof.
  unfold check_metadata_request, metadata_service_state, return_failure. keep.
  eapply keeps_conseq; [apply keeps_evidence|done].
Qed.

(** The image of an IMAGE_VALID request is the expected one. *)
Definition image_valid_expected (request : MetadataRequest) (image : option PreparedFlashImage)
    : Prop :=
  match image_part request with
  | Some i => ∃ p, image = Some p ∧ pf_identity p = iv_expected_image_identity i
  | None => True
  end.

Lemma keeps_metadata_image task_id request captured cpu_id state :
  keeps J ok (metadata_image task_id request captured cpu_id state : M _)
    (goes_on (image_valid_expected request)).
Proof.
  unfold metadata_image. apply (keeps_flow_on _ (image_valid_expected request)).
  - destruct request as [f i|f e|f e]; simpl; [|by apply kept_ret..].
    eapply keeps_flow_on; [apply keeps_materialize_program|]. intros [i' fp] [Hid _].
    apply kept_ret. by exists i'.
  - intros image Hi. keep; by apply keeps_return_failure.
Qed.

Lemma keeps_metadata_inputs task_id request captured cpu_id state :
  keeps J ok (metadata_inputs task_id request captured cpu_id state : M _)
    (goes_on (λ a, ∀ call, append_call request a.1 = Ok call → append_permitted request call)).
Proof.
  unfold metadata_inputs. eapply keeps_flow_on; [apply keeps_metadata_image|]. intros image Hi.
  eapply kept_bind; [apply keeps_evidence|]. intros matches Hm.
  destruct matches; simpl; [|apply keeps_return_failure].
  apply (keeps_flow_on _ (λ _, True)).
  { eapply keeps_conseq; [apply keeps_materialize_service|by intros []]. }
  intros service _. keep; [by eapply keeps_conseq; [apply keeps_evidence|]|
                           apply keeps_return_failure|].
  simpl. intros call Hcall. destruct request as [f i|f e|f e]; [|by injection Hcall as <-..].
  destruct Hi as (p & -> & Hid). injection Hcall as <-. split; [done|]. by apply (Hm eq_refl i).
Qed.

Lemma keeps_run_metadata task_id request captured cpu_id image service cancellation progress :
  al = permitted (MetadataTask request) →
  progress_ok J progress → cancellation_ok J cancellation →
  (∀ call, append_call request image = Ok call → append_permitted request call) →
  Keeps (run_metadata_request task_id request captured cpu_id image service cancellation progress
         : M _).
Proof.
  intros Hal Hp Hc Hi. unfold run_metadata_request. keep_step; [keep_step|].
  keep_step; [keep|]. keep_step; [keep|]. keep_step; [|keep].
  apply (keeps_connected_foreground J al HR ok Hquiet). intros session. keep_step.
  eapply keeps_conseq; [apply keeps_write_action; [done|]|done].
  eapply re_append; [done| |by apply report_ok|done]. rewrite Hal. by apply Hi.
Qed.

Lemma keeps_execute_metadata task_id request cancellation progress :
  al = permitted (MetadataTask request) →
  progress_ok J progress → cancellation_ok J cancellation →
  Keeps (execute_advanced_metadata_operation task_id request cancellation progress : M _).
Proof.
  intros Hal Hp Hc. unfold execute_advanced_metadata_operation. keep_step; [keep_step|].
  keep_step; [|keep]. keep_step; [|keep]. apply (keeps_flow _ (λ _, True)).
  { eapply keeps_conseq; [apply keeps_check_metadata|by intros []]. }
  intros state _. eapply keeps_flow; [apply keeps_metadata_inputs|]. intros inputs Hi.
  by apply keeps_run_metadata.
Qed.

(** ** Every task *)

(** The events that a task may dispatch besides the quiet ones. *)
Definition reported (task_id : string) (request : BackendRequest) (event : DomainEvent) : Prop :=
  match request with
  | RamTask r => crc_reported task_id r event
  | FlashTask r => verify_reported task_id r event
  | _ => False
  end.

Definition request_ok (request : BackendRequest) : Prop :=
  match request with RamTask r => ram_request_ok r | _ => True end.

Lemma keeps_execute_request task_id request cancellation progress :
  request_ok request → al = permitted request →
  (∀ event, reported task_id request event → ok event) →
  progress_ok J progress → cancellation_ok J cancellation →
  Keeps (execute_request task_id request cancellation progress : M _).
Proof.
  intros Hr Hal Hok Hp Hc. destruct request as [r|[]|r|r|r|r|r|r|r|name|name]; simpl.
  - by eapply keeps_execute_memory_read.
  - by eapply keeps_read_metadata_status.
  - by eapply keeps_read_device_info_status.
  - by eapply keeps_read_protocol_info_status.
  - by eapply keeps_read_last_error_status.
  - by eapply keeps_prepare_ram_image.
  - by eapply keeps_prepare_flash_service.
  - by apply keeps_flash_run.
  - by apply keeps_execute_ram.
  - by apply keeps_execute_flash.
  - by apply keeps_execute_metadata.
  - by eapply keeps_prepare_flash_image.
  - apply kept_raise.
  - apply kept_raise.
Qed.

Lemma keeps_record_failure request code m image_path map_path commit :
  Keeps (record_preparation_failure request code m image_path map_path commit : M _).
Proof. unfold record_preparation_failure. keep. Qed.

(** The part of [execute] under the lock. *)
Lemma keeps_execute_locked task_id request cancellation progress :
  request_ok request → al = permitted request →
  (∀ event, reported task_id request event → ok event) →
  progress_ok J progress → cancellation_ok J cancellation →
  Keeps (catch (execute_request task_id request cancellation progress)
      (λ exc,
        match exc with
        | PreparationFailure code m image_path map_path commit_service_state cause =>
            record_preparation_failure request code m image_path map_path commit_service_state ;;;
            lift (image_failure task_id request code m cause)
        | _ => raise exc
        end) : M _).
Proof.
  intros Hr Hal Hok Hp Hc. apply kept_catch; [by apply keeps_execute_request|].
  intros exc. destruct exc; try apply kept_raise. keep_step; [|keep]. apply keeps_record_failure.
Qed.
End writes.
