(* ===== verification/BackendLifecycle.v ===== *)
(** * The connection of the runtime backend between its calls

    The backend either has no connection, and then none of its parts, or it has
    all of them: the session and its transport, the target, an idle executor of
    the generation of the store, and the connection of the store.  [triple] is
    the logic for the calls that change this; the calls that do not are those
    of [keeps]. *)

From stdpp Require Import gmap.
From S2P Require Import Prelude.
From S2P Require Import Errors.
From S2P Require Import TaskPlans.
From S2P Require Import Models.
From S2P Require Import Targets.
From S2P Require Import BootClient.
From S2P Require Import OperationResults.
From S2P Require Import StatusOps.
From S2P Require Import StatusModels.
From S2P Require Import RamOps.
From S2P Require Import RuntimeValues.
From S2P Require Import RuntimeModels.
From S2P Require Import CommandExecutor.
From S2P Require Import OperationRequests.
From S2P Require Import TaskModels.
From S2P Require Import RuntimeStore.
From S2P Require Import RuntimeDispatch.
From S2P Require Import RuntimeTable.
From S2P Require Import RuntimeInvariant.
From S2P Require Import RuntimeProperties.
From S2P Require Import Backend.
From S2P Require Import BackendConnection.
From S2P Require Import BackendInvariant.

Section lifecycle.
Context {E Session Transport : Type}.
Implicit Types b : Backend E Session Transport.

(** ** The two states *)

Definition generation_of b : ConnectionGeneration := rv_connection_generation (store b).

Record absent b : Prop := mkAbsent {
  no_session : be_session b = None;
  no_transport : be_transport b = None;
  no_target : be_target b = None;
  no_device_info : isSome (be_device_info b) = false;
  no_connection_info : be_connection_info b = None;
  no_executor : be_executor b = None;
  no_connection : connection_key (store b) = None;
}.

(** The connection that [info] describes. *)
Record present (info : ConnectionInfo) b : Prop := mkPresent {
  has_session : isSome (be_session b) = true;
  has_transport : isSome (be_transport b) = true;
  has_target : isSome (be_target b) = true;
  has_device_info : isSome (be_device_info b) = true;
  has_connection_info : be_connection_info b = Some info;
  has_executor : be_executor b = Some (Executor_init (cg_value (generation_of b)));
  has_connection : ∃ cpu_id, from_target_key (ci_target_key info) = Ok cpu_id ∧
    connection_key (store b) = Some (ci_connection_id info, cpu_id, generation_of b);
}.

Definition settled b : Prop := absent b ∨ ∃ info, present info b.

(** A property of the connection alone, whatever waits to be closed. *)
Definition of_connection (P : Backend E Session Transport → Prop) : Prop :=
  ∀ b b', link b' = link b → P b → P b'.

Lemma of_link b b' :
  link b' = link b →
  be_locked b' = be_locked b ∧ be_session b' = be_session b ∧ be_transport b' = be_transport b ∧
  be_target b' = be_target b ∧ isSome (be_device_info b') = isSome (be_device_info b) ∧
  be_connection_info b' = be_connection_info b ∧ be_executor b' = be_executor b ∧
  be_pending_close b' = be_pending_close b ∧ generation_of b' = generation_of b ∧
  connection_key (store b') = connection_key (store b).
Proof. unfold link, generation_of. intros H. by injection H. Qed.

Lemma absent_link : of_connection absent.
Proof.
  intros b b' H [? ? ? ? ? ? ?]. apply of_link in H as (_ & ? & ? & ? & ? & ? & ? & _ & _ & ?).
  constructor; congruence.
Qed.

Lemma present_link info : of_connection (present info).
Proof.
  intros b b' H [? ? ? ? ? ? (cpu_id & ? & ?)].
  apply of_link in H as (_ & Hs & Ht & Hp & Hd & Hi & He & _ & Hg & Hk).
  constructor; rewrite ?Hg; try congruence. exists cpu_id. split; congruence.
Qed.

Lemma settled_link : of_connection settled.
Proof.
  intros b b' H [Ha|[info Hp]]; [left; by eapply absent_link|].
  right. exists info. by eapply present_link.
Qed.

Lemma absent_not_present info b : absent b → present info b → False.
Proof. intros [Hs _ _ _ _ _ _] [Hs' _ _ _ _ _ _]. by rewrite Hs in Hs'. Qed.

(** ** Triples

    [triple P m Q R]: from a well-formed store and [P], [m] ends in a
    well-formed store, and in [Q] if it returns or [R] if it raises. *)

Abbreviation M := (B E Session Transport).
Abbreviation State := (Backend E Session Transport).

Definition triple {A} (P : State → Prop) (m : M A) (Q : A → State → Prop) (R : State → Prop)
    : Prop :=
  ∀ b e, store_ok b → P b →
    wp m (λ a w, store_ok (bw_backend w) ∧ Q a (bw_backend w))
         (λ _ w, store_ok (bw_backend w) ∧ R (bw_backend w)) (mkBackendWorld b e).

(** What never raises. *)
Abbreviation Never := (λ _ : State, False).

Lemma triple_conseq {A} (P P' : State → Prop) (m : M A) (Q Q' : A → State → Prop) (R R' : State → Prop) :
  triple P m Q R → (∀ b, P' b → P b) → (∀ a b, Q a b → Q' a b) → (∀ b, R b → R' b) →
  triple P' m Q' R'.
Proof.
  intros Hm HP HQ HR b e Hs Hb. apply (wp_conseq _ _ _ _ _ _ (Hm b e Hs (HP b Hb))).
  - intros a w [? ?]. auto.
  - intros exc w [? ?]. auto.
Qed.

Lemma triple_bind {A C} (m : M A) (k : A → M C) (P : State → Prop) P' Q R :
  triple P m P' R → (∀ a, triple (P' a) (k a) Q R) → triple P (bind m k) Q R.
Proof.
  intros Hm Hk b e Hs Hb. apply wp_bind. apply (wp_conseq _ _ _ _ _ _ (Hm b e Hs Hb)); [|done].
  intros a [b' e'] [Hs' Hb']. by apply Hk.
Qed.

Lemma triple_ret {A} (a : A) (P : State → Prop) Q R : (∀ b, P b → Q a b) → triple P (ret a : M A) Q R.
Proof. intros H b e Hs Hb. by split; [|apply H]. Qed.

Lemma triple_raise {A} exc (P : State → Prop) Q R : (∀ b, P b → R b) → triple P (raise exc : M A) Q R.
Proof. intros H b e Hs Hb. by split; [|apply H]. Qed.

Lemma triple_lift {A} (r : Res A) (P : State → Prop) Q R :
  (∀ a b, r = Ok a → P b → Q a b) → (∀ exc b, r = Raise exc → P b → R b) →
  triple P (lift r : M A) Q R.
Proof. intros HQ HR b e Hs Hb. apply wp_lift; intros ? ?; (split; [done|]); eauto. Qed.

Lemma triple_env {A} (m : ST E A) (P : State → Prop) Q R :
  (∀ a b, P b → Q a b) → (∀ b, P b → R b) → triple P (env m : M A) Q R.
Proof.
  intros HQ HR b e Hs Hb. unfold wp, env. simpl. destruct (m e) as [[a|exc] e'];
    (split; [done|]); simpl; auto.
Qed.

Lemma triple_self (P : State → Prop) Q R : (∀ b, P b → Q b b) → triple P (self : M _) Q R.
Proof. intros H b e Hs Hb. split; [done|]. by apply H. Qed.

Lemma triple_set f (P : State → Prop) Q R :
  (∀ b, be_dispatcher (f b) = be_dispatcher b) → (∀ b, P b → Q tt (f b)) →
  triple P (set f : M _) Q R.
Proof.
  intros Hf H b e Hs Hb. split; [|by apply H]. unfold store_ok, store in *. simpl. by rewrite Hf.
Qed.

Lemma triple_catch {A} (m : M A) h (P : State → Prop) Q R R' :
  triple P m Q R' → (∀ exc, triple R' (h exc) Q R) → triple P (catch m h) Q R.
Proof.
  intros Hm Hh b e Hs Hb. apply wp_catch. apply (wp_conseq _ _ _ _ _ _ (Hm b e Hs Hb)); [done|].
  intros exc [b' e'] [Hs' Hb']. by apply Hh.
Qed.

Lemma triple_snapshot (P : State → Prop) Q R :
  (∀ b, store_ok b → P b → Q (store b) b) → triple P (runtime_v2_snapshot : M _) Q R.
Proof. intros H b e Hs Hb. unfold wp. rewrite snapshot_run by done. split; [done|]. by apply H. Qed.

(** A fact about the state before, as a hypothesis. *)
Lemma triple_read {A} (m : M A) (P : State → Prop) Q R :
  (∀ b0, P b0 → triple (λ b, b = b0) m Q R) → triple P m Q R.
Proof. intros H b e Hs Hb. by apply (H b Hb). Qed.

(** What leaves the connection alone. *)
Lemma triple_keeps `{EqDecision Session} `{EqDecision Transport} {A} (m : M A) ok Q (P : State → Prop) :
  of_connection P → keeps (λ _, True) ok m Q → triple P m (λ a b, P b ∧ Q a) P.
Proof.
  intros HP Hm b e Hs Hb.
  assert (state_ok (λ _, True) b) as Hst by (split; [done|]; by destruct (be_provider b)).
  apply (wp_conseq _ _ _ _ _ _ (Hm b e Hst I I)).
  - intros a w [([Hs' _] & [Hl _ _] & _) Ha]. split; [done|]. split; [|done]. by eapply HP.
  - intros exc w ([Hs' _] & [Hl _ _] & _). split; [done|]. by eapply HP.
Qed.
End lifecycle.

Arguments triple {E Session Transport A} _ _ _ _.

Section calls.
Context {E Session Transport : Type} `{EqDecision Transport} `{Ports E Session Transport}.

Abbreviation M := (B E Session Transport).
Abbreviation State := (Backend E Session Transport).
Abbreviation Never := (λ _ : State, False).

(** ** Results *)

Lemma task_result_same r r' : TaskExecutionResult_post_init r = Ok r' → r' = r.
Proof. unfold TaskExecutionResult_post_init. intros Hr. by checks. Qed.

Lemma failed_result_status task_id code message stage summary recoverable details results domain r :
  failed_result task_id code message stage summary recoverable details results domain = Ok r →
  te_status r = TaskFinalStatus.FAILED.
Proof.
  unfold failed_result. intros Hr. checks. apply task_result_same in Hr as ->. done.
Qed.

Definition has_status (status : TaskFinalStatus) (r : TaskExecutionResult) : Prop :=
  te_status r = status.

Lemma triple_failed (P : State → Prop) task_id code message stage summary recoverable details
    results domain :
  triple P (lift (failed_result task_id code message stage summary recoverable details results
                    domain) : M _)
    (λ r b, P b ∧ has_status TaskFinalStatus.FAILED r) P.
Proof.
  apply triple_lift; [|done]. intros r b Hr Hb. split; [done|]. by eapply failed_result_status.
Qed.

(** ** What never touches the connection *)

Lemma triple_notify (P : State → Prop) hook generation :
  triple P (notify_maintenance hook generation : M _) (λ _, P) Never.
Proof.
  unfold notify_maintenance. apply (triple_catch _ _ _ _ _ P); [by apply triple_env|].
  intros exc. by apply triple_ret.
Qed.

Lemma triple_publish (P : State → Prop) task_id step_id state stage message progress :
  triple P (publish_step task_id step_id state stage message progress : M _) (λ _, P) P.
Proof. unfold publish_step. destruct progress; [by apply triple_env|by apply triple_ret]. Qed.

Lemma triple_closing (P : State → Prop) resource :
  triple P (closing resource : M _) (λ _, P) Never.
Proof.
  unfold closing, close_resource. apply (triple_catch _ _ _ _ _ P); [|intros exc; by apply triple_ret].
  apply (triple_bind _ _ _ (λ _, P)); [|intros []; by apply triple_ret].
  destruct (close_method resource); [by apply triple_env|by apply triple_raise].
Qed.

Lemma triple_pending (P : State → Prop) : triple P (cleanup_pending : M _) (λ _, P) Never.
Proof.
  unfold cleanup_pending. apply (triple_bind _ _ _ (λ _, P)); [by apply triple_self|].
  intros b. by apply triple_ret.
Qed.

Lemma triple_cancel_requested (P : State → Prop) cancellation :
  triple P (cancel_requested cancellation : M _) (λ _, P) P.
Proof. destruct cancellation; [by apply triple_env|by apply triple_ret]. Qed.

(** What is not about the resource that waits to be closed. *)
Definition free_of_pending (P : State → Prop) : Prop :=
  ∀ b resource, P b → P (with_pending_close resource b).

Lemma absent_free : free_of_pending absent.
Proof. intros b resource [? ? ? ? ? ? ?]. by constructor. Qed.

(** ** Dispatching *)

(** The event is dispatched, or nothing is. *)
Lemma triple_dispatch event (P : State → Prop) Q (R : State → Prop) :
  parts_ok event → (∀ b, P b → R b) →
  (∀ b s', P b → event_effect event (store b) = Ok s' →
     Q (published event (store b) s' (de_listeners (be_dispatcher b))) (with_store s' b)) →
  triple P (dispatch_event event : M _) Q R.
Proof.
  intros Hp HR HQ b e Hs Hb. unfold wp.
  destruct (dispatch_event_run event b e Hs Hp) as [(s' & Hev & Heff & ->)|[exc ->]];
    [|by split; [|apply HR]].
  split; [by eapply store_ok_event|]. by apply HQ.
Qed.

(** A connection of a well-formed store can always be closed. *)
Lemma triple_close_connection connection (P : State → Prop) :
  (∀ b, P b → P (with_store (start_over (generation_of b) None None (store b)) b)) →
  triple (λ b, P b ∧ rv_connection (store b) = Some connection)
    (dispatch_event (ConnectionClosed (cr_connection_id connection) (cr_generation connection)) : M _)
    (λ _ b, P b ∧ rv_connection (store b) = None) Never.
Proof.
  intros HP b e Hs [Hb Hc]. unfold wp.
  set (event := ConnectionClosed _ _).
  assert (event_effect event (store b) = Ok (start_over (generation_of b) None None (store b))) as Heff.
  { simpl. rewrite Hc, !bool_decide_eq_true_2 by done. done. }
  assert (DomainEvent_post_init event = Ok event) as Hev.
  { destruct (ok_connection _ (proj1 Hs) _ Hc) as [_ Hok]. apply connection_checks in Hok as [Hid _].
    simpl. by rewrite (proj2 (identifier_ok _ "connection_id") Hid). }
  unfold dispatch_event, bind, lift. rewrite Hev. simpl.
  rewrite dispatch_effect by (try apply Hs; by split). fold (store b). rewrite Heff.
  assert (event_ok event) as Hok by done.
  split; [exact (store_ok_event _ _ _ Hs Hok Heff)|]. by split; [apply HP|].
Qed.

(** ** Releasing a connection *)

Definition waiting (resource : option (Resource Session Transport)) (b : State) : Prop :=
  be_pending_close b = resource.

Lemma triple_release resource :
  triple (waiting resource) (release_connection_executor : M _)
    (λ _ b, waiting resource b ∧ be_executor b = None) Never.
Proof.
  unfold release_connection_executor. apply triple_read. intros b0 Hw.
  apply (triple_bind _ _ _ (λ b b', b = b0 ∧ b' = b0)).
  { apply triple_self. by intros b ->. }
  intros b. apply triple_read. intros b1 [-> ->]. destruct (be_executor b0) as [executor|] eqn:He.
  - apply (triple_bind _ _ _ (λ _ b, waiting resource b ∧ be_executor b = None)).
    { apply triple_set; [done|]. by intros b ->. }
    intros []. destruct (ce_valid executor); [apply triple_notify|by apply triple_ret].
  - apply triple_ret. by intros b ->.
Qed.

(** [_clear_active] always succeeds, and leaves no connection. *)
Lemma triple_clear_active resource :
  triple (waiting resource) (clear_active : M _) (λ _ b, absent b ∧ waiting resource b) Never.
Proof.
  unfold clear_active. set (P b := waiting resource b ∧ be_executor b = None).
  apply (triple_bind _ _ _ (λ _, P)); [apply triple_release|]. intros [].
  apply (triple_bind _ _ _ (λ _, P)); [by apply triple_self|]. intros _.
  apply (triple_bind _ _ _ (λ s b, P b ∧ rv_connection (store b) = rv_connection s)).
  { by apply triple_snapshot. }
  intros s. apply (triple_bind _ _ _ (λ _ b, P b ∧ rv_connection (store b) = None)).
  - destruct (rv_connection s) as [connection|].
    + apply (triple_bind _ _ _ (λ _ b, P b ∧ rv_connection (store b) = None)).
      { by apply triple_close_connection. }
      intros _. by apply triple_ret.
    + by apply triple_ret.
  - intros []. apply triple_set; [done|]. intros b [[Hw He] Hc]. split; [|done].
    constructor; try done. unfold connection_key.
    change (store (with_connection _ _ _ _ _ b)) with (store b). by rewrite Hc.
Qed.

Lemma triple_cleared :
  triple (λ _ : State, True) (clear_active : M _) (λ _, absent) Never.
Proof.
  apply triple_read. intros b0 _.
  apply (triple_conseq _ _ _ _ _ _ _ (triple_clear_active (be_pending_close b0))); [|by intros _ b []|done].
  by intros b ->.
Qed.

(** [_cleanup_partial] always returns; without a message nothing is left. *)
Definition cleaned (P : State → Prop) (errors : list string) (b : State) : Prop :=
  P b ∧ (errors = [] → waiting None b).

Lemma triple_cleanup_transport (P : State → Prop) session transport errors :
  free_of_pending P → (isSome session = true → errors <> []) →
  triple (λ b, P b ∧ waiting None b) (cleanup_transport session transport errors : M _)
    (cleaned P) Never.
Proof.
  intros HP He. unfold cleanup_transport.
  apply (triple_bind _ _ _ (λ _ b, P b ∧ waiting None b)); [apply triple_closing|].
  intros [exc|].
  - apply (triple_bind _ _ _ (λ _, P)); [apply triple_set; [done|]; intros b [Hb _]; by apply HP|].
    intros []. apply triple_ret. intros b Hb. split; [done|]. by destruct errors.
  - destruct session as [session|]; [|apply triple_ret; by intros b []].
    apply (triple_bind _ _ _ (λ _, P)).
    + case_bool_decide; [apply triple_ret; by intros b []|].
      apply triple_set; [done|]. intros b [Hb _]. by apply HP.
    + intros []. apply triple_ret. intros b Hb. split; [done|]. intros ->. by destruct (He eq_refl).
Qed.

Lemma triple_cleanup (P : State → Prop) session transport :
  free_of_pending P →
  triple P (cleanup_partial session transport : M _) (cleaned P) Never.
Proof.
  intros HP. unfold cleanup_partial.
  apply (triple_bind _ _ _ (λ _ b, P b ∧ waiting None b)).
  { apply triple_set; [done|]. intros b Hb. by split; [apply HP|]. }
  intros []. destruct session as [session|].
  - apply (triple_bind _ _ _ (λ _ b, P b ∧ waiting None b)); [apply triple_closing|].
    intros [exc|]; [|apply triple_ret; by intros b []].
    destruct transport as [transport|]; [by apply triple_cleanup_transport|].
    apply (triple_bind _ _ _ (λ _, P)); [apply triple_set; [done|]; intros b [Hb _]; by apply HP|].
    intros []. by apply triple_ret.
  - destruct transport as [transport|]; [by apply triple_cleanup_transport|].
    apply triple_ret. by intros b [].
Qed.

(** ** Opening a connection *)

(** Before the connection is there: nothing waits to be closed either. *)
Definition opening (generation : ConnectionGeneration) (b : State) : Prop :=
  absent b ∧ waiting None b ∧ generation_of b = generation.

Lemma opening_absent generation b : opening generation b → absent b.
Proof. by intros []. Qed.

(** The connection of [info], the next one after [generation]. *)
Definition opened (generation : ConnectionGeneration) (info : ConnectionInfo) (b : State) : Prop :=
  present info b ∧ waiting None b ∧ generation_of b = mkGeneration (cg_value generation + 1).

Definition unsuccessful (r : TaskExecutionResult) : Prop :=
  has_status TaskFinalStatus.FAILED r ∨ has_status TaskFinalStatus.CANCELLED r.

(** How [connect] ends. *)
Inductive connect_end (generation : ConnectionGeneration) (r : TaskExecutionResult) (b : State)
    : Prop :=
| Connected info :
    has_status TaskFinalStatus.SUCCEEDED r → te_payload r = ConnectionPayload info →
    opened generation info b → connect_end generation r b
| NotConnected : unsuccessful r → absent b → connect_end generation r b.

Lemma make_connection_info_checked id request discovered connected_at info :
  ConnectionInfo_post_init
    (mkConnectionInfo id "SCI / RS232" (sc_port request) connected_at (dt_target_key discovered)
       (connection_details request (dt_device_info discovered))) = Ok info →
  ConnectionInfo_post_init info = Ok info.
Proof.
  unfold ConnectionInfo_post_init. intros Hi. checks. simpl in *. checks. subst info a. simpl.
  by repeat match goal with H : negb _ = false |- _ => rewrite H; clear H end.
Qed.

Lemma triple_connection_info generation request discovered :
  triple (opening generation) (make_connection_info request discovered : M _)
    (λ info b, opening generation b ∧ ConnectionInfo_post_init info = Ok info)
    (opening generation).
Proof.
  unfold make_connection_info. apply (triple_bind _ _ _ (λ _, opening generation)); [by apply triple_env|].
  intros id. apply (triple_bind _ _ _ (λ _, opening generation)); [by apply triple_env|].
  intros connected_at. apply triple_lift; [|done]. intros info b Hi Hb. split; [done|].
  by eapply make_connection_info_checked.
Qed.

Lemma from_connection_info_key info generation c :
  from_connection_info info generation = Ok c →
  cr_connection_id c = ci_connection_id info ∧ cr_generation c = generation ∧
  from_target_key (ci_target_key info) = Ok (cr_cpu_id c).
Proof.
  unfold from_connection_info, ConnectionRuntimeState_post_init. intros Hc. checks. by subst c.
Qed.

(** The parts of the connection, before the store knows of it. *)
Record assigned (generation : ConnectionGeneration) (info : ConnectionInfo) (b : State) : Prop :=
  mkAssigned {
  as_session : isSome (be_session b) = true;
  as_transport : isSome (be_transport b) = true;
  as_target : isSome (be_target b) = true;
  as_device_info : isSome (be_device_info b) = true;
  as_info : be_connection_info b = Some info;
  as_waiting : waiting None b;
  as_generation : generation_of b = generation;
}.

Lemma triple_own_connection generation session transport discovered info :
  ConnectionInfo_post_init info = Ok info →
  triple (opening generation) (own_connection session transport discovered info : M _)
    (λ _, opened generation info) (λ _, True).
Proof.
  intros Hi. unfold own_connection. apply (triple_bind _ _ _ (λ _, assigned generation info)).
  { apply triple_set; [done|]. by intros b (_ & Hw & Hg). }
  intros []. set (next := mkGeneration (cg_value generation + 1)).
  apply (triple_bind _ _ _ (λ t b, assigned next info b ∧
    generation_of b = rv_connection_generation (rt_snapshot t) ∧
    ∃ cpu_id, from_target_key (ci_target_key info) = Ok cpu_id ∧
      connection_key (store b) = Some (ci_connection_id info, cpu_id, next))).
  { apply triple_dispatch; [done|done|]. intros b s' [? ? ? ? ? ? Hg] Heff. simpl in Heff. unfold generation_of in Hg. rewrite Hg in Heff.
    fold next in Heff. destruct (from_connection_info info next) as [c|] eqn:Hc; [|done].
    injection Heff as <-. apply from_connection_info_key in Hc as (Hid & Hgen & Hk).
    split; [by constructor|]. split; [done|]. exists (cr_cpu_id c). split; [done|].
    unfold connection_key. simpl. by rewrite Hid, Hgen. }
  intros t. apply (triple_bind _ _ _ (λ _, opened generation info)).
  - apply triple_set; [done|]. intros b ([? ? ? ? ? ? Hg] & Hgen & cpu_id & Hk & Hc).
    split; [|done]. constructor; try done; [by rewrite <-Hgen|].
    exists cpu_id. split; [done|]. change (generation_of (with_executor _ b)) with (generation_of b).
    by rewrite Hg.
  - intros []. eapply triple_conseq; [apply triple_notify|done|done|done].
Qed.
End calls.
