(* ===== verification/BackendCalls.v ===== *)
(** * How the calls of the runtime backend end

    The triples of [connect], [disconnect] and [shutdown], part by part; what
    the other calls do under the lock; and [Reachable], the states of a backend
    between its calls. *)

From stdpp Require Import gmap.
From S2P Require Import Prelude.
From S2P Require Import Errors.
From S2P Require Import TaskPlans.
From S2P Require Import Models.
From S2P Require Import Targets.
From S2P Require Import BootClient.
From S2P Require Import OperationResults.
From S2P Require Import StatusOps.
From S2P Require Import StatusModels.
From S2P Require Import RamOps.
From S2P Require Import RuntimeValues.
From S2P Require Import RuntimeModels.
From S2P Require Import CommandExecutor.
From S2P Require Import ImageRequests.
From S2P Require Import OperationRequests.
From S2P Require Import TaskModels.
From S2P Require Import RuntimeStore.
From S2P Require Import RuntimeDispatch.
From S2P Require Import RuntimeTable.
From S2P Require Import RuntimeInvariant.
From S2P Require Import RuntimeProperties.
From S2P Require Import Backend.
From S2P Require Import BackendConnection.
From S2P Require Import BackendSelection.
From S2P Require Import BackendImages.
From S2P Require Import BackendStatus.
From S2P Require Import BackendExecute.
From S2P Require Import BackendInvariant.
From S2P Require Import BackendKeeps.
From S2P Require Import BackendWrites.
From S2P Require Import BackendLifecycle.

Section connecting.
Context {E Session Transport : Type} `{EqDecision Transport} `{Ports E Session Transport}.

Abbreviation M := (B E Session Transport).
Abbreviation State := (Backend E Session Transport).
Abbreviation Never := (λ _ : State, False).

(** ** Failures on the way *)

Lemma triple_weaken_raise {A} (P : State → Prop) (m : M A) Q R :
  triple P m Q Never → triple P m Q R.
Proof. intros Hm. by eapply triple_conseq; [exact Hm|..]. Qed.

(** Closing what was opened, then forgetting the connection. *)
Lemma triple_released {A} session transport (k : list string → M A) Q R :
  (∀ errors, triple absent (k errors) Q R) →
  triple absent (errors <- cleanup_partial session transport ;; clear_active ;;; k errors) Q R.
Proof.
  intros Hk. apply (triple_bind _ _ _ (cleaned absent)).
  { apply triple_weaken_raise, triple_cleanup, absent_free. }
  intros errors. apply (triple_bind _ _ _ (λ _, absent)); [|intros _; apply Hk].
  eapply triple_conseq; [apply triple_cleared|done..].
Qed.

Lemma triple_connect_failure task_id session transport code message stage results details domain :
  triple absent
    (connect_failure task_id session transport code message stage results details domain : M _)
    (λ r b, absent b ∧ has_status TaskFinalStatus.FAILED r) absent.
Proof.
  unfold connect_failure. apply triple_released. intros errors.
  apply (triple_bind _ _ _ (λ _, absent)); [apply triple_weaken_raise, triple_pending|].
  intros pending. apply triple_failed.
Qed.

Lemma triple_unsuccessful (P : State → Prop) (r : Res TaskExecutionResult) :
  (∀ a, r = Ok a → unsuccessful a) → triple P (lift r : M _) (λ a b, P b ∧ unsuccessful a) P.
Proof. intros Hr. by apply triple_lift; [intros a b Ha Hb; split; [|apply Hr]|]. Qed.

Lemma connection_cancelled_status task_id stage results payload r :
  connection_cancelled task_id stage results payload = Ok r → has_status TaskFinalStatus.CANCELLED r.
Proof. intros Hr. apply task_result_same in Hr as ->. done. Qed.

Lemma triple_cancel_open task_id session transport open_result stage results :
  triple absent (cancel_open_connection task_id session transport open_result stage results : M _)
    (λ r b, absent b ∧ unsuccessful r) absent.
Proof.
  unfold cancel_open_connection. apply triple_released. intros errors.
  destruct (nonempty errors).
  - apply (triple_bind _ _ _ (λ _, absent)); [apply triple_weaken_raise, triple_pending|].
    intros pending. apply triple_unsuccessful. intros r Hr. left. checks.
    apply task_result_same in Hr as ->. done.
  - apply triple_unsuccessful. intros r Hr. right. by eapply connection_cancelled_status.
Qed.

Lemma triple_abandon {A} session transport exc Q :
  triple absent (abandon session transport exc : M A) Q absent.
Proof. unfold abandon. apply triple_released. intros _. by apply triple_raise. Qed.

(** ** connect *)

Lemma triple_create_session generation request :
  triple (opening generation) (create_session request : M _) (λ _, opening generation) absent.
Proof.
  unfold create_session. apply (triple_bind _ _ _ (λ _, opening generation)).
  { apply (triple_catch _ _ _ _ _ absent); [|intros exc; apply triple_abandon].
    apply triple_env; [done|apply opening_absent]. }
  intros transport. apply (triple_bind _ _ _ (λ _, opening generation)); [|intros session; by apply triple_ret].
  apply (triple_catch _ _ _ _ _ absent); [|intros exc; apply triple_abandon].
  apply triple_env; [done|apply opening_absent].
Qed.

(** What may return an unsuccessful result before the connection is there. *)
Definition ended {A} (goes_on : A → State → Prop) (f : Flow A) (b : State) : Prop :=
  match f with Return r => absent b ∧ unsuccessful r | Continue a => goes_on a b end.

Lemma triple_flow {A} generation (P : State → Prop) (m : M (Flow A)) (k : A → M TaskExecutionResult)
    (goes_on : A → State → Prop) :
  triple P m (ended goes_on) absent →
  (∀ a, triple (goes_on a) (k a) (connect_end generation) absent) →
  triple P (x <-? m ;; k x) (connect_end generation) absent.
Proof.
  intros Hm Hk. apply (triple_bind _ _ _ (ended goes_on)); [done|]. intros [r|a]; [|apply Hk].
  apply triple_ret. intros b [Hb Hr]. by apply NotConnected.
Qed.

Lemma triple_open_session generation task_id session transport cancellation progress :
  triple (opening generation) (open_session task_id session transport cancellation progress : M _)
    (ended (λ _, opening generation)) absent.
Proof.
  unfold open_session. apply (triple_catch _ _ _ _ _ absent).
  - apply (triple_bind _ _ _ (λ _, opening generation)); [apply triple_env; [done|apply opening_absent]|].
    intros value. apply (triple_bind _ _ _ (λ _, opening generation)).
    { apply triple_lift; [done|]. intros ? ? _. apply opening_absent. }
    intros open_result. case_bool_decide.
    + apply (triple_bind _ _ _ (λ _, absent)); [by eapply triple_conseq; [apply triple_cleared|..]|].
      intros []. apply (triple_bind _ _ _ (λ r b, absent b ∧ unsuccessful r)); [|intros r; by apply triple_ret].
      apply triple_unsuccessful. intros r Hr. right. by eapply connection_cancelled_status.
    + apply (triple_bind _ _ _ (λ _, opening generation)); [|intros []; by apply triple_ret].
      eapply triple_conseq; [apply (triple_publish (opening generation))|done|done|apply opening_absent].
  - intros exc.
    assert (∀ code, triple absent (
      result <- connect_failure task_id session transport code (str_exn exc) "CONNECT_SCI" [] []
                  (Some COMMUNICATION) ;;
      ret (Return result)) (ended (λ (_ : TransportOpenResult), opening generation)) absent) as Hf.
    { intros code. eapply triple_bind; [apply triple_connect_failure|].
      intros r. apply triple_ret. intros b [Hb Hr]. split; [done|by left]. }
    destruct (isinstance exc TransportTimeoutError); [apply Hf|].
    destruct (_ || _); [apply Hf|apply triple_abandon].
Qed.

Lemma task_succeeded_same task_id summary message results payload r :
  task_succeeded task_id summary message results payload = Ok r →
  has_status TaskFinalStatus.SUCCEEDED r ∧ te_payload r = payload.
Proof. intros Hr. apply task_result_same in Hr as ->. done. Qed.

Abbreviation Anything := (λ _ : State, True).

Lemma triple_identified generation task_id request session transport open_result evidence discovered
    cancellation progress :
  triple (opening generation)
    (identified task_id request session transport open_result evidence discovered cancellation
       progress : M _)
    (connect_end generation) Anything.
Proof.
  unfold identified. eapply triple_bind.
  { eapply triple_conseq; [apply triple_connection_info|done|intros ? ? Hx; exact Hx|done]. }
  intros info. apply triple_read. intros b0 [Hb0 Hi].
  apply (triple_bind _ _ _ (λ _, opening generation)).
  { eapply triple_conseq; [apply (triple_publish (opening generation))|by intros b ->|done..]. }
  intros []. apply (triple_bind _ _ _ (λ _, opening generation)).
  { eapply triple_conseq; [apply triple_cancel_requested|done..]. }
  intros asked. destruct asked.
  - eapply triple_conseq; [apply triple_cancel_open|apply opening_absent| |done].
    intros r b [Hb Hr]. by apply NotConnected.
  - eapply triple_bind; [apply (triple_lift _ (opening generation)
      (λ r b, opening generation b ∧ has_status TaskFinalStatus.SUCCEEDED r ∧
              te_payload r = ConnectionPayload info)); [|done]|].
    { intros r b Hr Hb. split; [done|]. by eapply task_succeeded_same. }
    intros r. apply triple_read. intros b1 [Hb1 [Hr Hp]].
    apply (triple_bind _ _ _ (λ _, opened generation info)).
    + eapply triple_conseq; [by apply triple_own_connection|by intros b ->|done..].
    + intros []. apply triple_ret. intros b Hb. by apply (Connected _ _ _ info).
Qed.

Lemma triple_identify generation task_id request session transport open_result cancellation progress :
  triple (opening generation)
    (identify_target task_id request session transport open_result cancellation progress : M _)
    (connect_end generation) absent.
Proof.
  unfold identify_target. apply (triple_catch _ _ _ _ _ Anything).
  - apply (triple_bind _ _ _ (λ _, opening generation)).
    { eapply triple_conseq; [apply (triple_publish (opening generation))|done..]. }
    intros []. apply (triple_bind _ _ _ (λ _, opening generation)); [by apply triple_env|].
    intros [outcome|]; [|by apply triple_raise]. destruct (negb _).
    + eapply triple_conseq; [apply triple_connect_failure|apply opening_absent| |done].
      intros r b [Hb Hr]. by apply NotConnected; [left|].
    + destruct (td_discovered_target outcome); [|by apply triple_raise]. apply triple_identified.
  - intros exc. apply (triple_bind _ _ _ (λ _, absent)); [by eapply triple_conseq; [apply triple_cleared|..]|].
    intros []. apply (triple_bind _ _ _ (λ _, absent)); [|intros _; by apply triple_raise].
    eapply triple_conseq; [apply (triple_cleanup absent); apply absent_free|done|by intros ? ? []|done].
Qed.

Lemma triple_pre_connect generation task_id :
  triple (λ b, absent b ∧ generation_of b = generation) (pre_connect_cleanup task_id : M _)
    (ended (λ _, opening generation)) absent.
Proof.
  set (P b := absent b ∧ generation_of b = generation).
  assert (free_of_pending P) as HP by (intros b r [Ha Hg]; split; [by apply absent_free|done]).
  unfold pre_connect_cleanup. apply (triple_bind _ _ _ (λ b b', b' = b ∧ P b)); [by apply triple_self|].
  intros b0. apply triple_read. intros b1 [-> Hb0].
  destruct (be_pending_close b0) as [resource|] eqn:Hw.
  - apply (triple_bind _ _ _ (λ _, P)).
    { eapply triple_conseq; [apply triple_closing|by intros b ->|done..]. }
    intros [exc|].
    + eapply triple_bind.
      { eapply triple_conseq; [apply triple_failed|done|intros ? ? Hx; exact Hx|by intros b []]. }
      intros r. apply triple_ret. intros b [[Ha Hg] Hr]. split; [done|by left].
    + apply (triple_bind _ _ _ (λ _, P)).
      * unfold release_connection_executor. apply (triple_bind _ _ _ (λ s b, P b ∧ P s)); [by apply triple_self|].
        intros s. apply triple_read. intros b2 [Hb2 [Hs _]]. rewrite (no_executor _ Hs).
        apply triple_ret. by intros b ->.
      * intros []. apply (triple_bind _ _ _ (λ _, opening generation)); [|intros []; by apply triple_ret].
        apply triple_set; [done|]. intros b Hb. destruct (HP b None Hb). by split_and!.
  - apply triple_ret. intros b ->. by destruct Hb0.
Qed.

Lemma triple_settings_failure (P : State → Prop) task_id message :
  triple P (connect_settings_failure task_id message : M _)
    (λ r b, P b ∧ has_status TaskFinalStatus.FAILED r) P.
Proof.
  unfold connect_settings_failure. apply (triple_bind _ _ _ (λ _, P)); [|intros ?; apply triple_failed].
  apply triple_weaken_raise, triple_pending.
Qed.

Lemma triple_connect generation task_id request cancellation progress :
  triple (λ b, absent b ∧ generation_of b = generation)
    (connect_body task_id request cancellation progress : M _) (connect_end generation) absent.
Proof.
  set (P b := absent b ∧ generation_of b = generation).
  assert (∀ message, triple P (connect_settings_failure task_id message : M _)
            (connect_end generation) absent) as Hfail.
  { intros message. eapply triple_conseq; [apply triple_settings_failure|done| |by intros b []].
    intros r b [[Hb _] Hr]. by apply NotConnected; [left|]. }
  unfold connect_body. destruct request as [request|]; [|apply Hfail].
  destruct (validate_request request); [|apply Hfail].
  apply (triple_bind _ _ _ (λ s b, P b ∧ P s)); [by apply triple_self|].
  intros s. apply triple_read. intros b0 [Hb0 [Hs _]]. rewrite (no_session _ Hs), (no_transport _ Hs).
  simpl. apply (triple_flow _ _ _ _ (λ _, opening generation)).
  { eapply triple_conseq; [apply triple_pre_connect|by intros b ->|done..]. }
  intros []. apply (triple_bind _ _ _ (λ _, opening generation)); [apply triple_create_session|].
  intros [session transport]. apply (triple_bind _ _ _ (λ _, opening generation)).
  { eapply triple_conseq; [apply (triple_publish (opening generation))|done|done|apply opening_absent]. }
  intros []. apply (triple_flow _ _ _ _ (λ _, opening generation)); [apply triple_open_session|].
  intros open_result. apply (triple_bind _ _ _ (λ _, opening generation)).
  { eapply triple_conseq; [apply triple_cancel_requested|done|done|apply opening_absent]. }
  intros asked. destruct asked; [|apply triple_identify].
  eapply triple_conseq; [apply triple_cancel_open|apply opening_absent| |done].
  intros r b [Hb Hr]. by apply NotConnected.
Qed.
End connecting.

(** ** disconnect and shutdown *)

Section closing.
Context {E Session Transport : Type} `{EqDecision Session} `{EqDecision Transport}
  `{Ports E Session Transport}.

Abbreviation M := (B E Session Transport).
Abbreviation State := (Backend E Session Transport).

(** The same connection, whatever waits to be closed and whoever has the lock. *)
Definition same_connection (b b' : State) : Prop :=
  link (with_locked false (with_pending_close None b')) =
  link (with_locked false (with_pending_close None b)).

(** What [_close] closes. *)
Definition owned (b : State) : option (Resource Session Transport) :=
  match be_session b, be_transport b with
  | Some session, _ => Some (SessionResource session)
  | None, Some transport => Some (TransportResource transport)
  | None, None => be_pending_close b
  end.

(** How [_close] ends. *)
Inductive close_end (b : State) (r : TaskExecutionResult) (b' : State) : Prop :=
| Disconnected :
    has_status TaskFinalStatus.SUCCEEDED r → absent b' → waiting None b' → close_end b r b'
| StillOpen resource :
    has_status TaskFinalStatus.FAILED r → same_connection b b' → owned b = Some resource →
    waiting (Some resource) b' → close_end b r b'.

Definition close_failed (b b' : State) : Prop :=
  same_connection b b' ∨ (absent b' ∧ waiting None b').

Lemma triple_finish_close b0 task_id step_id stage message title message' progress :
  triple (waiting None)
    (clear_active ;;;
     publish_step task_id step_id TaskStepState.COMPLETED stage message progress ;;;
     lift (task_succeeded task_id title message' [] NoPayload) : M _)
    (close_end b0) (close_failed b0).
Proof.
  set (P (b : State) := absent b ∧ waiting None b). apply (triple_bind _ _ _ (λ _, P)).
  { by apply triple_weaken_raise, triple_clear_active. }
  intros []. apply (triple_bind _ _ _ (λ _, P)).
  { eapply triple_conseq; [apply (triple_publish P)|done|done|]. intros b Hb. by right. }
  intros []. apply triple_lift; [|intros ? b _ Hb; by right].
  intros r b Hr [Ha Hw]. apply task_succeeded_same in Hr as [Hr _]. by apply Disconnected.
Qed.

Lemma triple_close b0 task_id request progress default_step default_title :
  triple (λ b, b = b0) (close task_id request progress default_step default_title : M _)
    (close_end b0) (close_failed b0).
Proof.
  unfold close. apply (triple_bind _ _ _ (λ _ b, b = b0)).
  { eapply triple_conseq; [apply (triple_publish (λ b, b = b0))|done|done|]. intros b ->. by left. }
  intros []. apply (triple_bind _ _ _ (λ s b, b = b0 ∧ s = b0)); [apply triple_self; by intros b ->|].
  intros s. apply triple_read. intros b1 [-> ->]. fold (owned b0).
  apply (triple_bind _ _ _ (λ _ b, b = with_pending_close (owned b0) b0)).
  { apply triple_set; [done|]. by intros b ->. }
  intros []. destruct (owned b0) as [resource|] eqn:Ho.
  - apply (triple_bind _ _ _ (λ _ b, b = with_pending_close (Some resource) b0)).
    { apply triple_weaken_raise, triple_closing. }
    intros [exc|].
    + eapply triple_conseq; [apply (triple_failed (λ b, b = with_pending_close (Some resource) b0))
                            |done| |intros b ->; by left].
      intros r b [-> Hr]. by apply (StillOpen _ _ _ resource).
    + apply (triple_bind _ _ _ (λ _, waiting None)); [|intros []; apply triple_finish_close].
      apply triple_set; [done|]. by intros b ->.
  - eapply triple_conseq; [apply triple_finish_close|by intros b ->|done|done].
Qed.

(** ** Under the lock *)

Definition lock_free (P : State → Prop) : Prop := ∀ b l, P b → P (with_locked l b).

Lemma exclusively_locked {A} (m : M A) b e :
  be_locked b = true →
  exclusively m (mkBackendWorld b e) =
    (Raise (Err RuntimeError (Lit "RuntimeBackend concurrent entry is not allowed")),
     mkBackendWorld b e).
Proof. intros Hl. unfold exclusively, acquire, bind, self, gets. simpl. by rewrite Hl. Qed.

Lemma exclusively_run {A} (m : M A) b e :
  be_locked b = false →
  exclusively m (mkBackendWorld b e) =
    let '(r, w) := m (mkBackendWorld (with_locked true b) e) in
    (r, mkBackendWorld (with_locked false (bw_backend w)) (bw_env w)).
Proof.
  intros Hl. unfold exclusively, acquire, bind, self, gets. simpl. rewrite Hl. simpl.
  unfold try_finally, release, Backend.set, modify. by destruct (m _).
Qed.

(** A method that waits for the lock, while nobody has it. *)
Lemma waiting_unlocked {A} (m : M A) b e :
  be_locked b = false →
  (Backend.set (with_locked true) ;;; try_finally m release) (mkBackendWorld b e) =
  exclusively m (mkBackendWorld b e).
Proof. intros Hl. unfold exclusively, acquire, bind, self, gets. simpl. by rewrite Hl. Qed.

Definition unlocked (P : State → Prop) (b : State) : Prop := P b ∧ be_locked b = false.

Lemma triple_exclusively {A} (m : M A) (P : State → Prop) Q R :
  lock_free P → (∀ a, lock_free (Q a)) → lock_free R → triple P m Q R →
  triple (unlocked P) (exclusively m) (λ a, unlocked (Q a)) (unlocked R).
Proof.
  intros HP HQ HR Hm b e Hs [Hb Hl]. unfold wp. rewrite exclusively_run by done.
  specialize (Hm (with_locked true b) e Hs (HP _ _ Hb)). unfold wp in Hm.
  destruct (m _) as [[a|exc] w]; destruct Hm as [Hs' Hq]; (split; [exact Hs'|]);
    (split; [|done]); [by apply HQ|by apply HR].
Qed.

Lemma absent_lock : lock_free absent.
Proof. intros b l [? ? ? ? ? ? ?]. by constructor. Qed.

Lemma present_lock info : lock_free (present info).
Proof. intros b l [? ? ? ? ? ? ?]. by constructor. Qed.

Lemma settled_lock : lock_free settled.
Proof.
  intros b l [Ha|[info Hp]]; [left; by apply absent_lock|].
  right. exists info. by apply present_lock.
Qed.

Lemma connect_end_lock generation r : lock_free (connect_end generation r).
Proof.
  intros b l [info Hr Hp [Hb [Hw Hg]]|Hr Ha].
  - apply (Connected _ _ _ info); try done. split_and!; [by apply present_lock|done..].
  - apply NotConnected; [done|by apply absent_lock].
Qed.

Lemma close_end_lock b r : lock_free (close_end b r).
Proof.
  intros b' l [Hr Ha Hw|resource Hr Hs Ho Hw].
  - apply Disconnected; [done|by apply absent_lock|done].
  - by apply (StillOpen _ _ _ resource).
Qed.

Lemma close_failed_lock b : lock_free (close_failed b).
Proof. intros b' l [Hs|[Ha Hw]]; [by left|]. right. split; [by apply absent_lock|done]. Qed.

(** Who had the lock before does not matter either. *)
Lemma close_end_from b l r b' : close_end (with_locked l b) r b' → close_end b r b'.
Proof.
  intros [Hr Ha Hw|resource Hr Hs Ho Hw]; [by apply Disconnected|by apply (StillOpen _ _ _ resource)].
Qed.

Lemma close_failed_from b l b' : close_failed (with_locked l b) b' → close_failed b b'.
Proof. intros [Hs|Ha]; [by left|by right]. Qed.

(** A connection that stays is as it was. *)
Lemma same_connection_settled b b' : same_connection b b' → settled b → settled b'.
Proof.
  unfold same_connection. intros Hl Hb.
  assert (∀ b : State, settled (with_locked false (with_pending_close None b)) ↔ settled b) as Hi.
  { intros s. split; intros [[]|[info []]]; [left|right; exists info|left|right; exists info];
      by constructor. }
  apply Hi. eapply settled_link; [exact Hl|]. by apply Hi.
Qed.

Lemma close_end_settled b r b' : close_end b r b' → settled b → settled b'.
Proof. intros [Hr Ha Hw|resource Hr Hs Ho Hw] Hb; [by left|by eapply same_connection_settled]. Qed.

Lemma close_failed_settled b b' : close_failed b b' → settled b → settled b'.
Proof. intros [Hs|[Ha _]] Hb; [by eapply same_connection_settled|by left]. Qed.
End closing.
