(* ===== verification/BackendReachable.v ===== *)
(** The reachable states of the runtime backend, then an example of a backend at
    work. *)

(** * The states of the runtime backend between its calls

    [Call] has every public method of the backend that changes its state,
    [perform] runs one, and a state is [Reachable] after any calls with any
    arguments, whatever the injected callables do. *)

From stdpp Require Import gmap.
From S2P Require Import Prelude.
From S2P Require Import Errors.
From S2P Require Import Messages.
From S2P Require Import TaskPlans.
From S2P Require Import Models.
From S2P Require Import Firmware.
From S2P Require Import Targets.
From S2P Require Import BootClient.
From S2P Require Import OperationResults.
From S2P Require Import StatusOps.
From S2P Require Import StatusModels.
From S2P Require Import RamOps.
From S2P Require Import RuntimeValues.
From S2P Require Import RuntimeModels.
From S2P Require Import CommandExecutor.
From S2P Require Import ImageRequests.
From S2P Require Import OperationRequests.
From S2P Require Import TaskModels.
From S2P Require Import RuntimeStore.
From S2P Require Import RuntimeDispatch.
From S2P Require Import RuntimeTable.
From S2P Require Import RuntimeInvariant.
From S2P Require Import RuntimeProperties.
From S2P Require Import OperationProperties.
From S2P Require Import Backend.
From S2P Require Import BackendConnection.
From S2P Require Import BackendSelection.
From S2P Require Import BackendImages.
From S2P Require Import BackendStatus.
From S2P Require Import BackendFlash.
From S2P Require Import BackendExecute.
From S2P Require Import BackendInvariant.
From S2P Require Import BackendKeeps.
From S2P Require Import BackendWrites.
From S2P Require Import BackendLifecycle.
From S2P Require Import BackendCalls.

Section keeping.
Context {E Session Transport : Type} `{EqDecision Session} `{EqDecision Transport}
  `{Ports E Session Transport} `{Paths}.
Context (J : E → Prop) (al : Allowed) (HR : Respects J al) (ok : DomainEvent → Prop)
  (Hquiet : ∀ event, quiet event → ok event).

Abbreviation M := (B E Session Transport).
Abbreviation Keeps m := (keeps J ok m (λ _, True)).

(** ** The other calls, under the lock *)

Lemma keeps_set_image_path which cpu_id path :
  Keeps (previous_revision <- current_revision which cpu_id ;;
         let revision := previous_revision + 1 in
         set_revision which cpu_id revision ;;;
         catch (dispatch_event (image_changed which cpu_id path ImageParseStatus.EMPTY None) ;;;
                ret tt)
           (λ exc, set_revision which cpu_id previous_revision ;;; raise exc) ;;;
         ret revision : M _).
Proof. keep. by destruct which; apply (keeps_quiet J ok Hquiet). Qed.

Lemma keeps_validate_erase target_key mask : Keeps (validate_erase_configuration target_key mask : M _).
Proof. unfold validate_erase_configuration. keep. Qed.

Lemma keeps_image_tools hex_path temp_dir :
  Keeps (b <- self ;;
         if bool_decide ((hex_path, temp_dir) = (be_hex2000_executable_path b, be_sci8_temp_dir b))
         then ret tt
         else set (with_image_tools hex_path temp_dir None (be_configuration_revision b + 1)) : M _).
Proof. keep. by apply keeps_set. Qed.

Lemma keeps_session_change :
  Keeps (b <- self ;;
         runtime <- runtime_v2_snapshot ;;
         if isSome (be_session b) || isSome (be_transport b) || isSome (be_connection_info b)
            || isSome (be_pending_close b) || isSome (rv_connection runtime)
         then raise (Err RuntimeError
                       (Lit "Session change requires a fully disconnected RuntimeBackend")) else
         result <- dispatch_event SessionChanged ;;
         set (with_revisions no_revisions no_revisions) ;;;
         ret result : M _).
Proof. keep; first [by apply (keeps_quiet J ok Hquiet)|by apply keeps_set]. Qed.

Lemma keeps_refresh_resources : Keeps (refresh_service_resources : M _).
Proof.
  unfold refresh_service_resources. apply (kept_bind _ _ _ _ (state_ok J)); [by apply keeps_self|].
  intros b [_ Hb]. destruct (be_provider b) as [provider|]; [|keep].
  assert (keeps J ok (resolve_service_resource_paths provider : M _) (λ _, True)) by
    by apply keeps_resolve_paths.
  keep.
Qed.

Lemma keeps_memory event :
  match event with MemoryReadSucceeded _ _ _ _ _ | MemoryReadFailed _ _ _ | MemoryCleared _ => True
  | _ => False end → Keeps (dispatch_event event : M _).
Proof. intros He. by apply (keeps_quiet J ok Hquiet); destruct event. Qed.
End keeping.

(** ** Calls *)

Section calls.
Context {E Session Transport : Type} `{EqDecision Session} `{EqDecision Transport}
  `{Ports E Session Transport} `{Paths}.

Abbreviation M := (B E Session Transport).
Abbreviation State := (Backend E Session Transport).
Abbreviation TaskProgress := (Progress E).

Inductive Call : Type :=
| Connect (task_id : string) (request : option SerialConnectRequest)
    (cancellation : option (ST E bool)) (progress : TaskProgress)
| Disconnect (task_id : string) (request : CloseRequest) (progress : TaskProgress)
| Shutdown (task_id : string) (request : CloseRequest) (progress : TaskProgress)
| Execute (task_id : string) (request : BackendRequest) (cancellation : option (ST E bool))
    (progress : TaskProgress)
| MaintenancePing (generation : ConnectionGeneration)
| SetImagePath (which : Selection) (target_key path : string)
| BeginImageParse (which : Selection) (target_key path : string) (revision : Z)
| FailImageParse (which : Selection) (target_key path : string) (revision : Z)
    (code message : string)
| SetEraseConfiguration (target_key : string) (scope : EraseScope) (mask : Z)
| SetImageToolPaths (hex2000_executable_path sci8_temp_dir : string)
| ApplySessionChange
| ConfigureAppResourceProvider (provider : AppResourceProvider E)
| RefreshFlashServiceResources
| RecordMemorySuccess (cpu_id : RuntimeCpuId) (generation : ConnectionGeneration) (base : Z)
    (words : list Z) (read_at : datetime)
| RecordMemoryFailure (cpu_id : RuntimeCpuId) (generation : ConnectionGeneration)
    (error : RuntimeReadError)
| ClearMemory (cpu_id : RuntimeCpuId)
| Subscribe (listener : TransitionListener)
| Unsubscribe (listener : TransitionListener).

(** A call whose value is not used. *)
Definition discard {A} (m : M A) : M unit := m ;;; ret tt.

Definition perform (call : Call) : M unit :=
  match call with
  | Connect task_id request cancellation progress =>
      discard (connect task_id request cancellation progress)
  | Disconnect task_id request progress => discard (disconnect task_id request progress)
  | Shutdown task_id request progress => discard (shutdown task_id request progress)
  | Execute task_id request cancellation progress =>
      discard (execute task_id request cancellation progress)
  | MaintenancePing generation => discard (try_execute_maintenance_ping generation)
  | SetImagePath which target_key path => discard (set_image_path which target_key path)
  | BeginImageParse which target_key path revision =>
      discard (begin_image_parse which target_key path revision)
  | FailImageParse which target_key path revision code message =>
      discard (fail_image_parse which target_key path revision code message)
  | SetEraseConfiguration target_key scope mask =>
      discard (set_erase_configuration target_key scope mask)
  | SetImageToolPaths hex_path temp_dir => set_image_tool_paths hex_path temp_dir
  | ApplySessionChange => discard apply_session_change
  | ConfigureAppResourceProvider provider => configure_app_resource_provider provider
  | RefreshFlashServiceResources => discard refresh_flash_service_resources
  | RecordMemorySuccess cpu_id generation base words read_at =>
      discard (record_memory_read_success cpu_id generation base words read_at)
  | RecordMemoryFailure cpu_id generation error =>
      discard (record_memory_read_failure cpu_id generation error)
  | ClearMemory cpu_id => discard (clear_memory cpu_id)
  | Subscribe listener => subscribe_runtime_v2 listener
  | Unsubscribe listener => unsubscribe_runtime_v2 listener
  end.

(** The requests of [execute] were checked when they were made. *)
Definition call_ok (call : Call) : Prop :=
  match call with Execute _ request _ _ => request_ok request | _ => True end.

Inductive Reachable : State → Prop :=
| reachable_init hex_path temp_dir error : Reachable (Backend_init hex_path temp_dir error)
| reachable_call b e call r w :
    Reachable b → call_ok call → perform call (mkBackendWorld b e) = (r, w) →
    Reachable (bw_backend w).

(** ** Every call leaves the backend idle *)

Definition anywhere : E → Prop := λ _, True.

Lemma respects_anywhere al : Respects anywhere al.
Proof. by constructor. Qed.

Lemma triple_kept {A} (m : M A) ok Q :
  keeps anywhere ok m Q → triple settled m (λ _, settled) settled.
Proof.
  intros Hm. eapply triple_conseq; [apply (triple_keeps _ _ _ _ settled_link Hm)|done|by intros ? ? []|done].
Qed.

Lemma triple_kept_exclusively {A} (m : M A) ok Q :
  keeps anywhere ok m Q → triple (unlocked settled) (exclusively m) (λ _, unlocked settled) (unlocked settled).
Proof.
  intros Hm. by apply triple_exclusively; [apply settled_lock|intros _; apply settled_lock|
    apply settled_lock|eapply triple_kept].
Qed.

Lemma unlocked_settled_link : of_connection (unlocked (settled : State → Prop)).
Proof.
  intros b b' Hl [Hb Hu]. split; [by eapply settled_link|]. by apply of_link in Hl as [-> _].
Qed.

Lemma triple_kept_unlocked {A} (m : M A) ok Q :
  keeps anywhere ok m Q → triple (unlocked settled) m (λ _, unlocked settled) (unlocked settled).
Proof.
  intros Hm. eapply triple_conseq;
    [apply (triple_keeps _ _ _ _ unlocked_settled_link Hm)|done|by intros ? ? []|done].
Qed.

Abbreviation Idle := (unlocked (settled : State → Prop)).
Abbreviation Stays m := (triple Idle m (λ _, Idle) Idle).

Lemma stays_discard {A} (m : M A) : Stays m → Stays (discard m).
Proof. intros Hm. apply (triple_bind _ _ _ (λ _, Idle)); [done|]. intros _. by apply triple_ret. Qed.

Lemma stays_connect task_id request cancellation progress :
  Stays (connect task_id request cancellation progress).
Proof.
  apply triple_exclusively; [apply settled_lock|intros _; apply settled_lock|apply settled_lock|].
  apply triple_read. intros b0 [Ha|[info Hp]].
  - eapply triple_conseq; [apply (triple_connect (generation_of b0))|by intros b ->| |by left].
    intros r b [info ? ? [Hb _]|_ Hb]; [right; by exists info|by left].
  - apply (triple_conseq (λ b, b = b0) (λ b, b = b0) _ (λ _ b, b = b0) _ (λ b, b = b0));
      [|done|intros _ b ->; right; by exists info|intros b ->; right; by exists info].
    assert (∀ message, triple (λ b, b = b0) (connect_settings_failure task_id message : M _)
              (λ _ b, b = b0) (λ b, b = b0)) as Hfail.
    { intros message. eapply triple_conseq; [apply (triple_settings_failure (λ b, b = b0))|done|by intros ? ? []|done]. }
    unfold connect_body. destruct request as [request|]; [|apply Hfail].
    destruct (validate_request request); [|apply Hfail].
    apply (triple_bind _ _ _ (λ s b, b = b0 ∧ s = b0)); [apply triple_self; by intros b ->|].
    intros s. apply triple_read. intros b1 [-> ->]. rewrite (has_session _ _ Hp).
    by apply triple_raise.
Qed.

Lemma stays_close task_id request progress step title :
  Stays (exclusively (close task_id request progress step title)).
Proof.
  apply triple_exclusively; [apply settled_lock|intros _; apply settled_lock|apply settled_lock|].
  apply triple_read. intros b0 Hb0. eapply triple_conseq; [apply (triple_close b0)|done|..].
  - intros r b Hb. by eapply close_end_settled.
  - intros b Hb. by eapply close_failed_settled.
Qed.

Lemma stays_execute task_id request cancellation progress :
  request_ok request → Stays (execute task_id request cancellation progress).
Proof.
  intros Hr. eapply (triple_kept_exclusively _ (λ _, True) (λ _, True)).
  apply (keeps_execute_locked _ (permitted request)); [apply respects_anywhere|done..|by destruct progress|
    by destruct cancellation].
Qed.

Lemma stays_configure provider : Stays (configure_app_resource_provider provider).
Proof.
  apply triple_exclusively; [apply settled_lock|intros _; apply settled_lock|apply settled_lock|].
  apply (triple_bind _ _ _ (λ _, settled)); [by apply triple_self|]. intros b.
  destruct (be_provider b) as [configured|].
  { destruct (_ =? _); [by apply triple_ret|by apply triple_raise]. }
  apply (triple_bind _ _ _ (λ _, settled)).
  { apply triple_set; [done|]. intros b' Hb. by apply (settled_link b'). }
  intros []. eapply (triple_kept _ (λ _, True) (λ _, True)). eapply kept_bind; [by apply keeps_set_service_state|].
  intros _ _. eapply kept_bind; [by apply keeps_refresh_resources|]. intros _ _. by apply kept_ret.
Qed.

Lemma stays_image_tools hex_path temp_dir : Stays (set_image_tool_paths hex_path temp_dir).
Proof.
  intros b e Hs Hb. unfold set_image_tool_paths, wp. rewrite waiting_unlocked by apply Hb.
  eapply (triple_kept_exclusively _ (λ _, True) (λ _, True)); [by apply keeps_image_tools|done..].
Qed.

Lemma stays_listeners f :
  (∀ d, de_store (f d) = de_store d ∧ de_policies (f d) = de_policies d) →
  Stays (set (λ b, with_dispatcher (f (be_dispatcher b)) b) : M _).
Proof.
  intros Hf b e Hs [Hb Hl]. unfold wp. simpl. destruct (Hf (be_dispatcher b)) as [Hst Hp].
  assert (link (with_dispatcher (f (be_dispatcher b)) b) = link b) as Hlk
    by (unfold link, store; simpl; by rewrite Hst).
  split; [|split; [by eapply settled_link|done]].
  unfold store_ok, store in *. simpl. by rewrite Hst, Hp.
Qed.

Lemma stays_locked {A} (m : M A) :
  keeps anywhere (λ _, True) m (λ _, True) → Stays (exclusively m).
Proof. apply triple_kept_exclusively. Qed.

Lemma stays_unlocked {A} (m : M A) : keeps anywhere (λ _, True) m (λ _, True) → Stays m.
Proof. apply triple_kept_unlocked. Qed.

Lemma stays_perform call : call_ok call → Stays (perform call).
Proof.
  intros Hc. destruct call; simpl;
    first [apply stays_discard|apply stays_image_tools|apply stays_configure|idtac].
  - apply stays_connect.
  - apply stays_close.
  - apply stays_close.
  - by apply stays_execute.
  - apply stays_unlocked, (keeps_maintenance_ping _ forbidden); [apply respects_anywhere|done].
  - unfold set_image_path. apply (triple_bind _ _ _ (λ _, Idle)); [by apply triple_lift|]. intros cpu_id.
    by apply stays_locked, keeps_set_image_path.
  - apply stays_locked. by keep.
  - apply stays_locked. by keep.
  - unfold set_erase_configuration. apply (triple_bind _ _ _ (λ _, Idle)).
    { apply stays_unlocked, (keeps_validate_erase _ forbidden). apply respects_anywhere. }
    intros _. apply (triple_bind _ _ _ (λ _, Idle)); [by apply triple_lift|]. intros cpu_id.
    by apply stays_locked, keeps_quiet.
  - by apply stays_locked, keeps_session_change.
  - by apply stays_locked, keeps_refresh_resources.
  - by apply stays_unlocked, keeps_memory.
  - by apply stays_unlocked, keeps_memory.
  - by apply stays_unlocked, keeps_memory.
  - apply (stays_listeners (λ d, (subscribe listener d).2)). intros d. simpl.
    by destruct (existsb _ _).
  - apply (stays_listeners (λ d, (unsubscribe listener d).2)). by intros d.
Qed.

Lemma init_idle hex_path temp_dir error : store_ok (Backend_init hex_path temp_dir error : State) ∧
  Idle (Backend_init hex_path temp_dir error).
Proof.
  split; [split; [apply initial_ok|done]|]. split; [|done]. left. by constructor.
Qed.

Lemma reachable_idle b : Reachable b → store_ok b ∧ Idle b.
Proof.
  induction 1 as [|b e call r w _ [Hs Hb] Hc Hrun]; [apply init_idle|].
  pose proof (wp_run _ _ _ _ _ _ (stays_perform call Hc b e Hs Hb) Hrun) as Hw. by destruct r.
Qed.
End calls.

(** * A backend at work

    A target that answers every operation with success, and the backend with
    it through a connection, the preparation of an image and of the Flash
    service, a verification and the record of a valid image.  The witnesses of
    the backend's properties run on these states. *)

(** ** The surroundings *)

(** Paths are resolved already. *)
#[export] Instance example_paths : Paths := {
  resolve_path p := Ok p;
  resolve_resolved _ _ _ := eq_refl;
}.

(** Whether closing fails, and what was asked of the target. *)
Record Wires : Set := mkWires {
  wi_close_fails : bool;
  wi_calls : list string;
}.

Definition example_time : datetime := mkDatetime 1000 (Some 0).

Definition asked (call : string) : ST Wires unit :=
  modify (λ w, mkWires (wi_close_fails w) (wi_calls w ++ [call])).

Definition ok_result (operation : string) (summary : Dict) : OperationResult :=
  mkResult true operation (tp_name CPU1_PROFILE) operation summary [] None None None
    (Some OperationCompletion.SUCCEEDED) None.

(** An operation that the target finishes at once. *)
Definition answered (operation : string) (summary : Dict) : ST Wires (option OperationResult) :=
  asked operation ;;; ret (Some (ok_result operation summary)).
Definition beside {A} (m : ST Wires A) : ST (OpEnv Wires) A := λ s,
  let '(r, e) := m (oe_env s) in (r, mkOpEnv e (oe_last_update s)).

Definition example_metadata : MetadataSummary :=
  mkMetadataSummary 1 0 1 0 0 3 0 0 0 0 0x082400 0x5678 2 1 0 15 15 1 16 0x377D 1.

Definition example_ram_image : PreparedRamImage := mkPreparedRam image_example 0x8000 16 0x9ABC.

Definition flash_call_name (call : FlashCall) : string :=
  match call with
  | EraseImageArea _ => "erase_image_area"
  | EraseSectors _ => "erase_sectors"
  | ProgramImage _ => "program"
  | VerifyImage _ => "verify"
  end.

Definition append_call_name (call : AppendCall) : string :=
  match call with
  | AppendImageValid _ => "image_valid"
  | AppendBootAttempt => "boot_attempt"
  | AppendAppConfirmed => "app_confirmed"
  end.

#[export] Instance example_ports : Ports Wires nat nat := {
  transport_factory _ := ret 0%nat;
  session_factory t := ret t;
  session_connect _ _ := ret (Some (mkOpenResult OPENED false "OPEN"));
  session_ping _ := ret tt;
  session_transport s := Some s;
  close_method _ := Some (λ w, (if wi_close_fails w then Raise (Err OSError (Lit "busy")) else Ok tt, w));
  discovery_operation _ := ret (Some (mkDiscovery (ok_result "discover_target" [])
    (Some (mkDiscovered example_device_info CPU1_PROFILE "cpu1"))));
  uuid4_hex := ret "c0ffee"%string;
  now_utc := ret example_time;
  maintenance_clock := ret example_time;
  maintenance_scheduler _ _ := ret tt;
  device_info_operation _ _ := answered "get_device_info" (DeviceInfo_dict example_device_info);
  protocol_info_operation _ _ := answered "get_protocol_info" (ProtocolInfo_dict example_protocol_info);
  last_error_operation _ _ := answered "get_last_error" [];
  metadata_operation _ _ :=
    r <- answered "get_metadata_summary" (MetadataSummary_dict example_metadata) ;;
    ret (match r with Some result => ReturnedResult result | None => ReturnedNone end);
  memory_read_operation _ _ _ _ r := beside (
    asked "memory_read" ;;;
    ret (Some (mkResult true "memory_read" (tp_name CPU1_PROFILE) "memory_read" []
      [("words"%string, VSeq (replicate (Z.to_nat (rq_word_count r)) (VInt 7)))] None None None
      (Some OperationCompletion.SUCCEEDED) None)));
  target_profile_resolver key := ret (target_profile_for_key key);
  prepare_ram_operation _ _ _ := ret (Some example_ram_image);
  load_ram_operation _ _ _ _ _ := beside (answered "load_ram" []);
  check_ram_crc_operation _ _ _ := answered "check_ram_crc" [];
  run_ram_operation _ _ _ := answered "run_ram" [];
  run_flash_operation _ _ _ := answered "run_flash" [];
  flash_operation _ _ _ _ _ call := beside (answered (flash_call_name call) []);
  append_operation _ _ _ _ _ call := beside (answered (append_call_name call) []);
  prepare_flash_operation _ _ _ := ret (Some example_image);
  prepare_service_operation _ _ _ _ _ _ := ret (Some example_service);
  path_stat _ := ret (mkStat true 100 1);
  locate_hex2000 _ := raise (Err Hex2000NotFoundError (Lit "no converter"));
  workspace_enter path _ := ret path;
  workspace_exit := ret tt;
}.

Definition example_provider : AppResourceProvider Wires :=
  mkProvider 1 "ExampleProvider" (ret (Some "/svc.txt"%string)) (ret (Some "/svc.map"%string)).

(** ** A run *)

Abbreviation ExampleBackend := (Backend Wires nat nat).
Abbreviation ExampleWorld := (BackendWorld Wires nat nat).

Definition example_start : ExampleWorld :=
  mkBackendWorld (Backend_init EmptyString EmptyString None) (mkWires false []).

Definition example_connect : SerialConnectRequest := mkConnect "COM3" 9600 1000 1000 5000.

Definition example_flash_fields (summary : PreparedFlashServiceSummary) : FlashRequestFields :=
  mkFlashFields "c0ffee" "cpu1" "/app.txt" 1 0 (pf_identity example_image)
    (pf_sector_mask example_image) 2 0 (mkGeneration 1) summary.

Definition example_evidence : VerifyEvidence :=
  mkVerifyEvidence CPU1 (mkGeneration 1) (pf_identity example_image) "t4".

Definition example_image_valid (summary : PreparedFlashServiceSummary) : MetadataRequest :=
  WriteAdvancedImageValidRequest
    (mkMetadataFields "c0ffee" "cpu1" 2 0 (mkGeneration 1) summary)
    (mkImageValidFields "/app.txt" 1 0 (pf_identity example_image) (pf_sector_mask example_image)
       example_evidence).

(** The summary of the service, once it is prepared. *)
Definition example_file (path : string) : SourceFileFingerprint := mkFingerprint path 100 1.
Definition example_summary_of_service : PreparedFlashServiceSummary :=
  mkServiceSummary "cpu1" "ExampleProvider" "/svc.txt" "/svc.map" DEFAULT_SERVICE_HEADER_SYMBOL 2 0
    ImageSourceKind.TXT (example_file "/svc.txt") (example_file "/svc.map") 0x010000 16 0x1234 7
    Hex2000Source.NOT_USED None.

Definition example_calls : list (Call (E := Wires)) :=
  [ConfigureAppResourceProvider example_provider;
   Connect "t1" (Some example_connect) None None;
   SetImagePath ProgramSelection "cpu1" "/app.txt";
   Execute "t2" (PrepareFlashTask (mkPrepareFlash "cpu1" "/app.txt" 1)) None None;
   Execute "t3" (PrepareServiceTask (mkPrepareService 2 0 "cpu1" true)) None None].

Definition example_verify : Call (E := Wires) :=
  Execute "t4" (FlashTask (VerifyAdvancedFlashRequest
    (example_flash_fields example_summary_of_service))) None None.

(** The world after some calls. *)
Fixpoint after_calls (calls : list (Call (E := Wires))) (w : ExampleWorld) : ExampleWorld :=
  match calls with
  | [] => w
  | call :: calls => after_calls calls (perform call w).2
  end.

Definition example_prepared : ExampleWorld := after_calls example_calls example_start.
Definition example_verified : ExampleWorld := after_calls [example_verify] example_prepared.
