(* ===== verification/BackendReads.v ===== *)
(** Refused requests of the runtime backend, then what a successful preparation
    leaves. *)

(** * What the runtime backend only reads

    [reads pre m Q]: from a well-formed state that satisfies [pre], [m] changes
    neither the backend nor the environment, and what it returns satisfies
    [Q].  The checks at the start of the operations are of this kind: a request
    that they refuse has no effect. *)

From stdpp Require Import gmap.
From S2P Require Import Prelude.
From S2P Require Import Errors.
From S2P Require Import TaskPlans.
From S2P Require Import Targets.
From S2P Require Import OperationResults.
From S2P Require Import StatusModels.
From S2P Require Import RuntimeValues.
From S2P Require Import RuntimeModels.
From S2P Require Import CommandExecutor.
From S2P Require Import ImageRequests.
From S2P Require Import OperationRequests.
From S2P Require Import TaskModels.
From S2P Require Import RuntimeStore.
From S2P Require Import RuntimeDispatch.
From S2P Require Import RuntimeTable.
From S2P Require Import RuntimeInvariant.
From S2P Require Import RuntimeProperties.
From S2P Require Import Backend.
From S2P Require Import BackendConnection.
From S2P Require Import BackendSelection.
From S2P Require Import BackendImages.
From S2P Require Import BackendStatus.
From S2P Require Import BackendRam.
From S2P Require Import BackendFlash.
From S2P Require Import BackendExecute.
From S2P Require Import BackendInvariant.
From S2P Require Import BackendKeeps.
From S2P Require Import BackendWrites.
From S2P Require Import BackendLifecycle.
From S2P Require Import BackendCalls.
From S2P Require Import BackendReachable.

Section reads.
Context {E Session Transport : Type}.

Abbreviation M := (B E Session Transport).
Abbreviation State := (Backend E Session Transport).

(** ** The rules *)

Definition reads {A} (pre : State → Prop) (m : M A) (Q : State → A → Prop) : Prop :=
  ∀ b e, store_ok b → pre b →
    ∃ r, m (mkBackendWorld b e) = (r, mkBackendWorld b e) ∧ ∀ a, r = Ok a → Q b a.

Lemma reads_conseq {A} (pre : State → Prop) (m : M A) (Q Q' : State → A → Prop) :
  reads pre m Q → (∀ b a, Q b a → Q' b a) → reads pre m Q'.
Proof. intros Hm HQ b e Hs Hb. destruct (Hm b e Hs Hb) as (r & ? & ?). eauto. Qed.

Lemma reads_bind {A C} (pre : State → Prop) (m : M A) (k : A → M C) Q P :
  reads pre m Q → (∀ a, reads (λ b, pre b ∧ Q b a) (k a) P) → reads pre (bind m k) P.
Proof.
  intros Hm Hk b e Hs Hb. destruct (Hm b e Hs Hb) as (r & Hr & HQ). unfold bind. rewrite Hr.
  destruct r as [a|exc]; [apply Hk; auto|]. by exists (Raise exc).
Qed.

Lemma reads_ret {A} (pre : State → Prop) (a : A) (Q : State → A → Prop) :
  (∀ b, pre b → Q b a) → reads pre (ret a : M A) Q.
Proof. intros HQ b e Hs Hb. exists (Ok a). split; [done|]. intros ? [= <-]. auto. Qed.

Lemma reads_raise {A} (pre : State → Prop) exc (Q : State → A → Prop) :
  reads pre (raise exc : M A) Q.
Proof. intros b e Hs Hb. by exists (Raise exc). Qed.

Lemma reads_lift {A} (pre : State → Prop) (r : Res A) (Q : State → A → Prop) :
  (∀ b a, pre b → r = Ok a → Q b a) → reads pre (lift r : M A) Q.
Proof. intros HQ b e Hs Hb. exists r. eauto. Qed.

Lemma reads_self (pre : State → Prop) Q : (∀ b, pre b → Q b b) → reads pre (self : M _) Q.
Proof. intros HQ b e Hs Hb. exists (Ok b). split; [done|]. intros ? [= <-]. auto. Qed.

Lemma reads_snapshot (pre : State → Prop) Q :
  (∀ b, pre b → Q b (store b)) → reads pre (runtime_v2_snapshot : M _) Q.
Proof.
  intros HQ b e Hs Hb. exists (Ok (store b)). split; [by apply snapshot_run|].
  intros ? [= <-]. auto.
Qed.

Lemma reads_catch {A} (pre : State → Prop) (m : M A) h Q :
  reads pre m Q → (∀ exc, reads pre (h exc) Q) → reads pre (catch m h) Q.
Proof.
  intros Hm Hh b e Hs Hb. destruct (Hm b e Hs Hb) as (r & Hr & HQ). unfold catch. rewrite Hr.
  destruct r as [a|exc]; [by exists (Ok a)|]. by apply Hh.
Qed.

End reads.

(** ** The automation *)

Ltac read_step :=
  lazymatch goal with
  | |- reads _ (bind (lift ?r) _) _ =>
      apply (reads_bind _ _ _ (λ _ a, r = Ok a)); [apply reads_lift; by auto|intros ?]
  | |- reads _ (bind self _) _ => apply (reads_bind _ _ _ (λ b s, s = b)); [by apply reads_self|intros ?]
  | |- reads _ (bind runtime_v2_snapshot _) _ =>
      apply (reads_bind _ _ _ (λ b s, s = store b)); [by apply reads_snapshot|intros ?]
  | |- reads _ (bind _ _) _ => eapply reads_bind; [|intros ?]
  | |- reads _ (ret _) _ => apply reads_ret
  | |- reads _ (raise _) _ => apply reads_raise
  | |- reads _ (lift _) _ => apply reads_lift
  | |- reads _ (catch _ _) _ => apply reads_catch; [|intros ?]
  | |- reads _ (match ?x with _ => _ end) _ => destruct x eqn:?
  end.

Section checks.
Context {E Session Transport : Type} `{EqDecision Session} `{EqDecision Transport}
  `{Ports E Session Transport} `{Paths}.

Abbreviation M := (B E Session Transport).
Abbreviation State := (Backend E Session Transport).

(** ** Stale requests *)

(** The connection of the backend has another identity, or there is none. *)
Definition other_connection (connection_id : string) (b : State) : Prop :=
  ∀ info, be_connection_info b = Some info → ci_connection_id info <> connection_id.

Lemma status_connection_stale b e connection_id :
  store_ok b → other_connection connection_id b →
  status_connection connection_id None (mkBackendWorld b e : BackendWorld E Session Transport) =
    (Ok None, mkBackendWorld b e).
Proof.
  intros Hs Ho. unfold status_connection, active_target_context, bind, self, gets, ret.
  rewrite snapshot_run by done. simpl. do 2 f_equal.
  destruct (be_session b); [|done]. destruct (rv_connection (store b)) as [c|]; [|done].
  destruct (be_connection_info b) as [info|] eqn:Hi; [|done]. destruct (be_target b); [|done].
  destruct (be_device_info b); [|done]. destruct (from_target_key _); [|done].
  destruct (_ !! _); [|done]. destruct (bool_decide (cr_connection_id c = ci_connection_id info)) eqn:Hid;
    [|done]. apply bool_decide_eq_true in Hid. simpl. destruct (_ && _); [|done].
  destruct (be_executor b); [|done]. simpl. rewrite bool_decide_eq_false_2; [done|].
  rewrite Hid. by apply Ho.
Qed.

(** The connection that a request of the backend names. *)
Definition request_connection (request : BackendRequest) : option string :=
  match request with
  | MemoryTask r => Some (mf_connection_id r)
  | StatusTask r => Some (sr_connection_id r)
  | RunFlashTask r => Some (rf_connection_id r)
  | RamTask r => Some (ram_connection_id r)
  | FlashTask r => Some (ff_connection_id (flash_fields r))
  | MetadataTask r => Some (mq_connection_id (metadata_fields r))
  | _ => None
  end.

(** A failed result is always made. *)
Lemma failed_result_run task_id code message stage summary recoverable details results domain :
  ∃ r error,
    failed_result task_id code message stage summary recoverable details results domain = Ok r ∧
    te_status r = TaskFinalStatus.FAILED ∧ te_error r = Some error ∧ ge_code error = code.
Proof.
  unfold failed_result, GuiRuntimeError_post_init, TaskExecutionResult_post_init. simpl.
  rewrite (bool_decide_eq_true_2 (task_id = task_id)) by done. simpl.
  eexists _, _. split; [reflexivity|]. done.
Qed.

Lemma execute_request_stale task_id request connection_id cancellation progress b e :
  store_ok b → request_connection request = Some connection_id → other_connection connection_id b →
  ∃ r error,
    execute_request task_id request cancellation progress
      (mkBackendWorld b e : BackendWorld E Session Transport) = (Ok r, mkBackendWorld b e) ∧
    te_status r = TaskFinalStatus.FAILED ∧ te_error r = Some error ∧
    ge_code error = "STALE_CONNECTION"%string.
Proof.
  intros Hs Hr Ho.
  assert (∀ A (k : option (Captured Session) → M A),
    bind (status_connection connection_id None) k (mkBackendWorld b e) = k None (mkBackendWorld b e)) as Hk.
  { intros A k. unfold bind. by rewrite status_connection_stale. }
  assert (∀ code message stage summary details results domain, code = "STALE_CONNECTION"%string →
    ∃ r error,
      lift (failed_result task_id code message stage summary true details results domain)
        (mkBackendWorld b e : BackendWorld E Session Transport) = (Ok r, mkBackendWorld b e) ∧
      te_status r = TaskFinalStatus.FAILED ∧ te_error r = Some error ∧
      ge_code error = "STALE_CONNECTION"%string) as Hf.
  { intros code message stage summary details results domain ->.
    destruct (failed_result_run task_id "STALE_CONNECTION" message stage summary true details
      results domain) as (r & error & Hrun & Hrest). exists r, error. unfold lift. by rewrite Hrun. }
  destruct request as [r|[]|r|r|r|r|r|r|r|name|name]; try done; injection Hr as <-; simpl;
    unfold execute_memory_read, read_metadata_status, read_device_info_status,
      read_protocol_info_status, read_last_error_status, read_diagnostic,
      execute_advanced_flash_app_run, execute_ram_operation, execute_advanced_flash_operation,
      execute_advanced_metadata_operation; simpl; rewrite Hk; by apply Hf.
Qed.

(** ** Requests of IMAGE_VALID without evidence *)

Lemma reads_status_connection (pre : State → Prop) connection_id expected :
  reads pre (status_connection connection_id expected : M _) (λ _ _, True).
Proof.
  intros b e Hs _. destruct (status_connection_run b e connection_id expected Hs) as (c & Hc & _).
  by exists (Ok c).
Qed.

Lemma reads_target_resource (pre : State → Prop) cpu_id :
  reads pre (target_resource_of cpu_id : M _) (λ _ _, True).
Proof. unfold target_resource_of. repeat read_step; done. Qed.

Lemma reads_current_revision (pre : State → Prop) which cpu_id :
  reads pre (current_revision which cpu_id : M _) (λ _ _, True).
Proof. unfold current_revision. repeat read_step; done. Qed.

Lemma reads_image_revision (pre : State → Prop) which target_key :
  reads pre (image_revision which target_key : M _) (λ _ _, True).
Proof. unfold image_revision. read_step. apply reads_current_revision. Qed.

Lemma reads_program_state (pre : State → Prop) expected :
  reads pre (program_operation_state expected : M _) (λ _ _, True).
Proof.
  unfold program_operation_state. read_step. read_step; [apply reads_target_resource|].
  read_step; [instantiate (1 := λ _ _, True); repeat read_step; done|].
  read_step; [apply reads_current_revision|]. repeat read_step; done.
Qed.

(** The evidence that a request names is the evidence of the store. *)
Definition evidence_there (f : MetadataRequestFields) (i : ImageValidFields) (b : State) : Prop :=
  ∃ cpu_id, from_target_key (mq_target_key f) = Ok cpu_id ∧
    verify_of b cpu_id = Some (iv_expected_verify_evidence i).

Lemma reads_evidence_matches (pre : State → Prop) f i identity :
  reads pre (verify_evidence_matches f i identity : M _) (λ b r, r = true → evidence_there f i b).
Proof.
  unfold verify_evidence_matches. apply reads_catch; [|intros exc; by repeat read_step].
  read_step. read_step. read_step; [apply reads_image_revision|]. read_step.
  apply reads_ret. intros b ((((_ & Hk) & ->) & _) & ->) Hr. exists a. split; [done|].
  unfold verify_of. destruct (rv_target_resources (store b) !! a) as [resource|]; [|done]. simpl.
  repeat (apply andb_true_iff in Hr as [Hr ?]).
  by repeat match goal with Hd : bool_decide _ = true |- _ => apply bool_decide_eq_true in Hd end.
Qed.

Definition refused {A} (f : Flow A) : Prop :=
  match f with Return r => te_status r = TaskFinalStatus.FAILED | Continue _ => False end.

Lemma reads_failure {A} (pre : State → Prop) task_id problem request :
  reads pre (return_failure (metadata_request_failure task_id problem request) : M (Flow A))
    (λ _, refused).
Proof.
  unfold return_failure. read_step. apply reads_ret. intros b [_ Hr].
  by eapply failed_result_status.
Qed.

Lemma reads_check_metadata task_id f i captured cpu_id :
  reads (λ b, ¬ evidence_there f i b)
    (check_metadata_request task_id (WriteAdvancedImageValidRequest f i) captured cpu_id : M _)
    (λ _, refused).
Proof.
  unfold check_metadata_request. read_step. read_step; [apply reads_failure|].
  read_step; [apply reads_failure|]. apply (reads_bind _ _ _ (λ _ _, True)).
  { simpl. read_step; [apply reads_program_state|]. by apply reads_ret. }
  intros state.
  read_step. read_step; [|apply reads_failure]. read_step; [apply reads_failure|]. simpl.
  read_step; [apply reads_evidence_matches|]. read_step; [|apply reads_failure].
  apply reads_ret. intros b [[[[Hn _] _] _] Hr]. by apply Hn, Hr.
Qed.

Lemma reads_image_valid_refused task_id f i cancellation progress :
  reads (λ b, ¬ evidence_there f i b)
    (execute_advanced_metadata_operation task_id (WriteAdvancedImageValidRequest f i) cancellation
       progress : M _)
    (λ _ r, te_status r = TaskFinalStatus.FAILED).
Proof.
  assert (∀ pre problem, reads pre (lift (metadata_request_failure task_id problem
            (WriteAdvancedImageValidRequest f i)) : M _)
            (λ _ r, te_status r = TaskFinalStatus.FAILED)) as Hf.
  { intros pre problem. apply reads_lift. intros b r _ Hr. by eapply failed_result_status. }
  unfold execute_advanced_metadata_operation. read_step; [apply reads_status_connection|].
  read_step; [|apply Hf]. read_step; [|apply Hf].
  eapply reads_bind.
  { intros b e Hs [Hn _]. by apply reads_check_metadata. }
  intros [r|state]; [|intros b e _ [_ []]]. apply reads_ret. by intros b [].
Qed.
End checks.

(** * What a successful preparation leaves

    The triple of the preparation of a program image: a task that succeeds has
    committed the image that its result describes. *)

Section prepared.
Context {E Session Transport : Type} `{EqDecision Session} `{EqDecision Transport}
  `{Ports E Session Transport} `{Paths}.

Abbreviation M := (B E Session Transport).
Abbreviation State := (Backend E Session Transport).
Abbreviation Anything := (λ _ : State, True).

(** The target has the image of the summary ready, at the revision of the
    request. *)
Definition image_committed (request : PrepareFlashImageRequest) (summary : PreparedImageSummary)
    (b : State) : Prop :=
  ∃ cpu_id resource image,
    from_target_key (pfr_target_key request) = Ok cpu_id ∧
    rv_target_resources (store b) !! cpu_id = Some resource ∧
    tr_program_image_parse_status resource = ImageParseStatus.READY ∧
    tr_program_image_summary resource = Some image ∧
    be_program_image_revisions b !! cpu_id = Some (pfr_selection_revision request) ∧
    ii_entry_point (fs_identity image) = is_entry_point summary ∧
    ii_image_size_words (fs_identity image) = is_image_size_words summary ∧
    ii_image_crc32 (fs_identity image) = is_image_crc32 summary ∧
    ii_app_end (fs_identity image) = is_app_end summary ∧
    fs_sector_mask image = is_effective_sector_mask summary.

(** Whatever the state is, only the value matters. *)
Lemma triple_value {A} (m : M A) ok Q :
  keeps anywhere ok m Q → triple Anything m (λ a _, Q a) Anything.
Proof.
  intros Hm. eapply triple_conseq; [apply (triple_keeps m ok Q Anything)|done|by intros ? ? []|done].
  - done.
  - done.
Qed.

Lemma triple_any {A} (m : M A) :
  keeps anywhere (λ _, True) m (λ _, True) → triple Anything m (λ _, Anything) Anything.
Proof. apply triple_value. Qed.

Lemma FlashImageSummary_same i i' : FlashImageSummary_post_init i = Ok i' → i' = i.
Proof. unfold FlashImageSummary_post_init. intros Hi. by checks. Qed.

Lemma program_image_row_ready path summary resource :
  let r := program_image_row path (Some summary) ImageParseStatus.READY None resource in
  tr_program_image_parse_status r = ImageParseStatus.READY ∧
  tr_program_image_summary r = Some summary.
Proof. unfold program_image_row. repeat case_match; done. Qed.

Lemma revision_of_Ok cpu_id (revisions : gmap RuntimeCpuId Z) r :
  revision_of cpu_id revisions = Ok r → revisions !! cpu_id = Some r.
Proof. unfold revision_of. destruct (_ !! _); [by intros [= ->]|done]. Qed.

(** The revision stays between its reading and the commit. *)
Definition at_revision (cpu_id : RuntimeCpuId) (revision : Z) (b : State) : Prop :=
  be_program_image_revisions b !! cpu_id = Some revision.

Lemma triple_read_revision cpu_id :
  triple Anything (current_revision ProgramSelection cpu_id : M _)
    (λ r b, at_revision cpu_id r b) Anything.
Proof.
  unfold current_revision. apply (triple_bind _ _ _ (λ s b, s = b)); [by apply triple_self|].
  intros s. apply triple_lift; [|done]. intros r b Hr <-. by apply revision_of_Ok.
Qed.

Lemma triple_commit cpu_id request request_path prepared summary :
  from_target_key (pfr_target_key request) = Ok cpu_id →
  is_entry_point summary = ii_entry_point (pf_identity prepared) →
  is_image_size_words summary = ii_image_size_words (pf_identity prepared) →
  is_image_crc32 summary = ii_image_crc32 (pf_identity prepared) →
  is_app_end summary = ii_app_end (pf_identity prepared) →
  is_effective_sector_mask summary = pf_sector_mask prepared →
  triple Anything (commit_program_image cpu_id request request_path prepared : M _)
    (λ _, image_committed request summary) Anything.
Proof.
  intros Hk He Hw Hc Ha Hm. unfold commit_program_image.
  apply (triple_bind _ _ _ (λ _, Anything)); [by apply triple_any, keeps_target_resource|].
  intros current. eapply triple_bind; [apply triple_read_revision|]. intros revision.
  set (P := at_revision cpu_id revision).
  apply (triple_bind _ _ _ (λ unchanged b, P b ∧
    (unchanged = true → revision = pfr_selection_revision request))).
  { destruct (negb _) eqn:Hr; [by apply triple_ret|]. apply negb_false_iff, Z.eqb_eq in Hr.
    apply (triple_bind _ _ _ (λ _, P)); [by apply triple_lift|]. intros path. by apply triple_ret. }
  intros unchanged. destruct unchanged; [|by apply triple_raise]. simpl negb.
  apply triple_read. intros b0 [Hb0 Hr]. specialize (Hr eq_refl).
  apply (triple_bind _ _ _ (λ i b, P b ∧ i = mkFlashSummary (pf_identity prepared) (pf_sector_mask prepared))).
  { apply triple_lift; [|done]. intros i b Hi ->. split; [done|]. by apply FlashImageSummary_same. }
  intros i. apply triple_read. intros b1 [Hb1 ->].
  apply (triple_bind _ _ _ (λ _, image_committed request summary)); [|intros _; by apply triple_ret].
  intros b e Hs ->. destruct (ok_resources _ (proj1 Hs) cpu_id) as (resource & Hres & _).
  refine (triple_dispatch _ (λ b, b = b1) (λ _, image_committed request summary) Anything _ _ _
    b1 e Hs eq_refl); [done|done|]. intros b s' -> Heff.
  injection Heff as <-. set (image := mkFlashSummary (pf_identity prepared) (pf_sector_mask prepared)).
  destruct (program_image_row_ready (tr_program_image_path current) image resource) as [Hst Hsum].
  eexists cpu_id, _, image. split; [done|]. split; [|split; [exact Hst|split; [exact Hsum|]]].
  - change (store (with_store ?s _)) with s. simpl. by rewrite lookup_alter_eq, Hres.
  - split; [|by split_and!]. unfold P, at_revision in Hb1. simpl. by rewrite Hb1, Hr.
Qed.

(** What the checks of a summary leave as it is. *)
Lemma image_summary_numbers s s' :
  PreparedImageSummary_post_init s = Ok s' →
  is_entry_point s' = is_entry_point s ∧ is_image_size_words s' = is_image_size_words s ∧
  is_image_crc32 s' = is_image_crc32 s ∧ is_app_end s' = is_app_end s ∧
  is_effective_sector_mask s' = is_effective_sector_mask s.
Proof. unfold PreparedImageSummary_post_init. intros Hs. checks. by subst s'. Qed.

Lemma triple_prepare_flash task_id request progress :
  triple Anything (prepare_flash_image task_id request progress : M _)
    (λ r b, ∃ summary, te_payload r = FlashImagePayload summary ∧ image_committed request summary b)
    Anything.
Proof.
  pose proof (respects_anywhere forbidden) as HR.
  assert (progress_ok anywhere progress) as Hp by (by destruct progress).
  unfold prepare_flash_image. apply (triple_bind _ _ _ (λ cpu_id _,
    from_target_key (pfr_target_key request) = Ok cpu_id)); [by apply triple_lift|].
  intros cpu_id. apply triple_read. intros b0 Hk.
  eapply (triple_conseq Anything); [|done|intros r b Hr; exact Hr|done].
  apply (triple_bind _ _ _ (λ _, Anything)); [by apply triple_any, keeps_target_resource|]. intros _.
  apply (triple_bind _ _ _ (λ _, Anything)); [by apply triple_any; unfold requested_path; keep|].
  intros request_path.
  apply (triple_bind _ _ _ (λ _, Anything)); [by apply triple_any, keeps_adopt_program_image|].
  intros resource.
  apply (triple_bind _ _ _ (λ _, Anything)); [by apply triple_any, keeps_begin_program|].
  intros []. apply (triple_bind _ _ _ (λ _, Anything)); [by apply triple_any, keeps_publish_step|].
  intros []. apply (triple_bind _ _ _ (λ _, Anything)).
  { by apply triple_any, (keeps_resolve_target_profile _ _ HR). }
  intros profile. apply (triple_bind _ _ _ (λ _, Anything)).
  { eapply triple_any, keeps_conseq; [by apply (keeps_materialize_flash_app _ _ HR)|done]. }
  intros [prepared origin]. eapply triple_bind; [apply (triple_lift _ Anything
    (λ summary _, build_image_summary request prepared origin = Ok summary)); done|].
  intros summary. apply triple_read. intros b1 Hs.
  eapply (triple_conseq Anything); [|done|intros r b Hr; exact Hr|done].
  apply (triple_bind _ _ _ (λ _, Anything)); [by apply triple_any, keeps_publish_step|].
  intros []. eapply triple_bind; [apply (triple_lift _ Anything
    (λ r _, te_payload r = FlashImagePayload summary)); [|done]|].
  { intros r b Hr _. by eapply task_succeeded_same. }
  intros r. apply triple_read. intros b2 Hr.
  apply (triple_bind _ _ _ (λ _, image_committed request summary)).
  - unfold build_image_summary in Hs. apply image_summary_numbers in Hs as (? & ? & ? & ? & ?).
    eapply (triple_conseq Anything); [by apply triple_commit|done..].
  - intros []. apply triple_ret. intros b Hb. by exists summary.
Qed.
End prepared.
