(* ===== verification/BackendProperties.v ===== *)
(** * The contracts of the runtime backend

    What callers rely on: the states between calls, how connecting and
    disconnecting end, that a task asks nothing of the target but what its
    request names, and that evidence of a verification is the target's. *)

From stdpp Require Import gmap.
From S2P Require Import Prelude.
From S2P Require Import Errors.
From S2P Require Import Messages.
From S2P Require Import TaskPlans.
From S2P Require Import Models.
From S2P Require Import Targets.
From S2P Require Import BootClient.
From S2P Require Import OperationResults.
From S2P Require Import StatusModels.
From S2P Require Import RuntimeValues.
From S2P Require Import RuntimeModels.
From S2P Require Import CommandExecutor.
From S2P Require Import ImageRequests.
From S2P Require Import OperationRequests.
From S2P Require Import TaskModels.
From S2P Require Import RuntimeStore.
From S2P Require Import RuntimeDispatch.
From S2P Require Import RuntimeTable.
From S2P Require Import RuntimeProperties.
From S2P Require Import OperationProperties.
From S2P Require Import Backend.
From S2P Require Import BackendConnection.
From S2P Require Import BackendSelection.
From S2P Require Import BackendImages.
From S2P Require Import BackendStatus.
From S2P Require Import BackendFlash.
From S2P Require Import BackendExecute.
From S2P Require Import BackendInvariant.
From S2P Require Import BackendKeeps.
From S2P Require Import BackendWrites.
From S2P Require Import BackendLifecycle.
From S2P Require Import BackendCalls.
From S2P Require Import BackendReachable.
From S2P Require Import BackendReads.

(** ** The states of the example are reachable *)

Lemma reachable_calls calls w :
  Forall call_ok calls → Reachable (bw_backend w) → Reachable (bw_backend (after_calls calls w)).
Proof.
  intros Hc. revert w. induction Hc as [|call calls Hc _ IH]; intros w Hw; [done|]. simpl. apply IH.
  destruct w as [b e]. by eapply (reachable_call b e call); [..|apply surjective_pairing].
Qed.

Lemma example_start_reachable : Reachable (bw_backend example_start).
Proof. exact (reachable_init EmptyString EmptyString None). Qed.

Lemma example_prepared_reachable : Reachable (bw_backend example_prepared).
Proof.
  unfold example_prepared. apply reachable_calls; [|apply example_start_reachable].
  unfold example_calls. by repeat constructor.
Qed.

Lemma example_verified_reachable : Reachable (bw_backend example_verified).
Proof.
  unfold example_verified. apply reachable_calls; [|apply example_prepared_reachable].
  by constructor.
Qed.

Section properties.
Context {E Session Transport : Type} `{EqDecision Session} `{EqDecision Transport}
  `{Ports E Session Transport} `{Paths}.

Abbreviation State := (Backend E Session Transport).

(** ** Connecting and disconnecting *)

(** C29: Whatever methods of the backend are called, with any arguments and
    whatever the injected callables do, return or raise, between two calls the
    lock is free, the runtime state is well-formed, and the backend has either
    no part of a connection or all of it: the session and its transport, the
    target, the device information, an idle executor of the generation of the
    runtime state, and in the runtime state the connection of
    [connection_info]. *)
Theorem backend_lifecycle (b : State) :
  Reachable b →
  be_locked b = false ∧ runtime_ok (store b) ∧ (absent b ∨ ∃ info, present info b).
Proof. intros Hb. apply reachable_idle in Hb as [[Hs _] [Hb Hl]]. by split_and!. Qed.

(** A settled call of [exclusively], from a reachable state. *)
Lemma exclusively_from {A} (m : B E Session Transport A) (P : State → Prop) Q R b e :
  Reachable b → P (with_locked true b) → triple P m Q R →
  let '(r, w) := exclusively m (mkBackendWorld b e) in
  ∃ b', bw_backend w = with_locked false b' ∧
    match r with Ok a => Q a b' | Raise _ => R b' end.
Proof.
  intros Hb HP Hm. destruct (reachable_idle b Hb) as [Hs [_ Hl]]. rewrite exclusively_run by done.
  specialize (Hm (with_locked true b) e Hs HP). unfold wp in Hm.
  destruct (m _) as [[a|exc] w]; destruct Hm as [_ Hq]; by exists (bw_backend w).
Qed.

Lemma with_locked_same (b : State) l l' : be_locked b = l → with_locked l (with_locked l' b) = b.
Proof. intros <-. by destruct b. Qed.

(** With a connection, [connect] changes nothing. *)
Lemma connect_while_present task_id request cancellation progress info b (e : E) :
  present info b →
  let '(r, w) := connect_body task_id request cancellation progress (mkBackendWorld b e) in
  w = mkBackendWorld b e ∧ ∀ a, r = Ok a → has_status TaskFinalStatus.FAILED a.
Proof.
  intros Hp.
  assert (∀ message, let '(r, w) := connect_settings_failure task_id message (mkBackendWorld b e) in
    w = mkBackendWorld b e ∧ ∀ a, r = Ok a → has_status TaskFinalStatus.FAILED a) as Hfail.
  { intros message. unfold connect_settings_failure, cleanup_pending, bind, self, gets, ret, lift.
    split; [done|]. intros a Ha. by eapply failed_result_status. }
  unfold connect_body. destruct request as [request|]; [|apply Hfail].
  destruct (validate_request request); [|apply Hfail].
  unfold bind, self, gets. simpl. by rewrite (has_session _ _ Hp).
Qed.

(** C30: [connect] on a backend without a connection ends in one of two ways.
    It returns SUCCEEDED with the [ConnectionInfo] of the connection that the
    backend then has, in the next generation, with nothing left to close; or
    it returns FAILED or CANCELLED, or raises, and the backend has no
    connection.  On a backend with a connection it changes nothing and does
    not succeed.  The lock is free afterwards. *)
Theorem connect_outcome task_id request cancellation progress (b : State) e :
  Reachable b →
  let '(r, w) := connect task_id request cancellation progress (mkBackendWorld b e) in
  be_locked (bw_backend w) = false ∧
  (absent b →
   match r with
   | Ok result =>
       (te_status result = TaskFinalStatus.SUCCEEDED ∧
        ∃ info, te_payload result = ConnectionPayload info ∧ present info (bw_backend w) ∧
          be_pending_close (bw_backend w) = None ∧
          generation_of (bw_backend w) = mkGeneration (cg_value (generation_of b) + 1)) ∨
       (te_status result ∈ [TaskFinalStatus.FAILED; TaskFinalStatus.CANCELLED] ∧
        absent (bw_backend w))
   | Raise _ => absent (bw_backend w)
   end) ∧
  (∀ info, present info b →
   w = mkBackendWorld b e ∧ ∀ result, r = Ok result → te_status result = TaskFinalStatus.FAILED).
Proof.
  intros Hb. destruct (reachable_idle b Hb) as [_ [[Ha|[info Hp]] Hl]].
  - pose proof (exclusively_from _ _ _ _ b e Hb (conj (absent_lock _ true Ha) eq_refl)
      (triple_connect (generation_of b) task_id request cancellation progress)) as Hr.
    unfold connect. destruct (exclusively _ _) as [r w]. destruct Hr as (b' & -> & Hr).
    split; [done|]. split; [intros _|by intros info Hp; destruct (absent_not_present info b)].
    destruct r as [result|]; [|by apply absent_lock].
    apply (connect_end_lock _ _ _ false) in Hr.
    destruct Hr as [info Hr Hp (Hpres & Hw & Hg)|Hr Hn]; [left; split; [done|by exists info]|].
    right. split; [|done]. destruct Hr as [Hr|Hr]; rewrite Hr; set_solver.
  - unfold connect. rewrite exclusively_run by done.
    pose proof (connect_while_present task_id request cancellation progress info _ e
      (present_lock info b true Hp)) as Hr.
    destruct (connect_body _ _ _ _ _) as [r w]. destruct Hr as [-> Hr]. simpl.
    rewrite with_locked_same by done. split; [done|]. split; [|done].
    intros Ha. by destruct (absent_not_present info b).
Qed.

(** C31: [disconnect] and [shutdown] end in one of two ways, or raise.  They
    return SUCCEEDED, and the backend has no connection and nothing left to
    close; or they return FAILED, because closing raised: the connection is
    what it was, and the resource that was to be closed is kept as pending.  An
    exception leaves the connection as it was, or none of it. *)
Theorem disconnect_outcome task_id request progress (b : State) e
    (closing : string → CloseRequest → Progress E → B E Session Transport TaskExecutionResult) :
  closing = disconnect ∨ closing = shutdown → Reachable b →
  let '(r, w) := closing task_id request progress (mkBackendWorld b e) in
  be_locked (bw_backend w) = false ∧
  match r with
  | Ok result =>
      (te_status result = TaskFinalStatus.SUCCEEDED ∧ absent (bw_backend w) ∧
       be_pending_close (bw_backend w) = None) ∨
      (te_status result = TaskFinalStatus.FAILED ∧ same_connection b (bw_backend w) ∧
       isSome (owned b) = true ∧ be_pending_close (bw_backend w) = owned b)
  | Raise _ => same_connection b (bw_backend w) ∨ absent (bw_backend w)
  end.
Proof.
  intros Hc Hb.
  assert (∀ step title, let '(r, w) :=
      exclusively (close task_id request progress step title) (mkBackendWorld b e) in
    be_locked (bw_backend w) = false ∧
    match r with
    | Ok result => close_end b result (bw_backend w)
    | Raise _ => close_failed b (bw_backend w)
    end) as Hr.
  { intros step title. pose proof (exclusively_from _ _ _ _ b e Hb eq_refl
      (triple_close (with_locked true b) task_id request progress step title)) as Hr.
    destruct (exclusively _ _) as [r w]. destruct Hr as (b' & -> & Hr). split; [done|].
    destruct r as [result|]; [by eapply close_end_lock, close_end_from|
      by eapply close_failed_lock, close_failed_from]. }
  assert (∀ step title, closing = (λ t q p, exclusively (close t q p step title)) →
    let '(r, w) := closing task_id request progress (mkBackendWorld b e) in
    be_locked (bw_backend w) = false ∧
    match r with
    | Ok result => close_end b result (bw_backend w)
    | Raise _ => close_failed b (bw_backend w)
    end) as Hr' by (intros step title ->; apply Hr).
  destruct Hc as [Hc|Hc]; specialize (Hr' _ _ Hc); destruct (closing _ _ _ _) as [r w];
    destruct Hr' as [Hl Hr']; (split; [done|]); destruct r as [result|].
  all: lazymatch type of Hr' with
       | close_failed _ _ => destruct Hr' as [Hs|[Ha _]]; [by left|by right]
       | _ => destruct Hr' as [Hs Ha Hw|resource Hs Hsame Ho Hw]; [by left|right; by rewrite Ho]
       end.
Qed.

(** After a [disconnect] that could not close the session, [connect] does
    not try again: it raises RuntimeError and changes nothing, whatever the
    state of the port by then. *)
Theorem failed_disconnect_blocks_connect task_id request progress (b : State) e result w
    task_id' connect_request cancellation progress' info :
  Reachable b → present info b →
  disconnect task_id request progress (mkBackendWorld b e) = (Ok result, w) →
  te_status result = TaskFinalStatus.FAILED →
  validate_request connect_request = Ok tt →
  connect task_id' (Some connect_request) cancellation progress' w =
    (Raise (Err RuntimeError (Lit "connect requested while RuntimeBackend owns a session")), w).
Proof.
  intros Hb Hp Hrun Hf Hv.
  pose proof (exclusively_from _ _ _ _ b e Hb eq_refl (triple_close (with_locked true b) task_id
    request progress "disconnect_sci" "Disconnect SCI / RS232")) as Hr.
  unfold disconnect in Hrun. rewrite Hrun in Hr. destruct Hr as (b' & Hw & Hr).
  destruct Hr as [Hs _ _|resource _ Hsame _ _]; [unfold has_status in Hs; congruence|].
  assert (isSome (be_session b') = true) as Hses.
  { apply of_link in Hsame as (_ & Hses & _). simpl in Hses. rewrite Hses. apply (has_session _ _ Hp). }
  destruct w as [bw ew]. simpl in Hw. subst bw. unfold connect. rewrite exclusively_run by done.
  unfold connect_body. rewrite Hv. unfold bind, self, gets. simpl. by rewrite Hses.
Qed.

(** ** Tasks *)

(** A run of [execute] from a reachable state: what it leaves alone. *)
Lemma execute_kept (J : E → Prop) task_id request cancellation progress b e r w :
  Reachable b → request_ok request → Respects J (permitted request) →
  progress_ok J progress → cancellation_ok J cancellation →
  match be_provider b with Some provider => provider_ok J provider | None => True end → J e →
  execute task_id request cancellation progress (mkBackendWorld b e) = (r, w) →
  J (bw_env w) ∧
  moved (λ event, quiet event ∨ reported task_id request event) b (bw_backend w).
Proof.
  intros Hb Hr HR Hp Hc Hpr HJ Hrun. destruct (reachable_idle b Hb) as [Hs [_ Hl]].
  unfold execute in Hrun. rewrite exclusively_run in Hrun by done.
  set (ok := λ event, quiet event ∨ reported task_id request event).
  pose proof (keeps_execute_locked J (permitted request) HR ok (λ _ Hq, or_introl Hq) task_id request
    cancellation progress Hr eq_refl (λ _ Hq, or_intror Hq) Hp Hc (with_locked true b) e) as Hk.
  unfold wp in Hk. destruct (catch _ _ _) as [r' [b' e']]. injection Hrun as -> <-.
  assert (kept J ok (with_locked true b) (mkBackendWorld b' e')) as (_ & [Hlk Hv Hc'] & HJ')
    by (destruct r; by apply Hk).
  split; [done|]. split; [|exact Hv|exact Hc'].
  apply of_link in Hlk as (_ & ? & ? & ? & ? & ? & ? & ? & ? & ?). unfold generation_of in *.
  unfold link. simpl in *. unfold store in *. simpl in *. rewrite Hl. congruence.
Qed.

(** C32: A task asks nothing of the target but what its request names, whatever
    the image preparation and the target's answers are: every property of the
    surroundings that reading, preparing, closing and the permitted operations
    keep is kept by the whole task.  Permitted is, for an erase, the sectors
    that the scope of the request means, none of them forbidden and all of
    them erasable by the layout of the connected target; to program, verify or
    record as valid, only the image with the identity and the sectors of the
    request; to load or check in RAM, only the RAM image of the request; to
    run, only its entry point.  The connection is the same afterwards. *)
Theorem tasks_ask_what_they_name (J : E → Prop) task_id request cancellation progress b e r w :
  Reachable b → request_ok request → Respects J (permitted request) →
  progress_ok J progress → cancellation_ok J cancellation →
  match be_provider b with Some provider => provider_ok J provider | None => True end → J e →
  execute task_id request cancellation progress (mkBackendWorld b e) = (r, w) →
  J (bw_env w) ∧ link (bw_backend w) = link b.
Proof.
  intros Hb Hr HR Hp Hc Hpr HJ Hrun.
  by destruct (execute_kept J task_id request cancellation progress b e r w) as [? []].
Qed.

(** C33: Evidence is earned: after a task, a target has verification evidence
    that it did not have before only if the task was a verification whose
    operation the target answered with a clean success for the image of the
    request; and RAM evidence only if it was a CRC check that the target
    answered so.  The evidence carries the id of the task. *)
Theorem evidence_earned task_id request cancellation progress b e r w cpu_id :
  Reachable b → request_ok request →
  execute task_id request cancellation progress (mkBackendWorld b e) = (r, w) →
  (∀ evidence, verify_of (bw_backend w) cpu_id = Some evidence →
     verify_of b cpu_id = Some evidence ∨
     (∃ flash_request, request = FlashTask flash_request ∧
        verify_reported task_id flash_request (verified_by evidence) ∧
        ve_operation_id evidence = task_id)) ∧
  (∀ evidence, ram_crc_of (bw_backend w) cpu_id = Some evidence →
     ram_crc_of b cpu_id = Some evidence ∨
     (∃ ram_request, request = RamTask ram_request ∧
        crc_reported task_id ram_request (ram_checked_by evidence) ∧
        ce_operation_id evidence = task_id)).
Proof.
  intros Hb Hr Hrun.
  destruct (execute_kept anywhere task_id request cancellation progress b e r w Hb Hr
    (respects_anywhere _)) as [_ [_ Hv Hc]]; [by destruct progress|by destruct cancellation|
    by destruct (be_provider b)|done|done|].
  split; intros evidence He.
  - destruct (Hv _ _ He) as [|[|Hrep]]; [by left|done|right].
    destruct request as [| | | | |?|?| | | |]; try done.
    + destruct Hrep as (? & ? & ? & ? & ? & ? & ? & ? & _ & _ & _ & _ & ?). done.
    + eexists. split; [done|]. split; [exact Hrep|].
      destruct Hrep as (? & ? & ? & ? & ? & ? & ? & ? & ? & ? & ? & ? & _ & _ & _ & _ & Heq).
      by injection Heq.
  - destruct (Hc _ _ He) as [|[|Hrep]]; [by left|done|right].
    destruct request as [| | | | |?|?| | | |]; try done.
    + eexists. split; [done|]. split; [exact Hrep|].
      destruct Hrep as (? & ? & ? & ? & ? & ? & ? & ? & _ & _ & _ & _ & Heq). by injection Heq.
    + destruct Hrep as (? & ? & ? & ? & ? & ? & ? & ? & ? & ? & ? & ? & _ & _ & _ & _ & ?). done.
Qed.

(** C34: A task whose request names another connection than the active one, or
    none, fails with STALE_CONNECTION; nothing is asked of the target, and
    neither the backend nor its surroundings change. *)
Theorem stale_requests_refused task_id request connection_id cancellation progress b e :
  Reachable b → request_connection request = Some connection_id →
  (∀ info, be_connection_info b = Some info → ci_connection_id info <> connection_id) →
  ∃ result error,
    execute task_id request cancellation progress (mkBackendWorld b e) =
      (Ok result, mkBackendWorld b e) ∧
    te_status result = TaskFinalStatus.FAILED ∧ te_error result = Some error ∧
    ge_code error = "STALE_CONNECTION"%string.
Proof.
  intros Hb Hr Ho. destruct (reachable_idle b Hb) as [Hs [_ Hl]].
  destruct (execute_request_stale task_id request connection_id cancellation progress
    (with_locked true b) e Hs Hr Ho) as (result & error & Hrun & Hrest).
  exists result, error. split; [|done]. unfold execute. rewrite exclusively_run by done.
  unfold catch. rewrite Hrun. simpl. by rewrite with_locked_same.
Qed.

(** C35: IMAGE_VALID is not written without evidence: unless the runtime state
    has, for the target of the request, exactly the verification evidence that
    the request names, the task does not succeed; nothing is asked of the
    target, and neither the backend nor its surroundings change. *)
Theorem image_valid_needs_evidence task_id f i cancellation progress b e :
  Reachable b →
  (∀ cpu_id, from_target_key (mq_target_key f) = Ok cpu_id →
     verify_of b cpu_id <> Some (iv_expected_verify_evidence i)) →
  let '(r, w) := execute task_id (MetadataTask (WriteAdvancedImageValidRequest f i)) cancellation
                   progress (mkBackendWorld b e) in
  w = mkBackendWorld b e ∧ ∀ result, r = Ok result → te_status result = TaskFinalStatus.FAILED.
Proof.
  intros Hb Hn. destruct (reachable_idle b Hb) as [Hs [_ Hl]].
  destruct (reads_image_valid_refused task_id f i cancellation progress (with_locked true b) e Hs)
    as (r & Hrun & Hr); [by intros (cpu_id & Hk & Hv); apply (Hn cpu_id Hk)|].
  unfold execute. rewrite exclusively_run by done. unfold catch. simpl execute_request.
  rewrite Hrun. destruct r as [result|exc].
  - simpl. rewrite with_locked_same by done. split; [done|]. intros ? [= <-]. by apply Hr.
  - destruct exc; simpl; (rewrite with_locked_same by done); split; done.
Qed.

Lemma image_failure_status task_id request code m cause r :
  image_failure task_id request code m cause = Ok r → te_status r = TaskFinalStatus.FAILED.
Proof.
  unfold image_failure. destruct (image_failure_details request). intros Hr.
  by eapply failed_result_status.
Qed.

(** A preparation of a program image that succeeds has committed it: the
    target of the request has in the runtime state, as READY and at the
    selection revision of the request, the image with the entry point, size,
    checksum, end and sectors that the result of the task describes. *)
Theorem prepared_image_committed task_id request cancellation progress b e result w :
  Reachable b →
  execute task_id (PrepareFlashTask request) cancellation progress (mkBackendWorld b e) =
    (Ok result, w) →
  te_status result = TaskFinalStatus.SUCCEEDED →
  ∃ summary, te_payload result = FlashImagePayload summary ∧
    image_committed request summary (bw_backend w).
Proof.
  intros Hb Hrun Hs. set (Q := λ (r : TaskExecutionResult) (b : State),
    te_status r = TaskFinalStatus.SUCCEEDED → ∃ summary,
      te_payload r = FlashImagePayload summary ∧ image_committed request summary b).
  assert (triple (λ _ : State, True) (catch (execute_request task_id (PrepareFlashTask request)
      cancellation progress) (λ exc, match exc with
        | PreparationFailure code m image_path map_path commit_service_state cause =>
            record_preparation_failure (PrepareFlashTask request) code m image_path map_path
              commit_service_state ;;;
            lift (image_failure task_id (PrepareFlashTask request) code m cause)
        | _ => raise exc
        end)) Q (λ _, True)) as Ht.
  { apply (triple_catch _ _ _ _ _ (λ _, True)).
    - eapply triple_conseq; [apply triple_prepare_flash|done|by intros r b' Hr _|done].
    - intros exc. destruct exc; try (by apply triple_raise).
      apply (triple_bind _ _ _ (λ _ _, True)); [by apply triple_any, keeps_record_failure|].
      intros []. apply triple_lift; [|done]. intros r b' Hr _ Hs'.
      apply image_failure_status in Hr. congruence. }
  pose proof (exclusively_from _ _ _ _ b e Hb I Ht) as Hr. unfold execute in Hrun.
  rewrite Hrun in Hr. destruct Hr as (b' & Hw & Hq). destruct (Hq Hs) as (summary & Hp & Hc).
  exists summary. split; [done|]. by rewrite Hw.
Qed.
End properties.

(** ** Witnesses *)

(** A world of the example, its parts apart. *)
Abbreviation At w := (mkBackendWorld (bw_backend w) (bw_env w)).

Lemma backend_lifecycle_witness :
  be_locked (bw_backend example_verified) = false ∧ runtime_ok (store (bw_backend example_verified)) ∧
  (absent (bw_backend example_verified) ∨ ∃ info, present info (bw_backend example_verified)).
Proof. apply (backend_lifecycle (bw_backend example_verified)), example_verified_reachable. Defined.

(** The first connection of the example succeeds. *)
Lemma connect_outcome_witness :
  let '(r, w) := connect "t1" (Some example_connect) None None example_start in
  (te_status <$> match r with Ok result => Some result | Raise _ => None end) =
    Some TaskFinalStatus.SUCCEEDED ∧
  be_locked (bw_backend w) = false.
Proof.
  pose proof (connect_outcome "t1" (Some example_connect) None None (bw_backend example_start)
    (bw_env example_start) example_start_reachable) as Hc.
  change (mkBackendWorld (bw_backend example_start) (bw_env example_start)) with example_start in Hc.
  destruct (connect "t1" (Some example_connect) None None example_start) as [r w] eqn:Hrun.
  split; [|apply Hc]. apply (f_equal fst) in Hrun. vm_compute in Hrun. by subst r.
Defined.

Definition example_close : CloseRequest := mkCloseRequest None None.

Lemma disconnect_outcome_witness :
  let '(r, w) := disconnect "t6" example_close None (At example_verified) in
  r <> Raise (Err RuntimeError (Lit "RuntimeBackend concurrent entry is not allowed")) ∧
  be_locked (bw_backend w) = false.
Proof.
  pose proof (disconnect_outcome "t6" example_close None (bw_backend example_verified)
    (bw_env example_verified) disconnect (or_introl eq_refl) example_verified_reachable) as Hc.
  destruct (disconnect "t6" example_close None (At example_verified)) as [r w] eqn:Hrun.
  split; [|apply Hc]. apply (f_equal fst) in Hrun. vm_compute in Hrun. by subst r.
Defined.

(** The connection of the example, and a world in which closing fails. *)
Definition example_info : ConnectionInfo :=
  match be_connection_info (bw_backend example_verified) with
  | Some info => info
  | None => mkConnectionInfo EmptyString EmptyString EmptyString example_time EmptyString ONone
  end.

Lemma example_present : present example_info (bw_backend example_verified).
Proof.
  constructor; try (vm_compute; reflexivity).
  exists CPU1. split; vm_compute; reflexivity.
Qed.

Definition example_stuck : ExampleWorld :=
  mkBackendWorld (bw_backend example_verified) (mkWires true []).

Lemma failed_disconnect_blocks_connect_witness :
  ∃ result w, disconnect "t6" example_close None example_stuck = (Ok result, w) ∧
    connect "t7" (Some example_connect) None None w =
      (Raise (Err RuntimeError (Lit "connect requested while RuntimeBackend owns a session")), w).
Proof.
  destruct (disconnect "t6" example_close None example_stuck) as [r w] eqn:Hrun.
  pose proof (f_equal fst Hrun) as Hr. vm_compute in Hr. subst r.
  eexists _, w. split; [reflexivity|].
  by apply (failed_disconnect_blocks_connect "t6" example_close None (bw_backend example_verified)
    (mkWires true []) _ w "t7" example_connect None None example_info example_verified_reachable
    example_present Hrun).
Defined.

Lemma stale_requests_refused_witness :
  ∃ result error,
    execute "t8" (StatusTask (DeviceInfoRequest "other")) None None (At example_verified) =
      (Ok result, At example_verified) ∧
    te_status result = TaskFinalStatus.FAILED ∧ te_error result = Some error ∧
    ge_code error = "STALE_CONNECTION"%string.
Proof.
  apply (stale_requests_refused "t8" (StatusTask (DeviceInfoRequest "other")) "other" None None
    (bw_backend example_verified) (bw_env example_verified) example_verified_reachable eq_refl).
  intros info Hi. vm_compute in Hi. injection Hi as <-. done.
Defined.

(** Before the verification there is no evidence for the request. *)
Lemma image_valid_needs_evidence_witness :
  let '(r, w) := execute "t5" (MetadataTask (example_image_valid example_summary_of_service)) None
                   None (At example_prepared) in
  w = At example_prepared ∧ ∀ result, r = Ok result → te_status result = TaskFinalStatus.FAILED.
Proof.
  apply (image_valid_needs_evidence "t5" _ _ None None (bw_backend example_prepared)
    (bw_env example_prepared) example_prepared_reachable).
  intros cpu_id Hk. vm_compute in Hk. injection Hk as <-. vm_compute. discriminate.
Defined.

Lemma evidence_earned_witness :
  verify_of (bw_backend example_prepared) CPU1 = None ∧
  ∃ flash_request, verify_reported "t4" flash_request (verified_by example_evidence) ∧
    ve_operation_id example_evidence = "t4"%string.
Proof.
  split; [vm_compute; reflexivity|].
  destruct (execute "t4" (FlashTask (VerifyAdvancedFlashRequest
    (example_flash_fields example_summary_of_service))) None None (At example_prepared)) as [r w] eqn:Hrun.
  destruct (evidence_earned "t4" (FlashTask (VerifyAdvancedFlashRequest
    (example_flash_fields example_summary_of_service))) None None (bw_backend example_prepared) (bw_env example_prepared)
    r w CPU1 example_prepared_reachable I Hrun) as [Hv _].
  destruct (Hv example_evidence) as [Hold|(request & _ & Hrest)].
  - pose proof (f_equal (λ p, verify_of (bw_backend p.2) CPU1) Hrun) as Hw.
    vm_compute in Hw. symmetry. exact Hw.
  - vm_compute in Hold. discriminate.
  - by exists request.
Defined.

(** The selection of the example, not prepared yet. *)
Definition example_selected : ExampleWorld := after_calls (take 3 example_calls) example_start.

Lemma example_selected_reachable : Reachable (bw_backend example_selected).
Proof.
  unfold example_selected. apply reachable_calls; [|apply example_start_reachable].
  unfold example_calls. simpl. by repeat constructor.
Qed.

Lemma prepared_image_committed_witness :
  ∃ result w summary,
    execute "t2" (PrepareFlashTask (mkPrepareFlash "cpu1" "/app.txt" 1)) None None
      (At example_selected) =
      (Ok result, w) ∧
    te_payload result = FlashImagePayload summary ∧
    image_committed (mkPrepareFlash "cpu1" "/app.txt" 1) summary (bw_backend w).
Proof.
  destruct (execute "t2" (PrepareFlashTask (mkPrepareFlash "cpu1" "/app.txt" 1)) None None
    (At example_selected)) as [r w] eqn:Hrun.
  pose proof (f_equal fst Hrun) as Hr. vm_compute in Hr. subst r.
  destruct (prepared_image_committed "t2" (mkPrepareFlash "cpu1" "/app.txt" 1) None None
    (bw_backend example_selected) (bw_env example_selected) _ w example_selected_reachable Hrun
    eq_refl) as (summary & Hp & Hc).
  eexists _, w, summary. split; [reflexivity|]. by split.
Defined.

(** What the example is never asked while it verifies. *)
Definition never_erased (w : Wires) : Prop := "erase_sectors"%string ∉ wi_calls w.

Lemma asked_keeps call : call <> "erase_sectors"%string → env_keeps never_erased (asked call).
Proof.
  unfold never_erased. intros Hc w Hw. simpl. rewrite elem_of_app, list_elem_of_singleton.
  intros [?|Heq]; [done|]. by apply Hc.
Qed.

Lemma answered_keeps operation summary :
  operation <> "erase_sectors"%string → env_keeps never_erased (answered operation summary).
Proof. intros Ho w Hw. exact (asked_keeps operation Ho w Hw). Qed.

Lemma beside_keeps {A} (m : ST Wires A) : env_keeps never_erased m → op_keeps never_erased (beside m).
Proof. intros Hm s Hs. unfold beside. specialize (Hm _ Hs). by destruct (m (oe_env s)). Qed.

Lemma example_respects :
  Respects never_erased (permitted (FlashTask (VerifyAdvancedFlashRequest
    (example_flash_fields example_summary_of_service)))).
Proof.
  constructor; simpl; intros; try done; try (by apply answered_keeps);
    try (by apply beside_keeps, answered_keeps); try (by intros w Hw).
  - match goal with Hm : Some _ = Some _ |- _ => injection Hm as <- end. by intros w Hw.
  - intros w Hw. by apply (asked_keeps "get_metadata_summary").
  - apply beside_keeps. intros w Hw. by apply (asked_keeps "memory_read").
  - apply beside_keeps, answered_keeps. by destruct call.
Qed.

Lemma example_provider_ok :
  match be_provider (bw_backend example_prepared) with
  | Some provider => provider_ok never_erased provider
  | None => True
  end.
Proof.
  assert (be_provider (bw_backend example_prepared) = Some example_provider) as ->
    by (vm_compute; reflexivity).
  split; intros w Hw; exact Hw.
Qed.

Lemma example_wires_ok : never_erased (bw_env example_prepared).
Proof.
  assert (bw_env example_prepared = mkWires false []) as -> by (vm_compute; reflexivity).
  apply not_elem_of_nil.
Qed.

Lemma tasks_ask_what_they_name_witness :
  never_erased (bw_env (execute "t4" (FlashTask (VerifyAdvancedFlashRequest
    (example_flash_fields example_summary_of_service))) None None (At example_prepared)).2).
Proof.
  destruct (execute "t4" (FlashTask (VerifyAdvancedFlashRequest
    (example_flash_fields example_summary_of_service))) None None (At example_prepared)) as [r w] eqn:Hrun.
  apply (tasks_ask_what_they_name never_erased "t4" (FlashTask (VerifyAdvancedFlashRequest
    (example_flash_fields example_summary_of_service))) None None (bw_backend example_prepared)
    (bw_env example_prepared) r w example_prepared_reachable I example_respects I I); [| |exact Hrun].
  - exact example_provider_ok.
  - exact example_wires_ok.
Defined.
